(* ===== verification/_CoqProject ===== *)
-Q . S2P
Prelude.v
Keyset.v
JsText.v
JsNumber.v
Codec.v
QuietHours.v
Redis.v
RateLimit.v
PolicyLimit.v
Guards.v
Native.v
Indexer.v
IndexerFacts.v
Auth.v
AuthFacts.v
Renewal.v
Reminders.v
Ssrf.v
Signature.v
Pagination.v
Posts.v
Premium.v
Claims.v
Cache.v
Locks.v
Idempotency.v
Sse.v
Appeals.v
Delivery.v
Providers.v
Registration.v
Tenant.v
Amount.v
ClaimJobs.v
FileValidation.v
Ipfs.v
Unsubscribe.v
Notifications.v
NotifySend.v
ClaimHistory.v
Flags.v
Ramp.v
PolicyRead.v
PolicyJobs.v
SorobanRpc.v
Quote.v
Tx.v
Sanitize.v
ClaimView.v
Comments.v
AppealReminder.v
Support.v
Typing.v
Evidence.v
Allowlist.v
Retention.v
Privacy.v
Monitors.v
Export.v
Optimistic.v
CommitReveal.v
Feeds.v
PersistedQuery.v
HorizonLimit.v
Horizon.v
ContractTx.v
ClaimStream.v
Tallies.v
Anonymize.v
EvidenceUpload.v
ErrorFilter.v
SessionExpiry.v
Session.v
SessionLogin.v
Redaction.v
LogShipper.v
AppErrors.v
Toasts.v
Delegation.v
PolicyList.v
