(* ===== verification/Prelude.v ===== *)
(** * NiffyInsure backend: a verification of its core services

    The program is a NestJS backend (src/backend/src) between a Stellar
    insurance contract and its users.  An indexer follows the contract's
    events and projects them onto Postgres; an API over those tables files
    claims, quotes renewals and premiums, publishes posts and delivers
    webhooks; wallets log in by signing a challenge; Redis holds rate-limit
    windows, nonces, sessions and revocations.  This library models the
    services that hold logic of their own and proves what makes them correct.

    ** How the code is modelled

    Pure functions are Rocq functions of the same name.  Stateful handlers
    are programs of the monad [M W E A] of this file (state [W], exceptions
    [E]); a step that can fail consults the failures of its world, so every
    theorem about a handler covers every pattern of failing Redis, database
    and RPC calls.  Numbers are Z; where a value can be NaN, a fraction or past
    2^53 it is an option, or the doubles of JsNumber.  Bigints are Z with
    truncating division.  Strings are byte strings: every literal and
    character class the sources test is ASCII.  What lies outside the
    repository is a parameter: a class of operations with the laws the code
    relies on, and an executable instance of it on which the theorems are
    evaluated.
    - [Tables] (this file): keyed tables, for Postgres rows with unique keys;
      [alist_tables] is the executable one.
    - [RedisHash], [RedisZSet], [RedisString] (Redis): the commands used;
      instances in Redis.Sample.
    - [JobQueue] (Reminders): a queue that ignores a job id it already has.
    - [Hmac] (Signature), [CursorPlatform] (Pagination): digests, Date.parse.
    - [PostTable] (Posts): the posts table with Prisma's conditions; PostSample.
    - [PrismaClient] (Tenant): a client whose query with scalar data reads only what its
      condition selects; TenantSample.
    - [BigJs] (Amount): the decimal library of the asset formatter, by the
      three operations used; AmountSample.
    - [provider_api] (Ipfs), [JobPicker] (NotifySend), [HistoryDb]
      (ClaimHistory), [PolicyTable] (PolicyRead): pinning providers, a queue
      with priorities, the event and policy tables.
    - [Breaker] (SorobanRpc), [TxQueue] (Tx): a circuit breaker that refuses
      calls while it is open, a BullMQ queue that may reject a job.
    - [CommentTable] (Comments): the table of claim comments with its cursor.
    - [EvidenceStore] (EvidenceUpload): what stores a file; the IPFS service of
      Ipfs is its instance.
    - [Node] (Delegation): a node of the network; a chain that follows the
      contract is its instance.
    - [AuthServer] (Session): the backend a page talks to; SessionLogin is its
      instance.
    - [AppealStore] (Appeals), [Queue] (Delivery): the appeals repository and
      a BullMQ queue; Redis keys with NX and PX as they are used in Cache and
      Locks; the contract's answers in ClaimJobs.
    Where other instances share a store, the programs run in a world that
    carries the steps of the others (Cache, Locks): a theorem then holds for
    every interleaving at the granularity of one command.

    ** Files

    Prelude: monad, result type, tables, tactics ([bool_prop], [case_tests],
    [store_simpl]), hint databases, sorting, list and frame lemmas ([keeps]).
    Keyset: keyset pagination over any table: the condition after a cursor,
    and that following the pages reads every selected row once ([follow_all]);
    used by Posts and PolicyRead.
    JsText, JsNumber, Codec: the pieces of the language and platform
    the code uses: string methods and parseInt; Number(text) with rounding to
    the nearest double; toISOString and its inverse; base64url and JSON.parse.

    QuietHours: notifications/quiet-hours.ts.  The end of a quiet period is
    its first end after now, over midnight and time-zone offsets.

    Redis, RateLimit: rate-limit/rate-limit.service.ts, checkWalletLimit,
    checkWalletEvidenceLimit, checkLimit, checkGlobalLimit.  They implement
    [Reference], a limiter that remembers every admitted request: same
    answers over every sequence of requests; no window ever holds more than
    the limit; a client that waits as told is admitted; with Redis down every
    request passes.
    PolicyLimit: the ledger-window counters of the same service.  They
    implement [FixedWindow]; claims admitted per window are bounded.
    Guards: the five guards of rate-limit/*.guard.ts.  A guard only ever
    throws its documented refusal, and the claim and appeal budgets do not
    touch each other.

    Native: values decoded from events, events/events.schema.ts and
    events/parser-registry.ts.
    Indexer, IndexerFacts: indexer/indexer.service.ts.  A batch that fails
    anywhere leaves the database of the events processed before; replaying
    events changes nothing; cursors never move back, only recorded events and
    empty answers move them, and rows are never lost (events of a ledger after
    a failure in the middle of it are skipped, a defect);
    a batch of events moves the cursor to their last ledger; an appeal is
    counted once; two theorems state defects of the code (events the registry
    does not know, appeal resolutions).

    Auth, AuthFacts: auth/*.  A login implies a stored, matching, unexpired
    challenge and a valid signature; a nonce is used once over any further
    history (and twice when the delete fails); refresh tokens rotate, reuse
    within the marker's life revokes the wallet's sessions; logout and
    revocation hold; keys rotate.

    Renewal, Reminders: policy/renewal*.ts.  A quote is given exactly for
    renewable policies; a transaction is built completely or an error is
    returned; a scan finds exactly the policies of its window, each page
    after the last; reminders of different holders can collide.

    Ssrf, Signature: webhooks/ssrf.ts and webhooks/signature.ts.  The IPv4
    filter is a union of CIDR blocks; mapped addresses do not bypass it; an
    accepted target resolves to public addresses only; a signed header is
    accepted exactly inside the window and for the signed body.

    Pagination, Posts: helpers/pagination.ts and posts/*.  Cursors decode to
    what was encoded; following them reads everything once, for lists and for
    the authenticated listing, and never ends for the anonymous one; nothing
    hidden is served; the publishing job announces each due post once.

    Claims: claims/services/claim-aggregation.service.ts.  The quorum figures
    agree with each other and stay in range, computed in doubles; cached
    figures are at most thirty seconds old and Redis failures are harmless.

    Premium: premium/premium.engine.ts and two helpers of
    rpc/soroban.service.ts.  Bounds, monotonicity, the golden vectors, the
    text of an amount.

    Cache, Locks, Idempotency: cache/*.service.ts, redis/cache.ts,
    indexer/indexer.worker.ts, common/middleware/idempotency.middleware.ts.
    The single-flight cache returns what the fetcher returns or a value an
    instance stored, and ends, whatever the others do; the indexer's lock
    excludes a second holder for as long as a lock lives, the cache lock does
    not; a repeated request is answered from the stored response.

    Sse: services/connection-registry.ts and event-stream.ts.  The registry
    of streams is well formed, the two structures that keep it agree, and a
    reconnecting client is sent what it missed while the buffer holds it.

    Appeals: services/appealService.ts and, in Keeper, the appeal keeper of
    jobs/.  One appeal per claim and window, each reminder once, the SLA
    monitor; the keeper's retries and their outcome.

    Delivery, Providers, Registration: webhooks/*.  A delivery is signed,
    sent and recorded; the job that fails is recorded as failed but not
    retried (a defect); inbound requests are accepted exactly when authentic;
    active webhooks were verified and stored targets are safe.

    Tenant: tenant/* and prisma/*.  What the Prisma extension passes on stays
    inside the tenant of the request, except for an update that names the tenant
    column (a defect); the explicit conditions are exact.

    Amount: frontend/lib/amount.ts.  Display and parsing are inverse on the
    locales whose separators the parser knows; other groupings are misread.

    ClaimJobs: the claim deadline scan, the recount of votes and appeals, the
    comparison of tallies with the contract.  What a run changes, what it
    leaves, and three defects.
    PolicyJobs: jobs/policy-expiry-keeper.service.ts and
    jobs/policy-isactive-reconciliation.service.ts.  One cycle exactly, the
    breaker over many cycles, what a comparison corrects, and the rows it
    never compares.

    FileValidation, Ipfs: ipfs/services/*.  Which files pass; which bytes of a
    JPEG image are removed and when its EXIF data stays; an upload asks the
    healthy providers in order; an unhealthy provider stays out until a check
    brings it back; a repeated key replays the first answer.

    Unsubscribe, Notifications, NotifySend: notifications/*.  Tokens verify
    exactly until their expiry; an e-mail is queued exactly when preferences
    allow it and leaves outside quiet hours; digests; each message is accepted
    at most once; urgent jobs go first; the delivery job.

    ClaimHistory: claims/services/claim-history.service.ts.  The timeline of a
    claim, with the events of others when the hash is missing.

    PolicyRead: policy/policy-read.service.ts.  Listing and search read every
    matching policy of the tenant once, newest first.

    Flags: feature-flags/*, the flag operations of admin/admin.service.ts.  A
    flag served as enabled is stored as enabled.

    Ramp: ramp/ramp-premium.service.ts, ramp/ramp.controller.ts and its jobs.
    Completions are announced once when deliveries do not interleave, at least
    once when they do; only authentic bodies change a purchase.

    SorobanRpc, Quote, Tx: the calls of rpc/soroban.service.ts behind the
    circuit breaker, quote/*, tx/*.  A retry pass loses no untaken envelope;
    every quote is the local formula or a value the node computed for the same
    arguments; one key, one submission; the submission queue stays bounded.
    Client errors count as failures of the node (a defect).

    Sanitize, ClaimView, Comments: claims/sanitization.service.ts,
    claims/claim-view.mapper.ts, claims/comments/*.  Sanitized text holds no
    character that opens markup, its encoding is reversible, plain text is
    kept; the figures of a claim's view; following the pages of a discussion
    reads every visible comment once, a deleted one stays deleted, and a
    wallet posts at most five in an hour.
    AppealReminder: claims/appeal-window-reminder.service.ts.  Which claims a
    scan reminds, and at most one pending reminder per claim.
    Evidence: claims/services/evidence-proxy.service.ts.  Files go to the
    parties of a claim only; every download is answered; the verdict on a
    hash does not change what is served.

    Support, Typing: support/* and the closing of idle tickets.  Tickets and
    first responses are kept over every history of requests; what is closed;
    FAQ order; typing signals expire and are held by heartbeats.

    Allowlist, Retention, Privacy, Monitors, Export: admin/* and
    maintenance/*.  The allowlist admits exactly the addresses of its blocks;
    the archive moves every claim that qualifies and loses none, a purge
    removes exactly what is due or nothing; a privacy request is recorded and
    done once; verdicts of the treasury check; exported CSV files read back as
    the rows they were written from, each selected row once.  Module Tls of
    Monitors: common/tls/* and the daily check of certificates; every host is
    checked, in whatever order the checks answer; a warning is only ever given
    for a certificate that has expired (a defect).

    Optimistic: frontend/src/lib/optimistic/* and useOptimisticClaims.ts.
    Polling ends within its timeout and confirms only what a check confirmed;
    the claims hook never confirms an entry.
    ContractTx: frontend/src/hooks/useContractTx.ts.  A run sends the signed
    transaction at most once and follows the life cycle; waiting ends.
    CommitReveal: the voting panel, its storage and the contract's
    commit_reveal.rs.  The contract counts a revealed vote once; a backup
    restores a vote; a vote committed in the panel is never accepted, since
    the two sides hash different texts.

    Feeds: feeds/*.  Following the activity feed reads every event whose
    position is its own once; markup in a feed is escaped and read back.
    PersistedQuery: graphql/persisted-query.middleware.ts.  Only queries of the
    allowlist are executed when it is enforced; a registered query is found.
    HorizonLimit, Horizon: horizon/*.  The limiter implements a limiter that
    counts refused requests too; what a page holds after the field filter and
    the enrichment; answers from the cache; no request while the breaker is open.

    ClaimStream: events/claim-events.service.ts, sse-connection.registry.ts and
    events.controller.ts.  A stream is sent exactly the accepted events of its
    claims, on whatever instance it is open; the registry stays within its limit.
    EvidenceUpload: claims/services/evidence-upload.service.ts over the limiter
    and a store of files.  Every branch of an upload; attempts are bounded; with
    the IPFS service as the store no upload ever succeeds (a defect).
    Anonymize: staging/anonymization.transform.ts and the sample of the staging
    job.  References that are kept, and those that are lost.
    ErrorFilter: common/errors/* and common/filters/http-exception.filter.ts.
    The answer to every exception; internal messages are not told.
    Tallies: useRealtimeTallies.ts and useClaimWatcher.ts of the front end.
    Polling never dies and never doubles; only changes are announced.

    SessionExpiry, Session, SessionLogin: frontend/src/features/auth/* over
    backend/src/auth/auth.controller.ts.  The page is a machine of events;
    the backend is an interface that SessionLogin shows the backend's methods
    to implement.  The session follows the wallet; an account change signs out
    and drops what is cached; the token is that of the address when no refresh
    is under way at a sign-in; a session is refreshed once, since the rotated
    refresh token is not kept (a defect); the expiry of a token is read back.
    Redaction, LogShipper: common/logger/* of the backend, lib/log-shipper.ts,
    lib/cookie-consent.ts and the analytics of the front end.  Sensitive fields
    are hidden at any depth; sanitized text holds no Stellar key; entries leave the
    browser only with a consent that is remembered for a year; each line is
    sent to Loki once.
    AppErrors: lib/errors.ts, lib/api/fetch.ts and lib/retry.ts of the front
    end over ErrorFilter.  What users are shown; the codes of the backend are
    lost on the way (a defect); retries end.

    Delegation: governance/governance.service.ts and soroban/soroban.service.ts
    over the contract's delegations.  The resolution of a delegation ends; in
    a calm state every address is led to one that may vote; a revocation that
    is built gives the vote back; a re-delegation may close a circle (a defect
    of the contract).
    Toasts, PolicyList: use-toast.ts and usePolicies.ts of the front end.
    Toasts stay within their limit and leave; every page of the policy list
    belongs to the filter shown; a change of the filter may hang (a defect).

    ** Fuel

    Loops of the code are Fixpoints on fuel: [catch_up] takes the code's own
    cap on batches as its fuel; [scan_pages] one unit per row and one more,
    proved enough in [scanWindow_complete]; the clients [walk] and
    [walk_posts] one request per item and one more, proved enough in their
    theorems; [json_value] twice the length of the text, as each nested call
    is preceded by a consumed character; [waitForLock] the polls that fit in
    the code's own deadline, [batch_loop] and [reconcile_batches] one unit per
    item of the list they cut into batches, [correct_all] one per batch,
    [schedule_loop] and [withRetry] the code's own number of attempts,
    [strip_loop] one unit per byte and one more ([strip_terminates]), the
    client [follow] one request per row and one more ([follow_all]);
    [remove_all] one unit per character and one more; [scan_loop] and
    [stream_loop] one per row and one more, [archive_loop] one per claim and
    one more, enough in [scan_exact], [export_complete], [archive_complete];
    [examine_all] one per claim; [ticks] six, enough by [polling_ends];
    [poll_loop] one poll for every two seconds of the timeout and one more,
    enough by [confirmation_ends]; [xml_text], [redact_bearer] and
    [redact_assignments] one per character; [withRetry] of AppErrors
    and Delegation, as above, the attempts; [pool] one per host; [resolve_from]
    one per record and two more ([resolve_ends]); [wait_loop] one for every two
    seconds of the timeout and two more ([waiting_ends]).

    ** What is not modelled, and the plan

    Controllers, DTO validation, GraphQL, OpenAPI, configuration and metrics
    are declarations or input/output, and so is Winston under the loggers; of
    the contracts, written in Rust, only commit-reveal voting and delegation
    are modelled, because the panel and the service depend on them; most of
    the web front end is React markup.  The claims service does not type-check
    against the schema of the repository.  Profiles, the older duplicates of
    services (auth.service.ts, notification.service.ts) and the remaining
    operations of admin/ read and write rows without logic of their own.
    Building unsigned transactions (rpc/, tx/) translates arguments for the
    SDK and has no logic of its own. *)

From stdpp Require Import base decidable list strings pretty numbers sorting gmap.
From Stdlib Require Import ZArith Lia Ascii.

Open Scope Z_scope.

(** ** Scope, hint databases and tactics *)

Declare Scope niffy_scope.
Delimit Scope niffy_scope with niffy.
Open Scope niffy_scope.

Create HintDb niffy discriminated.
Create Rewrite HintDb niffy_store.

(** Split the boolean tests of a goal or hypothesis into the propositions
    they decide. *)
Ltac bool_prop :=
  repeat match goal with
  | H : (_ && _) = true |- _ => apply andb_true_iff in H; destruct H
  | H : (_ || _) = false |- _ => apply orb_false_iff in H; destruct H
  | H : negb _ = true |- _ => apply negb_true_iff in H
  | H : negb _ = false |- _ => apply negb_false_iff in H
  | H : (_ <? _) = true |- _ => apply Z.ltb_lt in H
  | H : (_ <? _) = false |- _ => apply Z.ltb_ge in H
  | H : (_ <=? _) = true |- _ => apply Z.leb_le in H
  | H : (_ <=? _) = false |- _ => apply Z.leb_gt in H
  | H : (_ =? _) = true |- _ => apply Z.eqb_eq in H
  | H : (_ =? _) = false |- _ => apply Z.eqb_neq in H
  | H : bool_decide _ = true |- _ => apply bool_decide_eq_true_1 in H
  | H : bool_decide _ = false |- _ => apply bool_decide_eq_false_1 in H
  end.

(** Case on the scrutinee of the outermost test of the goal or a hypothesis. *)
Ltac case_test :=
  match goal with
  | |- context [if ?b then _ else _] => destruct b eqn:?
  | H : context [if ?b then _ else _] |- _ => destruct b eqn:?
  | |- context [match ?x with _ => _ end] => destruct x eqn:?
  | H : context [match ?x with _ => _ end] |- _ => destruct x eqn:?
  end.

Ltac case_tests := repeat (case_test; simplify_eq/=; bool_prop).

(** Refute membership in a concrete list. *)
Ltac not_in_list :=
  let Hin := fresh "Hin" in
  intros Hin; repeat (apply elem_of_cons in Hin as [Hin|Hin]; [done|]);
  by apply elem_of_nil in Hin.

(** Sortedness of a concrete list of integers. *)
Ltac sorted_concrete :=
  cbn; repeat first [apply SSorted_nil | apply SSorted_cons | apply List.Forall_nil | apply List.Forall_cons];
  lia.

(** ** Results of code that may throw *)

Inductive result (E A : Type) : Type :=
  | Ok (a : A)
  | Throw (e : E).
Arguments Ok {E A} a.
Arguments Throw {E A} e.

Definition rbind {E A B} (m : result E A) (f : A → result E B) : result E B :=
  match m with Ok a => f a | Throw e => Throw e end.

Definition is_ok {E A} (m : result E A) : bool :=
  match m with Ok _ => true | Throw _ => false end.

Notation "'let!' x := m 'in' k" := (rbind m (λ x, k))
  (at level 10, x name, m at level 100, k at level 200) : niffy_scope.

(** [xs.map(f)] for a callback that may throw. *)
Fixpoint map_result {E A B} (f : A → result E B) (xs : list A) : result E (list B) :=
  match xs with
  | [] => Ok []
  | x :: xs' => rbind (f x) (λ y, rbind (map_result f xs') (λ ys, Ok (y :: ys)))
  end.

Lemma map_result_forall2 {E A B} (f : A → result E B) xs :
  (∀ x, x ∈ xs → ∃ y, f x = Ok y) → ∃ ys, map_result f xs = Ok ys ∧ Forall2 (λ x y, f x = Ok y) xs ys.
Proof.
  induction xs as [|x xs IH]; intros Hf; [by exists []|]. destruct (Hf x) as [y Hy]; [by left|].
  destruct IH as (ys & Hys & Hall); [intros z Hz; apply Hf; by right|].
  exists (y :: ys). cbn [map_result]. rewrite Hy. cbn [rbind]. rewrite Hys. split; [done|by constructor].
Qed.

Lemma rbind_ok_inv {E A B} (m : result E A) (f : A → result E B) b :
  rbind m f = Ok b → ∃ a, m = Ok a ∧ f a = Ok b.
Proof. destruct m as [a|]; [eauto|done]. Qed.

(** ** Stateful code that may throw: a state and exception monad.

    [M W E A] is an asynchronous method: it runs in a world [W] (the stores it
    mutates) and either resolves or rejects; mutations made before a rejection
    stay in the world, as they do in the source. *)

Definition M (W E A : Type) : Type := W → result E A * W.

Definition ret {W E A} (a : A) : M W E A := λ w, (Ok a, w).
Definition throw {W E A} (e : E) : M W E A := λ w, (Throw e, w).
Definition bind {W E A B} (m : M W E A) (f : A → M W E B) : M W E B :=
  λ w, match m w with
       | (Ok a, w') => f a w'
       | (Throw e, w') => (Throw e, w')
       end.
Definition try_catch {W E E' A} (m : M W E A) (h : E → M W E' A) : M W E' A :=
  λ w, match m w with
       | (Ok a, w') => (Ok a, w')
       | (Throw e, w') => h e w'
       end.
Definition get_world {W E} : M W E W := λ w, (Ok w, w).
Definition put_world {W E} (w : W) : M W E () := λ _, (Ok tt, w).

Notation "'let*' x := m 'in' k" := (bind m (λ x, k))
  (at level 10, x pattern, m at level 100, k at level 200) : niffy_scope.
Notation "'do*' m 'in' k" := (bind m (λ _, k))
  (at level 10, m at level 100, k at level 200) : niffy_scope.

Section monad_facts.
Context {W E : Type}.
Implicit Types w : W.

Lemma bind_ok {A B} (m : M W E A) (f : A → M W E B) w a w' :
  m w = (Ok a, w') → bind m f w = f a w'.
Proof. intros Hm. unfold bind. by rewrite Hm. Qed.

Lemma bind_throw {A B} (m : M W E A) (f : A → M W E B) w e w' :
  m w = (Throw e, w') → bind m f w = (Throw e, w').
Proof. intros Hm. unfold bind. by rewrite Hm. Qed.

Lemma bind_ok_inv {A B} (m : M W E A) (f : A → M W E B) w b w2 :
  bind m f w = (Ok b, w2) → ∃ a w1, m w = (Ok a, w1) ∧ f a w1 = (Ok b, w2).
Proof. unfold bind. destruct (m w) as [[a|e] w1]; [eauto|done]. Qed.

Lemma try_ok {E' A} (m : M W E A) (h : E → M W E' A) w a w' :
  m w = (Ok a, w') → try_catch m h w = (Ok a, w').
Proof. intros Hm. unfold try_catch. by rewrite Hm. Qed.

Lemma try_throw {E' A} (m : M W E A) (h : E → M W E' A) w e w' :
  m w = (Throw e, w') → try_catch m h w = h e w'.
Proof. intros Hm. unfold try_catch. by rewrite Hm. Qed.
End monad_facts.

(** The value and the final world of a run. *)
Definition value_of {W E A} (m : M W E A) (w : W) : result E A := fst (m w).
Definition world_of {W E A} (m : M W E A) (w : W) : W := snd (m w).

(** [for (const x of xs) await body(x)]. *)
Fixpoint for_each {W E A} (xs : list A) (body : A → M W E ()) : M W E () :=
  match xs with
  | [] => ret tt
  | x :: xs' => do* body x in for_each xs' body
  end.

Lemma for_each_invariant {W E A} (P : W → Prop) (body : A → M W E ()) xs w :
  (∀ x w, x ∈ xs → P w → P (world_of (body x) w)) →
  P w → P (world_of (for_each xs body) w).
Proof.
  revert w; induction xs as [|x xs IH]; intros w Hstep Hw; [done|].
  unfold world_of; simpl; unfold bind.
  assert (P (world_of (body x) w)) as Hx by (apply Hstep; [left|done]).
  unfold world_of in Hx; destruct (body x w) as [[[]|e] w'] eqn:Hb; simpl in *; [|done].
  apply IH; [|done]. intros y w2 Hy; apply Hstep; by right.
Qed.

(** ** Frame reasoning

    [keeps P m]: every run of [m] relates the world it starts in to the one it
    ends in by [P], whether it resolves or rejects. *)
Definition keeps {W E A} (P : relation W) (m : M W E A) : Prop := ∀ w, P w (world_of m w).

Section keeps.
Context {W : Type} (P : relation W) `{!PreOrder P}.

Lemma keeps_ret {E A} (a : A) : keeps (E:=E) P (ret a).
Proof. intros w. done. Qed.

Lemma keeps_throw {E A} (e : E) : keeps (A:=A) P (throw e).
Proof. intros w. done. Qed.

Lemma keeps_bind {E A B} (m : M W E A) (f : A → M W E B) :
  keeps P m → (∀ a, keeps P (f a)) → keeps P (bind m f).
Proof.
  intros Hm Hf w. specialize (Hm w). revert Hm. unfold world_of, bind.
  destruct (m w) as [[a|e] w']; intros Hm; [|done]. etrans; [exact Hm|]. apply Hf.
Qed.

Lemma keeps_try {E E' A} (m : M W E A) (h : E → M W E' A) :
  keeps P m → (∀ e, keeps P (h e)) → keeps P (try_catch m h).
Proof.
  intros Hm Hh w. specialize (Hm w). revert Hm. unfold world_of, try_catch.
  destruct (m w) as [[a|e] w']; intros Hm; [done|]. etrans; [exact Hm|]. apply Hh.
Qed.

Lemma keeps_for_each {E A} (xs : list A) (body : A → M W E ()) :
  (∀ x, keeps P (body x)) → keeps P (for_each xs body).
Proof.
  intros Hb. induction xs as [|x xs IH]; [apply keeps_ret|].
  apply keeps_bind; [done|]. intros _. exact IH.
Qed.
End keeps.

#[export] Hint Resolve keeps_ret keeps_throw : niffy.

(** Walk through a method, leaving its elementary effects. *)
Ltac keeps_walk :=
  cbv zeta;
  repeat match goal with
  | |- keeps _ (bind _ _) => apply keeps_bind; [apply _| |intros ?]
  | |- keeps _ (try_catch _ _) => apply keeps_try; [apply _| |intros ?]
  | |- keeps _ (for_each _ _) => apply keeps_for_each; [apply _|intros ?]
  | |- keeps _ (ret _) => apply keeps_ret; apply _
  | |- keeps _ (throw _) => apply keeps_throw; apply _
  | |- keeps _ (if ?b then _ else _) => destruct b
  | |- keeps _ (match ?x with _ => _ end) => destruct x
  end.

(** ** Lists *)

(** Filters that agree on the elements of a list are equal there. *)
Lemma filter_ext_in {A} (P Q : A → Prop) `{!∀ x, Decision (P x), !∀ x, Decision (Q x)} l :
  Forall (λ x, P x ↔ Q x) l → filter P l = filter Q l.
Proof.
  induction l as [|x l IH]; intros Hf; [done|]. apply Forall_cons in Hf as [Hx Hl].
  rewrite !filter_cons, (IH Hl). repeat case_decide; tauto.
Qed.

Lemma filter_none {A} (P : A → Prop) `{!∀ x, Decision (P x)} l :
  Forall (λ x, ¬ P x) l → filter P l = [].
Proof.
  induction l as [|x l IH]; intros Hf; [done|]. apply Forall_cons in Hf as [Hx Hl].
  rewrite filter_cons. case_decide; [done|auto].
Qed.

Lemma filter_all {A} (P : A → Prop) `{!∀ x, Decision (P x)} l :
  Forall P l → filter P l = l.
Proof.
  induction l as [|x l IH]; intros Hf; [done|]. apply Forall_cons in Hf as [Hx Hl].
  rewrite filter_cons, (IH Hl). by case_decide.
Qed.

Lemma Forall_filter_of {A} (P Q : A → Prop) `{!∀ x, Decision (Q x)} l :
  Forall P l → Forall P (filter Q l).
Proof.
  rewrite !Forall_forall. intros Hf x Hx. apply Hf.
  by apply list_elem_of_filter in Hx as [_ Hx].
Qed.

(** Filtering commutes with projection when the test only reads it. *)
Lemma filter_fmap_proj {A B} (f : A → B) (P : B → Prop) `{!∀ x, Decision (P x)} (l : list A) :
  f <$> filter (λ x, P (f x)) l = filter P (f <$> l).
Proof.
  induction l as [|x l IH]; [done|]. rewrite fmap_cons, !filter_cons.
  case_decide; rewrite ?fmap_cons; by rewrite IH.
Qed.

(** [xs.sort(cmp)], which is stable; [gt x y] when the comparator is positive. *)
Fixpoint insert_by {A} (gt : A → A → bool) (x : A) (l : list A) : list A :=
  match l with
  | [] => [x]
  | y :: l' => if gt x y then y :: insert_by gt x l' else x :: l
  end.

Fixpoint stable_sort {A} (gt : A → A → bool) (l : list A) : list A :=
  match l with
  | [] => []
  | x :: l' => insert_by gt x (stable_sort gt l')
  end.

Lemma insert_by_perm {A} (gt : A → A → bool) x l : insert_by gt x l ≡ₚ x :: l.
Proof.
  induction l as [|y l IH]; [done|]. cbn [insert_by]. destruct (gt x y); [|done].
  rewrite IH. apply Permutation_swap.
Qed.

Lemma stable_sort_perm {A} (gt : A → A → bool) l : stable_sort gt l ≡ₚ l.
Proof. induction l as [|x l IH]; [done|]. cbn [stable_sort]. by rewrite insert_by_perm, IH. Qed.

Lemma stable_sort_sorted {A} (R : relation A) `{!Transitive R} (gt : A → A → bool) l :
  (∀ x y, gt x y = false → R x y) → (∀ x y, gt x y = true → R y x) → StronglySorted R (stable_sort gt l).
Proof.
  intros Hle Hgt. induction l as [|x l IH]; [constructor|]. cbn [stable_sort].
  induction (stable_sort gt l) as [|y l' IHl]; [repeat constructor|]. cbn [insert_by].
  apply StronglySorted_inv in IH as [Hs Hy]. destruct (gt x y) eqn:E.
  - constructor; [by apply IHl|]. rewrite insert_by_perm. constructor; [by apply Hgt|done].
  - constructor; [by constructor|]. constructor; [by apply Hle|].
    eapply Forall_impl; [exact Hy|]. intros z Hz. etrans; [by apply Hle|done].
Qed.

Lemma stable_sort_id {A} (R : relation A) (gt : A → A → bool) l :
  (∀ x y, R x y → gt x y = false) → StronglySorted R l → stable_sort gt l = l.
Proof.
  intros Hgt. induction 1 as [|x l Hs IH Hx]; [done|]. cbn [stable_sort]. rewrite IH.
  destruct l as [|y l]; [done|]. cbn [insert_by]. apply Forall_cons in Hx as [Hx _]. by rewrite Hgt.
Qed.

(** ** Persistent storage

    Postgres (reached through Prisma and TypeORM) and Redis are services the
    program only calls.  A table is anything with keyed reads, writes and
    deletes; the models and theorems hold for every implementation that
    satisfies the read-over-write laws. *)

Class Tables := {
  Tbl : Type → Type → Type;
  tempty : ∀ {K V}, Tbl K V;
  tget : ∀ {K V} `{!EqDecision K}, K → Tbl K V → option V;
  tput : ∀ {K V} `{!EqDecision K}, K → V → Tbl K V → Tbl K V;
  tdel : ∀ {K V} `{!EqDecision K}, K → Tbl K V → Tbl K V;
}.

Class TablesLaws `{Tables} : Prop := {
  tget_empty : ∀ {K V} `{!EqDecision K} (k : K), tget k (tempty (V:=V)) = None;
  tget_put : ∀ {K V} `{!EqDecision K} (k k' : K) (v : V) (t : Tbl K V),
    tget k' (tput k v t) = if decide (k = k') then Some v else tget k' t;
  tget_del : ∀ {K V} `{!EqDecision K} (k k' : K) (t : Tbl K V),
    tget k' (tdel k t) = if decide (k = k') then None else tget k' t;
}.

Section tables_facts.
Context `{TablesLaws} {K V : Type} `{!EqDecision K}.
Implicit Types (k : K) (v : V) (t : Tbl K V).

Lemma tget_put_eq k v t : tget k (tput k v t) = Some v.
Proof. rewrite tget_put. by case_decide. Qed.

Lemma tget_put_ne k k' v t : k ≠ k' → tget k' (tput k v t) = tget k' t.
Proof. intros. rewrite tget_put. by case_decide. Qed.

Lemma tget_del_eq k t : tget k (tdel k t) = None.
Proof. rewrite tget_del. by case_decide. Qed.

Lemma tget_del_ne k k' t : k ≠ k' → tget k' (tdel k t) = tget k' t.
Proof. intros. rewrite tget_del. by case_decide. Qed.
End tables_facts.

#[export] Hint Rewrite @tget_put_eq @tget_del_eq @tget_empty using (apply _) : niffy_store.

(** Simplify reads over writes, casing on key equality. *)
Ltac store_simpl :=
  repeat (autorewrite with niffy_store in * ||
          (rewrite tget_put_ne in * by congruence) ||
          (rewrite tget_del_ne in * by congruence)).

(** An executable implementation, used to run the models on concrete data. *)
Section alist.
Context {K V : Type} `{!EqDecision K}.

Fixpoint alist_get (k : K) (t : list (K * V)) : option V :=
  match t with
  | [] => None
  | (k', v) :: t' => if decide (k' = k) then Some v else alist_get k t'
  end.

Definition alist_del (k : K) (t : list (K * V)) : list (K * V) :=
  filter (λ kv, kv.1 ≠ k) t.

Definition alist_put (k : K) (v : V) (t : list (K * V)) : list (K * V) :=
  (k, v) :: alist_del k t.

Lemma alist_get_del k k' t :
  alist_get k' (alist_del k t) = if decide (k = k') then None else alist_get k' t.
Proof.
  unfold alist_del.
  induction t as [|[k0 v0] t IH]; simpl; [by case_decide|].
  rewrite filter_cons; simpl; repeat case_decide; simpl; subst;
    repeat case_decide; simplify_eq; done.
Qed.
End alist.

Lemma alist_get_put {K V} `{!EqDecision K} (k k' : K) (v : V) t :
  alist_get k' (alist_put k v t) = if decide (k = k') then Some v else alist_get k' t.
Proof. unfold alist_put; simpl. rewrite alist_get_del. by repeat case_decide. Qed.

Definition alist_tables : Tables := {|
  Tbl K V := list (K * V);
  tempty _ _ := [];
  tget _ _ _ := alist_get;
  tput _ _ _ := alist_put;
  tdel _ _ _ := alist_del;
|}.

Lemma alist_tables_laws : @TablesLaws alist_tables.
Proof.
  split; intros; simpl.
  - done.
  - apply alist_get_put.
  - apply alist_get_del.
Qed.
