(* ===== verification/Keyset.v ===== *)
(** * Keyset pages

    What the keyset listings of the services share: a listing is read in a strict
    order, a page is the beginning of what comes after the last row of the page
    before, and a client follows the cursors until there is none. *)

From stdpp Require Import base list sorting.
From Stdlib Require Import ZArith Lia Sorted.
From S2P Require Import Prelude.

Open Scope Z_scope.

(** ** Boolean filters *)

Lemma bfilter_all {A} (f : A → bool) l : (∀ x, x ∈ l → f x = true) → List.filter f l = l.
Proof.
  induction l as [|x l IH]; intros H; [done|]. cbn [List.filter].
  rewrite (H x) by left. f_equal. apply IH. intros y Hy. apply H. by right.
Qed.

Lemma bfilter_none {A} (f : A → bool) l : (∀ x, x ∈ l → f x = false) → List.filter f l = [].
Proof.
  induction l as [|x l IH]; intros H; [done|]. cbn [List.filter].
  rewrite (H x) by left. apply IH. intros y Hy. apply H. by right.
Qed.

Lemma filter_filter {A} (f g : A → bool) l :
  List.filter f (List.filter g l) = List.filter (λ x, g x && f x) l.
Proof.
  induction l as [|x l IH]; [done|]. cbn [List.filter]. destruct (g x); cbn [List.filter andb]; by rewrite IH.
Qed.

Lemma filter_perm {A} (f : A → bool) l1 l2 : l1 ≡ₚ l2 → List.filter f l1 ≡ₚ List.filter f l2.
Proof.
  induction 1; cbn [List.filter]; repeat case_match; try done; eauto using Permutation.
Qed.

#[export] Instance bfilter_perm {A} (f : A → bool) : Proper ((≡ₚ) ==> (≡ₚ)) (List.filter f).
Proof. intros l1 l2. apply filter_perm. Qed.

Lemma elem_of_bfilter {A} (f : A → bool) x l : x ∈ List.filter f l ↔ x ∈ l ∧ f x = true.
Proof. by rewrite !list_elem_of_In, List.filter_In. Qed.

Lemma filter_keys_unique {A K} (key : A → K) f l : NoDup (key <$> l) → NoDup (key <$> List.filter f l).
Proof.
  induction l as [|x l IH]; intros Hn; [constructor|]. apply NoDup_cons in Hn as [Hx Hn]. cbn [List.filter].
  destruct (f x); [|by apply IH]. constructor; [|by apply IH]. intros Hin. apply Hx.
  apply list_elem_of_fmap in Hin as (y & -> & [Hy _]%elem_of_bfilter). by apply list_elem_of_fmap_2.
Qed.

(** ** Rows in a strict order *)

Section order.
Context {A : Type} (R : relation A) `{!StrictOrder R}.

(** Two sorted lists of the same rows are the same list. *)
Lemma sorted_unique l1 l2 : StronglySorted R l1 → StronglySorted R l2 → l1 ≡ₚ l2 → l1 = l2.
Proof.
  apply StronglySorted_unique_strong. intros x y _ _ H1 H2. destruct (irreflexivity R x). by etrans.
Qed.

Lemma sorted_split l1 l2 :
  StronglySorted R (l1 ++ l2)%list →
  StronglySorted R l1 ∧ StronglySorted R l2 ∧ (∀ a b, a ∈ l1 → b ∈ l2 → R a b).
Proof.
  induction l1 as [|x l1 IH]; simpl; [intros H; split_and!; [constructor|done|by intros a b ?%elem_of_nil]|].
  intros H. apply StronglySorted_inv in H as [H Hx]. destruct (IH H) as (H1 & H2 & H3).
  rewrite Forall_app in Hx. destruct Hx as [Hx1 Hx2]. rewrite Forall_forall in Hx2.
  split_and!; [by constructor|done|]. intros a b [->|Ha]%elem_of_cons Hb; auto.
Qed.

(** The keyset condition of the last row of a prefix selects the rest. *)
Lemma keyset_selects (after : A → A → bool) l1 x l2 :
  (∀ p, after x p = true ↔ R x p) → StronglySorted R ((l1 ++ [x]) ++ l2)%list →
  List.filter (after x) ((l1 ++ [x]) ++ l2)%list = l2.
Proof.
  intros Ha H. apply sorted_split in H as (H1 & _ & H2). apply sorted_split in H1 as (_ & _ & H1).
  rewrite List.filter_app, (bfilter_none _ (l1 ++ [x])%list), (bfilter_all _ l2); [done| |].
  - intros y Hy. apply Ha, H2; [|done]. apply elem_of_app. right. by left.
  - intros y Hy. destruct (after x y) eqn:E; [|done]. apply Ha in E.
    apply elem_of_app in Hy as [Hy|Hy%list_elem_of_singleton]; [|subst; by apply irreflexivity in E; try apply _].
    destruct (irreflexivity R x). etrans; [exact E|]. apply H1; [done|by left].
Qed.
End order.

(** ** Following the cursors *)

Section walk.
Context {A B C E : Type}.
(** A request with an optional cursor: a page and the next cursor. *)
Variable serve : option C → result E (list B * option C).

Fixpoint follow (fuel : nat) (c : option C) : option (list B) :=
  match fuel with
  | O => None
  | S f =>
      match serve c with
      | Throw _ => None
      | Ok (page, None) => Some page
      | Ok (page, Some c') => match follow f (Some c') with Some l => Some (page ++ l)%list | None => None end
      end
  end.

(** [keyset_listing rows]: every request with the cursor of a prefix of [rows]
    is answered with the next rows, and the next cursor, when there is one, is
    that of the prefix read so far; there is none only at the end. *)
Definition keyset_listing (enc : A → C) (show : A → B) (lim : nat) (rows : list A) : Prop :=
  ∀ l1 l2, rows = (l1 ++ l2)%list →
    ∃ next, serve (enc <$> last l1) = Ok (show <$> take lim l2, next) ∧
      match next with
      | None => (length l2 ≤ lim)%nat
      | Some c => take lim l2 ≠ [] ∧ enc <$> last (l1 ++ take lim l2)%list = Some c
      end.

Lemma follow_rest enc show lim rows fuel l1 l2 :
  keyset_listing enc show lim rows → rows = (l1 ++ l2)%list → (length l2 < fuel)%nat →
  follow fuel (enc <$> last l1) = Some (show <$> l2).
Proof.
  intros Hs. revert l1 l2. induction fuel as [|fuel IH]; intros l1 l2 Hrows Hf; [lia|]. cbn [follow].
  destruct (Hs l1 l2 Hrows) as (next & -> & Hn). destruct next as [c|].
  - destruct Hn as [Hne <-]. rewrite (IH (l1 ++ take lim l2)%list (drop lim l2)).
    + by rewrite <- fmap_app, take_drop.
    + by rewrite <- app_assoc, take_drop.
    + rewrite length_drop. destruct lim, l2; cbn in *; (done || lia).
  - by rewrite take_ge.
Qed.

(** A client that follows the cursors reads every row once, in order, and ends. *)
Lemma follow_all enc show lim rows :
  keyset_listing enc show lim rows → follow (S (length rows)) None = Some (show <$> rows).
Proof. intros Hs. exact (follow_rest enc show lim rows (S (length rows)) [] rows Hs eq_refl (Nat.lt_succ_diag_r _)). Qed.
End walk.
