(* ===== verification/JsText.v ===== *)
(** * Strings and numbers of the source language

    The JavaScript string and number operations the modelled code uses
    (trim, toLowerCase, split, includes, startsWith, parseInt, String(n),
    Math.ceil of a quotient), on byte strings: every literal and every
    character class the sources test is ASCII. *)

From stdpp Require Import base list strings pretty numbers.
From Stdlib Require Import ZArith Lia Ascii.
From S2P Require Import Prelude.

Open Scope string_scope.
Open Scope Z_scope.

(** ** Characters *)

Definition code (c : ascii) : Z := Z.of_N (N_of_ascii c).
Definition in_range (lo hi : ascii) (c : ascii) : bool :=
  (code lo <=? code c) && (code c <=? code hi).
Definition is_digit (c : ascii) : bool := in_range "0" "9" c.
Definition digit_val (c : ascii) : Z := code c - code "0".
Definition is_lower (c : ascii) : bool := in_range "a" "z" c.
Definition is_upper (c : ascii) : bool := in_range "A" "Z" c.
(** The ASCII members of the WhiteSpace and LineTerminator classes. *)
Definition is_ws (c : ascii) : bool :=
  bool_decide (c = " "%char) || ((9 <=? code c) && (code c <=? 13)).
Definition lower_char (c : ascii) : ascii :=
  if is_upper c then ascii_of_N (Z.to_N (code c + 32)) else c.
Definition is_hex (c : ascii) : bool :=
  is_digit c || in_range "a" "f" c || in_range "A" "F" c.
Definition hex_val (c : ascii) : Z :=
  if is_digit c then digit_val c
  else if in_range "a" "f" c then code c - code "a" + 10
  else code c - code "A" + 10.

(** ** Whole-string operations *)

Fixpoint str_map (f : ascii → ascii) (s : string) : string :=
  match s with "" => "" | String c s' => String (f c) (str_map f s') end.
Definition toLowerCase (s : string) : string := str_map lower_char s.
Definition upper_char (c : ascii) : ascii := if is_lower c then ascii_of_N (Z.to_N (code c - 32)) else c.
Definition toUpperCase (s : string) : string := str_map upper_char s.

Fixpoint str_forall (p : ascii → bool) (s : string) : bool :=
  match s with "" => true | String c s' => p c && str_forall p s' end.

Fixpoint str_filter (p : ascii → bool) (s : string) : string :=
  match s with
  | "" => ""
  | String c s' => if p c then String c (str_filter p s') else str_filter p s'
  end.

Fixpoint trimStart (s : string) : string :=
  match s with
  | "" => ""
  | String c s' => if is_ws c then trimStart s' else s
  end.

Fixpoint trimEnd (s : string) : string :=
  match s with
  | "" => ""
  | String c s' =>
      match trimEnd s' with
      | "" => if is_ws c then "" else String c ""
      | t => String c t
      end
  end.
Definition trim (s : string) : string := trimEnd (trimStart s).

Definition startsWith (s p : string) : bool := String.prefix p s.
Fixpoint includes (s p : string) : bool :=
  startsWith s p || match s with "" => false | String _ s' => includes s' p end.
Fixpoint endsWith (s p : string) : bool :=
  bool_decide (s = p) || match s with "" => false | String _ s' => endsWith s' p end.

Fixpoint str_drop (n : nat) (s : string) : string :=
  match n, s with
  | S n', String _ s' => str_drop n' s'
  | _, _ => s
  end.
Fixpoint str_take (n : nat) (s : string) : string :=
  match n, s with
  | S n', String c s' => String c (str_take n' s')
  | _, _ => ""
  end.

(** [s.split(c)] for a one-character separator. *)
Fixpoint split (c : ascii) (s : string) : list string :=
  match s with
  | "" => [""]
  | String a s' =>
      if bool_decide (a = c) then "" :: split c s'
      else match split c s' with
           | [] => [String a ""]
           | p :: ps => String a p :: ps
           end
  end.

Fixpoint join (sep : string) (ps : list string) : string :=
  match ps with
  | [] => ""
  | [p] => p
  | p :: ps' => p +:+ sep +:+ join sep ps'
  end.

(** [s.indexOf(c)] as a split at the first occurrence: the parts before and
    after it. *)
Fixpoint cut (c : ascii) (s : string) : option (string * string) :=
  match s with
  | "" => None
  | String a s' =>
      if bool_decide (a = c) then Some ("", s')
      else match cut c s' with
           | Some (p, q) => Some (String a p, q)
           | None => None
           end
  end.

Definition str_len (s : string) : Z := Z.of_nat (String.length s).

(** ** Numbers *)

(** An integer-valued number; [None] is NaN, the result of a failed parse. *)
Abbreviation num := (option Z).
Definition num_add (a b : num) : num :=
  match a, b with Some x, Some y => Some (x + y) | _, _ => None end.
(** [a >= b]; every comparison with NaN is false. *)
Definition num_geb (a b : num) : bool :=
  match a, b with Some x, Some y => y <=? x | _, _ => false end.

(** [if (s)] on a possibly absent string: absent and empty are falsy. *)
Definition truthy (s : option string) : option string :=
  match s with Some "" => None | _ => s end.

(** Value of a run of decimal digits, continuing from [acc]. *)
Fixpoint digits_val (acc : Z) (s : string) : Z :=
  match s with
  | "" => acc
  | String c s' => digits_val (acc * 10 + digit_val c) s'
  end.
Definition all_digits (s : string) : bool := str_forall is_digit s.
(** [/^\d+$/] *)
Definition some_digits (s : string) : bool := negb (bool_decide (s = "")) && all_digits s.

(** The longest prefix of decimal digits. *)
Fixpoint digit_prefix (s : string) : string :=
  match s with
  | "" => ""
  | String c s' => if is_digit c then String c (digit_prefix s') else ""
  end.

(** [parseInt(s, 10)]; [None] is NaN. *)
Definition parse_digits10 (s : string) : option Z :=
  match digit_prefix s with "" => None | d => Some (digits_val 0 d) end.
Definition parseInt10 (s : string) : option Z :=
  match trimStart s with
  | String "-" s' => Z.opp <$> parse_digits10 s'
  | String "+" s' => parse_digits10 s'
  | s' => parse_digits10 s'
  end.

Fixpoint hex_val_from (acc : Z) (s : string) : Z :=
  match s with
  | "" => acc
  | String c s' => hex_val_from (acc * 16 + hex_val c) s'
  end.

(** [String(n)] / template interpolation of an integer. *)
Definition show_Z (n : Z) : string := pretty n.

(** [Math.ceil(a / b)] and [Math.floor(a / b)] for a positive divisor. *)
Definition ceil_div (a b : Z) : Z := - ((- a) / b).

(** [Math.round(a / b)]: halves round towards plus infinity. *)
Definition round_div (a b : Z) : Z := (2 * a + b) / (2 * b).

(** ** Facts *)

Lemma ceil_div_spec a b : 0 < b → b * (ceil_div a b - 1) < a ≤ b * ceil_div a b.
Proof.
  intros Hb. unfold ceil_div.
  pose proof (Z.div_mod (- a) b ltac:(lia)). pose proof (Z.mod_pos_bound (- a) b Hb). nia.
Qed.

Lemma ceil_div_le a b c : 0 < b → a ≤ b * c → ceil_div a b ≤ c.
Proof. intros Hb Ha. pose proof (ceil_div_spec a b Hb). nia. Qed.

Lemma digit_prefix_all s : all_digits s = true → digit_prefix s = s.
Proof.
  unfold all_digits. induction s as [|c s IH]; simpl; [done|].
  intros [-> H]%andb_true_iff. by rewrite IH.
Qed.

Lemma pretty_N_char_digit x : is_digit (pretty_N_char x) = true.
Proof. unfold pretty_N_char. by repeat case_match. Qed.

Lemma pretty_N_char_val x : (x < 10)%N → digit_val (pretty_N_char x) = Z.of_N x.
Proof.
  intros. assert (x = 0 ∨ x = 1 ∨ x = 2 ∨ x = 3 ∨ x = 4 ∨ x = 5 ∨ x = 6
    ∨ x = 7 ∨ x = 8 ∨ x = 9)%N as Hx by lia.
  by repeat (destruct Hx as [->|Hx]; [done|]); subst.
Qed.

Lemma pretty_N_go_digits x s :
  all_digits s = true → all_digits (pretty_N_go x s) = true.
Proof.
  revert s; induction (N.lt_wf_0 x) as [x _ IH]; intros s Hs.
  destruct (decide (0 < x)%N) as [Hx|]; [|by replace x with 0%N by lia].
  rewrite pretty_N_go_step by done. apply IH; [by apply N.div_lt|].
  unfold all_digits in *; simpl. by rewrite pretty_N_char_digit, Hs.
Qed.

Lemma pretty_N_go_val x s : digits_val 0 (pretty_N_go x s) = digits_val (Z.of_N x) s.
Proof.
  revert s; induction (N.lt_wf_0 x) as [x _ IH]; intros s.
  destruct (decide (0 < x)%N) as [Hx|]; [|by replace x with 0%N by lia].
  rewrite pretty_N_go_step, IH by (done || by apply N.div_lt). simpl.
  rewrite pretty_N_char_val by (by apply N.mod_lt).
  f_equal. rewrite N2Z.inj_div, N2Z.inj_mod.
  pose proof (Z.div_mod (Z.of_N x) 10). lia.
Qed.

Lemma pretty_N_digits n : all_digits (pretty (n : N)) = true.
Proof.
  unfold pretty, pretty_N. case_decide; [done|]. by apply pretty_N_go_digits.
Qed.

Lemma pretty_N_val n : digits_val 0 (pretty (n : N)) = Z.of_N n.
Proof. unfold pretty, pretty_N. case_decide; [by subst|]. apply pretty_N_go_val. Qed.

Lemma digits_val_nonneg acc s :
  all_digits s = true → 0 ≤ acc → 0 ≤ digits_val acc s.
Proof.
  unfold all_digits. revert acc; induction s as [|c s IH]; simpl; [done|].
  intros acc [Hc Hs]%andb_true_iff Hacc. apply IH; [done|].
  unfold is_digit, in_range, digit_val, code in *; bool_prop. lia.
Qed.

Lemma show_Z_nonneg n : 0 ≤ n → show_Z n = pretty (Z.to_N n).
Proof. unfold show_Z. destruct n; simpl; [done|done|lia]. Qed.

Lemma show_Z_digits n : 0 ≤ n → all_digits (show_Z n) = true.
Proof. intros. rewrite show_Z_nonneg by done. apply pretty_N_digits. Qed.

Lemma show_Z_val n : 0 ≤ n → digits_val 0 (show_Z n) = n.
Proof. intros. rewrite show_Z_nonneg, pretty_N_val by done. lia. Qed.

Lemma pretty_N_ne_empty n : pretty (n : N) ≠ "".
Proof.
  intros E. pose proof (pretty_N_val n) as H. rewrite E in H; simpl in H.
  assert (n = 0)%N by lia. by subst.
Qed.

Lemma pretty_N_go_length (k : nat) (x : N) s :
  (x < 10 ^ N.of_nat k)%N → (String.length (pretty_N_go x s) ≤ k + String.length s)%nat.
Proof.
  revert x s. induction k as [|k IH]; intros x s Hx.
  - change (10 ^ N.of_nat 0)%N with 1%N in Hx. replace x with 0%N by lia. by rewrite pretty_N_go_0.
  - destruct (decide (x = 0)%N) as [->|Hne]; [rewrite pretty_N_go_0; lia|].
    rewrite pretty_N_go_step by lia.
    assert (x / 10 < 10 ^ N.of_nat k)%N.
    { apply N.Div0.div_lt_upper_bound. rewrite Nat2N.inj_succ, N.pow_succ_r' in Hx. done. }
    specialize (IH (x / 10)%N (String (pretty_N_char (x mod 10)) s) H). cbn [String.length] in IH. lia.
Qed.

Lemma show_Z_length (k : nat) n : (0 < k)%nat → 0 ≤ n < 10 ^ Z.of_nat k → (String.length (show_Z n) ≤ k)%nat.
Proof.
  intros Hk Hn. rewrite show_Z_nonneg by lia. unfold pretty, pretty_N. case_decide; [cbn; lia|].
  pose proof (pretty_N_go_length k (Z.to_N n) "") as Hl. cbn [String.length] in Hl.
  rewrite Nat.add_0_r in Hl. apply Hl. apply N2Z.inj_lt. rewrite Z2N.id, N2Z.inj_pow, nat_N_Z by lia. apply Hn.
Qed.

Lemma show_Z_ne_empty n : show_Z n ≠ "".
Proof.
  unfold show_Z. destruct n as [|p|p]; simpl; [done| |].
  - apply (pretty_N_ne_empty (Npos p)).
  - done.
Qed.

Lemma parse_digits10_all s :
  all_digits s = true → s ≠ "" → parse_digits10 s = Some (digits_val 0 s).
Proof.
  intros H Hne. unfold parse_digits10. rewrite digit_prefix_all by done. by destruct s.
Qed.

Lemma is_digit_not_ws c : is_digit c = true → is_ws c = false.
Proof.
  unfold is_digit, in_range, is_ws. intros [H1 H2]%andb_true_iff; bool_prop.
  apply orb_false_iff; split; [apply bool_decide_eq_false_2; intros ->; done|].
  apply andb_false_iff; right. change (code "0") with 48 in *. lia.
Qed.

Lemma parseInt10_digits s :
  all_digits s = true → s ≠ "" → parseInt10 s = Some (digits_val 0 s).
Proof.
  intros H Hne. destruct s as [|c s]; [done|].
  assert (is_digit c = true) as Hc by (unfold all_digits in H; simpl in H; by bool_prop).
  rewrite <- (parse_digits10_all _ H Hne).
  unfold parseInt10; simpl. rewrite is_digit_not_ws by done.
  destruct c as [[] [] [] [] [] [] [] []]; done.
Qed.

(** Every integer survives [parseInt(String(n), 10)]. *)
Lemma parseInt10_show n : parseInt10 (show_Z n) = Some n.
Proof.
  destruct n as [|p|p]; [done| |].
  - rewrite parseInt10_digits; [by rewrite show_Z_val| |apply show_Z_ne_empty].
    by apply show_Z_digits.
  - change (show_Z (Z.neg p)) with (String "-" (pretty (N.pos p))).
    unfold parseInt10; simpl.
    rewrite parse_digits10_all by (apply pretty_N_digits || apply pretty_N_ne_empty).
    by rewrite pretty_N_val.
Qed.

#[export] Hint Resolve show_Z_digits show_Z_ne_empty ceil_div_le : niffy.

#[export] Hint Resolve is_digit_not_ws : niffy.

#[local] Arguments String.append : simpl nomatch.

Lemma str_app_assoc (a b c : string) : (a +:+ b) +:+ c = a +:+ (b +:+ c).
Proof. by induction a; simpl; f_equal. Qed.

Lemma str_app_nil_r (a : string) : a +:+ "" = a.
Proof. by induction a; simpl; f_equal. Qed.

Lemma str_app_inj_l (a b c : string) : a +:+ b = a +:+ c → b = c.
Proof. induction a; simpl; [done|]. intros [=]. auto. Qed.

Lemma cut_app c p s :
  str_forall (λ a, negb (bool_decide (a = c))) p = true →
  cut c (p +:+ String c s) = Some (p, s).
Proof.
  induction p as [|a p IH]; simpl.
  - by rewrite bool_decide_true.
  - intros [Ha Hp]%andb_true_iff. apply negb_true_iff in Ha. rewrite Ha.
    by rewrite IH.
Qed.

Lemma split_nil c s : split c s ≠ [].
Proof. induction s; simpl; [done|]. by repeat case_match. Qed.

Lemma split_single c p :
  str_forall (λ a, negb (bool_decide (a = c))) p = true → split c p = [p].
Proof.
  induction p as [|a p IH]; simpl; [done|].
  intros [Ha Hp]%andb_true_iff. apply negb_true_iff in Ha. rewrite Ha. by rewrite IH.
Qed.

Lemma split_app c p s :
  str_forall (λ a, negb (bool_decide (a = c))) p = true →
  split c (p +:+ String c s) = p :: split c s.
Proof.
  induction p as [|a p IH]; simpl.
  - by rewrite bool_decide_true.
  - intros [Ha Hp]%andb_true_iff. apply negb_true_iff in Ha. rewrite Ha. by rewrite IH.
Qed.

Lemma join_split c s : join (String c "") (split c s) = s.
Proof.
  induction s as [|a s IH]; simpl; [done|].
  pose proof (split_nil c s) as Hne.
  case_bool_decide; subst; destruct (split c s) as [|q qs] eqn:Hs; try done.
  - simpl in *. by rewrite IH.
  - rewrite <- IH. by destruct qs.
Qed.

Lemma str_forall_impl (p q : ascii → bool) s :
  (∀ c, p c = true → q c = true) → str_forall p s = true → str_forall q s = true.
Proof.
  intros Hpq. induction s as [|c s IH]; simpl; [done|].
  intros [Hc Hs]%andb_true_iff. rewrite (Hpq c Hc). by apply IH.
Qed.

Lemma str_forall_app p a b : str_forall p (a +:+ b) = str_forall p a && str_forall p b.
Proof. induction a; simpl; [done|]. by rewrite IHa, andb_assoc. Qed.

(** Digits never contain a given non-digit separator. *)
Lemma digits_avoid c s :
  is_digit c = false → all_digits s = true →
  str_forall (λ a, negb (bool_decide (a = c))) s = true.
Proof.
  intros Hc. apply str_forall_impl. intros a Ha.
  apply negb_true_iff, bool_decide_eq_false_2. intros ->. congruence.
Qed.

Lemma toLowerCase_app a b : toLowerCase (a +:+ b) = toLowerCase a +:+ toLowerCase b.
Proof. unfold toLowerCase. induction a as [|c a IH]; simpl; [done|]. by rewrite IH. Qed.

Lemma prefix_ne a b p s : a ≠ b → String.prefix (String a p) (String b s) = false.
Proof. intros H. cbn. by destruct (ascii_dec a b). Qed.

Lemma str_app_cons c a b : String c a +:+ b = String c (a +:+ b).
Proof. done. Qed.
Lemma str_app_nil_l b : "" +:+ b = b.
Proof. done. Qed.
Lemma prefix_nil s : String.prefix "" s = true.
Proof. by destruct s. Qed.

Lemma prefix_cons c a b : String.prefix (String c a) (String c b) = String.prefix a b.
Proof. simpl. by destruct (ascii_dec c c). Qed.

(** Strings that start with incomparable prefixes differ. *)
Lemma prefixes_differ p q s t :
  String.prefix p q || String.prefix q p = false → p +:+ s ≠ q +:+ t.
Proof.
  revert q. induction p as [|c p IH]; intros [|d q] Hp; try done.
  change (String c (p +:+ s) ≠ String d (q +:+ t)). intros [= <- E].
  rewrite !prefix_cons in Hp. by apply (IH q).
Qed.

(** ** Text that needs no trimming *)

Definition avoids (c : ascii) (s : string) : bool := str_forall (λ a, negb (bool_decide (a = c))) s.

Lemma trimStart_clean s : str_forall (λ c, negb (is_ws c)) s = true → trimStart s = s.
Proof. destruct s as [|c s]; [done|]. simpl. intros [Hc _]%andb_true_iff. by destruct (is_ws c). Qed.

Lemma trimEnd_clean s : str_forall (λ c, negb (is_ws c)) s = true → trimEnd s = s.
Proof.
  induction s as [|c s IH]; [done|]. simpl. intros [Hc Hs]%andb_true_iff. rewrite (IH Hs).
  apply negb_true_iff in Hc. rewrite Hc. by destruct s.
Qed.

(** ** Dates *)

(** [n] in decimal, padded on the left with zeros to [w] characters. *)
Fixpoint zeros (n : nat) : string := match n with O => "" | S n' => String "0" (zeros n') end.
Definition pad (w : nat) (n : Z) : string := zeros (w - String.length (show_Z n)) +:+ show_Z n.

(** Year, month and day of a day number (days since 1970-01-01), proleptic
    Gregorian calendar. *)
Definition civil (days : Z) : Z * Z * Z :=
  let z := days + 719468 in
  let era := z / 146097 in
  let doe := z mod 146097 in
  let yoe := (doe - doe / 1460 + doe / 36524 - doe / 146096) / 365 in
  let doy := doe - (365 * yoe + yoe / 4 - yoe / 100) in
  let mp := (5 * doy + 2) / 153 in
  let m := if mp <? 10 then mp + 3 else mp - 9 in
  let y := yoe + era * 400 + (if m <=? 2 then 1 else 0) in
  (y, m, doy - (153 * mp + 2) / 5 + 1).

(** [new Date(ms).toISOString()] for the years 0 to 9999. *)
Definition toISOString (ms : Z) : string :=
  let '(y, m, d) := civil (ms / 86400000) in
  let t := ms mod 86400000 in
  pad 4 y +:+ "-" +:+ pad 2 m +:+ "-" +:+ pad 2 d +:+ "T" +:+
  pad 2 (t / 3600000) +:+ ":" +:+ pad 2 (t / 60000 mod 60) +:+ ":" +:+ pad 2 (t / 1000 mod 60) +:+ "." +:+
  pad 3 (t mod 1000) +:+ "Z".

Example toISOString_epoch : toISOString 0 = "1970-01-01T00:00:00.000Z".
Proof. reflexivity. Qed.
Example toISOString_leap : toISOString 1709208000123 = "2024-02-29T12:00:00.123Z".
Proof. reflexivity. Qed.

(** ** Lengths, prefixes and separators of concatenations *)

Lemma length_zeros k : String.length (zeros k) = k.
Proof. induction k; cbn; congruence. Qed.

Lemma length_string_app (a b : string) : String.length (a +:+ b) = (String.length a + String.length b)%nat.
Proof. induction a as [|c a IH]; [done|]. change (S (String.length (a +:+ b)) = S (String.length a + String.length b)). by rewrite IH. Qed.

Lemma startsWith_app (p s : string) : startsWith (p +:+ s) p = true.
Proof.
  induction p as [|c p IH]; [by destruct s|].
  change ((if ascii_dec c c then startsWith (p +:+ s) p else false) = true). by destruct (ascii_dec c c).
Qed.

(** A text before its first separator is determined. *)
Lemma sep_free_split (c : ascii) (t1 t2 k1 k2 : string) :
  avoids c t1 = true → avoids c t2 = true →
  t1 +:+ String c k1 = t2 +:+ String c k2 → t1 = t2 ∧ k1 = k2.
Proof.
  revert t2. induction t1 as [|d t1 IH]; intros [|d2 t2] H1 H2 Heq.
  - by injection Heq.
  - change (String c k1 = String d2 (t2 +:+ String c k2)) in Heq. injection Heq as <- _.
    cbn in H2. by rewrite bool_decide_true in H2.
  - change (String d (t1 +:+ String c k1) = String c k2) in Heq. injection Heq as -> _.
    cbn in H1. by rewrite bool_decide_true in H1.
  - change (String d (t1 +:+ String c k1) = String d2 (t2 +:+ String c k2)) in Heq. injection Heq as -> Heq.
    cbn in H1, H2. apply andb_true_iff in H1 as [_ H1]. apply andb_true_iff in H2 as [_ H2].
    destruct (IH t2) as [-> ->]; auto.
Qed.

(** ** Prefixes and suffixes *)

Lemma endsWith_iff s p : endsWith s p = true ↔ ∃ a, s = a +:+ p.
Proof.
  split.
  - induction s as [|c s IH]; cbn [endsWith]; intros He.
    + apply orb_true_iff in He as [He%bool_decide_eq_true|He]; [|done]. subst p. by exists "".
    + apply orb_true_iff in He as [He%bool_decide_eq_true|He]; [subst p; by exists ""|].
      destruct (IH He) as [a ->]. by exists (String c a).
  - intros [a ->]. induction a as [|c a IH].
    + change ("" +:+ p) with p. destruct p; cbn [endsWith]; by rewrite bool_decide_true by done.
    + change (String c a +:+ p) with (String c (a +:+ p)). cbn [endsWith]. by rewrite IH, orb_true_r.
Qed.

Lemma str_take_drop n s : str_take n s +:+ str_drop n s = s.
Proof. revert n. induction s as [|c s IH]; intros [|n]; simpl; [done..|by rewrite IH]. Qed.

Lemma length_str_take n s : String.length (str_take n s) = (n `min` String.length s)%nat.
Proof. revert n. induction s as [|c s IH]; intros [|n]; simpl; [done..|by rewrite IH]. Qed.

Lemma str_take_app a b : str_take (String.length a) (a +:+ b) = a.
Proof. induction a as [|c a IH]; simpl; [by destruct b|by rewrite IH]. Qed.
Lemma str_drop_app a b : str_drop (String.length a) (a +:+ b) = b.
Proof. induction a as [|c a IH]; simpl; [by destruct b|done]. Qed.

(** A text of at least two characters has a first, a middle and a last. *)
Lemma str_ends s : (2 ≤ String.length s)%nat → ∃ c m e, s = String c (m +:+ String e "").
Proof.
  destruct s as [|c s]; simpl; [lia|]. intros Hl. exists c, (str_take (String.length s - 1) s).
  destruct (str_drop (String.length s - 1) s) as [|e t] eqn:Hd.
  - pose proof (str_take_drop (String.length s - 1) s) as Hs. rewrite Hd, str_app_nil_r in Hs.
    pose proof (length_str_take (String.length s - 1) s) as Hlen. rewrite Hs in Hlen. lia.
  - exists e. pose proof (str_take_drop (String.length s - 1) s) as Hs. rewrite Hd in Hs.
    assert (t = "") as ->; [|by rewrite Hs].
    apply (f_equal String.length) in Hs. rewrite length_string_app, length_str_take in Hs. simpl in Hs.
    destruct t; [done|simpl in Hs; lia].
Qed.

(** ** Regular expressions *)

(** A fixed sequence of character classes, anchored at both ends. *)
Fixpoint matches_classes (cs : list (ascii → bool)) (s : string) : bool :=
  match cs, s with
  | [], "" => true
  | p :: cs', String c s' => p c && matches_classes cs' s'
  | _, _ => false
  end.

Lemma matches_classes_app (cs ds : list (ascii → bool)) s :
  matches_classes (cs ++ ds)%list s =
  matches_classes cs (str_take (length cs) s) && matches_classes ds (str_drop (length cs) s).
Proof.
  revert s. induction cs as [|p cs IH]; intros s; cbn; [by destruct s|]. destruct s as [|c s]; cbn; [done|].
  rewrite IH. by rewrite andb_assoc.
Qed.

Lemma matches_classes_replicate n p s :
  matches_classes (replicate n p) s = bool_decide (String.length s = n) && str_forall p s.
Proof.
  revert s. induction n as [|n IH]; intros s; cbn; [by destruct s|]. destruct s as [|c s]; cbn; [done|].
  rewrite IH. rewrite (bool_decide_ext (S (String.length s) = S n) (String.length s = n)) by (split; congruence).
  by destruct (p c), (bool_decide _).
Qed.

(** ** Reading ISO dates back

    The inverse of [toISOString] on the dates from 1970 on: the calendar
    conversion and the text. *)

(** The day number of a date. *)
Definition days_of_civil (y m d : Z) : Z :=
  let y' := if m <=? 2 then y - 1 else y in
  let era := y' / 400 in
  let yoe := y' mod 400 in
  let mp := if m <=? 2 then m + 9 else m - 3 in
  let doy := (153 * mp + 2) / 5 + d - 1 in
  era * 146097 + (yoe * 365 + yoe / 4 - yoe / 100 + doy) - 719468.

(** The year of an era and the day of that year are in range. *)
Lemma year_of_era doe :
  0 ≤ doe < 146097 →
  let yoe := (doe - doe / 1460 + doe / 36524 - doe / 146096) / 365 in
  let doy := doe - (365 * yoe + yoe / 4 - yoe / 100) in
  0 ≤ yoe < 400 ∧ 0 ≤ doy ≤ 365.
Proof. intros Hdoe. cbv zeta. Z.to_euclidean_division_equations. lia. Qed.

Lemma civil_inverse days :
  let '(y, m, d) := civil days in
  days_of_civil y m d = days ∧ 1 ≤ m ≤ 12 ∧ 1 ≤ d ≤ 31.
Proof.
  unfold civil. set (z := days + 719468). pose proof (Z.mod_pos_bound z 146097 ltac:(lia)) as Hdoe.
  pose proof (Z.div_mod z 146097 ltac:(lia)) as Hz.
  pose proof (year_of_era (z mod 146097) Hdoe) as Hy. cbv zeta in Hy |- *.
  set (doe := z mod 146097) in *. set (era := z / 146097) in *.
  set (yoe := (doe - doe / 1460 + doe / 36524 - doe / 146096) / 365) in *.
  set (doy := doe - (365 * yoe + yoe / 4 - yoe / 100)) in *.
  destruct Hy as [Hyoe Hdoy]. assert (Hmp : 0 ≤ (5 * doy + 2) / 153 ≤ 11)
    by (clear -Hdoy; Z.to_euclidean_division_equations; lia).
  assert (Hd : 1 ≤ doy - (153 * ((5 * doy + 2) / 153) + 2) / 5 + 1 ≤ 31)
    by (clear -Hdoy; clearbody doy; Z.to_euclidean_division_equations; lia).
  unfold days_of_civil. set (mp := (5 * doy + 2) / 153) in *.
  assert (Hera : ∀ x, x = yoe + era * 400 → x / 400 = era ∧ x mod 400 = yoe).
  { clear -Hyoe. intros x ->. clearbody yoe era. Z.to_euclidean_division_equations. lia. }
  destruct (Z.ltb_spec mp 10).
  - destruct (Z.leb_spec (mp + 3) 2); [lia|]. destruct (Hera (yoe + era * 400 + 0)) as [-> ->]; [lia|].
    replace (mp + 3 - 3) with mp by lia. lia.
  - destruct (Z.leb_spec (mp - 9) 2); [|lia]. destruct (Hera (yoe + era * 400 + 1 - 1)) as [-> ->]; [lia|].
    replace (mp - 9 + 9) with mp by lia. lia.
Qed.

(** A run of digits up to a separator. *)
Definition field (c : ascii) (s : string) : option (Z * string) :=
  match cut c s with
  | Some (p, q) => if some_digits p then Some (digits_val 0 p, q) else None
  | None => None
  end.

(** The ISO format with milliseconds and Z. *)
Definition parseISO (s : string) : option Z :=
  match field "-" s with Some (y, s) =>
  match field "-" s with Some (mo, s) =>
  match field "T" s with Some (d, s) =>
  match field ":" s with Some (h, s) =>
  match field ":" s with Some (mi, s) =>
  match field "." s with Some (sec, s) =>
  match field "Z" s with Some (ms, "") =>
    Some (days_of_civil y mo d * 86400000 + h * 3600000 + mi * 60000 + sec * 1000 + ms)
  | _ => None end | _ => None end | _ => None end | _ => None end | _ => None end | _ => None end
  | _ => None end.

Lemma zeros_digits k : all_digits (zeros k) = true.
Proof. unfold all_digits. by induction k. Qed.

Lemma digits_val_zeros k s : digits_val 0 (zeros k +:+ s) = digits_val 0 s.
Proof. by induction k. Qed.

Lemma field_pad c w n s : is_digit c = false → 0 ≤ n → field c (pad w n +:+ String c s) = Some (n, s).
Proof.
  intros Hc Hn. assert (Hd : all_digits (pad w n) = true).
  { unfold pad, all_digits. rewrite str_forall_app. apply andb_true_iff.
    split; [apply zeros_digits|by apply show_Z_digits]. }
  unfold field. rewrite cut_app by (by apply digits_avoid). unfold some_digits. rewrite Hd.
  rewrite bool_decide_false.
  - unfold pad. cbn [negb andb]. by rewrite digits_val_zeros, show_Z_val.
  - unfold pad. destruct (w - _)%nat; [apply show_Z_ne_empty|done].
Qed.

Lemma field_sep c w n s :
  is_digit c = false → 0 ≤ n → field c (pad w n +:+ String c "" +:+ s) = Some (n, s).
Proof. apply field_pad. Qed.

Lemma civil_year_nonneg days : 0 ≤ days → let '(y, _, _) := civil days in 0 ≤ y.
Proof.
  intros Hd. unfold civil. pose proof (Z.mod_pos_bound (days + 719468) 146097 ltac:(lia)) as Hdoe.
  pose proof (year_of_era _ Hdoe) as [Hy _]. cbv zeta in Hy.
  assert (0 ≤ (days + 719468) / 146097) by (apply Z.div_pos; lia). destruct (_ <=? 2); lia.
Qed.

(** Every instant from 1970 on survives [toISOString]. *)
Lemma parseISO_toISOString ms : 0 ≤ ms → parseISO (toISOString ms) = Some ms.
Proof.
  intros Hms. unfold toISOString. pose proof (civil_inverse (ms / 86400000)) as Hc.
  pose proof (civil_year_nonneg (ms / 86400000) ltac:(apply Z.div_pos; lia)) as Hy.
  destruct (civil (ms / 86400000)) as [[y m] d]. destruct Hc as (Hdays & Hm & Hd).
  pose proof (Z.mod_pos_bound ms 86400000 ltac:(lia)) as Ht. set (t := ms mod 86400000) in *.
  assert (Hp : ∀ a b, 0 ≤ a → 0 < b → 0 ≤ a / b) by (intros; by apply Z.div_pos).
  assert (Hq : ∀ a b, 0 < b → 0 ≤ a mod b) by (intros; by apply Z.mod_pos_bound).
  unfold parseISO. repeat (rewrite field_sep by (done || lia || (apply Hp; lia) || (apply Hq; lia))).
  rewrite field_pad by (done || lia || (apply Hp; lia) || (apply Hq; lia)).
  rewrite Hdays. apply (f_equal Some). subst t. clear. Z.to_euclidean_division_equations. lia.
Qed.
