(* ===== verification/JsNumber.v ===== *)
(** * Number(text) and double precision

    The conversion of a string to a number in the source language: the
    literal grammar (decimal with fraction and exponent, hexadecimal, octal
    and binary, Infinity, the empty string) and the rounding of the literal's
    exact value to the nearest double, ties to even. *)

From stdpp Require Import base list strings.
From Stdlib Require Import ZArith Lia Ascii.
From S2P Require Import Prelude JsText.

Open Scope string_scope.
Open Scope Z_scope.

(** A finite double: [d_mant * 2 ^ d_exp]. *)
Record double := { d_mant : Z; d_exp : Z }.

(** [round_half_even n d]: the integer nearest to [n / d], ties to even. *)
Definition round_half_even (n d : Z) : Z :=
  let q := n / d in
  let r := n mod d in
  if 2 * r <? d then q
  else if d <? 2 * r then q + 1
  else if Z.even q then q else q + 1.

(** [floor (log2 (n / d))] for positive [n] and [d]. *)
Definition log2_ratio (n d : Z) : Z :=
  let k := Z.log2 n - Z.log2 d in
  let reached := if 0 <=? k then d * 2 ^ k <=? n else d <=? n * 2 ^ (- k) in
  if reached then k else k - 1.

(** The double nearest to the non-negative rational [n / d]; [None] when it
    overflows to Infinity. *)
Definition round_double (n d : Z) : option double :=
  if n =? 0 then Some {| d_mant := 0; d_exp := 0 |}
  else
    let e := Z.max (-1074) (log2_ratio n d - 52) in
    let q := if 0 <=? e then round_half_even n (d * 2 ^ e) else round_half_even (n * 2 ^ (- e)) d in
    if (971 <? e) || ((e =? 971) && (2 ^ 53 <=? q)) then None
    else Some {| d_mant := q; d_exp := e |}.

Definition d_opp (x : double) : double := {| d_mant := - d_mant x; d_exp := d_exp x |}.

(** [Math.floor] *)
Definition d_floor (x : double) : Z :=
  if 0 <=? d_exp x then d_mant x * 2 ^ d_exp x else d_mant x / 2 ^ (- d_exp x).

(** [Number.isInteger] *)
Definition d_isInteger (x : double) : bool :=
  if 0 <=? d_exp x then true else d_mant x mod 2 ^ (- d_exp x) =? 0.

(** The value of [m * 10 ^ e]. *)
Definition decimal (m e : Z) : option double :=
  if 0 <=? e then round_double (m * 10 ^ e) 1 else round_double m (10 ^ (- e)).

(** ExponentPart: [m], [e] are the digits read so far. *)
Definition exponent_part (m e : Z) (s : string) : option double :=
  match s with
  | "" => decimal m e
  | String "e" r | String "E" r =>
      match r with
      | String "-" x => if some_digits x then decimal m (e - digits_val 0 x) else None
      | String "+" x => if some_digits x then decimal m (e + digits_val 0 x) else None
      | x => if some_digits x then decimal m (e + digits_val 0 x) else None
      end
  | _ => None
  end.

(** StrUnsignedDecimalLiteral without Infinity. *)
Definition unsigned_decimal (s : string) : option double :=
  let ip := digit_prefix s in
  match str_drop (String.length ip) s with
  | String "." r =>
      let fp := digit_prefix r in
      if bool_decide (ip = "") && bool_decide (fp = "") then None
      else exponent_part (digits_val (digits_val 0 ip) fp) (- str_len fp) (str_drop (String.length fp) r)
  | r => if bool_decide (ip = "") then None else exponent_part (digits_val 0 ip) 0 r
  end.

(** Digits of a power-of-two base. *)
Fixpoint base_digits (base acc : Z) (s : string) : option Z :=
  match s with
  | "" => Some acc
  | String c s' =>
      if is_hex c && (hex_val c <? base) then base_digits base (acc * base + hex_val c) s' else None
  end.
Definition prefixed (base : Z) (s : string) : option double :=
  match s with
  | "" => None
  | _ => match base_digits base 0 s with Some n => round_double n 1 | None => None end
  end.

(** [Number(s)]; [None] is NaN or an infinity.
    (A text is a finite number exactly when the result is [Some].) *)
Definition Number (s : string) : option double :=
  match trim s with
  | "" => Some {| d_mant := 0; d_exp := 0 |}
  | String "0" (String "x" r) | String "0" (String "X" r) => prefixed 16 r
  | String "0" (String "o" r) | String "0" (String "O" r) => prefixed 8 r
  | String "0" (String "b" r) | String "0" (String "B" r) => prefixed 2 r
  | String "-" r => d_opp <$> unsigned_decimal r
  | String "+" r => unsigned_decimal r
  | t => unsigned_decimal t
  end.

Example number_fraction : d_floor <$> Number " 1700000000.75 " = Some 1700000000.
Proof. vm_compute. reflexivity. Qed.
(** The decimal is closer to 1700000001 than any other double. *)
Example number_rounds : d_floor <$> Number "1700000000.99999999" = Some 1700000001.
Proof. vm_compute. reflexivity. Qed.
Example number_exp : d_floor <$> Number "1.7e9" = Some 1700000000.
Proof. vm_compute. reflexivity. Qed.
Example number_negative : d_floor <$> Number "-0.5" = Some (-1).
Proof. vm_compute. reflexivity. Qed.
Example number_hex : d_floor <$> Number "0x1F" = Some 31.
Proof. vm_compute. reflexivity. Qed.
Example number_overflow : Number "1e400" = None.
Proof. vm_compute. reflexivity. Qed.
Example number_nan : (Number "12px", Number "Infinity", Number ".", Number "1e") = (None, None, None, None).
Proof. vm_compute. reflexivity. Qed.
Example number_2_53 : d_floor <$> Number "9007199254740993" = Some 9007199254740992.
Proof. vm_compute. reflexivity. Qed.

(** ** Integers survive *)

Lemma round_exact m : round_half_even m 1 = m.
Proof. unfold round_half_even. by rewrite Z.mod_1_r, Z.div_1_r. Qed.

Lemma log2_ratio_int n : 0 < n → log2_ratio n 1 = Z.log2 n.
Proof.
  intros Hn. unfold log2_ratio. change (Z.log2 1) with 0. rewrite Z.sub_0_r.
  pose proof (Z.log2_nonneg n). destruct (Z.leb_spec 0 (Z.log2 n)); [|lia].
  destruct (Z.leb_spec (1 * 2 ^ Z.log2 n) n); [done|]. pose proof (Z.log2_spec n Hn). lia.
Qed.

(** An integer below 2^53 is a double. *)
Lemma round_double_int n :
  0 ≤ n < 2 ^ 53 → ∃ x, round_double n 1 = Some x ∧ d_floor x = n ∧ d_isInteger x = true.
Proof.
  intros Hn. unfold round_double. destruct (Z.eqb_spec n 0) as [->|]; [by eexists|].
  rewrite log2_ratio_int by lia. pose proof (Z.log2_nonneg n).
  assert (Z.log2 n < 53) by (apply Z.log2_lt_pow2; lia).
  replace (Z.max (-1074) (Z.log2 n - 52)) with (Z.log2 n - 52) by lia. set (e := Z.log2 n - 52).
  assert (e ≤ 0) by lia. destruct (Z.ltb_spec 971 e); [lia|]. destruct (Z.eqb_spec e 971); [lia|].
  cbn [orb andb]. eexists. split; [done|]. unfold d_floor, d_isInteger; cbn [d_mant d_exp].
  destruct (Z.leb_spec 0 e).
  - replace e with 0 by lia. rewrite Z.mul_1_l, round_exact. split; [lia|done].
  - rewrite round_exact. assert (0 < 2 ^ (- e)) by (apply Z.pow_pos_nonneg; lia).
    rewrite Z.div_mul, Z.mod_mul by lia. done.
Qed.

Lemma trim_digits s : all_digits s = true → trim s = s.
Proof.
  intros H. assert (Hws : str_forall (λ c, negb (is_ws c)) s = true).
  { eapply str_forall_impl; [|exact H]. intros c Hc. by rewrite is_digit_not_ws. }
  unfold trim. by rewrite trimStart_clean, trimEnd_clean.
Qed.

Lemma str_drop_all s : str_drop (String.length s) s = "".
Proof. by induction s. Qed.

Lemma unsigned_decimal_digits s :
  all_digits s = true → s ≠ "" → unsigned_decimal s = round_double (digits_val 0 s) 1.
Proof.
  intros H Hne. unfold unsigned_decimal. rewrite digit_prefix_all, str_drop_all by done.
  rewrite bool_decide_false by done. unfold exponent_part, decimal. cbn. by rewrite Z.mul_1_r.
Qed.

Lemma Number_digits s :
  all_digits s = true → s ≠ "" → Number s = unsigned_decimal s.
Proof.
  intros H Hne. unfold Number. rewrite trim_digits by done. destruct s as [|c s]; [done|].
  unfold all_digits in H. cbn [str_forall] in H. apply andb_true_iff in H as [Hc Hs].
  destruct c as [[] [] [] [] [] [] [] []]; try done.
  destruct s as [|c s]; [done|]. cbn [str_forall] in Hs. apply andb_true_iff in Hs as [Hc' _].
  destruct c as [[] [] [] [] [] [] [] []]; try done.
Qed.

(** Every integer below 2^53 survives [Number(String(n))]. *)
Lemma Number_show n :
  0 ≤ n < 2 ^ 53 → ∃ x, Number (show_Z n) = Some x ∧ d_floor x = n ∧ d_isInteger x = true.
Proof.
  intros Hn. rewrite Number_digits by (apply show_Z_digits || apply show_Z_ne_empty; lia).
  rewrite unsigned_decimal_digits by (apply show_Z_digits || apply show_Z_ne_empty; lia).
  rewrite show_Z_val by lia. by apply round_double_int.
Qed.

(** ** Products and rounding *)

(** [x * n] for a non-negative double and a non-negative integer. *)
Definition d_times (x : double) (n : Z) : option double :=
  if 0 <=? d_exp x then round_double (d_mant x * n * 2 ^ d_exp x) 1
  else round_double (d_mant x * n) (2 ^ (- d_exp x)).

(** [Math.round]: the nearest integer, halves up. *)
Definition d_round (x : double) : Z :=
  if 0 <=? d_exp x then d_mant x * 2 ^ d_exp x
  else (2 * d_mant x + 2 ^ (- d_exp x)) / (2 * 2 ^ (- d_exp x)).

(** The value is at least an integer. *)
Definition d_atleast (c : Z) (x : double) : Prop :=
  if 0 <=? d_exp x then c ≤ d_mant x * 2 ^ d_exp x else c * 2 ^ (- d_exp x) ≤ d_mant x.

Lemma round_half_even_floor n d : 0 < d → n / d ≤ round_half_even n d.
Proof. intros Hd. unfold round_half_even. repeat case_match; lia. Qed.

Lemma div_ge a b q : 0 < b → q * b ≤ a → q ≤ a / b.
Proof. intros Hb Ha. apply Z.div_le_lower_bound; lia. Qed.

Lemma log2_ratio_le n d : 0 < n → 0 < d → Z.log2 n - Z.log2 d - 1 ≤ log2_ratio n d ≤ Z.log2 n - Z.log2 d.
Proof. intros Hn Hd. unfold log2_ratio. destruct (if 0 <=? _ then _ else _); lia. Qed.

(** Above 2^52 the exponent is the logarithm less 52. *)
Lemma log2_ratio_reached n d : 0 < n → 0 < d → 0 ≤ log2_ratio n d → d * 2 ^ log2_ratio n d ≤ n.
Proof.
  intros Hn Hd. unfold log2_ratio. set (k := Z.log2 n - Z.log2 d).
  destruct (Z.leb_spec 0 k).
  - destruct (Z.leb_spec (d * 2 ^ k) n); [done|]. intros Hk.
    pose proof (Z.log2_spec n Hn). pose proof (Z.log2_spec d Hd). pose proof (Z.log2_nonneg d).
    assert (Hp : 2 ^ Z.succ (Z.log2 d) * 2 ^ (k - 1) = 2 ^ Z.log2 n)
      by (rewrite <- Z.pow_add_r by lia; f_equal; lia).
    assert (0 < 2 ^ (k - 1)) by (apply Z.pow_pos_nonneg; lia). nia.
  - destruct (_ <=? _); lia.
Qed.

(** Rounding does not cross an integer below 2^53. *)
Lemma round_double_atleast n d c x :
  0 < d → 1 ≤ c < 2 ^ 53 → c * d ≤ n → round_double n d = Some x → d_atleast c x.
Proof.
  intros Hd Hc Hn. unfold round_double. assert (Hpos : 0 < n) by nia.
  destruct (Z.eqb_spec n 0); [lia|].
  set (e := Z.max (-1074) (log2_ratio n d - 52)). cbv zeta. destruct (_ || _); [done|]. intros [= <-].
  unfold d_atleast; cbn [d_mant d_exp]. destruct (Z.leb_spec 0 e) as [He|He].
  - assert (Hk : log2_ratio n d = e + 52) by lia. assert (0 < 2 ^ e) by (apply Z.pow_pos_nonneg; lia).
    pose proof (log2_ratio_reached n d Hpos Hd ltac:(lia)) as Hr. rewrite Hk, Z.pow_add_r in Hr by lia.
    pose proof (round_half_even_floor n (d * 2 ^ e) ltac:(nia)) as Hf.
    destruct (decide (e = 0)) as [E|].
    + assert (c ≤ n / (d * 2 ^ e)) by (apply div_ge; [nia|]; rewrite E; lia). nia.
    + assert (2 ^ 52 ≤ n / (d * 2 ^ e)) by (apply div_ge; [nia|lia]).
      assert (2 ^ 1 ≤ 2 ^ e) by (apply Z.pow_le_mono_r; lia). nia.
  - assert (0 < 2 ^ (- e)) by (apply Z.pow_pos_nonneg; lia).
    pose proof (round_half_even_floor (n * 2 ^ (- e)) d Hd) as Hf.
    pose proof (div_ge (n * 2 ^ (- e)) d (c * 2 ^ (- e)) Hd ltac:(nia)). lia.
Qed.

Lemma d_times_atleast x n c y :
  d_atleast c x → 1 ≤ c → 0 < n → c * n < 2 ^ 53 → d_times x n = Some y → d_atleast (c * n) y.
Proof.
  unfold d_atleast at 1, d_times. intros Hx Hc Hn Hb. destruct (Z.leb_spec 0 (d_exp x)).
  - apply round_double_atleast; nia.
  - assert (0 < 2 ^ (- d_exp x)) by (apply Z.pow_pos_nonneg; lia). apply round_double_atleast; nia.
Qed.

Lemma d_round_atleast x c : d_atleast c x → c ≤ d_round x.
Proof.
  unfold d_atleast, d_round. destruct (Z.leb_spec 0 (d_exp x)); [done|]. intros Hx.
  assert (0 < 2 ^ (- d_exp x)) by (apply Z.pow_pos_nonneg; lia). apply div_ge; nia.
Qed.
