(* ===== verification/Codec.v ===== *)
(** * base64url and JSON

    The two encodings of the platform the cursors go through: Buffer's
    base64url codec (its decoder skips characters outside the alphabet and
    drops an incomplete group) and JSON.parse on byte strings. *)

From stdpp Require Import pretty numbers base list strings.
From Stdlib Require Import ZArith Lia Ascii.
From S2P Require Import Prelude JsText JsNumber.

Open Scope string_scope.
Open Scope Z_scope.

(** ** base64url *)

Definition alphabet64 : string := "ABCDEFGHIJKLMNOPQRSTUVWXYZabcdefghijklmnopqrstuvwxyz0123456789-_".

Definition char64 (k : Z) : ascii := default "A"%char (String.get (Z.to_nat k) alphabet64).

(** Both alphabets are accepted. *)
Definition val64 (c : ascii) : option Z :=
  if is_upper c then Some (code c - 65)
  else if is_lower c then Some (code c - 71)
  else if is_digit c then Some (code c + 4)
  else if bool_decide (c = "-"%char) || bool_decide (c = "+"%char) then Some 62
  else if bool_decide (c = "_"%char) || bool_decide (c = "/"%char) then Some 63
  else None.

(** [Buffer.from(s, 'utf8').toString('base64url')] *)
Fixpoint toBase64Url (s : string) : string :=
  match s with
  | "" => ""
  | String a s1 =>
      let x := code a in
      match s1 with
      | "" => String (char64 (x / 4)) (String (char64 (x mod 4 * 16)) "")
      | String b s2 =>
          let y := code b in
          match s2 with
          | "" => String (char64 (x / 4)) (String (char64 (x mod 4 * 16 + y / 16))
                    (String (char64 (y mod 16 * 4)) ""))
          | String c s3 =>
              let z := code c in
              String (char64 (x / 4)) (String (char64 (x mod 4 * 16 + y / 16))
                (String (char64 (y mod 16 * 4 + z / 64)) (String (char64 (z mod 64)) (toBase64Url s3))))
          end
      end
  end.

Fixpoint vals64 (s : string) : list Z :=
  match s with
  | "" => []
  | String c s' => match val64 c with Some v => v :: vals64 s' | None => vals64 s' end
  end.

Definition byte_of (n : Z) : ascii := ascii_of_N (Z.to_N n).

Fixpoint bytes64 (l : list Z) : string :=
  match l with
  | p :: q :: r :: s :: l' =>
      String (byte_of (p * 4 + q / 16)) (String (byte_of (q mod 16 * 16 + r / 4))
        (String (byte_of (r mod 4 * 64 + s)) (bytes64 l')))
  | [p; q; r] => String (byte_of (p * 4 + q / 16)) (String (byte_of (q mod 16 * 16 + r / 4)) "")
  | [p; q] => String (byte_of (p * 4 + q / 16)) ""
  | _ => ""
  end.

(** [Buffer.from(s, 'base64url').toString('utf8')] *)
Definition fromBase64Url (s : string) : string := bytes64 (vals64 s).

Lemma code_range c : 0 ≤ code c < 256.
Proof. unfold code. pose proof (N_ascii_bounded c). lia. Qed.

Lemma byte_of_code c n : n = code c → byte_of n = c.
Proof. intros ->. unfold byte_of, code. by rewrite N2Z.id, ascii_N_embedding. Qed.

Lemma val_char64 k : 0 ≤ k < 64 → val64 (char64 k) = Some k.
Proof.
  intros Hk. assert (Hall : Forall (λ k, val64 (char64 k) = Some k) (Z.of_nat <$> seq 0 64))
    by (repeat constructor).
  rewrite Forall_forall in Hall. apply Hall. replace k with (Z.of_nat (Z.to_nat k)) by lia.
  apply list_elem_of_fmap_2, elem_of_seq. lia.
Qed.

Lemma vals64_char k s : 0 ≤ k < 64 → vals64 (String (char64 k) s) = k :: vals64 s.
Proof. intros Hk. cbn [vals64]. by rewrite val_char64. Qed.

(** Strings, three characters at a time. *)
Lemma string_ind3 (P : string → Prop) :
  P "" → (∀ a, P (String a "")) → (∀ a b, P (String a (String b ""))) →
  (∀ a b c s, P s → P (String a (String b (String c s)))) → ∀ s, P s.
Proof.
  intros H0 H1 H2 H3. refine (fix IH s := _). destruct s as [|a [|b [|c s]]]; [done|done|done|].
  apply H3, IH.
Qed.

Ltac base64_arith :=
  repeat match goal with
  | c : ascii |- _ => lazymatch goal with _ : 0 ≤ code c < 256 |- _ => fail | _ => pose proof (code_range c) end
  end; Z.to_euclidean_division_equations; lia.

Lemma string_cons a b s t : a = b → s = t → String a s = String b t.
Proof. by intros -> ->. Qed.

(** base64url decodes to what was encoded. *)
Lemma base64url_roundtrip s : fromBase64Url (toBase64Url s) = s.
Proof.
  unfold fromBase64Url. induction s as [|a|a b|a b c s IH] using string_ind3; [done| | |];
    cbn [toBase64Url]; rewrite !vals64_char by base64_arith; cbn [vals64 bytes64];
    repeat (apply string_cons; [apply byte_of_code; base64_arith|]); done.
Qed.

(** The alphabet. *)
Definition is_url64 (c : ascii) : bool :=
  is_upper c || is_lower c || is_digit c || bool_decide (c = "-"%char) || bool_decide (c = "_"%char).

Lemma char64_url k : 0 ≤ k < 64 → is_url64 (char64 k) = true.
Proof.
  intros Hk. assert (Hall : Forall (λ k, is_url64 (char64 k) = true) (Z.of_nat <$> seq 0 64))
    by (repeat constructor).
  rewrite Forall_forall in Hall. apply Hall. replace k with (Z.of_nat (Z.to_nat k)) by lia.
  apply list_elem_of_fmap_2, elem_of_seq. lia.
Qed.

Lemma toBase64Url_nonempty s : s ≠ "" → toBase64Url s ≠ "".
Proof. intros Hs E. apply Hs. rewrite <-(base64url_roundtrip s), E. done. Qed.

Lemma toBase64Url_chars s : str_forall is_url64 (toBase64Url s) = true.
Proof.
  induction s as [|a|a b|a b c s IH] using string_ind3; [done| | |];
    cbn [toBase64Url str_forall]; rewrite !char64_url by base64_arith; done.
Qed.

(** ** JSON *)

Inductive json :=
  | JNull
  | JBool (b : bool)
  | JNum (x : option double)
  | JStr (s : string)
  | JArr (l : list json)
  | JObj (fields : list (string * json)).

Definition is_json_ws (c : ascii) : bool :=
  bool_decide (c = " "%char) || (code c =? 9) || (code c =? 10) || (code c =? 13).
Fixpoint skip_ws (s : string) : string :=
  match s with
  | String c s' => if is_json_ws c then skip_ws s' else s
  | "" => ""
  end.

Definition dquote : ascii := "034"%char.
Definition backslash : ascii := "092"%char.

(** UTF-8 of a 16-bit code unit. *)
Definition utf8_unit (n : Z) : string :=
  if n <? 128 then String (byte_of n) ""
  else if n <? 2048 then String (byte_of (192 + n / 64)) (String (byte_of (128 + n mod 64)) "")
  else String (byte_of (224 + n / 4096)) (String (byte_of (128 + n / 64 mod 64)) (String (byte_of (128 + n mod 64)) "")).

Definition escape_char (c : ascii) : option ascii :=
  if bool_decide (c = dquote) || bool_decide (c = backslash) || bool_decide (c = "/"%char) then Some c
  else if bool_decide (c = "b"%char) then Some "008"%char
  else if bool_decide (c = "f"%char) then Some "012"%char
  else if bool_decide (c = "n"%char) then Some "010"%char
  else if bool_decide (c = "r"%char) then Some "013"%char
  else if bool_decide (c = "t"%char) then Some "009"%char
  else None.

(** The rest of a string literal after its opening quote. *)
Fixpoint json_string (s : string) : option (string * string) :=
  match s with
  | "" => None
  | String c s' =>
      if bool_decide (c = dquote) then Some ("", s')
      else if bool_decide (c = backslash) then
        match s' with
        | "" => None
        | String u s1 =>
            if bool_decide (u = "u"%char) then
              match s1 with
              | String h1 (String h2 (String h3 (String h4 s2))) =>
                  if is_hex h1 && is_hex h2 && is_hex h3 && is_hex h4 then
                    match json_string s2 with
                    | Some (t, r) =>
                        Some (utf8_unit (((hex_val h1 * 16 + hex_val h2) * 16 + hex_val h3) * 16 + hex_val h4) +:+ t, r)
                    | None => None
                    end
                  else None
              | _ => None
              end
            else match escape_char u, json_string s1 with
                 | Some e, Some (t, r) => Some (String e t, r)
                 | _, _ => None
                 end
        end
      else if code c <? 32 then None
      else match json_string s' with Some (t, r) => Some (String c t, r) | None => None end
  end.

(** A number token: its unsigned text and what follows; JSON forbids leading
    zeros and bare points. *)
Definition json_number (s : string) : option (string * string) :=
  let ip := digit_prefix s in
  let r := str_drop (String.length ip) s in
  let leading := match ip with "" => false | String "0" (String _ _) => false | _ => true end in
  if negb leading then None
  else
    let '(frac, r) :=
      match r with
      | String "." r' =>
          let fp := digit_prefix r' in (Some (String "." fp), str_drop (String.length fp) r')
      | _ => (None, r)
      end in
    if bool_decide (frac = Some ".") then None
    else
      let t := ip +:+ default "" frac in
      let exp (e : ascii) (r' : string) :=
        let '(sgn, r2) := match r' with
          | String "-" x => ("-", x) | String "+" x => ("+", x) | x => ("", x) end in
        let ep := digit_prefix r2 in
        if bool_decide (ep = "") then None
        else Some (t +:+ String e sgn +:+ ep, str_drop (String.length ep) r2) in
      match r with
      | String "e" r' => exp "e"%char r'
      | String "E" r' => exp "E"%char r'
      | _ => Some (t, r)
      end.

Fixpoint json_value (fuel : nat) (s : string) : option (json * string) :=
  match fuel with
  | O => None
  | S f =>
      let s := skip_ws s in
      match s with
      | "" => None
      | String c r =>
          if bool_decide (c = "{"%char) then
            match skip_ws r with
            | String "}" r' => Some (JObj [], r')
            | r' => match json_members f r' with Some (l, r2) => Some (JObj l, r2) | None => None end
            end
          else if bool_decide (c = "["%char) then
            match skip_ws r with
            | String "]" r' => Some (JArr [], r')
            | r' => match json_elements f r' with Some (l, r2) => Some (JArr l, r2) | None => None end
            end
          else if bool_decide (c = dquote) then
            match json_string r with Some (t, r') => Some (JStr t, r') | None => None end
          else if startsWith s "null" then Some (JNull, str_drop 4 s)
          else if startsWith s "true" then Some (JBool true, str_drop 4 s)
          else if startsWith s "false" then Some (JBool false, str_drop 5 s)
          else if bool_decide (c = "-"%char) then
            match json_number r with
            | Some (t, r') => Some (JNum (d_opp <$> unsigned_decimal t), r')
            | None => None
            end
          else match json_number s with
               | Some (t, r') => Some (JNum (unsigned_decimal t), r')
               | None => None
               end
      end
  end
with json_members (fuel : nat) (s : string) : option (list (string * json) * string) :=
  match fuel with
  | O => None
  | S f =>
      match skip_ws s with
      | String q r =>
          if bool_decide (q = dquote) then
            match json_string r with
            | None => None
            | Some (k, r1) =>
                match skip_ws r1 with
                | String ":" r2 =>
                    match json_value f r2 with
                    | None => None
                    | Some (v, r3) =>
                        match skip_ws r3 with
                        | String "," r4 =>
                            match json_members f r4 with
                            | Some (l, r5) => Some ((k, v) :: l, r5)
                            | None => None
                            end
                        | String "}" r4 => Some ([(k, v)], r4)
                        | _ => None
                        end
                    end
                | _ => None
                end
            end
          else None
      | "" => None
      end
  end
with json_elements (fuel : nat) (s : string) : option (list json * string) :=
  match fuel with
  | O => None
  | S f =>
      match json_value f s with
      | None => None
      | Some (v, r) =>
          match skip_ws r with
          | String "," r1 =>
              match json_elements f r1 with Some (l, r2) => Some (v :: l, r2) | None => None end
          | String "]" r1 => Some ([v], r1)
          | _ => None
          end
      end
  end.

(** [JSON.parse]; [None] is its exception.  Every nested call follows at
    least one consumed character or goes from a list to its element, so twice
    the length is enough fuel. *)
Definition JSON_parse (s : string) : option json :=
  match json_value (2 * String.length s + 2) s with
  | Some (v, r) => if bool_decide (skip_ws r = "") then Some v else None
  | None => None
  end.

(** The last member of a name is the property's value. *)
Fixpoint get_field (k : string) (fields : list (string * json)) : option json :=
  match fields with
  | [] => None
  | (k', v) :: l =>
      match get_field k l with
      | Some w => Some w
      | None => if bool_decide (k' = k) then Some v else None
      end
  end.

(** ** Parsed values in expressions *)

(** [Boolean(v)] *)
Definition to_Boolean (v : json) : bool :=
  match v with
  | JNull => false
  | JBool b => b
  | JNum (Some x) => negb (d_mant x =? 0)
  | JNum None => true
  | JStr s => negb (bool_decide (s = ""))
  | JArr _ | JObj _ => true
  end.

(** [data[key]] of a value that is not null. *)
Definition member (raw : json) (k : string) : option json :=
  match raw with JObj fields => get_field k fields | _ => None end.

(** [a ?? b] *)
Definition nullish (a b : option json) : option json :=
  match a with None | Some JNull => b | Some v => Some v end.

(** ** Plain texts *)

(** A plain text between quotes. *)
Definition quoted (s : string) : string := String dquote (s +:+ String dquote "").

(** A character JSON strings hold unescaped. *)
Definition plain (c : ascii) : bool :=
  negb (bool_decide (c = dquote)) && negb (bool_decide (c = backslash)) && (32 <=? code c).

Lemma json_string_plain s r : str_forall plain s = true → json_string (s +:+ String dquote r) = Some (s, r).
Proof.
  induction s as [|c s IH]; intros H.
  - change (json_string (String dquote r) = Some ("", r)). cbn [json_string]. by rewrite bool_decide_true.
  - cbn [str_forall] in H. apply andb_true_iff in H as [Hc Hs]. unfold plain in Hc. bool_prop.
    change (json_string (String c (s +:+ String dquote r)) = Some (String c s, r)). cbn [json_string].
    rewrite !bool_decide_false by done. destruct (Z.ltb_spec (code c) 32); [lia|]. by rewrite IH.
Qed.

Lemma digit_plain s : all_digits s = true → str_forall plain s = true.
Proof. apply str_forall_impl. intros [[] [] [] [] [] [] [] []]; vm_compute; congruence. Qed.

Lemma show_Z_plain n : str_forall plain (show_Z n) = true.
Proof.
  destruct (decide (0 ≤ n)) as [Hn|Hn]; [by apply digit_plain, show_Z_digits|].
  destruct n as [|p|p]; [lia|lia|]. change (show_Z (Z.neg p)) with (String "-" (show_Z (Z.pos p))).
  cbn [str_forall]. by rewrite digit_plain by (by apply show_Z_digits).
Qed.

Lemma pad_plain w n : str_forall plain (pad w n) = true.
Proof.
  unfold pad. rewrite str_forall_app, show_Z_plain, andb_true_r.
  induction (w - _)%nat as [|k IH]; [done|]. cbn [zeros str_forall]. by rewrite IH.
Qed.

Lemma toISOString_plain ms : str_forall plain (toISOString ms) = true.
Proof.
  unfold toISOString. destruct (civil _) as [[y m] d]. rewrite !str_forall_app, !pad_plain. done.
Qed.

(** Decimal text has no leading zero. *)
Lemma pretty_N_go_head x s : (0 < x)%N → ∃ c r, pretty_N_go x s = String c r ∧ is_digit c = true ∧ c ≠ "0"%char.
Proof.
  revert s. induction (N.lt_wf_0 x) as [x _ IH]; intros s Hx. rewrite pretty_N_go_step by done.
  destruct (decide (0 < x / 10)%N) as [Hd|Hd]; [apply IH; [by apply N.div_lt|done]|].
  assert (x / 10 = 0)%N as -> by (by apply N.le_0_r, N.nlt_ge). exists (pretty_N_char (x mod 10)), s.
  assert (x < 10)%N.
  { destruct (decide (x < 10)%N) as [|Hge]; [done|]. exfalso. apply Hd. apply N.div_str_pos. lia. }
  rewrite N.mod_small by done. split; [done|]. split; [apply pretty_N_char_digit|].
  intros E. pose proof (pretty_N_char_val x ltac:(done)) as Hv. rewrite E in Hv.
  change (digit_val "0") with 0 in Hv. lia.
Qed.

Lemma show_Z_head n : 0 < n → ∃ c r, show_Z n = String c r ∧ is_digit c = true ∧ c ≠ "0"%char.
Proof.
  intros Hn. rewrite show_Z_nonneg by lia. unfold pretty, pretty_N. rewrite decide_False by lia.
  apply pretty_N_go_head. lia.
Qed.

Lemma digit_prefix_stop s c r :
  all_digits s = true → is_digit c = false →
  digit_prefix (s +:+ String c r) = s ∧ str_drop (String.length s) (s +:+ String c r) = String c r.
Proof.
  intros Hs Hc. unfold all_digits in Hs. induction s as [|a s IH].
  - change ((if is_digit c then String c (digit_prefix r) else "") = "" ∧ String c r = String c r). by rewrite Hc.
  - cbn [str_forall] in Hs. apply andb_true_iff in Hs as [Ha Hs]. destruct (IH Hs) as [H1 H2].
    change ((if is_digit a then String a (digit_prefix (s +:+ String c r)) else "") = String a s ∧
            str_drop (String.length s) (s +:+ String c r) = String c r). by rewrite Ha, H1.
Qed.

(** What follows a number in an object. *)
Definition ends_member (d : ascii) : bool := bool_decide (d = "}"%char) || bool_decide (d = ","%char).

Lemma ends_member_inv d : ends_member d = true → d = "}"%char ∨ d = ","%char.
Proof. intros [H|H]%orb_true_iff; apply bool_decide_eq_true in H; auto. Qed.

Lemma json_number_show n d r : ends_member d = true → 0 ≤ n → json_number (show_Z n +:+ String d r) = Some (show_Z n, String d r).
Proof.
  intros Hd Hn. unfold json_number. assert (is_digit d = false) as Hdd by (by destruct (ends_member_inv d Hd) as [->| ->]).
  destruct (digit_prefix_stop (show_Z n) d r (show_Z_digits n Hn) Hdd) as [-> ->].
  assert (Hl : match show_Z n with "" => false | String "0" (String _ _) => false | _ => true end = true).
  { destruct (decide (n = 0)) as [->|]; [done|]. destruct (show_Z_head n) as (c & s & -> & _ & Hc); [lia|].
    destruct c as [[] [] [] [] [] [] [] []]; done. }
  rewrite Hl. cbn [negb]. destruct (ends_member_inv d Hd) as [->| ->];
    (rewrite bool_decide_false by done; cbn [default]; by rewrite str_app_nil_r).
Qed.

Lemma skip_ws_cons c s : is_json_ws c = false → skip_ws (String c s) = String c s.
Proof. intros Hc. cbn [skip_ws]. by rewrite Hc. Qed.

(** The value parsers on the tokens of a cursor. *)
Lemma json_value_string f s r :
  str_forall plain s = true → json_value (S f) (quoted s +:+ r) = Some (JStr s, r).
Proof.
  intros Hs. unfold quoted.
  change (String dquote (s +:+ String dquote "") +:+ r) with (String dquote ((s +:+ String dquote "") +:+ r)).
  rewrite str_app_assoc. change (String dquote "" +:+ r) with (String dquote r).
  cbn [json_value]. rewrite skip_ws_cons by done. cbv zeta.
  rewrite !(bool_decide_false (dquote = _)), (bool_decide_true (dquote = dquote)) by done.
  by rewrite json_string_plain.
Qed.

Lemma json_value_int f n d r : ends_member d = true →
  0 ≤ n → json_value (S f) (show_Z n +:+ String d r) = Some (JNum (unsigned_decimal (show_Z n)), String d r).
Proof.
  intros Hd Hn. assert (Hh : ∃ c s, show_Z n = String c s ∧ is_digit c = true).
  { destruct (show_Z n) as [|c s] eqn:E; [by apply show_Z_ne_empty in E|]. exists c, s. split; [done|].
    pose proof (show_Z_digits n Hn) as Hds. rewrite E in Hds. unfold all_digits in Hds. cbn [str_forall] in Hds.
    by bool_prop. }
  destruct Hh as (c & s & E & Hc). pose proof (json_number_show n d r Hd Hn) as Hnum. rewrite E in *.
  change (String c s +:+ String d r) with (String c (s +:+ String d r)) in *.
  cbn [json_value]. rewrite skip_ws_cons by (by destruct c as [[] [] [] [] [] [] [] []]).
  cbv zeta. rewrite Hnum.
  destruct c as [[] [] [] [] [] [] [] []]; try discriminate Hc; done.
Qed.

Lemma json_members_cons f k v r :
  str_forall plain k = true →
  json_members (S f) (quoted k +:+ String ":" v +:+ r) =
    match json_value f (v +:+ r) with
    | None => None
    | Some (x, r3) =>
        match skip_ws r3 with
        | String "," r4 => match json_members f r4 with Some (l, r5) => Some ((k, x) :: l, r5) | None => None end
        | String "}" r4 => Some ([(k, x)], r4)
        | _ => None
        end
    end.
Proof.
  intros Hk. unfold quoted.
  change (String dquote (k +:+ String dquote "") +:+ String ":" v +:+ r) with
    (String dquote ((k +:+ String dquote "") +:+ String ":" (v +:+ r))).
  rewrite str_app_assoc. change (String dquote "" +:+ ?x) with (String dquote x).
  cbn [json_members]. rewrite skip_ws_cons by done. rewrite bool_decide_true by done.
  rewrite json_string_plain by done. done.
Qed.

Lemma json_value_brace f r :
  json_value (S f) (String "{" (String dquote r)) =
    match json_members f (String dquote r) with Some (l, r2) => Some (JObj l, r2) | None => None end.
Proof. reflexivity. Qed.

(** The member [k] with a plain text value, followed by another member. *)
Lemma json_members_text f k s r : str_forall plain k = true → str_forall plain s = true →
  json_members (S (S f)) (quoted k +:+ ":" +:+ quoted s +:+ "," +:+ r) =
    match json_members (S f) r with Some (l, r5) => Some ((k, JStr s) :: l, r5) | None => None end.
Proof.
  intros Hk Hs. change (":" +:+ ?x) with (String ":" "" +:+ x). rewrite (json_members_cons (S f) k "") by done.
  change ("" +:+ ?x) with x. rewrite json_value_string by done.
  change ("," +:+ r) with (String "," r). by rewrite skip_ws_cons by done.
Qed.

Lemma json_members_last_int f k n : str_forall plain k = true → 0 ≤ n →
  json_members (S (S f)) (quoted k +:+ ":" +:+ show_Z n +:+ "}") =
    Some ([(k, JNum (unsigned_decimal (show_Z n)))], "").
Proof.
  intros Hk Hn. change (":" +:+ ?x) with (String ":" "" +:+ x). rewrite (json_members_cons (S f) k "") by done.
  change ("" +:+ ?x) with x. change "}" with (String "}" "") at 1. rewrite json_value_int by done.
  by rewrite skip_ws_cons by done.
Qed.

Lemma json_members_last_text f k s : str_forall plain k = true → str_forall plain s = true →
  json_members (S (S f)) (quoted k +:+ ":" +:+ quoted s +:+ "}") = Some ([(k, JStr s)], "").
Proof.
  intros Hk Hs. change (":" +:+ ?x) with (String ":" "" +:+ x). rewrite (json_members_cons (S f) k "") by done.
  change ("" +:+ ?x) with x. rewrite json_value_string by done.
  by change (skip_ws "}") with (skip_ws (String "}" "")); rewrite skip_ws_cons by done.
Qed.

(** The member [k] with a number, followed by another member. *)
Lemma json_members_int f k n r : str_forall plain k = true → 0 ≤ n →
  json_members (S (S f)) (quoted k +:+ ":" +:+ show_Z n +:+ "," +:+ r) =
    match json_members (S f) r with Some (l, r5) => Some ((k, JNum (unsigned_decimal (show_Z n))) :: l, r5) | None => None end.
Proof.
  intros Hk Hn. change (":" +:+ ?x) with (String ":" "" +:+ x). rewrite (json_members_cons (S f) k "") by done.
  change ("" +:+ ?x) with x. change ("," +:+ r) with (String "," r). rewrite json_value_int by done.
  by rewrite skip_ws_cons by done.
Qed.
