(* ===== verification/QuietHours.v ===== *)
(** * Quiet hours of the notification service

    The window arithmetic of backend/src/notifications/quiet-hours.ts: parsing
    of HH:mm, the minute of day under a UTC offset, the membership test for
    windows that may wrap past midnight, and the next moment the window ends.
    A [Date] is its epoch value in milliseconds. *)

From stdpp Require Import base list strings.
From Stdlib Require Import ZArith Lia Ascii.
From S2P Require Import Prelude JsText.

Open Scope string_scope.
Open Scope Z_scope.

Module QuietHours.

(** Models [QuietHoursWindow] (backend/src/notifications/quiet-hours.ts:9-12). *)
Record QuietHoursWindow := { start : string; end_ : string }.

(** The two-digit minutes of the pattern: [[0-5]\d]. *)
Definition minute_field (m1 m2 : ascii) : option Z :=
  if in_range "0" "5" m1 && is_digit m2
  then Some (digit_val m1 * 10 + digit_val m2) else None.

(** The hours of the pattern: [[01]?\d] or [2[0-3]]. *)
Definition hour_field2 (h1 h2 : ascii) : option Z :=
  if (in_range "0" "1" h1 && is_digit h2) || (bool_decide (h1 = "2"%char) && in_range "0" "3" h2)
  then Some (digit_val h1 * 10 + digit_val h2) else None.

(** Models [parseHhMm] (backend/src/notifications/quiet-hours.ts:15-19). *)
Definition parseHhMm (value : string) : option Z :=
  match String.list_ascii_of_string (trim value) with
  | [h; ":"%char; m1; m2] =>
      if is_digit h
      then m ← minute_field m1 m2; Some (digit_val h * 60 + m)
      else None
  | [h1; h2; ":"%char; m1; m2] =>
      h ← hour_field2 h1 h2; m ← minute_field m1 m2; Some (h * 60 + m)
  | _ => None
  end.

(** [now.getUTCHours() * 60 + now.getUTCMinutes()]: UTC days have 1440 minutes. *)
Definition utcMinutes (now : Z) : Z := (now / 60000) mod 1440.

(** Models [minuteOfDay] (backend/src/notifications/quiet-hours.ts:21-24). The [%] of the source keeps
    the sign of the dividend. *)
Definition minuteOfDay (now offsetMinutes : Z) : Z :=
  Z.rem (Z.rem (utcMinutes now + offsetMinutes) 1440 + 1440) 1440.

(** Models [isWithinQuietHours] (backend/src/notifications/quiet-hours.ts:30-43). *)
Definition isWithinQuietHours (now : Z) (window : QuietHoursWindow) (offsetMinutes : Z) : bool :=
  match parseHhMm (start window), parseHhMm (end_ window) with
  | Some s, Some e =>
      if s =? e then false
      else
        let current := minuteOfDay now offsetMinutes in
        if s <? e then (s <=? current) && (current <? e)
        else (s <=? current) || (current <? e)
  | _, _ => false
  end.

(** Models [nextQuietPeriodEnd] (backend/src/notifications/quiet-hours.ts:50-65). *)
Definition nextQuietPeriodEnd (now : Z) (window : QuietHoursWindow) (offsetMinutes : Z) : Z :=
  if negb (isWithinQuietHours now window offsetMinutes) then now
  else
    match parseHhMm (start window), parseHhMm (end_ window) with
    | Some s, Some e =>
        let current := minuteOfDay now offsetMinutes in
        let minutesUntilEnd := Z.rem (e - current + 1440) 1440 in
        now + minutesUntilEnd * 60000
    | _, _ => now
    end.

(** ** Lemmas *)

Lemma in_range_digit lo hi c :
  in_range lo hi c = true → code "0" ≤ code lo → code hi ≤ code "9" →
  0 ≤ digit_val c ≤ code hi - code "0".
Proof. unfold in_range, digit_val. intros; bool_prop. lia. Qed.

Lemma digit_val_bounds c : is_digit c = true → 0 ≤ digit_val c ≤ 9.
Proof. intros H. by apply (in_range_digit "0" "9"). Qed.

Lemma minute_field_bounds m1 m2 m : minute_field m1 m2 = Some m → 0 ≤ m < 60.
Proof.
  unfold minute_field. intros; case_tests.
  pose proof (in_range_digit "0" "5" m1 ltac:(done) ltac:(done) ltac:(done)) as H5.
  change (code "5" - code "0") with 5 in H5.
  pose proof (digit_val_bounds m2 ltac:(done)). lia.
Qed.

Lemma hour_field2_bounds h1 h2 h : hour_field2 h1 h2 = Some h → 0 ≤ h < 24.
Proof.
  unfold hour_field2. intros H; case_tests.
  apply orb_true_iff in Heqb as [Hb|Hb]; bool_prop.
  - pose proof (in_range_digit "0" "1" h1 ltac:(done) ltac:(done) ltac:(done)) as H1.
    change (code "1" - code "0") with 1 in H1. pose proof (digit_val_bounds h2 ltac:(done)). lia.
  - subst. change (digit_val "2") with 2.
    pose proof (in_range_digit "0" "3" h2 ltac:(done) ltac:(done) ltac:(done)) as H3.
    change (code "3" - code "0") with 3 in H3. lia.
Qed.

Lemma parseHhMm_bounds v m : parseHhMm v = Some m → 0 ≤ m < 1440.
Proof.
  unfold parseHhMm. intros H.
  repeat (case_match; try done); simplify_option_eq;
    repeat match goal with
    | H : minute_field _ _ = Some _ |- _ => apply minute_field_bounds in H
    | H : hour_field2 _ _ = Some _ |- _ => apply hour_field2_bounds in H
    | H : is_digit _ = true |- _ => apply digit_val_bounds in H
    end; lia.
Qed.

Lemma minuteOfDay_mod now off : minuteOfDay now off = (now / 60000 + off) mod 1440.
Proof.
  unfold minuteOfDay, utcMinutes.
  set (q := now / 60000).
  pose proof (Z.quot_rem (q mod 1440 + off) 1440 ltac:(lia)) as Hr.
  pose proof (Z.rem_bound_abs (q mod 1440 + off) 1440 ltac:(lia)) as Hb.
  rewrite (Z.rem_mod_nonneg (_ + 1440)) by lia.
  replace (q + off) with (Z.rem (q mod 1440 + off) 1440 + 1440
    + (Z.quot (q mod 1440 + off) 1440 + q / 1440 - 1) * 1440).
  - by rewrite Z.mod_add.
  - pose proof (Z.div_mod q 1440). lia.
Qed.

Lemma minuteOfDay_bounds now off : 0 ≤ minuteOfDay now off < 1440.
Proof. rewrite minuteOfDay_mod. apply Z.mod_pos_bound. lia. Qed.

(** [k] minutes later the minute of day has advanced by [k]. *)
Lemma minuteOfDay_later now t off k :
  t / 60000 = now / 60000 + k →
  minuteOfDay t off = (minuteOfDay now off + k) mod 1440.
Proof.
  intros Ht. rewrite !minuteOfDay_mod, Ht, Zplus_mod_idemp_l. f_equal. lia.
Qed.

Section in_window.
Context (now off s e : Z) (w : QuietHoursWindow).
Context (Hs : parseHhMm (start w) = Some s) (He : parseHhMm (end_ w) = Some e).
Context (Hq : isWithinQuietHours now w off = true).

Let c := minuteOfDay now off.
(** The wait [nextQuietPeriodEnd] computes, in minutes. *)
Let k := Z.rem (e - c + 1440) 1440.

Lemma wait_minutes : k = (if c <? e then e - c else e - c + 1440).
Proof.
  pose proof (parseHhMm_bounds _ _ Hs). pose proof (parseHhMm_bounds _ _ He).
  pose proof (minuteOfDay_bounds now off) as Hm. fold c in Hm.
  unfold k. rewrite Z.rem_mod_nonneg by lia. case_test; bool_prop.
  - replace (e - c + 1440) with (e - c + 1 * 1440) by lia.
    rewrite Z.mod_add, Z.mod_small; lia.
  - destruct (decide (c = e)) as [E|]; [exfalso|apply Z.mod_small; lia].
    generalize Hq. unfold isWithinQuietHours. rewrite Hs, He. fold c. rewrite E.
    case_tests; lia.
Qed.

Lemma wait_bounds : 0 < k ≤ 1440.
Proof.
  pose proof (parseHhMm_bounds _ _ Hs). pose proof (parseHhMm_bounds _ _ He).
  pose proof (minuteOfDay_bounds now off) as Hm. fold c in Hm.
  assert (k < 1440) by (apply Z.rem_bound_pos; lia).
  rewrite wait_minutes in *. generalize Hq. unfold isWithinQuietHours. rewrite Hs, He. fold c.
  intros; case_tests; lia.
Qed.

(** From [now] on, exactly the minutes before the end are quiet. *)
Lemma quiet_until_end t j :
  t / 60000 = now / 60000 + j → 0 ≤ j ≤ k → isWithinQuietHours t w off = (j <? k).
Proof.
  intros Ht Hj. generalize Hq. unfold isWithinQuietHours. rewrite Hs, He.
  rewrite (minuteOfDay_later now t off j Ht). fold c. rewrite wait_minutes in *.
  pose proof (parseHhMm_bounds _ _ Hs). pose proof (parseHhMm_bounds _ _ He).
  pose proof (minuteOfDay_bounds now off) as Hm. fold c in Hm.
  pose proof (Z.mod_small (c + j) 1440). pose proof (Z.mod_add (c + j - 1440) 1 1440).
  pose proof (Z.mod_small (c + j - 1440) 1440).
  replace (c + j - 1440 + 1 * 1440) with (c + j) in * by lia.
  repeat case_test; intros; bool_prop; lia.
Qed.
End in_window.

(** ** Properties *)

(** The next quiet-period end is exactly the end of the current window.  When [now] is quiet, the
    returned moment is not quiet, every moment of an earlier minute from [now] on is quiet, and the
    wait is at most one day; when [now] is not quiet the result is [now]. *)
Theorem nextQuietPeriodEnd_spec now w off :
  let next := nextQuietPeriodEnd now w off in
  isWithinQuietHours next w off = false ∧
  now ≤ next ≤ now + 1440 * 60000 ∧
  (isWithinQuietHours now w off = true ↔ now < next) ∧
  ∀ t, now ≤ t → t / 60000 < next / 60000 → isWithinQuietHours t w off = true.
Proof.
  unfold nextQuietPeriodEnd.
  destruct (isWithinQuietHours now w off) eqn:Hq; simpl.
  2:{ repeat split; try done; try lia. intros t Ht Hlt.
      pose proof (Z.div_le_mono now t 60000). lia. }
  pose proof Hq as Hq'. unfold isWithinQuietHours in Hq'.
  destruct (parseHhMm (start w)) as [s|] eqn:Hs; [|done].
  destruct (parseHhMm (end_ w)) as [e|] eqn:He; [|done]. clear Hq'.
  pose proof (wait_bounds now off s e w Hs He Hq) as Hb.
  pose proof (quiet_until_end now off s e w Hs He Hq) as Hin.
  set (k := Z.rem _ 1440) in *. clearbody k.
  assert (Hnext : (now + k * 60000) / 60000 = now / 60000 + k) by (apply Z.div_add; lia).
  repeat split; try lia.
  - rewrite (Hin _ k Hnext) by lia. apply Z.ltb_irrefl.
  - intros t Ht Hlt. pose proof (Z.div_le_mono now t 60000 ltac:(lia) Ht).
    rewrite (Hin t (t / 60000 - now / 60000)) by lia. apply Z.ltb_lt. lia.
Qed.

End QuietHours.
