(* ===== verification/Redis.v ===== *)
(** * The Redis service as seen by the backend

    Redis is a service outside the repository.  The commands the backend
    issues are the operations of three classes, one per Redis data type, with
    the documented behaviour the code relies on as laws.  A command may also
    be rejected by an unavailable server: [cmd] runs one command under a list
    of faults, so that a run of the model covers a failure at any point.
    The module [Sample] gives one executable implementation. *)

From stdpp Require Import base list strings pretty sorting.
From Stdlib Require Import ZArith Lia.
From S2P Require Import Prelude JsText.

Open Scope string_scope.
Open Scope Z_scope.

(** ** Command execution *)

Record rworld (R : Type) := RWorld { rstate : R; faults : list bool }.
Arguments RWorld {R} _ _.
Arguments rstate {R} _.
Arguments faults {R} _.

(** One command: rejected when the next fault bit is set, otherwise applied. *)
Definition cmd {R A} (f : R → A * R) : M (rworld R) string A :=
  λ w, match faults w with
       | true :: fs => (Throw "redis unavailable", RWorld (rstate w) fs)
       | _ => let '(a, r) := f (rstate w) in (Ok a, RWorld r (tail (faults w)))
       end.

Definition query {R A} (f : R → A) : M (rworld R) string A := cmd (λ r, (f r, r)).
Definition update {R} (f : R → R) : M (rworld R) string () := cmd (λ r, (tt, f r)).

(** A server that answers every command. *)
Definition healthy {R} (r : R) : rworld R := RWorld r [].

Lemma query_healthy {R A} (f : R → A) r : query f (healthy r) = (Ok (f r), healthy r).
Proof. done. Qed.
Lemma update_healthy {R} (f : R → R) r : update f (healthy r) = (Ok tt, healthy (f r)).
Proof. done. Qed.

(** A loop whose body resolves on a healthy server. *)
Lemma for_each_healthy {R E A} (body : A → M (rworld R) E ()) (f : R → A → R) xs r :
  (∀ x r, body x (healthy r) = (Ok tt, healthy (f r x))) →
  for_each xs body (healthy r) = (Ok tt, healthy (foldl f r xs)).
Proof.
  intros Hb. revert r. induction xs as [|x xs IH]; intros r; [done|]. simpl.
  erewrite bind_ok by apply Hb. apply IH.
Qed.

(** ** Hashes: HGET / HGETALL / HSET / HINCRBY *)

Class RedisHash (R : Type) := {
  r_hget : string → string → R → option string;
  r_hset : string → string → string → R → R;
  r_hincrby : string → string → Z → R → R;
  r_hexists : string → R → bool;
}.

Class RedisHashLaws (R : Type) `{RedisHash R} : Prop := {
  hget_hset : ∀ k f k' f' v (r : R),
    r_hget k' f' (r_hset k f v r) =
      if decide ((k, f) = (k', f')) then Some v else r_hget k' f' r;
  hget_hincrby : ∀ k f n m (r : R),
    r_hget k f r = Some (show_Z m) → r_hget k f (r_hincrby k f n r) = Some (show_Z (m + n));
  hget_hincrby_ne : ∀ k f k' f' n (r : R),
    (k, f) ≠ (k', f') → r_hget k' f' (r_hincrby k f n r) = r_hget k' f' r;
  (** EXISTS: a hash exists exactly when it has a field *)
  hexists_spec : ∀ k (r : R), r_hexists k r = true ↔ ∃ f, is_Some (r_hget k f r);
}.

Section hash_facts.
Context `{RedisHashLaws R}.

Lemma hget_hset_eq k f v (r : R) : r_hget k f (r_hset k f v r) = Some v.
Proof. rewrite hget_hset. by case_decide. Qed.

Lemma hget_hset_ne k f k' f' v (r : R) :
  (k, f) ≠ (k', f') → r_hget k' f' (r_hset k f v r) = r_hget k' f' r.
Proof. intros. rewrite hget_hset. by case_decide. Qed.
End hash_facts.

(** ** Sorted sets with a time to live

    [r_zat t k r] is the content of the set [k] at time [t] (milliseconds), as
    (score, member) pairs in ascending order of score. *)

Class RedisZSet (R : Type) := {
  r_zat : Z → string → R → list (Z * string);
  r_zremrangebyscore : Z → string → Z → Z → R → R;
  (** ZREMRANGEBYSCORE k -inf hi *)
  r_zremrangebyscore_inf : Z → string → Z → R → R;
  r_zadd : Z → string → Z → string → R → R;
  r_pexpire : Z → string → Z → R → R;
}.

Class RedisZSetLaws (R : Type) `{RedisZSet R} : Prop := {
  zat_sorted : ∀ t k (r : R), StronglySorted Z.le (fst <$> r_zat t k r);
  zat_zremrangebyscore : ∀ t t' k lo hi (r : R), t ≤ t' →
    r_zat t' k (r_zremrangebyscore t k lo hi r) ≡ₚ
      filter (λ e, ¬ (lo ≤ e.1 ≤ hi)) (r_zat t' k r);
  zat_zremrangebyscore_inf : ∀ t t' k hi (r : R), t ≤ t' →
    r_zat t' k (r_zremrangebyscore_inf t k hi r) ≡ₚ filter (λ e, hi < e.1) (r_zat t' k r);
  zat_zadd : ∀ t k s m (r : R),
    r_zat t k (r_zadd t k s m r) ≡ₚ (s, m) :: filter (λ e, e.2 ≠ m) (r_zat t k r);
  zat_pexpire_live : ∀ t t' k ms (r : R), t ≤ t' < t + ms →
    r_zat t' k (r_pexpire t k ms r) ≡ₚ r_zat t k r;
  zat_pexpire_dead : ∀ t t' k ms (r : R), t + ms ≤ t' →
    r_zat t' k (r_pexpire t k ms r) = [];
  (** commands on one key leave the others alone *)
  zat_zremrangebyscore_ne : ∀ t t' k k' lo hi (r : R), k ≠ k' →
    r_zat t' k' (r_zremrangebyscore t k lo hi r) = r_zat t' k' r;
  zat_zadd_ne : ∀ t t' k k' s m (r : R), k ≠ k' → r_zat t' k' (r_zadd t k s m r) = r_zat t' k' r;
  zat_pexpire_ne : ∀ t t' k k' ms (r : R), k ≠ k' → r_zat t' k' (r_pexpire t k ms r) = r_zat t' k' r;
}.

(** ** Keys with a time to live: GET / SETEX / DEL / SCAN

    The values are the JSON texts of records whose fields are strings, numbers
    and booleans; JSON.parse inverts JSON.stringify on them, so a stored text is
    identified with the record of type [V] it denotes.  [r_scan_pages] are the
    pages a full SCAN iteration over the keys with a prefix returns. *)

Class RedisString (V R : Type) := {
  r_get : Z → string → R → option V;
  r_setex : Z → string → V → Z → R → R;
  r_del : string → R → R;
  r_scan_pages : Z → string → R → list (list string);
}.

Class RedisStringLaws (V R : Type) `{RedisString V R} : Prop := {
  get_setex : ∀ t t' k (v : V) ttl (r : R), t ≤ t' →
    r_get t' k (r_setex t k v ttl r) =
      if decide (t' < t + ttl * 1000) then Some v else None;
  get_setex_ne : ∀ t t' k k' (v : V) ttl (r : R), k ≠ k' →
    r_get t' k' (r_setex t k v ttl r) = r_get t' k' r;
  get_del : ∀ t k (r : R), r_get t k (r_del k r) = None;
  get_del_ne : ∀ t k k' (r : R), k ≠ k' → r_get t k' (r_del k r) = r_get t k' r;
  (** an expired key stays expired *)
  get_expired : ∀ t t' k (r : R), t ≤ t' → r_get t k r = None → r_get t' k r = None;
  (** a live key keeps its value until it expires *)
  get_stable : ∀ t t' k (r : R) v, t ≤ t' → r_get t' k r = Some v → r_get t k r = Some v;
  (** a full iteration returns every live key with the prefix *)
  scan_complete : ∀ t p k (r : R), startsWith k p = true → is_Some (r_get t k r) →
    ∃ ks, ks ∈ r_scan_pages t p r ∧ k ∈ ks;
}.

(** ** The wrapper of backend/src/cache/redis.service.ts

    Every error of a wrapped command is logged and swallowed. *)
Section redis_wrapper.
Context {V E R : Type} `{RedisString V R}.

(** Models [RedisService.get] (backend/src/cache/redis.service.ts:51-62). *)
Definition redis_get (now : Z) (key : string) : M (rworld R) E (option V) :=
  try_catch (query (r_get now key)) (λ _, ret None).

(** Models [RedisService.set] (backend/src/cache/redis.service.ts:67-73). *)
Definition redis_set (now : Z) (key : string) (v : V) (ttlSeconds : Z) : M (rworld R) E () :=
  try_catch (update (r_setex now key v ttlSeconds)) (λ _, ret tt).

(** Models [RedisService.del] (backend/src/cache/redis.service.ts:78-84). *)
Definition redis_del (key : string) : M (rworld R) E () :=
  try_catch (update (r_del key)) (λ _, ret tt).

(** The wrapper never fails: a lost read is a miss, a lost write changes nothing. *)
Lemma redis_get_cases now key w :
  ∃ v w1, redis_get now key w = (Ok v, w1) ∧ rstate w1 = rstate w ∧ (v = None ∨ v = r_get now key (rstate w)).
Proof.
  unfold redis_get, try_catch, query, cmd. destruct (faults w) as [|[] fs]; eexists _, _; (split; [done|]); split; auto.
Qed.

Lemma redis_set_cases now key v ttlSeconds w :
  ∃ w1, redis_set now key v ttlSeconds w = (Ok tt, w1) ∧
    (rstate w1 = rstate w ∨ rstate w1 = r_setex now key v ttlSeconds (rstate w)).
Proof.
  unfold redis_set, try_catch, update, cmd. destruct (faults w) as [|[] fs]; eexists; (split; [done|]); auto.
Qed.
End redis_wrapper.

(** ** An executable implementation *)

Module Sample.

Definition hashes := list ((string * string) * string).

#[export] Instance sample_hash : RedisHash hashes := {
  r_hget k f r := alist_get (k, f) r;
  r_hset k f v r := alist_put (k, f) v r;
  r_hincrby k f n r :=
    match alist_get (k, f) r with
    | Some v => alist_put (k, f) (show_Z (default 0 (parseInt10 v) + n)) r
    | None => alist_put (k, f) (show_Z n) r
    end;
  r_hexists k r := existsb (λ e, bool_decide (e.1.1 = k)) r;
}.

(** A sorted set and the moment it expires, if any. *)
Definition zsets := list (string * (list (Z * string) * option Z)).

Definition zentry_le (a b : Z * string) : Prop := a.1 ≤ b.1.
#[export] Instance zentry_le_dec : RelDecision zentry_le.
Proof. intros a b; unfold zentry_le; apply _. Defined.
#[export] Instance zentry_le_total : Total zentry_le.
Proof. intros a b; unfold zentry_le; lia. Qed.
#[export] Instance zentry_le_trans : Transitive zentry_le.
Proof. intros a b c; unfold zentry_le; lia. Qed.

Definition live (t : Z) (e : option Z) : bool :=
  match e with None => true | Some x => t <? x end.
Definition zcontent (t : Z) (k : string) (r : zsets) : list (Z * string) :=
  match alist_get k r with
  | Some (es, e) => if live t e then merge_sort zentry_le es else []
  | None => []
  end.
Definition zexpiry (k : string) (r : zsets) : option Z :=
  match alist_get k r with Some (_, e) => e | None => None end.

#[export] Instance sample_zset : RedisZSet zsets := {
  r_zat := zcontent;
  r_zremrangebyscore t k lo hi r :=
    match alist_get k r with
    | Some (es, e) => alist_put k (filter (λ x, ¬ (lo ≤ x.1 ≤ hi)) es, e) r
    | None => r
    end;
  r_zremrangebyscore_inf t k hi r :=
    match alist_get k r with
    | Some (es, e) => alist_put k (filter (λ x, hi < x.1) es, e) r
    | None => r
    end;
  r_zadd t k s m r :=
    let es := zcontent t k r in
    let e := match es with [] => None | _ => zexpiry k r end in
    alist_put k ((s, m) :: filter (λ x, x.2 ≠ m) es, e) r;
  r_pexpire t k ms r :=
    match zcontent t k r with
    | [] => alist_del k r
    | es => alist_put k (es, Some (t + ms)) r
    end;
}.

#[export] Instance sample_hash_laws : RedisHashLaws hashes.
Proof.
  split; simpl.
  - intros. unfold alist_put; simpl. rewrite alist_get_del. by repeat case_decide.
  - intros k f n m r ->. unfold alist_put; simpl. case_decide; [|done].
    by rewrite parseInt10_show.
  - intros k f k' f' n r Hne.
    case_match; unfold alist_put; simpl; case_decide; simplify_eq;
      rewrite alist_get_del; by case_decide.
  - intros k r. induction r as [|[[k1 f1] v1] r IH]; simpl.
    { split; [done|]. by intros (f & v & ?). }
    rewrite orb_true_iff, IH, bool_decide_eq_true. split.
    + intros [->|(f & v & Hv)]; [exists f1; by rewrite decide_True|].
      exists f. case_decide; eauto.
    + intros (f & v & Hv). case_decide; [left; congruence|right; eauto].
Qed.

Lemma zcontent_put_ne k k' x r t : k ≠ k' → zcontent t k' (alist_put k x r) = zcontent t k' r.
Proof.
  intros Hne. unfold zcontent, alist_put. simpl.
  rewrite decide_False, alist_get_del, decide_False by done. done.
Qed.

Lemma zentries_sorted es : StronglySorted Z.le (fst <$> merge_sort zentry_le es).
Proof.
  assert (StronglySorted zentry_le (merge_sort zentry_le es)) as Hs
    by (apply StronglySorted_merge_sort; apply _).
  induction Hs as [|a l Hs IH Hf]; simpl; constructor; [done|].
  apply Forall_fmap. by eapply Forall_impl.
Qed.

#[export] Instance sample_zset_laws : RedisZSetLaws zsets.
Proof.
  split; simpl.
  - intros t k r. unfold zcontent. repeat case_match; try constructor. apply zentries_sorted.
  - intros t t' k lo hi r _. unfold zcontent.
    destruct (alist_get k r) as [[es e]|] eqn:Hk; simpl; [|by rewrite Hk].
    rewrite decide_True by done.
    destruct (live t' e); [|done]. by rewrite !merge_sort_Permutation.
  - intros t t' k hi r _. unfold zcontent.
    destruct (alist_get k r) as [[es e]|] eqn:Hk; simpl; [|by rewrite Hk].
    rewrite decide_True by done.
    destruct (live t' e); [|done]. by rewrite !merge_sort_Permutation.
  - intros t k sc m r. unfold zcontent at 1; simpl. rewrite decide_True by done.
    destruct (zcontent t k r) as [|x es] eqn:Hc; simpl.
    { done. }
    assert (live t (zexpiry k r) = true) as ->; [|by rewrite merge_sort_Permutation].
    revert Hc. unfold zcontent, zexpiry. by repeat case_match.
  - intros t t' k ms r Ht. unfold zcontent at 1.
    destruct (zcontent t k r) as [|x es] eqn:Hc.
    + rewrite alist_get_del. by rewrite decide_True.
    + simpl. rewrite decide_True by done. simpl.
      assert ((t' <? t + ms) = true) as -> by (apply Z.ltb_lt; lia).
      by rewrite merge_sort_Permutation.
  - intros t t' k ms r Ht. unfold zcontent at 1.
    destruct (zcontent t k r) as [|x es] eqn:Hc.
    + rewrite alist_get_del. by rewrite decide_True.
    + simpl. rewrite decide_True by done. simpl.
      assert ((t' <? t + ms) = false) as -> by (apply Z.ltb_ge; lia). done.
  - intros. case_match; [|done]. case_match. by apply zcontent_put_ne.
  - intros. by apply zcontent_put_ne.
  - intros. case_match; [|by apply zcontent_put_ne].
    unfold zcontent. by rewrite alist_get_del, decide_False.
Qed.

(** Keys with their value and expiry. *)
Definition strings (V : Type) := list (string * (V * Z)).

#[export] Instance sample_string V : RedisString V (strings V) := {
  r_get t k r :=
    match alist_get k r with
    | Some (v, e) => if t <? e then Some v else None
    | None => None
    end;
  r_setex t k v ttl r := alist_put k (v, t + ttl * 1000) r;
  r_del k r := alist_del k r;
  r_scan_pages t p r := (λ e, [e.1]) <$> filter (λ e, startsWith e.1 p = true) r;
}.

Lemma alist_get_in {A} k (r : list (string * A)) v : alist_get k r = Some v → (k, v) ∈ r.
Proof.
  induction r as [|[k1 v1] r IH]; simpl; [done|].
  case_decide; intros; simplify_eq; [left|right; auto].
Qed.

#[export] Instance sample_string_laws V : RedisStringLaws V (strings V).
Proof.
  split; simpl.
  - intros t t' k v ttl r _. rewrite decide_True by done.
    case_test; case_decide; bool_prop; done || lia.
  - intros t t' k k' v ttl r Hne. rewrite decide_False by done.
    rewrite alist_get_del. by rewrite decide_False.
  - intros t k r. rewrite alist_get_del. by rewrite decide_True.
  - intros t k k' r Hne. rewrite alist_get_del. by rewrite decide_False.
  - intros t t' k r Ht. repeat case_match; bool_prop; try done. lia.
  - intros t t' k r v Ht. repeat case_match; bool_prop; try done. lia.
  - intros t p k r Hp [v Hv]. destruct (alist_get k r) as [[v' e]|] eqn:Hk; [|done].
    exists [k]. split; [|by left]. apply alist_get_in in Hk.
    apply (list_elem_of_fmap_2 (λ e, [e.1]) _ (k, (v', e))).
    by apply list_elem_of_filter.
Qed.

End Sample.
