(* ===== verification/RateLimit.v ===== *)
(** * Sliding-window rate limiting

    backend/src/rate-limit/rate-limit.service.ts (the sorted-set limiters) and
    the guards built on them.  [Reference] is the abstract contract: a limiter
    that keeps the whole history of admitted requests and counts those of the
    last window. *)

From stdpp Require Import base list strings sorting.
From Stdlib Require Import ZArith Lia.
From S2P Require Import Prelude JsText Redis.

Open Scope string_scope.
Open Scope Z_scope.

(** ** The abstract contract *)
Module Reference.

(** Admitted requests of the last [w] milliseconds before [t]. *)
Definition in_window (w t : Z) (hist : list Z) : list Z := filter (λ s, t - w < s) hist.

(** Admit a request at [t] iff fewer than [limit] were admitted in the window. *)
Definition step (limit w : Z) (hist : list Z) (t : Z) : bool * list Z :=
  if limit <=? Z.of_nat (length (in_window w t hist)) then (false, hist) else (true, t :: hist).

Fixpoint run (limit w : Z) (hist : list Z) (ts : list Z) : list bool * list Z :=
  match ts with
  | [] => ([], hist)
  | t :: ts' =>
      let '(b, h1) := step limit w hist t in
      let '(bs, h2) := run limit w h1 ts' in (b :: bs, h2)
  end.

Lemma in_window_mono w t t' hist :
  t ≤ t' → Forall (λ s, s ≤ t) hist →
  (length (in_window w t' hist) ≤ length (in_window w t hist))%nat.
Proof.
  intros Ht. unfold in_window. induction hist as [|s h IH]; intros Hf; [done|].
  apply Forall_cons in Hf as [Hs Hf]. specialize (IH Hf).
  rewrite !filter_cons. repeat case_decide; simpl; lia.
Qed.

(** No window of length [w] ever holds more than [limit] admitted requests. *)
Definition bounded (limit w t0 : Z) (hist : list Z) : Prop :=
  Forall (λ s, s ≤ t0) hist ∧
  ∀ t, Z.of_nat (length (filter (λ s, t - w < s ≤ t) hist)) ≤ Z.max 0 limit.

Lemma filter_window_split w t t0 hist :
  Forall (λ s, s ≤ t0) hist → t0 ≤ t →
  filter (λ s, t - w < s ≤ t) hist = in_window w t hist.
Proof.
  intros Hf Ht. unfold in_window. apply filter_ext_in.
  eapply Forall_impl; [exact Hf|]. simpl. intros s Hs. lia.
Qed.

Lemma step_bounded limit w t0 t hist :
  0 < w → t0 ≤ t → bounded limit w t0 hist → bounded limit w t (step limit w hist t).2.
Proof.
  intros Hw Ht [Hf Hb]. unfold step.
  assert (Forall (λ s, s ≤ t) hist) as Hf' by (eapply Forall_impl; [exact Hf|]; simpl; lia).
  case_test; simpl; bool_prop; [by split|]. split; [by constructor|].
  intros u. rewrite filter_cons. case_decide as Hu; [|apply Hb].
  rewrite (filter_window_split w u t) by (done || lia).
  pose proof (in_window_mono w t u hist ltac:(lia) Hf'). simpl. lia.
Qed.

Lemma run_bounded limit w t0 ts hist :
  0 < w → StronglySorted Z.le (t0 :: ts) → bounded limit w t0 hist →
  ∃ t1, bounded limit w t1 (run limit w hist ts).2.
Proof.
  revert t0 hist. induction ts as [|t ts IH]; intros t0 hist Hw Hs Hb; simpl; [by eauto|].
  apply StronglySorted_inv in Hs as [Hs Hall]. apply Forall_cons in Hall as [Ht _].
  pose proof (step_bounded limit w t0 t hist Hw Ht Hb) as Hb'.
  destruct (step limit w hist t) as [b h1]; simpl in *.
  specialize (IH t h1 Hw Hs Hb'). by destruct (run limit w h1 ts).
Qed.

End Reference.

(** ** Configuration *)

(** Models [WALLET_RATE_LIMIT_DEFAULTS] (backend/src/rate-limit/rate-limit.constants.ts:4-7). *)
Definition WALLET_LIMIT : Z := 3.
Definition WALLET_WINDOW_SECONDS : Z := 3600.

(** Models [GLOBAL_RATE_LIMIT_DEFAULTS] (backend/src/rate-limit/rate-limit.constants.ts:23-26). *)
Definition GLOBAL_LIMIT : Z := 100.
Definition GLOBAL_WINDOW_SECONDS : Z := 300.

(** Models [REDIS_KEYS] (backend/src/rate-limit/rate-limit.constants.ts:35-41). *)
Definition COUNTER (policyId : string) : string := "rate_limit:counter:" +:+ policyId.
Definition CONFIG (policyId : string) : string := "rate_limit:config:" +:+ policyId.
Definition DEFAULTS : string := "rate_limit:defaults".
Definition WALLET_WINDOW (wallet : string) : string := "rate_limit:wallet:" +:+ wallet.
Definition GLOBAL_WINDOW : string := "rate_limit:global".

(** The environment entries [config.get] reads; [None] takes the default. *)
Record LimitEnv := {
  env_wallet_window : option Z;
  env_wallet_limit : option Z;
  env_global_window : option Z;
  env_global_limit : option Z;
  env_claims_hour : option Z;
  env_claims_day : option Z;
  env_appeals_hour : option Z;
  env_appeals_day : option Z;
}.

(** The outcome [{ allowed, retryAfterSeconds }] of a check. *)
Record Decision_ := { allowed : bool; retryAfterSeconds : Z }.
Definition admitted : Decision_ := {| allowed := true; retryAfterSeconds := 0 |}.

Section sliding.
Context {R : Type} `{RedisZSet R}.
Abbreviation MR A := (M (rworld R) string A).

(** The body shared by the limiters that report a retry delay, here with the
    lines of the evidence limiter: prune, count, then either report the
    delay until the oldest entry leaves the window or record the request.
    [rnd] is the random suffix that makes the member unique.
    Models [checkWalletEvidenceLimit] (backend/src/rate-limit/rate-limit.service.ts:341-359). *)
Definition slidingWindow (key : string) (limit windowMs nowMs : Z) (rnd : string) : MR Decision_ :=
  let windowStart := nowMs - windowMs in
  do* update (r_zremrangebyscore nowMs key 0 windowStart) in
  let* currentCount := query (λ r, Z.of_nat (length (r_zat nowMs key r))) in
  if limit <=? currentCount then
    let* oldest := query (λ r, head (r_zat nowMs key r)) in
    let oldestTimestamp := match oldest with Some e => fst e | None => windowStart end in
    ret {| allowed := false;
           retryAfterSeconds := Z.max 1 (ceil_div (oldestTimestamp + windowMs - nowMs) 1000) |}
  else
    do* update (r_zadd nowMs key nowMs (show_Z nowMs +:+ "-" +:+ rnd)) in
    do* update (r_pexpire nowMs key (windowMs * 2)) in
    ret admitted.

(** Models [checkWalletLimit] (backend/src/rate-limit/rate-limit.service.ts:294-328). *)
Definition checkWalletLimit (env : LimitEnv) (walletAddress : string) (nowMs : Z) (rnd : string)
  : MR Decision_ :=
  let key := WALLET_WINDOW (toLowerCase walletAddress) in
  let windowMs := default WALLET_WINDOW_SECONDS (env_wallet_window env) * 1000 in
  let limit := default WALLET_LIMIT (env_wallet_limit env) in
  try_catch (slidingWindow key limit windowMs nowMs rnd) (λ _, ret admitted).

(** Models [checkWalletEvidenceLimit] (backend/src/rate-limit/rate-limit.service.ts:334-364). *)
Definition checkWalletEvidenceLimit (walletAddress : string) (limit windowSeconds nowMs : Z)
    (rnd : string) : MR Decision_ :=
  let key := "rate_limit:evidence:" +:+ toLowerCase walletAddress in
  try_catch (slidingWindow key limit (windowSeconds * 1000) nowMs rnd) (λ _, ret admitted).

(** Models [checkLimit] (backend/src/rate-limit/rate-limit.service.ts:370-392). *)
Definition checkLimit (key : string) (limit windowSeconds nowMs : Z) (rnd : string) : MR bool :=
  let windowMs := windowSeconds * 1000 in
  let windowStart := nowMs - windowMs in
  try_catch
    (do* update (r_zremrangebyscore nowMs key 0 windowStart) in
     let* currentCount := query (λ r, Z.of_nat (length (r_zat nowMs key r))) in
     if limit <=? currentCount then ret false
     else
       do* update (r_zadd nowMs key nowMs (show_Z nowMs +:+ "-" +:+ rnd)) in
       do* update (r_pexpire nowMs key (windowMs * 2)) in
       ret true)
    (λ _, ret true).

(** Models [checkGlobalLimit] (backend/src/rate-limit/rate-limit.service.ts:402-435). *)
Definition checkGlobalLimit (env : LimitEnv) (nowMs : Z) (rnd : string) : MR Decision_ :=
  let windowMs := default GLOBAL_WINDOW_SECONDS (env_global_window env) * 1000 in
  let limit := default GLOBAL_LIMIT (env_global_limit env) in
  try_catch (slidingWindow GLOBAL_WINDOW limit windowMs nowMs rnd) (λ _, ret admitted).

(** A sequence of calls [(nowMs, rnd)] of one check, with the decisions. *)
Fixpoint calls {A} (check : Z → string → MR A) (reqs : list (Z * string)) : MR (list A) :=
  match reqs with
  | [] => ret []
  | (t, rnd) :: reqs' =>
      let* d := check t rnd in
      let* ds := calls check reqs' in
      ret (d :: ds)
  end.

(** The member a call at [t] adds. *)
Definition member (t : Z) (rnd : string) : string := show_Z t +:+ "-" +:+ rnd.

(** Requests in the order the server sees them: positive, non-decreasing
    clock readings and pairwise distinct members. *)
Definition orderly (reqs : list (Z * string)) : Prop :=
  StronglySorted Z.le (0 :: (fst <$> reqs)) ∧ Forall (λ q, 0 < q.1) reqs ∧
  NoDup ((λ q, member q.1 q.2) <$> reqs).

(** A server with no entries under [key]. *)
Definition no_entries (key : string) (r : R) : Prop := ∀ t, r_zat t key r = [].
End sliding.

(** ** Simulation of the reference limiter *)
Section simulation.
Context {R : Type} `{RedisZSetLaws R}.
Context (key : string) (w : Z).
Implicit Types (r : R) (hist : list Z) (used : list string).

(** From time [t0] on, the live entries of the set that lie in the window are
    the admitted requests of the history that lie in the window. *)
Definition sim r (t0 : Z) hist used : Prop :=
  Forall (λ s, s ≤ t0) hist ∧
  ∀ t', t0 ≤ t' →
    (fst <$> filter (λ e, t' - w < e.1) (r_zat t' key r)) ≡ₚ Reference.in_window w t' hist ∧
    Forall (λ e, 0 < e.1 ∧ e.2 ∈ used) (r_zat t' key r).

Lemma sim_empty r : no_entries key r → sim r 0 [] [].
Proof. intros He. split; [done|]. intros t' _. by rewrite (He t'). Qed.

Lemma sim_weaken r t0 t hist used m :
  t0 ≤ t → sim r t0 hist used → sim r t hist (m :: used).
Proof.
  intros Ht [Hf Hs]. split; [eapply Forall_impl; [exact Hf|]; simpl; lia|].
  intros t' Ht'. destruct (Hs t' ltac:(lia)) as [Hp Hu]. split; [done|].
  eapply Forall_impl; [exact Hu|]. simpl. intros e [? ?]. split; [done|by right].
Qed.

(** What ZREMRANGEBYSCORE 0 (t - w) leaves. *)
Lemma pruned r t0 t t' hist used :
  sim r t0 hist used → t0 ≤ t → t ≤ t' →
  r_zat t' key (r_zremrangebyscore t key 0 (t - w) r) ≡ₚ
    filter (λ e, t - w < e.1) (r_zat t' key r).
Proof.
  intros [_ Hs] Ht Ht'. rewrite zat_zremrangebyscore by lia.
  destruct (Hs t' ltac:(lia)) as [_ Hu].
  erewrite (filter_ext_in _ (λ e, t - w < e.1)); [done|].
  eapply Forall_impl; [exact Hu|]. simpl. intros e [? _]. lia.
Qed.

Lemma sim_pruned r t0 t hist used :
  sim r t0 hist used → t0 ≤ t →
  sim (r_zremrangebyscore t key 0 (t - w) r) t hist used.
Proof.
  intros Hsim Ht. pose proof Hsim as [Hf Hs].
  split; [eapply Forall_impl; [exact Hf|]; simpl; lia|].
  intros t' Ht'. pose proof (pruned _ _ _ _ _ _ Hsim Ht Ht') as Hp.
  destruct (Hs t' ltac:(lia)) as [Hw' Hu]. split.
  - rewrite Hp, list_filter_filter_l; [done|]. intros e ?. lia.
  - rewrite Hp. by apply Forall_filter_of.
Qed.

Lemma pruned_count r t0 t hist used :
  sim r t0 hist used → t0 ≤ t →
  length (r_zat t key (r_zremrangebyscore t key 0 (t - w) r)) =
    length (Reference.in_window w t hist).
Proof.
  intros Hsim Ht. rewrite (pruned _ _ _ t _ _ Hsim Ht) by lia.
  destruct Hsim as [_ Hs]. destruct (Hs t Ht) as [Hp _].
  by rewrite <- Hp, length_fmap.
Qed.

(** Recording a request: ZADD then PEXPIRE, on a pruned set. *)
Lemma sim_recorded ms r t hist used m :
  w ≤ Z.max 0 ms →
  sim r t hist used → 0 < t → m ∉ used →
  Forall (λ e, t - w < e.1) (r_zat t key r) →
  sim (r_pexpire t key ms (r_zadd t key t m r)) t (t :: hist) (m :: used).
Proof.
  intros Hms [Hf Hs] Hpos Hm Hin. destruct (Hs t ltac:(lia)) as [Hp Hu].
  assert (Hadd : r_zat t key (r_zadd t key t m r) ≡ₚ (t, m) :: r_zat t key r).
  { rewrite zat_zadd, filter_all; [done|].
    eapply Forall_impl; [exact Hu|]. simpl. intros e [_ He] Heq. congruence. }
  split; [by constructor|]. intros t' Ht'.
  destruct (decide (t' < t + ms)) as [Hlive|Hdead].
  - rewrite zat_pexpire_live, Hadd by lia. split.
    + unfold Reference.in_window.
      rewrite filter_cons, filter_cons. simpl.
      assert (Hrest : fst <$> filter (λ e, t' - w < e.1) (r_zat t key r) ≡ₚ
                      filter (λ s, t' - w < s) hist).
      { rewrite (filter_fmap_proj fst (λ s, t' - w < s)).
        assert (Hh : fst <$> r_zat t key r ≡ₚ Reference.in_window w t hist).
        { rewrite <- Hp. by rewrite filter_all. }
        rewrite Hh. unfold Reference.in_window. rewrite list_filter_filter_l; [done|].
        intros; lia. }
      case_decide; simpl; by rewrite Hrest.
    + constructor; [split; [done|by left]|].
      eapply Forall_impl; [exact Hu|]. simpl. intros e [? ?]. split; [done|by right].
  - rewrite zat_pexpire_dead by lia. split; [|done].
    unfold Reference.in_window. rewrite (filter_none (λ s, t' - w < s) (t :: hist)); [done|].
    constructor; [lia|]. eapply Forall_impl; [exact Hf|]. simpl. lia.
Qed.
End simulation.

Section limiter.
Context {R : Type} `{RedisZSetLaws R}.
Context (key : string) (limit w : Z).
Implicit Types (r : R) (hist : list Z) (used : list string).

(** One call on a healthy server decides as the reference and preserves the
    simulation. *)
Lemma slidingWindow_step r t0 t rnd hist used :
  sim key w r t0 hist used → t0 ≤ t → 0 < t → member t rnd ∉ used →
  ∃ d r', slidingWindow key limit w t rnd (healthy r) = (Ok d, healthy r') ∧
    allowed d = (Reference.step limit w hist t).1 ∧
    sim key w r' t (Reference.step limit w hist t).2 (member t rnd :: used).
Proof.
  intros Hsim Ht Hpos Hfresh.
  pose proof (sim_pruned _ _ _ _ _ _ _ Hsim Ht) as Hsim1.
  pose proof (pruned_count _ _ _ _ _ _ _ Hsim Ht) as Hcount.
  unfold slidingWindow, bind, Reference.step.
  rewrite update_healthy, query_healthy, Hcount.
  case_test; [rewrite query_healthy|rewrite !update_healthy]; unfold ret;
    eexists _, _; (split; [done|]); (split; [done|]); simpl.
  - by eapply sim_weaken; [|done]; lia.
  - apply sim_recorded; [lia|done..|].
    rewrite (pruned _ _ _ _ t t _ _ Hsim Ht) by lia. apply Forall_forall.
    intros e He. by apply list_elem_of_filter in He as [? _].
Qed.

(** Every sequence of calls gives the reference's decisions. *)
Lemma slidingWindow_calls r t0 reqs hist used :
  sim key w r t0 hist used → StronglySorted Z.le (t0 :: (fst <$> reqs)) →
  Forall (λ q, 0 < q.1) reqs → NoDup ((λ q, member q.1 q.2) <$> reqs) →
  Forall (λ q, member q.1 q.2 ∉ used) reqs →
  ∃ ds r' t1 used', calls (slidingWindow key limit w) reqs (healthy r) = (Ok ds, healthy r') ∧
    allowed <$> ds = (Reference.run limit w hist (fst <$> reqs)).1 ∧
    sim key w r' t1 (Reference.run limit w hist (fst <$> reqs)).2 used' ∧
    (∀ u, t0 ≤ u → Forall (λ s, s ≤ u) (fst <$> reqs) → t1 ≤ u) ∧
    (∀ m, m ∉ used → m ∉ ((λ q, member q.1 q.2) <$> reqs) → m ∉ used').
Proof.
  revert r t0 hist used.
  induction reqs as [|[t rnd] reqs IH]; intros r t0 hist used Hsim Hs Hpos Hnd Hfresh.
  { eexists [], r, t0, used. split_and!; try done. }
  rewrite !fmap_cons in *. cbn [Reference.run calls fst snd] in *.
  apply StronglySorted_inv in Hs as [Hs Hall]. apply Forall_cons in Hall as [Ht _]. apply Forall_cons in Hpos as [Hp Hpos].
  apply Forall_cons in Hfresh as [Hf Hfresh]. apply NoDup_cons in Hnd as [Hn Hnd].
  destruct (slidingWindow_step r t0 t rnd hist used Hsim Ht Hp Hf) as (d & r1 & Hrun & Hd & Hsim1).
  destruct (Reference.step limit w hist t) as [b h1]; cbn [fst snd] in *.
  assert (Hfresh' : Forall (λ q, member q.1 q.2 ∉ member t rnd :: used) reqs).
  { rewrite Forall_forall in Hfresh |- *. intros q Hq.
    rewrite not_elem_of_cons. split; [|by apply Hfresh].
    intros E. apply Hn. rewrite <- E. by apply (list_elem_of_fmap_2 (λ q, member q.1 q.2)). }
  destruct (IH r1 t h1 _ Hsim1 Hs Hpos Hnd Hfresh') 
    as (ds & r2 & t1 & u & Hrun2 & Hds & Hsim2 & Hlast & Hused).
  destruct (Reference.run limit w h1 (fst <$> reqs)) as [bs h2]; cbn [fst snd] in *.
  eexists (d :: ds), r2, t1, u. split_and!; [|by rewrite fmap_cons, Hd, Hds|done|..].
  - unfold bind. by rewrite Hrun, Hrun2.
  - intros v _ [? ?]%Forall_cons_1. by apply Hlast.
  - intros m Hm [? ?]%not_elem_of_cons. apply Hused; [|done]. by apply not_elem_of_cons.
Qed.

Lemma slidingWindow_refines r reqs :
  no_entries key r → orderly reqs →
  ∃ ds r', calls (slidingWindow key limit w) reqs (healthy r) = (Ok ds, healthy r') ∧
    allowed <$> ds = (Reference.run limit w [] (fst <$> reqs)).1.
Proof.
  intros He (Hs & Hpos & Hnd).
  destruct (slidingWindow_calls r 0 reqs [] []) as (ds & r' & ? & ? & ? & ? & _);
    [by apply sim_empty|done|done|done| |by eauto].
  apply Forall_forall. intros q _. apply not_elem_of_nil.
Qed.

(** Guarding with a handler does not change a run that never throws. *)
Lemma calls_guarded (reqs : list (Z * string)) (r : R) ds r' h :
  calls (slidingWindow key limit w) reqs (healthy r) = (Ok ds, healthy r') →
  calls (λ t rnd, try_catch (slidingWindow key limit w t rnd) (λ _ : string, h)) reqs (healthy r)
    = (Ok ds, healthy r').
Proof.
  revert r ds. induction reqs as [|[t rnd] reqs IH]; intros r ds Hrun; [done|].
  cbn [calls] in *. apply bind_ok_inv in Hrun as (d & w1 & Hd & Hrun).
  apply bind_ok_inv in Hrun as (ds0 & w2 & Hds & Hret).
  assert (∃ r1, w1 = healthy r1) as [r1 ->].
  { revert Hd. unfold slidingWindow, bind. rewrite update_healthy, query_healthy.
    case_test; [rewrite query_healthy|rewrite !update_healthy]; unfold ret; intros; simplify_eq; eauto. }
  unfold ret in Hret. simplify_eq.
  erewrite bind_ok by (by apply try_ok). erewrite bind_ok by (by apply IH). done.
Qed.
End limiter.

(** Times of the admitted calls, latest first. *)
Fixpoint admitted_times (ts : list Z) (ds : list bool) (acc : list Z) : list Z :=
  match ts, ds with
  | t :: ts', d :: ds' => admitted_times ts' ds' (if d then t :: acc else acc)
  | _, _ => acc
  end.

Lemma run_admitted limit w hist ts :
  (Reference.run limit w hist ts).2 = admitted_times ts (Reference.run limit w hist ts).1 hist.
Proof.
  revert hist. induction ts as [|t ts IH]; intros hist; [done|]. cbn [Reference.run].
  destruct (Reference.step limit w hist t) as [b h1] eqn:Hstep.
  specialize (IH h1). destruct (Reference.run limit w h1 ts) as [bs h2]. simpl in *.
  rewrite IH. f_equal. revert Hstep. unfold Reference.step. case_test; by intros [= <- <-].
Qed.

(** Waiting until an admitted request leaves the window frees a slot. *)
Lemma in_window_shrinks w t t2 o hist :
  t ≤ t2 → o ∈ Reference.in_window w t hist → o + w ≤ t2 →
  (length (Reference.in_window w t2 hist) < length (Reference.in_window w t hist))%nat.
Proof.
  intros Ht Ho Hle. unfold Reference.in_window in *.
  rewrite <- (list_filter_filter_l (λ s, t2 - w < s) (λ s, t - w < s)) by (intros; lia).
  apply (length_filter_lt _ _ o); [done|]. lia.
Qed.

Section methods.
Context {R : Type} `{RedisZSetLaws R}.
Implicit Types (env : LimitEnv).

(** [check] decides every orderly sequence of calls as the reference limiter
    with this limit and window does, starting from no entries under [key]. *)
Definition decides_as_reference {A} (check : Z → string → M (rworld R) string A)
    (ok : A → bool) (key : string) (limit w : Z) : Prop :=
  ∀ (r : R) reqs, no_entries key r → orderly reqs →
    ∃ ds r', calls check reqs (healthy r) = (Ok ds, healthy r') ∧
      ok <$> ds = (Reference.run limit w [] (fst <$> reqs)).1.

Lemma guarded_sliding_refines key limit w :
  decides_as_reference (λ t rnd, try_catch (slidingWindow key limit w t rnd) (λ _ : string, ret admitted))
    allowed key limit w.
Proof.
  intros r reqs He Ho.
  destruct (slidingWindow_refines key limit w r reqs He Ho) as (ds & r' & Hrun & Hds).
  eexists ds, r'. split; [by apply calls_guarded|done].
Qed.

Lemma checkLimit_sliding key limit ws t rnd (r : R) d r' :
  slidingWindow key limit (ws * 1000) t rnd (healthy r) = (Ok d, healthy r') →
  checkLimit key limit ws t rnd (healthy r) = (Ok (allowed d), healthy r').
Proof.
  unfold slidingWindow, checkLimit, try_catch, bind.
  rewrite !update_healthy, !query_healthy. case_test.
  - rewrite query_healthy. unfold ret. by intros [= <- <-].
  - rewrite !update_healthy. unfold ret. by intros [= <- <-].
Qed.

Lemma checkLimit_calls key limit ws reqs (r : R) ds r' :
  calls (slidingWindow key limit (ws * 1000)) reqs (healthy r) = (Ok ds, healthy r') →
  calls (checkLimit key limit ws) reqs (healthy r) = (Ok (allowed <$> ds), healthy r').
Proof.
  revert r ds. induction reqs as [|[t rnd] reqs IH]; intros r ds; cbn [calls].
  { unfold ret. by intros [= <- <-]. }
  intros Hrun. apply bind_ok_inv in Hrun as (d & w1 & Hd & Hrun).
  apply bind_ok_inv in Hrun as (ds0 & w2 & Hds & Hret).
  assert (∃ r1, w1 = healthy r1) as [r1 ->].
  { revert Hd. unfold slidingWindow, bind. rewrite update_healthy, query_healthy.
    case_test; [rewrite query_healthy|rewrite !update_healthy]; unfold ret; intros; simplify_eq; eauto. }
  unfold ret in Hret. simplify_eq.
  erewrite bind_ok by (by apply checkLimit_sliding). erewrite bind_ok by (by apply IH). done.
Qed.

(** C1: Every sorted-set limiter of the service implements the sliding-window contract: on a healthy
    server, any sequence of calls with a non-decreasing clock is decided exactly as by the reference
    limiter that remembers every admitted request, for the wallet, evidence, global and generic
    checks with their keys, limits and windows. *)
Theorem limiters_refine_reference env wallet key limit ws :
  decides_as_reference (checkWalletLimit env wallet) allowed (WALLET_WINDOW (toLowerCase wallet))
    (default WALLET_LIMIT (env_wallet_limit env))
    (default WALLET_WINDOW_SECONDS (env_wallet_window env) * 1000) ∧
  decides_as_reference (checkWalletEvidenceLimit wallet limit ws) allowed
    ("rate_limit:evidence:" +:+ toLowerCase wallet) limit (ws * 1000) ∧
  decides_as_reference (checkGlobalLimit env) allowed GLOBAL_WINDOW
    (default GLOBAL_LIMIT (env_global_limit env))
    (default GLOBAL_WINDOW_SECONDS (env_global_window env) * 1000) ∧
  decides_as_reference (checkLimit key limit ws) id key limit (ws * 1000).
Proof.
  repeat split; try apply guarded_sliding_refines.
  intros r reqs He Ho.
  destruct (slidingWindow_refines key limit (ws * 1000) r reqs He Ho)
    as (ds & r' & Hrun & Hds).
  eexists _, _. split; [by apply checkLimit_calls|by rewrite list_fmap_id].
Qed.

(** The wallet limiter never admits more than its limit of requests in any window: for every
    orderly sequence of calls on a healthy server and every moment [t], at most [limit] of the
    admitted calls fall in the window that ends at [t]. *)
Theorem checkWalletLimit_bounded env wallet (r : R) reqs :
  let limit := default WALLET_LIMIT (env_wallet_limit env) in
  let w := default WALLET_WINDOW_SECONDS (env_wallet_window env) * 1000 in
  0 < w → no_entries (WALLET_WINDOW (toLowerCase wallet)) r → orderly reqs →
  ∃ ds r', calls (checkWalletLimit env wallet) reqs (healthy r) = (Ok ds, healthy r') ∧
    ∀ t, Z.of_nat (length (filter (λ s, t - w < s ≤ t)
           (admitted_times (fst <$> reqs) (allowed <$> ds) []))) ≤ Z.max 0 limit.
Proof.
  intros limit w Hw He Ho.
  destruct (guarded_sliding_refines (WALLET_WINDOW (toLowerCase wallet)) limit w r reqs He Ho)
    as (ds & r' & Hrun & Hds).
  eexists ds, r'. split; [exact Hrun|].
  rewrite Hds, <- run_admitted. destruct Ho as [Hs _].
  destruct (Reference.run_bounded limit w 0 (fst <$> reqs) [] Hw Hs) as (t1 & _ & Hb); [|done].
  split; [done|]. intros t. simpl. lia.
Qed.

(** What a rejected call reports: the delay covers the oldest admitted
    request of the window. *)
Lemma rejected_delay key limit w t0 t rnd (r : R) hist used d w' :
  0 < w → 0 < limit → sim key w r t0 hist used → t0 ≤ t →
  slidingWindow key limit w t rnd (healthy r) = (Ok d, w') → allowed d = false →
  ∃ o, o ∈ Reference.in_window w t hist ∧ o + w ≤ t + retryAfterSeconds d * 1000.
Proof.
  intros Hw Hl Hsim Ht Hrun Hd.
  pose proof (pruned key w r t0 t t hist used Hsim Ht ltac:(lia)) as Hp.
  destruct Hsim as [_ Hs]. destruct (Hs t Ht) as [Hh _].
  revert Hrun. unfold slidingWindow, bind. rewrite update_healthy, query_healthy.
  case_test; [|rewrite !update_healthy; unfold ret; by intros [= <- _]].
  rewrite query_healthy. unfold ret. intros [= <- _]; bool_prop.
  destruct (r_zat t key _) as [|[o m] es] eqn:Hz; simpl in *; [lia|].
  exists o. split.
  - rewrite <- Hh, <- Hp. simpl. by left.
  - pose proof (ceil_div_spec (o + w - t) 1000). lia.
Qed.
End methods.

(** ** Retry delays and failures *)
Section retry.
Context {R : Type} `{RedisZSetLaws R}.
Implicit Types (env : LimitEnv).

Lemma calls_app {A} (check : Z → string → M (rworld R) string A) reqs1 reqs2 w ds1 w1 ds2 w2 :
  calls check reqs1 w = (Ok ds1, w1) → calls check reqs2 w1 = (Ok ds2, w2) →
  calls check (reqs1 ++ reqs2)%list w = (Ok (ds1 ++ ds2)%list, w2).
Proof.
  revert w ds1. induction reqs1 as [|[t rnd] reqs1 IH]; intros w ds1; cbn [app calls].
  { unfold ret. by intros [= <- <-]. }
  intros Hrun H2. apply bind_ok_inv in Hrun as (d & w3 & Hd & Hrun).
  apply bind_ok_inv in Hrun as (ds0 & w4 & Hds & Hret). unfold ret in Hret. simplify_eq.
  erewrite bind_ok by done. by erewrite bind_ok by (by eapply IH).
Qed.

(** After any history the limiter refuses only a full window, and waiting the
    reported delay empties at least one slot of it. *)
Lemma retry_step key limit w (r : R) t0 hist used t rnd t2 rnd2 :
  0 < w → 0 < limit → sim key w r t0 hist used → t0 ≤ t → t ≤ t2 → 0 < t →
  Z.of_nat (length (Reference.in_window w t hist)) ≤ limit →
  member t rnd ∉ used → member t2 rnd2 ∉ member t rnd :: used →
  ∃ d d2 r', calls (slidingWindow key limit w) [(t, rnd); (t2, rnd2)] (healthy r)
             = (Ok [d; d2], healthy r') ∧
    (allowed d = false → t + retryAfterSeconds d * 1000 ≤ t2 → allowed d2 = true).
Proof.
  intros Hw Hl Hsim Ht Ht2 Hp Hfull Hf Hf2.
  destruct (slidingWindow_step key limit w r t0 t rnd hist used) as (d & r1 & Hrun & Hd & Hsim1); [done..|].
  destruct (slidingWindow_step key limit w r1 t t2 rnd2 _ _ Hsim1) as (d2 & r2 & Hrun2 & Hd2 & _);
    [done|lia|done|].
  eexists d, d2, r2. split.
  { cbn [calls]. unfold bind, ret. by rewrite Hrun, Hrun2. }
  intros Hno Hwait.
  destruct (rejected_delay key limit w t0 t rnd r hist used d (healthy r1)) as (o & Ho & Hle); [done..|].
  pose proof (in_window_shrinks w t t2 o hist Ht2 Ho ltac:(lia)).
  revert Hd Hd2. unfold Reference.step at 1. rewrite Hno.
  case_test; [intros _|done]. unfold Reference.step.
  replace (limit <=? Z.of_nat (length (Reference.in_window w t hist))) with true. simpl.
  by replace (limit <=? _) with false by (symmetry; apply Z.leb_gt; lia).
Qed.

(** The reported delay is sufficient.  After any orderly history of the wallet limiter with a
    positive limit, if the call at [t] is rejected with delay [s] seconds then the next call, made at
    least [s] seconds later, is admitted. *)
Theorem retry_after_sufficient env wallet (r : R) reqs t rnd t2 rnd2 :
  let limit := default WALLET_LIMIT (env_wallet_limit env) in
  let w := default WALLET_WINDOW_SECONDS (env_wallet_window env) * 1000 in
  0 < w → 0 < limit → no_entries (WALLET_WINDOW (toLowerCase wallet)) r →
  orderly (reqs ++ [(t, rnd); (t2, rnd2)])%list →
  ∃ ds d d2 r', calls (checkWalletLimit env wallet) (reqs ++ [(t, rnd); (t2, rnd2)])%list (healthy r)
                = (Ok (ds ++ [d; d2])%list, healthy r') ∧
    (allowed d = false → t + retryAfterSeconds d * 1000 ≤ t2 → allowed d2 = true).
Proof.
  intros limit w Hw Hl He (Hs & Hpos & Hnd).
  set (key := WALLET_WINDOW (toLowerCase wallet)).
  rewrite fmap_app in Hs. rewrite fmap_app in Hnd. cbn [fmap list_fmap fst snd] in Hs, Hnd.
  apply Forall_app in Hpos as [Hpos [Hpt _]%Forall_cons_1].
  apply NoDup_app in Hnd as (Hnd & Hdis & Hnd2).
  rewrite app_comm_cons in Hs. apply StronglySorted_app in Hs as (Hle & Hs1 & Hs2).
  apply StronglySorted_inv in Hs2 as [_ [Ht2 _]%Forall_cons_1].
  assert (Hpast : Forall (λ s, s ≤ t) (0 :: (fst <$> reqs))).
  { apply Forall_forall. intros s Hin. apply Hle; [done|by left]. }
  apply Forall_cons_1 in Hpast as [Ht0 Hpast].
  destruct (slidingWindow_calls key limit w r 0 reqs [] [])
    as (ds & r1 & t1 & used & Hrun & Hds & Hsim & Hlast & Hused);
    [by apply sim_empty|done|done|done|by apply Forall_forall; intros ??; apply not_elem_of_nil|].
  destruct (retry_step key limit w r1 t1 (Reference.run limit w [] (fst <$> reqs)).2 used t rnd t2 rnd2)
    as (d & d2 & r2 & Hrun2 & Hretry); [done|done|done|by apply Hlast|done|done|..].
  - destruct (Reference.run_bounded limit w 0 (fst <$> reqs) [] Hw Hs1) as (t3 & _ & Hb).
    { split; [done|]. intros u. simpl. lia. }
    rewrite <- (Reference.filter_window_split w t t1).
    + specialize (Hb t). lia.
    + apply Hsim.
    + by apply Hlast.
  - apply Hused; [apply not_elem_of_nil|]. intros Hin. apply (Hdis _ Hin). left.
  - apply NoDup_cons in Hnd2 as [Hne _]. apply not_elem_of_cons. split.
    + intros E. apply Hne. rewrite E. left.
    + apply Hused; [apply not_elem_of_nil|]. intros Hin. apply (Hdis _ Hin). right. left.
  - eexists ds, d, d2, r2. split; [|done].
    apply calls_guarded. by eapply calls_app.
Qed.
End retry.

(** ** Unavailable server *)
Section outage.
Context {R : Type} `{RedisZSet R}.

(** A refusal takes three commands (prune, count, oldest) that all succeed. *)
Lemma sliding_denial key limit w t rnd (s : rworld R) d s' :
  slidingWindow key limit w t rnd s = (Ok d, s') → allowed d = false → true ∉ take 3 (faults s).
Proof.
  unfold slidingWindow, bind, update, query, cmd, ret. intros Hrun Hd.
  destruct s as [r [|[] [|[] [|[] fs]]]]; simpl in *; case_tests; not_in_list.
Qed.

Lemma guarded_denial key limit w t rnd (s : rworld R) :
  ∃ d s', try_catch (slidingWindow key limit w t rnd) (λ _ : string, ret (E:=string) admitted) s = (Ok d, s') ∧
    (true ∈ take 3 (faults s) → allowed d = true).
Proof.
  unfold try_catch. destruct (slidingWindow key limit w t rnd s) as [[d|e] s'] eqn:Hrun;
    eexists _, _; (split; [done|]); [|done].
  intros Hf. destruct (allowed d) eqn:Hd; [done|]. by apply sliding_denial in Hrun.
Qed.

(** The limiters fail open.  Whatever commands the server rejects, every check returns a decision
    instead of throwing, and a request is admitted whenever one of the commands a refusal needs
    (prune, count, oldest entry) is rejected. *)
Theorem limiters_fail_open env wallet key limit ws t rnd (s : rworld R) :
  (∃ d s', checkWalletLimit env wallet t rnd s = (Ok d, s') ∧
     (true ∈ take 3 (faults s) → allowed d = true)) ∧
  (∃ d s', checkWalletEvidenceLimit wallet limit ws t rnd s = (Ok d, s') ∧
     (true ∈ take 3 (faults s) → allowed d = true)) ∧
  (∃ d s', checkGlobalLimit env t rnd s = (Ok d, s') ∧
     (true ∈ take 3 (faults s) → allowed d = true)) ∧
  (∃ b s', checkLimit key limit ws t rnd s = (Ok b, s') ∧
     (true ∈ take 2 (faults s) → b = true)).
Proof.
  do 3 (split; [apply guarded_denial|]).
  unfold checkLimit, try_catch, bind, update, query, cmd, ret.
  destruct s as [r [|[] [|[] fs]]]; simpl; case_tests; eexists _, _;
    (split; [done|]); done || not_in_list.
Qed.
End outage.

(** ** Witnesses *)
Module Witnesses.
Import Sample.

Definition env0 : LimitEnv := {|
  env_wallet_window := None; env_wallet_limit := None; env_global_window := None;
  env_global_limit := None; env_claims_hour := None; env_claims_day := None;
  env_appeals_hour := None; env_appeals_day := None |}.

Lemma no_entries_nil key : no_entries key ([] : Sample.zsets).
Proof. done. Qed.

(** Four claims within an hour, then one after it. *)
Definition burst : list (Z * string) :=
  [(1000, "a"); (2000, "b"); (3000, "c"); (4000, "d"); (3602000, "e")].

Lemma burst_orderly : orderly burst.
Proof.
  split_and!.
  - sorted_concrete.
  - repeat constructor; simpl; lia.
  - apply (bool_decide_unpack _). vm_compute. done.
Qed.

Lemma limiters_witness :
  ∃ ds r', calls (checkWalletLimit env0 "GABC") burst (healthy ([] : Sample.zsets)) = (Ok ds, healthy r') ∧
    allowed <$> ds = [true; true; true; false; true].
Proof.
  destruct (limiters_refine_reference (R:=Sample.zsets) env0 "GABC" "k" 1 1) as (Hw & _).
  destruct (Hw [] burst (no_entries_nil _) burst_orderly) as (ds & r' & Hrun & Hds).
  exists ds, r'. split; [exact Hrun|]. rewrite Hds. vm_compute. reflexivity.
Defined.

Lemma checkWalletLimit_bounded_witness :
  ∃ ds r', calls (checkWalletLimit env0 "GABC") burst (healthy ([] : Sample.zsets)) = (Ok ds, healthy r') ∧
    Z.of_nat (length (filter (λ s, 4000 - 3600000 < s ≤ 4000)
      (admitted_times (fst <$> burst) (allowed <$> ds) []))) ≤ 3.
Proof.
  destruct (checkWalletLimit_bounded (R:=Sample.zsets) env0 "GABC" [] burst) as (ds & r' & Hrun & Hb).
  - vm_compute. reflexivity.
  - apply no_entries_nil.
  - apply burst_orderly.
  - exists ds, r'. split; [exact Hrun|]. apply (Hb 4000).
Defined.

Lemma retry_after_witness :
  ∃ ds d d2 r', calls (checkWalletLimit env0 "GABC")
      ([(1000, "a"); (2000, "b"); (3000, "c")] ++ [(4000, "d"); (3602000, "e")])%list
      (healthy ([] : Sample.zsets)) = (Ok (ds ++ [d; d2])%list, healthy r') ∧
    (allowed d = false → 4000 + retryAfterSeconds d * 1000 ≤ 3602000 → allowed d2 = true).
Proof.
  apply (retry_after_sufficient (R:=Sample.zsets) env0 "GABC" []).
  - vm_compute. reflexivity.
  - vm_compute. reflexivity.
  - apply no_entries_nil.
  - apply burst_orderly.
Defined.

End Witnesses.
