(* ===== verification/PolicyLimit.v ===== *)
(** * Per-policy claim counters

    backend/src/rate-limit/rate-limit.service.ts, the ledger-based half: a
    fixed window of ledgers per policy kept in a Redis hash, with custom
    limits and a manual override.  [FixedWindow] is the abstract contract. *)

From stdpp Require Import base list strings sorting.
From Stdlib Require Import ZArith Lia.
From S2P Require Import Prelude JsText Redis RateLimit.

Open Scope string_scope.
Open Scope Z_scope.

(** ** The abstract contract *)
Module FixedWindow.

(** The ledger the current window starts at and the claims admitted in it. *)
Record state := { anchor : Z; count : Z }.

(** The window a request at [ledger] falls in: the current one, or a new one. *)
Definition roll (size : Z) (s : option state) (ledger : Z) : state :=
  match s with
  | Some st => if anchor st + size <=? ledger then {| anchor := ledger; count := 0 |} else st
  | None => {| anchor := ledger; count := 0 |}
  end.

Definition step (limit size : Z) (s : option state) (ledger : Z) : bool * state :=
  let st := roll size s ledger in
  if limit <=? count st then (false, st) else (true, {| anchor := anchor st; count := count st + 1 |}).

Fixpoint run (limit size : Z) (s : option state) (ledgers : list Z) : list bool :=
  match ledgers with
  | [] => []
  | l :: ls => let '(b, st) := step limit size s l in b :: run limit size (Some st) ls
  end.

(** Admitted requests among [ledgers] that lie in [lo, hi). *)
Fixpoint admitted_in (lo hi : Z) (ledgers : list Z) (bs : list bool) : Z :=
  match ledgers, bs with
  | l :: ls, b :: bs' =>
      (if b && (lo <=? l) && (l <? hi) then 1 else 0) + admitted_in lo hi ls bs'
  | _, _ => 0
  end.

Definition remaining (limit : Z) (s : option state) : Z :=
  match s with Some st => Z.max 0 (limit - count st) | None => Z.max 0 limit end.

Lemma admitted_in_before lo hi ledgers bs :
  Forall (λ l, hi ≤ l) ledgers → admitted_in lo hi ledgers bs = 0.
Proof.
  revert bs. induction ledgers as [|l ls IH]; intros [|b bs] Hf; try done.
  apply Forall_cons in Hf as [Hl Hf]. cbn [admitted_in]. rewrite (IH _ Hf).
  replace (l <? hi) with false by (symmetry; apply Z.ltb_ge; lia).
  by rewrite andb_false_r.
Qed.

(** From a state whose window ends at or after [hi], at most what remains of
    the limit is admitted before [hi]. *)
Lemma run_within limit size st lo hi ledgers :
  hi ≤ anchor st + size → StronglySorted Z.le ledgers → 0 < size →
  admitted_in lo hi ledgers (run limit size (Some st) ledgers) ≤ remaining limit (Some st).
Proof.
  revert st. induction ledgers as [|l ls IH]; intros st Hhi Hs Hsz; [simpl; lia|].
  apply StronglySorted_inv in Hs as [Hs Hle].
  destruct (decide (hi ≤ l)) as [Hbig|Hin].
  { rewrite admitted_in_before; [simpl; lia|]. constructor; [done|].
    eapply Forall_impl; [exact Hle|]. simpl. lia. }
  cbn [run]. unfold step, roll.
  replace (anchor st + size <=? l) with false by (symmetry; apply Z.leb_gt; lia).
  destruct (limit <=? count st) eqn:Hl; cbn [admitted_in]; bool_prop.
  - specialize (IH st Hhi Hs Hsz). simpl in *. lia.
  - specialize (IH {| anchor := anchor st; count := count st + 1 |} Hhi Hs Hsz). simpl in *.
    destruct ((lo <=? l) && (l <? hi)); simpl; lia.
Qed.

Lemma roll_fresh size s l :
  0 < size → roll size s l = {| anchor := l; count := 0 |} →
  ∀ limit ls, run limit size s (l :: ls) = run limit size (Some {| anchor := l; count := 0 |}) (l :: ls).
Proof.
  intros Hsz Hr limit ls. cbn [run]. unfold step. rewrite Hr. unfold roll; simpl.
  by replace (l + size <=? l) with false by (symmetry; apply Z.leb_gt; lia).
Qed.

Lemma roll_cases size s l :
  roll size s l = {| anchor := l; count := 0 |} ∨ s = Some (roll size s l).
Proof. destruct s as [st|]; simpl; [case_test|]; auto. Qed.

(** Requests from [lo] on: the rest of the running window and one more. *)
Lemma run_from limit size s lo hi ledgers :
  hi ≤ lo + size → StronglySorted Z.le ledgers → 0 < size → Forall (λ l, lo ≤ l) ledgers →
  admitted_in lo hi ledgers (run limit size s ledgers) ≤ Z.max 0 limit + remaining limit s.
Proof.
  revert s. induction ledgers as [|l ls IH]; intros s Hhi Hs Hsz Hlo.
  { destruct s; simpl; lia. }
  pose proof Hs as [Hs' Hle]%StronglySorted_inv. apply Forall_cons in Hlo as [Hl Hlo].
  assert (0 ≤ remaining limit s) by (destruct s; simpl; lia).
  destruct (roll_cases size s l) as [Hr|Hr].
  - rewrite (roll_fresh _ _ _ Hsz Hr).
    pose proof (run_within limit size {| anchor := l; count := 0 |} lo hi (l :: ls)) as Hw.
    simpl in Hw. specialize (Hw ltac:(lia) Hs Hsz). simpl. lia.
  - cbn [run]. unfold step. remember (roll size s l) as st eqn:E. clear E. subst s.
    destruct (limit <=? count st) eqn:Hlim; cbn [admitted_in]; bool_prop.
    + specialize (IH (Some st) Hhi Hs' Hsz Hlo). simpl in *. lia.
    + specialize (IH (Some {| anchor := anchor st; count := count st + 1 |}) Hhi Hs' Hsz Hlo).
      simpl in *. destruct ((lo <=? l) && (l <? hi)); simpl; lia.
Qed.

(** Any [size] consecutive ledgers see at most twice the limit. *)
Lemma run_two_windows limit size s lo hi ledgers :
  hi ≤ lo + size → StronglySorted Z.le ledgers → 0 < size → 
  (∀ st, s = Some st → 0 ≤ count st) →
  admitted_in lo hi ledgers (run limit size s ledgers) ≤ 2 * Z.max 0 limit.
Proof.
  revert s. induction ledgers as [|l ls IH]; intros s Hhi Hs Hsz Hc; [simpl; lia|].
  pose proof Hs as [Hs' Hle]%StronglySorted_inv.
  destruct (decide (lo ≤ l)) as [Hl|Hl].
  - trans (Z.max 0 limit + remaining limit s).
    + apply run_from; [done..|]. constructor; [done|]. eapply Forall_impl; [exact Hle|]. simpl. lia.
    + destruct s as [st|]; simpl; [specialize (Hc st eq_refl)|]; lia.
  - cbn [run]. destruct (step limit size s l) as [b st] eqn:Hstep. cbn [admitted_in].
    replace (lo <=? l) with false by (symmetry; apply Z.leb_gt; lia).
    rewrite andb_false_r. simpl. apply IH; [done..|]. intros st' [= <-].
    assert (0 ≤ count (roll size s l)).
    { destruct (roll_cases size s l) as [->|Hr]; [simpl; lia|by apply Hc]. }
    revert Hstep. unfold step. case_test; intros [= _ <-]; simpl; lia.
Qed.

End FixedWindow.

(** ** Configuration and results *)

(** Models [RATE_LIMIT_DEFAULTS] (backend/src/rate-limit/rate-limit.constants.ts:28-33). *)
Definition DEFAULT_LIMIT : Z := 5.
Definition WINDOW_SIZE_LEDGERS : Z := 17280.
Definition ABSOLUTE_MAX_CAP : Z := 100.

(** Models [RateLimitCheckResult] (backend/src/rate-limit/rate-limit.service.ts:11-18). *)
Record RateLimitCheckResult := {
  r_allowed : bool;
  currentCount : num;
  r_limit : num;
  windowAnchor : num;
  windowResetLedger : num;
  overrideActive : bool;
}.

(** Models [CounterState] (backend/src/rate-limit/rate-limit.service.ts:20-25). *)
Record CounterState := {
  cs_count : num;
  cs_windowAnchor : num;
  cs_limit : num;
  cs_overrideActive : bool;
}.

(** ** The service *)
Section service.
Context {R : Type} `{RedisHash R}.
Abbreviation MR A := (M (rworld R) string A).

(** Models [initializeDefaults] (backend/src/rate-limit/rate-limit.service.ts:43-62). *)
Definition initializeDefaults : MR () :=
  try_catch
    (let* exists_ := query (r_hexists DEFAULTS) in
     if exists_ then ret tt
     else update (λ r,
       r_hset DEFAULTS "absoluteMax" (show_Z ABSOLUTE_MAX_CAP)
         (r_hset DEFAULTS "windowSize" (show_Z WINDOW_SIZE_LEDGERS)
           (r_hset DEFAULTS "defaultLimit" (show_Z DEFAULT_LIMIT) r))))
    (λ _, ret tt).

(** Models [getWindowSize] (backend/src/rate-limit/rate-limit.service.ts:67-76). *)
Definition getWindowSize : MR num :=
  try_catch
    (let* windowSize := query (r_hget DEFAULTS "windowSize") in
     ret (match truthy windowSize with
          | Some s => parseInt10 s
          | None => Some WINDOW_SIZE_LEDGERS
          end))
    (λ _, ret (Some WINDOW_SIZE_LEDGERS)).

(** Models [getEffectiveLimit] (backend/src/rate-limit/rate-limit.service.ts:81-96). *)
Definition getEffectiveLimit (policyId : string) : MR num :=
  try_catch
    (let* customLimit := query (r_hget (CONFIG policyId) "limit") in
     match truthy customLimit with
     | Some s => ret (parseInt10 s)
     | None =>
         let* defaultLimit := query (r_hget DEFAULTS "defaultLimit") in
         ret (match truthy defaultLimit with
              | Some s => parseInt10 s
              | None => Some DEFAULT_LIMIT
              end)
     end)
    (λ _, ret (Some DEFAULT_LIMIT)).

(** One HSET of both fields of a counter. *)
Definition reset_counter (key : string) (ledger : Z) (r : R) : R :=
  r_hset key "windowAnchor" (show_Z ledger) (r_hset key "count" "0" r).

(** Models [checkAndResetWindow] (backend/src/rate-limit/rate-limit.service.ts:101-132). *)
Definition checkAndResetWindow (policyId : string) (currentLedger : Z) : MR (num * num) :=
  try_catch
    (let key := COUNTER policyId in
     let* data := query (λ r, (r_hget key "count" r, r_hget key "windowAnchor" r)) in
     match truthy (snd data) with
     | None =>
         do* update (reset_counter key currentLedger) in
         ret (Some 0, Some currentLedger)
     | Some a =>
         let anchor := parseInt10 a in
         let* windowSize := getWindowSize in
         if num_geb (Some currentLedger) (num_add anchor windowSize) then
           do* update (reset_counter key currentLedger) in
           ret (Some 0, Some currentLedger)
         else ret (parseInt10 (default "0" (truthy (fst data))), anchor)
     end)
    (λ _, ret (Some 0, Some currentLedger)).

(** Models [checkAndIncrement] (backend/src/rate-limit/rate-limit.service.ts:137-201). *)
Definition checkAndIncrement (policyId : string) (currentLedger : Z) : MR RateLimitCheckResult :=
  try_catch
    (let* p := checkAndResetWindow policyId currentLedger in
     let '(count, anchor) := p in
     let* flag := query (r_hget (CONFIG policyId) "overrideActive") in
     let isOverrideActive := bool_decide (flag = Some "true") in
     let* limit := getEffectiveLimit policyId in
     let* windowSize := getWindowSize in
     let resetLedger := num_add anchor windowSize in
     if isOverrideActive then
       do* update (r_hincrby (COUNTER policyId) "count" 1) in
       ret {| r_allowed := true; currentCount := num_add count (Some 1); r_limit := limit;
              windowAnchor := anchor; windowResetLedger := resetLedger; overrideActive := true |}
     else if num_geb count limit then
       ret {| r_allowed := false; currentCount := count; r_limit := limit;
              windowAnchor := anchor; windowResetLedger := resetLedger; overrideActive := false |}
     else
       do* update (r_hincrby (COUNTER policyId) "count" 1) in
       ret {| r_allowed := true; currentCount := num_add count (Some 1); r_limit := limit;
              windowAnchor := anchor; windowResetLedger := resetLedger; overrideActive := false |})
    (λ _, ret {| r_allowed := true; currentCount := Some 0; r_limit := Some DEFAULT_LIMIT;
                 windowAnchor := Some currentLedger;
                 windowResetLedger := Some (currentLedger + WINDOW_SIZE_LEDGERS);
                 overrideActive := false |}).

(** Models [getCounterState] (backend/src/rate-limit/rate-limit.service.ts:206-232). *)
Definition getCounterState (policyId : string) : MR CounterState :=
  try_catch
    (let* counter := query (λ r, (r_hget (COUNTER policyId) "count" r,
                                  r_hget (COUNTER policyId) "windowAnchor" r)) in
     let* flag := query (r_hget (CONFIG policyId) "overrideActive") in
     let number (s : option string) :=
       match truthy s with Some x => parseInt10 x | None => Some 0 end in
     let* limit := getEffectiveLimit policyId in
     ret {| cs_count := number (fst counter); cs_windowAnchor := number (snd counter);
            cs_limit := limit; cs_overrideActive := bool_decide (flag = Some "true") |})
    (λ _, ret {| cs_count := Some 0; cs_windowAnchor := Some 0;
                 cs_limit := Some DEFAULT_LIMIT; cs_overrideActive := false |}).

(** Models [setLimit] (backend/src/rate-limit/rate-limit.service.ts:237-256). *)
Definition setLimit (policyId : string) (limit : Z) (actor : string) : MR () :=
  if limit <? 1 then throw "Limit must be at least 1"
  else if ABSOLUTE_MAX_CAP <? limit then
    throw ("Limit cannot exceed absolute maximum of " +:+ show_Z ABSOLUTE_MAX_CAP)
  else try_catch (update (r_hset (CONFIG policyId) "limit" (show_Z limit)))
         (λ _, throw "Failed to set rate limit").

(** Models [enableOverride] (backend/src/rate-limit/rate-limit.service.ts:261-270). *)
Definition enableOverride (policyId actor reason : string) : MR () :=
  try_catch (update (r_hset (CONFIG policyId) "overrideActive" "true"))
    (λ _, throw "Failed to enable override").

(** Models [disableOverride] (backend/src/rate-limit/rate-limit.service.ts:275-284). *)
Definition disableOverride (policyId actor : string) : MR () :=
  try_catch (update (r_hset (CONFIG policyId) "overrideActive" "false"))
    (λ _, throw "Failed to disable override").

(** A sequence of claims of one policy, each at the ledger it is filed in. *)
Fixpoint claims (policyId : string) (ledgers : list Z) : MR (list RateLimitCheckResult) :=
  match ledgers with
  | [] => ret []
  | l :: ls =>
      let* d := checkAndIncrement policyId l in
      let* ds := claims policyId ls in
      ret (d :: ds)
  end.
End service.

(** ** Simulation *)
Section simulation.
Context {R : Type} `{RedisHashLaws R}.
Implicit Types (r : R) (p : string).

Lemma counter_ne_config p q : COUNTER p ≠ CONFIG q.
Proof. intros E. cbv in E. congruence. Qed.
Lemma counter_ne_defaults p : COUNTER p ≠ DEFAULTS.
Proof. intros E. cbv in E. congruence. Qed.
Lemma config_ne_defaults p : CONFIG p ≠ DEFAULTS.
Proof. intros E. cbv in E. congruence. Qed.

(** What the configuration hashes say. *)
Definition window_size r : num :=
  match truthy (r_hget DEFAULTS "windowSize" r) with
  | Some s => parseInt10 s | None => Some WINDOW_SIZE_LEDGERS end.
Definition effective_limit p r : num :=
  match truthy (r_hget (CONFIG p) "limit" r) with
  | Some s => parseInt10 s
  | None => match truthy (r_hget DEFAULTS "defaultLimit" r) with
            | Some s => parseInt10 s | None => Some DEFAULT_LIMIT end
  end.

Lemma getWindowSize_healthy r : getWindowSize (healthy r) = (Ok (window_size r), healthy r).
Proof. done. Qed.
Lemma getEffectiveLimit_healthy p r :
  getEffectiveLimit p (healthy r) = (Ok (effective_limit p r), healthy r).
Proof.
  unfold getEffectiveLimit, effective_limit, try_catch, bind. rewrite query_healthy.
  by destruct (truthy _).
Qed.

(** The policy's settings: the limit, the window size and no override. *)
Definition settings p r (limit size : Z) : Prop :=
  effective_limit p r = Some limit ∧ window_size r = Some size ∧
  r_hget (CONFIG p) "overrideActive" r ≠ Some "true".

(** The counter hash holds the abstract state. *)
Definition counter_sim p r (s : option FixedWindow.state) : Prop :=
  match s with
  | None => truthy (r_hget (COUNTER p) "windowAnchor" r) = None
  | Some st => r_hget (COUNTER p) "windowAnchor" r = Some (show_Z (FixedWindow.anchor st)) ∧
               r_hget (COUNTER p) "count" r = Some (show_Z (FixedWindow.count st))
  end.

Lemma truthy_show n : truthy (Some (show_Z n)) = Some (show_Z n).
Proof. pose proof (show_Z_ne_empty n). unfold truthy. by destruct (show_Z n). Qed.

(** Writes to the counter leave the settings alone. *)
Lemma settings_frame p r r' limit size :
  (∀ k f, k ≠ COUNTER p → r_hget k f r' = r_hget k f r) →
  settings p r limit size → settings p r' limit size.
Proof.
  intros Hf (Hl & Hw & Ho). unfold settings, effective_limit, window_size in *.
  pose proof (counter_ne_config p p). pose proof (counter_ne_defaults p).
  by rewrite !Hf by congruence.
Qed.

Lemma reset_frame p l r k f : k ≠ COUNTER p → r_hget k f (reset_counter (COUNTER p) l r) = r_hget k f r.
Proof. intros. unfold reset_counter. by rewrite !hget_hset_ne by congruence. Qed.

Lemma reset_sim p l r :
  counter_sim p (reset_counter (COUNTER p) l r) (Some {| FixedWindow.anchor := l; FixedWindow.count := 0 |}).
Proof.
  unfold reset_counter. split; simpl.
  - by rewrite hget_hset_eq.
  - rewrite hget_hset_ne by congruence. by rewrite hget_hset_eq.
Qed.

(** Rolling the window: the counter is read, and reset when its window is over. *)
Lemma checkAndResetWindow_roll p r s l size :
  window_size r = Some size → counter_sim p r s →
  let st := FixedWindow.roll size s l in
  ∃ r', checkAndResetWindow p l (healthy r) =
          (Ok (Some (FixedWindow.count st), Some (FixedWindow.anchor st)), healthy r') ∧
    counter_sim p r' (Some st) ∧ ∀ k f, k ≠ COUNTER p → r_hget k f r' = r_hget k f r.
Proof.
  intros Hw Hsim st.
  pose proof (reset_sim p l r) as Hreset. pose proof (reset_frame p l r) as Hframe.
  unfold checkAndResetWindow, try_catch, bind. rewrite query_healthy. cbn [fst snd].
  destruct s as [[a c]|]; cbn [counter_sim FixedWindow.anchor FixedWindow.count] in *.
  - destruct Hsim as [Ha Hc]. rewrite Ha, Hc, !truthy_show.
    rewrite getWindowSize_healthy, Hw, !parseInt10_show. simpl. subst st. simpl.
    destruct (a + size <=? l); rewrite ?update_healthy; unfold ret; eexists;
      (split; [by rewrite ?parseInt10_show|done]).
  - rewrite Hsim, update_healthy. unfold ret. by eexists.
Qed.

Lemma increment_sim p r st :
  counter_sim p r (Some st) →
  counter_sim p (r_hincrby (COUNTER p) "count" 1 r)
    (Some {| FixedWindow.anchor := FixedWindow.anchor st; FixedWindow.count := FixedWindow.count st + 1 |}).
Proof.
  intros [Ha Hc]. split; simpl.
  - by rewrite hget_hincrby_ne by congruence.
  - by apply hget_hincrby.
Qed.

Lemma checkAndIncrement_step p r s l limit size :
  settings p r limit size → counter_sim p r s →
  ∃ d r', checkAndIncrement p l (healthy r) = (Ok d, healthy r') ∧
    r_allowed d = (FixedWindow.step limit size s l).1 ∧
    windowResetLedger d = Some (FixedWindow.anchor (FixedWindow.roll size s l) + size) ∧
    counter_sim p r' (Some (FixedWindow.step limit size s l).2) ∧ settings p r' limit size.
Proof.
  intros Hset Hsim.
  destruct (checkAndResetWindow_roll p r s l size) as (r1 & Hrun & Hsim1 & Hfr); [apply Hset|done|].
  pose proof (settings_frame p r r1 limit size Hfr Hset) as Hset1.
  unfold checkAndIncrement, FixedWindow.step.
  remember (FixedWindow.roll size s l) as st eqn:E. clear E.
  pose proof Hset1 as (Hl & Hw & Ho).
  unfold try_catch, bind. rewrite Hrun, query_healthy, getEffectiveLimit_healthy, getWindowSize_healthy.
  rewrite bool_decide_eq_false_2 by done. rewrite Hl, Hw. simpl.
  case_test; rewrite ?update_healthy; unfold ret; eexists _, _; (split; [done|]); simpl.
  - done.
  - do 2 (split; [done|]). split; [by apply increment_sim|].
    eapply settings_frame; [|done]. intros k f Hk. by rewrite hget_hincrby_ne by congruence.
Qed.

Lemma claims_run p r s ledgers limit size :
  settings p r limit size → counter_sim p r s →
  ∃ ds r', claims p ledgers (healthy r) = (Ok ds, healthy r') ∧
    r_allowed <$> ds = FixedWindow.run limit size s ledgers.
Proof.
  revert r s. induction ledgers as [|l ls IH]; intros r s Hset Hsim.
  { by eexists [], r. }
  destruct (checkAndIncrement_step p r s l limit size Hset Hsim)
    as (d & r1 & Hrun & Hd & _ & Hsim1 & Hset1).
  cbn [claims FixedWindow.run].
  destruct (FixedWindow.step limit size s l) as [b st]; cbn [fst snd] in *.
  destruct (IH r1 (Some st) Hset1 Hsim1) as (ds & r2 & Hrun2 & Hds).
  eexists (d :: ds), r2. unfold bind. rewrite Hrun, Hrun2. split; [done|].
  by rewrite fmap_cons, Hd, Hds.
Qed.

(** C5: Per-policy counting refines the fixed-window contract.  On a healthy server, with any
    configured limit and window size and no override, a sequence of claims of a policy is decided
    exactly as by the abstract counter, started from the state the hash holds. *)
Theorem checkAndIncrement_refines p r s ledgers limit size :
  settings p r limit size → counter_sim p r s →
  ∃ ds r', claims p ledgers (healthy r) = (Ok ds, healthy r') ∧
    r_allowed <$> ds = FixedWindow.run limit size s ledgers.
Proof. apply claims_run. Qed.

(** C13: On a healthy server, for claims checked one after the other at non-decreasing ledgers, without
    an override and with a counter that is absent or not negative, a policy files at most twice its limit of
    claims in any stretch of ledgers as long as the window: the counter restarts at the first claim after a
    window, so two windows can meet inside the stretch.  Outside of these conditions there is no bound: the
    limiter admits a claim when Redis fails or an override is active, and concurrent checks read the same
    count. *)
Theorem policy_claims_bounded p r s ledgers limit size lo :
  settings p r limit size → counter_sim p r s → 0 < size →
  (∀ st, s = Some st → 0 ≤ FixedWindow.count st) → StronglySorted Z.le ledgers →
  ∃ ds r', claims p ledgers (healthy r) = (Ok ds, healthy r') ∧
    FixedWindow.admitted_in lo (lo + size) ledgers (r_allowed <$> ds) ≤ 2 * Z.max 0 limit.
Proof.
  intros Hset Hsim Hsz Hc Hs.
  destruct (claims_run p r s ledgers limit size Hset Hsim) as (ds & r' & Hrun & Hds).
  eexists ds, r'. split; [done|]. rewrite Hds. by apply FixedWindow.run_two_windows.
Qed.
End simulation.

(** ** Administration and outages *)
Section admin.
Context {R : Type} `{RedisHashLaws R}.
Implicit Types (r : R) (p : string).

Lemma config_inj p q : CONFIG p = CONFIG q → p = q.
Proof. apply str_app_inj_l. Qed.

(** A custom limit is accepted exactly when it lies in 1..100; a rejected one changes nothing; an
    accepted one is the policy's effective limit afterwards, and no other policy's effective limit,
    no counter and no override flag changes. *)
Theorem setLimit_spec p n actor r :
  (n < 1 ∨ ABSOLUTE_MAX_CAP < n → ∃ e, setLimit p n actor (healthy r) = (Throw e, healthy r)) ∧
  (1 ≤ n ≤ ABSOLUTE_MAX_CAP →
    ∃ r', setLimit p n actor (healthy r) = (Ok tt, healthy r') ∧
      getEffectiveLimit p (healthy r') = (Ok (Some n), healthy r') ∧
      (∀ q, q ≠ p → getEffectiveLimit q (healthy r') =
                      (Ok (effective_limit q r), healthy r')) ∧
      (∀ q s, counter_sim q r s → counter_sim q r' s) ∧
      (∀ q, r_hget (CONFIG q) "overrideActive" r' = r_hget (CONFIG q) "overrideActive" r)).
Proof.
  unfold setLimit. split.
  - intros Hn. case_test; [by eexists|]. case_test; [by eexists|]. bool_prop. lia.
  - intros Hn. unfold ABSOLUTE_MAX_CAP in *.
    replace (n <? 1) with false by (symmetry; apply Z.ltb_ge; lia).
    replace (100 <? n) with false by (symmetry; apply Z.ltb_ge; lia).
    eexists. split; [done|]. split_and!.
    + rewrite getEffectiveLimit_healthy. unfold effective_limit.
      by rewrite hget_hset_eq, truthy_show, parseInt10_show.
    + intros q Hq. rewrite getEffectiveLimit_healthy. unfold effective_limit.
      pose proof (config_ne_defaults p). pose proof (config_inj p q).
      by rewrite !hget_hset_ne by (intros [= ]; subst; auto).
    + intros q s. pose proof (counter_ne_config q p).
      destruct s; simpl; by rewrite !hget_hset_ne by congruence.
    + intros q. by rewrite hget_hset_ne by congruence.
Qed.

(** A claim inside the current window while the override is on. *)
Lemma override_admits p r st l limit size :
  (effective_limit p r = Some limit ∧ window_size r = Some size ∧
   r_hget (CONFIG p) "overrideActive" r = Some "true") →
  counter_sim p r (Some st) → l < FixedWindow.anchor st + size →
  ∃ d, checkAndIncrement p l (healthy r) = (Ok d, healthy (r_hincrby (COUNTER p) "count" 1 r)) ∧
    r_allowed d = true ∧ overrideActive d = true ∧ currentCount d = Some (FixedWindow.count st + 1).
Proof.
  intros (Hlim & Hw & Ho) [Ha Hc] Hl. unfold checkAndIncrement.
  assert (Hrun : checkAndResetWindow p l (healthy r) =
            (Ok (Some (FixedWindow.count st), Some (FixedWindow.anchor st)), healthy r)).
  { unfold checkAndResetWindow, try_catch, bind. rewrite query_healthy. cbn [fst snd].
    rewrite Ha, Hc, !truthy_show, getWindowSize_healthy, Hw, parseInt10_show. cbn [num_add num_geb].
    replace (_ <=? l) with false by (symmetry; apply Z.leb_gt; lia).
    unfold ret. simpl. by rewrite parseInt10_show. }
  unfold try_catch, bind. rewrite Hrun, query_healthy, getEffectiveLimit_healthy, getWindowSize_healthy.
  rewrite bool_decide_eq_true_2 by done. rewrite update_healthy. by eexists.
Qed.

(** The manual override lifts the limit and only it: while it is on, every claim of the policy is
    admitted and still counted; switching it off restores the decision of the limit, on the counter as
    it stands. *)
Theorem override_spec p actor reason r st l limit size :
  settings p r limit size → counter_sim p r (Some st) → l < FixedWindow.anchor st + size →
  ∃ r1 d r2 r3 d2 r4,
    enableOverride p actor reason (healthy r) = (Ok tt, healthy r1) ∧
    checkAndIncrement p l (healthy r1) = (Ok d, healthy r2) ∧
    r_allowed d = true ∧ overrideActive d = true ∧
    currentCount d = Some (FixedWindow.count st + 1) ∧
    disableOverride p actor (healthy r2) = (Ok tt, healthy r3) ∧
    checkAndIncrement p l (healthy r3) = (Ok d2, healthy r4) ∧
    r_allowed d2 = (FixedWindow.count st + 1 <? limit).
Proof.
  intros Hset Hsim Hl. pose proof Hset as (Hlim & Hw & _).
  set (r1 := r_hset (CONFIG p) "overrideActive" "true" r).
  set (r2 := r_hincrby (COUNTER p) "count" 1 r1).
  set (r3 := r_hset (CONFIG p) "overrideActive" "false" r2).
  pose proof (counter_ne_config p p) as Hne. pose proof (config_ne_defaults p) as Hnd.
  pose proof (counter_ne_defaults p) as Hcd.
  assert (Hsim1 : counter_sim p r1 (Some st)).
  { destruct Hsim as [Ha Hc]. by split; unfold r1; rewrite hget_hset_ne by congruence. }
  pose proof (increment_sim _ _ _ Hsim1) as Hsim2. fold r2 in Hsim2.
  assert (Hsim3 : counter_sim p r3 (Some {| FixedWindow.anchor := FixedWindow.anchor st;
                                            FixedWindow.count := FixedWindow.count st + 1 |})).
  { destruct Hsim2 as [Ha Hc]. by split; unfold r3; rewrite hget_hset_ne by congruence. }
  assert (Hset3 : settings p r3 limit size).
  { unfold settings, effective_limit, window_size, r3, r2, r1 in *.
    rewrite !(hget_hset_ne (CONFIG p) "overrideActive") by congruence.
    rewrite !(hget_hincrby_ne (COUNTER p)) by congruence.
    rewrite !(hget_hset_ne (CONFIG p) "overrideActive") by congruence.
    split_and!; [done..|]. by rewrite hget_hset_eq. }
  destruct (checkAndIncrement_step p r3 _ l limit size Hset3 Hsim3) as (d2 & r4 & Hrun & Hd2 & _).
  destruct (override_admits p r1 st l limit size) as (d & Hrun1 & Hd & Ho & Hc); [|done..|].
  { unfold effective_limit, window_size, r1 in *.
    rewrite hget_hset_eq, !(hget_hset_ne (CONFIG p) "overrideActive") by congruence. done. }
  eexists r1, d, r2, r3, d2, r4. split_and!; try done.
  rewrite Hd2. unfold FixedWindow.step, FixedWindow.roll; simpl.
  replace (FixedWindow.anchor st + size <=? l) with false by (symmetry; apply Z.leb_gt; lia).
  simpl. rewrite Z.ltb_antisym. by case_test.
Qed.
End admin.

(** ** Witnesses *)
Module PolicyWitnesses.
Import Sample.

(** A policy with a custom limit of 2 and a default window of 100 ledgers. *)
Definition store0 : hashes :=
  [(("rate_limit:config:P", "limit"), "2"); (("rate_limit:defaults", "windowSize"), "100")].

Lemma store0_settings : settings "P" store0 2 100.
Proof. by vm_compute. Qed.

(** Two claims, a refusal, and a new window after 100 ledgers. *)
Lemma checkAndIncrement_refines_witness :
  ∃ ds r', claims "P" [1000; 1001; 1002; 1100] (healthy store0) = (Ok ds, healthy r') ∧
    r_allowed <$> ds = [true; true; false; true].
Proof.
  destruct (checkAndIncrement_refines "P" store0 None [1000; 1001; 1002; 1100] 2 100)
    as (ds & r' & Hrun & Hds).
  - apply store0_settings.
  - reflexivity.
  - exists ds, r'. split; [exact Hrun|]. rewrite Hds. reflexivity.
Defined.

Lemma policy_claims_bounded_witness :
  ∃ ds r', claims "P" [1000; 1001; 1002; 1100] (healthy store0) = (Ok ds, healthy r') ∧
    FixedWindow.admitted_in 1001 (1001 + 100) [1000; 1001; 1002; 1100] (r_allowed <$> ds) ≤ 2 * Z.max 0 2.
Proof.
  apply (policy_claims_bounded "P" store0 None [1000; 1001; 1002; 1100] 2 100 1001).
  - apply store0_settings.
  - reflexivity.
  - lia.
  - discriminate.
  - sorted_concrete.
Defined.

Lemma setLimit_spec_witness :
  ∃ r', setLimit "P" 7 "admin" (healthy store0) = (Ok tt, healthy r') ∧
    getEffectiveLimit "P" (healthy r') = (Ok (Some 7), healthy r').
Proof.
  destruct (setLimit_spec "P" 7 "admin" store0) as [_ H].
  destruct H as (r' & H1 & H2 & _); [vm_compute; split; discriminate|].
  exists r'. split; [exact H1|exact H2].
Defined.

(** A full counter: the override admits a claim, the limit then refuses the next. *)
Definition store1 : hashes :=
  ([(("rate_limit:counter:P", "windowAnchor"), "1000"); (("rate_limit:counter:P", "count"), "2")]
   ++ store0)%list.

Lemma override_spec_witness :
  ∃ r1 d r2 r3 d2 r4,
    enableOverride "P" "admin" "storm" (healthy store1) = (Ok tt, healthy r1) ∧
    checkAndIncrement "P" 1050 (healthy r1) = (Ok d, healthy r2) ∧
    r_allowed d = true ∧ overrideActive d = true ∧ currentCount d = Some (2 + 1) ∧
    disableOverride "P" "admin" (healthy r2) = (Ok tt, healthy r3) ∧
    checkAndIncrement "P" 1050 (healthy r3) = (Ok d2, healthy r4) ∧
    r_allowed d2 = (2 + 1 <? 2).
Proof.
  apply (override_spec "P" "admin" "storm" store1 {| FixedWindow.anchor := 1000; FixedWindow.count := 2 |}
           1050 2 100).
  - by vm_compute.
  - by vm_compute.
  - simpl; lia.
Defined.

End PolicyWitnesses.
