(* ===== verification/Guards.v ===== *)
(** * Request guards

    The NestJS guards built on the rate limiter
    (backend/src/rate-limit/*.guard.ts): which wallet a request is charged to,
    the order of the checks, the exception and the response headers of a
    refusal, and what happens when a dependency fails. *)

From stdpp Require Import base list strings sorting.
From Stdlib Require Import ZArith Lia Ascii.
From S2P Require Import Prelude JsText Redis RateLimit PolicyLimit.

Open Scope string_scope.
Open Scope Z_scope.

(** ** Requests, responses and exceptions *)

(** The fields of a request the guards read. *)
Record Request := {
  user_walletAddress : option string;
  body_policyId : option string;
  body_holder : option string;
  body_claimant : option string;
  body_walletAddress : option string;
  x_forwarded_for : option string;
  remoteAddress : option string;
}.

Inductive LimitType := LPolicy | LWallet | LGlobal.

(** Models [RateLimitErrorDetails] (backend/src/rate-limit/rate-limit.exception.ts:3-13). *)
Record RateLimitErrorDetails := {
  d_policyId : string;
  d_currentCount : num;
  d_limit : num;
  d_windowResetLedger : num;
  d_remainingLedgers : num;
  d_retryAfterSeconds : num;
  d_limitType : LimitType;
}.

(** [String(n)] *)
Definition show_num (n : num) : string := match n with Some z => show_Z z | None => "NaN" end.
Definition limit_label (l : LimitType) : string :=
  match l with LPolicy => "policy" | LWallet => "wallet" | LGlobal => "global" end.

(** The body of the 429 response: message and, when positive, the delay.
    Models [RateLimitException] (backend/src/rate-limit/rate-limit.exception.ts:15-36). *)
Definition rateLimitBody (d : RateLimitErrorDetails) : string * option Z :=
  let message :=
    "Rate limit exceeded for " +:+ limit_label (d_limitType d) +:+ " " +:+ d_policyId d +:+ ". " +:+
    "Current: " +:+ show_num (d_currentCount d) +:+ "/" +:+ show_num (d_limit d) +:+ ". " +:+
    "Window resets in " +:+ show_num (d_remainingLedgers d) +:+ " ledgers (ledger " +:+
    show_num (d_windowResetLedger d) +:+ ")." in
  (message, match d_retryAfterSeconds d with Some s => if 0 <? s then Some s else None | None => None end).

Inductive GuardError :=
  | RateLimitException (d : RateLimitErrorDetails)
  | AppException_RATE_LIMIT_EXCEEDED (retryAfter : Z)
  | OtherError (e : string).

(** A guard runs against Redis and the response being built. *)
Record gworld (R : Type) := GWorld { g_redis : rworld R; g_headers : list (string * string) }.
Arguments GWorld {R} _ _.
Arguments g_redis {R} _.
Arguments g_headers {R} _.

Section guards.
Context {R : Type} `{RedisZSet R, RedisHash R}.
Abbreviation MG A := (M (gworld R) GuardError A).

Definition on_redis {A} (m : M (rworld R) string A) : MG A :=
  λ w, match m (g_redis w) with
       | (Ok a, r) => (Ok a, GWorld r (g_headers w))
       | (Throw e, r) => (Throw (OtherError e), GWorld r (g_headers w))
       end.

Definition setHeader (name value : string) : MG () :=
  λ w, (Ok tt, GWorld (g_redis w) (alist_put name value (g_headers w))).

(** [catch (err) { if (err instanceof RateLimitException) throw err; return true; }] *)
Definition fail_open (e : GuardError) : MG bool :=
  match e with RateLimitException d => throw (RateLimitException d) | _ => ret true end.

(** [if (x)] on an optional string argument of [??] chains. *)
Definition orElse (a b : option string) : option string :=
  match a with Some x => Some x | None => b end.

(** Models [resolveWallet] (backend/src/rate-limit/wallet-rate-limit.guard.ts:79-84). *)
Definition resolveWallet (req : Request) : option string :=
  orElse (user_walletAddress req) (body_holder req).

(** A refusal by the global or the wallet window: header, then exception. *)
Definition refuse_window (policyId : string) (d : Decision_) (ty : LimitType) : MG () :=
  do* setHeader "Retry-After" (show_Z (retryAfterSeconds d)) in
  throw (RateLimitException {|
    d_policyId := policyId; d_currentCount := Some (retryAfterSeconds d); d_limit := Some 0;
    d_windowResetLedger := Some 0; d_remainingLedgers := Some 0;
    d_retryAfterSeconds := Some (retryAfterSeconds d); d_limitType := ty |}).

(** The clock readings and random suffixes of the checks of one request. *)
Record Ticks := { now1 : Z; rnd1 : string; now2 : Z; rnd2 : string; now3 : Z }.

Definition check_global_and_wallet (env : LimitEnv) (tk : Ticks) (wallet : option string) : MG () :=
  let* globalCheck := on_redis (checkGlobalLimit env (now1 tk) (rnd1 tk)) in
  do* (if allowed globalCheck then ret tt else refuse_window "global" globalCheck LGlobal) in
  match truthy wallet with
  | Some walletAddress =>
      let* walletCheck := on_redis (checkWalletLimit env walletAddress (now2 tk) (rnd2 tk)) in
      if allowed walletCheck then ret tt else refuse_window walletAddress walletCheck LWallet
  | None => ret tt
  end.

(** Models [WalletRateLimitGuard.canActivate] (backend/src/rate-limit/wallet-rate-limit.guard.ts:29-77). *)
Definition walletGuard (env : LimitEnv) (tk : Ticks) (req : Request) : MG bool :=
  let walletAddress := resolveWallet req in
  try_catch (do* check_global_and_wallet env tk walletAddress in ret true) fail_open.

(** Models [extractWalletAddress] (backend/src/rate-limit/rate-limit.guard.ts:98-120). *)
Definition extractWalletAddress (req : Request) (policyId : string) : option string :=
  match truthy (user_walletAddress req) with
  | Some w => Some w
  | None =>
      match truthy (body_holder req) with
      | Some h => Some h
      | None =>
          if negb (bool_decide (policyId = "")) && includes policyId ":" then
            let candidate := default "" (head (split ":"%char policyId)) in
            if (56 <=? str_len candidate) && startsWith candidate "G" then Some candidate else None
          else None
      end
  end.

(** Models [RateLimitGuard.canActivate] (backend/src/rate-limit/rate-limit.guard.ts:16-93).
    [getLatestLedger] is the outcome of the RPC call. *)
Definition rateLimitGuard (env : LimitEnv) (getLatestLedger : result string Z) (tk : Ticks)
    (req : Request) : MG bool :=
  match truthy (body_policyId req) with
  | None => ret true
  | Some policyId =>
      try_catch
        (do* check_global_and_wallet env tk (extractWalletAddress req policyId) in
         match getLatestLedger with
         | Throw e => throw (OtherError e)
         | Ok currentLedger =>
             let* result := on_redis (checkAndIncrement policyId currentLedger) in
             if r_allowed result then ret true
             else
               let retryAfterLedgers := num_add (windowResetLedger result) (Some (- currentLedger)) in
               let retryAfter :=
                 match retryAfterLedgers with Some n => Some (Z.max 1 (n * 5)) | None => None end in
               do* setHeader "Retry-After" (show_num retryAfter) in
               throw (RateLimitException {|
                 d_policyId := policyId; d_currentCount := currentCount result;
                 d_limit := r_limit result; d_windowResetLedger := windowResetLedger result;
                 d_remainingLedgers := retryAfterLedgers; d_retryAfterSeconds := retryAfter;
                 d_limitType := LPolicy |})
         end)
        fail_open
  end.

(** Models [setHeaders] (backend/src/rate-limit/claim-rate-limit.guard.ts:85-90). *)
Definition setHeaders (now limit retryAfter : Z) : MG () :=
  do* setHeader "Retry-After" (show_Z retryAfter) in
  do* setHeader "X-RateLimit-Limit" (show_Z limit) in
  do* setHeader "X-RateLimit-Remaining" "0" in
  setHeader "X-RateLimit-Reset" (show_Z (now / 1000 + retryAfter)).

Definition refuse_evidence (wallet : string) (limit : Z) (d : Decision_) : MG () :=
  throw (RateLimitException {|
    d_policyId := wallet; d_currentCount := Some limit; d_limit := Some limit;
    d_windowResetLedger := Some 0; d_remainingLedgers := Some 0;
    d_retryAfterSeconds := Some (retryAfterSeconds d); d_limitType := LWallet |}).

(** Models [ClaimRateLimitGuard.canActivate] (backend/src/rate-limit/claim-rate-limit.guard.ts:26-83). *)
Definition claimGuard (env : LimitEnv) (tk : Ticks) (req : Request) : MG bool :=
  match truthy (orElse (user_walletAddress req) (body_holder req)) with
  | None => ret true
  | Some wallet =>
      let hourLimit := default 3 (env_claims_hour env) in
      let dayLimit := default 20 (env_claims_day env) in
      try_catch
        (let* hourCheck := on_redis (checkWalletEvidenceLimit ("claim:hour:" +:+ wallet) hourLimit 3600
                                       (now1 tk) (rnd1 tk)) in
         do* (if allowed hourCheck then ret tt
              else do* setHeaders (now3 tk) hourLimit (retryAfterSeconds hourCheck) in
                   refuse_evidence wallet hourLimit hourCheck) in
         let* dayCheck := on_redis (checkWalletEvidenceLimit ("claim:day:" +:+ wallet) dayLimit 86400
                                      (now2 tk) (rnd2 tk)) in
         do* (if allowed dayCheck then ret tt
              else do* setHeaders (now3 tk) dayLimit (retryAfterSeconds dayCheck) in
                   refuse_evidence wallet dayLimit dayCheck) in
         do* setHeader "X-RateLimit-Limit-Hour" (show_Z hourLimit) in
         do* setHeader "X-RateLimit-Limit-Day" (show_Z dayLimit) in
         ret true)
        fail_open
  end.

(** Models [AppealRateLimitGuard.canActivate] (backend/src/rate-limit/appeal-rate-limit.guard.ts:33-96). *)
Definition appealGuard (env : LimitEnv) (tk : Ticks) (req : Request) : MG bool :=
  match truthy (orElse (user_walletAddress req)
                 (orElse (body_claimant req) (orElse (body_walletAddress req) (body_holder req)))) with
  | None => ret true
  | Some wallet =>
      let hourLimit := default 2 (env_appeals_hour env) in
      let dayLimit := default 5 (env_appeals_day env) in
      try_catch
        (let* hourCheck := on_redis (checkWalletEvidenceLimit ("appeal:hour:" +:+ wallet) hourLimit 3600
                                       (now1 tk) (rnd1 tk)) in
         do* (if allowed hourCheck then ret tt
              else do* setHeaders (now3 tk) hourLimit (retryAfterSeconds hourCheck) in
                   do* setHeader "X-RateLimit-Policy" "appeal" in
                   refuse_evidence wallet hourLimit hourCheck) in
         let* dayCheck := on_redis (checkWalletEvidenceLimit ("appeal:day:" +:+ wallet) dayLimit 86400
                                      (now2 tk) (rnd2 tk)) in
         do* (if allowed dayCheck then ret tt
              else do* setHeaders (now3 tk) dayLimit (retryAfterSeconds dayCheck) in
                   do* setHeader "X-RateLimit-Policy" "appeal" in
                   refuse_evidence wallet dayLimit dayCheck) in
         do* setHeader "X-RateLimit-Limit-Hour" (show_Z hourLimit) in
         do* setHeader "X-RateLimit-Limit-Day" (show_Z dayLimit) in
         do* setHeader "X-RateLimit-Policy" "appeal" in
         ret true)
        fail_open
  end.
End guards.

(** ** Per-route policies *)

Inductive KeyBy := ByWallet | ByIp.

(** A limit of [None] is Infinity.
    Models [RateLimitPolicy] (backend/src/rate-limit/rate-limit.decorator.ts:28-32). *)
Record RateLimitPolicy := { p_limit : option Z; p_windowSeconds : Z; p_keyBy : KeyBy }.

(** Models [NAMED_RATE_LIMIT_POLICIES] (backend/src/rate-limit/rate-limit.decorator.ts:40-64). *)
Definition NAMED_RATE_LIMIT_POLICIES : list (string * RateLimitPolicy) := [
  ("default", {| p_limit := Some 100; p_windowSeconds := 60; p_keyBy := ByIp |});
  ("claim-filing", {| p_limit := Some 5; p_windowSeconds := 3600; p_keyBy := ByWallet |});
  ("upload", {| p_limit := Some 10; p_windowSeconds := 3600; p_keyBy := ByWallet |});
  ("appeal", {| p_limit := Some 2; p_windowSeconds := 3600; p_keyBy := ByWallet |});
  ("auth-challenge", {| p_limit := Some 20; p_windowSeconds := 300; p_keyBy := ByIp |});
  ("auth-verify", {| p_limit := Some 10; p_windowSeconds := 300; p_keyBy := ByIp |});
  ("exempt", {| p_limit := None; p_windowSeconds := 60; p_keyBy := ByIp |})
].

Definition default_policy : RateLimitPolicy :=
  {| p_limit := Some 100; p_windowSeconds := 60; p_keyBy := ByIp |}.

Section http.
Context {R : Type} `{RedisZSet R}.

(** Models [resolveIdentifier] (backend/src/rate-limit/http-rate-limit.guard.ts:104-117). *)
Definition resolveIdentifier (req : Request) (keyBy : KeyBy) : string :=
  match keyBy, truthy (user_walletAddress req) with
  | ByWallet, Some w => w
  | _, _ =>
      match x_forwarded_for req with
      | Some f => trim (default "" (head (split ","%char f)))
      | None => default "unknown" (remoteAddress req)
      end
  end.

(** Models [HttpRateLimitGuard.canActivate] (backend/src/rate-limit/http-rate-limit.guard.ts:50-102). *)
Definition httpGuard (policyName : option string) (tk : Ticks) (req : Request)
  : M (gworld R) GuardError bool :=
  let name := default "default" policyName in
  let policy := default default_policy (alist_get name NAMED_RATE_LIMIT_POLICIES) in
  match p_limit policy with
  | None => ret true
  | Some limit =>
      if bool_decide (policyName = Some "exempt") then ret true
      else
        let identifier := resolveIdentifier req (p_keyBy policy) in
        try_catch
          (let rateLimitKey := "http:" +:+ name +:+ ":" +:+ identifier in
           let* d := on_redis (checkWalletEvidenceLimit rateLimitKey limit (p_windowSeconds policy)
                                 (now1 tk) (rnd1 tk)) in
           if allowed d then ret true
           else
             do* setHeader "Retry-After" (show_Z (retryAfterSeconds d)) in
             do* setHeader "X-RateLimit-Limit" (show_Z limit) in
             do* setHeader "X-RateLimit-Remaining" "0" in
             do* setHeader "X-RateLimit-Reset" (show_Z (now3 tk / 1000 + retryAfterSeconds d)) in
             throw (AppException_RATE_LIMIT_EXCEEDED (retryAfterSeconds d)))
          (λ e, match e with OtherError _ => ret true | _ => throw e end)
  end.
End http.

(** ** Outcomes *)
Section outcomes.
Context {R : Type} `{RedisZSet R, RedisHash R}.
Implicit Types (w : gworld R) (env : LimitEnv) (tk : Ticks) (req : Request).

(** What a guard may do: admit, or refuse with an exception whose delay is
    also the Retry-After header; the delay of a window is positive. *)
Definition proper (o : result GuardError bool * gworld R) : Prop :=
  match o with
  | (Ok b, _) => b = true
  | (Throw (RateLimitException d), w) =>
      alist_get "Retry-After" (g_headers w) = Some (show_num (d_retryAfterSeconds d)) ∧
      ∀ s, d_retryAfterSeconds d = Some s → 1 ≤ s
  | (Throw (AppException_RATE_LIMIT_EXCEEDED s), w) =>
      alist_get "Retry-After" (g_headers w) = Some (show_Z s) ∧ 1 ≤ s
  | (Throw (OtherError _), _) => False
  end.

Lemma on_redis_ok {A} (m : M (rworld R) string A) w a r :
  m (g_redis w) = (Ok a, r) → on_redis m w = (Ok a, GWorld r (g_headers w)).
Proof. intros Hm. unfold on_redis. by rewrite Hm. Qed.

(** A window check resolves, and its refusals report a positive delay. *)
Lemma guarded_window key limit ms t rnd (s : rworld R) :
  ∃ d s', try_catch (slidingWindow key limit ms t rnd) (λ _ : string, ret (E:=string) admitted) s = (Ok d, s') ∧
    (allowed d = false → 1 ≤ retryAfterSeconds d).
Proof.
  unfold try_catch. destruct (slidingWindow key limit ms t rnd s) as [[d|e] s'] eqn:Hrun;
    eexists _, _; (split; [done|]); [|done].
  revert Hrun. unfold slidingWindow, bind, update, query, cmd, ret.
  intros; case_tests; lia.
Qed.

Lemma evidence_total wallet limit ws t rnd w :
  ∃ d w', on_redis (checkWalletEvidenceLimit wallet limit ws t rnd) w = (Ok d, w') ∧
    (allowed d = false → 1 ≤ retryAfterSeconds d).
Proof.
  destruct (guarded_window ("rate_limit:evidence:" +:+ toLowerCase wallet) limit (ws * 1000) t rnd (g_redis w))
    as (d & s & Hrun & Hd).
  eexists d, _. split; [by apply on_redis_ok|done].
Qed.

Lemma global_total env t rnd w :
  ∃ d w', on_redis (checkGlobalLimit env t rnd) w = (Ok d, w') ∧ (allowed d = false → 1 ≤ retryAfterSeconds d).
Proof.
  edestruct (guarded_window GLOBAL_WINDOW) as (d & s & Hrun & Hd).
  eexists d, _. split; [by apply on_redis_ok; exact Hrun|done].
Qed.

Lemma wallet_total env wallet t rnd w :
  ∃ d w', on_redis (checkWalletLimit env wallet t rnd) w = (Ok d, w') ∧
    (allowed d = false → 1 ≤ retryAfterSeconds d).
Proof.
  edestruct (guarded_window (WALLET_WINDOW (toLowerCase wallet))) as (d & s & Hrun & Hd).
  eexists d, _. split; [by apply on_redis_ok; exact Hrun|done].
Qed.

Lemma policy_total p l w : ∃ d w', on_redis (checkAndIncrement p l) w = (Ok d, w').
Proof.
  unfold on_redis, checkAndIncrement, try_catch. repeat case_match; simplify_eq; by eexists _, _.
Qed.

(** The shared prefix of two guards: it passes, or refuses properly. *)
Lemma global_and_wallet_outcome env tk wallet w :
  (∃ w', check_global_and_wallet env tk wallet w = (Ok tt, w')) ∨
  (∃ d w', check_global_and_wallet env tk wallet w = (Throw (RateLimitException d), w') ∧
     proper (Throw (RateLimitException d), w')).
Proof.
  unfold check_global_and_wallet, bind.
  destruct (global_total env (now1 tk) (rnd1 tk) w) as (d & w1 & -> & Hd).
  destruct (allowed d) eqn:Ha; simpl.
  2: { right. eexists _, _. split; [done|]. simpl. split; [done|]. by intros ? [= <-]; auto. }
  destruct (truthy wallet) as [wa|]; [|left; by eexists].
  destruct (wallet_total env wa (now2 tk) (rnd2 tk) w1) as (d2 & w2 & -> & Hd2).
  destruct (allowed d2) eqn:Ha2; simpl; [left; by eexists|].
  right. eexists _, _. split; [done|]. simpl. split; [done|]. by intros ? [= <-]; auto.
Qed.

Lemma walletGuard_proper env tk req w : proper (walletGuard env tk req w).
Proof.
  unfold walletGuard, try_catch, bind.
  by destruct (global_and_wallet_outcome env tk (resolveWallet req) w) as [[w' ->]|(d & w' & -> & Hp)].
Qed.

Lemma rateLimitGuard_proper env ledger tk req w : proper (rateLimitGuard env ledger tk req w).
Proof.
  unfold rateLimitGuard. destruct (truthy (body_policyId req)) as [p|]; [|done].
  unfold try_catch, bind.
  destruct (global_and_wallet_outcome env tk (extractWalletAddress req p) w)
    as [[w' ->]|(d & w' & -> & Hp)]; [|done].
  destruct ledger as [l|e]; [|done].
  destruct (policy_total p l w') as (d & w2 & ->). destruct (r_allowed d); [done|]. simpl.
  split; [done|]. destruct (num_add _ _); intros s [= <-]. lia.
Qed.

Lemma claimGuard_proper env tk req w : proper (claimGuard env tk req w).
Proof.
  unfold claimGuard. destruct (truthy _) as [wa|]; [|done]. unfold try_catch, bind.
  edestruct (evidence_total ("claim:hour:" +:+ wa)) as (d & w1 & -> & Hd).
  destruct (allowed d); simpl; [|split; [done|by intros ? [= <-]; auto]].
  edestruct (evidence_total ("claim:day:" +:+ wa)) as (d2 & w2 & -> & Hd2).
  destruct (allowed d2); simpl; [done|split; [done|by intros ? [= <-]; auto]].
Qed.

Lemma appealGuard_proper env tk req w : proper (appealGuard env tk req w).
Proof.
  unfold appealGuard. destruct (truthy _) as [wa|]; [|done]. unfold try_catch, bind.
  edestruct (evidence_total ("appeal:hour:" +:+ wa)) as (d & w1 & -> & Hd).
  destruct (allowed d); simpl; [|split; [done|by intros ? [= <-]; auto]].
  edestruct (evidence_total ("appeal:day:" +:+ wa)) as (d2 & w2 & -> & Hd2).
  destruct (allowed d2); simpl; [done|split; [done|by intros ? [= <-]; auto]].
Qed.

Lemma httpGuard_proper name tk req w : proper (httpGuard name tk req w).
Proof.
  unfold httpGuard. destruct (p_limit _) as [limit|]; [|done].
  case_bool_decide; [done|]. unfold try_catch, bind.
  match goal with |- context [on_redis (checkWalletEvidenceLimit ?k ?l ?ws ?t ?r) w] =>
    destruct (evidence_total k l ws t r w) as (d & w1 & -> & Hd) end.
  destruct (allowed d); simpl; [done|split; [done|auto]].
Qed.

(** Every rate-limit guard is total and honest, for any request and any pattern of Redis and RPC
    failures: it either admits the request or throws its own 429 exception; a refusal always sets
    Retry-After to the delay of the exception, and that delay is at least one second. *)
Theorem guards_proper env ledger name tk req w :
  proper (walletGuard env tk req w) ∧ proper (rateLimitGuard env ledger tk req w) ∧
  proper (claimGuard env tk req w) ∧ proper (appealGuard env tk req w) ∧
  proper (httpGuard name tk req w).
Proof.
  split_and!; [apply walletGuard_proper|apply rateLimitGuard_proper|apply claimGuard_proper
              |apply appealGuard_proper|apply httpGuard_proper].
Qed.
End outcomes.

(** ** Isolation of the budgets *)
Section isolation.
Context {R : Type} `{RedisZSetLaws R, RedisHash R}.

(** The entries of the sorted set [k] are the same before and after. *)
Definition same_entries (k : string) (s s' : rworld R) : Prop :=
  ∀ t, r_zat t k (rstate s') = r_zat t k (rstate s).
#[global] Instance same_entries_preorder k : PreOrder (same_entries k).
Proof. split; [done|]. intros a b c Hab Hbc t. by rewrite Hbc, Hab. Qed.

Definition g_same_entries (k : string) (w w' : gworld R) : Prop :=
  same_entries k (g_redis w) (g_redis w').
#[global] Instance g_same_entries_preorder k : PreOrder (g_same_entries k).
Proof. split; [done|]. intros a b c Hab Hbc. unfold g_same_entries in *. by etrans. Qed.

Lemma keeps_query {A} k (f : R → A) : keeps (same_entries k) (query f).
Proof. intros [r [|[] fs]]; done. Qed.

Lemma keeps_update k (f : R → R) :
  (∀ t r, r_zat t k (f r) = r_zat t k r) → keeps (same_entries k) (update f).
Proof. intros Hf [r [|[] fs]] t; simpl; try apply Hf; done. Qed.

Lemma slidingWindow_keeps key limit ms t rnd k :
  key ≠ k → keeps (same_entries k) (slidingWindow key limit ms t rnd).
Proof.
  intros Hne. unfold slidingWindow. keeps_walk; try apply keeps_query; apply keeps_update; intros.
  - by apply zat_zremrangebyscore_ne.
  - by apply zat_zadd_ne.
  - by apply zat_pexpire_ne.
Qed.

Lemma keeps_on_redis {A} k (m : M (rworld R) string A) :
  keeps (same_entries k) m → keeps (g_same_entries k) (on_redis m).
Proof.
  intros Hm w. specialize (Hm (g_redis w)). revert Hm. unfold world_of, on_redis, g_same_entries.
  by destruct (m (g_redis w)) as [[] s].
Qed.

Lemma keeps_setHeader k n v : keeps (g_same_entries k) (setHeader (R:=R) n v).
Proof. by intros w t. Qed.

Lemma evidence_keeps wallet limit ws t rnd k :
  "rate_limit:evidence:" +:+ toLowerCase wallet ≠ k →
  keeps (g_same_entries k) (on_redis (R:=R) (checkWalletEvidenceLimit wallet limit ws t rnd)).
Proof.
  intros Hne. apply keeps_on_redis, keeps_try; [apply _|by apply slidingWindow_keeps|].
  intros e. apply keeps_ret. apply _.
Qed.

(** The sets the claim guard, the appeal guard and the wallet limiter charge. *)
Definition claim_keys (k : string) : Prop := ∃ v,
  k = "rate_limit:evidence:" +:+ toLowerCase ("claim:hour:" +:+ v) ∨
  k = "rate_limit:evidence:" +:+ toLowerCase ("claim:day:" +:+ v).
Definition appeal_keys (k : string) : Prop := ∃ v,
  k = "rate_limit:evidence:" +:+ toLowerCase ("appeal:hour:" +:+ v) ∨
  k = "rate_limit:evidence:" +:+ toLowerCase ("appeal:day:" +:+ v).
Definition limiter_keys (k : string) : Prop := k = GLOBAL_WINDOW ∨ ∃ v, k = WALLET_WINDOW v.

Ltac keys_differ :=
  repeat match goal with
  | H : claim_keys _ |- _ => destruct H as [? [->| ->]]
  | H : appeal_keys _ |- _ => destruct H as [? [->| ->]]
  | H : limiter_keys _ |- _ => destruct H as [->|[? ->]]
  | H : _ ∨ _ |- _ => destruct H
  end;
  try rewrite <- (str_app_nil_r GLOBAL_WINDOW);
  unfold GLOBAL_WINDOW, WALLET_WINDOW; rewrite ?toLowerCase_app, <- ?str_app_assoc;
  apply prefixes_differ; reflexivity.

(** Appeal and claim budgets are isolated, as the appeal guard documents: whatever the wallets, the
    clock and the failures, filing an appeal leaves every claim window and every wallet and global
    window as it was, and filing a claim leaves every appeal window. *)
Theorem budgets_isolated env tk req k :
  (claim_keys k ∨ limiter_keys k → keeps (g_same_entries k) (appealGuard (R:=R) env tk req)) ∧
  (appeal_keys k ∨ limiter_keys k → keeps (g_same_entries k) (claimGuard (R:=R) env tk req)).
Proof.
  unfold appealGuard, claimGuard, setHeaders, refuse_evidence, fail_open.
  split; intros Hk; keeps_walk; try apply keeps_setHeader; apply evidence_keeps; keys_differ.
Qed.
End isolation.

(** ** Witnesses *)
Module GuardWitnesses.
Import Sample.

#[local] Instance no_hashes : RedisHash zsets := {
  r_hget _ _ _ := None; r_hset _ _ _ r := r; r_hincrby _ _ _ r := r; r_hexists _ _ := false }.

Definition req0 : Request := {| user_walletAddress := Some "GABC"; body_policyId := Some "P";
  body_holder := None; body_claimant := None; body_walletAddress := None;
  x_forwarded_for := None; remoteAddress := None |}.
Definition ticks0 : Ticks := {| now1 := 1000; rnd1 := "a"; now2 := 1001; rnd2 := "b"; now3 := 1002 |}.

Lemma budgets_isolated_witness :
  keeps (g_same_entries (R:=zsets) "rate_limit:evidence:claim:hour:gabc") (appealGuard RateLimit.Witnesses.env0 ticks0 req0).
Proof.
  destruct (budgets_isolated (R:=zsets) RateLimit.Witnesses.env0 ticks0 req0 "rate_limit:evidence:claim:hour:gabc")
    as [Ha _].
  apply Ha. left. exists "gabc". left. reflexivity.
Defined.

End GuardWitnesses.
