(* ===== verification/Native.v ===== *)
(** * Decoded contract values and the event parser registry

    The native values contract events decode to and the conversions the
    indexer applies to them (backend/src/indexer/indexer.service.ts), and the
    versioned parser registry (backend/src/events/parser-registry.ts,
    backend/src/events/events.schema.ts). *)

From stdpp Require Import base list strings sorting.
From Stdlib Require Import ZArith Lia Ascii.
From S2P Require Import Prelude JsText.

Open Scope string_scope.
Open Scope Z_scope.

(** ** Values *)

(** Models [StellarNativeValue] (backend/src/indexer/indexer.service.ts:25-33). *)
Inductive native :=
  | NStr (s : string)
  | NNum (n : Z)
  | NBool (b : bool)
  | NBig (n : Z)
  | NNull
  | NUndef
  | NArr (vs : list native)
  | NObj (fs : list (string * native)).

Definition show_bool (b : bool) : string := if b then "true" else "false".

(** [String(v)]: an array joins its elements, absent ones as the empty string. *)
Fixpoint js_String (v : native) : string :=
  match v with
  | NStr s => s
  | NNum n | NBig n => show_Z n
  | NBool b => show_bool b
  | NNull => "null"
  | NUndef => "undefined"
  | NArr vs => join "," ((fix go (l : list native) : list string :=
      match l with
      | [] => []
      | NNull :: l' | NUndef :: l' => "" :: go l'
      | x :: l' => js_String x :: go l'
      end) vs)
  | NObj _ => "[object Object]"
  end.

(** [v?.toString()] *)
Definition opt_toString (v : option native) : option string :=
  match v with None | Some NNull | Some NUndef => None | Some x => Some (js_String x) end.

(** [Number(s)] on a string, [None] when the result is not an integer.  Decimal
    integers, the empty string and hexadecimal literals are evaluated; the
    other literal forms (fractions, exponents) do not occur in integer fields
    and count as NaN. *)
Definition Number_str (s : string) : num :=
  match trim s with
  | "" => Some 0
  | String "0" (String "x" h) | String "0" (String "X" h) =>
      if str_forall is_hex h && negb (bool_decide (h = "")) then Some (hex_val_from 0 h) else None
  | String "-" d => if some_digits d then Some (- digits_val 0 d) else None
  | String "+" d => if some_digits d then Some (digits_val 0 d) else None
  | d => if all_digits d then Some (digits_val 0 d) else None
  end.

(** [Number(n)] on a bigint: the nearest double, ties to even. *)
Definition to_double (n : Z) : Z :=
  let a := Z.abs n in
  if a <=? 2 ^ 53 then n
  else
    let u := 2 ^ (Z.log2 a - 52) in
    let q := a / u in
    let r := a mod u in
    let q' := if (u <? 2 * r) || ((2 * r =? u) && Z.odd q) then q + 1 else q in
    Z.sgn n * (q' * u).

(** [Number(v)] *)
Definition js_Number (v : native) : num :=
  match v with
  | NStr s => Number_str s
  | NNum n => Some n
  | NBig n => Some (to_double n)
  | NBool b => Some (if b then 1 else 0)
  | NNull => Some 0
  | NUndef => None
  | NArr _ | NObj _ => Number_str (js_String v)
  end.

(** Models [getStringValue] (backend/src/indexer/indexer.service.ts:53-67). *)
Definition getStringValue (v : native) : string :=
  match v with
  | NStr s => s
  | NNum _ | NBig _ | NBool _ => js_String v
  | NArr _ | NObj _ => js_String v
  | NNull | NUndef => ""
  end.

(** Models [getNumberValue] (backend/src/indexer/indexer.service.ts:69-79). *)
Definition getNumberValue (v : native) : num :=
  match v with
  | NNum n => Some n
  | NBig n => Some (to_double n)
  | _ => Number_str (getStringValue v)
  end.

(** Models [getStringArray] (backend/src/indexer/indexer.service.ts:81-87). *)
Definition getStringArray (v : native) : list string :=
  match v with NArr vs => getStringValue <$> vs | _ => [] end.

(** Models [toInputJsonValue] (backend/src/indexer/indexer.service.ts:36-51). *)
Fixpoint toInputJsonValue (v : native) : native :=
  match v with
  | NNull | NUndef => NNull
  | NBig n => NStr (show_Z n)
  | NArr vs => NArr ((fix go (l : list native) : list native :=
      match l with [] => [] | x :: l' => toInputJsonValue x :: go l' end) vs)
  | NObj fs => NObj ((fix go (l : list (string * native)) : list (string * native) :=
      match l with [] => [] | (k, x) :: l' => (k, toInputJsonValue x) :: go l' end) fs)
  | _ => v
  end.

(** A property of an object; primitives and arrays have none of the fields read.
    Reading a property of null or undefined throws. *)
Definition field (v : native) (k : string) : option native :=
  match v with
  | NObj fs => Some (default NUndef (alist_get k fs))
  | NNull | NUndef => None
  | _ => Some NUndef
  end.

(** [x != null && x !== ''] *)
Definition present (v : native) : bool :=
  match v with NNull | NUndef | NStr "" => false | _ => true end.

(** The on-chain appeal outcomes. *)
Inductive AppealOutcome := APPEAL_APPROVED_ | APPEAL_REJECTED_.

(** [s.toLowerCase().replace(/_/g, '')] *)
Definition normalize_label (s : string) : string :=
  str_filter (λ c, negb (bool_decide (c = "_"%char))) (toLowerCase s).

(** Models [mapAppealOutcome] (backend/src/indexer/indexer.service.ts:90-107). *)
Definition mapAppealOutcome (outcome : native) (allowBareApprovedRejected : bool) : option AppealOutcome :=
  let normalized := normalize_label (getStringValue outcome) in
  if bool_decide (normalized = "appealapproved") then Some APPEAL_APPROVED_
  else if bool_decide (normalized = "appealrejected") then Some APPEAL_REJECTED_
  else if allowBareApprovedRejected then
    if bool_decide (normalized = "approved") then Some APPEAL_APPROVED_
    else if bool_decide (normalized = "rejected") then Some APPEAL_REJECTED_
    else None
  else None.

(** The claim id of the payload or of the third topic; the outer [None] is the
    exception of reading a property of null.
    Models [resolveClaimId] (backend/src/indexer/indexer.service.ts:110-118). *)
Definition resolveClaimId (data : native) (topics : list native) : option num :=
  match field data "claim_id" with
  | None => None
  | Some v =>
      Some (if present v then getNumberValue v
            else match topics !! 2%nat with
                 | None | Some NNull | Some NUndef => None
                 | Some t => getNumberValue t
                 end)
  end.

(** ** The parser registry *)

(** Models [SCHEMA_VERSION] (backend/src/events/events.schema.ts:23-23). *)
Definition SCHEMA_VERSION : Z := 1.

(** The event keys, each with the schema versions that have a parser; a parser
    returns the payload as it is.
    Models [EVENT_PARSERS] (backend/src/events/events.schema.ts:395-489). *)
Definition EVENT_PARSERS : list (string * list Z) := [
  ("niffyins:clm_filed", [1]); ("niffyins:vote_cast", [1]); ("niffyins:clm_final", [1]);
  ("niffyins:clm_paid", [1]); ("niffyins:claim_status_changed", [1]);
  ("niffyinsure:appeal_opened", [1]); ("niffyinsure:appeal_resolved", [1]);
  ("niffyinsure:claim_withdrawn", [1]); ("niffyinsure:PolicyInitiated", [1]);
  ("niffyinsure:PolicyRenewed", [1]); ("niffyinsure:policy_terminated", [1]);
  ("niffyinsure:policy_expired", [1]); ("niffyinsure:BeneficiaryUpdated", [1]);
  ("niffyinsure:quorum_updated", [1]); ("niffyinsure:GracePeriodUpdated", [1]);
  ("niffyinsure:payout_asset_override_applied", [1]); ("niffyinsure:asset_premium_table_set", [1]);
  ("niffyinsure:installment_disbursed", [1]); ("niffyinsure:claim_fully_paid", [1]);
  ("niffyinsure:policy_transferred", [1]); ("niffyinsure:claim_evidence_updated", [1]);
  ("niffyinsure:payout_recipient_warning", [1]); ("niffyins:tbl_upd", [1]);
  ("niffyins:asset_set", [1]); ("niffyins:adm_prop", [1]); ("niffyins:adm_acc", [1]);
  ("niffyins:adm_can", [1]); ("niffyins:adm_tok", [1]); ("niffyins:adm_paus", [1]);
  ("niffyins:adm_drn", [1])
].

(** Models [ParsedEvent] (backend/src/events/events.schema.ts:379-388). *)
Record ParsedEvent := {
  pe_key : string;
  pe_schemaVersion : Z;
  pe_ledger : Z;
  pe_txHash : string;
  pe_ids : list native;
  pe_payload : native;
}.

(** Models [WarningRow] (backend/src/events/parser-registry.ts:24-32). *)
Record WarningRow := {
  wr_contractId : string;
  wr_ledger : Z;
  wr_txHash : string;
  wr_rawTopics : list native;
  wr_rawPayload : native;
  wr_reason : string;
}.

(** [typeof raw?.version === 'number' ? raw.version : SCHEMA_VERSION] *)
Definition payload_version (raw : native) : Z :=
  match raw with
  | NObj fs => match alist_get "version" fs with Some (NNum n) => n | _ => SCHEMA_VERSION end
  | _ => SCHEMA_VERSION
  end.

(** Models [EventParserV1.parse] (backend/src/events/parser-registry.ts:65-131). *)
Definition parseV1 (topics : list native) (payload : native) (ledger : Z) (txHash : string)
  : ParsedEvent + WarningRow :=
  let warn (reason contractId : string) :=
    inr {| wr_contractId := contractId; wr_ledger := ledger; wr_txHash := txHash;
           wr_rawTopics := topics; wr_rawPayload := payload; wr_reason := reason |} in
  match topics with
  | t0 :: t1 :: ids =>
      let key := js_String t0 +:+ ":" +:+ js_String t1 in
      match alist_get key EVENT_PARSERS with
      | None => warn "unknown_event_key" key
      | Some versionParsers =>
          let version := payload_version payload in
          if bool_decide (version ∈ versionParsers) then
            inl {| pe_key := key; pe_schemaVersion := version; pe_ledger := ledger;
                   pe_txHash := txHash; pe_ids := ids; pe_payload := payload |}
          else warn ("no_parser_for_version_" +:+ show_Z version) key
      end
  | _ => warn "topics_too_short" ""
  end.

(** Models [EventParserV2.parse] (backend/src/events/parser-registry.ts:140-153). *)
Definition parseV2 := parseV1.

(** Models [parseEvent] (backend/src/events/events.schema.ts:495-524). *)
Definition parseEvent (topics : list native) (payload : native) (ledger : Z) (txHash : string)
  : option ParsedEvent :=
  match topics with
  | t0 :: t1 :: ids =>
      let key := js_String t0 +:+ ":" +:+ js_String t1 in
      match alist_get key EVENT_PARSERS with
      | None => None
      | Some versionParsers =>
          let version := payload_version payload in
          if bool_decide (version ∈ versionParsers) then
            Some {| pe_key := key; pe_schemaVersion := version; pe_ledger := ledger;
                    pe_txHash := txHash; pe_ids := ids; pe_payload := payload |}
          else None
      end
  | _ => None
  end.

(** Models [DeploymentEntry] (backend/src/events/parser-registry.ts:51-59). *)
Record DeploymentEntry := {
  de_contractId : string;
  de_schemaVersion : Z;
  de_fromLedger : Z;
  de_toLedger : option Z;
}.

(** Models [PARSER_IMPLEMENTATIONS] (backend/src/events/parser-registry.ts:157-160). *)
Definition PARSER_IMPLEMENTATIONS (v : Z)
  : option (list native → native → Z → string → ParsedEvent + WarningRow) :=
  if v =? 1 then Some parseV1 else if v =? 2 then Some parseV2 else None.

(** [.sort((a, b) => b.fromLedger - a.fromLedger)]: stable, latest start first. *)
Fixpoint insert_entry (e : DeploymentEntry) (l : list DeploymentEntry) : list DeploymentEntry :=
  match l with
  | [] => [e]
  | x :: l' => if de_fromLedger x <? de_fromLedger e then e :: l else x :: insert_entry e l'
  end.

(** Models [initDeploymentRegistry] (backend/src/events/parser-registry.ts:170-172). *)
Definition initDeploymentRegistry (entries : list DeploymentEntry) : list DeploymentEntry :=
  foldl (λ acc e, insert_entry e acc) [] entries.

Definition entry_matches (contractId : string) (ledger : Z) (e : DeploymentEntry) : bool :=
  bool_decide (de_contractId e = contractId) && (de_fromLedger e <=? ledger) &&
  match de_toLedger e with None => true | Some t => ledger <? t end.

(** The version of the chosen parser.
    Models [selectParser] (backend/src/events/parser-registry.ts:178-191). *)
Fixpoint selectVersion (registry : list DeploymentEntry) (contractId : string) (ledger : Z) : Z :=
  match registry with
  | [] => 1
  | e :: es =>
      if entry_matches contractId ledger e then
        match PARSER_IMPLEMENTATIONS (de_schemaVersion e) with
        | Some _ => de_schemaVersion e
        | None => selectVersion es contractId ledger
        end
      else selectVersion es contractId ledger
  end.

(** Models [selectParser] (backend/src/events/parser-registry.ts:178-191). *)
Definition selectParser (registry : list DeploymentEntry) (contractId : string) (ledger : Z) :=
  default parseV1 (PARSER_IMPLEMENTATIONS (selectVersion registry contractId ledger)).

(** ** Properties of the registry *)

Lemma insert_entry_perm e l : insert_entry e l ≡ₚ e :: l.
Proof.
  induction l as [|x l IH]; simpl; [done|]. case_test; [done|]. rewrite IH. apply Permutation_swap.
Qed.

Lemma insert_entry_sorted e l :
  StronglySorted (λ a b, de_fromLedger b ≤ de_fromLedger a) l →
  StronglySorted (λ a b, de_fromLedger b ≤ de_fromLedger a) (insert_entry e l).
Proof.
  induction 1 as [|x l Hs IH Hf]; simpl; [by repeat constructor|].
  case_test; bool_prop; constructor.
  - by constructor.
  - constructor; [lia|]. eapply Forall_impl; [exact Hf|]. simpl. lia.
  - exact IH.
  - rewrite insert_entry_perm. by constructor.
Qed.

Lemma registry_fold entries acc :
  StronglySorted (λ a b, de_fromLedger b ≤ de_fromLedger a) acc →
  StronglySorted (λ a b, de_fromLedger b ≤ de_fromLedger a) (foldl (λ acc e, insert_entry e acc) acc entries) ∧
  foldl (λ acc e, insert_entry e acc) acc entries ≡ₚ (entries ++ acc)%list.
Proof.
  revert acc. induction entries as [|e es IH]; intros acc Hs; [done|]. simpl.
  destruct (IH (insert_entry e acc) (insert_entry_sorted e acc Hs)) as [Hs' Hp].
  split; [done|]. rewrite Hp, insert_entry_perm. by rewrite Permutation_middle.
Qed.

(** An entry the selection may use. *)
Definition usable (contractId : string) (ledger : Z) (e : DeploymentEntry) : bool :=
  entry_matches contractId ledger e && ((de_schemaVersion e =? 1) || (de_schemaVersion e =? 2)).

Lemma selectVersion_first registry c l :
  selectVersion registry c l =
    match list_find (λ e, usable c l e = true) registry with Some (_, e) => de_schemaVersion e | None => 1 end.
Proof.
  induction registry as [|e es IH]; [done|]. cbn [selectVersion list_find].
  unfold usable, PARSER_IMPLEMENTATIONS at 1.
  destruct (entry_matches c l e); simpl; [|rewrite IH; by destruct (list_find _ es) as [[]|]].
  destruct (de_schemaVersion e =? 1); simpl; [done|].
  destruct (de_schemaVersion e =? 2); simpl; [done|]. rewrite IH. by destruct (list_find _ es) as [[]|].
Qed.

(** Parser selection is determined by the deployment table, not by its order: the parser used for a
    contract and a ledger has the schema version of a matching entry with the latest start ledger, and is
    the V1 parser when no entry matches. *)
Theorem selectParser_latest entries c l :
  let v := selectVersion (initDeploymentRegistry entries) c l in
  (∃ e, e ∈ entries ∧ usable c l e = true ∧ de_schemaVersion e = v ∧
     ∀ e', e' ∈ entries → usable c l e' = true → de_fromLedger e' ≤ de_fromLedger e) ∨
  (v = 1 ∧ ∀ e, e ∈ entries → usable c l e = false).
Proof.
  intros v. destruct (registry_fold entries []) as [Hs Hp]; [constructor|].
  rewrite app_nil_r in Hp. fold (initDeploymentRegistry entries) in Hs, Hp.
  unfold v. rewrite selectVersion_first.
  destruct (list_find _ _) as [[i e]|] eqn:Hfind.
  - left. apply list_find_Some in Hfind as (Hi & Hu & Hfirst).
    exists e. split_and!; [|done|done|].
    + rewrite <- Hp. by eapply list_elem_of_lookup_2.
    + intros e' He' Hu'. rewrite <- Hp in He'. apply list_elem_of_lookup_1 in He' as [j Hj].
      destruct (decide (j = i)) as [->|Hne]; [by simplify_eq|].
      assert (¬ (j < i)%nat) by (intros Hlt; by apply (Hfirst j e')).
      rewrite <- (take_drop_middle _ _ _ Hi) in Hs.
      apply StronglySorted_app in Hs as (_ & _ & Hs). apply StronglySorted_inv in Hs as [_ Hf].
      rewrite Forall_forall in Hf. apply (Hf e').
      eapply (list_elem_of_lookup_2 _ (j - S i)). rewrite lookup_drop. rewrite <- Hj. f_equal. lia.
  - right. split; [done|]. intros e He. apply list_find_None in Hfind.
    rewrite Forall_forall in Hfind. rewrite <- Hp in He. specialize (Hfind e He).
    by destruct (usable c l e).
Qed.

Lemma selectParser_V1 registry c l : selectParser registry c l = parseV1.
Proof. unfold selectParser, PARSER_IMPLEMENTATIONS, parseV2. by repeat case_test. Qed.

Lemma parseV1_unparsed topics payload ledger txHash :
  parseEvent topics payload ledger txHash = None → ∃ w, parseV1 topics payload ledger txHash = inr w.
Proof.
  unfold parseV1, parseEvent. destruct topics as [|t0 [|t1 ids]]; [by eexists..|].
  destruct (alist_get _ _); [|by eexists]. case_bool_decide; [done|by eexists].
Qed.

(** The registry's parser and the catalogue's [parseEvent] accept the same events with the same
    result; what the catalogue drops silently the registry reports as a warning row that carries the raw
    topics and payload, for every registered version. *)
Theorem parsers_agree registry c topics payload ledger txHash :
  match selectParser registry c ledger topics payload ledger txHash with
  | inl ev => parseEvent topics payload ledger txHash = Some ev
  | inr w => parseEvent topics payload ledger txHash = None ∧
             wr_rawTopics w = topics ∧ wr_rawPayload w = payload ∧
             wr_ledger w = ledger ∧ wr_txHash w = txHash
  end.
Proof.
  rewrite selectParser_V1. unfold parseV1, parseEvent.
  destruct topics as [|t0 [|t1 ids]]; [done..|].
  destruct (alist_get _ _); [|done]. by case_bool_decide.
Qed.
