(* ===== verification/Indexer.v ===== *)
(** * The chain indexer

    backend/src/indexer/indexer.service.ts: fetching contract events in
    batches, recording each event once, projecting it onto the policy, claim,
    vote and asset tables and advancing the network's ledger cursor in the same
    transaction.  Postgres is a set of keyed tables (the class [Tables]) whose
    constraints are those of backend/prisma/schema.prisma; every database
    command, publication and RPC call may fail.  Bookkeeping timestamps
    (createdAt, updatedAt) and log lines are left out. *)

From stdpp Require Import base list strings sorting.
From Stdlib Require Import ZArith Lia Ascii.
From S2P Require Import Prelude JsText Native.

Open Scope string_scope.
Open Scope Z_scope.

(** ** Rows *)

Inductive ClaimStatus :=
  | PENDING | APPROVED | PAID | REJECTED | UNDER_APPEAL | APPEAL_APPROVED | APPEAL_REJECTED.
#[global] Instance ClaimStatus_eq_dec : EqDecision ClaimStatus.
Proof. solve_decision. Defined.

Definition status_name (s : ClaimStatus) : string :=
  match s with
  | PENDING => "PENDING" | APPROVED => "APPROVED" | PAID => "PAID" | REJECTED => "REJECTED"
  | UNDER_APPEAL => "UNDER_APPEAL" | APPEAL_APPROVED => "APPEAL_APPROVED"
  | APPEAL_REJECTED => "APPEAL_REJECTED"
  end.

Record PolicyRow := {
  pr_policyId : Z;
  pr_holderAddress : string;
  pr_policyType : string;
  pr_region : string;
  pr_coverageAmount : string;
  pr_premium : string;
  pr_isActive : bool;
  pr_startLedger : Z;
  pr_endLedger : Z;
  pr_assetContractId : option string;
  pr_txHash : string;
}.

Record ClaimRow := {
  cr_policyId : string;
  cr_creatorAddress : string;
  cr_amount : string;
  cr_asset : option string;
  cr_description : string;
  cr_imageUrls : list string;
  cr_status : ClaimStatus;
  cr_isFinalized : bool;
  cr_approveVotes : Z;
  cr_rejectVotes : Z;
  cr_paidAt : option Z;
  cr_createdAtLedger : Z;
  cr_updatedAtLedger : Z;
  cr_txHash : string;
  cr_appealsCount : Z;
  cr_deletedAt : option Z;
}.

Inductive VoteType := VApprove | VReject.

Record VoteRow := { vr_vote : VoteType; vr_votedAtLedger : Z; vr_txHash : string }.

Record AssetRow := {
  ar_symbol : option string;
  ar_decimals : Z;
  ar_isAllowed : bool;
  ar_addedAtLedger : Z;
}.

Record RawEventRow := {
  re_contractId : string;
  re_ledger : Z;
  re_ledgerClosedAt : Z;
  re_topics : list (option string);
  re_data : native;
}.

Record GapAlertRow := {
  ga_lastFiredAt : Z;
  ga_lastGapSize : Z;
  ga_lastProcessedLedger : Z;
  ga_latestLedger : Z;
}.

(** What the indexer tells the rest of the system. *)
Inductive Effect :=
  | PublishClaim (claimId : Z) (status : string) (ledger : Z)
  | StatusChange (claimId : Z) (status : string)
  | InvalidateClaimSummary (claimId : Z)
  | InvalidatePolicyAnalytics
  | InvalidateQuotes
  | InvalidateAssets
  | PublishVote (claimId : Z) (voter : string) (yes : bool) (yesVotes noVotes : num)
  | DeliverClaimFiled (claimId : Z) (policyId : string) (key : string)
  | DeliverVoteCast (claimId : Z) (voter vote : string) (key : string)
  | DuplicateEvent (eventType : string)
  | GapAlert (network : string) (gap : Z).

(** [createMany] with [skipDuplicates]: rows the unique key already has are skipped. *)
Definition create_many (old new : list string) : list string :=
  foldl (λ acc v, if bool_decide (v ∈ acc) then acc else acc ++ [v])%list old new.

Lemma create_many_fresh old new : NoDup (old ++ new)%list → create_many old new = (old ++ new)%list.
Proof.
  revert old. induction new as [|v new IH]; intros old Hnd; unfold create_many in *; simpl.
  { by rewrite app_nil_r. }
  rewrite bool_decide_eq_false_2.
  - rewrite IH; [by rewrite <- app_assoc|]. by rewrite <- app_assoc.
  - intros Hin. apply NoDup_app in Hnd as (_ & Hdis & _). apply (Hdis v Hin). by left.
Qed.

Section indexer.
Context `{Tables}.

Record DB := {
  ledgerCursor : Tbl string Z;
  indexerState : option Z;          (** the first legacy row, if any *)
  gapAlerts : Tbl string GapAlertRow;
  rawEvents : Tbl (string * Z) RawEventRow;
  policies : Tbl string PolicyRow;
  claims_ : Tbl Z ClaimRow;
  votes : Tbl (Z * string) VoteRow;
  allowedAssets : Tbl string AssetRow;
  registeredVoters : list string;
  (** wallets by claim and appeal round *)
  appealSnapshots : Tbl (Z * Z) (list string);
}.

Definition set_cursor f d := {| ledgerCursor := f (ledgerCursor d); indexerState := indexerState d;
  gapAlerts := gapAlerts d; rawEvents := rawEvents d; policies := policies d; claims_ := claims_ d;
  votes := votes d; allowedAssets := allowedAssets d; registeredVoters := registeredVoters d;
  appealSnapshots := appealSnapshots d |}.
Definition set_gaps f d := {| ledgerCursor := ledgerCursor d; indexerState := indexerState d;
  gapAlerts := f (gapAlerts d); rawEvents := rawEvents d; policies := policies d; claims_ := claims_ d;
  votes := votes d; allowedAssets := allowedAssets d; registeredVoters := registeredVoters d;
  appealSnapshots := appealSnapshots d |}.
Definition set_raw f d := {| ledgerCursor := ledgerCursor d; indexerState := indexerState d;
  gapAlerts := gapAlerts d; rawEvents := f (rawEvents d); policies := policies d; claims_ := claims_ d;
  votes := votes d; allowedAssets := allowedAssets d; registeredVoters := registeredVoters d;
  appealSnapshots := appealSnapshots d |}.
Definition set_policies f d := {| ledgerCursor := ledgerCursor d; indexerState := indexerState d;
  gapAlerts := gapAlerts d; rawEvents := rawEvents d; policies := f (policies d); claims_ := claims_ d;
  votes := votes d; allowedAssets := allowedAssets d; registeredVoters := registeredVoters d;
  appealSnapshots := appealSnapshots d |}.
Definition set_claims f d := {| ledgerCursor := ledgerCursor d; indexerState := indexerState d;
  gapAlerts := gapAlerts d; rawEvents := rawEvents d; policies := policies d; claims_ := f (claims_ d);
  votes := votes d; allowedAssets := allowedAssets d; registeredVoters := registeredVoters d;
  appealSnapshots := appealSnapshots d |}.
Definition set_votes f d := {| ledgerCursor := ledgerCursor d; indexerState := indexerState d;
  gapAlerts := gapAlerts d; rawEvents := rawEvents d; policies := policies d; claims_ := claims_ d;
  votes := f (votes d); allowedAssets := allowedAssets d; registeredVoters := registeredVoters d;
  appealSnapshots := appealSnapshots d |}.
Definition set_assets f d := {| ledgerCursor := ledgerCursor d; indexerState := indexerState d;
  gapAlerts := gapAlerts d; rawEvents := rawEvents d; policies := policies d; claims_ := claims_ d;
  votes := votes d; allowedAssets := f (allowedAssets d); registeredVoters := registeredVoters d;
  appealSnapshots := appealSnapshots d |}.
Definition set_snapshots f d := {| ledgerCursor := ledgerCursor d; indexerState := indexerState d;
  gapAlerts := gapAlerts d; rawEvents := rawEvents d; policies := policies d; claims_ := claims_ d;
  votes := votes d; allowedAssets := allowedAssets d; registeredVoters := registeredVoters d;
  appealSnapshots := f (appealSnapshots d) |}.

(** The database, what was published so far, and the failures to come. *)
Record iworld := IWorld { db : DB; effects : list Effect; ifaults : list bool }.
Abbreviation MI A := (M iworld string A).

(** One command of a remote service. *)
Definition remote {A} (f : iworld → result string A * iworld) : MI A :=
  λ w, match ifaults w with
       | true :: fs => (Throw "unavailable", IWorld (db w) (effects w) fs)
       | _ => f (IWorld (db w) (effects w) (tail (ifaults w)))
       end.
Definition read_db {A} (f : DB → A) : MI A := remote (λ w, (Ok (f (db w)), w)).
Definition write_db (f : DB → DB) : MI () := remote (λ w, (Ok tt, IWorld (f (db w)) (effects w) (ifaults w))).
(** A write that the database refuses ([None]). *)
Definition write_checked (what : string) (f : DB → option DB) : MI () :=
  remote (λ w, match f (db w) with
               | Some d => (Ok tt, IWorld d (effects w) (ifaults w))
               | None => (Throw what, w)
               end).
Definition emit (e : Effect) : MI () :=
  remote (λ w, (Ok tt, IWorld (db w) (effects w ++ [e])%list (ifaults w))).
(** A local, infallible notification. *)
Definition note (e : Effect) : MI () := λ w, (Ok tt, IWorld (db w) (effects w ++ [e])%list (ifaults w)).

(** [prisma.$transaction]: a rejection, of the callback or of the commit,
    restores the database; publications are not undone. *)
Definition transaction (m : MI ()) : MI () :=
  λ w, match (do* m in read_db (λ _, tt)) w with
       | (Ok _, w') => (Ok tt, w')
       | (Throw e, w') => (Throw e, IWorld (db w) (effects w') (ifaults w'))
       end.

(** An integer column or key given a number that is not an integer: the client
    rejects the command. *)
Definition int_arg (n : num) : MI Z :=
  match n with Some z => ret z | None => throw "invalid integer argument" end.

(** A property read of the payload. *)
Definition prop (data : native) (k : string) : MI native :=
  match field data k with Some v => ret v | None => throw "cannot read properties of null" end.

(** ** Cursor *)

(** Models [ensureCursor] (backend/src/indexer/indexer.service.ts:238-253). *)
Definition ensureCursor (network : string) : MI Z :=
  let* row := read_db (λ d, tget network (ledgerCursor d)) in
  match row with
  | Some l => ret l
  | None =>
      let* legacy := read_db indexerState in
      let initial := default 0 legacy in
      do* write_checked "unique constraint" (λ d,
        match tget network (ledgerCursor d) with
        | Some _ => None
        | None => Some (set_cursor (tput network initial) d)
        end) in
      ret initial
  end.

(** Models [advanceCursorInTx] (backend/src/indexer/indexer.service.ts:259-267). *)
Definition advanceCursorInTx (network : string) (ledger : Z) : MI () :=
  let* cur := read_db (λ d, tget network (ledgerCursor d)) in
  let next := Z.max (default 0 cur) ledger in
  write_db (set_cursor (tput network next)).

(** Models [maybeEmitGapAlert] (backend/src/indexer/indexer.service.ts:269-322). *)
Definition maybeEmitGapAlert (gapCooldownMs now : Z) (network : string)
    (gapSize lastProcessedLedger latestLedger : Z) : MI () :=
  let* dedup := read_db (λ d, tget network (gapAlerts d)) in
  let suppressed := match dedup with
                    | Some row => now - ga_lastFiredAt row <? gapCooldownMs
                    | None => false
                    end in
  if suppressed then ret tt
  else
    do* note (GapAlert network gapSize) in
    write_db (set_gaps (tput network {| ga_lastFiredAt := now; ga_lastGapSize := gapSize;
      ga_lastProcessedLedger := lastProcessedLedger; ga_latestLedger := latestLedger |})).

(** ** Events and handlers *)

(** Addresses are decoded by the Stellar SDK. *)
Context (tryNormalizeAddress : string → option string).
(** Contract values and their decoding, by the Stellar SDK. *)
Context {ScVal : Type} (scValToNative : ScVal → result string native) (toXDR : ScVal → string).

Record SorobanEvent := {
  ev_txHash : string;
  ev_contractId : option string;
  ev_ledger : Z;
  ev_ledgerClosedAt : Z;
  ev_topic : list ScVal;
  ev_value : ScVal;
}.

Definition holder_of (v : native) : string :=
  default (getStringValue v) (tryNormalizeAddress (getStringValue v)).

(** Models [handlePolicyInitiated] (backend/src/indexer/indexer.service.ts:448-488). *)
Definition handlePolicyInitiated (data : native) (event : SorobanEvent) : MI () :=
  let* h := prop data "holder" in
  let holder := holder_of h in
  let* pid := prop data "policy_id" in
  let* asset := prop data "asset" in
  let assetContractId := if present asset then Some (getStringValue asset) else None in
  let* policyType := prop data "policy_type" in
  let* region := prop data "region" in
  let* coverage := prop data "coverage" in
  let* premium := prop data "premium" in
  let* start_ := prop data "start_ledger" in
  let* end_ := prop data "end_ledger" in
  let* policyId := int_arg (getNumberValue pid) in
  let* startLedger := int_arg (getNumberValue start_) in
  let* endLedger := int_arg (getNumberValue end_) in
  let id := holder +:+ ":" +:+ show_Z policyId in
  do* write_db (set_policies (λ t,
    match tget id t with
    | None => tput id {| pr_policyId := policyId; pr_holderAddress := holder;
        pr_policyType := getStringValue policyType; pr_region := getStringValue region;
        pr_coverageAmount := getStringValue coverage; pr_premium := getStringValue premium;
        pr_isActive := true; pr_startLedger := startLedger; pr_endLedger := endLedger;
        pr_assetContractId := assetContractId; pr_txHash := ev_txHash event |} t
    | Some p => tput id {| pr_policyId := pr_policyId p; pr_holderAddress := pr_holderAddress p;
        pr_policyType := pr_policyType p; pr_region := pr_region p;
        pr_coverageAmount := pr_coverageAmount p; pr_premium := pr_premium p;
        pr_isActive := true; pr_startLedger := pr_startLedger p; pr_endLedger := endLedger;
        pr_assetContractId := match assetContractId with Some a => Some a | None => pr_assetContractId p end;
        pr_txHash := pr_txHash p |} t
    end)) in
  note InvalidatePolicyAnalytics.

(** Models [handlePolicyRenewed] (backend/src/indexer/indexer.service.ts:490-501). *)
Definition handlePolicyRenewed (data : native) : MI () :=
  let* h := prop data "holder" in
  let* pid := prop data "policy_id" in
  let* new_end := prop data "new_end_ledger" in
  let id := holder_of h +:+ ":" +:+ match getNumberValue pid with Some z => show_Z z | None => "NaN" end in
  let* endLedger := int_arg (getNumberValue new_end) in
  do* write_checked "record not found" (λ d,
    match tget id (policies d) with
    | None => None
    | Some p => Some (set_policies (tput id {| pr_policyId := pr_policyId p;
        pr_holderAddress := pr_holderAddress p; pr_policyType := pr_policyType p; pr_region := pr_region p;
        pr_coverageAmount := pr_coverageAmount p; pr_premium := pr_premium p; pr_isActive := pr_isActive p;
        pr_startLedger := pr_startLedger p; pr_endLedger := endLedger;
        pr_assetContractId := pr_assetContractId p; pr_txHash := pr_txHash p |}) d)
    end) in
  note InvalidatePolicyAnalytics.

(** A claim row needs its policy (foreign key).
    Models [handleClaimFiled] (backend/src/indexer/indexer.service.ts:507-555). *)
Definition handleClaimFiled (data : native) (event : SorobanEvent) : MI () :=
  let* cid := prop data "claim_id" in
  let* claimant := prop data "claimant" in
  let* pid := prop data "policy_id" in
  let* amount := prop data "amount" in
  let* asset := prop data "asset" in
  let* details := prop data "details" in
  let* urls := prop data "image_urls" in
  let policyDbId := getStringValue claimant +:+ ":" +:+
                    match getNumberValue pid with Some z => show_Z z | None => "NaN" end in
  let* claimId := int_arg (getNumberValue cid) in
  do* write_checked "foreign key constraint" (λ d,
    match tget claimId (claims_ d) with
    | None =>
        match tget policyDbId (policies d) with
        | None => None
        | Some _ => Some (set_claims (tput claimId {| cr_policyId := policyDbId;
            cr_creatorAddress := getStringValue claimant; cr_amount := getStringValue amount;
            cr_asset := if present asset then Some (getStringValue asset) else None;
            cr_description := getStringValue details; cr_imageUrls := getStringArray urls;
            cr_status := PENDING; cr_isFinalized := false; cr_approveVotes := 0; cr_rejectVotes := 0;
            cr_paidAt := None; cr_createdAtLedger := ev_ledger event;
            cr_updatedAtLedger := ev_ledger event; cr_txHash := ev_txHash event;
            cr_appealsCount := 0; cr_deletedAt := None |}) d)
        end
    | Some c => Some (set_claims (tput claimId {| cr_policyId := cr_policyId c;
        cr_creatorAddress := cr_creatorAddress c; cr_amount := getStringValue amount;
        cr_asset := cr_asset c; cr_description := getStringValue details;
        cr_imageUrls := getStringArray urls; cr_status := cr_status c; cr_isFinalized := cr_isFinalized c;
        cr_approveVotes := cr_approveVotes c; cr_rejectVotes := cr_rejectVotes c; cr_paidAt := cr_paidAt c;
        cr_createdAtLedger := cr_createdAtLedger c; cr_updatedAtLedger := cr_updatedAtLedger c;
        cr_txHash := cr_txHash c; cr_appealsCount := cr_appealsCount c; cr_deletedAt := cr_deletedAt c |}) d)
    end) in
  do* emit (PublishClaim claimId "PENDING" (ev_ledger event)) in
  do* emit (InvalidateClaimSummary claimId) in
  emit (DeliverClaimFiled claimId policyDbId ("claim_filed:" +:+ ev_txHash event)).

(** Column updates of a claim row. *)
Definition claim_votes (a r : Z) (c : ClaimRow) : ClaimRow := {| cr_policyId := cr_policyId c;
  cr_creatorAddress := cr_creatorAddress c; cr_amount := cr_amount c; cr_asset := cr_asset c;
  cr_description := cr_description c; cr_imageUrls := cr_imageUrls c; cr_status := cr_status c;
  cr_isFinalized := cr_isFinalized c; cr_approveVotes := a; cr_rejectVotes := r; cr_paidAt := cr_paidAt c;
  cr_createdAtLedger := cr_createdAtLedger c; cr_updatedAtLedger := cr_updatedAtLedger c;
  cr_txHash := cr_txHash c; cr_appealsCount := cr_appealsCount c; cr_deletedAt := cr_deletedAt c |}.
Definition claim_progress (st : ClaimStatus) (final : bool) (paidAt : option Z) (appeals ledger : Z)
    (c : ClaimRow) : ClaimRow := {| cr_policyId := cr_policyId c;
  cr_creatorAddress := cr_creatorAddress c; cr_amount := cr_amount c; cr_asset := cr_asset c;
  cr_description := cr_description c; cr_imageUrls := cr_imageUrls c; cr_status := st;
  cr_isFinalized := final; cr_approveVotes := cr_approveVotes c; cr_rejectVotes := cr_rejectVotes c;
  cr_paidAt := paidAt; cr_createdAtLedger := cr_createdAtLedger c; cr_updatedAtLedger := ledger;
  cr_txHash := cr_txHash c; cr_appealsCount := appeals; cr_deletedAt := cr_deletedAt c |}.

(** [claim.updateMany({ where: { id, deletedAt: null } })] *)
Definition update_live_claim (id : num) (f : ClaimRow → ClaimRow) : MI () :=
  let* z := int_arg id in
  write_db (set_claims (λ t,
    match tget z t with
    | Some c => match cr_deletedAt c with None => tput z (f c) t | Some _ => t end
    | None => t
    end)).

(** Models [handleVoteCast] (backend/src/indexer/indexer.service.ts:557-632). *)
Definition handleVoteCast (topics : list native) (data : native) (event : SorobanEvent)
    (network : string) : MI () :=
  let claim_no := match topics !! 1%nat with Some t => js_Number t | None => None end in
  let voter := opt_toString (topics !! 2%nat) in
  let* vote := prop data "vote" in
  let option_ := getStringValue (match vote with NNull | NUndef => data | v => v end) in
  match truthy voter with
  | None => ret tt
  | Some voter =>
      let* claimId := int_arg claim_no in
      let* existingVote := read_db (λ d, tget (claimId, voter) (votes d)) in
      let v := if bool_decide (option_ = "Approve") then VApprove else VReject in
      do* write_checked "foreign key constraint" (λ d,
        match tget (claimId, voter) (votes d) with
        | Some row => Some (set_votes (tput (claimId, voter)
            {| vr_vote := v; vr_votedAtLedger := vr_votedAtLedger row; vr_txHash := vr_txHash row |}) d)
        | None =>
            match tget claimId (claims_ d) with
            | None => None
            | Some _ => Some (set_votes (tput (claimId, voter)
                {| vr_vote := v; vr_votedAtLedger := ev_ledger event; vr_txHash := ev_txHash event |}) d)
            end
        end) in
      do* (match existingVote with Some _ => note (DuplicateEvent "vote") | None => ret tt end) in
      let* av := prop data "approve_votes" in
      let* rv := prop data "reject_votes" in
      let* a := int_arg (getNumberValue av) in
      let* r := int_arg (getNumberValue rv) in
      do* write_checked "record not found" (λ d,
        match tget claimId (claims_ d) with
        | None => None
        | Some c => Some (set_claims (tput claimId (claim_votes a r c)) d)
        end) in
      do* emit (PublishClaim claimId "VOTING" (ev_ledger event)) in
      do* emit (InvalidateClaimSummary claimId) in
      do* emit (PublishVote claimId voter (bool_decide (option_ = "Approve")) (Some a) (Some r)) in
      emit (DeliverVoteCast claimId voter option_
              ("vote_cast:" +:+ ev_txHash event +:+ ":" +:+ show_Z claimId +:+ ":" +:+ voter))
  end.

(** Models [handleClaimProcessed] (backend/src/indexer/indexer.service.ts:634-653). *)
Definition handleClaimProcessed (data : native) (event : SorobanEvent) : MI () :=
  let* cid := prop data "claim_id" in
  let* claimId := int_arg (getNumberValue cid) in
  do* update_live_claim (Some claimId) (λ c,
    claim_progress PAID (cr_isFinalized c) (Some (ev_ledgerClosedAt event)) (cr_appealsCount c)
      (ev_ledger event) c) in
  do* emit (PublishClaim claimId "PAID" (ev_ledger event)) in
  emit (InvalidateClaimSummary claimId).

(** Models [handlePremiumTableUpdated] (backend/src/indexer/indexer.service.ts:660-663). *)
Definition handlePremiumTableUpdated : MI () := emit InvalidateQuotes.

(** Models [handleAssetAdded] (backend/src/indexer/indexer.service.ts:665-687). *)
Definition handleAssetAdded (data : native) (event : SorobanEvent) : MI () :=
  let* cid := prop data "contract_id" in
  let contractId := getStringValue cid in
  let* sym := prop data "symbol" in
  let symbol := match sym with NNull | NUndef => None | v => Some (getStringValue v) end in
  let* dec := prop data "decimals" in
  let* decimals := int_arg (match dec with NNull | NUndef => Some 7 | v => getNumberValue v end) in
  do* write_db (set_assets (λ t,
    tput contractId {| ar_symbol := symbol; ar_decimals := decimals; ar_isAllowed := true;
      ar_addedAtLedger := match tget contractId t with
                          | Some row => ar_addedAtLedger row | None => ev_ledger event end |} t)) in
  emit InvalidateAssets.

(** Models [handleAssetRemoved] (backend/src/indexer/indexer.service.ts:689-698). *)
Definition handleAssetRemoved (data : native) : MI () :=
  let* cid := prop data "contract_id" in
  let contractId := getStringValue cid in
  do* write_checked "record not found" (λ d,
    match tget contractId (allowedAssets d) with
    | None => None
    | Some row => Some (set_assets (tput contractId {| ar_symbol := ar_symbol row;
        ar_decimals := ar_decimals row; ar_isAllowed := false;
        ar_addedAtLedger := ar_addedAtLedger row |}) d)
    end) in
  emit InvalidateAssets.

(** The body declares [existing] twice; the second declaration is read here as
    a variable of its own, [existing2].
    Models [handleAppealOpened] (backend/src/indexer/indexer.service.ts:706-776). *)
Definition handleAppealOpened (data : native) (event : SorobanEvent) (topics : list native) : MI () :=
  let* cid := (match resolveClaimId data topics with
               | None => throw "cannot read properties of null" | Some n => ret n end) in
  match cid with
  | None => ret tt
  | Some claimId =>
      let* existing := read_db (λ d,
        match tget claimId (claims_ d) with
        | Some c => match cr_deletedAt c with None => Some c | Some _ => None end
        | None => None
        end) in
      match existing with
      | None => ret tt
      | Some row =>
          let alreadyCounted := bool_decide (cr_status row = UNDER_APPEAL) && (0 <? cr_appealsCount row) in
          let* existing2 := read_db (λ d, tget claimId (claims_ d)) in
          let nextAppealsCount := Z.max (match existing2 with Some c => cr_appealsCount c | None => 0 end) 1 in
          do* update_live_claim (Some claimId) (λ c,
            claim_progress UNDER_APPEAL (cr_isFinalized c) (cr_paidAt c)
              (if alreadyCounted then cr_appealsCount c else cr_appealsCount c + 1) (ev_ledger event) c) in
          let* existingSnapshot := read_db (λ d,
            length (default [] (tget (claimId, nextAppealsCount) (appealSnapshots d)))) in
          do* (if (existingSnapshot =? 0)%nat then
                 let* voters := read_db registeredVoters in
                 match voters with
                 | [] => ret tt
                 | _ => write_db (set_snapshots (λ t,
                          let old := default [] (tget (claimId, nextAppealsCount) t) in
                          tput (claimId, nextAppealsCount)
                            (create_many old voters) t))
                 end
               else ret tt) in
          do* emit (PublishClaim claimId "UNDER_APPEAL" (ev_ledger event)) in
          emit (InvalidateClaimSummary claimId)
      end
  end.

Definition outcome_status (o : AppealOutcome) : ClaimStatus :=
  match o with APPEAL_APPROVED_ => APPEAL_APPROVED | APPEAL_REJECTED_ => APPEAL_REJECTED end.

(** The body reads [alreadyTerminal], which is not declared anywhere: the read
    throws, and nothing after it runs.
    Models [handleAppealResolved] (backend/src/indexer/indexer.service.ts:806-849). *)
Definition handleAppealResolved (data : native) (event : SorobanEvent) (outcome : AppealOutcome) : MI () :=
  let* cid := prop data "claim_id" in
  do* update_live_claim (getNumberValue cid) (λ c,
    claim_progress (outcome_status outcome) true (cr_paidAt c) (cr_appealsCount c) (ev_ledger event) c) in
  throw "alreadyTerminal is not defined".

(** Models [handleAppealClaimStatusChanged] (backend/src/indexer/indexer.service.ts:782-800). *)
Definition handleAppealClaimStatusChanged (data : native) (event : SorobanEvent) (topics : list native)
  : MI () :=
  let* ns := prop data "new_status" in
  let newStatus := getStringValue ns in
  if bool_decide (normalize_label newStatus = "underappeal") then handleAppealOpened data event topics
  else match mapAppealOutcome (NStr newStatus) false with
       | Some outcome => handleAppealResolved data event outcome
       | None => ret tt
       end.

(** The handler of a registered event, by its first two topics. *)
Definition dispatch (network : string) (topics : list native) (dataNative : native) (event : SorobanEvent)
  : MI () :=
  let mainTopic := opt_toString (topics !! 0%nat) in
  let subTopic := opt_toString (topics !! 1%nat) in
  let main s := bool_decide (mainTopic = Some s) in
  let sub s := bool_decide (subTopic = Some s) in
  if main "PolicyInitiated" || (main "policy" && sub "initiated") then handlePolicyInitiated dataNative event
  else if main "policy" && sub "renewed" then handlePolicyRenewed dataNative
  else if (main "claim" && sub "filed") || (main "niffyinsure" && sub "claim_filed") then
    handleClaimFiled dataNative event
  else if main "vote" then handleVoteCast topics dataNative event network
  else if main "claim_pd" || (main "niffyinsure" && sub "claim_paid") then handleClaimProcessed dataNative event
  else if main "niffyins" && sub "tbl_upd" then handlePremiumTableUpdated
  else if main "asset" && sub "added" then handleAssetAdded dataNative event
  else if main "asset" && sub "removed" then handleAssetRemoved dataNative
  else if main "niffyinsure" && sub "allowed_asset_updated" then emit InvalidateAssets
  else if (main "appeal" && sub "filed") || (main "niffyinsure" && sub "appeal_filed") ||
          (main "niffyinsure" && sub "appeal_opened") then handleAppealOpened dataNative event topics
  else if (main "appeal" && sub "approved") || (main "niffyinsure" && sub "appeal_approved") then
    handleAppealResolved dataNative event APPEAL_APPROVED_
  else if (main "appeal" && sub "rejected") || (main "niffyinsure" && sub "appeal_rejected") then
    handleAppealResolved dataNative event APPEAL_REJECTED_
  else if main "niffyinsure" && sub "appeal_resolved" then
    let* o := prop dataNative "outcome" in
    match mapAppealOutcome o true with
    | Some mapped => handleAppealResolved dataNative event mapped
    | None => ret tt
    end
  else if main "niffyins" && sub "claim_status_changed" then
    handleAppealClaimStatusChanged dataNative event topics
  else ret tt.

Definition decode_topic (t : ScVal) : native :=
  match scValToNative t with Ok v => v | Throw _ => NStr (toXDR t) end.

(** What a first sight of the event records. *)
Definition raw_row (event : SorobanEvent) (topics : list native) (dataNative : native) : RawEventRow :=
  {| re_contractId := default "" (ev_contractId event); re_ledger := ev_ledger event;
     re_ledgerClosedAt := ev_ledgerClosedAt event;
     re_topics := [opt_toString (topics !! 0%nat); opt_toString (topics !! 1%nat);
                   opt_toString (topics !! 2%nat); opt_toString (topics !! 3%nat)];
     re_data := toInputJsonValue dataNative |}.

(** Models [processEventForNetwork] (backend/src/indexer/indexer.service.ts:324-446). *)
Definition processEventForNetwork (registry : list DeploymentEntry) (network : string)
    (event : SorobanEvent) (index : Z) : MI () :=
  let topics := decode_topic <$> ev_topic event in
  let contractId := default "" (ev_contractId event) in
  let key := (ev_txHash event, index) in
  match scValToNative (ev_value event) with
  | Throw e => throw e
  | Ok dataNative =>
      transaction
        (let* existing := read_db (λ d, tget key (rawEvents d)) in
         do* write_db (set_raw (λ t,
           match tget key t with
           | Some _ => t
           | None => tput key (raw_row event topics dataNative) t
           end)) in
         match existing with
         | Some _ =>
             do* note (DuplicateEvent "raw_event") in
             advanceCursorInTx network (ev_ledger event)
         | None =>
             match selectParser registry contractId (ev_ledger event) topics dataNative
                     (ev_ledger event) (ev_txHash event) with
             | inr _ => advanceCursorInTx network (ev_ledger event)
             | inl _ =>
                 do* dispatch network topics dataNative event in
                 advanceCursorInTx network (ev_ledger event)
             end
         end)
  end.

(** ** Batches *)

(** The answers of the RPC node during one batch. *)
Record Rpc := {
  getLatestLedger : result string Z;
  getEvents : Z → Z → result string (list SorobanEvent);
}.

Record IndexerConfig := {
  gapThresholdLedgers : Z;
  gapCooldownMs : Z;
  deployment : list DeploymentEntry;
}.

Definition BATCH_SIZE : Z := 50.

Definition lift_rpc {A} (r : result string A) : MI A := λ w, (r, w).

Fixpoint processEvents (registry : list DeploymentEntry) (network : string)
    (events : list SorobanEvent) (i : Z) : MI () :=
  match events with
  | [] => ret tt
  | e :: es => do* processEventForNetwork registry network e i in processEvents registry network es (i + 1)
  end.

Definition max_ledger (events : list SorobanEvent) : Z :=
  match events with [] => 0 | e :: es => foldl (λ m x, Z.max m (ev_ledger x)) (ev_ledger e) es end.

(** Returns [processed] and [lag].
    Models [processNextBatchForNetwork] (backend/src/indexer/indexer.service.ts:184-236). *)
Definition processNextBatchForNetwork (cfg : IndexerConfig) (now : Z) (rpc : Rpc) (network : string)
  : MI (Z * Z) :=
  let* lastProcessed := ensureCursor network in
  let* latestLedger := lift_rpc (getLatestLedger rpc) in
  let gap := latestLedger - lastProcessed in
  do* (if gapThresholdLedgers cfg <? gap then
         maybeEmitGapAlert (gapCooldownMs cfg) now network gap lastProcessed latestLedger
       else ret tt) in
  if latestLedger <=? lastProcessed then ret (0, 0)
  else
    let startLedger := lastProcessed + 1 in
    let* events := lift_rpc (getEvents rpc startLedger BATCH_SIZE) in
    match events with
    | [] =>
        let newLast := Z.min (startLedger + 100) latestLedger in
        do* transaction (advanceCursorInTx network newLast) in
        ret (0, latestLedger - newLast)
    | _ =>
        do* processEvents (deployment cfg) network events 0 in
        ret (Z.of_nat (length events), latestLedger - max_ledger events)
    end.

(** The loop with its safety cap: at most [cap + 1] batches; [rpcs] and [nows]
    give the node's answers and the clock of each batch.
    Models [processUntilCaughtUp] (backend/src/indexer/indexer.service.ts:156-178). *)
Fixpoint catch_up (fuel : nat) (cfg : IndexerConfig) (rpcs : nat → Rpc) (nows : nat → Z)
    (network : string) (batches : nat) (events : Z) : MI (nat * Z) :=
  match fuel with
  | O => ret (batches, events)
  | S fuel' =>
      let* r := processNextBatchForNetwork cfg (nows batches) (rpcs batches) network in
      if fst r =? 0 then ret (S batches, events + fst r)
      else catch_up fuel' cfg rpcs nows network (S batches) (events + fst r)
  end.
Definition SAFETY_CAP : nat := Z.to_nat 10000.
Definition processUntilCaughtUp cfg rpcs nows network : MI (nat * Z) :=
  catch_up (S SAFETY_CAP) cfg rpcs nows network 0 0.
End indexer.
