(* ===== verification/IndexerFacts.v ===== *)
(** * Correctness of the indexer

    What any run of the indexer preserves, whatever fails ([progress]), and what
    moves its cursor ([sourced]); failed batches leave the database and the log of
    a fully processed prefix ([logged]); replaying a batch changes nothing; the
    appeal and gap-alert handlers. *)

From stdpp Require Import base list strings sorting.
From Stdlib Require Import ZArith Lia Ascii.
From S2P Require Import Prelude JsText Native Indexer.

Open Scope string_scope.
Open Scope Z_scope.

(** ** Frame rules for database relations *)
Section frames.
Context `{Tables}.

(** A relation on databases as one on worlds. *)
Definition on_db (Q : relation DB) : relation iworld := λ w w', Q (db w) (db w').
#[global] Instance on_db_preorder Q : PreOrder Q → PreOrder (on_db Q).
Proof.
  intros [Hr Ht]. split.
  - intros w. apply Hr.
  - intros a b c Hab Hbc. eapply Ht; [exact Hab|exact Hbc].
Qed.

Lemma write_db_ok f w w' : write_db f w = (Ok tt, w') → db w' = f (db w).
Proof. destruct w as [d e [|[] fs]]; unfold write_db, remote; simpl; intros; by simplify_eq. Qed.

Lemma read_db_ok {A} (f : DB → A) w a w' : read_db f w = (Ok a, w') → a = f (db w) ∧ db w' = db w.
Proof. destruct w as [d e [|[] fs]]; unfold read_db, remote; simpl; intros; by simplify_eq. Qed.

Context (Q : relation DB) `{!PreOrder Q}.

Lemma keeps_read {A} (f : DB → A) : keeps (on_db Q) (read_db f).
Proof. intros [d e [|[] fs]]; unfold on_db; done. Qed.

Lemma keeps_write f : (∀ d, Q d (f d)) → keeps (on_db Q) (write_db f).
Proof. intros Hf [d e [|[] fs]]; unfold on_db; simpl; done. Qed.

Lemma keeps_write_checked what f :
  (∀ d d', f d = Some d' → Q d d') → keeps (on_db Q) (write_checked what f).
Proof.
  intros Hf [d e [|[] fs]]; unfold on_db, world_of, write_checked, remote; simpl; try done;
    destruct (f d) eqn:E; simpl; first [by apply Hf | reflexivity].
Qed.

Lemma keeps_emit x : keeps (on_db Q) (emit x).
Proof. intros [d e [|[] fs]]; unfold on_db; done. Qed.
Lemma keeps_note x : keeps (on_db Q) (note x).
Proof. intros [d e fs]; unfold on_db; done. Qed.
Lemma keeps_lift_rpc {A} (r : result string A) : keeps (on_db Q) (lift_rpc r).
Proof. intros [d e fs]; unfold on_db; done. Qed.
Lemma keeps_int_arg n : keeps (on_db Q) (int_arg n).
Proof. destruct n; by intros w. Qed.
Lemma keeps_prop data k : keeps (on_db Q) (prop data k).
Proof. unfold prop. destruct (field data k); by intros w. Qed.

Lemma keeps_transaction m : keeps (on_db Q) m → keeps (on_db Q) (transaction m).
Proof.
  intros Hm w. unfold world_of, transaction.
  pose proof (keeps_bind (on_db Q) m (λ _, read_db (λ _, tt)) Hm (λ _, keeps_read _) w) as Hb.
  unfold world_of in Hb. destruct (bind m _ w) as [[[]|e] w']; [exact Hb|].
  unfold on_db. simpl. reflexivity.
Qed.
End frames.

(** Walk an indexer method down to its database writes. *)
Ltac indexer_walk :=
  repeat first
    [ progress keeps_walk
    | apply keeps_read; apply _
    | apply keeps_emit; apply _
    | apply keeps_note; apply _
    | apply keeps_lift_rpc; apply _
    | apply keeps_int_arg; apply _
    | apply keeps_prop; apply _
    | apply keeps_transaction; [apply _|] ].

(** ** Nothing is lost *)
Section progress.
Context `{TablesLaws}.

(** A table keeps every key it has. *)
Definition grows {K V} `{!EqDecision K} (t t' : Tbl K V) : Prop :=
  ∀ k, is_Some (tget k t) → is_Some (tget k t').

#[global] Instance grows_preorder {K V} `{!EqDecision K} : PreOrder (grows (K:=K) (V:=V)).
Proof. split; [by intros t k|]. intros a b c Hab Hbc k Hk. auto. Qed.

Lemma grows_put {K V} `{!EqDecision K} (k : K) (v : V) t : grows t (tput k v t).
Proof. intros k' Hk'. rewrite tget_put. case_decide; eauto. Qed.

(** Cursors only move forward, recorded events never change, and no policy,
    claim, vote, asset or snapshot row disappears. *)
Record progress (d d' : DB) : Prop := {
  pg_cursor : ∀ n l, tget n (ledgerCursor d) = Some l →
                ∃ l', tget n (ledgerCursor d') = Some l' ∧ l ≤ l';
  pg_raw : ∀ k row, tget k (rawEvents d) = Some row → tget k (rawEvents d') = Some row;
  pg_policies : grows (policies d) (policies d');
  pg_claims : grows (claims_ d) (claims_ d');
  pg_votes : grows (votes d) (votes d');
  pg_assets : grows (allowedAssets d) (allowedAssets d');
  pg_snapshots : grows (appealSnapshots d) (appealSnapshots d');
}.

#[global] Instance progress_preorder : PreOrder progress.
Proof.
  split.
  - intros d. split; try reflexivity; [|by auto]. intros n l Hl. exists l. split; [done|lia].
  - intros a b c [] []. split; try (by etrans); [|by eauto].
    intros n l Hl. destruct (pg_cursor0 n l Hl) as (l1 & Hl1 & ?).
    destruct (pg_cursor1 n l1 Hl1) as (l2 & Hl2 & ?). exists l2. split; [done|lia].
Qed.

(** Writes to one table. *)
Lemma progress_gaps f d : progress d (set_gaps f d).
Proof. split; simpl; try reflexivity; [|by auto]. eauto with lia. Qed.
Lemma progress_policies f d : grows (policies d) (f (policies d)) → progress d (set_policies f d).
Proof. intros Hf. split; simpl; try reflexivity; [..|by auto|done]. eauto with lia. Qed.
Lemma progress_claims f d : grows (claims_ d) (f (claims_ d)) → progress d (set_claims f d).
Proof. intros Hf. split; simpl; try reflexivity; [..|by auto|done]. eauto with lia. Qed.
Lemma progress_votes f d : grows (votes d) (f (votes d)) → progress d (set_votes f d).
Proof. intros Hf. split; simpl; try reflexivity; [..|by auto|done]. eauto with lia. Qed.
Lemma progress_assets f d : grows (allowedAssets d) (f (allowedAssets d)) → progress d (set_assets f d).
Proof. intros Hf. split; simpl; try reflexivity; [..|by auto|done]. eauto with lia. Qed.
Lemma progress_snapshots f d : grows (appealSnapshots d) (f (appealSnapshots d)) → progress d (set_snapshots f d).
Proof. intros Hf. split; simpl; try reflexivity; [..|by auto|done]. eauto with lia. Qed.
Lemma progress_raw f d :
  (∀ k row, tget k (rawEvents d) = Some row → tget k (f (rawEvents d)) = Some row) → progress d (set_raw f d).
Proof. intros Hf. split; simpl; try reflexivity; [|done]. eauto with lia. Qed.

Ltac table_write :=
  first [ apply progress_gaps | apply progress_policies | apply progress_claims | apply progress_votes
        | apply progress_assets | apply progress_snapshots ];
  repeat case_match; try apply grows_put; reflexivity.

(** Discharge the writes [indexer_walk] leaves. *)
Ltac progress_writes :=
  first [ apply keeps_write; [apply _|intros ?; table_write]
        | apply keeps_write_checked; [apply _|];
          let E := fresh "E" in
          intros ? ? E; repeat case_match; simplify_eq; table_write ].

Lemma ensureCursor_progress n : keeps (on_db progress) (ensureCursor n).
Proof.
  unfold ensureCursor. indexer_walk. apply keeps_write_checked; [apply _|].
  intros d d'. case_test; intros; simplify_eq. split; simpl; try reflexivity; [|by auto].
  intros m l Hl. rewrite tget_put. case_decide; [congruence|eauto with lia].
Qed.

(** The cursor write: at least the old value, at least the ledger. *)
Lemma advanceCursor_cases n l w :
  (∃ w', advanceCursorInTx n l w = (Ok tt, w') ∧ effects w' = effects w ∧
     db w' = set_cursor (tput n (Z.max (default 0 (tget n (ledgerCursor (db w)))) l)) (db w)) ∨
  (∃ e w', advanceCursorInTx n l w = (Throw e, w') ∧ db w' = db w ∧ effects w' = effects w).
Proof.
  destruct w as [d e [|[] [|[] fs]]]; unfold advanceCursorInTx, bind, read_db, write_db, remote; simpl;
    first [left; by eexists|right; by eexists _, _].
Qed.

Lemma advanceCursor_progress n l : keeps (on_db progress) (advanceCursorInTx n l).
Proof.
  intros w. unfold world_of, on_db.
  destruct (advanceCursor_cases n l w) as [(w' & -> & _ & Hd)|(e & w' & -> & Hd & _)]; simpl; rewrite Hd;
    [|reflexivity].
  split; simpl; try reflexivity; [|by auto]. intros m k Hk. rewrite tget_put. case_decide as E; [|eauto with lia].
  subst m. rewrite Hk. simpl. eexists. split; [done|lia].
Qed.

Lemma maybeEmitGapAlert_progress c now n g l l' : keeps (on_db progress) (maybeEmitGapAlert c now n g l l').
Proof. unfold maybeEmitGapAlert. indexer_walk. progress_writes. Qed.

Context (tryNormalizeAddress : string → option string).
Context {ScVal : Type} (scValToNative : ScVal → result string native) (toXDR : ScVal → string).
Implicit Types (event : SorobanEvent (ScVal:=ScVal)).

Lemma update_live_claim_progress id f : keeps (on_db progress) (update_live_claim id f).
Proof. unfold update_live_claim. indexer_walk. progress_writes. Qed.

Lemma handleAppealOpened_progress data event topics :
  keeps (on_db progress) (handleAppealOpened data event topics).
Proof.
  unfold handleAppealOpened. indexer_walk; first [apply update_live_claim_progress|progress_writes].
Qed.

Lemma handleAppealResolved_progress data event o : keeps (on_db progress) (handleAppealResolved data event o).
Proof. unfold handleAppealResolved. indexer_walk; first [apply update_live_claim_progress|progress_writes]. Qed.

Lemma dispatch_progress n topics data event :
  keeps (on_db progress) (dispatch tryNormalizeAddress n topics data event).
Proof.
  unfold dispatch. cbv zeta.
  unfold handlePolicyInitiated, handlePolicyRenewed, handleClaimFiled, handleVoteCast,
    handleClaimProcessed, handlePremiumTableUpdated, handleAssetAdded, handleAssetRemoved,
    handleAppealClaimStatusChanged.
  repeat match goal with |- keeps _ (if ?b then _ else _) => destruct b end;
    indexer_walk;
    first [ apply handleAppealOpened_progress | apply handleAppealResolved_progress
          | apply update_live_claim_progress | progress_writes ].
Qed.

Lemma processEvent_progress registry n event i :
  keeps (on_db progress) (processEventForNetwork tryNormalizeAddress scValToNative toXDR registry n event i).
Proof.
  unfold processEventForNetwork. indexer_walk; try apply advanceCursor_progress; try apply dispatch_progress.
  apply keeps_write; [apply _|]. intros d. apply progress_raw. intros k row Hk.
  case_match; [done|]. rewrite tget_put_ne; [done|]. congruence.
Qed.

Lemma processEvents_progress registry n events i :
  keeps (on_db progress) (processEvents tryNormalizeAddress scValToNative toXDR registry n events i).
Proof.
  revert i. induction events as [|e es IH]; intros i; cbn [processEvents]; indexer_walk;
    [apply processEvent_progress|apply IH].
Qed.

Lemma processNextBatch_progress cfg now rpc n :
  keeps (on_db progress) (processNextBatchForNetwork tryNormalizeAddress scValToNative toXDR cfg now rpc n).
Proof.
  unfold processNextBatchForNetwork. indexer_walk;
    try apply ensureCursor_progress; try apply maybeEmitGapAlert_progress;
    try apply advanceCursor_progress; apply processEvents_progress.
Qed.

Lemma catch_up_progress fuel cfg rpcs nows n b ev :
  keeps (on_db progress) (catch_up tryNormalizeAddress scValToNative toXDR fuel cfg rpcs nows n b ev).
Proof.
  revert b ev. induction fuel as [|fuel IH]; intros b ev; cbn [catch_up]; indexer_walk;
    [apply processNextBatch_progress|apply IH].
Qed.
End progress.

(** ** Crash consistency *)
Section crash.
Context `{TablesLaws}.




Context (tryNormalizeAddress : string → option string).
Context {ScVal : Type} (scValToNative : ScVal → result string native) (toXDR : ScVal → string).
Implicit Types (event : SorobanEvent (ScVal:=ScVal)).
Abbreviation processEvent := (processEventForNetwork tryNormalizeAddress scValToNative toXDR).
Abbreviation process := (processEvents tryNormalizeAddress scValToNative toXDR).





(** A rejected event leaves the database as it was. *)
Lemma processEvent_atomic registry n event i w e w' :
  processEvent registry n event i w = (Throw e, w') → db w' = db w.
Proof.
  unfold processEventForNetwork, throw. case_match; [|by intros; simplify_eq].
  unfold transaction. destruct (bind _ _ w) as [[?|?] ?]; by intros [= <- <-].
Qed.

(** The cursor, the legacy cursor and the raw event table: what no handler may write. *)
Definition same_log (d d' : DB) : Prop :=
  ledgerCursor d' = ledgerCursor d ∧ rawEvents d' = rawEvents d ∧ indexerState d' = indexerState d.
#[global] Instance same_log_preorder : PreOrder same_log.
Proof. split; [done|]. intros a b c (? & ? & ?) (? & ? & ?). split_and!; congruence. Qed.

Ltac log_writes :=
  first [ by apply keeps_write; [apply _|]
        | apply keeps_write_checked; [apply _|];
          let E := fresh "E" in intros ? ? E; repeat case_match; by simplify_eq ].

Lemma update_live_claim_log id f : keeps (on_db same_log) (update_live_claim id f).
Proof. unfold update_live_claim. indexer_walk. log_writes. Qed.
Lemma handleAppealOpened_log data event topics : keeps (on_db same_log) (handleAppealOpened data event topics).
Proof. unfold handleAppealOpened. indexer_walk; first [apply update_live_claim_log|log_writes]. Qed.
Lemma handleAppealResolved_log data event o : keeps (on_db same_log) (handleAppealResolved data event o).
Proof. unfold handleAppealResolved. indexer_walk; first [apply update_live_claim_log|log_writes]. Qed.

(** No handler touches the cursor or the raw events. *)
Lemma dispatch_log n topics data event : keeps (on_db same_log) (dispatch tryNormalizeAddress n topics data event).
Proof.
  unfold dispatch. cbv zeta.
  unfold handlePolicyInitiated, handlePolicyRenewed, handleClaimFiled, handleVoteCast,
    handleClaimProcessed, handlePremiumTableUpdated, handleAssetAdded, handleAssetRemoved,
    handleAppealClaimStatusChanged.
  repeat match goal with |- keeps _ (if ?b then _ else _) => destruct b end;
    indexer_walk;
    first [ apply handleAppealOpened_log | apply handleAppealResolved_log
          | apply update_live_claim_log | log_writes ].
Qed.

(** The row an event is recorded as. *)
Definition row_of event (data : native) : RawEventRow :=
  raw_row event (decode_topic scValToNative toXDR <$> ev_topic event) data.


(** What an event that is processed does to the cursor and to the raw events. *)
Lemma processEvent_effect registry n event i w w' :
  processEvent registry n event i w = (Ok tt, w') →
  ∃ data, scValToNative (ev_value event) = Ok data ∧
    ledgerCursor (db w') =
      tput n (Z.max (default 0 (tget n (ledgerCursor (db w)))) (ev_ledger event)) (ledgerCursor (db w)) ∧
    rawEvents (db w') = match tget (ev_txHash event, i) (rawEvents (db w)) with
                        | Some _ => rawEvents (db w)
                        | None => tput (ev_txHash event, i) (row_of event data) (rawEvents (db w))
                        end ∧
    indexerState (db w') = indexerState (db w).
Proof.
  unfold processEventForNetwork, row_of. destruct (scValToNative (ev_value event)) as [data|e]; [|done].
  intros Hrun. exists data. split; [done|]. revert Hrun. unfold transaction.
  set (topics := decode_topic scValToNative toXDR <$> ev_topic event).
  destruct (bind _ (λ _, read_db _) w) as [[[]|e] w1] eqn:Hrun; [|done]. intros [= <-].
  apply bind_ok_inv in Hrun as ([] & w2 & Hbody & [_ Hd1]%read_db_ok).
  apply bind_ok_inv in Hbody as (ex & w3 & [-> Hd3]%read_db_ok & Hbody).
  apply bind_ok_inv in Hbody as ([] & w4 & Hd4%write_db_ok & Hbody).
  assert (Hend : ∃ w5, same_log (db w4) (db w5) ∧ advanceCursorInTx n (ev_ledger event) w5 = (Ok tt, w2)).
  { destruct (tget (ev_txHash event, i) (rawEvents (db w))).
    - apply bind_ok_inv in Hbody as ([] & w5 & Hn & Hadv). exists w5. split; [|done].
      unfold note in Hn. simplify_eq. reflexivity.
    - case_match; [|by exists w4]. apply bind_ok_inv in Hbody as ([] & w5 & Hdis & Hadv).
      exists w5. split; [|done].
      pose proof (dispatch_log n topics data event w4) as Hp.
      unfold on_db, world_of in Hp. fold topics in Hdis. by rewrite Hdis in Hp. }
  destruct Hend as (w5 & (Hc5 & Hr5 & Hs5) & Hadv).
  destruct (advanceCursor_cases n (ev_ledger event) w5) as [(w6 & Hw6 & _ & Hd)|(e & w6 & Hw6 & _)]; [|congruence].
  assert (w6 = w2) as -> by congruence. rewrite Hd1, Hd. simpl.
  rewrite Hc5, Hr5, Hs5, Hd4. simpl. by rewrite Hd3.
Qed.




End crash.

(** ** Replays *)
Section replay.
Context `{TablesLaws}.
Context (tryNormalizeAddress : string → option string).
Context {ScVal : Type} (scValToNative : ScVal → result string native) (toXDR : ScVal → string).
Implicit Types (event : SorobanEvent (ScVal:=ScVal)).
Abbreviation processEvent := (processEventForNetwork tryNormalizeAddress scValToNative toXDR).
Abbreviation process := (processEvents tryNormalizeAddress scValToNative toXDR).

(** Same content: every cursor reads the same and the other tables are equal. *)
Record same_content (d d' : DB) : Prop := {
  sc_cursor : ∀ n, tget n (ledgerCursor d') = tget n (ledgerCursor d);
  sc_state : indexerState d' = indexerState d;
  sc_gaps : gapAlerts d' = gapAlerts d;
  sc_raw : rawEvents d' = rawEvents d;
  sc_policies : policies d' = policies d;
  sc_claims : claims_ d' = claims_ d;
  sc_votes : votes d' = votes d;
  sc_assets : allowedAssets d' = allowedAssets d;
  sc_voters : registeredVoters d' = registeredVoters d;
  sc_snapshots : appealSnapshots d' = appealSnapshots d;
}.

#[global] Instance same_content_preorder : PreOrder same_content.
Proof. split; [done|]. intros a b c [] []. split; intros; congruence. Qed.

(** The event is recorded under this index and the cursor has reached its ledger. *)
Definition recorded (n : string) (d : DB) event (i : Z) : Prop :=
  is_ok (scValToNative (ev_value event)) = true ∧
  is_Some (tget (ev_txHash event, i) (rawEvents d)) ∧
  ∃ c, tget n (ledgerCursor d) = Some c ∧ ev_ledger event ≤ c.

Lemma recorded_progress n d d' event i : progress d d' → recorded n d event i → recorded n d' event i.
Proof.
  intros [Hc Hr _ _ _ _ _] (Hok & [row Hrow] & c & Hn & Hle). split_and!; [done|eauto|].
  destruct (Hc n c Hn) as (c' & Hc' & ?). exists c'. split; [done|lia].
Qed.

Lemma advanceCursor_ok n l w w' :
  advanceCursorInTx n l w = (Ok tt, w') →
  rawEvents (db w') = rawEvents (db w) ∧ ∃ c, tget n (ledgerCursor (db w')) = Some c ∧ l ≤ c.
Proof.
  intros Hrun. destruct (advanceCursor_cases n l w) as [(w1 & Hw1 & _ & Hd)|(e & w1 & Hw1 & _)]; [|congruence].
  assert (w1 = w') as -> by congruence. rewrite Hd. simpl. split; [done|].
  eexists. split; [apply tget_put_eq|]. lia.
Qed.

Lemma processEvent_recorded registry n event i w w' :
  processEvent registry n event i w = (Ok tt, w') → recorded n (db w') event i.
Proof.
  unfold processEventForNetwork. destruct (scValToNative (ev_value event)) as [data|e] eqn:Hv; [|done].
  unfold transaction. set (topics := decode_topic scValToNative toXDR <$> ev_topic event).
  destruct (bind _ (λ _, read_db _) w) as [[[]|e] w1] eqn:Hrun; [|done]. intros [= <-].
  apply bind_ok_inv in Hrun as ([] & w2 & Hbody & [_ Hd1]%read_db_ok).
  apply bind_ok_inv in Hbody as (ex & w3 & [-> Hd3]%read_db_ok & Hbody).
  apply bind_ok_inv in Hbody as ([] & w4 & Hd4%write_db_ok & Hbody).
  assert (Hraw : is_Some (tget (ev_txHash event, i) (rawEvents (db w4)))).
  { rewrite Hd4. simpl. destruct (tget (ev_txHash event, i) (rawEvents (db w3))) eqn:E; [by rewrite E|].
    rewrite tget_put_eq. by eexists. }
  assert (Hend : ∃ w5, progress (db w4) (db w5) ∧ advanceCursorInTx n (ev_ledger event) w5 = (Ok tt, w2)).
  { destruct (tget (ev_txHash event, i) (rawEvents (db w))).
    - apply bind_ok_inv in Hbody as ([] & w5 & Hn & Hadv). exists w5. split; [|done].
      unfold note in Hn. simplify_eq. reflexivity.
    - case_match; [|by exists w4]. apply bind_ok_inv in Hbody as ([] & w5 & Hdis & Hadv).
      exists w5. split; [|done].
      pose proof (dispatch_progress tryNormalizeAddress n topics data event w4) as Hp.
      unfold on_db, world_of in Hp. fold topics in Hdis. by rewrite Hdis in Hp. }
  destruct Hend as (w5 & Hp & Hadv). apply advanceCursor_ok in Hadv as [Hr Hc].
  rewrite Hd1. unfold recorded. rewrite Hv. split; [done|]. split; [|done]. rewrite Hr.
  destruct Hraw as [row Hrow]. eexists. by apply (pg_raw _ _ Hp).
Qed.

Lemma process_recorded registry n events i w w' :
  process registry n events i w = (Ok tt, w') →
  ∀ j event, events !! j = Some event → recorded n (db w') event (i + Z.of_nat j).
Proof.
  revert i w. induction events as [|e es IH]; intros i w Hrun j event Hj; [done|].
  cbn [processEvents] in Hrun. apply bind_ok_inv in Hrun as ([] & w1 & H1 & H2).
  destruct j as [|j]; simpl in Hj.
  - simplify_eq. rewrite Z.add_0_r. apply processEvent_recorded in H1.
    eapply recorded_progress; [|exact H1].
    pose proof (processEvents_progress tryNormalizeAddress scValToNative toXDR registry n es (i + 1) w1) as Hp.
    unfold on_db, world_of in Hp. by rewrite H2 in Hp.
  - specialize (IH (i + 1) w1 H2 j event Hj). by replace (i + Z.of_nat (S j)) with (i + 1 + Z.of_nat j) by lia.
Qed.

(** An event that is already recorded. *)
Lemma duplicate_event registry n event i d ef :
  recorded n d event i →
  ∃ d', processEvent registry n event i (IWorld d ef []) =
          (Ok tt, IWorld d' (ef ++ [DuplicateEvent "raw_event"])%list []) ∧ same_content d d'.
Proof.
  intros (Hok & [row Hrow] & c & Hc & Hle). unfold processEventForNetwork.
  destruct (scValToNative (ev_value event)) as [data|e]; [|done].
  unfold transaction, advanceCursorInTx, bind, read_db, write_db, note, remote. simpl.
  rewrite Hrow. simpl. rewrite Hc. simpl.
  eexists. split; [done|]. split; simpl; try done.
  - intros m. rewrite tget_put. case_decide; [|done]. subst m. rewrite Hc. f_equal. lia.
  - by rewrite Hrow.
Qed.

Lemma duplicate_events registry n events i d ef :
  (∀ j event, events !! j = Some event → recorded n d event (i + Z.of_nat j)) →
  ∃ d', process registry n events i (IWorld d ef []) =
          (Ok tt, IWorld d' (ef ++ replicate (length events) (DuplicateEvent "raw_event"))%list []) ∧
        same_content d d'.
Proof.
  revert i d ef. induction events as [|e es IH]; intros i d ef Hrec.
  { exists d. simpl. rewrite app_nil_r. done. }
  destruct (duplicate_event registry n e i d ef) as (d1 & Hrun & Hs1).
  { specialize (Hrec 0%nat e eq_refl). by rewrite Z.add_0_r in Hrec. }
  destruct (IH (i + 1) d1 (ef ++ [DuplicateEvent "raw_event"])%list) as (d2 & Hrun2 & Hs2).
  { intros j event Hj. specialize (Hrec (S j) event Hj).
    replace (i + 1 + Z.of_nat j) with (i + Z.of_nat (S j)) by lia.
    unfold recorded in *. by rewrite (sc_cursor _ _ Hs1), (sc_raw _ _ Hs1). }
  exists d2. cbn [processEvents]. erewrite bind_ok by exact Hrun. rewrite Hrun2. simpl.
  rewrite <- app_assoc. split; [done|by etrans].
Qed.

(** C9: Replaying a batch is idempotent.  After a batch resolved, processing the same events again
    resolves too, leaves every table as it was and publishes nothing but one duplicate metric per event:
    no claim is filed, paid or counted twice. *)
Theorem replay_idempotent registry n events i (w w1 : iworld) :
  process registry n events i w = (Ok tt, w1) →
  ∃ d2, process registry n events i (IWorld (db w1) (effects w1) []) =
          (Ok tt, IWorld d2 (effects w1 ++ replicate (length events) (DuplicateEvent "raw_event"))%list []) ∧
    same_content (db w1) d2.
Proof. intros Hrun. apply duplicate_events. by eapply process_recorded. Qed.
End replay.

(** ** What moves the cursor *)
Section account.
Context `{TablesLaws}.
Context (tryNormalizeAddress : string → option string).
Context {ScVal : Type} (scValToNative : ScVal → result string native) (toXDR : ScVal → string).
Implicit Types (event e : SorobanEvent (ScVal:=ScVal)) (rpc : Rpc (ScVal:=ScVal)).
Abbreviation processEvent := (processEventForNetwork tryNormalizeAddress scValToNative toXDR).
Abbreviation process := (processEvents tryNormalizeAddress scValToNative toXDR).
Abbreviation batch := (processNextBatchForNetwork tryNormalizeAddress scValToNative toXDR).
Abbreviation row_of := (row_of scValToNative toXDR).

(** Where the network's cursor starts. *)
Definition start_of (n : string) (d : DB) : Z :=
  default (Z.max 0 (default 0 (indexerState d))) (tget n (ledgerCursor d)).

(** How [d'] comes from [d], given the events the node [served] with their index in its answer, and
    the ledgers up to which it answered that there are none ([quiet]). *)
Record sourced (served : SorobanEvent (ScVal:=ScVal) → Z → Prop) (quiet : Z → Prop) (n : string) (d d' : DB) : Prop := {
  so_progress : progress d d';
  so_legacy : indexerState d' = indexerState d;
  so_others : ∀ m, m ≠ n → tget m (ledgerCursor d') = tget m (ledgerCursor d);
  so_rows : ∀ key row, tget key (rawEvents d') = Some row →
    tget key (rawEvents d) = Some row ∨
    ∃ e j data, served e j ∧ key = (ev_txHash e, j) ∧ scValToNative (ev_value e) = Ok data ∧ row = row_of e data;
  so_cursor : ∀ c, tget n (ledgerCursor d') = Some c →
    c ≤ start_of n d ∨ quiet c ∨
    ∃ e j, served e j ∧ c = ev_ledger e ∧ is_Some (tget (ev_txHash e, j) (rawEvents d'));
}.

#[global] Instance sourced_preorder served quiet n : PreOrder (sourced served quiet n).
Proof.
  split.
  - intros d. split; [reflexivity|done|done|by left|]. intros c Hc. left. unfold start_of. by rewrite Hc.
  - intros a b c [] []. split; [by etrans|congruence|intros m Hm; by rewrite so_others1, so_others0|..].
    + intros key row Hrow. destruct (so_rows1 key row Hrow) as [Hb|]; eauto.
    + intros l Hl. destruct (so_cursor1 l Hl) as [Hle|]; [|by right].
      unfold start_of in Hle. destruct (tget n (ledgerCursor b)) as [lb|] eqn:Hb; simpl in Hle.
      * destruct (pg_cursor _ _ so_progress1 n lb Hb) as (l' & Hl' & ?).
        assert (l' = l) as -> by congruence. assert (lb = l) as -> by lia.
        destruct (so_cursor0 l eq_refl) as [|[|(e & j & He & Hc & [row Hrow])]]; [by left|by right; left|].
        right; right. exists e, j. split_and!; [done..|]. eexists. by eapply (pg_raw _ _ so_progress1).
      * left. unfold start_of. rewrite so_legacy0 in Hle.
        destruct (tget n (ledgerCursor a)) as [la|] eqn:Ha; [|done].
        destruct (pg_cursor _ _ so_progress0 n la Ha) as (? & ? & _). congruence.
Qed.

Lemma sourced_weaken (served served' : SorobanEvent → Z → Prop) (quiet quiet' : Z → Prop) n d d' :
  (∀ e j, served e j → served' e j) → (∀ c, quiet c → quiet' c) →
  sourced served quiet n d d' → sourced served' quiet' n d d'.
Proof.
  intros Hs Hq []. split; [done..| |].
  - intros key row Hrow. destruct (so_rows0 key row Hrow) as [|(e & j & data & ? & ?)]; [by left|].
    right. exists e, j, data. auto.
  - intros c Hc. destruct (so_cursor0 c Hc) as [|[|(e & j & ? & ?)]]; [by left|by right; left; auto|].
    right; right. exists e, j. auto.
Qed.

(** A step that leaves cursors and raw events alone. *)
Lemma sourced_log served quiet n d d' : progress d d' → same_log d d' → sourced served quiet n d d'.
Proof.
  intros Hp (Hc & Hr & Hs). split; [done|done|by intros; rewrite Hc|rewrite Hr; by left|].
  intros c. rewrite Hc. intros Hl. left. unfold start_of. by rewrite Hl.
Qed.

Section steps.
Context (served : SorobanEvent (ScVal:=ScVal) → Z → Prop) (quiet : Z → Prop) (n : string).

Lemma advance_quiet l : quiet l → keeps (on_db (sourced served quiet n)) (advanceCursorInTx n l).
Proof.
  intros Hq w. pose proof (advanceCursor_progress n l w) as Hp. unfold on_db, world_of in *.
  destruct (advanceCursor_cases n l w) as [(w' & Hw & _ & Hd)|(e & w' & Hw & Hd & _)];
    rewrite Hw in *; simpl in *; rewrite Hd in *; [|reflexivity].
  split; simpl; [done|done|by intros; rewrite tget_put_ne|by left|].
  intros c. rewrite tget_put_eq. intros [= <-]. unfold start_of.
  destruct (tget n (ledgerCursor (db w))) as [o|]; simpl.
  - destruct (Z.max_spec o l) as [[_ ->]|[_ ->]]; [by right; left|by left].
  - destruct (Z.max_spec 0 l) as [[_ ->]|[_ ->]]; [by right; left|]. left. lia.
Qed.

Lemma processEvent_sourced registry event i :
  served event i → keeps (on_db (sourced served quiet n)) (processEvent registry n event i).
Proof.
  intros Hsv w.
  pose proof (processEvent_progress tryNormalizeAddress scValToNative toXDR registry n event i w) as Hp.
  unfold on_db, world_of in *.
  destruct (processEvent registry n event i w) as [[[]|x] w'] eqn:Hrun; simpl in *;
    [|apply processEvent_atomic in Hrun as ->; reflexivity].
  apply processEvent_effect in Hrun as (data & Hv & Hc & Hr & Hs).
  assert (Hrow : is_Some (tget (ev_txHash event, i) (rawEvents (db w')))).
  { rewrite Hr. case_match; [eauto|]. rewrite tget_put_eq. eauto. }
  split; [done|done|by intros; rewrite Hc, tget_put_ne| |].
  - intros key row. rewrite Hr. case_match; [by left|].
    rewrite tget_put. case_decide; [|by left]. intros [= <-]. right. exists event, i, data. auto.
  - intros c. rewrite Hc, tget_put_eq. intros [= <-]. unfold start_of.
    destruct (Z.max_spec (default 0 (tget n (ledgerCursor (db w)))) (ev_ledger event)) as [[_ ->]|[_ ->]].
    + right; right. exists event, i. auto.
    + left. destruct (tget n (ledgerCursor (db w))); simpl; lia.
Qed.

Lemma processEvents_sourced registry events i :
  (∀ j e, events !! j = Some e → served e (i + Z.of_nat j)) →
  keeps (on_db (sourced served quiet n)) (process registry n events i).
Proof.
  revert i. induction events as [|e es IH]; intros i Hsv; cbn [processEvents]; [apply keeps_ret; apply _|].
  apply keeps_bind; [apply _| |intros _].
  - apply processEvent_sourced. specialize (Hsv 0%nat e eq_refl). by rewrite Z.add_0_r in Hsv.
  - apply IH. intros j x Hj. specialize (Hsv (S j) x Hj). by replace (i + 1 + Z.of_nat j) with (i + Z.of_nat (S j)) by lia.
Qed.

Lemma maybeEmitGapAlert_sourced c now g l h : keeps (on_db (sourced served quiet n)) (maybeEmitGapAlert c now n g l h).
Proof.
  unfold maybeEmitGapAlert. indexer_walk. apply keeps_write; [apply _|]. intros d.
  apply sourced_log; [apply progress_gaps|done].
Qed.

Lemma ensureCursor_sourced : keeps (on_db (sourced served quiet n)) (ensureCursor n).
Proof.
  intros w. pose proof (ensureCursor_progress n w) as Hp. revert Hp.
  unfold ensureCursor, on_db, world_of, bind, read_db, write_checked, remote, ret.
  destruct w as [d e [|[] fs]]; simpl; try (intros _; reflexivity);
    destruct (tget n (ledgerCursor d)) as [l|] eqn:Hn; simpl; try (intros _; reflexivity).
  2: destruct fs as [|[] [|[] fs]]; simpl; try (intros _; reflexivity).
  all: rewrite Hn; simpl; intros Hp; split; simpl; [done|done|by intros; rewrite tget_put_ne|by left|];
    intros c; rewrite tget_put_eq; intros [= <-]; left; unfold start_of; rewrite Hn; simpl; lia.
Qed.

Lemma keeps_lift_bind {A B} (r : result string A) (f : A → M iworld string B) :
  (∀ a, r = Ok a → keeps (on_db (sourced served quiet n)) (f a)) →
  keeps (on_db (sourced served quiet n)) (bind (lift_rpc r) f).
Proof. intros Hf w. destruct r as [a|x]; [by apply Hf|]. unfold on_db, world_of. reflexivity. Qed.
End steps.
(** The events of the answers to requests from beyond the cursor of [d], with their index. *)
Definition answered (rpcs : nat → Rpc (ScVal:=ScVal)) (n : string) (d : DB) (e : SorobanEvent) (j : Z) : Prop :=
  ∃ b from evs (p : nat), getEvents (rpcs b) from BATCH_SIZE = Ok evs ∧ evs !! p = Some e ∧ j = Z.of_nat p ∧
    ∀ c, tget n (ledgerCursor d) = Some c → c < from.

(** The ledgers an answer without events lets the cursor move to. *)
Definition scanned (rpcs : nat → Rpc (ScVal:=ScVal)) (n : string) (d : DB) (c : Z) : Prop :=
  ∃ b from latest, getLatestLedger (rpcs b) = Ok latest ∧ getEvents (rpcs b) from BATCH_SIZE = Ok [] ∧
    c = Z.min (from + 100) latest ∧ ∀ c0, tget n (ledgerCursor d) = Some c0 → c0 < from.

Abbreviation sound rpcs n d := (sourced (answered rpcs n d) (scanned rpcs n d) n).

Lemma sound_trans rpcs n a b c : sound rpcs n a a b → sound rpcs n b b c → sound rpcs n a a c.
Proof.
  intros Hab Hbc. etrans; [exact Hab|]. eapply sourced_weaken; [..|exact Hbc].
  - intros e j (k & from & evs & p & Hg & Hp & Hj & Hlt). exists k, from, evs, p. split_and!; [done..|].
    intros l Hl. destruct (pg_cursor _ _ (so_progress _ _ _ _ _ Hab) n l Hl) as (l' & Hl' & ?).
    specialize (Hlt l' Hl'). lia.
  - intros x (k & from & latest & Hg & He & Hx & Hlt). exists k, from, latest. split_and!; [done..|].
    intros l Hl. destruct (pg_cursor _ _ (so_progress _ _ _ _ _ Hab) n l Hl) as (l' & Hl' & ?).
    specialize (Hlt l' Hl'). lia.
Qed.

Lemma batch_sound cfg now rpcs b n w :
  sound rpcs n (db w) (db w) (db (world_of (batch cfg now (rpcs b) n) w)).
Proof.
  unfold processNextBatchForNetwork.
  pose proof (ensureCursor_sourced (answered rpcs n (db w)) (scanned rpcs n (db w)) n w) as Hens.
  unfold on_db, world_of in *. unfold bind at 1.
  destruct (ensureCursor n w) as [[l|x] w1] eqn:Hrun; [|exact Hens]. etrans; [exact Hens|].
  assert (Hl : ∀ c, tget n (ledgerCursor (db w)) = Some c → c < l + 1).
  { intros c Hc. unfold ensureCursor in Hrun.
    apply bind_ok_inv in Hrun as (row & w2 & [-> _]%read_db_ok & Hrun). rewrite Hc in Hrun.
    unfold ret in Hrun. simplify_eq. lia. }
  match goal with |- sourced _ _ _ _ (db (?m w1).2) =>
    cut (keeps (on_db (sound rpcs n (db w))) m); [intros Hk; exact (Hk w1)|] end.
  apply keeps_lift_bind. intros latest Hlatest. cbv zeta.
  apply keeps_bind; [apply _|case_test; [apply maybeEmitGapAlert_sourced|apply keeps_ret; apply _]|intros _].
  case_test; [apply keeps_ret; apply _|].
  apply keeps_lift_bind. intros evs Hevs. destruct evs as [|e es].
  - apply keeps_bind; [apply _| |intros _; apply keeps_ret; apply _].
    apply keeps_transaction; [apply _|]. apply advance_quiet. exists b, (l + 1), latest. auto.
  - apply keeps_bind; [apply _| |intros _; apply keeps_ret; apply _].
    apply processEvents_sourced. intros j x Hj. exists b, (l + 1), (e :: es), j. split_and!; [done..|lia|done].
Qed.

Lemma catch_up_sound fuel cfg rpcs nows n b ev w :
  sound rpcs n (db w) (db w)
    (db (world_of (catch_up tryNormalizeAddress scValToNative toXDR fuel cfg rpcs nows n b ev) w)).
Proof.
  revert b ev w. induction fuel as [|fuel IH]; intros b ev w; cbn [catch_up]; [reflexivity|].
  pose proof (batch_sound cfg (nows b) rpcs b n w) as Hb. unfold world_of, bind in *.
  destruct (batch cfg (nows b) (rpcs b) n w) as [[[p lag]|x] w1]; [|exact Hb].
  case_test; [exact Hb|]. simpl in *. eapply sound_trans; [exact Hb|apply IH].
Qed.

(** C10: Whatever events arrive and whatever database, publication or RPC call fails, over any number of
    batches: what is indexed stays, and the ledger cursor is accounted for.  A recorded raw event never
    changes, no policy, claim, vote, asset or appeal-snapshot row disappears, no cursor moves back, and
    only the network's own cursor moves.  If it moves beyond where it started, it stands at the ledger of
    an event the node returned and the raw table holds, or, after an answer without events, at the lower
    of the head and 100 ledgers beyond the one asked from.  Every raw event that is added is, with its
    content, one the node returned for a request from beyond the cursor; so an event that was not
    recorded when the cursor passed its ledger is not asked for again. *)
Theorem indexing_progress cfg rpcs nows n (w : iworld) :
  let d' := db (world_of (processUntilCaughtUp tryNormalizeAddress scValToNative toXDR cfg rpcs nows n) w) in
  progress (db w) d' ∧ sourced (answered rpcs n (db w)) (scanned rpcs n (db w)) n (db w) d'.
Proof. split; [apply catch_up_progress|apply catch_up_sound]. Qed.
End account.

(** ** Routing *)
Section routing.
Context `{TablesLaws}.
Context (tryNormalizeAddress : string → option string).
Context {ScVal : Type} (scValToNative : ScVal → result string native) (toXDR : ScVal → string).
Implicit Types (event : SorobanEvent (ScVal:=ScVal)).
Abbreviation processEvent := (processEventForNetwork tryNormalizeAddress scValToNative toXDR).

(** The projections: what the rest of the backend reads. *)
Definition same_projections (d d' : DB) : Prop :=
  policies d' = policies d ∧ claims_ d' = claims_ d ∧ votes d' = votes d ∧
  allowedAssets d' = allowedAssets d ∧ appealSnapshots d' = appealSnapshots d.
#[global] Instance same_projections_preorder : PreOrder same_projections.
Proof.
  split; [done|]. intros a b c (? & ? & ? & ? & ?) (? & ? & ? & ? & ?).
  unfold same_projections. split_and!; congruence.
Qed.

(** An event without a parser, in any world. *)
Lemma unparsed_event registry n event i data :
  scValToNative (ev_value event) = Ok data →
  parseEvent (decode_topic scValToNative toXDR <$> ev_topic event) data (ev_ledger event) (ev_txHash event) = None →
  keeps (on_db same_projections) (processEvent registry n event i).
Proof.
  intros Hv Hp. unfold processEventForNetwork. rewrite Hv.
  assert (Hcur : keeps (on_db same_projections) (advanceCursorInTx n (ev_ledger event))).
  { unfold advanceCursorInTx. indexer_walk. by apply keeps_write; [apply _|]. }
  rewrite selectParser_V1. apply parseV1_unparsed in Hp as [wr ->].
  indexer_walk; first [exact Hcur|by apply keeps_write; [apply _|]].
Qed.

(** Events outside the catalogue are recorded but never projected, whatever fails: an event whose
    namespace and name have no parser, or whose schema version has none, leaves the policy, claim, vote,
    asset and snapshot tables untouched. *)
Theorem unregistered_not_projected registry n event i data (w : iworld) :
  scValToNative (ev_value event) = Ok data →
  parseEvent (decode_topic scValToNative toXDR <$> ev_topic event) data (ev_ledger event) (ev_txHash event) = None →
  same_projections (db w) (db (world_of (processEvent registry n event i) w)).
Proof. intros Hv Hp. by apply (unparsed_event registry n event i data). Qed.

(** Every key of the catalogue starts with one of the two contract namespaces. *)
Lemma catalogue_namespaces key :
  startsWith key "niffyins" = false → alist_get key EVENT_PARSERS = None.
Proof.
  intros Hk.
  assert (Hall : Forall (λ e, startsWith e.1 "niffyins" = true) EVENT_PARSERS).
  { apply (bool_decide_unpack _). vm_compute. done. }
  generalize Hall. generalize EVENT_PARSERS.
  intros l. induction l as [|[k vs] l IH]; intros Hl; [done|]. apply Forall_cons in Hl as [H1 Hl]. simpl in *.
  rewrite decide_False; [auto|]. intros ->. congruence.
Qed.

(** The topic names of the routes that predate the contract namespaces. *)
Definition legacy_topics : list string :=
  ["PolicyInitiated"; "policy"; "claim"; "vote"; "claim_pd"; "asset"; "appeal"].

(** The handlers of the legacy topics are unreachable: an event whose first topic is one of them (new
    policy, renewal, claim filed, vote, payout, asset change, appeal) never reaches its handler, because
    the parser registry turns it into a warning row first; no projection changes. *)
Theorem legacy_routes_unreachable registry n event i data m (w : iworld) :
  scValToNative (ev_value event) = Ok data → m ∈ legacy_topics →
  head (decode_topic scValToNative toXDR <$> ev_topic event) = Some (NStr m) →
  same_projections (db w) (db (world_of (processEvent registry n event i) w)).
Proof.
  intros Hv Hm Hh. apply (unparsed_event registry n event i data); [done|].
  destruct (decode_topic scValToNative toXDR <$> ev_topic event) as [|t0 [|t1 ids]]; [done..|].
  simpl in Hh. simplify_eq. cbn [parseEvent js_String].
  rewrite catalogue_namespaces; [done|].
  unfold legacy_topics in Hm. repeat (apply elem_of_cons in Hm as [->|Hm]; [reflexivity|]).
  by apply elem_of_nil in Hm.
Qed.
End routing.

(** ** Appeals *)
Section appeals.
Context `{TablesLaws}.
Context (tryNormalizeAddress : string → option string).
Context {ScVal : Type} (scValToNative : ScVal → result string native) (toXDR : ScVal → string).
Implicit Types (event : SorobanEvent (ScVal:=ScVal)).

(** The row after an opened appeal. *)
Definition opened_row (ledger : Z) (c : ClaimRow) : ClaimRow :=
  claim_progress UNDER_APPEAL (cr_isFinalized c) (cr_paidAt c)
    (if bool_decide (cr_status c = UNDER_APPEAL) && (0 <? cr_appealsCount c)
     then cr_appealsCount c else cr_appealsCount c + 1) ledger c.

Lemma handleAppealOpened_healthy data event topics id c d ef :
  resolveClaimId data topics = Some (Some id) →
  tget id (claims_ d) = Some c → cr_deletedAt c = None →
  ∃ d' ef', handleAppealOpened data event topics (IWorld d ef []) = (Ok tt, IWorld d' ef' []) ∧
    tget id (claims_ d') = Some (opened_row (ev_ledger event) c) ∧
    registeredVoters d' = registeredVoters d ∧
    (tget (id, Z.max (cr_appealsCount c) 1) (appealSnapshots d) = None → NoDup (registeredVoters d) →
     registeredVoters d ≠ [] →
     tget (id, Z.max (cr_appealsCount c) 1) (appealSnapshots d') = Some (registeredVoters d)).
Proof.
  intros Hid Hc Hdel. unfold handleAppealOpened. rewrite Hid.
  unfold update_live_claim, int_arg, bind, read_db, write_db, remote, emit, ret, remote. simpl.
  rewrite Hc, Hdel. simpl. rewrite Hc. simpl.
  destruct (tget (id, _) (appealSnapshots d)) as [l|] eqn:Hs; simpl.
  - destruct l as [|v l]; simpl.
    + destruct (registeredVoters d) as [|x xs] eqn:Hv; simpl; eexists _, _;
        (split; [done|]); simpl; rewrite Hc, Hdel, tget_put_eq, ?Hv; (split; [done|]); (split; [done|]); done.
    + eexists _, _. split; [done|]. simpl. rewrite Hc, Hdel, tget_put_eq. done.
  - destruct (registeredVoters d) as [|x xs] eqn:Hv; simpl; eexists _, _;
      (split; [done|]); simpl; rewrite Hc, Hdel, tget_put_eq, ?Hv; (split; [done|]); (split; [done|]);
      intros _ Hnd Hne; [done|].
    rewrite Hs, tget_put_eq. f_equal. by apply create_many_fresh.
Qed.

(** Snapshots that hold wallets are never rewritten. *)
Lemma handleAppealOpened_snapshots data event topics d ef d' ef' k l :
  handleAppealOpened data event topics (IWorld d ef []) = (Ok tt, IWorld d' ef' []) →
  tget k (appealSnapshots d) = Some l → l ≠ [] → tget k (appealSnapshots d') = Some l.
Proof.
  unfold handleAppealOpened, update_live_claim, int_arg, bind, read_db, write_db, emit, remote, throw, ret.
  intros Hrun Hk Hl. destruct (resolveClaimId data topics) as [[id|]|]; simpl in Hrun; [|by simplify_eq..].
  destruct (tget id (claims_ d)) as [c|] eqn:Hc; simpl in Hrun; [|by simplify_eq].
  destruct (cr_deletedAt c); simpl in Hrun; [by simplify_eq|].
  rewrite Hc in Hrun; simpl in Hrun.
  destruct (decide (k = (id, Z.max (cr_appealsCount c) 1))) as [->|Hne].
  - rewrite Hk in Hrun. destruct l; [done|]. simpl in Hrun. by simplify_eq.
  - destruct (tget (id, _) (appealSnapshots d)) as [[|v vs]|]; simpl in Hrun; [| by simplify_eq |];
      destruct (registeredVoters d) eqn:Hv; simpl in Hrun; simplify_eq; simpl; try done;
      by rewrite tget_put_ne by congruence.
Qed.

(** An appeal is counted once.  The contract emits both [appeal_opened] and a status change to
    UnderAppeal; handling the two, in either order and whatever else they carry, leaves the claim under
    appeal with its appeal count raised by exactly one, or not at all when the API had already moved the
    claim and counted the appeal; for a first appeal the registered voters become its voter snapshot. *)
Theorem appeal_counted_once data1 event1 topics1 data2 event2 topics2 id c d ef :
  resolveClaimId data1 topics1 = Some (Some id) → resolveClaimId data2 topics2 = Some (Some id) →
  tget id (claims_ d) = Some c → cr_deletedAt c = None → 0 ≤ cr_appealsCount c →
  ∃ d' ef' c',
    (do* handleAppealOpened data1 event1 topics1 in handleAppealOpened data2 event2 topics2)
      (IWorld d ef []) = (Ok tt, IWorld d' ef' []) ∧
    tget id (claims_ d') = Some c' ∧ cr_status c' = UNDER_APPEAL ∧
    cr_appealsCount c' =
      (if bool_decide (cr_status c = UNDER_APPEAL) && (0 <? cr_appealsCount c)
       then cr_appealsCount c else cr_appealsCount c + 1) ∧
    (cr_appealsCount c = 0 → tget (id, 1) (appealSnapshots d) = None → NoDup (registeredVoters d) →
     registeredVoters d ≠ [] → tget (id, 1) (appealSnapshots d') = Some (registeredVoters d)).
Proof.
  intros Hid1 Hid2 Hc Hdel Hn.
  destruct (handleAppealOpened_healthy data1 event1 topics1 id c d ef) as (d1 & ef1 & Hrun1 & Hc1 & Hv1 & Hs1);
    [done..|].
  destruct (handleAppealOpened_healthy data2 event2 topics2 id (opened_row (ev_ledger event1) c) d1 ef1)
    as (d2 & ef2 & Hrun2 & Hc2 & Hv2 & Hs2); [done|done|done|].
  eexists d2, ef2, _. split; [by erewrite bind_ok|]. split; [exact Hc2|]. split; [done|]. split.
  - unfold opened_row, claim_progress. simpl.
    repeat case_test; bool_prop; lia.
  - intros Hz Hno Hnd Hne. rewrite Hz in Hs1. specialize (Hs1 Hno Hnd Hne). simpl in Hs1.
    eapply handleAppealOpened_snapshots; [exact Hrun2|done|done].
Qed.

Lemma handleAppealResolved_throws data event o w :
  ∃ e w', handleAppealResolved data event o w = (Throw e, w').
Proof.
  unfold handleAppealResolved, bind. destruct (prop data "claim_id" w) as [[v|e] w1]; [|by eexists _, _].
  destruct (update_live_claim _ _ w1) as [[v'|e] w2]; by eexists _, _.
Qed.

(** An appeal outcome is never persisted.  A first sight of an [appeal_resolved] event with a
    recognised outcome is always rejected, because its handler reads a variable that is not declared:
    the transaction is rolled back, so the claim, the raw event table and the cursor stay as they were
    and the batch stops at this event. *)
Theorem appeal_resolution_rejected registry n event i data o rest (w : iworld) :
  scValToNative (ev_value event) = Ok data →
  decode_topic scValToNative toXDR <$> ev_topic event = NStr "niffyinsure" :: NStr "appeal_resolved" :: rest →
  payload_version data = 1 → tget (ev_txHash event, i) (rawEvents (db w)) = None →
  (∃ v, field data "outcome" = Some v ∧ mapAppealOutcome v true = Some o) →
  ∃ e w', processEventForNetwork tryNormalizeAddress scValToNative toXDR registry n event i w = (Throw e, w') ∧
    db w' = db w.
Proof.
  intros Hv Ht Hver Hnew (v & Hf & Ho).
  destruct (processEventForNetwork tryNormalizeAddress scValToNative toXDR registry n event i w)
    as [[[]|e] w'] eqn:Hrun; [|by eexists _, _; split; [done|]; eapply processEvent_atomic].
  exfalso. revert Hrun. unfold processEventForNetwork. rewrite Hv, Ht. unfold transaction.
  destruct (bind _ (λ _, read_db _) w) as [[[]|e] w1] eqn:Hrun; [|done]. intros _.
  apply bind_ok_inv in Hrun as ([] & w2 & Hbody & _).
  apply bind_ok_inv in Hbody as (ex & w3 & [-> Hd3]%read_db_ok & Hbody). rewrite Hnew in Hbody.
  apply bind_ok_inv in Hbody as ([] & w4 & Hd4%write_db_ok & Hbody).
  rewrite selectParser_V1 in Hbody. unfold parseV1 in Hbody. rewrite Hver in Hbody. simpl in Hbody.
  apply bind_ok_inv in Hbody as ([] & w5 & Hdis & _). revert Hdis.
  unfold dispatch. simpl. unfold prop. rewrite Hf. unfold bind at 1, ret. rewrite Ho.
  destruct (handleAppealResolved_throws data event o w4) as (e & w6 & ->). done.
Qed.
End appeals.

(** ** Batches *)
Section batches.
Context `{TablesLaws}.
Context (tryNormalizeAddress : string → option string).
Context {ScVal : Type} (scValToNative : ScVal → result string native) (toXDR : ScVal → string).
Implicit Types (rpc : Rpc (ScVal:=ScVal)).

Lemma transaction_ok m w w' :
  transaction m w = (Ok tt, w') → ∃ w1, m w = (Ok tt, w1) ∧ db w' = db w1.
Proof.
  unfold transaction. destruct (bind m _ w) as [[[]|e] w2] eqn:Hrun; [|done]. intros [= <-].
  apply bind_ok_inv in Hrun as ([] & w1 & Hm & [_ Hd]%read_db_ok). by exists w1.
Qed.

Lemma ensureCursor_ok n w l w' :
  ensureCursor n w = (Ok l, w') → tget n (ledgerCursor (db w')) = Some l.
Proof.
  intros Hrun. apply bind_ok_inv in Hrun as (row & w1 & [-> Hd]%read_db_ok & Hrun).
  destruct (tget n (ledgerCursor (db w))) eqn:Hn; [unfold ret in Hrun; simplify_eq; congruence|].
  apply bind_ok_inv in Hrun as (leg & w2 & [-> Hd2]%read_db_ok & Hrun).
  apply bind_ok_inv in Hrun as ([] & w3 & Hw & Hret). unfold ret in Hret. simplify_eq. revert Hw.
  destruct w2 as [d e [|[] fs]]; unfold write_checked, remote; simpl; try done;
    (case_test; [done|]); intros; simplify_eq; simpl; by rewrite tget_put_eq.
Qed.

(** A batch that resolves while the chain is ahead moves the cursor: if the node returned only events
    from the requested ledger on, the cursor ends strictly beyond the ledger it started from, so repeated
    batches catch up; without events it moves to 101 ledgers further or to the head, whichever is
    first. *)
Theorem batch_advances cfg now rpc n (w : iworld) last latest processed lag w' :
  tget n (ledgerCursor (db w)) = Some last → getLatestLedger rpc = Ok latest → last < latest →
  (∀ evs, getEvents rpc (last + 1) BATCH_SIZE = Ok evs → Forall (λ e, last + 1 ≤ ev_ledger e) evs) →
  processNextBatchForNetwork tryNormalizeAddress scValToNative toXDR cfg now rpc n w = (Ok (processed, lag), w') →
  ∃ c, tget n (ledgerCursor (db w')) = Some c ∧ last < c ∧
    (getEvents rpc (last + 1) BATCH_SIZE = Ok [] → Z.min (last + 101) latest ≤ c).
Proof.
  intros Hlast Hlatest Hlt Hev Hrun.
  apply bind_ok_inv in Hrun as (l & w1 & Hens & Hrun).
  assert (tget n (ledgerCursor (db w1)) = Some last ∧ l = last) as [Hl1 ->].
  { pose proof (ensureCursor_ok _ _ _ _ Hens) as Hl1. unfold ensureCursor in Hens.
    apply bind_ok_inv in Hens as (row & w2 & [-> _]%read_db_ok & Hens). rewrite Hlast in Hens.
    unfold ret in Hens. by simplify_eq. }
  rewrite Hlatest in Hrun. apply bind_ok_inv in Hrun as (la & w2 & Hrpc & Hrun).
  unfold lift_rpc in Hrpc. simplify_eq.
  apply bind_ok_inv in Hrun as ([] & w3 & Hgap & Hrun).
  assert (Hp : progress (db w2) (db w3)).
  { match type of Hgap with ?m _ = _ => assert (keeps (on_db progress) m) as Hk end.
    { case_test; [apply maybeEmitGapAlert_progress|apply keeps_ret; apply _]. }
    specialize (Hk w2). unfold on_db, world_of in Hk. by rewrite Hgap in Hk. }
  replace (la <=? last) with false in Hrun by (symmetry; apply Z.leb_gt; lia).
  apply bind_ok_inv in Hrun as (evs & w4 & Hrpc & Hrun). unfold lift_rpc in Hrpc.
  apply pair_eq in Hrpc as [Hg ->]. specialize (Hev evs Hg).
  destruct evs as [|e es].
  - apply bind_ok_inv in Hrun as ([] & w5 & Htx & Hret). unfold ret in Hret. simplify_eq.
    apply transaction_ok in Htx as (w6 & Hadv & Hd). apply advanceCursor_ok in Hadv as (_ & c & Hc & Hle).
    exists c. rewrite Hd. split; [done|]. split; lia.
  - apply bind_ok_inv in Hrun as ([] & w5 & Hproc & Hret). unfold ret in Hret. simplify_eq.
    destruct (process_recorded _ _ _ _ _ _ _ _ _ Hproc 0%nat e eq_refl) as (_ & _ & c & Hc & Hle).
    apply Forall_cons in Hev as [He _]. exists c. split; [done|]. split; [lia|congruence].
Qed.

(** Gap alerts respect the cool-down: an alert is raised exactly when none was raised for the network
    within the cool-down, and after an alert every further check within the cool-down is silent and
    writes nothing. *)
Theorem gap_alert_cooldown cooldown now1 now2 n g1 l1 h1 g2 l2 h2 d ef :
  0 < cooldown → now1 ≤ now2 →
  let due d now := match tget n (gapAlerts d) with
                   | Some row => bool_decide (cooldown ≤ now - ga_lastFiredAt row) | None => true end in
  ∃ d1 ef1, maybeEmitGapAlert cooldown now1 n g1 l1 h1 (IWorld d ef []) = (Ok tt, IWorld d1 ef1 []) ∧
    ef1 = (if due d now1 then ef ++ [GapAlert n g1] else ef)%list ∧
    (due d now1 = true → now2 < now1 + cooldown →
     maybeEmitGapAlert cooldown now2 n g2 l2 h2 (IWorld d1 ef1 []) = (Ok tt, IWorld d1 ef1 [])).
Proof.
  intros Hcd Hnow due. unfold maybeEmitGapAlert, bind, read_db, write_db, note, remote, ret. simpl.
  assert (Hsup : (match tget n (gapAlerts d) with
                  | Some row => now1 - ga_lastFiredAt row <? cooldown | None => false end) = negb (due d now1)).
  { unfold due. destruct (tget n (gapAlerts d)) as [row|]; [|done].
    case_bool_decide; simpl; [apply Z.ltb_ge; lia|apply Z.ltb_lt; lia]. }
  rewrite Hsup. destruct (due d now1); simpl; eexists _, _; (split; [done|]); (split; [done|]); [|done].
  intros _ Hin. simpl. rewrite tget_put_eq. simpl.
  by replace (now2 - now1 <? cooldown) with true by (symmetry; apply Z.ltb_lt; lia).
Qed.
End batches.

(** ** Witnesses *)
Module IndexerWitnesses.
#[local] Existing Instance alist_tables.
#[local] Existing Instance alist_tables_laws.

Definition row0 : ClaimRow := {| cr_policyId := "G:1"; cr_creatorAddress := "G"; cr_amount := "100";
  cr_asset := None; cr_description := ""; cr_imageUrls := []; cr_status := REJECTED; cr_isFinalized := false;
  cr_approveVotes := 0; cr_rejectVotes := 3; cr_paidAt := None; cr_createdAtLedger := 5;
  cr_updatedAtLedger := 9; cr_txHash := "t0"; cr_appealsCount := 0; cr_deletedAt := None |}.

Definition db0 : DB := {| ledgerCursor := [("testnet", 10)]; indexerState := None; gapAlerts := [];
  rawEvents := []; policies := []; claims_ := [(7, row0)]; votes := []; allowedAssets := [];
  registeredVoters := ["V1"; "V2"]; appealSnapshots := [] |}.
Definition w0 : iworld := IWorld db0 [] [].

(** Values that decode to themselves. *)
Definition decode (v : native) : result string native := Ok v.
Definition norm (s : string) : option string := None.

Definition mk_event (tx : string) (ledger : Z) (topics : list native) (data : native)
  : SorobanEvent (ScVal:=native) :=
  {| ev_txHash := tx; ev_contractId := Some "C"; ev_ledger := ledger; ev_ledgerClosedAt := ledger * 5;
     ev_topic := topics; ev_value := data |}.

Definition opened : SorobanEvent := mk_event "t1" 11
  [NStr "niffyinsure"; NStr "appeal_opened"; NBig 7] (NObj [("version", NNum 1)]).
Definition changed : SorobanEvent := mk_event "t1" 11
  [NStr "niffyins"; NStr "claim_status_changed"; NBig 7]
  (NObj [("version", NNum 1); ("new_status", NStr "UnderAppeal")]).
Definition resolved : SorobanEvent := mk_event "t2" 12
  [NStr "niffyinsure"; NStr "appeal_resolved"; NBig 7]
  (NObj [("version", NNum 1); ("claim_id", NBig 7); ("outcome", NStr "AppealApproved")]).
Definition legacy : SorobanEvent := mk_event "t3" 13 [NStr "vote"; NBig 7; NStr "V1"]
  (NObj [("vote", NStr "Approve"); ("approve_votes", NNum 1); ("reject_votes", NNum 0)]).

Definition legacy11 : SorobanEvent := mk_event "t4" 11 [NStr "vote"; NBig 7; NStr "V1"] NNull.

Definition rpc0 : Rpc (ScVal:=native) :=
  {| getLatestLedger := Ok 20; getEvents := λ from n, if from =? 11 then Ok [opened; changed] else Ok [] |}.
Definition cfg0 : IndexerConfig := {| gapThresholdLedgers := 100; gapCooldownMs := 3600000; deployment := [] |}.

Lemma indexing_progress_witness :
  let d' := db (world_of (processUntilCaughtUp norm decode js_String cfg0 (λ _, rpc0) (λ _, 0) "testnet") w0) in
  progress db0 d' ∧
  sourced decode js_String (answered (λ _, rpc0) "testnet" db0) (scanned (λ _, rpc0) "testnet" db0) "testnet" db0 d'.
Proof. exact (indexing_progress norm decode js_String cfg0 (λ _, rpc0) (λ _, 0) "testnet" w0). Defined.

(** A node with two events in ledger 11; an answer holds at most [limit] of them. *)
Definition paged (limit : nat) (latest : Z) : Rpc (ScVal:=native) :=
  {| getLatestLedger := Ok latest;
     getEvents := λ from _, Ok (take limit (if from <=? 11 then [opened; legacy11] else [])) |}.

(** The connection drops in the second event of ledger 11.  The first moved the cursor to 11, so the
    retry asks from ledger 12 on and the second event is never recorded. *)
Example rest_of_ledger_skipped :
  let run rpc fs := db (world_of (do* try_catch (processNextBatchForNetwork norm decode js_String cfg0 0 rpc
                                       "testnet") (λ _, ret (0, 0)) in
                                  processNextBatchForNetwork norm decode js_String cfg0 0 rpc "testnet")
                                 (IWorld db0 [] fs)) in
  let d1 := run (paged 2 20) (replicate 15 false ++ [true])%list in
  let d2 := run (paged 1 20) [] in
  tget ("t1", 0) (rawEvents d1) ≠ None ∧ tget ("t4", 1) (rawEvents d1) = None ∧
  tget ("t1", 0) (rawEvents d2) ≠ None ∧ tget ("t4", 0) (rawEvents d2) = None ∧
  tget "testnet" (ledgerCursor d1) = Some 20 ∧ tget "testnet" (ledgerCursor d2) = Some 20.
Proof. vm_compute. repeat split; discriminate. Qed.



Lemma replay_idempotent_witness :
  ∃ w1 d2, processEvents norm decode js_String [] "testnet" [opened; changed] 0 w0 = (Ok tt, w1) ∧
    processEvents norm decode js_String [] "testnet" [opened; changed] 0 (IWorld (db w1) (effects w1) []) =
      (Ok tt, IWorld d2 (effects w1 ++ replicate 2 (DuplicateEvent "raw_event"))%list []) ∧
    same_content (db w1) d2.
Proof.
  exists (world_of (processEvents norm decode js_String [] "testnet" [opened; changed] 0) w0).
  assert (Hrun : processEvents norm decode js_String [] "testnet" [opened; changed] 0 w0 =
                 (Ok tt, world_of (processEvents norm decode js_String [] "testnet" [opened; changed] 0) w0))
    by (vm_compute; reflexivity).
  destruct (replay_idempotent norm decode js_String [] "testnet" [opened; changed] 0 w0 _ Hrun) as (d2 & H1 & H2).
  exists d2. split; [exact Hrun|]. split; [exact H1|exact H2].
Defined.

Lemma unregistered_not_projected_witness :
  same_projections db0 (db (world_of (processEventForNetwork norm decode js_String [] "testnet"
    (mk_event "t9" 14 [NStr "niffyins"; NStr "unknown"] NNull) 0) w0)).
Proof.
  apply (unregistered_not_projected norm decode js_String [] "testnet" _ 0 NNull w0).
  - reflexivity.
  - vm_compute. reflexivity.
Defined.

Lemma legacy_routes_unreachable_witness :
  same_projections db0 (db (world_of (processEventForNetwork norm decode js_String [] "testnet" legacy 0) w0)).
Proof.
  apply (legacy_routes_unreachable norm decode js_String [] "testnet" legacy 0 (ev_value legacy) "vote" w0).
  - reflexivity.
  - apply (bool_decide_unpack _). vm_compute. done.
  - reflexivity.
Defined.

Lemma appeal_counted_once_witness :
  ∃ d' ef' c', (do* handleAppealOpened (ev_value opened) opened (ev_topic opened) in
                handleAppealOpened (ev_value changed) changed (ev_topic changed)) w0 = (Ok tt, IWorld d' ef' []) ∧
    tget 7 (claims_ d') = Some c' ∧ cr_appealsCount c' = 1 ∧
    tget (7, 1) (appealSnapshots d') = Some ["V1"; "V2"].
Proof.
  destruct (appeal_counted_once (ev_value opened) opened (ev_topic opened)
              (ev_value changed) changed (ev_topic changed) 7 row0 db0 []) as (d' & ef' & c' & H1 & H2 & _ & H4 & H5).
  - reflexivity.
  - reflexivity.
  - reflexivity.
  - reflexivity.
  - simpl; lia.
  - exists d', ef', c'. split; [exact H1|]. split; [exact H2|]. split; [exact H4|].
    apply H5; [reflexivity|reflexivity| |discriminate].
    apply (bool_decide_unpack _). vm_compute. done.
Defined.

Lemma appeal_resolution_rejected_witness :
  ∃ e w', processEventForNetwork norm decode js_String [] "testnet" resolved 0 w0 = (Throw e, w') ∧ db w' = db0.
Proof.
  apply (appeal_resolution_rejected norm decode js_String [] "testnet" resolved 0 (ev_value resolved)
           APPEAL_APPROVED_ [NBig 7] w0).
  - reflexivity.
  - reflexivity.
  - reflexivity.
  - reflexivity.
  - exists (NStr "AppealApproved"). split; vm_compute; reflexivity.
Defined.

Lemma batch_advances_witness :
  ∃ processed lag w' c,
    processNextBatchForNetwork norm decode js_String cfg0 0 rpc0 "testnet" w0 = (Ok (processed, lag), w') ∧
    tget "testnet" (ledgerCursor (db w')) = Some c ∧ 10 < c.
Proof.
  exists 2, 9, (world_of (processNextBatchForNetwork norm decode js_String cfg0 0 rpc0 "testnet") w0).
  assert (Hrun : processNextBatchForNetwork norm decode js_String cfg0 0 rpc0 "testnet" w0 =
                 (Ok (2, 9), world_of (processNextBatchForNetwork norm decode js_String cfg0 0 rpc0 "testnet") w0))
    by (vm_compute; reflexivity).
  assert (Hev : ∀ evs, getEvents rpc0 (10 + 1) BATCH_SIZE = Ok evs → Forall (λ e, 10 + 1 ≤ ev_ledger e) evs).
  { intros evs E. change (Ok [opened; changed] = Ok (E:=string) evs) in E.
    assert (evs = [opened; changed]) as -> by congruence.
    apply Forall_cons; split; [simpl; lia|]. apply Forall_cons; split; [simpl; lia|done]. }
  destruct (batch_advances norm decode js_String cfg0 0 rpc0 "testnet" w0 10 20 2 9 _ eq_refl eq_refl
              ltac:(lia) Hev Hrun) as (c & Hc & Hlt & _).
  exists c. split; [exact Hrun|]. split; [exact Hc|exact Hlt].
Defined.

Lemma gap_alert_cooldown_witness :
  ∃ d1 ef1, maybeEmitGapAlert 3600000 5 "testnet" 200 10 210 w0 = (Ok tt, IWorld d1 ef1 []) ∧
    ef1 = [GapAlert "testnet" 200] ∧
    maybeEmitGapAlert 3600000 60000 "testnet" 220 10 230 (IWorld d1 ef1 []) = (Ok tt, IWorld d1 ef1 []).
Proof.
  destruct (gap_alert_cooldown 3600000 5 60000 "testnet" 200 10 210 220 10 230 db0 []) as (d1 & ef1 & H1 & H2 & H3);
    [lia|lia|].
  exists d1, ef1. split; [exact H1|]. split; [exact H2|]. apply H3; [reflexivity|lia].
Defined.

End IndexerWitnesses.
