(* ===== verification/Auth.v ===== *)
(** * Wallet authentication

    backend/src/auth: challenge nonces (nonce.service.ts), signature login
    (wallet-auth.service.ts), refresh-token rotation
    (refresh-token.service.ts), signing-key rotation (jwt-key.service.ts),
    token revocation (token-blacklist.service.ts, strategies/jwt.strategy.ts)
    and roles (guards/roles.guard.ts, auth-identity.service.ts), on the Redis
    wrapper of cache/redis.service.ts, which swallows every Redis error.
    The Stellar SDK (address validation, Ed25519), the SHA-256 digest and the
    JWT signer are parameters. *)

From stdpp Require Import base list strings sorting.
From Stdlib Require Import ZArith Lia Ascii.
From S2P Require Import Prelude JsText Redis Native.

Open Scope string_scope.
Open Scope Z_scope.

(** What the service stores in Redis. *)
Inductive stored :=
  | SChallenge (publicKey message : string)
  | SRefresh (walletAddress : string) (rotated : bool)
  | SFlag.

(** The exceptions of the service, with their codes. *)
Inductive AuthError :=
  | BadRequest (code : string)
  | Unauthorized (code : string)
  | Forbidden (reason : string)
  | Failure (e : string).

Section redis_service.
Context {R : Type} `{RedisString stored R}.
Abbreviation MA A := (M (rworld R) AuthError A).

(** A command of the raw client: its error propagates. *)
Definition raw_cmd {A} (m : M (rworld R) string A) : MA A := try_catch m (λ e, throw (Failure e)).

(** ** Nonces *)

Definition nonce_key (nonce : string) : string := "nonce:" +:+ nonce.

(** Models [NonceService.store] (backend/src/auth/nonce.service.ts:27-29). *)
Definition store_nonce (now ttlSeconds : Z) (nonce : string) (publicKey message : string) : MA () :=
  redis_set now (nonce_key nonce) (SChallenge publicKey message) ttlSeconds.

(** Models [NonceService.consume] (backend/src/auth/nonce.service.ts:31-37). *)
Definition consume_nonce (now : Z) (nonce : string) : MA (option stored) :=
  let* data := redis_get now (nonce_key nonce) in
  match data with
  | None => ret None
  | Some v => do* redis_del (nonce_key nonce) in ret (Some v)
  end.

(** ** Refresh tokens *)

(** The SHA-256 digest, in hexadecimal. *)
Context (hash : string → string).

Definition PREFIX : string := "rt:".
Definition refresh_key (raw : string) : string := PREFIX +:+ hash raw.

(** [raw] is the fresh random token.
    Models [RefreshTokenService.issue] (backend/src/auth/refresh-token.service.ts:36-42). *)
Definition issue (now ttl : Z) (raw walletAddress : string) : MA string :=
  do* redis_set now (refresh_key raw) (SRefresh walletAddress false) ttl in
  ret raw.

Definition revoke_key (now : Z) (walletAddress key : string) : MA () :=
  let* val := redis_get now key in
  match val with
  | Some (SRefresh w _) => if bool_decide (w = walletAddress) then redis_del key else ret tt
  | _ => ret tt
  end.

(** The pages of the scan are fetched one command at a time.
    Models [RefreshTokenService.revokeAllForWallet] (backend/src/auth/refresh-token.service.ts:84-104). *)
Definition revokeAllForWallet (now : Z) (walletAddress : string) : MA () :=
  try_catch
    (let* pages := raw_cmd (query (r_scan_pages now PREFIX)) in
     for_each pages (λ keys,
       do* raw_cmd (query (λ _, tt)) in
       for_each keys (revoke_key now walletAddress)))
    (λ _, ret tt).

(** Models [RefreshTokenService.consume] (backend/src/auth/refresh-token.service.ts:50-75). *)
Definition consume_refresh (now : Z) (raw : string) : MA string :=
  let key := refresh_key raw in
  let* record := redis_get now key in
  match record with
  | Some (SRefresh walletAddress rotated) =>
      if rotated then
        do* revokeAllForWallet now walletAddress in
        throw (Unauthorized "Refresh token reuse detected — session revoked")
      else
        do* redis_set now key (SRefresh walletAddress true) 60 in
        ret walletAddress
  | _ => throw (Unauthorized "Invalid or expired refresh token")
  end.

(** Models [RefreshTokenService.revoke] (backend/src/auth/refresh-token.service.ts:78-81). *)
Definition revoke (raw : string) : MA () := redis_del (refresh_key raw).
End redis_service.

(** ** Signing keys *)

(** Models [JwtKey] (backend/src/auth/jwt-key.service.ts:23-26). *)
Record JwtKey := { kid : string; secret : string }.
Record JwtKeys := { currentKey : JwtKey; previousKey : option JwtKey }.

(** The environment: JWT_SECRET, JWT_KEY_ID, JWT_SECRET_PREV, JWT_KEY_ID_PREV.
    Models [JwtKeyService.constructor] (backend/src/auth/jwt-key.service.ts:33-42). *)
Definition mk_keys (jwt_secret key_id secret_prev key_id_prev : option string) : JwtKeys :=
  {| currentKey := {| kid := default "v1" key_id; secret := default "" jwt_secret |};
     previousKey := match truthy secret_prev with
                    | Some s => Some {| kid := default "v0" key_id_prev; secret := s |}
                    | None => None
                    end |}.

(** Models [secretForKid] (backend/src/auth/jwt-key.service.ts:55-59). *)
Definition secretForKid (ks : JwtKeys) (k : string) : option string :=
  if bool_decide (k = kid (currentKey ks)) then Some (secret (currentKey ks))
  else match previousKey ks with
       | Some p => if bool_decide (k = kid p) then Some (secret p) else None
       | None => None
       end.

(** Models [acceptedSecrets] (backend/src/auth/jwt-key.service.ts:66-70). *)
Definition acceptedSecrets (ks : JwtKeys) : list string :=
  secret (currentKey ks) :: match previousKey ks with Some p => [secret p] | None => [] end.

(** The claims of an access token. *)
Record Claims := {
  sub : string;
  walletAddress : string;
  scope : string;
  iat : Z;
  exp_ : Z;
}.

(** The secret a token is verified with: [header_kid] is the decoded header,
    the outer [None] a header that does not decode.
    Models [JwtStrategy.secretOrKeyProvider] (backend/src/auth/strategies/jwt.strategy.ts:34-58). *)
Definition secretOrKeyProvider (ks : JwtKeys) (header_kid : option (option string)) : result AuthError string :=
  match header_kid with
  | None => Throw (Unauthorized "Malformed token header")
  | Some k =>
      let k := default (kid (currentKey ks)) k in
      match truthy (secretForKid ks k) with
      | None => Throw (Unauthorized "Unknown key id")
      | Some s => Ok s
      end
  end.

(** ** Login *)
Section login.
Context {R : Type} `{RedisString stored R}.
Abbreviation MA A := (M (rworld R) AuthError A).

(** The Stellar SDK: address checks, the base account of a muxed address (or
    its exception), and Ed25519 verification (or its exception). *)
Context (isValidEd25519PublicKey isValidContract : string → bool).
Context (muxedBase : string → result string string).
Context (keypair_verify : string → string → string → result string bool).
(** SHA-256, and the JWT signer. *)
Context (hash : string → string) (sign : Claims → JwtKey → string).

(** Models [normalizeAddress] (backend/src/common/utils/normalize-address.ts:25-60). *)
Definition normalizeAddress (raw : string) : result AuthError string :=
  if bool_decide (raw = "") then Throw (BadRequest "INVALID_ADDRESS")
  else
    let trimmed := trim raw in
    if isValidEd25519PublicKey trimmed then Ok trimmed
    else if isValidContract trimmed then Ok trimmed
    else
      let muxed :=
        if startsWith trimmed "M" then
          match muxedBase trimmed with
          | Ok base => if isValidEd25519PublicKey base then Some base else None
          | Throw _ => None
          end
        else None in
      match muxed with Some base => Ok base | None => Throw (BadRequest "INVALID_ADDRESS") end.

(** Models [tryNormalizeAddress] (backend/src/common/utils/normalize-address.ts:66-72). *)
Definition tryNormalizeAddress (raw : string) : option string :=
  match normalizeAddress raw with Ok a => Some a | Throw _ => None end.

(** Models [WalletSignatureService.verifyEd25519] (backend/src/auth/wallet-signature.service.ts:6-24). *)
Definition verifyEd25519 (publicKey message signatureBase64 : string) : result AuthError () :=
  match keypair_verify publicKey message signatureBase64 with
  | Ok true => Ok tt
  | _ => Throw (Unauthorized "Signature verification failed.")
  end.

Record AuthConfig := {
  domain : string;
  nonce_ttl : Z;
  refresh_ttl : Z;
  keys : JwtKeys;
}.

Definition newline : string := String (ascii_of_nat 10) "".

(** Models [buildMessage] (backend/src/auth/wallet-auth.service.ts:46-64). *)
Definition buildMessage (cfg : AuthConfig) (publicKey nonce issuedAt expiresAt : string) : string :=
  join newline [
    domain cfg +:+ " wants you to sign in with your Stellar account:";
    publicKey;
    "";
    "Please sign this challenge to verify your identity.";
    "";
    "URI: https://" +:+ domain cfg;
    "Version: 1";
    "Nonce: " +:+ nonce;
    "Issued At: " +:+ issuedAt;
    "Expiration Time: " +:+ expiresAt
  ].

Definition lift_result {A} (r : result AuthError A) : MA A := λ w, (r, w).

(** The canonical key of a request, which must be an account key. *)
Definition canonical_key (publicKey : string) : result AuthError string :=
  match normalizeAddress publicKey with
  | Throw e => Throw e
  | Ok k => if isValidEd25519PublicKey k then Ok k else Throw (BadRequest "INVALID_PUBLIC_KEY")
  end.

(** [nonce] is the fresh UUID.  Returns the message to sign.
    Models [generateChallenge] (backend/src/auth/wallet-auth.service.ts:66-87). *)
Definition generateChallenge (cfg : AuthConfig) (now : Z) (nonce publicKey : string)
  : MA (string * string * string) :=
  let* canonicalKey := lift_result (canonical_key publicKey) in
  let issuedAt := toISOString now in
  let expiresAt := toISOString (now + nonce_ttl cfg * 1000) in
  let message := buildMessage cfg canonicalKey nonce issuedAt expiresAt in
  do* store_nonce now (nonce_ttl cfg) nonce canonicalKey message in
  ret (nonce, message, expiresAt).

Record Session := { token : string; expiresAt : string; refreshToken : string }.

Definition ACCESS_TTL : Z := 15 * 60.

Definition user_claims (wallet : string) (now : Z) : Claims :=
  {| sub := wallet; walletAddress := wallet; scope := "user"; iat := now; exp_ := now + ACCESS_TTL |}.

(** Access token and refresh token for an authenticated wallet; [raw] is the
    fresh random refresh token. *)
Definition open_session (cfg : AuthConfig) (nowMs : Z) (raw wallet : string) : MA Session :=
  let now := nowMs / 1000 in
  let t := sign (user_claims wallet now) (currentKey (keys cfg)) in
  let* r := issue hash nowMs (refresh_ttl cfg) raw wallet in
  ret {| token := t; expiresAt := toISOString ((now + ACCESS_TTL) * 1000); refreshToken := r |}.

(** Models [verifyChallenge] (backend/src/auth/wallet-auth.service.ts:89-148). *)
Definition verifyChallenge (cfg : AuthConfig) (now : Z) (raw publicKey nonce signatureBase64 : string)
  : MA Session :=
  let* canonicalKey := lift_result (canonical_key publicKey) in
  let* stored := consume_nonce now nonce in
  match stored with
  | None => throw (Unauthorized "NONCE_EXPIRED_OR_USED")
  | Some (SChallenge key message) =>
      if bool_decide (key = canonicalKey) then
        match verifyEd25519 canonicalKey message signatureBase64 with
        | Throw _ => throw (Unauthorized "INVALID_SIGNATURE")
        | Ok _ => open_session cfg now raw canonicalKey
        end
      else throw (Unauthorized "KEY_MISMATCH")
  | Some _ => throw (Unauthorized "KEY_MISMATCH")
  end.

(** [raw] is the fresh random refresh token.
    Models [refresh] (backend/src/auth/wallet-auth.service.ts:151-168). *)
Definition refresh (cfg : AuthConfig) (now : Z) (raw rawRefreshToken : string) : MA Session :=
  let* wallet := consume_refresh hash now rawRefreshToken in
  open_session cfg now raw wallet.

(** Models [logout] (backend/src/auth/wallet-auth.service.ts:171-173). *)
Definition logout (rawRefreshToken : string) : MA () := revoke hash rawRefreshToken.

(** ** Revocation and authorisation *)

Definition TOKEN_BLACKLIST_PREFIX : string := "token:blacklist:".

(** Models [blacklistToken] (backend/src/auth/token-blacklist.service.ts:15-22). *)
Definition blacklistToken (now : Z) (jti : string) (ttlSeconds : Z) : MA () :=
  if ttlSeconds <=? 0 then ret tt
  else raw_cmd (update (r_setex now (TOKEN_BLACKLIST_PREFIX +:+ jti) SFlag ttlSeconds)).

(** Models [isBlacklisted] (backend/src/auth/token-blacklist.service.ts:28-32). *)
Definition isBlacklisted (now : Z) (jti : string) : MA bool :=
  raw_cmd (query (λ r, bool_decide (is_Some (r_get now (TOKEN_BLACKLIST_PREFIX +:+ jti) r)))).

(** Models [revokeToken] (backend/src/auth/token-blacklist.service.ts:39-43). *)
Definition revokeToken (now : Z) (jti : string) (expiresAt : Z) : MA () :=
  let nowSeconds := now / 1000 in
  blacklistToken now jti (Z.max 0 (expiresAt - nowSeconds)).

(** Models [JwtStrategy.validate] (backend/src/auth/strategies/jwt.strategy.ts:62-75). *)
Definition validate (now : Z) (payload_wallet jti : option string) : MA string :=
  match truthy payload_wallet with
  | None => throw (Unauthorized "Invalid token payload")
  | Some w =>
      match truthy jti with
      | None => ret w
      | Some j =>
          let* b := isBlacklisted now j in
          if b then throw (Unauthorized "Token has been revoked") else ret w
      end
  end.
End login.

(** [requiredRoles] and [user] are the route metadata and the request's user
    (with its roles, if any).
    Models [RolesGuard.canActivate] (backend/src/auth/guards/roles.guard.ts:10-32). *)
Definition rolesGuard (isPublic : bool) (requiredRoles : option (list string))
    (user : option (option (list string))) : result AuthError bool :=
  if isPublic then Ok true
  else match requiredRoles with
       | None | Some [] => Ok true
       | Some req =>
           match user with
           | None => Throw (Forbidden "No authenticated user")
           | Some roles =>
               let userRoles := default [] roles in
               if existsb (λ r, bool_decide (r ∈ userRoles)) req then Ok true
               else Throw (Forbidden "Insufficient role")
           end
       end.

(** Models [AuthIdentity] (backend/src/auth/auth-identity.service.ts:23-25). *)
Inductive AuthIdentity :=
  | WalletIdentity (walletAddress : string)
  | StaffIdentity (staffId email role : string) (scopes : list string).

Definition obj_string (fs : list (string * native)) (k : string) : option string :=
  match alist_get k fs with Some (NStr s) => Some s | _ => None end.

(** Models [toIdentity] (backend/src/auth/auth-identity.service.ts:67-93). *)
Definition toIdentity (payload : list (string * native)) : option AuthIdentity :=
  match truthy (obj_string payload "walletAddress") with
  | Some w => Some (WalletIdentity w)
  | None =>
      match obj_string payload "sub", obj_string payload "email", obj_string payload "role" with
      | Some s, Some e, Some role =>
          if bool_decide (role ∈ ["superadmin"; "admin"; "viewer"; "support_readonly"]) then
            let rawScopes :=
              match alist_get "scopes" payload with
              | Some (NArr vs) => vs
              | _ => match obj_string payload "scope" with
                     | Some sc => NStr <$> split " "%char sc
                     | None => []
                     end
              end in
            Some (StaffIdentity s e role (omap (λ v, match v with NStr x => Some x | _ => None end) rawScopes))
          else None
      | _, _, _ => None
      end
  end.

Definition is_unit (c : ascii) : bool :=
  bool_decide (c = "s"%char) || bool_decide (c = "m"%char) || bool_decide (c = "h"%char) || bool_decide (c = "d"%char).

(** The last character of a string and what precedes it. *)
Fixpoint unsnoc (s : string) : option (string * ascii) :=
  match s with
  | "" => None
  | String c "" => Some ("", c)
  | String c s' => match unsnoc s' with Some (p, l) => Some (String c p, l) | None => None end
  end.

(** Models [parseTtlToSeconds] (backend/src/auth/auth.service.ts:156-166). *)
Definition parseTtlToSeconds (ttl : string) : Z :=
  match unsnoc ttl with
  | Some (ds, u) =>
      if is_unit u && some_digits ds then
        let n := digits_val 0 ds in
        if bool_decide (u = "s"%char) then n
        else if bool_decide (u = "m"%char) then n * 60
        else if bool_decide (u = "h"%char) then n * 3600
        else n * 86400
      else 3600
  | None => 3600
  end.
