(* ===== verification/AuthFacts.v ===== *)
(** * Security properties of wallet authentication

    Logins are backed by a fresh challenge and a valid signature; a consumed
    nonce stays dead over any further history; refresh tokens rotate and their
    reuse revokes the wallet; revoked and rotated signing material behaves as
    documented. *)

From stdpp Require Import base list strings sorting.
From Stdlib Require Import ZArith Lia Ascii.
From S2P Require Import Prelude JsText Redis Native Auth.

Open Scope string_scope.
Open Scope Z_scope.

(** ** Dead keys *)
Section dead.
Context {R : Type} `{RedisStringLaws stored R}.

(** No value under [k] from time [t] on. *)
Definition dead (k : string) (t : Z) (r : R) : Prop := ∀ t', t ≤ t' → r_get t' k r = None.

Definition stays_dead (k : string) (t : Z) (w w' : rworld R) : Prop :=
  dead k t (rstate w) → dead k t (rstate w').
#[global] Instance stays_dead_preorder k t : PreOrder (stays_dead k t).
Proof. split; [by intros w Hd|]. intros a b c Hab Hbc Ha. by apply Hbc, Hab. Qed.

Lemma dead_del k k' t r : dead k t r → dead k t (r_del k' r).
Proof.
  intros Hd t' Ht'. destruct (decide (k' = k)) as [->|Hne]; [apply get_del|].
  rewrite get_del_ne by done. by apply Hd.
Qed.

Lemma dead_setex k k' t s v ttl r : k' ≠ k → dead k t r → dead k t (r_setex s k' v ttl r).
Proof. intros Hne Hd t' Ht'. rewrite get_setex_ne by done. by apply Hd. Qed.

Lemma dead_of_none k t r : r_get t k r = None → dead k t r.
Proof. intros Hn t' Ht'. by eapply get_expired. Qed.

Lemma keeps_dead_get k t now k' : keeps (stays_dead k t) (redis_get now k' : M (rworld R) AuthError (option stored)).
Proof. intros [r [|[] fs]] Hd; exact Hd. Qed.
Lemma keeps_dead_del k t k' : keeps (stays_dead k t) (redis_del (V:=stored) k' : M (rworld R) AuthError ()).
Proof.
  intros [r [|[] fs]] Hd; unfold world_of, redis_del, try_catch, update, cmd; simpl in *; try done;
    by apply dead_del.
Qed.
Lemma keeps_dead_set k t now k' v ttl : k' ≠ k → keeps (stays_dead k t) (redis_set now k' v ttl : M (rworld R) AuthError ()).
Proof.
  intros Hne [r [|[] fs]] Hd; unfold world_of, redis_set, try_catch, update, cmd; simpl in *; try done;
    by apply dead_setex.
Qed.
Lemma keeps_dead_query {A} k t (f : R → A) : keeps (stays_dead k t) (raw_cmd (query f)).
Proof. intros [r [|[] fs]] Hd; exact Hd. Qed.

Lemma nonce_ne_refresh hash nonce raw : refresh_key hash raw ≠ nonce_key nonce.
Proof. unfold refresh_key, nonce_key, PREFIX. by apply prefixes_differ. Qed.
End dead.

Ltac dead_walk :=
  repeat first
    [ progress keeps_walk
    | apply keeps_dead_get
    | apply keeps_dead_del
    | apply keeps_dead_query
    | apply keeps_dead_set; first [apply nonce_ne_refresh | congruence] ].

(** ** Histories *)
Section histories.
Context {R : Type} `{RedisStringLaws stored R}.
Context (isValidEd25519PublicKey isValidContract : string → bool).
Context (muxedBase : string → result string string).
Context (keypair_verify : string → string → string → result string bool).
Context (hash : string → string) (sign : Claims → JwtKey → string).
Implicit Types (cfg : AuthConfig).

Abbreviation verify := (verifyChallenge isValidEd25519PublicKey isValidContract muxedBase keypair_verify hash sign).
Abbreviation challenge := (generateChallenge isValidEd25519PublicKey isValidContract muxedBase).
Abbreviation canonical := (canonical_key isValidEd25519PublicKey isValidContract muxedBase).

(** What clients can do, with the random values the server draws. *)
Inductive AuthOp :=
  | OpChallenge (nonce publicKey : string)
  | OpVerify (raw publicKey nonce signature : string)
  | OpRefresh (raw token : string)
  | OpLogout (token : string).

Definition exec cfg (now : Z) (op : AuthOp) (w : rworld R) : rworld R :=
  match op with
  | OpChallenge nonce pk => world_of (challenge cfg now nonce pk) w
  | OpVerify raw pk nonce sig => world_of (verify cfg now raw pk nonce sig) w
  | OpRefresh raw tok => world_of (refresh hash sign cfg now raw tok) w
  | OpLogout tok => world_of (logout hash tok) w
  end.

Definition exec_all cfg (ops : list (Z * AuthOp)) (w : rworld R) : rworld R :=
  foldl (λ w o, exec cfg o.1 o.2 w) w ops.

(** The operation does not draw the nonce again. *)
Definition fresh_for (nonce : string) (op : AuthOp) : Prop :=
  match op with OpChallenge n _ => n ≠ nonce | _ => True end.

Lemma keeps_dead_lift {A} k t (x : result AuthError A) : keeps (stays_dead (R:=R) k t) (lift_result x).
Proof. by intros w Hd. Qed.

Lemma open_session_dead cfg nonce t now raw wallet :
  keeps (stays_dead (nonce_key nonce) t) (open_session hash sign cfg now raw wallet).
Proof. unfold open_session, issue. dead_walk. Qed.

Lemma consume_nonce_dead nonce n t now : keeps (stays_dead (nonce_key nonce) t) (consume_nonce now n).
Proof. unfold consume_nonce. dead_walk. Qed.

Lemma revokeAll_dead nonce t now wallet :
  keeps (stays_dead (nonce_key nonce) t) (revokeAllForWallet now wallet).
Proof. unfold revokeAllForWallet, revoke_key. dead_walk. Qed.

Lemma exec_dead cfg nonce t now op w :
  fresh_for nonce op → dead (nonce_key nonce) t (rstate w) → dead (nonce_key nonce) t (rstate (exec cfg now op w)).
Proof.
  intros Hf. generalize w. destruct op as [n pk|raw pk n sig|raw tok|tok]; simpl in *.
  - change (keeps (stays_dead (nonce_key nonce) t) (challenge cfg now n pk)).
    unfold generateChallenge, store_nonce. keeps_walk; [apply keeps_dead_lift|].
    apply keeps_dead_set. intros E. apply str_app_inj_l in E. congruence.
  - change (keeps (stays_dead (nonce_key nonce) t) (verify cfg now raw pk n sig)).
    unfold verifyChallenge. keeps_walk; first [apply keeps_dead_lift|apply consume_nonce_dead|apply open_session_dead].
  - change (keeps (stays_dead (nonce_key nonce) t) (refresh hash sign cfg now raw tok)).
    unfold refresh, consume_refresh. dead_walk; first [apply revokeAll_dead|apply open_session_dead].
  - change (keeps (stays_dead (nonce_key nonce) t) (logout hash tok)).
    unfold logout, revoke. dead_walk.
Qed.

Lemma exec_all_dead cfg nonce t ops w :
  Forall (λ o, fresh_for nonce o.2) ops → dead (nonce_key nonce) t (rstate w) →
  dead (nonce_key nonce) t (rstate (exec_all cfg ops w)).
Proof.
  revert w. unfold exec_all. induction ops as [|o ops IH]; intros w Hf Hd; [done|].
  apply Forall_cons in Hf as [Ho Hf]. simpl. apply IH; [done|]. by apply exec_dead.
Qed.

(** A consumed nonce is dead, on a server that answers. *)
Lemma consume_nonce_healthy now nonce (r : R) :
  ∃ r', consume_nonce now nonce (healthy r) = (Ok (r_get now (nonce_key nonce) r), healthy r') ∧
    dead (nonce_key nonce) now r'.
Proof.
  unfold consume_nonce, redis_get, redis_del, try_catch, bind. rewrite query_healthy.
  destruct (r_get now (nonce_key nonce) r) as [v|] eqn:Hg.
  - rewrite update_healthy. eexists. split; [done|]. intros t' _. apply get_del.
  - eexists. split; [done|]. by apply dead_of_none.
Qed.

(** A dead nonce never logs anyone in, whatever fails. *)
Lemma verify_dead cfg now raw pk nonce sig w t :
  t ≤ now → dead (nonce_key nonce) t (rstate w) →
  ∃ e w', verify cfg now raw pk nonce sig w = (Throw e, w').
Proof.
  intros Ht Hd. unfold verifyChallenge, bind, lift_result.
  destruct (canonical pk) as [k|e]; [|by eexists _, _].
  assert (Hc : ∃ w', consume_nonce now nonce w = (Ok None, w')).
  { unfold consume_nonce, redis_get, try_catch, bind, query, cmd.
    destruct w as [r [|[] fs]]; simpl in *; rewrite ?(Hd now Ht); by eexists. }
  destruct Hc as (w' & ->). by eexists _, _.
Qed.

(** A verification that reached the nonce leaves it dead. *)
Lemma verify_kills cfg now raw pk nonce sig (r : R) k :
  canonical pk = Ok k →
  dead (nonce_key nonce) now (rstate (world_of (verify cfg now raw pk nonce sig) (healthy r))).
Proof.
  intros Hk. unfold world_of, verifyChallenge. rewrite Hk.
  destruct (consume_nonce_healthy now nonce r) as (r' & Hrun & Hd).
  unfold bind at 1, lift_result. unfold bind. rewrite Hrun.
  destruct (r_get now (nonce_key nonce) r) as [[key msg| |]|]; try exact Hd.
  case_bool_decide; [|exact Hd]. destruct (verifyEd25519 _ _ _ _); [|exact Hd].
  by apply open_session_dead.
Qed.

(** C12: Challenge nonces are single use.  Once a verification with a well-formed key has been attempted
    with a nonce while the server answers, then after any history of further requests (challenges with
    other nonces, verifications, refreshes, logouts), with any failures, every later verification with
    that nonce is refused, whatever key and signature it carries. *)
Theorem nonce_single_use cfg now raw pk nonce sig (r : R) k ops fs now2 raw2 pk2 sig2 :
  canonical pk = Ok k → Forall (λ o, fresh_for nonce o.2) ops → now ≤ now2 →
  let w1 := world_of (verify cfg now raw pk nonce sig) (healthy r) in
  let w2 := exec_all cfg ops (RWorld (rstate w1) fs) in
  ∃ e w3, verify cfg now2 raw2 pk2 nonce sig2 w2 = (Throw e, w3).
Proof.
  intros Hk Hops Ht w1 w2. apply (verify_dead _ _ _ _ _ _ _ now Ht).
  apply exec_all_dead; [done|]. by apply (verify_kills _ _ _ _ _ _ _ k).
Qed.

(** C4: A login is backed by a challenge and a signature.  If a verification resolves, in any world, then
    a challenge issued to the same canonical key was stored under the nonce, the signature verifies for
    that key over the stored message, and the access token is the signer's output for claims that name
    the key as subject, carry scope "user" only and last fifteen minutes. *)
Theorem login_sound cfg now raw pk nonce sig w s w' :
  verify cfg now raw pk nonce sig w = (Ok s, w') →
  ∃ k msg, canonical pk = Ok k ∧ r_get now (nonce_key nonce) (rstate w) = Some (SChallenge k msg) ∧
    keypair_verify k msg sig = Ok true ∧
    token s = sign {| sub := k; walletAddress := k; scope := "user"; iat := now / 1000;
                      exp_ := now / 1000 + 900 |} (currentKey (keys cfg)).
Proof.
  intros Hrun. apply bind_ok_inv in Hrun as (k & w1 & Hk & Hrun). unfold lift_result in Hk.
  apply pair_eq in Hk as [Hk ->].
  apply bind_ok_inv in Hrun as (st & w2 & Hst & Hrun).
  assert (Hget : ∀ v, st = Some v → r_get now (nonce_key nonce) (rstate w1) = Some v).
  { intros v ->. revert Hst. unfold consume_nonce, redis_get, redis_del, try_catch, bind, query, update, cmd, ret.
    destruct w1 as [r [|[] [|[] fs]]]; simpl;
      destruct (r_get now (nonce_key nonce) r); simpl; intros; by simplify_eq. }
  destruct st as [[key msg| |]|]; try (unfold throw in Hrun; simplify_eq).
  specialize (Hget _ eq_refl).
  case_bool_decide as Heq; [subst key|unfold throw in Hrun; simplify_eq].
  unfold verifyEd25519 in Hrun. destruct (keypair_verify k msg sig) as [[]|] eqn:Hv;
    try (unfold throw in Hrun; simplify_eq).
  exists k, msg. split_and!; [done|done|done|].
  unfold open_session, issue in Hrun.
  apply bind_ok_inv in Hrun as (x & w3 & _ & Hret). unfold ret in Hret. by simplify_eq.
Qed.

(** The single-use guarantee needs the delete to succeed.  The Redis wrapper swallows errors, so when
    the delete of a consumed nonce is rejected the same nonce is handed out again to the next request. *)
Theorem nonce_replayed_when_delete_fails now now2 nonce pk msg (r : R) :
  now2 ≤ now → r_get now (nonce_key nonce) r = Some (SChallenge pk msg) →
  ∃ w', consume_nonce now nonce (RWorld r [false; true]) = (Ok (Some (SChallenge pk msg)), w') ∧
    value_of (consume_nonce now2 nonce) w' = Ok (Some (SChallenge pk msg)).
Proof.
  intros Ht Hg. unfold value_of, consume_nonce, redis_get, redis_del, try_catch, bind, query, update, cmd, ret. simpl.
  rewrite Hg. simpl. eexists. split; [done|]. simpl.
  by rewrite (get_stable now2 now _ r _ Ht Hg).
Qed.
End histories.

(** ** Refresh tokens *)
Section refresh_tokens.
Context {R : Type} `{RedisStringLaws stored R}.
Context (hash : string → string).

(** [k] holds no refresh record of [wallet]. *)
Definition gone (now : Z) (wallet k : string) (r : R) : Prop :=
  ∀ rot, r_get now k r ≠ Some (SRefresh wallet rot).

Definition revoke_pure (now : Z) (wallet : string) (r : R) (k : string) : R :=
  match r_get now k r with
  | Some (SRefresh w _) => if bool_decide (w = wallet) then r_del k r else r
  | _ => r
  end.

Lemma revoke_key_healthy now wallet k r :
  revoke_key now wallet k (healthy r) = (Ok tt, healthy (revoke_pure now wallet r k)).
Proof.
  unfold revoke_key, revoke_pure, redis_get, redis_del, try_catch, bind. rewrite query_healthy.
  destruct (r_get now k r) as [[]|]; try done. case_bool_decide; done.
Qed.

Lemma revoke_pure_gone now wallet r k : gone now wallet k (revoke_pure now wallet r k).
Proof.
  intros rot. unfold revoke_pure. destruct (r_get now k r) as [[|w rot'|]|] eqn:Hg; try by rewrite Hg.
  case_bool_decide; [by rewrite get_del|]. rewrite Hg. congruence.
Qed.

Lemma revoke_pure_keeps now wallet r k k' : gone now wallet k r → gone now wallet k (revoke_pure now wallet r k').
Proof.
  intros Hg rot. unfold revoke_pure. destruct (r_get now k' r) as [[|w rot'|]|]; try apply Hg.
  case_bool_decide; [|apply Hg]. destruct (decide (k' = k)) as [->|Hne]; [by rewrite get_del|].
  rewrite get_del_ne by done. apply Hg.
Qed.

Lemma fold_keeps now wallet ks r k :
  gone now wallet k r → gone now wallet k (foldl (revoke_pure now wallet) r ks).
Proof. revert r. induction ks as [|x ks IH]; intros r Hg; [done|]. simpl. apply IH, revoke_pure_keeps, Hg. Qed.

Lemma fold_gone now wallet ks r k :
  k ∈ ks → gone now wallet k (foldl (revoke_pure now wallet) r ks).
Proof.
  revert r. induction ks as [|x ks IH]; intros r Hin; [by apply elem_of_nil in Hin|]. simpl.
  apply elem_of_cons in Hin as [->|Hin]; [|by apply IH]. apply fold_keeps, revoke_pure_gone.
Qed.

Lemma fold_pages_gone now wallet pages r k :
  (gone now wallet k r ∨ ∃ ks, ks ∈ pages ∧ k ∈ ks) →
  gone now wallet k (foldl (foldl (revoke_pure now wallet)) r pages).
Proof.
  revert r. induction pages as [|p ps IH]; intros r Hk; simpl.
  { destruct Hk as [Hk|(ks & Hin & _)]; [done|]. by apply elem_of_nil in Hin. }
  apply IH. destruct Hk as [Hk|(ks & Hin & Hks)]; [left; by apply fold_keeps|].
  apply elem_of_cons in Hin as [->|Hin]; [left; by apply fold_gone|right; eauto].
Qed.

(** Revoking a wallet on a healthy server leaves none of its tokens. *)
Lemma revokeAll_healthy now wallet (r : R) :
  ∃ r', revokeAllForWallet now wallet (healthy r) = (Ok tt, healthy r') ∧
    ∀ k, startsWith k PREFIX = true → gone now wallet k r'.
Proof.
  eexists. split.
  - unfold revokeAllForWallet, try_catch, raw_cmd, try_catch, bind at 1. rewrite query_healthy.
    rewrite (for_each_healthy _ (foldl (revoke_pure now wallet))); [done|].
    intros ks r0. unfold bind. rewrite query_healthy.
    apply for_each_healthy. intros k r1. apply revoke_key_healthy.
  - intros k Hk. apply fold_pages_gone. destruct (r_get now k r) as [v|] eqn:Hg.
    + right. apply scan_complete; [done|by eexists].
    + left. intros rot. by rewrite Hg.
Qed.

Lemma refresh_key_prefix raw : startsWith (refresh_key hash raw) PREFIX = true.
Proof. unfold refresh_key, PREFIX, startsWith. simpl. by destruct (hash raw). Qed.

(** Refresh tokens rotate.  An issued token can be exchanged once, for the wallet it was issued to; a
    second exchange is always refused.  Within sixty seconds of the first exchange the second is taken
    for theft: every refresh token of the wallet is revoked.  Later it is refused like an unknown token
    and revokes nothing. *)
Theorem refresh_rotation now1 now2 raw wallet ttl t0 (r0 : R) :
  t0 ≤ now1 < t0 + ttl * 1000 → now1 ≤ now2 →
  ∃ r1 r2 r3 e,
    issue hash t0 ttl raw wallet (healthy r0) = (Ok raw, healthy r1) ∧
    consume_refresh hash now1 raw (healthy r1) = (Ok wallet, healthy r2) ∧
    consume_refresh hash now2 raw (healthy r2) = (Throw e, healthy r3) ∧
    (now2 < now1 + 60000 → ∀ raw', gone now2 wallet (refresh_key hash raw') r3) ∧
    (now1 + 60000 ≤ now2 → r3 = r2).
Proof.
  intros Ht Hle. set (k := refresh_key hash raw).
  set (r1 := r_setex t0 k (SRefresh wallet false) ttl r0).
  set (r2 := r_setex now1 k (SRefresh wallet true) 60 r1).
  assert (H1 : r_get now1 k r1 = Some (SRefresh wallet false)).
  { unfold r1. rewrite get_setex by lia. by rewrite decide_True by lia. }
  destruct (revokeAll_healthy now2 wallet r2) as (r3 & Hrev & Hgone).
  exists r1, r2.
  assert (Hissue : issue hash t0 ttl raw wallet (healthy r0) = (Ok raw, healthy r1)) by done.
  assert (Hc1 : consume_refresh hash now1 raw (healthy r1) = (Ok wallet, healthy r2)).
  { unfold consume_refresh, redis_get, redis_set, try_catch, bind. rewrite query_healthy.
    fold k. rewrite H1. done. }
  assert (H2 : r_get now2 k r2 = if decide (now2 < now1 + 60 * 1000) then Some (SRefresh wallet true) else None)
    by (unfold r2; by rewrite get_setex).
  case_decide as Hsoon.
  - exists r3. eexists. do 2 (split; [done|]). split; [|split; [|lia]].
    + unfold consume_refresh, redis_get, try_catch at 1, bind. rewrite query_healthy. fold k. rewrite H2, Hrev. done.
    + intros _ raw'. apply Hgone, refresh_key_prefix.
  - exists r2. eexists. do 2 (split; [done|]). split; [|split; [lia|done]].
    unfold consume_refresh, redis_get, try_catch, bind. rewrite query_healthy. fold k. by rewrite H2.
Qed.

(** A logout ends the session: after the refresh token is revoked on a server that answers, it is
    refused whenever it is next presented. *)
Theorem logout_revokes raw (r : R) :
  ∃ r', logout hash raw (healthy r) = (Ok tt, healthy r') ∧
    ∀ now, ∃ e, consume_refresh hash now raw (healthy r') = (Throw (Unauthorized e), healthy r').
Proof.
  eexists. split; [done|]. intros now. eexists. unfold consume_refresh, redis_get, try_catch, bind.
  rewrite query_healthy, get_del. done.
Qed.

(** A revoked access token is refused until it would have expired: from the moment of revocation, and
    for as long as the token's own expiry lies ahead, validation of a payload with that token id throws. *)
Theorem revoked_token_refused jti exp now wallet (r : R) :
  jti ≠ "" → wallet ≠ "" →
  ∃ r', revokeToken now jti exp (healthy r) = (Ok tt, healthy r') ∧
    ∀ t, now ≤ t < exp * 1000 → validate t (Some wallet) (Some jti) (healthy r') =
      (Throw (Unauthorized "Token has been revoked"), healthy r').
Proof.
  intros Hj Hw. assert (Htr : ∀ s, s ≠ "" → truthy (Some s) = Some s) by (by intros []).
  pose proof (Z.div_mod now 1000 ltac:(lia)). pose proof (Z.mod_pos_bound now 1000 ltac:(lia)).
  unfold revokeToken, blacklistToken. destruct (Z.leb_spec (Z.max 0 (exp - now / 1000)) 0).
  { exists r. split; [done|]. intros t Ht. lia. }
  rewrite Z.max_r by lia. eexists. split; [done|]. intros t Ht. unfold validate. rewrite !Htr by done.
  unfold isBlacklisted, raw_cmd, try_catch, bind. rewrite query_healthy, get_setex by lia.
  rewrite decide_True by lia. rewrite bool_decide_eq_true_2 by (by eexists). done.
Qed.
End refresh_tokens.

(** ** Keys and roles *)

(** Signing keys rotate without invalidating tokens in flight: after the current secret becomes the
    previous one under its own key id and a new secret is installed under a different key id, tokens of
    either id are verified with the secret they were signed with, and a token of any other id, or with an
    unreadable header, is refused; exactly these two secrets are accepted. *)
Theorem key_rotation old_secret old_kid new_secret new_kid k :
  old_kid ≠ new_kid → old_secret ≠ "" → new_secret ≠ "" →
  let ks := mk_keys (Some new_secret) (Some new_kid) (Some old_secret) (Some old_kid) in
  secretOrKeyProvider ks (Some (Some old_kid)) = Ok old_secret ∧
  secretOrKeyProvider ks (Some (Some new_kid)) = Ok new_secret ∧
  secretOrKeyProvider ks (Some None) = Ok new_secret ∧
  (k ≠ old_kid → k ≠ new_kid → is_ok (secretOrKeyProvider ks (Some (Some k))) = false) ∧
  is_ok (secretOrKeyProvider ks None) = false ∧
  acceptedSecrets ks = [new_secret; old_secret].
Proof.
  intros Hk Ho Hn ks.
  assert (Htr : ∀ s, s ≠ "" → truthy (Some s) = Some s) by (by intros []).
  assert (Hks : ks = {| currentKey := {| kid := new_kid; secret := new_secret |};
                        previousKey := Some {| kid := old_kid; secret := old_secret |} |}).
  { unfold ks, mk_keys. by rewrite Htr. }
  rewrite Hks. unfold secretOrKeyProvider, secretForKid. cbn [currentKey previousKey kid secret default].
  rewrite (bool_decide_eq_false_2 (old_kid = new_kid)), !(bool_decide_eq_true_2 (_ = _)), !Htr by done.
  split_and!; try done. intros H1 H2. by rewrite !bool_decide_eq_false_2 by done.
Qed.

(** The roles guard admits a request exactly when the route is public, names no role, or names a role
    the authenticated user has; it throws Forbidden otherwise. *)
Theorem rolesGuard_spec isPublic required user :
  is_ok (rolesGuard isPublic required user) = true ↔
    isPublic = true ∨ default [] required = [] ∨
    ∃ role, role ∈ default [] required ∧ role ∈ default [] (default None user).
Proof.
  unfold rolesGuard. destruct isPublic; [naive_solver|].
  destruct required as [[|q qs]|]; [simpl; naive_solver| |simpl; naive_solver].
  destruct user as [roles|]; cbn [default].
  - assert (Hb : existsb (λ r, bool_decide (r ∈ default [] roles)) (q :: qs) = true ↔
                 ∃ role, role ∈ q :: qs ∧ role ∈ default [] roles).
    { rewrite existsb_exists. setoid_rewrite bool_decide_eq_true. by setoid_rewrite list_elem_of_In. }
    destruct (existsb _ _); simpl; naive_solver.
  - simpl. split; [done|]. intros [|[|(x & _ & Hx)]]; [done..|]. by apply elem_of_nil in Hx.
Qed.

(** ** Witnesses *)
Module AuthWitnesses.
Import Sample.

Definition valid (s : string) : bool := startsWith s "G".
Definition contract (s : string) : bool := startsWith s "C".
Definition muxed (s : string) : result string string := Throw "not muxed".
(** A toy scheme: the signature is the message itself. *)
Definition check (k m s : string) : result string bool := Ok (bool_decide (m = s)).
Definition hash0 (s : string) : string := s.
Definition sign0 (c : Claims) (k : JwtKey) : string := sub c +:+ secret k.
Definition cfg0 : AuthConfig := {| domain := "niffyinsure.local"; nonce_ttl := 300; refresh_ttl := 604800;
  keys := mk_keys (Some "s3cret") None None None |}.
Definition r0 : strings stored := [("nonce:n1", (SChallenge "GABC" "msg", 300000))].

Lemma nonce_single_use_witness :
  let w1 := world_of (verifyChallenge valid contract muxed check hash0 sign0 cfg0 1000 "t1" "GABC" "n1" "msg")
              (healthy r0) in
  let w2 := exec_all valid contract muxed check hash0 sign0 cfg0 [(2000, OpChallenge "n2" "GABC"); (3000, OpLogout "t1")]
              (RWorld (rstate w1) []) in
  ∃ e w3, verifyChallenge valid contract muxed check hash0 sign0 cfg0 4000 "t2" "GABC" "n1" "msg" w2 = (Throw e, w3).
Proof.
  apply (nonce_single_use valid contract muxed check hash0 sign0 cfg0 1000 "t1" "GABC" "n1" "msg" r0 "GABC").
  - reflexivity.
  - apply Forall_cons. split; [simpl; discriminate|]. apply Forall_cons. split; [exact I|apply Forall_nil; exact I].
  - lia.
Defined.

Lemma login_sound_witness :
  ∃ s w' k msg,
    verifyChallenge valid contract muxed check hash0 sign0 cfg0 1000 "t1" "GABC" "n1" "msg" (healthy r0) = (Ok s, w') ∧
    canonical_key valid contract muxed "GABC" = Ok k ∧ check k msg "msg" = Ok true.
Proof.
  assert (Hrun : verifyChallenge valid contract muxed check hash0 sign0 cfg0 1000 "t1" "GABC" "n1" "msg" (healthy r0)
    = (Ok {| token := "GABCs3cret"; expiresAt := "1970-01-01T00:15:01.000Z"; refreshToken := "t1" |},
       world_of (verifyChallenge valid contract muxed check hash0 sign0 cfg0 1000 "t1" "GABC" "n1" "msg") (healthy r0)))
    by (vm_compute; reflexivity).
  destruct (login_sound valid contract muxed check hash0 sign0 cfg0 1000 "t1" "GABC" "n1" "msg" (healthy r0) _ _ Hrun)
    as (k & msg & H1 & _ & H3 & _).
  eexists _, _, k, msg. split; [exact Hrun|]. split; [exact H1|exact H3].
Defined.

Lemma nonce_replayed_witness :
  ∃ w', consume_nonce 1000 "n1" (RWorld r0 [false; true]) = (Ok (Some (SChallenge "GABC" "msg")), w') ∧
    value_of (consume_nonce 1000 "n1") w' = Ok (Some (SChallenge "GABC" "msg")).
Proof. apply (nonce_replayed_when_delete_fails 1000 1000 "n1" "GABC" "msg" r0); [lia|reflexivity]. Defined.

Lemma refresh_rotation_witness :
  ∃ r1 r2 r3 e,
    issue hash0 0 604800 "t1" "GABC" (healthy r0) = (Ok "t1", healthy r1) ∧
    consume_refresh hash0 5000 "t1" (healthy r1) = (Ok "GABC", healthy r2) ∧
    consume_refresh hash0 6000 "t1" (healthy r2) = (Throw e, healthy r3) ∧
    ∀ raw', gone 6000 "GABC" (refresh_key hash0 raw') r3.
Proof.
  destruct (refresh_rotation hash0 5000 6000 "t1" "GABC" 604800 0 r0) as (r1 & r2 & r3 & e & H1 & H2 & H3 & H4 & _);
    [lia|lia|].
  exists r1, r2, r3, e. split; [exact H1|]. split; [exact H2|]. split; [exact H3|]. apply H4. lia.
Defined.

Lemma logout_revokes_witness :
  ∃ r', logout hash0 "t1" (healthy r0) = (Ok tt, healthy r') ∧
    ∀ now, ∃ e, consume_refresh hash0 now "t1" (healthy r') = (Throw (Unauthorized e), healthy r').
Proof. exact (logout_revokes hash0 "t1" r0). Defined.

Lemma revoked_token_refused_witness :
  ∃ r', revokeToken 1500 "j1" 60 (healthy r0) = (Ok tt, healthy r') ∧
    validate 59000 (Some "GABC") (Some "j1") (healthy r') =
      (Throw (Unauthorized "Token has been revoked"), healthy r').
Proof.
  destruct (revoked_token_refused "j1" 60 1500 "GABC" r0) as (r' & H1 & H2); [discriminate|discriminate|].
  exists r'. split; [exact H1|]. apply H2. lia.
Defined.

Lemma key_rotation_witness :
  secretOrKeyProvider (mk_keys (Some "new") (Some "v2") (Some "old") (Some "v1")) (Some (Some "v1")) = Ok "old".
Proof.
  destruct (key_rotation "old" "v1" "new" "v2" "v9") as (H1 & _); [discriminate|discriminate|discriminate|exact H1].
Defined.

End AuthWitnesses.
