(* ===== verification/Renewal.v ===== *)
(** * Policy renewal

    backend/src/policy: the renewal window and its preconditions, quotes and
    unsigned renewal transactions (renewal.service.ts, renewal.constants.ts),
    and the scan that queues expiry reminders (renewal-reminder.service.ts,
    renewal-reminder.job.ts).  The premium simulation and the transaction
    builder (Soroban RPC), Postgres and the BullMQ queue are parameters. *)

From stdpp Require Import base list strings sorting.
From Stdlib Require Import ZArith Lia Ascii.
From S2P Require Import Prelude JsText Native Indexer.

Open Scope string_scope.
Open Scope Z_scope.

(** Models [SECONDS_PER_LEDGER] (backend/src/policy/renewal.constants.ts:46-46). *)
Definition SECONDS_PER_LEDGER : Z := 5.
(** Models [POLICY_DURATION_LEDGERS] (backend/src/policy/renewal.constants.ts:52-52). *)
Definition POLICY_DURATION_LEDGERS : Z := 6307200.
(** Models [RENEWAL_OPEN_LEDGERS_BEFORE_EXPIRY] (backend/src/policy/renewal.constants.ts:60-60). *)
Definition RENEWAL_OPEN_LEDGERS_BEFORE_EXPIRY : Z := 120960.
(** Models [RENEWAL_GRACE_LEDGERS_AFTER_EXPIRY] (backend/src/policy/renewal.constants.ts:75-75). *)
Definition RENEWAL_GRACE_LEDGERS_AFTER_EXPIRY : Z := 17280.
(** Models [BLOCKING_CLAIM_STATUSES] (backend/src/policy/renewal.constants.ts:92-92). *)
Definition BLOCKING_CLAIM_STATUSES : list ClaimStatus := [PENDING].
(** Models [MAX_I128] (backend/src/policy/renewal.service.ts:62-62). *)
Definition MAX_I128 : Z := 170141183460469231731687303715884105727.

(** ** Rows and requests *)

(** A policy row with the statuses and deletion marks of its claims. *)
Record Policy := {
  p_policyId : Z;
  p_policyType : string;
  p_region : string;
  p_premium : string;
  p_isActive : bool;
  p_endLedger : Z;
  p_assetContractId : option string;
  p_deletedAt : option Z;
  p_claims : list (ClaimStatus * option Z);
}.

Record RenewalDto := {
  holder : string;
  policy_id : Z;
  age : Z;
  risk_score : Z;
  duration_ledgers : option Z;
  asset : option string;
}.

Inductive RenewalError :=
  | NotFound (code : string)
  | BadRenewal (code : string)
  | Dependency (e : string).

Record Quote := {
  q_premiumStroops : string;
  q_previousEndLedger : Z;
  q_newEndLedger : Z;
  q_currentLedger : Z;
  q_windowOpenLedger : Z;
  q_windowCloseLedger : Z;
}.

(** What a renewal persists and announces. *)
Record Renewal := {
  n_policyCompositeId : string;
  n_holderAddress : string;
  n_previousEndLedger : Z;
  n_newEndLedger : Z;
  n_premiumPaidStroops : string;
}.

Record BuildRequest := {
  b_holder : string;
  b_policyId : Z;
  b_asset : option string;
  b_newStartLedger : Z;
  b_newEndLedger : Z;
}.

Section renewal.
Context `{Tables}.

(** The policy table, the renewal records and the event bus. *)
Record rnworld := RnWorld {
  rn_policies : Tbl string Policy;
  rn_records : list Renewal;
  rn_bus : list Renewal;
}.
Abbreviation MN A := (M rnworld RenewalError A).

(** The answers of the services during one request. *)
Record Services := {
  s_latestLedger : result string Z;
  s_simulate : string → string → Z → Z → string → result string string;
  s_build : BuildRequest → result string string;
  s_create : result string ();
}.

Definition dep {A} (r : result string A) : MN A :=
  λ w, (match r with Ok a => Ok a | Throw e => Throw (Dependency e) end, w).

Definition composite_id (dto : RenewalDto) : string := holder dto +:+ ":" +:+ show_Z (policy_id dto).

(** The live row of the policy and the live claims in it. *)
Definition find_policy (id : string) (t : Tbl string Policy) : option Policy :=
  match tget id t with
  | Some p => match p_deletedAt p with None => Some p | Some _ => None end
  | None => None
  end.
Definition live_claims (p : Policy) : list ClaimStatus :=
  omap (λ c, match snd c with None => Some (fst c) | Some _ => None end) (p_claims p).

(** Models [validateRenewalEligibility] (backend/src/policy/renewal.service.ts:207-277). *)
Definition validateRenewalEligibility (sv : Services) (dto : RenewalDto) : MN (Policy * Z) :=
  λ w,
  match find_policy (composite_id dto) (rn_policies w) with
  | None => (Throw (NotFound "POLICY_NOT_FOUND"), w)
  | Some policy =>
      (if negb (p_isActive policy) then throw (BadRenewal "POLICY_INACTIVE")
       else
         let* currentLedger := dep (s_latestLedger sv) in
         let windowOpen := p_endLedger policy - RENEWAL_OPEN_LEDGERS_BEFORE_EXPIRY in
         let windowClose := p_endLedger policy + RENEWAL_GRACE_LEDGERS_AFTER_EXPIRY in
         if currentLedger <? windowOpen then throw (BadRenewal "RENEWAL_TOO_EARLY")
         else if windowClose <=? currentLedger then throw (BadRenewal "RENEWAL_TOO_LATE")
         else if existsb (λ s, bool_decide (s ∈ BLOCKING_CLAIM_STATUSES)) (live_claims policy) then
           throw (BadRenewal "OPEN_CLAIM_BLOCKS_RENEWAL")
         else ret (policy, currentLedger)) w
  end.

(** Models [quoteRenewal] (backend/src/policy/renewal.service.ts:77-100). *)
Definition quoteRenewal (sv : Services) (dto : RenewalDto) : MN Quote :=
  let* pc := validateRenewalEligibility sv dto in
  let '(policy, currentLedger) := pc in
  let* premium := dep (s_simulate sv (p_policyType policy) (p_region policy) (age dto) (risk_score dto) (holder dto)) in
  let newEndLedger := p_endLedger policy + default POLICY_DURATION_LEDGERS (duration_ledgers dto) in
  ret {| q_premiumStroops := premium; q_previousEndLedger := p_endLedger policy;
         q_newEndLedger := newEndLedger; q_currentLedger := currentLedger;
         q_windowOpenLedger := p_endLedger policy - RENEWAL_OPEN_LEDGERS_BEFORE_EXPIRY;
         q_windowCloseLedger := p_endLedger policy + RENEWAL_GRACE_LEDGERS_AFTER_EXPIRY |}.

(** [BigInt(s)], which throws on a malformed literal. *)
Definition BigInt_ (s : string) : MN Z :=
  match Number_str s with Some z => ret z | None => throw (Dependency "SyntaxError") end.

(** The request handed to the transaction builder. *)
Definition build_request (policy : Policy) (dto : RenewalDto) : BuildRequest :=
  let durationLedgers := default POLICY_DURATION_LEDGERS (duration_ledgers dto) in
  let newStartLedger := p_endLedger policy + 1 in
  {| b_holder := holder dto; b_policyId := p_policyId policy;
     b_asset := match asset dto with Some a => Some a | None => p_assetContractId policy end;
     b_newStartLedger := newStartLedger; b_newEndLedger := newStartLedger + durationLedgers - 1 |}.

(** Models [buildRenewalTransaction] (backend/src/policy/renewal.service.ts:108-199). *)
Definition buildRenewalTransaction (sv : Services) (dto : RenewalDto) : MN Quote :=
  let* pc := validateRenewalEligibility sv dto in
  let '(policy, currentLedger) := pc in
  let req := build_request policy dto in
  let* premiumStroops := dep (s_build sv req) in
  let* existingPremium := BigInt_ (p_premium policy) in
  let* renewalPremium := BigInt_ premiumStroops in
  let newCumulative := existingPremium + renewalPremium in
  if MAX_I128 <? newCumulative then throw (BadRenewal "PREMIUM_OVERFLOW")
  else
    let record := {| n_policyCompositeId := composite_id dto; n_holderAddress := holder dto;
      n_previousEndLedger := p_endLedger policy; n_newEndLedger := b_newEndLedger req;
      n_premiumPaidStroops := premiumStroops |} in
    do* dep (s_create sv) in
    do* (λ w, (Ok tt, RnWorld (rn_policies w) (rn_records w ++ [record])%list (rn_bus w))) in
    do* (λ w, (Ok tt, RnWorld (rn_policies w) (rn_records w) (rn_bus w ++ [record])%list)) in
    ret {| q_premiumStroops := premiumStroops; q_previousEndLedger := p_endLedger policy;
           q_newEndLedger := b_newEndLedger req; q_currentLedger := currentLedger;
           q_windowOpenLedger := p_endLedger policy - RENEWAL_OPEN_LEDGERS_BEFORE_EXPIRY;
           q_windowCloseLedger := p_endLedger policy + RENEWAL_GRACE_LEDGERS_AFTER_EXPIRY |}.

(** ** Properties *)

(** What a renewable policy is. *)
Definition renewable (policy : Policy) (ledger : Z) : Prop :=
  p_isActive policy = true ∧
  p_endLedger policy - 120960 ≤ ledger < p_endLedger policy + 17280 ∧
  PENDING ∉ live_claims policy.

Lemma blocking_spec (p : Policy) :
  existsb (λ s, bool_decide (s ∈ BLOCKING_CLAIM_STATUSES)) (live_claims p) = true ↔ PENDING ∈ live_claims p.
Proof.
  rewrite existsb_exists. split.
  - intros (x & Hin & Hx). bool_prop. apply list_elem_of_singleton in Hx as ->. by apply list_elem_of_In.
  - intros Hin. exists PENDING. split; [by apply list_elem_of_In|done].
Qed.

Lemma validate_cases sv dto w :
  (∃ p l, find_policy (composite_id dto) (rn_policies w) = Some p ∧ s_latestLedger sv = Ok l ∧
     renewable p l ∧ validateRenewalEligibility sv dto w = (Ok (p, l), w)) ∨
  ((∀ p l, find_policy (composite_id dto) (rn_policies w) = Some p → s_latestLedger sv = Ok l → ¬ renewable p l) ∧
   ∃ e, validateRenewalEligibility sv dto w = (Throw e, w)).
Proof.
  unfold validateRenewalEligibility, renewable.
  destruct (find_policy _ _) as [p|]; [|right; split; [done|by eexists]].
  destruct (p_isActive p) eqn:Ha; simpl.
  2: { right. split; [|by eexists]. intros ? ? [= <-] _ (Ha' & _). congruence. }
  unfold bind, dep. destruct (s_latestLedger sv) as [l|]; [|right; split; [done|by eexists]].
  unfold RENEWAL_OPEN_LEDGERS_BEFORE_EXPIRY, RENEWAL_GRACE_LEDGERS_AFTER_EXPIRY.
  destruct (l <? _) eqn:H1; bool_prop.
  { right. split; [|by eexists]. intros ? ? [= <-] [= <-]. lia. }
  destruct (_ <=? l) eqn:H2; bool_prop.
  { right. split; [|by eexists]. intros ? ? [= <-] [= <-]. lia. }
  destruct (existsb _ _) eqn:H3.
  - right. split; [|by eexists]. intros ? ? [= <-] _ (_ & _ & Hn). by apply Hn, blocking_spec.
  - left. exists p, l. split_and!; try done. rewrite <- blocking_spec, H3. done.
Qed.

(** A renewal is quoted exactly for renewable policies: the policy row is live and active, the current
    ledger lies in the half-open window from 120,960 ledgers before expiry to 17,280 after it, no live
    claim is pending, and the simulation answers; a quote never changes anything. *)
Theorem quote_iff_renewable sv dto w :
  snd (quoteRenewal sv dto w) = w ∧
  (is_ok (fst (quoteRenewal sv dto w)) = true ↔
    ∃ p l premium, find_policy (composite_id dto) (rn_policies w) = Some p ∧ s_latestLedger sv = Ok l ∧
      renewable p l ∧
      s_simulate sv (p_policyType p) (p_region p) (age dto) (risk_score dto) (holder dto) = Ok premium).
Proof.
  unfold quoteRenewal, bind.
  destruct (validate_cases sv dto w) as [(p & l & Hp & Hl & Hr & ->)|(Hno & e & ->)].
  - unfold dep. destruct (s_simulate _ _ _ _ _ _) as [pr|e] eqn:Hs; simpl.
    + split; [done|]. split; [|done]. intros _. by exists p, l, pr.
    + split; [done|]. split; [done|]. intros (? & ? & ? & Hp' & _ & _ & Hs'). congruence.
  - simpl. split; [done|]. split; [done|]. intros (p & l & _ & Hp & Hl & Hr & _). by destruct (Hno p l).
Qed.

(** Building a renewal is all or nothing.  It resolves only for a renewable policy whose cumulative
    premium stays within i128; then exactly one record and one event are added, the new term starts the
    ledger after the old one ends, and the quoted end, window and previous end are those a quote of the
    same request gives.  When it throws, nothing is recorded or announced. *)
Theorem build_all_or_nothing sv dto w :
  match buildRenewalTransaction sv dto w with
  | (Throw _, w') => w' = w
  | (Ok q, w') =>
      ∃ p l rec cum paid,
        find_policy (composite_id dto) (rn_policies w) = Some p ∧ s_latestLedger sv = Ok l ∧ renewable p l ∧
        Number_str (p_premium p) = Some cum ∧ Number_str (q_premiumStroops q) = Some paid ∧
        cum + paid ≤ MAX_I128 ∧
        w' = RnWorld (rn_policies w) (rn_records w ++ [rec])%list (rn_bus w ++ [rec])%list ∧
        n_policyCompositeId rec = composite_id dto ∧ n_previousEndLedger rec = p_endLedger p ∧
        n_newEndLedger rec = q_newEndLedger q ∧
        b_newStartLedger (build_request p dto) = p_endLedger p + 1 ∧
        (∀ q0, fst (quoteRenewal sv dto w) = Ok q0 →
           q_newEndLedger q0 = q_newEndLedger q ∧ q_previousEndLedger q0 = q_previousEndLedger q ∧
           q_windowOpenLedger q0 = q_windowOpenLedger q ∧ q_windowCloseLedger q0 = q_windowCloseLedger q)
  end.
Proof.
  unfold buildRenewalTransaction, quoteRenewal, bind.
  destruct (validate_cases sv dto w) as [(p & l & Hp & Hl & Hr & ->)|(Hno & e & ->)]; [|done].
  unfold dep. destruct (s_build sv _) as [premium|e]; [|done].
  unfold BigInt_. destruct (Number_str (p_premium p)) as [cum|] eqn:Hcum; [|done].
  unfold ret. destruct (Number_str premium) as [paid|] eqn:Hpaid; [|done].
  destruct (MAX_I128 <? cum + paid) eqn:Hov; [done|]. bool_prop.
  destruct (s_create sv) as [[]|e]; [|done]. simpl.
  eexists p, l, _, cum, paid. split_and!; try done.
  intros q0. destruct (s_simulate _ _ _ _ _ _); [|done]. simpl. intros [= <-]. simpl.
  split; [|done]. lia.
Qed.
End renewal.
