(* ===== verification/Reminders.v ===== *)
(** * Renewal reminders

    backend/src/policy/renewal-reminder.service.ts and renewal-reminder.job.ts:
    the keyset-paginated scan for policies about to expire, the opt-out check,
    the deduplicated job queue and the guard against overlapping runs. *)

From stdpp Require Import base list strings orders sorting.
From Stdlib Require Import ZArith Lia.
From S2P Require Import Prelude JsText Renewal.

Open Scope string_scope.
Open Scope Z_scope.

(** Models [ReminderType] (backend/src/policy/renewal-reminder.constants.ts:41-41). *)
Inductive ReminderType := R7d | R1d.
Definition show_reminder (r : ReminderType) : string := match r with R7d => "7d" | R1d => "1d" end.

(** Models [REMINDER_WINDOWS] (backend/src/policy/renewal-reminder.constants.ts:52-63). *)
Definition REMINDER_WINDOWS : list (ReminderType * Z) :=
  [(R7d, RENEWAL_OPEN_LEDGERS_BEFORE_EXPIRY); (R1d, 17280)].

(** Models [SCAN_PAGE_SIZE] (backend/src/policy/renewal-reminder.constants.ts:66-66). *)
Definition SCAN_PAGE_SIZE : nat := 500.

(** The columns the scan selects. *)
Record PolicyRef := {
  pf_id : string;
  pf_policyId : Z;
  pf_holderAddress : string;
  pf_endLedger : Z;
}.

(** Models [RenewalReminderJobData] (backend/src/policy/renewal-reminder.job.ts:21-34). *)
Record JobData := {
  j_policyDbId : string;
  j_policyId : Z;
  j_holderAddress : string;
  j_reminderType : ReminderType;
  j_endLedger : Z;
  j_currentLedger : Z;
}.

(** ** The job queue

    BullMQ: adding a job under an id that is still queued is a no-op and
    returns the job that is there. *)
Class JobQueue (Q : Type) := {
  q_find : string → Q → option JobData;
  q_add : string → JobData → Q → Q;
}.
Class JobQueueLaws (Q : Type) `{JobQueue Q} : Prop := {
  find_add_new : ∀ id j (q : Q), q_find id q = None → q_find id (q_add id j q) = Some j;
  find_add_dup : ∀ id j j' (q : Q), q_find id q = Some j' → q_add id j q = q;
  find_add_ne : ∀ id id' j (q : Q), id ≠ id' → q_find id' (q_add id j q) = q_find id' q;
}.

Definition job_id (policyId : Z) (r : ReminderType) : string :=
  "renewal-reminder:" +:+ show_Z policyId +:+ ":" +:+ show_reminder r.

Section scan.
Context {Q : Type} `{JobQueue Q}.
(** The collation order of policy ids. *)
Context (id_lt : relation string) `{!StrictOrder id_lt, !RelDecision id_lt}.
(** The channels enabled for a holder: email, Discord, Telegram. *)
Context (preferences : string → bool * bool * bool).

(** The result of [queue.add] carries the id of the job that is queued.
    Models [enqueueRenewalReminder] (backend/src/policy/renewal-reminder.job.ts:55-67). *)
Definition enqueueRenewalReminder (data : JobData) (q : Q) : option string * Q :=
  let id := job_id (j_policyId data) (j_reminderType data) in
  (Some id, q_add id data q).

Record ScanSummary := {
  scanned : Z;
  enqueued : Z;
  skippedOptOut : Z;
  skippedDeduplicated : Z;
}.
Definition no_rows : ScanSummary :=
  {| scanned := 0; enqueued := 0; skippedOptOut := 0; skippedDeduplicated := 0 |}.

Definition reachable_holder (p : PolicyRef) : bool :=
  let '(email, discord, telegram) := preferences (pf_holderAddress p) in email || discord || telegram.

Definition job_data (currentLedger : Z) (r : ReminderType) (p : PolicyRef) : JobData :=
  {| j_policyDbId := pf_id p; j_policyId := pf_policyId p; j_holderAddress := pf_holderAddress p;
     j_reminderType := r; j_endLedger := pf_endLedger p; j_currentLedger := currentLedger |}.

(** The loop body for one row. *)
Definition scan_row (currentLedger : Z) (r : ReminderType) (sq : ScanSummary * Q) (p : PolicyRef)
  : ScanSummary * Q :=
  let '(s, q) := sq in
  if reachable_holder p then
    match enqueueRenewalReminder (job_data currentLedger r p) q with
    | (Some _, q') => ({| scanned := scanned s + 1; enqueued := enqueued s + 1;
                          skippedOptOut := skippedOptOut s; skippedDeduplicated := skippedDeduplicated s |}, q')
    | (None, q') => ({| scanned := scanned s + 1; enqueued := enqueued s;
                        skippedOptOut := skippedOptOut s;
                        skippedDeduplicated := skippedDeduplicated s + 1 |}, q')
    end
  else ({| scanned := scanned s + 1; enqueued := enqueued s; skippedOptOut := skippedOptOut s + 1;
           skippedDeduplicated := skippedDeduplicated s |}, q).

(** The rows of [findMany]: those after the cursor in id order, at most
    [take] of them; [rows] are the eligible policies in id order. *)
Definition page_after (take_ : nat) (rows : list PolicyRef) (cursor : option string) : list PolicyRef :=
  take take_ (match cursor with
              | None => rows
              | Some c => filter (λ p, id_lt c (pf_id p)) rows
              end).

(** The scan of one window; [None] when [fuel] pages were not enough.
    Models [scanWindow] (backend/src/policy/renewal-reminder.service.ts:142-236). *)
Fixpoint scan_pages (fuel page_size : nat) (currentLedger : Z) (r : ReminderType) (rows : list PolicyRef)
    (cursor : option string) (sq : ScanSummary * Q) : option (ScanSummary * Q) :=
  match fuel with
  | O => None
  | S fuel' =>
      match page_after page_size rows cursor with
      | [] => Some sq
      | p :: ps =>
          let page := p :: ps in
          let sq' := foldl (scan_row currentLedger r) sq page in
          let cursor' := pf_id (default p (last page)) in
          if (length page <? page_size)%nat then Some sq'
          else scan_pages fuel' page_size currentLedger r rows (Some cursor') sq'
      end
  end.

Definition eligible (currentLedger ledgersBeforeExpiry : Z) (p : PolicyRef) : bool :=
  (currentLedger + 1 <=? pf_endLedger p) && (pf_endLedger p <=? currentLedger + ledgersBeforeExpiry).

(** [active] are the active, undeleted policies in id order. *)
Definition scanWindow (currentLedger : Z) (r : ReminderType) (ledgersBeforeExpiry : Z)
    (active : list PolicyRef) (q : Q) : option (ScanSummary * Q) :=
  let rows := filter (λ p, eligible currentLedger ledgersBeforeExpiry p = true) active in
  scan_pages (S (length rows)) SCAN_PAGE_SIZE currentLedger r rows None (no_rows, q).

(** The service state: the run guard and the queue.  A run that is already in
    progress makes this one return at once.
    Models [runScan] (backend/src/policy/renewal-reminder.service.ts:87-131). *)
Definition runScan (currentLedger : option Z) (active : list PolicyRef) (isRunning : bool) (q : Q)
  : option (bool * Q) :=
  if isRunning then Some (true, q)
  else match currentLedger with
       | None | Some 0 => Some (false, q)
       | Some l =>
           let fix go (ws : list (ReminderType * Z)) (q : Q) : option Q :=
             match ws with
             | [] => Some q
             | (r, n) :: ws' =>
                 match scanWindow l r n active q with Some (_, q') => go ws' q' | None => None end
             end in
           match go REMINDER_WINDOWS q with Some q' => Some (false, q') | None => None end
       end.
End scan.

(** ** The scan is complete *)
Section complete.
Context {Q : Type} `{JobQueue Q}.
Context (id_lt : relation string) `{!StrictOrder id_lt, !RelDecision id_lt}.
Context (preferences : string → bool * bool * bool).
Implicit Types (rows : list PolicyRef).

(** Rows in strictly increasing id order. *)
Definition ordered rows : Prop := StronglySorted (λ a b, id_lt (pf_id a) (pf_id b)) rows.

Lemma filter_after rows pre p post :
  ordered rows → rows = (pre ++ p :: post)%list → filter (λ x, id_lt (pf_id p) (pf_id x)) rows = post.
Proof.
  intros Ho ->. apply StronglySorted_app in Ho as (Hpre & _ & Hs).
  apply StronglySorted_inv in Hs as [_ Hpost].
  rewrite filter_app, filter_cons, filter_none, decide_False, filter_all; [done|done| |].
  - apply irreflexivity. apply _.
  - apply Forall_forall. intros x Hx Hlt. assert (id_lt (pf_id x) (pf_id p)) as Hlt' by (apply Hpre; [done|by left]).
    apply (irreflexivity id_lt (pf_id p)). by etrans.
Qed.

(** The scan from a cursor processes the rows after it, in order, once each. *)
Lemma scan_pages_rest fuel n l r rows pre rest cursor sq :
  (0 < n)%nat → ordered rows → rows = (pre ++ rest)%list →
  match cursor with
  | None => pre = []
  | Some c => ∃ p pre', pre = (pre' ++ [p])%list ∧ pf_id p = c
  end →
  (length rest < fuel)%nat →
  scan_pages id_lt preferences fuel n l r rows cursor sq = Some (foldl (scan_row preferences l r) sq rest).
Proof.
  intros Hn Ho. revert pre rest cursor sq.
  induction fuel as [|fuel IH]; intros pre rest cursor sq Hrows Hc Hf; [lia|]. cbn [scan_pages].
  assert (Hpage : page_after id_lt n rows cursor = take n rest).
  { unfold page_after. destruct cursor as [c|].
    - destruct Hc as (p & pre' & -> & <-). f_equal. eapply filter_after; [done|].
      by rewrite Hrows, <- app_assoc.
    - by subst. }
  rewrite Hpage. destruct (take n rest) as [|p ps] eqn:Ht.
  { destruct rest as [|x rest]; [done|]. destruct n; [lia|done]. }
  assert (Hsplit : rest = (p :: ps ++ drop n rest)%list) by (by rewrite app_comm_cons, <- Ht, take_drop).
  destruct (length (p :: ps) <? n)%nat eqn:Hshort.
  - apply Nat.ltb_lt in Hshort. rewrite <- Ht, length_take in Hshort.
    rewrite <- Ht, take_ge by lia. done.
  - rewrite (IH (pre ++ p :: ps)%list (drop n rest)); [|..].
    + f_equal. rewrite Hsplit at 2. rewrite app_comm_cons, foldl_app. done.
    + rewrite Hrows. rewrite <- app_assoc. f_equal. exact Hsplit.
    + destruct (exists_last (l := p :: ps)) as (pre' & x & E); [done|].
      exists x, (pre ++ pre')%list. rewrite E, last_snoc, <- app_assoc. done.
    + rewrite length_drop. assert (length (p :: ps) ≤ length rest)%nat by (rewrite <- Ht, length_take; lia).
      simpl in *. destruct n; [lia|]. destruct rest; simpl in *; lia.
Qed.

(** The counters of a processed list of rows. *)
Lemma foldl_counts l r rows s q :
  let s' := fst (foldl (scan_row preferences l r) (s, q) rows) in
  scanned s' = scanned s + Z.of_nat (length rows) ∧
  enqueued s' = enqueued s + Z.of_nat (length (filter (λ p, reachable_holder preferences p = true) rows)) ∧
  skippedOptOut s' = skippedOptOut s + Z.of_nat (length (filter (λ p, reachable_holder preferences p = false) rows)).
Proof.
  revert s q. induction rows as [|p rows IH]; intros s q; [simpl; lia|]. cbn [foldl].
  destruct (scan_row preferences l r (s, q) p) as [s1 q1] eqn:Hrow.
  destruct (IH s1 q1) as (H1 & H2 & H3). cbv zeta. rewrite H1, H2, H3, !filter_cons. cbn [length].
  revert Hrow. unfold scan_row, enqueueRenewalReminder.
  destruct (reachable_holder preferences p); intros [= <- _]; simpl; rewrite ?decide_True, ?decide_False by done;
    cbn [length]; lia.
Qed.

(** The reminder scan terminates and is exact.  Whatever the number of pages, it visits each active
    policy that expires within the window once and no other, in one pass over the id order; the summary
    counts them, split into queued reminders and holders who opted out of every channel. *)
Theorem scanWindow_complete l r n active (q : Q) :
  ordered active →
  let rows := filter (λ p, eligible l n p = true) active in
  ∃ s q', scanWindow id_lt preferences l r n active q = Some (s, q') ∧
    (s, q') = foldl (scan_row preferences l r) (no_rows, q) rows ∧
    scanned s = Z.of_nat (length rows) ∧
    enqueued s = Z.of_nat (length (filter (λ p, reachable_holder preferences p = true) rows)) ∧
    skippedOptOut s = Z.of_nat (length (filter (λ p, reachable_holder preferences p = false) rows)) ∧
    scanned s = enqueued s + skippedOptOut s.
Proof.
  intros Ho rows. pose proof (foldl_counts l r rows no_rows q) as (H1 & H2 & H3).
  destruct (foldl (scan_row preferences l r) (no_rows, q) rows) as [s q'] eqn:Hfold.
  exists s, q'. split.
  - unfold scanWindow. rewrite (scan_pages_rest _ _ l r _ [] rows); [by rewrite Hfold|..].
    + unfold SCAN_PAGE_SIZE. lia.
    + unfold rows, ordered in *. clear -Ho.
      induction Ho as [|p ps Hs IH Hf]; [constructor|]. rewrite filter_cons. case_decide; [|done].
      constructor; [done|]. by apply Forall_filter_of.
    + done.
    + done.
    + unfold rows. lia.
  - simpl in *. split_and!; [done|lia..|].
    assert (Hpart : (length (filter (λ p, reachable_holder preferences p = true) rows) +
              length (filter (λ p, reachable_holder preferences p = false) rows))%nat = length rows).
    { clear. induction rows as [|p ps IH]; [done|]. rewrite !filter_cons. cbn [length].
      destruct (reachable_holder preferences p); simpl; lia. }
    lia.
Qed.
End complete.

(** ** Job identity *)
Section identity.
Context {Q : Type} `{JobQueueLaws Q}.

(** Reminders of different holders can collide.  The job id is made of the per-holder policy number
    and the window, not of the policy's composite id: when a reminder for one holder's policy is queued,
    enqueueing the reminder of another holder's policy with the same number leaves the queue unchanged
    and still reports success. *)
Theorem reminder_collision (d1 d2 : JobData) (q : Q) :
  j_policyId d1 = j_policyId d2 → j_reminderType d1 = j_reminderType d2 →
  q_find (job_id (j_policyId d1) (j_reminderType d1)) q = None →
  let '(r1, q1) := enqueueRenewalReminder d1 q in
  let '(r2, q2) := enqueueRenewalReminder d2 q1 in
  q2 = q1 ∧ is_Some r2 ∧ q_find (job_id (j_policyId d2) (j_reminderType d2)) q2 = Some d1.
Proof.
  intros Hp Hr Hn. unfold enqueueRenewalReminder. rewrite <- Hp, <- Hr.
  pose proof (find_add_new _ d1 q Hn) as Hf.
  rewrite (find_add_dup _ d2 d1) by done. split_and!; [done|by eexists|done].
Qed.
End identity.

(** ** Witnesses *)
Module ReminderWitnesses.

#[local] Instance list_queue : JobQueue (list (string * JobData)) := {
  q_find id q := alist_get id q;
  q_add id j q := match alist_get id q with Some _ => q | None => alist_put id j q end;
}.
#[local] Instance list_queue_laws : JobQueueLaws (list (string * JobData)).
Proof.
  split; simpl.
  - intros id j q ->. by rewrite alist_get_put, decide_True.
  - by intros id j j' q ->.
  - intros id id' j q Hne. case_match; [done|]. by rewrite alist_get_put, decide_False.
Qed.

Definition pol (h : string) (n e : Z) : PolicyRef :=
  {| pf_id := h +:+ ":" +:+ show_Z n; pf_policyId := n; pf_holderAddress := h; pf_endLedger := e |}.

(** Code-unit order, with one opted-out holder. *)
Definition str_lt : relation string := strict String.le.
#[local] Instance str_lt_dec : RelDecision str_lt.
Proof. intros a b. unfold str_lt, strict. apply _. Defined.
#[local] Instance str_lt_order : StrictOrder str_lt.
Proof. unfold str_lt. apply _. Qed.
Definition prefs (h : string) : bool * bool * bool :=
  if bool_decide (h = "GB") then (false, false, false) else (true, false, false).
Definition pols : list PolicyRef := [pol "GA" 1 1500; pol "GB" 2 1600; pol "GC" 3 900000].

Lemma scanWindow_complete_witness :
  ∃ s q', scanWindow str_lt prefs 1000 R7d 120960 pols ([] : list (string * JobData)) = Some (s, q') ∧
    scanned s = 2 ∧ enqueued s = 1 ∧ skippedOptOut s = 1.
Proof.
  destruct (scanWindow_complete str_lt prefs 1000 R7d 120960 pols ([] : list (string * JobData)))
    as (s & q' & H1 & _ & H3 & H4 & H5 & _).
  - unfold ordered, pols.
    repeat first [apply SSorted_nil|apply SSorted_cons|apply List.Forall_nil|apply List.Forall_cons];
      (split; [exact I|intros []]).
  - exists s, q'. split; [exact H1|]. split; [exact H3|]. split; [exact H4|exact H5].
Defined.

Lemma reminder_collision_witness :
  let d1 := job_data 1000 R7d (pol "GA" 1 2000) in
  let d2 := job_data 1000 R7d (pol "GB" 1 2000) in
  let '(r1, q1) := enqueueRenewalReminder d1 ([] : list (string * JobData)) in
  let '(r2, q2) := enqueueRenewalReminder d2 q1 in
  q2 = q1 ∧ is_Some r2 ∧ q_find (job_id 1 R7d) q2 = Some d1.
Proof.
  apply (reminder_collision (job_data 1000 R7d (pol "GA" 1 2000)) (job_data 1000 R7d (pol "GB" 1 2000))
           ([] : list (string * JobData))); reflexivity.
Defined.

End ReminderWitnesses.
