(* ===== verification/Ssrf.v ===== *)
(** * Outbound webhook targets: SSRF protection

    backend/src/webhooks/ssrf.ts: which addresses a webhook may never reach
    and the checks on a target URL before and after DNS resolution.  The URL
    parser (the platform's [URL]) and the resolver are parameters. *)

From stdpp Require Import base list strings.
From Stdlib Require Import ZArith Lia Ascii.
From S2P Require Import Prelude JsText.

Open Scope string_scope.
Open Scope Z_scope.

(** ** Addresses *)

(** [/^\d{1,3}$/] and at most 255. *)
Definition parse_octet (part : string) : option Z :=
  if some_digits part && (str_len part <=? 3) then
    let value := digits_val 0 part in if 255 <? value then None else Some value
  else None.

(** Models [parseIpv4] (backend/src/webhooks/ssrf.ts:25-36). *)
Definition parseIpv4 (ip : string) : option (Z * Z * Z * Z) :=
  match split "."%char ip with
  | [p0; p1; p2; p3] =>
      match parse_octet p0, parse_octet p1, parse_octet p2, parse_octet p3 with
      | Some a, Some b, Some c, Some d => Some (a, b, c, d)
      | _, _, _, _ => None
      end
  | _ => None
  end.

(** The ranges, by the first two octets. *)
Definition blocked_pair (a b : Z) : bool :=
  if a =? 0 then true
  else if a =? 10 then true
  else if a =? 127 then true
  else if (a =? 169) && (b =? 254) then true
  else if (a =? 172) && (16 <=? b) && (b <=? 31) then true
  else if (a =? 192) && (b =? 168) then true
  else if (a =? 192) && (b =? 0) then true
  else if (a =? 100) && (64 <=? b) && (b <=? 127) then true
  else if (a =? 198) && ((b =? 18) || (b =? 19)) then true
  else if (a =? 198) && (b =? 51) then true
  else if (a =? 203) && (b =? 0) then true
  else 224 <=? a.

(** Models [isBlockedIpv4] (backend/src/webhooks/ssrf.ts:39-58). *)
Definition isBlockedIpv4 (ip : string) : bool :=
  match parseIpv4 ip with
  | None => false
  | Some (a, b, _, _) => blocked_pair a b
  end.

(** [n.toString(16)] for a 16-bit number. *)
Definition hex_digit (n : Z) : ascii :=
  if n <? 10 then ascii_of_N (Z.to_N (48 + n)) else ascii_of_N (Z.to_N (87 + n)).
Definition show_hex16 (n : Z) : string :=
  let d k := String (hex_digit (Z.land (Z.shiftr n k) 15)) "" in
  if n <? 16 then d 0
  else if n <? 256 then d 4 +:+ d 0
  else if n <? 4096 then d 8 +:+ d 4 +:+ d 0
  else d 12 +:+ d 8 +:+ d 4 +:+ d 0.

(** [s.slice(0, s.lastIndexOf(c) + 1)] and [s.slice(s.lastIndexOf(c) + 1)]. *)
Fixpoint split_last (c : ascii) (s : string) : option (string * string) :=
  match s with
  | "" => None
  | String a s' =>
      match split_last c s' with
      | Some (p, q) => Some (String a p, q)
      | None => if bool_decide (a = c) then Some (String a "", s') else None
      end
  end.
Definition last_parts (c : ascii) (s : string) : string * string :=
  match split_last c s with Some pq => pq | None => ("", s) end.

(** [s.split('::')] *)
Fixpoint split_colons (s : string) : list string :=
  match s with
  | "" => [""]
  | String ":" (String ":" s') => "" :: split_colons s'
  | String a s' =>
      match split_colons s' with
      | [] => [String a ""]
      | p :: ps => String a p :: ps
      end
  end.

(** [/^[0-9a-fA-F]{1,4}$/] *)
Definition parse_group (g : string) : option Z :=
  if str_forall is_hex g && (1 <=? str_len g) && (str_len g <=? 4) then Some (hex_val_from 0 g) else None.

Definition toGroups (s : string) : option (list Z) :=
  if bool_decide (s = "") then Some [] else mapM parse_group (split ":"%char s).

(** Models [expandIpv6] (backend/src/webhooks/ssrf.ts:61-95). *)
Definition expandIpv6 (ip : string) : option (list Z) :=
  let addr := default "" (head (split "%"%char ip)) in
  let addr' :=
    if includes addr "." then
      let '(front, v4) := last_parts ":"%char addr in
      match parseIpv4 v4 with
      | None => None
      | Some (a, b, c, d) =>
          Some (front +:+ show_hex16 (Z.lor (Z.shiftl a 8) b) +:+ ":" +:+ show_hex16 (Z.lor (Z.shiftl c 8) d))
      end
    else Some addr in
  match addr' with
  | None => None
  | Some addr =>
      match split_colons addr with
      | [h] => match toGroups h with
               | Some groups => if (length groups =? 8)%nat then Some groups else None
               | None => None
               end
      | [h; t] =>
          match toGroups h, toGroups t with
          | Some hd, Some tl =>
              if (length hd + length tl <=? 8)%nat then
                Some (hd ++ replicate (8 - length hd - length tl) 0 ++ tl)%list
              else None
          | _, _ => None
          end
      | _ => None
      end
  end.

Definition dotted (a b c d : Z) : string :=
  show_Z a +:+ "." +:+ show_Z b +:+ "." +:+ show_Z c +:+ "." +:+ show_Z d.

(** The tests on the eight groups. *)
Definition blockedGroups (groups : list Z) : bool :=
  let isZero (from to_ : nat) := forallb (λ g, g =? 0) (take (S to_ - from) (drop from groups)) in
  let g i := default 0 (groups !! i) in
  let head := g 0%nat in
  if isZero 0%nat 7%nat then true
  else if isZero 0%nat 6%nat && (g 7%nat =? 1) then true
  else if isZero 0%nat 4%nat && (g 5%nat =? 65535) &&
          (let hi := g 6%nat in
           let lo := g 7%nat in
           isBlockedIpv4 (dotted (Z.land (Z.shiftr hi 8) 255) (Z.land hi 255)
                                 (Z.land (Z.shiftr lo 8) 255) (Z.land lo 255))) then true
  else if Z.land head 65024 =? 64512 then true
  else if Z.land head 65472 =? 65152 then true
  else Z.land head 65280 =? 65280.

(** Models [isBlockedIpv6] (backend/src/webhooks/ssrf.ts:98-119). *)
Definition isBlockedIpv6 (ip : string) : bool :=
  match expandIpv6 ip with None => false | Some groups => blockedGroups groups end.

(** [s.replace(/^\[|\]$/g, '')]: a leading and a trailing bracket. *)
Fixpoint drop_last_bracket (s : string) : string :=
  match s with
  | "" => ""
  | String "]" "" => ""
  | String c s' => String c (drop_last_bracket s')
  end.
Definition strip_brackets (s : string) : string :=
  match s with
  | String "[" s' => drop_last_bracket s'
  | _ => drop_last_bracket s
  end.

(** Models [isBlockedIp] (backend/src/webhooks/ssrf.ts:122-126). *)
Definition isBlockedIp (ip : string) : bool :=
  let trimmed := strip_brackets (trim ip) in
  match parseIpv4 trimmed with
  | Some _ => isBlockedIpv4 trimmed
  | None => isBlockedIpv6 trimmed
  end.

(** ** URLs *)

(** The fields of a parsed URL the checks read. *)
Record Url := {
  protocol : string;
  username : string;
  password : string;
  hostname : string;
}.

(** [SsrfBlockedError], by the reason its message states. *)
Inductive SsrfBlockedError :=
  | EmptyUrl
  | MalformedUrl
  | SchemeNotHttps (scheme : string)
  | EmbeddedCredentials
  | MissingHostname
  | NotPubliclyResolvable (host : string)
  | PrivateAddress (host : string)
  | NoAddresses (host : string)
  | ResolvesToBlocked (host address : string)
  | DnsFailed (host : string).

Section url.
(** The platform URL parser; [None] is its exception. *)
Context (parseUrl : string → option Url).

(** Models [assertSafeWebhookUrl] (backend/src/webhooks/ssrf.ts:132-165). *)
Definition assertSafeWebhookUrl (rawUrl : string) : result SsrfBlockedError Url :=
  if bool_decide (trim rawUrl = "") then Throw EmptyUrl
  else match parseUrl rawUrl with
       | None => Throw MalformedUrl
       | Some url =>
           if negb (bool_decide (protocol url = "https:")) then Throw (SchemeNotHttps (protocol url))
           else if negb (bool_decide (username url = "")) || negb (bool_decide (password url = "")) then
             Throw EmbeddedCredentials
           else if bool_decide (hostname url = "") then Throw MissingHostname
           else
             let host := toLowerCase (strip_brackets (hostname url)) in
             if bool_decide (host = "localhost") || endsWith host ".localhost" || endsWith host ".local" then
               Throw (NotPubliclyResolvable host)
             else if negb (startsWith host "0x") && negb (bool_decide (host = "")) && isBlockedIp host then
               Throw (PrivateAddress host)
             else Ok url
       end.

(** Models [assertSafeResolvedAddresses] (backend/src/webhooks/ssrf.ts:172-186). *)
Definition assertSafeResolvedAddresses (hostname : string) (addresses : list string)
  : result SsrfBlockedError () :=
  match addresses with
  | [] => Throw (NoAddresses hostname)
  | _ =>
      match List.find isBlockedIp addresses with
      | Some address => Throw (ResolvesToBlocked hostname address)
      | None => Ok tt
      end
  end.

(** [lookup] is the resolver's answer for a host; [None] is its exception.
    Models [assertSafeWebhookUrlResolved] (backend/src/webhooks/ssrf.ts:198-219). *)
Definition assertSafeWebhookUrlResolved (rawUrl : string) (lookup : string → option (list string))
  : result SsrfBlockedError Url :=
  let! url := assertSafeWebhookUrl rawUrl in
  let host := strip_brackets (hostname url) in
  if isBlockedIp host || (negb (includes host ".") && negb (includes host ":")) then
    Throw (NotPubliclyResolvable host)
  else if bool_decide (is_Some (parseIpv4 host)) || includes host ":" then Ok url
  else match lookup host with
       | None => Throw (DnsFailed host)
       | Some addresses =>
           let! _ := assertSafeResolvedAddresses host addresses in Ok url
       end.
End url.

(** ** IPv4 *)

(** Membership of a 32-bit address in a CIDR block. *)
Definition in_cidr (addr : Z) (block : Z * Z) : bool :=
  Z.shiftr addr (32 - snd block) =? Z.shiftr (fst block) (32 - snd block).
Definition ipv4 (a b c d : Z) : Z := a * 16777216 + b * 65536 + c * 256 + d.

(** The blocks a webhook may never reach. *)
Definition blocked_blocks : list (Z * Z) := [
  (ipv4 0 0 0 0, 8); (ipv4 10 0 0 0, 8); (ipv4 127 0 0 0, 8); (ipv4 169 254 0 0, 16);
  (ipv4 172 16 0 0, 12); (ipv4 192 168 0 0, 16); (ipv4 192 0 0 0, 16); (ipv4 100 64 0 0, 10);
  (ipv4 198 18 0 0, 15); (ipv4 198 51 0 0, 16); (ipv4 203 0 0 0, 16); (ipv4 224 0 0 0, 3)
].

Definition octets : list Z := Z.of_nat <$> seq 0 256.
Lemma octets_spec a : 0 ≤ a < 256 → a ∈ octets.
Proof.
  intros Ha. unfold octets. replace a with (Z.of_nat (Z.to_nat a)) by lia.
  apply list_elem_of_fmap_2, elem_of_seq. lia.
Qed.

Lemma parse_octet_show a : 0 ≤ a < 256 → parse_octet (show_Z a) = Some a.
Proof.
  intros Ha. assert (Hall : Forall (λ x, parse_octet (show_Z x) = Some x) octets).
  { apply (bool_decide_unpack _). vm_compute. done. }
  rewrite Forall_forall in Hall. by apply Hall, octets_spec.
Qed.

Lemma parseIpv4_dotted a b c d :
  0 ≤ a < 256 → 0 ≤ b < 256 → 0 ≤ c < 256 → 0 ≤ d < 256 →
  parseIpv4 (dotted a b c d) = Some (a, b, c, d).
Proof.
  intros Ha Hb Hc Hd. unfold parseIpv4.
  assert (Hav : ∀ n, 0 ≤ n → str_forall (λ x, negb (bool_decide (x = "."%char))) (show_Z n) = true)
    by (intros n Hn; apply digits_avoid; [done|by apply show_Z_digits]).
  change (dotted a b c d) with
    (show_Z a +:+ String "." (show_Z b +:+ String "." (show_Z c +:+ String "." (show_Z d)))).
  rewrite !split_app, split_single by (apply Hav; lia). by rewrite !parse_octet_show.
Qed.

(** A block of at most 16 bits only depends on the first two octets. *)
Lemma ipv4_prefix a b c d k :
  0 ≤ c < 256 → 0 ≤ d < 256 → 0 ≤ k ≤ 16 →
  Z.shiftr (ipv4 a b c d) (32 - k) = Z.shiftr (a * 256 + b) (16 - k).
Proof.
  intros Hc Hd Hk. replace (32 - k) with (16 + (16 - k)) by lia.
  rewrite <- Z.shiftr_shiftr by lia. f_equal. rewrite Z.shiftr_div_pow2 by lia. unfold ipv4.
  change (2 ^ 16) with 65536. replace (a * 16777216 + b * 65536 + c * 256 + d)
    with ((a * 256 + b) * 65536 + (c * 256 + d)) by lia.
  rewrite Z.div_add_l by lia. rewrite (Z.div_small (c * 256 + d)) by lia. lia.
Qed.

Definition blocks_short : Prop := Forall (λ blk : Z * Z, 0 ≤ snd blk ≤ 16) blocked_blocks.
Lemma blocked_blocks_short : blocks_short.
Proof. unfold blocks_short. apply (bool_decide_unpack _). vm_compute. done. Qed.

Definition pair_in_cidr (ab : Z) (blk : Z * Z) : bool :=
  Z.shiftr ab (16 - snd blk) =? Z.shiftr (fst blk) (32 - snd blk).

(** A prefix test is a range test. *)
Lemma shiftr_range x k n : 0 ≤ k → Z.shiftr x k = n ↔ n * 2 ^ k ≤ x < (n + 1) * 2 ^ k.
Proof.
  intros Hk. rewrite Z.shiftr_div_pow2 by done. assert (0 < 2 ^ k) by (apply Z.pow_pos_nonneg; lia).
  split.
  - intros <-. pose proof (Z.div_mod x (2 ^ k)). pose proof (Z.mod_pos_bound x (2 ^ k)). nia.
  - intros ?. symmetry. apply (Z.div_unique _ _ _ (x - n * 2 ^ k)); lia.
Qed.

Lemma pair_ranges a b :
  existsb (pair_in_cidr (a * 256 + b)) blocked_blocks = true ↔
  Exists (λ r : Z * Z, fst r ≤ a * 256 + b < snd r)
    [(0, 256); (2560, 2816); (32512, 32768); (43518, 43519); (44048, 44064); (49320, 49321);
     (49152, 49153); (25664, 25728); (50706, 50708); (50739, 50740); (51968, 51969); (57344, 65536)].
Proof.
  unfold pair_in_cidr, blocked_blocks. cbn [existsb fst snd]. rewrite !orb_true_iff, !Z.eqb_eq.
  rewrite !shiftr_range by lia. rewrite !Exists_cons, Exists_nil. cbn [fst snd].
  repeat match goal with |- context [Z.shiftr (ipv4 ?a ?b ?c ?d) ?k] =>
    let v := eval vm_compute in (Z.shiftr (ipv4 a b c d) k) in change (Z.shiftr (ipv4 a b c d) k) with v end.
  repeat match goal with |- context [2 ^ ?k] =>
    let v := eval vm_compute in (2 ^ k) in change (2 ^ k) with v end.
  lia.
Qed.

Lemma blocked_pair_cidr a b :
  0 ≤ a < 256 → 0 ≤ b < 256 → blocked_pair a b = existsb (pair_in_cidr (a * 256 + b)) blocked_blocks.
Proof.
  intros Ha Hb. apply eq_bool_prop_intro. rewrite !Is_true_true, pair_ranges, !Exists_cons, Exists_nil.
  cbn [fst snd].
  change (blocked_pair a b) with
    ((a =? 0) || ((a =? 10) || ((a =? 127) || ((a =? 169) && (b =? 254) ||
     ((a =? 172) && (16 <=? b) && (b <=? 31) || ((a =? 192) && (b =? 168) || ((a =? 192) && (b =? 0) ||
     ((a =? 100) && (64 <=? b) && (b <=? 127) || ((a =? 198) && ((b =? 18) || (b =? 19)) ||
     ((a =? 198) && (b =? 51) || ((a =? 203) && (b =? 0) || (224 <=? a)))))))))))).
  do 11 (rewrite orb_true_iff; apply Morphisms_Prop.or_iff_morphism; [lia|]). lia.
Qed.

Lemma blocked_iff_cidr a b c d :
  0 ≤ a < 256 → 0 ≤ b < 256 → 0 ≤ c < 256 → 0 ≤ d < 256 →
  isBlockedIpv4 (dotted a b c d) = existsb (in_cidr (ipv4 a b c d)) blocked_blocks.
Proof.
  intros Ha Hb Hc Hd. unfold isBlockedIpv4. rewrite parseIpv4_dotted by done.
  rewrite blocked_pair_cidr by done.
  generalize blocked_blocks_short. unfold blocks_short. generalize blocked_blocks.
  intros l. induction l as [|blk l IH]; intros Hl; [done|]. apply Forall_cons in Hl as [Hk Hl].
  simpl. rewrite (IH Hl). f_equal. unfold pair_in_cidr, in_cidr. by rewrite ipv4_prefix.
Qed.

(** ** Text that needs no trimming *)

Lemma drop_last_bracket_clean s : avoids "]" s = true → drop_last_bracket s = s.
Proof.
  induction s as [|c s IH]; [done|]. unfold avoids in *. cbn [str_forall]. intros [Hc Hs]%andb_true_iff.
  specialize (IH Hs). bool_prop. cbn [drop_last_bracket].
  destruct c as [[] [] [] [] [] [] [] []]; by (rewrite IH || destruct Hc).
Qed.

Lemma strip_brackets_clean s : avoids "[" s = true → avoids "]" s = true → strip_brackets s = s.
Proof.
  intros H1 H2. unfold strip_brackets. destruct s as [|c s]; [done|].
  unfold avoids in H1. cbn [str_forall] in H1. apply andb_true_iff in H1 as [Hc _]. bool_prop.
  rewrite drop_last_bracket_clean by done.
  destruct c as [[] [] [] [] [] [] [] []]; done.
Qed.

(** Digits and dots. *)
Definition addr_char (c : ascii) : bool := is_digit c || bool_decide (c = "."%char).

Lemma dotted_chars a b c d :
  0 ≤ a → 0 ≤ b → 0 ≤ c → 0 ≤ d → str_forall addr_char (dotted a b c d) = true.
Proof.
  intros. unfold dotted. rewrite !str_forall_app.
  assert (Hd : ∀ n, 0 ≤ n → str_forall addr_char (show_Z n) = true).
  { intros n Hn. eapply str_forall_impl; [|by apply show_Z_digits]. intros x Hx. unfold addr_char. by rewrite Hx. }
  by rewrite !Hd.
Qed.

Lemma addr_char_avoids c s :
  addr_char c = false → str_forall addr_char s = true → avoids c s = true.
Proof.
  intros Hc. apply str_forall_impl. intros x Hx. apply negb_true_iff, bool_decide_eq_false_2.
  intros ->. congruence.
Qed.

Lemma dotted_clean a b c d :
  0 ≤ a → 0 ≤ b → 0 ≤ c → 0 ≤ d → strip_brackets (trim (dotted a b c d)) = dotted a b c d.
Proof.
  intros Ha Hb Hc Hd. pose proof (dotted_chars a b c d Ha Hb Hc Hd) as Hch.
  assert (Hws : str_forall (λ x, negb (is_ws x)) (dotted a b c d) = true).
  { eapply str_forall_impl; [|exact Hch]. intros x Hx. unfold addr_char in Hx.
    apply orb_true_iff in Hx as [Hx|Hx]; [by rewrite is_digit_not_ws|]. by apply bool_decide_eq_true_1 in Hx as ->. }
  unfold trim. rewrite trimStart_clean, trimEnd_clean by done.
  apply strip_brackets_clean; by apply addr_char_avoids.
Qed.

(** The IPv4 filter is exact.  A dotted address is refused exactly when its 32-bit value lies in one of
    the twelve blocks the code lists (this network, private, loopback, link-local, carrier NAT,
    benchmarking, documentation, multicast and above), for every address; 192.0, 198.51 and 203.0 are
    blocked as /16, wider than the /24 their comments name. *)
Theorem isBlockedIp_dotted a b c d :
  0 ≤ a < 256 → 0 ≤ b < 256 → 0 ≤ c < 256 → 0 ≤ d < 256 →
  isBlockedIp (dotted a b c d) = existsb (in_cidr (ipv4 a b c d)) blocked_blocks.
Proof.
  intros Ha Hb Hc Hd. rewrite <- blocked_iff_cidr by done. unfold isBlockedIp.
  rewrite dotted_clean by lia. by rewrite parseIpv4_dotted.
Qed.

(** ** IPv4-mapped IPv6 *)

(** The 16-bit group of two octets. *)
Definition group (a b : Z) : Z := Z.lor (Z.shiftl a 8) b.

Lemma group_sum a b : 0 ≤ b < 256 → group a b = a * 256 + b.
Proof.
  intros Hb. unfold group. rewrite <- Z.lxor_lor, <- Z.add_nocarry_lxor; [by rewrite Z.shiftl_mul_pow2| |];
  apply Z.bits_inj'; intros n Hn; rewrite Z.land_spec, Z.bits_0; destruct (decide (n < 8)).
  all: try (by rewrite Z.shiftl_spec_low).
  all: rewrite <- (Z.mod_small b (2 ^ 8)) by lia; rewrite Z.mod_pow2_bits_high by lia; apply andb_false_r.
Qed.

Lemma nibble n k : 0 ≤ k → Z.land (Z.shiftr n k) 15 = (n / 2 ^ k) mod 16.
Proof. intros Hk. change 15 with (Z.ones 4). by rewrite Z.land_ones, Z.shiftr_div_pow2. Qed.

Lemma low_byte n : Z.land n 255 = n mod 256.
Proof. change 255 with (Z.ones 8). by rewrite Z.land_ones. Qed.

Lemma hex_digit_facts k :
  0 ≤ k < 16 → is_hex (hex_digit k) = true ∧ hex_val (hex_digit k) = k ∧ hex_digit k ≠ ":"%char.
Proof.
  intros Hk. assert (Hall : Forall (λ k, is_hex (hex_digit k) = true ∧ hex_val (hex_digit k) = k ∧
    hex_digit k ≠ ":"%char) (Z.of_nat <$> seq 0 16)) by (repeat constructor; vm_compute; congruence).
  rewrite Forall_forall in Hall. apply Hall. replace k with (Z.of_nat (Z.to_nat k)) by lia.
  apply list_elem_of_fmap_2, elem_of_seq. lia.
Qed.

Lemma app_char c s : String c "" +:+ s = String c s.
Proof. done. Qed.

Lemma show_hex16_facts n :
  0 ≤ n < 65536 →
  parse_group (show_hex16 n) = Some n ∧ avoids ":" (show_hex16 n) = true ∧ show_hex16 n ≠ "".
Proof.
  intros Hn.
  assert (Hd : ∀ k, 0 ≤ k → let d := hex_digit (Z.land (Z.shiftr n k) 15) in
    is_hex d = true ∧ hex_val d = (n / 2 ^ k) mod 16 ∧ negb (bool_decide (d = ":"%char)) = true).
  { intros k Hk. cbv zeta. rewrite nibble by done.
    destruct (hex_digit_facts ((n / 2 ^ k) mod 16)) as (H1 & H2 & H3); [apply Z.mod_pos_bound; lia|].
    split_and!; [done|done|]. by rewrite bool_decide_false. }
  destruct (Hd 0 ltac:(lia)) as (A0 & B0 & C0). destruct (Hd 4 ltac:(lia)) as (A4 & B4 & C4).
  destruct (Hd 8 ltac:(lia)) as (A8 & B8 & C8). destruct (Hd 12 ltac:(lia)) as (A12 & B12 & C12).
  unfold show_hex16, parse_group, avoids. cbv zeta. clear Hd.
  destruct (Z.ltb_spec n 16); [|destruct (Z.ltb_spec n 256); [|destruct (Z.ltb_spec n 4096)]].
  all: rewrite ?app_char; cbn [str_forall hex_val_from]; unfold str_len; cbn [String.length]; rewrite ?A0, ?A4, ?A8, ?A12, ?C0, ?C4, ?C8, ?C12, ?B0, ?B4, ?B8, ?B12.
  all: change (2 ^ 0) with 1; change (2 ^ 4) with 16; change (2 ^ 8) with 256; change (2 ^ 12) with 4096.
  all: cbn; split_and!; try done; f_equal; Z.to_euclidean_division_equations; lia.
Qed.

Lemma group_facts a b :
  0 ≤ a < 256 → 0 ≤ b < 256 →
  parse_group (show_hex16 (group a b)) = Some (group a b) ∧ avoids ":" (show_hex16 (group a b)) = true ∧
  show_hex16 (group a b) ≠ "" ∧
  Z.land (Z.shiftr (group a b) 8) 255 = a ∧ Z.land (group a b) 255 = b.
Proof.
  intros Ha Hb. rewrite !low_byte, Z.shiftr_div_pow2 by lia. rewrite group_sum by done.
  destruct (show_hex16_facts (a * 256 + b)) as (H1 & H2 & H3); [lia|].
  split_and!; [done..| |]; change (2 ^ 8) with 256; Z.to_euclidean_division_equations; lia.
Qed.

Lemma split_last_avoid c v : avoids c v = true → split_last c v = None.
Proof.
  induction v as [|x v IH]; [done|]. unfold avoids in *. cbn [str_forall split_last].
  intros [Hx Hv]%andb_true_iff. rewrite (IH Hv). apply negb_true_iff in Hx. by rewrite Hx.
Qed.

Lemma last_parts_app c p v :
  avoids c v = true → last_parts c (p +:+ String c v) = (p +:+ String c "", v).
Proof.
  intros Hv. unfold last_parts.
  assert (Hs : split_last c (p +:+ String c v) = Some (p +:+ String c "", v)); [|by rewrite Hs].
  induction p as [|x p IH].
  - change (split_last c (String c v) = Some (String c "", v)). cbn [split_last].
    rewrite split_last_avoid by done. by rewrite bool_decide_true.
  - change (split_last c (String x (p +:+ String c v)) = Some (String x (p +:+ String c ""), v)).
    cbn [split_last]. by rewrite IH.
Qed.

Lemma includes_char_app c a b : includes (a +:+ String c b) (String c "") = true.
Proof.
  induction a as [|x a IH].
  - change (includes (String c b) (String c "") = true). cbn [includes]. unfold startsWith.
    rewrite prefix_cons. by destruct b.
  - change (includes (String x (a +:+ String c b)) (String c "") = true). cbn [includes]. rewrite IH.
    apply orb_true_r.
Qed.

(** Splitting at a double colon that is not there. *)
Lemma split_colons_char x s : x ≠ ":"%char → split_colons (String x s) =
  match split_colons s with [] => [String x ""] | p :: ps => String x p :: ps end.
Proof. intros Hx. destruct x as [[] [] [] [] [] [] [] []]; try done. Qed.

Lemma split_colons_single c s :
  c ≠ ":"%char → split_colons (String ":" (String c s)) =
    match split_colons (String c s) with [] => [":"] | p :: ps => String ":" p :: ps end.
Proof. intros Hc. destruct c as [[] [] [] [] [] [] [] []]; try done. Qed.

Lemma split_colons_plain p : avoids ":" p = true → split_colons p = [p].
Proof.
  induction p as [|x p IH]; [done|]. unfold avoids in *. cbn [str_forall]. intros [Hx Hp]%andb_true_iff. bool_prop.
  rewrite split_colons_char by done. by rewrite (IH Hp).
Qed.

Lemma split_colons_join p q :
  avoids ":" p = true → q ≠ "" → (∀ c s, q = String c s → c ≠ ":"%char) → split_colons q = [q] →
  split_colons (p +:+ String ":" q) = [p +:+ String ":" q].
Proof.
  intros Hp Hne Hq Hs. induction p as [|x p IH].
  - change (split_colons (String ":" q) = [String ":" q]). destruct q as [|c s]; [done|].
    rewrite split_colons_single by (by eapply Hq). by rewrite Hs.
  - unfold avoids in *. cbn [str_forall] in Hp. apply andb_true_iff in Hp as [Hx Hp]. bool_prop.
    change (split_colons (String x (p +:+ String ":" q)) = [String x (p +:+ String ":" q)]).
    rewrite split_colons_char by done. by rewrite (IH Hp).
Qed.

Lemma first_not_colon q c s : avoids ":" q = true → q = String c s → c ≠ ":"%char.
Proof. intros Hq ->. unfold avoids in Hq. cbn [str_forall] in Hq. apply andb_true_iff in Hq as [Hc _]. by bool_prop. Qed.

Definition mapped (a b c d : Z) : string := "::ffff:" +:+ dotted a b c d.

Lemma expand_mapped a b c d :
  0 ≤ a < 256 → 0 ≤ b < 256 → 0 ≤ c < 256 → 0 ≤ d < 256 →
  expandIpv6 (mapped a b c d) = Some [0; 0; 0; 0; 0; 65535; group a b; group c d].
Proof.
  intros Ha Hb Hc Hd. destruct (group_facts a b Ha Hb) as (Hp1 & Hav1 & Hne1 & _).
  destruct (group_facts c d Hc Hd) as (Hp2 & Hav2 & Hne2 & _).
  pose proof (dotted_chars a b c d ltac:(lia) ltac:(lia) ltac:(lia) ltac:(lia)) as Hch.
  assert (Hpct : head (split "%"%char (mapped a b c d)) = Some (mapped a b c d)).
  { rewrite split_single; [done|]. unfold mapped. rewrite str_forall_app.
    apply andb_true_iff. split; [done|]. by apply (addr_char_avoids "%"%char). }
  unfold expandIpv6. rewrite Hpct.
  change (default "" (Some (mapped a b c d))) with (mapped a b c d).
  assert (Hdot : includes (mapped a b c d) "." = true).
  { unfold mapped, dotted. rewrite <- str_app_assoc.
    apply (includes_char_app "." ("::ffff:" +:+ show_Z a)). }
  rewrite Hdot.
  assert (Hlast : last_parts ":"%char (mapped a b c d) = ("::ffff:", dotted a b c d)).
  { apply (last_parts_app ":" "::ffff" (dotted a b c d)). by apply addr_char_avoids. }
  rewrite Hlast, parseIpv4_dotted by done. fold (group a b) (group c d).
  set (h1 := show_hex16 (group a b)) in *. set (h2 := show_hex16 (group c d)) in *.
  clearbody h1 h2.
  assert (Hrest : split_colons ("ffff" +:+ String ":" (h1 +:+ String ":" h2)) =
                  ["ffff" +:+ String ":" (h1 +:+ String ":" h2)]).
  { apply split_colons_join; [done|by destruct h1| |].
    - intros x s E. destruct h1 as [|y h]; [done|]. change (String y (h +:+ String ":" h2) = String x s) in E.
      injection E as <- _. exact (first_not_colon _ y h Hav1 eq_refl).
    - apply split_colons_join; [done|done|intros x s E; exact (first_not_colon _ x s Hav2 E)|by apply split_colons_plain]. }
  change (split_colons ("::ffff:" +:+ h1 +:+ ":" +:+ h2)) with
    ("" :: split_colons ("ffff" +:+ String ":" (h1 +:+ String ":" h2))).
  rewrite Hrest. unfold toGroups. rewrite bool_decide_eq_true_2 by done.
  rewrite bool_decide_eq_false_2 by done.
  rewrite !split_app, split_single by done. cbn [mapM mbind option_bind].
  change (parse_group "ffff") with (Some 65535). rewrite Hp1, Hp2. done.
Qed.

Lemma str_forall_weaken (P Q : ascii → bool) s :
  (∀ c, P c = true → Q c = true) → str_forall P s = true → str_forall Q s = true.
Proof. intros H. by apply str_forall_impl. Qed.

(** The characters of a mapped literal. *)
Definition mapped_char (c : ascii) : bool := addr_char c || bool_decide (c = ":"%char) || bool_decide (c = "f"%char).

Lemma mapped_char_not c : mapped_char c = true → is_ws c = false ∧ c ≠ "["%char ∧ c ≠ "]"%char.
Proof. destruct c as [[] [] [] [] [] [] [] []]; vm_compute; intros H; repeat split; by (try discriminate H). Qed.

Lemma mapped_clean a b c d :
  0 ≤ a → 0 ≤ b → 0 ≤ c → 0 ≤ d → strip_brackets (trim (mapped a b c d)) = mapped a b c d.
Proof.
  intros Ha Hb Hc Hd.
  assert (Hch : str_forall mapped_char (mapped a b c d) = true).
  { unfold mapped. rewrite str_forall_app. apply andb_true_iff. split; [done|].
    eapply str_forall_weaken; [|by apply dotted_chars]. intros x Hx. unfold mapped_char. by rewrite Hx. }
  assert (Hw : ∀ Q, (∀ x, mapped_char x = true → Q x = true) → str_forall Q (mapped a b c d) = true)
    by (intros Q HQ; by eapply str_forall_weaken).
  unfold trim. rewrite trimStart_clean, trimEnd_clean.
  - apply strip_brackets_clean; apply Hw; intros x Hx; apply negb_true_iff, bool_decide_eq_false_2;
      destruct (mapped_char_not x Hx) as (? & ? & ?); done.
  - apply Hw. intros x Hx. apply negb_true_iff. apply (mapped_char_not x Hx).
  - apply Hw. intros x Hx. apply negb_true_iff. apply (mapped_char_not x Hx).
Qed.

Lemma mapped_not_ipv4 a b c d :
  0 ≤ a → 0 ≤ b → 0 ≤ c → 0 ≤ d → parseIpv4 (mapped a b c d) = None.
Proof.
  intros Ha Hb Hc Hd. unfold parseIpv4.
  assert (Hav : ∀ n, 0 ≤ n → str_forall (λ x, negb (bool_decide (x = "."%char))) (show_Z n) = true)
    by (intros n Hn; apply digits_avoid; [done|by apply show_Z_digits]).
  change (mapped a b c d) with
    (("::ffff:" +:+ show_Z a) +:+ String "." (show_Z b +:+ String "." (show_Z c +:+ String "." (show_Z d)))).
  rewrite split_app; [rewrite !split_app, split_single by (by apply Hav); done|].
  rewrite str_forall_app. apply andb_true_iff. split; [done|by apply Hav].
Qed.

(** An IPv4-mapped IPv6 address does not bypass the filter: for every IPv4 address, the literal
    [::ffff:a.b.c.d] is refused exactly when a.b.c.d is. *)
Theorem mapped_address_checked a b c d :
  0 ≤ a < 256 → 0 ≤ b < 256 → 0 ≤ c < 256 → 0 ≤ d < 256 →
  isBlockedIp ("::ffff:" +:+ dotted a b c d) = isBlockedIp (dotted a b c d).
Proof.
  intros Ha Hb Hc Hd.
  assert (Hplain : isBlockedIp (dotted a b c d) = isBlockedIpv4 (dotted a b c d)).
  { unfold isBlockedIp. rewrite dotted_clean by lia. by rewrite parseIpv4_dotted. }
  rewrite Hplain. fold (mapped a b c d). unfold isBlockedIp.
  rewrite mapped_clean, mapped_not_ipv4 by lia. unfold isBlockedIpv6. rewrite expand_mapped by done.
  destruct (group_facts a b Ha Hb) as (_ & _ & _ & Ha' & Hb').
  destruct (group_facts c d Hc Hd) as (_ & _ & _ & Hc' & Hd').
  unfold blockedGroups. cbn -[isBlockedIpv4 Z.land Z.shiftr dotted]. rewrite Ha', Hb', Hc', Hd'. by destruct (isBlockedIpv4 _).
Qed.

(** ** Targets *)

Lemma find_none_forall {A} (p : A → bool) l : List.find p l = None ↔ Forall (λ x, p x = false) l.
Proof.
  rewrite Forall_forall. split.
  - intros H x Hx. by apply (List.find_none p l H), list_elem_of_In.
  - intros H. destruct (List.find p l) as [x|] eqn:E; [|done].
    apply List.find_some in E as [Hx Hp]. rewrite H in Hp by (by apply list_elem_of_In). done.
Qed.

Lemma resolved_ok host addrs :
  assertSafeResolvedAddresses host addrs = Ok () ↔ addrs ≠ [] ∧ Forall (λ a, isBlockedIp a = false) addrs.
Proof.
  unfold assertSafeResolvedAddresses. rewrite <- find_none_forall. destruct addrs as [|a l]; [naive_solver|].
  destruct (List.find isBlockedIp (a :: l)); naive_solver.
Qed.

(** What a target may be. *)
Definition safe_target (url : Url) : Prop :=
  protocol url = "https:" ∧ username url = "" ∧ password url = "" ∧ hostname url ≠ "" ∧
  let host := toLowerCase (strip_brackets (hostname url)) in
  host ≠ "localhost" ∧ endsWith host ".localhost" = false ∧ endsWith host ".local" = false.

Definition literal_host (host : string) : bool := bool_decide (is_Some (parseIpv4 host)) || includes host ":".

Lemma webhook_url_ok parseUrl raw url :
  assertSafeWebhookUrl parseUrl raw = Ok url → parseUrl raw = Some url ∧ safe_target url.
Proof.
  unfold assertSafeWebhookUrl. intros H. repeat case_match; try done. simplify_eq.
  bool_prop. unfold safe_target. by split_and!.
Qed.

(** C38: What a webhook subscription is allowed to reach.  When the resolved check accepts a URL, it is the
    parser's result for the submitted text, its scheme is https, it carries no credentials, its host is not
    a local name and not a blocked literal, and, when the host is a name, the resolver answered with at
    least one address and none of its addresses is blocked: one private address among several is enough to
    refuse.  No rejected target is returned, whatever the resolver does. *)
Theorem resolved_target_safe (parseUrl : string → option Url) (raw : string)
    (lookup : string → option (list string)) (url : Url) :
  assertSafeWebhookUrlResolved parseUrl raw lookup = Ok url →
  parseUrl raw = Some url ∧ safe_target url ∧
  let host := strip_brackets (hostname url) in
  isBlockedIp host = false ∧
  (literal_host host = true ∨
   ∃ addrs, lookup host = Some addrs ∧ addrs ≠ [] ∧ Forall (λ a, isBlockedIp a = false) addrs).
Proof.
  unfold assertSafeWebhookUrlResolved, rbind.
  destruct (assertSafeWebhookUrl parseUrl raw) as [u|e] eqn:Hu; [|done].
  apply webhook_url_ok in Hu as [Hp Hs]. fold (literal_host (strip_brackets (hostname u))).
  intros H. repeat case_match; simplify_eq; bool_prop; split_and!; try done; try naive_solver.
  right. eexists. split; [done|]. 
  match goal with H : assertSafeResolvedAddresses _ _ = Ok ?u |- _ => destruct u; by apply resolved_ok in H end.
Qed.

Module SsrfWitnesses.

Lemma isBlockedIp_dotted_witness :
  isBlockedIp (dotted 169 254 169 254) = existsb (in_cidr (ipv4 169 254 169 254)) blocked_blocks.
Proof. apply (isBlockedIp_dotted 169 254 169 254); lia. Defined.

Lemma mapped_address_checked_witness :
  isBlockedIp "::ffff:127.0.0.1" = true.
Proof.
  change (isBlockedIp ("::ffff:" +:+ dotted 127 0 0 1) = true).
  rewrite (mapped_address_checked 127 0 0 1) by lia. vm_compute. reflexivity.
Defined.

Definition sample_parse (raw : string) : option Url :=
  if bool_decide (raw = "https://hooks.example.com/a") then
    Some {| protocol := "https:"; username := ""; password := ""; hostname := "hooks.example.com" |}
  else None.
Definition sample_lookup (host : string) : option (list string) := Some ["93.184.216.34"; "2606:2800::1"].

Lemma resolved_target_safe_witness :
  ∃ url, assertSafeWebhookUrlResolved sample_parse "https://hooks.example.com/a" sample_lookup = Ok url ∧
         safe_target url.
Proof.
  eexists. split; [vm_compute; reflexivity|].
  refine (proj1 (proj2 (resolved_target_safe sample_parse "https://hooks.example.com/a" sample_lookup _ _))).
  vm_compute. reflexivity.
Defined.

(** One private address among the answers is refused. *)
Example rebinding_refused :
  assertSafeWebhookUrlResolved sample_parse "https://hooks.example.com/a"
    (λ _, Some ["93.184.216.34"; "10.0.0.7"]) = Throw (ResolvesToBlocked "hooks.example.com" "10.0.0.7").
Proof. vm_compute. reflexivity. Qed.

(** An IPv4-compatible literal is not recognised as the address it embeds. *)
Example compatible_not_blocked : isBlockedIp "::10.0.0.7" = false.
Proof. vm_compute. reflexivity. Qed.

End SsrfWitnesses.
