(* ===== verification/Signature.v ===== *)
(** * Webhook signatures

    backend/src/webhooks/signature.ts: the signed header of an outbound
    webhook, its parser and its verification with replay window and secret
    rotation.  The HMAC of the platform is a parameter. *)

From stdpp Require Import base list strings.
From Stdlib Require Import ZArith Lia Ascii.
From S2P Require Import Prelude JsText JsNumber.

Open Scope string_scope.
Open Scope Z_scope.

Definition TIMESTAMP_TOLERANCE_SECONDS : Z := 300.

(** Models [SignatureParts] (backend/src/webhooks/signature.ts:20-25). *)
Record SignatureParts := { timestamp : Z; signatures : list string }.

(** [/^[0-9a-f]{64}$/i] *)
Definition hex64 (value : string) : bool := str_forall is_hex value && (str_len value =? 64).

(** One part of the header; [None] is the early [return null]. *)
Definition parse_part (st : option Z * list string) (part : string) : option (option Z * list string) :=
  match cut "=" part with
  | None => None
  | Some (k, v) =>
      let key := trim k in
      let value := trim v in
      if bool_decide (key = "t") then
        match Number value with
        | None => None
        | Some parsed => Some (Some (d_floor parsed), snd st)
        end
      else if bool_decide (key = "v1") then
        if hex64 value then Some (fst st, snd st ++ [toLowerCase value])%list else None
      else Some st
  end.

Fixpoint parse_parts (st : option Z * list string) (parts : list string) : option (option Z * list string) :=
  match parts with
  | [] => Some st
  | p :: ps => match parse_part st p with None => None | Some st' => parse_parts st' ps end
  end.

(** Models [parseSignatureHeader] (backend/src/webhooks/signature.ts:62-85). *)
Definition parseSignatureHeader (header : string) : option SignatureParts :=
  if bool_decide (trim header = "") then None
  else match parse_parts (None, []) (split "," header) with
       | Some (Some t, (_ :: _) as sigs) => Some {| timestamp := t; signatures := sigs |}
       | _ => None
       end.

(** [Buffer.from(s, 'hex')]: whole byte pairs up to the first invalid one. *)
Fixpoint hex_bytes (s : string) : list Z :=
  match s with
  | String a (String b s') =>
      if is_hex a && is_hex b then (hex_val a * 16 + hex_val b) :: hex_bytes s' else []
  | _ => []
  end.

(** [timingSafeEqual] throws on unequal lengths; the handler answers false.
    Models [safeEqualHex] (backend/src/webhooks/signature.ts:98-105). *)
Definition safeEqualHex (a b : string) : bool :=
  (str_len a =? str_len b) && bool_decide (hex_bytes a = hex_bytes b).

(** Models [VerifyResult] (backend/src/webhooks/signature.ts:94-96). *)
Inductive reason := Missing | Malformed | Stale | Mismatch.

(** Models [VerifyOptions] (backend/src/webhooks/signature.ts:87-92). *)
Record VerifyOptions := { toleranceSeconds : option Z; nowSeconds : option Z }.

(** One secret or several. *)
Inductive Secrets := OneSecret (s : string) | SecretList (l : list string).

(** [createHmac('sha256', secret).update(content).digest('hex')]. *)
Class Hmac := hmacHex : string → string → string.

(** A SHA-256 digest in hexadecimal is 64 lower-case digits. *)
Class HmacLaws (H : Hmac) : Prop := {
  hmac_hex : ∀ secret content, hex64 (hmacHex secret content) = true;
  hmac_lower : ∀ secret content, toLowerCase (hmacHex secret content) = hmacHex secret content;
}.

Section signature.
Context `{H : Hmac}.

Definition signed_content (t : Z) (rawBody : string) : string := show_Z t +:+ "." +:+ rawBody.

(** The timestamp is an integer number of seconds, so its [Math.floor] is itself.
    Models [signRawBody] (backend/src/webhooks/signature.ts:51-59). *)
Definition signRawBody (secret rawBody : string) (timestampSeconds : Z) : string :=
  let t := timestampSeconds in
  let v1 := hmacHex secret (signed_content t rawBody) in
  "t=" +:+ show_Z t +:+ ",v1=" +:+ v1.

(** [stringify] is JSON.stringify on the payload type.
    Models [signPayload] (backend/src/webhooks/signature.ts:41-48). *)
Definition signPayload {P} (stringify : P → string) (secret : string) (payload : P) (timestampSeconds : Z)
  : string :=
  signRawBody secret (stringify payload) timestampSeconds.

(** [nowMs] is Date.now().
    Models [verifySignature] (backend/src/webhooks/signature.ts:112-139). *)
Definition verifySignature (nowMs : Z) (header : option string) (rawBody : string) (secrets : Secrets)
    (options : VerifyOptions) : result reason Z :=
  let tolerance := default TIMESTAMP_TOLERANCE_SECONDS (toleranceSeconds options) in
  let now := default (nowMs / 1000) (nowSeconds options) in
  match truthy header with
  | None => Throw Missing
  | Some h =>
      match parseSignatureHeader h with
      | None => Throw Malformed
      | Some parsed =>
          if tolerance <? Z.abs (now - timestamp parsed) then Throw Stale
          else
            let secretList := match secrets with SecretList l => l | OneSecret s => [s] end in
            match secretList with
            | [] => Throw Mismatch
            | _ =>
                let expected := signed_content (timestamp parsed) rawBody in
                let matches := existsb (λ candidate,
                  existsb (λ secret, safeEqualHex candidate (hmacHex secret expected)) secretList)
                  (signatures parsed) in
                if matches then Ok (timestamp parsed) else Throw Mismatch
            end
      end
  end.
End signature.

(** ** Comparison of digests *)

Definition lower_hex (s : string) : Prop := hex64 s = true ∧ toLowerCase s = s.

Lemma hex_val_inj a b :
  is_hex a = true → is_hex b = true → lower_char a = a → lower_char b = b → hex_val a = hex_val b → a = b.
Proof.
  intros Ha Hb La Lb E.
  assert (Hc : ∀ c, is_hex c = true → lower_char c = c → c = nth (Z.to_nat (hex_val c))
    ["0"; "1"; "2"; "3"; "4"; "5"; "6"; "7"; "8"; "9"; "a"; "b"; "c"; "d"; "e"; "f"]%char "0"%char).
  { intros [[] [] [] [] [] [] [] []]; vm_compute; congruence. }
  rewrite (Hc a Ha La), (Hc b Hb Lb). by rewrite E.
Qed.

Lemma hex_val_range c : is_hex c = true → 0 ≤ hex_val c < 16.
Proof. destruct c as [[] [] [] [] [] [] [] []]; vm_compute; intros E; try discriminate E; split; congruence. Qed.

(** Digests of the same length are equal when their bytes are. *)
Lemma hex_bytes_inj (n : nat) a b :
  String.length a = (2 * n)%nat → String.length b = (2 * n)%nat →
  str_forall is_hex a = true → str_forall is_hex b = true → toLowerCase a = a → toLowerCase b = b →
  hex_bytes a = hex_bytes b → a = b.
Proof.
  revert a b. induction n as [|n IH]; intros a b La Lb Ha Hb Ta Tb E.
  - destruct a, b; done.
  - destruct a as [|a1 [|a2 a]]; try (simpl in La; lia). destruct b as [|b1 [|b2 b]]; try (simpl in Lb; lia).
    cbn [str_forall] in Ha, Hb. bool_prop. unfold toLowerCase in Ta, Tb. cbn [str_map] in Ta, Tb.
    injection Ta as Ta1 Ta2 Ta. injection Tb as Tb1 Tb2 Tb. cbn [hex_bytes] in E.
    repeat match goal with H : is_hex _ = true |- _ => rewrite H in E end. cbn [andb] in E.
    injection E as E1 E2.
    repeat match goal with H : is_hex ?c = true |- _ =>
      lazymatch goal with _ : 0 ≤ hex_val c < 16 |- _ => fail | _ => pose proof (hex_val_range c H) end end.
    rewrite (hex_val_inj a1 b1), (hex_val_inj a2 b2) by (done || lia).
    do 2 f_equal. apply IH; try done; simpl in La, Lb; lia.
Qed.

Lemma safeEqualHex_eq a b : lower_hex a → lower_hex b → safeEqualHex a b = bool_decide (a = b).
Proof.
  intros [Ha Ta] [Hb Tb]. unfold hex64, str_len in *. bool_prop. unfold safeEqualHex, str_len.
  destruct (decide (a = b)) as [->|E].
  - by rewrite Z.eqb_refl, !bool_decide_true.
  - rewrite (bool_decide_false (a = b)) by done. apply andb_false_iff. right. apply bool_decide_eq_false_2. intros E'. apply E.
    apply (hex_bytes_inj 32); try done; lia.
Qed.

(** ** Parsing *)

Lemma lower_char_facts c :
  lower_char (lower_char c) = lower_char c ∧ (is_hex c = true → is_hex (lower_char c) = true).
Proof. destruct c as [[] [] [] [] [] [] [] []]; vm_compute; split; congruence. Qed.

Lemma lower_hex_toLowerCase v : hex64 v = true → lower_hex (toLowerCase v).
Proof.
  unfold lower_hex, hex64, str_len, toLowerCase. intros [Hv Hl]%andb_true_iff.
  assert (Hlen : ∀ f, String.length (str_map f v) = String.length v)
    by (intros f; clear; induction v as [|c v IH]; simpl; [done|by rewrite IH]).
  rewrite Hlen, Hl, andb_true_r. clear Hl Hlen.
  induction v as [|c v IH]; [done|]. cbn [str_forall str_map] in *. apply andb_true_iff in Hv as [Hc Hv].
  destruct (lower_char_facts c) as [Hi Hh]. destruct (IH Hv) as [H1 H2]. rewrite (Hh Hc), H1, Hi, H2. done.
Qed.

Lemma parse_part_lower st p st' :
  parse_part st p = Some st' → Forall lower_hex (snd st) → Forall lower_hex (snd st').
Proof.
  unfold parse_part. intros E Hst. repeat case_match; simplify_eq; try done.
  cbn [snd]. apply Forall_app. split; [done|]. repeat constructor; by apply lower_hex_toLowerCase.
Qed.

Lemma parse_parts_lower st ps st' :
  parse_parts st ps = Some st' → Forall lower_hex (snd st) → Forall lower_hex (snd st').
Proof.
  revert st. induction ps as [|p ps IH]; intros st; cbn [parse_parts]; [naive_solver|].
  destruct (parse_part st p) eqn:Ep; [|done]. intros E Hst. eapply IH; [done|]. by eapply parse_part_lower.
Qed.

Lemma parsed_lower h parts :
  parseSignatureHeader h = Some parts → Forall lower_hex (signatures parts).
Proof.
  unfold parseSignatureHeader. intros E. repeat case_match; simplify_eq.
  apply (parse_parts_lower (None, []) (split "," h) _ ltac:(eassumption)). constructor.
Qed.

(** ** The verdict *)

Section verdict.
Context `{HL : HmacLaws}.

Lemma hmac_lower_hex secret content : lower_hex (hmacHex secret content).
Proof. split; [apply hmac_hex|apply hmac_lower]. Qed.

Lemma trim_hex v : str_forall is_hex v = true → trim v = v.
Proof.
  intros Hv. assert (Hws : str_forall (λ c, negb (is_ws c)) v = true).
  { eapply str_forall_impl; [|exact Hv]. intros [[] [] [] [] [] [] [] []]; vm_compute; congruence. }
  unfold trim. by rewrite trimStart_clean, trimEnd_clean.
Qed.

Lemma hex_avoid c v : is_hex c = false → str_forall is_hex v = true → avoids c v = true.
Proof.
  intros Hc. apply str_forall_impl. intros x Hx. apply negb_true_iff, bool_decide_eq_false_2.
  intros ->. congruence.
Qed.

Lemma trim_ne c s : is_ws c = false → trim (String c s) ≠ "".
Proof.
  intros Hc. unfold trim. cbn [trimStart]. rewrite Hc. cbn [trimEnd]. rewrite Hc. by destruct (trimEnd s).
Qed.

(** The parser reads back what the signer wrote. *)
Lemma parse_signed secret body t :
  0 ≤ t < 2 ^ 53 →
  parseSignatureHeader (signRawBody secret body t) =
    Some {| timestamp := t; signatures := [hmacHex secret (signed_content t body)] |}.
Proof.
  intros Ht. unfold signRawBody. set (v1 := hmacHex _ _).
  destruct (hmac_lower_hex secret (signed_content t body)) as [Hhex Hlow]. fold v1 in Hhex, Hlow.
  assert (Hv : str_forall is_hex v1 = true) by (unfold hex64 in Hhex; by bool_prop).
  assert (Hd : all_digits (show_Z t) = true) by (apply show_Z_digits; lia).
  unfold parseSignatureHeader.
  change ("t=" +:+ show_Z t +:+ ",v1=" +:+ v1) with (("t=" +:+ show_Z t) +:+ String "," ("v1=" +:+ v1)).
  rewrite split_app; [rewrite split_single|].
  2: { rewrite str_forall_app. apply andb_true_iff. split; [done|by apply (hex_avoid ",")]. }
  2: { rewrite str_forall_app. apply andb_true_iff. split; [done|by apply (digits_avoid ",")]. }
  rewrite bool_decide_false by (apply (trim_ne "t"%char); done).
  cbn [parse_parts]. unfold parse_part at 1.
  change ("t=" +:+ show_Z t) with ("t" +:+ String "=" (show_Z t)). rewrite cut_app by done.
  rewrite (trim_digits _ Hd). change (trim "t") with "t". rewrite bool_decide_true by done.
  destruct (Number_show t Ht) as (x & -> & Hx & _). rewrite Hx. cbn [fst snd].
  unfold parse_part. change ("v1=" +:+ v1) with ("v1" +:+ String "=" v1). rewrite cut_app by done.
  rewrite (trim_hex _ Hv). change (trim "v1") with "v1". rewrite bool_decide_false, bool_decide_true by done.
  rewrite Hhex, Hlow. done.
Qed.

Definition secret_list (secrets : Secrets) : list string :=
  match secrets with SecretList l => l | OneSecret s => [s] end.
Definition tolerance (o : VerifyOptions) : Z := default TIMESTAMP_TOLERANCE_SECONDS (toleranceSeconds o).
Definition clock (nowMs : Z) (o : VerifyOptions) : Z := default (nowMs / 1000) (nowSeconds o).

Lemma existsb_digest candidate content l :
  lower_hex candidate →
  existsb (λ secret, safeEqualHex candidate (hmacHex secret content)) l =
  existsb (λ secret, bool_decide (candidate = hmacHex secret content)) l.
Proof.
  intros Hc. induction l as [|x l IH]; [done|]. cbn [existsb]. rewrite IH.
  by rewrite safeEqualHex_eq by (done || apply hmac_lower_hex).
Qed.

Lemma signed_verdict (secret body received : string) (t nowMs : Z) (secrets : Secrets) (o : VerifyOptions) :
  0 ≤ t < 2 ^ 53 →
  verifySignature nowMs (Some (signRawBody secret body t)) received secrets o =
    (if tolerance o <? Z.abs (clock nowMs o - t) then Throw Stale
     else if existsb (λ s, bool_decide (hmacHex secret (signed_content t body) =
                                        hmacHex s (signed_content t received))) (secret_list secrets)
     then Ok t else Throw Mismatch).
Proof.
  intros Ht. unfold verifySignature. change (truthy (Some (signRawBody secret body t)))
    with (Some (signRawBody secret body t)). cbv beta iota.
  rewrite parse_signed by done. cbn [timestamp signatures]. fold (tolerance o) (clock nowMs o).
  destruct (tolerance o <? _); [done|]. fold (secret_list secrets).
  destruct (secret_list secrets) as [|s l]; [done|]. cbn [existsb]. rewrite orb_false_r.
  rewrite (existsb_digest _ _ l) by apply hmac_lower_hex.
  by rewrite safeEqualHex_eq by apply hmac_lower_hex.
Qed.

Lemma signed_accepted (secret body : string) (t nowMs : Z) (secrets : Secrets) (o : VerifyOptions) :
  0 ≤ t < 2 ^ 53 → secret ∈ secret_list secrets → Z.abs (clock nowMs o - t) ≤ tolerance o →
  verifySignature nowMs (Some (signRawBody secret body t)) body secrets o = Ok t.
Proof.
  intros Ht Hin Hw. rewrite signed_verdict by done. rewrite (proj2 (Z.ltb_ge _ _)) by done.
  assert (existsb (λ s, bool_decide (hmacHex secret (signed_content t body) = hmacHex s (signed_content t body)))
    (secret_list secrets) = true) as ->; [|done].
  apply existsb_exists. exists secret. split; [by apply list_elem_of_In|]. by apply bool_decide_eq_true.
Qed.

(** C11: What a receiver concludes from a header the signer produced, for every body it may have received
    and every set of secrets it may hold.  Outside the tolerance window (300 s unless configured) the
    answer is stale, whatever the body.  Inside it, the header is accepted, with the signed timestamp,
    exactly when one of the receiver's secrets gives, for that timestamp and the received body, the digest
    that was sent.  So the untouched body verifies with the signing secret, also during a rotation when it
    is one of several, and a changed body or another secret verifies only on an HMAC collision. *)
Theorem signed_header_verdict (secret body received : string) (t nowMs : Z) (secrets : Secrets)
    (o : VerifyOptions) :
  0 ≤ t < 2 ^ 53 →
  verifySignature nowMs (Some (signRawBody secret body t)) received secrets o =
    (if tolerance o <? Z.abs (clock nowMs o - t) then Throw Stale
     else if existsb (λ s, bool_decide (hmacHex secret (signed_content t body) =
                                        hmacHex s (signed_content t received))) (secret_list secrets)
     then Ok t else Throw Mismatch) ∧
  (secret ∈ secret_list secrets → Z.abs (clock nowMs o - t) ≤ tolerance o →
     verifySignature nowMs (Some (signRawBody secret body t)) body secrets o = Ok t).
Proof. intros Ht. split; [by apply signed_verdict|intros; by apply signed_accepted]. Qed.

(** Nothing unsigned is accepted.  When a header verifies, it parses, the timestamp returned is the
    one in the header and within the window, and one of its digests is the HMAC under one of the
    receiver's secrets of exactly that timestamp and the received body; in particular an empty secret list
    and a missing header never verify. *)
Theorem verified_is_signed (nowMs : Z) (header : option string) (body : string) (secrets : Secrets)
    (o : VerifyOptions) (t : Z) :
  verifySignature nowMs header body secrets o = Ok t →
  ∃ h parts secret, header = Some h ∧ parseSignatureHeader h = Some parts ∧ timestamp parts = t ∧
    Z.abs (clock nowMs o - t) ≤ tolerance o ∧ secret ∈ secret_list secrets ∧
    hmacHex secret (signed_content t body) ∈ signatures parts.
Proof.
  unfold verifySignature. fold (secret_list secrets) (tolerance o) (clock nowMs o).
  destruct (truthy header) as [h|] eqn:Eh; [|done].
  destruct (parseSignatureHeader h) as [parts|] eqn:Ep; [|done].
  destruct (Z.ltb_spec (tolerance o) (Z.abs (clock nowMs o - timestamp parts))); [done|].
  destruct (secret_list secrets) as [|s0 l0] eqn:El; [done|]. rewrite <- El.
  destruct (existsb _ _) eqn:Em; [|done]. intros [= <-].
  apply existsb_exists in Em as (cand & Hc & Hs). apply list_elem_of_In in Hc.
  pose proof (parsed_lower _ _ Ep) as Hlow. rewrite Forall_forall in Hlow.
  rewrite existsb_digest in Hs by (by apply Hlow). apply existsb_exists in Hs as (s & Hin & Hd).
  apply list_elem_of_In in Hin. apply bool_decide_eq_true_1 in Hd as ->.
  exists h, parts, s. split_and!; try done. destruct header as [[|]|]; naive_solver.
Qed.
End verdict.

Module SignatureWitnesses.

(** A digest with the shape of SHA-256: not a hash, but a function of both arguments. *)
Definition sample_digest (secret content : string) : Z :=
  let fix go acc s := match s with "" => acc | String c r => go ((acc * 131 + code c) mod 65536) r end in
  go (go 7 secret) content.
Fixpoint hex_of (n : nat) (x : Z) : string :=
  match n with
  | O => ""
  | S n' => String (nth (Z.to_nat (x mod 16)) ["0"; "1"; "2"; "3"; "4"; "5"; "6"; "7"; "8"; "9"; "a"; "b"; "c";
      "d"; "e"; "f"]%char "0"%char) (hex_of n' (x / 16))
  end.
#[local] Instance sample_hmac : Hmac := λ secret content, hex_of 64 (sample_digest secret content).

Lemma hex_of_lower n x :
  str_forall is_hex (hex_of n x) = true ∧ toLowerCase (hex_of n x) = hex_of n x ∧
  String.length (hex_of n x) = n.
Proof.
  revert x. induction n as [|n IH]; intros x; [done|]. cbn [hex_of str_forall String.length].
  unfold toLowerCase in *. cbn [str_map]. destruct (IH (x / 16)) as (-> & -> & ->).
  pose proof (Z.mod_pos_bound x 16 ltac:(lia)).
  assert (Hm : Z.to_nat (x mod 16) ∈ seq 0 16) by (apply elem_of_seq; lia).
  revert Hm. generalize (Z.to_nat (x mod 16)). intros k Hk.
  assert (Hall : Forall (λ k, is_hex (nth k ["0"; "1"; "2"; "3"; "4"; "5"; "6"; "7"; "8"; "9"; "a"; "b"; "c";
      "d"; "e"; "f"]%char "0"%char) = true ∧ lower_char (nth k ["0"; "1"; "2"; "3"; "4"; "5"; "6"; "7"; "8";
      "9"; "a"; "b"; "c"; "d"; "e"; "f"]%char "0"%char) = nth k ["0"; "1"; "2"; "3"; "4"; "5"; "6"; "7"; "8";
      "9"; "a"; "b"; "c"; "d"; "e"; "f"]%char "0"%char) (seq 0 16)) by (repeat constructor).
  rewrite Forall_forall in Hall. destruct (Hall k Hk) as [-> ->]. done.
Qed.

#[local] Instance sample_hmac_laws : HmacLaws sample_hmac.
Proof.
  split; intros secret content; unfold hmacHex, sample_hmac, hex64, str_len;
    destruct (hex_of_lower 64 (sample_digest secret content)) as (H1 & H2 & H3); [|done].
  rewrite H1, H3. done.
Qed.

Definition no_options : VerifyOptions := {| toleranceSeconds := None; nowSeconds := None |}.

(** A header signed with the old secret of a rotation, received 2 s later. *)
Lemma signed_header_verdict_witness :
  verifySignature 1700000002000 (Some (signRawBody "old" "{}" 1700000000)) "{}"
    (SecretList ["new"; "old"]) no_options = Ok 1700000000.
Proof.
  refine (proj2 (signed_header_verdict "old" "{}" "{}" 1700000000 1700000002000 (SecretList ["new"; "old"]) no_options _) _ _).
  - lia.
  - right. left.
  - vm_compute. discriminate.
Defined.

Lemma verified_is_signed_witness :
  ∃ h parts secret, Some (signRawBody "k" "{}" 1700000000) = Some h ∧ parseSignatureHeader h = Some parts ∧
    timestamp parts = 1700000000 ∧ secret ∈ ["k"] ∧
    hmacHex secret (signed_content 1700000000 "{}") ∈ signatures parts.
Proof.
  destruct (verified_is_signed 1700000000000 (Some (signRawBody "k" "{}" 1700000000)) "{}" (OneSecret "k")
    no_options 1700000000) as (h & parts & s & H1 & H2 & H3 & _ & H4 & H5); [vm_compute; reflexivity|].
  exists h, parts, s. auto.
Defined.

End SignatureWitnesses.
