(* ===== verification/Pagination.v ===== *)
(** * Cursor pagination

    backend/src/helpers/pagination.ts: limits, signed keyset cursors
    (createdAt, id), the keyset condition, and the offset cursors of in-memory
    lists. *)

From stdpp Require Import pretty numbers base strings list.
From Stdlib Require Import ZArith Lia Ascii Sorted.
From S2P Require Import Prelude JsText JsNumber Codec.

Open Scope string_scope.
Open Scope Z_scope.

Definition DEFAULT_LIMIT : Z := 20.
Definition MAX_LIMIT : Z := 100.

(** Models [PageParams] (backend/src/helpers/pagination.ts:78-87). *)
Record PageParams := { after : option string; limit : option Z }.

(** Models [CursorPayload] (backend/src/helpers/pagination.ts:89-94). *)
Record CursorPayload := { cp_createdAt : string; cp_id : Z }.

(** Models [CursorPageResult] (backend/src/helpers/pagination.ts:96-111). *)
Record CursorPageResult (T : Type) := { data : list T; next_cursor : option string; total : Z }.
Arguments data {T} _. Arguments next_cursor {T} _. Arguments total {T} _.

(** The keyset condition: [createdAt < lt], or [createdAt = lt] and [id < id_lt].
    Models [KeysetWhere] (backend/src/helpers/pagination.ts:117-122). *)
Record KeysetWhere := { ks_createdAt : Z; ks_id : Z }.

(** BadRequestException (also as CursorError), by the cursor its message quotes. *)
Inductive CursorError := InvalidCursor (cursor : string).

(** Models [clampLimit] (backend/src/helpers/pagination.ts:132-134). *)
Definition clampLimit (requested : option Z) : Z :=
  Z.min (Z.max 1 (default DEFAULT_LIMIT requested)) MAX_LIMIT.

(** Splitting at the last occurrence of a character. *)
Fixpoint cut_last (c : ascii) (s : string) : option (string * string) :=
  match s with
  | "" => None
  | String a s' =>
      match cut_last c s' with
      | Some (p, q) => Some (String a p, q)
      | None => if bool_decide (a = c) then Some ("", s') else None
      end
  end.

(** The platform: the HMAC in base64url and Date.parse (milliseconds;
    [None] is NaN). *)
Class CursorPlatform := {
  hmac64 : string → string → string;
  Date_parse : string → option Z;
}.

(** What the code relies on: a digest is a non-empty base64url text, and
    Date.parse reads what toISOString writes. *)
Class CursorPlatformLaws (P : CursorPlatform) : Prop := {
  hmac64_url : ∀ secret payload, str_forall is_url64 (hmac64 secret payload) = true;
  hmac64_ne : ∀ secret payload, hmac64 secret payload ≠ "";
  Date_parse_iso : ∀ ms, 0 ≤ ms < 253402300800000 → Date_parse (toISOString ms) = Some ms;
}.

(** [{"createdAt":"...","id":n}], as JSON.stringify writes it. *)
Definition cursor_json (p : CursorPayload) : string :=
  "{" +:+ quoted "createdAt" +:+ ":" +:+ quoted (cp_createdAt p) +:+ "," +:+ quoted "id" +:+ ":" +:+
  show_Z (cp_id p) +:+ "}".

Section pagination.
Context `{P : CursorPlatform}.
(** PAGINATION_HMAC_SECRET *)
Context (HMAC_SECRET : option string).

(** Models [sign] (backend/src/helpers/pagination.ts:140-143). *)
Definition sign (payload : string) : string :=
  match truthy HMAC_SECRET with
  | None => ""
  | Some secret => hmac64 secret payload
  end.

(** Models [encodeCursor] (backend/src/helpers/pagination.ts:149-155). *)
Definition encodeCursor (createdAt id : Z) : string :=
  let payload := {| cp_createdAt := toISOString createdAt; cp_id := id |} in
  let encoded := toBase64Url (cursor_json payload) in
  let tag := sign encoded in
  if bool_decide (tag = "") then encoded else encoded +:+ "." +:+ tag.

(** The shape test on the parsed value. *)
Definition cursor_shape (parsed : json) : option CursorPayload :=
  match parsed with
  | JObj fields =>
      match get_field "createdAt" fields, get_field "id" fields with
      | Some (JStr createdAt), Some (JNum (Some id)) =>
          if negb (d_isInteger id) || (d_floor id <? 0) || bool_decide (Date_parse createdAt = None) then None
          else Some {| cp_createdAt := createdAt; cp_id := d_floor id |}
      | _, _ => None
      end
  | _ => None
  end.

(** The signature check: the encoded part, or nothing. *)
Definition checked_part (cursor : string) : option string :=
  match truthy HMAC_SECRET with
  | None => Some cursor
  | Some _ =>
      match cut_last "." cursor with
      | None => None
      | Some (encoded, providedTag) => if bool_decide (providedTag = sign encoded) then Some encoded else None
      end
  end.

(** Models [decodeCursor] (backend/src/helpers/pagination.ts:162-198). *)
Definition decodeCursor (cursor : string) : result CursorError CursorPayload :=
  match checked_part cursor with
  | None => Throw (InvalidCursor cursor)
  | Some encoded =>
      match JSON_parse (fromBase64Url encoded) with
      | None => Throw (InvalidCursor cursor)
      | Some parsed =>
          match cursor_shape parsed with
          | None => Throw (InvalidCursor cursor)
          | Some p => Ok p
          end
      end
  end.

(** [new Date(createdAt)] is valid here: decodeCursor tested it.
    Models [buildKeysetWhere] (backend/src/helpers/pagination.ts:214-224). *)
Definition buildKeysetWhere (after : option string) : result CursorError (option KeysetWhere) :=
  match truthy after with
  | None => Ok None
  | Some c =>
      let! p := decodeCursor c in
      Ok (Some {| ks_createdAt := default 0 (Date_parse (cp_createdAt p)); ks_id := cp_id p |})
  end.

(** Models [buildNextCursor] (backend/src/helpers/pagination.ts:262-270). *)
Definition buildNextCursor {T} (createdAt id : T → Z) (items : list T) (limit total : Z) : option string :=
  if (length items =? 0)%nat || (Z.of_nat (length items) <? limit) || (total <=? limit) then None
  else match last items with
       | Some l => Some (encodeCursor (createdAt l) (id l))
       | None => None
       end.

(** Models [paginate] (backend/src/helpers/pagination.ts:230-252). *)
Definition paginate {T} (items : list T) (params : PageParams) : result CursorError (CursorPageResult T) :=
  let lim := clampLimit (limit params) in
  let total := Z.of_nat (length items) in
  let! startIndex :=
    match truthy (after params) with
    | None => Ok 0
    | Some a =>
        match Number (fromBase64Url a) with
        | None => Throw (InvalidCursor a)
        | Some offset =>
            if negb (d_isInteger offset) || (d_floor offset <? 0) then Throw (InvalidCursor a)
            else Ok (d_floor offset)
        end
    end in
  let page := take (Z.to_nat lim) (drop (Z.to_nat startIndex) items) in
  let nextOffset := startIndex + Z.of_nat (length page) in
  let next :=
    if (Z.of_nat (length page) =? lim) && (nextOffset <? total) then Some (toBase64Url (show_Z nextOffset))
    else None in
  Ok {| data := page; next_cursor := next; total := total |}.
End pagination.

(** ** Offset cursors *)

(** A client that follows next_cursor until it is null. *)
Fixpoint walk {T} (fuel : nat) (items : list T) (lim : option Z) (after : option string)
  : option (list (list T)) :=
  match fuel with
  | O => None
  | S f =>
      match paginate items {| after := after; limit := lim |} with
      | Throw _ => None
      | Ok page =>
          match next_cursor page with
          | None => Some [data page]
          | Some c => match walk f items lim (Some c) with Some l => Some (data page :: l) | None => None end
          end
      end
  end.

Lemma clampLimit_range r : 1 ≤ clampLimit r ≤ 100.
Proof. unfold clampLimit, MAX_LIMIT. lia. Qed.

Lemma base64_truthy s : s ≠ "" → truthy (Some (toBase64Url s)) = Some (toBase64Url s).
Proof. destruct s as [|a [|b [|c s]]]; [done|done..]. Qed.

(** The page an offset cursor selects. *)
Lemma paginate_offset {T} (items : list T) lim k :
  0 ≤ k < 2 ^ 53 →
  paginate items {| after := Some (toBase64Url (show_Z k)); limit := lim |} =
  (let n := Z.to_nat (clampLimit lim) in
   let page := take n (drop (Z.to_nat k) items) in
   Ok {| data := page;
         next_cursor := if (Z.of_nat (length page) =? clampLimit lim) &&
                           (k + Z.of_nat (length page) <? Z.of_nat (length items))
                        then Some (toBase64Url (show_Z (k + Z.of_nat (length page)))) else None;
         total := Z.of_nat (length items) |}).
Proof.
  intros Hk. unfold paginate. cbn [after limit]. rewrite base64_truthy by apply show_Z_ne_empty.
  rewrite base64url_roundtrip. destruct (Number_show k Hk) as (x & -> & Hx & Hi). rewrite Hx, Hi.
  destruct (Z.ltb_spec k 0); [lia|]. done.
Qed.

Lemma walk_offset {T} (items : list T) lim fuel k :
  0 ≤ k → Z.of_nat (length items) < 2 ^ 53 → k ≤ Z.of_nat (length items) →
  (length items - Z.to_nat k < fuel)%nat →
  ∃ pages, walk fuel items lim (Some (toBase64Url (show_Z k))) = Some pages ∧
    concat pages = drop (Z.to_nat k) items ∧ Forall (λ p, Z.of_nat (length p) ≤ clampLimit lim) pages.
Proof.
  intros H0 Hlen. revert k H0. induction fuel as [|fuel IH]; intros k H0 Hk Hf; [lia|].
  cbn [walk]. rewrite paginate_offset by lia. cbn [data next_cursor].
  pose proof (clampLimit_range lim). set (n := Z.to_nat (clampLimit lim)).
  set (page := take n (drop (Z.to_nat k) items)).
  assert (Hp : length page = (n `min` (length items - Z.to_nat k))%nat)
    by (unfold page; by rewrite length_take, length_drop).
  assert (Hle : Z.of_nat (length page) ≤ clampLimit lim) by (subst n; lia).
  destruct ((Z.of_nat (length page) =? clampLimit lim) && _) eqn:E.
  - bool_prop. destruct (IH (k + Z.of_nat (length page))) as (pages & -> & Hc & Hb); [lia..|].
    eexists. split; [done|]. split; [|by constructor]. cbn [concat]. rewrite Hc.
    replace (Z.to_nat (k + Z.of_nat (length page))) with (Z.to_nat k + n)%nat by lia.
    rewrite <- drop_drop. apply take_drop.
  - eexists. split; [done|]. split; [|by repeat constructor]. cbn [concat]. rewrite app_nil_r.
    apply take_ge. rewrite length_drop. apply andb_false_iff in E as [E|E]; bool_prop; lia.
Qed.

(** Following the offset cursors of an in-memory list reads all of it.  Starting without a cursor and
    passing each next_cursor back until it is null, a client gets pages of at most the clamped limit
    (between 1 and 100) whose concatenation is the whole list in order: nothing is skipped, repeated or
    rejected, and the walk ends after at most one page per item. *)
Theorem paginate_complete {T} (items : list T) (lim : option Z) :
  Z.of_nat (length items) < 2 ^ 53 →
  ∃ pages, walk (S (length items)) items lim None = Some pages ∧ concat pages = items ∧
    Forall (λ p, Z.of_nat (length p) ≤ clampLimit lim) pages.
Proof.
  intros Hlen. destruct (walk_offset items lim (S (length items)) 0) as (pages & Hw & Hc & Hb); [lia..|].
  exists pages. split; [|done]. rewrite <- Hw. cbn [walk]. rewrite paginate_offset by lia. done.
Qed.

(** ** Cursors decode to what was encoded *)

Lemma json_value_object f r :
  json_value (S f) (String "{" (quoted "createdAt" +:+ r)) =
    match json_members f (quoted "createdAt" +:+ r) with Some (l, r2) => Some (JObj l, r2) | None => None end.
Proof. reflexivity. Qed.

Lemma JSON_parse_cursor iso n :
  str_forall plain iso = true → 0 ≤ n →
  JSON_parse (cursor_json {| cp_createdAt := iso; cp_id := n |}) =
    Some (JObj [("createdAt", JStr iso); ("id", JNum (unsigned_decimal (show_Z n)))]).
Proof.
  intros Hiso Hn. unfold JSON_parse, cursor_json. cbn [cp_createdAt cp_id].
  change ("{" +:+ ?x) with (String "{" x).
  set (body := quoted "createdAt" +:+ _).
  replace (2 * String.length (String "{" body) + 2)%nat with (S (S (S (S (2 * String.length body)))))
    by (cbn [String.length]; lia).
  generalize (2 * String.length body)%nat. intros f.
  assert (Hm : json_members (S (S (S f))) body =
    Some ([("createdAt", JStr iso); ("id", JNum (unsigned_decimal (show_Z n)))], "")).
  { unfold body. change (":" +:+ ?x) with (String ":" "" +:+ x).
    rewrite (json_members_cons _ "createdAt" "") by done. change ("" +:+ ?x) with x.
    rewrite json_value_string by done. change ("," +:+ ?x) with (String "," x).
    rewrite skip_ws_cons by done. cbv iota. rewrite (json_members_cons _ "id" "") by done.
    change ("" +:+ ?x) with x. rewrite json_value_int by done. rewrite skip_ws_cons by done. done. }
  unfold body at 1. rewrite json_value_object. fold body. rewrite Hm. done.
Qed.

Lemma cut_last_none c v : avoids c v = true → cut_last c v = None.
Proof.
  induction v as [|x v IH]; [done|]. unfold avoids in *. cbn [str_forall cut_last].
  intros [Hx Hv]%andb_true_iff. rewrite (IH Hv). apply negb_true_iff in Hx. by rewrite Hx.
Qed.

Lemma cut_last_app c p v : avoids c v = true → cut_last c (p +:+ String c v) = Some (p, v).
Proof.
  intros Hv. induction p as [|x p IH].
  - change (cut_last c (String c v) = Some ("", v)). cbn [cut_last].
    rewrite cut_last_none by done. by rewrite bool_decide_true.
  - change (cut_last c (String x (p +:+ String c v)) = Some (String x p, v)). cbn [cut_last]. by rewrite IH.
Qed.

Lemma cut_last_inv c s p q : cut_last c s = Some (p, q) → s = p +:+ String c q.
Proof.
  revert p q. induction s as [|x s IH]; intros p q; cbn [cut_last]; [done|].
  destruct (cut_last c s) as [[p' q']|].
  - intros [= <- <-]. change (String x s = String x (p' +:+ String c q')). by rewrite <- (IH p' q').
  - case_bool_decide; [|done]. intros [= <- <-]. by subst.
Qed.

Section cursors.
Context `{PL : CursorPlatformLaws}.

Lemma sign_some secret k payload : truthy secret = Some k → sign secret payload = hmac64 k payload.
Proof. unfold sign. by intros ->. Qed.

Lemma encoded_checked secret ms n :
  checked_part secret (encodeCursor secret ms n) =
    Some (toBase64Url (cursor_json {| cp_createdAt := toISOString ms; cp_id := n |})).
Proof.
  unfold checked_part, encodeCursor. destruct (truthy secret) as [k|] eqn:E.
  - rewrite (sign_some _ _ _ E). rewrite bool_decide_false by apply hmac64_ne.
    change ("." +:+ ?x) with (String "." x). rewrite cut_last_app.
    + rewrite (sign_some _ _ _ E). by rewrite bool_decide_true.
    + eapply str_forall_impl; [|apply hmac64_url]. intros [[] [] [] [] [] [] [] []]; vm_compute; congruence.
  - unfold sign. rewrite E. by rewrite bool_decide_true.
Qed.

Lemma decode_encode secret ms n :
  0 ≤ ms < 253402300800000 → 0 ≤ n < 2 ^ 53 →
  decodeCursor secret (encodeCursor secret ms n) = Ok {| cp_createdAt := toISOString ms; cp_id := n |}.
Proof.
  intros Hms Hn. unfold decodeCursor. rewrite encoded_checked, base64url_roundtrip.
  rewrite JSON_parse_cursor by (apply toISOString_plain || lia).
  rewrite unsigned_decimal_digits by (apply show_Z_digits || apply show_Z_ne_empty; lia).
  rewrite show_Z_val by lia. destruct (round_double_int n Hn) as (x & -> & Hf & Hi).
  unfold cursor_shape. cbn [get_field].
  rewrite (bool_decide_true ("createdAt" = "createdAt")), (bool_decide_false ("id" = "createdAt")),
    (bool_decide_true ("id" = "id")) by done.
  rewrite Hi, Hf, Date_parse_iso by done. destruct (Z.ltb_spec n 0); [lia|]. done.
Qed.

Lemma encodeCursor_truthy secret ms n :
  truthy (Some (encodeCursor secret ms n)) = Some (encodeCursor secret ms n).
Proof. unfold encodeCursor. case_bool_decide; done. Qed.

Lemma keyset_encode secret ms n :
  0 ≤ ms < 253402300800000 → 0 ≤ n < 2 ^ 53 →
  buildKeysetWhere secret (Some (encodeCursor secret ms n)) = Ok (Some {| ks_createdAt := ms; ks_id := n |}).
Proof.
  intros Hms Hn. unfold buildKeysetWhere. rewrite encodeCursor_truthy, decode_encode by done.
  cbn [rbind cp_createdAt cp_id]. by rewrite Date_parse_iso.
Qed.

(** C40: A cursor is read back as it was issued.  For every timestamp of the years 1970 to 9999 and every
    non-negative id that is a safe integer (negative ids are rejected by the shape test), with or without a
    secret, decoding the issued cursor through base64url, the JSON parser and the shape test gives exactly the
    encoded createdAt and id, and the keyset condition built from it is about that very millisecond and id.
    With a secret configured, a cursor decodes only when it ends in the HMAC of what precedes its last point:
    a client cannot move a cursor without the secret. *)
Theorem cursor_roundtrip (secret : option string) (ms n : Z) :
  0 ≤ ms < 253402300800000 → 0 ≤ n < 2 ^ 53 →
  decodeCursor secret (encodeCursor secret ms n) = Ok {| cp_createdAt := toISOString ms; cp_id := n |} ∧
  buildKeysetWhere secret (Some (encodeCursor secret ms n)) =
    Ok (Some {| ks_createdAt := ms; ks_id := n |}) ∧
  ∀ k cursor p, truthy secret = Some k → decodeCursor secret cursor = Ok p →
    ∃ encoded, cursor = encoded +:+ "." +:+ hmac64 k encoded.
Proof.
  intros Hms Hn. split; [by apply decode_encode|]. split; [by apply keyset_encode|].
  intros k cursor p Hk. unfold decodeCursor, checked_part. rewrite Hk.
  destruct (cut_last "." cursor) as [[enc tag]|] eqn:Ec; [|done].
  case_bool_decide as Et; [|done]. intros _. exists enc. apply cut_last_inv in Ec as ->. subst tag.
  by rewrite (sign_some _ _ _ Hk).
Qed.
End cursors.

(** An executable platform: the tag is the key and the payload in base64url,
    not a hash; dates are read in the ISO format. *)
Module CursorSample.

#[export] Instance sample_platform : CursorPlatform := {
  hmac64 secret payload := toBase64Url (String "." (secret +:+ payload));
  Date_parse := parseISO;
}.

#[export] Instance sample_platform_laws : CursorPlatformLaws sample_platform.
Proof.
  split.
  - intros secret payload. apply toBase64Url_chars.
  - intros secret payload. cbn. destruct (secret +:+ payload) as [|a [|b s]]; done.
  - intros ms Hms. apply parseISO_toISOString. lia.
Qed.

End CursorSample.

Module PaginationWitnesses.
Import CursorSample.

Lemma paginate_complete_witness :
  ∃ pages, walk 8 [1; 2; 3; 4; 5; 6; 7] (Some 3) None = Some pages ∧ concat pages = [1; 2; 3; 4; 5; 6; 7].
Proof.
  destruct (paginate_complete [1; 2; 3; 4; 5; 6; 7] (Some 3)) as (pages & H1 & H2 & _); [vm_compute; reflexivity|].
  exists pages. split; [exact H1|exact H2].
Defined.

Lemma cursor_roundtrip_witness :
  decodeCursor (Some "key") (encodeCursor (Some "key") 1700000000123 42) =
    Ok {| cp_createdAt := "2023-11-14T22:13:20.123Z"; cp_id := 42 |}.
Proof.
  destruct (cursor_roundtrip (Some "key") 1700000000123 42) as [E _]; [lia|lia|]. rewrite E. reflexivity.
Defined.

End PaginationWitnesses.
