(* ===== verification/Posts.v ===== *)
(** * Posts

    backend/src/posts: the posts service (listing with keyset cursors,
    reading, creating, updating, soft deletion) and the job that publishes
    scheduled drafts.  The table is the interface [PostTable]; DOMPurify is a
    parameter. *)

From stdpp Require Import base strings list sets sorting.
From Stdlib Require Import ZArith Lia Ascii Sorted.
From S2P Require Import Prelude Keyset JsText JsNumber Codec Pagination.

Open Scope string_scope.
Open Scope Z_scope.

(** ** Rows and conditions *)

(** A row of the posts table. *)
Record Post := {
  p_id : Z;
  p_title : string;
  p_body : string;
  p_status : string;
  p_author : string;
  p_publishAt : option Z;
  p_createdAt : Z;
  p_updatedAt : Z;
  p_deletedAt : option Z;
}.

(** The two uses of the OR key of a condition. *)
Inductive OrClause :=
  | OrKeyset (k : KeysetWhere)
  | OrPublished (now : Z).

(** A [where] object over the posts: an absent key is no condition; the keys
    present must all hold. *)
Record PostWhere := {
  w_or : option OrClause;
  w_deletedNull : bool;
  w_status : option string;
  w_author : option string;
  w_dueBy : option Z;
}.

Definition keyset_matches (k : KeysetWhere) (p : Post) : bool :=
  (p_createdAt p <? ks_createdAt k) || ((p_createdAt p =? ks_createdAt k) && (p_id p <? ks_id k)).

Definition or_matches (o : OrClause) (p : Post) : bool :=
  match o with
  | OrKeyset k => keyset_matches k p
  | OrPublished now => match p_publishAt p with None => true | Some t => t <=? now end
  end.

Definition matches (w : PostWhere) (p : Post) : bool :=
  match w_or w with None => true | Some o => or_matches o p end &&
  (negb (w_deletedNull w) || bool_decide (p_deletedAt p = None)) &&
  match w_status w with None => true | Some s => bool_decide (p_status p = s) end &&
  match w_author w with None => true | Some a => bool_decide (p_author p = a) end &&
  match w_dueBy w with
  | None => true
  | Some t => match p_publishAt p with None => false | Some at_ => at_ <=? t end
  end.

(** Newest first: createdAt, then id. *)
Definition newer (a b : Post) : Prop :=
  p_createdAt b < p_createdAt a ∨ (p_createdAt b = p_createdAt a ∧ p_id b < p_id a).

(** ** The table *)

Record PostData := {
  d_title : string; d_body : string; d_status : string; d_author : string; d_publishAt : option Z;
}.

Class PostTable (D : Type) := {
  post_rows : D → list Post;
  (** [findMany] with the newest-first order and [take]. *)
  post_page : PostWhere → nat → D → list Post;
  post_findMany : PostWhere → D → list Post;
  post_count : PostWhere → D → Z;
  (** [findFirst({ where: { id, deletedAt: null } })] *)
  post_findLive : Z → D → option Post;
  post_create : Z → PostData → D → Post * D;
  (** [update] of the row with an id; [None] when there is none. *)
  post_update : Z → (Post → Post) → D → option Post * D;
  post_updateMany : (Post → bool) → (Post → Post) → D → D;
}.

Definition created (now id : Z) (x : PostData) : Post :=
  {| p_id := id; p_title := d_title x; p_body := d_body x; p_status := d_status x; p_author := d_author x;
     p_publishAt := d_publishAt x; p_createdAt := now; p_updatedAt := now; p_deletedAt := None |}.

Class PostTableLaws (D : Type) `{PostTable D} : Prop := {
  ids_unique : ∀ d, NoDup (p_id <$> post_rows d);
  page_spec : ∀ w n d, ∃ l, l ≡ₚ List.filter (matches w) (post_rows d) ∧ StronglySorted newer l ∧
    post_page w n d = take n l;
  findMany_spec : ∀ w d, post_findMany w d ≡ₚ List.filter (matches w) (post_rows d);
  count_spec : ∀ w d, post_count w d = Z.of_nat (length (List.filter (matches w) (post_rows d)));
  findLive_spec : ∀ i d p, post_findLive i d = Some p ↔ p ∈ post_rows d ∧ p_id p = i ∧ p_deletedAt p = None;
  create_spec : ∀ now x d, ∃ i, post_create now x d = (created now i x, snd (post_create now x d)) ∧
    (i ∉ (p_id <$> post_rows d)) ∧ post_rows (snd (post_create now x d)) ≡ₚ created now i x :: post_rows d;
  update_spec : ∀ i f d, (∀ p, p_id (f p) = p_id p) →
    post_rows (snd (post_update i f d)) ≡ₚ ((λ p, if p_id p =? i then f p else p) <$> post_rows d) ∧
    ∀ p, p ∈ post_rows d → p_id p = i → fst (post_update i f d) = Some (f p);
  updateMany_spec : ∀ g f d, (∀ p, p_id (f p) = p_id p) →
    post_rows (post_updateMany g f d) ≡ₚ ((λ p, if g p then f p else p) <$> post_rows d);
}.

(** ** The service *)

(** Models [PostPublishedEvent] (backend/src/posts/post-events.ts:8-13). *)
Record PostPublishedEvent := { e_postId : Z; e_title : string; e_author : string; e_publishedAt : Z }.

Record ListParams := {
  l_page : PageParams;
  l_status : option string;
  l_author : option string;
  includeScheduled : bool;
}.

(** Models [PostResponseDto] (backend/src/posts/dto/post.dto.ts:54-100). *)
Record PostDto := {
  r_id : Z; r_title : string; r_body : string; r_status : string; r_author : string;
  r_publishAt : option Z; r_createdAt : Z; r_updatedAt : Z;
}.

Inductive PostError := PostCursor (e : CursorError) | PostNotFound (id : Z) | PrismaError.

(** Models [toPrismaStatus] (backend/src/posts/posts.service.ts:119-121). *)
Definition toPrismaStatus (status : string) : string := toUpperCase status.

(** Models [isScheduledForFuture] (backend/src/posts/posts.service.ts:123-125). *)
Definition isScheduledForFuture (now : Z) (post : Post) : bool :=
  match p_publishAt post with None => false | Some t => now <? t end.

(** Models [toDto] (backend/src/posts/posts.service.ts:133-153). *)
Definition toDto (post : Post) : PostDto :=
  {| r_id := p_id post; r_title := p_title post; r_body := p_body post; r_status := toLowerCase (p_status post);
     r_author := p_author post; r_publishAt := p_publishAt post; r_createdAt := p_createdAt post;
     r_updatedAt := p_updatedAt post |}.

Record CreatePostDto := {
  c_title : string; c_body : string; c_status : option string; c_author : string; c_publishAt : option Z;
}.
(** [u_publishAt]: undefined, or null or a date. *)
Record UpdatePostDto := {
  u_title : option string; u_body : option string; u_status : option string; u_publishAt : option (option Z);
}.

Section posts.
Context {D : Type} `{PT : PostTable D} `{CP : CursorPlatform}.
Context (HMAC_SECRET : option string) (sanitizePostBody : string → string).

(** The table and what was emitted on the bus. *)
Record World := { db : D; bus : list PostPublishedEvent }.

(** The condition of the listing.  The object literal is built by spreading: a later spread replaces the
    keys of an earlier one, the key OR included. *)
Definition list_where (now : Z) (keyset : option KeysetWhere) (params : ListParams) : PostWhere :=
  let scheduledOr := if includeScheduled params then None else Some (OrPublished now) in
  {| w_or := match scheduledOr with Some o => Some o | None => OrKeyset <$> keyset end;
     w_deletedNull := true;
     w_status := toPrismaStatus <$> truthy (l_status params);
     w_author := truthy (l_author params);
     w_dueBy := None |}.

(** The condition of the count: the same object without the keyset spread. *)
Definition count_where (now : Z) (params : ListParams) : PostWhere :=
  {| w_or := if includeScheduled params then None else Some (OrPublished now);
     w_deletedNull := true;
     w_status := toPrismaStatus <$> truthy (l_status params);
     w_author := truthy (l_author params);
     w_dueBy := None |}.

(** Models [listPosts] (backend/src/posts/posts.service.ts:24-63). *)
Definition listPosts (now : Z) (params : ListParams) (d : D)
  : result CursorError (list PostDto * option string * Z) :=
  let lim := clampLimit (limit (l_page params)) in
  let! keysetWhere := buildKeysetWhere HMAC_SECRET (after (l_page params)) in
  let total := post_count (count_where now params) d in
  let rows := post_page (list_where now keysetWhere params) (Z.to_nat lim) d in
  let next_cursor := buildNextCursor HMAC_SECRET p_createdAt p_id rows lim total in
  Ok (toDto <$> rows, next_cursor, total).

(** Models [getPost] (backend/src/posts/posts.service.ts:65-71). *)
Definition getPost (now id : Z) (includeScheduled : bool) (d : D) : result PostError PostDto :=
  match post_findLive id d with
  | None => Throw (PostNotFound id)
  | Some post =>
      if negb includeScheduled && isScheduledForFuture now post then Throw (PostNotFound id)
      else Ok (toDto post)
  end.

(** Models [emitPublished] (backend/src/posts/posts.service.ts:110-117). *)
Definition emitPublished (now : Z) (post : Post) (w : World) : World :=
  {| db := db w;
     bus := (bus w ++ [{| e_postId := p_id post; e_title := p_title post; e_author := p_author post;
                          e_publishedAt := now |}])%list |}.

(** Models [createPost] (backend/src/posts/posts.service.ts:73-85). *)
Definition createPost (now : Z) (dto : CreatePostDto) (w : World) : PostDto * World :=
  let '(post, d) := post_create now
    {| d_title := c_title dto; d_body := sanitizePostBody (c_body dto);
       d_status := match truthy (c_status dto) with Some s => toPrismaStatus s | None => "DRAFT" end;
       d_author := c_author dto; d_publishAt := c_publishAt dto |} (db w) in
  let w := {| db := d; bus := bus w |} in
  let w := if bool_decide (p_status post = "PUBLISHED") && negb (isScheduledForFuture now post)
           then emitPublished now post w else w in
  (toDto post, w).

(** The fields an update writes; [updatedAt] is the table's own. *)
Definition patch (now : Z) (dto : UpdatePostDto) (p : Post) : Post :=
  {| p_id := p_id p;
     p_title := default (p_title p) (u_title dto);
     p_body := match u_body dto with Some b => sanitizePostBody b | None => p_body p end;
     p_status := match u_status dto with Some s => toPrismaStatus s | None => p_status p end;
     p_author := p_author p;
     p_publishAt := default (p_publishAt p) (u_publishAt dto);
     p_createdAt := p_createdAt p; p_updatedAt := now; p_deletedAt := p_deletedAt p |}.

(** Models [updatePost] (backend/src/posts/posts.service.ts:87-108). *)
Definition updatePost (now id : Z) (dto : UpdatePostDto) (w : World) : result PostError PostDto * World :=
  match post_findLive id (db w) with
  | None => (Throw (PostNotFound id), w)
  | Some existing =>
      match post_update id (patch now dto) (db w) with
      | (None, d) => (Throw PrismaError, {| db := d; bus := bus w |})
      | (Some post, d) =>
          let w := {| db := d; bus := bus w |} in
          let w := if negb (bool_decide (p_status existing = "PUBLISHED")) &&
                      bool_decide (p_status post = "PUBLISHED") && negb (isScheduledForFuture now post)
                   then emitPublished now post w else w in
          (Ok (toDto post), w)
      end
  end.

Definition soft_delete (now : Z) (p : Post) : Post :=
  {| p_id := p_id p; p_title := p_title p; p_body := p_body p; p_status := p_status p; p_author := p_author p;
     p_publishAt := p_publishAt p; p_createdAt := p_createdAt p; p_updatedAt := now; p_deletedAt := Some now |}.

(** Models [deletePost] (backend/src/posts/posts.service.ts:127-131). *)
Definition deletePost (now id : Z) (w : World) : result PostError () * World :=
  match post_findLive id (db w) with
  | None => (Throw (PostNotFound id), w)
  | Some _ =>
      match post_update id (soft_delete now) (db w) with
      | (None, d) => (Throw PrismaError, {| db := d; bus := bus w |})
      | (Some _, d) => (Ok (), {| db := d; bus := bus w |})
      end
  end.

Definition set_published (now : Z) (p : Post) : Post :=
  {| p_id := p_id p; p_title := p_title p; p_body := p_body p; p_status := "PUBLISHED"; p_author := p_author p;
     p_publishAt := p_publishAt p; p_createdAt := p_createdAt p; p_updatedAt := now; p_deletedAt := p_deletedAt p |}.

Definition due_where (now : Z) : PostWhere :=
  {| w_or := None; w_deletedNull := true; w_status := Some "DRAFT"; w_author := None; w_dueBy := Some now |}.

(** Models [publishDuePosts] (backend/src/posts/post-publish-scheduler.service.ts:18-42). *)
Definition publishDuePosts (now : Z) (w : World) : World :=
  let due := post_findMany (due_where now) (db w) in
  if (length due =? 0)%nat then w
  else
    let d := post_updateMany
      (λ p, bool_decide (p_id p ∈ p_id <$> due) && bool_decide (p_status p = "DRAFT"))
      (set_published now) (db w) in
    fold_left (λ w post, emitPublished now post w) due {| db := d; bus := bus w |}.
End posts.

(** ** Keyset pages *)

Lemma newer_irrefl a : ¬ newer a a.
Proof. unfold newer. lia. Qed.

Lemma newer_trans a b c : newer a b → newer b c → newer a c.
Proof. unfold newer. lia. Qed.

#[export] Instance newer_strict : StrictOrder newer.
Proof. split; [exact newer_irrefl|exact newer_trans]. Qed.

Definition keyset_of (p : Post) : KeysetWhere := {| ks_createdAt := p_createdAt p; ks_id := p_id p |}.

Lemma keyset_newer x p : keyset_matches (keyset_of x) p = true ↔ newer x p.
Proof. unfold keyset_matches, newer, keyset_of; cbn. rewrite orb_true_iff, andb_true_iff. lia. Qed.

(** The keyset condition of the last row of a prefix selects the rest. *)
Lemma keyset_rest (l1 l2 : list Post) x :
  StronglySorted newer ((l1 ++ [x]) ++ l2)%list →
  List.filter (keyset_matches (keyset_of x)) ((l1 ++ [x]) ++ l2)%list = l2.
Proof.
  apply (keyset_selects newer (λ x, keyset_matches (keyset_of x))). intros p. apply keyset_newer.
Qed.

(** ** Listing *)

Definition with_after (params : ListParams) (a : option string) : ListParams :=
  {| l_page := {| after := a; limit := limit (l_page params) |}; l_status := l_status params;
     l_author := l_author params; includeScheduled := includeScheduled params |}.

Section listing.
Context {D : Type} `{PL : PostTableLaws D} `{CL : CursorPlatformLaws}.
Context (HMAC_SECRET : option string).

(** A client that follows next_cursor until it is null. *)
Fixpoint walk_posts (fuel : nat) (now : Z) (params : ListParams) (a : option string) (d : D)
  : option (list PostDto) :=
  match fuel with
  | O => None
  | S f =>
      match listPosts HMAC_SECRET now (with_after params a) d with
      | Throw _ => None
      | Ok (page, None, _) => Some page
      | Ok (page, Some c, _) =>
          match walk_posts f now params (Some c) d with Some l => Some (page ++ l)%list | None => None end
      end
  end.

(** Rows whose cursor is exact: dates from 1970 to 9999 and safe integer ids. *)
Definition row_ok (p : Post) : Prop := 0 ≤ p_createdAt p < 253402300800000 ∧ 0 ≤ p_id p < 2 ^ 53.

Definition visible (now : Z) (params : ListParams) (d : D) : list Post :=
  List.filter (matches (count_where now params)) (post_rows d).

Lemma visible_ok now params d p : Forall row_ok (post_rows d) → p ∈ visible now params d → row_ok p.
Proof.
  intros Hok Hp. rewrite Forall_forall in Hok. apply Hok. unfold visible in Hp.
  apply list_elem_of_In, List.filter_In in Hp as [Hp _]. by apply list_elem_of_In.
Qed.

(** The page after the row [x], or the first page. *)
Lemma page_rest now params d (l1 l2 : list Post) :
  includeScheduled params = true →
  (l1 ++ l2)%list ≡ₚ visible now params d → StronglySorted newer (l1 ++ l2)%list → ∀ n,
  post_page (list_where now (keyset_of <$> last l1) params) n d = take n l2.
Proof.
  intros Hs Hp Hsort n.
  destruct (page_spec (list_where now (keyset_of <$> last l1) params) n d) as (l & Hl & Hls & ->). f_equal.
  apply (sorted_unique newer); [done|by apply sorted_split in Hsort as (_ & ? & _); try apply _|]. rewrite Hl.
  destruct (last l1) as [x|] eqn:Ex.
  - apply last_Some in Ex as [l0 ->]. transitivity (List.filter (keyset_matches (keyset_of x)) ((l0 ++ [x]) ++ l2)%list);
      [|by rewrite keyset_rest].
    rewrite (filter_perm _ _ _ Hp). unfold visible. rewrite filter_filter.
    apply Permutation_refl'. apply filter_ext. intros p. unfold matches, list_where, count_where; cbn.
    rewrite Hs. cbn. rewrite !andb_true_r. destruct (keyset_matches _ p); cbn; [by rewrite andb_true_r|].
    by rewrite andb_false_r.
  - apply last_None in Ex as ->. change ([] ++ l2)%list with l2 in Hp. rewrite Hp. unfold visible.
    apply Permutation_refl'. apply filter_ext. intros p. unfold matches, list_where, count_where; cbn. by rewrite Hs.
Qed.

Definition cursor_of (l : list Post) : option string :=
  match last l with Some x => Some (encodeCursor HMAC_SECRET (p_createdAt x) (p_id x)) | None => None end.

Lemma keyset_cursor_of l : Forall row_ok l → buildKeysetWhere HMAC_SECRET (cursor_of l) = Ok (keyset_of <$> last l).
Proof.
  intros Hok. unfold cursor_of. destruct (last l) as [x|] eqn:Ex; [|done].
  rewrite Forall_forall in Hok. destruct (Hok x) as [H1 H2].
  { apply last_Some in Ex as [l0 ->]. set_solver. }
  by rewrite keyset_encode.
Qed.

Lemma count_visible now params d : post_count (count_where now params) d = Z.of_nat (length (visible now params d)).
Proof. apply count_spec. Qed.

Lemma next_cursor_of (l1 page : list Post) lim total :
  1 ≤ lim → Z.of_nat (length page) = lim → lim < total →
  buildNextCursor HMAC_SECRET p_createdAt p_id page lim total = cursor_of (l1 ++ page)%list ∧
  is_Some (cursor_of (l1 ++ page)%list).
Proof.
  intros Hl Hp Ht. unfold buildNextCursor, cursor_of. rewrite last_app.
  destruct (Nat.eqb_spec (length page) 0); [lia|]. destruct (Z.ltb_spec (Z.of_nat (length page)) lim); [lia|].
  destruct (Z.leb_spec total lim); [lia|]. cbn [orb].
  destruct (last page) as [x|] eqn:Ex; [done|]. apply last_None in Ex as ->. simpl in *. lia.
Qed.

Lemma no_next_cursor (page : list Post) lim total :
  Z.of_nat (length page) < lim ∨ total ≤ lim →
  buildNextCursor HMAC_SECRET p_createdAt p_id page lim total = None.
Proof.
  intros Hnx. unfold buildNextCursor. destruct (length page =? 0)%nat; [done|].
  destruct (Z.ltb_spec (Z.of_nat (length page)) lim); [done|]. destruct (Z.leb_spec total lim); [done|lia].
Qed.

Lemma list_step now params d l1 l2 :
  includeScheduled params = true → Forall row_ok (post_rows d) →
  (l1 ++ l2)%list ≡ₚ visible now params d → StronglySorted newer (l1 ++ l2)%list →
  let lim := clampLimit (limit (l_page params)) in
  let page := take (Z.to_nat lim) l2 in
  listPosts HMAC_SECRET now (with_after params (cursor_of l1)) d =
    Ok (toDto <$> page,
        buildNextCursor HMAC_SECRET p_createdAt p_id page lim (Z.of_nat (length (l1 ++ l2)%list)),
        Z.of_nat (length (l1 ++ l2)%list)).
Proof.
  intros Hs Hok Hp Hsort. cbv zeta. unfold listPosts. cbn [l_page after limit with_after].
  rewrite keyset_cursor_of.
  - cbn [rbind]. change (count_where now (with_after params ?a)) with (count_where now params).
    rewrite count_visible, <- Hp.
    change (list_where now ?k (with_after params ?a)) with (list_where now k params).
    by rewrite (page_rest now params d l1 l2).
  - apply Forall_forall. intros x Hx. apply (visible_ok now params d); [done|]. rewrite <- Hp. set_solver.
Qed.

Lemma walk_rest now params d fuel l1 l2 :
  includeScheduled params = true → Forall row_ok (post_rows d) →
  (l1 ++ l2)%list ≡ₚ visible now params d → StronglySorted newer (l1 ++ l2)%list → (length l2 < fuel)%nat →
  walk_posts fuel now params (cursor_of l1) d = Some (toDto <$> l2).
Proof.
  intros Hs Hok. revert l1 l2. induction fuel as [|fuel IH]; intros l1 l2 Hp Hsort Hf; [lia|].
  cbn [walk_posts]. rewrite (list_step now params d l1 l2) by done.
  pose proof (clampLimit_range (limit (l_page params))). set (lim := clampLimit _) in *.
  set (page := take (Z.to_nat lim) l2).
  assert (Hlen : length page = (Z.to_nat lim `min` length l2)%nat) by apply length_take.
  destruct (decide (Z.of_nat (length page) = lim ∧ lim < Z.of_nat (length (l1 ++ l2)%list))) as [[Hl Ht]|Hn].
  - destruct (next_cursor_of l1 page lim _ ltac:(lia) Hl Ht) as [-> [c Hc]]. rewrite Hc, <- Hc.
    rewrite (IH (l1 ++ page)%list (drop (Z.to_nat lim) l2)).
    + unfold page. by rewrite <- fmap_app, take_drop.
    + unfold page. by rewrite <- app_assoc, take_drop.
    + unfold page. by rewrite <- app_assoc, take_drop.
    + rewrite length_drop. lia.
  - rewrite length_app in *. rewrite no_next_cursor by lia.
    unfold page. rewrite take_ge; [done|lia].
Qed.

(** C15: An authenticated caller, who also sees scheduled posts, reads every matching post exactly once by
    following next_cursor: over an unchanged table the walk ends, within one request per post and one
    more, and the pages together are all rows that satisfy the filters (not deleted, the status and
    author asked for), newest first, ties broken by id. *)
Theorem listing_complete (now : Z) (params : ListParams) (d : D) :
  includeScheduled params = true → Forall row_ok (post_rows d) →
  ∃ l, l ≡ₚ List.filter (matches (count_where now params)) (post_rows d) ∧ StronglySorted newer l ∧
    walk_posts (S (length (post_rows d))) now params None d = Some (toDto <$> l).
Proof.
  intros Hs Hok. destruct (page_spec (count_where now params) 0 d) as (l & Hl & Hsort & _).
  exists l. split_and!; [done|done|]. apply (walk_rest now params d _ [] l Hs Hok); [done|done|].
  rewrite Hl. pose proof (List.filter_length_le (matches (count_where now params)) (post_rows d)). lia.
Qed.

Lemma anonymous_same_page now params d a k :
  includeScheduled params = false → buildKeysetWhere HMAC_SECRET a = Ok k →
  listPosts HMAC_SECRET now (with_after params a) d = listPosts HMAC_SECRET now (with_after params None) d.
Proof.
  intros Hs Ha. unfold listPosts. cbn [l_page after limit with_after]. rewrite Ha. cbn [rbind truthy].
  unfold buildKeysetWhere. cbn [truthy rbind].
  assert (Hw : ∀ k', list_where now k' (with_after params a) = list_where now None (with_after params None)).
  { intros k'. unfold list_where. cbn. by rewrite Hs. }
  by rewrite Hw.
Qed.

(** For an anonymous caller the cursor has no effect.  The condition that hides scheduled posts and
    the keyset condition are both spread into the query under the key OR, and the second spread replaces
    the first: whatever cursor the client sends, as long as it decodes, it gets the first page again.  So
    when more posts are visible than fit one page, a client that follows next_cursor never reaches the
    end, and posts beyond the first page are never served. *)
Theorem anonymous_cursor_ignored (now : Z) (params : ListParams) (d : D) :
  includeScheduled params = false →
  (∀ a k, buildKeysetWhere HMAC_SECRET a = Ok k →
     listPosts HMAC_SECRET now (with_after params a) d = listPosts HMAC_SECRET now (with_after params None) d) ∧
  (Forall row_ok (post_rows d) →
   clampLimit (limit (l_page params)) <
     Z.of_nat (length (List.filter (matches (count_where now params)) (post_rows d))) →
   ∀ fuel, walk_posts fuel now params None d = None).
Proof.
  intros Hs. split; [intros a k; by apply anonymous_same_page|]. intros Hok Hmany.
  destruct (page_spec (list_where now None params) (Z.to_nat (clampLimit (limit (l_page params)))) d)
    as (l & Hl & Hsort & Hpage).
  assert (Hw : list_where now None params = count_where now params) by (unfold list_where, count_where; by rewrite Hs).
  rewrite Hw in Hl. set (lim := clampLimit _) in *. set (page := take (Z.to_nat lim) l).
  pose proof (clampLimit_range (limit (l_page params))) as Hlim. fold lim in Hlim.
  assert (Hlen : Z.of_nat (length page) = lim) by (unfold page; rewrite length_take, Hl; lia).
  destruct (next_cursor_of [] page lim (Z.of_nat (length (visible now params d))) ltac:(lia) Hlen Hmany) as [Hn [c Hc]].
  change ([] ++ page)%list with page in *.
  assert (Hk : buildKeysetWhere HMAC_SECRET (Some c) = Ok (keyset_of <$> last page)).
  { rewrite <- Hc. apply keyset_cursor_of, Forall_forall. intros x Hx. apply (visible_ok now params d); [done|].
    unfold visible. rewrite <- Hl. apply (list_elem_of_In) in Hx. apply list_elem_of_In.
    rewrite <- (take_drop (Z.to_nat lim) l). apply List.in_or_app. by left. }
  assert (Hfirst : listPosts HMAC_SECRET now (with_after params None) d =
    Ok (toDto <$> page, Some c, Z.of_nat (length (visible now params d)))).
  { unfold listPosts. cbn [l_page after limit with_after]. unfold buildKeysetWhere. cbn [truthy rbind].
    change (count_where now (with_after params None)) with (count_where now params).
    change (list_where now None (with_after params None)) with (list_where now None params).
    fold lim. rewrite count_visible, Hpage. fold page. by rewrite Hn, Hc. }
  assert (Hall : ∀ fuel, walk_posts fuel now params None d = None ∧ walk_posts fuel now params (Some c) d = None).
  { induction fuel as [|fuel [_ IH]]; [done|]. cbn [walk_posts].
    rewrite (anonymous_same_page now params d (Some c) _ Hs Hk), Hfirst, IH. done. }
  intros fuel. apply Hall.
Qed.
End listing.

(** ** Visibility and publication *)

Section publication.
Context {D : Type} `{PL : PostTableLaws D} `{CP : CursorPlatform}.
Context (HMAC_SECRET : option string).

Definition publicly_visible (now : Z) (d : D) (dto : PostDto) : Prop :=
  ∃ p, p ∈ post_rows d ∧ dto = toDto p ∧ p_deletedAt p = None ∧ isScheduledForFuture now p = false.

(** Nothing hidden is served to an anonymous caller.  Every post in a public listing, with or without
    a cursor, and every post a public read returns, is a stored post that is not deleted and whose
    publishAt is absent or past. *)
Theorem public_reads_hide (now : Z) (params : ListParams) (d : D) :
  includeScheduled params = false →
  (∀ page next total dto, listPosts HMAC_SECRET now params d = Ok (page, next, total) → dto ∈ page →
     publicly_visible now d dto) ∧
  (∀ id dto, getPost now id false d = Ok dto → publicly_visible now d dto).
Proof.
  intros Hs. split.
  - intros page next total dto. unfold listPosts, rbind. destruct (buildKeysetWhere _ _) as [k|]; [|done].
    intros [= <- _ _] Hdto. apply list_elem_of_fmap in Hdto as (p & -> & Hp).
    destruct (page_spec (list_where now k params) (Z.to_nat (clampLimit (limit (l_page params)))) d)
      as (l & Hl & _ & Hpage). rewrite Hpage in Hp.
    assert (Hin : p ∈ l) by (rewrite <- (take_drop (Z.to_nat (clampLimit (limit (l_page params)))) l); set_solver).
    rewrite Hl in Hin. apply list_elem_of_In, List.filter_In in Hin as [Hrow Hm].
    exists p. apply list_elem_of_In in Hrow. unfold matches, list_where in Hm. cbn in Hm. rewrite Hs in Hm. cbn in Hm.
    bool_prop. split_and!; try done. unfold isScheduledForFuture.
    destruct (p_publishAt p); [|done]. bool_prop. by apply Z.ltb_ge.
  - intros id dto. unfold getPost. destruct (post_findLive id d) as [p|] eqn:Ep; [|done].
    apply findLive_spec in Ep as (Hrow & _ & Hdel). cbn [negb andb].
    destruct (isScheduledForFuture now p) eqn:Ef; [done|]. intros [= <-]. by exists p.
Qed.

Definition published_event (now : Z) (p : Post) : PostPublishedEvent :=
  {| e_postId := p_id p; e_title := p_title p; e_author := p_author p; e_publishedAt := now |}.

Lemma emit_all now l (w : World (D:=D)) :
  fold_left (λ w p, emitPublished now p w) l w =
  {| db := db w; bus := (bus w ++ (published_event now <$> l))%list |}.
Proof.
  revert w. induction l as [|p l IH]; intros [d b]; cbn [fold_left]; [by rewrite app_nil_r|].
  rewrite IH. cbn. by rewrite <- app_assoc.
Qed.

Definition due (now : Z) (p : Post) : bool := matches (due_where now) p.

Lemma due_iff now p :
  due now p = true ↔ p_status p = "DRAFT" ∧ p_deletedAt p = None ∧ ∃ t, p_publishAt p = Some t ∧ t ≤ now.
Proof.
  unfold due, matches, due_where; cbn. split.
  - intros Hm. bool_prop. destruct (p_publishAt p) as [t|]; [|done]. bool_prop. eauto.
  - intros (-> & -> & t & -> & Ht). cbn. by apply Z.leb_le.
Qed.

(** A row with a given id is determined. *)
Lemma row_by_id d p q : p ∈ post_rows d → q ∈ post_rows d → p_id p = p_id q → p = q.
Proof.
  intros Hp Hq E. pose proof (ids_unique d) as Hnd.
  apply list_elem_of_lookup in Hp as [i Hi]. apply list_elem_of_lookup in Hq as [j Hj].
  assert (i = j) as -> by (eapply (NoDup_lookup _ i j (p_id p) Hnd); rewrite list_lookup_fmap, ?Hi, ?Hj; cbn; congruence).
  congruence.
Qed.

Lemma update_guard now (d : D) p :
  p ∈ post_rows d →
  bool_decide (p_id p ∈ p_id <$> post_findMany (due_where now) d) && bool_decide (p_status p = "DRAFT") = due now p.
Proof.
  intros Hp. apply eq_bool_prop_intro. rewrite !Is_true_true, andb_true_iff, !bool_decide_eq_true.
  split.
  - intros [Hid _]. apply list_elem_of_fmap in Hid as (q & Eq & Hq). rewrite (findMany_spec (due_where now) d) in Hq.
    apply list_elem_of_In, List.filter_In in Hq as [Hq Hm]. apply list_elem_of_In in Hq.
    assert (p = q) as -> by (by apply (row_by_id d)). exact Hm.
  - intros Hd. split; [|by apply due_iff in Hd as [? _]]. apply list_elem_of_fmap. exists p. split; [done|].
    rewrite (findMany_spec (due_where now) d). apply list_elem_of_In, List.filter_In.
    split; [by apply list_elem_of_In|done].
Qed.

Lemma publish_rows now (w : World (D:=D)) :
  post_rows (db (publishDuePosts now w)) ≡ₚ ((λ p, if due now p then set_published now p else p) <$> post_rows (db w)).
Proof.
  unfold publishDuePosts. destruct (Nat.eqb_spec (length (post_findMany (due_where now) (db w))) 0) as [E|E].
  - assert (Hnone : ∀ p, p ∈ post_rows (db w) → due now p = false).
    { intros p Hp. destruct (due now p) eqn:Ed; [|done]. rewrite (findMany_spec (due_where now) (db w)) in E.
      apply length_zero_iff_nil in E. assert (Hin : List.In p []); [|done].
      rewrite <- E. apply List.filter_In. split; [by apply list_elem_of_In|done]. }
    apply Permutation_refl'. symmetry. rewrite <- list_fmap_id. apply list_fmap_ext.
    intros i p Hi. rewrite Hnone; [done|]. by eapply list_elem_of_lookup_2.
  - rewrite emit_all. cbn [db]. rewrite updateMany_spec by done. apply Permutation_refl', list_fmap_ext.
    intros i p Hi. rewrite update_guard; [done|]. by eapply list_elem_of_lookup_2.
Qed.

Lemma publish_events now (w : World (D:=D)) :
  ∃ l, bus (publishDuePosts now w) = (bus w ++ (published_event now <$> l))%list ∧
    l ≡ₚ List.filter (due now) (post_rows (db w)).
Proof.
  unfold publishDuePosts. exists (post_findMany (due_where now) (db w)). split; [|apply findMany_spec].
  destruct (Nat.eqb_spec (length (post_findMany (due_where now) (db w))) 0) as [E|E].
  - apply length_zero_iff_nil in E. rewrite E. by rewrite app_nil_r.
  - by rewrite emit_all.
Qed.

(** The publishing job publishes exactly what is due, and announces it exactly once.  A run turns the
    posts that are live drafts with a publishAt in the past into published posts and leaves every other
    row as it is; it emits one event for each of them and nothing else; and a second run at the same
    moment finds nothing and emits nothing.  Posts stored as published with a publishAt in the future are
    not drafts: the job never announces them. *)
Theorem publishDuePosts_spec (now : Z) (w : World (D:=D)) :
  post_rows (db (publishDuePosts now w)) ≡ₚ
    ((λ p, if due now p then set_published now p else p) <$> post_rows (db w)) ∧
  (∃ l, bus (publishDuePosts now w) = (bus w ++ (published_event now <$> l))%list ∧
     l ≡ₚ List.filter (due now) (post_rows (db w))) ∧
  bus (publishDuePosts now (publishDuePosts now w)) = bus (publishDuePosts now w) ∧
  ∀ p, p_status p = "PUBLISHED" → due now p = false.
Proof.
  split; [apply publish_rows|]. split; [apply publish_events|]. split.
  - destruct (publish_events now (publishDuePosts now w)) as (l & -> & Hl).
    rewrite (filter_perm _ _ _ (publish_rows now w)) in Hl.
    rewrite bfilter_none in Hl; [apply Permutation_nil_r in Hl as ->; by rewrite app_nil_r|].
    intros p Hp. apply list_elem_of_fmap in Hp as (q & -> & _). destruct (due now q) eqn:Ed; [|done].
    destruct (due now (set_published now q)) eqn:E; [|done]. by apply due_iff in E as [? _].
  - intros p Hp. destruct (due now p) eqn:E; [|done]. apply due_iff in E as [E _]. congruence.
Qed.
End publication.

(** ** A table *)

(** An executable implementation of the interface: the rows in insertion
    order, ids unique. *)
Module PostSample.

Definition tab : Type := { l : list Post | NoDup (p_id <$> l) }.
Definition rows (d : tab) : list Post := proj1_sig d.

Definition not_older (a b : Post) : Prop :=
  p_createdAt b < p_createdAt a ∨ (p_createdAt b = p_createdAt a ∧ p_id b ≤ p_id a).
#[local] Instance not_older_dec : RelDecision not_older.
Proof. intros a b. unfold not_older. apply _. Defined.
#[local] Instance not_older_total : Total not_older.
Proof. intros a b. unfold not_older. lia. Qed.
#[local] Instance not_older_trans : Transitive not_older.
Proof. intros a b c. unfold not_older. lia. Qed.

Definition with_id (i : Z) (p : Post) : Post :=
  {| p_id := i; p_title := p_title p; p_body := p_body p; p_status := p_status p; p_author := p_author p;
     p_publishAt := p_publishAt p; p_createdAt := p_createdAt p; p_updatedAt := p_updatedAt p;
     p_deletedAt := p_deletedAt p |}.

Lemma with_id_same p i : p_id p = i → with_id i p = p.
Proof. intros <-. by destruct p. Qed.

Definition mapped (g : Post → bool) (f : Post → Post) (l : list Post) : list Post :=
  (λ p, if g p then with_id (p_id p) (f p) else p) <$> l.

Lemma mapped_ids g f l : p_id <$> mapped g f l = p_id <$> l.
Proof. unfold mapped. rewrite <- list_fmap_compose. apply list_fmap_ext. intros i p _. cbn. by destruct (g p). Qed.

Lemma mapped_keep g f l : (∀ p, p_id (f p) = p_id p) → mapped g f l = (λ p, if g p then f p else p) <$> l.
Proof. intros Hf. apply list_fmap_ext. intros i p _. destruct (g p); [|done]. by rewrite with_id_same. Qed.

Definition map_tab (g : Post → bool) (f : Post → Post) (d : tab) : tab :=
  mapped g f (rows d) ↾ eq_ind_r (λ ids, NoDup ids) (proj2_sig d) (mapped_ids g f (rows d)).

Definition next_id (l : list Post) : Z := foldr (λ p n, Z.max (p_id p + 1) n) 1 l.
Lemma next_id_fresh l : next_id l ∉ p_id <$> l.
Proof.
  assert (Hlt : ∀ p, p ∈ l → p_id p < next_id l).
  { induction l as [|q l IH]; intros p Hp; [set_solver|]. cbn [next_id foldr]. fold (next_id l).
    apply elem_of_cons in Hp as [->|Hp]; [lia|]. specialize (IH p Hp). lia. }
  intros Hin. apply list_elem_of_fmap in Hin as (p & E & Hp). specialize (Hlt p Hp). lia.
Qed.

Definition create_tab (now : Z) (x : PostData) (d : tab) : Post * tab :=
  let p := created now (next_id (rows d)) x in
  (p, (p :: rows d) ↾ NoDup_cons_2 _ _ (next_id_fresh (rows d)) (proj2_sig d)).

#[export] Instance sample_table : PostTable tab := {
  post_rows := rows;
  post_page w n d := take n (merge_sort not_older (List.filter (matches w) (rows d)));
  post_findMany w d := List.filter (matches w) (rows d);
  post_count w d := Z.of_nat (length (List.filter (matches w) (rows d)));
  post_findLive i d := List.find (λ p, (p_id p =? i) && bool_decide (p_deletedAt p = None)) (rows d);
  post_create := create_tab;
  post_update i f d := (f <$> List.find (λ p, p_id p =? i) (rows d), map_tab (λ p, p_id p =? i) f d);
  post_updateMany g f d := map_tab g f d;
}.

Lemma sorted_strict l : NoDup (p_id <$> l) → StronglySorted not_older l → StronglySorted newer l.
Proof.
  intros Hnd. induction 1 as [|p l Hs IH Hp]; [constructor|]. cbn in Hnd. apply NoDup_cons in Hnd as [Hn Hnd].
  constructor; [by apply IH|]. rewrite Forall_forall in *. intros q Hq. specialize (Hp q Hq).
  assert (p_id p ≠ p_id q) by (intros E; apply Hn; rewrite E; by apply list_elem_of_fmap_2).
  unfold not_older, newer in *. lia.
Qed.

Lemma filter_ids f l : NoDup (p_id <$> l) → NoDup (p_id <$> List.filter f l).
Proof.
  induction l as [|p l IH]; [done|]. cbn [fmap list_fmap List.filter]. intros [Hn Hnd]%NoDup_cons.
  destruct (f p); [|by apply IH]. cbn [fmap list_fmap]. apply NoDup_cons. split; [|by apply IH].
  intros Hin. apply Hn. apply list_elem_of_fmap in Hin as (q & -> & Hq). apply list_elem_of_fmap_2.
  apply list_elem_of_In, List.filter_In in Hq as [Hq _]. by apply list_elem_of_In.
Qed.

Lemma find_by_id l i (g : Post → bool) p :
  NoDup (p_id <$> l) → p ∈ l → p_id p = i → g p = true →
  List.find (λ p, (p_id p =? i) && g p) l = Some p.
Proof.
  induction l as [|q l IH]; [set_solver|]. cbn [fmap list_fmap List.find]. intros [Hn Hnd]%NoDup_cons Hp Hi Hg.
  apply elem_of_cons in Hp as [->|Hp]; [by rewrite Hi, Z.eqb_refl, Hg|].
  destruct (Z.eqb_spec (p_id q) i) as [E|]; [|by apply IH].
  exfalso. apply Hn. rewrite E, <- Hi. by apply list_elem_of_fmap_2.
Qed.

Lemma find_ext {A} (f g : A → bool) l : (∀ x, f x = g x) → List.find f l = List.find g l.
Proof. intros Hfg. induction l as [|x l IH]; [done|]. cbn. by rewrite Hfg, IH. Qed.

#[export] Instance sample_table_laws : PostTableLaws tab.
Proof.
  split.
  - intros d. exact (proj2_sig d).
  - intros w n d. exists (merge_sort not_older (List.filter (matches w) (rows d))).
    split; [apply merge_sort_Permutation|]. split; [|done]. apply sorted_strict.
    + rewrite merge_sort_Permutation. apply filter_ids. exact (proj2_sig d).
    + apply StronglySorted_merge_sort; apply _.
  - done.
  - done.
  - intros i d p. cbn. split.
    + intros [Hin Hm]%List.find_some. bool_prop. split; [by apply list_elem_of_In|done].
    + intros (Hin & Hi & Hd). apply (find_by_id _ _ (λ p, bool_decide (p_deletedAt p = None))); try done.
      * exact (proj2_sig d).
      * by apply bool_decide_eq_true.
  - intros now x d. exists (next_id (rows d)). split_and!; [done|apply next_id_fresh|done].
  - intros i f d Hf. cbn. split.
    + by rewrite mapped_keep.
    + intros p Hp Hi. pose proof (find_by_id (rows d) i (λ _, true) p (proj2_sig d) Hp Hi eq_refl) as Hfind.
      rewrite (find_ext _ (λ p, p_id p =? i)) in Hfind by (intros q; apply andb_true_r). by rewrite Hfind.
  - intros g f d Hf. cbn. by rewrite mapped_keep.
Qed.

End PostSample.

Module PostWitnesses.
Import PostSample Pagination.CursorSample.

Definition post (i : Z) : Post :=
  {| p_id := i; p_title := "t"; p_body := "b"; p_status := "PUBLISHED"; p_author := "G"; p_publishAt := None;
     p_createdAt := 1700000000000 + i / 2; p_updatedAt := 0; p_deletedAt := None |}.
Lemma five_ids : NoDup (p_id <$> (post <$> [1; 2; 3; 4; 5])).
Proof. apply (bool_decide_unpack _). vm_compute. exact I. Qed.
Definition five : tab := (post <$> [1; 2; 3; 4; 5]) ↾ five_ids.
Definition ask (scheduled : bool) : ListParams :=
  {| l_page := {| after := None; limit := Some 2 |}; l_status := None; l_author := None;
     includeScheduled := scheduled |}.

Lemma five_ok : Forall row_ok (post_rows five).
Proof.
  change (Forall row_ok [post 1; post 2; post 3; post 4; post 5]).
  assert (Hok : ∀ i, 0 ≤ i < 100 → row_ok (post i))
    by (intros i Hi; unfold row_ok, post; cbn [p_createdAt p_id]; Z.to_euclidean_division_equations; lia).
  rewrite !Forall_cons. split_and!; try (apply Hok; lia). by apply Forall_nil.
Qed.

(** Three pages of two, two and one. *)
Lemma listing_complete_witness :
  ∃ l, l ≡ₚ List.filter (matches (count_where 0 (ask true))) (post_rows five) ∧ StronglySorted newer l ∧
    walk_posts (Some "key") (S (length (post_rows five))) 0 (ask true) None five = Some (toDto <$> l).
Proof. apply (listing_complete (Some "key") 0 (ask true) five); [reflexivity|exact five_ok]. Defined.

Lemma anonymous_cursor_ignored_witness :
  walk_posts (Some "key") 100 0 (ask false) None five = None.
Proof.
  refine (proj2 (anonymous_cursor_ignored (Some "key") 0 (ask false) five eq_refl) five_ok _ 100%nat).
  vm_compute. reflexivity.
Defined.

Lemma public_reads_hide_witness : publicly_visible 0 five (toDto (post 3)).
Proof.
  apply (proj2 (public_reads_hide (Some "key") 0 (ask false) five eq_refl) 3). vm_compute. reflexivity.
Defined.

Definition draft (i t : Z) : Post :=
  {| p_id := i; p_title := "t"; p_body := "b"; p_status := "DRAFT"; p_author := "G"; p_publishAt := Some t;
     p_createdAt := 0; p_updatedAt := 0; p_deletedAt := None |}.
Lemma draft_ids : NoDup (p_id <$> [draft 1 50; draft 2 150]).
Proof. apply (bool_decide_unpack _). vm_compute. exact I. Qed.
Definition drafts : tab := [draft 1 50; draft 2 150] ↾ draft_ids.

Lemma publishDuePosts_spec_witness :
  bus (publishDuePosts 100 (publishDuePosts 100 {| db := drafts; bus := [] |})) =
  [{| e_postId := 1; e_title := "t"; e_author := "G"; e_publishedAt := 100 |}].
Proof.
  destruct (publishDuePosts_spec 100 {| db := drafts; bus := [] |}) as (_ & _ & -> & _).
  vm_compute. reflexivity.
Defined.

End PostWitnesses.
