(* ===== verification/Premium.v ===== *)
(** * Premiums

    backend/src/premium/premium.engine.ts and the fallback and formatting
    helpers of backend/src/rpc/soroban.service.ts.  Amounts are bigints:
    unbounded integers whose division truncates towards zero. *)

From stdpp Require Import pretty numbers base strings list.
From Stdlib Require Import ZArith Lia Ascii.
From S2P Require Import Prelude JsText.

Open Scope string_scope.
Open Scope Z_scope.

(** Models [RiskInput] (backend/src/premium/premium.engine.ts:17-24). *)
Record RiskInput := { baseAmount : Z; safetyScore : Z; deductibleAmount : option Z }.

(** Models [RateTable] (backend/src/premium/premium.engine.ts:26-35). *)
Record RateTable := { riskRate : Z; regionFactor : Z; ageFactor : Z; coverageMult : Z }.

Definition BPS : Z := 10000.

(** Models [calculatePremium] (backend/src/premium/premium.engine.ts:39-54). *)
Definition calculatePremium (risk : RiskInput) (table : RateTable) : Z :=
  let basePremium := Z.quot (baseAmount risk * riskRate table) BPS in
  let regionAdj := Z.quot (basePremium * regionFactor table) BPS in
  let ageAdj := Z.quot (regionAdj * ageFactor table) BPS in
  let coverageAdj := Z.quot (ageAdj * coverageMult table) BPS in
  let safetyDiscount := Z.quot (coverageAdj * (BPS - safetyScore risk * 10)) BPS in
  let deductible := default 0 (deductibleAmount risk) in
  let premium := safetyDiscount - deductible in
  if 0 <? premium then premium else 1.

Inductive PolicyTypeEnum := Auto | Health | Property.
Inductive RegionTierEnum := Low | Medium | High.

(** Models [computePremiumLocal] (backend/src/rpc/soroban.service.ts:2045-2070). *)
Definition computePremiumLocal (policyType : PolicyTypeEnum) (region : RegionTierEnum) (age riskScore : Z) : Z :=
  let BASE := 10000000 in
  let typeFactor := match policyType with Auto => 15 | Health => 20 | Property => 10 end in
  let regionFactor := match region with Low => 8 | Medium => 10 | High => 14 end in
  let ageF := if age <? 25 then 15 else if 60 <? age then 13 else 10 in
  let sum := typeFactor + regionFactor + ageF + riskScore in
  Z.quot (BASE * sum) 10.

(** [s.padStart(7, '0')] *)
Definition padStart7 (s : string) : string := zeros (7 - String.length s) +:+ s.

(** Models [stroopsToXlm] (backend/src/rpc/soroban.service.ts:226-230). *)
Definition stroopsToXlm (stroops : Z) : string :=
  let whole := Z.quot stroops 10000000 in
  let frac := Z.rem stroops 10000000 in
  show_Z whole +:+ "." +:+ padStart7 (show_Z frac).

(** The recorded vectors of the contract's test suite. *)
Definition golden_vectors : list (RiskInput * RateTable * Z) := [
   ({| baseAmount := 100000000; safetyScore := 100; deductibleAmount := None |},
    {| riskRate := 500; regionFactor := 10000; ageFactor := 10000; coverageMult := 10000 |},
    4500000);
   ({| baseAmount := 100000000; safetyScore := 50; deductibleAmount := None |},
    {| riskRate := 500; regionFactor := 10000; ageFactor := 10000; coverageMult := 10000 |},
    4750000);
   ({| baseAmount := 100000000; safetyScore := 0; deductibleAmount := None |},
    {| riskRate := 500; regionFactor := 10000; ageFactor := 10000; coverageMult := 10000 |},
    5000000);
   ({| baseAmount := 100000000; safetyScore := 0; deductibleAmount := None |},
    {| riskRate := 500; regionFactor := 20000; ageFactor := 10000; coverageMult := 10000 |},
    10000000);
   ({| baseAmount := 100000000; safetyScore := 0; deductibleAmount := Some 1000000 |},
    {| riskRate := 500; regionFactor := 10000; ageFactor := 10000; coverageMult := 10000 |},
    4000000);
   ({| baseAmount := 100000000; safetyScore := 99; deductibleAmount := Some 999999999 |},
    {| riskRate := 500; regionFactor := 10000; ageFactor := 10000; coverageMult := 10000 |},
    1);
   ({| baseAmount := 100000000; safetyScore := 0; deductibleAmount := None |},
    {| riskRate := 500; regionFactor := 10000; ageFactor := 15000; coverageMult := 10000 |},
    7500000);
   ({| baseAmount := 100000000; safetyScore := 0; deductibleAmount := None |},
    {| riskRate := 500; regionFactor := 10000; ageFactor := 10000; coverageMult := 20000 |},
    10000000)
].

Example golden_vectors_agree : forallb (λ '(r, t, p), calculatePremium r t =? p) golden_vectors = true.
Proof. vm_compute. reflexivity. Qed.

(** ** One rate *)

Definition apply_rate (x r : Z) : Z := Z.quot (x * r) BPS.

Lemma apply_rate_spec x r :
  0 ≤ x → 0 ≤ r → 0 ≤ apply_rate x r ∧ BPS * apply_rate x r ≤ x * r < BPS * apply_rate x r + BPS.
Proof.
  intros Hx Hr. unfold apply_rate, BPS. assert (0 ≤ x * r) by lia. rewrite Z.quot_div_nonneg by lia.
  pose proof (Z.div_mod (x * r) 10000). pose proof (Z.mod_pos_bound (x * r) 10000).
  assert (0 ≤ x * r / 10000) by (apply Z.div_pos; lia). lia.
Qed.

Lemma apply_rate_mono x y r : 0 ≤ x ≤ y → 0 ≤ r → apply_rate x r ≤ apply_rate y r.
Proof. intros Hx Hr. unfold apply_rate, BPS. apply Z.quot_le_mono; [lia|]. apply Z.mul_le_mono_nonneg_r; lia. Qed.

Lemma apply_rate_mono_r x r s : 0 ≤ x → 0 ≤ r ≤ s → apply_rate x r ≤ apply_rate x s.
Proof. intros Hx Hr. unfold apply_rate, BPS. apply Z.quot_le_mono; [lia|]. apply Z.mul_le_mono_nonneg_l; lia. Qed.

(** ** The premium *)

(** Inputs of the documented ranges: amounts and rates are not negative, the safety discount is at most the
    whole premium. *)
Record input_ok (risk : RiskInput) (table : RateTable) : Prop := {
  ok_base : 0 ≤ baseAmount risk;
  ok_safety : 0 ≤ safetyScore risk ≤ 1000;
  ok_deductible : 0 ≤ default 0 (deductibleAmount risk);
  ok_risk : 0 ≤ riskRate table;
  ok_region : 0 ≤ regionFactor table;
  ok_age : 0 ≤ ageFactor table;
  ok_coverage : 0 ≤ coverageMult table;
}.

(** The five rates, in order. *)
Definition rates (risk : RiskInput) (table : RateTable) : list Z :=
  [riskRate table; regionFactor table; ageFactor table; coverageMult table; BPS - safetyScore risk * 10].

Definition discounted (base : Z) (rs : list Z) : Z := fold_left apply_rate rs base.
Definition exact_product (base : Z) (rs : list Z) : Z := fold_left Z.mul rs base.

Lemma calculatePremium_rates risk table :
  calculatePremium risk table =
  Z.max 1 (discounted (baseAmount risk) (rates risk table) - default 0 (deductibleAmount risk)).
Proof.
  unfold calculatePremium, discounted, rates, apply_rate. cbv zeta. cbn [fold_left].
  destruct (Z.ltb_spec 0 (Z.quot (Z.quot (Z.quot (Z.quot (Z.quot (baseAmount risk * riskRate table) BPS *
    regionFactor table) BPS * ageFactor table) BPS * coverageMult table) BPS *
    (BPS - safetyScore risk * 10)) BPS - default 0 (deductibleAmount risk))); lia.
Qed.

Lemma rates_ok risk table : input_ok risk table → Forall (λ r, 0 ≤ r) (rates risk table).
Proof. intros []. unfold rates, BPS. repeat apply Forall_cons_2; try lia. apply Forall_nil_2. Qed.

Lemma discounted_nonneg rs : ∀ x, 0 ≤ x → Forall (λ r, 0 ≤ r) rs → 0 ≤ discounted x rs.
Proof.
  induction rs as [|r rs IH]; intros x Hx Hrs; [done|]. apply Forall_cons in Hrs as [Hr Hrs].
  apply IH; [|done]. by apply apply_rate_spec.
Qed.

Lemma exact_mono rs : ∀ x y, x ≤ y → Forall (λ r, 0 ≤ r) rs → exact_product x rs ≤ exact_product y rs.
Proof.
  induction rs as [|r rs IH]; intros x y Hxy Hrs; [done|]. apply Forall_cons in Hrs as [Hr Hrs].
  apply IH; [|done]. by apply Z.mul_le_mono_nonneg_r.
Qed.

Lemma exact_scale rs : ∀ x k, exact_product (k * x) rs = k * exact_product x rs.
Proof.
  induction rs as [|r rs IH]; intros x k; [done|]. unfold exact_product in *. cbn [fold_left].
  by rewrite <- IH, Z.mul_assoc.
Qed.

(** Rounding only ever lowers the amount. *)
Lemma discounted_below rs :
  ∀ x, 0 ≤ x → Forall (λ r, 0 ≤ r) rs → BPS ^ Z.of_nat (length rs) * discounted x rs ≤ exact_product x rs.
Proof.
  induction rs as [|r rs IH]; intros x Hx Hrs; [cbn; lia|]. apply Forall_cons in Hrs as [Hr Hrs].
  destruct (apply_rate_spec x r Hx Hr) as (H0 & H1 & _). specialize (IH (apply_rate x r) H0 Hrs).
  change (discounted x (r :: rs)) with (discounted (apply_rate x r) rs).
  change (exact_product x (r :: rs)) with (exact_product (x * r) rs).
  pose proof (exact_mono rs _ _ H1 Hrs) as Hm. rewrite exact_scale in Hm.
  cbn [length]. rewrite Nat2Z.inj_succ, Z.pow_succ_r by lia. unfold BPS in *. lia.
Qed.

Lemma discounted_mono rs :
  ∀ x y, 0 ≤ x ≤ y → Forall (λ r, 0 ≤ r) rs → discounted x rs ≤ discounted y rs.
Proof.
  induction rs as [|r rs IH]; intros x y Hx Hrs; [unfold discounted; cbn; lia|]. apply Forall_cons in Hrs as [Hr Hrs].
  apply IH; [|done]. split; [apply apply_rate_spec; lia|by apply apply_rate_mono].
Qed.

Lemma discounted_mono_rates x rs ss :
  0 ≤ x → Forall (λ r, 0 ≤ r) rs → Forall2 Z.le rs ss → discounted x rs ≤ discounted x ss.
Proof.
  intros Hx Hrs H2. revert x Hx Hrs. induction H2 as [|r s rs ss Hrs0 H2 IH]; intros x Hx Hrs; [done|].
  apply Forall_cons in Hrs as [Hr Hrs].
  change (discounted (apply_rate x r) rs ≤ discounted (apply_rate x s) ss).
  destruct (apply_rate_spec x r Hx Hr) as [H0 _].
  etransitivity; [apply IH; done|]. apply discounted_mono.
  - split; [done|by apply apply_rate_mono_r].
  - clear -H2 Hrs. induction H2; [done|]. apply Forall_cons in Hrs as [? ?]. apply Forall_cons_2; [lia|auto].
Qed.

(** The premium is sane for every input of the documented ranges.  It is at least one stroop; rounding
    never charges more than the exact product of the five rates less the deductible (unless that is below
    one stroop); a larger coverage amount never costs less, a better safety score, a larger deductible or a
    smaller rate never costs more.  The arithmetic is exact at every size. *)
Theorem premium_sane (risk risk' : RiskInput) (table table' : RateTable) :
  input_ok risk table → input_ok risk' table' →
  1 ≤ calculatePremium risk table ∧
  (1 < calculatePremium risk table →
     BPS ^ 5 * (calculatePremium risk table + default 0 (deductibleAmount risk)) ≤
       exact_product (baseAmount risk) (rates risk table)) ∧
  (baseAmount risk ≤ baseAmount risk' → safetyScore risk' ≤ safetyScore risk →
   default 0 (deductibleAmount risk') ≤ default 0 (deductibleAmount risk) →
   riskRate table ≤ riskRate table' → regionFactor table ≤ regionFactor table' →
   ageFactor table ≤ ageFactor table' → coverageMult table ≤ coverageMult table' →
   calculatePremium risk table ≤ calculatePremium risk' table').
Proof.
  intros Hok Hok'. pose proof (rates_ok _ _ Hok) as Hr. pose proof (rates_ok _ _ Hok') as Hr'.
  rewrite !calculatePremium_rates. split; [lia|]. split.
  - intros Hgt. pose proof (discounted_below (rates risk table) (baseAmount risk) (ok_base _ _ Hok) Hr) as Hb.
    change (Z.of_nat (length (rates risk table))) with 5 in Hb. etransitivity; [|exact Hb].
    apply Z.mul_le_mono_nonneg_l; [done|lia].
  - intros. assert (discounted (baseAmount risk) (rates risk table) ≤ discounted (baseAmount risk') (rates risk' table')); [|lia].
    pose proof (ok_base _ _ Hok). etransitivity; [apply (discounted_mono _ _ (baseAmount risk')); [lia|done]|].
    apply discounted_mono_rates; [lia|done|]. unfold rates. repeat constructor; lia.
Qed.

(** ** Amounts in text *)

(** Reading an amount back: the part before the point and seven digits after it. *)
Definition xlmToStroops (s : string) : option Z :=
  match cut "." s with
  | Some (w, f) =>
      if some_digits w && some_digits f && (String.length f =? 7)%nat
      then Some (digits_val 0 w * 10000000 + digits_val 0 f) else None
  | None => None
  end.

(** An amount of stroops is shown without loss: for every amount that is not negative, the text is a
    whole number of XLM, a point and exactly seven decimals, and reading it back gives the amount. *)
Theorem stroopsToXlm_roundtrip (n : Z) : 0 ≤ n → xlmToStroops (stroopsToXlm n) = Some n.
Proof.
  intros Hn. unfold stroopsToXlm. rewrite Z.quot_div_nonneg, Z.rem_mod_nonneg by lia.
  pose proof (Z.mod_pos_bound n 10000000 ltac:(lia)) as Hf. assert (Hw : 0 ≤ n / 10000000) by (apply Z.div_pos; lia).
  set (w := n / 10000000) in *. set (f := n mod 10000000) in *. unfold xlmToStroops, padStart7.
  change ("." +:+ ?x) with (String "." x). rewrite cut_app by (apply digits_avoid; [done|by apply show_Z_digits]).
  assert (Hz : all_digits (zeros (7 - String.length (show_Z f)) +:+ show_Z f) = true).
  { unfold all_digits. rewrite str_forall_app. apply andb_true_iff.
    split; [apply zeros_digits|apply show_Z_digits; lia]. }
  assert (Hl : String.length (zeros (7 - String.length (show_Z f)) +:+ show_Z f) = 7%nat).
  { rewrite length_string_app, length_zeros. pose proof (show_Z_length 7 f ltac:(lia) ltac:(done)). lia. }
  unfold some_digits. rewrite Hz, Hl, show_Z_digits by lia.
  rewrite !bool_decide_false.
  - cbn [negb andb Nat.eqb]. rewrite digits_val_zeros, !show_Z_val by lia. f_equal. subst w f.
    pose proof (Z.div_mod n 10000000 ltac:(lia)). lia.
  - intros E. rewrite E in Hl. done.
  - apply show_Z_ne_empty.
Qed.

Module PremiumWitnesses.

Definition risk1 : RiskInput := {| baseAmount := 100000000; safetyScore := 50; deductibleAmount := None |}.
Definition risk2 : RiskInput := {| baseAmount := 200000000; safetyScore := 40; deductibleAmount := None |}.
Definition table1 : RateTable :=
  {| riskRate := 500; regionFactor := 10000; ageFactor := 12000; coverageMult := 10000 |}.

Lemma premium_sane_witness : calculatePremium risk1 table1 ≤ calculatePremium risk2 table1.
Proof.
  apply (premium_sane risk1 risk2 table1 table1); try (constructor; cbn; lia); cbn; lia.
Defined.

Lemma stroopsToXlm_roundtrip_witness : xlmToStroops "1.0500000" = Some 10500000.
Proof. exact (stroopsToXlm_roundtrip 10500000 ltac:(lia)). Defined.

End PremiumWitnesses.
