(* ===== verification/Claims.v ===== *)
(** * Claim aggregation

    backend/src/claims/services/claim-aggregation.service.ts: quorum progress
    and deadline of a claim, computed from its row in doubles as the code does
    and cached in Redis for thirty seconds.  The table read is a parameter: it
    finds a row, finds none, or fails. *)

From stdpp Require Import base strings list.
From Stdlib Require Import ZArith Lia Ascii.
From S2P Require Import Prelude JsText JsNumber Redis.

Open Scope string_scope.
Open Scope Z_scope.

(** Models [ClaimAggregation] (backend/src/claims/services/claim-aggregation.service.ts:20-33). *)
Record ClaimAggregation := {
  quorum_progress_pct : Z;
  votes_needed : Z;
  deadline_estimate_utc : string;
  required_votes : Z;
  current_votes : Z;
  eligible_voter_source : string;
}.

Definition VOTE_WINDOW_LEDGERS : Z := 120960.
Definition SECONDS_PER_LEDGER_AGG : Z := 5.
Definition CACHE_TTL_SECONDS : Z := 30.

(** The selected columns of a claim. *)
Record ClaimVotes := { cv_createdAtLedger : Z; cv_approveVotes : Z; cv_rejectVotes : Z }.

(** [Math.min(100, Math.round((total / required) * 100))] in doubles; an
    overflow to Infinity is capped too. *)
Definition progress_pct (total required : Z) : Z :=
  match round_double total required with
  | None => 100
  | Some q => match d_times q 100 with None => 100 | Some p => Z.min 100 (d_round p) end
  end.

(** Models [zeroAggregation] (backend/src/claims/services/claim-aggregation.service.ts:151-160). *)
Definition zeroAggregation (now : Z) : ClaimAggregation :=
  {| quorum_progress_pct := 0; votes_needed := 1; deadline_estimate_utc := toISOString now;
     required_votes := 1; current_votes := 0; eligible_voter_source := "unknown" |}.

(** The figures of a claim that exists.
    Models [compute] (backend/src/claims/services/claim-aggregation.service.ts:108-148). *)
Definition figures (now : Z) (claim : ClaimVotes) (lastLedger : Z) (eligibleVoterCount : option Z)
  : ClaimAggregation :=
  let totalVotes := cv_approveVotes claim + cv_rejectVotes claim in
  let effectiveEligibleVoters := default totalVotes eligibleVoterCount in
  let requiredVotes := Z.max 1 (effectiveEligibleVoters / 2 + 1) in
  let deadlineLedger := cv_createdAtLedger claim + VOTE_WINDOW_LEDGERS in
  let remainingLedgers := Z.max 0 (deadlineLedger - lastLedger) in
  let remainingSeconds := remainingLedgers * SECONDS_PER_LEDGER_AGG in
  {| quorum_progress_pct := if 0 <? requiredVotes then progress_pct totalVotes requiredVotes else 0;
     votes_needed := Z.max 0 (requiredVotes - totalVotes);
     deadline_estimate_utc := toISOString (now + remainingSeconds * 1000);
     required_votes := requiredVotes;
     current_votes := totalVotes;
     eligible_voter_source :=
       match eligibleVoterCount with Some _ => "contract_eligible_voters" | None => "fallback_total_votes_cast" end |}.

Section aggregation.
Context {R : Type} `{RedisString ClaimAggregation R}.
Abbreviation MC A := (M (rworld R) string A).

Definition cacheKey (claimId : Z) : string := "claims:aggregate:" +:+ show_Z claimId.

(** [findUnique] is prisma.claim.findUnique.
    Models [compute] (backend/src/claims/services/claim-aggregation.service.ts:89-149). *)
Definition compute (findUnique : Z → result string (option ClaimVotes)) (now claimId lastLedger : Z)
    (eligibleVoterCount : option Z) : result string ClaimAggregation :=
  let! claim := findUnique claimId in
  match claim with
  | None => Ok (zeroAggregation now)
  | Some c => Ok (figures now c lastLedger eligibleVoterCount)
  end.

(** Models [aggregate] (backend/src/claims/services/claim-aggregation.service.ts:56-70). *)
Definition aggregate (findUnique : Z → result string (option ClaimVotes)) (now claimId lastLedger : Z)
    (eligibleVoterCount : option Z) : MC ClaimAggregation :=
  let* cached := redis_get now (cacheKey claimId) in
  match cached with
  | Some c => ret c
  | None =>
      let* result := (λ w, (compute findUnique now claimId lastLedger eligibleVoterCount, w)) in
      do* redis_set now (cacheKey claimId) result CACHE_TTL_SECONDS in
      ret result
  end.

(** Models [invalidate] (backend/src/claims/services/claim-aggregation.service.ts:76-79). *)
Definition invalidate (claimId : Z) : MC () := redis_del (V:=ClaimAggregation) (cacheKey claimId).
End aggregation.

(** ** The figures *)

(** At or above the quorum the progress is 100. *)
Lemma progress_full total required : 0 < required ≤ total → progress_pct total required = 100.
Proof.
  intros Hq. unfold progress_pct. destruct (round_double total required) as [q|] eqn:Eq; [|done].
  destruct (d_times q 100) as [p|] eqn:Ep; [|done].
  assert (Hq1 : d_atleast 1 q) by (eapply round_double_atleast; [| | |exact Eq]; lia).
  assert (Hp : d_atleast (1 * 100) p) by (by eapply d_times_atleast).
  apply d_round_atleast in Hp. lia.
Qed.

Lemma round_double_nonneg n d x : 0 ≤ n → 0 < d → round_double n d = Some x → 0 ≤ d_mant x.
Proof.
  intros Hn Hd. unfold round_double. destruct (n =? 0); [by intros [= <-]|]. cbv zeta.
  destruct (_ || _); [done|]. intros [= <-]. cbn [d_mant].
  assert (Hf : ∀ a b, 0 ≤ a → 0 < b → 0 ≤ round_half_even a b).
  { intros a b Ha Hb. pose proof (round_half_even_floor a b Hb). pose proof (Z.div_pos a b Ha Hb). lia. }
  destruct (Z.leb_spec 0 (Z.max (-1074) (log2_ratio n d - 52))).
  - apply Hf; [done|]. apply Z.mul_pos_pos; [done|]. apply Z.pow_pos_nonneg; lia.
  - apply Hf; [|done]. apply Z.mul_nonneg_nonneg; [done|]. apply Z.pow_nonneg; lia.
Qed.

Lemma progress_range total required : 0 ≤ total → 0 < required → 0 ≤ progress_pct total required ≤ 100.
Proof.
  intros Ht Hr. unfold progress_pct. destruct (round_double total required) as [q|] eqn:Eq; [|lia].
  apply round_double_nonneg in Eq; [|done..]. destruct (d_times q 100) as [p|] eqn:Ep; [|lia].
  assert (Hp : 0 ≤ d_mant p).
  { unfold d_times in Ep. destruct (Z.leb_spec 0 (d_exp q)).
    - eapply round_double_nonneg; [| |exact Ep]; [|done]. apply Z.mul_nonneg_nonneg; [lia|]. by apply Z.pow_nonneg.
    - eapply round_double_nonneg; [| |exact Ep]; [lia|]. apply Z.pow_pos_nonneg; lia. }
  assert (0 ≤ d_round p).
  { unfold d_round. destruct (Z.leb_spec 0 (d_exp p)).
    - apply Z.mul_nonneg_nonneg; [done|]. by apply Z.pow_nonneg.
    - assert (0 < 2 ^ (- d_exp p)) by (apply Z.pow_pos_nonneg; lia). apply Z.div_pos; lia. }
  lia.
Qed.

(** What the figures of a claim say about each other, for every tally and every eligible count.  The
    quorum asked for is a strict majority of the eligible voters, and at least one; no vote is missing
    exactly when it is reached, and then the progress shown is 100; the progress is always between 0 and
    100.  Without a count from the contract the eligible voters are the votes cast, so a single vote already
    shows a full quorum whatever the size of the electorate. *)
Theorem quorum_figures (now lastLedger : Z) (claim : ClaimVotes) (eligible : option Z) :
  0 ≤ cv_approveVotes claim → 0 ≤ cv_rejectVotes claim → 0 ≤ default 0 eligible →
  let f := figures now claim lastLedger eligible in
  let total := cv_approveVotes claim + cv_rejectVotes claim in
  current_votes f = total ∧
  default total eligible < 2 * required_votes f ≤ Z.max 2 (default total eligible + 2) ∧
  (votes_needed f = 0 ↔ required_votes f ≤ total) ∧
  (votes_needed f = 0 → quorum_progress_pct f = 100) ∧
  0 ≤ quorum_progress_pct f ≤ 100 ∧
  (eligible = None → 1 ≤ total → votes_needed f = 0 ∧ quorum_progress_pct f = 100).
Proof.
  intros Ha Hr He. cbv zeta. unfold figures. cbn [current_votes required_votes votes_needed quorum_progress_pct].
  set (total := cv_approveVotes claim + cv_rejectVotes claim).
  set (n := default total eligible). assert (Hn : 0 ≤ n) by (subst n; destruct eligible; cbn in *; lia).
  assert (Hdiv : n < 2 * (n / 2 + 1) ≤ n + 2) by (clear; Z.to_euclidean_division_equations; lia).
  assert (Hreq : 0 < Z.max 1 (n / 2 + 1)) by lia.
  destruct (Z.ltb_spec 0 (Z.max 1 (n / 2 + 1))); [|lia].
  assert (Hfull : Z.max 1 (n / 2 + 1) ≤ total → progress_pct total (Z.max 1 (n / 2 + 1)) = 100)
    by (intros; apply progress_full; lia).
  split_and!; try lia.
  - apply progress_range; lia.
  - apply progress_range; lia.
  - intros -> Ht. cbn in n. subst n. assert (total / 2 + 1 ≤ total) by (Z.to_euclidean_division_equations; lia).
    split; [lia|]. apply Hfull. lia.
Qed.

(** The shown progress rounds up: with 200 of 201 votes it reads 100 while one is missing. *)
Example progress_rounds_up :
  let f := figures 0 {| cv_createdAtLedger := 0; cv_approveVotes := 200; cv_rejectVotes := 0 |} 0 (Some 400) in
  (quorum_progress_pct f, votes_needed f) = (100, 1).
Proof. vm_compute. reflexivity. Qed.

(** The product is taken in doubles: 57 of 200 is 28.499... and not 28.5. *)
Example progress_in_doubles : progress_pct 57 200 = 28.
Proof. vm_compute. reflexivity. Qed.

(** ** The cache *)

Section cache.
Context {R : Type} `{RedisStringLaws ClaimAggregation R}.
Implicit Types (r : R).

Lemma aggregate_miss find now claimId ledger elig v r :
  compute find now claimId ledger elig = Ok v → r_get now (cacheKey claimId) r = None →
  aggregate find now claimId ledger elig (healthy r) =
    (Ok v, healthy (r_setex now (cacheKey claimId) v CACHE_TTL_SECONDS r)).
Proof.
  intros Hc Hr. unfold aggregate, redis_get, try_catch, bind at 1. rewrite query_healthy, Hr.
  unfold bind, redis_set, try_catch. rewrite Hc, update_healthy. done.
Qed.

Lemma aggregate_hit find now claimId ledger elig v r :
  r_get now (cacheKey claimId) r = Some v →
  aggregate find now claimId ledger elig (healthy r) = (Ok v, healthy r).
Proof. intros Hr. unfold aggregate, redis_get, try_catch, bind. by rewrite query_healthy, Hr. Qed.

(** The cached figures are at most thirty seconds old, and invalidation takes effect at once.  On a
    server that answers, a first request returns the figures computed from the table; for the next thirty
    seconds every request returns those same figures, however the table changes; after an invalidation the
    next request is computed from the table again.  A failing Redis is never an error: under any pattern of
    failures the answer is the cached figures or the computed ones. *)
Theorem aggregation_cached find (now claimId ledger : Z) (elig : option Z) (v : ClaimAggregation) :
  compute find now claimId ledger elig = Ok v →
  (∀ r, r_get now (cacheKey claimId) r = None →
   ∃ r1 r2, aggregate find now claimId ledger elig (healthy r) = (Ok v, healthy r1) ∧
     (∀ find' now' ledger' elig', now ≤ now' < now + 30000 →
        aggregate find' now' claimId ledger' elig' (healthy r1) = (Ok v, healthy r1)) ∧
     invalidate claimId (healthy r1) = (Ok tt, healthy r2) ∧
     ∀ find' now' ledger' elig' v', compute find' now' claimId ledger' elig' = Ok v' →
        ∃ r3, aggregate find' now' claimId ledger' elig' (healthy r2) = (Ok v', healthy r3)) ∧
  (∀ w, ∃ a w', aggregate find now claimId ledger elig w = (Ok a, w') ∧
     (a = v ∨ r_get now (cacheKey claimId) (rstate w) = Some a)).
Proof.
  intros Hc. split.
  - intros r Hr. do 2 eexists. split; [by apply aggregate_miss|]. split; [|split; [done|]].
    + intros find' now' ledger' elig' Hn. apply aggregate_hit. rewrite get_setex by lia.
      by rewrite decide_True by (unfold CACHE_TTL_SECONDS; lia).
    + intros find' now' ledger' elig' v' Hc'. eexists. apply aggregate_miss; [done|]. apply get_del.
  - intros [r fs]. unfold aggregate, redis_get, redis_set, try_catch, bind, query, update, cmd. cbn [rstate faults].
    destruct fs as [|[] fs]; cbn; [|rewrite Hc|].
    + destruct (r_get now (cacheKey claimId) r) as [a|]; [by eauto 10|]. rewrite Hc. cbn. eauto 10.
    + destruct fs as [|[] fs]; cbn; eauto 10.
    + destruct (r_get now (cacheKey claimId) r) as [a|]; [by eauto 10|]. rewrite Hc. destruct fs as [|[] fs]; cbn; eauto 10.
Qed.
End cache.

Module ClaimWitnesses.
Import Redis.Sample.

Definition sample_claim : ClaimVotes := {| cv_createdAtLedger := 1000; cv_approveVotes := 3; cv_rejectVotes := 1 |}.
Definition sample_find (id : Z) : result string (option ClaimVotes) :=
  if id =? 7 then Ok (Some sample_claim) else Ok None.

Lemma quorum_figures_witness : quorum_progress_pct (figures 0 sample_claim 2000 None) = 100.
Proof.
  destruct (quorum_figures 0 2000 sample_claim None) as (_ & _ & _ & _ & _ & Hf); [cbn; lia..|].
  apply Hf; [reflexivity|cbn; lia].
Defined.

Definition empty_cache : strings ClaimAggregation := [].

Lemma aggregation_cached_witness :
  ∃ r1, aggregate sample_find 0 7 2000 (Some 9) (healthy empty_cache) =
          (Ok (figures 0 sample_claim 2000 (Some 9)), healthy r1) ∧
        aggregate (λ _, Ok None) 29999 7 2000 None (healthy r1) =
          (Ok (figures 0 sample_claim 2000 (Some 9)), healthy r1).
Proof.
  destruct (proj1 (aggregation_cached (R:=strings ClaimAggregation) sample_find 0 7 2000 (Some 9)
    (figures 0 sample_claim 2000 (Some 9)) eq_refl) empty_cache) as (r1 & r2 & H1 & H2 & _); [reflexivity|].
  exists r1. split; [exact H1|]. apply H2. lia.
Defined.

End ClaimWitnesses.
