(* ===== verification/Cache.v ===== *)
(** * Caches with single-flight locks, under interference

    backend/src/cache/cache.service.ts, the locks of cache/redis.service.ts and
    withSingleFlightLock of redis/cache.ts.  Several requests run these
    methods at the same time on one Redis: at every await the other clients
    may change the store, time passes, and the command may be rejected.  A
    world carries the list of these interferences, one per await, so that a
    theorem about all worlds is a theorem about all interleavings. *)

From stdpp Require Import base sets list strings pretty sorting.
From Stdlib Require Import ZArith Lia Ascii.
From S2P Require Import Prelude JsText Redis.

Open Scope string_scope.
Open Scope Z_scope.

(** ** Worlds with interference *)

(** What happens while a call is suspended: the time that passes, what the
    other clients do to the store, and whether the command is rejected. *)
Record Interference (R : Type) := Interfere { elapsed : Z; others : R → R; rejected : bool }.
Arguments Interfere {R} _ _ _.
Arguments elapsed {R} _.
Arguments others {R} _ _.
Arguments rejected {R} _.

(** [calls] counts the runs of the wrapped loader. *)
Record cworld (R : Type) := CWorld {
  store : R; clock : Z; pending : list (Interference R); calls : nat }.
Arguments CWorld {R} _ _ _ _.
Arguments store {R} _.
Arguments clock {R} _.
Arguments pending {R} _.
Arguments calls {R} _.

Inductive failure (E : Type) := RedisDown | OutOfFuel | Failed (e : E).
Arguments RedisDown {E}.
Arguments OutOfFuel {E}.
Arguments Failed {E} _.

(** A world in which nothing else happens. *)
Definition undisturbed {R} (r : R) (now : Z) : cworld R := CWorld r now [] 0.

(** Time does not run backwards. *)
Definition lawful {R} (w : cworld R) : Prop := Forall (λ i, 0 ≤ elapsed i) (pending w).

Section commands.
Context {R E : Type}.
Abbreviation MC A := (M (cworld R) (failure E) A).

(** One await: the next interference takes effect; tells whether the awaited command is rejected. *)
Definition suspend : MC bool := λ w,
  match pending w with
  | [] => (Ok false, w)
  | i :: rest => (Ok (rejected i), CWorld (others i (store w)) (clock w + elapsed i) rest (calls w))
  end.

(** [await client.command(...)]. *)
Definition command {A} (f : Z → R → A * R) : MC A :=
  let* down := suspend in
  if (down : bool) then throw RedisDown
  else λ w, let '(a, r) := f (clock w) (store w) in (Ok a, CWorld r (clock w) (pending w) (calls w)).

(** [await new Promise((resolve) => setTimeout(resolve, ms))]. *)
Definition sleep (ms : Z) : MC () :=
  let* _ := suspend in
  λ w, (Ok tt, CWorld (store w) (clock w + ms) (pending w) (calls w)).

(** [await fn()]: the outcome of the n-th run is [fn n]. *)
Definition run_loader {V} (fn : nat → result E V) : MC V :=
  let* _ := suspend in
  λ w, (match fn (calls w) with Ok v => Ok v | Throw e => Throw (Failed e) end,
        CWorld (store w) (clock w) (pending w) (S (calls w))).

(** [Date.now()]. *)
Definition date_now : MC Z := λ w, (Ok (clock w), w).

(** [try { m } catch (err) { log }], with the value returned after a failure. *)
Definition swallow {A} (m : MC A) (a : A) : MC A := try_catch m (λ _, ret a).

(** [try { m } finally { cleanup }] where [cleanup] cannot fail. *)
Definition finally {A} (m : MC A) (cleanup : MC ()) : MC A :=
  λ w, let '(a, w1) := m w in (a, snd (cleanup w1)).
End commands.

(** ** Further commands on keys with a time to live *)

(** SET k v EX ttl NX, EXISTS, and an atomic GET + DEL. *)
Section key_commands.
Context {V R : Type} `{RedisString V R}.

Definition set_nx (k : string) (v : V) (ttlSeconds : Z) (t : Z) (r : R) : bool * R :=
  match r_get t k r with
  | Some _ => (false, r)
  | None => (true, r_setex t k v ttlSeconds r)
  end.
Definition exists_key (k : string) (t : Z) (r : R) : bool * R :=
  (bool_decide (is_Some (r_get t k r)), r).
End key_commands.

(** KEYS with a glob pattern.  Redis knows the keys with the connection's key
    prefix; for a pattern made of a literal text and a final star, KEYS returns
    the live keys that start with the text. *)
Definition glob_free (p : string) : bool :=
  str_forall (λ c, negb (existsb (Ascii.eqb c) ["*"; "?"; "["; "]"; "\"]%char)) p.

Class RedisKeys (V R : Type) `{RedisString V R} := {
  r_keys : Z → string → R → list string;
}.
Class RedisKeysLaws (V R : Type) `{RedisKeys V R} : Prop := {
  keys_glob : ∀ t p k (r : R), glob_free p = true →
    (k ∈ r_keys t (p +:+ "*") r ↔ startsWith k p = true ∧ is_Some (r_get t k r));
}.

(** ** backend/src/cache/redis.service.ts over the prefixed connection

    ioredis puts [keyPrefix] in front of the keys of a command, except the
    pattern of KEYS, and does not remove it from the keys KEYS returns. *)
Section cache.
Context {V R E : Type} `{RedisString V R, !RedisKeys V R}.
Variable keyPrefix : string.
Variable lock_value : V.
Variable is_null : V → bool.
Abbreviation MC A := (M (cworld R) (failure E) A).

Definition conn (key : string) : string := keyPrefix +:+ key.

Definition not_null (raw : option V) : option V :=
  match raw with Some v => if is_null v then None else Some v | None => None end.

(** Models [RedisService.get] (backend/src/cache/redis.service.ts:51-62). *)
Definition rs_get (key : string) : MC (option V) :=
  swallow (let* raw := command (λ t r, (r_get t (conn key) r, r)) in ret (not_null raw)) None.

(** Models [RedisService.set] (backend/src/cache/redis.service.ts:67-73). *)
Definition rs_set (key : string) (v : V) (ttlSeconds : Z) : MC () :=
  swallow (command (λ t r, (tt, r_setex t (conn key) v ttlSeconds r))) tt.

(** Models [RedisService.delPattern] (backend/src/cache/redis.service.ts:89-98). *)
Definition delPattern (pattern : string) : MC () :=
  swallow (let* keys := command (λ t r, (r_keys t pattern r, r)) in
     if (0 <? Z.of_nat (length keys))
     then command (λ _ r, (tt, foldl (λ r k, r_del (conn k) r) r keys)) else ret tt) tt.

(** Models [RedisService.acquireLock] (backend/src/cache/redis.service.ts:117-132). *)
Definition acquireLock (key : string) (ttlSeconds : Z) : MC bool :=
  swallow (command (set_nx (conn ("lock:" +:+ key)) lock_value ttlSeconds)) false.

(** Models [RedisService.releaseLock] (backend/src/cache/redis.service.ts:137-143). *)
Definition releaseLock (key : string) : MC () :=
  swallow (command (λ _ r, (tt, r_del (conn ("lock:" +:+ key)) r))) tt.

(** The polling loop of [waitForLock]: one unit of fuel per poll. *)
Fixpoint wait_loop (fuel : nat) (key : string) (startTime maxWaitMs pollIntervalMs : Z) : MC bool :=
  match fuel with
  | O => throw OutOfFuel
  | S fuel' =>
      let* now := date_now in
      if now - startTime <? maxWaitMs then
        let* released := swallow (let* e := command (exists_key (conn ("lock:" +:+ key))) in
                                    ret (if (e : bool) then None else Some true)) (Some false) in
        match released with
        | Some b => ret b
        | None => do* sleep pollIntervalMs in wait_loop fuel' key startTime maxWaitMs pollIntervalMs
        end
      else ret false
  end.

(** The polls that fit in a wait, and one more. *)
Definition polls (maxWaitMs pollIntervalMs : Z) : nat := S (Z.to_nat (maxWaitMs / pollIntervalMs + 1)).

(** Models [RedisService.waitForLock] (backend/src/cache/redis.service.ts:149-171). *)
Definition waitForLock (key : string) (maxWaitMs pollIntervalMs : Z) : MC bool :=
  let* startTime := date_now in
  wait_loop (polls maxWaitMs pollIntervalMs) key startTime maxWaitMs pollIntervalMs.

(** ** backend/src/cache/cache.service.ts *)

Variable APP_NAME env : string.

(** Models [CacheService.buildKey] (backend/src/cache/cache.service.ts:68-73). *)
Definition buildKey (key : string) (tenant : option string) : string :=
  match truthy tenant with
  | Some t => APP_NAME +:+ ":" +:+ env +:+ ":" +:+ t +:+ ":" +:+ key
  | None => APP_NAME +:+ ":" +:+ env +:+ ":" +:+ key
  end.

(** Models [CacheService.get] (backend/src/cache/cache.service.ts:80-96). *)
Definition cs_get (key : string) (tenant : option string) : MC (option V) :=
  swallow (rs_get (buildKey key tenant)) None.

(** Models [CacheService.set] (backend/src/cache/cache.service.ts:102-111). *)
Definition cs_set (key : string) (v : V) (ttlSeconds : Z) (tenant : option string) : MC () :=
  swallow (rs_set (buildKey key tenant) v ttlSeconds) tt.

(** Models [CacheService.delByPrefix] (backend/src/cache/cache.service.ts:122-131). *)
Definition delByPrefix (prefix : string) (tenant : option string) : MC () :=
  swallow (delPattern (buildKey prefix tenant +:+ "*")) tt.

Variable loader : nat → result E V.

(** Models [CacheService.wrap] (backend/src/cache/cache.service.ts:145-205). *)
Definition wrap (key : string) (ttl : Z) (tenant : option string) : MC V :=
  let fullKey := buildKey key tenant in
  (* 1. the cache; [inl] is the early return *)
  let* hit := swallow (let* cached := rs_get fullKey in ret (Some cached)) None in
  match hit with
  | None => run_loader loader
  | Some (Some cached) => ret cached
  | Some None =>
      (* 2. the lock *)
      let* lock := swallow (let* b := acquireLock fullKey 30 in ret (Some b)) None in
      match lock with
      | None => run_loader loader
      | Some true =>
          finally
            (let* result := run_loader loader in
             do* swallow (rs_set fullKey result ttl) tt in
             ret result)
            (swallow (releaseLock fullKey) tt)
      | Some false =>
          (* 3. wait for the holder, then read *)
          let* cached := swallow (do* waitForLock fullKey 5000 50 in rs_get fullKey) None in
          match cached with
          | Some v => ret v
          | None => run_loader loader
          end
      end
  end.

(** ** backend/src/redis/cache.ts *)

(** Models [cacheGet] (backend/src/redis/cache.ts:35-49). *)
Definition cacheGet (key : string) : MC (option V) :=
  swallow (let* raw := command (λ t r, (r_get t (conn key) r, r)) in ret (not_null raw)) None.

(** Models [cacheSet] (backend/src/redis/cache.ts:55-65). *)
Definition cacheSet (key : string) (v : V) (ttlSeconds : Z) : MC () :=
  swallow (command (λ t r, (tt, r_setex t (conn key) v ttlSeconds r))) tt.

(** Models [cacheDel] (backend/src/redis/cache.ts:68-74). *)
Definition cacheDel (key : string) : MC () :=
  swallow (command (λ _ r, (tt, r_del (conn key) r))) tt.

Section single_flight.
Variables (key : string) (ttlSeconds : Z).

Definition compute_and_cache : MC V :=
  let* result := run_loader loader in
  do* cacheSet key result ttlSeconds in
  ret result.

(** The polling loop of a caller that does not hold the lock, and the reads after it. *)
Fixpoint poll_loop (fuel : nat) (startTime : Z) : MC V :=
  match fuel with
  | O => throw OutOfFuel
  | S fuel' =>
      let* now := date_now in
      if now - startTime <? 5000 then
        let* cached := cacheGet key in
        match cached with
        | Some v => ret v
        | None =>
            let* lockExists := command (exists_key (conn ("lock:" +:+ key))) in
            if (lockExists : bool) then do* sleep 50 in poll_loop fuel' startTime
            else compute_and_cache
        end
      else
        let* cached := cacheGet key in
        match cached with
        | Some v => ret v
        | None => run_loader loader
        end
  end.

(** Models [withSingleFlightLock] (backend/src/redis/cache.ts:220-284). *)
Definition withSingleFlightLock : MC V :=
  try_catch
    (let* lockAcquired := command (set_nx (conn ("lock:" +:+ key)) lock_value 30) in
     if (lockAcquired : bool) then
       finally compute_and_cache
         (swallow (command (λ _ r, (tt, r_del (conn ("lock:" +:+ key)) r))) tt)
     else
       let* startTime := date_now in
       poll_loop (polls 5000 50) startTime)
    (λ _, run_loader loader).
End single_flight.
End cache.

(** ** Triples over all interleavings

    [Good] is any property of the values cached under one key that the other
    clients respect: the store is sound when it only holds good values under
    the key from now on, and so is every interference to come. *)
Section triples.
Context {V R E : Type} `{RedisStringLaws V R, !RedisKeys V R}.
Variables (keyPrefix : string) (lock_value : V) (is_null : V → bool) (Good : V → Prop) (key : string).
Abbreviation MC A := (M (cworld R) (failure E) A).
Abbreviation conn := (conn keyPrefix).

Definition sound_from (t0 : Z) (r : R) : Prop :=
  ∀ t v, t0 ≤ t → r_get t (conn key) r = Some v → is_null v = false → Good v.

Definition respectful (i : Interference R) : Prop :=
  0 ≤ elapsed i ∧ ∀ t0 r, sound_from t0 r → sound_from t0 (others i r).

Definition sound (w : cworld R) : Prop :=
  sound_from (clock w) (store w) ∧ Forall respectful (pending w).

Lemma sound_later t0 t1 r : t0 ≤ t1 → sound_from t0 r → sound_from t1 r.
Proof. intros Ht Hs t v Hle. apply Hs. lia. Qed.

Lemma lock_not_key : conn ("lock:" +:+ key) ≠ conn key.
Proof.
  unfold Cache.conn. intros Heq%(inj (String.app keyPrefix)).
  apply (f_equal String.length) in Heq. rewrite length_string_app in Heq. cbn in Heq. lia.
Qed.

(** From every sound world [m] ends in a sound world, no earlier, and [Q] relates the number of loader runs
    before, the result, and the number of runs after. *)
Definition triple {A} (m : MC A) (Q : nat → result (failure E) A → nat → Prop) : Prop :=
  ∀ w, sound w → let '(a, w') := m w in sound w' ∧ clock w ≤ clock w' ∧ Q (calls w) a (calls w').

Lemma triple_weaken {A} (m : MC A) (Q Q' : nat → result (failure E) A → nat → Prop) :
  triple m Q → (∀ c a c', Q c a c' → Q' c a c') → triple m Q'.
Proof. intros Hm HQ w Hw. specialize (Hm w Hw). destruct (m w). naive_solver. Qed.

Lemma triple_bind {A B} (m : MC A) (f : A → MC B) Qm (Q : nat → result (failure E) B → nat → Prop) :
  triple m Qm →
  (∀ c c1 e, Qm c (Throw e) c1 → Q c (Throw e) c1) →
  (∀ c c1 a, Qm c (Ok a) c1 → triple (f a) (λ c2 res c3, c2 = c1 → Q c res c3)) →
  triple (bind m f) Q.
Proof.
  intros Hm Ht Hf w Hw. specialize (Hm w Hw). unfold bind. destruct (m w) as [[a|e] w1].
  - destruct Hm as (Hw1 & Hc1 & HQ). specialize (Hf _ _ _ HQ w1 Hw1). destruct (f a w1) as [res w2].
    destruct Hf as (? & ? & HQ2). split; [done|]. split; [lia|by apply HQ2].
  - destruct Hm as (? & ? & HQ). eauto.
Qed.

Lemma triple_try {E' A} (m : MC A) (h : failure E → M (cworld R) E' A) Qm
    (Q : nat → result E' A → nat → Prop) w :
  triple m Qm → sound w →
  (∀ a w', m w = (Ok a, w') → Qm (calls w) (Ok a) (calls w') → Q (calls w) (Ok a) (calls w')) →
  (∀ e w', m w = (Throw e, w') → sound w' → clock w ≤ clock w' → Qm (calls w) (Throw e) (calls w') →
     let '(a, w2) := h e w' in sound w2 ∧ clock w' ≤ clock w2 ∧ Q (calls w) a (calls w2)) →
  let '(a, w2) := try_catch m h w in sound w2 ∧ clock w ≤ clock w2 ∧ Q (calls w) a (calls w2).
Proof.
  intros Hm Hw Hok Hh. specialize (Hm w Hw). unfold try_catch. destruct (m w) as [[a|e] w1] eqn:Hmw.
  - destruct Hm as (? & ? & HQ). eauto.
  - destruct Hm as (Hw1 & Hc & HQ). specialize (Hh e w1 eq_refl Hw1 Hc HQ). destruct (h e w1). naive_solver lia.
Qed.

Lemma triple_ret {A} (a : A) : triple (ret a) (λ c res c', c' = c ∧ res = Ok a).
Proof. intros w Hw. cbn. split; [done|]. by split; [lia|]. Qed.

(** An operation that does not run the loader: it may be rejected, or not. *)
Definition may_fail {A} (P : A → Prop) : nat → result (failure E) A → nat → Prop :=
  λ c res c', c' = c ∧ match res with Ok a => P a | Throw e => e = RedisDown end.
Definition never_fails {A} (P : A → Prop) : nat → result (failure E) A → nat → Prop :=
  λ c res c', c' = c ∧ ∃ a, res = Ok a ∧ P a.

Lemma suspend_triple : triple (suspend (E:=E)) (never_fails (λ _, True)).
Proof.
  intros [r t [|i rest] c] [Hs Hp]; cbn in *.
  { split; [done|]. split; [lia|]. split; eauto. }
  apply Forall_cons in Hp as [[Hi Ho] Hrest]. split; [split; cbn; [|done]|].
  - apply Ho. eapply sound_later; [|done]. lia.
  - split; [lia|]. split; eauto.
Qed.

Lemma command_triple {A} (f : Z → R → A * R) (P : A → Prop) :
  (∀ t r, sound_from t r → let '(a, r') := f t r in P a ∧ sound_from t r') →
  triple (command f) (may_fail P).
Proof.
  intros Hf. eapply triple_bind; [apply suspend_triple|by intros ??? (_ & ? & ? & _)|].
  intros c c1 down (-> & _). destruct down.
  - intros w Hw. cbn. split; [done|]. split; [lia|]. intros ->. by split.
  - intros w [Hs Hp]. specialize (Hf _ _ Hs). destruct (f (clock w) (store w)) as [a r']. cbn.
    destruct Hf as [HP Hr]. split; [by split|]. split; [lia|]. intros ->. by split.
Qed.

Lemma swallow_triple {A} (m : MC A) (P : A → Prop) (a : A) :
  triple m (may_fail P) → P a → triple (swallow m a) (never_fails P).
Proof.
  intros Hm Ha w Hw. eapply (triple_try m _ (may_fail P)); [done..| |].
  - intros b w' _ [-> HP]. split; eauto.
  - intros e w' _ Hw' _ [Hc ->]. cbn. split; [done|]. split; [lia|]. split; eauto.
Qed.

Lemma never_fails_may_fail {A} (m : MC A) (P : A → Prop) : triple m (never_fails P) → triple m (may_fail P).
Proof. intros Hm. eapply triple_weaken; [done|]. by intros c a c' (-> & b & -> & HP). Qed.

Lemma sequel_triple {A B} (m : MC A) (f : A → MC B) (P : A → Prop) (Q : nat → result (failure E) B → nat → Prop) :
  triple m (never_fails P) → (∀ a, P a → triple (f a) Q) → triple (bind m f) Q.
Proof.
  intros Hm Hf. eapply triple_bind; [done|by intros ??? (_ & ? & ? & _)|].
  intros c c1 a (-> & b & [= <-] & HP). eapply triple_weaken; [by apply Hf|]. by intros c2 res c3 HQ ->.
Qed.

Lemma fallible_triple {A B} (m : MC A) (f : A → MC B) (P : A → Prop) (P' : B → Prop) :
  triple m (may_fail P) → (∀ a, P a → triple (f a) (may_fail P')) → triple (bind m f) (may_fail P').
Proof.
  intros Hm Hf. eapply triple_bind; [done|by intros ??? [-> ->]|].
  intros c c1 a [-> HP]. eapply triple_weaken; [by apply Hf|]. by intros c2 res c3 HQ ->.
Qed.

(** Code that never fails inside a handler that is never reached. *)
Lemma guarded_total {A} (m : MC A) (P : A → Prop) (a : A) :
  triple m (never_fails P) → triple (swallow m a) (never_fails P).
Proof.
  intros Hm w Hw. specialize (Hm w Hw). unfold swallow, try_catch. destruct (m w) as [res w1].
  destruct Hm as (? & ? & Hc & b & -> & ?). split; [done|]. split; [done|]. split; eauto.
Qed.

Lemma map_total {A B} (m : MC A) (f : A → B) (P : A → Prop) :
  triple m (never_fails P) →
  triple (let* a := m in ret (f a)) (never_fails (λ b, ∃ a, b = f a ∧ P a)).
Proof.
  intros Hm. eapply sequel_triple; [done|]. intros a HP.
  eapply triple_weaken; [apply triple_ret|]. intros c res c' [-> ->]. split; eauto.
Qed.

(** *** The commands *)

Definition good_read (a : option V) : Prop := ∀ v, a = Some v → Good v.

Lemma read_triple :
  triple (let* raw := command (λ t r, (r_get t (conn key) r, r)) in ret (not_null is_null raw))
         (may_fail good_read).
Proof.
  eapply (fallible_triple _ _ (λ raw, good_read (not_null is_null raw))).
  - apply command_triple. intros t r Hs. split; [|done]. intros v. unfold not_null.
    destruct (r_get t (conn key) r) as [u|] eqn:Hu; [|done]. destruct (is_null u) eqn:Hn; [done|].
    intros [= ->]. by eapply Hs.
  - intros raw HP. eapply triple_weaken; [apply triple_ret|]. by intros c a c' [-> ->].
Qed.

Lemma rs_get_triple : triple (rs_get keyPrefix is_null key) (never_fails good_read).
Proof. apply swallow_triple; [apply read_triple|done]. Qed.

Lemma store_triple v ttl :
  Good v → triple (command (λ t r, (tt, r_setex t (conn key) v ttl r))) (may_fail (λ _, True)).
Proof.
  intros HG. apply command_triple. intros t r Hs. split; [done|].
  intros t' v' Ht. rewrite get_setex by done. case_decide; by intros [= <-].
Qed.

Lemma rs_set_triple v ttl : Good v → triple (rs_set keyPrefix key v ttl) (never_fails (λ _, True)).
Proof. intros HG. by apply swallow_triple; [apply store_triple|]. Qed.

Lemma lock_triple ttl :
  triple (command (set_nx (conn ("lock:" +:+ key)) lock_value ttl)) (may_fail (λ _, True)).
Proof.
  apply command_triple. intros t r Hs. unfold set_nx.
  destruct (r_get t _ r); [done|]. split; [done|]. intros t' v' Ht.
  rewrite get_setex_ne by apply lock_not_key. by apply Hs.
Qed.

Lemma unlock_triple : triple (command (λ _ r, (tt, r_del (conn ("lock:" +:+ key)) r))) (may_fail (λ _, True)).
Proof.
  apply command_triple. intros t r Hs. split; [done|]. intros t' v' Ht.
  rewrite get_del_ne by apply lock_not_key. by apply Hs.
Qed.

Lemma exists_triple k : triple (command (exists_key k)) (may_fail (λ _, True)).
Proof. apply command_triple. intros t r Hs. done. Qed.

Variable loader : nat → result E V.
Hypothesis loader_good : ∀ n v, loader n = Ok v → Good v.

Definition lift_outcome (o : result E V) : result (failure E) V :=
  match o with Ok v => Ok v | Throw e => Throw (Failed e) end.

Definition ran_once : nat → result (failure E) V → nat → Prop :=
  λ c res c', c' = S c ∧ res = lift_outcome (loader c).

Lemma run_loader_triple : triple (run_loader loader) ran_once.
Proof.
  eapply sequel_triple; [apply suspend_triple|]. intros _ _ w Hw. cbn. split; [exact Hw|]. split; [lia|].
  unfold ran_once, lift_outcome. by destruct (loader (calls w)).
Qed.

Lemma finally_triple {A} (m : MC A) (cleanup : MC ()) (Q : nat → result (failure E) A → nat → Prop) (P : () → Prop) :
  triple m Q → triple cleanup (never_fails P) → triple (finally m cleanup) Q.
Proof.
  intros Hm Hc w Hw. specialize (Hm w Hw). unfold finally. destruct (m w) as [a w1].
  destruct Hm as (Hw1 & ? & HQ). specialize (Hc w1 Hw1). destruct (cleanup w1) as [b w2]. cbn.
  destruct Hc as (Hw2 & ? & Hc & _). rewrite Hc. split; [done|]. split; [lia|done].
Qed.

Lemma sleep_triple ms : 0 ≤ ms → triple (sleep ms) (never_fails (λ _, True)).
Proof.
  intros Hms. eapply sequel_triple; [apply suspend_triple|]. intros _ _ w [Hs Hp]. cbn.
  split; [split; cbn; [|done]|].
  - eapply sound_later; [|done]. lia.
  - split; [lia|]. split; eauto.
Qed.

(** *** Loops end: every poll waits at least one interval *)

Definition unmoved {A} (w : cworld R) (res : result (failure E) A * cworld R) (P : A → Prop) : Prop :=
  sound res.2 ∧ clock w ≤ clock res.2 ∧ calls res.2 = calls w ∧ ∃ a, res.1 = Ok a ∧ P a.

(** One turn of a polling loop: the operation, then the sleep, leave less of the wait. *)
Lemma poll_sleep {A} (m : MC A) ms w :
  triple m (never_fails (λ _, True)) → 0 ≤ ms → sound w →
  ∃ a w1, m w = (Ok a, w1) ∧ sound w1 ∧ calls w1 = calls w ∧ clock w ≤ clock w1 ∧
    ∃ w2, sleep (E:=E) ms w1 = (Ok tt, w2) ∧ sound w2 ∧ calls w2 = calls w ∧ clock w + ms ≤ clock w2.
Proof.
  intros Hm Hms Hw. specialize (Hm w Hw). destruct (m w) as [res w1].
  destruct Hm as (Hw1 & Hc & Hcalls & a & -> & _). exists a, w1. repeat (split; [done|]).
  pose proof (sleep_triple ms Hms w1 Hw1) as Hs. pose proof (suspend_triple w1 Hw1) as Hsus.
  unfold sleep, bind in *. destruct (suspend w1) as [res2 w2] eqn:Hsw.
  destruct Hsus as (Hw2 & Hc2 & Hcalls2 & b & -> & _). cbn in Hs |- *.
  eexists. split; [done|]. destruct Hs as (Hs & _ & _). split; [exact Hs|]. cbn. split; [congruence|lia].
Qed.

Lemma wait_loop_total fuel k start maxW ms w :
  0 < ms → sound w → Z.max 0 (start + maxW - clock w) + ms ≤ Z.of_nat fuel * ms →
  unmoved w (wait_loop keyPrefix fuel k start maxW ms w) (λ _, True).
Proof.
  intros Hms. revert w. induction fuel as [|fuel IH]; intros w Hw Hf; [lia|].
  cbn [wait_loop]. unfold bind at 1, date_now at 1.
  destruct (clock w - start <? maxW) eqn:Hlt; bool_prop; cbv iota.
  2: { split; [done|]. cbn. split; [lia|]. eauto. }
  set (m := swallow _ _).
  destruct (poll_sleep m ms w) as (a & w1 & Hm & Hw1 & Hc1 & Ht1 & w2 & Hs & Hw2 & Hc2 & Ht2); [|lia|done|].
  { apply swallow_triple; [|done].
    eapply fallible_triple; [apply exists_triple|]. intros e _.
    eapply triple_weaken; [apply triple_ret|]. by intros c r c' [-> ->]. }
  rewrite (bind_ok _ _ _ _ _ Hm). destruct a as [b|].
  { split; [done|]. cbn. split; [lia|]. split; [done|]. eauto. }
  rewrite (bind_ok _ _ _ _ _ Hs).
  rewrite Nat2Z.inj_succ, Z.mul_succ_l in Hf.
  destruct (IH w2 Hw2) as (H1 & H2 & H3 & H4).
  { assert (fuel = O ∨ ms ≤ Z.of_nat fuel * ms) as [->|] by (destruct fuel; [by left|right; nia]); lia. }
  split; [done|]. split; [lia|]. split; [congruence|done].
Qed.

Lemma waitForLock_triple k : triple (waitForLock keyPrefix k 5000 50) (never_fails (λ _, True)).
Proof.
  intros w Hw. unfold waitForLock, bind, date_now.
  destruct (wait_loop_total (polls 5000 50) k (clock w) 5000 50 w) as (H1 & H2 & H3 & H4); [lia|done|vm_compute (Z.of_nat _); lia|].
  destruct (wait_loop _ _ _ _ _ _ w) as [res w']. cbn in *. split; [done|]. split; [done|]. by split.
Qed.

(** The outcomes of a cached call: a cached value, or one run of the loader. *)
Definition cached_or_ran : nat → result (failure E) V → nat → Prop :=
  λ c res c', (c' = c ∧ ∃ v, res = Ok v ∧ Good v) ∨ ran_once c res c'.

Lemma ran_once_outcome c res c' : ran_once c res c' → cached_or_ran c res c'.
Proof. by right. Qed.

Lemma ret_cached v : Good v → triple (ret v) cached_or_ran.
Proof. intros HG. eapply triple_weaken; [apply triple_ret|]. intros c a c' [-> ->]. left. eauto. Qed.

(** Running the loader and then storing its value. *)
Lemma load_then_store (save : V → MC ()) (P : () → Prop) :
  (∀ v, Good v → triple (save v) (never_fails P)) →
  triple (let* result := run_loader loader in do* save result in ret result) ran_once.
Proof.
  intros Hsave. eapply triple_bind; [apply run_loader_triple|done|].
  intros c c1 v (-> & Hv). unfold lift_outcome in Hv. destruct (loader c) as [u|] eqn:Hu; simplify_eq.
  eapply sequel_triple; [by apply Hsave, (loader_good c)|]. intros [] _.
  eapply triple_weaken; [apply triple_ret|]. intros c2 res c3 [-> ->] ->. unfold ran_once, lift_outcome. by rewrite Hu.
Qed.

Lemma compute_and_cache_triple ttl : triple (compute_and_cache keyPrefix loader key ttl) ran_once.
Proof. apply (load_then_store _ (λ _, True)). intros v HG. by apply swallow_triple; [apply store_triple|]. Qed.

(** The outcome inside the try block of withSingleFlightLock. *)
Definition attempt : nat → result (failure E) V → nat → Prop :=
  λ c res c', cached_or_ran c res c' ∨ (c' = c ∧ res = Throw RedisDown).

Lemma poll_loop_total fuel start ttl w :
  sound w → Z.max 0 (start + 5000 - clock w) + 50 ≤ Z.of_nat fuel * 50 →
  let '(res, w') := poll_loop keyPrefix is_null loader key ttl fuel start w in
  sound w' ∧ clock w ≤ clock w' ∧ attempt (calls w) res (calls w').
Proof.
  revert w. induction fuel as [|fuel IH]; intros w Hw Hf; [lia|].
  cbn [poll_loop]. unfold bind at 1, date_now at 1.
  pose proof (rs_get_triple w Hw) as Hg. change (rs_get keyPrefix is_null key) with (cacheGet (E:=E) keyPrefix is_null key) in Hg.
  destruct (clock w - start <? 5000) eqn:Hlt; bool_prop; cbv iota; unfold bind at 1;
    destruct (cacheGet keyPrefix is_null key w) as [res w1];
    destruct Hg as (Hw1 & Ht1 & Hc1 & cached & -> & Hgood); destruct cached as [v|].
  1, 3: split; [done|]; split; [done|]; left; left; eauto.
  2: { pose proof (run_loader_triple w1 Hw1) as Hr. destruct (run_loader loader w1) as [r w2].
       destruct Hr as (? & ? & Hr). split; [done|]. split; [lia|]. left; right. by rewrite Hc1 in Hr. }
  pose proof (exists_triple (conn ("lock:" +:+ key)) w1 Hw1) as He. unfold bind at 1.
  destruct (command (exists_key _) w1) as [[lockExists|e] w2]; destruct He as (Hw2 & Ht2 & Hc2 & He).
  2: { subst e. split; [done|]. split; [lia|]. right. split; [congruence|done]. }
  destruct lockExists.
  - destruct (poll_sleep (ret tt : MC ()) 50 w2) as (a & w3 & Hm & _ & _ & _ & w4 & Hs & Hw4 & Hc4 & Ht4); [|lia|done|].
    { eapply triple_weaken; [apply triple_ret|]. intros c b c' [-> ->]. split; eauto. }
    injection Hm as <- <-. rewrite (bind_ok _ _ _ _ _ Hs). specialize (IH w4 Hw4).
    destruct (poll_loop _ _ _ _ _ fuel start w4) as [r w5]. rewrite Hc4, Hc2, Hc1 in IH.
    destruct IH as (? & ? & ?); [lia|]. split; [done|]. split; [lia|done].
  - pose proof (compute_and_cache_triple ttl w2 Hw2) as Hr. destruct (compute_and_cache _ _ _ _ w2) as [r w3].
    destruct Hr as (? & ? & Hr). split; [done|]. split; [lia|]. left; right. by rewrite Hc2, Hc1 in Hr.
Qed.
End triples.

(** ** Correctness of the cached calls *)

Section cached_calls.
Context {V R E : Type} `{RedisStringLaws V R, !RedisKeys V R}.
Variables (keyPrefix : string) (lock_value : V) (is_null : V → bool) (APP_NAME env : string).
Abbreviation conn := (conn keyPrefix).

Lemma wrap_triple (Good : V → Prop) (loader : nat → result E V) key ttl tenant :
  (∀ n v, loader n = Ok v → Good v) →
  triple keyPrefix is_null Good (buildKey APP_NAME env key tenant)
    (wrap keyPrefix lock_value is_null APP_NAME env loader key ttl tenant) (cached_or_ran Good loader).
Proof.
  intros Hload. unfold wrap. set (fullKey := buildKey APP_NAME env key tenant).
  eapply (sequel_triple _ _ _ _ _ _ (λ a, ∃ c, a = Some c ∧ good_read Good c)).
  { apply guarded_total, map_total, rs_get_triple. }
  intros hit (cached & -> & Hgood). destruct cached as [v|]; [by apply ret_cached, Hgood|].
  eapply (sequel_triple _ _ _ _ _ _ (λ a, ∃ b : bool, a = Some b ∧ True)).
  { apply guarded_total, map_total. by apply swallow_triple; [apply lock_triple|]. }
  intros lock (b & -> & _). destruct b.
  - eapply triple_weaken; [eapply finally_triple|apply ran_once_outcome].
    + apply (load_then_store _ _ _ _ _ Hload _ (λ _, True)). intros v HG. apply guarded_total. by apply rs_set_triple.
    + apply guarded_total. by apply (swallow_triple _ _ _ _ _ (λ _, True)); [apply unlock_triple|].
  - eapply (sequel_triple _ _ _ _ _ _ (good_read Good)).
    { apply guarded_total. eapply sequel_triple; [apply waitForLock_triple|]. intros _ _. apply rs_get_triple. }
    intros cached' Hgood'. destruct cached' as [v|]; [by apply ret_cached, Hgood'|].
    eapply triple_weaken; [apply run_loader_triple|apply ran_once_outcome].
Qed.

(** A cached value, one run of the loader, or a second run after the first one threw. *)
Definition cached_ran_or_reran (Good : V → Prop) (loader : nat → result E V)
    (c : nat) (res : result (failure E) V) (c' : nat) : Prop :=
  cached_or_ran Good loader c res c' ∨
  (∃ e, loader c = Throw e) ∧ c' = S (S c) ∧ res = lift_outcome (loader (S c)).

Lemma singleFlight_triple (Good : V → Prop) (loader : nat → result E V) key ttl :
  (∀ n v, loader n = Ok v → Good v) →
  triple keyPrefix is_null Good key (withSingleFlightLock keyPrefix lock_value is_null loader key ttl)
    (cached_ran_or_reran Good loader).
Proof.
  intros Hload w Hw. unfold withSingleFlightLock. set (body := bind _ _).
  assert (triple keyPrefix is_null Good key body (attempt Good loader)) as Hbody.
  { eapply triple_bind; [apply lock_triple|intros c c1 e [-> ->]; by right|].
    intros c c1 acquired [-> _]. destruct acquired.
    - eapply triple_weaken; [eapply (finally_triple _ _ _ _ _ _ _ (λ _, True))|].
      + by apply compute_and_cache_triple.
      + by apply swallow_triple; [apply unlock_triple|].
      + intros c2 res c3 Hr ->. left. by right.
    - intros w1 Hw1. unfold bind, date_now.
      pose proof (poll_loop_total keyPrefix is_null Good key loader Hload (polls 5000 50) (clock w1) ttl w1 Hw1) as Hp.
      destruct (poll_loop _ _ _ _ _ _ _ w1) as [res w2].
      destruct Hp as (? & ? & Ha); [vm_compute (Z.of_nat _); lia|]. split; [done|]. split; [done|]. by intros <-. }
  eapply triple_try; [done|done| |].
  - intros a w' _ [Hc|[_ ?]]; [by left|done].
  - intros e w' Hb Hw' Ht Ha. pose proof (run_loader_triple keyPrefix is_null Good key loader w' Hw') as Hr.
    destruct (run_loader loader w') as [res w2]. destruct Hr as (? & ? & Hc & Hres). split; [done|]. split; [done|].
    destruct Ha as [[(_ & v & ? & _)|[Hc' He]]|[Hc' _]]; [done| |].
    + right. unfold lift_outcome in He. destruct (loader (calls w)) as [|e0] eqn:Hl; [done|].
      rewrite Hc' in Hc, Hres. eauto.
    + left; right. rewrite Hc' in Hc, Hres. by split.
Qed.

(** C14: [wrap] under every interleaving.  Let [Good] hold of the loader's results and of the values the
    other clients cache under the key.  Whatever they do at each await, however long it takes and whichever
    Redis commands are rejected, the call ends (the polling loop never exhausts its fuel) in one of two ways:
    it returns a good value without running the loader, or it runs the loader exactly once and settles as the
    loader did.  So a Redis failure is never an error of the call. *)
Theorem wrap_correct (Good : V → Prop) (loader : nat → result E V) key ttl tenant w :
  (∀ n v, loader n = Ok v → Good v) →
  sound keyPrefix is_null Good (buildKey APP_NAME env key tenant) w →
  let '(res, w') := wrap keyPrefix lock_value is_null APP_NAME env loader key ttl tenant w in
  (calls w' = calls w ∧ ∃ v, res = Ok v ∧ Good v) ∨
  (calls w' = S (calls w) ∧ res = lift_outcome (loader (calls w))).
Proof.
  intros Hload Hw. pose proof (wrap_triple Good loader key ttl tenant Hload w Hw) as Ht.
  destruct (wrap _ _ _ _ _ _ _ _ _ w) as [res w']. by destruct Ht as (_ & _ & Ht).
Qed.

(** [withSingleFlightLock] under every interleaving: it ends, and it returns a good cached value, or
    settles as its one run of the function, or as the second run when the first one threw. *)
Theorem singleFlight_correct (Good : V → Prop) (loader : nat → result E V) key ttl w :
  (∀ n v, loader n = Ok v → Good v) → sound keyPrefix is_null Good key w →
  let '(res, w') := withSingleFlightLock keyPrefix lock_value is_null loader key ttl w in
  (calls w' = calls w ∧ ∃ v, res = Ok v ∧ Good v) ∨
  (calls w' = S (calls w) ∧ res = lift_outcome (loader (calls w))) ∨
  (calls w' = S (S (calls w)) ∧ (∃ e, loader (calls w) = Throw e) ∧
     res = lift_outcome (loader (S (calls w)))).
Proof.
  intros Hload Hw. pose proof (singleFlight_triple Good loader key ttl Hload w Hw) as Ht.
  destruct (withSingleFlightLock _ _ _ _ _ _ w) as [res w'].
  destruct Ht as (_ & _ & [[Ht|Ht]|(? & ? & ?)]); eauto.
Qed.

(** A function that throws while its caller holds the lock is run a second time, without the lock: the
    handler that is meant for Redis errors also catches the function's own error. *)
Theorem singleFlight_reruns (loader : nat → result E V) key ttl (r : R) now e :
  r_get now (conn ("lock:" +:+ key)) r = None → loader 0%nat = Throw e →
  let '(res, w') := withSingleFlightLock keyPrefix lock_value is_null loader key ttl (undisturbed r now) in
  res = lift_outcome (loader 1%nat) ∧ calls w' = 2%nat ∧ r_get now (conn ("lock:" +:+ key)) (store w') = None.
Proof.
  intros Hlock He.
  unfold withSingleFlightLock, try_catch, command, finally, compute_and_cache, swallow, run_loader, bind, suspend, set_nx.
  cbn. rewrite Hlock. cbn. rewrite He. cbn. unfold lift_outcome. destruct (loader 1%nat); cbn; by rewrite get_del.
Qed.

Lemma wrap_hit (loader : nat → result E V) key ttl tenant (r : R) now v :
  r_get now (conn (buildKey APP_NAME env key tenant)) r = Some v → is_null v = false →
  wrap keyPrefix lock_value is_null APP_NAME env loader key ttl tenant (undisturbed r now) = (Ok v, undisturbed r now).
Proof.
  intros Hr Hn. unfold wrap, rs_get, swallow, try_catch, command, bind, suspend. cbn.
  rewrite Hr. cbn. by rewrite Hn.
Qed.

Lemma wrap_miss (loader : nat → result E V) key ttl tenant (r : R) now v :
  let fullKey := buildKey APP_NAME env key tenant in
  not_null is_null (r_get now (conn fullKey) r) = None →
  r_get now (conn ("lock:" +:+ fullKey)) r = None → loader 0%nat = Ok v →
  wrap keyPrefix lock_value is_null APP_NAME env loader key ttl tenant (undisturbed r now) =
    (Ok v, CWorld (r_del (conn ("lock:" +:+ fullKey))
             (r_setex now (conn fullKey) v ttl (r_setex now (conn ("lock:" +:+ fullKey)) lock_value 30 r))) now [] 1).
Proof.
  intros fullKey Hr Hlock Hv.
  unfold wrap, rs_get, acquireLock, releaseLock, rs_set, swallow, try_catch, command, finally, run_loader, bind, suspend, set_nx.
  fold fullKey. cbn. rewrite Hr. cbn. rewrite Hlock. cbn. rewrite Hv. done.
Qed.

(** The cache works.  On an undisturbed server a miss runs the loader once, returns its value, leaves
    the lock free and caches the value: until its time to live ends every further call returns it without
    running the loader, whatever that loader would return.  A null value is the exception: it is stored, but
    never counts as a hit, so the next call loads again. *)
Theorem wrap_caches (loader : nat → result E V) key ttl tenant (r : R) now v :
  let fullKey := buildKey APP_NAME env key tenant in
  not_null is_null (r_get now (conn fullKey) r) = None →
  r_get now (conn ("lock:" +:+ fullKey)) r = None → loader 0%nat = Ok v →
  ∃ r1, wrap keyPrefix lock_value is_null APP_NAME env loader key ttl tenant (undisturbed r now) =
          (Ok v, CWorld r1 now [] 1) ∧
    (∀ t, r_get t (conn ("lock:" +:+ fullKey)) r1 = None) ∧
    ∀ t (loader' : nat → result E V), now ≤ t < now + ttl * 1000 →
      if is_null v
      then ∀ v', loader' 0%nat = Ok v' →
        ∃ r2, wrap keyPrefix lock_value is_null APP_NAME env loader' key ttl tenant (undisturbed r1 t) =
          (Ok v', CWorld r2 t [] 1)
      else wrap keyPrefix lock_value is_null APP_NAME env loader' key ttl tenant (undisturbed r1 t) =
          (Ok v, undisturbed r1 t).
Proof.
  intros fullKey Hr Hlock Hv. eexists. split; [by apply wrap_miss|]. fold fullKey. split; [intros t; apply get_del|].
  intros t loader' Ht. match goal with |- context [undisturbed ?r1 t] => set (r1' := r1) end.
  assert (r_get t (conn fullKey) r1' = Some v) as Hget.
  { unfold r1'. rewrite get_del_ne by apply lock_not_key. rewrite get_setex by lia. by rewrite decide_True by lia. }
  destruct (is_null v) eqn:Hn; [|by apply wrap_hit].
  intros v' Hv'. eexists. apply wrap_miss; [|apply get_del|done].
  fold fullKey. rewrite Hget. cbn. by rewrite Hn.
Qed.

(** *** Keys and invalidation *)

(** The caches of different tenants are disjoint as long as no tenant identifier contains a colon:
    equal keys mean equal tenants and equal names.  Without a tenant there is no such protection: the entry
    [k] of tenant [t] is also the entry [t:k] of the shared cache. *)
Theorem buildKey_tenants (t1 t2 k1 k2 : string) :
  t1 ≠ "" → t2 ≠ "" → avoids ":"%char t1 = true → avoids ":"%char t2 = true →
  (buildKey APP_NAME env k1 (Some t1) = buildKey APP_NAME env k2 (Some t2) → t1 = t2 ∧ k1 = k2) ∧
  buildKey APP_NAME env k1 (Some t1) = buildKey APP_NAME env (t1 +:+ ":" +:+ k1) None.
Proof.
  intros Hn1 Hn2 Ha1 Ha2. unfold buildKey, truthy. destruct t1, t2; [done..|]. split; [|done].
  intros Heq%(inj (String.app APP_NAME))%(inj (String.app ":"))%(inj (String.app env))%(inj (String.app ":")).
  by apply (sep_free_split ":").
Qed.

Context `{!RedisKeysLaws V R}.

Lemma get_del_many t k (ks : list string) (r : R) :
  r_get t (conn k) (foldl (λ r k, r_del (conn k) r) r ks) =
    if bool_decide (k ∈ ks) then None else r_get t (conn k) r.
Proof.
  revert r. induction ks as [|k' ks IH]; intros r; [done|]. cbn [foldl]. rewrite IH.
  destruct (decide (k ∈ ks)) as [Hin|Hin]; [rewrite !bool_decide_true by set_solver; done|].
  rewrite (bool_decide_false (k ∈ ks)) by done. destruct (decide (k = k')) as [->|Hne].
  - by rewrite bool_decide_true, get_del by set_solver.
  - rewrite bool_decide_false by set_solver. apply get_del_ne.
    intros Heq%(inj (String.app keyPrefix)). done.
Qed.

(** Deletion by prefix does not delete what was cached.  KEYS ignores the connection's key prefix and
    DEL adds it to the keys KEYS returned: of the entries of this cache, exactly those are deleted whose full
    key is also the name of a live key without the connection's prefix.  An entry that has no such namesake is
    still served after [delByPrefix] of its own prefix. *)
Theorem delByPrefix_misses prefix suffix tenant (r : R) now :
  glob_free (buildKey APP_NAME env prefix tenant) = true →
  let fullKey := buildKey APP_NAME env (prefix +:+ suffix) tenant in
  ∃ r', delByPrefix (E:=E) keyPrefix APP_NAME env prefix tenant (undisturbed r now) = (Ok tt, undisturbed r' now) ∧
    (∀ t, r_get t (conn fullKey) r' =
       if bool_decide (is_Some (r_get now fullKey r)) then None else r_get t (conn fullKey) r) ∧
    (r_get now fullKey r = None →
       fst (cs_get (E:=E) keyPrefix is_null APP_NAME env (prefix +:+ suffix) tenant (undisturbed r' now)) =
       fst (cs_get (E:=E) keyPrefix is_null APP_NAME env (prefix +:+ suffix) tenant (undisturbed r now))).
Proof.
  intros Hg fullKey. set (full := buildKey APP_NAME env prefix tenant) in *.
  set (r' := foldl (λ r k, r_del (conn k) r) r (r_keys now (full +:+ "*") r)).
  assert (∀ t, r_get t (conn fullKey) r' =
    if bool_decide (is_Some (r_get now fullKey r)) then None else r_get t (conn fullKey) r) as Hget.
  { intros t. unfold r'. rewrite get_del_many. rewrite (bool_decide_ext _ (is_Some (r_get now fullKey r))); [done|].
    rewrite keys_glob by done. split; [by intros []|]. split; [|done].
    unfold fullKey, full, buildKey. case_match; rewrite <-?str_app_assoc; apply startsWith_app. }
  exists r'. split; [|split; [done|]].
  - unfold delByPrefix, delPattern, swallow, try_catch, command, bind, suspend. cbn. fold full.
    by destruct (r_keys now (full +:+ "*") r).
  - intros Hnone. unfold cs_get, rs_get, swallow, try_catch, command, bind, suspend. cbn. fold fullKey.
    rewrite Hget. by rewrite bool_decide_false by (rewrite Hnone; apply is_Some_None).
Qed.
End cached_calls.

Module CacheWitnesses.
Import Redis.Sample.

Fixpoint unstar (s : string) : string :=
  match s with
  | "" => ""
  | String c s' => match s' with "" => "" | _ => String c (unstar s') end
  end.

#[export] Instance sample_keys V : RedisKeys V (strings V) := {
  r_keys t pattern r :=
    filter (λ k, startsWith k (unstar pattern) = true ∧ is_Some (r_get t k r)) (fst <$> r);
}.

Lemma unstar_app p : unstar (p +:+ "*") = p.
Proof.
  induction p as [|c p IH]; [done|]. change (unstar (String c (p +:+ "*")) = String c p).
  cbn [unstar]. rewrite IH. by destruct p.
Qed.

#[export] Instance sample_keys_laws V : RedisKeysLaws V (strings V).
Proof.
  split. intros t p k r _. cbn [r_keys sample_keys]. rewrite unstar_app, list_elem_of_filter. split; [tauto|].
  intros Hk. split; [done|]. destruct Hk as [_ [v Hv]]. cbn in Hv.
  destruct (alist_get k r) as [[v' e]|] eqn:Hk; [|done]. apply alist_get_in in Hk.
  by apply (list_elem_of_fmap_2 fst _ (k, (v', e))).
Qed.

Definition is_zero (v : Z) : bool := v =? 0.
Definition price_key := buildKey "niffy" "test" "price" None.
Definition lockKey := conn "niffy:test:" ("lock:" +:+ price_key).

(** Another client takes the lock before this one asks for it. *)
Definition busy : cworld (strings Z) :=
  CWorld [] 0 [Interfere 1 id false; Interfere 2 (r_setex 2 lockKey 1 30) false] 0.
Definition always_seven (_ : nat) : result string Z := Ok 7.
Definition flaky (n : nat) : result string Z := match n with O => Throw "timeout" | _ => Ok 7 end.

Lemma busy_sound : sound "niffy:test:" is_zero (eq 7) price_key busy.
Proof.
  split; [intros t v _ Hv; by vm_compute in Hv|].
  constructor; [split; [cbn; lia|done]|]. constructor; [|constructor].
  split; [cbn; lia|]. intros t0 r Hs t v Ht. unfold others.
  rewrite get_setex_ne by (intros Heq; by vm_compute in Heq). by apply Hs.
Qed.

Lemma wrap_correct_witness :
  let '(res, w') := wrap "niffy:test:" 1 is_zero "niffy" "test" always_seven "price" 10 None busy in
  (calls w' = O ∧ ∃ v, res = Ok v ∧ 7 = v) ∨ (calls w' = 1%nat ∧ res = Ok 7).
Proof.
  refine (wrap_correct "niffy:test:" 1 is_zero "niffy" "test" (eq 7) always_seven "price" 10 None busy _ busy_sound).
  intros n v [= <-]. reflexivity.
Defined.

Lemma singleFlight_correct_witness :
  let '(res, w') := withSingleFlightLock "niffy:test:" 1 is_zero flaky price_key 10 busy in
  (calls w' = O ∧ ∃ v, res = Ok v ∧ 7 = v) ∨
  (calls w' = 1%nat ∧ res = Throw (Failed "timeout")) ∨
  (calls w' = 2%nat ∧ (∃ e, flaky 0%nat = Throw e) ∧ res = Ok 7).
Proof.
  refine (singleFlight_correct "niffy:test:" 1 is_zero (eq 7) flaky price_key 10 busy _ busy_sound).
  intros [|n] v; cbn; [intros [=]|by intros [= <-]].
Defined.

Lemma singleFlight_reruns_witness :
  fst (withSingleFlightLock "niffy:test:" 1 is_zero flaky "price" 10 (undisturbed ([] : strings Z) 0)) = Ok 7.
Proof.
  pose proof (singleFlight_reruns "niffy:test:" 1 is_zero flaky "price" 10 ([] : strings Z) 0 "timeout" eq_refl eq_refl) as Hr.
  destruct (withSingleFlightLock _ _ _ _ _ _ _) as [res w']. exact (proj1 Hr).
Defined.

Lemma wrap_caches_witness :
  ∃ r1, wrap "niffy:test:" 1 is_zero "niffy" "test" always_seven "price" 10 None (undisturbed ([] : strings Z) 0) =
          (Ok 7, CWorld r1 0 [] 1) ∧
        wrap "niffy:test:" 1 is_zero "niffy" "test" flaky "price" 10 None (undisturbed r1 9999) =
          (Ok 7, undisturbed r1 9999).
Proof.
  destruct (wrap_caches "niffy:test:" 1 is_zero "niffy" "test" always_seven "price" 10 None ([] : strings Z) 0 7)
    as (r1 & H1 & _ & H2); [reflexivity..|].
  exists r1. split; [exact H1|]. apply (H2 9999 flaky). lia.
Defined.

Lemma buildKey_tenants_witness :
  buildKey "niffy" "test" "quotes" (Some "acme") ≠ buildKey "niffy" "test" "quotes" (Some "globex").
Proof.
  intros Heq. by apply (buildKey_tenants "niffy" "test" "acme" "globex" "quotes" "quotes") in Heq as [? _].
Defined.

(** One cached quote; it is served after its invalidation. *)
Definition quoted : strings Z := [("niffy:test:niffy:test:quote:7", (42, 60000))].

Lemma delByPrefix_misses_witness :
  ∃ r', delByPrefix (E:=string) "niffy:test:" "niffy" "test" "quote:" None (undisturbed quoted 0) =
          (Ok tt, undisturbed r' 0) ∧
        fst (cs_get (E:=string) "niffy:test:" is_zero "niffy" "test" "quote:7" None (undisturbed r' 0)) = Ok (Some 42).
Proof.
  destruct (delByPrefix_misses (E:=string) "niffy:test:" 1 is_zero "niffy" "test" "quote:" "7" None quoted 0)
    as (r' & H1 & _ & H3); [reflexivity|].
  exists r'. split; [exact H1|]. exact (H3 eq_refl).
Defined.
End CacheWitnesses.
