(* ===== verification/Locks.v ===== *)
(** * Distributed locks

    The indexer's lock (backend/src/indexer/indexer.worker.ts), released only
    by the token that took it, and the cache lock of
    backend/src/cache/redis.service.ts, released by whoever held it last.
    Several instances run the same protocol on one Redis: a step relation
    interleaves their acquisitions and releases with the passing of time,
    rejected commands and the other clients.  The indexer's lock excludes a
    second holder for as long as a lock lives; the cache lock does not. *)

From stdpp Require Import base relations list strings pretty sorting.
From Stdlib Require Import ZArith Lia.
From S2P Require Import Prelude JsText Redis Cache.

Open Scope string_scope.
Open Scope Z_scope.

(** ** SET with a time to live in milliseconds *)

Class RedisPx (V R : Type) `{RedisString V R} := {
  r_setpx : Z → string → V → Z → R → R;
}.
Class RedisPxLaws (V R : Type) `{RedisPx V R} : Prop := {
  get_setpx : ∀ t t' k (v : V) ms (r : R), t ≤ t' →
    r_get t' k (r_setpx t k v ms r) = if decide (t' < t + ms) then Some v else None;
  get_setpx_ne : ∀ t t' k k' (v : V) ms (r : R), k ≠ k' →
    r_get t' k' (r_setpx t k v ms r) = r_get t' k' r;
}.

(** ** The indexer worker *)

Section worker.
Context {R E : Type} `{RedisPx string R}.
Abbreviation MC A := (M (cworld R) (failure E) A).

(** Models [LOCK_KEY] (backend/src/indexer/indexer.worker.ts:7-7). *)
Definition LOCK_KEY : string := "lock:indexer:tick".
(** Models [LOCK_TTL_MS] (backend/src/indexer/indexer.worker.ts:8-8). *)
Definition LOCK_TTL_MS : Z := 30000.

(** SET k v PX ms NX *)
Definition set_px_nx (k v : string) (ms : Z) (t : Z) (r : R) : bool * R :=
  match r_get t k r with
  | Some _ => (false, r)
  | None => (true, r_setpx t k v ms r)
  end.

(** The Lua script, run atomically by Redis.
    Models [RELEASE_SCRIPT] (backend/src/indexer/indexer.worker.ts:12-18). *)
Definition release_script (k token : string) (t : Z) (r : R) : bool * R :=
  if bool_decide (r_get t k r = Some token) then (true, r_del k r) else (false, r).

(** [redis] tells whether the client was created when the module started. *)
Variable redis : bool.

(** Models [IndexerWorker.acquireLock] (backend/src/indexer/indexer.worker.ts:75-84). *)
Definition acquire_tick (token : string) : MC bool :=
  if redis then try_catch (command (E:=E) (set_px_nx LOCK_KEY token LOCK_TTL_MS)) (λ _, ret true) else ret true.

(** Models [IndexerWorker.releaseLock] (backend/src/indexer/indexer.worker.ts:87-94). *)
Definition release_tick (token : string) : MC () :=
  if redis then
    try_catch (let* _ := command (E:=E) (release_script LOCK_KEY token) in ret tt) (λ _, ret tt)
  else ret tt.

(** [processNextBatch]: the outcome of the n-th batch, the number of events it processed. *)
Variable batch : nat → result E Z.

(** [do { ... } while (result.processed > 0)]: one unit of fuel per batch. *)
Fixpoint batch_loop (fuel : nat) : MC () :=
  match fuel with
  | O => throw OutOfFuel
  | S fuel' =>
      let* processed := run_loader batch in
      if 0 <? processed then batch_loop fuel' else ret tt
  end.

(** [run] with the instance's flag before and after.
    Models [IndexerWorker.run] (backend/src/indexer/indexer.worker.ts:46-72). *)
Definition run (fuel : nat) (token : string) (isProcessing : bool) : MC bool :=
  if isProcessing then ret isProcessing
  else
    let* acquired := acquire_tick token in
    if (acquired : bool) then
      do* finally (swallow (batch_loop fuel) tt) (release_tick token) in
      ret false
    else ret isProcessing.
End worker.

(** ** The protocol of several instances *)

Section protocol.
Context {R : Type} `{RedisString V R}.
(** The lock's key, its time to live, and the two operations of a token. *)
Variable (lockKey : string) (ttl : Z).
Variable acquire : string → M (cworld R) (failure ()) bool.
Variable release : string → M (cworld R) (failure ()) ().

(** An instance is idle or busy with a token; [since] is the moment Redis granted it the lock, absent when the
    instance went on without Redis. *)
Inductive phase := Idle | Busy (token : string) (since : option Z).
Record system := System { s_store : R; s_now : Z; s_inst : list phase }.

(** The store in which the next command of an instance runs. *)
Definition scene (s : system) (down : bool) : cworld R :=
  CWorld (s_store s) (s_now s) [Interfere 0 id down] 0.

Definition unused (tok : string) (s : system) : Prop := ∀ i since, s_inst s !! i ≠ Some (Busy tok since).

Inductive step (s : system) : system → Prop :=
  | step_acquire i tok down b w :
      s_inst s !! i = Some Idle → unused tok s → acquire tok (scene s down) = (Ok b, w) →
      step s (System (store w) (s_now s)
        (<[i := if (b : bool) then Busy tok (if (down : bool) then None else Some (s_now s)) else Idle]> (s_inst s)))
  | step_release i tok since down w :
      s_inst s !! i = Some (Busy tok since) → release tok (scene s down) = (Ok tt, w) →
      step s (System (store w) (s_now s) (<[i := Idle]> (s_inst s)))
  | step_tick d : 0 ≤ d → step s (System (s_store s) (s_now s + d) (s_inst s))
  | step_other (f : R → R) :
      (∀ t, r_get t lockKey (f (s_store s)) = r_get t lockKey (s_store s)) →
      step s (System (f (s_store s)) (s_now s) (s_inst s)).

(** [n] idle instances on any store. *)
Definition start (r : R) (now : Z) (n : nat) : system := System r now (replicate n Idle).

(** Instance [i] works under a lock that has not expired. *)
Definition holds (s : system) (i : nat) : Prop :=
  ∃ tok t0, s_inst s !! i = Some (Busy tok (Some t0)) ∧ s_now s < t0 + ttl.
End protocol.
Arguments system : clear implicits.

(** ** The indexer's lock excludes *)

Section worker_facts.
Context {R : Type} `{RedisStringLaws string R, !RedisPx string R, !RedisPxLaws string R}.

Abbreviation wstep :=
  (step LOCK_KEY (acquire_tick (R:=R) (E:=()) true) (release_tick (R:=R) (E:=()) true)).

(** The busy instances have different tokens, and Redis holds the token of every granted lock until it expires. *)
Record consistent (s : system R) : Prop := {
  tokens_distinct : ∀ i j tok a b, s_inst s !! i = Some (Busy tok a) → s_inst s !! j = Some (Busy tok b) → i = j;
  lock_held : ∀ i tok t0, s_inst s !! i = Some (Busy tok (Some t0)) →
    ∀ t, s_now s ≤ t < t0 + LOCK_TTL_MS → r_get t LOCK_KEY (s_store s) = Some tok;
}.

Lemma start_consistent r now n : consistent (start r now n).
Proof.
  split; cbn.
  - intros i j tok a b [? _]%lookup_replicate. done.
  - intros i tok t0 [? _]%lookup_replicate. done.
Qed.

Lemma acquire_cases tok (s : system R) down b w :
  acquire_tick (E:=()) true tok (scene s down) = (Ok b, w) →
  (down = true ∧ b = true ∧ store w = s_store s) ∨
  (down = false ∧ b = false ∧ store w = s_store s) ∨
  (down = false ∧ b = true ∧ r_get (s_now s) LOCK_KEY (s_store s) = None ∧
   store w = r_setpx (s_now s) LOCK_KEY tok LOCK_TTL_MS (s_store s)).
Proof.
  unfold acquire_tick, try_catch, command, bind, suspend, set_px_nx, scene. cbn. rewrite Z.add_0_r.
  destruct down; [intros [= <- <-]; by left|]. cbn.
  destruct (r_get (s_now s) LOCK_KEY (s_store s)) eqn:Hg; intros [= <- <-]; [by right; left|by right; right].
Qed.

Lemma release_cases tok (s : system R) down w :
  release_tick (E:=()) true tok (scene s down) = (Ok tt, w) →
  store w = s_store s ∨
  (r_get (s_now s) LOCK_KEY (s_store s) = Some tok ∧ store w = r_del LOCK_KEY (s_store s)).
Proof.
  unfold release_tick, try_catch, command, bind, suspend, release_script, scene. cbn. rewrite Z.add_0_r.
  destruct down; [intros [= <-]; by left|]. cbn. case_bool_decide; intros [= <-]; [by right|by left].
Qed.

(** An entry of the list of instances after instance [i] changed phase. *)
Lemma phase_change (l : list phase) i j p q :
  <[i := p]> l !! j = Some q → (j = i ∧ q = p) ∨ (j ≠ i ∧ l !! j = Some q).
Proof.
  intros Hl. apply list_lookup_insert_Some in Hl as [(-> & -> & _)|[? ?]]; [by left|by right].
Qed.

Lemma tokens_after_acquire s i tok p :
  consistent s → unused tok s → (∀ tok' a, p = Busy tok' a → tok' = tok) →
  ∀ j k tok' a b, <[i := p]> (s_inst s) !! j = Some (Busy tok' a) →
    <[i := p]> (s_inst s) !! k = Some (Busy tok' b) → j = k.
Proof.
  intros Hs Hu Hp j k tok' a b Hj Hk.
  apply phase_change in Hj as [[-> Hj]|[Hj1 Hj]]; apply phase_change in Hk as [[-> Hk]|[Hk1 Hk]]; auto.
  - rewrite (Hp _ _ (eq_sym Hj)) in Hk. by apply Hu in Hk.
  - rewrite (Hp _ _ (eq_sym Hk)) in Hj. by apply Hu in Hj.
  - by eapply tokens_distinct.
Qed.

Lemma tokens_after_release s i :
  consistent s → ∀ j k tok a b, <[i := Idle]> (s_inst s) !! j = Some (Busy tok a) →
    <[i := Idle]> (s_inst s) !! k = Some (Busy tok b) → j = k.
Proof.
  intros Hs j k tok a b Hj Hk.
  apply phase_change in Hj as [[_ ?]|[_ Hj]]; [done|]. apply phase_change in Hk as [[_ ?]|[_ Hk]]; [done|].
  by eapply tokens_distinct.
Qed.

Lemma step_consistent s s' : consistent s → wstep s s' → consistent s'.
Proof.
  intros Hs Hstep. destruct Hstep as [i tok down b w Hi Hu Ha|i tok since down w Hi Hr|d Hd|f Hf].
  - split; cbn -[insert].
    { apply (tokens_after_acquire s i tok); [done..|]. intros tok' a. destruct b; congruence. }
    intros j tok' t0 Hj t Ht. apply phase_change in Hj as [[-> Hj]|[Hne Hj]].
    + destruct b; [|done]. destruct (acquire_cases _ _ _ _ _ Ha) as [(-> & _)|[(_ & ? & _)|(-> & _ & _ & ->)]]; [done..|].
      injection Hj as -> ->. rewrite get_setpx by lia. by rewrite decide_True by lia.
    + pose proof (lock_held s Hs _ _ _ Hj) as Hheld.
      destruct (acquire_cases _ _ _ _ _ Ha) as [(_ & _ & ->)|[(_ & _ & ->)|(_ & _ & Hnone & _)]]; [by apply Hheld..|].
      rewrite Hheld in Hnone by lia. done.
  - split; cbn -[insert]; [by apply tokens_after_release|].
    intros j tok' t0 Hj t Ht. apply phase_change in Hj as [[_ ?]|[Hne Hj]]; [done|].
    pose proof (lock_held s Hs _ _ _ Hj) as Hheld.
    destruct (release_cases _ _ _ _ Hr) as [->|[Htok _]]; [by apply Hheld|].
    rewrite Hheld in Htok by lia. injection Htok as ->. destruct Hne. by eapply tokens_distinct.
  - split; cbn; [by apply tokens_distinct|]. intros j tok t0 Hj t Ht. eapply lock_held; [done..|]. lia.
  - split; cbn; [by apply tokens_distinct|]. intros j tok t0 Hj t Ht. rewrite Hf. by eapply lock_held.
Qed.

(** C3: Mutual exclusion of the indexer instances.  In every state reached from idle instances by any
    interleaving of acquisitions, releases, rejected commands, other clients and passing time, at most one
    instance works under a live lock.  So when two instances index at the same time, one of them has worked for
    longer than the lock's thirty seconds, or started because Redis rejected its acquisition. *)
Theorem tick_lock_excludes r now n s i j :
  rtc wstep (start r now n) s →
  holds LOCK_TTL_MS s i → holds LOCK_TTL_MS s j → i = j.
Proof.
  intros Hr (tok1 & t1 & Hi & Ht1) (tok2 & t2 & Hj & Ht2).
  assert (consistent s) as Hs.
  { revert Hr. generalize (start_consistent r now n). generalize (start r now n).
    intros s0 Hs0 Hr. induction Hr; eauto using step_consistent. }
  pose proof (lock_held s Hs _ _ _ Hi (s_now s)) as H1. pose proof (lock_held s Hs _ _ _ Hj (s_now s)) as H2.
  rewrite (H1 (conj (Z.le_refl _) Ht1)) in H2. specialize (H2 (conj (Z.le_refl _) Ht2)). injection H2 as ->.
  by eapply tokens_distinct.
Qed.

Lemma suspend_calls {E} (w : cworld R) :
  ∃ d w', suspend (E:=E) w = (Ok d, w') ∧ calls w' = calls w.
Proof. unfold suspend. destruct w as [r t [|i rest] c]; eauto. Qed.

Lemma command_calls {E A} (f : Z → R → A * R) (w : cworld R) : calls (command (E:=E) f w).2 = calls w.
Proof.
  unfold command, bind. destruct (suspend_calls (E:=E) w) as (d & w1 & -> & <-). destruct d; [done|].
  by destruct (f (clock w1) (store w1)).
Qed.

Lemma acquire_calls redis tok (w : cworld R) :
  ∃ b w', acquire_tick (E:=()) redis tok w = (Ok b, w') ∧ calls w' = calls w.
Proof.
  unfold acquire_tick, try_catch. destruct redis; [|eauto].
  pose proof (command_calls (E:=()) (set_px_nx LOCK_KEY tok LOCK_TTL_MS) w) as Hc.
  destruct (command _ w) as [[b|e] w1]; eauto.
Qed.

Lemma release_calls redis tok (w : cworld R) : calls (release_tick (E:=()) redis tok w).2 = calls w.
Proof.
  unfold release_tick, try_catch, bind. destruct redis; [|done].
  pose proof (command_calls (E:=()) (release_script LOCK_KEY tok) w) as Hc.
  by destruct (command _ w) as [[b|e] w1].
Qed.

Lemma batch_loop_ends (batch : nat → result () Z) (k fuel : nat) w :
  (∀ n, (n < k)%nat → ∃ p, batch (calls w + n)%nat = Ok p ∧ 0 < p) →
  (∀ p, batch (calls w + k)%nat = Ok p → p ≤ 0) → (k < fuel)%nat →
  (batch_loop (R:=R) batch fuel w).1 ≠ Throw OutOfFuel ∧
  calls (batch_loop (R:=R) batch fuel w).2 = (calls w + S k)%nat.
Proof.
  revert fuel w. induction k as [|k IH]; intros [|fuel] w Hlt Hk Hf; try lia; cbn [batch_loop];
    unfold run_loader, bind; destruct (suspend_calls (E:=()) w) as (d & w1 & -> & Hc).
  - rewrite Nat.add_0_r in Hk. rewrite Hc. destruct (batch (calls w)) as [p|e] eqn:Hb; cbn; [|split; [done|lia]].
    rewrite (proj2 (Z.ltb_ge 0 p)) by (by apply Hk). cbn. split; [done|lia].
  - destruct (Hlt O) as (p & Hb & Hp); [lia|]. rewrite Nat.add_0_r in Hb. rewrite Hc, Hb. cbn.
    rewrite (proj2 (Z.ltb_lt 0 p)) by done.
    match goal with |- context [batch_loop batch fuel ?w2] => destruct (IH fuel w2) as [H1 H2] end; cbn; [| |lia|].
    + intros n Hn. destruct (Hlt (S n)) as (q & Hq & ?); [lia|]. exists q. split; [|done].
      by replace (S (calls w + n))%nat with (calls w + S n)%nat by lia.
    + intros q Hq. apply Hk. by replace (calls w + S k)%nat with (S (calls w + k))%nat by lia.
    + split; [done|]. rewrite H2. cbn. lia.
Qed.

(** A tick ends and cleans up after itself.  Let the k-th batch be the first that processes nothing or
    fails.  Then a tick that is not already running and obtains the lock runs exactly k + 1 batches, whatever
    happens on Redis meanwhile, reports no error, and leaves the instance ready for the next tick; a tick that
    does not obtain the lock, or finds one running, runs no batch. *)
Theorem run_terminates redis (batch : nat → result () Z) (k fuel : nat) token flag w :
  (∀ n, (n < k)%nat → ∃ p, batch (calls w + n)%nat = Ok p ∧ 0 < p) →
  (∀ p, batch (calls w + k)%nat = Ok p → p ≤ 0) → (k < fuel)%nat →
  ∃ w', run (R:=R) redis batch fuel token flag w = (Ok flag, w') ∧
    calls w' = (if negb flag && match acquire_tick (R:=R) (E:=()) redis token w with (Ok true, _) => true | _ => false end
                then calls w + S k else calls w)%nat.
Proof.
  intros Hlt Hk Hf. unfold run. destruct flag; [by exists w|].
  destruct (acquire_calls redis token w) as (b & w1 & Ha & Hc1). rewrite (bind_ok _ _ _ _ _ Ha), Ha.
  destruct b; [|exists w1; by rewrite Hc1].
  rewrite <-Hc1 in Hlt, Hk. destruct (batch_loop_ends batch k fuel w1 Hlt Hk Hf) as [Hno Hcalls].
  unfold bind, finally, swallow, try_catch.
  destruct (batch_loop batch fuel w1) as [[[]|e] w2]; cbn in Hcalls |- *; eexists; (split; [done|]);
    rewrite release_calls; cbn; lia.
Qed.
End worker_facts.

(** ** The cache lock does not *)

Section cache_lock.
Context {V R : Type} `{RedisStringLaws V R}.
Variables (keyPrefix : string) (lock_value : V) (key : string).
Abbreviation L := (conn keyPrefix ("lock:" +:+ key)).
Abbreviation acquire := (λ _ : string, acquireLock (R:=R) (E:=()) keyPrefix lock_value key 30).
Abbreviation release := (λ _ : string, releaseLock (R:=R) (E:=()) keyPrefix key).
Abbreviation cstep := (step L acquire release).

Lemma cache_acquire_step (s : system R) i tok :
  s_inst s !! i = Some Idle → unused tok s → r_get (s_now s) L (s_store s) = None →
  cstep s (System (r_setex (s_now s) L lock_value 30 (s_store s)) (s_now s)
             (<[i := Busy tok (Some (s_now s))]> (s_inst s))).
Proof.
  intros Hi Hu Hn.
  apply (step_acquire _ _ _ s i tok false true
    (CWorld (r_setex (s_now s) L lock_value 30 (s_store s)) (s_now s) [] 0)); [done..|].
  unfold acquireLock, swallow, try_catch, command, bind, suspend, set_nx, scene. cbn. rewrite Z.add_0_r. by rewrite Hn.
Qed.

Lemma cache_release_step (s : system R) i tok since :
  s_inst s !! i = Some (Busy tok since) →
  cstep s (System (r_del L (s_store s)) (s_now s) (<[i := Idle]> (s_inst s))).
Proof.
  intros Hi. apply (step_release _ _ _ s i tok since false (CWorld (r_del L (s_store s)) (s_now s) [] 0)); [done|].
  unfold releaseLock, swallow, try_catch, command, bind, suspend, scene. cbn. by rewrite Z.add_0_r.
Qed.

(** The lock of the cache service does not exclude.  Releasing deletes the key without asking whose
    lock it is: a holder that is slower than its thirty seconds deletes the lock of the next one when it
    finishes, and a third caller then computes together with the second, both under locks that have just been
    granted. *)
Theorem cache_lock_shared (r : R) now :
  r_get now L r = None →
  ∃ s, rtc cstep (start r now 3) s ∧ holds 30000 s 1 ∧ holds 30000 s 2.
Proof.
  intros Hn. eexists. split; [|split].
  - eapply rtc_l; [apply (cache_acquire_step (start r now 3) 0 "a"); [done| |done]|].
    { intros i since Hi. by apply lookup_replicate in Hi as [? _]. }
    eapply rtc_l; [apply (step_tick _ _ _ _ 30000); lia|]. cbn.
    eapply rtc_l; [apply (cache_acquire_step _ 1 "b"); [done| |]|].
    { intros [|[|[|i]]] since Hi; done. }
    { cbn. rewrite get_setex by lia. by rewrite decide_False by lia. }
    eapply rtc_l; [by apply (cache_release_step _ 0 "a" (Some now))|].
    eapply rtc_l; [apply (cache_acquire_step _ 2 "c"); [done| |]|apply rtc_refl].
    { intros [|[|[|i]]] since Hi; done. }
    { cbn. apply get_del. }
  - exists "b", (now + 30000). split; [done|]. cbn. lia.
  - exists "c", (now + 30000). split; [done|]. cbn. lia.
Qed.
End cache_lock.

Module LockWitnesses.
Import Redis.Sample.

#[export] Instance sample_px V : RedisPx V (strings V) := {
  r_setpx t k v ms r := alist_put k (v, t + ms) r;
}.
#[export] Instance sample_px_laws V : RedisPxLaws V (strings V).
Proof.
  split; cbn [r_get r_setpx sample_px sample_string].
  - intros t t' k v ms r _. rewrite alist_get_put, decide_True by done. case_test; case_decide; bool_prop; done || lia.
  - intros t t' k k' v ms r Hne. by rewrite alist_get_put, decide_False.
Qed.

(** Two instances; the first takes the lock, the second is refused. *)
Definition locked : system (strings string) :=
  System [(LOCK_KEY, ("tok0", 30000))] 0 [Busy "tok0" (Some 0); Idle].

Lemma tick_lock_excludes_witness : holds LOCK_TTL_MS locked 0 ∧ ∀ j, holds LOCK_TTL_MS locked j → 0%nat = j.
Proof.
  assert (holds LOCK_TTL_MS locked 0) as H0 by (exists "tok0", 0; split; reflexivity).
  split; [exact H0|]. intros j Hj.
  refine (tick_lock_excludes ([] : strings string) 0 2 locked 0 j _ H0 Hj).
  eapply rtc_l; [|apply rtc_refl].
  apply (step_acquire LOCK_KEY _ _ (start [] 0 2) 0 "tok0" false true (CWorld [(LOCK_KEY, ("tok0", 30000))] 0 [] 0));
    [reflexivity| |reflexivity].
  intros [|[|i]] since Hi; discriminate Hi.
Defined.

(** Two batches with events, then an empty one. *)
Definition three_batches (n : nat) : result () Z := match n with 0%nat => Ok 5 | 1%nat => Ok 2 | _ => Ok 0 end.

Lemma run_terminates_witness :
  ∃ w', run true three_batches 10 "tok" false (undisturbed ([] : strings string) 0) = (Ok false, w') ∧ calls w' = 3%nat.
Proof.
  destruct (run_terminates true three_batches 2 10 "tok" false (undisturbed ([] : strings string) 0)) as (w' & H1 & H2).
  - intros [|[|n]] Hn; cbn; [exists 5; split; [reflexivity|lia]|exists 2; split; [reflexivity|lia]|lia].
  - intros p [= <-]. lia.
  - lia.
  - exists w'. split; [exact H1|exact H2].
Defined.

Lemma cache_lock_shared_witness :
  ∃ s : system (strings Z), holds 30000 s 1 ∧ holds 30000 s 2.
Proof.
  destruct (cache_lock_shared (R:=strings Z) "niffy:test:" 1 "price" [] 0) as (s & _ & H1 & H2); [reflexivity|].
  exists s. split; assumption.
Defined.
End LockWitnesses.
