(* ===== verification/Idempotency.v ===== *)
(** * Idempotent requests

    backend/src/common/middleware/idempotency.middleware.ts over the entries
    of backend/src/redis/cache.ts: a request with an Idempotency-Key is
    answered from the stored response when there is one, and its own response
    is stored otherwise, without the response waiting for it.  The handler behind
    the middleware is a parameter; the worlds of Cache interleave the other
    requests. *)

From stdpp Require Import base list strings pretty sorting.
From Stdlib Require Import ZArith Lia Ascii.
From S2P Require Import Prelude JsText Redis Pagination Cache.

Open Scope string_scope.
Open Scope Z_scope.

(** Models [IdempotencyEntry] (backend/src/redis/cache.ts:179-184). *)
Record IdempotencyEntry (B : Type) := Entry { status : Z; body : B; version : Z }.
Arguments Entry {B} _ _ _.
Arguments status {B} _.
Arguments body {B} _.
Arguments version {B} _.

(** The request as the middleware sees it. *)
Record IdemRequest := { method : string; path : string; idempotency_key : option string; user_sub : option string }.

Record IdemResponse (B : Type) := Response { r_status : Z; r_body : B; replayed : bool }.
Arguments Response {B} _ _ _.
Arguments r_status {B} _.
Arguments r_body {B} _.
Arguments replayed {B} _.

(** What comes of the handler: a response written with [res.json] (by the exception filter too, when the
    handler throws), one written otherwise, or none. *)
Inductive Handled (B : Type) := Json (st : Z) (b : B) | Raw (st : Z) (b : B) | Silent.
Arguments Json {B} _ _.
Arguments Raw {B} _ _.
Arguments Silent {B}.

Definition reply {B} (h : Handled B) : option (IdemResponse B) :=
  match h with Json st b | Raw st b => Some (Response st b false) | Silent => None end.

(** A request as the middleware leaves it: its response, if any, and the entry that is being stored meanwhile. *)
Record Served (B : Type) := Serve { response : option (IdemResponse B); storing : option (string * IdempotencyEntry B) }.
Arguments Serve {B} _ _.
Arguments response {B} _.
Arguments storing {B} _.

Inductive IdemError := BadRequest.

(** Models [IDEMPOTENCY_VERSION] (backend/src/common/middleware/idempotency.middleware.ts:53-53). *)
Definition IDEMPOTENCY_VERSION : Z := 1.
(** Models [TTL.IDEMPOTENCY_SECONDS] (backend/src/redis/config.ts:98-98). *)
Definition IDEMPOTENCY_SECONDS : Z := 24 * 60 * 60.

(** ** The key format *)

Definition hex_ci (c : ascii) : bool :=
  let n := Z.of_nat (nat_of_ascii c) in
  ((48 <=? n) && (n <=? 57)) || ((97 <=? n) && (n <=? 102)) || ((65 <=? n) && (n <=? 70)).
Definition dash (c : ascii) : bool := bool_decide (c = "-"%char).
Definition four (c : ascii) : bool := bool_decide (c = "4"%char).
Definition variant_ci (c : ascii) : bool := existsb (Ascii.eqb c) ["8"; "9"; "a"; "b"; "A"; "B"]%char.

(** Models [UUID_V4_RE] (backend/src/common/middleware/idempotency.middleware.ts:56-56). *)
Definition UUID_V4_RE : list (ascii → bool) :=
  (replicate 8 hex_ci ++ [dash] ++ replicate 4 hex_ci ++ [dash; four] ++ replicate 3 hex_ci ++
   [dash; variant_ci] ++ replicate 3 hex_ci ++ [dash] ++ replicate 12 hex_ci)%list.

(** ** The middleware *)

Section idempotency.
Context {B R : Type} `{RedisString (IdempotencyEntry B) R}.
Variable keyPrefix : string.
(** SHA-256 in hexadecimal. *)
Variable sha256 : string → string.
Abbreviation MI A := (M (cworld R) (failure IdemError) A).

(** An entry is an object, never null. *)
Definition no_null (_ : IdempotencyEntry B) : bool := false.

(** Models [setIdempotencyEntry] (backend/src/redis/cache.ts:190-196). *)
Definition setIdempotencyEntry (key : string) (entry : IdempotencyEntry B) (ttlSeconds : Z) : MI () :=
  cacheSet keyPrefix ("idempotency:" +:+ key) entry ttlSeconds.

(** Models [getIdempotencyEntry] (backend/src/redis/cache.ts:202-209). *)
Definition getIdempotencyEntry (key : string) (currentVersion : Z) : MI (option (IdempotencyEntry B)) :=
  let* entry := cacheGet keyPrefix no_null ("idempotency:" +:+ key) in
  match entry with
  | Some e => ret (if version e =? currentVersion then Some e else None)
  | None => ret None
  end.

(** The text that is hashed. *)
Definition scope_text (req : IdemRequest) (rawKey : string) : string :=
  method req +:+ ":" +:+ path req +:+ ":" +:+ rawKey +:+ ":" +:+ default "anon" (user_sub req).

(** The n-th run of the handler. *)
Variable handler : nat → Handled B.

Definition next : MI (Handled B) := run_loader (λ n, Ok (handler n)).

(** The wrapped [res.json]: what it starts to store, without waiting. *)
Definition to_store (cacheKey : string) (h : Handled B) : option (string * IdempotencyEntry B) :=
  match h with
  | Json st b => if st <? 500 then Some (cacheKey, Entry st b IDEMPOTENCY_VERSION) else None
  | _ => None
  end.

(** Models [IdempotencyMiddleware.use] (backend/src/common/middleware/idempotency.middleware.ts:62-116). *)
Definition use (req : IdemRequest) : MI (Served B) :=
  match truthy (idempotency_key req) with
  | None => let* h := next in ret (Serve (reply h) None)
  | Some rawKey =>
      if matches_classes UUID_V4_RE rawKey then
        let cacheKey := sha256 (scope_text req rawKey) in
        let* cached := swallow (getIdempotencyEntry cacheKey IDEMPOTENCY_VERSION) None in
        match cached with
        | Some e => ret (Serve (Some (Response (status e) (body e) true)) None)
        | None => let* h := next in ret (Serve (reply h) (to_store cacheKey h))
        end
      else throw (Failed BadRequest)
  end.

(** The store that [use] started, when it reaches Redis. *)
Definition settle (s : Served B) : MI () :=
  match storing s with
  | Some (key, entry) => setIdempotencyEntry key entry IDEMPOTENCY_SECONDS
  | None => ret tt
  end.

(** A request and its store. *)
Definition request (req : IdemRequest) : MI (option (IdemResponse B)) :=
  let* s := use req in
  do* settle s in
  ret (response s).
End idempotency.

Section idempotency_facts.
Context {B R : Type} `{RedisStringLaws (IdempotencyEntry B) R}.
Variables (keyPrefix : string) (sha256 : string → string).
Abbreviation use := (use (R:=R) keyPrefix sha256).
Abbreviation request := (request (R:=R) keyPrefix sha256).
Abbreviation key_text req rawKey := (sha256 (scope_text req rawKey)).
Abbreviation entry_key req rawKey := (conn keyPrefix ("idempotency:" +:+ sha256 (scope_text req rawKey))).

(** A request the middleware acts on. *)
Definition keyed (req : IdemRequest) (rawKey : string) : Prop :=
  idempotency_key req = Some rawKey ∧ matches_classes UUID_V4_RE rawKey = true.

Lemma keyed_truthy req rawKey : keyed req rawKey → truthy (idempotency_key req) = Some rawKey.
Proof. intros [-> Hm]. by destruct rawKey. Qed.

(** The next suspension point: whether the command is rejected, and the world it finds. *)
Definition arrival (w : cworld R) : bool * cworld R :=
  match pending w with
  | [] => (false, w)
  | i :: rest => (rejected i, CWorld (others i (store w)) (clock w + elapsed i) rest (calls w))
  end.

Lemma suspend_arrival {E} (w : cworld R) : suspend (E:=E) w = (Ok (arrival w).1, (arrival w).2).
Proof. unfold suspend, arrival. by destruct (pending w). Qed.
Lemma arrival_calls w : calls (arrival w).2 = calls w.
Proof. unfold arrival. by destruct (pending w). Qed.

(** What the look-up of a key finds. *)
Definition found (key : string) (w : cworld R) : option (IdempotencyEntry B) :=
  let '(down, w1) := arrival w in
  if (down : bool) then None
  else match r_get (clock w1) (conn keyPrefix ("idempotency:" +:+ key)) (store w1) with
       | Some e => if version e =? IDEMPOTENCY_VERSION then Some e else None
       | None => None
       end.

Lemma lookup_exact key w :
  swallow (getIdempotencyEntry (R:=R) keyPrefix key IDEMPOTENCY_VERSION) None w = (Ok (found key w), (arrival w).2).
Proof.
  unfold getIdempotencyEntry, cacheGet, found, swallow, try_catch, command, bind. rewrite suspend_arrival.
  destruct (arrival w) as [[] w1]; cbn; [done|]. destruct w1 as [r t p c]. by destruct (r_get _ _ _).
Qed.

Lemma next_exact handler w :
  ∃ w', next (B:=B) (R:=R) handler w = (Ok (handler (calls w)), w') ∧ calls w' = S (calls w).
Proof.
  unfold next, run_loader, bind. rewrite suspend_arrival. cbn. rewrite arrival_calls. eexists. split; [done|]. done.
Qed.

(** *** Runs on an undisturbed server *)

Lemma request_hit handler req rawKey (r : R) now e n :
  keyed req rawKey → r_get now (entry_key req rawKey) r = Some e → version e = IDEMPOTENCY_VERSION →
  request handler req (CWorld r now [] n) = (Ok (Some (Response (status e) (body e) true)), CWorld r now [] n).
Proof.
  intros Hk He Hv. unfold Idempotency.request, Idempotency.use. rewrite (keyed_truthy _ _ Hk), (proj2 Hk).
  unfold bind. rewrite lookup_exact. unfold found, arrival. cbn. by rewrite He, Hv.
Qed.

(** The store once a request has settled. *)
Definition settled (req : IdemRequest) (rawKey : string) (now : Z) (h : Handled B) (r : R) : R :=
  match to_store (key_text req rawKey) h with
  | Some (_, e) => r_setex now (entry_key req rawKey) e IDEMPOTENCY_SECONDS r
  | None => r
  end.

Lemma request_miss handler req rawKey (r : R) now n :
  keyed req rawKey → r_get now (entry_key req rawKey) r = None →
  request handler req (CWorld r now [] n) =
    (Ok (reply (handler n)), CWorld (settled req rawKey now (handler n) r) now [] (S n)).
Proof.
  intros Hk He. unfold Idempotency.request, Idempotency.use, settled. rewrite (keyed_truthy _ _ Hk), (proj2 Hk).
  unfold bind. rewrite lookup_exact. unfold found, arrival. cbn. rewrite He. cbn.
  unfold settle, to_store, setIdempotencyEntry, cacheSet, swallow, try_catch, command, bind, suspend.
  destruct (handler n) as [st b|st b|]; cbn; [|done..]. by destruct (st <? 500).
Qed.

(** A retried request is not executed twice.  After a request with a valid key was answered as JSON with a
    status below 500 and the answer has been stored, every repetition within twenty-four hours gets the same
    status and body, marked as replayed, and the handler does not run, whatever it would answer now.  After any
    other outcome nothing is stored and the repetition is executed. *)
Theorem retry_replays handler handler' req rawKey (r : R) now t :
  keyed req rawKey → r_get now (entry_key req rawKey) r = None →
  now ≤ t < now + 86400000 →
  ∃ r1, request handler req (undisturbed r now) = (Ok (reply (handler O)), CWorld r1 now [] 1) ∧
    match to_store (key_text req rawKey) (handler O) with
    | Some (_, e) => request handler' req (undisturbed r1 t) =
           (Ok (Some (Response (status e) (body e) true)), undisturbed r1 t)
    | None => ∃ r2, request handler' req (undisturbed r1 t) = (Ok (reply (handler' O)), CWorld r2 t [] 1)
    end.
Proof.
  intros Hk He Ht. eexists. split; [by apply request_miss|]. unfold settled, to_store.
  destruct (handler O) as [st b|st b|]; [destruct (st <? 500)|..].
  2-4: eexists; apply request_miss; [done|]; eapply get_expired; [|exact He]; lia.
  refine (request_hit handler' req rawKey _ t (Entry _ _ IDEMPOTENCY_VERSION) O Hk _ eq_refl).
  rewrite get_setex by lia. by rewrite decide_True by (unfold IDEMPOTENCY_SECONDS; lia).
Qed.

(** *** Every interleaving and failure *)

(** C34: What a keyed request gets, under every interleaving and every Redis failure.  Without a key the
    handler runs once, its response passes and nothing is stored.  A malformed key is refused and the handler
    does not run.  With a valid key the response is decided by what Redis holds when the look-up reaches it: an
    entry of the current version is replayed, its very status and body, and the handler does not run;
    otherwise, a failed look-up included, the handler runs exactly once, its response passes whether or not
    the store succeeds, and exactly a JSON response below 500 is given to the store.  And on an undisturbed
    server, a first request and, within twenty-four hours of its store, a second one under the key have the
    same status and body, and the second does not run its handler. *)
Theorem use_outcomes handler req (w : cworld R) :
  match truthy (idempotency_key req) with
  | None => ∃ w', use handler req w = (Ok (Serve (reply (handler (calls w))) None), w') ∧ calls w' = S (calls w)
  | Some rawKey =>
      if matches_classes UUID_V4_RE rawKey then
        match found (key_text req rawKey) w with
        | Some e => use handler req w = (Ok (Serve (Some (Response (status e) (body e) true)) None), (arrival w).2) ∧
            calls (arrival w).2 = calls w
        | None => ∃ w', calls w' = S (calls w) ∧ use handler req w =
            (Ok (Serve (reply (handler (calls w))) (to_store (key_text req rawKey) (handler (calls w)))), w')
        end
      else use handler req w = (Throw (Failed BadRequest), w)
  end ∧
  ∀ handler' rawKey (r : R) now t st b, keyed req rawKey → r_get now (entry_key req rawKey) r = None →
    now ≤ t < now + 86400000 → handler O = Json st b → st < 500 →
    ∃ r1, request handler req (undisturbed r now) = (Ok (Some (Response st b false)), CWorld r1 now [] 1) ∧
      request handler' req (undisturbed r1 t) = (Ok (Some (Response st b true)), undisturbed r1 t).
Proof.
  split.
  - unfold Idempotency.use. destruct (truthy (idempotency_key req)) as [rawKey|].
    2: { destruct (next_exact handler w) as (w' & Hn & Hc). exists w'. by rewrite (bind_ok _ _ _ _ _ Hn). }
    destruct (matches_classes UUID_V4_RE rawKey); [|done].
    rewrite (bind_ok _ _ _ _ _ (lookup_exact _ w)). destruct (found _ w) as [e|]; [split; [done|apply arrival_calls]|].
    destruct (next_exact handler (arrival w).2) as (w' & Hn & Hc). rewrite arrival_calls in Hn, Hc.
    exists w'. by rewrite (bind_ok _ _ _ _ _ Hn).
  - intros handler' rawKey r now t st b Hk He Ht Hh Hst. unfold undisturbed. eexists.
    split; [rewrite (request_miss handler req rawKey) by done; by rewrite Hh|].
    unfold settled, to_store. rewrite ?Hh. rewrite (proj2 (Z.ltb_lt _ _) Hst).
    refine (request_hit handler' req rawKey _ t (Entry _ _ IDEMPOTENCY_VERSION) O Hk _ eq_refl).
    rewrite get_setex by lia. by rewrite decide_True by (unfold IDEMPOTENCY_SECONDS; lia).
Qed.

(** Simultaneous duplicates are both executed.  The key is looked up before the handler runs and stored
    after it: a second request with the same key that arrives while the first one's handler is running finds
    nothing, and the handler runs for both although Redis answers every command. *)
Theorem concurrent_duplicates handler handler' req rawKey (r : R) now t :
  keyed req rawKey → r_get now (entry_key req rawKey) r = None → now ≤ t →
  let second (r : R) := request handler' req (undisturbed r t) in
  let w := CWorld r now [Interfere 0 id false; Interfere 0 (λ r, store (second r).2) false] 0 in
  (∃ w', use handler req w = (Ok (Serve (reply (handler O)) (to_store (key_text req rawKey) (handler O))), w') ∧ calls w' = 1%nat) ∧
  (∃ w', second r = (Ok (reply (handler' O)), w') ∧ calls w' = 1%nat).
Proof.
  intros Hk He Ht second w. split.
  - unfold Idempotency.use, w. rewrite (keyed_truthy _ _ Hk), (proj2 Hk). rewrite (bind_ok _ _ _ _ _ (lookup_exact _ _)).
    unfold found, arrival. cbn [pending rejected others elapsed store clock]. rewrite Z.add_0_r. unfold id at 1. rewrite He.
    unfold next, run_loader, bind, suspend. cbn. eauto.
  - eexists. split; [apply request_miss; [done|]|done]. by eapply get_expired.
Qed.

(** *** Scopes *)

Lemma classes_avoid c cs s :
  matches_classes cs s = true → Forall (λ p : ascii → bool, p c = false) cs → avoids c s = true.
Proof.
  revert s. induction cs as [|p cs IH]; intros [|a s] Hm Hf; try done.
  cbn in Hm. bool_prop. apply Forall_cons in Hf as [Hp Hf]. unfold avoids in *. cbn.
  rewrite bool_decide_false by (intros ->; congruence). by apply IH.
Qed.

Lemma uuid_no_colon k : matches_classes UUID_V4_RE k = true → avoids ":"%char k = true.
Proof. intros Hm. apply (classes_avoid _ _ _ Hm). by repeat constructor. Qed.

(** No response crosses scopes.  When SHA-256 does not collide, two keyed requests share an entry only if
    they have the same method, path, key and subject (methods and subjects contain no colon; a subject other
    than the anonymous one is not called anon). *)
Theorem scopes_disjoint req1 req2 k1 k2 :
  (∀ a b, sha256 a = sha256 b → a = b) → keyed req1 k1 → keyed req2 k2 →
  avoids ":"%char (method req1) = true → avoids ":"%char (method req2) = true →
  avoids ":"%char (default "anon" (user_sub req1)) = true →
  avoids ":"%char (default "anon" (user_sub req2)) = true →
  entry_key req1 k1 = entry_key req2 k2 →
  method req1 = method req2 ∧ path req1 = path req2 ∧ k1 = k2 ∧
  default "anon" (user_sub req1) = default "anon" (user_sub req2).
Proof.
  intros Hinj [_ Hu1] [_ Hu2] Hm1 Hm2 Hs1 Hs2 Heq.
  apply (inj (String.app keyPrefix)), (inj (String.app "idempotency:")), Hinj in Heq. unfold scope_text in Heq.
  apply (sep_free_split ":" _ _ _ _ Hm1 Hm2) in Heq as [-> Heq].
  rewrite <-!str_app_assoc in Heq. rewrite !(str_app_assoc _ ":" (default "anon" _)) in Heq.
  apply (f_equal (cut_last ":"%char)) in Heq.
  change (":" +:+ default "anon" (user_sub req1)) with (String ":" (default "anon" (user_sub req1))) in Heq.
  change (":" +:+ default "anon" (user_sub req2)) with (String ":" (default "anon" (user_sub req2))) in Heq.
  rewrite !cut_last_app in Heq by done. injection Heq as Heq ->.
  rewrite !str_app_assoc in Heq. apply (f_equal (cut_last ":"%char)) in Heq.
  change (":" +:+ k1) with (String ":" k1) in Heq. change (":" +:+ k2) with (String ":" k2) in Heq.
  rewrite !cut_last_app in Heq by (by apply uuid_no_colon). by injection Heq as -> ->.
Qed.
End idempotency_facts.

Module IdempotencyWitnesses.
Import Redis.Sample.

Definition uuid := "3f2504e0-4f89-41d3-9a0c-0305e82c3301".
Definition submit : IdemRequest :=
  {| method := "POST"; path := "/tx/submit"; idempotency_key := Some uuid; user_sub := Some "GALICE" |}.
Definition submit_bob : IdemRequest :=
  {| method := "POST"; path := "/tx/submit"; idempotency_key := Some uuid; user_sub := Some "GBOB" |}.
(** A collision-free stand-in for the digest. *)
Definition plain (s : string) : string := s.
Definition accepted (n : nat) : Handled string := Json 201 "accepted".
Definition conflict (n : nat) : Handled string := Json 409 "already submitted".
Definition none_stored : strings (IdempotencyEntry string) := [].

Lemma submit_keyed : keyed submit uuid.
Proof. split; reflexivity. Qed.

Lemma retry_replays_witness :
  ∃ r1, request "" plain accepted submit (undisturbed none_stored 0) =
          (Ok (Some (Response 201 "accepted" false)), CWorld r1 0 [] 1) ∧
        request "" plain conflict submit (undisturbed r1 86399999) =
          (Ok (Some (Response 201 "accepted" true)), undisturbed r1 86399999).
Proof.
  destruct (retry_replays "" plain accepted conflict submit uuid none_stored 0 86399999) as (r1 & H1 & H2).
  - exact submit_keyed.
  - reflexivity.
  - lia.
  - exists r1. split; [exact H1|exact H2].
Defined.

Lemma use_outcomes_witness :
  ∃ r1, request "" plain accepted submit (undisturbed none_stored 0) =
          (Ok (Some (Response 201 "accepted" false)), CWorld r1 0 [] 1) ∧
        request "" plain conflict submit (undisturbed r1 86399999) =
          (Ok (Some (Response 201 "accepted" true)), undisturbed r1 86399999).
Proof.
  apply (proj2 (use_outcomes "" plain accepted submit (undisturbed none_stored 0)) conflict uuid none_stored 0 86399999 201 "accepted").
  - exact submit_keyed.
  - reflexivity.
  - lia.
  - reflexivity.
  - lia.
Defined.

Lemma concurrent_duplicates_witness :
  ∃ w', request "" plain accepted submit (undisturbed none_stored 5) = (Ok (Some (Response 201 "accepted" false)), w') ∧
    calls w' = 1%nat.
Proof.
  refine (proj2 (concurrent_duplicates "" plain accepted accepted submit uuid none_stored 0 5 _ _ _)).
  - exact submit_keyed.
  - reflexivity.
  - lia.
Defined.

Lemma scopes_disjoint_witness :
  conn "" ("idempotency:" +:+ plain (scope_text submit uuid)) ≠
  conn "" ("idempotency:" +:+ plain (scope_text submit_bob uuid)).
Proof.
  intros Heq.
  destruct (scopes_disjoint "" plain submit submit_bob uuid uuid) as (_ & _ & _ & Hs);
    [intros a b Hab; exact Hab|split; reflexivity..|reflexivity|reflexivity|reflexivity|reflexivity|exact Heq|].
  discriminate Hs.
Defined.
End IdempotencyWitnesses.
