(* ===== verification/Sse.v ===== *)
(** * Server-sent events

    backend/src/services/connection-registry.ts and event-stream.ts: the
    registry of open streams with its cap per user, the delivery of published
    events to the streams that match, and resumption from the buffer after a
    reconnect.  Maps are gmap, the insertion-ordered Set of a user's
    connections is a list without duplicates. *)

From stdpp Require Import base relations gmap sets list strings.
From Stdlib Require Import ZArith Lia Ascii.
From S2P Require Import Prelude JsText.

Open Scope string_scope.
Open Scope Z_scope.

(** ** Number.prototype.toString(36) *)

Definition digit36 (d : Z) : ascii :=
  ascii_of_nat (Z.to_nat (if d <? 10 then 48 + d else 87 + d)).
Definition value36 (c : ascii) : Z :=
  let n := Z.of_nat (nat_of_ascii c) in if n <? 58 then n - 48 else n - 87.

Fixpoint to36_aux (fuel : nat) (n : Z) (acc : string) : string :=
  match fuel with
  | O => acc
  | S fuel' =>
      let acc' := String (digit36 (n mod 36)) acc in
      if n / 36 =? 0 then acc' else to36_aux fuel' (n / 36) acc'
  end.
(** One unit of fuel per binary digit is enough. *)
Definition to36 (n : Z) : string := to36_aux (S (Z.to_nat (Z.log2 n))) n "".

Fixpoint val36 (acc : Z) (s : string) : Z :=
  match s with "" => acc | String c s' => val36 (acc * 36 + value36 c) s' end.

Lemma value_digit36 d : 0 ≤ d < 36 → value36 (digit36 d) = d.
Proof.
  intros Hd. unfold value36, digit36. destruct (d <? 10) eqn:Hlt; bool_prop;
    rewrite nat_ascii_embedding, Z2Nat.id by lia; case_test; bool_prop; lia.
Qed.

Lemma digit36_char d : 0 ≤ d < 36 → digit36 d ≠ "_"%char.
Proof.
  intros Hd Heq. apply (f_equal nat_of_ascii) in Heq. unfold digit36 in Heq.
  destruct (d <? 10) eqn:Hlt; bool_prop; rewrite nat_ascii_embedding in Heq by lia; change (nat_of_ascii "_") with 95%nat in Heq; lia.
Qed.

Lemma val36_to36_aux fuel n acc :
  0 ≤ n < 36 ^ Z.of_nat fuel → (0 < fuel)%nat → val36 0 (to36_aux fuel n acc) = val36 n acc.
Proof.
  revert n acc. induction fuel as [|fuel IH]; intros n acc Hn Hf; [lia|]. cbn [to36_aux].
  pose proof (Z.mod_pos_bound n 36). pose proof (Z.div_mod n 36).
  destruct (n / 36 =? 0) eqn:Hq; bool_prop.
  - cbn [val36]. rewrite value_digit36 by lia. f_equal. lia.
  - rewrite Nat2Z.inj_succ, Z.pow_succ_r in Hn by lia.
    assert (0 ≤ n / 36 < 36 ^ Z.of_nat fuel) by (split; [apply Z.div_pos; lia|apply Z.div_lt_upper_bound; lia]).
    rewrite IH; [|done|destruct fuel; [cbn in *; lia|lia]].
    cbn [val36]. rewrite value_digit36 by lia. f_equal. lia.
Qed.

Lemma to36_inj n m : 0 ≤ n → 0 ≤ m → to36 n = to36 m → n = m.
Proof.
  assert (∀ k, 0 ≤ k → val36 0 (to36 k) = k) as Hval.
  { intros k Hk. unfold to36. rewrite val36_to36_aux; [done| |lia]. split; [done|].
    rewrite Nat2Z.inj_succ, Z2Nat.id by apply Z.log2_nonneg.
    destruct (decide (k = 0)) as [->|Hne]; [done|].
    apply Z.lt_le_trans with (2 ^ Z.succ (Z.log2 k)); [apply Z.log2_spec; lia|].
    apply Z.pow_le_mono_l. lia. }
  intros Hn Hm Heq. rewrite <-(Hval n), <-(Hval m) by done. by rewrite Heq.
Qed.

Lemma to36_aux_avoids fuel n acc :
  0 ≤ n → avoids "_"%char acc = true → avoids "_"%char (to36_aux fuel n acc) = true.
Proof.
  revert n acc. induction fuel as [|fuel IH]; intros n acc Hn Ha; [done|]. cbn [to36_aux].
  pose proof (Z.mod_pos_bound n 36).
  assert (avoids "_"%char (String (digit36 (n mod 36)) acc) = true) as Ha'.
  { unfold avoids in *. cbn. rewrite bool_decide_false by (apply digit36_char; lia). done. }
  case_test; [done|]. apply IH; [apply Z.div_pos; lia|done].
Qed.

(** ** The connection registry *)

(** Models [SseConnection] (backend/src/services/connection-registry.ts:11-23). *)
Record SseConnection := {
  id : string; userId : string; claimIds : list string; ownAddress : bool;
  lastEventId : option string; createdAt : Z }.

(** The two maps and the sequence number of the module; [ended] lists the responses closed so far. *)
Record Registry := {
  byId : gmap string SseConnection;
  byUser : gmap string (list string);
  connectionSeq : Z;
  ended : list string }.

Definition empty_registry : Registry := {| byId := ∅; byUser := ∅; connectionSeq := 0; ended := [] |}.

(** [Set.prototype.add] and [delete]. *)
Definition set_add (x : string) (s : list string) : list string :=
  if bool_decide (x ∈ s) then s else (s ++ [x])%list.
Definition set_delete (x : string) (s : list string) : list string := filter (λ y, y ≠ x) s.

(** Models [nextConnectionId] (backend/src/services/connection-registry.ts:37-40). *)
Definition nextConnectionId (now seq : Z) : string := "sse_" +:+ to36 now +:+ "_" +:+ to36 seq.

(** Models [countForUser] (backend/src/services/connection-registry.ts:56-58). *)
Definition countForUser (st : Registry) (u : string) : Z := Z.of_nat (length (default [] (byUser st !! u))).

Section registry.
Variable maxConnectionsPerUser : Z.

(** Models [ConnectionRegistry.register] (backend/src/services/connection-registry.ts:69-107). *)
Definition register (now : Z) (u : string) (claims : list string) (own : bool) (last : option string)
    (st : Registry) : option SseConnection * Registry :=
  if maxConnectionsPerUser <=? countForUser st u then (None, st)
  else
    let seq := connectionSeq st + 1 in
    let connection := {| id := nextConnectionId now seq; userId := u; claimIds := foldl (λ s c, set_add c s) [] claims;
                         ownAddress := own; lastEventId := last; createdAt := now |} in
    let userConnections := default [] (byUser st !! u) in
    (Some connection,
     {| byId := <[id connection := connection]> (byId st);
        byUser := <[u := set_add (id connection) userConnections]> (byUser st);
        connectionSeq := seq; ended := ended st |}).

(** Models [ConnectionRegistry.forUser] (backend/src/services/connection-registry.ts:115-124). *)
Definition forUser (st : Registry) (u : string) : list SseConnection :=
  match byUser st !! u with
  | None => []
  | Some ids => omap (λ i, byId st !! i) ids
  end.

(** Models [ConnectionRegistry.unregister] (backend/src/services/connection-registry.ts:130-144). *)
Definition unregister (connectionId : string) (st : Registry) : Registry :=
  match byId st !! connectionId with
  | None => st
  | Some connection =>
      {| byId := delete connectionId (byId st);
         byUser := match byUser st !! userId connection with
                   | None => byUser st
                   | Some s =>
                       let s' := set_delete connectionId s in
                       if bool_decide (length s' = O) then delete (userId connection) (byUser st)
                       else <[userId connection := s']> (byUser st)
                   end;
         connectionSeq := connectionSeq st; ended := ended st |}
  end.

(** [writes] tells whether writing to the connection's response succeeds.
    Models [ConnectionRegistry.heartbeat] (backend/src/services/connection-registry.ts:147-155). *)
Definition heartbeat (writes : bool) (connectionId : string) (st : Registry) : Registry :=
  match byId st !! connectionId with
  | None => st
  | Some _ => if writes then st else unregister connectionId st
  end.

(** One turn of the loop of [closeAll]. *)
Definition close_one (st : Registry) (connectionId : string) : Registry :=
  let connection := byId st !! connectionId in
  let st' := unregister connectionId st in
  match connection with
  | None => st'
  | Some c => {| byId := byId st'; byUser := byUser st'; connectionSeq := connectionSeq st';
                 ended := (ended st' ++ [id c])%list |}
  end.

(** The order of the keys is that of the map; only the set of closed responses matters.
    Models [ConnectionRegistry.closeAll] (backend/src/services/connection-registry.ts:158-168). *)
Definition closeAll (st : Registry) : Registry := foldl close_one st (map_to_list (byId st)).*1.

(** *** Well-formedness *)

Record well_formed (st : Registry) : Prop := {
  wf_users : ∀ u ids, byUser st !! u = Some ids →
    ids ≠ [] ∧ NoDup ids ∧ Z.of_nat (length ids) ≤ Z.max 0 maxConnectionsPerUser ∧
    ∀ i, i ∈ ids → ∃ c, byId st !! i = Some c ∧ userId c = u;
  wf_ids : ∀ i c, byId st !! i = Some c →
    id c = i ∧ i ∈ default [] (byUser st !! userId c);
  wf_seq : 0 ≤ connectionSeq st ∧ ∀ i c, byId st !! i = Some c →
    ∃ t n, i = nextConnectionId t n ∧ 0 ≤ t ∧ 0 ≤ n ≤ connectionSeq st;
}.

(** The operations, as the events that trigger them. *)
Inductive reg_op :=
  | Register (now : Z) (u : string) (claims : list string) (own : bool) (last : option string)
  | Unregister (i : string)
  | Heartbeat (writes : bool) (i : string)
  | CloseAll.

Definition apply_op (st : Registry) (o : reg_op) : Registry :=
  match o with
  | Register now u claims own last => snd (register now u claims own last st)
  | Unregister i => unregister i st
  | Heartbeat writes i => heartbeat writes i st
  | CloseAll => closeAll st
  end.

(** Clocks show a time after 1970. *)
Definition timely (o : reg_op) : Prop := match o with Register now _ _ _ _ => 0 ≤ now | _ => True end.

Lemma nextConnectionId_seq t t' n n' :
  0 ≤ t → 0 ≤ t' → 0 ≤ n → 0 ≤ n' → nextConnectionId t n = nextConnectionId t' n' → n = n'.
Proof.
  intros Ht Ht' Hn Hn' Heq%(inj (String.app "sse_")).
  apply (sep_free_split "_") in Heq as [_ Heq]; [|by apply to36_aux_avoids..]. by apply to36_inj.
Qed.

Lemma fresh_id st now : well_formed st → 0 ≤ now → byId st !! nextConnectionId now (connectionSeq st + 1) = None.
Proof.
  intros Hw Hnow. destruct (byId st !! _) as [c|] eqn:Hc; [|done]. exfalso.
  destruct (wf_seq st Hw) as [Hs Hall]. destruct (Hall _ _ Hc) as (t & n & Heq & Ht & Hn).
  apply nextConnectionId_seq in Heq; lia.
Qed.

Lemma fresh_not_listed st u i : well_formed st → byId st !! i = None → i ∉ default [] (byUser st !! u).
Proof.
  intros Hw Hi Hin. destruct (byUser st !! u) as [ids|] eqn:Hu; cbn in Hin; [|by apply elem_of_nil in Hin].
  destruct (wf_users st Hw u ids Hu) as (_ & _ & _ & Hall). destruct (Hall i Hin) as (c & Hc & _). congruence.
Qed.

Lemma empty_wf : well_formed empty_registry.
Proof. split; cbn; [done..|]. split; [lia|done]. Qed.

Lemma register_wf now u claims own last st :
  0 ≤ now → well_formed st → well_formed (snd (register now u claims own last st)).
Proof.
  intros Hnow Hw. unfold register. case_test; [done|]. bool_prop. cbn [snd].
  pose proof (fresh_id st now Hw Hnow) as Hfresh. set (i := nextConnectionId _ _) in *.
  pose proof (fresh_not_listed st u i Hw Hfresh) as Hnl.
  assert (set_add i (default [] (byUser st !! u)) = (default [] (byUser st !! u) ++ [i])%list) as Hadd.
  { unfold set_add. by rewrite bool_decide_false. }
  split; cbn -[insert set_add]; rewrite ?Hadd.
  - intros u' ids. rewrite lookup_insert_Some. intros [[<- <-]|[Hne Hu]].
    + split; [by destruct (default [] _)|]. split.
      { apply NoDup_app. split; [|split; [|apply NoDup_singleton]].
        - destruct (byUser st !! u) as [ids|] eqn:Hu; cbn; [|apply NoDup_nil_2]. by destruct (wf_users st Hw u ids Hu) as (_ & ? & _).
        - intros x Hx ->%list_elem_of_singleton. done. }
      split; [unfold countForUser in *; rewrite length_app; cbn; lia|].
      intros x [Hx|Hx]%elem_of_app; [|apply list_elem_of_singleton in Hx as ->; eexists; by rewrite lookup_insert_eq].
      destruct (byUser st !! u) as [ids|] eqn:Hu; cbn in Hx; [|by apply elem_of_nil in Hx].
      destruct (wf_users st Hw u ids Hu) as (_ & _ & _ & Hall). destruct (Hall x Hx) as (c & Hc & ?).
      exists c. split; [|done]. rewrite lookup_insert_ne by congruence. done.
    + destruct (wf_users st Hw u' ids Hu) as (? & ? & ? & Hall). split_and!; [done..|].
      intros x Hx. destruct (Hall x Hx) as (c & Hc & ?). exists c. split; [|done].
      rewrite lookup_insert_ne by congruence. done.
  - intros j c. rewrite lookup_insert_Some. intros [[<- <-]|[Hne Hc]].
    + split; [done|]. cbn -[insert]. rewrite lookup_insert_eq. cbn. apply elem_of_app. right. by apply list_elem_of_singleton.
    + destruct (wf_ids st Hw j c Hc) as [Hid Hin]. split; [done|].
      destruct (decide (userId c = u)) as [<-|Hne']; [rewrite lookup_insert_eq; cbn; apply elem_of_app; by left|].
      by rewrite lookup_insert_ne.
  - destruct (wf_seq st Hw) as [Hs Hall]. split; [lia|]. intros j c. rewrite lookup_insert_Some.
    intros [[<- <-]|[Hne Hc]]; [exists now, (connectionSeq st + 1); split_and!; done || lia|].
    destruct (Hall j c Hc) as (t & n & -> & ? & ?). exists t, n. split_and!; done || lia.
Qed.

Lemma unregister_wf i st : well_formed st → well_formed (unregister i st).
Proof.
  intros Hw. unfold unregister. destruct (byId st !! i) as [conn|] eqn:Hi; [|done].
  destruct (wf_ids st Hw i conn Hi) as [Hid Hin].
  destruct (byUser st !! userId conn) as [s|] eqn:Hu; cbn in Hin; [|by apply elem_of_nil in Hin].
  destruct (wf_users st Hw _ s Hu) as (Hne & Hnd & Hlen & Hall).
  set (users := if bool_decide _ then _ else _).
  assert (∀ u ids, users !! u = Some ids →
    (u = userId conn ∧ ids = set_delete i s ∧ ids ≠ []) ∨ (u ≠ userId conn ∧ byUser st !! u = Some ids)) as Husers.
  { intros u ids. unfold users. case_bool_decide as Hl; [rewrite lookup_delete_Some; naive_solver|].
    rewrite lookup_insert_Some. intros [[<- <-]|[? ?]]; [left|right; auto].
    split_and!; [done..|]. intros He. by rewrite He in Hl. }
  assert (∀ j u, j ≠ i → j ∈ default [] (byUser st !! u) → j ∈ default [] (users !! u)) as Hkeep.
  { intros j u Hj Hju. destruct (decide (u = userId conn)) as [->|Hne'].
    - rewrite Hu in Hju. cbn in Hju. assert (j ∈ set_delete i s) as Hj' by (by apply list_elem_of_filter).
      unfold users. case_bool_decide as Hl; [|by rewrite lookup_insert_eq].
      apply length_zero_iff_nil in Hl. rewrite Hl in Hj'. by apply elem_of_nil in Hj'.
    - unfold users. case_bool_decide; [by rewrite lookup_delete_ne|by rewrite lookup_insert_ne]. }
  split; cbn -[delete insert].
  - intros u ids Hids. destruct (Husers u ids Hids) as [(-> & -> & Hnn)|[Hneu Hu']].
    + split; [done|]. split; [by apply NoDup_filter|]. split.
      { pose proof (length_filter (λ y, y ≠ i) s). unfold set_delete. lia. }
      intros x [Hx Hxs]%list_elem_of_filter. destruct (Hall x Hxs) as (c & Hc & ?). exists c.
      split; [|done]. by rewrite lookup_delete_ne.
    + destruct (wf_users st Hw u ids Hu') as (? & ? & ? & Hall'). split_and!; [done..|].
      intros x Hx. destruct (Hall' x Hx) as (c & Hc & Huc). exists c. split; [|done].
      rewrite lookup_delete_ne; [done|]. intros <-. rewrite Hi in Hc. by simplify_eq.
  - intros j c [Hj Hc]%lookup_delete_Some. destruct (wf_ids st Hw j c Hc) as [? ?]. split; [done|]. by apply Hkeep.
  - destruct (wf_seq st Hw) as [Hs Hseq]. split; [done|]. intros j c [_ Hc]%lookup_delete_Some. eauto.
Qed.

Lemma ended_wf st l : well_formed st → well_formed {| byId := byId st; byUser := byUser st;
  connectionSeq := connectionSeq st; ended := l |}.
Proof. by intros []; split. Qed.

Lemma close_one_wf st i : well_formed st → well_formed (close_one st i).
Proof. intros Hw. unfold close_one. case_match; [by apply ended_wf, unregister_wf|by apply unregister_wf]. Qed.

Lemma close_one_byId st i : byId (close_one st i) = delete i (byId st).
Proof.
  unfold close_one, unregister. destruct (byId st !! i) as [c|] eqn:Hi; cbn; [done|]. by rewrite delete_id.
Qed.

Lemma close_one_ended st i :
  well_formed st → is_Some (byId st !! i) → ended (close_one st i) = (ended st ++ [i])%list.
Proof.
  intros Hw [c Hc]. unfold close_one. rewrite Hc. cbn. destruct (wf_ids st Hw i c Hc) as [-> _].
  unfold unregister. by rewrite Hc.
Qed.

Lemma close_fold_wf ks st : well_formed st → well_formed (foldl close_one st ks).
Proof. revert st. induction ks; cbn; auto using close_one_wf. Qed.

Lemma close_fold ks st :
  well_formed st → NoDup ks → (∀ k, k ∈ ks → is_Some (byId st !! k)) →
  (∀ i, byId (foldl close_one st ks) !! i = if bool_decide (i ∈ ks) then None else byId st !! i) ∧
  ended (foldl close_one st ks) = (ended st ++ ks)%list.
Proof.
  revert st. induction ks as [|k ks IH]; intros st Hw Hnd Hks; [by rewrite app_nil_r|].
  apply NoDup_cons in Hnd as [Hk Hnd].
  destruct (IH (close_one st k)) as [Hid He]; [by apply close_one_wf|done| |].
  { intros k' Hk'. rewrite close_one_byId, lookup_delete_ne by congruence. apply Hks. by right. }
  cbn [foldl]. split.
  - intros i. rewrite Hid, close_one_byId. destruct (decide (i = k)) as [->|Hne].
    + rewrite lookup_delete_eq. rewrite (bool_decide_true (k ∈ k :: ks)) by left. by case_bool_decide.
    + rewrite lookup_delete_ne by done. rewrite (bool_decide_ext (i ∈ k :: ks) (i ∈ ks)); [done|].
      rewrite elem_of_cons. naive_solver.
  - rewrite He, close_one_ended by (done || apply Hks; left). by rewrite <-app_assoc.
Qed.

Lemma closeAll_wf st : well_formed st → well_formed (closeAll st).
Proof. apply close_fold_wf. Qed.

Lemma closeAll_empties st :
  well_formed st → byId (closeAll st) = ∅ ∧ byUser (closeAll st) = ∅ ∧
    ended (closeAll st) = (ended st ++ (map_to_list (byId st)).*1)%list.
Proof.
  intros Hw. pose proof (closeAll_wf st Hw) as Hw'. unfold closeAll in *.
  destruct (close_fold (map_to_list (byId st)).*1 st Hw) as [Hid He]; [apply NoDup_fst_map_to_list| |].
  { intros k Hk. apply list_elem_of_fmap in Hk as ([k' c] & -> & Hk). apply elem_of_map_to_list in Hk. by exists c. }
  assert (byId (foldl close_one st (map_to_list (byId st)).*1) = ∅) as Hempty.
  { apply map_eq. intros i. rewrite Hid, lookup_empty. case_bool_decide as Hi; [done|].
    destruct (byId st !! i) as [c|] eqn:Hc; [|done]. destruct Hi. apply list_elem_of_fmap. exists (i, c).
    split; [done|]. by apply elem_of_map_to_list. }
  split; [done|]. split; [|done]. apply map_eq. intros u. rewrite lookup_empty.
  destruct (byUser _ !! u) as [ids|] eqn:Hu; [|done]. exfalso.
  destruct (wf_users _ Hw' u ids Hu) as (Hne & _ & _ & Hall). destruct ids as [|i ids]; [done|].
  destruct (Hall i) as (c & Hc & _); [by left|]. rewrite Hempty in Hc. done.
Qed.

Lemma apply_op_wf st o : timely o → well_formed st → well_formed (apply_op st o).
Proof.
  intros Ht Hw. destruct o as [now u claims own last|i|writes i|]; cbn.
  - by apply register_wf.
  - by apply unregister_wf.
  - unfold heartbeat. case_match; [|done]. destruct writes; [done|by apply unregister_wf].
  - by apply closeAll_wf.
Qed.

Lemma history_wf ops st : Forall timely ops → well_formed st → well_formed (foldl apply_op st ops).
Proof.
  revert st. induction ops as [|o ops IH]; intros st Ht Hw; [done|].
  apply Forall_cons in Ht as [Ho Ht]. apply IH; [done|by apply apply_op_wf].
Qed.

Lemma forUser_spec st u : well_formed st →
  Z.of_nat (length (forUser st u)) = countForUser st u ∧
  ∀ c, c ∈ forUser st u ↔ byId st !! id c = Some c ∧ userId c = u.
Proof.
  intros Hw. unfold forUser, countForUser. destruct (byUser st !! u) as [ids|] eqn:Hu; cbn.
  - destruct (wf_users st Hw u ids Hu) as (_ & _ & _ & Hall). split.
    + f_equal. clear Hu. induction ids as [|i ids IH]; [done|]. cbn.
      destruct (Hall i) as (c & Hc & _); [by left|]. rewrite Hc. cbn. rewrite IH; [done|].
      intros j Hj. apply Hall. by right.
    + intros c. rewrite list_elem_of_omap. split.
      * intros (i & Hi & Hc). destruct (Hall i Hi) as (c' & Hc' & Huc). rewrite Hc in Hc'. simplify_eq.
        destruct (wf_ids st Hw i c' Hc) as [-> _]. done.
      * intros [Hc Huc]. exists (id c). split; [|done]. destruct (wf_ids st Hw _ c Hc) as [_ Hin].
        by rewrite Huc, Hu in Hin.
  - split; [done|]. intros c. split; [by intros ?%elem_of_nil|]. intros [Hc Huc].
    destruct (wf_ids st Hw _ c Hc) as [_ Hin]. rewrite Huc, Hu in Hin. by apply elem_of_nil in Hin.
Qed.

(** C32: The registry stays well formed.  After any history of registrations, disconnections, failing
    heartbeats and shutdowns, the two maps describe the same connections: a user's set lists, without
    repetition, exactly that user's live connections, no user without a connection is kept, and no user holds
    more than the cap. *)
Theorem registry_well_formed ops :
  Forall timely ops →
  let st := foldl apply_op empty_registry ops in
  well_formed st ∧ ∀ u,
    countForUser st u ≤ Z.max 0 maxConnectionsPerUser ∧
    Z.of_nat (length (forUser st u)) = countForUser st u ∧
    (∀ c, c ∈ forUser st u ↔ byId st !! id c = Some c ∧ userId c = u).
Proof.
  intros Ht st. assert (well_formed st) as Hw by (apply history_wf; [done|apply empty_wf]).
  split; [done|]. intros u. split; [|by apply forUser_spec]. unfold countForUser.
  destruct (byUser st !! u) as [ids|] eqn:Hu; cbn; [|lia]. by destruct (wf_users st Hw u ids Hu) as (_ & _ & ? & _).
Qed.

Lemma set_delete_added i l : i ∉ l → set_delete i (l ++ [i])%list = l.
Proof.
  intros Hi. unfold set_delete. rewrite filter_app, (filter_all _ l).
  - rewrite filter_cons_False, filter_nil, app_nil_r; [done|]. naive_solver.
  - apply Forall_forall. intros x Hx ->. done.
Qed.

(** A registration takes one slot and its release gives it back.  In a well-formed registry a request is
    refused exactly when the user has reached the cap, and then nothing changes.  Otherwise the connection is
    live under a new id, the user has one more and every other user as many as before; unregistering it
    restores both maps, and unregistering it again changes nothing. *)
Theorem register_unregister now u claims own last st :
  0 ≤ now → well_formed st →
  match register now u claims own last st with
  | (None, st') => st' = st ∧ maxConnectionsPerUser ≤ countForUser st u
  | (Some c, st') =>
      countForUser st u < maxConnectionsPerUser ∧ userId c = u ∧
      byId st !! id c = None ∧ byId st' !! id c = Some c ∧
      countForUser st' u = countForUser st u + 1 ∧
      (∀ u', u' ≠ u → countForUser st' u' = countForUser st u') ∧
      byId (unregister (id c) st') = byId st ∧ byUser (unregister (id c) st') = byUser st ∧
      unregister (id c) (unregister (id c) st') = unregister (id c) st'
  end.
Proof.
  intros Hnow Hw. unfold register. destruct (_ <=? _) eqn:Hcap; bool_prop; [done|].
  pose proof (fresh_id st now Hw Hnow) as Hfresh. set (i := nextConnectionId _ _) in *.
  pose proof (fresh_not_listed st u i Hw Hfresh) as Hnl. cbn [id userId].
  assert (set_add i (default [] (byUser st !! u)) = (default [] (byUser st !! u) ++ [i])%list) as ->.
  { unfold set_add. by rewrite bool_decide_false. }
  unfold countForUser, unregister. cbn -[insert delete]. rewrite !lookup_insert_eq. cbn -[insert delete].
  split_and!; [done..| | | | |].
  - rewrite length_app. cbn. lia.
  - intros u' Hne. by rewrite lookup_insert_ne.
  - by apply delete_insert_id.
  - rewrite set_delete_added by done.
    destruct (byUser st !! u) as [ids|] eqn:Hu; cbn -[insert delete].
    + destruct (wf_users st Hw u ids Hu) as (Hne & _). rewrite bool_decide_false by (by destruct ids).
      rewrite insert_insert_eq. by apply insert_id.
    + by apply delete_insert_id.
  - by rewrite lookup_delete_eq.
Qed.
End registry.

(** ** The event stream *)

Module Stream.

(** Models [StreamEvent] (backend/src/services/event-stream.ts:34-47). *)
Record StreamEvent := {
  ev_id : string; ev_type : string; ev_ts : Z; ev_claimIds : list string; ev_addresses : list string; ev_data : string }.

(** Models [Connection] (backend/src/services/event-stream.ts:96-102). *)
Record Connection := { c_id : string; address : string; c_claimIds : list string }.

(** What is written to a response. *)
Inductive frame := FConnected | FEvent (e : StreamEvent) | FLimit | FEnd | FStatus (code : Z).

(** The module's maps and flag; [subscription] is whether Redis delivers messages to this process; [resuming]
    are the handlers suspended in an await, [listening] the connections with a close listener, [gone] the
    sockets that closed; [out] what was written, by connection. *)
Record stream := {
  connections : gmap string Connection;
  users : gmap string (list string);
  subscribed : bool;
  subscription : bool;
  resuming : gset string;
  listening : gset string;
  gone : gset string;
  out : list (string * frame) }.

Definition with_maps (cs : gmap string Connection) (us : gmap string (list string)) (st : stream) : stream :=
  {| connections := cs; users := us; subscribed := subscribed st; subscription := subscription st;
     resuming := resuming st; listening := listening st; gone := gone st; out := out st |}.
Definition write (fs : list (string * frame)) (st : stream) : stream :=
  {| connections := connections st; users := users st; subscribed := subscribed st; subscription := subscription st;
     resuming := resuming st; listening := listening st; gone := gone st; out := (out st ++ fs)%list |}.

(** Models [MAX_CONNECTIONS_PER_USER] (backend/src/services/event-stream.ts:54-54). *)
Definition MAX_CONNECTIONS_PER_USER : Z := 5.

(** Models [registerConnection] (backend/src/services/event-stream.ts:107-114). *)
Definition registerConnection (conn : Connection) (st : stream) : bool * stream :=
  let userConns := default [] (users st !! address conn) in
  if MAX_CONNECTIONS_PER_USER <=? Z.of_nat (length userConns) then (false, st)
  else (true, with_maps (<[c_id conn := conn]> (connections st))
                (<[address conn := set_add (c_id conn) userConns]> (users st)) st).

(** Models [removeConnection] (backend/src/services/event-stream.ts:116-126). *)
Definition removeConnection (i : string) (st : stream) : stream :=
  match connections st !! i with
  | None => st
  | Some conn =>
      with_maps (delete i (connections st))
        (match users st !! address conn with
         | None => users st
         | Some s =>
             let s' := set_delete i s in
             if bool_decide (length s' = O) then delete (address conn) (users st)
             else <[address conn := s']> (users st)
         end) st
  end.

(** Models [matches] (backend/src/services/event-stream.ts:132-135). *)
Definition matches (conn : Connection) (event : StreamEvent) : bool :=
  bool_decide (address conn ∈ ev_addresses event) ||
  existsb (λ i, bool_decide (i ∈ c_claimIds conn)) (ev_claimIds event).

(** The callback of the subscription; [message] is absent when the text is not JSON.
    Models [ensureSubscribed callback] (backend/src/services/event-stream.ts:174-184). *)
Definition on_message (message : option StreamEvent) (st : stream) : stream :=
  match message with
  | None => st
  | Some event =>
      write ((λ kc, (kc.1, FEvent event)) <$> filter (λ kc, matches kc.2 event = true) (map_to_list (connections st))) st
  end.

(** [ok] is whether the SUBSCRIBE command succeeds.
    Models [ensureSubscribed] (backend/src/services/event-stream.ts:170-185). *)
Definition ensureSubscribed (ok : bool) (st : stream) : bool * stream :=
  if subscribed st then (true, st)
  else (ok, {| connections := connections st; users := users st; subscribed := true; subscription := ok;
               resuming := resuming st; listening := listening st; gone := gone st; out := out st |}).

(** The loop over the buffered entries, with the flag [found]; an entry without a payload or with an
    unparsable one is absent.
    Models [replayFromBuffer] (backend/src/services/event-stream.ts:191-210). *)
Fixpoint replay_loop (conn : Connection) (last : string) (found : bool) (entries : list (option StreamEvent))
    : list StreamEvent :=
  match entries with
  | [] => []
  | None :: rest => replay_loop conn last found rest
  | Some event :: rest =>
      if found then
        if matches conn event then event :: replay_loop conn last found rest else replay_loop conn last found rest
      else replay_loop conn last (bool_decide (ev_id event = last)) rest
  end.

Record StreamTokenPayload := { tok_sub : string; tok_scope : string }.

(** [verify] is the verdict of the JWT library on the token.
    Models [authenticate] (backend/src/services/event-stream.ts:221-231). *)
Definition authenticate (verify : string → option StreamTokenPayload) (token : option string) : option string :=
  match truthy token with
  | None => None
  | Some t =>
      match verify t with
      | None => None
      | Some p => if bool_decide (tok_scope p ≠ "events:stream") || bool_decide (tok_sub p = "")
                  then None else Some (tok_sub p)
      end
  end.

Definition parse_claims (rawClaims : option string) : list string :=
  match rawClaims with
  | None => []
  | Some raw => foldl (λ s x, if bool_decide (trim x = "") then s else set_add (trim x) s) [] (split ","%char raw)
  end.

(** The handler up to its first await: answers, or a registered connection.  [now] and [rnd] are the texts
    of the clock and of the random suffix.
    Models [eventsStreamHandler] (backend/src/services/event-stream.ts:237-285). *)
Definition handler_open (auth : option string) (rawClaims : option string) (now rnd : string) (st : stream)
    : option Connection * stream :=
  match auth with
  | None => (None, write [("", FStatus 401)] st)
  | Some sub =>
      let conn := {| c_id := sub +:+ ":" +:+ now +:+ ":" +:+ rnd; address := sub; c_claimIds := parse_claims rawClaims |} in
      let st1 := write [(c_id conn, FStatus 200); (c_id conn, FConnected)] st in
      match registerConnection conn st1 with
      | (false, st2) => (None, write [(c_id conn, FLimit); (c_id conn, FEnd)] st2)
      | (true, st2) =>
          (Some conn, {| connections := connections st2; users := users st2; subscribed := subscribed st2;
             subscription := subscription st2; resuming := {[c_id conn]} ∪ resuming st2;
             listening := listening st2; gone := gone st2; out := out st2 |})
      end
  end.

(** The rest of the handler: subscription, replay, and at the end the close listener.  A failing subscription
    rejects before the listener is attached; a failing replay is only logged ([buffer] absent). *)
Definition handler_resume (i : string) (subOk : bool) (last : option string)
    (buffer : option (list (option StreamEvent))) (st : stream) : stream :=
  match connections st !! i with
  | None => st
  | Some conn =>
      let '(ok, st1) := ensureSubscribed subOk st in
      let frames := match truthy last, buffer with
                    | Some l, Some es => (λ e, (i, FEvent e)) <$> replay_loop conn l false es
                    | _, _ => []
                    end in
      let st2 := write (if (ok : bool) then frames else []) st1 in
      {| connections := connections st2; users := users st2; subscribed := subscribed st2;
         subscription := subscription st2; resuming := resuming st2 ∖ {[i]};
         listening := if ok then {[i]} ∪ listening st2 else listening st2; gone := gone st2; out := out st2 |}
  end.

(** The close event of a socket: it happens once, and runs the listener that is attached at that moment. *)
Definition socket_close (i : string) (st : stream) : stream :=
  let st1 := if bool_decide (i ∈ listening st) then removeConnection i st else st in
  {| connections := connections st1; users := users st1; subscribed := subscribed st1;
     subscription := subscription st1; resuming := resuming st1; listening := listening st1;
     gone := {[i]} ∪ gone st1; out := out st1 |}.

Inductive step (st : stream) : stream → Prop :=
  | step_open auth raw now rnd : step st (snd (handler_open auth raw now rnd st))
  | step_resume i ok last buffer : i ∈ resuming st → step st (handler_resume i ok last buffer st)
  | step_close i : i ∉ gone st → step st (socket_close i st)
  | step_message m : subscription st = true → step st (on_message m st).

(** *** The two registries are the same *)

Definition to_sse (now : Z) (c : Connection) : SseConnection :=
  {| id := c_id c; userId := address c; claimIds := c_claimIds c; ownAddress := false; lastEventId := None;
     createdAt := now |}.

(** The stream's maps as a registry. *)
Definition view (now seq : Z) (st : stream) : Registry :=
  {| byId := to_sse now <$> connections st; byUser := users st; connectionSeq := seq; ended := [] |}.

(** C33: The registry inside event-stream.ts and the class of connection-registry.ts do the same.  Removing a
    connection is [unregister]; registering one under the id the class would have chosen is [register] with a
    cap of five: refused in the same states, and with the same live ids and the same sets of every user
    afterwards. *)
Theorem registries_agree now seq conn i st :
  c_id conn = nextConnectionId now (seq + 1) →
  view now seq (removeConnection i st) = unregister i (view now seq st) ∧
  match registerConnection conn st, register 5 now (address conn) (c_claimIds conn) false None (view now seq st) with
  | (false, st'), (None, reg) => view now seq st' = reg
  | (true, st'), (Some c, reg) =>
      id c = c_id conn ∧ dom (connections st') = dom (byId reg) ∧ users st' = byUser reg
  | _, _ => False
  end.
Proof.
  intros Hid. split.
  - unfold removeConnection, unregister, view. cbn -[delete insert]. rewrite lookup_fmap.
    destruct (connections st !! i) as [c|]; [|done]. cbn -[delete insert]. by rewrite fmap_delete.
  - unfold registerConnection, register, countForUser, view. cbn -[insert].
    unfold MAX_CONNECTIONS_PER_USER. destruct (5 <=? _); [done|]. cbn -[insert].
    rewrite Hid. split; [done|]. split; [|done]. by rewrite !dom_insert_L, dom_fmap_L.
Qed.

(** *** Resumption *)

(** The events after the first one with the given id. *)
Fixpoint after (last : string) (evs : list StreamEvent) : list StreamEvent :=
  match evs with
  | [] => []
  | e :: rest => if bool_decide (ev_id e = last) then rest else after last rest
  end.

Lemma replay_found conn last entries :
  replay_loop conn last true entries = filter (λ e, matches conn e = true) (omap (λ e, e) entries).
Proof.
  induction entries as [|[e|] rest IH]; [done| |done]. cbn -[filter]. rewrite filter_cons.
  destruct (matches conn e); cbn; by rewrite IH.
Qed.

(** Resumption sends what was missed.  The events written for a Last-Event-ID are exactly the buffered
    events after it that concern the connection, in their order, entries that cannot be read being skipped;
    when the id is no longer in the buffer nothing is sent. *)
Theorem replay_spec conn last entries :
  replay_loop conn last false entries =
    filter (λ e, matches conn e = true) (after last (omap (λ e, e) entries)) ∧
  (Forall (λ e, ev_id e ≠ last) (omap (λ e, e) entries) → replay_loop conn last false entries = []).
Proof.
  assert (replay_loop conn last false entries =
    filter (λ e, matches conn e = true) (after last (omap (λ e, e) entries))) as Heq.
  { induction entries as [|[e|] rest IH]; [done| |done]. cbn -[filter].
    case_bool_decide; [apply replay_found|done]. }
  split; [done|]. intros Hf. rewrite Heq. generalize dependent (omap (λ e : option StreamEvent, e) entries).
  intros evs _ Hf. induction Hf as [|e evs He Hf IH]; [done|]. cbn -[filter]. by rewrite bool_decide_false.
Qed.

(** *** Slots lost while a handler is suspended *)

(** Connection [i] occupies a slot of [u], and its socket has closed. *)
Definition leaked (u i : string) (st : stream) : Prop :=
  i ∈ gone st ∧ i ∈ default [] (users st !! u).

Lemma removeConnection_others u i j st :
  i ≠ j → i ∈ default [] (users st !! u) → i ∈ default [] (users (removeConnection j st) !! u).
Proof.
  intros Hne Hin. unfold removeConnection. destruct (connections st !! j) as [c|]; [|done]. cbn -[insert delete].
  destruct (users st !! address c) as [s|] eqn:Hs; [|done].
  destruct (decide (u = address c)) as [->|Hu].
  - rewrite Hs in Hin. cbn in Hin. assert (i ∈ set_delete j s) as Hi by (by apply list_elem_of_filter).
    case_bool_decide as Hl; [|by rewrite lookup_insert_eq].
    apply length_zero_iff_nil in Hl. rewrite Hl in Hi. by apply elem_of_nil in Hi.
  - case_bool_decide; [by rewrite lookup_delete_ne|by rewrite lookup_insert_ne].
Qed.

Lemma set_add_keeps i x s : i ∈ s → i ∈ set_add x s.
Proof. intros Hi. unfold set_add. case_bool_decide; [done|]. apply elem_of_app. by left. Qed.

Lemma handler_open_keeps u i auth raw now rnd st :
  leaked u i st → leaked u i (snd (handler_open auth raw now rnd st)).
Proof.
  intros [Hg Hin]. unfold handler_open, registerConnection. destruct auth as [sub|]; [|done]. cbn -[insert].
  case_test; [done|]. split; [done|]. cbn -[insert].
  destruct (decide (u = sub)) as [->|Hne]; [rewrite lookup_insert_eq; by apply set_add_keeps|by rewrite lookup_insert_ne].
Qed.

Lemma step_leaked u i st st' : leaked u i st → step st st' → leaked u i st'.
Proof.
  intros Hl Hs. destruct Hs as [auth raw now rnd|j ok last buffer Hj|j Hj|m Hm].
  - by apply handler_open_keeps.
  - destruct Hl as [Hg Hin]. unfold handler_resume, ensureSubscribed. destruct (connections st !! j); [|done].
    by destruct (subscribed st).
  - destruct Hl as [Hg Hin]. unfold socket_close. split; cbn; case_bool_decide; try set_solver.
    + unfold removeConnection. case_match; cbn; set_solver.
    + apply removeConnection_others; [set_solver|done].
  - destruct Hl as [Hg Hin]. by destruct m.
Qed.

Lemma close_leaks u i st : i ∉ listening st → i ∈ default [] (users st !! u) → leaked u i (socket_close i st).
Proof. intros Hl Hin. unfold socket_close. rewrite bool_decide_false by done. split; cbn; [set_solver|done]. Qed.

Lemma socket_close_quiet i st : i ∉ listening st →
  users (socket_close i st) = users st ∧ listening (socket_close i st) = listening st ∧
  gone (socket_close i st) = {[i]} ∪ gone st.
Proof. intros Hl. unfold socket_close. by rewrite bool_decide_false. Qed.

(** The sockets in [ids] close one after the other. *)
Definition close_sockets (ids : list string) (st : stream) : stream := foldl (λ s i, socket_close i s) st ids.

Lemma close_sockets_leak u ids st :
  (∀ i, i ∈ ids → (i ∉ listening st) ∧ i ∈ default [] (users st !! u)) →
  users (close_sockets ids st) = users st ∧ ∀ i, i ∈ ids → leaked u i (close_sockets ids st).
Proof.
  intros Hall. unfold close_sockets.
  assert (∀ l st0, listening st0 = listening st → users st0 = users st → (∀ i, i ∈ l → i ∈ ids) →
    users (foldl (λ s i, socket_close i s) st0 l) = users st ∧
    gone (foldl (λ s i, socket_close i s) st0 l) = gone st0 ∪ list_to_set l) as Hind.
  { induction l as [|i l IH]; intros st0 Hl Hu Hin; cbn; [split; [done|set_solver]|].
    assert (i ∉ listening st0) as Hi by (rewrite Hl; apply Hall, Hin; by left).
    destruct (socket_close_quiet i st0 Hi) as (Hu' & Hl' & Hg').
    destruct (IH (socket_close i st0)) as [H1 H2]; [congruence..| |].
    { intros j Hj. apply Hin. by right. }
    split; [done|]. rewrite H2, Hg'. set_solver. }
  destruct (Hind ids st eq_refl eq_refl) as [H1 H2]; [done|]. split; [done|].
  intros i Hi. split; [rewrite H2; set_solver|]. rewrite H1. by apply Hall.
Qed.

(** A stream that is closed while its handler is still subscribing or replaying loses its slot for good.
    The close listener is attached only after these awaits, and the event is not repeated.  Five such
    disconnects of one user, and whatever happens afterwards every further stream of this user is refused. *)
Theorem suspended_close_leaks u ids st st' :
  NoDup ids → 5 ≤ Z.of_nat (length ids) →
  (∀ i, i ∈ ids → (i ∉ listening st) ∧ i ∈ default [] (users st !! u)) →
  rtc step (close_sockets ids st) st' →
  ∀ raw now rnd, fst (handler_open (Some u) raw now rnd st') = None.
Proof.
  intros Hnd Hlen Hall Hsteps raw now rnd. destruct (close_sockets_leak u ids st Hall) as [_ Hleak].
  assert (∀ i, i ∈ ids → leaked u i st') as Hleak'.
  { intros i Hi. specialize (Hleak i Hi). induction Hsteps; eauto using step_leaked. }
  assert (ids ⊆+ (default [] (users st' !! u))) as Hsub%submseteq_length.
  { apply NoDup_submseteq; [done|]. intros i Hi. by apply Hleak'. }
  unfold handler_open, registerConnection. cbn -[insert]. unfold MAX_CONNECTIONS_PER_USER.
  by rewrite (proj2 (Z.leb_le 5 _)) by lia.
Qed.

(** One failed subscription silences the process.  The flag is set before the SUBSCRIBE command is
    awaited: when the command fails no later request tries again, so no published event is ever delivered to
    any stream of this process. *)
Theorem failed_subscription_sticks st st' :
  subscribed st = false → rtc step (snd (ensureSubscribed false st)) st' →
  subscription st' = false ∧ subscribed st' = true.
Proof.
  intros Hs Hsteps.
  assert (subscription (snd (ensureSubscribed false st)) = false ∧ subscribed (snd (ensureSubscribed false st)) = true) as H0.
  { unfold ensureSubscribed. by rewrite Hs. }
  clear Hs. induction Hsteps as [x|x y z Hstep _ IH]; [done|]. apply IH. destruct H0 as [Hsub Hflag].
  destruct Hstep as [auth raw now rnd|j ok last buffer Hj|j Hj|m Hm].
  - unfold handler_open, registerConnection. destruct auth; [|done]. cbn -[insert]. by case_test.
  - unfold handler_resume, ensureSubscribed. rewrite Hflag. by destruct (connections x !! j).
  - unfold socket_close, removeConnection. case_bool_decide; [|done]. by destruct (connections x !! j).
  - congruence.
Qed.
End Stream.

Module SseWitnesses.
Import Stream.

Definition history : list reg_op :=
  [Register 1700000000000 "GA" ["7"; "7"; "9"] true None; Register 1700000000001 "GA" [] false None;
   Register 1700000000001 "GB" [] false None; Heartbeat false (nextConnectionId 1700000000000 1)].

Lemma registry_well_formed_witness : countForUser (foldl (apply_op 5) empty_registry history) "GA" ≤ 5.
Proof.
  destruct (registry_well_formed 5 history) as [_ Hall].
  - repeat constructor; cbn; lia.
  - exact (proj1 (Hall "GA")).
Defined.

Lemma register_unregister_witness :
  byId (unregister (nextConnectionId 5 1) (snd (register 5 5 "GA" [] false None empty_registry))) = ∅.
Proof.
  pose proof (register_unregister 5 5 "GA" [] false None empty_registry) as Hr.
  cbn in Hr. destruct Hr as (_ & _ & _ & _ & _ & _ & Hid & _); [lia|apply empty_wf|]. exact Hid.
Defined.

Definition no_streams : stream :=
  {| connections := ∅; users := ∅; subscribed := false; subscription := false; resuming := ∅; listening := ∅;
     gone := ∅; out := [] |}.

Lemma registries_agree_witness :
  match registerConnection {| c_id := nextConnectionId 5 1; address := "GA"; c_claimIds := [] |} no_streams with
  | (true, st') => users st' = byUser (snd (register 5 5 "GA" [] false None empty_registry))
  | _ => False
  end.
Proof.
  pose proof (proj2 (registries_agree 5 0 {| c_id := nextConnectionId 5 1; address := "GA"; c_claimIds := [] |} ""
    no_streams eq_refl)) as Hr. cbn in Hr. exact (proj2 (proj2 Hr)).
Defined.

Definition an_event (i : string) (addresses : list string) : StreamEvent :=
  {| ev_id := i; ev_type := "claim.status"; ev_ts := 0; ev_claimIds := []; ev_addresses := addresses; ev_data := "" |}.
Definition reader : Connection := {| c_id := "c"; address := "GA"; c_claimIds := [] |}.

Lemma replay_spec_witness :
  replay_loop reader "gone" false [Some (an_event "1" ["GA"]); None; Some (an_event "2" ["GB"])] = [].
Proof.
  apply (proj2 (replay_spec reader "gone" [Some (an_event "1" ["GA"]); None; Some (an_event "2" ["GB"])])).
  repeat constructor; discriminate.
Defined.

(** Five streams of one user whose handlers are suspended. *)
Definition five_open : stream :=
  foldl (λ st rnd, snd (handler_open (Some "GA") None "0" rnd st)) no_streams ["a"; "b"; "c"; "d"; "e"].
Definition five_ids : list string := ["GA:0:a"; "GA:0:b"; "GA:0:c"; "GA:0:d"; "GA:0:e"].

Lemma suspended_close_leaks_witness :
  fst (handler_open (Some "GA") None "9" "z" (close_sockets five_ids five_open)) = None.
Proof.
  refine (suspended_close_leaks "GA" five_ids five_open _ _ _ _ _ None "9" "z").
  - repeat (apply NoDup_cons; split; [not_in_list|]). apply NoDup_nil_2.
  - cbn. lia.
  - assert (users five_open !! "GA" = Some five_ids) as Hu by reflexivity. rewrite Hu. intros i Hi.
    split; [apply not_elem_of_empty|exact Hi].
  - apply rtc_refl.
Defined.

Lemma failed_subscription_sticks_witness :
  subscription (snd (ensureSubscribed false no_streams)) = false.
Proof. refine (proj1 (failed_subscription_sticks no_streams _ _ _)); [reflexivity|apply rtc_refl]. Defined.
End SseWitnesses.
