(* ===== verification/Appeals.v ===== *)
(** * Appeals: opening, reminders, deadlines

    backend/src/services/appealService.ts.  The store, the notifier and the
    transaction builder are the interfaces the service declares; the store is
    a class with laws, every call to them may fail. *)

From stdpp Require Import base gmap list strings pretty.
From Stdlib Require Import ZArith Lia.
From S2P Require Import Prelude JsText.

Open Scope string_scope.
Open Scope Z_scope.

#[local] Arguments toISOString : simpl never.

Inductive ClaimStatus := Pending | Approved | Rejected | Paid.
#[export] Instance ClaimStatus_eq : EqDecision ClaimStatus.
Proof. solve_decision. Defined.

(** Models [ClaimRecord] (backend/src/services/appealService.ts:23-31). *)
Record ClaimRecord := {
  claim_id : string; claimant : string; claim_status : ClaimStatus;
  appealWindowOpensAt : option string; appealWindowClosesAt : option string }.

Inductive AppealStatus := Open | Resolved | Expired.
#[export] Instance AppealStatus_eq : EqDecision AppealStatus.
Proof. solve_decision. Defined.

(** Models [AppealRecord] (backend/src/services/appealService.ts:33-42). *)
Record AppealRecord := {
  appeal_id : string; appeal_claimId : string; openedBy : string; openedAt : string; deadline : string;
  resolvedAt : option string; appeal_status : AppealStatus }.

Inductive ReminderKind := window_open | window_closing_24h.
#[export] Instance ReminderKind_eq : EqDecision ReminderKind.
Proof. solve_decision. Defined.

(** Models [ReminderRecord] (backend/src/services/appealService.ts:55-59). *)
Record ReminderRecord := { rem_claimId : string; kind : ReminderKind; sentAt : string }.

(** Models [SlaAlert] (backend/src/services/appealService.ts:61-66). *)
Record SlaAlert := { al_appealId : string; al_claimId : string; al_deadline : string; overdueMs : Z }.

(** The persistence the service depends on.
    Models [AppealStore] (backend/src/services/appealService.ts:72-79). *)
Class AppealStore (S : Type) := {
  getClaim : string → S → option ClaimRecord;
  getAppealByClaim : string → S → option AppealRecord;
  saveAppeal : AppealRecord → S → S;
  listOpenAppeals : S → list AppealRecord;
  hasReminder : string → ReminderKind → S → bool;
  saveReminder : ReminderRecord → S → S;
}.

Class AppealStoreLaws (S : Type) `{AppealStore S} : Prop := {
  getAppeal_save : ∀ a c (s : S),
    getAppealByClaim c (saveAppeal a s) = if decide (appeal_claimId a = c) then Some a else getAppealByClaim c s;
  getClaim_save : ∀ a c (s : S), getClaim c (saveAppeal a s) = getClaim c s;
  hasReminder_save : ∀ r c k (s : S),
    hasReminder c k (saveReminder r s) = bool_decide (rem_claimId r = c ∧ kind r = k) || hasReminder c k s;
  hasReminder_saveAppeal : ∀ a c k (s : S), hasReminder c k (saveAppeal a s) = hasReminder c k s;
  getClaim_saveReminder : ∀ r c (s : S), getClaim c (saveReminder r s) = getClaim c s;
  getAppeal_saveReminder : ∀ r c (s : S), getAppealByClaim c (saveReminder r s) = getAppealByClaim c s;
}.

Inductive Reason :=
  | claim_not_found | caller_not_claimant | claim_not_rejected | appeal_window_not_open
  | appeal_window_closed | appeal_already_exists.
#[export] Instance Reason_eq : EqDecision Reason.
Proof. solve_decision. Defined.

(** [AppealError] with its code, or an error of a collaborator. *)
Inductive AppealFailure := AppealError (r : Reason) | Unavailable.

(** The store, what was sent, and the failures to come, one per call. *)
Record aworld (S : Type) := AWorld {
  a_store : S; reminders : list ReminderRecord; alerts : list SlaAlert; a_faults : list bool }.
Arguments AWorld {S} _ _ _ _.
Arguments a_store {S} _.
Arguments reminders {S} _.
Arguments alerts {S} _.
Arguments a_faults {S} _.

(** Models [DEFAULT_APPEAL_SLA_MS] (backend/src/services/appealService.ts:121-121). *)
Definition DEFAULT_APPEAL_SLA_MS : Z := 72 * 60 * 60 * 1000.
(** Models [CLOSING_REMINDER_LEAD_MS] (backend/src/services/appealService.ts:122-122). *)
Definition CLOSING_REMINDER_LEAD_MS : Z := 24 * 60 * 60 * 1000.

Section appeals.
Context {S : Type} `{AppealStore S}.
(** Date.parse; absent for NaN. *)
Variable Date_parse : string → option Z.
(** Unsigned transactions from the caller, the claim and the other parameters. *)
Variable build_open : string → string → string.
Variable build_vote : string → string → string → Z → string.
Variable appealSlaMs : Z.
Abbreviation MA A := (M (aworld S) AppealFailure A).

(** A call to a collaborator. *)
Definition call {A} (f : S → A * S) : MA A := λ w,
  match a_faults w with
  | true :: fs => (Throw Unavailable, AWorld (a_store w) (reminders w) (alerts w) fs)
  | _ => let '(a, s) := f (a_store w) in (Ok a, AWorld s (reminders w) (alerts w) (tail (a_faults w)))
  end.
Definition read {A} (f : S → A) : MA A := call (λ s, (f s, s)).
Definition sendReminder (r : ReminderRecord) : MA () :=
  do* read (λ _, tt) in
  λ w, (Ok tt, AWorld (a_store w) (reminders w ++ [r])%list (alerts w) (a_faults w)).
Definition sendSlaAlert (a : SlaAlert) : MA () :=
  do* read (λ _, tt) in
  λ w, (Ok tt, AWorld (a_store w) (reminders w) (alerts w ++ [a])%list (a_faults w)).

(** [x ? Date.parse(x) : undefined]: the outer option is undefined, the inner one NaN. *)
Definition window_bound (x : option string) : option (option Z) :=
  match truthy x with Some s => Some (Date_parse s) | None => None end.

(** Comparisons with a bound that may be undefined or NaN. *)
Definition before (now : Z) (b : option (option Z)) : bool :=
  match b with Some (Some t) => now <? t | _ => false end.
Definition past (now : Z) (b : option (option Z)) : bool :=
  match b with Some (Some t) => t <? now | _ => false end.

(** Models [AppealService.checkEligibility] (backend/src/services/appealService.ts:207-235). *)
Definition checkEligibility (now : Z) (claimId caller : string) : MA (option Reason) :=
  let* claim := read (getClaim claimId) in
  match claim with
  | None => ret (Some claim_not_found)
  | Some claim =>
      if bool_decide (claimant claim ≠ caller) then ret (Some caller_not_claimant)
      else if bool_decide (claim_status claim ≠ Rejected) then ret (Some claim_not_rejected)
      else if before now (window_bound (appealWindowOpensAt claim)) then ret (Some appeal_window_not_open)
      else if past now (window_bound (appealWindowClosesAt claim)) then ret (Some appeal_window_closed)
      else
        let* existing := read (getAppealByClaim claimId) in
        match existing with
        | Some _ => ret (Some appeal_already_exists)
        | None => ret None
        end
  end.

(** [now] is read twice: for the check and when the appeal is recorded.
    Models [AppealService.buildOpenAppeal] (backend/src/services/appealService.ts:241-266). *)
Definition buildOpenAppeal (now now' : Z) (uuid claimId caller : string) : MA (string * string) :=
  let* eligibility := checkEligibility now claimId caller in
  match eligibility with
  | Some reason => throw (AppealError reason)
  | None =>
      let* xdr := read (λ _, build_open caller claimId) in
      do* call (λ s, (tt, saveAppeal
        {| appeal_id := uuid; appeal_claimId := claimId; openedBy := caller; openedAt := toISOString now';
           deadline := toISOString (now' + appealSlaMs); resolvedAt := None; appeal_status := Open |} s)) in
      ret (xdr, uuid)
  end.

(** Models [AppealService.buildAppealVotes] (backend/src/services/appealService.ts:271-289). *)
Fixpoint buildAppealVotes (claimId appealId : string) (voters : list (string * option Z)) : MA (list (string * string)) :=
  match voters with
  | [] => ret []
  | (addr, weight) :: rest =>
      let* xdr := read (λ _, build_vote claimId appealId addr (default 1 weight)) in
      let* results := buildAppealVotes claimId appealId rest in
      ret ((addr, xdr) :: results)
  end.

(** Models [AppealService.getAppealState] (backend/src/services/appealService.ts:294-296). *)
Definition getAppealState (claimId : string) : MA (option AppealRecord) := read (getAppealByClaim claimId).

(** One reminder: asked for, sent, recorded. *)
Definition remind (now' : Z) (claim : ClaimRecord) (k : ReminderKind) : MA (list ReminderRecord) :=
  let* already := read (hasReminder (claim_id claim) k) in
  if (already : bool) then ret []
  else
    let reminder := {| rem_claimId := claim_id claim; kind := k; sentAt := toISOString now' |} in
    do* sendReminder reminder in
    do* call (λ s, (tt, saveReminder reminder s)) in
    ret [reminder].

Definition opening_due (now : Z) (claim : ClaimRecord) : bool :=
  match window_bound (appealWindowOpensAt claim) with Some (Some t) => t <=? now | _ => false end.
Definition closing_due (now : Z) (claim : ClaimRecord) : bool :=
  match window_bound (appealWindowClosesAt claim) with
  | Some (Some t) => (t - CLOSING_REMINDER_LEAD_MS <=? now) && (now <=? t)
  | _ => false
  end.

(** Models [AppealService.sendWindowReminders] (backend/src/services/appealService.ts:302-338). *)
Definition sendWindowReminders (now now' now'' : Z) (claim : ClaimRecord) : MA (list ReminderRecord) :=
  let* opened := (if opening_due now claim then remind now' claim window_open else ret []) in
  let* closing := (if closing_due now claim then remind now'' claim window_closing_24h else ret []) in
  ret (opened ++ closing)%list.

(** The loop of the monitor. *)
Fixpoint sla_loop (now : Z) (appeals : list AppealRecord) : MA (list SlaAlert) :=
  match appeals with
  | [] => ret []
  | appeal :: rest =>
      match truthy (resolvedAt appeal) with
      | Some _ => sla_loop now rest
      | None =>
          match Date_parse (deadline appeal) with
          | Some d =>
              if d <? now then
                let alert := {| al_appealId := appeal_id appeal; al_claimId := appeal_claimId appeal;
                                al_deadline := deadline appeal; overdueMs := now - d |} in
                do* sendSlaAlert alert in
                let* sent := sla_loop now rest in
                ret (alert :: sent)
              else sla_loop now rest
          | None => sla_loop now rest
          end
      end
  end.

(** Models [AppealService.runSlaMonitor] (backend/src/services/appealService.ts:343-364). *)
Definition runSlaMonitor (now : Z) : MA (list SlaAlert) :=
  let* open := read listOpenAppeals in
  sla_loop now open.
End appeals.

(** ** Properties *)

Section appeal_facts.
Context {S : Type} `{AppealStoreLaws S}.
Variable Date_parse : string → option Z.
Variables (build_open : string → string → string) (appealSlaMs : Z).
Abbreviation checkEligibility := (checkEligibility (S:=S) Date_parse).
Abbreviation buildOpenAppeal := (buildOpenAppeal (S:=S) Date_parse build_open appealSlaMs).
Abbreviation sendWindowReminders := (sendWindowReminders (S:=S) Date_parse).
Abbreviation runSlaMonitor := (runSlaMonitor (S:=S) Date_parse).

(** A call either fails and changes nothing, or takes effect; it uses up one fault. *)
Lemma call_spec {A} (f : S → A * S) (w : aworld S) :
  (a_faults w ≠ [] ∧ call f w = (Throw Unavailable, AWorld (a_store w) (reminders w) (alerts w) (tail (a_faults w)))) ∨
  call f w = (Ok (f (a_store w)).1, AWorld (f (a_store w)).2 (reminders w) (alerts w) (tail (a_faults w))).
Proof.
  unfold call. destruct (a_faults w) as [|[] fs]; [right|left|right]; destruct (f (a_store w)); done.
Qed.

Lemma call_cases {A} (f : S → A * S) (w : aworld S) :
  (∃ fs, call f w = (Throw Unavailable, AWorld (a_store w) (reminders w) (alerts w) fs)) ∨
  (∃ fs, call f w = (Ok (f (a_store w)).1, AWorld (f (a_store w)).2 (reminders w) (alerts w) fs)).
Proof. destruct (call_spec f w) as [[_ ->]| ->]; eauto. Qed.

(** What an appeal requires. *)
Definition appealable (now : Z) (claimId caller : string) (s : S) : Prop :=
  ∃ claim, getClaim claimId s = Some claim ∧ claimant claim = caller ∧ claim_status claim = Rejected ∧
    (∀ t, window_bound Date_parse (appealWindowOpensAt claim) = Some (Some t) → t ≤ now) ∧
    (∀ t, window_bound Date_parse (appealWindowClosesAt claim) = Some (Some t) → now ≤ t) ∧
    getAppealByClaim claimId s = None.

Lemma before_false now b : before now b = false ↔ ∀ t, b = Some (Some t) → t ≤ now.
Proof.
  destruct b as [[t|]|]; cbn; [rewrite Z.ltb_ge; split; [by intros ? ? [= <-]|eauto]|split; [intros _ t; discriminate|done]..].
Qed.
Lemma past_false now b : past now b = false ↔ ∀ t, b = Some (Some t) → now ≤ t.
Proof.
  destruct b as [[t|]|]; cbn; [rewrite Z.ltb_ge; split; [by intros ? ? [= <-]|eauto]|split; [intros _ t; discriminate|done]..].
Qed.

(** The check reads only; its verdict is exact. *)
Lemma checkEligibility_spec now claimId caller (w : aworld S) :
  let '(res, w') := checkEligibility now claimId caller w in
  a_store w' = a_store w ∧ reminders w' = reminders w ∧ alerts w' = alerts w ∧
  match res with
  | Ok None => appealable now claimId caller (a_store w)
  | Ok (Some _) => ¬ appealable now claimId caller (a_store w)
  | Throw e => e = Unavailable
  end.
Proof.
  unfold Appeals.checkEligibility, read, bind.
  destruct (call_cases (λ s, (getClaim claimId s, s)) w) as [[fs ->]|[fs ->]]; cbn; [done|].
  destruct (getClaim claimId (a_store w)) as [claim|] eqn:Hc.
  2: { cbn. split_and!; [done..|]. intros (? & ? & _). congruence. }
  assert (appealable now claimId caller (a_store w) →
    claimant claim = caller ∧ claim_status claim = Rejected ∧
    before now (window_bound Date_parse (appealWindowOpensAt claim)) = false ∧
    past now (window_bound Date_parse (appealWindowClosesAt claim)) = false ∧
    getAppealByClaim claimId (a_store w) = None) as Hinv.
  { intros (claim' & Hc' & ? & ? & ? & ? & ?). rewrite Hc in Hc'. injection Hc' as <-.
    by rewrite before_false, past_false. }
  case_bool_decide; [cbn; split_and!; [done..|tauto]|].
  case_bool_decide; [cbn; split_and!; [done..|tauto]|].
  destruct (before _ _) eqn:Hb; [cbn; split_and!; [done..|intros (_ & _ & ? & _)%Hinv; congruence]|].
  destruct (past _ _) eqn:Hp; [cbn; split_and!; [done..|intros (_ & _ & _ & ? & _)%Hinv; congruence]|].
  match goal with |- context [call ?f ?w1] => destruct (call_cases f w1) as [[fs2 ->]|[fs2 ->]] end; cbn; [done|].
  destruct (getAppealByClaim claimId (a_store w)) as [a|] eqn:Ha; cbn; split_and!; try done.
  - intros (_ & _ & _ & _ & ?)%Hinv. congruence.
  - exists claim. split_and!; [done|by destruct (decide (claimant claim = caller))|
      by destruct (decide (claim_status claim = Rejected))| | |done].
    + by apply before_false.
    + by apply past_false.
Qed.

(** The record of an appeal opened at [now]. *)
Definition opened (now : Z) (uuid claimId caller : string) : AppealRecord :=
  {| appeal_id := uuid; appeal_claimId := claimId; openedBy := caller; openedAt := toISOString now;
     deadline := toISOString (now + appealSlaMs); resolvedAt := None; appeal_status := Open |}.

(** Opening an appeal, with every failure.  The call resolves only for an appealable claim: rejected,
    asked for by its claimant, inside its window (bounds included; a missing or unreadable bound does not
    restrict) and without an appeal; then exactly the new record is saved.  In every other case, also when the
    store or the transaction builder fails, nothing is saved.  When nothing fails, it resolves for every
    appealable claim. *)
Theorem buildOpenAppeal_spec now now' uuid claimId caller (w : aworld S) :
  (let '(res, w') := buildOpenAppeal now now' uuid claimId caller w in
   match res with
   | Ok (xdr, i) => appealable now claimId caller (a_store w) ∧ xdr = build_open caller claimId ∧ i = uuid ∧
       a_store w' = saveAppeal (opened now' uuid claimId caller) (a_store w)
   | Throw e => a_store w' = a_store w ∧ (∀ r, e = AppealError r → ¬ appealable now claimId caller (a_store w))
   end) ∧
  (a_faults w = [] → appealable now claimId caller (a_store w) →
     ∃ w', buildOpenAppeal now now' uuid claimId caller w = (Ok (build_open caller claimId, uuid), w')).
Proof.
  pose proof (checkEligibility_spec now claimId caller w) as Hs. unfold Appeals.buildOpenAppeal, bind at 1.
  split.
  - destruct (checkEligibility now claimId caller w) as [[[r|]|e] w1]; destruct Hs as (Hst & _ & _ & Hv).
    + split; [done|]. by intros ? _.
    + unfold read, bind.
      destruct (call_cases (λ s : S, (build_open caller claimId, s)) w1) as [[fs ->]|[fs ->]]; cbn; [split; [done|by intros]|].
      match goal with |- context [call ?f ?w2] => destruct (call_cases f w2) as [[fs2 ->]|[fs2 ->]] end; cbn;
        [split; [done|by intros]|]. by rewrite Hst.
    + subst e. split; [done|by intros].
  - intros Hf (claim & Hc & Hcl & Hcs & Hb & Hp & Ha).
    destruct w as [st rem al fs]. cbn in *. subst fs.
    unfold Appeals.buildOpenAppeal, bind, Appeals.checkEligibility, read, call. cbn. rewrite Hc.
    rewrite !bool_decide_false by (intros Hn; by apply Hn).
    apply before_false in Hb as ->. apply past_false in Hp as ->. cbn. unfold bind. cbn. rewrite Ha. cbn. eauto.
Qed.

(** *** Histories of the service *)

Inductive appeal_op :=
  | OpOpen (now now' : Z) (uuid claimId caller : string)
  | OpRemind (now now' now'' : Z) (claim : ClaimRecord)
  | OpMonitor (now : Z).

Definition apply_appeal_op (w : aworld S) (o : appeal_op) : aworld S :=
  match o with
  | OpOpen now now' uuid claimId caller => world_of (buildOpenAppeal now now' uuid claimId caller) w
  | OpRemind now now' now'' claim => world_of (sendWindowReminders now now' now'' claim) w
  | OpMonitor now => world_of (runSlaMonitor now) w
  end.

(** [w'] has the appeals of [w], and perhaps more. *)
Definition appeals_kept (w w' : aworld S) : Prop :=
  ∀ c a, getAppealByClaim c (a_store w) = Some a → getAppealByClaim c (a_store w') = Some a.

#[local] Instance appeals_kept_pre : PreOrder appeals_kept.
Proof. split; [by intros w c a|intros w1 w2 w3 H12 H23 c a Ha; by apply H23, H12]. Qed.

Lemma call_keeps_appeals {A} (f : S → A * S) :
  (∀ s c a, getAppealByClaim c s = Some a → getAppealByClaim c (f s).2 = Some a) → keeps appeals_kept (call f).
Proof.
  intros Hf w. unfold world_of. destruct (call_cases f w) as [[fs ->]|[fs ->]]; intros c a Ha; cbn; [done|by apply Hf].
Qed.

Lemma log_keeps_appeals {A} (a : A) (f : aworld S → aworld S) :
  (∀ w, a_store (f w) = a_store w) → keeps (E:=AppealFailure) appeals_kept (λ w, (Ok a, f w)).
Proof. intros Hf w c x Hx. cbn. by rewrite Hf. Qed.

Lemma remind_keeps_appeals now' claim k : keeps appeals_kept (remind (S:=S) now' claim k).
Proof.
  unfold remind, sendReminder, read. keeps_walk; try (apply call_keeps_appeals; intros; cbn; rewrite ?getAppeal_saveReminder; done).
  by apply (log_keeps_appeals tt (λ w, AWorld _ _ _ _)).
Qed.

Lemma sla_keeps_appeals now l : keeps appeals_kept (sla_loop (S:=S) Date_parse now l).
Proof.
  induction l as [|a l IH]; cbn; [apply keeps_ret, _|]. unfold sendSlaAlert, read. keeps_walk; try done.
  - by apply call_keeps_appeals.
  - by apply (log_keeps_appeals tt (λ w, AWorld _ _ _ _)).
Qed.

Lemma op_keeps_appeals o w : appeals_kept w (apply_appeal_op w o).
Proof.
  destruct o as [now now' uuid claimId caller|now now' now'' claim|now]; cbn.
  - intros c a Ha. pose proof (proj1 (buildOpenAppeal_spec now now' uuid claimId caller w)) as Hs. unfold world_of.
    destruct (buildOpenAppeal _ _ _ _ _ w) as [[[xdr i]|e] w']; cbn [snd].
    + destruct Hs as ((claim & _ & _ & _ & _ & _ & Hnone) & _ & _ & ->). rewrite getAppeal_save. cbn.
      case_decide; [congruence|done].
    + destruct Hs as [-> _]. done.
  - refine ((_ : keeps appeals_kept (sendWindowReminders now now' now'' claim)) w).
    unfold Appeals.sendWindowReminders. keeps_walk; apply remind_keeps_appeals.
  - refine ((_ : keeps appeals_kept (runSlaMonitor now)) w).
    unfold Appeals.runSlaMonitor, read. keeps_walk; [by apply call_keeps_appeals|apply sla_keeps_appeals].
Qed.

(** C35: A claim is appealed at most once.  After one appeal was opened no later call opens another for the
    same claim, for any caller and after any history of the service with any failures; the first record stays. *)
Theorem one_appeal_per_claim now now' uuid claimId caller (w w1 : aworld S) r ops now2 now2' uuid2 caller2 :
  buildOpenAppeal now now' uuid claimId caller w = (Ok r, w1) →
  let w2 := foldl apply_appeal_op w1 ops in
  getAppealByClaim claimId (a_store w2) = Some (opened now' uuid claimId caller) ∧
  ∀ r2, value_of (buildOpenAppeal now2 now2' uuid2 claimId caller2) w2 ≠ Ok r2.
Proof.
  intros Hopen w2. pose proof (proj1 (buildOpenAppeal_spec now now' uuid claimId caller w)) as Hs.
  rewrite Hopen in Hs. destruct r as [xdr i]. destruct Hs as (_ & _ & _ & Hst).
  assert (getAppealByClaim claimId (a_store w2) = Some (opened now' uuid claimId caller)) as Hget.
  { assert (appeals_kept w1 w2) as Hk.
    { unfold w2. clear -H0. revert w1. induction ops as [|o ops IH]; intros w1; [by intros c a|].
      intros c a Ha. by apply IH, op_keeps_appeals. }
    apply Hk. rewrite Hst, getAppeal_save. cbn. by rewrite decide_True. }
  split; [done|]. intros r2 Hr2. unfold value_of in Hr2.
  pose proof (proj1 (buildOpenAppeal_spec now2 now2' uuid2 claimId caller2 w2)) as Hs2.
  destruct (buildOpenAppeal _ _ _ _ _ w2) as [[[xdr2 i2]|e] w3]; cbn in Hr2; [|done].
  destruct Hs2 as ((claim & _ & _ & _ & _ & _ & Hnone) & _). congruence.
Qed.

(** *** Reminders *)

Definition count (c : string) (k : ReminderKind) (l : list ReminderRecord) : nat :=
  length (filter (λ r, rem_claimId r = c ∧ kind r = k) l).

Lemma count_snoc c k l r :
  count c k (l ++ [r])%list = (count c k l + if bool_decide (rem_claimId r = c ∧ kind r = k) then 1 else 0)%nat.
Proof.
  unfold count. rewrite filter_app, length_app, filter_cons, filter_nil. case_decide; case_bool_decide; done || lia.
Qed.

(** What is recorded was sent; and, when nothing ever fails, what was sent is recorded and was sent once. *)
Record reminders_ok (healthy : bool) (w : aworld S) : Prop := {
  recorded_sent : ∀ c k, hasReminder c k (a_store w) = true → (1 ≤ count c k (reminders w))%nat;
  no_faults : healthy = true → a_faults w = [];
  sent_once : healthy = true → ∀ c k, (count c k (reminders w) ≤ if hasReminder c k (a_store w) then 1 else 0)%nat;
}.

(** The outcomes of one reminder. *)
Lemma remind_cases now' claim k (w : aworld S) :
  let w' := world_of (remind now' claim k) w in
  (a_faults w = [] → a_faults w' = []) ∧
  ((a_store w' = a_store w ∧ reminders w' = reminders w) ∨
   ∃ r, rem_claimId r = claim_id claim ∧ kind r = k ∧ hasReminder (claim_id claim) k (a_store w) = false ∧
     reminders w' = (reminders w ++ [r])%list ∧
     (a_store w' = saveReminder r (a_store w) ∨ (a_store w' = a_store w ∧ a_faults w ≠ []))).
Proof.
  unfold world_of, remind, sendReminder, read, bind. cbv zeta.
  destruct (call_spec (λ s : S, (hasReminder (claim_id claim) k s, s)) w) as [[Hf ->]| ->]; cbn; [split; [intros He; by rewrite He in Hf|by left]|].
  destruct (hasReminder (claim_id claim) k (a_store w)) eqn:Hh; cbn; [split; [intros He; by rewrite He|by left]|].
  match goal with |- context [call ?f ?w1] => destruct (call_spec f w1) as [[Hf ->]| ->] end; cbn in *.
  { split; [|by left]. intros He. by rewrite He in Hf. }
  match goal with |- context [call ?f ?w1] => destruct (call_spec f w1) as [[Hf ->]| ->] end; cbn in *.
  - split; [intros He; by rewrite He in Hf|]. right. exists {| rem_claimId := claim_id claim; kind := k; sentAt := toISOString now' |}. split_and!; [done..|]. right. split; [done|].
    intros He. by rewrite He in Hf.
  - split; [intros He; by rewrite He|]. right. exists {| rem_claimId := claim_id claim; kind := k; sentAt := toISOString now' |}. split_and!; [done..|]. by left.
Qed.

Lemma remind_ok h now' claim k (w : aworld S) :
  reminders_ok h w → reminders_ok h (world_of (remind now' claim k) w).
Proof.
  intros [Hrec Hnf Honce]. pose proof (remind_cases now' claim k w) as [Hf Hc].
  set (w' := world_of _ w) in *.
  destruct Hc as [[Hs Hr]|(r & Hrc & Hrk & Hno & Hr & Hs)].
  { split; rewrite ?Hs, ?Hr; auto. }
  split.
  - intros c k' Hh. rewrite Hr, count_snoc. destruct Hs as [Hs|[Hs _]]; rewrite Hs in Hh.
    + rewrite hasReminder_save in Hh. case_bool_decide; [lia|]. cbn in Hh. specialize (Hrec c k' Hh). lia.
    + specialize (Hrec c k' Hh). lia.
  - auto.
  - intros Hh c k'. specialize (Honce Hh c k'). rewrite Hr, count_snoc.
    destruct Hs as [Hs|[_ Hbad]]; [|by rewrite Hnf in Hbad].
    rewrite Hs, hasReminder_save. case_bool_decide as Hck; cbn; [|lia].
    destruct Hck as [<- <-]. rewrite Hrc, Hrk, Hno in Honce. rewrite Hrc, Hrk. lia.
Qed.

(** Steps that leave the reminders alone. *)
Definition reminders_same (w w' : aworld S) : Prop :=
  (a_faults w = [] → a_faults w' = []) ∧ reminders w' = reminders w ∧
  ∀ c k, hasReminder c k (a_store w') = hasReminder c k (a_store w).

#[local] Instance reminders_same_pre : PreOrder reminders_same.
Proof.
  split; [done|]. intros w1 w2 w3 (? & ? & H12) (? & ? & H23). split_and!; [auto|congruence|].
  intros c k. by rewrite H23, H12.
Qed.

Lemma same_reminders_ok h w w' : reminders_same w w' → reminders_ok h w → reminders_ok h w'.
Proof.
  intros (Hf & Hr & Hh) [H1 H2 H3]. split; [|auto|].
  - intros c k. rewrite Hh, Hr. auto.
  - intros Hb c k. rewrite Hh, Hr. auto.
Qed.

Lemma call_same {A} (f : S → A * S) :
  (∀ s c k, hasReminder c k (f s).2 = hasReminder c k s) → keeps reminders_same (call f).
Proof.
  intros Hf w. unfold world_of. destruct (call_spec f w) as [[Hne ->]| ->]; cbn.
  - split_and!; [intros He; by rewrite He in Hne|done..].
  - split_and!; cbn; [intros He; by rewrite He|done|intros c k; apply Hf].
Qed.

Lemma open_same now now' uuid claimId caller : keeps reminders_same (buildOpenAppeal now now' uuid claimId caller).
Proof.
  unfold Appeals.buildOpenAppeal, Appeals.checkEligibility, read. keeps_walk; apply call_same; intros; cbn; try done.
  apply hasReminder_saveAppeal.
Qed.

Lemma sla_same now l : keeps reminders_same (sla_loop (S:=S) Date_parse now l).
Proof.
  induction l as [|a l IH]; cbn; [apply keeps_ret, _|]. unfold sendSlaAlert, read. keeps_walk; try done.
  by apply call_same.
Qed.

Lemma op_reminders_ok h o w : reminders_ok h w → reminders_ok h (apply_appeal_op w o).
Proof.
  intros Hw. destruct o as [now now' uuid claimId caller|now now' now'' claim|now]; cbn.
  - eapply same_reminders_ok; [apply open_same|done].
  - unfold world_of, Appeals.sendWindowReminders, bind.
    assert (∀ (b : bool) t k v, reminders_ok h v →
      reminders_ok h (snd ((if b then remind t claim k else ret [] : M (aworld S) AppealFailure _) v))) as Hone.
    { intros [] t k v Hv; [by apply remind_ok|done]. }
    set (m1 := if opening_due _ _ _ then _ else _). set (m2 := if closing_due _ _ _ then _ else _).
    pose proof (Hone (opening_due Date_parse now claim) now' window_open w Hw : reminders_ok h (snd (m1 w))) as H1.
    destruct (m1 w) as [[l|e] w1]; [|done].
    pose proof (Hone (closing_due Date_parse now claim) now'' window_closing_24h w1 H1 : reminders_ok h (snd (m2 w1))) as H2.
    by destruct (m2 w1) as [[l2|e] w2].
  - eapply same_reminders_ok; [|done].
    refine ((_ : keeps reminders_same (runSlaMonitor now)) w). unfold Appeals.runSlaMonitor, read.
    keeps_walk; [by apply call_same|apply sla_same].
Qed.

(** Window reminders.  Over every history of the service, a reminder that is recorded was sent, whatever
    fails; when nothing fails, each claim gets each of its two reminders at most once.  (A reminder that was
    sent but could not be recorded is sent again.) *)
Theorem reminders_once ops (w0 : aworld S) :
  reminders w0 = [] → (∀ c k, hasReminder c k (a_store w0) = false) →
  let w := foldl apply_appeal_op w0 ops in
  ∀ c k, (hasReminder c k (a_store w) = true → (1 ≤ count c k (reminders w))%nat) ∧
    (a_faults w0 = [] → (count c k (reminders w) ≤ 1)%nat).
Proof.
  intros Hr Hh w c k.
  assert (∀ h v, reminders_ok h v → reminders_ok h (foldl apply_appeal_op v ops)) as Hfold.
  { intros h. induction ops as [|o ops' IH]; intros v Hv; [done|]. cbn. by apply IH, op_reminders_ok. }
  split.
  - apply (recorded_sent false). apply Hfold. split; [intros c' k'; rewrite Hh; done|done|done].
  - intros Hf. assert (reminders_ok true w) as Hok.
    { apply Hfold. split; [intros c' k'; by rewrite Hh|done|]. intros _ c' k'. rewrite Hr. cbn. lia. }
    pose proof (sent_once true w Hok eq_refl c k) as Hle. by destruct (hasReminder c k (a_store w)); lia.
Qed.

(** The alert an appeal calls for. *)
Definition overdue (now : Z) (a : AppealRecord) : option SlaAlert :=
  match truthy (resolvedAt a), Date_parse (deadline a) with
  | None, Some d => if d <? now then Some {| al_appealId := appeal_id a; al_claimId := appeal_claimId a;
                                             al_deadline := deadline a; overdueMs := now - d |} else None
  | _, _ => None
  end.

Lemma sla_loop_healthy now l (s : S) rem al :
  sla_loop Date_parse now l (AWorld s rem al []) =
    (Ok (omap (overdue now) l), AWorld s rem (al ++ omap (overdue now) l)%list []).
Proof.
  revert al. induction l as [|a l IH]; intros al; cbn [sla_loop]; [cbn; by rewrite app_nil_r|].
  change (omap (overdue now) (a :: l)) with
    (match overdue now a with Some x => x :: omap (overdue now) l | None => omap (overdue now) l end).
  destruct (overdue now a) as [x|] eqn:Ho; unfold overdue in Ho;
    destruct (truthy (resolvedAt a)) as [r|]; try done; destruct (Date_parse (deadline a)) as [d|]; try done;
    try (destruct (d <? now); try done).
  injection Ho as <-. unfold sendSlaAlert, read, bind, call. cbn. rewrite IH. cbn. by rewrite <-app_assoc.
Qed.

(** The deadline monitor raises an alert for exactly the listed appeals that are unresolved and past
    their deadline, in their order, with the time they are overdue; and an appeal opened by this service
    becomes overdue right after its deadline, the opening time plus the agreed period. *)
Theorem sla_monitor_exact now (w : aworld S) :
  a_faults w = [] →
  runSlaMonitor now w =
    (Ok (omap (overdue now) (listOpenAppeals (a_store w))),
     AWorld (a_store w) (reminders w) (alerts w ++ omap (overdue now) (listOpenAppeals (a_store w)))%list []) ∧
  ∀ t uuid claimId caller, Date_parse (toISOString (t + appealSlaMs)) = Some (t + appealSlaMs) →
    (is_Some (overdue now (opened t uuid claimId caller)) ↔ t + appealSlaMs < now).
Proof.
  intros Hf. destruct w as [s rem al fs]. cbn in Hf. subst fs. split.
  - unfold Appeals.runSlaMonitor, read, bind, call. cbn. apply sla_loop_healthy.
  - intros t uuid claimId caller Hd. unfold overdue, opened. cbn [resolvedAt deadline truthy]. rewrite Hd.
    destruct (t + appealSlaMs <? now) eqn:Hlt; bool_prop; [by split; eauto|]. split; [by intros [? ?]|lia].
Qed.
End appeal_facts.

Module AppealWitnesses.

Record sample := Sample {
  s_claims : list (string * ClaimRecord); s_appeals : list (string * AppealRecord); s_sent : list (string * ReminderKind) }.

#[export] Instance sample_store : AppealStore sample := {
  getClaim c s := alist_get c (s_claims s);
  getAppealByClaim c s := alist_get c (s_appeals s);
  saveAppeal a s := Sample (s_claims s) (alist_put (appeal_claimId a) a (s_appeals s)) (s_sent s);
  listOpenAppeals s := filter (λ a, appeal_status a = Open) (s_appeals s).*2;
  hasReminder c k s := bool_decide ((c, k) ∈ s_sent s);
  saveReminder r s := Sample (s_claims s) (s_appeals s) ((rem_claimId r, kind r) :: s_sent s);
}.

#[export] Instance sample_store_laws : AppealStoreLaws sample.
Proof.
  split; try done.
  - intros a c s. cbn -[alist_put]. apply alist_get_put.
  - intros r c k s. cbn. repeat case_bool_decide; rewrite ?elem_of_cons in *; naive_solver.
Qed.

Definition rejected : ClaimRecord :=
  {| claim_id := "7"; claimant := "GA"; claim_status := Rejected; appealWindowOpensAt := Some (toISOString 1000);
     appealWindowClosesAt := Some (toISOString 100000000) |}.
Definition w0 : aworld sample := AWorld (Sample [("7", rejected)] [] []) [] [] [].
Definition xdr_of (caller claimId : string) : string := "xdr:" +:+ claimId.

Lemma can_appeal : appealable parseISO 5000 "7" "GA" (a_store w0).
Proof.
  exists rejected. split_and!; [reflexivity..| | |reflexivity].
  - intros t Ht. vm_compute in Ht. injection Ht as <-. lia.
  - intros t Ht. vm_compute in Ht. injection Ht as <-. lia.
Qed.

Lemma buildOpenAppeal_spec_witness :
  ∃ w', buildOpenAppeal parseISO xdr_of 1000 5000 5001 "u1" "7" "GA" w0 = (Ok ("xdr:7", "u1"), w').
Proof.
  refine (proj2 (buildOpenAppeal_spec parseISO xdr_of 1000 5000 5001 "u1" "7" "GA" w0) _ _); [reflexivity|exact can_appeal].
Defined.

Definition w1 : aworld sample := world_of (buildOpenAppeal parseISO xdr_of 1000 5000 5001 "u1" "7" "GA") w0.

Lemma one_appeal_per_claim_witness :
  getAppealByClaim "7" (a_store w1) = Some (opened 1000 5001 "u1" "7" "GA") ∧
  ∀ r, value_of (buildOpenAppeal parseISO xdr_of 1000 6000 6001 "u2" "7" "GA") w1 ≠ Ok r.
Proof.
  refine (one_appeal_per_claim parseISO xdr_of 1000 5000 5001 "u1" "7" "GA" w0 w1 ("xdr:7", "u1") []
    6000 6001 "u2" "GA" _).
  destruct (proj2 (buildOpenAppeal_spec parseISO xdr_of 1000 5000 5001 "u1" "7" "GA" w0) eq_refl can_appeal) as [w' Hw].
  unfold w1, world_of. rewrite Hw. reflexivity.
Defined.

Lemma reminders_once_witness :
  (count "7" window_open (reminders (foldl (apply_appeal_op parseISO xdr_of 1000) w0
     [OpRemind 5000 5000 5000 rejected; OpRemind 6000 6000 6000 rejected])) ≤ 1)%nat.
Proof.
  refine (proj2 (reminders_once parseISO xdr_of 1000
    [OpRemind 5000 5000 5000 rejected; OpRemind 6000 6000 6000 rejected] w0 _ _ "7" window_open) _); reflexivity.
Defined.

Lemma sla_monitor_exact_witness :
  is_Some (overdue parseISO 7000 (opened 1000 5001 "u1" "7" "GA")) ↔ 5001 + 1000 < 7000.
Proof.
  refine (proj2 (sla_monitor_exact parseISO 1000 7000 w0 eq_refl) 5001 "u1" "7" "GA" _).
  apply parseISO_toISOString. lia.
Defined.
End AppealWitnesses.

(** ** The appeal keeper

    backend/src/jobs/appeal-finalize-keeper.service.ts: a job that finalizes
    the appeals whose deadline has passed, with retries on transient failures
    and an alert for claims that keep failing.  The outcome of the n-th call to
    the contract is a parameter. *)

Module Keeper.

(** [failureTracker], the number of calls made so far, the delays slept, and the alerts raised. *)
Record kworld := KWorld {
  failureTracker : gmap Z Z; rpc_calls : nat; slept : list Z; raised : list (Z * Z) }.

(** What an outcome of finalize_appeal means to the keeper. *)
Inductive verdict := Finalized | WindowOpen | AlreadyFinal | Transient.
#[export] Instance verdict_eq : EqDecision verdict.
Proof. solve_decision. Defined.

Section keeper.
(** The outcome of the n-th call: nothing, or the message of the error. *)
Variable rpc : nat → result string ().

(** The tests of the catch block, in their order; the first is case-insensitive.
    Models [catch of finalizeClaimWithRetry] (backend/src/jobs/appeal-finalize-keeper.service.ts:147-170). *)
Definition classify (o : result string ()) : verdict :=
  match o with
  | Ok _ => Finalized
  | Throw errorMsg =>
      let lower := toLowerCase errorMsg in
      if includes lower "votingwindowstillopen" || includes lower "voting window still open" then WindowOpen
      else if includes lower "not in under_appeal" || includes lower "already finalized" || includes lower "invalid state"
      then AlreadyFinal else Transient
  end.

Definition maxRetries : nat := 3.
Definition retryBaseDelayMs : Z := 1000.
Definition persistentFailureThreshold : Z := 3.

Definition clear_failures (claimId : Z) (w : kworld) : kworld :=
  KWorld (delete claimId (failureTracker w)) (rpc_calls w) (slept w) (raised w).

(** The attempts from [attempt] on; [left] are the retries that remain.  The answer tells whether the method
    returned from inside the loop. *)
Fixpoint attempts (claimId : Z) (left attempt : nat) (w : kworld) : bool * kworld :=
  let o := rpc (rpc_calls w) in
  let w1 := KWorld (failureTracker w) (S (rpc_calls w)) (slept w) (raised w) in
  match classify o with
  | Finalized | AlreadyFinal => (true, clear_failures claimId w1)
  | WindowOpen => (true, w1)
  | Transient =>
      match left with
      | O => (false, w1)
      | S left' =>
          attempts claimId left' (S attempt)
            (KWorld (failureTracker w1) (rpc_calls w1) (slept w1 ++ [retryBaseDelayMs * 2 ^ Z.of_nat attempt])%list (raised w1))
      end
  end.

(** Models [finalizeClaimWithRetry] (backend/src/jobs/appeal-finalize-keeper.service.ts:134-198). *)
Definition finalizeClaimWithRetry (claimId : Z) (w : kworld) : kworld :=
  match attempts claimId maxRetries 0 w with
  | (true, w') => w'
  | (false, w') =>
      let failureCount := default 0 (failureTracker w' !! claimId) + 1 in
      KWorld (<[claimId := failureCount]> (failureTracker w')) (rpc_calls w') (slept w')
        (if persistentFailureThreshold <=? failureCount then raised w' ++ [(claimId, failureCount)] else raised w')%list
  end.

(** A claim as the contract reports it: the deadline field may be missing. *)
Definition deadlineLedger (onChain : option Z) : Z := default 0 onChain.

(** The loop that selects the expired claims.  The i-th answer belongs to the i-th id; a missing one is skipped. *)
Fixpoint expired (currentLedger : Z) (claimIds : list Z) (onChain : list (option (option Z))) : list Z :=
  match claimIds with
  | [] => []
  | c :: rest =>
      match onChain with
      | Some d :: answers =>
          if deadlineLedger d <=? currentLedger then c :: expired currentLedger rest answers
          else expired currentLedger rest answers
      | None :: answers => expired currentLedger rest answers
      | [] => expired currentLedger rest []
      end
  end.

(** [account] is the configured source account; the ledger, the claims under appeal and the batch answer are
    the outcomes of the three calls before the loop.
    Models [runFinalizationCycle] (backend/src/jobs/appeal-finalize-keeper.service.ts:47-128). *)
Definition runFinalizationCycle (account : option string) (ledger : result string Z)
    (underAppeal : result string (list Z)) (batch : list Z → result string (list (option (option Z)))) (w : kworld) : kworld :=
  match truthy account with
  | None => w
  | Some _ =>
      match ledger with
      | Throw _ => w
      | Ok currentLedger =>
          match underAppeal with
          | Throw _ => w
          | Ok [] => w
          | Ok claimIds =>
              match batch claimIds with
              | Throw _ => w
              | Ok onChain => foldl (λ w c, finalizeClaimWithRetry c w) w (expired currentLedger claimIds onChain)
              end
          end
      end
  end.

(** ** Properties *)

(** The delays before the retries. *)
Definition delays (n : nat) : list Z := (λ i, 1000 * 2 ^ Z.of_nat i) <$> seq 0 n.

Definition forgets (v : verdict) : bool := bool_decide (v = Finalized ∨ v = AlreadyFinal).

Lemma attempts_spec claimId left attempt w :
  let n := rpc_calls w in
  (∃ k, (k ≤ left)%nat ∧ (∀ j, (j < k)%nat → classify (rpc (n + j)) = Transient) ∧
     classify (rpc (n + k)) ≠ Transient ∧
     attempts claimId left attempt w =
       (true, KWorld (if forgets (classify (rpc (n + k))) then delete claimId (failureTracker w) else failureTracker w)
                (n + S k) (slept w ++ ((λ i, 1000 * 2 ^ Z.of_nat i) <$> seq attempt k))%list (raised w))) ∨
  ((∀ j, (j ≤ left)%nat → classify (rpc (n + j)) = Transient) ∧
     attempts claimId left attempt w =
       (false, KWorld (failureTracker w) (n + S left)
                 (slept w ++ ((λ i, 1000 * 2 ^ Z.of_nat i) <$> seq attempt left))%list (raised w))).
Proof.
  revert attempt w. induction left as [|left IH]; intros attempt w n.
  - destruct (classify (rpc n)) eqn:Hc; cbn [attempts]; fold n; rewrite Hc.
    1-3: left; exists O; rewrite Nat.add_0_r, Hc; split_and!; [lia|lia|done|];
         cbn; rewrite app_nil_r, Nat.add_1_r; done.
    right. split; [intros j Hj; by replace (n + j)%nat with n by lia|]. cbn. by rewrite app_nil_r, Nat.add_1_r.
  - destruct (classify (rpc n)) eqn:Hc; cbn [attempts]; fold n; rewrite Hc.
    1-3: left; exists O; rewrite Nat.add_0_r, Hc; split_and!; [lia|lia|done|];
         cbn; rewrite app_nil_r, Nat.add_1_r; done.
    match goal with |- context [attempts claimId left (S attempt) ?w1] => destruct (IH (S attempt) w1) as [(k & Hk & Hlt & Hne & ->)|[Hall ->]] end;
      cbn [rpc_calls failureTracker slept raised] in *.
    + left. exists (S k). replace (n + S k)%nat with (S n + k)%nat by lia. split_and!; [lia| |done|].
      * intros [|j] Hj; [by rewrite Nat.add_0_r|]. replace (n + S j)%nat with (S n + j)%nat by lia. apply Hlt. lia.
      * f_equal. f_equal; [lia|]. rewrite <-app_assoc. done.
    + right. split.
      * intros [|j] Hj; [by rewrite Nat.add_0_r|]. replace (n + S j)%nat with (S n + j)%nat by lia. apply Hall. lia.
      * f_equal. f_equal; [lia|]. rewrite <-app_assoc. done.
Qed.

(** One claim in one cycle.  The contract is called one to four times, until an outcome that is not
    transient, with delays of 1, 2 and 4 seconds before the retries.  An appeal that is finalized now or was
    before is forgotten by the failure counter; one whose voting window is open keeps its count; four transient
    failures add one to it and raise an alert exactly when the count reaches three. *)
Theorem finalize_spec claimId w :
  let n := rpc_calls w in let w' := finalizeClaimWithRetry claimId w in
  (∃ k, (k ≤ 3)%nat ∧ (∀ j, (j < k)%nat → classify (rpc (n + j)) = Transient) ∧
     classify (rpc (n + k)) ≠ Transient ∧ rpc_calls w' = (n + S k)%nat ∧ slept w' = (slept w ++ delays k)%list ∧
     failureTracker w' = (if bool_decide (classify (rpc (n + k)) = WindowOpen) then failureTracker w
                          else delete claimId (failureTracker w)) ∧ raised w' = raised w) ∨
  ((∀ j, (j ≤ 3)%nat → classify (rpc (n + j)) = Transient) ∧ rpc_calls w' = (n + 4)%nat ∧
     slept w' = (slept w ++ [1000; 2000; 4000])%list ∧
     let count := default 0 (failureTracker w !! claimId) + 1 in
     failureTracker w' = <[claimId := count]> (failureTracker w) ∧
     raised w' = if 3 <=? count then (raised w ++ [(claimId, count)])%list else raised w).
Proof.
  cbv zeta. unfold finalizeClaimWithRetry.
  destruct (attempts_spec claimId maxRetries 0 w) as [(k & Hk & Hlt & Hne & ->)|[Hall ->]].
  - left. exists k. split_and!; [exact Hk|done..| |done]. cbn. unfold forgets.
    by destruct (classify _); repeat case_bool_decide; naive_solver.
  - right. split_and!; [exact Hall|done..].
Qed.

(** The state after [k] cycles in which the claim fails. *)
Lemma finalize_fails claimId w :
  (∀ j, classify (rpc j) = Transient) →
  failureTracker (finalizeClaimWithRetry claimId w) =
    <[claimId := default 0 (failureTracker w !! claimId) + 1]> (failureTracker w) ∧
  raised (finalizeClaimWithRetry claimId w) =
    if 3 <=? default 0 (failureTracker w !! claimId) + 1
    then (raised w ++ [(claimId, default 0 (failureTracker w !! claimId) + 1)])%list else raised w.
Proof.
  intros Hall. unfold finalizeClaimWithRetry.
  destruct (attempts_spec claimId maxRetries 0 w) as [(k & _ & _ & Hne & _)|[_ ->]]; [by rewrite Hall in Hne|done].
Qed.

(** Which appeals a cycle finalizes.  With an account configured and the three reads successful it calls
    the contract for exactly the claims under appeal that the contract knows and whose deadline is not in the
    future, in their order; a claim without a deadline counts as expired.  When a read fails, or there is no
    account, nothing is called; the cycle itself never fails. *)
Theorem cycle_selects account ledger underAppeal batch w :
  runFinalizationCycle account ledger underAppeal batch w =
    match truthy account, ledger, underAppeal with
    | Some _, Ok now, Ok claimIds =>
        match batch claimIds with
        | Ok onChain =>
            foldl (λ w c, finalizeClaimWithRetry c w) w
              (omap (λ ca : Z * option (option Z), match ca.2 with
                       | Some d => if bool_decide (default 0 d ≤ now) then Some ca.1 else None
                       | None => None
                       end) (zip claimIds onChain))
        | Throw _ => w
        end
    | _, _, _ => w
    end.
Proof.
  assert (∀ now ids answers, expired now ids answers =
    omap (λ ca : Z * option (option Z), match ca.2 with
            | Some d => if bool_decide (default 0 d ≤ now) then Some ca.1 else None
            | None => None
            end) (zip ids answers)) as Hexp.
  { intros now. induction ids as [|c ids IH]; intros [|[d|] answers]; cbn; try done.
    - clear. induction ids; cbn; done.
    - unfold deadlineLedger. rewrite IH. destruct (default 0 d <=? now) eqn:Hd; bool_prop.
      + by rewrite bool_decide_true.
      + by rewrite bool_decide_false by lia. }
  unfold runFinalizationCycle. destruct (truthy account); [|done]. destruct ledger as [now|]; [|done].
  destruct underAppeal as [[|c ids]|]; [by destruct (batch [])|by destruct (batch (c :: ids)); rewrite ?Hexp|done].
Qed.
End keeper.

(** Three bad cycles in a row, one alert each from the third on.  While every call fails transiently the
    count of a claim is the number of cycles it was tried in, and the alerts are those of the third and later
    cycles. *)
Theorem persistent_failure_alerts (rpc : nat → result string ()) claimId (k : nat) :
  (∀ j, classify (rpc j) = Transient) →
  let w := Nat.iter k (finalizeClaimWithRetry rpc claimId) (KWorld ∅ 0 [] []) in
  default 0 (failureTracker w !! claimId) = Z.of_nat k ∧
  raised w = (λ i, (claimId, Z.of_nat i)) <$> seq 3 (k - 2).
Proof.
  intros Hall. induction k as [|k IH]; [done|]. cbv zeta in *. rewrite Nat.iter_succ.
  destruct IH as [Hc Hr]. set (w := Nat.iter _ _ _) in *.
  destruct (finalize_fails rpc claimId w Hall) as [-> ->]. rewrite lookup_insert_eq, Hc, Hr. cbn -[Nat.sub].
  split; [lia|]. destruct (3 <=? Z.of_nat k + 1) eqn:H3; bool_prop.
  - replace (S k - 2)%nat with (S (k - 2)) by lia. rewrite seq_S, fmap_app. cbn -[Nat.sub]. do 3 f_equal. lia.
  - by replace (S k - 2)%nat with (k - 2)%nat by lia.
Qed.

Module KeeperWitnesses.
Definition timeouts (n : nat) : result string () := Throw "timeout".

Lemma persistent_failure_alerts_witness :
  raised (Nat.iter 4 (finalizeClaimWithRetry timeouts 7) (KWorld ∅ 0 [] [])) = [(7, 3); (7, 4)].
Proof. exact (proj2 (persistent_failure_alerts timeouts 7 4 (λ _, eq_refl))). Defined.
End KeeperWitnesses.

End Keeper.
