(* ===== verification/Delivery.v ===== *)
(** * Outbound webhooks: queueing, delivery, retries, dead letters

    backend/src/webhooks/backoff.ts, outbound-webhook.service.ts,
    outbound.queue.ts, webhook-delivery.service.ts, webhook-dlq.service.ts and
    the retry configuration of backend/src/queues/queue-config.ts.  The HTTP
    answers and the job runner (BullMQ) are parameters; every database and
    queue call may fail. *)

From stdpp Require Import base list strings pretty sorting.
From Stdlib Require Import ZArith Lia Ascii.
From S2P Require Import Prelude JsText Redis Codec Signature.

Open Scope string_scope.
Open Scope Z_scope.

(** ** backoff.ts *)

Definition DEFAULT_MAX_ATTEMPTS : Z := 5.
Definition DEFAULT_BASE_DELAY_MS : Z := 1000.
Definition DEFAULT_MAX_DELAY_MS : Z := 32000.

(** Models [backoffDelayMs] (backend/src/webhooks/backoff.ts:16-24). *)
Definition backoffDelayMs (attempt baseDelayMs maxDelayMs : Z) : Z :=
  if attempt <? 1 then 0
  else
    let exponent := Z.min (attempt - 1) 30 in
    Z.min (baseDelayMs * 2 ^ exponent) maxDelayMs.

(** The loop of [computeRetrySchedule]; one unit of fuel per attempt. *)
Fixpoint schedule_loop (fuel : nat) (attempt maxAttempts base cap : Z) : list Z :=
  match fuel with
  | O => []
  | S fuel' =>
      if attempt <? maxAttempts
      then backoffDelayMs attempt base cap :: schedule_loop fuel' (attempt + 1) maxAttempts base cap
      else []
  end.

(** Models [computeRetrySchedule] (backend/src/webhooks/backoff.ts:30-40). *)
Definition computeRetrySchedule (maxAttempts base cap : Z) : list Z :=
  schedule_loop (Z.to_nat maxAttempts) 1 maxAttempts base cap.

(** Models [isExhausted] (backend/src/webhooks/backoff.ts:43-45). *)
Definition isExhausted (attempt maxAttempts : Z) : bool := maxAttempts <=? attempt.

(** ** Jobs, rows and the state *)

(** The payload is its JSON text.
    Models [OutboundWebhookJob] (backend/src/webhooks/outbound.types.ts:3-12). *)
Record Job := {
  targetUrl : string; eventType : string; idempotencyKey : string; payload : string;
  job_secret : option string; job_attempt : option Z }.

Record DeliveryRow := {
  d_url : string; d_event : string; d_key : string; d_attempt : Z; d_success : bool;
  d_code : option Z; d_error : option string }.

Record DlqRow := {
  q_id : Z; q_url : string; q_event : string; q_key : string; q_payload : string; q_attempts : Z;
  q_error : option string; retriedAt : option Z }.

Record HttpRequest := { h_url : string; h_body : string; h_headers : list (string * string) }.

Record Subscription := { s_url : string; s_active : bool; s_secret : string }.

(** Tables, queue and the requests sent so far. *)
Record dstate := {
  deliveries : list DeliveryRow; dlq : list DlqRow; subscriptions : list Subscription;
  queue : list Job; posted : list HttpRequest; dlq_alerts : list Z }.

Definition set_deliveries (l : list DeliveryRow) (s : dstate) : dstate :=
  {| deliveries := l; dlq := dlq s; subscriptions := subscriptions s; queue := queue s; posted := posted s;
     dlq_alerts := dlq_alerts s |}.
Definition set_dlq (l : list DlqRow) (s : dstate) : dstate :=
  {| deliveries := deliveries s; dlq := l; subscriptions := subscriptions s; queue := queue s; posted := posted s;
     dlq_alerts := dlq_alerts s |}.
Definition set_queue (l : list Job) (s : dstate) : dstate :=
  {| deliveries := deliveries s; dlq := dlq s; subscriptions := subscriptions s; queue := l; posted := posted s;
     dlq_alerts := dlq_alerts s |}.
Definition set_posted (l : list HttpRequest) (s : dstate) : dstate :=
  {| deliveries := deliveries s; dlq := dlq s; subscriptions := subscriptions s; queue := queue s; posted := l;
     dlq_alerts := dlq_alerts s |}.
Definition set_alerts (l : list Z) (s : dstate) : dstate :=
  {| deliveries := deliveries s; dlq := dlq s; subscriptions := subscriptions s; queue := queue s; posted := posted s;
     dlq_alerts := l |}.

Abbreviation MD A := (M (rworld dstate) string A).

(** Models [DeliveryResult] (backend/src/webhooks/webhook-delivery.service.ts:28-33). *)
Record DeliveryResult := { success : bool; responseCode : option Z; error : option string; signature : string }.

Section delivery.
Context `{H : Hmac}.
(** The outcome of the n-th request: a status code, or a transport error. *)
Variable http : nat → result string Z.
(** WEBHOOK_DLQ_ALERT_THRESHOLD *)
Variable alertThreshold : Z.

(** [await this.httpPost(...)]: the outcome is a value here, the caller looks at it. *)
Definition httpPost (req : HttpRequest) : MD (result string Z) := λ w,
  (Ok (http (length (posted (rstate w)))),
   RWorld (set_posted (posted (rstate w) ++ [req])%list (rstate w)) (faults w)).

(** ** webhook-dlq.service.ts *)

Definition pending_rows (s : dstate) : list DlqRow := filter (λ r, retriedAt r = None) (dlq s).

(** Models [WebhookDlqService.checkThreshold] (backend/src/webhooks/webhook-dlq.service.ts:78-85). *)
Definition checkThreshold : MD () :=
  let* size := query (λ s, Z.of_nat (length (pending_rows s))) in
  if alertThreshold <? size
  then λ w, (Ok tt, RWorld (set_alerts (dlq_alerts (rstate w) ++ [size])%list (rstate w)) (faults w))
  else ret tt.

(** Models [WebhookDlqService.add] (backend/src/webhooks/webhook-dlq.service.ts:31-49). *)
Definition dlq_add (job : Job) (attempts : Z) (lastError : option string) : MD () :=
  try_catch (E:=string)
    (do* update (λ s, set_dlq (dlq s ++
       [{| q_id := Z.of_nat (length (dlq s)); q_url := targetUrl job; q_event := eventType job;
           q_key := idempotencyKey job; q_payload := payload job; q_attempts := attempts;
           q_error := lastError; retriedAt := None |}])%list s) in
     checkThreshold)
    (λ _, ret tt).

(** Newest first.
    Models [WebhookDlqService.list] (backend/src/webhooks/webhook-dlq.service.ts:52-58). *)
Definition dlq_list (limit : nat) : MD (list DlqRow) := query (λ s, take limit (reverse (pending_rows s))).

Definition mark_retried (i now : Z) (r : DlqRow) : DlqRow :=
  if q_id r =? i
  then {| q_id := q_id r; q_url := q_url r; q_event := q_event r; q_key := q_key r; q_payload := q_payload r;
          q_attempts := q_attempts r; q_error := q_error r; retriedAt := Some now |}
  else r.

(** Models [WebhookDlqService.retry] (backend/src/webhooks/webhook-dlq.service.ts:61-76). *)
Definition dlq_retry (now i : Z) : MD () :=
  let* entry := query (λ s, list_find (λ r, q_id r = i) (dlq s)) in
  match entry with
  | None => throw "DLQ entry not found"
  | Some (_, e) =>
      let* subscription := query (λ s, list_find (λ sub, s_url sub = q_url e ∧ s_active sub = true) (subscriptions s)) in
      do* update (λ s, set_queue (queue s ++
        [{| targetUrl := q_url e; eventType := q_event e; idempotencyKey := q_key e; payload := q_payload e;
            job_secret := (λ x : nat * Subscription, s_secret x.2) <$> subscription; job_attempt := None |}])%list s) in
      update (λ s, set_dlq (mark_retried i now <$> dlq s) s)
  end.

(** ** webhook-delivery.service.ts *)

(** Models [WebhookDeliveryService.recordDelivery] (backend/src/webhooks/webhook-delivery.service.ts:115-143). *)
Definition recordDelivery (row : DeliveryRow) : MD () :=
  try_catch (E:=string) (update (λ s, set_deliveries (deliveries s ++ [row])%list s)) (λ _, ret tt).

Definition delivery_headers (job : Job) (timestamp : Z) (signature : string) : list (string * string) :=
  ([("Content-Type", "application/json"); ("X-Event-Type", eventType job);
    ("X-Idempotency-Key", idempotencyKey job); ("X-Niffy-Timestamp", show_Z timestamp)] ++
   (if bool_decide (signature = "") then [] else [("X-Niffy-Signature", signature)]))%list.

(** [now] is Date.now().
    Models [WebhookDeliveryService.deliver] (backend/src/webhooks/webhook-delivery.service.ts:58-112). *)
Definition deliver (now : Z) (job : Job) : MD DeliveryResult :=
  let rawBody := payload job in
  let timestamp := now / 1000 in
  let signature := match truthy (job_secret job) with
                   | Some secret => signRawBody secret rawBody timestamp
                   | None => ""
                   end in
  let attempt := default 1 (job_attempt job) in
  let* res := httpPost {| h_url := targetUrl job; h_body := rawBody; h_headers := delivery_headers job timestamp signature |} in
  let result :=
    match res with
    | Ok status =>
        let ok := (200 <=? status) && (status <? 300) in
        {| success := ok; responseCode := Some status;
           error := if ok then None else Some ("HTTP " +:+ show_Z status); signature := signature |}
    | Throw message => {| success := false; responseCode := None; error := Some message; signature := signature |}
    end in
  do* recordDelivery {| d_url := targetUrl job; d_event := eventType job; d_key := idempotencyKey job;
        d_attempt := attempt; d_success := success result; d_code := responseCode result; d_error := error result |} in
  do* (if success result then ret tt
       else if isExhausted attempt DEFAULT_MAX_ATTEMPTS then dlq_add job attempt (error result) else ret tt) in
  ret result.

(** ** outbound.queue.ts *)

Variable MAX_OUTBOUND_WEBHOOK_SIZE_BYTES : Z.

Definition with_attempt (n : Z) (job : Job) : Job :=
  {| targetUrl := targetUrl job; eventType := eventType job; idempotencyKey := idempotencyKey job;
     payload := payload job; job_secret := job_secret job; job_attempt := Some n |}.

(** The worker's processor: [jobProcessor] when one is set, else an unsigned request that rejects unless the
    status is a success.
    Models [outboundWebhookWorker] (backend/src/webhooks/outbound.queue.ts:65-103). *)
Definition outboundWorker (jobProcessor : option (Job → MD ())) (job : Job) (attemptsMade : Z) : MD () :=
  if MAX_OUTBOUND_WEBHOOK_SIZE_BYTES <? str_len (payload job) then throw "Webhook payload size exceeds limit"
  else
    match jobProcessor with
    | Some p => p (with_attempt (attemptsMade + 1) job)
    | None =>
        let* res := httpPost {| h_url := targetUrl job; h_body := payload job;
          h_headers := [("Content-Type", "application/json"); ("X-Event-Type", eventType job);
                        ("X-Idempotency-Key", idempotencyKey job)] |} in
        match res with
        | Ok status => if (200 <=? status) && (status <? 300) then ret tt else throw ("HTTP " +:+ show_Z status)
        | Throw message => throw message
        end
    end.

(** The processor the module installs.
    Models [WebhooksModule.onModuleInit] (backend/src/webhooks/webhooks.module.ts:34-38). *)
Definition installed_processor (now : Z) : option (Job → MD ()) := Some (λ job, do* deliver now job in ret tt).

(** ** outbound-webhook.service.ts *)

(** Models [OutboundWebhookService.getSubscriberUrls] (backend/src/webhooks/outbound-webhook.service.ts:11-14). *)
Definition getSubscriberUrls (raw : string) : list string :=
  filter (λ u, u ≠ "") (trim <$> split ","%char raw).

(** The key of one subscriber's job. *)
Definition subscriber_key (key url : string) : string := key +:+ ":" +:+ str_take 16 (toBase64Url url).

(** Models [OutboundWebhookService.enqueueForEvent] (backend/src/webhooks/outbound-webhook.service.ts:16-30). *)
Definition enqueueForEvent (event : string) (urls : list string) (body key : string) : MD () :=
  for_each urls (λ url, update (λ s, set_queue (queue s ++
    [{| targetUrl := url; eventType := event; idempotencyKey := subscriber_key key url; payload := body;
        job_secret := None; job_attempt := None |}])%list s)).

(** The four event methods differ in the event and in the variable that lists the subscribers.
    Models [OutboundWebhookService.deliverClaimFiled] (backend/src/webhooks/outbound-webhook.service.ts:32-72). *)
Definition deliverEvent (event raw : string) (body key : string) : MD () :=
  let urls := getSubscriberUrls raw in
  if bool_decide (length urls = O) then ret tt else enqueueForEvent event urls body key.
End delivery.

(** ** The job runner

    BullMQ runs the processor of a job with the number of attempts already
    made; a job whose processor resolves is completed, one whose processor
    rejects is tried again until its attempts are used up. *)
Class BullMQ (W E : Type) := run_job : nat → Z → (Z → M W E ()) → W → bool * W.

Class BullMQLaws (W E : Type) `{BullMQ W E} : Prop := {
  run_completed : ∀ left k p w w', p k w = (Ok tt, w') → run_job (S left) k p w = (true, w');
  run_retried : ∀ left k p w e w', p k w = (Throw e, w') → run_job (S (S left)) k p w = run_job (S left) (k + 1) p w';
  run_failed : ∀ k p w e w', p k w = (Throw e, w') → run_job 1 k p w = (false, w');
}.

(** ** queues/queue-config.ts *)

Inductive BackoffType := exponential | fixed.

(** Models [QueueRetryConfig] (backend/src/queues/queue-config.ts:18-21). *)
Record QueueRetryConfig := { maxAttempts : Z; backoff_type : BackoffType; backoff_delay : Z }.

Definition retry (n delay : Z) : QueueRetryConfig :=
  {| maxAttempts := n; backoff_type := exponential; backoff_delay := delay |}.

(** Models [QUEUE_RETRY_DEFAULTS] (backend/src/queues/queue-config.ts:43-54). *)
Definition QUEUE_RETRY_DEFAULTS : list (string * QueueRetryConfig) :=
  [("tx-submit", retry 3 2000); ("claim-events", retry 5 1000); ("claim-payouts", retry 7 5000);
   ("indexer", retry 5 2000); ("notifications", retry 3 1000); ("reindex", retry 3 2000); ("backfill", retry 3 2000);
   ("policy-renewal-reminders", retry 5 2000); ("webhooks", retry 5 1000); ("outbound-webhooks", retry 5 1000)].

(** Models [QUEUE_CONCURRENCY_DEFAULTS] (backend/src/queues/queue-config.ts:3-14). *)
Definition QUEUE_CONCURRENCY_DEFAULTS : list (string * Z) :=
  [("tx-submit", 1); ("claim-events", 5); ("claim-payouts", 3); ("indexer", 5); ("notifications", 5); ("reindex", 3);
   ("backfill", 3); ("policy-renewal-reminders", 3); ("webhooks", 5); ("outbound-webhooks", 5)].

Definition parse_type (s : string) : option BackoffType :=
  if bool_decide (s = "exponential") then Some exponential else if bool_decide (s = "fixed") then Some fixed else None.

(** A parsed number that is not NaN and at least one. *)
Definition positive_int (s : string) : option Z :=
  match parseInt10 s with Some n => if n <? 1 then None else Some n | None => None end.

(** One entry of the map; absent for each [continue]. *)
Definition parse_entry (entry : string) : option (string * QueueRetryConfig) :=
  match cut "="%char (trim entry) with
  | None => None
  | Some (n, v) =>
      let name := trim n in
      let value := trim v in
      if bool_decide (name = "") || bool_decide (value = "") then None
      else match trim <$> split ","%char value with
           | [attemptsStr; typeStr; delayStr] =>
               match positive_int attemptsStr, parse_type typeStr, positive_int delayStr with
               | Some a, Some t, Some d =>
                   Some (name, {| maxAttempts := a; backoff_type := t; backoff_delay := d |})
               | _, _, _ => None
               end
           | _ => None
           end
  end.

(** Models [parseRetryMap] (backend/src/queues/queue-config.ts:64-96). *)
Definition parseRetryMap (raw : option string) : list (string * QueueRetryConfig) :=
  match truthy raw with
  | None => []
  | Some r =>
      if bool_decide (trim r = "") then []
      else foldl (λ m entry, match parse_entry entry with Some (n, c) => alist_put n c m | None => m end) []
             (split ";"%char r)
  end.

(** Models [getQueueRetryConfig] (backend/src/queues/queue-config.ts:112-115). *)
Definition getQueueRetryConfig (QUEUE_RETRY_MAP : option string) (queueName : string) : option QueueRetryConfig :=
  match alist_get queueName (parseRetryMap QUEUE_RETRY_MAP) with
  | Some c => Some c
  | None => alist_get queueName QUEUE_RETRY_DEFAULTS
  end.

(** One pair of the concurrency map. *)
Definition parse_pair (pair : string) : option (string * Z) :=
  match split "="%char (trim pair) with
  | name :: value :: _ =>
      if bool_decide (name = "") || bool_decide (value = "") then None
      else match positive_int value with Some n => Some (trim name, n) | None => None end
  | _ => None
  end.

(** Models [getQueueConcurrency] (backend/src/queues/queue-config.ts:117-137). *)
Definition getQueueConcurrency (queueName : string) (concurrencyMapStr : option string) : option Z :=
  match truthy concurrencyMapStr with
  | None => alist_get queueName QUEUE_CONCURRENCY_DEFAULTS
  | Some s =>
      match alist_get queueName
        (foldl (λ m pair, match parse_pair pair with Some (n, c) => alist_put n c m | None => m end) [] (split ","%char s)) with
      | Some c => Some c
      | None => alist_get queueName QUEUE_CONCURRENCY_DEFAULTS
      end
  end.

(** Models [MAX_OUTBOUND_ATTEMPTS] (backend/src/webhooks/outbound.queue.ts:34-42). *)
Definition MAX_OUTBOUND_ATTEMPTS (legacy QUEUE_RETRY_MAP : option string) : option Z :=
  match match truthy legacy with Some l => positive_int l | None => None end with
  | Some n => Some n
  | None => maxAttempts <$> getQueueRetryConfig QUEUE_RETRY_MAP "outbound-webhooks"
  end.

(** ** Properties of the schedule and the configuration *)

Lemma schedule_closed fuel a maxA base cap :
  (Z.to_nat (maxA - a) ≤ fuel)%nat →
  schedule_loop fuel a maxA base cap = (λ i, backoffDelayMs (a + Z.of_nat i) base cap) <$> seq 0 (Z.to_nat (maxA - a)).
Proof.
  revert a. induction fuel as [|fuel IH]; intros a Hf; cbn [schedule_loop].
  { by replace (Z.to_nat (maxA - a)) with O by lia. }
  destruct (a <? maxA) eqn:Hlt; bool_prop; [|by replace (Z.to_nat (maxA - a)) with O by lia].
  rewrite IH by lia. replace (Z.to_nat (maxA - a)) with (S (Z.to_nat (maxA - (a + 1)))) by lia.
  cbn [seq fmap list_fmap]. rewrite Z.add_0_r. f_equal. rewrite <-fmap_S_seq, <-list_fmap_compose.
  apply list_fmap_ext. intros i x _. cbn. f_equal. lia.
Qed.

(** The retry schedule.  For a budget of n attempts there are exactly n - 1 delays; the i-th is the base
    doubled i times (30 times at most) and never above the cap, and no delay is shorter than the one before. *)
Theorem retry_schedule maxA base cap :
  0 ≤ base → 0 ≤ cap →
  computeRetrySchedule maxA base cap =
    (λ i, Z.min (base * 2 ^ Z.min (Z.of_nat i) 30) cap) <$> seq 0 (Z.to_nat (maxA - 1)) ∧
  ∀ i j x y, (i ≤ j)%nat → computeRetrySchedule maxA base cap !! i = Some x →
    computeRetrySchedule maxA base cap !! j = Some y → 0 ≤ x ≤ y ∧ y ≤ cap.
Proof.
  intros Hb Hc.
  assert (computeRetrySchedule maxA base cap =
    (λ i, Z.min (base * 2 ^ Z.min (Z.of_nat i) 30) cap) <$> seq 0 (Z.to_nat (maxA - 1))) as Heq.
  { unfold computeRetrySchedule. rewrite schedule_closed by lia. apply list_fmap_ext. intros i x Hx. unfold backoffDelayMs.
    rewrite (proj2 (Z.ltb_ge _ _)) by lia. by replace (1 + Z.of_nat x - 1) with (Z.of_nat x) by lia. }
  split; [done|]. intros i j x y Hij. rewrite Heq, !list_lookup_fmap.
  intros (a & [-> _]%lookup_seq & ->)%fmap_Some (b & [-> _]%lookup_seq & ->)%fmap_Some. cbn.
  assert (0 ≤ 2 ^ Z.min (Z.of_nat i) 30 ≤ 2 ^ Z.min (Z.of_nat j) 30).
  { split; [apply Z.pow_nonneg; lia|apply Z.pow_le_mono_r; lia]. }
  nia.
Qed.

Lemma positive_int_pos s n : positive_int s = Some n → 1 ≤ n.
Proof. unfold positive_int. intros. case_tests. lia. Qed.

Definition sane (c : QueueRetryConfig) : Prop := 1 ≤ maxAttempts c ∧ 1 ≤ backoff_delay c.

Lemma parse_entry_sane e n c : parse_entry e = Some (n, c) → sane c.
Proof.
  unfold parse_entry, sane. intros Hp. case_tests.
  all: cbn; eauto using positive_int_pos.
Qed.

Lemma parse_pair_pos e n c : parse_pair e = Some (n, c) → 1 ≤ c.
Proof.
  unfold parse_pair. destruct (split _ _) as [|name [|value l]]; [done..|]. destruct (_ || _); [done|].
  destruct (positive_int value) eqn:Hv; [|done]. intros [= _ <-]. by eapply positive_int_pos.
Qed.

(** No environment can disable a queue.  Whatever QUEUE_RETRY_MAP contains, every queue has a retry
    budget of at least one attempt with a delay of at least one millisecond, and at least one concurrent worker;
    so has the outbound queue with its legacy variable.  Unusable entries are ignored. *)
Theorem queue_config_sane raw conc legacy q :
  q ∈ (fst <$> QUEUE_RETRY_DEFAULTS) →
  (∃ c, getQueueRetryConfig raw q = Some c ∧ 1 ≤ maxAttempts c ∧ 1 ≤ backoff_delay c) ∧
  (∃ n, getQueueConcurrency q conc = Some n ∧ 1 ≤ n) ∧
  (∃ n, MAX_OUTBOUND_ATTEMPTS legacy raw = Some n ∧ 1 ≤ n).
Proof.
  intros Hq.
  assert (∀ q, q ∈ (fst <$> QUEUE_RETRY_DEFAULTS) → ∃ c, getQueueRetryConfig raw q = Some c ∧ sane c) as Hconf.
  { intros q' Hq'. unfold getQueueRetryConfig.
    assert (∀ c, alist_get q' (parseRetryMap raw) = Some c → sane c) as Hmap.
    { unfold parseRetryMap. destruct (truthy raw) as [r|]; [|done]. case_bool_decide; [done|].
      assert (∀ l m, (∀ c, alist_get q' m = Some c → sane c) → ∀ c, alist_get q' (foldl (λ m entry,
        match parse_entry entry with Some (n, c) => alist_put n c m | None => m end) m l) = Some c → sane c) as Hfold.
      { induction l as [|e l IH]; intros m Hm; [done|]. cbn [foldl]. apply IH.
        destruct (parse_entry e) as [[n c]|] eqn:He; [|done]. intros c'. rewrite alist_get_put. case_decide; [|apply Hm].
        intros [= <-]. by eapply parse_entry_sane. }
      by apply Hfold. }
    destruct (alist_get q' (parseRetryMap raw)) as [c|]; [by eauto|].
    repeat (apply elem_of_cons in Hq' as [->|Hq']; [eexists; split; [reflexivity|split; cbn; lia]|]).
    by apply elem_of_nil in Hq'. }
  split_and!.
  - by apply Hconf.
  - unfold getQueueConcurrency.
    assert (∃ n, alist_get q QUEUE_CONCURRENCY_DEFAULTS = Some n ∧ 1 ≤ n) as Hdef.
    { repeat (apply elem_of_cons in Hq as [->|Hq]; [eexists; split; [reflexivity|lia]|]). by apply elem_of_nil in Hq. }
    destruct (truthy conc) as [s|]; [|done].
    assert (∀ l m, (∀ c : Z, alist_get q m = Some c → 1 ≤ c) → ∀ c, alist_get q (foldl (λ m pair,
      match parse_pair pair with Some (n, c) => alist_put n c m | None => m end) m l) = Some c → 1 ≤ c) as Hfold.
    { induction l as [|e l IH]; intros m Hm; [done|]. cbn [foldl]. apply IH.
      destruct (parse_pair e) as [[n c]|] eqn:He; [|done]. intros c'. rewrite alist_get_put. case_decide; [|apply Hm].
      intros [= <-]. by eapply parse_pair_pos. }
    destruct (alist_get q (foldl _ [] _)) as [c|] eqn:Hc; [|done]. exists c. split; [done|]. by eapply Hfold; [|exact Hc].
  - unfold MAX_OUTBOUND_ATTEMPTS.
    destruct (match truthy legacy with Some l => positive_int l | None => None end) as [n|] eqn:Hl.
    + exists n. split; [done|]. destruct (truthy legacy); [by eapply positive_int_pos|done].
    + destruct (Hconf "outbound-webhooks") as (c & -> & Hs & _); [|by exists (maxAttempts c)].
      unfold QUEUE_RETRY_DEFAULTS. cbn. repeat (first [left|right]).
Qed.

(** ** Properties of delivery *)

Section delivery_facts.
Context `{H : Hmac, !HmacLaws H}.
Variable http : nat → result string Z.
Variable alertThreshold : Z.
Abbreviation deliver := (deliver http alertThreshold).

(** A call that is swallowed when it fails. *)
Lemma swallowed_update (f : dstate → dstate) (w : rworld dstate) :
  ∃ s fs, try_catch (E:=string) (update f) (λ _, ret tt : MD ()) w = (Ok tt, RWorld s fs) ∧
    (s = rstate w ∨ s = f (rstate w)) ∧ (faults w = [] → s = f (rstate w) ∧ fs = []).
Proof.
  destruct w as [s [|[] fs]]; unfold try_catch, update, cmd; cbn; do 2 eexists; (split; [done|]); (split; [auto|by intros]).
Qed.

(** Everything except the dead letters and their alerts. *)
Definition same_but_dlq (s s' : dstate) : Prop :=
  deliveries s' = deliveries s ∧ subscriptions s' = subscriptions s ∧ queue s' = queue s ∧ posted s' = posted s.

(** A new dead letter for the job. *)
Definition dead_letter (job : Job) (attempts : Z) (err : option string) (s : dstate) : list DlqRow :=
  (dlq s ++ [{| q_id := Z.of_nat (length (dlq s)); q_url := targetUrl job; q_event := eventType job;
     q_key := idempotencyKey job; q_payload := payload job; q_attempts := attempts; q_error := err;
     retriedAt := None |}])%list.

Lemma dlq_add_spec job attempts err (w : rworld dstate) :
  ∃ s fs, dlq_add alertThreshold job attempts err w = (Ok tt, RWorld s fs) ∧ same_but_dlq (rstate w) s ∧
    (dlq s = dlq (rstate w) ∨ dlq s = dead_letter job attempts err (rstate w)) ∧
    (faults w = [] → dlq s = dead_letter job attempts err (rstate w)).
Proof.
  destruct w as [s fs]. unfold dlq_add, checkThreshold, try_catch, bind, update, query, cmd. cbn.
  destruct fs as [|[] fs]; cbn.
  - case_test; do 2 eexists; (split; [done|]); unfold same_but_dlq, dead_letter; cbn; auto.
  - do 2 eexists. split; [done|]. split; [done|]. split; [by left|done].
  - destruct fs as [|[] fs]; cbn; [case_test| |case_test]; do 2 eexists; (split; [done|]);
      unfold same_but_dlq, dead_letter; cbn; auto.
Qed.

(** The signature a job is sent with. *)
Definition signature_of (now : Z) (job : Job) : string :=
  match truthy (job_secret job) with Some secret => signRawBody secret (payload job) (now / 1000) | None => "" end.

Definition http_ok (o : result string Z) : bool :=
  match o with Ok status => (200 <=? status) && (status <? 300) | Throw _ => false end.

Lemma deliver_outcome now job (w : rworld dstate) :
  let n := length (posted (rstate w)) in
  ∃ res s fs, deliver now job w = (Ok res, RWorld s fs) ∧
    success res = http_ok (http n) ∧ signature res = signature_of now job ∧
    posted s = (posted (rstate w) ++ [{| h_url := targetUrl job; h_body := payload job;
                  h_headers := delivery_headers job (now / 1000) (signature_of now job) |}])%list ∧
    queue s = queue (rstate w) ∧
    (http_ok (http n) = true ∨ default 1 (job_attempt job) < 5 → dlq s = dlq (rstate w)) ∧
    (faults w = [] → 
       (∃ row, deliveries s = (deliveries (rstate w) ++ [row])%list ∧ d_success row = success res ∧
          d_attempt row = default 1 (job_attempt job) ∧ d_key row = idempotencyKey job) ∧
       (http_ok (http n) = false → 5 ≤ default 1 (job_attempt job) →
          length (dlq s) = S (length (dlq (rstate w))))).
Proof.
  intros n. unfold Delivery.deliver, bind at 1, httpPost. cbv zeta. fold (signature_of now job).
  set (res := match http (length (posted (rstate w))) with Ok _ => _ | Throw _ => _ end).
  assert (success res = http_ok (http n) ∧ signature res = signature_of now job) as [Hs Hsig].
  { unfold res. fold n. by destruct (http n). }
  match goal with |- context [bind (recordDelivery ?r) _ ?w1] => set (row := r); set (w1' := w1) end.
  destruct (swallowed_update (λ s, set_deliveries (deliveries s ++ [row])%list s) w1') as (s1 & fs1 & Hrec & Hcase & Hheal).
  unfold bind at 1. unfold recordDelivery. rewrite Hrec.
  assert (posted s1 = posted (rstate w1') ∧ queue s1 = queue (rstate w1') ∧ dlq s1 = dlq (rstate w1')) as (Hp & Hq & Hd).
  { destruct Hcase as [->| ->]; done. }
  unfold bind. rewrite Hs. destruct (http_ok (http n)) eqn:Hok.
  - exists res, s1, fs1. split_and!; try done. intros Hf. destruct (Hheal Hf) as [-> _]. split; [|done].
    exists row. cbn. by rewrite Hs.
  - unfold isExhausted, DEFAULT_MAX_ATTEMPTS.
    destruct (5 <=? default 1 (job_attempt job)) eqn:Hex; bool_prop.
    + destruct (dlq_add_spec job (default 1 (job_attempt job)) (error res) (RWorld s1 fs1))
        as (s2 & fs2 & -> & (Hd2 & _ & Hq2 & Hp2) & _ & Hall). cbn in *.
      exists res, s2, fs2. split_and!; [done|congruence|done|by rewrite Hp2, Hp|by rewrite Hq2, Hq|intros [?|?]; [done|lia]|].
      intros Hf. destruct (Hheal Hf) as [-> ->]. split.
      * exists row. rewrite Hd2. cbn. by rewrite Hs.
      * intros _ _. rewrite (Hall eq_refl). unfold dead_letter. rewrite length_app. cbn. lia.
    + exists res, s1, fs1. split_and!; try done. intros Hf. destruct (Hheal Hf) as [-> _]. split; [|lia].
      exists row. cbn. by rewrite Hs.
Qed.

(** One delivery attempt, whatever fails.  It always resolves and sends exactly one request; it succeeds
    exactly on a 2xx answer; it never touches the queue, and it files a dead letter only for a failed attempt
    number five or later.  When the database answers, the attempt is logged with its outcome, and a failed
    attempt number five or later is filed.  A receiver that holds the job's secret among its secrets accepts
    the signature of the request for as long as its clock is within the tolerance. *)
Theorem delivery_attempt now job (w : rworld dstate) :
  let n := length (posted (rstate w)) in
  ∃ res s fs, deliver now job w = (Ok res, RWorld s fs) ∧
    success res = http_ok (http n) ∧
    posted s = (posted (rstate w) ++ [{| h_url := targetUrl job; h_body := payload job;
                  h_headers := delivery_headers job (now / 1000) (signature res) |}])%list ∧
    queue s = queue (rstate w) ∧
    (http_ok (http n) = true ∨ default 1 (job_attempt job) < 5 → dlq s = dlq (rstate w)) ∧
    (faults w = [] → 
       (∃ row, deliveries s = (deliveries (rstate w) ++ [row])%list ∧ d_success row = success res ∧
          d_attempt row = default 1 (job_attempt job) ∧ d_key row = idempotencyKey job) ∧
       (http_ok (http n) = false → 5 ≤ default 1 (job_attempt job) →
          length (dlq s) = S (length (dlq (rstate w))))) ∧
    ∀ secret secrets o nowMs, job_secret job = Some secret → secret ≠ "" → 0 ≤ now / 1000 < 2 ^ 53 →
      secret ∈ secret_list secrets → Z.abs (clock nowMs o - now / 1000) ≤ tolerance o →
      verifySignature nowMs (Some (signature res)) (payload job) secrets o = Ok (now / 1000).
Proof.
  intros n. destruct (deliver_outcome now job w) as (res & s & fs & Hd & Hs & Hsig & Hp & Hq & Hdlq & Hheal).
  exists res, s, fs. rewrite Hsig. split_and!; try done.
  intros secret secrets o nowMs Hsec Hne Ht Hin Hw. unfold signature_of. rewrite Hsec. cbn.
  destruct secret as [|c secret]; [done|]. by apply signed_accepted.
Qed.

(** A failed delivery is never retried.  The processor the module installs calls [deliver], which
    resolves also for a failed delivery, so the job runner takes the job as completed after its first attempt:
    whatever the receiver answers and whatever the configured number of attempts, exactly one request is sent
    and no dead letter is filed. *)
Theorem failed_delivery_not_retried `{!BullMQ (rworld dstate) string, !BullMQLaws (rworld dstate) string}
    maxBytes now job (attempts : nat) (w : rworld dstate) :
  str_len (payload job) ≤ maxBytes →
  ∃ w', run_job (S attempts) 0 (outboundWorker http maxBytes (installed_processor http alertThreshold now) job) w = (true, w') ∧
    length (posted (rstate w')) = S (length (posted (rstate w))) ∧ dlq (rstate w') = dlq (rstate w).
Proof.
  intros Hsize. destruct (deliver_outcome now (with_attempt 1 job) w) as (res & s & fs & Hd & _ & _ & Hp & _ & Hdlq & _).
  exists (RWorld s fs). split.
  - apply run_completed. unfold outboundWorker, installed_processor. rewrite (proj2 (Z.ltb_ge _ _)) by done.
    change (0 + 1) with 1. unfold bind. by rewrite Hd.
  - cbn. rewrite Hp, length_app. cbn. split; [lia|]. apply Hdlq. right. cbn. lia.
Qed.

(** Without the installed processor the runner would retry: every attempt that fails is followed by another,
    until the attempts are used up. *)
Lemma plain_worker_retries `{!BullMQ (rworld dstate) string, !BullMQLaws (rworld dstate) string}
    maxBytes job (attempts : nat) k (w : rworld dstate) :
  str_len (payload job) ≤ maxBytes → (∀ n, http_ok (http n) = false) →
  ∃ w', run_job (S attempts) k (outboundWorker http maxBytes None job) w = (false, w') ∧
    length (posted (rstate w')) = (length (posted (rstate w)) + S attempts)%nat.
Proof.
  intros Hsize Hfail. revert k w.
  assert (∀ k w, ∃ e w', outboundWorker http maxBytes None job k w = (Throw e, w') ∧
    length (posted (rstate w')) = S (length (posted (rstate w)))) as Hstep.
  { intros k w. unfold outboundWorker. rewrite (proj2 (Z.ltb_ge _ _)) by done.
    unfold bind, httpPost. specialize (Hfail (length (posted (rstate w)))). unfold http_ok in Hfail.
    destruct (http _) as [status|msg]; [rewrite Hfail|]; do 2 eexists; (split; [done|]); cbn; rewrite length_app; cbn; lia. }
  induction attempts as [|attempts IH]; intros k w; destruct (Hstep k w) as (e & w1 & He & Hl).
  - exists w1. split; [by eapply run_failed|lia].
  - destruct (IH (k + 1) w1) as (w2 & Hr & Hl2). exists w2. split; [|lia]. by rewrite (run_retried _ _ _ _ _ _ He).
Qed.

(** Subscribers are not told apart by their key.  The key of a subscriber's job contains the first
    sixteen base64url characters of its URL, that is its first twelve characters, the scheme and four more: two
    subscribers that agree on them get the same idempotency key for the same event. *)
Theorem subscriber_keys_collide key p u1 u2 :
  String.length p = 12%nat → subscriber_key key (p +:+ u1) = subscriber_key key (p +:+ u2).
Proof.
  intros Hl. unfold subscriber_key. do 2 f_equal.
  do 12 (destruct p as [|? p]; [done|]). destruct p; [|done]. reflexivity.
Qed.

Lemma list_find_row i (l : list DlqRow) j r :
  list_find (λ r, q_id r = i) l = Some (j, r) → q_id r = i ∧ r ∈ l.
Proof. intros (Hl & Hr & _)%list_find_Some. split; [done|]. by eapply list_elem_of_lookup_2. Qed.

(** Re-sending a dead letter.  When nothing fails, exactly one job with the letter's data and the secret
    of an active subscription to its URL is queued, and the letter is no longer pending.  When only the last
    write fails, the caller gets an error although the job is queued, and the letter is still pending. *)
Theorem dlq_retry_spec now i (s : dstate) j e :
  list_find (λ r, q_id r = i) (dlq s) = Some (j, e) →
  let job := {| targetUrl := q_url e; eventType := q_event e; idempotencyKey := q_key e; payload := q_payload e;
                job_secret := (λ x : nat * Subscription, s_secret x.2) <$>
                  list_find (λ sub, s_url sub = q_url e ∧ s_active sub = true) (subscriptions s);
                job_attempt := None |} in
  (∃ s', dlq_retry now i (RWorld s []) = (Ok tt, RWorld s' []) ∧ queue s' = (queue s ++ [job])%list ∧
     (∀ r, r ∈ pending_rows s' → q_id r ≠ i) ∧
     (∀ r, r ∈ pending_rows s → q_id r ≠ i → r ∈ pending_rows s')) ∧
  (∃ err s', dlq_retry now i (RWorld s [false; false; false; true]) = (Throw err, RWorld s' []) ∧
     queue s' = (queue s ++ [job])%list ∧ pending_rows s' = pending_rows s).
Proof.
  intros Hf job. split.
  - unfold dlq_retry, bind, query, update, cmd. cbn. rewrite Hf. cbn. eexists. split; [done|]. split; [done|].
    unfold pending_rows. cbn. split.
    + intros r [Hr (r0 & -> & Hin)%list_elem_of_fmap]%list_elem_of_filter. unfold mark_retried in *.
      destruct (q_id r0 =? i) eqn:Hi; bool_prop; [by cbn in Hr|done].
    + intros r [Hr Hin]%list_elem_of_filter Hne. apply list_elem_of_filter. split; [done|].
      apply list_elem_of_fmap. exists r. split; [|done]. unfold mark_retried. by rewrite (proj2 (Z.eqb_neq _ _)).
  - unfold dlq_retry, bind, query, update, cmd. cbn. rewrite Hf. cbn. do 2 eexists. split; [done|]. done.
Qed.
End delivery_facts.

Module DeliveryWitnesses.

(** A runner that does what the laws say. *)
Fixpoint run_bull {W E} (left : nat) (k : Z) (p : Z → M W E ()) (w : W) : bool * W :=
  match left with
  | O => (false, w)
  | S left' =>
      match p k w with
      | (Ok _, w') => (true, w')
      | (Throw _, w') => match left' with O => (false, w') | _ => run_bull left' (k + 1) p w' end
      end
  end.
#[export] Instance sample_bull : BullMQ (rworld dstate) string := run_bull.
#[export] Instance sample_bull_laws : BullMQLaws (rworld dstate) string.
Proof.
  split; unfold run_job, sample_bull; cbn.
  - by intros left k p w w' ->.
  - by intros left k p w e w' ->.
  - by intros k p w e w' ->.
Qed.

Lemma retry_schedule_witness : computeRetrySchedule 5 1000 32000 = [1000; 2000; 4000; 8000].
Proof. rewrite (proj1 (retry_schedule 5 1000 32000 ltac:(lia) ltac:(lia))). reflexivity. Defined.

Lemma queue_config_sane_witness :
  ∃ c, getQueueRetryConfig (Some "webhooks=0,fixed,1;webhooks=7,fixed,5000") "webhooks" = Some c ∧
    1 ≤ maxAttempts c ∧ 1 ≤ backoff_delay c.
Proof.
  refine (proj1 (queue_config_sane (Some "webhooks=0,fixed,1;webhooks=7,fixed,5000") None None "webhooks" _)).
  do 8 right. left.
Defined.

Example retry_override : getQueueRetryConfig (Some "webhooks=0,fixed,1;webhooks= 7 ,fixed,5000") "webhooks" =
  Some {| maxAttempts := 7; backoff_type := fixed; backoff_delay := 5000 |}.
Proof. reflexivity. Qed.

Definition no_state : dstate :=
  {| deliveries := []; dlq := []; subscriptions := []; queue := []; posted := []; dlq_alerts := [] |}.
Definition a_job : Job :=
  {| targetUrl := "https://hooks.example.com/a"; eventType := "claim.filed"; idempotencyKey := "k"; payload := "{}";
     job_secret := None; job_attempt := None |}.
Definition server_down (n : nat) : result string Z := Ok 503.
(** No secret, so no digest is computed. *)
#[local] Instance any_hmac : Hmac := SignatureWitnesses.sample_hmac.

#[local] Instance any_hmac_laws : HmacLaws any_hmac := SignatureWitnesses.sample_hmac_laws.

Lemma delivery_attempt_witness :
  ∃ res s fs, deliver server_down 100 0 a_job (RWorld no_state []) = (Ok res, RWorld s fs) ∧ success res = false.
Proof.
  destruct (delivery_attempt server_down 100 0 a_job (RWorld no_state [])) as (res & s & fs & H1 & H2 & _).
  exists res, s, fs. split; [exact H1|exact H2].
Defined.

Lemma failed_delivery_not_retried_witness :
  ∃ w', run_job 5 0 (outboundWorker server_down 1048576 (installed_processor server_down 100 0) a_job)
          (RWorld no_state []) = (true, w') ∧ dlq (rstate w') = [].
Proof.
  destruct (failed_delivery_not_retried server_down 100 1048576 0 a_job 4 (RWorld no_state [])) as (w' & H1 & _ & H2).
  - vm_compute. discriminate.
  - exists w'. split; [exact H1|exact H2].
Defined.

Lemma subscriber_keys_collide_witness :
  subscriber_key "evt" "https://hooks.one.example/in" = subscriber_key "evt" "https://hooks.two.example/in".
Proof. exact (subscriber_keys_collide "evt" "https://hook" "s.one.example/in" "s.two.example/in" eq_refl). Defined.

Definition letter : DlqRow :=
  {| q_id := 0; q_url := "https://a"; q_event := "e"; q_key := "k"; q_payload := "{}"; q_attempts := 5;
     q_error := None; retriedAt := None |}.
Definition one_letter : dstate :=
  {| deliveries := []; dlq := [letter]; subscriptions := [{| s_url := "https://a"; s_active := true; s_secret := "s" |}];
     queue := []; posted := []; dlq_alerts := [] |}.

Lemma dlq_retry_spec_witness :
  ∃ s', dlq_retry 9 0 (RWorld one_letter []) = (Ok tt, RWorld s' []) ∧ ∀ r, r ∈ pending_rows s' → q_id r ≠ 0.
Proof.
  destruct (proj1 (dlq_retry_spec 9 0 one_letter 0 letter eq_refl)) as (s' & H1 & _ & H2 & _).
  exists s'. split; [exact H1|exact H2].
Defined.
End DeliveryWitnesses.
