(* ===== verification/Providers.v ===== *)
(** * Inbound webhooks: verification and deduplication

    backend/src/webhooks/providers/*.ts, verify.ts and idempotency.ts: which
    requests of GitHub, Stripe and generic senders are accepted, and how
    repeated deliveries are recognised.  The HMAC is the interface of
    Signature. *)

From stdpp Require Import base list strings pretty.
From Stdlib Require Import ZArith Lia Ascii.
From S2P Require Import Prelude JsText Signature.

Open Scope string_scope.
Open Scope Z_scope.

(** Models [WebhookProvider] (backend/src/types/webhook.ts:10-10). *)
Inductive WebhookProvider := github | stripe | generic.

(** Models [ProviderConfig] (backend/src/types/webhook.ts:14-21). *)
Record ProviderConfig := { secrets : list string; toleranceSecs : option Z; ipAllowlist : option (list string) }.

(** Models [VerifyResult] (backend/src/types/webhook.ts:40-42). *)
Inductive Verdict := Accepted | invalid_signature | replay | missing_header | unknown_provider | ip_blocked.
#[export] Instance Verdict_eq : EqDecision Verdict.
Proof. solve_decision. Defined.

(** Headers with a single value, by lower-case name. *)
Definition Headers := string → option string.

(** [Math.abs(nowSeconds - timestamp) > tolerance], tolerance 300 by default. *)
Definition too_old (config : ProviderConfig) (nowSeconds t : Z) : bool :=
  default 300 (toleranceSecs config) <? Z.abs (nowSeconds - t).

Definition strip_sha256 (sigHeader : string) : string :=
  if startsWith sigHeader "sha256=" then str_drop 7 sigHeader else sigHeader.

(** Equal length and [timingSafeEqual]. *)
Definition same_text (a b : string) : bool := bool_decide (a = b).

Section providers.
Context `{H : Hmac}.
(** [rawBody.toString("utf8")]: a body that is not UTF-8 is repaired. *)
Variable utf8 : string → string.

(** Models [verifyGitHub] (backend/src/webhooks/providers/github.ts:20-52). *)
Definition verifyGitHub (rawBody : string) (headers : Headers) (config : ProviderConfig) : Verdict :=
  match truthy (headers "x-hub-signature-256") with
  | None => missing_header
  | Some sigHeader =>
      let provided := strip_sha256 sigHeader in
      if existsb (λ secret, same_text (hmacHex secret rawBody) provided) (secrets config)
      then Accepted else invalid_signature
  end.

(** Models [verifyGeneric] (backend/src/webhooks/providers/generic.ts:19-66). *)
Definition verifyGeneric (rawBody : string) (headers : Headers) (config : ProviderConfig) (nowSeconds : Z) : Verdict :=
  match truthy (headers "x-webhook-signature") with
  | None => missing_header
  | Some sigHeader =>
      match truthy (headers "x-webhook-timestamp") with
      | None => missing_header
      | Some tsHeader =>
          match parseInt10 tsHeader with
          | None => missing_header
          | Some timestamp =>
              if too_old config nowSeconds timestamp then replay
              else
                let provided := strip_sha256 sigHeader in
                if existsb (λ secret, same_text (hmacHex secret (signed_content timestamp (utf8 rawBody))) provided)
                     (secrets config)
                then Accepted else invalid_signature
          end
      end
  end.

(** One part of the header: the first two pieces around [=]; the timestamp may be absent or NaN. *)
Definition stripe_part (st : option num * list string) (part : string) : option num * list string :=
  let '(key, val) := match split "="%char part with
                     | [] => ("", None)
                     | [k] => (k, None)
                     | k :: v :: _ => (k, Some v)
                     end in
  let t := if bool_decide (key = "t") then Some (match val with Some v => parseInt10 v | None => None end) else fst st in
  let sigs := match val with
              | Some v => if bool_decide (key = "v1") && negb (bool_decide (v = "")) then (snd st ++ [v])%list else snd st
              | None => snd st
              end in
  (t, sigs).

(** Models [parseStripeSig] (backend/src/webhooks/providers/stripe.ts:24-37). *)
Definition parseStripeSig (header : string) : option (Z * list string) :=
  match foldl stripe_part (None, []) (split ","%char header) with
  | (Some (Some t), (_ :: _) as sigs) => Some (t, sigs)
  | _ => None
  end.

(** Models [verifyStripe] (backend/src/webhooks/providers/stripe.ts:39-79). *)
Definition verifyStripe (rawBody : string) (headers : Headers) (config : ProviderConfig) (nowSeconds : Z) : Verdict :=
  match truthy (headers "stripe-signature") with
  | None => missing_header
  | Some sigHeader =>
      match parseStripeSig sigHeader with
      | None => missing_header
      | Some (t, v1Sigs) =>
          if too_old config nowSeconds t then replay
          else if existsb (λ secret, existsb (same_text (hmacHex secret (signed_content t (utf8 rawBody)))) v1Sigs)
                    (secrets config)
          then Accepted else invalid_signature
      end
  end.

(** The body's [id] and [type] fields when they are strings.
    Models [extractStripeMeta] (backend/src/webhooks/providers/stripe.ts:81-89). *)
Definition extractStripeMeta (bodyId bodyType : option string) : option string * string :=
  (bodyId, default "unknown" bodyType).

(** Models [extractGitHubMeta] (backend/src/webhooks/providers/github.ts:54-68). *)
Definition extractGitHubMeta (headers : Headers) : option string * string :=
  (headers "x-github-delivery", default "unknown" (headers "x-github-event")).

(** Models [extractGenericMeta] (backend/src/webhooks/providers/generic.ts:68-82). *)
Definition extractGenericMeta (headers : Headers) : option string * string :=
  (headers "x-webhook-id", default "unknown" (headers "x-webhook-event")).

(** Models [isIpAllowed] (backend/src/webhooks/verify.ts:36-40). *)
Definition isIpAllowed (ip : string) (allowlist : list string) : bool :=
  match allowlist with [] => true | _ => bool_decide (ip ∈ allowlist) end.

(** Models [VerifyContext] (backend/src/webhooks/verify.ts:19-28). *)
Record VerifyContext := {
  provider : option WebhookProvider; rawBody : string; headers : Headers; body_id : option string;
  body_type : option string; config : ProviderConfig; clientIp : string; now_s : Z }.

(** The verdict, the idempotency key and the event type.
    Models [verifyWebhook] (backend/src/webhooks/verify.ts:42-80). *)
Definition verifyWebhook (ctx : VerifyContext) : Verdict * option string * string :=
  let blocked := match ipAllowlist (config ctx) with
                 | Some ((_ :: _) as l) => negb (isIpAllowed (clientIp ctx) l)
                 | _ => false
                 end in
  if blocked then (ip_blocked, None, "unknown")
  else
    match provider ctx with
    | Some github =>
        let '(k, e) := extractGitHubMeta (headers ctx) in (verifyGitHub (rawBody ctx) (headers ctx) (config ctx), k, e)
    | Some stripe =>
        let '(k, e) := extractStripeMeta (body_id ctx) (body_type ctx) in
        (verifyStripe (rawBody ctx) (headers ctx) (config ctx) (now_s ctx), k, e)
    | Some generic =>
        let '(k, e) := extractGenericMeta (headers ctx) in
        (verifyGeneric (rawBody ctx) (headers ctx) (config ctx) (now_s ctx), k, e)
    | None => (unknown_provider, None, "unknown")
    end.
End providers.

(** ** idempotency.ts *)

(** The keys seen, with the moment they expire. *)
Definition seen := list (string * Z).

Definition DEFAULT_TTL_MS : Z := 10 * 60 * 1000.

(** Models [evict] (backend/src/webhooks/idempotency.ts:30-35). *)
Definition evict (now : Z) (s : seen) : seen := filter (λ e, now < e.2) s.

(** [now] is read twice: for the eviction and for the new entry.
    Models [isDuplicate] (backend/src/webhooks/idempotency.ts:41-51). *)
Definition isDuplicate (now now' : Z) (prov key : string) (ttlMs : Z) (s : seen) : bool * seen :=
  let s1 := evict now s in
  let k := prov +:+ ":" +:+ key in
  match alist_get k s1 with
  | Some _ => (true, s1)
  | None => (false, alist_put k (now' + ttlMs) s1)
  end.

(** ** Properties *)

Section provider_facts.
Context `{H : Hmac}.
Variable utf8 : string → string.

Lemma existsb_elem {A} (f : A → bool) l : existsb f l = true ↔ ∃ x, x ∈ l ∧ f x = true.
Proof. rewrite existsb_exists. setoid_rewrite list_elem_of_In. done. Qed.

(** What a request must carry to be authentic for a provider. *)
Definition authentic (p : WebhookProvider) (ctx : VerifyContext) : Prop :=
  match p with
  | github => ∃ h secret, headers ctx "x-hub-signature-256" = Some h ∧ h ≠ "" ∧
      secret ∈ secrets (config ctx) ∧ strip_sha256 h = hmacHex secret (rawBody ctx)
  | stripe => ∃ h t sigs secret, headers ctx "stripe-signature" = Some h ∧ parseStripeSig h = Some (t, sigs) ∧
      Z.abs (now_s ctx - t) ≤ default 300 (toleranceSecs (config ctx)) ∧ secret ∈ secrets (config ctx) ∧
      hmacHex secret (signed_content t (utf8 (rawBody ctx))) ∈ sigs
  | generic => ∃ h ts t secret, headers ctx "x-webhook-signature" = Some h ∧ h ≠ "" ∧
      headers ctx "x-webhook-timestamp" = Some ts ∧ parseInt10 ts = Some t ∧
      Z.abs (now_s ctx - t) ≤ default 300 (toleranceSecs (config ctx)) ∧ secret ∈ secrets (config ctx) ∧
      strip_sha256 h = hmacHex secret (signed_content t (utf8 (rawBody ctx)))
  end.

Definition ip_ok (ctx : VerifyContext) : Prop :=
  ∀ l, ipAllowlist (config ctx) = Some l → l ≠ [] → clientIp ctx ∈ l.

Lemma truthy_some x s : truthy x = Some s → x = Some s ∧ s ≠ "".
Proof. destruct x as [[|]|]; cbn; intros; simplify_eq; done. Qed.

Lemma truthy_none x : truthy x = None → x = None ∨ x = Some "".
Proof. destruct x as [[|]|]; cbn; intros; simplify_eq; auto. Qed.

Lemma github_exact b h c :
  verifyGitHub b h c = Accepted ↔
    ∃ x secret, h "x-hub-signature-256" = Some x ∧ x ≠ "" ∧ secret ∈ secrets c ∧ strip_sha256 x = hmacHex secret b.
Proof.
  unfold verifyGitHub. destruct (truthy (h "x-hub-signature-256")) as [x|] eqn:Hx.
  - apply truthy_some in Hx as [Hx Hne]. split.
    + destruct (existsb _ _) eqn:He; [|done]. intros _. apply existsb_elem in He as (secret & Hs & Heq).
      apply bool_decide_eq_true in Heq. eauto 10.
    + intros (x' & secret & Hx' & _ & Hs & Heq). rewrite Hx in Hx'. injection Hx' as <-.
      rewrite (proj2 (existsb_elem _ _)); [done|]. exists secret. split; [done|]. by apply bool_decide_eq_true.
  - split; [done|]. intros (x & _ & Hx' & Hne & _). apply truthy_none in Hx as [?|?]; congruence.
Qed.

Lemma generic_exact b h c now :
  verifyGeneric utf8 b h c now = Accepted ↔
    ∃ x ts t secret, h "x-webhook-signature" = Some x ∧ x ≠ "" ∧ h "x-webhook-timestamp" = Some ts ∧
      parseInt10 ts = Some t ∧ Z.abs (now - t) ≤ default 300 (toleranceSecs c) ∧ secret ∈ secrets c ∧
      strip_sha256 x = hmacHex secret (signed_content t (utf8 b)).
Proof.
  unfold verifyGeneric, too_old. destruct (truthy (h "x-webhook-signature")) as [x|] eqn:Hx.
  2: { split; [done|]. intros (x & _ & _ & _ & Hx' & Hne & _). apply truthy_none in Hx as [?|?]; congruence. }
  apply truthy_some in Hx as [Hx Hxne]. destruct (truthy (h "x-webhook-timestamp")) as [ts|] eqn:Hts.
  2: { split; [done|]. intros (x' & ts & t & secret & _ & _ & Hts' & Hp & _).
       apply truthy_none in Hts as [?|Hts]; [congruence|]. rewrite Hts in Hts'. injection Hts' as <-. done. }
  apply truthy_some in Hts as [Hts _]. destruct (parseInt10 ts) as [t|] eqn:Ht.
  2: { split; [done|]. intros (? & ? & ? & ? & _ & _ & Hts' & Hp & _). congruence. }
  destruct (_ <? _) eqn:Hold; bool_prop.
  { split; [done|]. intros (? & ? & t' & ? & _ & _ & Hts' & Hp & Hle & _).
    rewrite Hts in Hts'. injection Hts' as <-. rewrite Ht in Hp. injection Hp as <-. lia. }
  split.
  - destruct (existsb _ _) eqn:He; [|done]. intros _. apply existsb_elem in He as (secret & Hs & Heq).
    apply bool_decide_eq_true in Heq. exists x, ts, t, secret. split_and!; done.
  - intros (x' & ts' & t' & secret & Hx' & _ & Hts' & Hp & _ & Hs & Heq). simplify_eq.
    rewrite (proj2 (existsb_elem _ _)); [done|]. exists secret. split; [done|]. by apply bool_decide_eq_true.
Qed.

Lemma stripe_exact b h c now :
  verifyStripe utf8 b h c now = Accepted ↔
    ∃ x t sigs secret, h "stripe-signature" = Some x ∧ parseStripeSig x = Some (t, sigs) ∧
      Z.abs (now - t) ≤ default 300 (toleranceSecs c) ∧ secret ∈ secrets c ∧
      hmacHex secret (signed_content t (utf8 b)) ∈ sigs.
Proof.
  unfold verifyStripe, too_old. destruct (truthy (h "stripe-signature")) as [x|] eqn:Hx.
  2: { split; [done|]. intros (x & t & sigs & secret & Hx' & Hp & _). apply truthy_none in Hx as [?|Hx]; [congruence|].
       rewrite Hx in Hx'. injection Hx' as <-. done. }
  apply truthy_some in Hx as [Hx _]. destruct (parseStripeSig x) as [[t sigs]|] eqn:Hp.
  2: { split; [done|]. intros (? & ? & ? & ? & Hx' & Hp' & _). congruence. }
  destruct (_ <? _) eqn:Hold; bool_prop.
  { split; [done|]. intros (? & ? & ? & ? & Hx' & Hp' & Hle & _). simplify_eq. lia. }
  split.
  - destruct (existsb _ _) eqn:He; [|done]. intros _. apply existsb_elem in He as (secret & Hs & Heq).
    apply existsb_elem in Heq as (v & Hv & Heq). apply bool_decide_eq_true in Heq as <-. exists x, t, sigs, secret. done.
  - intros (x' & t' & sigs' & secret & Hx' & Hp' & _ & Hs & Hin). simplify_eq.
    rewrite (proj2 (existsb_elem _ _)); [done|]. exists secret. split; [done|].
    apply existsb_elem. eexists. split; [done|]. by apply bool_decide_eq_true.
Qed.

(** What an inbound webhook proves.  A request is accepted exactly when its address is allowed (an empty
    or missing list allows all) and its signature header carries the HMAC, under one of the configured secrets,
    of the received body, for Stripe and generic senders together with a timestamp within the tolerance.  During
    a rotation either secret is enough; an unknown provider is never accepted. *)
Theorem accepted_iff_authentic ctx :
  (verifyWebhook utf8 ctx).1.1 = Accepted ↔
    ip_ok ctx ∧ ∃ p, provider ctx = Some p ∧ authentic p ctx.
Proof.
  unfold verifyWebhook. set (blocked := match ipAllowlist (config ctx) with Some _ => _ | None => _ end).
  assert (blocked = false ↔ ip_ok ctx) as Hip.
  { unfold blocked, ip_ok. destruct (ipAllowlist (config ctx)) as [[|x l]|].
    - split; [intros _ l Hl Hne; congruence|done].
    - unfold isIpAllowed. rewrite negb_false_iff, bool_decide_eq_true. split; [by intros Hin ? [= <-]|eauto].
    - split; [intros _ l Hl; congruence|done]. }
  destruct blocked.
  { split; [done|]. intros [Hok _]. apply Hip in Hok. done. }
  assert (ip_ok ctx) as Hok by (by apply Hip). destruct (provider ctx) as [[]|]; cbn.
  - rewrite github_exact. naive_solver.
  - rewrite stripe_exact. naive_solver.
  - rewrite generic_exact. naive_solver.
  - split; [done|]. intros (_ & p & ? & _). done.
Qed.

(** The delivery identifier is not protected by the signature.  For GitHub and generic senders a request
    and a copy of it under another identifier get the same verdict, and the copy carries the other identifier:
    deduplication by this identifier does not stop someone who resends a signed body. *)
Theorem identifier_not_signed ctx prov name other :
  (prov = github ∧ name = "x-github-delivery") ∨ (prov = generic ∧ name = "x-webhook-id") →
  provider ctx = Some prov → (verifyWebhook utf8 ctx).1.1 = Accepted →
  let ctx' := {| provider := provider ctx; rawBody := rawBody ctx;
                 headers := λ n, if bool_decide (n = name) then Some other else headers ctx n;
                 body_id := body_id ctx; body_type := body_type ctx; config := config ctx;
                 clientIp := clientIp ctx; now_s := now_s ctx |} in
  (verifyWebhook utf8 ctx').1 = (Accepted, Some other).
Proof.
  intros Hp Hprov Hacc ctx'. unfold verifyWebhook in *. cbn [ctx' config clientIp provider].
  destruct (match ipAllowlist (config ctx) with Some _ => _ | None => _ end); [done|]. rewrite Hprov in *.
  destruct Hp as [[-> ->]|[-> ->]]; cbn -[verifyGitHub verifyGeneric] in *.
  - f_equal. rewrite <-Hacc. reflexivity.
  - f_equal. rewrite <-Hacc. reflexivity.
Qed.
End provider_facts.

(** *** Deduplication *)

Section dedup_facts.

(** Every entry of [s] under [k] lives past [t]. *)
Definition remembered (k : string) (t : Z) (s : seen) : Prop := ∃ e, (k, e) ∈ s ∧ t ≤ e.

Lemma evict_remembers k t now s : remembered k t s → now < t → remembered k t (evict now s).
Proof. intros (e & Hin & Hle) Hlt. exists e. split; [|done]. apply list_elem_of_filter. cbn. split; [lia|done]. Qed.

Lemma remembered_get k t s : remembered k t s → is_Some (alist_get k s).
Proof.
  intros (e & Hin & _). induction s as [|[k' e'] s IH]; [by apply elem_of_nil in Hin|]. cbn. case_decide; [eauto|].
  apply IH. apply elem_of_cons in Hin as [[= <- <-]|Hin]; [done|done].
Qed.

(** A delivery: clock readings, provider, key. *)
Record delivery := { at1 : Z; at2 : Z; prov : string; dkey : string }.

Definition deliver_one (s : seen) (d : delivery) : seen := snd (isDuplicate (at1 d) (at2 d) (prov d) (dkey d) DEFAULT_TTL_MS s).

Lemma deliver_remembers k t s d : remembered k t s → at1 d < t → remembered k t (deliver_one s d).
Proof.
  intros Hr Hlt. apply (evict_remembers _ _ (at1 d)) in Hr; [|done].
  unfold deliver_one, isDuplicate. cbv zeta.
  destruct (alist_get (prov d +:+ ":" +:+ dkey d) (evict (at1 d) s)) eqn:Hg; [done|]. cbn.
  destruct Hr as (e & Hin & Hle). exists e. split; [|done]. right. apply list_elem_of_filter. cbn. split; [|done].
  intros ->. destruct (remembered_get (prov d +:+ ":" +:+ dkey d) t (evict (at1 d) s)) as [x Hx]; [by exists e|]. congruence.
Qed.

(** A delivery that was let through is a duplicate for ten minutes.  Whatever other deliveries arrive
    meanwhile, the same key of the same provider is reported as a duplicate at every later moment before the
    ten minutes have passed. *)
Theorem duplicate_window d s history (d' : delivery) :
  fst (isDuplicate (at1 d) (at2 d) (prov d) (dkey d) DEFAULT_TTL_MS s) = false →
  Forall (λ x, at1 x < at2 d + 600000) history → at1 d' < at2 d + 600000 →
  prov d' = prov d → dkey d' = dkey d →
  fst (isDuplicate (at1 d') (at2 d') (prov d') (dkey d') DEFAULT_TTL_MS
         (foldl deliver_one (deliver_one s d) history)) = true.
Proof.
  intros Hfirst Hhist Hlt Hp Hk. set (k := prov d +:+ ":" +:+ dkey d).
  assert (remembered k (at2 d + 600000) (deliver_one s d)) as Hrem.
  { unfold deliver_one, isDuplicate in *. cbv zeta in *. fold k in Hfirst |- *.
    destruct (alist_get k (evict (at1 d) s)); [done|]. cbn. exists (at2 d + DEFAULT_TTL_MS). split; [left|].
    unfold DEFAULT_TTL_MS. lia. }
  assert (remembered k (at2 d + 600000) (foldl deliver_one (deliver_one s d) history)) as Hrem'.
  { revert Hrem. generalize (deliver_one s d). induction Hhist as [|x l Hx _ IH]; intros s0 Hs0; [done|].
    cbn. apply IH. by apply deliver_remembers. }
  apply (evict_remembers _ _ (at1 d')) in Hrem'; [|done].
  unfold isDuplicate. cbv zeta. rewrite Hp, Hk. fold k.
  by destruct (remembered_get _ _ _ Hrem') as [x ->].
Qed.

(** The window and the tolerance meet, with one second missing.  Let a message with timestamp [t] be let
    through at [r] milliseconds, within the tolerance of 300 seconds.  If [t] was not in the future then, every
    copy that still passes the timestamp check is recognised as a duplicate; a message dated 300 seconds ahead
    can be repeated in the last second of its tolerance. *)
Theorem replay_covered t r r' prov key s :
  t * 1000 ≤ r ≤ r' → Z.abs (r / 1000 - t) ≤ 300 → Z.abs (r' / 1000 - t) ≤ 300 →
  fst (isDuplicate r r prov key DEFAULT_TTL_MS s) = false →
  fst (isDuplicate r' r' prov key DEFAULT_TTL_MS (snd (isDuplicate r r prov key DEFAULT_TTL_MS s))) = true.
Proof.
  intros Hr Ht Ht' Hfirst. pose proof (Z.div_mod r' 1000). pose proof (Z.mod_pos_bound r' 1000).
  set (k := prov +:+ ":" +:+ key).
  assert (remembered k (r + 600000) (snd (isDuplicate r r prov key DEFAULT_TTL_MS s))) as Hrem.
  { unfold isDuplicate in *. cbv zeta in *. fold k in Hfirst |- *.
    destruct (alist_get k (evict r s)); [done|]. cbn. exists (r + DEFAULT_TTL_MS). split; [left|].
    unfold DEFAULT_TTL_MS. lia. }
  apply (evict_remembers _ _ r') in Hrem; [|lia]. unfold isDuplicate at 1. cbv zeta. fold k.
  by destruct (remembered_get _ _ _ Hrem) as [x ->].
Qed.

Example replay_gap :
  let t := 1000 in let r := 700000 in let r' := 1300000 in
  Z.abs (r / 1000 - t) ≤ 300 ∧ Z.abs (r' / 1000 - t) ≤ 300 ∧
  fst (isDuplicate r r "generic" "m" DEFAULT_TTL_MS []) = false ∧
  fst (isDuplicate r' r' "generic" "m" DEFAULT_TTL_MS (snd (isDuplicate r r "generic" "m" DEFAULT_TTL_MS []))) = false.
Proof. split_and!; [vm_compute; discriminate..|reflexivity|reflexivity]. Qed.
End dedup_facts.

Module ProviderWitnesses.
#[local] Instance some_hmac : Hmac := SignatureWitnesses.sample_hmac.
Definition as_is (s : string) : string := s.

Definition push : VerifyContext :=
  {| provider := Some github; rawBody := "{}";
     headers := λ n, if bool_decide (n = "x-hub-signature-256") then Some ("sha256=" +:+ hmacHex "k" "{}") else None;
     body_id := None; body_type := None;
     config := {| secrets := ["old"; "k"]; toleranceSecs := None; ipAllowlist := None |}; clientIp := "1.2.3.4"; now_s := 0 |}.

Lemma identifier_not_signed_witness :
  let ctx' := {| provider := provider push; rawBody := rawBody push;
                 headers := λ n, if bool_decide (n = "x-github-delivery") then Some "fresh" else headers push n;
                 body_id := body_id push; body_type := body_type push; config := config push;
                 clientIp := clientIp push; now_s := now_s push |} in
  (verifyWebhook as_is ctx').1 = (Accepted, Some "fresh").
Proof.
  refine (identifier_not_signed as_is push github "x-github-delivery" "fresh" _ _ _).
  - left. split; reflexivity.
  - reflexivity.
  - vm_compute. reflexivity.
Defined.

Lemma duplicate_window_witness :
  fst (isDuplicate 599999 599999 "stripe" "evt_1" DEFAULT_TTL_MS
         (foldl deliver_one (deliver_one [] {| at1 := 0; at2 := 0; prov := "stripe"; dkey := "evt_1" |})
            [{| at1 := 5; at2 := 5; prov := "github"; dkey := "d" |}])) = true.
Proof.
  refine (duplicate_window {| at1 := 0; at2 := 0; prov := "stripe"; dkey := "evt_1" |} [] _
    {| at1 := 599999; at2 := 599999; prov := "stripe"; dkey := "evt_1" |} _ _ _ _ _); try reflexivity.
  repeat constructor.
Defined.

Lemma replay_covered_witness :
  fst (isDuplicate 1300999 1300999 "generic" "m" DEFAULT_TTL_MS (snd (isDuplicate 1000000 1000000 "generic" "m" DEFAULT_TTL_MS []))) = true.
Proof. refine (replay_covered 1000 1000000 1300999 "generic" "m" [] _ _ _ _); [lia|vm_compute; discriminate..|reflexivity]. Defined.
End ProviderWitnesses.
