(* ===== verification/Registration.v ===== *)
(** * Webhook registration and subscriptions

    backend/src/webhooks/webhook-registration.service.ts (webhooks kept in
    memory and activated by an echoed challenge), webhook-subscriptions.service.ts
    (subscriptions in the database, their targets checked by Ssrf) and the daily
    job of webhook-ssrf-revalidation.service.ts.  The URL parser, the resolver
    and the database are parameters. *)

From stdpp Require Import base gmap list strings.
From Stdlib Require Import ZArith Lia.
From S2P Require Import Prelude JsText Redis Ssrf.

Open Scope string_scope.
Open Scope Z_scope.

(** ** webhook-registration.service.ts *)

Module Registration.

(** Models [WebhookStatus] (backend/src/webhooks/webhook-registration.service.ts:5-9). *)
Inductive WebhookStatus := PENDING | ACTIVE | INACTIVE.
#[export] Instance WebhookStatus_eq : EqDecision WebhookStatus.
Proof. solve_decision. Defined.

(** Models [RegisteredWebhook] (backend/src/webhooks/webhook-registration.service.ts:11-20). *)
Record RegisteredWebhook := {
  wid : string; wurl : string; weventType : string; wstatus : WebhookStatus; createdAt : Z;
  verifiedAt : option Z; wsecret : string; failedAttempts : Z }.

(** Models [VerificationChallenge] (backend/src/webhooks/webhook-registration.service.ts:22-25). *)
Record VerificationChallenge := { token : string; expiresAt : Z }.

(** The two maps, the first in insertion order, and the timers that are set: when, and for which webhook. *)
Record reg := {
  webhooks : list (string * RegisteredWebhook);
  challenges : list (string * VerificationChallenge);
  timers : list (Z * string) }.

Inductive reg_error := BadRequest | Conflict | Undeliverable.

Definition with_status (s : WebhookStatus) (w : RegisteredWebhook) : RegisteredWebhook :=
  {| wid := wid w; wurl := wurl w; weventType := weventType w; wstatus := s; createdAt := createdAt w;
     verifiedAt := verifiedAt w; wsecret := wsecret w; failedAttempts := failedAttempts w |}.
Definition with_verified (now : Z) (w : RegisteredWebhook) : RegisteredWebhook :=
  {| wid := wid w; wurl := wurl w; weventType := weventType w; wstatus := ACTIVE; createdAt := createdAt w;
     verifiedAt := Some now; wsecret := wsecret w; failedAttempts := failedAttempts w |}.
Definition with_failure (limit : Z) (w : RegisteredWebhook) : RegisteredWebhook :=
  {| wid := wid w; wurl := wurl w; weventType := weventType w;
     wstatus := if limit <=? failedAttempts w + 1 then INACTIVE else wstatus w; createdAt := createdAt w;
     verifiedAt := verifiedAt w; wsecret := wsecret w; failedAttempts := failedAttempts w + 1 |}.

(** The stored object is mutated in place: its position in the map does not change. *)
Definition mutate (i : string) (f : RegisteredWebhook → RegisteredWebhook) (l : list (string * RegisteredWebhook)) :=
  (λ e, if bool_decide (e.1 = i) then (e.1, f e.2) else e) <$> l.

Section registration.
(** [new URL(url)]: protocol and host name, or absent when it throws. *)
Variable parseUrl : string → option Url.
Variables (challengeTimeoutMs maxVerificationAttempts : Z).

(** Models [validateWebhookUrl] (backend/src/webhooks/webhook-registration.service.ts:217-229). *)
Definition validateWebhookUrl (url : string) : bool :=
  match parseUrl url with
  | None => false
  | Some u => bool_decide (protocol u = "http:" ∨ protocol u = "https:") &&
              negb (bool_decide (hostname u = "localhost") || bool_decide (hostname u = "127.0.0.1"))
  end.

(** Models [registerWebhook] (backend/src/webhooks/webhook-registration.service.ts:50-96). *)
Definition registerWebhook (now : Z) (i secret tok url eventType : string) (st : reg)
    : result reg_error RegisteredWebhook * reg :=
  if validateWebhookUrl url then
    let existing := List.find (λ e : string * RegisteredWebhook,
      bool_decide (wurl e.2 = url) && bool_decide (weventType e.2 = eventType)) (webhooks st) in
    if match existing with Some e => bool_decide (wstatus e.2 = ACTIVE) | None => false end
    then (Throw Conflict, st)
    else
      let webhook := {| wid := i; wurl := url; weventType := eventType; wstatus := PENDING; createdAt := now;
                        verifiedAt := None; wsecret := secret; failedAttempts := 0 |} in
      (Ok webhook,
       {| webhooks := (webhooks st ++ [(i, webhook)])%list;
          challenges := alist_put i {| token := tok; expiresAt := now + challengeTimeoutMs |} (challenges st);
          timers := (now + challengeTimeoutMs, i) :: timers st |})
  else (Throw BadRequest, st).

(** The timers that are due at [now] run: each deletes the challenge of its webhook. *)
Definition run_timers (now : Z) (st : reg) : reg :=
  {| webhooks := webhooks st;
     challenges := foldl (λ cs t, alist_del t.2 cs) (challenges st) (filter (λ t, t.1 ≤ now) (timers st));
     timers := filter (λ t, now < t.1) (timers st) |}.

(** [delivered] is whether the POST of the challenge succeeds.
    Models [sendVerificationChallenge] (backend/src/webhooks/webhook-registration.service.ts:101-145). *)
Definition sendVerificationChallenge (delivered : bool) (i : string) (st : reg) : result reg_error () * reg :=
  match alist_get i (webhooks st) with
  | None => (Throw BadRequest, st)
  | Some _ =>
      match alist_get i (challenges st) with
      | None => (Throw BadRequest, st)
      | Some _ =>
          if delivered then (Ok tt, st)
          else (Throw Undeliverable,
                {| webhooks := mutate i (with_failure maxVerificationAttempts) (webhooks st);
                   challenges := challenges st; timers := timers st |})
      end
  end.

(** Models [verifyWebhook] (backend/src/webhooks/webhook-registration.service.ts:150-177). *)
Definition verifyWebhook (now : Z) (i response : string) (st : reg) : result reg_error () * reg :=
  match alist_get i (webhooks st) with
  | None => (Throw BadRequest, st)
  | Some w =>
      if bool_decide (wstatus w = ACTIVE) then (Ok tt, st)
      else match alist_get i (challenges st) with
           | None => (Throw BadRequest, st)
           | Some c =>
               if bool_decide (response ≠ token c) then (Throw BadRequest, st)
               else (Ok tt, {| webhooks := mutate i (with_verified now) (webhooks st);
                               challenges := alist_del i (challenges st); timers := timers st |})
           end
  end.

(** Models [listWebhooks] (backend/src/webhooks/webhook-registration.service.ts:189-192). *)
Definition listWebhooks (eventType : string) (statusFilter : option WebhookStatus) (st : reg) : list RegisteredWebhook :=
  filter (λ w, bool_decide (weventType w = eventType) &&
               match statusFilter with Some s => bool_decide (wstatus w = s) | None => true end = true) (webhooks st).*2.

(** Models [deactivateWebhook] (backend/src/webhooks/webhook-registration.service.ts:197-206). *)
Definition deactivateWebhook (i : string) (st : reg) : result reg_error () * reg :=
  match alist_get i (webhooks st) with
  | None => (Throw BadRequest, st)
  | Some _ => (Ok tt, {| webhooks := mutate i (with_status INACTIVE) (webhooks st); challenges := challenges st;
                         timers := timers st |})
  end.

(** Models [deleteWebhook] (backend/src/webhooks/webhook-registration.service.ts:211-215). *)
Definition deleteWebhook (i : string) (st : reg) : reg :=
  {| webhooks := alist_del i (webhooks st); challenges := alist_del i (challenges st); timers := timers st |}.

(** *** Histories *)

Inductive reg_op :=
  | Register (now : Z) (i secret tok url eventType : string)
  | Tick (now : Z)
  | Send (delivered : bool) (i : string)
  | Verify (now : Z) (i response : string)
  | Deactivate (i : string)
  | Delete (i : string).

Definition apply_op (st : reg) (o : reg_op) : reg :=
  match o with
  | Register now i secret tok url eventType => snd (registerWebhook now i secret tok url eventType st)
  | Tick now => run_timers now st
  | Send delivered i => snd (sendVerificationChallenge delivered i st)
  | Verify now i response => snd (verifyWebhook now i response st)
  | Deactivate i => snd (deactivateWebhook i st)
  | Delete i => deleteWebhook i st
  end.

Definition empty_reg : reg := {| webhooks := []; challenges := []; timers := [] |}.
Definition run_ops (ops : list reg_op) : reg := foldl apply_op empty_reg ops.

Lemma alist_get_cons {V} (j k : string) (x : V) l :
  alist_get j ((k, x) :: l) = if decide (k = j) then Some x else alist_get j l.
Proof. done. Qed.

Lemma mutate_get i j f l :
  alist_get j (mutate i f l) = (λ w, if bool_decide (j = i) then f w else w) <$> alist_get j l.
Proof.
  induction l as [|[k w] l IH]; [done|]. 
  change (mutate i f ((k, w) :: l)) with ((if bool_decide (k = i) then (k, f w) else (k, w)) :: mutate i f l).
  destruct (decide (k = i)) as [Hk|Hk];
    [rewrite (bool_decide_true (k = i)) by done|rewrite (bool_decide_false (k = i)) by done]; rewrite !alist_get_cons;
    destruct (decide (k = j)) as [Hj|Hj]; try exact IH; cbn [fmap option_fmap option_map]; f_equal.
  - by rewrite bool_decide_true by congruence.
  - by rewrite bool_decide_false by congruence.
Qed.

Lemma alist_get_snoc {V} (i j : string) (x : V) l :
  alist_get j (l ++ [(i, x)])%list = match alist_get j l with Some y => Some y | None => if bool_decide (i = j) then Some x else None end.
Proof.
  induction l as [|[k y] l IH]; cbn [app]; rewrite !alist_get_cons.
  - change (alist_get j []) with (None : option V). case_decide; by case_bool_decide.
  - rewrite IH. by destruct (decide (k = j)).
Qed.

Definition is_active (i : string) (st : reg) : Prop := ∃ w, alist_get i (webhooks st) = Some w ∧ wstatus w = ACTIVE.

(** The operation answers the open challenge of [i]. *)
Definition answers (i : string) (st : reg) (o : reg_op) : Prop :=
  ∃ now c, o = Verify now i (token c) ∧ alist_get i (challenges st) = Some c.

Lemma activation_step i st o : is_active i (apply_op st o) → is_active i st ∨ answers i st o.
Proof.
  intros (w & Hw & Hact). destruct o as [now j secret tok url ev|now|delivered j|now j resp|j|j]; cbn in Hw.
  - left. unfold registerWebhook in Hw. destruct (validateWebhookUrl url); [|by exists w].
    destruct (match List.find _ _ with Some _ => _ | None => _ end); [by exists w|]. cbn in Hw.
    rewrite alist_get_snoc in Hw. destruct (alist_get i (webhooks st)) as [y|] eqn:Hy; [by exists w; rewrite Hy|].
    case_bool_decide; by simplify_eq.
  - left. by exists w.
  - left. unfold sendVerificationChallenge in Hw. destruct (alist_get j (webhooks st)) eqn:Hj; [|by exists w].
    destruct (alist_get j (challenges st)); [|by exists w]. destruct delivered; [by exists w|]. cbn in Hw.
    rewrite mutate_get in Hw. destruct (alist_get i (webhooks st)) as [y|] eqn:Hy; [|done]. cbn in Hw.
    injection Hw as <-. exists y. split; [done|]. case_bool_decide; [|done]. cbn in Hact. by case_test.
  - unfold verifyWebhook in Hw. destruct (alist_get j (webhooks st)) as [x|] eqn:Hj; [|left; by exists w].
    case_bool_decide; [left; by exists w|]. destruct (alist_get j (challenges st)) as [c|] eqn:Hc; [|left; by exists w].
    case_bool_decide as Hr; [left; by exists w|]. cbn in Hw.
    rewrite mutate_get in Hw. destruct (alist_get i (webhooks st)) as [y|] eqn:Hy; [|done]. cbn in Hw.
    case_bool_decide as Hij; [subst j|left; exists y; split; [done|congruence]].
    right. exists now, c. split; [|done]. f_equal. by destruct (decide (resp = token c)).
  - left. unfold deactivateWebhook in Hw. destruct (alist_get j (webhooks st)); [|by exists w]. cbn in Hw.
    rewrite mutate_get in Hw. destruct (alist_get i (webhooks st)) as [y|] eqn:Hy; [|done]. cbn in Hw.
    injection Hw as <-. exists y. split; [done|]. by case_bool_decide.
  - left. unfold deleteWebhook in Hw. cbn in Hw. rewrite alist_get_del in Hw. case_decide; [done|]. by exists w.
Qed.

(** Every open challenge has its timer. *)
Definition timed (st : reg) : Prop :=
  ∀ i c, alist_get i (challenges st) = Some c → (expiresAt c, i) ∈ timers st.

Lemma alist_del_many {V} (ts : list (Z * string)) (cs : list (string * V)) i :
  alist_get i (foldl (λ cs t, alist_del t.2 cs) cs ts) = if bool_decide (i ∈ ts.*2) then None else alist_get i cs.
Proof.
  revert cs. induction ts as [|t ts IH]; intros cs; [done|]. cbn [foldl fmap list_fmap]. rewrite IH, alist_get_del.
  case_bool_decide as Hin.
  - by rewrite bool_decide_true by (by right).
  - case_decide as Ht; [rewrite bool_decide_true; [done|]; apply elem_of_cons; by left|].
    rewrite bool_decide_false; [done|]. intros [?|?]%elem_of_cons; congruence.
Qed.

Lemma run_timers_live now st i c :
  timed st → alist_get i (challenges (run_timers now st)) = Some c →
  alist_get i (challenges st) = Some c ∧ now < expiresAt c.
Proof.
  intros Ht. cbn. rewrite alist_del_many. case_bool_decide as Hin; [done|]. intros Hc. split; [done|].
  destruct (decide (expiresAt c ≤ now)) as [Hle|]; [|lia]. exfalso. apply Hin.
  apply list_elem_of_fmap. exists (expiresAt c, i). split; [done|]. apply list_elem_of_filter. split; [done|]. by apply Ht.
Qed.

Lemma timed_step st o : timed st → timed (apply_op st o).
Proof.
  intros Ht i c. destruct o as [now j secret tok url ev|now|delivered j|now j resp|j|j]; cbn [apply_op].
  - unfold registerWebhook. destruct (validateWebhookUrl url); [|apply Ht].
    destruct (match List.find _ _ with Some _ => _ | None => _ end); [apply Ht|]. cbn -[alist_put].
    rewrite alist_get_put. case_decide; [intros [= <-]; subst; left|intros Hc; right; by apply Ht].
  - intros Hc. destruct (run_timers_live now st i c Ht Hc) as [Hc' Hlt]. cbn.
    apply list_elem_of_filter. split; [done|by apply Ht].
  - unfold sendVerificationChallenge. repeat case_match; apply Ht.
  - unfold verifyWebhook. destruct (alist_get j (webhooks st)); [|apply Ht]. case_bool_decide; [apply Ht|].
    destruct (alist_get j (challenges st)); [|apply Ht]. case_bool_decide; [apply Ht|].
    cbn [snd challenges timers]. rewrite alist_get_del. destruct (decide (j = i)); [done|apply Ht].
  - unfold deactivateWebhook. case_match; apply Ht.
  - unfold deleteWebhook. cbn [challenges timers]. rewrite alist_get_del. destruct (decide (j = i)); [done|apply Ht].
Qed.

Lemma run_ops_timed ops : timed (run_ops ops).
Proof.
  induction ops as [|o ops IH] using rev_ind; [intros i c Hc; done|].
  unfold run_ops in *. rewrite foldl_app. by apply timed_step.
Qed.

(** A webhook is active only after its challenge was answered.  In every history, an active webhook was
    at some point verified with exactly the token of its open challenge; and once the timers due at a moment
    have run, no challenge that expired by then is open any more, so a late answer cannot activate it. *)
Theorem active_was_verified ops i :
  (is_active i (run_ops ops) →
     ∃ pre o post, ops = (pre ++ o :: post)%list ∧ answers i (run_ops pre) o) ∧
  (∀ now j c, alist_get j (challenges (run_ops (ops ++ [Tick now])%list)) = Some c → now < expiresAt c).
Proof.
  split.
  - induction ops as [|o ops IH] using rev_ind; [by intros (w & ? & _)|].
    unfold run_ops. rewrite foldl_app. intros [Hact|Hans]%activation_step.
    + destruct (IH Hact) as (pre & o' & post & -> & Ha). exists pre, o', (post ++ [o])%list.
      split; [by rewrite <-app_assoc|done].
    + by exists ops, o, [].
  - intros now j c Hc. unfold run_ops in Hc. rewrite foldl_app in Hc.
    apply (run_timers_live now (run_ops ops) j c); [apply run_ops_timed|exact Hc].
Qed.

(** Deactivation is not final.  A webhook that is deactivated while its challenge is open is activated by
    the answer to that challenge. *)
Theorem deactivation_undone now i st w c :
  alist_get i (webhooks st) = Some w → alist_get i (challenges st) = Some c →
  let st' := snd (deactivateWebhook i st) in
  verifyWebhook now i (token c) st' = (Ok tt, snd (verifyWebhook now i (token c) st')) ∧
  is_active i (snd (verifyWebhook now i (token c) st')).
Proof.
  intros Hw Hc st'.
  assert (alist_get i (webhooks st') = Some (with_status INACTIVE w) ∧ challenges st' = challenges st) as [Hw' Hc'].
  { unfold st', deactivateWebhook. rewrite Hw. cbn [snd webhooks challenges].
    rewrite mutate_get, Hw. cbn [fmap option_fmap option_map]. by rewrite bool_decide_true by done. }
  unfold verifyWebhook. rewrite Hw', Hc', Hc. rewrite !bool_decide_false by (done || by intros Hn). split; [done|].
  exists (with_verified now (with_status INACTIVE w)). cbn [snd webhooks]. rewrite mutate_get, Hw'.
  cbn [fmap option_fmap option_map]. by rewrite bool_decide_true by done.
Qed.

(** Registration does not protect internal hosts.  A URL that names a blocked address other than
    127.0.0.1 is accepted for registration, over http too, although the check of ssrf.ts refuses it. *)
Theorem registration_allows_blocked url u :
  parseUrl url = Some u → protocol u = "http:" ∨ protocol u = "https:" →
  hostname u ≠ "localhost" → hostname u ≠ "127.0.0.1" →
  isBlockedIp (strip_brackets (hostname u)) = true →
  validateWebhookUrl url = true ∧ ∀ lookup, is_ok (assertSafeWebhookUrlResolved parseUrl url lookup) = false.
Proof.
  intros Hp Hs H1 H2 Hb. unfold validateWebhookUrl. rewrite Hp, bool_decide_true by done.
  rewrite !bool_decide_false by done. split; [done|]. intros lookup.
  destruct (assertSafeWebhookUrlResolved parseUrl url lookup) as [v|] eqn:Hr; [|done].
  unfold assertSafeWebhookUrlResolved, rbind in Hr. destruct (assertSafeWebhookUrl parseUrl url) as [v'|] eqn:Ha; [|done].
  apply webhook_url_ok in Ha as [Hp' _]. rewrite Hp in Hp'. injection Hp' as <-. by rewrite Hb in Hr.
Qed.
End registration.

Module RegistrationWitnesses.
Definition parse_any (s : string) : option Url :=
  Some {| protocol := "http:"; username := ""; password := ""; hostname := "169.254.169.254" |}.
Abbreviation run := (run_ops parse_any 300000 3).

(** Two pending registrations for one URL and event; the second is verified, so a third is not a conflict. *)
Definition doubled : list reg_op :=
  [Register 0 "a" "s" "ta" "u" "claim.filed"; Register 1 "b" "s" "tb" "u" "claim.filed"; Verify 2 "b" "tb";
   Register 3 "c" "s" "tc" "u" "claim.filed"; Verify 4 "c" "tc"].

Lemma active_was_verified_witness :
  ∃ pre o post, doubled = (pre ++ o :: post)%list ∧ answers "c" (run pre) o.
Proof.
  refine (proj1 (active_was_verified parse_any 300000 3 doubled "c") _).
  eexists. split; [reflexivity|reflexivity].
Defined.

Lemma deactivation_undone_witness :
  is_active "a" (snd (verifyWebhook 5 "a" "ta" (snd (deactivateWebhook "a" (run doubled))))).
Proof.
  refine (proj2 (deactivation_undone 5 "a" (run doubled) _ {| token := "ta"; expiresAt := 300000 |} _ _)); reflexivity.
Defined.

Lemma registration_allows_blocked_witness :
  validateWebhookUrl parse_any "http://169.254.169.254/latest" = true.
Proof.
  refine (proj1 (registration_allows_blocked parse_any "http://169.254.169.254/latest" _ eq_refl _ _ _ _)).
  - left. reflexivity.
  - discriminate.
  - discriminate.
  - vm_compute. reflexivity.
Defined.

(** The conflict check looks at the first registration of a URL only.  Two webhooks for the same URL and
    event become active: the check finds an older registration that was never verified. *)
Theorem two_active_registrations :
  is_active "b" (run doubled) ∧ is_active "c" (run doubled) ∧
  (wurl <$> alist_get "b" (webhooks (run doubled))) = (wurl <$> alist_get "c" (webhooks (run doubled))) ∧
  (weventType <$> alist_get "b" (webhooks (run doubled))) = (weventType <$> alist_get "c" (webhooks (run doubled))).
Proof. split_and!; [eexists; split; reflexivity..|reflexivity|reflexivity]. Qed.
End RegistrationWitnesses.
End Registration.

(** ** webhook-subscriptions.service.ts and webhook-ssrf-revalidation.service.ts *)

Module Subscriptions.

Record Subscription := {
  sid : string; surl : string; events : list string; ssecret : string; tenantId : option string; active : bool }.
Record AuditRow := { au_sub : string; au_url : string; au_passed : bool; au_disabled : bool }.

(** The tables, and the mails sent to tenants. *)
Record sdb := { subs : list Subscription; audits : list AuditRow; mails : list (string * string) }.

Inductive sub_error := SsrfBlocked (e : SsrfBlockedError) | NotFound | DbError.

Abbreviation MS A := (M (rworld sdb) sub_error A).

(** A database call. *)
Definition db {A} (f : sdb → A * sdb) : MS A := λ w,
  match cmd f w with (Ok a, w') => (Ok a, w') | (Throw _, w') => (Throw DbError, w') end.

Definition set_subs (l : list Subscription) (s : sdb) : sdb := {| subs := l; audits := audits s; mails := mails s |}.

(** [DTO]: the fields of an update that are present. *)
Record UpdateDto := { u_url : option string; u_events : option (list string); u_active : option bool }.

Definition apply_update (dto : UpdateDto) (s : Subscription) : Subscription :=
  {| sid := sid s; surl := default (surl s) (u_url dto); events := default (events s) (u_events dto);
     ssecret := ssecret s; tenantId := tenantId s; active := default (active s) (u_active dto) |}.

Definition update_where (i : string) (f : Subscription → Subscription) (l : list Subscription) : list Subscription :=
  (λ s, if bool_decide (sid s = i) then f s else s) <$> l.

Section subscriptions.
Variable parseUrl : string → option Url.

(** Models [WebhookSubscriptionsService.assertUrlIsSafe] (backend/src/webhooks/webhook-subscriptions.service.ts:33-42). *)
Definition assertUrlIsSafe (lookup : string → option (list string)) (url : string) : MS () :=
  match assertSafeWebhookUrlResolved parseUrl url lookup with
  | Ok _ => ret tt
  | Throw e => throw (SsrfBlocked e)
  end.

(** [i] and [fresh] are the generated id and secret; a new subscription is active.
    Models [WebhookSubscriptionsService.create] (backend/src/webhooks/webhook-subscriptions.service.ts:44-55). *)
Definition create (lookup : string → option (list string)) (i fresh url : string) (evs : list string)
    (secret tenant : option string) : MS Subscription :=
  do* assertUrlIsSafe lookup url in
  db (λ s, let sub := {| sid := i; surl := url; events := evs; ssecret := default fresh secret; tenantId := tenant;
                         active := true |} in (sub, set_subs (subs s ++ [sub])%list s)).

(** Models [WebhookSubscriptionsService.list] (backend/src/webhooks/webhook-subscriptions.service.ts:57-62). *)
Definition list_subs (tenant : option string) : MS (list Subscription) :=
  db (λ s, (match truthy tenant with
            | Some t => filter (λ x, tenantId x = Some t) (reverse (subs s))
            | None => reverse (subs s)
            end, s)).

(** Models [WebhookSubscriptionsService.get] (backend/src/webhooks/webhook-subscriptions.service.ts:64-70). *)
Definition get (i : string) : MS Subscription :=
  let* sub := db (λ s, (List.find (λ x, bool_decide (sid x = i)) (subs s), s)) in
  match sub with Some x => ret x | None => throw NotFound end.

(** Models [WebhookSubscriptionsService.update] (backend/src/webhooks/webhook-subscriptions.service.ts:72-83). *)
Definition update_sub (lookup : string → option (list string)) (i : string) (dto : UpdateDto) : MS () :=
  do* get i in
  do* (match truthy (u_url dto) with Some u => assertUrlIsSafe lookup u | None => ret tt end) in
  db (λ s, (tt, set_subs (update_where i (apply_update dto) (subs s)) s)).

(** Models [WebhookSubscriptionsService.remove] (backend/src/webhooks/webhook-subscriptions.service.ts:85-89). *)
Definition remove (i : string) : MS () :=
  do* get i in
  db (λ s, (tt, set_subs (filter (λ x, sid x ≠ i) (subs s)) s)).

(** Models [WebhookSubscriptionsService.findSubscribers] (backend/src/webhooks/webhook-subscriptions.service.ts:92-96). *)
Definition findSubscribers (eventType : string) : MS (list Subscription) :=
  db (λ s, (filter (λ x, active x = true ∧ eventType ∈ events x) (subs s), s)).

(** [contact] is the tenant table; a mail that cannot be sent is only logged.
    Models [notifyTenant] (backend/src/webhooks/webhook-ssrf-revalidation.service.ts:55-78). *)
Definition notifyTenant (contact : string → option string) (tenant : option string) (i : string) : MS () :=
  match truthy tenant with
  | None => ret tt
  | Some t =>
      let* email := db (λ s, (truthy (contact t), s)) in
      match email with
      | None => ret tt
      | Some e => try_catch (E:=sub_error) (db (λ s, (tt, {| subs := subs s; audits := audits s; mails := (mails s ++ [(e, i)])%list |})))
                    (λ _, ret tt)
      end
  end.

(** The check of one subscription. *)
Definition revalidate_one (lookup : string → option (list string)) (contact : string → option string)
    (sub : Subscription) : MS bool :=
  let failed := negb (is_ok (assertSafeWebhookUrlResolved parseUrl (surl sub) lookup)) in
  do* (if failed then
         do* db (λ s, (tt, set_subs (update_where (sid sub)
               (apply_update {| u_url := None; u_events := None; u_active := Some false |}) (subs s)) s)) in
         notifyTenant contact (tenantId sub) (sid sub)
       else ret tt) in
  do* db (λ s, (tt, {| subs := subs s; mails := mails s; audits := (audits s ++
        [{| au_sub := sid sub; au_url := surl sub; au_passed := negb failed; au_disabled := failed |}])%list |})) in
  ret failed.

Fixpoint revalidate_loop (lookup : string → option (list string)) (contact : string → option string)
    (l : list Subscription) : MS Z :=
  match l with
  | [] => ret 0
  | sub :: rest =>
      let* d := revalidate_one lookup contact sub in
      let* n := revalidate_loop lookup contact rest in
      ret (if (d : bool) then n + 1 else n)
  end.

(** Models [revalidateAll] (backend/src/webhooks/webhook-ssrf-revalidation.service.ts:24-53). *)
Definition revalidateAll (lookup : string → option (list string)) (contact : string → option string) : MS (Z * Z) :=
  let* l := db (λ s, (filter (λ x, active x = true) (subs s), s)) in
  let* disabled := revalidate_loop lookup contact l in
  ret (Z.of_nat (length l), disabled).

(** *** Histories *)

Inductive sub_op :=
  | OpCreate (lookup : string → option (list string)) (i fresh url : string) (evs : list string) (secret tenant : option string)
  | OpUpdate (lookup : string → option (list string)) (i : string) (dto : UpdateDto)
  | OpRemove (i : string)
  | OpRevalidate (lookup : string → option (list string)) (contact : string → option string).

Definition apply_sub_op (w : rworld sdb) (o : sub_op) : rworld sdb :=
  match o with
  | OpCreate lookup i fresh url evs secret tenant => world_of (create lookup i fresh url evs secret tenant) w
  | OpUpdate lookup i dto => world_of (update_sub lookup i dto) w
  | OpRemove i => world_of (remove i) w
  | OpRevalidate lookup contact => world_of (revalidateAll lookup contact) w
  end.

(** Validation of the request body: an url that is present is not empty. *)
Definition valid_op (o : sub_op) : Prop := match o with OpUpdate _ _ dto => u_url dto ≠ Some "" | _ => True end.

(** A target that passes the checks that do not depend on the resolver. *)
Definition target_ok (url : string) : Prop := ∃ u, parseUrl url = Some u ∧ safe_target u.
Definition targets_ok (w : rworld sdb) : Prop := ∀ s, s ∈ subs (rstate w) → target_ok (surl s).

Lemma db_cases {A} (f : sdb → A * sdb) (w : rworld sdb) :
  (∃ fs, db f w = (Throw DbError, RWorld (rstate w) fs)) ∨
  (∃ fs, db f w = (Ok (f (rstate w)).1, RWorld (f (rstate w)).2 fs)).
Proof.
  unfold db, cmd. destruct w as [s [|[] fs]]; cbn; [right|left|right]; destruct (f s); cbn; eauto.
Qed.

Definition keeps_targets (w w' : rworld sdb) : Prop := targets_ok w → targets_ok w'.
#[local] Instance keeps_targets_pre : PreOrder keeps_targets.
Proof. split; unfold keeps_targets; [by intros w|intros w1 w2 w3 H12 H23 Hw; by apply H23, H12]. Qed.

Lemma db_keeps {A} (f : sdb → A * sdb) :
  (∀ s, (∀ x, x ∈ subs s → target_ok (surl x)) → ∀ x, x ∈ subs (f s).2 → target_ok (surl x)) →
  keeps keeps_targets (db f).
Proof.
  intros Hf w Hw. unfold world_of. destruct (db_cases f w) as [[fs ->]|[fs ->]]; [exact Hw|]. exact (Hf _ Hw).
Qed.

Lemma update_where_targets i f l :
  (∀ x, target_ok (surl x) → target_ok (surl (f x))) →
  (∀ x, x ∈ l → target_ok (surl x)) → ∀ x, x ∈ update_where i f l → target_ok (surl x).
Proof.
  intros Hf Hl x (y & -> & Hy)%list_elem_of_fmap. case_bool_decide; auto.
Qed.

Lemma assertUrlIsSafe_cases lookup url w :
  (assertUrlIsSafe lookup url w = (Ok tt, w) ∧ target_ok url) ∨ (∃ e, assertUrlIsSafe lookup url w = (Throw e, w)).
Proof.
  unfold assertUrlIsSafe. destruct (assertSafeWebhookUrlResolved parseUrl url lookup) as [u|] eqn:Hu; [left|right; by eexists].
  split; [done|]. unfold assertSafeWebhookUrlResolved, rbind in Hu.
  destruct (assertSafeWebhookUrl parseUrl url) as [u'|] eqn:Ha; [|done]. exists u'. by apply webhook_url_ok in Ha.
Qed.

Lemma get_cases i (w : rworld sdb) :
  ∃ fs r, get i w = (r, RWorld (rstate w) fs).
Proof.
  unfold get, bind. destruct (db_cases (λ s, (List.find (λ x, bool_decide (sid x = i)) (subs s), s)) w) as [[fs ->]|[fs ->]];
    cbn; [eauto|]. destruct (List.find _ _); cbn; eauto.
Qed.

Lemma revalidate_keeps lookup contact l : keeps keeps_targets (revalidate_loop lookup contact l).
Proof.
  induction l as [|sub l IH]; cbn [revalidate_loop]; [apply keeps_ret, _|].
  unfold revalidate_one, notifyTenant. keeps_walk; try exact IH; try (by apply db_keeps).
  apply db_keeps. intros s Hs. apply update_where_targets; [|exact Hs]. by intros x Hx.
Qed.

Lemma create_keeps lookup i fresh url evs secret tenant : keeps keeps_targets (create lookup i fresh url evs secret tenant).
Proof.
  intros w Hw. unfold create, world_of, bind.
  destruct (assertUrlIsSafe_cases lookup url w) as [[-> Hok]|[e ->]]; [|exact Hw].
  refine ((db_keeps _ _) w Hw). intros s Hs x [Hx|Hx]%elem_of_app; [by apply Hs|].
  by apply list_elem_of_singleton in Hx as ->.
Qed.

Lemma update_keeps lookup i dto : u_url dto ≠ Some "" → keeps keeps_targets (update_sub lookup i dto).
Proof.
  intros Hne w Hw. unfold update_sub, world_of, bind. destruct (get_cases i w) as (fs & r & ->).
  destruct r as [sub|e]; [|exact Hw]. set (w1 := RWorld (rstate w) fs). assert (targets_ok w1) as Hw1 by exact Hw.
  destruct (u_url dto) as [[|c v]|] eqn:Hu; cbn [truthy]; [done| |].
  - destruct (assertUrlIsSafe_cases lookup (String c v) w1) as [[-> Hok]|[e ->]]; [|exact Hw1].
    refine ((db_keeps _ _) w1 Hw1). intros s Hs. apply update_where_targets; [|exact Hs].
    intros x Hx. cbn. by rewrite Hu.
  - refine ((db_keeps _ _) w1 Hw1). intros s Hs. apply update_where_targets; [|exact Hs].
    intros x Hx. cbn. by rewrite Hu.
Qed.

Lemma op_keeps_targets w o : valid_op o → targets_ok w → targets_ok (apply_sub_op w o).
Proof.
  intros Hv Hw. destruct o as [lookup i fresh url evs secret tenant|lookup i dto|i|lookup contact]; cbn [apply_sub_op].
  - exact (create_keeps lookup i fresh url evs secret tenant w Hw).
  - exact (update_keeps lookup i dto Hv w Hw).
  - refine ((_ : keeps keeps_targets (remove i)) w Hw). unfold remove, get. keeps_walk; apply db_keeps; intros s Hs; [exact Hs|].
    intros x [_ Hx]%list_elem_of_filter. by apply Hs.
  - refine ((_ : keeps keeps_targets (revalidateAll lookup contact)) w Hw). unfold revalidateAll.
    keeps_walk; [apply db_keeps; intros s Hs; exact Hs|apply revalidate_keeps].
Qed.

(** C37: Every stored target is safe.  Over every history of creations, updates, removals and revalidations,
    with any resolver and any failing database call, every stored subscription, active or not, has an https URL
    without credentials whose host is not a local name. *)
Theorem stored_targets_safe ops (w : rworld sdb) :
  Forall valid_op ops → subs (rstate w) = [] →
  ∀ s, s ∈ subs (rstate (foldl apply_sub_op w ops)) → ∃ u, parseUrl (surl s) = Some u ∧ safe_target u.
Proof.
  intros Hv H0. assert (targets_ok w) as Hw by (intros s Hs; rewrite H0 in Hs; by apply elem_of_nil in Hs).
  clear H0. revert w Hw. induction Hv as [|o ops Ho _ IH]; intros w Hw; [exact Hw|].
  apply IH. by apply op_keeps_targets.
Qed.

(** A disabled subscription can be switched on again without a check.  An update that only sets [active]
    never consults the resolver: a subscription that the daily job disabled because its host resolves to a
    private address is active again with the same URL. *)
Theorem reactivation_unchecked lookup i (s : sdb) x :
  List.find (λ x, bool_decide (sid x = i)) (subs s) = Some x →
  ∃ s', update_sub lookup i {| u_url := None; u_events := None; u_active := Some true |} (RWorld s []) = (Ok tt, RWorld s' []) ∧
    ∃ y, y ∈ subs s' ∧ sid y = i ∧ surl y = surl x ∧ active y = true.
Proof.
  intros Hf. unfold update_sub, get, bind, db, cmd. cbn. rewrite Hf. cbn. eexists. split; [done|].
  apply List.find_some in Hf as [Hin Hi]. apply bool_decide_eq_true in Hi.
  eexists. split; [|split; [|split]].
  - cbn. apply list_elem_of_fmap. exists x. split; [reflexivity|by apply list_elem_of_In].
  - by rewrite bool_decide_true.
  - by rewrite bool_decide_true.
  - by rewrite bool_decide_true.
Qed.

(** *** What a complete run of the job does *)

Definition fails (lookup : string → option (list string)) (x : Subscription) : bool :=
  negb (is_ok (assertSafeWebhookUrlResolved parseUrl (surl x) lookup)).
Definition disable (x : Subscription) : Subscription :=
  {| sid := sid x; surl := surl x; events := events x; ssecret := ssecret x; tenantId := tenantId x; active := false |}.
Definition audit_of (lookup : string → option (list string)) (x : Subscription) : AuditRow :=
  {| au_sub := sid x; au_url := surl x; au_passed := negb (fails lookup x); au_disabled := fails lookup x |}.

Lemma notifyTenant_subs contact tenant i (s : sdb) :
  ∃ m, notifyTenant contact tenant i (RWorld s []) =
       (Ok tt, RWorld {| subs := subs s; audits := audits s; mails := m |} []).
Proof.
  unfold notifyTenant. destruct (truthy tenant) as [t|]; [|destruct s; by eexists].
  unfold bind, db, cmd, try_catch. cbn. destruct (truthy (contact t)); cbn; [by eexists|]. destruct s; by eexists.
Qed.

Lemma revalidate_loop_run lookup contact l (s : sdb) :
  ∃ m, revalidate_loop lookup contact l (RWorld s []) =
    (Ok (Z.of_nat (length (filter (λ x, fails lookup x = true) l))),
     RWorld {| subs := foldl (λ acc x, if fails lookup x then update_where (sid x) disable acc else acc) (subs s) l;
               audits := (audits s ++ (audit_of lookup <$> l))%list; mails := m |} []).
Proof.
  revert s. induction l as [|x l IH]; intros s.
  { exists (mails s). cbn. rewrite app_nil_r. by destruct s. }
  cbn [revalidate_loop]. unfold revalidate_one. fold (fails lookup x). rewrite filter_cons. cbn [foldl fmap list_fmap].
  destruct (fails lookup x) eqn:Hx; unfold bind at 1 2 3; cbv [db cmd ret]; cbn -[notifyTenant update_where revalidate_loop].
  - destruct (notifyTenant_subs contact (tenantId x) (sid x)
      (set_subs (update_where (sid x) (apply_update {| u_url := None; u_events := None; u_active := Some false |}) (subs s)) s)) as [m Hm].
    unfold bind at 1. cbv [db cmd ret]. cbn -[notifyTenant update_where revalidate_loop]. rewrite Hm.
    cbn -[notifyTenant update_where revalidate_loop]. unfold bind. edestruct IH as [m' ->]. cbn -[update_where].
    exists m'. rewrite <- app_assoc. unfold audit_of at 2. rewrite Hx. rewrite decide_True by done. cbn [length]. f_equal. f_equal. lia.
  - unfold bind. edestruct IH as [m' ->]. cbn -[update_where].
    exists m'. rewrite <- app_assoc. unfold audit_of at 2. rewrite Hx. by rewrite decide_False by done.
Qed.

Lemma fmap_NoDup_eq {A B} (f : A → B) (l : list A) x y :
  NoDup (f <$> l) → x ∈ l → y ∈ l → f x = f y → x = y.
Proof.
  intros Hn (i & Hx)%list_elem_of_lookup_1 (j & Hy)%list_elem_of_lookup_1 Hf.
  assert (i = j) as ->; [|congruence].
  apply (NoDup_lookup _ _ _ (f x) Hn); rewrite list_lookup_fmap; [by rewrite Hx|by rewrite Hy, Hf].
Qed.

Lemma fold_disable lookup l acc :
  foldl (λ acc x, if fails lookup x then update_where (sid x) disable acc else acc) acc l =
  (λ y, if bool_decide (Exists (λ x, fails lookup x = true ∧ sid x = sid y) l) then disable y else y) <$> acc.
Proof.
  revert acc. induction l as [|x l IH]; intros acc; cbn [foldl].
  { symmetry. rewrite <- (list_fmap_id acc) at 2. apply list_fmap_ext. intros ? y _. rewrite bool_decide_false; [done|]. by intros ?%Exists_nil. }
  rewrite IH. destruct (fails lookup x) eqn:Hx.
  - unfold update_where. rewrite <- list_fmap_compose. apply list_fmap_ext. intros ? y _. unfold compose.
    destruct (decide (sid y = sid x)) as [Hs|Hs];
      [rewrite !(bool_decide_true (sid y = sid x)) by done|rewrite !(bool_decide_false (sid y = sid x)) by done]; cbn [sid disable].
    + rewrite (bool_decide_true (Exists _ (x :: l))) by (apply Exists_cons; left; split; congruence).
      by case_bool_decide.
    + rewrite <- (bool_decide_ext (Exists (λ x0, fails lookup x0 = true ∧ sid x0 = sid y) (x :: l))
        (Exists (λ x0, fails lookup x0 = true ∧ sid x0 = sid y) l)); [done|].
      rewrite Exists_cons. clear -Hs. naive_solver congruence.
  - apply list_fmap_ext. intros ? y _.
    rewrite <- (bool_decide_ext (Exists (λ x0, fails lookup x0 = true ∧ sid x0 = sid y) (x :: l))
        (Exists (λ x0, fails lookup x0 = true ∧ sid x0 = sid y) l)); [done|].
    rewrite Exists_cons. clear -Hx. naive_solver congruence.
Qed.

(** The daily job disables exactly the active subscriptions whose target fails the resolved check.  With
    unique ids and a database that answers, a run of [revalidateAll] checks every active subscription, writes one
    audit row for each, leaves inactive subscriptions and those that pass as they are, and switches off the
    others; a name that does not resolve at all fails the check as a private address does. *)
Theorem revalidation_exact lookup contact (s : sdb) :
  NoDup (sid <$> subs s) →
  ∃ m, revalidateAll lookup contact (RWorld s []) =
    (Ok (Z.of_nat (length (filter (λ x, active x = true) (subs s))),
         Z.of_nat (length (filter (λ x, fails lookup x = true) (filter (λ x, active x = true) (subs s))))),
     RWorld {| subs := (λ y, if active y && fails lookup y then disable y else y) <$> subs s;
               audits := (audits s ++ (audit_of lookup <$> filter (λ x, active x = true) (subs s)))%list;
               mails := m |} []) ∧
  ∀ y u, parseUrl (surl y) = Some u → literal_host (strip_brackets (hostname u)) = false →
         lookup (strip_brackets (hostname u)) = None → fails lookup y = true.
Proof.
  intros Hn. destruct (revalidate_loop_run lookup contact (filter (λ x, active x = true) (subs s)) s) as [m Hm].
  exists m. split.
  - unfold revalidateAll, bind at 1. cbv [db cmd]. cbn -[revalidate_loop]. unfold bind. rewrite Hm. cbv [ret].
    rewrite fold_disable. do 3 f_equal. apply list_fmap_ext. intros k y Hy.
    rewrite <- (bool_decide_ext (active y && fails lookup y = true)
      (Exists (λ x, fails lookup x = true ∧ sid x = sid y) (filter (λ x, active x = true) (subs s)))).
    { by destruct (active y && fails lookup y). }
    apply list_elem_of_lookup_2 in Hy. rewrite Exists_exists, andb_true_iff. split.
    + intros [Ha Hf]. exists y. rewrite list_elem_of_filter. auto.
    + intros (x & [Ha Hx]%list_elem_of_filter & Hf & Hi).
      by rewrite <- (fmap_NoDup_eq sid (subs s) x y).
  - intros y u Hp Hl Hr. unfold fails, assertSafeWebhookUrlResolved, rbind.
    destruct (assertSafeWebhookUrl parseUrl (surl y)) as [u'|] eqn:Hu; [|done].
    apply webhook_url_ok in Hu as [Hp' _]. rewrite Hp in Hp'. injection Hp' as <-.
    fold (literal_host (strip_brackets (hostname u))). rewrite Hl, Hr. by case_match.
Qed.
End subscriptions.

Module SubscriptionWitnesses.
(** One host name, in every URL. *)
Definition parse_hook (s : string) : option Url :=
  Some {| protocol := "https:"; username := ""; password := ""; hostname := "hooks.example.com" |}.
Definition public (h : string) : option (list string) := Some ["8.8.8.8"].
Definition rebound (h : string) : option (list string) := Some ["10.0.0.1"].
Definition no_contact (t : string) : option string := None.
Definition empty_db : sdb := {| subs := []; audits := []; mails := [] |}.
Definition history : list sub_op :=
  [OpCreate public "a" "s" "https://hooks.example.com/a" ["claim.filed"] None None; OpRevalidate rebound no_contact].
Definition disabled : sdb := rstate (foldl (apply_sub_op parse_hook) (RWorld empty_db []) history).

Lemma stored_targets_safe_witness :
  Forall valid_op history ∧ active <$> subs disabled = [false] ∧
  ∀ s, s ∈ subs disabled → ∃ u, parse_hook (surl s) = Some u ∧ safe_target u.
Proof.
  split; [repeat constructor|]. split; [vm_compute; reflexivity|].
  apply (stored_targets_safe parse_hook history (RWorld empty_db [])); [repeat constructor|reflexivity].
Defined.

Lemma reactivation_unchecked_witness :
  ∃ s', update_sub parse_hook rebound "a" {| u_url := None; u_events := None; u_active := Some true |} (RWorld disabled []) = (Ok tt, RWorld s' []) ∧
    ∃ y, y ∈ subs s' ∧ sid y = "a" ∧ surl y = "https://hooks.example.com/a" ∧ active y = true.
Proof.
  apply (reactivation_unchecked parse_hook rebound "a" disabled
    {| sid := "a"; surl := "https://hooks.example.com/a"; events := ["claim.filed"]; ssecret := "s"; tenantId := None; active := false |}).
  vm_compute. reflexivity.
Defined.

(** A run over two subscriptions, one of them already inactive. *)
Definition both : sdb := {| subs :=
  [{| sid := "a"; surl := "https://hooks.example.com/a"; events := []; ssecret := "s"; tenantId := None; active := true |};
   {| sid := "b"; surl := "https://hooks.example.com/b"; events := []; ssecret := "s"; tenantId := None; active := false |}];
  audits := []; mails := [] |}.

Lemma revalidation_exact_witness :
  NoDup (sid <$> subs both) ∧
  ∃ m, revalidateAll parse_hook rebound no_contact (RWorld both []) =
    (Ok (1, 1), RWorld {| subs := disable <$> subs both;
                          audits := [{| au_sub := "a"; au_url := "https://hooks.example.com/a"; au_passed := false; au_disabled := true |}];
                          mails := m |} []).
Proof.
  assert (NoDup (sid <$> subs both)) as Hn by (apply (bool_decide_unpack (NoDup ["a"; "b"])); vm_compute; exact I).
  split; [exact Hn|]. destruct (revalidation_exact parse_hook rebound no_contact both Hn) as (m & Hm & _).
  exists m. rewrite Hm. vm_compute. reflexivity.
Defined.
End SubscriptionWitnesses.
End Subscriptions.
