(* ===== verification/Tenant.v ===== *)
(** * Tenants

    backend/src/tenant/tenant.middleware.ts and tenant-context.ts (which tenant a
    request belongs to), tenant/tenant-filter.helper.ts (conditions that scope a
    query), prisma/prisma-tenant.extension.ts (a client extension that rewrites
    queries) and prisma/tenant-isolation.ts (a guard that refuses unscoped ones).
    The Prisma client is an interface: rows and conditions are objects, and each
    operation relates the rows before, its answer and the rows after. *)

From stdpp Require Import base gmap list strings.
From Stdlib Require Import ZArith Lia Ascii.
From S2P Require Import Prelude JsText.

Open Scope string_scope.
Open Scope Z_scope.

(** ** Objects *)

Inductive value := VNull | VBool (b : bool) | VNum (n : Z) | VStr (s : string) | VObj (fields : list (string * value)) | VArr (l : list value).
Abbreviation obj := (gmap string value).

(** [{ ...a, ...b }] *)
Definition spread (a b : obj) : obj := b ∪ a.

Lemma spread_lookup (a b : obj) k : spread a b !! k = match b !! k with Some v => Some v | None => a !! k end.
Proof. unfold spread. rewrite lookup_union. by destruct (b !! k), (a !! k). Qed.

Definition is_str (s : string) (v : option value) : bool :=
  match v with Some (VStr t) => bool_decide (t = s) | _ => false end.
Definition is_null (v : option value) : bool := match v with Some VNull => true | _ => false end.

Lemma is_str_iff s v : is_str s v = true ↔ v = Some (VStr s).
Proof. destruct v as [[]|]; cbn; rewrite ?bool_decide_eq_true; naive_solver. Qed.

(** ** The Prisma client *)

Record args := { a_where : option obj; a_data : option obj; a_rows : list obj; a_create : option obj; a_update : option obj }.

(** The operations of a model. *)
Inductive operation :=
  | findUnique | findUniqueOrThrow | findFirst | findFirstOrThrow | findMany | count | aggregate | groupBy
  | update | updateMany | updateManyAndReturn | delete_ | deleteMany | create | createMany | createManyAndReturn | upsert.
#[export] Instance operation_eq : EqDecision operation.
Proof. solve_decision. Defined.

Definition read_ops : list operation :=
  [findUnique; findUniqueOrThrow; findFirst; findFirstOrThrow; findMany; count; aggregate; groupBy].

(** [field_ok k f r]: row [r] satisfies the condition [f] under key [k] (a column, a relation, AND, OR, NOT). *)
Class PrismaClient (D : Type) := {
  field_ok : string → value → obj → bool;
  p_rows : string → D → list obj;
  (** The rows the answer is computed from, or absent when the query is rejected. *)
  p_run : string → operation → args → D → option (list obj) * D;
}.

(** The keys of a condition are combined by AND. *)
Definition matches `{PrismaClient D} (w r : obj) : bool := bool_decide (map_Forall (λ k v, field_ok k v r = true) w).
Definition where_of (a : args) : obj := default ∅ (a_where a).

(** Writing [data]: columns it does not name keep their value, and a column it sets to a text has that text. *)
Definition written (data r r' : obj) : Prop :=
  (∀ k, data !! k = None → r' !! k = r !! k) ∧ (∀ k s, data !! k = Some (VStr s) → r' !! k = Some (VStr s)).
Definition inserted (data r : obj) : Prop := ∀ k s, data !! k = Some (VStr s) → r !! k = Some (VStr s).


(** What an operation does to the rows of its table. *)
Inductive documented `{PrismaClient D} : operation → args → list obj → option (list obj) → list obj → Prop :=
  | doc_rejected op a rows : documented op a rows None rows
  | doc_read op a rows ans :
      op ∈ read_ops → Forall (λ r, r ∈ rows ∧ matches (where_of a) r = true) ans → documented op a rows (Some ans) rows
  | doc_update op a rows (chosen : obj → bool) (f : obj → obj) :
      op ∈ [update; updateMany; updateManyAndReturn] →
      (∀ r, chosen r = true → matches (where_of a) r = true ∧ written (default ∅ (a_data a)) r (f r)) →
      documented op a rows (Some (f <$> filter (λ r, chosen r = true) rows)) ((λ r, if chosen r then f r else r) <$> rows)
  | doc_delete op a rows (chosen : obj → bool) :
      op ∈ [delete_; deleteMany] → (∀ r, chosen r = true → matches (where_of a) r = true) →
      documented op a rows (Some (filter (λ r, chosen r = true) rows)) (filter (λ r, chosen r = false) rows)
  | doc_create a rows r :
      inserted (default ∅ (a_data a)) r → documented create a rows (Some [r]) (rows ++ [r])%list
  | doc_createMany op a rows new :
      op ∈ [createMany; createManyAndReturn] →
      (∀ r, r ∈ new → ∃ data, (a_data a = Some data ∨ data ∈ a_rows a) ∧ inserted data r) →
      documented op a rows (Some new) (rows ++ new)%list
  | doc_upsert_update a rows (chosen : obj → bool) (f : obj → obj) :
      (∀ r, chosen r = true → matches (where_of a) r = true ∧ written (default ∅ (a_update a)) r (f r)) →
      documented upsert a rows (Some (f <$> filter (λ r, chosen r = true) rows)) ((λ r, if chosen r then f r else r) <$> rows)
  | doc_upsert_create a rows r :
      inserted (default ∅ (a_create a)) r → documented upsert a rows (Some [r]) (rows ++ [r])%list.

(** Data without nested writes: every value is a scalar. *)
Definition scalar (v : value) : bool := match v with VObj _ | VArr _ => false | _ => true end.
Definition flat (o : obj) : Prop := map_Forall (λ _ v, scalar v = true) o.
Definition flat_args (a : args) : Prop :=
  flat (default ∅ (a_data a)) ∧ Forall flat (a_rows a) ∧ flat (default ∅ (a_create a)) ∧ flat (default ∅ (a_update a)).

(** A client whose operations, given scalar data, do to the table of their model what is documented of
    them.  Nothing is assumed of nested writes, nor of the other tables. *)
Class PrismaLaws (D : Type) `{PrismaClient D} : Prop := {
  field_text : ∀ k s (r : obj), field_ok k (VStr s) r = is_str s (r !! k);
  field_null : ∀ k (r : obj), field_ok k VNull r = is_null (r !! k);
  run_documented : ∀ m op a d, flat_args a → documented op a (p_rows m d) (fst (p_run m op a d)) (p_rows m (snd (p_run m op a d)));
}.

(** ** prisma-tenant.extension.ts *)

(** Models [TENANT_SCOPED_MODELS] (backend/src/prisma/prisma-tenant.extension.ts:9-15). *)
Definition SCOPED_MODELS : list string := ["User"; "Asset"; "Project"; "TenantConfig"; "TenantConfigAuditLog"].

(** Models [TenantContext] (backend/src/prisma/prisma-tenant.extension.ts:24-32). *)
Record TenantContext := { ctx_tenantId : string; bypass : bool }.

Section extension.
Variable DEFAULT_TENANT_ID : string.

(** Models [runWithTenant] (backend/src/prisma/prisma-tenant.extension.ts:54-63). *)
Definition runWithTenant (tenantId : string) (byp : option bool) : TenantContext :=
  {| ctx_tenantId := default DEFAULT_TENANT_ID (truthy (Some tenantId)); bypass := default false byp |}.

(** [store] is absent outside of a request.
    Models [getTenantId] (backend/src/prisma/prisma-tenant.extension.ts:46-48). *)
Definition getTenantId (store : option TenantContext) : string :=
  match store with Some c => ctx_tenantId c | None => DEFAULT_TENANT_ID end.

(** Models [isTenantScoped] (backend/src/prisma/prisma-tenant.extension.ts:65-67). *)
Definition isTenantScoped (model : option string) : bool :=
  match truthy model with Some m => bool_decide (m ∈ SCOPED_MODELS) | None => false end.

(** Models [withTenantFilter] (backend/src/prisma/prisma-tenant.extension.ts:69-74). *)
Definition withTenantFilter (w : option obj) (tenantId : string) : obj := <["tenantId" := VStr tenantId]> (default ∅ w).

Definition stamp (tenantId : string) (o : option obj) : obj := <["tenantId" := VStr tenantId]> (default ∅ o).

Definition set_where (w : obj) (a : args) : args :=
  {| a_where := Some w; a_data := a_data a; a_rows := a_rows a; a_create := a_create a; a_update := a_update a |}.

(** The rewriting of the arguments.  [createMany] takes an object or a list of them: [a_data] or [a_rows].
    Models [$allOperations] (backend/src/prisma/prisma-tenant.extension.ts:86-151). *)
Definition scope_args (store : option TenantContext) (model : option string) (op : operation) (a : args) : args :=
  if negb (isTenantScoped model) || match store with Some c => bypass c | None => false end then a
  else
    let tenantId := getTenantId store in
    match op with
    | findUnique | findUniqueOrThrow | findFirst | findFirstOrThrow | findMany | count | aggregate | groupBy
    | update | updateMany | delete_ | deleteMany => set_where (withTenantFilter (a_where a) tenantId) a
    | create => {| a_where := a_where a; a_data := Some (stamp tenantId (a_data a)); a_rows := a_rows a;
                   a_create := a_create a; a_update := a_update a |}
    | createMany => {| a_where := a_where a; a_data := (λ row, stamp tenantId (Some row)) <$> a_data a;
                       a_rows := (λ row, stamp tenantId (Some row)) <$> a_rows a;
                       a_create := a_create a; a_update := a_update a |}
    | upsert => {| a_where := Some (withTenantFilter (a_where a) tenantId); a_data := a_data a; a_rows := a_rows a;
                   a_create := Some (stamp tenantId (a_create a)); a_update := Some (stamp tenantId (a_update a)) |}
    | _ => a
    end.

Section client.
Context {D : Type} `{PrismaLaws D}.

(** A query through the extended client. *)
Definition extended (store : option TenantContext) (model : string) (op : operation) (a : args) (d : D) : option (list obj) * D :=
  p_run model op (scope_args store (Some model) op a) d.

(** *** Isolation *)

Definition owned (t : string) (r : obj) : bool := is_str t (r !! "tenantId").




















(** *** Histories of several tenants *)

Record step := { s_store : option TenantContext; s_model : string; s_op : operation; s_args : args }.

(** The answers of a sequence of queries, each with the tenant that asked. *)
Fixpoint run_steps (l : list step) (d : D) : list (string * option (list obj)) * D :=
  match l with
  | [] => ([], d)
  | s :: rest =>
      let '(ans, d1) := extended (s_store s) (s_model s) (s_op s) (s_args s) d in
      let '(answers, d2) := run_steps rest d1 in
      ((getTenantId (s_store s), ans) :: answers, d2)
  end.





End client.
End extension.

(** ** The limits of the extension *)

Section limits.
Context {D : Type} `{PrismaLaws D}.
Variable DEFAULT_TENANT_ID : string.
Abbreviation extended := (extended DEFAULT_TENANT_ID).

(** The two operations the switch does not name reach the database with the caller's arguments, and an update
    keeps the data it was given: neither is confined to the tenant. *)
Theorem unscoped_paths store model a (d : D) :
  (∀ op, op = createManyAndReturn ∨ op = updateManyAndReturn → extended store model op a d = p_run model op a d) ∧
  (∀ op, op = update ∨ op = updateMany → a_data (scope_args DEFAULT_TENANT_ID store (Some model) op a) = a_data a).
Proof.
  unfold Tenant.extended, scope_args. split; intros op [->| ->]; by case_match.
Qed.
End limits.

(** ** tenant-filter.helper.ts *)

(** Models [tenantFilter] (backend/src/tenant/tenant-filter.helper.ts:16-19). *)
Definition tenantFilter (tenantId : option string) : obj :=
  match truthy tenantId with None => ∅ | Some t => {["tenantId" := VStr t]} end.

Inductive tenant_error := TenantOwnershipError (label : string) | IsolationViolation (model : string).

(** A record is absent or has a tenant column.
    Models [assertTenantOwnership] (backend/src/tenant/tenant-filter.helper.ts:32-49). *)
Definition assertTenantOwnership (record : option obj) (tenantId : option string) (label : string) : result tenant_error () :=
  match record with
  | None => Ok tt
  | Some r =>
      match truthy tenantId with
      | None => Ok tt
      | Some t => if is_str t (r !! "tenantId") then Ok tt else Throw (TenantOwnershipError label)
      end
  end.

Definition active (includeDeleted : bool) : obj := if includeDeleted then ∅ else {["deletedAt" := VNull]}.

(** Models [claimTenantWhere] (backend/src/tenant/tenant-filter.helper.ts:68-75). *)
Definition claimTenantWhere (tenantId : option string) (extra : obj) (includeDeleted : bool) : obj :=
  spread (spread (tenantFilter tenantId) (active includeDeleted)) extra.

(** Models [policyTenantWhere] (backend/src/tenant/tenant-filter.helper.ts:81-88). *)
Definition policyTenantWhere (tenantId : option string) (extra : obj) (includeDeleted : bool) : obj :=
  spread (spread (tenantFilter tenantId) (active includeDeleted)) extra.

(** Models [voteTenantWhere] (backend/src/tenant/tenant-filter.helper.ts:95-105). *)
Definition voteTenantWhere (tenantId : option string) (extra : obj) : obj :=
  match truthy tenantId with
  | None => extra
  | Some t => spread {["claim" := VObj [("tenantId", VStr t)]]} extra
  end.

(** ** Conditions on the columns of one row

    The equality conditions of the helpers, on a row as an object. *)

Definition cond_ok (v : value) (x : option value) : bool :=
  match v with
  | VStr s => is_str s x
  | VNull => is_null x
  | VNum n => match x with Some (VNum m) => m =? n | _ => false end
  | VBool b => match x with Some (VBool c) => Bool.eqb b c | _ => false end
  | _ => false
  end.

Definition row_matches (w r : obj) : bool := bool_decide (map_Forall (λ k v, cond_ok v (r !! k) = true) w).

Lemma row_matches_lookup w r k v : row_matches w r = true → w !! k = Some v → cond_ok v (r !! k) = true.
Proof. intros Hm. apply bool_decide_eq_true in Hm. exact (Hm k v). Qed.

(** A row found with a scoped condition is the tenant's, is live and satisfies the caller's conditions. *)
Lemma scoped_row tenantId extra includeDeleted r :
  extra !! "tenantId" = None → extra !! "deletedAt" = None →
  row_matches (spread (spread (tenantFilter tenantId) (active includeDeleted)) extra) r = true →
  (∀ t, truthy tenantId = Some t → r !! "tenantId" = Some (VStr t)) ∧
  (includeDeleted = false → r !! "deletedAt" = Some VNull) ∧ row_matches extra r = true.
Proof.
  intros Ht Hd Hm. split_and!.
  - intros t Htt. assert (cond_ok (VStr t) (r !! "tenantId") = true) as Hc.
    { eapply row_matches_lookup; [exact Hm|]. rewrite spread_lookup, Ht, spread_lookup. unfold tenantFilter.
      rewrite Htt. by destruct includeDeleted. }
    by apply is_str_iff in Hc.
  - intros ->. assert (cond_ok VNull (r !! "deletedAt") = true) as Hc.
    { eapply row_matches_lookup; [exact Hm|]. rewrite spread_lookup, Hd, spread_lookup. done. }
    cbn in Hc. destruct (r !! "deletedAt") as [[]|]; done.
  - apply bool_decide_eq_true. intros k v Hk. eapply row_matches_lookup; [exact Hm|]. by rewrite spread_lookup, Hk.
Qed.

(** A condition that holds of a row piecewise. *)
Lemma row_matches_intro w r : (∀ k v, w !! k = Some v → cond_ok v (r !! k) = true) → row_matches w r = true.
Proof. intros H. apply bool_decide_eq_true. exact H. Qed.

(** ** tenant-isolation.ts *)

(** Models [TENANT_SCOPED_MODELS] (backend/src/prisma/tenant-isolation.ts:7-7). *)
Definition GUARDED_MODELS : list string := ["Claim"; "Policy"; "WebhookSubscription"].

(** Models [GUARDED_OPERATIONS] (backend/src/prisma/tenant-isolation.ts:9-20). *)
Definition GUARDED_OPERATIONS : list operation :=
  [findMany; findFirst; findUnique; count; aggregate; groupBy; update; updateMany; delete_; deleteMany].

(** Models [assertTenantScoped] (backend/src/prisma/tenant-isolation.ts:22-32). *)
Definition assertTenantScoped (model : option string) (op : operation) (w : option obj) : result tenant_error () :=
  match truthy model with
  | None => Ok tt
  | Some m =>
      if negb (bool_decide (m ∈ GUARDED_MODELS)) || negb (bool_decide (op ∈ GUARDED_OPERATIONS)) then Ok tt
      else match default ∅ w !! "tenantId" with
           | None | Some VNull => Throw (IsolationViolation m)
           | Some _ => Ok tt
           end
  end.

Section helper_facts.
Context {D : Type} `{PrismaLaws D}.

Lemma matches_spread (a b r : obj) :
  (∀ k v, a !! k = Some v → b !! k = None) → matches (spread a b) r = matches a r && matches b r.
Proof.
  intros Hd. unfold matches. apply Bool.eq_iff_eq_true. rewrite andb_true_iff, !bool_decide_eq_true. split.
  - intros Hm. split; intros k v Hk; apply Hm; rewrite spread_lookup; [by rewrite (Hd k v Hk)|by rewrite Hk].
  - intros [Ha Hb] k v. rewrite spread_lookup. destruct (b !! k) eqn:Hk; [|apply Ha]. intros [= <-]. by apply Hb.
Qed.

Lemma matches_empty (r : obj) : matches ∅ r = true.
Proof. apply bool_decide_eq_true. intros k v. by rewrite lookup_empty. Qed.

Lemma matches_singleton k v (r : obj) : matches {[k := v]} r = field_ok k v r.
Proof.
  unfold matches. apply Bool.eq_iff_eq_true. rewrite bool_decide_eq_true. by rewrite map_Forall_singleton.
Qed.

(** The helper scopes a query, and the guard accepts what it builds.  With a tenant and extra conditions
    that name neither column, the condition holds of exactly the rows of the tenant that are not deleted (unless
    deleted rows are asked for) and satisfy the extra conditions, and every guarded query with it passes the
    guard; without a tenant no row is excluded by tenant and the guard refuses the query. *)
Theorem tenant_where_exact (tenantId : option string) (extra : obj) includeDeleted (r : obj) :
  extra !! "tenantId" = None → extra !! "deletedAt" = None →
  matches (claimTenantWhere tenantId extra includeDeleted) r =
    (match truthy tenantId with Some t => owned t r | None => true end &&
     (includeDeleted || is_null (r !! "deletedAt")) && matches extra r) ∧
  ∀ m op, m ∈ GUARDED_MODELS → op ∈ GUARDED_OPERATIONS →
    is_ok (assertTenantScoped (Some m) op (Some (claimTenantWhere tenantId extra includeDeleted))) =
    match truthy tenantId with Some _ => true | None => false end.
Proof.
  intros Ht Hd. split.
  - unfold claimTenantWhere. rewrite matches_spread; [rewrite matches_spread|].
    + f_equal. f_equal.
      * unfold tenantFilter. destruct (truthy tenantId); [|apply matches_empty]. by rewrite matches_singleton, field_text.
      * unfold active. destruct includeDeleted; [apply matches_empty|]. by rewrite matches_singleton, field_null.
    + intros k v Hk. unfold active. destruct includeDeleted; [by rewrite lookup_empty|]. apply lookup_singleton_None.
      intros <-. revert Hk. unfold tenantFilter. by destruct (truthy tenantId).
    + intros k v. rewrite spread_lookup. intros Hk.
      destruct (decide (k = "tenantId")) as [->|H1]; [done|]. destruct (decide (k = "deletedAt")) as [->|H2]; [done|].
      exfalso. revert Hk. unfold active, tenantFilter. destruct includeDeleted, (truthy tenantId);
        rewrite ?lookup_empty, ?lookup_singleton_ne by done; done.
  - intros m op Hm Hop. unfold assertTenantScoped.
    assert (truthy (Some m) = Some m) as ->.
    { unfold GUARDED_MODELS in Hm. repeat (apply elem_of_cons in Hm as [->|Hm]; [done|]). by apply elem_of_nil in Hm. }
    rewrite !bool_decide_true by done. cbn [negb orb default from_option id].
    unfold claimTenantWhere. rewrite !spread_lookup, Ht.
    assert (active includeDeleted !! "tenantId" = None) as -> by (by destruct includeDeleted).
    unfold tenantFilter. destruct (truthy tenantId); [by rewrite lookup_singleton_eq|done].
Qed.
End helper_facts.

(** ** tenant.middleware.ts *)

Definition alnum (c : ascii) : bool := is_lower c || is_digit c.
Definition alnum_dash (c : ascii) : bool := alnum c || bool_decide (c = "-"%char).

(** [/^[a-z0-9][a-z0-9-]{1,62}[a-z0-9]$|^[a-z0-9]{3}$/] *)
Definition TENANT_ID_RE (s : string) : bool :=
  existsb (λ n, matches_classes (alnum :: replicate n alnum_dash ++ [alnum])%list s) (seq 1 62) ||
  matches_classes (replicate 3 alnum) s.

(** Models [validate] (backend/src/tenant/tenant.middleware.ts:79-82). *)
Definition validate (v : string) : option string := if TENANT_ID_RE v then Some v else None.

(** The two headers read; a header may be repeated. *)
Record headers := { x_tenant_id : option (string + list string); host : option string }.

(** Models [resolveFromHeader] (backend/src/tenant/tenant.middleware.ts:65-69). *)
Definition resolveFromHeader (h : headers) : option string :=
  let v := match x_tenant_id h with Some (inr l) => head l | Some (inl s) => Some s | None => None end in
  match truthy v with Some s => validate (trim s) | None => None end.

#[local] Arguments String.append : simpl nomatch.

Section middleware.
Variables (enabled : bool) (baseDomain defaultTenantId : string).

(** Models [resolveFromSubdomain] (backend/src/tenant/tenant.middleware.ts:71-76). *)
Definition resolveFromSubdomain (h : headers) : option string :=
  let hst := hd "" (split ":" (default "" (host h))) in
  if negb (endsWith hst ("." +:+ baseDomain)) then None
  else
    let subdomain := str_take (String.length hst - String.length baseDomain - 1) hst in
    match truthy (Some subdomain) with Some s => validate s | None => None end.

(** The tenant bound to the request.
    Models [TenantMiddleware.use] (backend/src/tenant/tenant.middleware.ts:44-63). *)
Definition middleware_use (h : headers) : string :=
  if negb enabled then defaultTenantId
  else
    let resolved := match resolveFromHeader h with Some t => Some t | None => resolveFromSubdomain h end in
    default defaultTenantId resolved.
End middleware.

(** *** The documented shape *)

Definition tenant_shape (s : string) : Prop :=
  (3 ≤ String.length s ≤ 64)%nat ∧ str_forall alnum_dash s = true ∧ startsWith s "-" = false ∧ endsWith s "-" = false.

Lemma re_middle n c s :
  matches_classes (alnum :: replicate n alnum_dash ++ [alnum])%list (String c s) = true ↔
  ∃ m e, s = m +:+ String e "" ∧ String.length m = n ∧ alnum c = true ∧ str_forall alnum_dash m = true ∧ alnum e = true.
Proof.
  cbn [matches_classes]. rewrite matches_classes_app, length_replicate, matches_classes_replicate, !andb_true_iff, bool_decide_eq_true.
  split.
  - intros (Hc & [Hl Hm] & He). exists (str_take n s).
    destruct (str_drop n s) as [|e [|? ?]] eqn:Hd; cbn in He; rewrite ?andb_false_r, ?andb_true_r in He; try done.
    exists e. rewrite <- Hd, str_take_drop. auto.
  - intros (m & e & -> & <- & Hc & Hm & He). rewrite str_take_app, str_drop_app. cbn. by rewrite He.
Qed.

Lemma ends_dash c m e : endsWith (String c (m +:+ String e "")) "-" = bool_decide (e = "-"%char).
Proof.
  apply Bool.eq_iff_eq_true. rewrite endsWith_iff, bool_decide_eq_true. split.
  - intros [a Ha]. change (String c (m +:+ String e "")) with (String c m +:+ String e "") in Ha.
    assert (String.length (String c m) = String.length a) as Hl.
    { apply (f_equal String.length) in Ha. rewrite !length_string_app in Ha. cbn in *. lia. }
    apply (f_equal (str_drop (String.length a))) in Ha. rewrite str_drop_app in Ha. rewrite <- Hl, str_drop_app in Ha. congruence.
  - intros ->. by exists (String c m).
Qed.

Lemma starts_dash c s : startsWith (String c s) "-" = bool_decide (c = "-"%char).
Proof.
  unfold startsWith. cbn [String.prefix]. destruct (ascii_dec "-" c) as [<-|Hne].
  - by rewrite bool_decide_true; [destruct s|].
  - by rewrite bool_decide_false.
Qed.

Lemma alnum_not_dash c : alnum c = alnum_dash c && negb (bool_decide (c = "-"%char)).
Proof. unfold alnum_dash. case_bool_decide as Hc; [subst; done|]. by rewrite orb_false_r, andb_true_r. Qed.

Lemma TENANT_ID_RE_spec s : TENANT_ID_RE s = true ↔ tenant_shape s.
Proof.
  unfold TENANT_ID_RE, tenant_shape. rewrite orb_true_iff, existsb_exists, matches_classes_replicate. split.
  - intros [(n & Hn%in_seq & Hm)|Hm].
    + destruct s as [|c s]; [done|]. apply re_middle in Hm as (m & e & -> & <- & Hc & Hm & He).
      rewrite ends_dash, starts_dash. cbn [String.length str_forall]. rewrite length_string_app, str_forall_app, Hm. cbn [String.length str_forall andb].
      rewrite alnum_not_dash in Hc, He. apply andb_true_iff in Hc as [Hc1 Hc2], He as [He1 He2].
      rewrite Hc1, He1. apply negb_true_iff in Hc2, He2. split_and!; [lia..|done|done|done].
    + destruct s as [|a [|b [|c [|]]]]; cbn in Hm; rewrite ?andb_false_r in Hm; try done.
      cbn [String.length str_forall]. rewrite alnum_not_dash in Hm. rewrite (alnum_not_dash b), (alnum_not_dash c) in Hm. bool_prop.
      repeat match goal with H : alnum_dash _ = true |- _ => rewrite H end.
      split_and!; [lia..|done| |].
      * rewrite starts_dash. by apply bool_decide_eq_false.
      * change (String a (String b (String c ""))) with (String a (String b "" +:+ String c "")).
        rewrite ends_dash. by apply bool_decide_eq_false.
  - intros (Hl & Hf & Hs & He). left. destruct (str_ends s) as (c & m & e & ->); [lia|].
    cbn in Hl, Hf. rewrite length_string_app in Hl. cbn in Hl. rewrite str_forall_app in Hf. cbn in Hf. rewrite ends_dash in He.
    exists (String.length m). split; [apply in_seq; lia|]. apply re_middle. exists m, e. bool_prop.
    split_and!; try done.
    + rewrite alnum_not_dash. apply andb_true_iff. split; [done|]. apply negb_true_iff, bool_decide_eq_false. intros ->.
      by rewrite starts_dash, bool_decide_true in Hs.
    + rewrite alnum_not_dash. apply andb_true_iff. split; [done|]. by apply negb_true_iff, bool_decide_eq_false.
Qed.

Lemma validate_some s t : validate s = Some t ↔ s = t ∧ tenant_shape t.
Proof.
  unfold validate. pose proof (TENANT_ID_RE_spec s) as Hs. destruct (TENANT_ID_RE s); naive_solver.
Qed.

Lemma shape_not p t : (∀ c, alnum_dash c = true → p c = false) → tenant_shape t → str_forall (λ c, negb (p c)) t = true.
Proof.
  intros Hp (_ & Hf & _). apply (str_forall_impl alnum_dash); [|done]. intros c Hc. by rewrite (Hp c Hc).
Qed.

Lemma alnum_dash_not_ws c : alnum_dash c = true → is_ws c = false.
Proof. by destruct c as [[] [] [] [] [] [] [] []]; vm_compute. Qed.
Lemma alnum_dash_not_colon c : alnum_dash c = true → bool_decide (c = ":"%char) = false.
Proof. intros Hc. apply bool_decide_eq_false. by intros ->. Qed.

Lemma shape_trim t : tenant_shape t → trim t = t.
Proof.
  intros Ht. unfold trim. pose proof (shape_not is_ws t alnum_dash_not_ws Ht) as Hw.
  by rewrite (trimStart_clean _ Hw), (trimEnd_clean _ Hw).
Qed.

Lemma shape_truthy t : tenant_shape t → truthy (Some t) = Some t.
Proof. intros (Hl & _). destruct t; cbn in *; [lia|done]. Qed.

Lemma subdomain_resolved base t hdr (port : option string) :
  tenant_shape t → avoids ":" base = true →
  resolveFromSubdomain base {| x_tenant_id := hdr;
    host := Some (t +:+ "." +:+ base +:+ match port with Some p => ":" +:+ p | None => "" end) |} = Some t.
Proof.
  intros Ht Hb. unfold resolveFromSubdomain. cbn [host default from_option id].
  assert (hd "" (split ":" (t +:+ "." +:+ base +:+ match port with Some p => ":" +:+ p | None => "" end)) = t +:+ "." +:+ base) as ->.
  { assert (str_forall (λ a, negb (bool_decide (a = ":"%char))) (t +:+ "." +:+ base) = true) as Ha.
    { rewrite !str_forall_app, (shape_not _ t alnum_dash_not_colon Ht). exact Hb. }
    destruct port as [p|].
    - change (":" +:+ p) with (String ":" p).
      replace (t +:+ "." +:+ base +:+ String ":" p) with ((t +:+ "." +:+ base) +:+ String ":" p) by (by rewrite !str_app_assoc).
      by rewrite (split_app _ _ _ Ha).
    - rewrite !str_app_nil_r. by rewrite (split_single _ _ Ha). }
  assert (endsWith (t +:+ "." +:+ base) ("." +:+ base) = true) as -> by (apply endsWith_iff; by exists t).
  cbn [negb]. rewrite !length_string_app. cbn [String.length].
  replace (String.length t + (1 + String.length base) - String.length base - 1)%nat with (String.length t) by lia.
  rewrite str_take_app, (shape_truthy t Ht). by apply validate_some.
Qed.

Lemma header_shape h t : resolveFromHeader h = Some t → tenant_shape t.
Proof.
  unfold resolveFromHeader. destruct (truthy _); [|done]. by intros [_ ?]%validate_some.
Qed.

Lemma subdomain_shape base h t : resolveFromSubdomain base h = Some t → tenant_shape t.
Proof.
  unfold resolveFromSubdomain. destruct (negb _); [done|]. destruct (truthy _); [|done]. by intros [_ ?]%validate_some.
Qed.

(** Which tenant a request is bound to.  The tenant is always the configured default or an identifier of
    the documented shape (3 to 64 lower-case letters, digits and hyphens, no hyphen at the ends), which the
    regular expression accepts exactly.  With resolution enabled, an identifier of that shape in the header is
    the tenant whatever the host is; without a valid header the host <tenant>.<base domain>, with or without a
    port, is bound to the tenant; with resolution disabled the headers are ignored. *)
Theorem tenant_resolution base def (h : headers) :
  (∀ s, TENANT_ID_RE s = true ↔ tenant_shape s) ∧
  (∀ en, middleware_use en base def h = def ∨ tenant_shape (middleware_use en base def h)) ∧
  middleware_use false base def h = def ∧
  (∀ t, tenant_shape t → x_tenant_id h = Some (inl t) → middleware_use true base def h = t) ∧
  (∀ t port, tenant_shape t → avoids ":" base = true → resolveFromHeader h = None →
     host h = Some (t +:+ "." +:+ base +:+ match port with Some p => ":" +:+ p | None => "" end) →
     middleware_use true base def h = t).
Proof.
  split_and!.
  - apply TENANT_ID_RE_spec.
  - intros en. unfold middleware_use. destruct en; cbn [negb]; [|by left].
    pose proof (header_shape h) as Hh. pose proof (subdomain_shape base h) as Hs.
    destruct (resolveFromHeader h) as [t|]; cbn; [right; by apply Hh|].
    destruct (resolveFromSubdomain base h) as [t|]; cbn; [right; by apply Hs|by left].
  - done.
  - intros t Ht Hx. unfold middleware_use, resolveFromHeader. cbn [negb]. rewrite Hx, (shape_truthy t Ht), (shape_trim t Ht).
    assert (validate t = Some t) as -> by (by apply validate_some). done.
  - intros t port Ht Hb Hn Hh. unfold middleware_use. cbn [negb]. rewrite Hn. destruct h as [hdr hst]. cbn [host] in Hh. rewrite Hh.
    by rewrite (subdomain_resolved base t hdr port Ht Hb).
Qed.

(** ** tenant-context.ts *)

Inductive source := FromHost | FromHeader | FromDefault.

(** Models [TenantContext] (backend/src/tenant/tenant-context.ts:12-19). *)
Record ResolvedTenant := { rt_tenantId : string; rt_source : source; resolvedFrom : option string }.

Definition CONTEXT_DEFAULT_TENANT : string := "default".

(** Models [normalize] (backend/src/tenant/tenant-context.ts:90-93). *)
Definition normalize (v : option string) : option string := truthy (trim <$> v).

(** Models [normalizeHost] (backend/src/tenant/tenant-context.ts:95-102). *)
Definition normalizeHost (h : option string) : option string :=
  match normalize h with
  | None => None
  | Some n => truthy (Some (hd "" (split ":" (toLowerCase n))))
  end.

(** Models [resolveTenantId] (backend/src/tenant/tenant-context.ts:70-88). *)
Definition resolveTenantId (hst header : option string) (known : option (list string)) : ResolvedTenant :=
  let ok v := match known with Some l => bool_decide (v ∈ l) | None => true end in
  let by_host :=
    match normalizeHost hst with
    | Some v => if ok v then {| rt_tenantId := v; rt_source := FromHost; resolvedFrom := Some v |}
                else {| rt_tenantId := CONTEXT_DEFAULT_TENANT; rt_source := FromDefault; resolvedFrom := None |}
    | None => {| rt_tenantId := CONTEXT_DEFAULT_TENANT; rt_source := FromDefault; resolvedFrom := None |}
    end in
  match normalize header with
  | Some v => if ok v then {| rt_tenantId := v; rt_source := FromHeader; resolvedFrom := Some v |} else by_host
  | None => by_host
  end.

(** The resolved tenant is the default or a known one, it is never empty, and an unknown header does not stop the
    host from being used. *)
Theorem resolved_known hst header known :
  let r := resolveTenantId hst header known in
  rt_tenantId r ≠ "" ∧
  (rt_source r = FromDefault → rt_tenantId r = CONTEXT_DEFAULT_TENANT) ∧
  (∀ l, known = Some l → rt_tenantId r = CONTEXT_DEFAULT_TENANT ∨ rt_tenantId r ∈ l) ∧
  (∀ l v, known = Some l → normalize header = Some v → v ∉ l → resolveTenantId hst None known = r).
Proof.
  assert (∀ v t, truthy v = Some t → t ≠ "") as Ht by (intros [[|? ?]|] t [=]; by subst).
  assert (∀ h t, normalizeHost h = Some t → t ≠ "") as Hh.
  { intros h t. unfold normalizeHost. destruct (normalize h); [|done]. apply Ht. }
  intros r. subst r. unfold resolveTenantId. split_and!.
  - destruct (normalize header) as [v|] eqn:Hn; [apply Ht in Hn|]; destruct (normalizeHost hst) as [u|] eqn:Hu;
      try apply Hh in Hu; repeat case_match; cbn; try done.
  - destruct (normalize header), (normalizeHost hst); repeat case_match; cbn; try done; by intros [=].
  - intros l ->. destruct (normalize header), (normalizeHost hst); repeat case_match; cbn; auto; bool_prop; auto.
  - intros l v -> -> Hv. by rewrite (bool_decide_false (v ∈ l)).
Qed.

(** ** An executable client *)

Module TenantSample.
Abbreviation tables := (gmap string (list obj)).

Definition sample_field (k : string) (v : value) (r : obj) : bool :=
  match v, r !! k with
  | VStr s, w => is_str s w
  | VNull, w => is_null w
  | VNum n, Some (VNum m) => bool_decide (m = n)
  | VBool b, Some (VBool c) => bool_decide (b = c)
  | _, _ => false
  end.
Definition sample_matches (w r : obj) : bool := bool_decide (map_Forall (λ k v, sample_field k v r = true) w).
Definition sample_rows (m : string) (d : tables) : list obj := default [] (d !! m).

(** The rows an operation answers with and leaves behind. *)
Definition sample_effect (op : operation) (a : args) (rows : list obj) : list obj * list obj :=
  let w := where_of a in
  let sel := filter (λ r, sample_matches w r = true) rows in
  let upd data := ((λ r, spread r data) <$> sel, (λ r, if sample_matches w r then spread r data else r) <$> rows) in
  match op with
  | update | updateMany | updateManyAndReturn => upd (default ∅ (a_data a))
  | delete_ | deleteMany => (sel, filter (λ r, sample_matches w r = false) rows)
  | create => ([default ∅ (a_data a)], (rows ++ [default ∅ (a_data a)])%list)
  | createMany | createManyAndReturn =>
      let new := (option_list (a_data a) ++ a_rows a)%list in (new, (rows ++ new)%list)
  | upsert => match sel with
              | [] => ([default ∅ (a_create a)], (rows ++ [default ∅ (a_create a)])%list)
              | _ => upd (default ∅ (a_update a))
              end
  | _ => (sel, rows)
  end.

#[export] Instance sample_client : PrismaClient tables := {
  field_ok := sample_field;
  p_rows := sample_rows;
  p_run := λ m op a d,
    let '(ans, rows) := sample_effect op a (sample_rows m d) in (Some ans, <[m := rows]> d);
}.

Lemma sample_written data r : written data r (spread r data).
Proof. split; intros k; [intros Hk|intros s Hk]; by rewrite spread_lookup, Hk. Qed.

Lemma sample_documented op a rows :
  documented (D:=tables) op a rows (Some (sample_effect op a rows).1) (sample_effect op a rows).2.
Proof.
  assert (∀ data r, sample_matches (where_of a) r = true → matches (where_of a) r = true ∧ written data r (spread r data)) as Hw
    by (intros data r Hr; split; [exact Hr|apply sample_written]).
  assert (∀ o, o ∈ read_ops → documented (D:=tables) o a rows (Some (filter (λ r, sample_matches (where_of a) r = true) rows)) rows) as Hread.
  { intros o Ho. apply doc_read; [done|]. apply Forall_forall. intros r [Hr Hin]%list_elem_of_filter. exact (conj Hin Hr). }
  assert (∀ o, o ∈ [update; updateMany; updateManyAndReturn] → documented (D:=tables) o a rows
    (Some ((λ r, spread r (default ∅ (a_data a))) <$> filter (λ r, sample_matches (where_of a) r = true) rows))
    ((λ r, if sample_matches (where_of a) r then spread r (default ∅ (a_data a)) else r) <$> rows)) as Hupd.
  { intros o Ho. apply (doc_update o a rows (sample_matches (where_of a)) (λ r, spread r (default ∅ (a_data a)))); [done|apply Hw]. }
  assert (∀ o, o ∈ [delete_; deleteMany] → documented (D:=tables) o a rows
    (Some (filter (λ r, sample_matches (where_of a) r = true) rows)) (filter (λ r, sample_matches (where_of a) r = false) rows)) as Hdel.
  { intros o Ho. by apply (doc_delete o a rows (sample_matches (where_of a))). }
  assert (∀ o, o ∈ [createMany; createManyAndReturn] → documented (D:=tables) o a rows
    (Some (option_list (a_data a) ++ a_rows a)%list) (rows ++ option_list (a_data a) ++ a_rows a)%list) as Hnew.
  { intros o Ho. apply doc_createMany; [done|]. intros r [Hr|Hr]%elem_of_app; exists r; (split; [|by intros k s]); [left|by right].
    destruct (a_data a); cbn in Hr; [by apply list_elem_of_singleton in Hr as ->|by apply elem_of_nil in Hr]. }
  destruct op; cbn [sample_effect fst snd];
    try (apply Hread; apply (bool_decide_unpack _); vm_compute; exact I);
    try (apply Hupd; apply (bool_decide_unpack _); vm_compute; exact I);
    try (apply Hdel; apply (bool_decide_unpack _); vm_compute; exact I);
    try (apply Hnew; apply (bool_decide_unpack _); vm_compute; exact I).
  - apply doc_create. by intros k s.
  - destruct (filter (λ r, sample_matches (where_of a) r = true) rows) as [|r0 sel] eqn:Hf; [apply doc_upsert_create; by intros k s|].
    rewrite <- Hf. apply (doc_upsert_update _ _ (sample_matches (where_of a)) (λ r, spread r (default ∅ (a_update a)))). apply Hw.
Qed.

#[export] Instance sample_laws : PrismaLaws tables.
Proof.
  split.
  - done.
  - intros k r. cbn. by destruct (r !! k) as [[]|].
  - intros m op a d _. cbn [p_run p_rows sample_client]. pose proof (sample_documented op a (sample_rows m d)) as Hd.
    destruct (sample_effect op a (sample_rows m d)) as [ans rows]. cbn [fst snd] in *.
    assert (sample_rows m (<[m:=rows]> d) = rows) as -> by (unfold sample_rows; by rewrite lookup_insert_eq). exact Hd.
Qed.
End TenantSample.

Module TenantWitnesses.
Import TenantSample.

Definition asset (t n : string) : obj := <["tenantId" := VStr t]> {["name" := VStr n]}.
Definition assets : tables := {["Asset" := [asset "acme" "car"; asset "globex" "boat"]]}.
Definition as_acme : option TenantContext := Some {| ctx_tenantId := "acme"; bypass := false |}.


(** An update that names the tenant column gives the caller's row to the tenant it names. *)
Definition give_away : step := {| s_store := as_acme; s_model := "Asset"; s_op := updateMany;
  s_args := {| a_where := None; a_data := Some {["tenantId" := VStr "globex"]}; a_rows := []; a_create := None; a_update := None |} |}.
Example update_moves_tenant :
  p_rows "Asset" (snd (run_steps "default" [give_away] assets)) = [asset "globex" "car"; asset "globex" "boat"].
Proof. vm_compute. reflexivity. Qed.

Lemma tenant_where_exact_witness :
  matches (D:=tables) (claimTenantWhere (Some "acme") ∅ true) (asset "acme" "car") = true.
Proof.
  rewrite (proj1 (tenant_where_exact (D:=tables) (Some "acme") ∅ true (asset "acme" "car") (lookup_empty _) (lookup_empty _))). vm_compute. reflexivity.
Defined.

Definition acme_host : headers := {| x_tenant_id := None; host := Some "acme.niffyinsur.com:3000" |}.

Lemma acme_shape : tenant_shape "acme".
Proof. repeat split; cbn; lia. Qed.

Lemma tenant_resolution_witness : middleware_use true "niffyinsur.com" "default" acme_host = "acme".
Proof.
  destruct (tenant_resolution "niffyinsur.com" "default" acme_host) as (_ & _ & _ & _ & Hhost).
  apply (Hhost "acme" (Some "3000")); [exact acme_shape|reflexivity..].
Defined.
End TenantWitnesses.
