(* ===== verification/Amount.v ===== *)
(** * Token amounts in the web front end

    frontend/lib/amount.ts: an integer amount in the smallest unit as a display
    text, and back.  big.js is an interface of decimal numbers: [b_dec b n k]
    says that [b] is n / 10^k. *)

From stdpp Require Import base list strings pretty.
From Stdlib Require Import ZArith Lia Ascii.
From S2P Require Import Prelude JsText.

Open Scope string_scope.
Open Scope Z_scope.

(** ** Decimal numbers *)

(** Rounding half away from zero, the rounding mode [Big.roundHalfUp]. *)
Definition half_up (n d : Z) : Z := Z.sgn n * ((2 * Z.abs n + d) / (2 * d)).

(** n / 10^k at [dp] decimals. *)
Definition at_scale (n k dp : Z) : Z := if k <=? dp then n * 10 ^ (dp - k) else half_up n (10 ^ (k - dp)).

(** The text of m / 10^dp in normal notation, for m at least 0. *)
Definition fixed_text (m dp : Z) : string :=
  if dp =? 0 then show_Z m else show_Z (m / 10 ^ dp) +:+ "." +:+ pad (Z.to_nat dp) (m mod 10 ^ dp).

Class BigJs (B : Type) := {
  b_int : Z → B;                  (** of the text of an integer *)
  b_pow10 : Z → B;                (** [new Big(10).pow(n)] *)
  b_div : B → B → B;
  b_abs : B → B;
  b_lt0 : B → bool;
  b_gte : B → B → bool;
  b_toFixed : B → Z → string;     (** rounding half up *)
  b_dec : B → Z → Z → Prop;
}.

(** Division keeps 20 decimals ([Big.DP]); the other operations are exact. *)
Class BigJsLaws (B : Type) `{BigJs B} : Prop := {
  dec_int : ∀ z, b_dec (b_int z) z 0;
  dec_pow10 : ∀ n, 0 ≤ n ≤ 1000000 → b_dec (b_pow10 n) (10 ^ n) 0;
  dec_div : ∀ a b n k j, 0 ≤ k → 0 ≤ j → b_dec a n k → b_dec b (10 ^ j) 0 → b_dec (b_div a b) (at_scale n (k + j) 20) 20;
  dec_abs : ∀ a n k, b_dec a n k → b_dec (b_abs a) (Z.abs n) k;
  dec_lt0 : ∀ a n k, 0 ≤ k → b_dec a n k → b_lt0 a = (n <? 0);
  dec_gte : ∀ a b n k m, 0 ≤ k → b_dec a n k → b_dec b m 0 → b_gte a b = (m * 10 ^ k <=? n);
  dec_toFixed : ∀ a n k dp, 0 ≤ k → 0 ≤ dp ≤ 1000000 → 0 ≤ n → b_dec a n k →
    b_toFixed a dp = fixed_text (at_scale n k dp) dp;
}.

(** ** The module *)

Inductive amount_error := InvalidRaw | InvalidDecimals | AmountRequired | InvalidAmount | TooManyDecimals.

(** Models [AssetLike] (frontend/lib/amount.ts:3-7). *)
Record AssetLike := { a_code : option string; a_symbol : option string; a_decimals : option num }.

(** Models [ToDisplayOptions] (frontend/lib/amount.ts:9-20). *)
Record ToDisplayOptions := {
  o_trim : option bool; o_compact : option bool; o_locale : option string;
  o_minFractionDigits : option Z; o_maxFractionDigits : option Z }.

Definition strip_minus (s : string) : bool * string :=
  match s with String "-" s' => (true, s') | _ => (false, s) end.

(** Models [assertDecimals] (frontend/lib/amount.ts:40-44).  [None] is a number that is not an integer. *)
Definition assertDecimals (decimals : num) : result amount_error Z :=
  match decimals with
  | Some d => if d <? 0 then Throw InvalidDecimals else Ok d
  | None => Throw InvalidDecimals
  end.

(** [replace(/0+$/, '')] *)
Fixpoint strip_zeros (s : string) : string :=
  match s with
  | "" => ""
  | String c s' => match strip_zeros s' with
                   | "" => if bool_decide (c = "0"%char) then "" else String c ""
                   | t => String c t
                   end
  end.

(** [replace(/^0+(?=\d)/, '')] on a text of digits. *)
Fixpoint strip_leading (s : string) : string :=
  match s with
  | String "0" ((String _ _) as s') => strip_leading s'
  | _ => s
  end.

(** The separator goes before a digit when the number of digits from there on is a multiple of three and at least
    one digit precedes: [replace(/\B(?=(\d{3})+(?!\d))/g, sep)] on a text of digits. *)
Fixpoint group_digits (sep : string) (s : string) : string :=
  match s with
  | "" => ""
  | String c "" => String c ""
  | String c s' => String c ((if bool_decide (String.length s' mod 3 = 0)%nat then sep else "") +:+ group_digits sep s')
  end.

Definition comma_locale (locale : string) : bool :=
  startsWith locale "de" || startsWith locale "fr" || startsWith locale "es".

(** Models [groupInteger] (frontend/lib/amount.ts:108-116). *)
Definition groupInteger (intPart locale : string) : string :=
  let groupSeparator := if comma_locale locale then "." else "," in
  let '(minus, digits) := strip_minus intPart in
  (if minus then "-" else "") +:+ group_digits groupSeparator digits.

(** Models [decimalSeparator] (frontend/lib/amount.ts:118-120). *)
Definition decimalSeparator (locale : string) : string := if comma_locale locale then "," else ".".

(** [const [intPart, fracPart = ''] = value.split('.')] *)
Definition int_frac (v : string) : string * string :=
  match split "." v with
  | i :: f :: _ => (i, f)
  | [i] => (i, "")
  | [] => ("", "")
  end.

(** Models [formatNumberString] (frontend/lib/amount.ts:85-106). *)
Definition formatNumberString (v locale : string) (trim_ : bool) (minFractionDigits : Z) : string :=
  let '(intPart, fracPart) := int_frac v in
  let frac := if trim_ then strip_zeros fracPart else fracPart in
  let frac := frac +:+ zeros (Z.to_nat minFractionDigits - String.length frac) in
  let grouped := groupInteger intPart locale in
  if bool_decide (frac = "") then grouped else grouped +:+ decimalSeparator locale +:+ frac.

Section amount.
Context {B : Type} `{BigJs B}.

(** A bigint, or a text.
    Models [toBig] (frontend/lib/amount.ts:29-38). *)
Definition toBig (raw : string + Z) : result amount_error B :=
  match raw with
  | inr z => Ok (b_int z)
  | inl s =>
      let '(minus, digits) := strip_minus (trim s) in
      if some_digits digits
      then Ok (b_int (if minus then - digits_val 0 digits else digits_val 0 digits))
      else Throw InvalidRaw
  end.

(** Models [COMPACT_UNITS] (frontend/lib/amount.ts:22-27). *)
Definition COMPACT_UNITS : list (Z * string) := [(12, "T"); (9, "B"); (6, "M"); (3, "K")].

(** The compact text of [abs] in the first unit that fits. *)
Fixpoint compact_text (units : list (Z * string)) (abs : B) (locale : string) (trim_ : bool) : option string :=
  match units with
  | [] => None
  | (u, suffix) :: rest =>
      if b_gte abs (b_pow10 u) then
        let scaled := b_div abs (b_pow10 u) in
        let digits := if b_gte scaled (b_int 100) then 0 else if b_gte scaled (b_int 10) then 1 else 2 in
        Some (formatNumberString (b_toFixed scaled digits) locale trim_ 0 +:+ suffix)
      else compact_text rest abs locale trim_
  end.

(** Models [toDisplay] (frontend/lib/amount.ts:50-83). *)
Definition toDisplay (raw : string + Z) (decimals : num) (opts : ToDisplayOptions) : result amount_error string :=
  let! d := assertDecimals decimals in
  let trim_ := default true (o_trim opts) in
  let locale := default "en-US" (o_locale opts) in
  let! big := toBig raw in
  let v := b_div big (b_pow10 d) in
  let sign := if b_lt0 v then "-" else "" in
  let abs := b_abs v in
  match (if default false (o_compact opts) then compact_text COMPACT_UNITS abs locale trim_ else None) with
  | Some t => Ok (sign +:+ t)
  | None =>
      let fixed := b_toFixed abs (default d (o_maxFractionDigits opts)) in
      Ok (sign +:+ formatNumberString fixed locale trim_ (default 0 (o_minFractionDigits opts)))
  end.

(** The regular expression of toRaw: an optional minus sign, digits, and at most one point followed by digits. *)
Definition AMOUNT_RE (s : string) : bool :=
  let '(_, u) := strip_minus s in
  match split "." u with
  | [i] => all_digits i
  | [i; f] => all_digits i && all_digits f
  | _ => false
  end.

(** The text of the integer, whose sign is dropped when it is zero.
    Models [toRaw] (frontend/lib/amount.ts:126-148). *)
Definition toRaw (input : string) (decimals : num) : result amount_error string :=
  let! d := assertDecimals decimals in
  let trimmed := trim input in
  if bool_decide (trimmed = "") then Throw AmountRequired
  else if negb (AMOUNT_RE trimmed) || bool_decide (trimmed ∈ ["."; "-."; "-"]) then Throw InvalidAmount
  else
    let '(negative, unsigned) := strip_minus trimmed in
    let '(intPart, fracPart) := int_frac unsigned in
    if d <? str_len fracPart then Throw TooManyDecimals
    else
      let paddedFrac := fracPart +:+ zeros (Z.to_nat d - String.length fracPart) in
      let combined := strip_leading ((if bool_decide (intPart = "") then "0" else intPart) +:+ paddedFrac) in
      let n := digits_val 0 (if bool_decide (combined = "") then "0" else combined) in
      Ok ((if negative && (0 <? n) then "-" else "") +:+ show_Z n).

(** Models [formatAsset] (frontend/lib/amount.ts:153-163). *)
Definition formatAsset (raw : string + Z) (asset : AssetLike) (locale : string) (opts : ToDisplayOptions)
    : result amount_error string :=
  let decimals := default (Some 7) (a_decimals asset) in
  let! display := toDisplay raw decimals {| o_trim := o_trim opts; o_compact := o_compact opts; o_locale := Some locale;
    o_minFractionDigits := o_minFractionDigits opts; o_maxFractionDigits := o_maxFractionDigits opts |} in
  let code := match a_code asset with Some c => Some c | None => a_symbol asset end in
  Ok (match truthy code with Some c => display +:+ " " +:+ c | None => display end).

(** *** Rounding and texts *)

Lemma half_up_exact n d : 0 < d → half_up (n * d) d = n.
Proof.
  intros Hd. unfold half_up. rewrite Z.sgn_mul, (Z.sgn_pos d), Z.mul_1_r, Z.abs_mul, (Z.abs_eq d) by lia.
  assert ((2 * (Z.abs n * d) + d) / (2 * d) = Z.abs n) as ->; [|lia].
  symmetry. apply (Z.div_unique_pos _ _ _ d); lia.
Qed.

Lemma at_scale_up n k dp : k ≤ dp → at_scale n k dp = n * 10 ^ (dp - k).
Proof. intros Hk. unfold at_scale. by rewrite (proj2 (Z.leb_le k dp)). Qed.

Lemma at_scale_back n k dp : 0 ≤ k ≤ dp → at_scale (n * 10 ^ (dp - k)) dp k = n.
Proof.
  intros Hk. unfold at_scale. destruct (Z.leb_spec dp k).
  - replace (dp - k) with 0 by lia. replace (k - dp) with 0 by lia. lia.
  - apply half_up_exact. lia.
Qed.

Lemma digits_val_app acc a b : digits_val acc (a +:+ b) = digits_val (digits_val acc a) b.
Proof. revert acc. induction a as [|c a IH]; intros acc; [done|]. apply IH. Qed.

Lemma digits_val_acc acc s : digits_val acc s = acc * 10 ^ str_len s + digits_val 0 s.
Proof.
  revert acc. induction s as [|c s IH]; intros acc; [change (acc = acc * 1 + 0); lia|].
  cbn [digits_val]. rewrite IH, (IH (0 * 10 + digit_val c)). unfold str_len. cbn [String.length].
  rewrite Nat2Z.inj_succ, Z.pow_succ_r by lia. ring.
Qed.

Lemma digits_val_zeros_r acc k : digits_val acc (zeros k) = acc * 10 ^ Z.of_nat k.
Proof.
  revert acc. induction k as [|k IH]; intros acc; [change (acc = acc * 1); lia|]. cbn [zeros digits_val]. rewrite IH.
  rewrite Nat2Z.inj_succ, Z.pow_succ_r by lia. change (digit_val "0") with 0. ring.
Qed.

Lemma zeros_add a b : zeros (a + b) = zeros a +:+ zeros b.
Proof. induction a as [|a IH]; [done|]. cbn [zeros Nat.add]. by rewrite IH. Qed.

Lemma length_pad w n : (1 ≤ w)%nat → 0 ≤ n < 10 ^ Z.of_nat w → String.length (pad w n) = w.
Proof.
  intros Hw Hn. pose proof (show_Z_length w n Hw Hn). unfold pad. rewrite length_string_app, length_zeros. lia.
Qed.

Lemma pad_digits w n : 0 ≤ n → all_digits (pad w n) = true.
Proof. intros Hn. unfold pad, all_digits. rewrite str_forall_app. apply andb_true_iff. split; [apply zeros_digits|by apply show_Z_digits]. Qed.

Lemma pad_val w n : 0 ≤ n → digits_val 0 (pad w n) = n.
Proof. intros Hn. unfold pad. by rewrite digits_val_zeros, show_Z_val. Qed.

Lemma strip_zeros_spec s : ∃ k, s = strip_zeros s +:+ zeros k.
Proof.
  induction s as [|c s [k IH]]; [by exists O|]. cbn [strip_zeros]. destruct (strip_zeros s) as [|c' t] eqn:Hs.
  - change ("" +:+ zeros k) with (zeros k) in IH. case_bool_decide; [subst c; exists (S k); by rewrite IH|].
    exists k. by rewrite IH.
  - exists k. by rewrite IH.
Qed.

Lemma group_short sep s : (String.length s ≤ 3)%nat → group_digits sep s = s.
Proof. destruct s as [|a [|b [|c [|d s]]]]; cbn; try done. lia. Qed.

Lemma strip_leading_val s : digits_val 0 (strip_leading s) = digits_val 0 s.
Proof.
  induction s as [|c s IH]; [done|]. destruct (decide (c = "0"%char)) as [->|Hc].
  - destruct s as [|c' s]; [done|]. exact IH.
  - cbn [strip_leading]. by destruct c as [[] [] [] [] [] [] [] []].
Qed.

Lemma strip_leading_ne s : s ≠ "" → strip_leading s ≠ "".
Proof.
  induction s as [|c s IH]; [done|]. intros _. destruct (decide (c = "0"%char)) as [->|Hc].
  - destruct s as [|c' s]; [done|]. by apply IH.
  - cbn [strip_leading]. by destruct c as [[] [] [] [] [] [] [] []].
Qed.

Lemma strip_minus_digits s : all_digits s = true → strip_minus s = (false, s).
Proof.
  destruct s as [|c s]; [done|]. intros [Hc _]%andb_true_iff. by destruct c as [[] [] [] [] [] [] [] []].
Qed.

Lemma digits_no_point s : all_digits s = true → str_forall (λ a, negb (bool_decide (a = "."%char))) s = true.
Proof. by apply digits_avoid. Qed.

(** *** What is displayed *)

Definition frac_digits (m d : Z) : string := if d =? 0 then "" else pad (Z.to_nat d) (m mod 10 ^ d).
Definition with_frac (sep i f : string) : string := if bool_decide (f = "") then i else i +:+ sep +:+ f.

Lemma frac_digits_spec m d : 0 ≤ d →
  all_digits (frac_digits m d) = true ∧ str_len (frac_digits m d) = d ∧ digits_val 0 (frac_digits m d) = m mod 10 ^ d.
Proof.
  intros Hd. unfold frac_digits. destruct (Z.eqb_spec d 0) as [->|Hne].
  - split_and!; [done..|]. change (0 = m mod 1). by rewrite Z.mod_1_r.
  - pose proof (Z.mod_pos_bound m (10 ^ d) ltac:(lia)). split_and!; [apply pad_digits; lia|..|apply pad_val; lia].
    unfold str_len. rewrite length_pad; rewrite ?Z2Nat.id by lia; lia.
Qed.

Lemma int_frac_digits i f : all_digits i = true → all_digits f = true → int_frac (with_frac "." i f) = (i, f).
Proof.
  intros Hi Hf. unfold int_frac, with_frac. case_bool_decide as He.
  - subst f. by rewrite (split_single _ _ (digits_no_point i Hi)).
  - change ("." +:+ f) with (String "." f). rewrite (split_app _ _ _ (digits_no_point i Hi)).
    by rewrite (split_single _ _ (digits_no_point f Hf)).
Qed.

Lemma fixed_text_parts m d : 0 ≤ m → 0 ≤ d → fixed_text m d = with_frac "." (show_Z (m / 10 ^ d)) (frac_digits m d).
Proof.
  intros Hm Hd. unfold fixed_text, with_frac. pose proof (frac_digits_spec m d Hd) as (_ & Hl & _). unfold frac_digits in *.
  destruct (Z.eqb_spec d 0) as [->|Hne].
  - rewrite bool_decide_true by done. change (10 ^ 0) with 1. by rewrite Z.div_1_r.
  - rewrite bool_decide_false; [done|]. intros He. rewrite He in Hl. unfold str_len in Hl. cbn in Hl. lia.
Qed.

Lemma format_fixed m d locale trim_ mn : 0 ≤ m → 0 ≤ mn ≤ d →
  ∃ f, all_digits f = true ∧ str_len f ≤ d ∧ f +:+ zeros (Z.to_nat d - String.length f) = frac_digits m d ∧
    (trim_ = false → f = frac_digits m d) ∧
    formatNumberString (fixed_text m d) locale trim_ mn =
      with_frac (decimalSeparator locale) (groupInteger (show_Z (m / 10 ^ d)) locale) f.
Proof.
  intros Hm Hd. rewrite fixed_text_parts by lia. destruct (frac_digits_spec m d ltac:(lia)) as (Hall & Hlen & _).
  assert (all_digits (show_Z (m / 10 ^ d)) = true) as Hi by (apply show_Z_digits, Z.div_pos; lia).
  unfold formatNumberString. rewrite (int_frac_digits _ _ Hi Hall).
  set (t := if trim_ then strip_zeros (frac_digits m d) else frac_digits m d).
  assert (∃ k, frac_digits m d = t +:+ zeros k) as [k Hk].
  { unfold t. destruct trim_; [apply strip_zeros_spec|exists O; by rewrite str_app_nil_r]. }
  assert (String.length t + k = Z.to_nat d)%nat as Hsum.
  { apply (f_equal String.length) in Hk. rewrite length_string_app, length_zeros in Hk. unfold str_len in Hlen. lia. }
  exists (t +:+ zeros (Z.to_nat mn - String.length t)). split_and!.
  - rewrite Hk in Hall. unfold all_digits in *. rewrite str_forall_app in Hall |- *. apply andb_true_iff in Hall as [-> _].
    apply zeros_digits.
  - unfold str_len. rewrite length_string_app, length_zeros. lia.
  - rewrite Hk, str_app_assoc, <- zeros_add. f_equal. f_equal. rewrite length_string_app, length_zeros. lia.
  - intros Htr. unfold t in *. rewrite Htr in *. unfold str_len in Hlen.
    replace (Z.to_nat mn - String.length (frac_digits m d))%nat with O by lia. by rewrite str_app_nil_r.
  - done.
Qed.

Section laws.
Context `{!BigJsLaws B}.

Lemma toDisplay_fixed z d opts : 0 ≤ d ≤ 20 → o_compact opts ≠ Some true → default d (o_maxFractionDigits opts) = d →
  toDisplay (inr z) (Some d) opts =
    Ok ((if z <? 0 then "-" else "") +:+
        formatNumberString (fixed_text (Z.abs z) d) (default "en-US" (o_locale opts)) (default true (o_trim opts))
          (default 0 (o_minFractionDigits opts))).
Proof.
  intros Hd Hc Hmax. unfold toDisplay, assertDecimals, toBig. rewrite (proj2 (Z.ltb_ge d 0)) by lia. cbn [rbind].
  assert (default false (o_compact opts) = false) as -> by (destruct (o_compact opts) as [[]|]; done).
  pose proof (dec_div (b_int z) (b_pow10 d) z 0 d ltac:(lia) ltac:(lia) (dec_int z) (dec_pow10 d ltac:(lia))) as Hv.
  rewrite (at_scale_up z (0 + d) 20) in Hv by lia. rewrite Z.add_0_l in Hv.
  pose proof (dec_abs _ _ _ Hv) as Ha. rewrite Z.abs_mul, (Z.abs_eq (10 ^ (20 - d))) in Ha by lia.
  assert (0 < 10 ^ (20 - d)) as Hp by (apply Z.pow_pos_nonneg; lia).
  rewrite (dec_lt0 _ _ 20 ltac:(lia) Hv), Hmax.
  rewrite (dec_toFixed _ _ 20 d ltac:(lia) ltac:(lia) (Z.mul_nonneg_nonneg _ _ (Z.abs_nonneg z) (Z.lt_le_incl _ _ Hp)) Ha), at_scale_back by lia.
  do 2 f_equal. assert ((z * 10 ^ (20 - d) <? 0) = (z <? 0)) as ->; [|done].
  destruct (Z.ltb_spec z 0); [apply Z.ltb_lt|apply Z.ltb_ge]; nia.
Qed.
End laws.

(** *** What is read *)

Lemma is_ws_digit s : all_digits s = true → str_forall (λ c, negb (is_ws c)) s = true.
Proof. intros Hs. apply (str_forall_impl is_digit); [|done]. intros c Hc. by rewrite (is_digit_not_ws c Hc). Qed.

Lemma toRaw_text (neg : bool) i f d :
  0 ≤ d → i ≠ "" → all_digits i = true → all_digits f = true → str_len f ≤ d →
  toRaw ((if neg then "-" else "") +:+ with_frac "." i f) (Some d) =
    let n := digits_val 0 (i +:+ f +:+ zeros (Z.to_nat d - String.length f)) in
    Ok ((if neg && (0 <? n) then "-" else "") +:+ show_Z n).
Proof.
  intros Hd Hne Hi Hf Hl. set (u := with_frac "." i f).
  assert (Hw : str_forall (λ c, negb (is_ws c)) ((if neg then "-" else "") +:+ u) = true).
  { rewrite str_forall_app. apply andb_true_iff. split; [by destruct neg|]. unfold u, with_frac.
    case_bool_decide; [by apply is_ws_digit|]. rewrite !str_forall_app, (is_ws_digit i Hi), (is_ws_digit f Hf). done. }
  destruct i as [|c i']; [done|]. destruct (proj1 (andb_true_iff _ _) Hi) as [Hc _].
  assert (Hu : ∃ u', u = String c u').
  { unfold u, with_frac. case_bool_decide; [by eexists|]. by exists (i' +:+ "." +:+ f). }
  assert (Hm : strip_minus ((if neg then "-" else "") +:+ u) = (neg, u)).
  { destruct Hu as [u' ->]. destruct neg; [done|]. by destruct c as [[] [] [] [] [] [] [] []]. }
  unfold toRaw, assertDecimals. rewrite (proj2 (Z.ltb_ge d 0)) by lia. cbn [rbind].
  assert (trim ((if neg then "-" else "") +:+ u) = (if neg then "-" else "") +:+ u) as ->.
  { unfold trim. by rewrite (trimStart_clean _ Hw), (trimEnd_clean _ Hw). }
  rewrite bool_decide_false by (destruct Hu as [u' ->]; by destruct neg).
  assert (AMOUNT_RE ((if neg then "-" else "") +:+ u) = true) as ->.
  { unfold AMOUNT_RE. rewrite Hm. unfold u, with_frac. case_bool_decide.
    - by rewrite (split_single _ _ (digits_no_point _ Hi)).
    - change ("." +:+ f) with (String "." f). rewrite (split_app _ _ _ (digits_no_point _ Hi)).
      rewrite (split_single _ _ (digits_no_point f Hf)). apply andb_true_iff. by split. }
  rewrite bool_decide_false.
  2: { intros Hin. destruct Hu as [u' ->].
       repeat (apply elem_of_cons in Hin as [Hin|Hin]; [destruct neg; injection Hin as ?; subst; done|]). by apply elem_of_nil in Hin. }
  cbn [negb orb]. rewrite Hm. unfold u. rewrite (int_frac_digits _ _ Hi Hf). rewrite (proj2 (Z.ltb_ge _ _)) by lia.
  rewrite (bool_decide_false (String c i' = "")) by done.
  rewrite (bool_decide_false (strip_leading _ = "")) by (by apply strip_leading_ne).
  by rewrite strip_leading_val.
Qed.

Lemma sign_text z : (if (z <? 0) && (0 <? Z.abs z) then "-" else "") +:+ show_Z (Z.abs z) = show_Z z.
Proof.
  destruct (Z.ltb_spec z 0) as [Hz|Hz]; cbn [andb].
  - rewrite (proj2 (Z.ltb_lt 0 _)) by lia. by destruct z.
  - rewrite Z.abs_eq by lia. done.
Qed.

Lemma digits_val_lt s : all_digits s = true → digits_val 0 s < 10 ^ str_len s.
Proof.
  induction s as [|c s IH]; [done|]. intros [Hc Hs]%andb_true_iff. cbn [digits_val]. rewrite digits_val_acc.
  specialize (IH Hs). unfold str_len in *. cbn [String.length]. rewrite Nat2Z.inj_succ, Z.pow_succ_r by lia.
  assert (digit_val c ≤ 9) by (unfold is_digit, in_range in Hc; apply andb_true_iff in Hc as [_ Hc]; unfold digit_val;
    apply Z.leb_le in Hc; change (code "9") with 57 in Hc; change (code "0") with 48; lia).
  nia.
Qed.

(** The digits of a number, and what they denote when read back with an amount's fraction. *)
Lemma value_of_parts m d f :
  0 ≤ m → 0 ≤ d → f +:+ zeros (Z.to_nat d - String.length f) = frac_digits m d →
  digits_val 0 (show_Z (m / 10 ^ d) +:+ f +:+ zeros (Z.to_nat d - String.length f)) = m.
Proof.
  intros Hm Hd ->. destruct (frac_digits_spec m d Hd) as (_ & Hl & Hv).
  rewrite digits_val_app, digits_val_acc, Hl, Hv, show_Z_val by (apply Z.div_pos; lia).
  pose proof (Z.div_mod m (10 ^ d) ltac:(lia)). lia.
Qed.

Lemma strip_zeros_zeros k : strip_zeros (zeros k) = "".
Proof. induction k as [|k IH]; [done|]. cbn [zeros strip_zeros]. by rewrite IH. Qed.

Section theorems.
Context `{!BigJsLaws B}.

(** C8: An amount survives being displayed and read back.  With up to 20 decimals, in a locale that writes a
    decimal point, an amount below a thousand units is displayed without loss, trimmed or not, and the text is
    accepted and read as the same amount, negative amounts and zero included. *)
Theorem amount_roundtrip z d opts :
  0 ≤ d ≤ 20 → Z.abs z < 1000 * 10 ^ d → o_compact opts ≠ Some true → default d (o_maxFractionDigits opts) = d →
  0 ≤ default 0 (o_minFractionDigits opts) ≤ d → comma_locale (default "en-US" (o_locale opts)) = false →
  ∃ t, toDisplay (inr z) (Some d) opts = Ok t ∧ toRaw t (Some d) = Ok (show_Z z).
Proof.
  intros Hd Hz Hc Hmax Hmin Hloc. rewrite toDisplay_fixed by done. eexists. split; [done|].
  destruct (format_fixed (Z.abs z) d (default "en-US" (o_locale opts)) (default true (o_trim opts)) (default 0 (o_minFractionDigits opts)))
    as (f & Hf & Hl & Hpad & _ & ->); [lia..|].
  assert (0 ≤ Z.abs z / 10 ^ d < 1000) as Hq by (split; [apply Z.div_pos; lia|apply Z.div_lt_upper_bound; lia]).
  pose proof (show_Z_digits (Z.abs z / 10 ^ d) ltac:(lia)) as Hi.
  unfold groupInteger, decimalSeparator. rewrite Hloc, (strip_minus_digits _ Hi), group_short by exact (show_Z_length 3 _ ltac:(lia) Hq).
  change ("" +:+ show_Z (Z.abs z / 10 ^ d)) with (show_Z (Z.abs z / 10 ^ d)).
  rewrite toRaw_text; [|lia|apply show_Z_ne_empty|done..]. cbv zeta. rewrite (value_of_parts (Z.abs z) d f (Z.abs_nonneg z) (proj1 Hd) Hpad).
  by rewrite sign_text.
Qed.

Lemma group_thousands sep a b :
  (1 ≤ String.length a ≤ 3)%nat → String.length b = 3%nat → group_digits sep (a +:+ b) = a +:+ sep +:+ b.
Proof.
  intros Ha Hb. destruct b as [|b1 [|b2 [|b3 [|]]]]; try done.
  destruct a as [|a1 [|a2 [|a3 [|]]]]; cbn in Ha; try lia; done.
Qed.

Definition plain (locale : string) : ToDisplayOptions :=
  {| o_trim := None; o_compact := None; o_locale := Some locale; o_minFractionDigits := None; o_maxFractionDigits := None |}.

Lemma whole_units q d locale : 0 ≤ q → 0 ≤ d ≤ 20 →
  toDisplay (inr (q * 10 ^ d)) (Some d) (plain locale) = Ok (groupInteger (show_Z q) locale).
Proof.
  intros Hq Hd. rewrite toDisplay_fixed by done. cbn [o_locale o_trim o_minFractionDigits plain default from_option id].
  assert (0 < 10 ^ d) as Hp by (apply Z.pow_pos_nonneg; lia).
  rewrite (proj2 (Z.ltb_ge _ 0)), Z.abs_eq by nia. rewrite fixed_text_parts by nia. rewrite Z.div_mul by lia.
  unfold formatNumberString. destruct (frac_digits_spec (q * 10 ^ d) d ltac:(lia)) as (Hall & _).
  rewrite (int_frac_digits _ _ (show_Z_digits q Hq) Hall).
  assert (strip_zeros (frac_digits (q * 10 ^ d) d) = "") as ->; [|by rewrite bool_decide_true].
  unfold frac_digits. destruct (d =? 0); [done|]. rewrite Z.mod_mul by lia. unfold pad.
  change (show_Z 0) with (zeros 1). rewrite <- zeros_add. apply strip_zeros_zeros.
Qed.

(** From a thousand units on, the two functions disagree.  In German, French and Spanish the grouping
    separator is the point that [toRaw] reads as the decimal point: the display of 1.000 to 999.999 whole units is
    read back as a thousandth of the amount, without an error.  In the other locales the display has a comma and
    is refused. *)
Theorem grouped_amount_misread q d locale :
  1000 ≤ q < 1000000 → 3 ≤ d ≤ 20 →
  ∃ t, toDisplay (inr (q * 10 ^ d)) (Some d) (plain locale) = Ok t ∧
    toRaw t (Some d) = if comma_locale locale then Ok (show_Z (q * 10 ^ (d - 3))) else Throw InvalidAmount.
Proof.
  intros Hq Hd. exists (groupInteger (show_Z q) locale). split; [apply whole_units; lia|].
  pose proof (show_Z_digits q ltac:(lia)) as Hall. assert (0 ≤ q < 1000000) as Hq6 by lia. pose proof (show_Z_length 6 q ltac:(lia) Hq6) as Hlen.
  pose proof (digits_val_lt _ Hall) as Hlow. rewrite show_Z_val in Hlow by lia.
  assert (4 ≤ String.length (show_Z q))%nat as Hlen4.
  { destruct (Nat.le_gt_cases 4 (String.length (show_Z q))); [done|]. exfalso.
    assert (10 ^ str_len (show_Z q) ≤ 10 ^ 3) by (apply Z.pow_le_mono_r; unfold str_len; lia). lia. }
  set (k := (String.length (show_Z q) - 3)%nat).
  set (a := str_take k (show_Z q)). set (b := str_drop k (show_Z q)).
  assert (show_Z q = a +:+ b) as Hab by (symmetry; apply str_take_drop).
  assert (String.length a = k) as Hla by (unfold a; rewrite length_str_take; lia).
  assert (String.length b = 3%nat) as Hlb.
  { apply (f_equal String.length) in Hab. rewrite length_string_app in Hab. lia. }
  rewrite Hab in Hall. unfold groupInteger. rewrite Hab, (strip_minus_digits _ Hall), group_thousands by lia.
  change ("" +:+ ?s) with s. unfold all_digits in Hall. rewrite str_forall_app in Hall. apply andb_true_iff in Hall as [Ha Hb].
  destruct (comma_locale locale).
  - assert (a +:+ "." +:+ b = with_frac "." a b) as ->.
    { unfold with_frac. rewrite bool_decide_false; [done|]. intros Hb0. by rewrite Hb0 in Hlb. }
    assert (a ≠ "") as Hane by (intros Ha0; rewrite Ha0 in Hla; cbn in Hla; lia).
    etransitivity; [exact (toRaw_text false a b d ltac:(lia) Hane Ha Hb ltac:(unfold str_len; lia))|].
    cbv zeta. cbn [andb]. rewrite <- str_app_assoc, <- Hab, digits_val_app, show_Z_val, digits_val_zeros_r, Hlb by lia.
    replace (Z.of_nat (Z.to_nat d - 3)) with (d - 3) by lia. done.
  - unfold toRaw, assertDecimals. rewrite (proj2 (Z.ltb_ge d 0)) by lia. cbn [rbind].
    set (u := a +:+ "," +:+ b).
    assert (str_forall (λ c, negb (is_ws c)) u = true) as Hw.
    { unfold u. rewrite !str_forall_app, (is_ws_digit a Ha), (is_ws_digit b Hb). done. }
    assert (trim u = u) as -> by (unfold trim; by rewrite (trimStart_clean _ Hw), (trimEnd_clean _ Hw)).
    assert (str_forall (λ c, negb (bool_decide (c = "."%char))) u = true) as Hp.
    { unfold u. rewrite !str_forall_app, (digits_no_point a Ha), (digits_no_point b Hb). done. }
    assert (all_digits u = false) as Hnot.
    { unfold u, all_digits. rewrite !str_forall_app. by rewrite andb_false_r. }
    destruct a as [|c a']; [cbn in Hla; lia|]. destruct (proj1 (andb_true_iff _ _) Ha) as [Hc _].
    rewrite bool_decide_false by done.
    assert (strip_minus u = (false, u)) as Hm by (by unfold u; destruct c as [[] [] [] [] [] [] [] []]).
    unfold AMOUNT_RE. rewrite Hm, (split_single _ _ Hp), Hnot. done.
Qed.

(** From 21 decimals on the division keeps too few digits: the smallest amount is displayed as zero. *)
Theorem small_amount_lost d :
  21 ≤ d ≤ 1000000 → toDisplay (inr 1) (Some d) (plain "en-US") = Ok "0".
Proof.
  intros Hd. unfold toDisplay, assertDecimals, toBig. rewrite (proj2 (Z.ltb_ge d 0)) by lia. cbn [rbind o_compact plain].
  pose proof (dec_div (b_int 1) (b_pow10 d) 1 0 d ltac:(lia) ltac:(lia) (dec_int 1) (dec_pow10 d ltac:(lia))) as Hv.
  assert (at_scale 1 (0 + d) 20 = 0) as Hz.
  { unfold at_scale. rewrite (proj2 (Z.leb_gt _ _)) by lia. unfold half_up. rewrite Z.div_small; [lia|].
    assert (10 ^ 1 ≤ 10 ^ (0 + d - 20)) by (apply Z.pow_le_mono_r; lia). lia. }
  rewrite Hz in Hv. pose proof (dec_abs _ _ _ Hv) as Ha. cbn [Z.abs] in Ha.
  rewrite (dec_lt0 _ _ 20 ltac:(lia) Hv). cbn [plain o_compact o_locale o_trim o_minFractionDigits o_maxFractionDigits default from_option id].
  rewrite (dec_toFixed _ 0 20 d ltac:(lia) ltac:(lia) ltac:(lia) Ha).
  assert (at_scale 0 20 d = 0) as ->.
  { unfold at_scale. destruct (_ <=? _); [lia|]. unfold half_up. lia. }
  rewrite fixed_text_parts by lia. destruct (frac_digits_spec 0 d ltac:(lia)) as (Hall & _).
  rewrite Z.div_0_l by lia. unfold formatNumberString. rewrite (int_frac_digits _ _ (show_Z_digits 0 ltac:(lia)) Hall).
  assert (strip_zeros (frac_digits 0 d) = "") as ->; [|done].
  unfold frac_digits. destruct (d =? 0); [done|]. rewrite Z.mod_0_l by lia. unfold pad.
  change (show_Z 0) with (zeros 1). rewrite <- zeros_add. apply strip_zeros_zeros.
Qed.

(** *** AmountInput.tsx *)

(** The regular expression of handleChange: digits, and at most one point followed by digits. *)
Definition INPUT_RE (s : string) : bool :=
  match split "." s with
  | [i] => all_digits i
  | [i; f] => all_digits i && all_digits f
  | _ => false
  end.

(** [None] when the change is ignored.
    Models [handleChange] (frontend/components/AmountInput.tsx:43-61). *)
Definition handleChange (next : string) (d : Z) : option (result amount_error string) :=
  if negb (bool_decide (next = "")) && negb (INPUT_RE next) then None
  else if d <? str_len (snd (int_frac next)) then None
  else Some (toRaw (if bool_decide (next = "") then "0" else next) (Some d)).

(** Models [displayValue] (frontend/components/AmountInput.tsx:69-76). *)
Definition displayValue (v : string) (d : Z) (locale : string) : string :=
  if bool_decide (v = "" ∨ v = "0") then ""
  else match toDisplay (inl v) (Some d) {| o_trim := Some false; o_compact := None; o_locale := Some locale;
                                           o_minFractionDigits := None; o_maxFractionDigits := None |} with
       | Ok t => t
       | Throw _ => ""
       end.

Lemma toBig_show z : 0 ≤ z → toBig (inl (show_Z z)) = Ok (b_int z).
Proof.
  intros Hz. unfold toBig. pose proof (show_Z_digits z Hz) as Hd. pose proof (is_ws_digit _ Hd) as Hw.
  unfold trim. rewrite (trimStart_clean _ Hw), (trimEnd_clean _ Hw), (strip_minus_digits _ Hd).
  unfold some_digits. rewrite bool_decide_false by (apply show_Z_ne_empty). by rewrite Hd, show_Z_val.
Qed.

Lemma toDisplay_show z dec opts : 0 ≤ z → toDisplay (inl (show_Z z)) dec opts = toDisplay (inr z) dec opts.
Proof. intros Hz. unfold toDisplay. by rewrite toBig_show. Qed.

Lemma frac_of_whole k d : 1 ≤ d → frac_digits (k * 10 ^ d) d = zeros (Z.to_nat d).
Proof.
  intros Hd. unfold frac_digits. rewrite (proj2 (Z.eqb_neq d 0)) by lia. rewrite Z.mod_mul by lia. unfold pad.
  change (show_Z 0) with (zeros 1). rewrite <- zeros_add. f_equal. cbn. lia.
Qed.

Lemma type_digits k d : 0 ≤ k → 0 ≤ d → handleChange (show_Z k) d = Some (Ok (show_Z (k * 10 ^ d))).
Proof.
  intros Hk Hd. pose proof (show_Z_digits k Hk) as Hall. pose proof (show_Z_ne_empty k) as Hne. unfold handleChange.
  assert (INPUT_RE (show_Z k) = true) as -> by (unfold INPUT_RE; by rewrite (split_single _ _ (digits_no_point _ Hall))).
  rewrite andb_false_r. unfold int_frac. rewrite (split_single _ _ (digits_no_point _ Hall)). cbn [snd].
  change (str_len "") with 0. rewrite (proj2 (Z.ltb_ge d 0)) by lia. rewrite bool_decide_false by done. f_equal.
  etransitivity; [exact (toRaw_text false (show_Z k) "" d Hd Hne Hall eq_refl Hd)|].
  cbv zeta. cbn [andb]. rewrite digits_val_app, show_Z_val by done. change ("" +:+ zeros ?n) with (zeros n).
  rewrite digits_val_zeros_r. cbn [String.length]. by rewrite Nat.sub_0_r, Z2Nat.id.
Qed.

(** A second digit cannot be typed.  The input shows the stored amount with all its decimals, so after one
    digit has been typed the text has as many decimals as the asset allows: whatever character is appended to it,
    the change is ignored. *)
Theorem second_digit_ignored k d locale :
  1 ≤ k ≤ 9 → 1 ≤ d ≤ 20 → comma_locale locale = false →
  ∃ v, handleChange (show_Z k) d = Some (Ok v) ∧
    displayValue v d locale = show_Z k +:+ "." +:+ zeros (Z.to_nat d) ∧
    ∀ c, handleChange (displayValue v d locale +:+ String c "") d = None.
Proof.
  intros Hk Hd Hloc. exists (show_Z (k * 10 ^ d)). split; [apply type_digits; lia|].
  assert (0 < 10 ^ d) as Hp by (apply Z.pow_pos_nonneg; lia). pose proof (show_Z_digits k ltac:(lia)) as Hall.
  assert (displayValue (show_Z (k * 10 ^ d)) d locale = show_Z k +:+ "." +:+ zeros (Z.to_nat d)) as Hdisp.
  { unfold displayValue. rewrite bool_decide_false.
    2: { intros [He|He]; [by apply show_Z_ne_empty in He|]. apply (f_equal (digits_val 0)) in He.
         rewrite show_Z_val in He by nia. change (digits_val 0 "0") with 0 in He. nia. }
    rewrite toDisplay_show, toDisplay_fixed by (done || nia). cbn [o_locale o_trim o_minFractionDigits default from_option id].
    rewrite (proj2 (Z.ltb_ge _ 0)), Z.abs_eq by nia. change ("" +:+ ?x) with x.
    destruct (format_fixed (k * 10 ^ d) d locale false 0) as (f & _ & _ & _ & Hf & ->); [nia|lia|].
    rewrite (Hf eq_refl), frac_of_whole, Z.div_mul by lia. assert (0 ≤ k < 10) as Hk1 by lia.
    unfold groupInteger, decimalSeparator. rewrite Hloc, (strip_minus_digits _ Hall), group_short.
    2: { pose proof (show_Z_length 1 k ltac:(lia) Hk1). lia. }
    unfold with_frac. rewrite bool_decide_false; [done|]. by destruct (Z.to_nat d) eqn:Hn; [lia|]. }
  split; [done|]. intros c. rewrite Hdisp. unfold handleChange.
  rewrite bool_decide_false by (by destruct (show_Z k)). cbn [negb andb].
  replace ((show_Z k +:+ "." +:+ zeros (Z.to_nat d)) +:+ String c "") with (show_Z k +:+ String "." (zeros (Z.to_nat d) +:+ String c ""))
    by (by rewrite !str_app_assoc).
  unfold INPUT_RE, int_frac. rewrite (split_app _ _ _ (digits_no_point _ Hall)).
  destruct (decide (c = "."%char)) as [->|Hc].
  - by rewrite (split_app _ _ _ (digits_no_point _ (zeros_digits _))).
  - rewrite split_single.
    2: { rewrite str_forall_app, (digits_no_point _ (zeros_digits _)). cbn. by rewrite bool_decide_false. }
    destruct (all_digits _ && _); cbn [negb snd]; [|done].
    rewrite (proj2 (Z.ltb_lt _ _)); [done|]. unfold str_len. rewrite length_string_app, length_zeros. cbn. lia.
Qed.
End theorems.
End amount.

(** ** An executable decimal *)

Module AmountSample.
(** m / 10^s *)
Record dec := Dec { mant : Z; scale : nat }.
Definition unit_of (b : dec) : Z := 10 ^ Z.of_nat (scale b).

#[export] Instance dec_big : BigJs dec := {
  b_int z := Dec z 0;
  b_pow10 n := Dec (10 ^ n) 0;
  b_div a b := Dec (half_up (mant a * unit_of b * 10 ^ 20) (mant b * unit_of a)) 20;
  b_abs a := Dec (Z.abs (mant a)) (scale a);
  b_lt0 a := mant a <? 0;
  b_gte a b := mant b * unit_of a <=? mant a * unit_of b;
  b_toFixed a dp := fixed_text (half_up (mant a * 10 ^ dp) (unit_of a)) dp;
  b_dec b n k := mant b * 10 ^ k = n * unit_of b;
}.

Lemma unit_pos b : 0 < unit_of b.
Proof. unfold unit_of. apply Z.pow_pos_nonneg; lia. Qed.

Lemma half_up_scale a b c : 0 < b → 0 < c → half_up (a * c) (b * c) = half_up a b.
Proof.
  intros Hb Hc. unfold half_up. rewrite Z.sgn_mul, (Z.sgn_pos c), Z.mul_1_r, Z.abs_mul, (Z.abs_eq c) by lia.
  replace (2 * (Z.abs a * c) + b * c) with ((2 * Z.abs a + b) * c) by ring.
  replace (2 * (b * c)) with (2 * b * c) by ring. by rewrite Z.div_mul_cancel_r by lia.
Qed.

Lemma at_scale_half n k dp : 0 ≤ k → 0 ≤ dp → at_scale n k dp = half_up (n * 10 ^ dp) (10 ^ k).
Proof.
  intros Hk Hdp. unfold at_scale. destruct (Z.leb_spec k dp).
  - replace (n * 10 ^ dp) with (n * 10 ^ (dp - k) * 10 ^ k); [symmetry; apply half_up_exact, Z.pow_pos_nonneg; lia|].
    rewrite <- Z.mul_assoc, <- Z.pow_add_r by lia. do 2 f_equal. lia.
  - replace (10 ^ k) with (10 ^ (k - dp) * 10 ^ dp); [symmetry; apply half_up_scale; apply Z.pow_pos_nonneg; lia|].
    rewrite <- Z.pow_add_r by lia. f_equal. lia.
Qed.

(** Equal fractions round to the same number. *)
Lemma half_up_cross a b c d : 0 < b → 0 < d → a * d = c * b → half_up a b = half_up c d.
Proof. intros Hb Hd He. rewrite <- (half_up_scale a b d), He, (Z.mul_comm b d) by done. by apply half_up_scale. Qed.

#[export] Instance dec_laws : BigJsLaws dec.
Proof.
  split; cbn [b_int b_pow10 b_div b_abs b_lt0 b_gte b_toFixed b_dec dec_big mant scale].
  - intros z. unfold unit_of. cbn. lia.
  - intros n Hn. unfold unit_of. cbn [scale mant]. change (10 ^ Z.of_nat 0) with 1. change (10 ^ 0) with 1. lia.
  - intros a b n k j Hk Hj Ha Hb. pose proof (unit_pos a). pose proof (unit_pos b).
    assert (0 < 10 ^ k) by (apply Z.pow_pos_nonneg; lia). assert (0 < 10 ^ j) by (apply Z.pow_pos_nonneg; lia).
    rewrite at_scale_half by lia. change (10 ^ 0) with 1 in Hb. rewrite Z.mul_1_r in Hb. rewrite Hb.
    assert (unit_of (Dec (half_up (mant a * unit_of b * 10 ^ 20) (10 ^ j * unit_of b * unit_of a)) 20) = 10 ^ 20) as -> by done.
    f_equal. rewrite Z.pow_add_r by lia. generalize dependent (10 ^ 20). intros T. 
    apply half_up_cross; [nia..|].
    transitivity (mant a * 10 ^ k * T * unit_of b * 10 ^ j); [ring|]. rewrite Ha. ring.
  - intros a n k Ha. pose proof (unit_pos a). change (unit_of (Dec (Z.abs (mant a)) (scale a))) with (unit_of a).
    rewrite <- (Z.abs_eq (10 ^ k)) by (apply Z.pow_nonneg; lia). rewrite <- Z.abs_mul, Ha, Z.abs_mul. f_equal. lia.
  - intros a n k Hk Ha. pose proof (unit_pos a). assert (0 < 10 ^ k) by (apply Z.pow_pos_nonneg; lia).
    destruct (Z.ltb_spec (mant a) 0), (Z.ltb_spec n 0); nia.
  - intros a b n k m Hk Ha Hb. pose proof (unit_pos a). pose proof (unit_pos b). assert (0 < 10 ^ k) by (apply Z.pow_pos_nonneg; lia).
    change (10 ^ 0) with 1 in Hb. rewrite Z.mul_1_r in Hb. rewrite Hb.
    destruct (Z.leb_spec (m * unit_of b * unit_of a) (mant a * unit_of b)), (Z.leb_spec (m * 10 ^ k) n); try done; exfalso.
    + assert (m * unit_of a ≤ mant a) by nia. nia.
    + assert (mant a < m * unit_of a) by nia. nia.
  - intros a n k dp Hk Hdp Hn Ha. pose proof (unit_pos a). assert (0 < 10 ^ k) by (apply Z.pow_pos_nonneg; lia).
    rewrite at_scale_half by lia. f_equal. apply half_up_cross; [done..|].
    transitivity (mant a * 10 ^ k * 10 ^ dp); [ring|]. rewrite Ha. ring.
Qed.
End AmountSample.

Module AmountWitnesses.
Import AmountSample.

Definition trimmed : ToDisplayOptions :=
  {| o_trim := None; o_compact := None; o_locale := None; o_minFractionDigits := Some 2; o_maxFractionDigits := None |}.

Example display_negative : toDisplay (B:=dec) (inr (-12340000)) (Some 7) trimmed = Ok "-1.234".
Proof. vm_compute. reflexivity. Qed.
Example display_compact : toDisplay (B:=dec) (inr 12345678900) (Some 4)
  {| o_trim := None; o_compact := Some true; o_locale := None; o_minFractionDigits := None; o_maxFractionDigits := None |} = Ok "1.23M".
Proof. vm_compute. reflexivity. Qed.

Lemma amount_roundtrip_witness :
  ∃ t, toDisplay (B:=dec) (inr (-12340000)) (Some 7) trimmed = Ok t ∧ toRaw t (Some 7) = Ok "-12340000".
Proof.
  apply (amount_roundtrip (B:=dec) (-12340000) 7 trimmed); [lia|vm_compute; reflexivity|discriminate|reflexivity|cbn; lia|reflexivity].
Defined.

Lemma grouped_amount_misread_witness :
  ∃ t, toDisplay (B:=dec) (inr 12340000000) (Some 7) (plain "de-DE") = Ok t ∧ toRaw t (Some 7) = Ok "12340000".
Proof. apply (grouped_amount_misread (B:=dec) 1234 7 "de-DE"); lia. Defined.

Lemma second_digit_ignored_witness :
  ∃ v, handleChange "1" 7 = Some (Ok v) ∧ displayValue (B:=dec) v 7 "en-US" = "1.0000000" ∧
    ∀ c, handleChange (displayValue (B:=dec) v 7 "en-US" +:+ String c "") 7 = None.
Proof. apply (second_digit_ignored (B:=dec) 1 7 "en-US"); [lia..|reflexivity]. Defined.
End AmountWitnesses.
