(* ===== verification/ClaimJobs.v ===== *)
(** * Scheduled jobs over claims

    claims/claim-deadline.processor.service.ts (finalizes claims whose voting
    window is over), indexer/reconciliation.service.ts (recounts votes and
    appeals) and maintenance/vote-reconciliation.job.ts (compares tallies with the
    contract, through the batch limit of rpc/soroban.service.ts), under
    backend/src.  They share the claims table; every statement can fail.  The
    contract's answers and the order of rows with equal sort keys are parameters. *)

From stdpp Require Import base list strings sorting.
From Stdlib Require Import ZArith Lia.
From S2P Require Import Prelude JsText Redis.

Open Scope string_scope.
Open Scope Z_scope.

(** ** The tables *)

Inductive ClaimStatus := PENDING | APPROVED | PAID | REJECTED | UNDER_APPEAL | APPEAL_APPROVED | APPEAL_REJECTED.
#[export] Instance ClaimStatus_eq : EqDecision ClaimStatus.
Proof. solve_decision. Defined.
Inductive VoteType := APPROVE | REJECT.
#[export] Instance VoteType_eq : EqDecision VoteType.
Proof. solve_decision. Defined.

(** The columns the jobs use. *)
Record ClaimRow := {
  c_id : Z; creator : string; c_status : ClaimStatus; isFinalized : bool; approveVotes : Z; rejectVotes : Z;
  createdAtLedger : Z; updatedAtLedger : Z; txHash : option string; deleted : bool;
  appealsCount : Z; appealTxHash : option string; appealOpenDeadlineLedger : option Z }.

Record VoteRow := { v_claim : Z; v_vote : VoteType }.

(** [isRunning]: the flag of the deadline scan; [sent]: the finalizations submitted to the contract. *)
Record jstate := {
  claims : list ClaimRow; votes : list VoteRow; lastProcessedLedger : option Z;
  isRunning : bool; sent : list Z }.

Definition set_claims (l : list ClaimRow) (s : jstate) : jstate :=
  {| claims := l; votes := votes s; lastProcessedLedger := lastProcessedLedger s;
     isRunning := isRunning s; sent := sent s |}.
Definition set_running (b : bool) (s : jstate) : jstate :=
  {| claims := claims s; votes := votes s; lastProcessedLedger := lastProcessedLedger s;
     isRunning := b; sent := sent s |}.
Definition set_sent (l : list Z) (s : jstate) : jstate :=
  {| claims := claims s; votes := votes s; lastProcessedLedger := lastProcessedLedger s;
     isRunning := isRunning s; sent := l |}.
Abbreviation MJ A := (M (rworld jstate) string A).

Definition db_message : string := "Can't reach database server".

(** A statement. *)
Definition stmt {A} (f : jstate → A * jstate) : MJ A := λ w,
  match cmd f w with (Ok a, w') => (Ok a, w') | (Throw _, w') => (Throw db_message, w') end.
Definition read {A} (f : jstate → A) : MJ A := stmt (λ s, (f s, s)).

(** What happens in the process. *)
Definition local_ (f : jstate → jstate) : MJ () := λ w, (Ok tt, RWorld (f (rstate w)) (faults w)).

Definition find_claim (i : Z) (s : jstate) : option ClaimRow := List.find (λ c, c_id c =? i) (claims s).

(** [update] by id; the row exists. *)
Definition update_claim (i : Z) (f : ClaimRow → ClaimRow) (l : list ClaimRow) : list ClaimRow :=
  (λ c, if c_id c =? i then f c else c) <$> l.

(** ** claim-deadline.processor.service.ts *)

(** Models [CLAIM_VOTING_WINDOW_LEDGERS] (backend/src/claims/claim-deadline.constants.ts:8-8). *)
Definition CLAIM_VOTING_WINDOW_LEDGERS := 120960.
(** Models [CLAIM_DEADLINE_BATCH_SIZE] (backend/src/claims/claim-deadline.constants.ts:11-11). *)
Definition CLAIM_DEADLINE_BATCH_SIZE := 50%nat.
(** Models [APPEAL_OPEN_WINDOW_LEDGERS] (backend/src/claims/appeal-window-reminder.constants.ts:9-9). *)
Definition APPEAL_OPEN_WINDOW_LEDGERS := 51840.

(** Models [mapOnChainStatus] (backend/src/claims/claim-deadline.processor.service.ts:19-24). *)
Definition mapOnChainStatus (status : string) : option ClaimStatus :=
  let normalized := toLowerCase status in
  if bool_decide (normalized = "approved") then Some APPROVED
  else if bool_decide (normalized = "rejected") then Some REJECTED else None.

Record FinalizeClaimResult := { f_txHash : string; f_ledger : Z; f_onChainStatus : string }.
Inductive outcome := Finalized | Skipped | Failed.

(** The row after a finalization. *)
Definition finalized_row (r : FinalizeClaimResult) (c : ClaimRow) : ClaimRow :=
  let dbStatus := mapOnChainStatus (f_onChainStatus r) in
  {| c_id := c_id c; creator := creator c; c_status := default (c_status c) dbStatus; isFinalized := true;
     approveVotes := approveVotes c; rejectVotes := rejectVotes c; createdAtLedger := createdAtLedger c;
     updatedAtLedger := f_ledger r; txHash := Some (f_txHash r); deleted := deleted c;
     appealsCount := appealsCount c; appealTxHash := appealTxHash c;
     appealOpenDeadlineLedger := if bool_decide (dbStatus = Some REJECTED) then Some (f_ledger r + APPEAL_OPEN_WINDOW_LEDGERS)
                                 else appealOpenDeadlineLedger c |}.

Definition mark_finalized (c : ClaimRow) : ClaimRow :=
  {| c_id := c_id c; creator := creator c; c_status := c_status c; isFinalized := true;
     approveVotes := approveVotes c; rejectVotes := rejectVotes c; createdAtLedger := createdAtLedger c;
     updatedAtLedger := updatedAtLedger c; txHash := txHash c; deleted := deleted c;
     appealsCount := appealsCount c; appealTxHash := appealTxHash c;
     appealOpenDeadlineLedger := appealOpenDeadlineLedger c |}.

Definition already_terminal (msg : string) : bool :=
  includes msg "ClaimAlreadyTerminal" || includes msg "CLAIM_ALREADY_TERMINAL" || includes (toLowerCase msg) "already terminal".

(** A claim whose voting window is over. *)
Definition expired (currentLedger : Z) (c : ClaimRow) : bool :=
  bool_decide (c_status c = PENDING) && negb (isFinalized c) && negb (deleted c) &&
  (createdAtLedger c <=? currentLedger - CLAIM_VOTING_WINDOW_LEDGERS).

Section deadline.
(** [finalizeClaim] of the RPC service for a claim. *)
Variable rpc : Z → result string FinalizeClaimResult.
(** [orderBy: { createdAtLedger: 'asc' }] *)
Variable by_ledger : list ClaimRow → list ClaimRow.

(** Models [processClaim] (backend/src/claims/claim-deadline.processor.service.ts:79-130). *)
Definition processClaim (claimId : Z) : MJ outcome :=
  let* existing := read (find_claim claimId) in
  match existing with
  | None => ret Skipped
  | Some c =>
      if isFinalized c then ret Skipped
      else
        try_catch
          (do* local_ (λ s, set_sent (sent s ++ [claimId])%list s) in
           match rpc claimId with
           | Throw msg => throw msg
           | Ok r =>
               do* stmt (λ s, (tt, set_claims (update_claim claimId (finalized_row r) (claims s)) s)) in
               ret Finalized
           end)
          (λ msg,
             if already_terminal msg then
               do* stmt (λ s, (tt, set_claims (update_claim claimId (λ c, if isFinalized c then c else mark_finalized c) (claims s)) s)) in
               ret Skipped
             else ret Failed)
  end.

Definition scan_body : MJ () :=
  let* cursor := read lastProcessedLedger in
  match cursor with
  | None => ret tt
  | Some currentLedger =>
      let* l := read (λ s, take CLAIM_DEADLINE_BATCH_SIZE (by_ledger (filter (λ c, expired currentLedger c = true) (claims s)))) in
      for_each l (λ c, let* _ := processClaim (c_id c) in ret tt)
  end.

(** The flag is cleared whatever happens.
    Models [runScan] (backend/src/claims/claim-deadline.processor.service.ts:38-73). *)
Definition runScan : MJ () := λ w,
  if isRunning (rstate w) then (Ok tt, w)
  else
    let '(r, w') := scan_body (RWorld (set_running true (rstate w)) (faults w)) in
    (r, RWorld (set_running false (rstate w')) (faults w')).
End deadline.

(** *** Rows *)

Lemma update_claim_id i f l : (∀ c, c_id (f c) = c_id c) → c_id <$> update_claim i f l = c_id <$> l.
Proof.
  intros Hf. unfold update_claim. rewrite <- list_fmap_compose. apply list_fmap_ext. intros ? c _. unfold compose.
  by destruct (c_id c =? i).
Qed.

Lemma find_claim_some (s : jstate) c : NoDup (c_id <$> claims s) → c ∈ claims s → find_claim (c_id c) s = Some c.
Proof.
  unfold find_claim. intros Hn Hc. induction (claims s) as [|d l IH]; [by apply elem_of_nil in Hc|]. cbn.
  apply NoDup_cons in Hn as [Hd Hn]. apply elem_of_cons in Hc as [->|Hc]; [by rewrite Z.eqb_refl|].
  rewrite (proj2 (Z.eqb_neq _ _)); [by apply IH|]. intros He. apply Hd. rewrite He. by apply list_elem_of_fmap_2.
Qed.

Lemma update_claim_ext i f g l : (∀ c, c ∈ l → c_id c = i → f c = g c) → update_claim i f l = update_claim i g l.
Proof.
  intros Hfg. unfold update_claim. apply list_fmap_ext. intros k c Hc. apply list_elem_of_lookup_2 in Hc.
  destruct (Z.eqb_spec (c_id c) i); auto.
Qed.

Lemma update_claim_same i f l : (∀ c, c ∈ l → c_id c = i → f c = c) → update_claim i f l = l.
Proof.
  intros Hf. unfold update_claim. rewrite <- (list_fmap_id l) at 2. apply list_fmap_ext. intros k c Hc.
  apply list_elem_of_lookup_2 in Hc. destruct (Z.eqb_spec (c_id c) i); cbn; auto.
Qed.

Lemma find_unique (s : jstate) c d : NoDup (c_id <$> claims s) → c ∈ claims s → d ∈ claims s → c_id d = c_id c → d = c.
Proof.
  intros Hn Hc Hd Hi. pose proof (find_claim_some s d Hn Hd) as H1. rewrite Hi, (find_claim_some s c Hn Hc) in H1. by injection H1.
Qed.

(** The rows whose id is that of a claim of [l], changed by [g]. *)
Definition applied (g : ClaimRow → ClaimRow) (l rows : list ClaimRow) : list ClaimRow :=
  (λ c, if bool_decide (c_id c ∈ c_id <$> l) then g c else c) <$> rows.

Lemma applied_nil g rows : applied g [] rows = rows.
Proof.
  unfold applied. rewrite (list_fmap_ext _ id); [by rewrite list_fmap_id|].
  intros ? d _. rewrite bool_decide_false; [done|]. by intros ?%elem_of_nil.
Qed.

Lemma applied_cons g f c l rows :
  c_id c ∉ (c_id <$> l) → (∀ d, c_id (g d) = c_id d) → (∀ d, c_id d = c_id c → f d = g d) →
  applied g l (update_claim (c_id c) f rows) = applied g (c :: l) rows.
Proof.
  intros Hn Hg Hf. unfold applied, update_claim. rewrite <- list_fmap_compose. apply list_fmap_ext. intros ? d _. unfold compose.
  cbn [fmap list_fmap]. destruct (Z.eqb_spec (c_id d) (c_id c)) as [He|He].
  - rewrite (Hf d He), Hg, He. rewrite bool_decide_false by done. rewrite bool_decide_true by (by left). done.
  - rewrite (bool_decide_ext (c_id d ∈ c_id c :: (c_id <$> l)) (c_id d ∈ (c_id <$> l))); [done|].
    rewrite elem_of_cons. naive_solver.
Qed.

(** Updating one claim keeps the others where they are. *)
Lemma update_claim_others c f l rows :
  c_id c ∉ (c_id <$> l) → Forall (λ d, d ∈ rows) l → Forall (λ d, d ∈ update_claim (c_id c) f rows) l.
Proof.
  intros Hc Hall. apply Forall_forall. intros d Hd. rewrite Forall_forall in Hall. unfold update_claim.
  apply list_elem_of_fmap. exists d. split; [|by apply Hall].
  rewrite (proj2 (Z.eqb_neq _ _)); [done|]. intros He. apply Hc. rewrite <- He. by apply list_elem_of_fmap_2.
Qed.

(** *** Every schedule of failures *)

Section deadline_facts.
Variable by_ledger : list ClaimRow → list ClaimRow.
Hypothesis by_ledger_perm : ∀ l, by_ledger l ≡ₚ l.

Lemma stmt_cases {A} (f : jstate → A * jstate) (w : rworld jstate) :
  (∃ fs, stmt f w = (Throw db_message, RWorld (rstate w) fs)) ∨
  (∃ fs, stmt f w = (Ok (f (rstate w)).1, RWorld (f (rstate w)).2 fs)).
Proof.
  unfold stmt, cmd. destruct w as [s [|[] fs]]; cbn; [right|left|right]; destruct (f s); cbn; eauto.
Qed.

Lemma read_cases {A} (f : jstate → A) (w : rworld jstate) :
  (∃ fs, read f w = (Throw db_message, RWorld (rstate w) fs)) ∨ (∃ fs, read f w = (Ok (f (rstate w)), RWorld (rstate w) fs)).
Proof. apply stmt_cases. Qed.

(** The finalizations submitted between two worlds. *)
Definition submits (l : list Z) (w w' : rworld jstate) : Prop := sent (rstate w') = (sent (rstate w) ++ l)%list.

Definition quiet (w w' : rworld jstate) : Prop := sent (rstate w') = sent (rstate w).
#[local] Instance quiet_pre : PreOrder quiet.
Proof. split; unfold quiet; [done|]. intros w1 w2 w3 H1 H2. by rewrite H2. Qed.

Lemma stmt_quiet {A} (f : jstate → A * jstate) : (∀ s, sent (f s).2 = sent s) → keeps quiet (stmt f).
Proof. intros Hf w. unfold quiet, world_of. destruct (stmt_cases f w) as [[fs ->]|[fs ->]]; cbn; [done|apply Hf]. Qed.

Lemma process_submits rpc i w : ∃ l, submits l w (world_of (processClaim rpc i) w) ∧ l `sublist_of` [i].
Proof.
  unfold processClaim, world_of, bind at 1. destruct (read_cases (find_claim i) w) as [[fs ->]|[fs ->]]; cbn [fst snd].
  { exists []. split; [unfold submits; cbn; by rewrite app_nil_r|constructor; constructor]. }
  destruct (find_claim i (rstate w)) as [c|].
  2: { exists []. split; [unfold submits; cbn; by rewrite app_nil_r|constructor; constructor]. }
  destruct (isFinalized c).
  { exists []. split; [unfold submits; cbn; by rewrite app_nil_r|constructor; constructor]. }
  exists [i]. split; [|done]. unfold try_catch, bind at 1, local_. cbn [rstate faults].
  set (w1 := RWorld (set_sent _ _) fs). assert (submits [i] w w1) as H1 by done.
  assert (∀ m : MJ outcome, keeps quiet m → submits [i] w (snd (m w1))) as Hq.
  { intros m Hm. specialize (Hm w1). unfold quiet, world_of, submits in *. congruence. }
  destruct (rpc i) as [r|msg].
  - unfold bind. destruct (stmt_cases (λ s, (tt, set_claims (update_claim i (finalized_row r) (claims s)) s)) w1) as [[fs' ->]|[fs' ->]];
      cbn [fst snd]; [|exact H1]. exact H1.
  - cbn [throw]. destruct (already_terminal msg); [|exact H1].
    apply (Hq (do* stmt _ in ret Skipped)). keeps_walk. by apply stmt_quiet.
Qed.

Lemma loop_submits rpc l w :
  ∃ l', submits l' w (world_of (for_each l (λ c, let* _ := processClaim rpc (c_id c) in ret tt)) w) ∧ l' `sublist_of` (c_id <$> l).
Proof.
  revert w. induction l as [|c l IH]; intros w; cbn [for_each].
  { exists []. split; [unfold submits; cbn; by rewrite app_nil_r|constructor]. }
  destruct (process_submits rpc (c_id c) w) as (l1 & H1 & S1). unfold world_of, bind in *.
  destruct (processClaim rpc (c_id c) w) as [[o|e] w1]; cbn [fst snd ret] in *.
  - destruct (IH w1) as (l2 & H2 & S2). exists (l1 ++ l2)%list. split; [unfold submits in *; by rewrite H2, H1, app_assoc|].
    change (c_id <$> c :: l) with ([c_id c] ++ (c_id <$> l))%list. by apply sublist_app.
  - exists l1. split; [done|]. change (c_id <$> c :: l) with ([c_id c] ++ (c_id <$> l))%list. by apply sublist_inserts_r.
Qed.

(** What a deadline scan submits.  Whatever the contract answers and whichever statements fail, a scan that
    is not already running submits at most fifty finalizations, all for claims that were pending, not finalized,
    not deleted and past their voting window when it started, and it leaves the flag clear, also when it throws;
    while a scan is running another one does nothing. *)
Theorem scan_targets rpc (w : rworld jstate) :
  let w' := world_of (runScan rpc by_ledger) w in
  if isRunning (rstate w) then w' = w
  else isRunning (rstate w') = false ∧
    ∃ l, sent (rstate w') = (sent (rstate w) ++ l)%list ∧ (length l ≤ 50)%nat ∧
      Forall (λ i, ∃ ledger c, lastProcessedLedger (rstate w) = Some ledger ∧ c ∈ claims (rstate w) ∧ c_id c = i ∧ expired ledger c = true) l.
Proof.
  unfold world_of, runScan. destruct (isRunning (rstate w)) eqn:Hr; [done|].
  set (w0 := RWorld (set_running true (rstate w)) (faults w)).
  assert (∃ l, submits l w0 (world_of (scan_body rpc by_ledger) w0) ∧ (length l ≤ 50)%nat ∧
    Forall (λ i, ∃ ledger c, lastProcessedLedger (rstate w) = Some ledger ∧ c ∈ claims (rstate w) ∧ c_id c = i ∧ expired ledger c = true) l)
    as (l & Hl & Hlen & Hall).
  2: { unfold world_of in Hl. destruct (scan_body rpc by_ledger w0) as [r w']. split; [done|]. by exists l. }
  assert (∀ f, submits [] w0 (RWorld (rstate w0) f)) as Hnil by (intros f; unfold submits; cbn; by rewrite app_nil_r).
  unfold scan_body, world_of, bind. destruct (read_cases lastProcessedLedger w0) as [[fs ->]|[fs ->]];
    [exists []; split_and!; [apply Hnil|cbn; lia|done]|].
  change (lastProcessedLedger (rstate w0)) with (lastProcessedLedger (rstate w)).
  destruct (lastProcessedLedger (rstate w)) as [ledger|]; [|exists []; split_and!; [apply Hnil|cbn; lia|done]].
  match goal with |- context [read ?f (RWorld (rstate w0) fs)] =>
    destruct (read_cases f (RWorld (rstate w0) fs)) as [[fs' ->]|[fs' ->]] end;
    [exists []; split_and!; [apply Hnil|cbn; lia|done]|].
  cbn [rstate]. change (claims (rstate w0)) with (claims (rstate w)).
  match goal with |- context [for_each ?l _ _] => set (sel := l) end.
  destruct (loop_submits rpc sel (RWorld (rstate w0) fs')) as (l & Hl & Hsub). exists l. split_and!; [exact Hl| |].
  - apply sublist_length in Hsub. rewrite length_fmap in Hsub. unfold sel in Hsub. rewrite length_take in Hsub.
    unfold CLAIM_DEADLINE_BATCH_SIZE in Hsub. lia.
  - apply Forall_forall. intros i Hi. eapply sublist_subseteq in Hi; [|exact Hsub].
    apply list_elem_of_fmap in Hi as (c & -> & Hc). unfold sel in Hc. apply elem_of_take in Hc as (k & Hc & _).
    apply list_elem_of_lookup_2 in Hc. rewrite by_ledger_perm in Hc. apply list_elem_of_filter in Hc as [He Hin]. eauto 10.
Qed.

(** *** A scan over a database that answers *)

Definition effect (r : result string FinalizeClaimResult) (c : ClaimRow) : ClaimRow :=
  match r with
  | Ok r => finalized_row r c
  | Throw msg => if already_terminal msg then mark_finalized c else c
  end.

Lemma effect_id r c : c_id (effect r c) = c_id c.
Proof. destruct r; cbn; [done|]. by destruct (already_terminal _). Qed.

Lemma process_healthy rpc c (s : jstate) :
  NoDup (c_id <$> claims s) → c ∈ claims s → isFinalized c = false →
  processClaim rpc (c_id c) (RWorld s []) =
    (Ok (match rpc (c_id c) with Ok _ => Finalized | Throw msg => if already_terminal msg then Skipped else Failed end),
     RWorld (set_claims (update_claim (c_id c) (effect (rpc (c_id c))) (claims s)) (set_sent (sent s ++ [c_id c])%list s)) []).
Proof.
  intros Hn Hc Hf. unfold processClaim, bind at 1, read, stmt at 1, cmd. cbn [rstate faults tail].
  rewrite (find_claim_some s c Hn Hc), Hf. unfold try_catch, bind at 1, local_. cbn [rstate faults].
  destruct (rpc (c_id c)) as [r|msg]; unfold bind, stmt, cmd, throw, ret; cbn -[update_claim already_terminal]; [done|].
  destruct (already_terminal msg) eqn:Ht; cbn -[update_claim].
  - do 3 f_equal. apply update_claim_ext. intros d Hd Hi.
    assert (d = c) as ->; [|rewrite Hf; cbn -[already_terminal]; by rewrite Ht].
    pose proof (find_claim_some s d Hn Hd) as Hfd. rewrite Hi, (find_claim_some s c Hn Hc) in Hfd. by injection Hfd.
  - do 2 f_equal. rewrite update_claim_same; [by destruct s|]. intros d _ _. cbn -[already_terminal]. by rewrite Ht.
Qed.

(** The rows after the claims of [l] have been processed. *)
Definition processed rpc : list ClaimRow → list ClaimRow → list ClaimRow := applied (λ c, effect (rpc (c_id c)) c).

Lemma loop_healthy rpc l (s : jstate) :
  NoDup (c_id <$> claims s) → NoDup (c_id <$> l) → Forall (λ c, c ∈ claims s ∧ isFinalized c = false) l →
  for_each l (λ c, let* _ := processClaim rpc (c_id c) in ret tt) (RWorld s []) =
    (Ok tt, RWorld (set_claims (processed rpc l (claims s)) (set_sent (sent s ++ (c_id <$> l))%list s)) []).
Proof.
  revert s. induction l as [|c l IH]; intros s Hn Hl Hall; cbn [for_each].
  { cbn [fmap list_fmap]. unfold processed. rewrite app_nil_r, applied_nil. by destruct s. }
  apply NoDup_cons in Hl as [Hc Hl]. apply Forall_cons in Hall as [[Hin Hf] Hall].
  unfold bind at 1. unfold bind at 1. rewrite (process_healthy rpc c s Hn Hin Hf). cbn [ret].
  rewrite IH; cbn [claims sent set_claims set_sent].
  - unfold processed. rewrite applied_cons; [|done|intros d; apply effect_id|by intros d ->].
    cbn [fmap list_fmap]. by rewrite <- app_assoc.
  - by rewrite update_claim_id by (intros; apply effect_id).
  - done.
  - apply Forall_and in Hall as [Hall1 Hall2]. apply Forall_and. split; [by apply update_claim_others|done].
Qed.

Definition selection (ledger : Z) (s : jstate) : list ClaimRow :=
  take CLAIM_DEADLINE_BATCH_SIZE (by_ledger (filter (λ c, expired ledger c = true) (claims s))).

Lemma selection_rows ledger s :
  NoDup (c_id <$> claims s) →
  NoDup (c_id <$> selection ledger s) ∧ Forall (λ c, c ∈ claims s ∧ isFinalized c = false) (selection ledger s).
Proof.
  intros Hn. split.
  - eapply sublist_NoDup; [|apply (fmap_sublist c_id), sublist_take]. rewrite by_ledger_perm.
    eapply sublist_NoDup; [exact Hn|]. apply (fmap_sublist c_id), sublist_filter.
  - apply Forall_forall. intros c Hc. apply elem_of_take in Hc as (k & Hc & _). apply list_elem_of_lookup_2 in Hc.
    rewrite by_ledger_perm in Hc. apply list_elem_of_filter in Hc as [He Hin]. split; [done|].
    unfold expired in He. by bool_prop.
Qed.

(** What a deadline scan does to the table.  When the database answers, the scan takes the first fifty
    expired claims in ledger order and applies to each the contract's answer (the final status, ledger, hash and
    appeal deadline; the flag alone for a claim the contract calls terminal; nothing for another failure), each
    exactly once, and leaves every other row as it is: one claim's failure does not touch its siblings. *)
Theorem scan_result rpc (s : jstate) ledger :
  isRunning s = false → lastProcessedLedger s = Some ledger → NoDup (c_id <$> claims s) →
  runScan rpc by_ledger (RWorld s []) =
    (Ok tt, RWorld (set_claims (processed rpc (selection ledger s) (claims s))
                     (set_sent (sent s ++ (c_id <$> selection ledger s))%list s)) []).
Proof.
  intros Hr Hl Hn. unfold runScan. cbn [rstate]. rewrite Hr. unfold scan_body, bind at 1, read at 1, stmt at 1, cmd.
  cbn [rstate faults tail]. change (lastProcessedLedger (set_running true s)) with (lastProcessedLedger s). rewrite Hl.
  unfold bind at 1, read at 1, stmt at 1, cmd. cbn [rstate faults tail].
  destruct (selection_rows ledger s Hn) as [Hs1 Hs2].
  change (take CLAIM_DEADLINE_BATCH_SIZE _) with (selection ledger s).
  rewrite (loop_healthy rpc (selection ledger s) (set_running true s) Hn Hs1 Hs2). destruct s; cbn in *. by subst.
Qed.

(** Fifty failing claims stop the job.  When the first fifty expired claims fail in every scan, for a reason
    other than being terminal, each scan submits them again and nothing else: however many scans run, the table
    stays as it is and no further expired claim is ever submitted. *)
Theorem failing_claims_block rpc (s : jstate) ledger n :
  isRunning s = false → lastProcessedLedger s = Some ledger → NoDup (c_id <$> claims s) →
  (∀ c, c ∈ selection ledger s → ∃ msg, rpc (c_id c) = Throw msg ∧ already_terminal msg = false) →
  let w := Nat.iter n (λ w, world_of (runScan rpc by_ledger) w) (RWorld s []) in
  w = RWorld (set_sent (sent s ++ mjoin (replicate n (c_id <$> selection ledger s)))%list s) [].
Proof.
  intros Hr Hl Hn Hfail. cbv zeta. induction n as [|n IH].
  { cbn. rewrite app_nil_r. by destruct s. }
  change (Nat.iter (S n) ?f ?x) with (f (Nat.iter n f x)). rewrite IH. clear IH.
  set (s' := set_sent _ s). unfold world_of. rewrite (scan_result rpc s' ledger) by done. cbn [snd].
  assert (processed rpc (selection ledger s') (claims s') = claims s) as ->.
  { change (claims s') with (claims s). change (selection ledger s') with (selection ledger s).
    unfold processed, applied. rewrite <- (list_fmap_id (claims s)) at 2. apply list_fmap_ext. intros k c Hc.
    case_bool_decide as Hin; [|done]. apply list_elem_of_fmap in Hin as (d & Hd & Hsel). rewrite Hd.
    destruct (Hfail d Hsel) as (msg & -> & Ht). cbn -[already_terminal]. by rewrite Ht. }
  unfold s'. cbn [sent set_sent]. rewrite <- app_assoc. do 3 f_equal.
  rewrite replicate_S_end, join_app. cbn [mjoin list_join]. by rewrite app_nil_r.
Qed.

(** A finalized claim can keep the status PENDING.  If the statement that mirrors a successful finalization
    fails, the attempt is reported as failed; the next scan is told that the claim is terminal and sets the flag
    alone: the status, ledger, hash and appeal deadline of the contract are never written, and no later scan
    selects the row. *)
Theorem finalized_status_lost rpc1 rpc2 (s : jstate) c r msg :
  NoDup (c_id <$> claims s) → c ∈ claims s → isFinalized c = false → rpc1 (c_id c) = Ok r →
  rpc2 (c_id c) = Throw msg → already_terminal msg = true →
  ∃ s1 s2, processClaim rpc1 (c_id c) (RWorld s [false; true]) = (Ok Failed, RWorld s1 []) ∧
    processClaim rpc2 (c_id c) (RWorld s1 []) = (Ok Skipped, RWorld s2 []) ∧
    mark_finalized c ∈ claims s2 ∧ c_status (mark_finalized c) = c_status c ∧
    ∀ ledger, expired ledger (mark_finalized c) = false.
Proof.
  intros Hn Hc Hf H1 H2 Ht. set (s1 := set_sent (sent s ++ [c_id c])%list s).
  exists s1, (set_claims (update_claim (c_id c) mark_finalized (claims s)) (set_sent (sent s1 ++ [c_id c])%list s)). split_and!.
  - unfold processClaim, bind at 1, read, stmt at 1, cmd. cbn [rstate faults tail].
    rewrite (find_claim_some s c Hn Hc), Hf. unfold try_catch, bind at 1, local_. cbn [rstate faults]. by rewrite H1.
  - rewrite (process_healthy rpc2 c s1 Hn Hc Hf), H2, Ht. do 3 f_equal. cbn [claims set_sent s1].
    apply update_claim_ext. intros d _ _. cbn -[already_terminal]. by rewrite Ht.
  - cbn [claims set_claims]. unfold update_claim. apply list_elem_of_fmap. exists c. by rewrite Z.eqb_refl.
  - done.
  - intros ledger. unfold expired. cbn. by rewrite andb_false_r.
Qed.
End deadline_facts.

(** ** reconciliation.service.ts *)

Definition count_votes (i : Z) (v : VoteType) (s : jstate) : Z :=
  Z.of_nat (length (filter (λ r, v_claim r = i ∧ v_vote r = v) (votes s))).

Definition set_tally (a r : Z) (c : ClaimRow) : ClaimRow :=
  {| c_id := c_id c; creator := creator c; c_status := c_status c; isFinalized := isFinalized c; approveVotes := a;
     rejectVotes := r; createdAtLedger := createdAtLedger c; updatedAtLedger := updatedAtLedger c; txHash := txHash c;
     deleted := deleted c; appealsCount := appealsCount c; appealTxHash := appealTxHash c;
     appealOpenDeadlineLedger := appealOpenDeadlineLedger c |}.

(** [clear]: the hash of the appeal transaction is reset too. *)
Definition set_appeals (n : Z) (clear : bool) (c : ClaimRow) : ClaimRow :=
  {| c_id := c_id c; creator := creator c; c_status := c_status c; isFinalized := isFinalized c;
     approveVotes := approveVotes c; rejectVotes := rejectVotes c; createdAtLedger := createdAtLedger c;
     updatedAtLedger := updatedAtLedger c; txHash := txHash c; deleted := deleted c; appealsCount := n;
     appealTxHash := if clear then None else appealTxHash c; appealOpenDeadlineLedger := appealOpenDeadlineLedger c |}.

Definition expectedAppealsCount (c : ClaimRow) : Z := if bool_decide (c_status c = UNDER_APPEAL) then 1 else 0.

(** [claim] is the row as it was read at the start.  The ids reported and the number of appeal corrections.
    Models [runReconciliation] (backend/src/indexer/reconciliation.service.ts:90-147). *)
Definition reconcile_claim (claim : ClaimRow) : MJ (list Z * Z) :=
  let* countApprove := read (count_votes (c_id claim) APPROVE) in
  let* countReject := read (count_votes (c_id claim) REJECT) in
  let* ids1 := (if negb (approveVotes claim =? countApprove) || negb (rejectVotes claim =? countReject) then
                  do* stmt (λ s, (tt, set_claims (update_claim (c_id claim) (set_tally countApprove countReject) (claims s)) s)) in
                  ret [c_id claim]
                else ret []) in
  let expected := expectedAppealsCount claim in
  if negb (appealsCount claim =? expected) then
    do* stmt (λ s, (tt, set_claims (update_claim (c_id claim)
          (set_appeals expected ((expected =? 0) && bool_decide (is_Some (appealTxHash claim)))) (claims s)) s)) in
    ret ((ids1 ++ [c_id claim])%list, 1)
  else ret (ids1, 0).

(** Models [ReconciliationResult] (backend/src/indexer/reconciliation.service.ts:19-27). *)
Record ReconciliationResult := { totalChecked : Z; discrepantClaimIds : list Z; appealCorrections : Z; ok : bool }.

Fixpoint reconcile_loop (l : list ClaimRow) : MJ (list Z * Z) :=
  match l with
  | [] => ret ([], 0)
  | c :: rest =>
      let* x := reconcile_claim c in
      let* y := reconcile_loop rest in
      ret ((x.1 ++ y.1)%list, x.2 + y.2)
  end.

(** Models [runReconciliation] (backend/src/indexer/reconciliation.service.ts:71-170). *)
Definition runReconciliation : MJ ReconciliationResult :=
  let* l := read (λ s, filter (λ c, isFinalized c = false) (claims s)) in
  let* x := reconcile_loop l in
  ret {| totalChecked := Z.of_nat (length l); discrepantClaimIds := x.1; appealCorrections := x.2;
         ok := bool_decide (x.1 = []) |}.

(** Models [getClaimReconciliationStatus] (backend/src/indexer/reconciliation.service.ts:44-67). *)
Definition getClaimReconciliationStatus (i : Z) : MJ (bool * (Z * Z) * (Z * Z)) :=
  let* claim := read (find_claim i) in
  let* countApprove := read (count_votes i APPROVE) in
  let* countReject := read (count_votes i REJECT) in
  match claim with
  | None => ret (true, (0, 0), (0, 0))
  | Some c => ret (bool_decide (approveVotes c = countApprove ∧ rejectVotes c = countReject),
                   (approveVotes c, rejectVotes c), (countApprove, countReject))
  end.

(** *** What a complete run leaves *)

Definition tally_drift (s : jstate) (c : ClaimRow) : bool :=
  negb (approveVotes c =? count_votes (c_id c) APPROVE s) || negb (rejectVotes c =? count_votes (c_id c) REJECT s).
Definition appeal_drift (c : ClaimRow) : bool := negb (appealsCount c =? expectedAppealsCount c).

Definition heal (s : jstate) (c : ClaimRow) : ClaimRow :=
  let c1 := set_tally (count_votes (c_id c) APPROVE s) (count_votes (c_id c) REJECT s) c in
  if appeal_drift c then
    set_appeals (expectedAppealsCount c) ((expectedAppealsCount c =? 0) && bool_decide (is_Some (appealTxHash c))) c1
  else c1.

Definition report (s : jstate) (c : ClaimRow) : list Z :=
  ((if tally_drift s c then [c_id c] else []) ++ (if appeal_drift c then [c_id c] else []))%list.

Lemma heal_id s c : c_id (heal s c) = c_id c.
Proof. unfold heal. by destruct (appeal_drift c). Qed.

Lemma set_tally_same (s : jstate) c :
  tally_drift s c = false → set_tally (count_votes (c_id c) APPROVE s) (count_votes (c_id c) REJECT s) c = c.
Proof.
  unfold tally_drift. intros [Ha%negb_false_iff%Z.eqb_eq Hr%negb_false_iff%Z.eqb_eq]%orb_false_iff. rewrite <- Ha, <- Hr. by destruct c.
Qed.

Lemma reconcile_claim_healthy c (s : jstate) :
  NoDup (c_id <$> claims s) → c ∈ claims s →
  reconcile_claim c (RWorld s []) =
    (Ok (report s c, if appeal_drift c then 1 else 0), RWorld (set_claims (update_claim (c_id c) (heal s) (claims s)) s) []).
Proof.
  intros Hn Hc. unfold reconcile_claim, bind at 1, read, stmt at 1, cmd. cbn [rstate faults tail].
  unfold bind at 1, stmt at 1, cmd. cbn [rstate faults tail]. fold (tally_drift s c). fold (appeal_drift c).
  assert (∀ f, f c = heal s c → update_claim (c_id c) f (claims s) = update_claim (c_id c) (heal s) (claims s)) as Hext.
  { intros f Hf. apply update_claim_ext. intros d Hd Hi. by rewrite (find_unique s c d Hn Hc Hd Hi). }
  assert (∀ f g l, (∀ d, c_id (f d) = c_id d) → update_claim (c_id c) g (update_claim (c_id c) f l) = update_claim (c_id c) (λ d, g (f d)) l) as Hcomp.
  { intros f g l Hf. unfold update_claim. rewrite <- list_fmap_compose. apply list_fmap_ext. intros ? d _. unfold compose.
    destruct (c_id d =? c_id c) eqn:Hi; rewrite ?Hf, ?Hi; done. }
  unfold report. destruct (tally_drift s c) eqn:Ht, (appeal_drift c) eqn:Ha; unfold bind, stmt, cmd, ret; cbn -[update_claim].
  - rewrite Hcomp by done. rewrite (Hext (λ d, set_appeals _ _ (set_tally _ _ d))); [done|]. unfold heal. by rewrite Ha.
  - rewrite (Hext (set_tally _ _)); [done|]. unfold heal. by rewrite Ha.
  - rewrite (Hext (set_appeals _ _)); [done|]. unfold heal. by rewrite Ha, (set_tally_same s c Ht).
  - rewrite update_claim_same; [by destruct s|]. intros d Hd Hi. rewrite (find_unique s c d Hn Hc Hd Hi).
    unfold heal. by rewrite Ha, (set_tally_same s c Ht).
Qed.

Lemma reconcile_loop_healthy l (s : jstate) :
  NoDup (c_id <$> claims s) → NoDup (c_id <$> l) → Forall (λ c, c ∈ claims s) l →
  reconcile_loop l (RWorld s []) =
    (Ok (mjoin (report s <$> l), Z.of_nat (length (filter (λ c, appeal_drift c = true) l))),
     RWorld (set_claims (applied (heal s) l (claims s)) s) []).
Proof.
  revert s. induction l as [|c l IH]; intros s Hn Hl Hall; cbn [reconcile_loop].
  { rewrite applied_nil. by destruct s. }
  apply NoDup_cons in Hl as [Hc Hl]. apply Forall_cons in Hall as [Hin Hall].
  unfold bind at 1. rewrite (reconcile_claim_healthy c s Hn Hin). unfold bind. rewrite IH; cbn [claims set_claims].
  - assert (∀ d, report (set_claims (update_claim (c_id c) (heal s) (claims s)) s) d = report s d) as Hrep by done.
    rewrite (list_fmap_ext _ (report s)) by done. cbn [ret fst snd fmap list_fmap mjoin list_join].
    rewrite filter_cons. change (heal (set_claims ?x s)) with (heal s).
    rewrite (applied_cons (heal s) (heal s) c l (claims s)); [|done|intros; apply heal_id|done].
    destruct (appeal_drift c); [rewrite decide_True by done|rewrite decide_False by done]; cbn [length]; unfold ret; do 3 f_equal; lia.
  - by rewrite update_claim_id by (intros; apply heal_id).
  - done.
  - by apply update_claim_others.
Qed.

Lemma heal_clean (s : jstate) c : tally_drift s (heal s c) = false ∧ appeal_drift (heal s c) = false.
Proof.
  unfold heal. destruct (appeal_drift c) eqn:Ha; (split;
    [change (negb (count_votes (c_id c) APPROVE s =? count_votes (c_id c) APPROVE s) ||
             negb (count_votes (c_id c) REJECT s =? count_votes (c_id c) REJECT s) = false); by rewrite !Z.eqb_refl|]).
  - change (negb (expectedAppealsCount c =? expectedAppealsCount c) = false). by rewrite Z.eqb_refl.
  - exact Ha.
Qed.

Lemma heal_same (s : jstate) c : tally_drift s c = false → appeal_drift c = false → heal s c = c.
Proof. intros Ht Ha. unfold heal. by rewrite Ha, set_tally_same. Qed.

Lemma report_nil (s : jstate) c : report s c = [] ↔ tally_drift s c = false ∧ appeal_drift c = false.
Proof. unfold report. destruct (tally_drift s c), (appeal_drift c); naive_solver. Qed.

Lemma join_nil {A B} (f : A → list B) l : mjoin (f <$> l) = [] ↔ Forall (λ x, f x = []) l.
Proof.
  induction l as [|x l IH]; [done|]. cbn [fmap list_fmap mjoin list_join]. rewrite Forall_cons, <- IH. split.
  - by intros [? ?]%app_nil.
  - intros [Hx Hl]. rewrite Hx. exact Hl.
Qed.

Lemma run_reconciliation (s : jstate) :
  NoDup (c_id <$> claims s) →
  ∃ r, runReconciliation (RWorld s []) =
      (Ok r, RWorld (set_claims ((λ c, if isFinalized c then c else heal s c) <$> claims s) s) []) ∧
    (ok r = true ↔ Forall (λ c, tally_drift s c = false ∧ appeal_drift c = false) (filter (λ c, isFinalized c = false) (claims s))).
Proof.
  intros Hn. unfold runReconciliation, bind at 1, read, stmt at 1, cmd. cbn [rstate faults tail].
  set (l := filter _ _). unfold bind. rewrite (reconcile_loop_healthy l s Hn).
  2: { eapply sublist_NoDup; [exact Hn|]. apply (fmap_sublist c_id), sublist_filter. }
  2: { apply Forall_forall. by intros c [_ Hc]%list_elem_of_filter. }
  eexists. split.
  - unfold ret. do 3 f_equal. apply list_fmap_ext. intros k c Hc%list_elem_of_lookup_2.
    destruct (isFinalized c) eqn:Hf.
    + rewrite bool_decide_false; [done|]. intros (d & Hi & [Hd Hin]%list_elem_of_filter)%list_elem_of_fmap.
      rewrite <- (find_unique s d c Hn Hin Hc Hi) in Hd. congruence.
    + rewrite bool_decide_true; [done|]. apply list_elem_of_fmap_2. by apply list_elem_of_filter.
  - cbn [ok fst snd]. rewrite bool_decide_eq_true, join_nil. apply Forall_iff. intros c. apply report_nil.
Qed.

(** What the reconciliation makes of the hash of an appeal's transaction. *)
Lemma heal_hash (s : jstate) c :
  c_status (heal s c) = c_status c ∧
  appealTxHash (heal s c) = if negb (appealsCount c =? expectedAppealsCount c) && (expectedAppealsCount c =? 0)
                            then None else appealTxHash c.
Proof.
  unfold heal. change (appeal_drift c) with (negb (appealsCount c =? expectedAppealsCount c)).
  destruct (appealsCount c =? expectedAppealsCount c); cbn; [done|]. split; [done|].
  destruct (expectedAppealsCount c =? 0); [|done]. cbn. by destruct (appealTxHash c).
Qed.

(** C7: The reconciliation heals tallies and appeal counts and is then satisfied.  When the database answers,
    a run replaces the tallies of every open claim by the numbers of its votes and the appeal count by the one
    its status implies, leaves finalized claims as they are, and reports ok exactly when nothing had to be
    changed; a second run changes nothing and reports ok.  The hash of an appeal's transaction is cleared only
    together with a wrong count that becomes 0: a hash left behind with a count that is already 0 stays, and
    the run reports ok, although the comment of the code calls a residual hash drift to be cleared. *)
Theorem reconciliation_heals (s : jstate) :
  NoDup (c_id <$> claims s) →
  let s' := set_claims ((λ c, if isFinalized c then c else heal s c) <$> claims s) s in
  ∃ r r', runReconciliation (RWorld s []) = (Ok r, RWorld s' []) ∧
    (∀ c, c ∈ claims s' → isFinalized c = false →
       approveVotes c = count_votes (c_id c) APPROVE s ∧ rejectVotes c = count_votes (c_id c) REJECT s ∧
       appealsCount c = expectedAppealsCount c) ∧
    Forall2 (λ c c', c_id c' = c_id c ∧ c_status c' = c_status c ∧ (isFinalized c = true → c' = c) ∧
       appealTxHash c' = if negb (isFinalized c) && negb (appealsCount c =? expectedAppealsCount c) &&
                            (expectedAppealsCount c =? 0)
                         then None else appealTxHash c) (claims s) (claims s') ∧
    (ok r = true ↔ s' = s) ∧
    runReconciliation (RWorld s' []) = (Ok r', RWorld s' []) ∧ ok r' = true.
Proof.
  intros Hn s'. destruct (run_reconciliation s Hn) as (r & Hr & Hok).
  assert (NoDup (c_id <$> claims s')) as Hn'.
  { cbn [claims set_claims s']. rewrite <- list_fmap_compose. erewrite list_fmap_ext; [exact Hn|].
    intros ? c _. unfold compose. destruct (isFinalized c); [done|apply heal_id]. }
  assert (∀ c, c ∈ claims s' → isFinalized c = false → tally_drift s' c = false ∧ appeal_drift c = false) as Hclean.
  { intros c (d & -> & _)%list_elem_of_fmap Hf. destruct (isFinalized d) eqn:Hd; [congruence|]. exact (heal_clean s d). }
  destruct (run_reconciliation s' Hn') as (r' & Hr' & Hok'). exists r, r'. split_and!; [exact Hr| | | | |].
  - intros c Hc Hf. destruct (Hclean c Hc Hf) as [[Ha%negb_false_iff%Z.eqb_eq Hj%negb_false_iff%Z.eqb_eq]%orb_false_iff
      Hap%negb_false_iff%Z.eqb_eq]. done.
  - cbn [claims set_claims s']. apply Forall2_fmap_r, Forall_Forall2_diag, Forall_forall. intros c _.
    destruct (heal_hash s c) as [Hst Hh]. unfold compose. destruct (isFinalized c) eqn:Hf; cbn [negb andb]; [by split_and!|].
    split; [apply heal_id|]. split; [exact Hst|]. split; [done|exact Hh].
  - split; [|intros Hs; apply Hok, Forall_forall; intros c [Hf Hc]%list_elem_of_filter; rewrite <- Hs in Hc; rewrite <- Hs; by apply Hclean].
    intros Hall. apply Hok in Hall. rewrite Forall_forall in Hall.
    transitivity (set_claims (claims s) s); [|by destruct s]. unfold s'. f_equal.
    rewrite <- (list_fmap_id (claims s)) at 2. apply list_fmap_ext. intros k c Hc%list_elem_of_lookup_2.
    destruct (isFinalized c) eqn:Hf; [done|]. destruct (Hall c) as [Ht Ha]; [by apply list_elem_of_filter|]. by apply heal_same.
  - assert ((λ c, if isFinalized c then c else heal s' c) <$> claims s' = claims s') as Hfix.
    { transitivity (id <$> claims s'); [|apply list_fmap_id]. apply list_fmap_ext. intros k c Hc%list_elem_of_lookup_2.
      destruct (isFinalized c) eqn:Hf; [done|]. destruct (Hclean c Hc Hf) as [Ht Ha]. by apply heal_same. }
    rewrite Hr', Hfix. done.
  - apply Hok', Forall_forall. intros c [Hf Hc]%list_elem_of_filter. by apply Hclean.
Qed.

(** ** vote-reconciliation.job.ts *)

Module OnChain.

(** Models [CLAIM_BATCH_GET_MAX] (backend/src/chain/chain.constants.ts:11-11). *)
Definition CLAIM_BATCH_GET_MAX : nat := 20.
(** Models [CLAIM_BATCH_SIZE] (backend/src/maintenance/vote-reconciliation.job.ts:18-18). *)
Definition CLAIM_BATCH_SIZE : nat := 50.

(** A field of a decoded claim. *)
Inductive field_value := FNumber (n : Z) | FText (s : string) | FOther.
Definition chain_claim := list (string * field_value).

Record Mismatch := { m_claimId : Z; indexedApprove : Z; indexedReject : Z; onChainApprove : Z; onChainReject : Z }.

(** Models [extractVoteCount] (backend/src/maintenance/vote-reconciliation.job.ts:154-162). *)
Definition extractVoteCount (claimData : chain_claim) (fieldName : string) : option Z :=
  match alist_get fieldName claimData with
  | Some (FNumber n) => Some n
  | Some (FText s) => parseInt10 s
  | _ => None
  end.

(** [get_claims_batch]: the contract's answer, one entry per id.
    Models [_simulateGetClaimsBatch] (backend/src/rpc/soroban.service.ts:896-921). *)
Definition simulateGetClaimsBatch {A} (get_claims_batch : list Z → result string (list A)) (contract_configured : bool) (ids : list Z) :
    result string (list A) :=
  if negb contract_configured then Throw "CONTRACT_NOT_INITIALIZED"
  else if (CLAIM_BATCH_GET_MAX <? length ids)%nat then Throw "CLAIM_BATCH_TOO_LARGE"
  else match ids with [] => Ok [] | _ => get_claims_batch ids end.

Section onchain.
(** The contract's answer to [get_claims_batch]: one entry per id, absent when there is no such claim. *)
Variable get_claims_batch : list Z → result string (list (option chain_claim)).
Variable contract_configured : bool.

(** One claim against the contract: the mismatch, if any, and whether it was checked. *)
Definition compare_claim (c : ClaimRow) (on_chain : option (option chain_claim)) : list Mismatch * Z :=
  match on_chain with
  | Some (Some data) =>
      let a := default 0 (extractVoteCount data "approve_votes") in
      let r := default 0 (extractVoteCount data "reject_votes") in
      (if negb (approveVotes c =? a) || negb (rejectVotes c =? r)
       then [{| m_claimId := c_id c; indexedApprove := approveVotes c; indexedReject := rejectVotes c;
                onChainApprove := a; onChainReject := r |}]
       else [], 1)
  | _ => ([], 0)
  end.

Definition add2 (x y : list Mismatch * Z) : list Mismatch * Z := ((x.1 ++ y.1)%list, x.2 + y.2).

Fixpoint compare_batch (batch : list ClaimRow) (answers : list (option chain_claim)) : list Mismatch * Z :=
  match batch with
  | [] => ([], 0)
  | c :: rest => add2 (compare_claim c (head answers)) (compare_batch rest (tail answers))
  end.

(** A batch that fails is logged and skipped.  One unit of fuel per batch. *)
Fixpoint reconcile_batches (fuel : nat) (l : list ClaimRow) : list Mismatch * Z :=
  match fuel, l with
  | S fuel', _ :: _ =>
      let batch := take CLAIM_BATCH_SIZE l in
      add2 (match simulateGetClaimsBatch get_claims_batch contract_configured (c_id <$> batch) with
            | Ok answers => compare_batch batch answers
            | Throw _ => ([], 0)
            end)
           (reconcile_batches fuel' (drop CLAIM_BATCH_SIZE l))
  | _, _ => ([], 0)
  end.

(** Models [VoteReconciliationResult] (backend/src/maintenance/vote-reconciliation.job.ts:20-32). *)
Record VoteReconciliationResult := { vr_totalChecked : Z; vr_mismatched : list Mismatch; vr_ok : bool }.

(** [l]: the rows that are not finalized, by id.
    Models [runReconciliation] (backend/src/maintenance/vote-reconciliation.job.ts:63-152). *)
Definition reconcileVotes (l : list ClaimRow) : VoteReconciliationResult :=
  let x := reconcile_batches (length l) l in
  {| vr_totalChecked := x.2; vr_mismatched := x.1; vr_ok := bool_decide (x.1 = []) |}.

(** *** What is checked *)

(** The contract knows every claim and answers in order. *)
Variable tallies : Z → Z * Z.
Definition on_chain (i : Z) : chain_claim := [("approve_votes", FNumber (tallies i).1); ("reject_votes", FNumber (tallies i).2)].
Hypothesis answers_in_order : ∀ ids, get_claims_batch ids = Ok ((λ i, Some (on_chain i)) <$> ids).

Definition drifted (c : ClaimRow) : bool :=
  negb (approveVotes c =? (tallies (c_id c)).1) || negb (rejectVotes c =? (tallies (c_id c)).2).
Definition mismatch_of (c : ClaimRow) : Mismatch :=
  {| m_claimId := c_id c; indexedApprove := approveVotes c; indexedReject := rejectVotes c;
     onChainApprove := (tallies (c_id c)).1; onChainReject := (tallies (c_id c)).2 |}.

Lemma compare_batch_spec l :
  compare_batch l ((λ c, Some (on_chain (c_id c))) <$> l) =
    (mismatch_of <$> filter (λ c, drifted c = true) l, Z.of_nat (length l)).
Proof.
  induction l as [|c l IH]; [done|]. cbn [compare_batch fmap list_fmap head tail]. rewrite IH, filter_cons.
  unfold compare_claim, add2. cbn [fst snd].
  assert (extractVoteCount (on_chain (c_id c)) "approve_votes" = Some (tallies (c_id c)).1) as -> by done.
  assert (extractVoteCount (on_chain (c_id c)) "reject_votes" = Some (tallies (c_id c)).2) as -> by done.
  cbn [default from_option id fst snd]. fold (drifted c).
  destruct (drifted c); [rewrite decide_True by done|rewrite decide_False by done]; cbn [fmap list_fmap length app]; f_equal; lia.
Qed.

(** The claims that are left when the full batches are taken away. *)
Definition last_batch (l : list ClaimRow) : list ClaimRow := drop (CLAIM_BATCH_SIZE * (length l / CLAIM_BATCH_SIZE)) l.

Lemma batch_answers l :
  contract_configured = true →
  match simulateGetClaimsBatch get_claims_batch contract_configured (c_id <$> l) with Ok answers => compare_batch l answers | Throw _ => ([], 0) end =
    if (CLAIM_BATCH_GET_MAX <? length l)%nat then ([], 0)
    else (mismatch_of <$> filter (λ c, drifted c = true) l, Z.of_nat (length l)).
Proof.
  intros Hc. unfold simulateGetClaimsBatch. rewrite Hc, length_fmap. cbn [negb]. destruct (_ <? _)%nat; [done|].
  rewrite <- compare_batch_spec. destruct l as [|c l]; [done|].
  change (c_id <$> c :: l) with (c_id c :: (c_id <$> l)). cbv iota. rewrite answers_in_order.
  change (c_id c :: (c_id <$> l)) with (c_id <$> c :: l). by rewrite <- list_fmap_compose.
Qed.

Lemma batches_spec fuel l :
  contract_configured = true → (length l ≤ fuel)%nat →
  reconcile_batches fuel l =
    if (CLAIM_BATCH_GET_MAX <? length (last_batch l))%nat then ([], 0)
    else (mismatch_of <$> filter (λ c, drifted c = true) (last_batch l), Z.of_nat (length (last_batch l))).
Proof.
  intros Hc. revert l. induction fuel as [|fuel IH]; intros l Hl; [by destruct l; [|cbn in Hl; lia]|].
  destruct (decide (l = [])) as [->|Hne]; [done|].
  assert (reconcile_batches (S fuel) l =
    add2 (match simulateGetClaimsBatch get_claims_batch contract_configured (c_id <$> take CLAIM_BATCH_SIZE l) with
          | Ok answers => compare_batch (take CLAIM_BATCH_SIZE l) answers | Throw _ => ([], 0) end)
         (reconcile_batches fuel (drop CLAIM_BATCH_SIZE l))) as -> by (by destruct l).
  rewrite batch_answers by done. rewrite length_take. unfold CLAIM_BATCH_SIZE at 1.
  assert (0 < length l)%nat by (destruct l; [done|cbn; lia]).
  rewrite IH by (rewrite length_drop; unfold CLAIM_BATCH_SIZE; lia).
  destruct (Nat.le_gt_cases 50 (length l)) as [Hbig|Hsmall].
  - rewrite Nat.min_l by lia. change (CLAIM_BATCH_GET_MAX <? 50)%nat with true. cbv iota.
    assert (last_batch (drop CLAIM_BATCH_SIZE l) = last_batch l) as ->; [|by destruct (_ <? _)%nat].
    unfold last_batch, CLAIM_BATCH_SIZE. rewrite length_drop, drop_drop. f_equal.
    replace (length l / 50)%nat with (S ((length l - 50) / 50))%nat; [lia|].
    replace (length l) with ((length l - 50) + 1 * 50)%nat at 2 by lia. rewrite Nat.div_add by lia. lia.
  - rewrite Nat.min_r by lia. unfold CLAIM_BATCH_SIZE. rewrite take_ge, (drop_ge l) by lia.
    assert (last_batch l = l) as -> by (unfold last_batch, CLAIM_BATCH_SIZE; by rewrite Nat.div_small by lia).
    change (last_batch []) with (@nil ClaimRow). cbn [length]. change (CLAIM_BATCH_GET_MAX <? 0)%nat with false. cbv iota.
    destruct (_ <? _)%nat; [done|]. unfold add2. cbn [fst snd fmap list_fmap filter list_filter]. rewrite app_nil_r. f_equal. lia.
Qed.

Lemma last_batch_length l : length (last_batch l) = (length l mod 50)%nat.
Proof.
  unfold last_batch, CLAIM_BATCH_SIZE. rewrite length_drop. pose proof (Nat.div_mod (length l) 50 ltac:(lia)). lia.
Qed.

(** The comparison with the contract misses almost every claim.  The job asks for fifty claims at a time and
    the RPC service refuses more than twenty, so every full batch fails and is skipped: of n open claims only the
    last n mod 50 can be checked, and none when that is more than twenty.  What is checked is reported exactly;
    what is skipped does not count, so with 21 to 50 open claims the result is ok whatever the tallies are. *)
Theorem vote_reconciliation_gap (l : list ClaimRow) :
  contract_configured = true →
  (length (last_batch l) = length l mod 50)%nat ∧
  reconcileVotes l =
    if (20 <? length l mod 50)%nat then {| vr_totalChecked := 0; vr_mismatched := []; vr_ok := true |}
    else {| vr_totalChecked := Z.of_nat (length l mod 50);
            vr_mismatched := mismatch_of <$> filter (λ c, drifted c = true) (last_batch l);
            vr_ok := bool_decide (Forall (λ c, drifted c = false) (last_batch l)) |}.
Proof.
  intros Hc. pose proof (last_batch_length l) as Hlast. split; [exact Hlast|].
  unfold reconcileVotes. rewrite batches_spec, Hlast by done. unfold CLAIM_BATCH_GET_MAX.
  destruct (20 <? length l mod 50)%nat; [done|]. cbn [fst snd]. f_equal. apply bool_decide_ext.
  generalize (last_batch l). intros l'. induction l' as [|c l' IH]; [done|]. rewrite filter_cons, Forall_cons.
  destruct (drifted c); [rewrite decide_True by done|rewrite decide_False by done]; [naive_solver|]. rewrite IH. naive_solver.
Qed.
End onchain.
End OnChain.

Module ClaimJobWitnesses.
Definition ledger_le (a b : ClaimRow) : Prop := createdAtLedger a ≤ createdAtLedger b.
#[local] Instance ledger_le_dec a b : Decision (ledger_le a b).
Proof. unfold ledger_le. apply _. Defined.
Definition by_ledger : list ClaimRow → list ClaimRow := merge_sort ledger_le.
Lemma by_ledger_perm l : by_ledger l ≡ₚ l.
Proof. apply merge_sort_Permutation. Qed.

Definition row (i : Z) (st : ClaimStatus) (approve created : Z) : ClaimRow :=
  {| c_id := i; creator := "GA"; c_status := st; isFinalized := false; approveVotes := approve; rejectVotes := 0;
     createdAtLedger := created; updatedAtLedger := created; txHash := None; deleted := false; appealsCount := 0;
     appealTxHash := None; appealOpenDeadlineLedger := None |}.
Definition table : jstate :=
  {| claims := [row 1 PENDING 0 500; row 2 PENDING 1 400; row 3 PENDING 2 200000]; votes := [{| v_claim := 2; v_vote := APPROVE |}];
     lastProcessedLedger := Some 130000; isRunning := false; sent := [] |}.
Definition approve (i : Z) : result string FinalizeClaimResult :=
  if i =? 2 then Ok {| f_txHash := "ab"; f_ledger := 130001; f_onChainStatus := "Approved" |} else Throw "timeout".
Definition refuse (i : Z) : result string FinalizeClaimResult := Throw "timeout".
Definition terminal (i : Z) : result string FinalizeClaimResult := Throw "HostError: ClaimAlreadyTerminal".

Lemma table_ids : NoDup (c_id <$> claims table).
Proof. apply (bool_decide_unpack (NoDup [1; 2; 3])). vm_compute. exact I. Qed.

(** A scan whose second statement fails. *)
Lemma scan_targets_witness :
  isRunning (rstate (world_of (runScan approve by_ledger) (RWorld table [false; true]))) = false.
Proof. exact (proj1 (scan_targets by_ledger by_ledger_perm approve (RWorld table [false; true]))). Defined.

Lemma scan_result_witness :
  ∃ s', runScan approve by_ledger (RWorld table []) = (Ok tt, RWorld s' []) ∧ sent s' = [2; 1] ∧
    c_status <$> claims s' = [PENDING; APPROVED; PENDING].
Proof.
  eexists. split; [exact (scan_result by_ledger by_ledger_perm approve table 130000 eq_refl eq_refl table_ids)|].
  split; vm_compute; reflexivity.
Defined.

Lemma failing_claims_block_witness :
  rstate (Nat.iter 3 (λ w, world_of (runScan refuse by_ledger) w) (RWorld table [])) = set_sent [2; 1; 2; 1; 2; 1] table.
Proof.
  rewrite (failing_claims_block by_ledger by_ledger_perm refuse table 130000 3 eq_refl eq_refl table_ids).
  - vm_compute. reflexivity.
  - intros c _. exists "timeout". split; reflexivity.
Defined.

Lemma finalized_status_lost_witness :
  ∃ s1 s2, processClaim approve 2 (RWorld table [false; true]) = (Ok Failed, RWorld s1 []) ∧
    processClaim terminal 2 (RWorld s1 []) = (Ok Skipped, RWorld s2 []) ∧ mark_finalized (row 2 PENDING 1 400) ∈ claims s2.
Proof.
  destruct (finalized_status_lost approve terminal table (row 2 PENDING 1 400)
    {| f_txHash := "ab"; f_ledger := 130001; f_onChainStatus := "Approved" |} "HostError: ClaimAlreadyTerminal" table_ids)
    as (s1 & s2 & H1 & H2 & H3 & _); [right; left|reflexivity..|vm_compute; reflexivity|].
  exists s1, s2. split; [exact H1|split; [exact H2|exact H3]].
Defined.

(** A hash left behind with the count 0 is kept by a run that reports ok. *)
Definition residual : jstate :=
  set_claims [{| c_id := 4; creator := "GA"; c_status := PENDING; isFinalized := false; approveVotes := 0; rejectVotes := 0;
     createdAtLedger := 1; updatedAtLedger := 1; txHash := None; deleted := false; appealsCount := 0;
     appealTxHash := Some "ef"; appealOpenDeadlineLedger := None |}] table.
Example residual_hash_stays :
  ∃ r, runReconciliation (RWorld residual []) = (Ok r, RWorld residual []) ∧ ok r = true.
Proof. eexists. split; vm_compute; reflexivity. Qed.

Lemma reconciliation_heals_witness :
  ∃ r, runReconciliation (RWorld table []) =
    (Ok r, RWorld (set_claims [row 1 PENDING 0 500; row 2 PENDING 1 400; row 3 PENDING 0 200000] table) []).
Proof.
  destruct (reconciliation_heals table table_ids) as (r & r' & Hr & _). exists r. rewrite Hr. vm_compute. reflexivity.
Defined.

Definition tallies (i : Z) : Z * Z := (0, 0).
Definition contract (ids : list Z) : result string (list (option OnChain.chain_claim)) :=
  Ok ((λ i, Some (OnChain.on_chain tallies i)) <$> ids).

Lemma vote_reconciliation_gap_witness :
  OnChain.reconcileVotes contract true (replicate 21 (row 7 PENDING 5 1)) =
    {| OnChain.vr_totalChecked := 0; OnChain.vr_mismatched := []; OnChain.vr_ok := true |}.
Proof.
  exact (proj2 (OnChain.vote_reconciliation_gap contract true tallies (λ ids, eq_refl) (replicate 21 (row 7 PENDING 5 1)) eq_refl)).
Defined.
End ClaimJobWitnesses.
