(* ===== verification/FileValidation.v ===== *)
(** * Uploaded files

    backend/src/ipfs/services/file-validation.service.ts: which files are
    accepted, the name they are stored under, the type read from their first
    bytes, and the removal of EXIF data from JPEG images; with the checks of
    claims/services/evidence-upload.service.ts.  A Buffer is a list of bytes;
    names are ASCII, so that length counts characters. *)

From stdpp Require Import base list strings.
From Stdlib Require Import ZArith Lia Ascii.
From S2P Require Import Prelude JsText.

Open Scope string_scope.
Open Scope Z_scope.

(** ** Metadata *)

(** Models [ALLOWED_MIME_TYPES] (backend/src/ipfs/services/file-validation.service.ts:30-44). *)
Definition ALLOWED_MIME_TYPES : list string :=
  ["image/jpeg"; "image/png"; "image/gif"; "image/webp"; "image/svg+xml"; "image/bmp"; "image/tiff"; "application/pdf"].

(** Models [DANGEROUS_EXTENSIONS] (backend/src/ipfs/services/file-validation.service.ts:49-62). *)
Definition DANGEROUS_EXTENSIONS : list string :=
  [".exe"; ".bat"; ".cmd"; ".msi"; ".dll"; ".so"; ".dylib";
   ".sh"; ".bash"; ".zsh"; ".fish"; ".ps1"; ".psm1";
   ".js"; ".mjs"; ".cjs"; ".ts"; ".tsx"; ".jsx";
   ".php"; ".phtml"; ".phar";
   ".py"; ".pyw"; ".pyc";
   ".rb"; ".rake"; ".gem";
   ".jar"; ".war"; ".ear";
   ".jsp"; ".jspx"; ".asp"; ".aspx";
   ".cgi"; ".pl"; ".perl";
   ".sql"; ".sqlite"; ".db";
   ".htaccess"; ".htpasswd";
   ".env"; ".config"; ".conf"].

(** [lastIndexOf] of a dot. *)
Fixpoint last_dot (s : string) : option nat :=
  match s with
  | "" => None
  | String c s' =>
      match last_dot s' with
      | Some n => Some (S n)
      | None => if bool_decide (c = "."%char) then Some O else None
      end
  end.

(** Models [getFileExtension] (backend/src/ipfs/services/file-validation.service.ts:226-232). *)
Definition getFileExtension (filename : string) : string :=
  match last_dot filename with
  | None | Some O => ""
  | Some lastDot => str_drop lastDot filename
  end.

(** Models [isAllowedMimeType] (backend/src/ipfs/services/file-validation.service.ts:179-181). *)
Definition isAllowedMimeType (mimeType : string) : bool := bool_decide (mimeType ∈ ALLOWED_MIME_TYPES).

(** Models [isDangerousExtension] (backend/src/ipfs/services/file-validation.service.ts:186-188). *)
Definition isDangerousExtension (extension : string) : bool := bool_decide (extension ∈ DANGEROUS_EXTENSIONS).

(** The fields of a file that validation reads; each may be missing.
    Models [parameter of validateFileMetadata] (backend/src/ipfs/services/file-validation.service.ts:114-119). *)
Record FileMetadata := { fieldname : option string; originalname : option string; mimetype : option string; size : option Z }.

Inductive file_error :=
  | FieldNameRequired | FileNameRequired | MimeTypeRequired | SizeRequired
  | TooSmall | TooLarge | TypeNotAllowed (m : string) | ExtensionNotAllowed (ext : string).

Section limits.
(** IPFS_MIN_FILE_SIZE, IPFS_MAX_FILE_SIZE and IPFS_STRIP_EXIF. *)
Variable minFileSize maxFileSize : Z.

(** The warning about a type that does not match the extension has no effect.
    Models [validateFileMetadata] (backend/src/ipfs/services/file-validation.service.ts:114-174). *)
Definition validateFileMetadata (file : FileMetadata) : result file_error () :=
  match truthy (fieldname file) with
  | None => Throw FieldNameRequired
  | Some _ =>
  match truthy (originalname file) with
  | None => Throw FileNameRequired
  | Some name =>
  if bool_decide (trim name = "") then Throw FileNameRequired else
  match truthy (mimetype file) with
  | None => Throw MimeTypeRequired
  | Some mime =>
  match size file with
  | None => Throw SizeRequired
  | Some n =>
      if n <? minFileSize then Throw TooSmall
      else if maxFileSize <? n then Throw TooLarge
      else if negb (isAllowedMimeType mime) then Throw (TypeNotAllowed mime)
      else
        let extension := toLowerCase (getFileExtension name) in
        if isDangerousExtension extension then Throw (ExtensionNotAllowed extension) else Ok tt
  end end end end.
End limits.

(** ** Names *)

(** Models [removeControlCharacters] (backend/src/ipfs/services/file-validation.service.ts:93-100). *)
Definition removeControlCharacters (value : string) : string :=
  str_filter (λ c, (32 <=? code c) && negb (code c =? 127)) value.

Definition is_sep (c : ascii) : bool := bool_decide (c ∈ ["/"; "\"]%char).

(** [filename.split(/[/\\]/).pop()]. *)
Fixpoint last_component (s : string) : string :=
  match s with
  | "" => ""
  | String c s' =>
      if str_forall (λ a, negb (is_sep a)) s' then (if is_sep c then s' else s) else last_component s'
  end.

(** [replace(/\.\./g, '')]. *)
Fixpoint remove_dotdot (s : string) : string :=
  match s with
  | "" => ""
  | String c s' =>
      match s' with
      | String d s'' => if bool_decide (c = "."%char ∧ d = "."%char) then remove_dotdot s'' else String c (remove_dotdot s')
      | "" => s
      end
  end.

(** The characters the second replacement removes. *)
Definition is_reserved (c : ascii) : bool :=
  bool_decide (c ∈ ["<"; ">"; ":"; "034"; "|"; "?"; "*"]%char).

Definition dots_dashes (s : string) : bool := str_forall (λ c, bool_decide (c ∈ ["."; "-"]%char)) s.

(** [name.slice(0, -n)]. *)
Definition slice_end (n : nat) (s : string) : string :=
  match n with O => "" | _ => str_take (String.length s - n) s end.

(** Models [sanitizeFilename] (backend/src/ipfs/services/file-validation.service.ts:193-221). *)
Definition sanitizeFilename (filename : string) : string :=
  if bool_decide (filename = "") then "unnamed"
  else
    let name := if bool_decide (last_component filename = "") then "unnamed" else last_component filename in
    let extension := getFileExtension name in
    let baseName := slice_end (String.length extension) name in
    let baseName := remove_dotdot baseName in
    let baseName := str_filter (λ c, negb (is_reserved c)) baseName in
    let baseName := removeControlCharacters baseName in
    let baseName := if (100 <? String.length baseName)%nat then str_take 100 baseName else baseName in
    let baseName := if bool_decide (baseName = "") || dots_dashes baseName then "file" else baseName in
    baseName +:+ extension.

(** ** Content *)

Definition is_byte (buffer : list Z) (i : nat) (b : Z) : bool := bool_decide (buffer !! i = Some b).

Fixpoint has_bytes (buffer : list Z) (i : nat) (bs : list Z) : bool :=
  match bs with [] => true | b :: bs' => is_byte buffer i b && has_bytes buffer (S i) bs' end.

(** Models [detectMimeType] (backend/src/ipfs/services/file-validation.service.ts:246-281). *)
Definition detectMimeType (buffer : list Z) : option string :=
  if has_bytes buffer 0 [0xFF; 0xD8; 0xFF] then Some "image/jpeg"
  else if has_bytes buffer 0 [0x89; 0x50; 0x4E; 0x47] then Some "image/png"
  else if has_bytes buffer 0 [0x47; 0x49; 0x46; 0x38] then Some "image/gif"
  else if has_bytes buffer 0 [0x25; 0x50; 0x44; 0x46] then Some "application/pdf"
  else if has_bytes buffer 0 [0x52; 0x49; 0x46; 0x46] && has_bytes buffer 8 [0x57; 0x45; 0x42; 0x50] then Some "image/webp"
  else if has_bytes buffer 0 [0x42; 0x4D] then Some "image/bmp"
  else None.

(** A byte as a number: [undefined] is 0 to the bit operators. *)
Definition byte_at (buffer : list Z) (i : nat) : Z := default 0 (buffer !! i).

Definition segmentLength (buffer : list Z) (i : nat) : Z :=
  Z.lor (Z.shiftl (byte_at buffer (i + 2)) 8) (byte_at buffer (i + 3)).

Definition EXIF : list Z := [0x45; 0x78; 0x69; 0x66; 0x00; 0x00].

Section strip.
(** The number of arguments the engine accepts in one call: [result.push(...rest)] throws a RangeError past it. *)
Variable max_arguments : nat.

(** The loop of [stripExifMetadata] from index [i] on; one unit of fuel per segment.  [None] is fuel exhausted,
    [Throw] the RangeError of the spread. *)
Fixpoint strip_loop (fuel : nat) (buffer : list Z) (i : nat) (acc : list Z) : option (result () (list Z)) :=
  match fuel with
  | O => None
  | S fuel' =>
      if (i <? length buffer - 1)%nat then
        if negb (is_byte buffer i 0xFF) then
          if (length (drop i buffer) <=? max_arguments)%nat then Some (Ok (acc ++ drop i buffer)%list) else Some (Throw tt)
        else
          let marker := byte_at buffer (i + 1) in
          let len := (2 + Z.to_nat (segmentLength buffer i))%nat in
          if (marker =? 0xE1) && has_bytes buffer (i + 4) EXIF then strip_loop fuel' buffer (i + len) acc
          else if marker =? 0xD9 then Some (Ok (acc ++ [0xFF; 0xD9])%list)
          else if marker =? 0xD8 then strip_loop fuel' buffer (i + 2) (acc ++ [0xFF; 0xD8])%list
          else strip_loop fuel' buffer (i + len) (acc ++ take len (drop i buffer))%list
      else Some (Ok acc)
  end.

(** The buffer to upload and whether it was stripped.
    Models [stripExifMetadata] (backend/src/ipfs/services/file-validation.service.ts:292-366). *)
Definition stripExifMetadata (stripExif : bool) (buffer : list Z) (mimeType : string) : option (list Z * bool) :=
  if negb stripExif || negb (bool_decide (mimeType = "image/jpeg")) then Some (buffer, false)
  else
    match strip_loop (S (length buffer)) buffer 2 [0xFF; 0xD8] with
    | Some (Ok acc) => Some (acc, bool_decide (length acc < length buffer)%nat)
    | Some (Throw _) => Some (buffer, false)
    | None => None
    end.
End strip.

(** ** JPEG files

    A file is SOI, segments (0xFF, a marker, a two-byte length that counts
    itself, the payload) and a tail: the scan data, or EOI and what follows. *)
Record segment := Seg { seg_marker : Z; payload : list Z }.

Definition seg_length (s : segment) : Z := 2 + Z.of_nat (length (payload s)).
Definition encode_segment (s : segment) : list Z :=
  ([0xFF; seg_marker s; seg_length s / 256; seg_length s mod 256] ++ payload s)%list.
Definition encode_segments (l : list segment) : list Z := concat (encode_segment <$> l).

(** APP1 segments begin with an identifier of six bytes or more. *)
Definition wf_segment (s : segment) : Prop :=
  seg_marker s ≠ 0xD8 ∧ seg_marker s ≠ 0xD9 ∧ seg_length s < 65536 ∧
  (seg_marker s = 0xE1 → (6 ≤ length (payload s))%nat).

Definition is_exif (s : segment) : bool := (seg_marker s =? 0xE1) && bool_decide (take 6 (payload s) = EXIF).

Inductive tail :=
  | Scan (data : list Z)
  | Eoi (rest : list Z).
Definition encode_tail (t : tail) : list Z :=
  match t with Scan data => data | Eoi rest => [0xFF; 0xD9] ++ rest end%list.

(** Scan data starts with a byte other than the marker prefix and ends with the two bytes of EOI. *)
Definition wf_tail (t : tail) : Prop :=
  match t with
  | Scan data => (2 ≤ length data)%nat ∧ head data ≠ Some 0xFF
  | Eoi _ => True
  end.

Definition jpeg (l : list segment) (t : tail) : list Z := ([0xFF; 0xD8] ++ encode_segments l ++ encode_tail t)%list.

(** What follows EOI is dropped. *)
Definition trimmed (t : tail) : tail := match t with Scan d => Scan d | Eoi _ => Eoi [] end.

Definition scan_length (t : tail) : nat := match t with Scan d => length d | Eoi _ => 0 end.

Lemma lor_bytes a b : 0 ≤ b < 256 → Z.lor (Z.shiftl a 8) b = a * 256 + b.
Proof.
  intros Hb. rewrite Z.shiftl_mul_pow2 by lia. change (2 ^ 8) with 256.
  assert (Z.land (a * 256) b = 0) as Hland.
  { apply Z.bits_inj'. intros n Hn. rewrite Z.land_spec, Z.bits_0.
    destruct (decide (n < 8)) as [Hlt|Hge].
    - change 256 with (2 ^ 8). by rewrite Z.mul_pow2_bits_low by lia.
    - rewrite <-(Z.mod_small b 256) by lia. change 256 with (2 ^ 8) at 2. rewrite Z.mod_pow2_bits_high by lia.
      apply andb_false_r. }
  rewrite <-Z.lxor_lor by exact Hland. symmetry. apply Z.add_nocarry_lxor. exact Hland.
Qed.

Lemma is_byte_app pre suf k b : is_byte (pre ++ suf) (length pre + k) b = is_byte suf k b.
Proof. unfold is_byte. rewrite lookup_app_r by lia. by replace (length pre + k - length pre)%nat with k by lia. Qed.

Lemma byte_at_app pre suf k : byte_at (pre ++ suf) (length pre + k) = byte_at suf k.
Proof. unfold byte_at. rewrite lookup_app_r by lia. by replace (length pre + k - length pre)%nat with k by lia. Qed.

Lemma has_bytes_app pre suf k bs : has_bytes (pre ++ suf) (length pre + k) bs = has_bytes suf k bs.
Proof.
  revert k. induction bs as [|b bs IH]; intros k; [done|]. cbn [has_bytes].
  by rewrite is_byte_app, <-Nat.add_succ_r, IH.
Qed.

(** The loop reads the buffer from its index on only. *)
Lemma segmentLength_app pre suf : segmentLength (pre ++ suf) (length pre) = segmentLength suf 0.
Proof. unfold segmentLength. by rewrite !byte_at_app. Qed.

Lemma segmentLength_encode s rest : wf_segment s → segmentLength (encode_segment s ++ rest) 0 = seg_length s.
Proof.
  intros (_ & _ & Hlen & _). unfold segmentLength, byte_at, encode_segment. cbn [app lookup list_lookup Nat.add default from_option id].
  assert (0 ≤ seg_length s) by (unfold seg_length; lia).
  rewrite lor_bytes by (apply Z.mod_pos_bound; lia). rewrite Z.mul_comm. symmetry. apply Z.div_mod. lia.
Qed.

Lemma length_encode_segment s : length (encode_segment s) = (2 + Z.to_nat (seg_length s))%nat.
Proof. unfold encode_segment, seg_length. rewrite length_app. cbn [length]. lia. Qed.

(** A comparison byte by byte is a comparison of sublists. *)
Lemma has_bytes_spec buffer i bs : has_bytes buffer i bs = bool_decide (take (length bs) (drop i buffer) = bs).
Proof.
  revert i. induction bs as [|b bs IH]; intros i; [done|]. cbn [has_bytes]. rewrite IH. unfold is_byte.
  cbn [length]. destruct (drop i buffer) as [|c rest] eqn:Hd.
  - assert (buffer !! i = None) as -> by (apply lookup_ge_None; rewrite <-Nat.sub_0_le, <-length_drop, Hd; done). done.
  - assert (buffer !! i = Some c) as -> by (rewrite <-(Nat.add_0_r i), <-lookup_drop, Hd; done).
    replace (drop (S i) buffer) with rest by (rewrite <-Nat.add_1_r, <-drop_drop, Hd; done).
    cbn [take]. repeat case_bool_decide; try done; congruence.
Qed.

Lemma has_bytes_exif s rest : wf_segment s → seg_marker s = 0xE1 →
  has_bytes (encode_segment s ++ rest) 4 EXIF = is_exif s.
Proof.
  intros (_ & _ & _ & Hl) Hm. specialize (Hl Hm). unfold is_exif. rewrite Hm, has_bytes_spec.
  cbn [Z.eqb Pos.eqb andb]. unfold encode_segment. rewrite <-app_assoc. change (drop 4 _) with (payload s ++ rest)%list. by rewrite take_app_le.
Qed.

Section strip_facts.
Context (max_arguments : nat).
Abbreviation strip_loop := (strip_loop max_arguments).

Lemma strip_segment fuel pre s rest acc : wf_segment s →
  strip_loop (S fuel) (pre ++ encode_segment s ++ rest) (length pre) acc =
  strip_loop fuel ((pre ++ encode_segment s) ++ rest) (length (pre ++ encode_segment s))
    (acc ++ if is_exif s then [] else encode_segment s).
Proof.
  intros Hwf. pose proof Hwf as (Hsoi & Heoi & _ & _). cbn [FileValidation.strip_loop].
  assert ((length pre <? length (pre ++ encode_segment s ++ rest) - 1)%nat = true) as ->.
  { apply Nat.ltb_lt. rewrite !length_app, length_encode_segment. lia. }
  rewrite <-(Nat.add_0_r (length pre)) at 1. rewrite is_byte_app.
  rewrite byte_at_app, has_bytes_app, segmentLength_app, segmentLength_encode by done.
  change (is_byte (encode_segment s ++ rest) 0 255) with true.
  change (byte_at (encode_segment s ++ rest) 1) with (seg_marker s). cbn [negb].
  replace (length pre + (2 + Z.to_nat (seg_length s)))%nat with (length (pre ++ encode_segment s))
    by (rewrite length_app, length_encode_segment; done).
  rewrite (app_assoc pre).
  assert (take (2 + Z.to_nat (seg_length s)) (drop (length pre) ((pre ++ encode_segment s) ++ rest)) = encode_segment s) as ->.
  { rewrite <-app_assoc, drop_app_length, <-length_encode_segment. apply take_app_length. }
  destruct (seg_marker s =? 0xE1) eqn:Hm; bool_prop.
  - rewrite has_bytes_exif by done. destruct (is_exif s); cbn [andb]; [by rewrite app_nil_r|].
    rewrite Hm. done.
  - assert (is_exif s = false) as -> by (unfold is_exif; by rewrite (proj2 (Z.eqb_neq _ _) Hm)).
    cbn [andb]. rewrite (proj2 (Z.eqb_neq _ 0xD9) Heoi), (proj2 (Z.eqb_neq _ 0xD8) Hsoi). done.
Qed.

(** What the loop returns at the tail. *)
Definition outcome (t : tail) (acc : list Z) : result () (list Z) :=
  if (scan_length t <=? max_arguments)%nat then Ok (acc ++ encode_tail (trimmed t))%list else Throw tt.

Lemma strip_tail fuel pre t acc : wf_tail t →
  strip_loop (S fuel) (pre ++ encode_tail t) (length pre) acc = Some (outcome t acc).
Proof.
  intros Ht. cbn [FileValidation.strip_loop].
  assert ((length pre <? length (pre ++ encode_tail t) - 1)%nat = true) as ->.
  { apply Nat.ltb_lt. rewrite length_app. destruct t; cbn in *; lia. }
  rewrite <-(Nat.add_0_r (length pre)) at 1. rewrite is_byte_app, byte_at_app, has_bytes_app, drop_app_length.
  unfold outcome. destruct t as [data|rest]; cbn [encode_tail trimmed scan_length].
  - destruct Ht as [Hl Hhd]. assert (is_byte data 0 255 = false) as ->.
    { apply bool_decide_eq_false_2. destruct data; cbn in *; congruence. }
    cbn [negb]. by case_match.
  - done.
Qed.

Lemma strip_loop_jpeg l t fuel pre acc : Forall wf_segment l → wf_tail t → (length l < fuel)%nat →
  strip_loop fuel (pre ++ encode_segments l ++ encode_tail t) (length pre) acc =
  Some (outcome t (acc ++ encode_segments (filter (λ s, is_exif s = false) l))).
Proof.
  intros Hl Ht. revert fuel pre acc. induction Hl as [|s l Hs Hl IH]; intros [|fuel] pre acc Hf; cbn [length] in Hf; [lia| |lia|].
  - rewrite app_nil_r. by apply strip_tail.
  - unfold encode_segments in *. cbn [fmap list_fmap concat]. rewrite <-app_assoc, strip_segment by done.
    rewrite IH by lia. rewrite filter_cons. do 2 f_equal.
    destruct (is_exif s); case_decide; try done; cbn [fmap list_fmap concat]; by rewrite ?app_nil_r, <-?app_assoc.
Qed.

Lemma length_encode_segments l : (length l ≤ length (encode_segments l))%nat.
Proof.
  induction l as [|s l IH]; [done|]. unfold encode_segments in *. cbn [fmap list_fmap concat length].
  rewrite length_app, length_encode_segment. lia.
Qed.

(** The loop advances, so one unit of fuel per byte is enough for every buffer. *)
Lemma strip_loop_total fuel buffer i acc : (length buffer - i < fuel)%nat → is_Some (strip_loop fuel buffer i acc).
Proof.
  revert i acc. induction fuel as [|fuel IH]; intros i acc Hf; [lia|]. cbn [FileValidation.strip_loop].
  destruct (i <? length buffer - 1)%nat eqn:Hi; [|by eexists]. apply Nat.ltb_lt in Hi.
  repeat case_match; first [by eexists | apply IH; lia].
Qed.
End strip_facts.

(** The whole file: the loop starts after SOI. *)
Lemma strip_jpeg max_arguments l t : Forall wf_segment l → wf_tail t →
  strip_loop max_arguments (S (length (jpeg l t))) (jpeg l t) 2 [0xFF; 0xD8] =
  Some (outcome max_arguments t ([0xFF; 0xD8] ++ encode_segments (filter (λ s, is_exif s = false) l))).
Proof.
  intros Hl Ht. unfold jpeg at 2. apply (strip_loop_jpeg max_arguments l t _ [0xFF; 0xD8]); [done..|].
  pose proof (length_encode_segments l). unfold jpeg. rewrite !length_app. lia.
Qed.

(** What is written never passes what was read. *)
Lemma strip_loop_length max_arguments fuel buffer i acc out :
  (length acc ≤ i)%nat → strip_loop max_arguments fuel buffer i acc = Some (Ok out) →
  (length out ≤ Nat.max (length buffer) (length acc))%nat.
Proof.
  revert i acc. induction fuel as [|fuel IH]; intros i acc Hi; cbn [strip_loop]; [done|].
  destruct (i <? length buffer - 1)%nat eqn:Hlt; [apply Nat.ltb_lt in Hlt|intros [= <-]; lia].
  repeat case_match; try done; intros Hrun;
    try (injection Hrun as <-; rewrite length_app, ?length_drop; cbn [length]; lia).
  - apply IH in Hrun; lia.
  - apply IH in Hrun; rewrite ?length_app in *; cbn [length] in *; lia.
  - apply IH in Hrun; rewrite ?length_app, ?length_take, ?length_drop in *; lia.
Qed.

(** ** Properties of the EXIF filter *)

Section exif.
Context (max_arguments : nat) (l : list segment) (t : tail).
Hypothesis Hl : Forall wf_segment l.
Hypothesis Ht : wf_tail t.


(** When the scan data does not fit in one call of [push], the RangeError is
    caught and the image is uploaded as it was, EXIF data included. *)
Theorem large_image_keeps_exif : (max_arguments < scan_length t)%nat →
  stripExifMetadata max_arguments true (jpeg l t) "image/jpeg" = Some (jpeg l t, false).
Proof.
  intros Hscan. unfold stripExifMetadata. cbn [negb orb]. rewrite bool_decide_eq_true_2 by done.
  cbn [negb]. rewrite strip_jpeg by done. unfold outcome. by rewrite (proj2 (Nat.leb_gt _ _) Hscan).
Qed.
End exif.

(** For every buffer, JPEG or not, the filter ends, and its answer is no
    longer than the buffer or the two bytes of SOI. *)
Theorem strip_terminates max_arguments stripExif buffer mimeType :
  ∃ out stripped, stripExifMetadata max_arguments stripExif buffer mimeType = Some (out, stripped) ∧
    (length out ≤ Nat.max (length buffer) 2)%nat.
Proof.
  unfold stripExifMetadata. case_match; [eexists _, _; split; [done|lia]|].
  destruct (strip_loop_total max_arguments (S (length buffer)) buffer 2 [0xFF; 0xD8] ltac:(lia)) as [[acc|[]] Hrun];
    rewrite Hrun; (eexists _, _; split; [done|]).
  - by apply strip_loop_length in Hrun.
  - lia.
Qed.

(** A first segment that claims to be longer than the file is copied with all that follows. *)
Lemma strip_overlong max_arguments image :
  take 2 image = [0xFF; 0xD8] → image !! 2%nat = Some 0xFF → image !! 3%nat = Some 0xFF → (4 ≤ length image)%nat →
  Z.of_nat (length image) ≤ segmentLength image 2 →
  stripExifMetadata max_arguments true image "image/jpeg" = Some (image, false).
Proof.
  intros Hsoi H2 H3 H4 Hseg. unfold stripExifMetadata. cbn [negb orb]. rewrite bool_decide_eq_true_2 by done.
  cbn [negb strip_loop]. assert ((2 <? length image - 1)%nat = true) as -> by (apply Nat.ltb_lt; lia).
  assert (is_byte image 2 0xFF = true) as -> by by apply bool_decide_eq_true_2.
  assert (byte_at image (2 + 1) = 0xFF) as -> by (unfold byte_at; cbn [Nat.add]; by rewrite H3).
  cbn [negb Z.eqb Pos.eqb andb].
  rewrite (take_ge (drop 2 image)) by (rewrite length_drop; lia). rewrite <-Hsoi, take_drop.
  assert (∀ fuel i, (length image ≤ i)%nat → strip_loop max_arguments (S fuel) image i image = Some (Ok image)) as Hend.
  { intros fuel i Hi. cbn [strip_loop]. by rewrite (proj2 (Nat.ltb_ge _ _)) by lia. }
  destruct (length image) as [|n] eqn:Hn; [lia|]. rewrite Hend by lia.
  by rewrite bool_decide_eq_false_2 by lia.
Qed.

(** A fill byte before a segment (the format allows any number of them) is
    taken for a marker, and the bytes after it for a length above 57600: an
    image below that size keeps its EXIF segment. *)
Theorem fill_byte_keeps_exif max_arguments p rest :
  let image := ([0xFF; 0xD8; 0xFF] ++ encode_segment (Seg 0xE1 (EXIF ++ p)) ++ rest)%list in
  Z.of_nat (length image) < 57600 →
  stripExifMetadata max_arguments true image "image/jpeg" = Some (image, false).
Proof.
  intros image Hlen. assert (Z.of_nat (length image) = 7 + Z.of_nat (length (EXIF ++ p)) + Z.of_nat (length rest)) as Hl.
  { subst image. rewrite !length_app, length_encode_segment. unfold seg_length. cbn [payload]. rewrite !length_app. cbn [length]. lia. }
  apply strip_overlong; [done..|lia|].
  assert (0 ≤ seg_length (Seg 225 (EXIF ++ p)) / 256 < 256) as Hb.
  { unfold seg_length. cbn [payload]. split; [apply Z.div_pos; lia|apply Z.div_lt_upper_bound; lia]. }
  change (segmentLength image 2) with (Z.lor (Z.shiftl 225 8) (seg_length (Seg 225 (EXIF ++ p)) / 256)).
  rewrite lor_bytes by done. lia.
Qed.

(** ** Properties of stored names *)

Definition no_sep (s : string) : bool := str_forall (λ a, negb (is_sep a)) s.

Lemma str_filter_forall (p q : ascii → bool) s : str_forall p s = true → str_forall p (str_filter q s) = true.
Proof.
  induction s as [|c s IH]; [done|]. cbn [str_forall str_filter]. intros [Hc Hs]%andb_true_iff.
  destruct (q c); cbn [str_forall]; rewrite ?Hc, IH; done.
Qed.

Lemma str_drop_forall p n s : str_forall p s = true → str_forall p (str_drop n s) = true.
Proof.
  intros Hs. pose proof (str_take_drop n s) as Htd. rewrite <-Htd, str_forall_app in Hs. by apply andb_true_iff in Hs as [_ ?].
Qed.

Lemma str_take_forall p n s : str_forall p s = true → str_forall p (str_take n s) = true.
Proof.
  intros Hs. pose proof (str_take_drop n s) as Htd. rewrite <-Htd, str_forall_app in Hs. by apply andb_true_iff in Hs as [? _].
Qed.

Lemma remove_dotdot_forall p s : str_forall p s = true → str_forall p (remove_dotdot s) = true.
Proof.
  assert (∀ n s, (String.length s < n)%nat → str_forall p s = true → str_forall p (remove_dotdot s) = true) as Hn.
  { clear s. induction n as [|n IH]; intros s Hlen; [lia|]. destruct s as [|c [|d s]]; [done..|].
    cbn [str_forall String.length remove_dotdot] in *. intros [Hc [Hd Hs]%andb_true_iff]%andb_true_iff.
    case_bool_decide; [apply IH; [lia|done]|].
    change (p c && str_forall p (remove_dotdot (String d s)) = true). rewrite Hc. apply IH; [cbn; lia|].
    cbn. by rewrite Hd. }
  apply (Hn (S (String.length s))). lia.
Qed.

Lemma last_component_no_sep s : no_sep (last_component s) = true.
Proof.
  unfold no_sep. induction s as [|c s IH]; [done|]. cbn [last_component].
  destruct (str_forall _ s) eqn:Hs; [|exact IH]. destruct (is_sep c) eqn:Hc; [exact Hs|].
  cbn [str_forall]. by rewrite Hc.
Qed.

Lemma slice_end_forall p n s : str_forall p s = true → str_forall p (slice_end n s) = true.
Proof. destruct n; [done|]. apply str_take_forall. Qed.

Lemma last_dot_none s : avoids "." s = true → last_dot s = None.
Proof.
  unfold avoids. induction s as [|c s IH]; [done|]. cbn [str_forall last_dot]. intros [Hc Hs]%andb_true_iff.
  rewrite (IH Hs). apply negb_true_iff in Hc. by rewrite Hc.
Qed.

Lemma last_dot_app a e : avoids "." e = true → last_dot (a +:+ String "." e) = Some (String.length a).
Proof.
  intros He. induction a as [|c a IH].
  - change (last_dot (String "." e) = Some 0%nat). cbn [last_dot]. by rewrite (last_dot_none e He).
  - change (last_dot (String c (a +:+ String "." e)) = Some (S (String.length a))). cbn [last_dot]. by rewrite IH.
Qed.

(** An extension is empty or begins with its only dot. *)
Lemma extension_shape s : getFileExtension s = "" ∨ ∃ e, getFileExtension s = String "." e ∧ avoids "." e = true.
Proof.
  assert (∀ s n, last_dot s = Some n → ∃ e, str_drop n s = String "." e ∧ avoids "." e = true) as Hld.
  { clear s. induction s as [|c s IH]; intros n; cbn [last_dot]; [done|].
    destruct (last_dot s) as [m|] eqn:Hm.
    - intros [= <-]. cbn [str_drop]. by apply IH.
    - case_bool_decide; [|done]. intros [= <-]. subst. exists s. split; [done|]. clear IH.
      unfold avoids. induction s as [|c s IH]; [done|]. cbn [last_dot str_forall] in *.
      destruct (last_dot s); [done|]. case_bool_decide; [done|]. cbn. by apply IH. }
  unfold getFileExtension. destruct (last_dot s) as [[|n]|] eqn:Hd; [by left| |by left].
  right. by apply Hld.
Qed.

Section sanitize.
Context (filename : string).

(** The part of the stored name before the extension. *)
Lemma sanitized_shape : ∃ b e, sanitizeFilename filename = b +:+ e ∧ b ≠ "" ∧ dots_dashes b = false ∧
  no_sep b = true ∧ no_sep e = true ∧ (String.length b ≤ 100)%nat.
Proof.
  unfold sanitizeFilename. case_bool_decide; [by exists "unnamed", ""; split_and!; try done; cbn; lia|].
  set (name := if bool_decide _ then _ else _).
  assert (no_sep name = true) as Hname by (subst name; case_bool_decide; [done|apply last_component_no_sep]).
  clearbody name. set (b0 := removeControlCharacters _).
  assert (no_sep b0 = true) as Hb0.
  { apply str_filter_forall, str_filter_forall, remove_dotdot_forall, slice_end_forall. exact Hname. }
  clearbody b0. set (b1 := if (100 <? _)%nat then _ else _).
  assert (no_sep b1 = true ∧ (String.length b1 ≤ 100)%nat) as [Hb1 Hlen].
  { subst b1. case_match eqn:Hlt; [split; [by apply str_take_forall|rewrite length_str_take; lia]|].
    apply Nat.ltb_ge in Hlt. done. }
  clearbody b1. eexists _, (getFileExtension name). split; [reflexivity|].
  assert (no_sep (getFileExtension name) = true).
  { unfold getFileExtension. destruct (last_dot name) as [[|n]|]; [done| |done]. by apply str_drop_forall. }
  destruct (bool_decide (b1 = "") || dots_dashes b1) eqn:Hb; [split_and!; try done; cbn; lia|].
  apply orb_false_iff in Hb as [Hne Hdd]. apply bool_decide_eq_false in Hne. done.
Qed.

(** Whatever name a client sends, the stored name is one path component: it
    has no separator, is not empty, and is neither the current nor the parent
    directory. *)
Theorem sanitized_component :
  no_sep (sanitizeFilename filename) = true ∧ sanitizeFilename filename ∉ [""; "."; ".."].
Proof.
  destruct sanitized_shape as (b & e & -> & Hne & Hdd & Hb & He & _). split.
  { unfold no_sep in *. by rewrite str_forall_app, Hb, He. }
  destruct b as [|c b]; [done|].
  intros Hin. assert (dots_dashes (String c b +:+ e) = true) as Hd.
  { repeat (apply elem_of_cons in Hin as [->|Hin]; [try done|]). by apply elem_of_nil in Hin. }
  unfold dots_dashes in *. rewrite str_forall_app in Hd. apply andb_true_iff in Hd as [Hd _]. congruence.
Qed.

(** A name without an extension is replaced by a generic one: the base name
    is cut by an empty extension, which cuts everything. *)
Theorem name_without_extension_lost :
  filename ≠ "" → last_component filename ≠ "" → avoids "." (last_component filename) = true →
  sanitizeFilename filename = "file".
Proof.
  intros Hne Hlc Hdot. unfold sanitizeFilename.
  rewrite (bool_decide_eq_false_2 (filename = "")), (bool_decide_eq_false_2 (last_component filename = "")) by done.
  unfold getFileExtension. by rewrite last_dot_none.
Qed.
End sanitize.

(** The extension is not cleaned: control characters in it reach the stored name. *)
Theorem extension_not_sanitized e : avoids "." e = true → no_sep e = true →
  sanitizeFilename ("photo." +:+ e) = "photo." +:+ e.
Proof.
  intros He Hs. assert (last_component ("photo." +:+ e) = "photo." +:+ e) as Hlc.
  { change ("photo." +:+ e) with (String "p" ("hoto." +:+ e)). cbn [last_component].
    assert (str_forall (λ a, negb (is_sep a)) ("hoto." +:+ e) = true) as -> by (rewrite str_forall_app; exact Hs). done. }
  pose proof (last_dot_app "photo" e He : last_dot ("photo." +:+ e) = Some 5%nat) as Hld.
  unfold sanitizeFilename. rewrite Hlc, (bool_decide_eq_false_2 ("photo." +:+ e = "")) by done.
  unfold getFileExtension. rewrite Hld. change (str_drop 5 ("photo." +:+ e)) with ("." +:+ e).
  assert (slice_end (String.length ("." +:+ e)) ("photo." +:+ e) = "photo") as ->; [|done].
  change (str_take (6 + String.length e - S (String.length e)) ("photo." +:+ e) = "photo").
  by replace (6 + String.length e - S (String.length e))%nat with 5%nat by lia.
Qed.

(** ** Properties of accepted files *)

(** A file passes exactly when every field is present, its size is within the
    limits, its type allowed and its extension, if any, not dangerous. *)
Theorem validate_exact minFileSize maxFileSize file :
  validateFileMetadata minFileSize maxFileSize file = Ok tt ↔
  ∃ field name mime n,
    fieldname file = Some field ∧ field ≠ "" ∧ originalname file = Some name ∧ trim name ≠ "" ∧
    mimetype file = Some mime ∧ mime ∈ ALLOWED_MIME_TYPES ∧
    size file = Some n ∧ minFileSize ≤ n ≤ maxFileSize ∧
    toLowerCase (getFileExtension name) ∉ DANGEROUS_EXTENSIONS.
Proof.
  unfold validateFileMetadata, isAllowedMimeType, isDangerousExtension, truthy. split.
  - intros Hok. repeat case_match; simplify_eq/=; bool_prop; repeat case_bool_decide; simplify_eq/=; try done.
    eexists _, _, _, _. split_and!; done || lia.
  - intros (field & name & mime & n & -> & Hf & -> & Hname & -> & Hmime & -> & Hn & Hext).
    assert (name ≠ "") by (intros ->; done). assert (mime ≠ "") by (intros ->; revert Hmime; unfold ALLOWED_MIME_TYPES; not_in_list).
    destruct field; [done|]. destruct name as [|c name]; [done|]. destruct mime as [|d mime]; [done|].
    rewrite (bool_decide_eq_false_2 (trim _ = "")) by done.
    rewrite (proj2 (Z.ltb_ge n minFileSize)), (proj2 (Z.ltb_ge maxFileSize n)) by lia.
    by rewrite bool_decide_eq_true_2, bool_decide_eq_false_2 by done.
Qed.

Module FileWitnesses.
Definition l1 : list segment := [Seg 0xE0 [0x4A; 0x46]; Seg 0xE1 (EXIF ++ [1; 2; 3]); Seg 0xDA [1]].
Definition t1 : tail := Scan [0x11; 0xFF; 0x00; 0xFF; 0xD9].

Lemma l1_wf : Forall wf_segment l1.
Proof.
  repeat (apply List.Forall_cons; [unfold wf_segment, seg_length; cbn; split_and!; try done; intros; try done; lia|]).
  apply List.Forall_nil.
Defined.

Lemma t1_wf : wf_tail t1.
Proof. cbn. split; [lia|done]. Defined.


Example large_image_keeps_exif_witness :
  stripExifMetadata 4 true (jpeg l1 t1) "image/jpeg" = Some (jpeg l1 t1, false).
Proof. apply (large_image_keeps_exif 4 l1 t1 l1_wf t1_wf). cbn. lia. Defined.

Example fill_byte_keeps_exif_witness :
  stripExifMetadata 1000 true ([0xFF; 0xD8; 0xFF] ++ encode_segment (Seg 0xE1 (EXIF ++ [9])) ++ [0xFF; 0xD9]) "image/jpeg" =
  Some ([0xFF; 0xD8; 0xFF] ++ encode_segment (Seg 0xE1 (EXIF ++ [9])) ++ [0xFF; 0xD9], false)%list.
Proof. apply (fill_byte_keeps_exif 1000 [9] [0xFF; 0xD9]). cbn. lia. Defined.

(** Names of the list of dangerous extensions that no name has: a leading dot starts no extension. *)
Example dotfiles_pass :
  validateFileMetadata 1 100 {| fieldname := Some "file"; originalname := Some ".htaccess";
                                mimetype := Some "image/png"; size := Some 10 |} = Ok tt.
Proof. reflexivity. Qed.
End FileWitnesses.
