(* ===== verification/Ipfs.v ===== *)
(** * Evidence on IPFS

    backend/src/ipfs/services/ipfs-provider-chain.service.ts (an upload tries
    the healthy providers in order; failures and health checks move a provider
    in and out of the chain), idempotency.service.ts and ipfs.service.ts of the
    same directory (the upload as a whole).  The providers are a parameter:
    the outcome of the n-th call made to any of them. *)

From stdpp Require Import base relations gmap list strings sorting.
From Stdlib Require Import ZArith Lia Ascii.
From S2P Require Import Prelude JsText Redis FileValidation.

Open Scope string_scope.
Open Scope Z_scope.

(** ** The chain and its health records *)

(** Models [ProviderHealthRecord] (backend/src/ipfs/services/ipfs-provider-chain.service.ts:16-22). *)
Record ProviderHealthRecord := {
  healthy : bool; lastCheckedAt : Z; lastError : option string; consecutiveFailures : Z }.

(** Models [IpfsUploadResult] (backend/src/ipfs/interfaces/ipfs-provider.interface.ts:11-22). *)
Record IpfsUploadResult := { cid : string; up_size : Z; up_mimeType : string }.

(** Models [ProviderChainUploadResult] (backend/src/ipfs/services/ipfs-provider-chain.service.ts:24-29). *)
Record ProviderChainUploadResult := { upload_result : IpfsUploadResult; providerName : string; fallbackCount : Z }.

(** The service's fields, with the number of calls made to providers so far.
    Models [IpfsProviderChainService] (backend/src/ipfs/services/ipfs-provider-chain.service.ts:32-43). *)
Record chain := Chain { providers : list string; healthRecords : gmap string ProviderHealthRecord; provider_calls : nat }.

Inductive chain_error := AllUnhealthy | AllFailed.

(** What a provider offers: its name comes first; [exists] and [unpin] are optional. *)
Record provider_api := {
  api_upload : nat → string → result string IpfsUploadResult;
  api_isHealthy : nat → string → result string bool;
  api_exists : string → option (nat → result string bool);
  api_unpin : string → option (nat → result string bool) }.

Section chain.
Context (api : provider_api) (maxConsecutiveFailures now : Z).
Abbreviation MI A := (M chain chain_error A).

Definition set_record (name : string) (r : ProviderHealthRecord) (c : chain) : chain :=
  Chain (providers c) (<[name := r]> (healthRecords c)) (provider_calls c).

(** [const record = this.healthRecords.get(name); if (record) { ... }]. *)
Definition with_record (name : string) (f : ProviderHealthRecord → ProviderHealthRecord) (c : chain) : chain :=
  match healthRecords c !! name with Some r => set_record name (f r) c | None => c end.

(** Models [setProviders] (backend/src/ipfs/services/ipfs-provider-chain.service.ts:56-70). *)
Definition setProviders (names : list string) (c : chain) : chain :=
  foldl (λ c name, match healthRecords c !! name with
                   | Some _ => c
                   | None => set_record name {| healthy := true; lastCheckedAt := now; lastError := None; consecutiveFailures := 0 |} c
                   end) (Chain names (healthRecords c) (provider_calls c)) names.

(** Models [getHealthyProviders] (backend/src/ipfs/services/ipfs-provider-chain.service.ts:187-192). *)
Definition getHealthyProviders (c : chain) : list string :=
  filter (λ name, default true (healthy <$> healthRecords c !! name) = true) (providers c).

(** Models [getPrimaryProviderName] (backend/src/ipfs/services/ipfs-provider-chain.service.ts:204-207). *)
Definition getPrimaryProviderName (c : chain) : string := default "none" (head (getHealthyProviders c)).

(** The record after a successful upload.
    Models [upload, success] (backend/src/ipfs/services/ipfs-provider-chain.service.ts:97-101). *)
Definition note_success (r : ProviderHealthRecord) : ProviderHealthRecord :=
  {| healthy := healthy r; lastCheckedAt := lastCheckedAt r; lastError := lastError r; consecutiveFailures := 0 |}.

(** The record after a failed one.
    Models [upload, failure] (backend/src/ipfs/services/ipfs-provider-chain.service.ts:122-133). *)
Definition note_failure (message : string) (r : ProviderHealthRecord) : ProviderHealthRecord :=
  let failures := consecutiveFailures r + 1 in
  if maxConsecutiveFailures <=? failures then
    {| healthy := false; lastCheckedAt := lastCheckedAt r; lastError := Some message; consecutiveFailures := failures |}
  else {| healthy := healthy r; lastCheckedAt := lastCheckedAt r; lastError := lastError r; consecutiveFailures := failures |}.

(** One call to a provider. *)
Definition call_provider {A} (f : nat → result string A) : M chain string A := λ c,
  (f (provider_calls c), Chain (providers c) (healthRecords c) (S (provider_calls c))).

Definition modify {E} (f : chain → chain) : M chain E () := λ c, (Ok tt, f c).

(** The loop of [upload] over the healthy providers.
    Models [upload, loop] (backend/src/ipfs/services/ipfs-provider-chain.service.ts:92-137). *)
Fixpoint upload_loop (ps : list string) (fallbackCount : Z) : MI ProviderChainUploadResult :=
  match ps with
  | [] => throw AllFailed
  | name :: rest =>
      try_catch
        (let* result := call_provider (λ n, api_upload api n name) in
         do* modify (with_record name note_success) in
         ret {| upload_result := result; providerName := name; fallbackCount := fallbackCount |})
        (λ message,
           do* modify (with_record name (note_failure message)) in
           upload_loop rest (fallbackCount + 1))
  end.

(** Models [upload] (backend/src/ipfs/services/ipfs-provider-chain.service.ts:76-142). *)
Definition upload : MI ProviderChainUploadResult :=
  let* healthyProviders := λ c, (Ok (getHealthyProviders c), c) in
  match healthyProviders with
  | [] => throw AllUnhealthy
  | _ => upload_loop healthyProviders 0
  end.

(** The loop shared by [exists] and [unpin]: the first provider that offers the call and answers true. *)
Fixpoint first_true (offers : string → option (nat → result string bool)) (ps : list string) : MI (option string) :=
  match ps with
  | [] => ret None
  | name :: rest =>
      match offers name with
      | None => first_true offers rest
      | Some f =>
          let* found := try_catch (call_provider f) (λ _, ret false) in
          if (found : bool) then ret (Some name) else first_true offers rest
      end
  end.

(** Models [exists] (backend/src/ipfs/services/ipfs-provider-chain.service.ts:147-162). *)
Definition exists_cid : MI (option string) :=
  let* ps := λ c, (Ok (getHealthyProviders c), c) in first_true (api_exists api) ps.

(** Models [unpin] (backend/src/ipfs/services/ipfs-provider-chain.service.ts:167-182). *)
Definition unpin : MI (option string) :=
  let* ps := λ c, (Ok (getHealthyProviders c), c) in first_true (api_unpin api) ps.

(** The record after a health check that answered, or threw.
    Models [runHealthChecks, record] (backend/src/ipfs/services/ipfs-provider-chain.service.ts:217-241). *)
Definition note_health (o : result string bool) (r : ProviderHealthRecord) : ProviderHealthRecord :=
  match o with
  | Ok true => {| healthy := true; lastCheckedAt := now; lastError := None; consecutiveFailures := 0 |}
  | Ok false => {| healthy := false; lastCheckedAt := now; lastError := Some "Health check returned false";
                   consecutiveFailures := consecutiveFailures r |}
  | Throw message => {| healthy := false; lastCheckedAt := now; lastError := Some message;
                        consecutiveFailures := consecutiveFailures r |}
  end.

(** Models [runHealthChecks] (backend/src/ipfs/services/ipfs-provider-chain.service.ts:212-243). *)
Definition runHealthChecks : MI () :=
  let* ps := λ c, (Ok (providers c), c) in
  for_each ps (λ name c,
    match healthRecords c !! name with
    | None => (Ok tt, c)
    | Some _ =>
        let '(o, c1) := call_provider (λ n, api_isHealthy api n name) c in
        (Ok tt, with_record name (note_health o) c1)
    end).
End chain.

(** ** Interleavings

    Uploads and health checks run concurrently; between two awaits the code
    does one of these steps. *)
Inductive event :=
  | Uploaded (name : string)
  | UploadFailed (name message : string)
  | Checked (name : string) (o : result string bool)
  | Configured (names : list string)
  | Asked.

Section events.
Context (api : provider_api) (maxConsecutiveFailures now : Z).

Definition bump (c : chain) : chain := Chain (providers c) (healthRecords c) (S (provider_calls c)).

(** What an event does; [Asked] is a call whose outcome changes no record. *)
Definition apply_event (c : chain) (ev : event) : chain :=
  match ev with
  | Uploaded name => with_record name note_success (bump c)
  | UploadFailed name message => with_record name (note_failure maxConsecutiveFailures message) (bump c)
  | Checked name o =>
      match healthRecords c !! name with None => c | Some _ => with_record name (note_health now o) (bump c) end
  | Configured names => setProviders now names c
  | Asked => bump c
  end.

(** A provider is in the chain only while it has failed fewer times in a row than the limit. *)
Definition record_ok (r : ProviderHealthRecord) : Prop :=
  0 ≤ consecutiveFailures r ∧ (healthy r = true → consecutiveFailures r < maxConsecutiveFailures).
Definition chain_ok (c : chain) : Prop := map_Forall (λ _ r, record_ok r) (healthRecords c).

Lemma with_record_ok name f c :
  (∀ r, record_ok r → record_ok (f r)) → chain_ok c → chain_ok (with_record name f c).
Proof.
  intros Hf Hc. unfold with_record. destruct (healthRecords c !! name) as [r|] eqn:Hr; [|done].
  apply map_Forall_insert_2; [|done]. apply Hf. exact (Hc name r Hr).
Qed.

Hypothesis Hmax : 0 < maxConsecutiveFailures.

Lemma setProviders_ok names c : chain_ok c → chain_ok (setProviders now names c).
Proof.
  intros Hc. unfold setProviders. generalize (Chain names (healthRecords c) (provider_calls c)) (Hc : chain_ok (Chain names (healthRecords c) (provider_calls c))).
  clear Hc c. induction names as [|name names IH]; intros c Hc; [done|].
  cbn [foldl]. apply IH. destruct (healthRecords c !! name); [done|].
  apply map_Forall_insert_2; [|done]. split; cbn; lia.
Qed.

Lemma apply_event_ok c ev : chain_ok c → chain_ok (apply_event c ev).
Proof.
  intros Hc. destruct ev as [name|name message|name o|names|]; cbn [apply_event].
  - apply with_record_ok; [|done]. intros r [? ?]. split; cbn; lia.
  - apply with_record_ok; [|done]. intros r [? ?]. unfold note_failure. case_match; bool_prop; split; cbn in *; naive_solver lia.
  - destruct (healthRecords c !! name); [|done]. apply with_record_ok; [|done].
    intros r [? ?]. destruct o as [[]|]; split; cbn; done || lia.
  - by apply setProviders_ok.
  - done.
Qed.

(** The methods are sequences of such steps. *)
Lemma upload_loop_events ps k c : ∃ evs, world_of (upload_loop api maxConsecutiveFailures ps k) c = foldl apply_event c evs.
Proof.
  revert k c. induction ps as [|name ps IH]; intros k c; [by exists []|].
  unfold world_of in *. cbn [upload_loop]. unfold try_catch, bind, call_provider, modify, ret.
  destruct (api_upload api (provider_calls c) name) as [r|message]; [by exists [Uploaded name]|].
  edestruct IH as [evs Hevs]. exists (UploadFailed name message :: evs). cbn [foldl apply_event]. exact Hevs.
Qed.

Lemma runHealthChecks_events c : ∃ evs, world_of (runHealthChecks api now) c = foldl apply_event c evs.
Proof.
  unfold runHealthChecks, world_of, bind. cbn -[for_each]. generalize (providers c) as ps. intros ps. revert c.
  induction ps as [|name ps IH]; intros c; [by exists []|]. cbn [for_each]. unfold bind.
  destruct (healthRecords c !! name) as [r|] eqn:Hr.
  - unfold call_provider. edestruct IH as [evs Hevs].
    exists (Checked name (api_isHealthy api (provider_calls c) name) :: evs). cbn [foldl apply_event]. rewrite Hr. exact Hevs.
  - edestruct IH as [evs Hevs]. exists evs. exact Hevs.
Qed.
End events.

Section chain_properties.
Context (api : provider_api) (maxConsecutiveFailures now : Z).

(** The calls to the providers [ps], the first being call number [n], all fail with the given messages. *)
Fixpoint all_fail (n : nat) (ps msgs : list string) : Prop :=
  match ps, msgs with
  | [], [] => True
  | name :: ps', msg :: msgs' => api_upload api n name = Throw msg ∧ all_fail (S n) ps' msgs'
  | _, _ => False
  end.

Lemma upload_loop_spec ps k c :
  let n := provider_calls c in
  let run := upload_loop api maxConsecutiveFailures ps k c in
  (∃ before name after msgs r,
     ps = before ++ name :: after ∧ all_fail n before msgs ∧ api_upload api (n + length before) name = Ok r ∧
     run = (Ok {| upload_result := r; providerName := name; fallbackCount := k + Z.of_nat (length before) |},
            foldl (apply_event maxConsecutiveFailures now) c (zip_with UploadFailed before msgs ++ [Uploaded name])))%list ∨
  (∃ msgs, all_fail n ps msgs ∧
     run = (Throw AllFailed, foldl (apply_event maxConsecutiveFailures now) c (zip_with UploadFailed ps msgs))).
Proof.
  revert k c. induction ps as [|name ps IH]; intros k c n run; [right; by exists []|].
  subst run. cbn [upload_loop]. unfold try_catch, bind, call_provider, modify, ret. fold n.
  destruct (api_upload api n name) as [r|msg] eqn:Hup.
  - left. exists [], name, ps, [], r. cbn [length]. rewrite Nat.add_0_r, Z.add_0_r. done.
  - pose proof (IH (k + 1) (apply_event maxConsecutiveFailures now c (UploadFailed name msg))) as IHk.
    assert (provider_calls (apply_event maxConsecutiveFailures now c (UploadFailed name msg)) = S n) as Hn.
    { cbn [apply_event]. unfold with_record. by case_match. }
    cbv zeta in IHk. rewrite Hn in IHk.
    destruct IHk as [(before & nm & after & msgs & r & -> & Hfail & Hok & Hrun)|(msgs & Hfail & Hrun)].
    + left. exists (name :: before), nm, after, (msg :: msgs), r. split_and!; [done|done| |].
      * cbn [length]. by rewrite Nat.add_succ_r.
      * cbn [length zip_with app foldl]. rewrite Nat2Z.inj_succ.
        replace (k + Z.succ (Z.of_nat (length before))) with (k + 1 + Z.of_nat (length before)) by lia. exact Hrun.
    + right. exists (msg :: msgs). split; [done|]. exact Hrun.
Qed.

(** An upload asks the healthy providers in order of priority and nobody
    else: the answer is that of the first one that succeeds, with the number
    of those that failed before it; it is an error exactly when none is
    healthy or all fail.  The records change by those outcomes only. *)
Theorem upload_exact c :
  let n := provider_calls c in
  match upload api maxConsecutiveFailures c with
  | (Ok a, c') => ∃ before after msgs,
      getHealthyProviders c = before ++ providerName a :: after ∧ all_fail n before msgs ∧
      api_upload api (n + length before) (providerName a) = Ok (upload_result a) ∧
      fallbackCount a = Z.of_nat (length before) ∧
      c' = foldl (apply_event maxConsecutiveFailures now) c (zip_with UploadFailed before msgs ++ [Uploaded (providerName a)])
  | (Throw AllUnhealthy, c') => getHealthyProviders c = [] ∧ c' = c
  | (Throw AllFailed, c') => getHealthyProviders c ≠ [] ∧ ∃ msgs, all_fail n (getHealthyProviders c) msgs ∧
      c' = foldl (apply_event maxConsecutiveFailures now) c (zip_with UploadFailed (getHealthyProviders c) msgs)
  end%list.
Proof.
  intros n. unfold upload, bind. destruct (getHealthyProviders c) as [|p ps] eqn:Hps; [done|].
  destruct (upload_loop_spec (p :: ps) 0 c) as [(before & name & after & msgs & r & -> & Hf & Ho & ->)|(msgs & Hf & ->)].
  - exists before, after, msgs. done.
  - split; [done|]. by exists msgs.
Qed.

(** For every interleaving of uploads, health checks and configurations, a
    provider that has failed as often as the limit is out of the chain. *)
Theorem failing_provider_excluded c evs name r :
  0 < maxConsecutiveFailures → chain_ok maxConsecutiveFailures c →
  let c' := foldl (apply_event maxConsecutiveFailures now) c evs in
  healthRecords c' !! name = Some r → maxConsecutiveFailures ≤ consecutiveFailures r →
  name ∉ getHealthyProviders c'.
Proof.
  intros Hmax Hc c' Hr Hf. assert (chain_ok maxConsecutiveFailures c') as Hc'.
  { subst c'. clear Hr. revert c Hc. induction evs as [|ev evs IH]; intros c Hc; [done|]. cbn [foldl]. by apply IH, apply_event_ok. }
  specialize (Hc' name r Hr) as [_ Hlt]. unfold getHealthyProviders. intros Hin.
  apply list_elem_of_filter in Hin as [Hh _]. rewrite Hr in Hh. cbn in Hh. specialize (Hlt Hh). lia.
Qed.

(** Only a health check that answers true brings a provider back. *)
Definition revives (name : string) (ev : event) : bool :=
  match ev with Checked name' (Ok true) => bool_decide (name' = name) | _ => false end.

Lemma stays_out c ev name r : healthRecords c !! name = Some r → healthy r = false → revives name ev = false →
  ∃ r', healthRecords (apply_event maxConsecutiveFailures now c ev) !! name = Some r' ∧ healthy r' = false.
Proof.
  assert (∀ nm f c, (healthRecords c !! name = Some r) → healthy r = false → (nm = name → healthy (f r) = false) →
    ∃ r', healthRecords (with_record nm f c) !! name = Some r' ∧ healthy r' = false) as Hwith.
  { intros nm f c0 Hr Hh Hf. unfold with_record. destruct (healthRecords c0 !! nm) as [r0|] eqn:H0; [|eauto].
    cbn [set_record healthRecords]. destruct (decide (nm = name)) as [->|Hne].
    - rewrite lookup_insert_eq. simplify_eq. eauto.
    - rewrite lookup_insert_ne by done. eauto. }
  intros Hr Hh Hev. destruct ev as [nm|nm msg|nm o|names|]; cbn [apply_event revives] in *.
  - apply Hwith; done.
  - apply Hwith; [done..|]. intros _. unfold note_failure. by case_match.
  - destruct (healthRecords c !! nm); [|eauto]. apply Hwith; [done..|]. intros ->.
    destruct o as [[]|]; [|done..]. by rewrite bool_decide_eq_true_2 in Hev.
  - unfold setProviders. match goal with |- context [foldl ?f _ _] => assert (∀ l c0, healthRecords c0 !! name = Some r →
      ∃ r', healthRecords (foldl f c0 l) !! name = Some r' ∧ healthy r' = false) as Hl end.
    { induction l as [|nm l IH]; intros c0 H0; [eauto|]. cbn [foldl]. apply IH.
      destruct (healthRecords c0 !! nm) eqn:Hnm; [done|]. cbn. rewrite lookup_insert_ne; [done|]. intros ->. congruence. }
    apply Hl. done.
  - eauto.
Qed.

Theorem quarantine c evs name r :
  healthRecords c !! name = Some r → healthy r = false → Forall (λ ev, revives name ev = false) evs →
  name ∉ getHealthyProviders (foldl (apply_event maxConsecutiveFailures now) c evs).
Proof.
  intros Hr Hh Hevs. revert c r Hr Hh. induction Hevs as [|ev evs Hev Hevs IH]; intros c r Hr Hh.
  - unfold getHealthyProviders. cbn [foldl]. intros [Hin _]%list_elem_of_filter. rewrite Hr in Hin. cbn in Hin. congruence.
  - cbn [foldl]. destruct (stays_out c ev name r Hr Hh Hev) as (r' & Hr' & Hh'). by apply (IH _ r').
Qed.
End chain_properties.

(** ** Repeated uploads *)

(** Models [IdempotencyRecord.response] (backend/src/ipfs/services/idempotency.service.ts:20-25). *)
Record CachedResponse := { r_cid : string; r_gatewayUrls : list string; r_uploadedAt : Z; r_contentSha256Hex : option string }.

(** Dates are their milliseconds.
    Models [IdempotencyRecord] (backend/src/ipfs/services/idempotency.service.ts:14-30). *)
Record IdempotencyRecord := {
  ir_key : string; ir_contentHash : string; response : CachedResponse; createdAt : Z; hitCount : Z }.

Section idempotency.
Context {R E : Type} `{!RedisString IdempotencyRecord R}.
Abbreviation MR A := (M (rworld R) E A).

Definition keyPrefix : string := "ipfs:idempotency:".
Definition defaultTtlSeconds : Z := 86400.

(** Models [generateKey] (backend/src/ipfs/services/idempotency.service.ts:57-59). *)
Definition generateKey (contentHash prefix : string) : string := keyPrefix +:+ prefix +:+ ":" +:+ contentHash.

Definition key_of (idempotencyKey : option string) (contentHash : string) : string :=
  match truthy idempotencyKey with
  | Some k => keyPrefix +:+ "explicit:" +:+ k
  | None => generateKey contentHash "upload"
  end.

(** The key, and the record found under it with its counter advanced.
    Models [check] (backend/src/ipfs/services/idempotency.service.ts:76-112). *)
Definition check (now : Z) (idempotencyKey : option string) (contentHash : string)
    : MR (string * option IdempotencyRecord) :=
  let key := key_of idempotencyKey contentHash in
  let* record := redis_get now key in
  match record with
  | Some r =>
      let r' := {| ir_key := ir_key r; ir_contentHash := ir_contentHash r; response := response r;
                   createdAt := createdAt r; hitCount := hitCount r + 1 |} in
      do* redis_set now key r' defaultTtlSeconds in
      ret (key, Some r')
  | None => ret (key, None)
  end.

(** Models [storeResult] (backend/src/ipfs/services/idempotency.service.ts:121-142). *)
Definition storeResult (now : Z) (key contentHash : string) (resp : CachedResponse) : MR () :=
  redis_set now key {| ir_key := key; ir_contentHash := contentHash; response := resp; createdAt := now; hitCount := 0 |}
    defaultTtlSeconds.

(** Models [findByContentHash] (backend/src/ipfs/services/idempotency.service.ts:150-155). *)
Definition findByContentHash (now : Z) (contentHash : string) : MR (option IdempotencyRecord) :=
  redis_get now (generateKey contentHash "upload").

(** Models [clear] (backend/src/ipfs/services/idempotency.service.ts:162-165). *)
Definition clear_record (key : string) : MR () := redis_del key.
End idempotency.

(** [/[a-zA-Z0-9_-]/]. *)
Definition is_key_char (c : ascii) : bool :=
  is_lower c || is_upper c || is_digit c || bool_decide (c ∈ ["_"; "-"]%char).

(** Models [isValidKeyFormat] (backend/src/ipfs/services/idempotency.service.ts:173-177). *)
Definition isValidKeyFormat (key : string) : bool :=
  str_forall is_key_char key && (8 <=? String.length key)%nat && (String.length key <=? 128)%nat.

(** Models [sanitizeKey] (backend/src/ipfs/services/idempotency.service.ts:185-189). *)
Definition sanitizeKey (key : string) : string := str_take 128 (str_filter is_key_char key).

(** ** Gateways *)

(** Models [IpfsGatewayConfig] (backend/src/ipfs/interfaces/ipfs-provider.interface.ts:70-77). *)
Record IpfsGatewayConfig := { gw_url : string; gw_priority : Z }.

(** Models [IPFS_GATEWAYS] (backend/src/ipfs/interfaces/ipfs-provider.interface.ts:79-84). *)
Definition IPFS_GATEWAYS : list IpfsGatewayConfig :=
  [{| gw_url := "https://ipfs.io/ipfs/{{cid}}"; gw_priority := 1 |};
   {| gw_url := "https://cloudflare-ipfs.com/ipfs/{{cid}}"; gw_priority := 2 |};
   {| gw_url := "https://gateway.pinata.cloud/ipfs/{{cid}}"; gw_priority := 3 |};
   {| gw_url := "https://dweb.link/ipfs/{{cid}}"; gw_priority := 4 |}].

(** [url.replace(pattern, text)]: the first occurrence. *)
Fixpoint replace_first (pattern text s : string) : string :=
  if startsWith s pattern then text +:+ str_drop (String.length pattern) s
  else match s with "" => "" | String c s' => String c (replace_first pattern text s') end.

Definition by_priority (a b : IpfsGatewayConfig) : Prop := gw_priority a ≤ gw_priority b.
#[export] Instance by_priority_dec : RelDecision by_priority.
Proof. intros a b. unfold by_priority. apply _. Defined.

(** Models [generateGatewayUrls] (backend/src/ipfs/interfaces/ipfs-provider.interface.ts:91-96). *)
Definition generateGatewayUrls (cid : string) (gateways : list IpfsGatewayConfig) : list string :=
  (λ g, replace_first "{{cid}}" cid (gw_url g)) <$> merge_sort by_priority gateways.

(** Models [parseConfiguredGateways] (backend/src/ipfs/services/ipfs.service.ts:70-91). *)
Definition parseConfiguredGateways (raw : string) : list IpfsGatewayConfig :=
  if bool_decide (trim raw = "") then IPFS_GATEWAYS
  else
    let gateways := filter (λ g, gw_url g ≠ "")
      (imap (λ i url, {| gw_url := trim url; gw_priority := Z.of_nat i |}) (split "," raw)) in
    match gateways with [] => IPFS_GATEWAYS | _ => gateways end.

(** ** The upload as a whole *)

Record iworld (R : Type) := IWorld { i_redis : rworld R; i_chain : chain }.
Arguments IWorld {R} _ _.
Arguments i_redis {R} _.
Arguments i_chain {R} _.

Inductive upload_error := FileRefused (e : file_error) | ThreatDetected | UploadUnavailable.

(** Models [UploadOptions] (backend/src/ipfs/services/ipfs.service.ts:39-46). *)
Record UploadOptions := { stripExif : option bool; scanForViruses : option bool }.

(** Models [IpfsUploadResponse] (backend/src/ipfs/services/ipfs.service.ts:17-34). *)
Record IpfsUploadResponse := {
  u_cid : string; u_gatewayUrls : list string; u_contentSha256Hex : string; u_filename : string;
  u_size : Z; u_mimeType : string; u_duplicated : bool; u_uploadedAt : Z }.

Definition bytes_of (s : string) : list Z := code <$> String.list_ascii_of_string s.

(** [buffer.includes(pattern)]. *)
Definition buffer_includes (buffer pattern : list Z) : bool :=
  existsb (λ i, has_bytes buffer i pattern) (seq 0 (S (length buffer))).

(** Models [scanForViruses] (backend/src/ipfs/services/ipfs.service.ts:237-261). *)
Definition scan (buffer : list Z) : bool :=
  negb (existsb (λ p, buffer_includes buffer (bytes_of p)) ["eval(atob("; "<script>eval("; "function(){"]).

Section upload.
Context {R : Type} `{!RedisString IdempotencyRecord R}.
(** SHA-256 in hexadecimal, the engine's limit, and the configuration of the services. *)
Context (sha256Hex : list Z → string) (max_arguments : nat).
Context (minFileSize maxFileSize : Z) (exifEnabled : bool) (gateways : list IpfsGatewayConfig).
Context (api : list Z → string → string → provider_api) (maxConsecutiveFailures now : Z).
Abbreviation MU A := (M (iworld R) upload_error A).

Definition on_redis {A} (m : M (rworld R) upload_error A) : MU A :=
  λ w, let '(a, r) := m (i_redis w) in (a, IWorld r (i_chain w)).
Definition on_chain {A} (m : M chain chain_error A) : MU A :=
  λ w, match m (i_chain w) with
       | (Ok a, c) => (Ok a, IWorld (i_redis w) c)
       | (Throw _, c) => (Throw UploadUnavailable, IWorld (i_redis w) c)
       end.

(** [stripExifMetadata] always answers, see [strip_terminates]. *)
Definition processed (buffer : list Z) (mimeType : string) (options : UploadOptions) : list Z :=
  if bool_decide (stripExif options = Some false) then buffer
  else default buffer (fst <$> stripExifMetadata max_arguments exifEnabled buffer mimeType).

(** Models [upload, after validation] (backend/src/ipfs/services/ipfs.service.ts:126-224). *)
Definition upload_validated (buffer : list Z) (filename mimeType : string) (idempotencyKey : option string)
    (options : UploadOptions) : MU IpfsUploadResponse :=
  let sanitizedFilename := sanitizeFilename filename in
  let contentHash := sha256Hex buffer in
  let processedBuffer := processed buffer mimeType options in
  if bool_decide (scanForViruses options = Some true) && negb (scan processedBuffer) then throw ThreatDetected
  else
    let* (key, existing) := on_redis (check now idempotencyKey contentHash) in
    match existing with
    | Some record =>
        let cached := response record in
        ret {| u_cid := r_cid cached; u_gatewayUrls := r_gatewayUrls cached;
               u_contentSha256Hex := default contentHash (r_contentSha256Hex cached);
               u_filename := sanitizedFilename; u_size := Z.of_nat (length processedBuffer); u_mimeType := mimeType;
               u_duplicated := true; u_uploadedAt := r_uploadedAt cached |}
    | None =>
        let contentSha256Hex := sha256Hex processedBuffer in
        let* result := on_chain (upload (api processedBuffer sanitizedFilename mimeType) maxConsecutiveFailures) in
        let gatewayUrls := generateGatewayUrls (cid (upload_result result)) gateways in
        do* on_redis (storeResult now key contentHash
          {| r_cid := cid (upload_result result); r_gatewayUrls := gatewayUrls; r_uploadedAt := now;
             r_contentSha256Hex := Some contentSha256Hex |}) in
        ret {| u_cid := cid (upload_result result); u_gatewayUrls := gatewayUrls; u_contentSha256Hex := contentSha256Hex;
               u_filename := sanitizedFilename; u_size := up_size (upload_result result);
               u_mimeType := up_mimeType (upload_result result); u_duplicated := false; u_uploadedAt := now |}
    end.

(** Models [IpfsService.upload] (backend/src/ipfs/services/ipfs.service.ts:110-225). *)
Definition upload_file (buffer : list Z) (filename mimeType : string) (idempotencyKey : option string)
    (options : UploadOptions) : MU IpfsUploadResponse :=
  match validateFileMetadata minFileSize maxFileSize
          {| fieldname := None; originalname := Some filename; mimetype := Some mimeType;
             size := Some (Z.of_nat (length buffer)) |} with
  | Throw e => throw (FileRefused e)
  | Ok _ => upload_validated buffer filename mimeType idempotencyKey options
  end.

(** The gateways in turn; [fetch] is the outcome of the request to one of them.
    Models [fetchFromGateway] (backend/src/ipfs/services/ipfs.service.ts:307-333). *)
Definition fetchFromGateway (fetch : string → result string (list Z)) (c : string) : result () (list Z) :=
  match list_find (λ url, is_ok (fetch url) = true) (generateGatewayUrls c gateways) with
  | Some (_, url) => match fetch url with Ok data => Ok data | Throw _ => Throw tt end
  | None => Throw tt
  end.
End upload.

Section upload_properties.
Context `{RedisStringLaws IdempotencyRecord R}.
Context (sha256Hex : list Z → string) (max_arguments : nat).
Context (minFileSize maxFileSize : Z) (exifEnabled : bool) (gateways : list IpfsGatewayConfig).
Context (api : list Z → string → string → provider_api) (maxConsecutiveFailures : Z).

(** Every upload is refused: the service validates the file without a field
    name, which validation requires.  Nothing is scanned, stored or sent. *)
Theorem every_upload_refused now buffer filename mimeType idempotencyKey options (w : iworld R) :
  upload_file sha256Hex max_arguments minFileSize maxFileSize exifEnabled gateways api maxConsecutiveFailures now
    buffer filename mimeType idempotencyKey options w = (Throw (FileRefused FieldNameRequired), w).
Proof. done. Qed.

Abbreviation upload_validated := (upload_validated sha256Hex max_arguments exifEnabled gateways api maxConsecutiveFailures).
Abbreviation processed := (processed max_arguments exifEnabled).

(** A healthy server finds what was stored while it lives. *)
Lemma check_found now now' key_opt hash r v :
  now ≤ now' < now + 86400000 →
  ∃ r', check (E:=upload_error) now' key_opt hash (Redis.healthy (r_setex now (key_of key_opt hash) v 86400 r)) =
    (Ok (key_of key_opt hash, Some {| ir_key := ir_key v; ir_contentHash := ir_contentHash v; response := response v;
                                      createdAt := createdAt v; hitCount := hitCount v + 1 |}), Redis.healthy r').
Proof.
  intros Hnow. unfold check, bind, redis_get, redis_set, try_catch. rewrite query_healthy, get_setex by lia.
  rewrite decide_True by lia. rewrite update_healthy. eexists. done.
Qed.

(** What the second of two uploads under one key is answered: the response of
    the first for the next 24 hours, without a call to a provider, whatever
    its own content is; under a key the client chose that content may be
    another file. *)
Theorem key_reuse_replays now now' k k' opts opts' buffer buffer' filename filename' mime mime' r c a w1 :
  upload_validated now buffer filename mime k opts (IWorld (Redis.healthy r) c) = (Ok a, w1) → u_duplicated a = false →
  key_of k' (sha256Hex buffer') = key_of k (sha256Hex buffer) →
  now ≤ now' < now + 86400000 →
  bool_decide (scanForViruses opts' = Some true) && negb (scan (processed buffer' mime' opts')) = false →
  ∃ b w2, upload_validated now' buffer' filename' mime' k' opts' w1 = (Ok b, w2) ∧
    u_cid b = u_cid a ∧ u_gatewayUrls b = u_gatewayUrls a ∧ u_contentSha256Hex b = u_contentSha256Hex a ∧
    u_duplicated b = true ∧ i_chain w2 = i_chain w1.
Proof.
  intros Hrun Hdup Hkey Hnow Hscan. unfold Ipfs.upload_validated in Hrun.
  destruct (bool_decide _ && negb _) in Hrun; [done|].
  apply bind_ok_inv in Hrun as ([key existing] & w & Hcheck & Hrun).
  unfold on_redis, check, bind, redis_get, redis_set, try_catch, ret in Hcheck. cbn [i_redis i_chain] in Hcheck.
  rewrite query_healthy in Hcheck. destruct (r_get now _ r) as [v|] eqn:Hget.
  - rewrite update_healthy in Hcheck. simplify_eq. injection Hrun as <- <-. done.
  - simplify_eq. cbn [fst snd] in Hrun. unfold on_chain, bind in Hrun. cbn [i_redis i_chain] in Hrun.
    destruct (upload _ _ c) as [[res|e] c'] eqn:Hup; [|done].
    unfold on_redis, storeResult, redis_set, try_catch, ret in Hrun. cbn [i_redis i_chain] in Hrun.
    rewrite update_healthy in Hrun. injection Hrun as <- <-.
    unfold Ipfs.upload_validated. rewrite Hscan. unfold bind at 1, on_redis. cbn [i_redis i_chain]. rewrite <-Hkey.
    match goal with |- context [r_setex _ _ ?v _ _] => destruct (check_found now now' k' (sha256Hex buffer') r v Hnow) as [r2 Hc] end.
    unfold defaultTtlSeconds. rewrite Hc. eexists _, _. split; [reflexivity|]. done.
Qed.
End upload_properties.

Module IpfsWitnesses.
Import Redis.Sample.
Definition rec0 (h : bool) (n : Z) : ProviderHealthRecord :=
  {| healthy := h; lastCheckedAt := 0; lastError := None; consecutiveFailures := n |}.
Definition c0 : chain := Chain ["pinata"; "web3"] {[ "pinata" := rec0 true 0; "web3" := rec0 true 0 ]} 0.

(** The first provider fails, the second answers. *)
Definition api0 : provider_api := {|
  api_upload _ name := if bool_decide (name = "pinata") then Throw "down" else Ok {| cid := "bafy"; up_size := 2; up_mimeType := "image/png" |};
  api_isHealthy _ _ := Ok true; api_exists _ := None; api_unpin _ := None |}.

Lemma c0_ok : chain_ok 1 c0.
Proof. apply map_Forall_insert_2; [split; cbn; lia|]. apply map_Forall_singleton. split; cbn; lia. Defined.

Example failing_provider_excluded_witness :
  "pinata" ∉ getHealthyProviders (foldl (apply_event 1 0) c0 [UploadFailed "pinata" "down"; Uploaded "web3"]).
Proof.
  apply (failing_provider_excluded 1 0 c0 [UploadFailed "pinata" "down"; Uploaded "web3"] "pinata"
    {| healthy := false; lastCheckedAt := 0; lastError := Some "down"; consecutiveFailures := 1 |});
    [lia|exact c0_ok|reflexivity|cbn; lia].
Defined.

Example quarantine_witness :
  "pinata" ∉ getHealthyProviders (foldl (apply_event 3 0)
    (Chain ["pinata"] {[ "pinata" := rec0 false 3 ]} 0) [Uploaded "pinata"; Checked "pinata" (Ok false)]).
Proof.
  apply (quarantine 3 0 _ [Uploaded "pinata"; Checked "pinata" (Ok false)] "pinata" (rec0 false 3)); [reflexivity..|].
  repeat constructor.
Defined.

Definition sha (b : list Z) : string := show_Z (foldl Z.add 0 b).
Definition opts0 : UploadOptions := {| stripExif := None; scanForViruses := None |}.
Abbreviation run k buffer now := (upload_validated sha 100 true IPFS_GATEWAYS (λ _ _ _, api0) 3 now buffer "a.png" "image/png" k opts0).

Example key_reuse_replays_witness :
  ∃ a w1 b w2,
    run (Some "order-17") [1; 2] 0 (IWorld (Redis.healthy ([] : Sample.strings IdempotencyRecord)) c0) = (Ok a, w1) ∧
    run (Some "order-17") [9; 9; 9] 1000 w1 = (Ok b, w2) ∧ u_cid b = u_cid a.
Proof.
  destruct (run (Some "order-17") [1; 2] 0 (IWorld (Redis.healthy ([] : Sample.strings IdempotencyRecord)) c0)) as [[a|e] w1] eqn:Hrun;
    [|vm_compute in Hrun; discriminate Hrun].
  assert (u_duplicated a = false) as Hdup by (vm_compute in Hrun; injection Hrun as <- <-; reflexivity).
  destruct (key_reuse_replays sha 100 true IPFS_GATEWAYS (λ _ _ _, api0) 3 0 1000 (Some "order-17") (Some "order-17")
    opts0 opts0 [1; 2] [9; 9; 9] "a.png" "a.png" "image/png" "image/png" [] c0 a w1 Hrun Hdup eq_refl ltac:(lia) eq_refl)
    as (b & w2 & Hb & Hcid & _).
  exists a, w1, b, w2. done.
Defined.
End IpfsWitnesses.
