(* ===== verification/Unsubscribe.v ===== *)
(** * One-click unsubscribe links

    backend/src/notifications/unsubscribe.ts: the token of an unsubscribe link
    is a base64url payload and its HMAC.  The HMAC is the interface of
    Signature; JSON and base64url are those of Codec. *)

From stdpp Require Import base list strings pretty.
From Stdlib Require Import ZArith Lia Ascii.
From S2P Require Import Prelude JsText JsNumber Codec Signature.

Open Scope string_scope.
Open Scope Z_scope.

(** [x <= n] for a double and an integer; an absent double is Infinity. *)
Definition d_leb (x : option double) (n : Z) : bool :=
  match x with
  | None => false
  | Some x => if 0 <=? d_exp x then d_mant x * 2 ^ d_exp x <=? n else d_mant x <=? n * 2 ^ (- d_exp x)
  end.

(** The fields of the payload; the channel is always email.
    Models [UnsubscribePayload] (backend/src/notifications/unsubscribe.ts:17-24). *)
Record UnsubscribePayload := { userId : string; scope : option string; exp : Z }.

(** JSON.stringify of the payload for plain texts.  The spread puts the members of the argument first, [exp] comes last. *)
Definition payload_json (p : UnsubscribePayload) : string :=
  "{" +:+ quoted "userId" +:+ ":" +:+ quoted (userId p) +:+ "," +:+ quoted "channel" +:+ ":" +:+ quoted "email" +:+ "," +:+
  match scope p with Some s => quoted "scope" +:+ ":" +:+ quoted s +:+ "," | None => "" end +:+
  quoted "exp" +:+ ":" +:+ show_Z (exp p) +:+ "}".

(** A Buffer as a text of its bytes. *)
Definition bytes_text (l : list Z) : string := foldr (λ n s, String (byte_of n) s) "" l.

Section tokens.
Context `{H : Hmac}.

Definition digest (secret encoded : string) : string := bytes_text (hex_bytes (hmacHex secret encoded)).

(** Models [signUnsubscribeToken] (backend/src/notifications/unsubscribe.ts:35-53). *)
Definition signUnsubscribeToken (uid : string) (sc : option string) (expiry : option Z) (secret : string) (nowSeconds : Z) : string :=
  let body := {| userId := uid; scope := sc; exp := default (nowSeconds + 60 * 60 * 24 * 30) expiry |} in
  let encoded := toBase64Url (payload_json body) in
  encoded +:+ "." +:+ toBase64Url (digest secret encoded).

(** What verification returns: the members that the service reads. *)
Record verified := { v_userId : string; v_scope : option json; v_exp : option double }.

(** The tests on the parsed payload. *)
Definition read_payload (nowSeconds : Z) (payload : option json) : option verified :=
  match payload with
  | Some (JObj fields) =>
      match get_field "userId" fields, get_field "exp" fields with
      | Some (JStr uid), Some (JNum e) =>
          if d_leb e nowSeconds then None
          else Some {| v_userId := uid; v_scope := get_field "scope" fields; v_exp := e |}
      | _, _ => None
      end
  | _ => None
  end.

(** Models [verifyUnsubscribeToken] (backend/src/notifications/unsubscribe.ts:59-91). *)
Definition verifyUnsubscribeToken (token : option string) (secret : string) (nowSeconds : Z) : option verified :=
  match truthy token with
  | None => None
  | Some t =>
      if negb (includes t ".") then None
      else
        match split "." t with
        | encoded :: signaturePart :: _ =>
            if bool_decide (encoded = "") || bool_decide (signaturePart = "") then None
            else if negb (bool_decide (digest secret encoded = fromBase64Url signaturePart)) then None
            else read_payload nowSeconds (JSON_parse (fromBase64Url encoded))
        | _ => None
        end
  end.
End tokens.

(** ** Links *)

(** Unreserved characters of [encodeURIComponent]. *)
Definition unreserved (c : ascii) : bool :=
  is_lower c || is_upper c || is_digit c || existsb (Ascii.eqb c) ["-"; "_"; "."; "!"; "~"; "*"; "'"; "("; ")"]%char.
Definition hex_digit (n : Z) : ascii := default "0"%char (String.get (Z.to_nat n) "0123456789ABCDEF").
Fixpoint encodeURIComponent (s : string) : string :=
  match s with
  | "" => ""
  | String c s' =>
      if unreserved c then String c (encodeURIComponent s')
      else String "%" (String (hex_digit (code c / 16)) (String (hex_digit (code c mod 16)) (encodeURIComponent s')))
  end.

(** [replace(/\/+$/, '')]. *)
Fixpoint strip_slashes (s : string) : string :=
  match s with
  | "" => ""
  | String c s' => if bool_decide (c = "/"%char) && str_forall (λ a, bool_decide (a = "/"%char)) s' then ""
                   else String c (strip_slashes s')
  end.

(** Models [buildUnsubscribeUrl] (backend/src/notifications/unsubscribe.ts:102-105). *)
Definition buildUnsubscribeUrl (token baseUrl : string) : string :=
  strip_slashes baseUrl +:+ "/api/v1/notifications/unsubscribe?token=" +:+ encodeURIComponent token.

(** Models [buildUnsubscribeHeaders] (backend/src/notifications/unsubscribe.ts:94-99). *)
Definition buildUnsubscribeHeaders (listUnsubscribeUrl : string) : list (string * string) :=
  [("List-Unsubscribe", "<" +:+ listUnsubscribeUrl +:+ ">"); ("List-Unsubscribe-Post", "List-Unsubscribe=One-Click")].

(** [config] returns the configured texts.
    Models [resolveUnsubscribeSecret] (backend/src/notifications/unsubscribe.ts:108-116). *)
Definition resolveUnsubscribeSecret (config : string → option string) : string :=
  match truthy (config "UNSUBSCRIBE_SECRET") with
  | Some s => s
  | None => match truthy (config "JWT_SECRET") with Some s => s | None => "niffyinsure-unsubscribe-dev" end
  end.

(** ** Lemmas *)

Lemma includes_app a p b : includes (a +:+ p +:+ b) p = true.
Proof.
  induction a as [|c a IH].
  - change (includes (p +:+ b) p = true). destruct (p +:+ b) eqn:E; cbn [includes]; rewrite <-?E, startsWith_app; done.
  - change (startsWith (String c (a +:+ p +:+ b)) p || includes (a +:+ p +:+ b) p = true). by rewrite IH, orb_true_r.
Qed.

Lemma url64_avoids c s : is_url64 c = false → str_forall is_url64 s = true → avoids c s = true.
Proof.
  intros Hc. apply str_forall_impl. intros a Ha. apply negb_true_iff, bool_decide_eq_false_2. intros ->. congruence.
Qed.

Lemma toBase64Url_avoids s : avoids "." (toBase64Url s) = true.
Proof. apply url64_avoids; [done|apply toBase64Url_chars]. Qed.


Definition payload_fields (p : UnsubscribePayload) : list (string * json) :=
  ([("userId", JStr (userId p)); ("channel", JStr "email")] ++
   match scope p with Some s => [("scope", JStr s)] | None => [] end ++
   [("exp", JNum (unsigned_decimal (show_Z (exp p))))])%list.

Definition plain_payload (p : UnsubscribePayload) : Prop :=
  str_forall plain (userId p) = true ∧ (∀ s, scope p = Some s → str_forall plain s = true) ∧ 0 ≤ exp p < 2 ^ 53.

Lemma payload_members f p : plain_payload p →
  json_members (S (S (S (S (S f))))) (str_drop 1 (payload_json p)) = Some (payload_fields p, "").
Proof.
  intros (Hu & Hs & He). unfold payload_json. change (str_drop 1 ("{" +:+ ?x)) with x.
  rewrite json_members_text by done. rewrite json_members_text by done. unfold payload_fields.
  destruct (scope p) as [s|].
  - rewrite !str_app_assoc. rewrite json_members_text by auto. by rewrite json_members_last_int by (done || lia).
  - change ("" +:+ ?x) with x. by rewrite json_members_last_int by (done || lia).
Qed.

Lemma JSON_parse_payload p : plain_payload p → JSON_parse (payload_json p) = Some (JObj (payload_fields p)).
Proof.
  intros Hp. pose proof (λ f, payload_members f p Hp) as Hm. unfold JSON_parse.
  assert (∃ r, payload_json p = String "{" (String dquote r)) as [r Hr] by by eexists.
  rewrite Hr in *. change (str_drop 1 (String "{" (String dquote r))) with (String dquote r) in Hm.
  replace (2 * String.length (String "{" (String dquote r)) + 2)%nat with (S (S (S (S (S (S (2 * String.length r)))))))
    by (cbn [String.length]; lia).
  by rewrite json_value_brace, Hm.
Qed.

(** The double read from an integer compares as the integer. *)
Lemma d_leb_show n now : 0 ≤ n < 2 ^ 53 → d_leb (unsigned_decimal (show_Z n)) now = (n <=? now).
Proof.
  intros Hn. rewrite unsigned_decimal_digits by (apply show_Z_digits || apply show_Z_ne_empty; lia).
  rewrite show_Z_val by lia. destruct (round_double_int n Hn) as (x & -> & Hf & Hi).
  unfold d_leb, d_floor, d_isInteger in *. destruct (0 <=? d_exp x) eqn:He; bool_prop; [by rewrite Hf|].
  assert (0 < 2 ^ (- d_exp x)) as Hp by (apply Z.pow_pos_nonneg; lia).
  assert (d_mant x = n * 2 ^ (- d_exp x)) as ->; [rewrite <-Hf; rewrite Z.mul_comm; apply Z.div_exact; lia|].
  destruct (n <=? now) eqn:Hle; bool_prop; [apply Z.leb_le|apply Z.leb_gt]; nia.
Qed.

(** ** Properties *)

Section properties.
Context `{HL : HmacLaws}.

Lemma hex_bytes_nonempty s : hex64 s = true → hex_bytes s ≠ [].
Proof.
  unfold hex64. intros H64. bool_prop. destruct s as [|a [|b s]]; [done..|].
  cbn [str_forall] in *. bool_prop. cbn [hex_bytes].
  repeat match goal with E : is_hex _ = true |- _ => rewrite E; clear E end. done.
Qed.

Lemma digest_nonempty secret encoded : digest secret encoded ≠ "".
Proof.
  unfold digest, bytes_text. pose proof (hex_bytes_nonempty _ (hmac_hex secret encoded)).
  destruct (hex_bytes (hmacHex secret encoded)); done.
Qed.

(** Verification of a well-formed token, with anything after a second dot. *)
Lemma verify_split secret now encoded sig rest :
  encoded ≠ "" → avoids "." encoded = true → sig ≠ "" → avoids "." sig = true →
  rest = "" ∨ (∃ x, rest = String "." x) →
  verifyUnsubscribeToken (Some (encoded +:+ "." +:+ sig +:+ rest)) secret now =
    if bool_decide (digest secret encoded = fromBase64Url sig)
    then read_payload now (JSON_parse (fromBase64Url encoded)) else None.
Proof.
  intros He Hae Hs Has Hrest. unfold verifyUnsubscribeToken.
  assert (truthy (Some (encoded +:+ "." +:+ sig +:+ rest)) = Some (encoded +:+ "." +:+ sig +:+ rest)) as -> by by destruct encoded.
  rewrite includes_app. cbn [negb]. change ("." +:+ ?x) with (String "." x). rewrite split_app by done.
  assert (∃ tl, split "." (sig +:+ rest) = sig :: tl) as [tl ->].
  { destruct Hrest as [->|[x ->]]; [rewrite str_app_nil_r; exists []; by apply split_single|]. rewrite split_app by done. eauto. }
  rewrite !(bool_decide_eq_false_2 (_ = "")) by done. cbn [orb]. by case_bool_decide.
Qed.

(** A payload signed in this way verifies until its expiry. *)
Lemma verify_issued p secret now : plain_payload p →
  let encoded := toBase64Url (payload_json p) in
  verifyUnsubscribeToken (Some (encoded +:+ "." +:+ toBase64Url (digest secret encoded))) secret now =
    if exp p <=? now then None
    else Some {| v_userId := userId p; v_scope := JStr <$> scope p; v_exp := unsigned_decimal (show_Z (exp p)) |}.
Proof.
  intros Hp encoded. pose proof Hp as (_ & _ & He).
  pose proof (verify_split secret now encoded (toBase64Url (digest secret encoded)) "") as Hv. rewrite str_app_nil_r in Hv.
  rewrite Hv; [|by apply toBase64Url_nonempty|apply toBase64Url_avoids|
    apply toBase64Url_nonempty, digest_nonempty|apply toBase64Url_avoids|by left].
  rewrite bool_decide_eq_true_2 by by rewrite base64url_roundtrip.
  subst encoded. rewrite base64url_roundtrip, JSON_parse_payload by done.
  assert (read_payload now (Some (JObj (payload_fields p))) =
    if d_leb (unsigned_decimal (show_Z (exp p))) now then None
    else Some {| v_userId := userId p; v_scope := JStr <$> scope p; v_exp := unsigned_decimal (show_Z (exp p)) |}) as ->
    by (unfold payload_fields; destruct (scope p); reflexivity).
  by rewrite d_leb_show.
Qed.

(** A token verifies until its expiry and never after, and gives back the
    user and the scope it was issued for; issued without an expiry it lives
    thirty days. *)
Theorem unsubscribe_roundtrip uid sc expiry secret issued now :
  let e := default (issued + 2592000) expiry in
  plain_payload {| userId := uid; scope := sc; exp := e |} →
  verifyUnsubscribeToken (Some (signUnsubscribeToken uid sc expiry secret issued)) secret now =
    if e <=? now then None
    else Some {| v_userId := uid; v_scope := JStr <$> sc; v_exp := unsigned_decimal (show_Z e) |}.
Proof. intros e Hp. exact (verify_issued _ secret now Hp). Qed.

(** Whatever verifies was signed: its second part is the digest of its first
    under the secret, and the payload is the one in the first, unexpired. *)
Theorem verified_was_issued token secret now v :
  verifyUnsubscribeToken (Some token) secret now = Some v →
  ∃ encoded sig rest, split "." token = encoded :: sig :: rest ∧
    fromBase64Url sig = digest secret encoded ∧
    read_payload now (JSON_parse (fromBase64Url encoded)) = Some v ∧ d_leb (v_exp v) now = false.
Proof.
  unfold verifyUnsubscribeToken. destruct (truthy (Some token)) as [t|] eqn:Ht; [|done].
  assert (t = token) as -> by (destruct token; cbn in Ht; congruence).
  destruct (negb _); [done|]. destruct (split "." token) as [|encoded [|sig rest]]; [done..|].
  destruct (bool_decide (encoded = "") || bool_decide (sig = "")); [done|].
  case_bool_decide as Hd; [|done]. cbn [negb]. intros Hread. exists encoded, sig, rest. split_and!; try done.
  unfold read_payload in Hread. repeat case_match; simplify_eq/=; done.
Qed.

(** Tokens are malleable: what follows a second dot is not looked at, so one
    issued token has unboundedly many accepted forms. *)
Theorem suffix_ignored uid sc expiry secret issued now x :
  verifyUnsubscribeToken (Some (signUnsubscribeToken uid sc expiry secret issued +:+ "." +:+ x)) secret now =
  verifyUnsubscribeToken (Some (signUnsubscribeToken uid sc expiry secret issued)) secret now.
Proof.
  unfold signUnsubscribeToken. set (encoded := toBase64Url (payload_json _)).
  assert (encoded ≠ "") by by apply toBase64Url_nonempty.
  assert (avoids "." encoded = true) by apply toBase64Url_avoids.
  set (sig := toBase64Url (digest secret encoded)).
  assert (sig ≠ "") by by apply toBase64Url_nonempty, digest_nonempty.
  assert (avoids "." sig = true) by apply toBase64Url_avoids.
  rewrite !str_app_assoc, verify_split by (done || right; by eexists).
  pose proof (verify_split secret now encoded sig "") as Hv. rewrite str_app_nil_r in Hv. by rewrite Hv by (done || by left).
Qed.

(** The link carries the token unchanged, whatever the base URL. *)
Theorem link_carries_token uid sc expiry secret issued baseUrl :
  let token := signUnsubscribeToken uid sc expiry secret issued in
  buildUnsubscribeUrl token baseUrl = strip_slashes baseUrl +:+ "/api/v1/notifications/unsubscribe?token=" +:+ token.
Proof.
  intros token. unfold buildUnsubscribeUrl. do 2 f_equal. assert (str_forall unreserved token = true) as Ht.
  { subst token. unfold signUnsubscribeToken. rewrite !str_forall_app. repeat (apply andb_true_iff; split).
    all: try done; eapply str_forall_impl; try apply toBase64Url_chars.
    all: intros [[] [] [] [] [] [] [] []]; vm_compute; congruence. }
  clearbody token. induction token as [|c s IH]; [done|]. cbn [str_forall encodeURIComponent] in *.
  apply andb_true_iff in Ht as [-> Hs]. by rewrite IH.
Qed.
End properties.

Module UnsubscribeWitnesses.
#[local] Existing Instance SignatureWitnesses.sample_hmac.
#[local] Existing Instance SignatureWitnesses.sample_hmac_laws.

Definition wallet : string := "GDRXE2BQUC3AZNPVFSCEZ76NJ3WWL25FYFK6RGZGIEKWE4SOOHSUJUJ6".

(** Issued at 1000 without an expiry: good the second before 2593000, dead then. *)
Example unsubscribe_roundtrip_witness :
  verifyUnsubscribeToken (Some (signUnsubscribeToken wallet (Some "claim_update") None "s3cret" 1000)) "s3cret" 2592999 =
    Some {| v_userId := wallet; v_scope := Some (JStr "claim_update"); v_exp := unsigned_decimal (show_Z 2593000) |} ∧
  verifyUnsubscribeToken (Some (signUnsubscribeToken wallet (Some "claim_update") None "s3cret" 1000)) "s3cret" 2593000 = None.
Proof.
  assert (plain_payload {| userId := wallet; scope := Some "claim_update"; exp := 2593000 |}) as Hp.
  { split_and!; [reflexivity|intros s [= <-]; reflexivity|cbn; lia..]. }
  split.
  - exact (unsubscribe_roundtrip wallet (Some "claim_update") None "s3cret" 1000 2592999 Hp).
  - exact (unsubscribe_roundtrip wallet (Some "claim_update") None "s3cret" 1000 2593000 Hp).
Defined.
End UnsubscribeWitnesses.
