(* ===== verification/Notifications.v ===== *)
(** * Notifications: preferences, routing, digests

    backend/src/notifications: the routing preferences
    (notification-preference.types.ts), the dispatcher that routes an event to
    e-mail and in-app and batches digests (notification-dispatch.service.ts),
    and the preference operations of notifications.service.ts, one-click
    unsubscription included.  The preference repository is the in-memory one of
    notification-preferences.repository.ts; every write to the database or the
    queue may fail. *)

From stdpp Require Import base gmap list strings.
From Stdlib Require Import ZArith Lia Ascii.
From S2P Require Import Prelude JsText JsNumber Codec QuietHours Signature Unsubscribe.

Open Scope string_scope.
Open Scope Z_scope.

(** ** Preferences *)

(** Models [NOTIFICATION_TYPES] (backend/src/notifications/notification-preference.types.ts:1-3). *)
Inductive NotificationType := RenewalReminder | ClaimUpdate.
#[export] Instance NotificationType_eq : EqDecision NotificationType.
Proof. solve_decision. Defined.

(** Models [NOTIFICATION_CHANNELS] (backend/src/notifications/notification-preference.types.ts:42-44). *)
Inductive NotificationChannel := Email | InApp.
#[export] Instance NotificationChannel_eq : EqDecision NotificationChannel.
Proof. solve_decision. Defined.

Definition type_name (t : NotificationType) : string :=
  match t with RenewalReminder => "renewal_reminder" | ClaimUpdate => "claim_update" end.

(** Models [EventChannelRouting] (backend/src/notifications/notification-preference.types.ts:47-50). *)
Record EventChannelRouting := { email : bool; inApp : bool }.

(** Models [QuietHoursConfig] (backend/src/notifications/notification-preference.types.ts:53-57). *)
Record QuietHoursConfig := { q_enabled : bool; q_window : QuietHours.QuietHoursWindow }.

(** Models [DigestMode] (backend/src/notifications/notification-preference.types.ts:60-60). *)
Inductive DigestMode := DigestOff | Daily | Batch.
#[export] Instance DigestMode_eq : EqDecision DigestMode.
Proof. solve_decision. Defined.

(** A record indexed by the notification types.
    Models [NotificationRoutingPreferences] (backend/src/notifications/notification-preference.types.ts:62-66). *)
Record Routing := { events : NotificationType → EventChannelRouting; quietHours : QuietHoursConfig; digestMode : DigestMode }.

(** Models [DEFAULT_QUIET_HOURS] (backend/src/notifications/notification-preference.types.ts:73-77). *)
Definition DEFAULT_QUIET_HOURS : QuietHoursConfig :=
  {| q_enabled := false; q_window := {| QuietHours.start := "22:00"; QuietHours.end_ := "07:00" |} |}.

(** Models [defaultRoutingPreferences] (backend/src/notifications/notification-preference.types.ts:81-89). *)
Definition defaultRoutingPreferences : Routing :=
  {| events _ := {| email := true; inApp := true |}; quietHours := DEFAULT_QUIET_HOURS; digestMode := DigestOff |}.

(** Overrides of single fields: a stored or submitted object in which any property may be missing. *)
Record ChannelOverride := { o_email : option bool; o_inApp : option bool }.
Record QuietOverride := { o_enabled : option bool; o_start : option string; o_end : option string }.
Record Overrides := {
  o_events : NotificationType → option ChannelOverride; o_quiet : option QuietOverride; o_digest : option DigestMode }.

(** [{ ...base, ...(over ?? {}) }]. *)
Definition spread_channels (base : EventChannelRouting) (over : option ChannelOverride) : EventChannelRouting :=
  match over with
  | None => base
  | Some o => {| email := default (email base) (o_email o); inApp := default (inApp base) (o_inApp o) |}
  end.
Definition spread_quiet (base : QuietHoursConfig) (over : option QuietOverride) : QuietHoursConfig :=
  match over with
  | None => base
  | Some o => {| q_enabled := default (q_enabled base) (o_enabled o);
                 q_window := {| QuietHours.start := default (QuietHours.start (q_window base)) (o_start o);
                                QuietHours.end_ := default (QuietHours.end_ (q_window base)) (o_end o) |} |}
  end.
Definition merge (base : Routing) (over : Overrides) : Routing :=
  {| events t := spread_channels (events base t) (o_events over t);
     quietHours := spread_quiet (quietHours base) (o_quiet over);
     digestMode := default (digestMode base) (o_digest over) |}.

(** A complete object as an override. *)
Definition full (r : Routing) : Overrides :=
  {| o_events t := Some {| o_email := Some (email (events r t)); o_inApp := Some (inApp (events r t)) |};
     o_quiet := Some {| o_enabled := Some (q_enabled (quietHours r));
                        o_start := Some (QuietHours.start (q_window (quietHours r)));
                        o_end := Some (QuietHours.end_ (q_window (quietHours r))) |};
     o_digest := Some (digestMode r) |}.

(** Models [resolveRoutingPreferences] (backend/src/notifications/notification-preference.types.ts:92-107). *)
Definition resolveRoutingPreferences (stored : option Overrides) : Routing :=
  match stored with
  | None => defaultRoutingPreferences
  | Some o => merge defaultRoutingPreferences o
  end.

(** Models [NotificationPreferenceRecord] (backend/src/notifications/notification-preference.types.ts:14-23). *)
Record PrefRecord := {
  renewalRemindersEnabled : option bool; claimUpdatesEnabled : option bool;
  routing : option Overrides; p_email : option string; emailVerified : bool }.

(** Models [NOTIFICATION_TYPE_TO_PREFERENCE_KEY] (backend/src/notifications/notification-preference.types.ts:32-38). *)
Definition preference (t : NotificationType) (r : PrefRecord) : option bool :=
  match t with RenewalReminder => renewalRemindersEnabled r | ClaimUpdate => claimUpdatesEnabled r end.

(** ** The state of the dispatcher *)

(** Models [NotificationDeliveryJob] (backend/src/notifications/notification-dispatch.service.ts:40-46). *)
Record Job := { j_userId : string; j_type : NotificationType; j_recordIds : list string; j_channels : list NotificationChannel }.

(** A row of the notification table. *)
Record Row := { n_id : string; n_userId : string; n_type : NotificationType; n_recordId : string; n_acknowledgedAt : option Z }.

(** Models [DigestEntry] (backend/src/notifications/notification-dispatch.service.ts:85-88). *)
Record DigestEntry := { d_type : NotificationType; d_recordIds : list string }.

(** The repository, the table, the digests in insertion order with their timer, the queue with the delay of each
    job, the failures to come, and the clock. *)
Record nworld := NWorld {
  prefs : gmap string PrefRecord; rows : list Row; digests : list (string * DigestEntry); digestTimer : bool;
  queue : list (Job * Z); faults : list bool; now : Z }.

Abbreviation MN A := (M nworld string A).

(** One write outside the process: rejected when the next fault bit is set. *)
Definition external (f : nworld → nworld) : MN () := λ w,
  let w1 := NWorld (prefs w) (rows w) (digests w) (digestTimer w) (queue w) (tail (faults w)) (now w) in
  match faults w with true :: _ => (Throw "unavailable", w1) | _ => (Ok tt, f w1) end.

Definition set_digests (d : list (string * DigestEntry)) (t : bool) (w : nworld) : nworld :=
  NWorld (prefs w) (rows w) d t (queue w) (faults w) (now w).

(** Models [findByUserId] (backend/src/notifications/notification-preferences.repository.ts:19-21). *)
Definition findByUserId (userId : string) : MN (option PrefRecord) := λ w, (Ok (prefs w !! userId), w).

(** Models [upsert] (backend/src/notifications/notification-preferences.repository.ts:23-28). *)
Definition upsert (userId : string) (r : PrefRecord) : MN () := λ w,
  (Ok tt, NWorld (<[userId := r]> (prefs w)) (rows w) (digests w) (digestTimer w) (queue w) (faults w) (now w)).

(** Models [DispatchSkipReason] (backend/src/notifications/notification-dispatch.service.ts:65-69). *)
Inductive SkipReason := PreferenceDisabled | NoEnabledChannel | EmailUnverified | EmailNotRouted.

(** Models [DispatchOutcome] (backend/src/notifications/notification-dispatch.service.ts:71-83). *)
Record Outcome := {
  notificationId : option string; channels : list NotificationChannel;
  skipped : list (NotificationChannel * SkipReason); deferredUntil : option Z; digested : bool }.

Section dispatch.
(** The id the database gives the n-th row. *)
Context (row_id : nat → string).

Definition create_row (userId : string) (t : NotificationType) (recordId : string) (ack : bool) : MN string :=
  let* w := get_world in
  do* external (λ w1, NWorld (prefs w1) (rows w1 ++ [{| n_id := row_id (length (rows w)); n_userId := userId; n_type := t;
        n_recordId := recordId; n_acknowledgedAt := if ack then Some (now w) else None |}])%list
      (digests w1) (digestTimer w1) (queue w1) (faults w1) (now w1)) in
  ret (row_id (length (rows w))).

(** Models [defaultEnqueue] (backend/src/notifications/notification-dispatch.service.ts:90-98). *)
Definition enqueue (job : Job) (delayMs : Z) : MN () :=
  external (λ w, NWorld (prefs w) (rows w) (digests w) (digestTimer w) (queue w ++ [(job, if 0 <? delayMs then delayMs else 0)])%list
                   (faults w) (now w)).

(** The delay and the moment delivery resumes.
    Models [resolveQuietDelay] (backend/src/notifications/notification-dispatch.service.ts:286-298). *)
Definition resolveQuietDelay (r : Routing) (t : Z) : Z * option Z :=
  let q := quietHours r in
  if negb (q_enabled q) then (0, None)
  else if negb (QuietHours.isWithinQuietHours t (q_window q) 0) then (0, None)
  else let resumeAt := QuietHours.nextQuietPeriodEnd t (q_window q) 0 in (Z.max (resumeAt - t) 0, Some resumeAt).

Fixpoint push_digest (userId : string) (t : NotificationType) (recordId : string) (d : list (string * DigestEntry))
    : list (string * DigestEntry) :=
  match d with
  | [] => [(userId, {| d_type := t; d_recordIds := [recordId] |})]
  | (u, e) :: d' =>
      if bool_decide (u = userId) then (u, {| d_type := d_type e; d_recordIds := d_recordIds e ++ [recordId] |}) :: d'
      else (u, e) :: push_digest userId t recordId d'
  end.

(** Models [bufferDigest] (backend/src/notifications/notification-dispatch.service.ts:264-283). *)
Definition bufferDigest (userId : string) (t : NotificationType) (recordId : string) : MN () := λ w,
  (Ok tt, set_digests (push_digest userId t recordId (digests w)) true w).

Definition nothing (l : list (NotificationChannel * SkipReason)) : Outcome :=
  {| notificationId := None; channels := []; skipped := l; deferredUntil := None; digested := false |}.

(** [Boolean(record?.email) && record?.emailVerified === true]. *)
Definition email_usable (record : option PrefRecord) : bool :=
  match record with
  | Some r => bool_decide (is_Some (truthy (p_email r))) && emailVerified r
  | None => false
  end.

(** Models [dispatch] (backend/src/notifications/notification-dispatch.service.ts:129-218). *)
Definition dispatch (t : NotificationType) (userId recordId : string) : MN Outcome :=
  let* record := findByUserId userId in
  let r := resolveRoutingPreferences (record ≫= routing) in
  let masterSwitch := negb (bool_decide (record ≫= preference t = Some false)) in
  if negb masterSwitch then ret (nothing [(Email, PreferenceDisabled); (InApp, PreferenceDisabled)])
  else
    let emailRouted := email (events r t) in
    let inAppRouted := inApp (events r t) in
    let emailReady := emailRouted && email_usable record in
    let skip1 := if emailRouted && negb emailReady then [(Email, EmailUnverified)] else [] in
    if negb emailRouted && negb inAppRouted then
      ret (nothing (skip1 ++ [(Email, NoEnabledChannel); (InApp, NoEnabledChannel)])%list)
    else
      let* id := create_row userId t recordId (negb inAppRouted) in
      let chan := if inAppRouted then [InApp] else [] in
      if negb emailReady then
        ret {| notificationId := Some id; channels := chan; skipped := skip1; deferredUntil := None; digested := false |}
      else
        let* w := get_world in
        let '(delayMs, until) := resolveQuietDelay r (now w) in
        if negb (bool_decide (digestMode r = DigestOff)) && bool_decide (t = ClaimUpdate) then
          do* bufferDigest userId t id in
          ret {| notificationId := Some id; channels := (chan ++ [Email])%list; skipped := skip1; deferredUntil := until; digested := true |}
        else
          do* enqueue {| j_userId := userId; j_type := t; j_recordIds := [id]; j_channels := [Email] |} delayMs in
          ret {| notificationId := Some id; channels := (chan ++ [Email])%list; skipped := skip1; deferredUntil := until; digested := false |}.

(** The loop of [flushDigests] over the pending entries: each is removed before it is queued. *)
Fixpoint flush_loop (pending : list (string * DigestEntry)) (enqueued : Z) : MN Z :=
  match pending with
  | [] => ret enqueued
  | (uid, entry) :: rest =>
      do* (λ w, (Ok tt, set_digests (filter (λ d, d.1 ≠ uid) (digests w)) (digestTimer w) w)) in
      match d_recordIds entry with
      | [] => flush_loop rest enqueued
      | ids =>
          let* record := findByUserId uid in
          let r := resolveRoutingPreferences (record ≫= routing) in
          let* w := get_world in
          do* enqueue {| j_userId := uid; j_type := d_type entry; j_recordIds := ids; j_channels := [Email] |}
                (resolveQuietDelay r (now w)).1 in
          flush_loop rest (enqueued + 1)
      end
  end.

(** Models [flushDigests] (backend/src/notifications/notification-dispatch.service.ts:224-252). *)
Definition flushDigests (userId : option string) : MN Z :=
  let* w := get_world in
  flush_loop (match truthy userId with
              | Some u => filter (λ d, d.1 = u) (digests w)
              | None => digests w
              end) 0.

(** The callback of the digest timer: the timer is forgotten first and a failure is only logged.
    Models [bufferDigest, timer] (backend/src/notifications/notification-dispatch.service.ts:274-279). *)
Definition timer_fires : MN () :=
  do* (λ w, (Ok tt, set_digests (digests w) false w)) in
  try_catch (let* _ := flushDigests None in ret tt) (λ _, ret tt).
End dispatch.

(** ** Preference operations of notifications.service.ts *)

(** Models [resolveNotificationPreferences] (backend/src/notifications/notifications.service.ts:514-525). *)
Definition resolved_preference (t : NotificationType) (record : option PrefRecord) : bool :=
  default true (record ≫= preference t).

(** Models [getRoutingPreferences] (backend/src/notifications/notifications.service.ts:376-381). *)
Definition getRoutingPreferences (userId : string) : MN Routing :=
  let* record := findByUserId userId in ret (resolveRoutingPreferences (record ≫= routing)).

(** Models [updateRoutingPreferences] (backend/src/notifications/notifications.service.ts:384-419). *)
Definition updateRoutingPreferences (userId : string) (update : Overrides) : MN Routing :=
  let* current := getRoutingPreferences userId in
  let next := merge current update in
  let* record := findByUserId userId in
  do* upsert userId {| renewalRemindersEnabled := Some (resolved_preference RenewalReminder record);
                       claimUpdatesEnabled := Some (resolved_preference ClaimUpdate record);
                       routing := Some (full next); p_email := record ≫= p_email;
                       emailVerified := default false (emailVerified <$> record) |} in
  ret next.

(** Models [updateUserNotificationPreferences] (backend/src/notifications/notifications.service.ts:118-143). *)
Definition updateUserNotificationPreferences (userId : string) (renewal claim : option bool) : MN (bool * bool) :=
  let* record := findByUserId userId in
  let r := default (resolved_preference RenewalReminder record) renewal in
  let c := default (resolved_preference ClaimUpdate record) claim in
  do* upsert userId {| renewalRemindersEnabled := Some r; claimUpdatesEnabled := Some c;
                       routing := record ≫= routing; p_email := record ≫= p_email;
                       emailVerified := default false (emailVerified <$> record) |} in
  ret (r, c).

(** A record with the defaults is stored on the first read.
    Models [getUserNotificationPreferences] (backend/src/notifications/notifications.service.ts:98-116). *)
Definition getUserNotificationPreferences (userId : string) : MN (bool * bool) :=
  let* stored := findByUserId userId in
  let* stored := match stored with
    | Some r => ret (Some r)
    | None =>
        do* upsert userId {| renewalRemindersEnabled := Some true; claimUpdatesEnabled := Some true; routing := None;
                             p_email := None; emailVerified := false |} in
        findByUserId userId
    end in
  ret (resolved_preference RenewalReminder stored, resolved_preference ClaimUpdate stored).

(** Models [shouldSendNotification] (backend/src/notifications/notifications.service.ts:145-151). *)
Definition shouldSendNotification (userId : string) (t : NotificationType) : MN bool :=
  let* p := getUserNotificationPreferences userId in
  ret (match t with RenewalReminder => p.1 | ClaimUpdate => p.2 end).

(** The types a scope of an unsubscribe link covers. *)
Definition scope_types (scope : option string) : list NotificationType :=
  match truthy scope with
  | None => [RenewalReminder; ClaimUpdate]
  | Some s =>
      if bool_decide (s = "*") || bool_decide (s = "all") then [RenewalReminder; ClaimUpdate]
      else filter (λ t, type_name t = s) [RenewalReminder; ClaimUpdate]
  end.

(** Whether anything was switched off, and the scope that was.
    Models [unsubscribeFromEmail] (backend/src/notifications/notifications.service.ts:425-447). *)
Definition unsubscribeFromEmail (userId : string) (scope : option string) : MN (bool * string) :=
  let* r := getRoutingPreferences userId in
  match scope_types scope with
  | [] => ret (false, default "*" scope)
  | types =>
      let next t := if bool_decide (t ∈ types) then {| email := false; inApp := inApp (events r t) |} else events r t in
      let* _ := updateRoutingPreferences userId
        {| o_events t := Some {| o_email := Some (email (next t)); o_inApp := Some (inApp (next t)) |};
           o_quiet := None; o_digest := None |} in
      ret (true, match types with [t] => type_name t | _ => "*" end)
  end.

(** ** Lemmas *)

(** An e-mail is due: the type is not switched off, routed to e-mail, and the address is verified. *)
Definition email_allowed (record : option PrefRecord) (t : NotificationType) : bool :=
  negb (bool_decide (record ≫= preference t = Some false)) &&
  email (events (resolveRoutingPreferences (record ≫= routing)) t) && email_usable record.

Lemma spread_full base r t : spread_channels base (o_events (full r) t) = events r t.
Proof. cbn. by destruct (events r t). Qed.

(** A stored complete object is read back as it was. *)
Lemma resolve_full r t : events (resolveRoutingPreferences (Some (full r))) t = events r t.
Proof. apply spread_full. Qed.

Lemma resolve_full_quiet r : quietHours (resolveRoutingPreferences (Some (full r))) = quietHours r.
Proof. cbn. destruct (quietHours r) as [? []]. done. Qed.

(** The only e-mail action of a dispatch. *)
Definition email_action (r : Routing) (t : NotificationType) (userId id : string) (w : nworld) :
    list (string * DigestEntry) * list (Job * Z) :=
  if negb (bool_decide (digestMode r = DigestOff)) && bool_decide (t = ClaimUpdate)
  then (push_digest userId t id (digests w), queue w)
  else let delayMs := (resolveQuietDelay r (now w)).1 in
       (digests w, queue w ++ [({| j_userId := userId; j_type := t; j_recordIds := [id]; j_channels := [Email] |},
                                (if 0 <? delayMs then delayMs else 0))])%list.

Section facts.
Context (row_id : nat → string).

Lemma create_row_ok userId t recordId ack w id w1 :
  create_row row_id userId t recordId ack w = (Ok id, w1) →
  id = row_id (length (rows w)) ∧ prefs w1 = prefs w ∧ digests w1 = digests w ∧ queue w1 = queue w ∧ now w1 = now w.
Proof.
  unfold create_row, get_world, bind, external. destruct (faults w) as [|[] fs]; [|done|]; intros [= <- <-]; done.
Qed.

Lemma enqueue_ok job delayMs w u w1 : enqueue job delayMs w = (Ok u, w1) →
  w1 = NWorld (prefs w) (rows w) (digests w) (digestTimer w)
         (queue w ++ [(job, (if 0 <? delayMs then delayMs else 0))]) (tail (faults w)) (now w).
Proof. unfold enqueue, external. destruct (faults w) as [|[] fs]; [|done|]; intros [= _ <-]; done. Qed.

(** What a dispatch that resolves does with e-mail. *)
Lemma dispatch_cases t userId recordId w o w' :
  dispatch row_id t userId recordId w = (Ok o, w') →
  let record := prefs w !! userId in
  let r := resolveRoutingPreferences (record ≫= routing) in
  prefs w' = prefs w ∧
  if email_allowed record t then
    Email ∈ channels o ∧ notificationId o = Some (row_id (length (rows w))) ∧
    (digests w', queue w') = email_action r t userId (row_id (length (rows w))) w
  else (Email ∉ channels o) ∧ digests w' = digests w ∧ queue w' = queue w.
Proof.
  unfold dispatch, findByUserId, bind at 1. cbv zeta. set (record := prefs w !! userId).
  set (r := resolveRoutingPreferences _). unfold email_allowed. fold r.
  destruct (bool_decide (record ≫= preference t = Some false)); cbn [negb andb].
  { intros [= <- <-]. cbn. split; [done|]. split; [by intros ?%elem_of_nil|done]. }
  set (eR := email (events r t)). set (iR := inApp (events r t)).
  destruct (negb eR && negb iR) eqn:Hnone.
  { intros [= <- <-]. apply andb_true_iff in Hnone as [He _]. apply negb_true_iff in He as ->. cbn.
    split; [done|]. split; [by intros ?%elem_of_nil|done]. }
  intros (id & w1 & (-> & Hp & Hd & Hq & Hn)%create_row_ok & Hrun)%bind_ok_inv.
  destruct (eR && email_usable record) eqn:Hready; cbn [negb] in Hrun.
  2: { injection Hrun as <- <-. cbn [channels]. split; [done|]. split; [|done].
       destruct iR; [by intros ?%list_elem_of_singleton|by intros ?%elem_of_nil]. }
  unfold bind at 1, get_world in Hrun. rewrite Hn in Hrun. unfold email_action.
  destruct (resolveQuietDelay r (now w)) as [delay until]. cbn [fst].
  destruct (negb (bool_decide (digestMode r = DigestOff)) && bool_decide (t = ClaimUpdate)).
  - unfold bufferDigest, bind, ret in Hrun. injection Hrun as <- <-. cbn [channels notificationId set_digests prefs digests queue].
    rewrite Hd, Hq. split; [done|]. split_and!; [|done..]. apply elem_of_app. right. by apply list_elem_of_singleton.
  - apply bind_ok_inv in Hrun as (u & w2 & ->%enqueue_ok & Hrun). injection Hrun as <- <-.
    cbn [channels notificationId prefs digests queue]. rewrite Hd, Hq. split; [done|]. split_and!; [|done..].
    apply elem_of_app. right. by apply list_elem_of_singleton.
Qed.
End facts.

(** ** Properties of routing *)

Section properties.
Context (row_id : nat → string).

(** C29: A dispatched e-mail leaves outside quiet hours: the job's delay carries it
    to a moment that is not quiet, at most a day ahead. *)
Theorem email_outside_quiet_hours t userId recordId w o w' job delay :
  dispatch row_id t userId recordId w = (Ok o, w') →
  queue w' = (queue w ++ [(job, delay)])%list →
  let q := quietHours (resolveRoutingPreferences (prefs w !! userId ≫= routing)) in
  0 ≤ delay ≤ 1440 * 60000 ∧
  (q_enabled q = true → QuietHours.isWithinQuietHours (now w + delay) (q_window q) 0 = false).
Proof.
  intros Hrun Hq q. destruct (dispatch_cases row_id t userId recordId w o w' Hrun) as [_ Hcase].
  set (r := resolveRoutingPreferences _) in *. destruct (email_allowed _ t).
  - destruct Hcase as (_ & _ & Hact). unfold email_action in Hact.
    destruct (negb _ && _); [injection Hact as _ Hq'; rewrite Hq' in Hq; apply (f_equal length) in Hq; rewrite length_app in Hq; cbn in Hq; lia|].
    injection Hact as _ Hq'. rewrite Hq' in Hq. apply app_inj_2 in Hq as [_ Hj]; [|done]. injection Hj as _ <-.
    unfold resolveQuietDelay. subst q. destruct (q_enabled (quietHours r)) eqn:He; cbn [negb]; [|split; [cbn; lia|done]].
    destruct (QuietHours.isWithinQuietHours (now w) (q_window (quietHours r)) 0) eqn:Hw; cbn [negb fst].
    2: { split; [cbn; lia|]. intros _. rewrite Z.add_0_r. exact Hw. }
    destruct (QuietHours.nextQuietPeriodEnd_spec (now w) (q_window (quietHours r)) 0) as (Hend & Hb & Hiff & _).
    set (next := QuietHours.nextQuietPeriodEnd _ _ _) in *. apply Hiff in Hw.
    rewrite Z.max_l by lia. assert ((0 <? next - now w) = true) as -> by (apply Z.ltb_lt; lia).
    split; [lia|]. intros _. by replace (now w + (next - now w)) with next by lia.
  - destruct Hcase as (_ & _ & Hq'). rewrite Hq' in Hq. apply (f_equal length) in Hq. rewrite length_app in Hq. cbn in Hq. lia.
Qed.

(** Nobody gets an e-mail without a verified address, a routed event and the
    type switched on; everybody who has the three does. *)
Theorem email_iff_allowed t userId recordId w o w' :
  dispatch row_id t userId recordId w = (Ok o, w') →
  (Email ∈ channels o ↔ email_allowed (prefs w !! userId) t = true) ∧
  (email_allowed (prefs w !! userId) t = false → digests w' = digests w ∧ queue w' = queue w).
Proof.
  intros Hrun. destruct (dispatch_cases row_id t userId recordId w o w' Hrun) as [_ Hcase].
  destruct (email_allowed _ t); [|by destruct Hcase as (? & ? & ?)]. by destruct Hcase as (? & ? & ?).
Qed.

Lemma upsert_prefs userId r w : prefs (world_of (upsert userId r) w) = <[userId := r]> (prefs w).
Proof. done. Qed.

(** What an unsubscription leaves in the repository. *)
Lemma unsubscribe_cases userId scope w :
  let record := prefs w !! userId in
  let r := resolveRoutingPreferences (record ≫= routing) in
  match scope_types scope with
  | [] => unsubscribeFromEmail userId scope w = (Ok (false, default "*" scope), w)
  | types => ∃ s rec', unsubscribeFromEmail userId scope w = (Ok (true, s), world_of (upsert userId rec') w) ∧
      (∀ t, events (resolveRoutingPreferences (routing rec')) t =
              if bool_decide (t ∈ types) then {| email := false; inApp := inApp (events r t) |} else events r t) ∧
      p_email rec' = record ≫= p_email ∧ emailVerified rec' = default false (emailVerified <$> record) ∧
      (∀ t, preference t rec' = Some (resolved_preference t record))
  end.
Proof.
  intros record r. unfold unsubscribeFromEmail, getRoutingPreferences, findByUserId, bind at 1 2, ret. fold record r.
  destruct (scope_types scope) as [|t0 types]; [done|].
  unfold updateRoutingPreferences, getRoutingPreferences, findByUserId, bind, ret. fold record r.
  eexists _, _. split; [reflexivity|]. cbn [routing p_email emailVerified]. split_and!; [|done..|by intros []].
  intros t. rewrite resolve_full. cbn [events merge o_events spread_channels o_email o_inApp default]. 
  by destruct (if bool_decide _ then _ else _).
Qed.

(** Unsubscribing from a scope stops e-mail of the covered types for that user
    and changes nothing else: not the in-app routing, not the other types,
    not the other users. *)
Theorem unsubscribe_exact userId scope w :
  let w' := world_of (unsubscribeFromEmail userId scope) w in
  (∀ t, t ∈ scope_types scope → email_allowed (prefs w' !! userId) t = false) ∧
  (∀ t, t ∉ scope_types scope → email_allowed (prefs w' !! userId) t = email_allowed (prefs w !! userId) t) ∧
  (∀ t, inApp (events (resolveRoutingPreferences (prefs w' !! userId ≫= routing)) t) =
        inApp (events (resolveRoutingPreferences (prefs w !! userId ≫= routing)) t)) ∧
  (∀ u, u ≠ userId → prefs w' !! u = prefs w !! u) ∧
  rows w' = rows w ∧ digests w' = digests w ∧ queue w' = queue w.
Proof.
  intros w'. pose proof (unsubscribe_cases userId scope w) as Hc. cbv zeta in Hc. subst w'.
  destruct (scope_types scope) as [|t0 types] eqn:Ht.
  { unfold world_of. rewrite Hc. cbn [snd]. split_and!; try done. intros t Hin. by apply elem_of_nil in Hin. }
  destruct Hc as (s & rec' & Hrun & Hev & Hmail & Hver & Hpref). unfold world_of at 1 2 3 4 5 6 7. rewrite Hrun. cbn [snd].
  rewrite upsert_prefs, lookup_insert_eq. cbn [mbind option_bind].
  split_and!; try done.
  - intros t Hin. unfold email_allowed. cbn [mbind option_bind]. rewrite Hev, (bool_decide_eq_true_2 (t ∈ _)) by done.
    cbn [email]. by rewrite andb_false_r.
  - intros t Hin. unfold email_allowed. cbn [mbind option_bind]. rewrite Hev, (bool_decide_eq_false_2 (t ∈ _)) by done.
    rewrite Hpref. unfold resolved_preference. f_equal; [f_equal|].
    + f_equal. apply bool_decide_ext. destruct (prefs w !! userId ≫= preference t) as [[]|]; cbn; split; congruence.
    + unfold email_usable. rewrite Hmail, Hver. destruct (prefs w !! userId) as [rec|]; [done|]. cbn [fmap option_fmap option_map default]. by rewrite andb_false_r.
  - intros t. rewrite Hev. by case_bool_decide.
  - intros u Hu. by rewrite lookup_insert_ne.
Qed.

(** From the link to the silence: a token issued for a user and a scope is
    accepted before it expires, and once it has been used no dispatch of a
    covered type sends that user an e-mail. *)
Theorem one_click_unsubscribes `{HL : HmacLaws} uid sc expiry secret issued seconds w :
  let e := default (issued + 2592000) expiry in
  plain_payload {| userId := uid; scope := sc; exp := e |} → seconds < e →
  ∃ v, verifyUnsubscribeToken (Some (signUnsubscribeToken uid sc expiry secret issued)) secret seconds = Some v ∧
    v_userId v = uid ∧ v_scope v = JStr <$> sc ∧
    ∀ t recordId o w2, t ∈ scope_types sc →
      dispatch row_id t uid recordId (world_of (unsubscribeFromEmail (v_userId v) sc) w) = (Ok o, w2) → Email ∉ channels o.
Proof.
  intros e Hp Hlt. pose proof Hp as (_ & _ & He). cbn [exp] in He.
  exists {| v_userId := uid; v_scope := JStr <$> sc; v_exp := unsigned_decimal (show_Z e) |}. split_and!; [|done..|].
  - pose proof (verify_issued _ secret seconds Hp) as Hv. cbn [exp userId scope] in Hv.
    rewrite (proj2 (Z.leb_gt e seconds)) in Hv by done. exact Hv.
  - intros t recordId o w2 Hin Hrun. destruct (unsubscribe_exact uid sc w) as [Hoff _]. specialize (Hoff t Hin).
    destruct (email_iff_allowed t uid recordId _ o w2 Hrun) as [Hiff _]. cbn [v_userId] in *. rewrite Hiff. congruence.
Qed.
End properties.

(** ** Properties of digests *)

Definition entry_ids (d : list (string * DigestEntry)) : list string := concat ((λ e, d_recordIds e.2) <$> d).
Definition queued_ids (w : nworld) : list string := concat ((λ j, j_recordIds j.1) <$> queue w).

(** One entry per user, none empty. *)
Definition digests_ok (d : list (string * DigestEntry)) : Prop :=
  NoDup (fst <$> d) ∧ Forall (λ e, d_recordIds e.2 ≠ []) d.

Lemma push_digest_users userId t id d u : u ∈ fst <$> push_digest userId t id d ↔ u = userId ∨ u ∈ fst <$> d.
Proof.
  induction d as [|[v e] d IH]; cbn [push_digest]; [cbn; rewrite list_elem_of_singleton, elem_of_nil; naive_solver|].
  case_bool_decide as Hv; cbn [fmap list_fmap fst]; rewrite !elem_of_cons; [naive_solver|]. rewrite IH. naive_solver.
Qed.

Lemma push_digest_ok userId t id d : digests_ok d → digests_ok (push_digest userId t id d).
Proof.
  unfold digests_ok. induction d as [|[u e] d IH]; intros [Hnd Hne]; cbn [push_digest].
  - split; [apply NoDup_singleton|]. by apply List.Forall_cons.
  - cbn [fmap list_fmap fst] in *. apply NoDup_cons in Hnd as [Hu Hnd]. apply Forall_cons in Hne as [He Hne].
    case_bool_decide as Hv; cbn [fmap list_fmap fst].
    + split; [by apply NoDup_cons|]. apply Forall_cons. split; [|done]. cbn. by intros [_ ?]%app_eq_nil.
    + destruct (IH (conj Hnd Hne)) as [Hnd' Hne']. split; [|by apply Forall_cons]. apply NoDup_cons. split; [|done].
      rewrite push_digest_users. naive_solver.
Qed.

(** Nothing is buffered twice or dropped by buffering. *)
Lemma push_digest_ids userId t id d : entry_ids (push_digest userId t id d) ≡ₚ entry_ids d ++ [id].
Proof.
  induction d as [|[u e] d IH]; [done|]. cbn [push_digest]. unfold entry_ids in *.
  case_bool_decide; cbn [fmap list_fmap concat snd d_recordIds].
  - rewrite <-!app_assoc. apply Permutation_app_head. apply Permutation_app_comm.
  - rewrite IH, <-app_assoc. done.
Qed.

Lemma filter_other {V} u (l : list (string * V)) : u ∉ fst <$> l → filter (λ d, d.1 ≠ u) l = l.
Proof.
  intros Hu. apply filter_all. apply Forall_forall. intros [v e] Hin Heq. apply Hu. cbn in Heq. subst.
  by apply (list_elem_of_fmap_2 fst _ (u, e)).
Qed.

Section digests.
Context (row_id : nat → string).

Lemma flush_loop_cases pending k w : digests w = pending → digests_ok pending →
  match flush_loop pending k w with
  | (Ok n, w') => n = k + Z.of_nat (length pending) ∧ digests w' = [] ∧ digestTimer w' = digestTimer w ∧
      queued_ids w' = queued_ids w ++ entry_ids pending
  | (Throw _, w') => ∃ before u e after, pending = before ++ (u, e) :: after ∧ digests w' = after ∧
      digestTimer w' = digestTimer w ∧ queued_ids w' = queued_ids w ++ entry_ids before
  end%list.
Proof.
  revert k w. induction pending as [|[u e] pending IH]; intros k w Hd [Hnd Hne].
  { cbn. rewrite Z.add_0_r, app_nil_r. done. }
  cbn [fmap list_fmap fst] in Hnd. apply NoDup_cons in Hnd as [Hu Hnd]. apply Forall_cons in Hne as [He Hne].
  cbn [flush_loop]. unfold bind at 1. rewrite Hd, filter_cons. cbn [fst]. rewrite decide_False by naive_solver.
  rewrite filter_other by done.
  cbn [snd] in He. destruct (d_recordIds e) as [|i ids] eqn:Hids; [done|].
  unfold findByUserId, get_world, bind at 1 2. cbn [set_digests prefs now].
  match goal with |- context [enqueue ?j ?dl] => set (job := j); generalize dl as delay; intros delay end.
  unfold bind, enqueue, external. cbn [set_digests faults prefs rows digests digestTimer queue now].
  destruct (faults w) as [|[] fs].
  2: { exists [], u, e, pending. cbn. rewrite app_nil_r. done. }
  all: match goal with |- context [flush_loop ?p ?k1 ?w1] =>
    specialize (IH k1 w1 eq_refl (conj Hnd Hne)); destruct (flush_loop p k1 w1) as [[n|err] w'] end.
  all: unfold queued_ids in *; cbn [queue digestTimer] in IH; rewrite fmap_app, concat_app in IH; cbn in IH; rewrite app_nil_r in IH.
  1, 3: destruct IH as (-> & -> & -> & ->); split_and!; [cbn [length]; lia|done|done|];
    unfold entry_ids; cbn [fmap list_fmap concat snd]; by rewrite Hids, <-app_assoc.
  all: destruct IH as (before & v & e' & after & -> & -> & -> & ->); exists ((u, e) :: before), v, e', after;
    split_and!; [done..|]; unfold entry_ids; cbn [fmap list_fmap concat snd]; by rewrite Hids, <-app_assoc.
Qed.

(** Flushing queues every buffered record exactly once and leaves no entry;
    when a write to the queue fails, the entries before it are queued, those
    after it stay, and the records of the failing one are in neither: they are
    lost, because an entry is removed before it is queued. *)
Theorem flush_exact w : digests_ok (digests w) →
  match flushDigests None w with
  | (Ok n, w') => n = Z.of_nat (length (digests w)) ∧ digests w' = [] ∧
      queued_ids w' = queued_ids w ++ entry_ids (digests w)
  | (Throw _, w') => ∃ before u e after, digests w = before ++ (u, e) :: after ∧ d_recordIds e ≠ [] ∧
      digests w' = after ∧ queued_ids w' = queued_ids w ++ entry_ids before
  end%list.
Proof.
  intros Hok. pose proof (flush_loop_cases (digests w) 0 w eq_refl Hok) as Hc.
  unfold flushDigests, get_world, bind. cbn [truthy]. destruct (flush_loop (digests w) 0 w) as [[n|err] w'].
  - by destruct Hc as (-> & ? & _ & ?).
  - destruct Hc as (before & u & e & after & Hd & ? & _ & ?). exists before, u, e, after. split_and!; try done.
    destruct Hok as [_ Hne]. rewrite Hd in Hne. apply Forall_app in Hne as [_ Hne]. by apply Forall_cons in Hne as [? _].
Qed.

(** After a failed flush by the timer the records of the first entry are lost
    and the entries that stay have no timer: nothing sends them until another
    event of some user is buffered. *)
Theorem failed_flush_strands w d : digests_ok (digests w) → faults w = true :: d → digests w ≠ [] →
  let w' := world_of timer_fires w in
  digests w' = tail (digests w) ∧ queued_ids w' = queued_ids w ∧ digestTimer w' = false.
Proof.
  intros [Hnd Hne] Hf Hd w'.
  assert (flush_loop (digests w) 0 (set_digests (digests w) false w) =
    (Throw "unavailable", NWorld (prefs w) (rows w) (tail (digests w)) false (queue w) d (now w))) as Hloop.
  { destruct (digests w) as [|[u e] rest]; [done|]. cbn [fmap list_fmap fst] in Hnd. apply NoDup_cons in Hnd as [Hu _].
    apply Forall_cons in Hne as [He _]. cbn [snd] in He. cbn [flush_loop]. unfold bind at 1. cbn [set_digests digests].
    rewrite filter_cons. cbn [fst]. rewrite decide_False, filter_other by naive_solver.
    destruct (d_recordIds e) as [|i ids]; [done|].
    unfold findByUserId, get_world, bind, enqueue, external. cbn [set_digests prefs now faults]. by rewrite Hf. }
  assert (w' = NWorld (prefs w) (rows w) (tail (digests w)) false (queue w) d (now w)) as ->; [|done].
  subst w'. unfold world_of, timer_fires, try_catch, flushDigests, get_world, bind. cbn [truthy].
  change (digests (set_digests (digests w) false w)) with (digests w). by rewrite Hloop.
Qed.
End digests.

Module NotificationWitnesses.
#[local] Existing Instance SignatureWitnesses.sample_hmac.
#[local] Existing Instance SignatureWitnesses.sample_hmac_laws.

Definition alice : PrefRecord :=
  {| renewalRemindersEnabled := None; claimUpdatesEnabled := None;
     routing := Some (full (merge defaultRoutingPreferences
       {| o_events _ := None; o_quiet := Some {| o_enabled := Some true; o_start := None; o_end := None |}; o_digest := None |}));
     p_email := Some "alice@example.org"; emailVerified := true |}.

(** 23:00 UTC on the first day of the epoch. *)
Definition w0 : nworld := NWorld {[ "alice" := alice ]} [] [] false [] [] 82800000.
Abbreviation ids := (λ n : nat, "n" +:+ show_Z (Z.of_nat n)).

(** A claim update at 23:00 waits eight hours. *)
Example email_outside_quiet_hours_witness :
  ∃ o w' job, dispatch ids ClaimUpdate "alice" "claim-1" w0 = (Ok o, w') ∧ queue w' = [(job, 28800000)] ∧
    QuietHours.isWithinQuietHours (82800000 + 28800000) (q_window DEFAULT_QUIET_HOURS) 0 = false.
Proof.
  destruct (dispatch ids ClaimUpdate "alice" "claim-1" w0) as [[o|e] w'] eqn:Hrun; [|vm_compute in Hrun; discriminate Hrun].
  assert (queue w' = ([] ++ [({| j_userId := "alice"; j_type := ClaimUpdate; j_recordIds := ["n0"]; j_channels := [Email] |}, 28800000)])%list) as Hq
    by (vm_compute in Hrun; injection Hrun as <- <-; reflexivity).
  pose proof (email_outside_quiet_hours ids ClaimUpdate "alice" "claim-1" w0 o w' _ 28800000 Hrun Hq) as [_ Hend].
  eexists o, w', _. split; [reflexivity|]. split; [exact Hq|]. exact (Hend eq_refl).
Defined.

Example email_iff_allowed_witness :
  ∃ o w', dispatch ids RenewalReminder "bob" "p" w0 = (Ok o, w') ∧ Email ∉ channels o.
Proof.
  destruct (dispatch ids RenewalReminder "bob" "p" w0) as [[o|e] w'] eqn:Hrun; [|vm_compute in Hrun; discriminate Hrun].
  exists o, w'. split; [reflexivity|]. destruct (email_iff_allowed ids RenewalReminder "bob" "p" w0 o w' Hrun) as [Hiff _].
  intros Hin. apply Hiff in Hin. vm_compute in Hin. discriminate Hin.
Defined.

Example one_click_unsubscribes_witness :
  ∃ o w2, dispatch ids ClaimUpdate "alice" "claim-2" (world_of (unsubscribeFromEmail "alice" (Some "claim_update")) w0) = (Ok o, w2) ∧
    Email ∉ channels o.
Proof.
  destruct (dispatch ids ClaimUpdate "alice" "claim-2" (world_of (unsubscribeFromEmail "alice" (Some "claim_update")) w0)) as [[o|e] w2] eqn:Hrun;
    [|vm_compute in Hrun; discriminate Hrun].
  exists o, w2. split; [reflexivity|].
  assert (plain_payload {| userId := "alice"; scope := Some "claim_update"; exp := 2592000 |}) as Hp.
  { split_and!; [reflexivity|intros s [= <-]; reflexivity|cbn; lia..]. }
  destruct (one_click_unsubscribes ids "alice" (Some "claim_update") None "k" 0 10 w0 Hp ltac:(cbn; lia)) as (v & _ & Hv & _ & Hoff).
  rewrite Hv in Hoff. apply (Hoff ClaimUpdate "claim-2" o w2); [vm_compute; left|exact Hrun].
Defined.

Definition d0 : list (string * DigestEntry) :=
  [("alice", {| d_type := ClaimUpdate; d_recordIds := ["n1"; "n2"] |}); ("bob", {| d_type := ClaimUpdate; d_recordIds := ["n3"] |})].

Lemma d0_ok : digests_ok d0.
Proof. split; [vm_compute; repeat constructor; set_solver|]. repeat (apply List.Forall_cons; [done|]). apply List.Forall_nil. Defined.

Example flush_exact_witness :
  let w := NWorld ∅ [] d0 true [] [] 0 in
  ∃ w', flushDigests None w = (Ok 2, w') ∧ queued_ids w' = ["n1"; "n2"; "n3"].
Proof.
  intros w. pose proof (flush_exact w d0_ok) as Hf.
  destruct (flushDigests None w) as [[n|e] w'] eqn:Hrun; [|vm_compute in Hrun; discriminate Hrun].
  destruct Hf as (-> & _ & Hq). exists w'. split; [reflexivity|]. exact Hq.
Defined.

Example failed_flush_strands_witness :
  let w' := world_of timer_fires (NWorld ∅ [] d0 true [] [true] 0) in
  digests w' = [("bob", {| d_type := ClaimUpdate; d_recordIds := ["n3"] |})] ∧ queued_ids w' = [] ∧ digestTimer w' = false.
Proof. apply (failed_flush_strands (NWorld ∅ [] d0 true [] [true] 0) []); [exact d0_ok|reflexivity|discriminate]. Defined.
End NotificationWitnesses.
