(* ===== verification/NotifySend.v ===== *)
(** * Notifications: batching, sending, delivery

    backend/src/notifications: claim events gathered per wallet
    (claim-notification-batch.service.ts), sent once per channel with retries
    (sendClaimNotifications of notifications.service.ts), the priorities of the
    notification queue (notification-queue.constants.ts), and the worker that
    turns queued records into e-mails (notification-delivery.processor.ts).
    The outcomes of the providers are parameters. *)

From stdpp Require Import base gmap list strings.
From Stdlib Require Import ZArith Lia Ascii.
From S2P Require Import Prelude JsText Signature Unsubscribe Notifications.

Open Scope string_scope.
Open Scope Z_scope.

(** ** Sending once *)

Module Sender.

(** Models [ClaimFinalizedEvent] (backend/src/notifications/notification.types.ts:3-9). *)
Record ClaimFinalizedEvent := { claimId : string; policyId : Z; claimantPublicKey : string; approved : bool }.

(** Models [UserPreferences] (backend/src/notifications/notification.types.ts:11-19). *)
Record UserPreferences := {
  emailEnabled : bool; u_email : option string; discordEnabled : bool; telegramEnabled : bool; telegramChatId : option string }.

Inductive channel := ChEmail | ChDiscord | ChTelegram.
#[export] Instance channel_eq : EqDecision channel.
Proof. solve_decision. Defined.

Definition channel_name (c : channel) : string :=
  match c with ChEmail => "email" | ChDiscord => "discord" | ChTelegram => "telegram" end.

(** Models [NotificationRecord] (backend/src/notifications/notification.types.ts:21-27). *)
Inductive status := Sent | Failed (error : string) | Skipped.
Record NotificationRecord := { idempotencyKey : string; r_channel : channel; r_status : status }.

(** The set of sent keys, the preferences, the number of provider calls made, the delays slept, and the keys of the
    messages the providers accepted. *)
Record sworld := SWorld {
  sentSet : gset string; user_prefs : gmap string UserPreferences; provider_calls : nat; slept : list Z; accepted : list string }.

Section sender.
(** The outcome of the n-th call to a provider, and the configured endpoints. *)
Context (provider : nat → result string ()) (DISCORD_WEBHOOK_URL TELEGRAM_BOT_TOKEN : option string).

(** Models [getPreferences] (backend/src/notifications/notifications.service.ts:82-91). *)
Definition getPreferences (pk : string) (w : sworld) : UserPreferences :=
  default {| emailEnabled := true; u_email := None; discordEnabled := false; telegramEnabled := false; telegramChatId := None |}
    (user_prefs w !! pk).

(** Models [updatePreferences] (backend/src/notifications/notifications.service.ts:93-96). *)
Definition updatePreferences (pk : string) (p : UserPreferences) (w : sworld) : sworld :=
  SWorld (sentSet w) (<[pk := p]> (user_prefs w)) (provider_calls w) (slept w) (accepted w).

Definition key_of (event : ClaimFinalizedEvent) (c : channel) : string :=
  claimantPublicKey event +:+ ":" +:+ claimId event +:+ ":" +:+ channel_name c.

(** Whether the channel has what it needs; otherwise the sender answers 'no-pref' without a call. *)
Definition wanted (p : UserPreferences) (c : channel) : bool :=
  match c with
  | ChEmail => emailEnabled p && bool_decide (is_Some (truthy (u_email p)))
  | ChDiscord => discordEnabled p && bool_decide (is_Some (truthy DISCORD_WEBHOOK_URL))
  | ChTelegram => telegramEnabled p && bool_decide (is_Some (truthy (telegramChatId p))) &&
                  bool_decide (is_Some (truthy TELEGRAM_BOT_TOKEN))
  end.

(** The loop of [withRetry] with three attempts: attempt [i], [left] more may follow.
    Models [withRetry] (backend/src/notifications/notifications.service.ts:528-545). *)
Fixpoint withRetry (left : nat) (i : Z) (key : string) (w : sworld) : result string () * sworld :=
  let o := provider (provider_calls w) in
  let w1 := SWorld (sentSet w) (user_prefs w) (S (provider_calls w)) (slept w)
              (match o with Ok _ => accepted w ++ [key] | Throw _ => accepted w end)%list in
  match o with
  | Ok _ => (Ok tt, w1)
  | Throw err =>
      match left with
      | O => (Throw err, w1)
      | S left' => withRetry left' (i + 1) key
                     (SWorld (sentSet w1) (user_prefs w1) (provider_calls w1) (slept w1 ++ [500 * 2 ^ i])%list (accepted w1))
      end
  end.

(** Models [sendChannel] (backend/src/notifications/notifications.service.ts:201-225). *)
Definition sendChannel (c : channel) (event : ClaimFinalizedEvent) (p : UserPreferences) (w : sworld)
    : NotificationRecord * sworld :=
  let key := key_of event c in
  let answer s := {| idempotencyKey := key; r_channel := c; r_status := s |} in
  if bool_decide (key ∈ sentSet w) then (answer Skipped, w)
  else if negb (wanted p c) then (answer Skipped, w)
  else
    match withRetry 2 0 key w with
    | (Ok _, w1) => (answer Sent, SWorld ({[key]} ∪ sentSet w1) (user_prefs w1) (provider_calls w1) (slept w1) (accepted w1))
    | (Throw err, w1) => (answer (Failed err), w1)
    end.

(** Models [sendClaimNotifications] (backend/src/notifications/notifications.service.ts:153-199). *)
Definition sendClaimNotifications (event : ClaimFinalizedEvent) (w : sworld) : list NotificationRecord * sworld :=
  let p := getPreferences (claimantPublicKey event) w in
  let '(r1, w1) := sendChannel ChEmail event p w in
  let '(r2, w2) := sendChannel ChDiscord event p w1 in
  let '(r3, w3) := sendChannel ChTelegram event p w2 in
  ([r1; r2; r3], w3).

(** The consumer's handler of a flushed batch: the events in turn.
    Models [NotificationsConsumer, batch handler] (backend/src/notifications/notifications.consumer.ts:22-31). *)
Definition send_all (l : list ClaimFinalizedEvent) (w : sworld) : sworld :=
  foldl (λ w e, (sendClaimNotifications e w).2) w l.

(** ** Properties *)

Lemma withRetry_spec left i key w :
  let '(o, w') := withRetry left i key w in
  sentSet w' = sentSet w ∧ user_prefs w' = user_prefs w ∧
  (provider_calls w < provider_calls w' ≤ provider_calls w + S left)%nat ∧
  match o with
  | Ok _ => provider (pred (provider_calls w')) = Ok tt ∧ accepted w' = accepted w ++ [key]
  | Throw err => (provider_calls w' = provider_calls w + S left)%nat ∧ accepted w' = accepted w ∧
      ∀ j, (provider_calls w ≤ j < provider_calls w')%nat → ∃ e, provider j = Throw e
  end%list.
Proof.
  revert i w. induction left as [|left IH]; intros i w; cbn [withRetry]; destruct (provider (provider_calls w)) as [[]|err] eqn:Ho.
  1, 3: cbn; split_and!; done || lia.
  - cbn [sentSet user_prefs provider_calls accepted]. split_and!; try done; try lia.
    intros j Hj. replace j with (provider_calls w) by lia. eauto.
  - match goal with |- context [withRetry left (i + 1) key ?w1] => specialize (IH (i + 1) w1); destruct (withRetry left (i + 1) key w1) as [[[]|e] w'] end;
      cbn [sentSet user_prefs provider_calls accepted] in IH; destruct IH as (-> & -> & Hb & Hrest).
    + destruct Hrest as [Hp Ha]. split_and!; done || lia.
    + destruct Hrest as (Hc & Ha & Hj). split_and!; try done; try lia. intros j Hlt.
      destruct (decide (j = provider_calls w)) as [->|]; [eauto|]. apply Hj. lia.
Qed.

(** Everything a provider accepted is remembered, and nothing was accepted twice. *)
Definition sent_ok (w : sworld) : Prop := NoDup (accepted w) ∧ ∀ k, k ∈ accepted w ↔ k ∈ sentSet w.

Lemma sendChannel_ok c event p w : sent_ok w → sent_ok (sendChannel c event p w).2.
Proof.
  intros [Hnd Hiff]. unfold sendChannel. case_bool_decide as Hk; [done|]. destruct (negb _); [done|].
  pose proof (withRetry_spec 2 0 (key_of event c) w) as Hs. destruct (withRetry 2 0 (key_of event c) w) as [[[]|err] w'].
  - destruct Hs as (Hset & _ & _ & _ & Ha). unfold sent_ok. cbn [snd sentSet accepted]. rewrite Ha, Hset. split.
    + apply NoDup_app. split_and!; [done| |apply NoDup_singleton]. intros k Hin ->%list_elem_of_singleton. by apply Hk, Hiff.
    + intros k. rewrite elem_of_app, list_elem_of_singleton, elem_of_union, elem_of_singleton, Hiff. naive_solver.
  - destruct Hs as (Hset & _ & _ & _ & Ha & _). unfold sent_ok. cbn [snd]. rewrite Hset, Ha. done.
Qed.

Lemma send_ok event w : sent_ok w → sent_ok (sendClaimNotifications event w).2.
Proof.
  intros Hw. unfold sendClaimNotifications. set (p := getPreferences _ w).
  pose proof (sendChannel_ok ChEmail event p w Hw) as H1. destruct (sendChannel ChEmail event p w) as [r1 w1]. cbn [snd] in H1.
  pose proof (sendChannel_ok ChDiscord event p w1 H1) as H2. destruct (sendChannel ChDiscord event p w1) as [r2 w2]. cbn [snd] in H2.
  pose proof (sendChannel_ok ChTelegram event p w2 H2) as H3. by destruct (sendChannel ChTelegram event p w2) as [r3 w3].
Qed.

(** Keys tell events and channels apart, for claimants without a colon. *)
Lemma key_of_inj e1 e2 c1 c2 :
  avoids ":" (claimantPublicKey e1) = true → avoids ":" (claimantPublicKey e2) = true →
  key_of e1 c1 = key_of e2 c2 → claimantPublicKey e1 = claimantPublicKey e2 ∧
  claimId e1 +:+ ":" +:+ channel_name c1 = claimId e2 +:+ ":" +:+ channel_name c2.
Proof.
  intros H1 H2 Hk. unfold key_of in Hk. apply (f_equal (split ":")) in Hk.
  change (":" +:+ ?x) with (String ":" x) in Hk. rewrite !split_app in Hk by done.
  injection Hk as Hpk Hrest. split; [done|].
  apply (f_equal (join ":")) in Hrest. by rewrite !join_split in Hrest.
Qed.

(** Three calls in a row, between the worlds, that all failed. *)
Definition gave_up (w w' : sworld) : Prop :=
  ∃ j, (provider_calls w ≤ j ∧ j + 3 ≤ provider_calls w')%nat ∧ ∀ i, (i < 3)%nat → ∃ err, provider (j + i) = Throw err.

(** What any number of deliveries does to the preferences, the calls and the accepted messages. *)
Definition onward (w w' : sworld) : Prop :=
  user_prefs w' = user_prefs w ∧ (provider_calls w ≤ provider_calls w')%nat ∧ ∀ k, k ∈ accepted w → k ∈ accepted w'.
#[global] Instance onward_preorder : PreOrder onward.
Proof. split; [done|]. intros a b c (? & ? & ?) (? & ? & ?). split_and!; [congruence|lia|auto]. Qed.

Lemma gave_up_widen a w w' b : (provider_calls a ≤ provider_calls w)%nat → (provider_calls w' ≤ provider_calls b)%nat →
  gave_up w w' → gave_up a b.
Proof. intros Ha Hb (j & ? & Hj). exists j. split; [lia|done]. Qed.

Lemma sendChannel_step c event p w : sent_ok w →
  let w' := (sendChannel c event p w).2 in
  onward w w' ∧
  (∀ k, k ∈ accepted w' → k ∈ accepted w ∨ (wanted p c = true ∧ k = key_of event c)) ∧
  (wanted p c = true → key_of event c ∈ accepted w' ∨ gave_up w w').
Proof.
  intros [_ Hiff]. unfold sendChannel, onward. case_bool_decide as Hk; [cbn; split_and!; auto; left; by apply Hiff|].
  destruct (wanted p c) eqn:Hwa; cbn [negb]; [|cbn; split_and!; auto; done].
  pose proof (withRetry_spec 2 0 (key_of event c) w) as Hs. destruct (withRetry 2 0 (key_of event c) w) as [[[]|err] w'];
    cbn [snd user_prefs provider_calls accepted]; destruct Hs as (_ & Hp & Hb & Hrest).
  - destruct Hrest as [_ Ha]. rewrite Ha. split_and!; try done; try lia.
    + intros k Hin. apply elem_of_app. by left.
    + intros k [Hin|Hin%list_elem_of_singleton]%elem_of_app; auto.
    + intros _. left. apply elem_of_app. right. by apply list_elem_of_singleton.
  - destruct Hrest as (Hc & Ha & Hj). rewrite Ha. split_and!; try done; try lia; [auto|].
    intros _. right. exists (provider_calls w). split; [lia|]. intros i Hi. apply Hj. lia.
Qed.

Lemma send_step event w : sent_ok w →
  let p := getPreferences (claimantPublicKey event) w in
  let w' := (sendClaimNotifications event w).2 in
  onward w w' ∧
  (∀ k, k ∈ accepted w' → k ∈ accepted w ∨ ∃ c, wanted p c = true ∧ k = key_of event c) ∧
  (∀ c, wanted p c = true → key_of event c ∈ accepted w' ∨ gave_up w w').
Proof.
  intros Hw p w'. subst w'. unfold sendClaimNotifications. fold p.
  destruct (sendChannel_step ChEmail event p w Hw) as (O1 & A1 & G1). pose proof (sendChannel_ok ChEmail event p w Hw) as Hw1.
  destruct (sendChannel ChEmail event p w) as [r1 w1]. cbn [snd] in *.
  destruct (sendChannel_step ChDiscord event p w1 Hw1) as (O2 & A2 & G2). pose proof (sendChannel_ok ChDiscord event p w1 Hw1) as Hw2.
  destruct (sendChannel ChDiscord event p w1) as [r2 w2]. cbn [snd] in *.
  destruct (sendChannel_step ChTelegram event p w2 Hw2) as (O3 & A3 & G3).
  destruct (sendChannel ChTelegram event p w2) as [r3 w3]. cbn [snd] in *. split_and!.
  - etrans; [exact O1|]. by etrans.
  - intros k [[[Hk|[Hc ->]]%A1|[Hc ->]]%A2|[Hc ->]]%A3; [by left|right; by eexists..].
  - destruct O1 as (_ & N1 & _), O2 as (_ & N2 & I2), O3 as (_ & N3 & I3).
    intros [] Hc; [destruct (G1 Hc)|destruct (G2 Hc)|destruct (G3 Hc)]; auto;
      right; (eapply gave_up_widen; [| |eassumption]; lia).
Qed.

Lemma send_all_app pre l w : send_all (pre ++ l)%list w = send_all l (send_all pre w).
Proof. apply foldl_app. Qed.

Lemma send_all_spec events w : sent_ok w →
  let w' := send_all events w in
  sent_ok w' ∧ onward w w' ∧
  (∀ k, k ∈ accepted w' → k ∈ accepted w ∨
     ∃ e c, e ∈ events ∧ wanted (getPreferences (claimantPublicKey e) w) c = true ∧ k = key_of e c).
Proof.
  revert w. induction events as [|e events IH]; intros w Hw; [by split_and!; auto|].
  cbn [send_all foldl]. fold (send_all events (sendClaimNotifications e w).2).
  destruct (send_step e w Hw) as (O1 & A1 & _). destruct (IH _ (send_ok e w Hw)) as (Hok & O2 & A2).
  split; [done|]. split; [by etrans|]. intros k [Hk|(e' & c & Hin & Hc & ->)]%A2.
  - destruct (A1 k Hk) as [|(c & Hc & ->)]; [by left|]. right. exists e, c. split_and!; [left|done|done].
  - right. exists e', c. split_and!; [by right| |done]. unfold getPreferences in *. by rewrite <-(proj1 O1).
Qed.

(** C21: Claim events delivered one after the other, however often each and whatever the providers answer.
    Each message is accepted at most once and is remembered exactly when it was accepted; only messages of
    the delivered events, on channels the claimant wants and that are configured, are sent.  A message that
    is still not accepted was tried with every delivery of its event: each time three calls in a row failed.
    Deliveries that overlap are not covered: the set of sent messages is read before the call and added to
    after it. *)
Theorem sent_at_most_once events w : sent_ok w →
  let w' := send_all events w in
  NoDup (accepted w') ∧ (∀ k, k ∈ accepted w' ↔ k ∈ sentSet w') ∧
  (∀ k, k ∈ accepted w' → k ∈ accepted w ∨
     ∃ e c, e ∈ events ∧ wanted (getPreferences (claimantPublicKey e) w) c = true ∧ k = key_of e c) ∧
  ∀ pre e post c, events = (pre ++ e :: post)%list → wanted (getPreferences (claimantPublicKey e) w) c = true →
    key_of e c ∈ accepted w' ∨ gave_up (send_all pre w) (send_all (pre ++ [e])%list w).
Proof.
  intros Hw w'. destruct (send_all_spec events w Hw) as ([Hnd Hiff] & _ & Hacc). split_and!; [done..|].
  intros pre e post c -> Hc. destruct (send_all_spec pre w Hw) as (Hpre & (Hprefs & _) & _).
  destruct (send_step e (send_all pre w) Hpre) as (_ & _ & Htry). unfold getPreferences in Hc, Htry. rewrite Hprefs in Htry.
  rewrite send_all_app. destruct (Htry c Hc) as [Hin|]; [left|by right]. subst w'.
  change (e :: post) with ([e] ++ post)%list. rewrite !send_all_app.
  by apply (send_all_spec post), Hin; apply send_ok.
Qed.

(** The record of a channel tells what happened: skipped exactly when the
    message was sent before or is not wanted, without a call; sent when one of
    at most three calls succeeded; failed when three failed. *)
Theorem channel_record_exact c event p w :
  let '(r, w') := sendChannel c event p w in
  let key := key_of event c in
  idempotencyKey r = key ∧
  match r_status r with
  | Skipped => (key ∈ sentSet w ∨ wanted p c = false) ∧ w' = w
  | Sent => (key ∉ sentSet w) ∧ wanted p c = true ∧ key ∈ sentSet w' ∧ accepted w' = accepted w ++ [key] ∧
      (provider_calls w < provider_calls w' ≤ provider_calls w + 3)%nat
  | Failed _ => (key ∉ sentSet w) ∧ wanted p c = true ∧ sentSet w' = sentSet w ∧ accepted w' = accepted w ∧
      ∀ j, (provider_calls w ≤ j < provider_calls w + 3)%nat → ∃ e, provider j = Throw e
  end%list.
Proof.
  unfold sendChannel. case_bool_decide as Hk; [cbn; auto|]. destruct (wanted p c) eqn:Hw; cbn [negb]; [|cbn; auto].
  pose proof (withRetry_spec 2 0 (key_of event c) w) as Hs. destruct (withRetry 2 0 (key_of event c) w) as [[[]|err] w'];
    cbn [idempotencyKey r_status sentSet accepted provider_calls]; split; try done.
  - destruct Hs as (Hset & _ & Hb & _ & Ha). split_and!; try done; try lia. set_solver.
  - destruct Hs as (Hset & _ & Hb & Hc & Ha & Hj). split_and!; try done. intros j Hlt. apply Hj. lia.
Qed.
End sender.
End Sender.

(** ** Batching per wallet *)

Module ClaimBatch.
Section batch.
Context {E : Type} (batchWindowMs : Z).

(** A wallet's batch: its events, and the moment its timer fires.
    Models [WalletBatch] (backend/src/notifications/claim-notification-batch.service.ts:11-14). *)
Record WalletBatch := { b_events : list E; b_due : Z }.

(** The timer is cleared and started again by every event.
    Models [accumulateEvent] (backend/src/notifications/claim-notification-batch.service.ts:38-71). *)
Definition accumulateEvent (t : Z) (event : E) (batch : option WalletBatch) : option WalletBatch :=
  Some {| b_events := (match batch with Some b => b_events b | None => [] end ++ [event])%list; b_due := t + batchWindowMs |}.

(** The timers that fire up to the moment [t]: the batch is removed and handed over.
    Models [flushBatch] (backend/src/notifications/claim-notification-batch.service.ts:73-98). *)
Definition advance (t : Z) (batch : option WalletBatch) : option WalletBatch * list (Z * list E) :=
  match batch with
  | Some b => if b_due b <=? t then (None, [(b_due b, b_events b)]) else (batch, [])
  | None => (None, [])
  end.

(** The flushes while events arrive at the given moments; the last timer fires after the last arrival. *)
Fixpoint run (arrivals : list (Z * E)) (batch : option WalletBatch) : list (Z * list E) :=
  match arrivals with
  | [] => match batch with Some b => [(b_due b, b_events b)] | None => [] end
  | (t, e) :: rest => let '(b, out) := advance t batch in (out ++ run rest (accumulateEvent t e b))%list
  end.

Definition held (batch : option WalletBatch) : list E := match batch with Some b => b_events b | None => [] end.

Lemma run_partition arrivals batch : concat (snd <$> run arrivals batch) = (held batch ++ (snd <$> arrivals))%list.
Proof.
  revert batch. induction arrivals as [|[t e] rest IH]; intros batch; cbn [run].
  - destruct batch; cbn; by rewrite ?app_nil_r.
  - destruct (advance t batch) as [b out] eqn:Ha. rewrite fmap_app, concat_app, IH. cbn [held accumulateEvent b_events fmap list_fmap snd].
    rewrite <-app_assoc, app_assoc. f_equal. destruct batch as [b0|]; cbn [advance] in Ha; [|by simplify_eq].
    destruct (b_due b0 <=? t); simplify_eq; cbn; by rewrite ?app_nil_r.
Qed.

(** Every event is handed over exactly once, in the order of arrival. *)
Theorem batches_partition arrivals : concat (snd <$> run arrivals None) = snd <$> arrivals.
Proof. apply run_partition. Qed.

(** A chain of arrivals less than a window apart. *)
Fixpoint dense (last : Z) (arrivals : list (Z * E)) : Prop :=
  match arrivals with [] => True | (t, _) :: rest => t < last + batchWindowMs ∧ dense t rest end.

Definition last_arrival (t : Z) (arrivals : list (Z * E)) : Z := default t (last (fst <$> arrivals)).

Lemma run_dense arrivals t b : b_due b = t + batchWindowMs → dense t arrivals →
  run arrivals (Some b) = [(last_arrival t arrivals + batchWindowMs, (b_events b ++ (snd <$> arrivals))%list)].
Proof.
  revert t b. induction arrivals as [|[t1 e] rest IH]; intros t b Hb Hd; cbn [run].
  { rewrite Hb. cbn. by rewrite app_nil_r. }
  destruct Hd as [Hlt Hd]. cbn [advance]. rewrite (proj2 (Z.leb_gt _ _)) by lia. cbn [app]. unfold accumulateEvent.
  rewrite (IH t1) by done. f_equal. f_equal; [f_equal|cbn; by rewrite <-app_assoc].
  unfold last_arrival. cbn [fmap list_fmap fst]. destruct rest as [|x rest]; [done|]. cbn [fmap list_fmap].
  rewrite last_cons_cons. destruct (last (x.1 :: (fst <$> rest))) eqn:Hl; [done|]. by apply last_None in Hl.
Qed.

(** The window restarts with every event: while events keep arriving less
    than a window apart, nothing is sent, for however long; the first flush
    comes one window after the last of them. *)
Theorem steady_stream_never_flushed t e arrivals : dense t arrivals →
  run ((t, e) :: arrivals) None = [(last_arrival t arrivals + batchWindowMs, e :: (snd <$> arrivals))].
Proof.
  intros Hd. cbn [run advance app accumulateEvent]. unfold accumulateEvent. cbn [app].
  by rewrite (run_dense arrivals t {| b_events := [e]; b_due := t + batchWindowMs |}) by done.
Qed.
End batch.
End ClaimBatch.

(** ** Priorities *)

(** Models [NOTIFICATION_TYPE_PRIORITY] (backend/src/notifications/notification-queue.constants.ts:23-32). *)
Inductive NotificationPriority := Critical | Digest.
Definition NOTIFICATION_TYPE_PRIORITY (t : NotificationType) : NotificationPriority :=
  match t with ClaimUpdate => Critical | RenewalReminder => Digest end.

(** Models [getPriorityForNotificationType] (backend/src/notifications/notification-queue.constants.ts:38-51). *)
Definition getPriorityForNotificationType (t : NotificationType) : Z :=
  match NOTIFICATION_TYPE_PRIORITY t with Critical => 10 | Digest => 5 end.

(** BullMQ's choice among the waiting jobs (priority, payload): documented to be one with the lowest number. *)
Class JobPicker := next_job : ∀ {J : Type}, list (Z * J) → option (Z * J).
Class JobPickerLaws (P : JobPicker) : Prop :=
  next_lowest : ∀ (J : Type) (l : list (Z * J)) x, next_job l = Some x → x ∈ l ∧ Forall (λ y, x.1 ≤ y.1) l.

(** The lanes are the wrong way round: while a renewal reminder waits, no
    claim update is processed. *)
Theorem reminders_before_claim_updates `{JobPickerLaws} (waiting : list Job) job p :
  let l := (λ j, (getPriorityForNotificationType (j_type j), j)) <$> waiting in
  (∃ r, r ∈ waiting ∧ j_type r = RenewalReminder) → next_job l = Some (p, job) → j_type job = RenewalReminder.
Proof.
  intros l (r & Hr & Htr) Hn. apply next_lowest in Hn as [Hin Hmin].
  apply list_elem_of_fmap in Hin as (j & [= -> ->] & _). rewrite Forall_forall in Hmin.
  specialize (Hmin _ (list_elem_of_fmap_2 (λ j, (getPriorityForNotificationType (j_type j), j)) _ r Hr)).
  cbn [fst] in Hmin. rewrite Htr in Hmin. by destruct (j_type j).
Qed.

(** ** The delivery worker *)

Module Delivery.

(** The scalar members of a record's payload that rendering looks at. *)
Record Payload := { pl_claimId : option string; pl_recordId : option string; pl_policyId : option string; pl_message : option string }.
Record NotificationRow := { row_id : string; row_userId : string; row_type : string; row_payload : Payload }.

(** A mail: the recipient, the row it was rendered from, its headers. *)
Record OutboundEmail := { to : string; rendered : string; headers : list (string * string) }.

(** Whether a row has a template: the identifiers its text needs.
    Models [buildEmailForNotification] (backend/src/notifications/notification-delivery.processor.ts:60-91). *)
Definition buildEmailForNotification (row : NotificationRow) : bool :=
  let p := row_payload row in
  if bool_decide (row_type row = "claim_update") then
    bool_decide (is_Some (pl_claimId p) ∨ is_Some (pl_recordId p)) && bool_decide (is_Some (pl_policyId p))
  else if bool_decide (row_type row = "renewal_reminder") then
    bool_decide (is_Some (pl_policyId p) ∨ is_Some (pl_recordId p))
  else bool_decide (is_Some (truthy (pl_message p))).

Section worker.
Context `{Hmac} (baseUrl unsubscribeSecret : string) (nowSeconds : Z).
(** The notification table, and the outcome of the n-th mail. *)
Context (table : list NotificationRow) (sendMail : nat → result string ()).

(** The mails handed to the transport, sent or not, and those it accepted. *)
Record dworld := DWorld { tried : nat; mails : list OutboundEmail }.

Definition mail_of (address userId : string) (row : NotificationRow) : OutboundEmail :=
  let token := signUnsubscribeToken userId (Some (row_type row)) None unsubscribeSecret nowSeconds in
  {| to := address; rendered := row_id row; headers := buildUnsubscribeHeaders (buildUnsubscribeUrl token baseUrl) |}.

Fixpoint send_rows (address userId : string) (l : list NotificationRow) : M dworld string () :=
  match l with
  | [] => ret tt
  | row :: rest =>
      if buildEmailForNotification row then
        do* (λ w, match sendMail (tried w) with
                  | Ok _ => (Ok tt, DWorld (S (tried w)) (mails w ++ [mail_of address userId row])%list)
                  | Throw e => (Throw e, DWorld (S (tried w)) (mails w))
                  end) in
        send_rows address userId rest
      else send_rows address userId rest
  end.

(** [prefs] is the preference record of the user when the worker runs.
    Models [processNotificationDelivery] (backend/src/notifications/notification-delivery.processor.ts:94-131). *)
Definition processNotificationDelivery (prefs : option PrefRecord) (job : Job) : M dworld string () :=
  if bool_decide (j_userId job = "") || bool_decide (j_recordIds job = []) then ret tt
  else if negb (bool_decide (Email ∈ j_channels job)) then ret tt
  else
    match prefs with
    | Some r =>
        match emailVerified r, truthy (p_email r) with
        | true, Some address =>
            send_rows address (j_userId job)
              (filter (λ row, row_id row ∈ j_recordIds job ∧ row_userId row = j_userId job) table)
        | _, _ => ret tt
        end
    | None => ret tt
    end.

(** The rows of a job that have a template. *)
Definition deliverable (job : Job) : list NotificationRow :=
  filter (λ row, buildEmailForNotification row = true)
    (filter (λ row, row_id row ∈ j_recordIds job ∧ row_userId row = j_userId job) table).

Lemma send_rows_spec address userId l w :
  let rows := filter (λ row, buildEmailForNotification row = true) l in
  match send_rows address userId l w with
  | (Ok _, w') => tried w' = (tried w + length rows)%nat ∧ mails w' = mails w ++ (mail_of address userId <$> rows) ∧
      ∀ i, (i < length rows)%nat → sendMail (tried w + i) = Ok tt
  | (Throw e, w') => ∃ k, (k < length rows)%nat ∧ tried w' = (tried w + S k)%nat ∧
      sendMail (tried w + k) = Throw e ∧ mails w' = mails w ++ (mail_of address userId <$> take k rows) ∧
      ∀ i, (i < k)%nat → sendMail (tried w + i) = Ok tt
  end%list.
Proof.
  revert w. induction l as [|row l IH]; intros w; cbn [send_rows].
  { cbn. rewrite Nat.add_0_r, app_nil_r. split_and!; [done..|lia]. }
  rewrite filter_cons. destruct (buildEmailForNotification row) eqn:Hb.
  2: { rewrite decide_False by done. apply IH. }
  rewrite decide_True by done. unfold bind. destruct (sendMail (tried w)) as [[]|e] eqn:Hs.
  - assert (∀ n, (∀ i, (i < n)%nat → sendMail (S (tried w) + i) = Ok tt) → ∀ i, (i < S n)%nat → sendMail (tried w + i) = Ok tt) as Hshift.
    { intros n Hn [|i] Hi; [by rewrite Nat.add_0_r|]. rewrite Nat.add_succ_r. apply (Hn i). lia. }
    match goal with |- context [send_rows _ _ l ?w1] => specialize (IH w1); destruct (send_rows address userId l w1) as [[[]|e] w'] end;
      cbn [tried mails] in IH.
    + destruct IH as (-> & -> & Hall). cbn [length fmap list_fmap]. rewrite <-app_assoc. split_and!; [lia|done|by apply Hshift].
    + destruct IH as (k & Hk & -> & Hf & -> & Hall). exists (S k). cbn [length take fmap list_fmap]. rewrite <-app_assoc.
      rewrite (Nat.add_succ_r (tried w) k). split_and!; try done; [lia|lia|by apply Hshift].
  - exists O. cbn [length take fmap list_fmap tried mails]. rewrite Nat.add_0_r, app_nil_r. split_and!; try done; lia.
Qed.

(** A job sends one mail per record of its user that has a template, to the
    verified address, each with a one-click unsubscribe link of its own. *)
Theorem delivery_exact r address job w :
  emailVerified r = true → truthy (p_email r) = Some address →
  j_userId job ≠ "" → j_recordIds job ≠ [] → Email ∈ j_channels job →
  match processNotificationDelivery (Some r) job w with
  | (Ok _, w') => mails w' = mails w ++ (mail_of address (j_userId job) <$> deliverable job)
  | (Throw _, w') => ∃ k, (k < length (deliverable job))%nat ∧ tried w' = (tried w + S k)%nat ∧
      mails w' = mails w ++ (mail_of address (j_userId job) <$> take k (deliverable job))
  end%list.
Proof.
  intros Hv Hp Hu Hr Hc. unfold processNotificationDelivery. rewrite !bool_decide_eq_false_2, bool_decide_eq_true_2 by done.
  cbn [orb negb]. rewrite Hv, Hp. pose proof (send_rows_spec address (j_userId job)
    (filter (λ row, row_id row ∈ j_recordIds job ∧ row_userId row = j_userId job) table) w) as Hs. cbv zeta in Hs.
  fold (deliverable job) in Hs. destruct (send_rows _ _ _ w) as [[[]|e] w'].
  - by destruct Hs as (_ & ? & _).
  - destruct Hs as (k & ? & ? & _ & ? & _). by exists k.
Qed.

(** A digest whose mail number [k] fails is retried as a whole: the mails
    before it are sent again, and the user has them twice. *)
Theorem retried_digest_duplicates r address job w k e :
  emailVerified r = true → truthy (p_email r) = Some address →
  j_userId job ≠ "" → j_recordIds job ≠ [] → Email ∈ j_channels job →
  (k < length (deliverable job))%nat → (∀ i, (i < k)%nat → sendMail (tried w + i) = Ok tt) →
  sendMail (tried w + k) = Throw e → (∀ i, (k < i)%nat → sendMail (tried w + i) = Ok tt) →
  let w1 := world_of (processNotificationDelivery (Some r) job) w in
  let w2 := world_of (processNotificationDelivery (Some r) job) w1 in
  mails w2 = (mails w ++ (mail_of address (j_userId job) <$> take k (deliverable job)) ++
              (mail_of address (j_userId job) <$> deliverable job))%list.
Proof.
  intros Hv Hp Hu Hr Hc Hk Hbefore Hfail Hafter w1 w2.
  assert (∀ w0, processNotificationDelivery (Some r) job w0 = send_rows address (j_userId job)
    (filter (λ row, row_id row ∈ j_recordIds job ∧ row_userId row = j_userId job) table) w0) as Hrun.
  { intros w0. unfold processNotificationDelivery. rewrite !bool_decide_eq_false_2, bool_decide_eq_true_2 by done.
    cbn [orb negb]. by rewrite Hv, Hp. }
  pose proof (λ w0, send_rows_spec address (j_userId job)
    (filter (λ row, row_id row ∈ j_recordIds job ∧ row_userId row = j_userId job) table) w0) as Hspec.
  cbv zeta in Hspec. fold (deliverable job) in Hspec.
  assert (tried w1 = (tried w + S k)%nat ∧ mails w1 = (mails w ++ (mail_of address (j_userId job) <$> take k (deliverable job)))%list) as [Ht1 Hm1].
  { subst w1. unfold world_of. rewrite Hrun. specialize (Hspec w). destruct (send_rows _ _ _ w) as [[[]|e1] w']; cbn [snd].
    - destruct Hspec as (_ & _ & Hall). rewrite Hall in Hfail by done. done.
    - destruct Hspec as (k' & Hk' & Ht & Hf & Hm & Hall). assert (k' = k) as ->; [|done].
      destruct (lt_eq_lt_dec k' k) as [[Hlt|]|Hlt]; [rewrite Hbefore in Hf by done; done|done|rewrite Hall in Hfail by done; done]. }
  subst w2. unfold world_of. rewrite Hrun. specialize (Hspec w1). destruct (send_rows _ _ _ w1) as [[[]|e1] w']; cbn [snd].
  - destruct Hspec as (_ & -> & _). by rewrite Hm1, <-app_assoc.
  - destruct Hspec as (k' & _ & _ & Hf & _). rewrite Ht1 in Hf.
    replace (tried w + S k + k')%nat with (tried w + (S k + k'))%nat in Hf by lia. rewrite Hafter in Hf by lia. done.
Qed.
End worker.
End Delivery.

Module NotifySendWitnesses.
Import Delivery.
#[local] Existing Instance SignatureWitnesses.sample_hmac.

(** The first waiting job with the lowest number. *)
Fixpoint pick {J} (l : list (Z * J)) : option (Z * J) :=
  match l with
  | [] => None
  | x :: l' => match pick l' with Some y => if x.1 <=? y.1 then Some x else Some y | None => Some x end
  end.
#[local] Instance sample_picker : JobPicker := @pick.
#[local] Instance sample_picker_laws : JobPickerLaws sample_picker.
Proof.
  intros J l. unfold next_job, sample_picker. induction l as [|x l IH]; intros y; cbn [pick]; [done|].
  destruct (pick l) as [z|] eqn:Hz.
  - destruct (IH z eq_refl) as [Hin Hmin]. case_match; bool_prop; intros [= <-].
    + split; [left|]. apply Forall_cons. split; [lia|]. eapply Forall_impl; [exact Hmin|]. cbn. intros a Ha. lia.
    + split; [by right|]. apply Forall_cons. split; [lia|done].
  - intros [= <-]. destruct l as [|a l]; [split; [left|repeat constructor; lia]|].
    cbn [pick] in Hz. destruct (pick l); [by case_match|done].
Qed.

Definition reminder : Job := {| j_userId := "a"; j_type := RenewalReminder; j_recordIds := ["1"]; j_channels := [Email] |}.
Definition update : Job := {| j_userId := "b"; j_type := ClaimUpdate; j_recordIds := ["2"]; j_channels := [Email] |}.

(** The claim update came first and is processed last. *)
Example reminders_before_claim_updates_witness :
  next_job [(10, update); (5, reminder)] = Some (5, reminder) ∧ j_type reminder = RenewalReminder.
Proof.
  split; [reflexivity|]. apply (reminders_before_claim_updates [update; reminder] reminder 5).
  - exists reminder. split; [right; left|reflexivity].
  - reflexivity.
Defined.

Definition rows : list NotificationRow :=
  [{| row_id := "1"; row_userId := "a"; row_type := "news"; row_payload := {| pl_claimId := None; pl_recordId := None; pl_policyId := None; pl_message := Some "hi" |} |};
   {| row_id := "2"; row_userId := "a"; row_type := "news"; row_payload := {| pl_claimId := None; pl_recordId := None; pl_policyId := None; pl_message := Some "yo" |} |}].
Definition digest_job : Job := {| j_userId := "a"; j_type := ClaimUpdate; j_recordIds := ["1"; "2"]; j_channels := [Email] |}.
Definition ann : PrefRecord :=
  {| renewalRemindersEnabled := None; claimUpdatesEnabled := None; routing := None; p_email := Some "a@x"; emailVerified := true |}.
Definition second_fails (n : nat) : result string () := if (n =? 1)%nat then Throw "down" else Ok tt.

(** The first mail arrives twice. *)
Example retried_digest_duplicates_witness :
  let run := processNotificationDelivery "https://x" "k" 0 rows second_fails (Some ann) digest_job in
  rendered <$> mails (world_of run (world_of run (DWorld 0 []))) = ["1"; "1"; "2"].
Proof.
  intros run. subst run.
  rewrite (retried_digest_duplicates "https://x" "k" 0 rows second_fails ann "a@x" digest_job (DWorld 0 []) 1 "down");
    [reflexivity|reflexivity|reflexivity|discriminate|discriminate|left|vm_compute; lia| |reflexivity|].
  - intros i Hi. assert (i = 0%nat) as -> by lia. reflexivity.
  - intros i Hi. cbn. unfold second_fails. destruct i as [|[|i]]; [lia|lia|reflexivity].
Defined.

(** Events fifty seconds apart in a window of sixty. *)
Example steady_stream_never_flushed_witness :
  ClaimBatch.run 60000 [(0, 1); (50000, 2); (100000, 3); (150000, 4)] None = [(210000, [1; 2; 3; 4])].
Proof. apply (ClaimBatch.steady_stream_never_flushed 60000 0 1 [(50000, 2); (100000, 3); (150000, 4)]). cbn. lia. Defined.

Example sent_at_most_once_witness :
  let e := {| Sender.claimId := "7"; Sender.policyId := 1; Sender.claimantPublicKey := "GA"; Sender.approved := true |} in
  let w := Sender.SWorld ∅ {[ "GA" := {| Sender.emailEnabled := true; Sender.u_email := Some "a@x"; Sender.discordEnabled := false;
    Sender.telegramEnabled := false; Sender.telegramChatId := None |} ]} 0 [] [] in
  Sender.accepted (Sender.send_all second_fails None None [e; e; e] w) = ["GA:7:email"] ∧
  NoDup (Sender.accepted (Sender.send_all second_fails None None [e; e; e] w)).
Proof.
  intros e w. split; [vm_compute; reflexivity|].
  apply (Sender.sent_at_most_once second_fails None None [e; e; e] w). split; [apply NoDup_nil_2|].
  intros k. cbn. split; [intros Hk; by apply elem_of_nil in Hk|set_solver].
Defined.
End NotifySendWitnesses.
