(* ===== verification/ClaimHistory.v ===== *)
(** * Claim history

    backend/src/claims/services/claim-history.service.ts: the paged history of a
    claim and its timeline, both read from the stored contract events, with the
    transitions synthesized from the claim's row.  The database is an interface;
    conditions are the objects the service builds. *)

From stdpp Require Import base gmap list strings sorting.
From Stdlib Require Import ZArith Lia Ascii Sorted.
From S2P Require Import Prelude JsText JsNumber Codec Tenant.

Open Scope string_scope.
Open Scope Z_scope.

(** ** Rows *)

(** A stored contract event. *)
Record RawEvent := {
  ev_id : Z;
  ev_txHash : string;
  ev_ledger : Z;
  ev_closedAt : Z;
  topic1 : option string;
  topic2 : option string;
  topic3 : option string;
  topic4 : option string;
  ev_data : json;
}.

(** The columns of a claim the service reads. *)
Record ClaimRow := {
  c_id : Z;
  c_tenantId : option string;
  c_deletedAt : option Z;
  c_txHash : option string;
  c_status : string;
  c_createdAtLedger : Z;
  c_createdAt : Z;
  c_updatedAtLedger : option Z;
  c_updatedAt : Z;
  appealsCount : option Z;
  appealTxHash : option string;
}.

(** ** Conditions *)

(** A condition on a claim is an object of the tenant helper. *)
Definition claim_obj (c : ClaimRow) : obj :=
  {["id" := VNum (c_id c);
    "tenantId" := match c_tenantId c with Some t => VStr t | None => VNull end;
    "deletedAt" := match c_deletedAt c with Some t => VNum t | None => VNull end]}.

Definition claim_matches (w : obj) (c : ClaimRow) : bool := row_matches w (claim_obj c).

(** Comparison of a column with a number of a decoded cursor. *)
Definition gt_json (n : Z) (v : json) : bool :=
  match v with JNum (Some x) => d_floor x <? n | _ => false end.
Definition eq_json (n : Z) (v : json) : bool :=
  match v with JNum (Some x) => d_isInteger x && (d_floor x =? n) | _ => false end.

(** One key of a condition on the events. *)
Inductive cond :=
  | TxHash (h : option string)
  | Topic1In (l : list string)
  | Topic2In (l : list string)
  | Topic3 (s : string)
  | LedgerGt (v : json)
  | LedgerIs (v : json)
  | IdGt (v : json).

Definition topic_in (l : list string) (t : option string) : bool :=
  match t with Some s => bool_decide (s ∈ l) | None => false end.

(** Prisma drops a key whose value is undefined. *)
Definition cond_holds (e : RawEvent) (c : cond) : bool :=
  match c with
  | TxHash h => match h with None => true | Some s => bool_decide (ev_txHash e = s) end
  | Topic1In l => topic_in l (topic1 e)
  | Topic2In l => topic_in l (topic2 e)
  | Topic3 s => bool_decide (topic3 e = Some s)
  | LedgerGt v => gt_json (ev_ledger e) v
  | LedgerIs v => eq_json (ev_ledger e) v
  | IdGt v => gt_json (ev_id e) v
  end.

Inductive clause := One (c : cond) | OR (alts : list (list cond)).

Definition clause_ok (e : RawEvent) (c : clause) : bool :=
  match c with One c => cond_holds e c | OR alts => existsb (forallb (cond_holds e)) alts end.

Abbreviation EventWhere := (gmap string clause).

(** An object literal: a later property replaces an earlier one of the same name. *)
Definition literal (l : list (string * clause)) : EventWhere := foldl (λ m p, <[p.1 := p.2]> m) ∅ l.

Definition event_matches (w : EventWhere) (e : RawEvent) : bool :=
  bool_decide (map_Forall (λ _ c, clause_ok e c = true) w).

(** ** The database *)

(** [orderBy: [{ ledger: 'asc' }, { id: 'asc' }]] *)
Definition before (a b : RawEvent) : Prop :=
  ev_ledger a < ev_ledger b ∨ (ev_ledger a = ev_ledger b ∧ ev_id a < ev_id b).

Class HistoryDb (D : Type) := {
  claim_rows : D → list ClaimRow;
  event_rows : D → list RawEvent;
  claim_findFirst : obj → D → option ClaimRow;
  (** [findMany] in ledger order, with an optional [take]. *)
  event_findMany : EventWhere → option nat → D → list RawEvent;
}.

Class HistoryDbLaws (D : Type) `{HistoryDb D} : Prop := {
  findFirst_some : ∀ w d c, claim_findFirst w d = Some c → c ∈ claim_rows d ∧ claim_matches w c = true;
  findFirst_none : ∀ w d, claim_findFirst w d = None → ∀ c, c ∈ claim_rows d → claim_matches w c = false;
  findMany_page : ∀ w n d, ∃ l, l ≡ₚ List.filter (event_matches w) (event_rows d) ∧ StronglySorted before l ∧
    event_findMany w n d = match n with Some k => take k l | None => l end;
}.

(** ** Entries *)

(** Models [ClaimHistoryEntry] (backend/src/claims/services/claim-history.service.ts:7-13). *)
Record Entry := {
  en_status : string;
  en_ledger : Z;
  en_timestamp : string;
  en_actor : option string;
  en_reason : option string;
}.

(** Models [ClaimHistoryPage] (backend/src/claims/services/claim-history.service.ts:15-18). *)
Record ClaimHistoryPage := { data : list Entry; nextCursor : option string }.

Inductive HistoryError := ClaimNotFound (id : Z) | TypeError.

(** Models [LEGACY_TOPICS] (backend/src/claims/services/claim-history.service.ts:21-21). *)
Definition LEGACY_TOPICS : list string :=
  ["claim_pd"; "claim_filed"; "claim_approved"; "claim_rejected"; "claim_withdrawn"].

(** Models [CONTRACT_CLAIM_EVENTS] (backend/src/claims/services/claim-history.service.ts:24-25). *)
Definition CONTRACT_CLAIM_EVENTS : list string := ["clm_filed"; "claim_status_changed"; "clm_final"; "clm_paid"].

(** Models [CONTRACT_POLICY_EVENTS] (backend/src/claims/services/claim-history.service.ts:26-36). *)
Definition CONTRACT_POLICY_EVENTS : list string :=
  ["claim_withdrawn"; "claim_fully_paid"; "appeal_opened"; "appeal_resolved"; "appeal_filed"; "appeal_approved";
   "appeal_rejected"].

(** Models [LEGACY_APPEAL_EVENTS] (backend/src/claims/services/claim-history.service.ts:39-40). *)
Definition LEGACY_APPEAL_EVENTS : list string := ["filed"; "approved"; "rejected"].

(** [typeof data[key] === 'string' ? data[key] : null] *)
Definition text (raw : json) (k : string) : option string :=
  match member raw k with Some (JStr s) => Some s | _ => None end.

(** The outcome of a resolved appeal. *)
Definition outcome_text (raw : json) : option string :=
  match nullish (nullish (member raw "outcome") (member raw "new_status")) (member raw "status") with
  | Some (JStr s) => Some s
  | _ => None
  end.

(** Models [mapTopicToStatus] (backend/src/claims/services/claim-history.service.ts:243-257). *)
Definition mapTopicToStatus (topic : string) : string :=
  if bool_decide (topic = "claim_filed") then "pending"
  else if bool_decide (topic = "claim_approved") then "approved"
  else if bool_decide (topic ∈ ["claim_pd"; "claim_paid"]) then "paid"
  else if bool_decide (topic = "claim_rejected") then "rejected"
  else toLowerCase topic.

Definition same (a b : string) : bool := bool_decide (a = b).

(** Models [mapRawEventToStatus] (backend/src/claims/services/claim-history.service.ts:260-314). *)
Definition mapRawEventToStatus (topic1 topic2 : option string) (data : json) : string :=
  let t1 := default "" topic1 in
  let t2 := default "" topic2 in
  let rest := toLowerCase (if same t2 "" then t1 else t2) in
  if same t1 "claim_filed" then "pending"
  else if same t1 "claim_approved" then "approved"
  else if same t1 "claim_rejected" then "rejected"
  else if same t1 "claim_pd" || same t1 "claim_paid" then "paid"
  else if same t1 "claim_withdrawn" then "withdrawn"
  else if same t1 "niffyins" then
    if same t2 "clm_filed" then "pending"
    else if same t2 "claim_status_changed" then
      match text data "new_status" with Some s => toLowerCase s | None => "unknown" end
    else if same t2 "clm_final" then
      match text data "status" with Some s => toLowerCase s | None => "unknown" end
    else if same t2 "clm_paid" then "paid"
    else rest
  else if same t1 "niffyinsure" then
    if same t2 "claim_withdrawn" then "withdrawn"
    else if same t2 "claim_fully_paid" then "paid"
    else if same t2 "appeal_opened" || same t2 "appeal_filed" then "under_appeal"
    else if same t2 "appeal_approved" then "appeal_approved"
    else if same t2 "appeal_rejected" then "appeal_rejected"
    else if same t2 "appeal_resolved" then
      match outcome_text data with
      | Some s =>
          let lower := toLowerCase s in
          if includes lower "approv" then "appeal_approved"
          else if includes lower "reject" then "appeal_rejected"
          else lower
      | None => "appeal_resolved"
      end
    else rest
  else if same t1 "appeal" then
    if same t2 "filed" then "under_appeal"
    else if same t2 "approved" then "appeal_approved"
    else if same t2 "rejected" then "appeal_rejected"
    else rest
  else rest.

(** Models [extractActor] (backend/src/claims/services/claim-history.service.ts:317-353). *)
Definition extractActor (topic1 topic2 topic4 : option string) (data : json) : option string :=
  match text data "actor" with
  | Some a => Some a
  | None =>
      let t1 := default "" topic1 in
      let t2 := default "" topic2 in
      if same t1 "niffyins" && same t2 "clm_filed" then topic4
      else if same t1 "niffyins" && same t2 "clm_paid" then text data "recipient"
      else if same t1 "niffyinsure" && same t2 "claim_withdrawn" then text data "claimant"
      else if same t1 "niffyinsure" && same t2 "claim_fully_paid" then text data "recipient"
      else if same t1 "niffyinsure" &&
        bool_decide (t2 ∈ ["appeal_opened"; "appeal_filed"; "appeal_resolved"; "appeal_approved"; "appeal_rejected"])
        then text data "claimant"
      else if same t1 "appeal" then text data "claimant"
      else None
  end.

(** Models [extractReason] (backend/src/claims/services/claim-history.service.ts:356-398). *)
Definition extractReason (topic1 topic2 : option string) (data : json) : option string :=
  match text data "reason" with
  | Some r => Some r
  | None =>
      let t1 := default "" topic1 in
      let t2 := default "" topic2 in
      if same t1 "niffyins" then
        if same t2 "clm_final" then
          match text data "status" with
          | Some s =>
              if same s "Approved" then Some "Vote majority reached"
              else if same s "Rejected" then Some "Vote majority rejected" else None
          | None => None
          end
        else if same t2 "clm_paid" then Some "Payout processed" else None
      else if same t1 "niffyinsure" then
        if same t2 "claim_withdrawn" then Some "Claimant withdrawal"
        else if same t2 "claim_fully_paid" then Some "Fully paid"
        else if same t2 "appeal_opened" || same t2 "appeal_filed" then Some "Appeal opened"
        else if same t2 "appeal_approved" then Some "Appeal approved"
        else if same t2 "appeal_rejected" then Some "Appeal rejected"
        else if same t2 "appeal_resolved" then
          match outcome_text data with
          | Some s =>
              let lower := toLowerCase s in
              if includes lower "approv" then Some "Appeal approved"
              else if includes lower "reject" then Some "Appeal rejected"
              else Some "Appeal resolved"
          | None => Some "Appeal resolved"
          end
        else None
      else if same t1 "appeal" then
        if same t2 "filed" then Some "Appeal opened"
        else if same t2 "approved" then Some "Appeal approved"
        else if same t2 "rejected" then Some "Appeal rejected"
        else None
      else None
  end.

(** The two callbacks of [events.map]: reading a key of null throws. *)
Definition history_entry (e : RawEvent) : result HistoryError Entry :=
  match ev_data e with
  | JNull => Throw TypeError
  | raw => Ok {| en_status := mapTopicToStatus (default "" (topic1 e)); en_ledger := ev_ledger e;
                 en_timestamp := toISOString (ev_closedAt e); en_actor := text raw "actor"; en_reason := text raw "reason" |}
  end.

Definition timeline_entry (e : RawEvent) : result HistoryError Entry :=
  match ev_data e with
  | JNull => Throw TypeError
  | raw => Ok {| en_status := mapRawEventToStatus (topic1 e) (topic2 e) raw; en_ledger := ev_ledger e;
                 en_timestamp := toISOString (ev_closedAt e); en_actor := extractActor (topic1 e) (topic2 e) (topic4 e) raw;
                 en_reason := extractReason (topic1 e) (topic2 e) raw |}
  end.

(** What is shown of a claim without events. *)
Definition synthesized (claim : ClaimRow) : list Entry :=
  let entry s := {| en_status := s; en_ledger := c_createdAtLedger claim; en_timestamp := toISOString (c_createdAt claim);
                    en_actor := None; en_reason := None |} in
  entry "pending" :: (if same (c_status claim) "PENDING" then [] else [entry (toLowerCase (c_status claim))]).

(** The comparator of the final sort, negative, zero or positive; timestamps
    are ISO texts of one layout, which collate as their digits do. *)
Definition entry_gt (a b : Entry) : bool :=
  if en_ledger a - en_ledger b =? 0 then
    match String.compare (en_timestamp a) (en_timestamp b) with Gt => true | _ => false end
  else 0 <? en_ledger a - en_ledger b.

Definition appealed (claim : ClaimRow) : bool :=
  (0 <? default 0 (appealsCount claim)) || bool_decide (is_Some (truthy (appealTxHash claim))) ||
  same (c_status claim) "UNDER_APPEAL".

Definition has_status (l : list string) (data : list Entry) : bool :=
  existsb (λ e, bool_decide (en_status e ∈ l)) data.

(** The transitions appended for a claim whose row shows an appeal. *)
Definition synthetic (data : list Entry) (claim : ClaimRow) : list Entry :=
  let entry s r := {| en_status := s; en_ledger := default (c_createdAtLedger claim) (c_updatedAtLedger claim);
                      en_timestamp := toISOString (c_updatedAt claim); en_actor := None; en_reason := Some r |} in
  let approved := same (c_status claim) "APPROVED" in
  ((if has_status ["under_appeal"] data then [] else [entry "under_appeal" "Appeal opened"]) ++
   (if negb (has_status ["appeal_approved"; "appeal_rejected"] data) &&
       (approved || same (c_status claim) "REJECTED") && (0 <? default 0 (appealsCount claim))
    then [if approved then entry "appeal_approved" "Appeal approved" else entry "appeal_rejected" "Appeal rejected"]
    else []))%list.

(** Models [appendSyntheticAppealTransitions] (backend/src/claims/services/claim-history.service.ts:404-454). *)
Definition appendSyntheticAppealTransitions (data : list Entry) (claim : ClaimRow) : list Entry :=
  if appealed claim then stable_sort entry_gt (data ++ synthetic data claim)%list else data.

(** The pair a cursor decodes to, when both keys are present. *)
Definition decode_after (cursor : option string) : option (json * json) :=
  match truthy cursor with
  | None => None
  | Some c =>
      match JSON_parse (fromBase64Url c) with
      | Some decoded =>
          match member decoded "ledger", member decoded "id" with
          | Some l, Some i => Some (l, i)
          | _, _ => None
          end
      | None => None
      end
  end.

(** The text of a cursor: [JSON.stringify({ ledger, id })]. *)
Definition cursor_text (ledger id : Z) : string :=
  "{" +:+ quoted "ledger" +:+ ":" +:+ show_Z ledger +:+ "," +:+ quoted "id" +:+ ":" +:+ show_Z id +:+ "}".

(** The condition of the history, in the order the literal names its keys. *)
Definition history_where (claim : ClaimRow) (after : option (json * json)) : EventWhere :=
  literal ([("txHash", One (TxHash (c_txHash claim)))] ++
    match after with
    | Some (l, i) => [("OR", OR [[LedgerGt l]; [LedgerIs l; IdGt i]])]
    | None => []
    end ++
    [("OR", OR ((λ t, [Topic1In [t]]) <$> LEGACY_TOPICS))])%list.

Definition timeline_where (claimId : Z) (claim : ClaimRow) : EventWhere :=
  literal [("OR", OR
    [[TxHash (c_txHash claim); Topic1In LEGACY_TOPICS];
     [Topic1In ["niffyins"]; Topic2In CONTRACT_CLAIM_EVENTS; Topic3 (show_Z claimId)];
     [Topic1In ["niffyinsure"]; Topic2In CONTRACT_POLICY_EVENTS; Topic3 (show_Z claimId)];
     [Topic1In ["appeal"]; Topic2In LEGACY_APPEAL_EVENTS; Topic3 (show_Z claimId)]])].

Section service.
Context {D : Type} `{HistoryDb D}.
Variable tenantId : option string.

Definition find_claim (claimId : Z) (d : D) : result HistoryError ClaimRow :=
  match claim_findFirst (claimTenantWhere tenantId {["id" := VNum claimId]} false) d with
  | Some c => Ok c
  | None => Throw (ClaimNotFound claimId)
  end.

Definition page_size (limit : Z) : Z := Z.min (Z.max 1 limit) 100.

(** Models [getHistory] (backend/src/claims/services/claim-history.service.ts:49-139). *)
Definition getHistory (claimId : Z) (cursor : option string) (limit : Z) (d : D) : result HistoryError ClaimHistoryPage :=
  let! claim := find_claim claimId d in
  let take_ := page_size limit in
  let events := event_findMany (history_where claim (decode_after cursor)) (Some (Z.to_nat (take_ + 1))) d in
  let hasMore := take_ <? Z.of_nat (length events) in
  let page := if hasMore then take (Z.to_nat take_) events else events in
  let! data := map_result history_entry page in
  let data := if bool_decide (data = []) && bool_decide (truthy cursor = None) then synthesized claim else data in
  let nextCursor := if hasMore then (λ e, toBase64Url (cursor_text (ev_ledger e) (ev_id e))) <$> last page else None in
  Ok {| data := data; nextCursor := nextCursor |}.

(** Models [getTimeline] (backend/src/claims/services/claim-history.service.ts:148-240). *)
Definition getTimeline (claimId : Z) (d : D) : result HistoryError (list Entry) :=
  let! claim := find_claim claimId d in
  let events := event_findMany (timeline_where claimId claim) None d in
  let! data := map_result timeline_entry events in
  let data := if bool_decide (data = []) then synthesized claim else data in
  Ok (appendSyntheticAppealTransitions data claim).
End service.

(** ** Facts *)

(** The second [OR] of the literal replaces the cursor's. *)
Lemma history_where_after claim after : history_where claim after = history_where claim None.
Proof. destruct after as [[l i]|]; [|done]. unfold history_where, literal. cbn. by rewrite insert_insert_eq. Qed.

Lemma history_entry_total e : ev_data e ≠ JNull → ∃ x, history_entry e = Ok x.
Proof. unfold history_entry. destruct (ev_data e); eauto; done. Qed.

Lemma timeline_entry_total e : ev_data e ≠ JNull → ∃ x, timeline_entry e = Ok x.
Proof. unfold timeline_entry. destruct (ev_data e); eauto; done. Qed.

Definition no_later (a b : Entry) : Prop := en_ledger a ≤ en_ledger b.

#[export] Instance no_later_trans : Transitive no_later.
Proof. intros a b c. unfold no_later. lia. Qed.

Lemma entry_gt_false a b : entry_gt a b = false → no_later a b.
Proof. unfold entry_gt, no_later. case_tests; lia. Qed.

Lemma entry_gt_true a b : entry_gt a b = true → no_later b a.
Proof. unfold entry_gt, no_later. case_tests; lia. Qed.

Lemma timeline_entry_ledger e x : timeline_entry e = Ok x → en_ledger x = ev_ledger e.
Proof. unfold timeline_entry. intros Hx. by destruct (ev_data e); simplify_eq/=. Qed.

Lemma entries_sorted es xs :
  StronglySorted before es → Forall2 (λ e x, timeline_entry e = Ok x) es xs → StronglySorted no_later xs.
Proof.
  intros Hs. revert xs. induction Hs as [|e es Hs IH He]; intros xs Hxs.
  - apply Forall2_nil_inv_l in Hxs as ->. constructor.
  - apply Forall2_cons_inv_l in Hxs as (x & xs' & Hx & Hxs & ->). constructor; [by apply IH|].
    apply Forall_forall. intros y Hy. apply list_elem_of_lookup in Hy as [i Hi].
    destruct (Forall2_lookup_r _ _ _ _ _ Hxs Hi) as (e' & He' & Hye). rewrite Forall_forall in He.
    unfold no_later. rewrite (timeline_entry_ledger _ _ Hx), (timeline_entry_ledger _ _ Hye).
    specialize (He e' (list_elem_of_lookup_2 _ _ _ He')). unfold before in He. lia.
Qed.

Lemma synthesized_sorted claim : StronglySorted no_later (synthesized claim).
Proof. unfold synthesized. destruct (same _ _); repeat constructor; unfold no_later; cbn; lia. Qed.

(** The events of a claim, as the comments of the service describe them. *)
Definition claim_event (claimId : Z) (claim : ClaimRow) (e : RawEvent) : bool :=
  (match c_txHash claim with None => true | Some h => bool_decide (ev_txHash e = h) end && topic_in LEGACY_TOPICS (topic1 e)) ||
  (bool_decide (topic3 e = Some (show_Z claimId)) &&
   ((topic_in ["niffyins"] (topic1 e) && topic_in CONTRACT_CLAIM_EVENTS (topic2 e)) ||
    (topic_in ["niffyinsure"] (topic1 e) && topic_in CONTRACT_POLICY_EVENTS (topic2 e)) ||
    (topic_in ["appeal"] (topic1 e) && topic_in LEGACY_APPEAL_EVENTS (topic2 e)))).

Lemma event_matches_literal k c e : event_matches (literal [(k, c)]) e = clause_ok e c.
Proof.
  unfold event_matches, literal. cbn. apply Bool.eq_iff_eq_true. rewrite bool_decide_eq_true.
  by rewrite insert_empty, map_Forall_singleton.
Qed.

Lemma timeline_where_exact claimId claim e : event_matches (timeline_where claimId claim) e = claim_event claimId claim e.
Proof.
  unfold timeline_where. rewrite event_matches_literal. unfold claim_event. cbn [clause_ok existsb forallb cond_holds].
  rewrite orb_false_r, andb_true_r. f_equal. destruct (bool_decide (topic3 e = _)); cbn [andb].
  - by rewrite !andb_true_r, orb_assoc.
  - by rewrite !andb_false_r.
Qed.

Lemma claim_obj_lookup c :
  claim_obj c !! "id" = Some (VNum (c_id c)) ∧
  claim_obj c !! "tenantId" = Some (match c_tenantId c with Some t => VStr t | None => VNull end) ∧
  claim_obj c !! "deletedAt" = Some (match c_deletedAt c with Some t => VNum t | None => VNull end).
Proof. by split_and!. Qed.

Section facts.
Context {D : Type} `{HistoryDbLaws D}.
Variable tenantId : option string.

(** The claim a request is about: one of the tenant's, not deleted. *)
Lemma find_claim_owned claimId d claim :
  find_claim tenantId claimId d = Ok claim →
  claim ∈ claim_rows d ∧ c_id claim = claimId ∧ c_deletedAt claim = None ∧
  ∀ t, truthy tenantId = Some t → c_tenantId claim = Some t.
Proof.
  unfold find_claim. destruct (claim_findFirst _ d) as [c|] eqn:Hf; [|done]. intros [= ->].
  apply findFirst_some in Hf as [Hin Hm]. split; [done|]. unfold claim_matches, claimTenantWhere in Hm.
  apply scoped_row in Hm as (Ht & Hd & Hi); [|done..].
  destruct (claim_obj_lookup claim) as (Hid & Htn & Hdl). rewrite Htn in Ht. rewrite Hdl in Hd. split_and!.
  - eapply row_matches_lookup in Hi; [|apply lookup_singleton_eq]. rewrite Hid in Hi. by apply Z.eqb_eq in Hi.
  - specialize (Hd eq_refl). by destruct (c_deletedAt claim).
  - intros t Htt. specialize (Ht t Htt). destruct (c_tenantId claim); congruence.
Qed.

(** What a timeline is made of. *)
Lemma timeline_parts claimId claim d :
  find_claim tenantId claimId d = Ok claim → (∀ e, e ∈ event_rows d → ev_data e ≠ JNull) →
  ∃ es xs l, es ≡ₚ List.filter (claim_event claimId claim) (event_rows d) ∧ StronglySorted before es ∧
    Forall2 (λ e x, timeline_entry e = Ok x) es xs ∧ getTimeline tenantId claimId d = Ok l ∧
    let base := if bool_decide (xs = []) then synthesized claim else xs in
    StronglySorted no_later base ∧ l = appendSyntheticAppealTransitions base claim.
Proof.
  intros Hc Hdata. destruct (findMany_page (timeline_where claimId claim) None d) as (es & Hp & Hs & Hes).
  rewrite (List.filter_ext _ _ (timeline_where_exact claimId claim)) in Hp.
  destruct (map_result_forall2 timeline_entry es) as (xs & Hmap & Hxs).
  { intros e He. apply timeline_entry_total, Hdata. rewrite Hp in He. apply list_elem_of_In, List.filter_In in He as [He _].
    by apply list_elem_of_In. }
  exists es, xs, (appendSyntheticAppealTransitions (if bool_decide (xs = []) then synthesized claim else xs) claim).
  split_and!; [done..| |].
  - unfold getTimeline. rewrite Hc. cbn [rbind]. rewrite Hes, Hmap. done.
  - split; [|done]. case_bool_decide; [apply synthesized_sorted|by eapply entries_sorted].
Qed.

(** The timeline of a claim.  It is shown for a claim of the caller's tenant
    only, and holds one entry for each stored event of the claim, or the
    synthesized ones when there are none, plus the appeal transitions the row
    implies; it is never empty, is in ledger order, and a claim whose row shows
    an appeal has the transition to under_appeal in it. *)
Theorem timeline_exact claimId claim d :
  find_claim tenantId claimId d = Ok claim → (∀ e, e ∈ event_rows d → ev_data e ≠ JNull) →
  (c_id claim = claimId ∧ c_deletedAt claim = None ∧ ∀ t, truthy tenantId = Some t → c_tenantId claim = Some t) ∧
  ∃ es xs l, es ≡ₚ List.filter (claim_event claimId claim) (event_rows d) ∧
    Forall2 (λ e x, timeline_entry e = Ok x) es xs ∧ getTimeline tenantId claimId d = Ok l ∧
    let base := if bool_decide (xs = []) then synthesized claim else xs in
    l ≡ₚ (base ++ if appealed claim then synthetic base claim else [])%list ∧
    StronglySorted no_later l ∧ l ≠ [] ∧ (appealed claim = true → has_status ["under_appeal"] l = true).
Proof.
  intros Hc Hdata. split; [by apply find_claim_owned in Hc as [_ Hc]|].
  destruct (timeline_parts claimId claim d Hc Hdata) as (es & xs & l & Hes & _ & Hxs & Hl & Hb & ->).
  exists es, xs. eexists. split; [exact Hes|]. split; [exact Hxs|]. split; [exact Hl|].
  set (base := if bool_decide (xs = []) then synthesized claim else xs) in *. cbv zeta.
  assert (base ≠ []) as Hne by (unfold base; case_bool_decide; done).
  unfold appendSyntheticAppealTransitions. destruct (appealed claim).
  - pose proof (stable_sort_perm entry_gt (base ++ synthetic base claim)) as Hp. split_and!; [done| | |].
    + apply stable_sort_sorted; [apply _|exact entry_gt_false|exact entry_gt_true].
    + intros E. rewrite E in Hp. apply Permutation_nil_l in Hp. symmetry in Hp. by apply app_eq_nil in Hp as [Hp _].
    + intros _. unfold has_status. apply existsb_exists.
      destruct (has_status ["under_appeal"] base) eqn:Hh.
      * unfold has_status in Hh. apply existsb_exists in Hh as (x & Hx & Hst). exists x. split; [|done].
        apply list_elem_of_In. rewrite Hp. apply elem_of_app. left. by apply list_elem_of_In.
      * exists {| en_status := "under_appeal"; en_ledger := default (c_createdAtLedger claim) (c_updatedAtLedger claim);
                  en_timestamp := toISOString (c_updatedAt claim); en_actor := None; en_reason := Some "Appeal opened" |}.
        split; [|done]. apply list_elem_of_In. rewrite Hp. apply elem_of_app. right. unfold synthetic. rewrite Hh. by left.
  - rewrite app_nil_r. split_and!; [done|done|done|discriminate].
Qed.

(** A claim without a transaction hash is shown the events of the others: the
    undefined hash is dropped from the condition, so every stored event with a
    legacy topic, of whatever transaction and tenant, is in its timeline. *)
Theorem timeline_shows_other_claims claimId claim d e x :
  find_claim tenantId claimId d = Ok claim → (∀ e, e ∈ event_rows d → ev_data e ≠ JNull) →
  c_txHash claim = None → e ∈ event_rows d → topic_in LEGACY_TOPICS (topic1 e) = true → timeline_entry e = Ok x →
  ∃ l, getTimeline tenantId claimId d = Ok l ∧ x ∈ l.
Proof.
  intros Hc Hdata Htx He Ht Hx.
  destruct (timeline_parts claimId claim d Hc Hdata) as (es & xs & l & Hes & _ & Hxs & Hl & _ & ->).
  eexists. split; [exact Hl|].
  assert (e ∈ es) as Hin.
  { rewrite Hes. apply list_elem_of_In, List.filter_In. split; [by apply list_elem_of_In|].
    unfold claim_event. by rewrite Htx, Ht. }
  apply list_elem_of_lookup in Hin as [i Hi]. destruct (Forall2_lookup_l _ _ _ _ _ Hxs Hi) as (x' & Hx' & Hex).
  assert (x' = x) as -> by congruence. apply list_elem_of_lookup_2 in Hx'.
  assert (xs ≠ []) as Hne by (intros ->; by apply elem_of_nil in Hx'). rewrite bool_decide_false by done.
  unfold appendSyntheticAppealTransitions. destruct (appealed claim); [|done].
  rewrite stable_sort_perm. apply elem_of_app. by left.
Qed.

(** The cursor of the history has no effect.  The object literal names the key
    OR twice, so the topics replace the cursor's condition: with more events
    than a page holds, the request with any cursor is answered with the first
    page, whose next cursor is never null. *)
Theorem history_cursor_ignored claimId claim limit cursor d :
  find_claim tenantId claimId d = Ok claim → (∀ e, e ∈ event_rows d → ev_data e ≠ JNull) →
  page_size limit < Z.of_nat (length (List.filter (event_matches (history_where claim None)) (event_rows d))) →
  ∃ page, getHistory tenantId claimId cursor limit d = Ok page ∧ getHistory tenantId claimId None limit d = Ok page ∧
    Z.of_nat (length (data page)) = page_size limit ∧ nextCursor page ≠ None.
Proof.
  intros Hc Hdata Hlen. unfold getHistory. rewrite Hc. cbn [rbind]. rewrite (history_where_after claim (decode_after cursor)), (history_where_after claim (decode_after None)).
  destruct (findMany_page (history_where claim None) (Some (Z.to_nat (page_size limit + 1))) d) as (es & Hp & Hs & Hes).
  rewrite Hes. rewrite <- Hp in Hlen. assert (1 ≤ page_size limit) by (unfold page_size; lia).
  assert (length (take (Z.to_nat (page_size limit + 1)) es) = Z.to_nat (page_size limit + 1)) as Hl
    by (rewrite length_take; lia).
  rewrite Hl. assert ((page_size limit <? Z.of_nat (Z.to_nat (page_size limit + 1))) = true) as -> by (apply Z.ltb_lt; lia).
  rewrite take_take, Nat.min_l by lia.
  destruct (map_result_forall2 history_entry (take (Z.to_nat (page_size limit)) es)) as (xs & Hmap & Hxs).
  { intros e He. apply history_entry_total, Hdata. apply elem_of_take in He as (i & He & _).
    apply list_elem_of_lookup_2 in He. rewrite Hp in He. apply list_elem_of_In, List.filter_In in He as [He _].
    by apply list_elem_of_In. }
  rewrite Hmap. cbn [rbind]. apply Forall2_length in Hxs. rewrite length_take in Hxs.
  assert (xs ≠ []) as Hne by (intros ->; cbn in Hxs; lia). rewrite (bool_decide_false (xs = [])) by done. cbn [andb].
  eexists. split; [reflexivity|]. split; [reflexivity|]. cbn [data nextCursor]. split; [lia|].
  destruct (last (take _ es)) eqn:E; [done|]. apply last_None in E.
  apply (f_equal length) in E. rewrite length_take in E. cbn in E. lia.
Qed.
End facts.

(** ** A database of lists *)

Module HistoryWitnesses.
Definition event_le (a b : RawEvent) : Prop :=
  ev_ledger a < ev_ledger b ∨ (ev_ledger a = ev_ledger b ∧ ev_id a ≤ ev_id b).
#[export] Instance event_le_dec a b : Decision (event_le a b).
Proof. unfold event_le. apply _. Defined.
#[export] Instance event_le_trans : Transitive event_le.
Proof. intros a b c. unfold event_le. lia. Qed.
#[export] Instance event_le_total : Total event_le.
Proof. intros a b. unfold event_le. lia. Qed.

Definition tables : Type := list ClaimRow * { es : list RawEvent | NoDup (ev_id <$> es) }.

#[export] Instance sample_history : HistoryDb tables := {
  claim_rows d := d.1;
  event_rows d := proj1_sig d.2;
  claim_findFirst w d := List.find (claim_matches w) d.1;
  event_findMany w n d :=
    let l := merge_sort event_le (List.filter (event_matches w) (proj1_sig d.2)) in
    match n with Some k => take k l | None => l end;
}.

Lemma strict_of_le l : NoDup (ev_id <$> l) → StronglySorted event_le l → StronglySorted before l.
Proof.
  intros Hn Hs. induction Hs as [|x l Hs IH Hx]; [constructor|]. apply NoDup_cons in Hn as [Hnx Hn].
  constructor; [by apply IH|]. rewrite Forall_forall in *. intros y Hy. specialize (Hx y Hy).
  assert (ev_id x ≠ ev_id y) as Hne by (intros E; apply Hnx; rewrite E; by apply list_elem_of_fmap_2).
  unfold event_le in Hx. unfold before. lia.
Qed.

Lemma filter_ids_unique f l : NoDup (ev_id <$> l) → NoDup (ev_id <$> List.filter f l).
Proof.
  induction l as [|x l IH]; intros Hn; [constructor|]. apply NoDup_cons in Hn as [Hx Hn]. cbn [List.filter].
  destruct (f x); [|by apply IH]. constructor; [|by apply IH]. intros Hin. apply Hx.
  apply list_elem_of_fmap in Hin as (y & -> & Hy). apply list_elem_of_In, List.filter_In in Hy as [Hy _].
  by apply list_elem_of_fmap_2, list_elem_of_In.
Qed.

#[export] Instance sample_history_laws : HistoryDbLaws tables.
Proof.
  constructor.
  - intros w d c Hc. apply List.find_some in Hc as [Hin Hm]. split; [by apply list_elem_of_In|done].
  - intros w d Hn c Hc. by eapply List.find_none; [exact Hn|apply list_elem_of_In].
  - intros w n d. exists (merge_sort event_le (List.filter (event_matches w) (event_rows d))). split_and!; [| |done].
    + apply merge_sort_Permutation.
    + apply strict_of_le; [|by apply StronglySorted_merge_sort; apply _].
      rewrite merge_sort_Permutation. apply filter_ids_unique. exact (proj2_sig d.2).
Qed.

Definition event (id ledger : Z) (tx t1 : string) : RawEvent :=
  {| ev_id := id; ev_txHash := tx; ev_ledger := ledger; ev_closedAt := 1000 * ledger; topic1 := Some t1; topic2 := None;
     topic3 := None; topic4 := None; ev_data := JObj [] |}.
Definition claim_42 (tx : option string) : ClaimRow :=
  {| c_id := 42; c_tenantId := Some "acme"; c_deletedAt := None; c_txHash := tx; c_status := "REJECTED";
     c_createdAtLedger := 100; c_createdAt := 100000; c_updatedAtLedger := Some 300; c_updatedAt := 300000;
     appealsCount := Some 1; appealTxHash := None |}.
Definition three : list RawEvent :=
  [event 1 100 "tx1" "claim_filed"; event 2 200 "tx2" "claim_approved"; event 3 300 "tx1" "claim_rejected"].
Definition db (tx : option string) : tables := ([claim_42 tx], exist _ three (bool_decide_unpack (NoDup (ev_id <$> three)) I)).

Lemma find_42 tx : find_claim (Some "acme") 42 (db tx) = Ok (claim_42 tx).
Proof. by destruct tx. Qed.

Lemma three_data : ∀ e, e ∈ event_rows (db (Some "tx1")) → ev_data e ≠ JNull.
Proof. intros e He. repeat (apply elem_of_cons in He as [->|He]; [done|]). by apply elem_of_nil in He. Qed.

Lemma timeline_exact_witness :
  ∃ l, getTimeline (Some "acme") 42 (db (Some "tx1")) = Ok l ∧ has_status ["under_appeal"] l = true ∧
    en_status <$> l = ["pending"; "rejected"; "under_appeal"; "appeal_rejected"].
Proof.
  destruct (timeline_exact (Some "acme") 42 (claim_42 (Some "tx1")) (db (Some "tx1")) (find_42 _) three_data)
    as (_ & es & xs & l & _ & _ & Hl & _ & _ & _ & Ha).
  exists l. split; [exact Hl|]. split; [by apply Ha|].
  assert (Ok (en_status <$> l) = Ok (E:=HistoryError) ["pending"; "rejected"; "under_appeal"; "appeal_rejected"]) as Heq; [|by injection Heq].
  transitivity (let! l := getTimeline (Some "acme") 42 (db (Some "tx1")) in Ok (en_status <$> l)); [by rewrite Hl|].
  vm_compute. reflexivity.
Defined.

Lemma timeline_shows_other_claims_witness :
  ∃ l, getTimeline (Some "acme") 42 (db None) = Ok l ∧
    {| en_status := "approved"; en_ledger := 200; en_timestamp := "1970-01-01T00:03:20.000Z"; en_actor := None; en_reason := None |} ∈ l.
Proof.
  apply (timeline_shows_other_claims (Some "acme") 42 (claim_42 None) (db None) (event 2 200 "tx2" "claim_approved"));
    [apply find_42|exact three_data|reflexivity|right; left|reflexivity|reflexivity].
Defined.

Lemma history_cursor_ignored_witness :
  ∃ page, getHistory (Some "acme") 42 (Some (toBase64Url (cursor_text 100 1))) 1 (db (Some "tx1")) = Ok page ∧
    getHistory (Some "acme") 42 None 1 (db (Some "tx1")) = Ok page ∧
    Z.of_nat (length (data page)) = 1 ∧ nextCursor page ≠ None.
Proof.
  apply (history_cursor_ignored (Some "acme") 42 (claim_42 (Some "tx1")) 1 (Some (toBase64Url (cursor_text 100 1))) (db (Some "tx1")));
    [apply find_42|exact three_data|reflexivity].
Defined.
End HistoryWitnesses.
