(* ===== verification/Flags.v ===== *)
(** * Feature flags

    backend/src/feature-flags/feature-flags.service.ts (the in-memory map each
    process answers from), feature-flags.guard.ts and feature-flags.controller.ts
    (its readers), the flag operations of admin/admin.service.ts (its writers)
    and the weekly purge of expired flags in
    maintenance/scheduled-cleanup.service.ts.  The processes share the table;
    every statement can fail. *)

From stdpp Require Import base gmap list strings.
From Stdlib Require Import ZArith Lia Ascii.
From S2P Require Import Prelude JsText JsNumber Codec Redis.

Open Scope string_scope.
Open Scope Z_scope.

(** ** The table and the processes *)

Record FlagRow := { enabled : bool; description : option string; updatedBy : string; expiresAt : option Z }.

(** [maps p]: the map process [p] answers from. *)
Record fstate := FState { table : gmap string FlagRow; maps : nat → gmap string bool }.

Definition set_table (t : gmap string FlagRow) (s : fstate) : fstate := FState t (maps s).
Definition set_map (p : nat) (m : gmap string bool) (s : fstate) : fstate :=
  FState (table s) (λ q, if decide (q = p) then m else maps s q).

Inductive FlagError := NotAllowlisted (key : string) | DbError | KeyExists | FeatureForbidden | FeatureNotFound | UnknownFlag (key : string).

Abbreviation MF A := (M (rworld fstate) FlagError A).

(** A statement, or a transaction: it is applied as a whole or fails. *)
Definition stmt {A} (f : fstate → A * fstate) : MF A := λ w,
  match cmd f w with (Ok a, w') => (Ok a, w') | (Throw _, w') => (Throw DbError, w') end.

(** What happens in the process. *)
Definition local_ (f : fstate → fstate) : MF () := λ w, (Ok tt, RWorld (f (rstate w)) (faults w)).

(** ** feature-flags.service.ts *)

(** Models [ALLOWED_FLAG_KEYS] (backend/src/feature-flags/feature-flags.service.ts:12-25). *)
Definition ALLOWED_FLAG_KEYS : list string :=
  ["claims_enabled"; "claims_appeal_enabled"; "policy_creation_enabled"; "voting_enabled"; "ramp_enabled";
   "graphql_enabled"; "tenant_resolution"; "maintenance_mode"; "ipfs_upload_enabled";
   "quote_simulation_cache_enabled"; "experimental_beta_calculators"; "ENABLE_DEV_TOOLS"].

(** [Object.fromEntries]: the last of equal keys counts. *)
Definition from_entries (l : list (string * json)) : gmap string bool :=
  foldl (λ m p, <[p.1 := to_Boolean p.2]> m) ∅ l.

(** Models [parseFlags] (backend/src/feature-flags/feature-flags.service.ts:87-99). *)
Definition parseFlags (text : option string) : gmap string bool :=
  match truthy text with
  | None => ∅
  | Some t =>
      match JSON_parse t with
      | Some (JObj fields) => from_entries fields
      | Some (JArr l) => from_entries (imap (λ i v, (show_Z (Z.of_nat i), v)) l)
      | _ => ∅
      end
  end.

(** [acc[flag.key] = flag.enabled]: assigning a boolean to __proto__ has no effect. *)
Definition reduce_flags (rows : list (string * FlagRow)) : gmap string bool :=
  foldl (λ acc r, if bool_decide (r.1 = "__proto__") then acc else <[r.1 := enabled r.2]> acc) ∅ rows.

(** Models [loadFlagsFromDb] (backend/src/feature-flags/feature-flags.service.ts:46-58). *)
Definition loadFlagsFromDb (p : nat) : MF () :=
  try_catch
    (let* flags := stmt (λ s, (map_to_list (table s), s)) in
     local_ (set_map p (reduce_flags flags)))
    (λ _, local_ (set_map p ∅)).

(** Models [constructor] (backend/src/feature-flags/feature-flags.service.ts:33-40). *)
Definition construct (p : nat) (FEATURE_FLAGS_JSON : option string) : MF () :=
  local_ (set_map p (parseFlags FEATURE_FLAGS_JSON)).

(** The start of a process: the constructor, then onModuleInit. *)
Definition start (p : nat) (FEATURE_FLAGS_JSON : option string) : MF () :=
  do* construct p FEATURE_FLAGS_JSON in
  loadFlagsFromDb p.

(** Models [isEnabled] (backend/src/feature-flags/feature-flags.service.ts:60-62). *)
Definition isEnabled (p : nat) (featureName : string) (s : fstate) : bool :=
  bool_decide (maps s p !! featureName = Some true).

(** Models [refreshFlags] (backend/src/feature-flags/feature-flags.service.ts:72-76). *)
Definition refreshFlags (p : nat) : MF () := loadFlagsFromDb p.

(** Models [assertAllowlisted] (backend/src/feature-flags/feature-flags.service.ts:79-85). *)
Definition assertAllowlisted (key : string) : MF () :=
  if bool_decide (key ∈ ALLOWED_FLAG_KEYS) then ret tt else throw (NotAllowlisted key).

(** ** feature-flags.guard.ts and feature-flags.controller.ts *)

(** Models [canActivate] (backend/src/feature-flags/feature-flags.guard.ts:22-42). *)
Definition canActivate (disabledStatusCode : Z) (p : nat) (featureName : option string) (s : fstate) : result FlagError () :=
  match truthy featureName with
  | None => Ok tt
  | Some f =>
      if isEnabled p f s then Ok tt
      else if disabledStatusCode =? 403 then Throw FeatureForbidden else Throw FeatureNotFound
  end.

(** Models [getFlag] (backend/src/feature-flags/feature-flags.controller.ts:24-29). *)
Definition getFlag (p : nat) (key : string) (s : fstate) : result FlagError (string * bool) :=
  if bool_decide (key ∈ ALLOWED_FLAG_KEYS) then Ok (key, isEnabled p key s) else Throw (UnknownFlag key).

(** ** admin.service.ts *)

(** [upsert]: a description that is undefined is left as it is. *)
Definition upsert_flag (key : string) (on : bool) (desc : option string) (actor : string) (t : gmap string FlagRow)
    : gmap string FlagRow :=
  match t !! key with
  | None => <[key := {| enabled := on; description := desc; updatedBy := actor; expiresAt := None |}]> t
  | Some r =>
      <[key := {| enabled := on; description := match desc with Some d => Some d | None => description r end;
                  updatedBy := actor; expiresAt := expiresAt r |}]> t
  end.

(** Models [setFeatureFlag] (backend/src/admin/admin.service.ts:533-542). *)
Definition setFeatureFlag (p : nat) (key : string) (on : bool) (desc : option string) (actor : string) : MF () :=
  do* assertAllowlisted key in
  do* stmt (λ s, (tt, set_table (upsert_flag key on desc actor (table s)) s)) in
  refreshFlags p.

(** Models [createFeatureFlag] (backend/src/admin/admin.service.ts:544-551). *)
Definition createFeatureFlag (p : nat) (key : string) (on : bool) (desc : option string) (actor : string) : MF () :=
  do* assertAllowlisted key in
  let* fresh := stmt (λ s,
    match table s !! key with
    | Some _ => (false, s)
    | None => (true, set_table (<[key := {| enabled := on; description := desc; updatedBy := actor; expiresAt := None |}]> (table s)) s)
    end) in
  if (fresh : bool) then refreshFlags p else throw KeyExists.

(** Models [bulkSetFeatureFlags] (backend/src/admin/admin.service.ts:559-575). *)
Definition bulkSetFeatureFlags (updates : list (string * bool)) (actor : string) : MF () :=
  do* for_each updates (λ u, assertAllowlisted u.1) in
  stmt (λ s, (tt, set_table (foldl (λ t u, upsert_flag u.1 u.2 None actor t) (table s) updates) s)).

(** ** scheduled-cleanup.service.ts *)

Definition live_at (now : Z) (r : FlagRow) : bool := match expiresAt r with Some e => now <=? e | None => true end.

(** Models [purgeExpiredFeatureFlags] (backend/src/maintenance/scheduled-cleanup.service.ts:85-90). *)
Definition purgeExpiredFeatureFlags (now : Z) : MF nat :=
  stmt (λ s, let kept := filter (λ kr : string * FlagRow, live_at now kr.2 = true) (table s) in
             ((size (table s) - size kept)%nat, set_table kept s)).

(** ** Histories *)

Inductive request :=
  | Start (p : nat) (env : option string)
  | SetFlag (p : nat) (key : string) (on : bool) (desc : option string) (actor : string)
  | CreateFlag (p : nat) (key : string) (on : bool) (desc : option string) (actor : string)
  | BulkSet (p : nat) (updates : list (string * bool)) (actor : string)
  | Purge (now : Z).

Definition drop_result {A} (m : MF A) : MF () := λ w, (Ok tt, snd (m w)).

Definition handle (r : request) : MF () :=
  match r with
  | Start p env => start p env
  | SetFlag p key on desc actor => drop_result (setFeatureFlag p key on desc actor)
  | CreateFlag p key on desc actor => drop_result (createFeatureFlag p key on desc actor)
  | BulkSet _ updates actor => drop_result (bulkSetFeatureFlags updates actor)
  | Purge now => drop_result (purgeExpiredFeatureFlags now)
  end.

Definition run_requests (l : list request) (w : rworld fstate) : rworld fstate := world_of (for_each l handle) w.

(** What the table says of a feature. *)
Definition row_enabled (key : string) (s : fstate) : bool :=
  match table s !! key with Some r => enabled r | None => false end.

(** ** Facts *)

Lemma reduce_flags_lookup (l : list (string * FlagRow)) key :
  NoDup l.*1 →
  reduce_flags l !! key =
  if decide (key = "__proto__") then None else enabled <$> (list_to_map l : gmap string FlagRow) !! key.
Proof.
  induction l as [|[k r] l IH] using rev_ind; intros Hn.
  - by case_decide.
  - rewrite fmap_app in Hn. apply NoDup_app in Hn as (Hl & Hnot & _).
    unfold reduce_flags. rewrite foldl_app. cbn [foldl fst snd]. fold (reduce_flags l). specialize (IH Hl).
    rewrite list_to_map_app. cbn [list_to_map foldr fst snd].
    destruct (decide (key = k)) as [->|Hne].
    + assert ((list_to_map l : gmap string FlagRow) !! k = None) as Hk.
      { apply not_elem_of_list_to_map_1. intros Hin. apply (Hnot k Hin). by left. }
      rewrite lookup_union_r by done. rewrite lookup_insert_eq. case_bool_decide.
      * rewrite IH. by case_decide.
      * by rewrite lookup_insert_eq, decide_False.
    + assert ((list_to_map l ∪ <[k:=r]> ∅ : gmap string FlagRow) !! key = (list_to_map l : gmap string FlagRow) !! key) as ->.
      { rewrite lookup_union_l; [done|]. by rewrite lookup_insert_ne, lookup_empty by done. }
      case_bool_decide; [done|]. by rewrite lookup_insert_ne by done.
Qed.

(** A loaded map is what the table says. *)
Lemma loaded_exact (t : gmap string FlagRow) key :
  reduce_flags (map_to_list t) !! key = if decide (key = "__proto__") then None else enabled <$> t !! key.
Proof. rewrite reduce_flags_lookup by apply NoDup_fst_map_to_list. by rewrite list_to_map_to_list. Qed.

(** [load p w w']: a load by process [p]. *)
Lemma load_cases p w :
  ∃ m, loadFlagsFromDb p w = (Ok tt, RWorld (set_map p m (rstate w)) (tail (faults w))) ∧
    m = match faults w with true :: _ => ∅ | _ => reduce_flags (map_to_list (table (rstate w))) end.
Proof.
  unfold loadFlagsFromDb, try_catch, bind, stmt, local_, cmd. destruct w as [s [|[] fs]]; eexists; split; reflexivity.
Qed.

Definition served_is_stored (p : nat) (s : fstate) : Prop :=
  ∀ key, isEnabled p key s = true → row_enabled key s = true.

Lemma set_map_served p m s :
  m = ∅ ∨ m = reduce_flags (map_to_list (table s)) → served_is_stored p (set_map p m s).
Proof.
  intros Hm key. unfold isEnabled, row_enabled, set_map. cbn [maps table]. rewrite decide_True by done.
  intros H. apply bool_decide_eq_true in H. destruct Hm as [->| ->]; [by rewrite lookup_empty in H|].
  rewrite loaded_exact in H. destruct (decide _); [done|]. by destruct (table s !! key); simplify_eq/=.
Qed.

Lemma load_served p w : served_is_stored p (rstate (loadFlagsFromDb p w).2).
Proof.
  destruct (load_cases p w) as (m & -> & Hm). cbn [snd rstate]. apply set_map_served.
  destruct (faults w) as [|[]]; auto.
Qed.

Lemma stmt_inv {A} (f : fstate → A * fstate) w o w1 :
  stmt f w = (o, w1) → match o with Ok a => f (rstate w) = (a, rstate w1) | Throw _ => rstate w1 = rstate w end.
Proof.
  unfold stmt, cmd. destruct w as [s [|[] fs]]; cbn; [|by intros [= <- <-]|];
    destruct (f s); by intros [= <- <-].
Qed.

(** The writers that refresh: either the table was not written or the map was loaded after it. *)
Lemma setFeatureFlag_served p key on desc actor w :
  served_is_stored p (rstate w) → served_is_stored p (rstate (setFeatureFlag p key on desc actor w).2).
Proof.
  intros Hw. unfold setFeatureFlag, bind, assertAllowlisted. case_bool_decide; [|done]. unfold ret.
  destruct (stmt _ w) as [[[]|e] w1] eqn:Hs; [apply load_served|]. apply stmt_inv in Hs. cbn [snd]. by rewrite Hs.
Qed.

Lemma createFeatureFlag_served p key on desc actor w :
  served_is_stored p (rstate w) → served_is_stored p (rstate (createFeatureFlag p key on desc actor w).2).
Proof.
  intros Hw. unfold createFeatureFlag, bind, assertAllowlisted. case_bool_decide; [|done]. unfold ret.
  destruct (stmt _ w) as [[[]|e] w1] eqn:Hs; [apply load_served|apply stmt_inv in Hs..].
  - unfold throw. cbn [snd]. destruct (table (rstate w) !! key); [|done]. injection Hs as <-. exact Hw.
  - cbn [snd]. by rewrite Hs.
Qed.

(** The requests of one process that go through the single-flag operations. *)
Definition own_request (p : nat) (r : request) : Prop :=
  match r with
  | Start q _ | SetFlag q _ _ _ _ | CreateFlag q _ _ _ _ => q = p
  | BulkSet _ _ _ | Purge _ => False
  end.

(** What is served enabled is stored enabled.  Whatever single-flag requests one
    process handles, restarts included, and whichever statements fail, every
    feature it serves as enabled is enabled in the table; and when the statements
    of an update succeed, the process serves exactly the table, the guard passes
    exactly the enabled features, and a key outside the list is refused. *)
Theorem served_flags_are_stored (p : nat) (l : list request) (w : rworld fstate) :
  Forall (own_request p) l → served_is_stored p (rstate w) →
  served_is_stored p (rstate (run_requests l w)) ∧
  ∀ key on desc actor s, let r := setFeatureFlag p key on desc actor (healthy s) in
    (key ∈ ALLOWED_FLAG_KEYS → fst r = Ok tt ∧ row_enabled key (rstate (snd r)) = on ∧
      ∀ f, f ≠ "__proto__" → f ≠ "" → isEnabled p f (rstate (snd r)) = row_enabled f (rstate (snd r)) ∧
        ∀ code, is_ok (canActivate code p (Some f) (rstate (snd r))) = row_enabled f (rstate (snd r))) ∧
    ((key ∉ ALLOWED_FLAG_KEYS) → r = (Throw (NotAllowlisted key), healthy s)).
Proof.
  intros Hl Hw. split.
  - unfold run_requests. apply (for_each_invariant (λ w, served_is_stored p (rstate w))); [|done].
    clear w Hw. intros r w Hr Hw. rewrite Forall_forall in Hl. specialize (Hl r Hr). unfold world_of.
    destruct r as [q env|q key on desc actor|q key on desc actor|q us actor|now]; cbn in Hl; try done; subst q.
    + cbn [handle]. unfold start, bind, construct, local_. apply load_served.
    + by apply setFeatureFlag_served.
    + by apply createFeatureFlag_served.
  - intros key on desc actor s r. split.
    + intros Hk. unfold r, setFeatureFlag, bind, assertAllowlisted. rewrite bool_decide_true by done. unfold ret, stmt, cmd.
      cbn [healthy rstate faults tail]. unfold refreshFlags.
      match goal with |- context [loadFlagsFromDb p ?w] => destruct (load_cases p w) as (m & -> & ->) end.
      cbn [faults fst snd rstate]. split; [done|]. split.
      * unfold row_enabled. cbn [table set_map set_table]. unfold upsert_flag.
        destruct (table s !! key) eqn:E; by rewrite lookup_insert_eq.
      * intros f Hf Hf'.
        assert (∀ t, isEnabled p f (set_map p (reduce_flags (map_to_list (table t))) t) =
                    row_enabled f (set_map p (reduce_flags (map_to_list (table t))) t)) as Hall.
        { intros t. unfold isEnabled, row_enabled. cbn [set_map maps table]. rewrite decide_True by done.
          rewrite loaded_exact, decide_False by done. destruct (table t !! f) as [x|]; cbn; [|done]. by destruct (enabled x). }
        split; [apply Hall|]. intros code. unfold canActivate.
        assert (truthy (Some f) = Some f) as -> by (by destruct f). rewrite Hall. by destruct (row_enabled f _); [|case_match].
    + intros Hk. unfold r, setFeatureFlag, bind, assertAllowlisted. by rewrite bool_decide_false.
Qed.

Lemma bulk_upsert_lookup updates actor key on t :
  NoDup updates.*1 → (key, on) ∈ updates →
  ∃ r, foldl (λ t u, upsert_flag u.1 u.2 None actor t) t updates !! key = Some r ∧ enabled r = on.
Proof.
  induction updates as [|u us IH] using rev_ind; intros Hn Hin; [by apply elem_of_nil in Hin|].
  rewrite foldl_app. cbn [foldl]. rewrite fmap_app in Hn. apply NoDup_app in Hn as (Hus & Hnot & _).
  apply elem_of_app in Hin as [Hin|Hin%list_elem_of_singleton].
  - destruct (IH Hus Hin) as (r & Hr & Hon). exists r. split; [|done].
    assert (u.1 ≠ key) as Hne.
    { intros E. apply (Hnot u.1); [|by left]. rewrite E. by apply (list_elem_of_fmap_2 fst) in Hin. }
    unfold upsert_flag. case_match; by rewrite lookup_insert_ne.
  - subst u. cbn [fst snd]. unfold upsert_flag. case_match; rewrite lookup_insert_eq; by eexists.
Qed.

(** A bulk update is not served.  The bulk operation applies all updates or none
    and refuses unknown keys, but no process reloads its map: a feature disabled
    by it is disabled in the table and still passes the guard of every process
    that served it. *)
Theorem bulk_update_not_served updates actor p key w w' code :
  bulkSetFeatureFlags updates actor w = (Ok tt, w') →
  NoDup updates.*1 → (key, false) ∈ updates → isEnabled p key (rstate w) = true →
  row_enabled key (rstate w') = false ∧ getFlag p key (rstate w') = Ok (key, true) ∧
  canActivate code p (Some key) (rstate w') = Ok tt.
Proof.
  intros Hrun Hn Hin Hen. unfold bulkSetFeatureFlags in Hrun.
  apply bind_ok_inv in Hrun as ([] & w1 & Hcheck & Hrun).
  assert (w1 = w ∧ Forall (λ u : string * bool, u.1 ∈ ALLOWED_FLAG_KEYS) updates) as [-> Hall].
  { clear -Hcheck. revert w Hcheck. induction updates as [|u us IH]; intros w Hcheck; cbn in Hcheck.
    - unfold ret in Hcheck. by simplify_eq.
    - apply bind_ok_inv in Hcheck as ([] & w2 & Hu & Hus). unfold assertAllowlisted in Hu.
      case_bool_decide; unfold ret, throw in Hu; simplify_eq. destruct (IH _ Hus) as [-> Hf]. split; [done|by constructor]. }
  unfold stmt, cmd in Hrun. destruct w as [s fs]. cbn [rstate faults] in *.
  assert (rstate w' = set_table (foldl (λ t u, upsert_flag u.1 u.2 None actor t) (table s) updates) s) as ->.
  { destruct fs as [|[] fs]; by simplify_eq/=. }
  assert (isEnabled p key (set_table (foldl (λ t u, upsert_flag u.1 u.2 None actor t) (table s) updates) s) = true) as He by exact Hen.
  split_and!.
  - unfold row_enabled. cbn [table set_table]. destruct (bulk_upsert_lookup updates actor key false (table s) Hn Hin) as (r & -> & Hr). done.
  - unfold getFlag. rewrite bool_decide_true; [by rewrite He|]. rewrite Forall_forall in Hall. exact (Hall _ Hin).
  - unfold canActivate. destruct (truthy (Some key)) as [f|] eqn:Ht; [|done].
    assert (f = key) as -> by (by destruct key; simplify_eq/=). by rewrite He.
Qed.

(** The flags of the environment are never served: what a process answers after
    its start does not depend on FEATURE_FLAGS_JSON. *)
Theorem environment_flags_dead p env1 env2 w :
  let a := world_of (start p env1) w in let b := world_of (start p env2) w in
  faults a = faults b ∧ table (rstate a) = table (rstate b) ∧ ∀ q, maps (rstate a) q = maps (rstate b) q.
Proof.
  unfold world_of, start, bind, construct, local_. cbn.
  match goal with |- context [loadFlagsFromDb p ?w] => destruct (load_cases p w) as (m1 & -> & ->) end.
  match goal with |- context [loadFlagsFromDb p ?w] => destruct (load_cases p w) as (m2 & -> & ->) end.
  cbn. split_and!; [done..|]. intros q. case_decide; done.
Qed.

(** ** Concrete runs *)

Module FlagWitnesses.
Definition on_row : FlagRow := {| enabled := true; description := None; updatedBy := "GADMIN"; expiresAt := None |}.
Definition booted : fstate := rstate (world_of (start 0 None) (healthy (FState {["voting_enabled" := on_row]} (λ _, ∅)))).

Lemma served_flags_are_stored_witness :
  served_is_stored 0 (rstate (run_requests
    [SetFlag 0 "claims_enabled" true None "GADMIN"; CreateFlag 0 "voting_enabled" false None "GADMIN"]
    (RWorld booted [false; true]))).
Proof.
  apply (served_flags_are_stored 0 [SetFlag 0 "claims_enabled" true None "GADMIN"; CreateFlag 0 "voting_enabled" false None "GADMIN"]
           (RWorld booted [false; true])).
  - repeat constructor.
  - apply load_served.
Defined.

Lemma bulk_update_not_served_witness :
  ∃ w', bulkSetFeatureFlags [("voting_enabled", false)] "GADMIN" (healthy booted) = (Ok tt, w') ∧
    row_enabled "voting_enabled" (rstate w') = false ∧ canActivate 404 0 (Some "voting_enabled") (rstate w') = Ok tt.
Proof.
  eexists. split; [reflexivity|].
  destruct (bulk_update_not_served [("voting_enabled", false)] "GADMIN" 0 "voting_enabled" (healthy booted) _ 404 eq_refl)
    as (H1 & _ & H2); [repeat constructor; apply not_elem_of_nil|left|reflexivity|by split].
Defined.
End FlagWitnesses.
