(* ===== verification/Ramp.v ===== *)
(** * Fiat ramp

    backend/src/ramp: the webhook of the ramp provider (ramp.controller.ts), the
    purchases it records (ramp-premium.service.ts), the reconciliation and the
    health check of backend/src/jobs (ramp-reconciliation.service.ts and
    ramp-health-check.service.ts).  Deliveries run concurrently: a delivery reads
    the purchase and then writes it, and others may come between. *)

From stdpp Require Import base gmap list strings relations.
From Stdlib Require Import ZArith Lia Ascii.
From S2P Require Import Prelude JsText Signature.

Open Scope string_scope.
Open Scope Z_scope.

(** ** Purchases *)

Section ramp.
(** The values of amounts, only stored and compared with zero. *)
Context {F : Type} (positive : F → bool).
Context `{Hmac}.

(** Models [RampCompletedEvent] (backend/src/ramp/ramp.events.ts:6-14). *)
Record RampCompletedEvent := {
  purchaseId : string; receiverAddress : string; cryptoAmount : string; cryptoCurrency : string;
  fiatValue : F; fiatCurrency : string; finalTxHash : option string }.

(** A row of ramp_transactions; its purchaseId is the key. *)
Record RampTx := {
  t_status : string; t_receiver : string; t_cryptoAmount : string; t_cryptoCurrency : string;
  t_fiatValue : F; t_fiatCurrency : string; t_finalTxHash : option string; t_lastSyncedAt : Z }.

(** The table and the events emitted on the in-process bus. *)
Record rstate := RState { txs : gmap string RampTx; emitted : list RampCompletedEvent }.

(** [purchase]: the event with its status. *)
Record Purchase := { p_event : RampCompletedEvent; p_status : string }.

Definition row_of (now : Z) (p : Purchase) : RampTx :=
  let e := p_event p in
  {| t_status := p_status p; t_receiver := receiverAddress e; t_cryptoAmount := cryptoAmount e;
     t_cryptoCurrency := cryptoCurrency e; t_fiatValue := fiatValue e; t_fiatCurrency := fiatCurrency e;
     t_finalTxHash := finalTxHash e; t_lastSyncedAt := now |}.

(** The two statements of a delivery, between which others may run. *)
Definition record_read (p : Purchase) (s : rstate) : option RampTx := txs s !! purchaseId (p_event p).

Definition record_write (now : Z) (p : Purchase) (existing : option RampTx) (s : rstate) : rstate :=
  RState (<[purchaseId (p_event p) := row_of now p]> (txs s))
    (if bool_decide (p_status p = "COMPLETE") && negb (bool_decide (t_status <$> existing = Some "COMPLETE"))
     then emitted s ++ [p_event p] else emitted s)%list.

(** Models [recordStatus] (backend/src/ramp/ramp-premium.service.ts:106-132). *)
Definition recordStatus (now : Z) (p : Purchase) (s : rstate) : rstate :=
  record_write now p (record_read p s) s.

Inductive RampError := BadRequest (m : string) | Unauthorized (m : string).

Record RampInitiateRequest := {
  i_fiatCurrency : string; i_fiatValue : F; i_cryptoCurrency : string; i_receiverAddress : option string }.

(** Models [validate] (backend/src/ramp/ramp-premium.service.ts:134-144). *)
Definition validate (req : RampInitiateRequest) : result RampError () :=
  if bool_decide (i_fiatCurrency req = "") || bool_decide (i_cryptoCurrency req = "") || negb (positive (i_fiatValue req))
  then Throw (BadRequest "fiatCurrency, cryptoCurrency and a positive fiatValue are required")
  else Ok tt.

Definition is_base32 (c : ascii) : bool := is_upper c || in_range "2" "7" c.

(** [/^G[A-Z2-7]{55}$/] *)
Definition stellar_key (s : string) : bool :=
  match s with String "G" r => str_forall is_base32 r && (str_len r =? 55) | _ => false end.

(** [uuid] is the random identifier; the answer is the identifier, the URL of
    the widget being built from it and the request.
    Models [initiate] (backend/src/ramp/ramp-premium.service.ts:67-103). *)
Definition initiate (RAMP_URL : option string) (uuid : string) (now : Z) (req : RampInitiateRequest) (s : rstate)
    : result RampError string * rstate :=
  match validate req with
  | Throw e => (Throw e, s)
  | Ok _ =>
      if negb (stellar_key (default "" (i_receiverAddress req)))
      then (Throw (BadRequest "receiverAddress must be a valid Stellar public key"), s)
      else
        match truthy RAMP_URL with
        | None => (Throw (BadRequest "Ramp provider is not configured"), s)
        | Some _ =>
            (Ok uuid,
             RState (<[uuid := {| t_status := "PENDING"; t_receiver := default "" (i_receiverAddress req); t_cryptoAmount := "0";
                                  t_cryptoCurrency := i_cryptoCurrency req; t_fiatValue := i_fiatValue req;
                                  t_fiatCurrency := i_fiatCurrency req; t_finalTxHash := None; t_lastSyncedAt := now |}]> (txs s))
               (emitted s))
        end
  end.

(** ** ramp.controller.ts *)

(** Models [verifySignature] (backend/src/ramp/ramp.controller.ts:219-239). *)
Definition verifySignature (RAMP_WEBHOOK_SECRET NODE_ENV : option string) (rawBody signature : option string)
    : result RampError () :=
  match truthy RAMP_WEBHOOK_SECRET with
  | None =>
      if bool_decide (NODE_ENV = Some "development") then Ok tt
      else Throw (Unauthorized "Ramp webhook secret not configured")
  | Some secret =>
      match truthy signature, rawBody with
      | Some sig, Some body =>
          if bool_decide (hex_bytes sig = hex_bytes (hmacHex secret body)) then Ok tt
          else Throw (Unauthorized "Invalid Ramp webhook signature")
      | _, _ => Throw (Unauthorized "Missing Ramp webhook signature")
      end
  end.

Record WebhookPayload := { w_type : option string; w_purchase : option Purchase }.

(** The handler, with the parsed body beside the raw one.
    Models [handleWebhook] (backend/src/ramp/ramp.controller.ts:132-177). *)
Definition handleWebhook (RAMP_WEBHOOK_SECRET NODE_ENV rawBody signature : option string) (payload : WebhookPayload)
    (now : Z) (s : rstate) : result RampError () * rstate :=
  match verifySignature RAMP_WEBHOOK_SECRET NODE_ENV rawBody signature with
  | Throw e => (Throw e, s)
  | Ok _ =>
      match w_purchase payload, truthy (w_type payload) with
      | Some p, Some _ =>
          if bool_decide (purchaseId (p_event p) = "") then (Throw (BadRequest "Invalid Ramp webhook payload"), s)
          else (Ok tt, recordStatus now p s)
      | _, _ => (Throw (BadRequest "Invalid Ramp webhook payload"), s)
      end
  end.

(** ** ramp-reconciliation.service.ts *)

(** Models [RampReconciliationResult] (backend/src/jobs/ramp-reconciliation.service.ts:6-12). *)
Record RampReconciliationResult := {
  checkedAt : Z; totalChecked : Z; mismatches : Z; mismatchedPurchaseIds : list string; ok : bool }.

(** Models [queryRampProviderStatus] (backend/src/jobs/ramp-reconciliation.service.ts:125-130). *)
Definition queryRampProviderStatus (_purchaseId : string) : option (string * option string) := None.

(** One turn of the loop. *)
Definition reconcile_tx (now : Z) (acc : rstate * list string) (row : string * RampTx) : rstate * list string :=
  let '(s, ids) := acc in
  let '(id, local_) := row in
  match queryRampProviderStatus id with
  | Some (st, hash) =>
      if bool_decide (st = t_status local_) then acc
      else
        (RState (alter (λ r, {| t_status := st; t_receiver := t_receiver r; t_cryptoAmount := t_cryptoAmount r;
                                t_cryptoCurrency := t_cryptoCurrency r; t_fiatValue := t_fiatValue r; t_fiatCurrency := t_fiatCurrency r;
                                t_finalTxHash := match truthy hash with Some h => Some h | None => t_finalTxHash local_ end;
                                t_lastSyncedAt := now |}) id (txs s)) (emitted s), ids ++ [id])%list
  | None => acc
  end.

(** Models [runReconciliation] (backend/src/jobs/ramp-reconciliation.service.ts:33-123). *)
Definition runReconciliation (RAMP_API_KEY : option string) (now : Z) (s : rstate) : RampReconciliationResult * rstate :=
  match truthy RAMP_API_KEY with
  | None => ({| checkedAt := now; totalChecked := 0; mismatches := 0; mismatchedPurchaseIds := []; ok := true |}, s)
  | Some _ =>
      let local := map_to_list (filter (λ kr : string * RampTx, now - 86400000 ≤ t_lastSyncedAt kr.2) (txs s)) in
      let '(s', ids) := foldl (reconcile_tx now) (s, []) local in
      ({| checkedAt := now; totalChecked := Z.of_nat (length local); mismatches := Z.of_nat (length ids);
          mismatchedPurchaseIds := ids; ok := bool_decide (ids = []) |}, s')
  end.

(** ** ramp-health-check.service.ts *)

(** [lastStatus], [lastKnownStatus] and the rows written, newest last. *)
Record hstate := HState { lastStatus : option (string * option string); lastKnown : option string; h_rows : list (string * option string) }.

(** Models [pingRampProvider] (backend/src/jobs/ramp-health-check.service.ts:94-99). *)
Definition pingRampProvider (_healthUrl : string) : result string (string * option string) := Ok ("up", None).

(** Models [checkProviderHealth] (backend/src/jobs/ramp-health-check.service.ts:32-92). *)
Definition checkProviderHealth (RAMP_HEALTH_URL : option string) (s : hstate) : (string * option string) * hstate :=
  match truthy RAMP_HEALTH_URL with
  | None =>
      let r := ("down", Some "RAMP_HEALTH_URL not configured") in
      (r, HState (Some r) (lastKnown s) (h_rows s))
  | Some url =>
      let r := match pingRampProvider url with Ok r => r | Throw err => ("down", Some err) end in
      (r, HState (Some r) (Some (fst r)) (h_rows s ++ [r])%list)
  end.

(** ** Deliveries in sequence *)

Definition deliver_all (l : list (Z * Purchase)) (s : rstate) : rstate := foldl (λ s d, recordStatus d.1 d.2 s) s l.

Definition emissions (id : string) (s : rstate) : nat := length (filter (λ e, purchaseId e = id) (emitted s)).

(** The number of times the status of a purchase becomes COMPLETE in a sequence
    of deliveries; [done]: it is COMPLETE before them. *)
Fixpoint completions (id : string) (done : bool) (l : list (Z * Purchase)) : nat :=
  match l with
  | [] => O
  | (_, p) :: l' =>
      if decide (purchaseId (p_event p) = id) then
        let c := bool_decide (p_status p = "COMPLETE") in
        (if c && negb done then S (completions id c l') else completions id c l')
      else completions id done l'
  end.

Definition complete_in (id : string) (s : rstate) : bool := bool_decide (t_status <$> txs s !! id = Some "COMPLETE").

Lemma record_emissions now p s id :
  emissions id (recordStatus now p s) =
  (if decide (purchaseId (p_event p) = id) then
     if bool_decide (p_status p = "COMPLETE") && negb (complete_in id s) then S (emissions id s) else emissions id s
   else emissions id s).
Proof.
  unfold recordStatus, record_write, record_read, emissions, complete_in. cbn [emitted].
  destruct (decide (purchaseId (p_event p) = id)) as [<-|Hne]; destruct (_ && _) eqn:E; try done.
  - rewrite filter_app, filter_cons, decide_True, filter_nil, length_app by done. cbn. lia.
  - rewrite filter_app, filter_cons, decide_False, filter_nil, app_nil_r by done. done.
Qed.

Lemma record_complete now p s id :
  complete_in id (recordStatus now p s) =
  if decide (purchaseId (p_event p) = id) then bool_decide (p_status p = "COMPLETE") else complete_in id s.
Proof.
  unfold complete_in, recordStatus, record_write. cbn [txs]. case_decide as Hd.
  - rewrite Hd, lookup_insert_eq. cbn. apply bool_decide_ext. split; congruence.
  - by rewrite lookup_insert_ne.
Qed.

(** One completion event per completion.  Deliveries that arrive one after the
    other emit the event of a purchase exactly as often as its status becomes
    COMPLETE; so a purchase that stays COMPLETE from then on, however often the
    provider repeats itself, is announced once. *)
Theorem completed_once (l : list (Z * Purchase)) (s : rstate) (id : string) :
  emissions id (deliver_all l s) = (emissions id s + completions id (complete_in id s) l)%nat ∧
  (complete_in id s = false → (∃ d, d ∈ l ∧ purchaseId (p_event d.2) = id) →
   Forall (λ d, purchaseId (p_event d.2) = id → p_status d.2 = "COMPLETE") l →
   emissions id (deliver_all l s) = S (emissions id s)).
Proof.
  assert (∀ l s, emissions id (deliver_all l s) = (emissions id s + completions id (complete_in id s) l)%nat) as Hall.
  { clear l s. induction l as [|[now p] l IH]; intros s; [cbn; lia|]. cbn [deliver_all foldl fst snd].
    fold (deliver_all l (recordStatus now p s)). rewrite IH, record_emissions, record_complete. cbn [completions].
    case_decide; [|done]. destruct (bool_decide _), (complete_in id s); cbn; lia. }
  split; [apply Hall|]. intros Hc Hex Hl. rewrite Hall, Hc.
  enough (completions id false l = 1%nat) by lia.
  assert (∀ l, Forall (λ d : Z * Purchase, purchaseId (p_event d.2) = id → p_status d.2 = "COMPLETE") l →
               completions id true l = O) as Htrue.
  { induction 1 as [|[now p] l' Hp _ IH]; [done|]. cbn [completions]. case_decide; [|done].
    cbn in Hp. rewrite bool_decide_true by auto. exact IH. }
  clear Hc. induction Hl as [|[now p] l' Hp Hl IH]; [by destruct Hex as (d & Hd%elem_of_nil & _)|].
  cbn [completions]. case_decide as Hd.
  - cbn in Hp. rewrite bool_decide_true by auto. cbn. by rewrite Htrue.
  - apply IH. destruct Hex as (d & [->|Hin]%elem_of_cons & Hid); [done|]. by exists d.
Qed.

(** A late delivery undoes a completion.  Nothing orders the deliveries of a
    purchase and a valid body can be delivered again at any time: after COMPLETE
    and REFUNDED, the first body is accepted once more, the refunded purchase is
    COMPLETE again and its completion is announced a second time. *)
Theorem replayed_completion_announced_again p q s now1 now2 now3 :
  purchaseId (p_event q) = purchaseId (p_event p) → p_status p = "COMPLETE" → p_status q = "REFUNDED" →
  complete_in (purchaseId (p_event p)) s = false →
  let s' := deliver_all [(now1, p); (now2, q); (now3, p)] s in
  emissions (purchaseId (p_event p)) s' = (2 + emissions (purchaseId (p_event p)) s)%nat ∧
  complete_in (purchaseId (p_event p)) s' = true.
Proof.
  intros Hq Hp Hr Hc. cbn [deliver_all foldl fst snd]. split.
  - rewrite !record_emissions, !record_complete, Hq, !decide_True by done. rewrite Hp, Hr, Hc. done.
  - rewrite !record_complete, decide_True by done. by rewrite Hp.
Qed.

(** ** Concurrent deliveries *)

Inductive phase := Arrived | HasRead (existing : option RampTx) | Finished.

(** [s_phase i]: where the [i]-th delivery is. *)
Record system := System { s_state : rstate; s_phase : nat → phase }.

Definition set_phase (i : nat) (ph : phase) (f : nat → phase) : nat → phase := λ j, if decide (j = i) then ph else f j.

(** One statement of one delivery. *)
Inductive step (ds : nat → option (Z * Purchase)) : relation system :=
  | step_read i now p s f :
      ds i = Some (now, p) → f i = Arrived →
      step ds (System s f) (System s (set_phase i (HasRead (record_read p s)) f))
  | step_write i now p e s f :
      ds i = Some (now, p) → f i = HasRead e →
      step ds (System s f) (System (record_write now p e s) (set_phase i Finished f)).

Definition initial (s : rstate) : system := System s (λ _, Arrived).

(** What a delivery of a purchase saw is not ahead of what was announced. *)
Definition announced (ds : nat → option (Z * Purchase)) (id : string) (y : system) : Prop :=
  (complete_in id (s_state y) = true → emissions id (s_state y) ≠ O) ∧
  (∀ i now p e, ds i = Some (now, p) → purchaseId (p_event p) = id → s_phase y i = HasRead e →
     t_status <$> e = Some "COMPLETE" → emissions id (s_state y) ≠ O) ∧
  (∀ i now p, ds i = Some (now, p) → purchaseId (p_event p) = id → p_status p = "COMPLETE" →
     s_phase y i = Finished → emissions id (s_state y) ≠ O).

Lemma write_emissions now p e s id :
  emissions id (record_write now p e s) =
  (if decide (purchaseId (p_event p) = id) then
     if bool_decide (p_status p = "COMPLETE") && negb (bool_decide (t_status <$> e = Some "COMPLETE"))
     then S (emissions id s) else emissions id s
   else emissions id s).
Proof.
  unfold record_write, emissions. cbn [emitted].
  destruct (decide (purchaseId (p_event p) = id)) as [<-|Hne]; destruct (_ && _) eqn:E; try done.
  - rewrite filter_app, filter_cons, decide_True, filter_nil, length_app by done. cbn. lia.
  - rewrite filter_app, filter_cons, decide_False, filter_nil, app_nil_r by done. done.
Qed.

Lemma step_announced ds id y y' : announced ds id y → step ds y y' → announced ds id y'.
Proof.
  intros (H1 & H2 & H3) Hs. destruct Hs as [i now p s f Hi Hf|i now p e s f Hi Hf]; cbn [s_state s_phase] in *.
  - unfold announced; cbn [s_state s_phase]. split_and!; [done| |].
    + intros j now' p' e' Hj Hid. unfold set_phase. case_decide as Hd; [|by eapply H2].
      subst j. intros [= <-] He. assert (p' = p) as -> by congruence. apply H1. unfold complete_in.
      apply bool_decide_eq_true. by rewrite <- Hid.
    + intros j now' p' Hj Hid Hst. unfold set_phase. case_decide; [done|]. by eapply H3.
  - assert (emissions id s ≠ O → emissions id (record_write now p e s) ≠ O) as Hmono
      by (rewrite write_emissions; repeat case_match; lia).
    assert (purchaseId (p_event p) = id → p_status p = "COMPLETE" → emissions id (record_write now p e s) ≠ O) as Hnew.
    { intros Hid Hst. rewrite write_emissions, decide_True, Hst by done. rewrite bool_decide_true by done. cbn [andb].
      case_bool_decide as He; cbn [negb]; [|lia]. by eapply H2. }
    unfold announced; cbn [s_state s_phase]. split_and!.
    + unfold complete_in, record_write. cbn [txs]. destruct (decide (purchaseId (p_event p) = id)) as [Hid|Hid].
      * rewrite Hid, lookup_insert_eq. cbn. intros Hst. apply bool_decide_eq_true in Hst. apply Hnew; congruence.
      * rewrite lookup_insert_ne by done. intros Hst. by apply Hmono, H1.
    + intros j now' p' e' Hj Hid. unfold set_phase. case_decide; [done|]. intros Hp He. eapply Hmono, H2; eauto.
    + intros j now' p' Hj Hid Hst. unfold set_phase. case_decide as Hd; [|intros Hp; eapply Hmono, H3; eauto].
      subst j. intros _. assert (p' = p) as -> by congruence. by apply Hnew.
Qed.

(** A completion is never lost.  However concurrent deliveries interleave, from a
    state in which the purchase is not COMPLETE, once a delivery with status
    COMPLETE has finished its completion has been announced. *)
Theorem completion_announced ds id s y i now p :
  rtc (step ds) (initial s) y → complete_in id s = false →
  ds i = Some (now, p) → purchaseId (p_event p) = id → p_status p = "COMPLETE" → s_phase y i = Finished →
  emissions id (s_state y) ≠ O.
Proof.
  intros Hr Hc. assert (announced ds id (initial s)) as H0.
  { unfold announced, initial. cbn. split_and!; [congruence|done|done]. }
  assert (announced ds id y) as (_ & _ & H3).
  { clear Hc. induction Hr as [|x z w Hs _ IH]; [done|]. apply IH. by eapply step_announced. }
  intros Hi Hid Hst Hf. by eapply H3.
Qed.

(** The read and the write are not one statement: two deliveries of one
    completed purchase that both read before either writes announce it twice. *)
Theorem concurrent_completions_announced_twice p s now1 now2 :
  p_status p = "COMPLETE" → complete_in (purchaseId (p_event p)) s = false →
  let ds := λ i, match i with O => Some (now1, p) | 1%nat => Some (now2, p) | _ => None end in
  ∃ y, rtc (step ds) (initial s) y ∧ emissions (purchaseId (p_event p)) (s_state y) = (2 + emissions (purchaseId (p_event p)) s)%nat.
Proof.
  intros Hst Hc ds. eexists. split.
  - eapply rtc_l; [by apply (step_read ds 0 now1 p)|]. eapply rtc_l; [by apply (step_read ds 1 now2 p)|].
    eapply rtc_l; [by apply (step_write ds 0 now1 p (record_read p s))|].
    eapply rtc_l; [by apply (step_write ds 1 now2 p (record_read p s))|]. apply rtc_refl.
  - cbn [s_state]. rewrite !write_emissions, !decide_True by done.
    assert (bool_decide (t_status <$> record_read p s = Some "COMPLETE") = false) as -> by exact Hc. by rewrite Hst.
Qed.

(** ** The webhook, the reconciliation and the health check *)

(** A purchase is recorded by an authentic delivery only.  Whenever the webhook
    changes the purchases, either the signature is the HMAC of the received body
    under the configured secret, or no secret is configured in development; every
    other request is refused and changes nothing. *)
Theorem webhook_authentic secret env rawBody signature payload now s r s' :
  handleWebhook secret env rawBody signature payload now s = (r, s') →
  (r = Ok tt ∧ (∃ p, w_purchase payload = Some p ∧ s' = recordStatus now p s) ∧
   ((∃ k body sig, truthy secret = Some k ∧ rawBody = Some body ∧ truthy signature = Some sig ∧
       hex_bytes sig = hex_bytes (hmacHex k body)) ∨
    (truthy secret = None ∧ env = Some "development"))) ∨
  (is_ok r = false ∧ s' = s).
Proof.
  unfold handleWebhook. destruct (verifySignature secret env rawBody signature) as [[]|e] eqn:Hv;
    [|intros [= <- <-]; by right].
  assert ((∃ k body sig, truthy secret = Some k ∧ rawBody = Some body ∧ truthy signature = Some sig ∧
             hex_bytes sig = hex_bytes (hmacHex k body)) ∨ (truthy secret = None ∧ env = Some "development")) as Ha.
  { unfold verifySignature in Hv. destruct (truthy secret) as [k|]; [left|right; by case_bool_decide].
    destruct (truthy signature) as [sig|]; [|done]. destruct rawBody as [body|]; [|done].
    case_bool_decide; [|done]. by exists k, body, sig. }
  destruct (w_purchase payload) as [p|]; [|intros [= <- <-]; by right].
  destruct (truthy (w_type payload)); [|intros [= <- <-]; by right].
  case_bool_decide; intros [= <- <-]; [by right|]. left. split_and!; [done|by exists p|done].
Qed.

(** The reconciliation never finds anything: the provider query is a stub that
    answers null, so every run reports no mismatch and leaves the table as it is,
    whatever the table holds. *)
Theorem reconciliation_always_ok key now s :
  let '(r, s') := runReconciliation key now s in ok r = true ∧ mismatches r = 0 ∧ mismatchedPurchaseIds r = [] ∧ s' = s.
Proof.
  unfold runReconciliation. destruct (truthy key); [|done].
  set (l := map_to_list _). assert (∀ a, foldl (reconcile_tx now) a l = a) as Hf.
  { induction l as [|[id r] l IH]; intros a; [done|]. cbn [foldl]. rewrite IH. by destruct a. }
  by rewrite Hf.
Qed.

(** The health check never pings: with any URL configured it reports up. *)
Theorem health_always_up url s :
  truthy url ≠ None → fst (checkProviderHealth url s) = ("up", None) ∧ lastKnown (snd (checkProviderHealth url s)) = Some "up".
Proof. unfold checkProviderHealth. by destruct (truthy url). Qed.

(** An initiated purchase stays PENDING unless the provider reports it under the
    identifier generated here: deliveries for other identifiers leave its row. *)
Theorem initiated_row_stays RAMP_URL uuid now req s s' l :
  initiate RAMP_URL uuid now req s = (Ok uuid, s') → Forall (λ d, purchaseId (p_event d.2) ≠ uuid) l →
  t_status <$> txs (deliver_all l s') !! uuid = Some "PENDING".
Proof.
  intros Hi Hl.
  assert (t_status <$> txs s' !! uuid = Some "PENDING") as Hrow.
  { unfold initiate in Hi. destruct (validate req); [|done]. destruct (stellar_key _); [|done].
    destruct (truthy RAMP_URL); [|done]. simplify_eq/=. by rewrite lookup_insert_eq. }
  clear Hi. revert s' Hrow. induction Hl as [|[now' p] l Hp _ IH]; intros s' Hrow; [done|].
  cbn [deliver_all foldl fst snd]. apply IH. unfold recordStatus, record_write. cbn [txs]. by rewrite lookup_insert_ne.
Qed.
End ramp.

(** ** Concrete runs *)

Module RampWitnesses.
#[local] Existing Instance SignatureWitnesses.sample_hmac.

Definition bought : RampCompletedEvent (F:=Z) :=
  {| purchaseId := "r-1"; receiverAddress := "GA"; cryptoAmount := "10"; cryptoCurrency := "XLM"; fiatValue := 5;
     fiatCurrency := "EUR"; finalTxHash := None |}.
Definition bought_as (st : string) : Purchase (F:=Z) := {| p_event := bought; p_status := st |}.
Definition no_purchases : rstate (F:=Z) := RState ∅ [].

Lemma completed_once_witness :
  emissions "r-1" (deliver_all [(1, bought_as "COMPLETE"); (2, bought_as "COMPLETE")] no_purchases) = 1%nat.
Proof.
  refine (eq_trans (proj2 (completed_once [(1, bought_as "COMPLETE"); (2, bought_as "COMPLETE")] no_purchases "r-1") eq_refl _ _) _).
  - exists (1, bought_as "COMPLETE"). split; [left|reflexivity].
  - repeat constructor.
  - reflexivity.
Defined.

Lemma replayed_completion_announced_again_witness :
  emissions "r-1" (deliver_all [(1, bought_as "COMPLETE"); (2, bought_as "REFUNDED"); (3, bought_as "COMPLETE")] no_purchases) = 2%nat.
Proof.
  refine (proj1 (replayed_completion_announced_again (bought_as "COMPLETE") (bought_as "REFUNDED") no_purchases 1 2 3 _ _ _ _)); reflexivity.
Defined.

Definition one_delivery (i : nat) : option (Z * Purchase (F:=Z)) := match i with O => Some (1, bought_as "COMPLETE") | _ => None end.

Lemma completion_announced_witness :
  ∃ y, rtc (step one_delivery) (initial no_purchases) y ∧ emissions "r-1" (s_state y) ≠ O.
Proof.
  set (y := System (record_write 1 (bought_as "COMPLETE") None no_purchases) (set_phase 0 Finished (set_phase 0 (HasRead None) (λ _, Arrived)))).
  assert (rtc (step one_delivery) (initial no_purchases) y) as H.
  { eapply rtc_l; [by apply (step_read one_delivery 0 1 (bought_as "COMPLETE"))|].
    eapply rtc_l; [by apply (step_write one_delivery 0 1 (bought_as "COMPLETE") None)|]. apply rtc_refl. }
  exists y. split; [exact H|].
  apply (completion_announced one_delivery "r-1" no_purchases y 0 1 (bought_as "COMPLETE") H); reflexivity.
Defined.

Lemma concurrent_completions_announced_twice_witness :
  ∃ ds y, rtc (step ds) (initial no_purchases) y ∧ emissions "r-1" (s_state y) = 2%nat.
Proof.
  eexists. exact (concurrent_completions_announced_twice (bought_as "COMPLETE") no_purchases 1 2 eq_refl eq_refl).
Defined.

Lemma webhook_authentic_witness :
  is_ok (handleWebhook (Some "k") None (Some "{}") None {| w_type := Some "PURCHASE_CREATED"; w_purchase := Some (bought_as "COMPLETE") |} 1 no_purchases).1 = false.
Proof.
  destruct (webhook_authentic (Some "k") None (Some "{}") None {| w_type := Some "PURCHASE_CREATED"; w_purchase := Some (bought_as "COMPLETE") |}
    1 no_purchases _ _ eq_refl) as [(H & _)|(H & _)]; [discriminate H|exact H].
Defined.

Definition request : RampInitiateRequest (F:=Z) :=
  {| i_fiatCurrency := "EUR"; i_fiatValue := 5; i_cryptoCurrency := "XLM";
     i_receiverAddress := Some "GAAAAAAAAAAAAAAAAAAAAAAAAAAAAAAAAAAAAAAAAAAAAAAAAAAAAAAA" |}.

Lemma initiated_row_stays_witness :
  t_status <$> txs (deliver_all [(2, bought_as "COMPLETE")]
    (initiate (Z.ltb 0) (Some "https://app.ramp.network") "u-1" 1 request no_purchases).2) !! "u-1" = Some "PENDING".
Proof.
  apply (initiated_row_stays (Z.ltb 0) (Some "https://app.ramp.network") "u-1" 1 request no_purchases); [reflexivity|].
  repeat constructor. discriminate.
Defined.
End RampWitnesses.
