(* ===== verification/PolicyRead.v ===== *)
(** * Policy listings

    backend/src/policy/policy-read.service.ts: the keyset listing and the search
    of policies, and the reads by id, scoped by the tenant helper.  The table is
    an interface, with the collation of ids the database orders by; the read
    replica is another state of the same table. *)

From stdpp Require Import base gmap list strings sorting.
From Stdlib Require Import ZArith Lia Ascii Sorted.
From S2P Require Import Prelude Keyset JsText JsNumber Codec Pagination Tenant.

Open Scope string_scope.
Open Scope Z_scope.

(** ** Rows and conditions *)

Record Policy := {
  id : string; policyId : Z; holderAddress : string; policyType : string; region : string; isActive : bool;
  createdAt : Z; tenantId : option string; deletedAt : option Z }.

Definition policy_obj (p : Policy) : obj :=
  {["id" := VStr (id p); "holderAddress" := VStr (holderAddress p); "policyType" := VStr (policyType p);
    "region" := VStr (region p); "isActive" := VBool (isActive p);
    "tenantId" := match tenantId p with Some t => VStr t | None => VNull end;
    "deletedAt" := match deletedAt p with Some t => VNum t | None => VNull end]}.

(** A condition: the columns compared for equality, the text the holder must
    contain in any case, the ids to choose from, the keyset under OR. *)
Record PolicyWhere := {
  w_fields : obj; w_contains : option string; w_ids : option (list string); w_after : option (Z * string) }.

Class PolicyTable (D : Type) := {
  id_ltb : string → string → bool;
  policy_rows : D → list Policy;
  (** [orderBy: [{ createdAt: 'desc' }, { id: 'desc' }], take] *)
  policy_page : PolicyWhere → nat → D → list Policy;
  policy_findMany : PolicyWhere → D → list Policy;
  policy_count : PolicyWhere → D → Z;
  policy_findUnique : string → D → option Policy;
}.

Section conditions.
Context {D : Type} `{PolicyTable D}.

Definition after_keyset (k : Z * string) (p : Policy) : bool :=
  (createdAt p <? k.1) || ((createdAt p =? k.1) && id_ltb (id p) k.2).

Definition policy_matches (w : PolicyWhere) (p : Policy) : bool :=
  row_matches (w_fields w) (policy_obj p) &&
  match w_contains w with Some s => includes (toLowerCase (holderAddress p)) (toLowerCase s) | None => true end &&
  match w_ids w with Some l => bool_decide (id p ∈ l) | None => true end &&
  match w_after w with Some k => after_keyset k p | None => true end.

(** Newest first; among rows of one instant, by descending id. *)
Definition newer (a b : Policy) : Prop :=
  createdAt b < createdAt a ∨ (createdAt b = createdAt a ∧ id_ltb (id b) (id a) = true).
End conditions.

Class PolicyTableLaws (D : Type) `{PolicyTable D} : Prop := {
  id_lt_irrefl : ∀ a, id_ltb a a = false;
  id_lt_trans : ∀ a b c, id_ltb a b = true → id_ltb b c = true → id_ltb a c = true;
  page_sorted : ∀ w n d, ∃ l, l ≡ₚ List.filter (policy_matches w) (policy_rows d) ∧ StronglySorted newer l ∧
    policy_page w n d = take n l;
  findMany_rows : ∀ w d, policy_findMany w d ≡ₚ List.filter (policy_matches w) (policy_rows d);
  count_rows : ∀ w d, policy_count w d = Z.of_nat (length (List.filter (policy_matches w) (policy_rows d)));
  findUnique_row : ∀ i d p, policy_findUnique i d = Some p → p ∈ policy_rows d ∧ id p = i;
}.

(** ** The service *)

(** Models [ListPoliciesParams] (backend/src/policy/policy-read.service.ts:8-14). *)
Record ListPoliciesParams := {
  l_after : option string; l_first : option Z; l_holderAddress : option string; l_active : option bool;
  l_includeDeleted : option bool }.

(** Models [SearchPoliciesParams] (backend/src/policy/policy-read.service.ts:16-23). *)
Record SearchPoliciesParams := {
  s_holder : option string; s_type : option string; s_region : option string; s_active : option bool;
  s_after : option string; s_first : option Z }.

(** Models [PolicyConnection] (backend/src/policy/policy-read.service.ts:25-29). *)
Record PolicyConnection := { items : list Policy; nextCursor : option string; total : Z }.

Inductive PolicyError := InvalidPolicyCursor (c : string) | NotOwned (e : tenant_error) | PolicyNotFound (i : string).

(** Models [clampFirst] (backend/src/policy/policy-read.service.ts:39-41). *)
Definition clampFirst (first : option Z) : Z := Z.min (Z.max 1 (default 20 first)) 100.

(** [JSON.stringify({ createdAt, id })]; the id of a policy is a plain text. *)
Definition policy_cursor_json (createdAt : Z) (i : string) : string :=
  "{" +:+ quoted "createdAt" +:+ ":" +:+ quoted (toISOString createdAt) +:+ "," +:+ quoted "id" +:+ ":" +:+ quoted i +:+ "}".

(** Models [encodePolicyCursor] (backend/src/policy/policy-read.service.ts:43-48). *)
Definition encodePolicyCursor (p : Policy) : string := toBase64Url (policy_cursor_json (createdAt p) (id p)).

(** [a && { key: value }] on an object being built. *)
Definition set_text (k : string) (v : option string) (o : obj) : obj :=
  match truthy v with Some s => <[k := VStr s]> o | None => o end.
Definition set_flag (k : string) (v : option bool) (o : obj) : obj :=
  match v with Some b => <[k := VBool b]> o | None => o end.

Section service.
Context {D : Type} `{PolicyTable D} `{CP : CursorPlatform}.
Variable ctxTenantId : option string.

(** The decoded cursor, as the instant and the id the condition compares with.
    Models [decodePolicyCursor] (backend/src/policy/policy-read.service.ts:50-65). *)
Definition decodePolicyCursor (cursor : string) : result PolicyError (Z * string) :=
  match JSON_parse (fromBase64Url cursor) with
  | Some (JObj fields) =>
      match get_field "createdAt" fields, get_field "id" fields with
      | Some (JStr c), Some (JStr i) =>
          match Date_parse c with Some ms => Ok (ms, i) | None => Throw (InvalidPolicyCursor cursor) end
      | _, _ => Throw (InvalidPolicyCursor cursor)
      end
  | _ => Throw (InvalidPolicyCursor cursor)
  end.

Definition decode_after (after : option string) : result PolicyError (option (Z * string)) :=
  match truthy after with
  | None => Ok None
  | Some c => let! k := decodePolicyCursor c in Ok (Some k)
  end.

(** Models [getReadClient] (backend/src/policy/policy-read.service.ts:76-78). *)
Definition getReadClient (replicaEnabled : bool) (primary replica : D) : D := if replicaEnabled then replica else primary.

(** The condition once the cursor is decoded. *)
Definition list_where (params : ListPoliciesParams) (k : option (Z * string)) : PolicyWhere :=
  {| w_fields := policyTenantWhere ctxTenantId
       (set_flag "isActive" (l_active params) (set_text "holderAddress" (l_holderAddress params) ∅))
       (default false (l_includeDeleted params));
     w_contains := None; w_ids := None; w_after := k |}.

(** Models [buildListWhere] (backend/src/policy/policy-read.service.ts:190-218). *)
Definition buildListWhere (params : ListPoliciesParams) : result PolicyError PolicyWhere :=
  let! k := decode_after (l_after params) in
  Ok (list_where params k).

(** The answer from the rows of the page and the count of the condition, which
    are two statements and may see two states. *)
Definition connection (first : Z) (w : PolicyWhere) (dPage dCount : D) : PolicyConnection :=
  let items := policy_page w (Z.to_nat first) dPage in
  let total := policy_count w dCount in
  {| items := items;
     nextCursor := if (0 <? length items)%nat && (Z.of_nat (length items) =? first) && (first <? total)
                   then encodePolicyCursor <$> last items else None;
     total := total |}.

(** Models [listPolicies] (backend/src/policy/policy-read.service.ts:80-103). *)
Definition listPolicies (params : ListPoliciesParams) (dPage dCount : D) : result PolicyError PolicyConnection :=
  let first := clampFirst (l_first params) in
  let! w := buildListWhere params in
  Ok (connection first w dPage dCount).

Definition search_where (params : SearchPoliciesParams) (k : option (Z * string)) : PolicyWhere :=
  {| w_fields := policyTenantWhere ctxTenantId
       (set_flag "isActive" (s_active params) (set_text "region" (s_region params) (set_text "policyType" (s_type params) ∅)))
       false;
     w_contains := truthy (s_holder params); w_ids := None; w_after := k |}.

(** Models [searchPolicies] (backend/src/policy/policy-read.service.ts:135-188). *)
Definition searchPolicies (params : SearchPoliciesParams) (dPage dCount : D) : result PolicyError PolicyConnection :=
  let first := clampFirst (s_first params) in
  let! k := decode_after (s_after params) in
  Ok (connection first (search_where params k) dPage dCount).

(** Models [getPolicyById] (backend/src/policy/policy-read.service.ts:105-116). *)
Definition getPolicyById (i : string) (includeDeleted : bool) (d : D) : result PolicyError Policy :=
  let policy := policy_findUnique i d in
  match assertTenantOwnership (policy_obj <$> policy) ctxTenantId ("Policy " +:+ i) with
  | Throw e => Throw (NotOwned e)
  | Ok _ =>
      match policy with
      | None => Throw (PolicyNotFound i)
      | Some p =>
          if negb includeDeleted && bool_decide (is_Some (deletedAt p)) then Throw (PolicyNotFound i) else Ok p
      end
  end.

(** Models [getPoliciesByIds] (backend/src/policy/policy-read.service.ts:118-133). *)
Definition getPoliciesByIds (ids : list string) (includeDeleted : bool) (d : D) : gmap string Policy :=
  let policies := policy_findMany
    {| w_fields := policyTenantWhere ctxTenantId ∅ includeDeleted; w_contains := None;
       w_ids := Some (remove_dups ids); w_after := None |} d in
  foldl (λ m p, <[id p := p]> m) ∅ policies.
End service.

(** ** Cursors *)

Lemma policy_cursor_parsed ms i :
  str_forall plain i = true →
  JSON_parse (policy_cursor_json ms i) = Some (JObj [("createdAt", JStr (toISOString ms)); ("id", JStr i)]).
Proof.
  intros Hi. unfold JSON_parse.
  assert (∃ r, policy_cursor_json ms i = String "{" (String dquote r) ∧
            String dquote r = quoted "createdAt" +:+ ":" +:+ quoted (toISOString ms) +:+ "," +:+ quoted "id" +:+ ":" +:+ quoted i +:+ "}")
    as (r & -> & Hr) by by eexists.
  replace (2 * String.length (String "{" (String dquote r)) + 2)%nat with (S (S (S (S (S (S (2 * String.length r)))))))
    by (cbn [String.length]; lia).
  rewrite json_value_brace, Hr, json_members_text by (done || apply toISOString_plain).
  by rewrite json_members_last_text.
Qed.

Section facts.
Context {D : Type} `{PL : PolicyTableLaws D} `{CL : CursorPlatformLaws}.
Variable ctxTenantId : option string.

#[local] Instance policy_newer_strict : StrictOrder (newer (D:=D)).
Proof.
  split.
  - intros a [Ha|[_ Ha]]; [lia|]. by rewrite id_lt_irrefl in Ha.
  - intros a b c [Hab|[Eab Hab]] [Hbc|[Ebc Hbc]]; unfold newer; [lia|lia|lia|]. right. split; [lia|].
    by eapply id_lt_trans.
Qed.

(** Rows whose cursor is exact. *)
Definition cursor_ok (p : Policy) : Prop := 0 ≤ createdAt p < 253402300800000 ∧ str_forall plain (id p) = true.

Lemma decode_encoded p : cursor_ok p → decode_after (Some (encodePolicyCursor p)) = Ok (Some (createdAt p, id p)).
Proof.
  intros [Hc Hi]. unfold decode_after, encodePolicyCursor. rewrite base64_truthy by done. unfold decodePolicyCursor.
  rewrite base64url_roundtrip, policy_cursor_parsed by done. cbn [get_field].
  rewrite (bool_decide_true ("createdAt" = "createdAt")), (bool_decide_false ("id" = "createdAt")),
    (bool_decide_true ("id" = "id")) by done.
  by rewrite Date_parse_iso.
Qed.

Definition key_of (p : Policy) : Z * string := (createdAt p, id p).

Lemma after_newer x p : after_keyset (key_of x) p = true ↔ newer x p.
Proof. unfold after_keyset, key_of, newer. cbn. rewrite orb_true_iff, andb_true_iff, Z.ltb_lt, Z.eqb_eq. done. Qed.

(** The keyset is one more condition. *)
Lemma with_keyset (mk : option (Z * string) → PolicyWhere) k p :
  (∀ k, w_fields (mk k) = w_fields (mk None) ∧ w_contains (mk k) = w_contains (mk None) ∧ w_ids (mk k) = w_ids (mk None) ∧
        w_after (mk k) = k) →
  policy_matches (mk (Some k)) p = policy_matches (mk None) p && after_keyset k p.
Proof.
  intros Hmk. destruct (Hmk (Some k)) as (H1 & H2 & H3 & H4). destruct (Hmk None) as (_ & _ & _ & H5).
  unfold policy_matches. rewrite H1, H2, H3, H4, H5. by rewrite andb_true_r.
Qed.

(** The answer after the rows [l1], when [l2] are the rest. *)
Lemma connection_rest mk first d (l1 l2 : list Policy) :
  (∀ k, w_fields (mk k) = w_fields (mk None) ∧ w_contains (mk k) = w_contains (mk None) ∧ w_ids (mk k) = w_ids (mk None) ∧
        w_after (mk k) = k) →
  (l1 ++ l2)%list ≡ₚ List.filter (policy_matches (mk None)) (policy_rows d) → StronglySorted newer (l1 ++ l2)%list →
  1 ≤ first →
  let page := take (Z.to_nat first) l2 in
  connection first (mk (key_of <$> last l1)) d d =
    {| items := page; total := Z.of_nat (length l2);
       nextCursor := if first <? Z.of_nat (length l2) then encodePolicyCursor <$> last page else None |}.
Proof.
  intros Hmk Hp Hs Hf page.
  assert (l2 ≡ₚ List.filter (policy_matches (mk (key_of <$> last l1))) (policy_rows d)) as Hrest.
  { destruct (last l1) as [x|] eqn:Ex.
    - apply last_Some in Ex as [l0 ->]. cbn [fmap option_fmap option_map].
      rewrite (List.filter_ext _ (λ p, policy_matches (mk None) p && after_keyset (key_of x) p)) by (intros p; by apply with_keyset).
      rewrite <- filter_filter, <- Hp. rewrite (keyset_selects newer (λ x, after_keyset (key_of x))); [done| |done].
      intros p. apply after_newer.
    - apply last_None in Ex as ->. exact Hp. }
  destruct (page_sorted (mk (key_of <$> last l1)) (Z.to_nat first) d) as (l & Hl & Hls & Hpage).
  assert (l = l2) as ->.
  { apply (sorted_unique newer); [done|by apply sorted_split in Hs as (_ & ? & _); try apply _|by rewrite Hl, Hrest]. }
  unfold connection. rewrite Hpage, count_rows, <- Hrest. fold page. f_equal.
  assert (length page = (Z.to_nat first `min` length l2)%nat) as Hlen by apply length_take.
  destruct (Z.ltb_spec first (Z.of_nat (length l2))) as [Hlt|Hge]; [|by rewrite andb_false_r].
  destruct (Nat.ltb_spec 0 (length page)); [|lia]. destruct (Z.eqb_spec (Z.of_nat (length page)) first); [done|lia].
Qed.

(** A request with the cursor of a prefix is the connection after it. *)
Lemma serve_listing mk first d rows (serve : option string → result PolicyError (list Policy * option string)) :
  (∀ k, w_fields (mk k) = w_fields (mk None) ∧ w_contains (mk k) = w_contains (mk None) ∧ w_ids (mk k) = w_ids (mk None) ∧
        w_after (mk k) = k) →
  (∀ a, serve a = let! k := decode_after a in Ok (items (connection first (mk k) d d), nextCursor (connection first (mk k) d d))) →
  Forall cursor_ok (policy_rows d) → 1 ≤ first →
  rows ≡ₚ List.filter (policy_matches (mk None)) (policy_rows d) → StronglySorted newer rows →
  keyset_listing serve encodePolicyCursor (λ p, p) (Z.to_nat first) rows.
Proof.
  intros Hmk Hserve Hok Hf Hp Hs l1 l2 ->. rewrite Hserve.
  assert (decode_after (encodePolicyCursor <$> last l1) = Ok (key_of <$> last l1)) as ->.
  { destruct (last l1) as [x|] eqn:Ex; [|done]. apply decode_encoded. rewrite Forall_forall in Hok. apply Hok.
    apply last_Some in Ex as [l0 ->].
    enough (x ∈ List.filter (policy_matches (mk None)) (policy_rows d)) as [? _]%elem_of_bfilter by done.
    rewrite <- Hp. rewrite !elem_of_app. left. right. by left. }
  cbn [rbind]. rewrite (connection_rest mk first d l1 l2) by done. cbn [items nextCursor]. rewrite list_fmap_id.
  eexists. split; [reflexivity|]. destruct (Z.ltb_spec first (Z.of_nat (length l2))) as [Hlt|Hge]; [|lia].
  destruct (last (take (Z.to_nat first) l2)) as [x|] eqn:Ex.
  - cbn [fmap option_fmap option_map]. split; [by intros E; rewrite E in Ex|]. by rewrite last_app, Ex.
  - apply last_None, (f_equal length) in Ex. rewrite length_take in Ex. cbn in Ex. lia.
Qed.

Lemma clampFirst_range f : 1 ≤ clampFirst f ≤ 100.
Proof. unfold clampFirst. lia. Qed.

Definition list_request (params : ListPoliciesParams) (d : D) (a : option string) : result PolicyError (list Policy * option string) :=
  let! c := listPolicies ctxTenantId
    {| l_after := a; l_first := l_first params; l_holderAddress := l_holderAddress params; l_active := l_active params;
       l_includeDeleted := l_includeDeleted params |} d d in
  Ok (items c, nextCursor c).

Definition search_request (params : SearchPoliciesParams) (d : D) (a : option string) : result PolicyError (list Policy * option string) :=
  let! c := searchPolicies ctxTenantId
    {| s_holder := s_holder params; s_type := s_type params; s_region := s_region params; s_active := s_active params;
       s_after := a; s_first := s_first params |} d d in
  Ok (items c, nextCursor c).

(** Every matching policy is read once.  Over an unchanged table, a client that
    lists or searches and follows nextCursor until it is null ends and gets
    exactly the policies of its tenant that satisfy the filters, newest first and
    each of them once, whatever the page size asked for. *)
Theorem policies_read_once (d : D) lp sp :
  Forall cursor_ok (policy_rows d) →
  (∃ l, l ≡ₚ List.filter (policy_matches (list_where ctxTenantId lp None)) (policy_rows d) ∧ StronglySorted newer l ∧
     follow (list_request lp d) (S (length l)) None = Some l) ∧
  (∃ l, l ≡ₚ List.filter (policy_matches (search_where ctxTenantId sp None)) (policy_rows d) ∧ StronglySorted newer l ∧
     follow (search_request sp d) (S (length l)) None = Some l).
Proof.
  intros Hok. split.
  - destruct (page_sorted (list_where ctxTenantId lp None) 0 d) as (l & Hl & Hs & _). exists l. split_and!; [done..|].
    rewrite (follow_all _ encodePolicyCursor (λ p, p) (Z.to_nat (clampFirst (l_first lp)))); [by rewrite list_fmap_id|].
    apply (serve_listing (list_where ctxTenantId lp) (clampFirst (l_first lp)) d); try done; [|apply clampFirst_range].
    intros a. unfold list_request, listPolicies, buildListWhere. cbn [l_after]. by destruct (decode_after a).
  - destruct (page_sorted (search_where ctxTenantId sp None) 0 d) as (l & Hl & Hs & _). exists l. split_and!; [done..|].
    rewrite (follow_all _ encodePolicyCursor (λ p, p) (Z.to_nat (clampFirst (s_first sp)))); [by rewrite list_fmap_id|].
    apply (serve_listing (search_where ctxTenantId sp) (clampFirst (s_first sp)) d); try done; [|apply clampFirst_range].
    intros a. unfold search_request, searchPolicies. cbn [s_after]. by destruct (decode_after a).
Qed.

(** The total of a page is what is left.  The count uses the condition of the
    page, keyset included: on the page after the rows [l1] the answer's total is
    the number of rows not yet read, not the number of matching policies. *)
Theorem policies_total_remaining (d : D) lp l1 x l2 conn :
  Forall cursor_ok (policy_rows d) →
  ((l1 ++ [x]) ++ l2)%list ≡ₚ List.filter (policy_matches (list_where ctxTenantId lp None)) (policy_rows d) →
  StronglySorted newer ((l1 ++ [x]) ++ l2)%list →
  l_after lp = Some (encodePolicyCursor x) → listPolicies ctxTenantId lp d d = Ok conn →
  total conn = Z.of_nat (length l2).
Proof.
  intros Hok Hp Hs Ha Hl. unfold listPolicies, buildListWhere in Hl. rewrite Ha, decode_encoded in Hl.
  - cbn [rbind] in Hl. injection Hl as <-.
    pose proof (connection_rest (list_where ctxTenantId lp) (clampFirst (l_first lp)) d (l1 ++ [x]) l2) as Hc.
    rewrite last_snoc in Hc. cbn [fmap option_fmap option_map] in Hc. change (key_of x) with (createdAt x, id x) in Hc.
    rewrite Hc; try done. pose proof (clampFirst_range (l_first lp)). lia.
  - rewrite Forall_forall in Hok. apply Hok.
    enough (x ∈ List.filter (policy_matches (list_where ctxTenantId lp None)) (policy_rows d)) as [? _]%elem_of_bfilter by done.
    rewrite <- Hp, !elem_of_app. left. right. by left.
Qed.

Lemma policy_obj_lookup p :
  policy_obj p !! "tenantId" = Some (match tenantId p with Some t => VStr t | None => VNull end) ∧
  policy_obj p !! "deletedAt" = Some (match deletedAt p with Some t => VNum t | None => VNull end).
Proof. by split. Qed.

(** What a caller may be shown. *)
Definition may_see (includeDeleted : bool) (p : Policy) : Prop :=
  (∀ t, truthy ctxTenantId = Some t → tenantId p = Some t) ∧ (includeDeleted = false → deletedAt p = None).

Lemma scoped_policy extra inc p :
  extra !! "tenantId" = None → extra !! "deletedAt" = None →
  row_matches (policyTenantWhere ctxTenantId extra inc) (policy_obj p) = true → may_see inc p.
Proof.
  intros Ht Hd Hm. apply scoped_row in Hm as (H1 & H2 & _); [|done..]. destruct (policy_obj_lookup p) as [E1 E2].
  rewrite E1 in H1. rewrite E2 in H2. split.
  - intros t Htt. specialize (H1 t Htt). destruct (tenantId p); congruence.
  - intros Hi. specialize (H2 Hi). by destruct (deletedAt p).
Qed.

Lemma set_text_other k k' v o : k ≠ k' → set_text k v o !! k' = o !! k'.
Proof. intros Hk. unfold set_text. destruct (truthy v); [by rewrite lookup_insert_ne|done]. Qed.

Lemma set_flag_other k k' v o : k ≠ k' → set_flag k v o !! k' = o !! k'.
Proof. intros Hk. unfold set_flag. destruct v; [by rewrite lookup_insert_ne|done]. Qed.

Lemma page_scoped first w dPage dCount p extra inc :
  w_fields w = policyTenantWhere ctxTenantId extra inc → extra !! "tenantId" = None → extra !! "deletedAt" = None →
  p ∈ items (connection first w dPage dCount) → may_see inc p.
Proof.
  intros Hw Ht Hd Hp. cbn [connection items] in Hp. destruct (page_sorted w (Z.to_nat first) dPage) as (l & Hl & _ & E).
  rewrite E in Hp. apply elem_of_take in Hp as (i & Hi & _). apply list_elem_of_lookup_2 in Hi. rewrite Hl in Hi.
  apply elem_of_bfilter in Hi as [_ Hm]. unfold policy_matches in Hm. bool_prop. rewrite Hw in *. by eapply scoped_policy.
Qed.

Lemma map_of_rows (l : list Policy) i p : foldl (λ m p, <[id p := p]> m) (∅ : gmap string Policy) l !! i = Some p → p ∈ l ∧ id p = i.
Proof.
  induction l as [|x l IH] using rev_ind; intros Hl; [change ((∅ : gmap string Policy) !! i = Some p) in Hl; by rewrite lookup_empty in Hl|]. rewrite foldl_app in Hl. cbn in Hl.
  destruct (decide (id x = i)) as [<-|Hne].
  - rewrite lookup_insert_eq in Hl. injection Hl as ->. split; [|done]. apply elem_of_app. right. by left.
  - rewrite lookup_insert_ne in Hl by done. destruct (IH Hl) as [Hin Hid]. split; [|done]. apply elem_of_app. by left.
Qed.

(** No read crosses tenants.  Whatever state of the table, primary or replica,
    each statement sees, every policy in an answer of the four reads belongs to
    the caller's tenant, when there is one, and is not deleted unless deleted
    policies were asked for; a policy of another tenant is refused. *)
Theorem policy_reads_scoped (d1 d2 : D) :
  (∀ lp c p, listPolicies ctxTenantId lp d1 d2 = Ok c → p ∈ items c → may_see (default false (l_includeDeleted lp)) p) ∧
  (∀ sp c p, searchPolicies ctxTenantId sp d1 d2 = Ok c → p ∈ items c → may_see false p) ∧
  (∀ i inc p, getPolicyById ctxTenantId i inc d1 = Ok p → id p = i ∧ may_see inc p) ∧
  (∀ ids inc i p, getPoliciesByIds ctxTenantId ids inc d1 !! i = Some p → i ∈ ids ∧ id p = i ∧ may_see inc p).
Proof.
  split_and!.
  - intros lp c p Hl Hp. unfold listPolicies, buildListWhere in Hl. destruct (decode_after _); [|done]. cbn [rbind] in Hl.
    injection Hl as <-.
    refine (page_scoped _ (list_where ctxTenantId lp _) d1 d2 p _ _ eq_refl _ _ Hp); by rewrite set_flag_other, set_text_other, lookup_empty.
  - intros sp c p Hl Hp. unfold searchPolicies in Hl. destruct (decode_after _); [|done]. cbn [rbind] in Hl.
    injection Hl as <-.
    refine (page_scoped _ (search_where ctxTenantId sp _) d1 d2 p _ _ eq_refl _ _ Hp); by rewrite set_flag_other, !set_text_other, lookup_empty.
  - intros i inc p Hg. unfold getPolicyById in Hg. destruct (policy_findUnique i d1) as [q|] eqn:Hq; cbn in Hg.
    + destruct (truthy ctxTenantId) as [t|] eqn:Ht.
      * destruct (policy_obj_lookup q) as [E _]. rewrite E in Hg.
        destruct (is_str t _) eqn:Hs; [|done]. apply is_str_iff in Hs. destruct (_ && _) eqn:Hd; [done|]. injection Hg as ->.
        apply findUnique_row in Hq as [_ Hid]. split; [done|]. split; [|intros ->; cbn in Hd; by destruct (deletedAt p)].
        intros t' [= <-]. destruct (tenantId p); congruence.
      * destruct (_ && _) eqn:Hd; [done|]. injection Hg as ->. apply findUnique_row in Hq as [_ Hid]. split; [done|].
        split; [intros t' Ht'; congruence|intros ->; cbn in Hd; by destruct (deletedAt p)].
    + by destruct (truthy ctxTenantId).
  - intros ids inc i p Hg. apply map_of_rows in Hg as [Hin Hid]. rewrite findMany_rows in Hin.
    apply elem_of_bfilter in Hin as [_ Hm]. unfold policy_matches in Hm. cbn [w_fields w_contains w_ids w_after] in Hm. bool_prop.
    split; [rewrite <- Hid; by match goal with Hd : _ ∈ remove_dups _ |- _ => rewrite elem_of_remove_dups in Hd end|]. split; [done|]. by apply (scoped_policy ∅).
Qed.
End facts.

(** ** A table of lists *)

Module PolicyReadWitnesses.
Import CursorSample.

Definition table : Type := { rows : list Policy | NoDup (id <$> rows) }.

Definition id_before (a b : string) : bool := (encode a <? encode b)%positive.

Definition policy_le (a b : Policy) : Prop :=
  createdAt b < createdAt a ∨ (createdAt b = createdAt a ∧ (encode (id b) ≤ encode (id a))%positive).
#[export] Instance policy_le_dec a b : Decision (policy_le a b).
Proof. unfold policy_le. apply _. Defined.
#[export] Instance policy_le_trans : Transitive policy_le.
Proof. intros a b c. unfold policy_le. lia. Qed.
#[export] Instance policy_le_total : Total policy_le.
Proof. intros a b. unfold policy_le. lia. Qed.

Definition keyset_after (k : Z * string) (p : Policy) : bool :=
  (createdAt p <? k.1) || ((createdAt p =? k.1) && id_before (id p) k.2).

Definition selects (w : PolicyWhere) (p : Policy) : bool :=
  row_matches (w_fields w) (policy_obj p) &&
  match w_contains w with Some s => includes (toLowerCase (holderAddress p)) (toLowerCase s) | None => true end &&
  match w_ids w with Some l => bool_decide (id p ∈ l) | None => true end &&
  match w_after w with Some k => keyset_after k p | None => true end.

#[export] Instance sample_table : PolicyTable table := {
  id_ltb := id_before;
  policy_rows d := proj1_sig d;
  policy_page w n d := take n (merge_sort policy_le (List.filter (selects w) (proj1_sig d)));
  policy_findMany w d := List.filter (selects w) (proj1_sig d);
  policy_count w d := Z.of_nat (length (List.filter (selects w) (proj1_sig d)));
  policy_findUnique i d := List.find (λ p, bool_decide (id p = i)) (proj1_sig d);
}.

Lemma strictly_sorted (l : list Policy) :
  NoDup (id <$> l) → StronglySorted policy_le l → StronglySorted (newer (D:=table)) l.
Proof.
  intros Hn Hs. induction Hs as [|x l Hs IH Hx]; [constructor|]. apply NoDup_cons in Hn as [Hnx Hn].
  constructor; [by apply IH|]. rewrite Forall_forall in *. intros y Hy. specialize (Hx y Hy).
  assert (id x ≠ id y) as Hne by (intros E; apply Hnx; rewrite E; by apply list_elem_of_fmap_2).
  unfold newer. cbn [id_ltb sample_table]. unfold id_before. destruct Hx as [Hx|[Hx Hid]]; [by left|]. right. split; [done|].
  apply Pos.ltb_lt. assert (encode (id y) ≠ encode (id x)); [|lia]. intros E. apply Hne. by apply (inj encode) in E.
Qed.

#[export] Instance sample_table_laws : PolicyTableLaws table.
Proof.
  constructor.
  - intros a. apply Pos.ltb_irrefl.
  - intros a b c. cbn [id_ltb sample_table]. unfold id_before. rewrite !Pos.ltb_lt. lia.
  - intros w n d. exists (merge_sort policy_le (List.filter (selects w) (proj1_sig d))). split_and!; [| |done].
    + apply merge_sort_Permutation.
    + apply strictly_sorted; [|by apply StronglySorted_merge_sort; apply _].
      rewrite merge_sort_Permutation. apply filter_keys_unique. exact (proj2_sig d).
  - done.
  - done.
  - intros i d p Hp. apply List.find_some in Hp as [Hin Hid]. apply bool_decide_eq_true in Hid.
    split; [by apply list_elem_of_In|done].
Qed.

Definition policy (holder : string) (n at_ : Z) (tenant : string) : Policy :=
  {| id := holder +:+ ":" +:+ show_Z n; policyId := n; holderAddress := holder; policyType := "Auto"; region := "Low";
     isActive := true; createdAt := at_; tenantId := Some tenant; deletedAt := None |}.

Definition three : list Policy := [policy "GA" 1 1000 "acme"; policy "GA" 2 1000 "acme"; policy "GB" 1 2000 "globex"].
Definition some_policies : table := exist _ three (bool_decide_unpack (NoDup (id <$> three)) I).

Definition all_policies : ListPoliciesParams :=
  {| l_after := None; l_first := Some 1; l_holderAddress := None; l_active := Some true; l_includeDeleted := None |}.
Definition auto_policies : SearchPoliciesParams :=
  {| s_holder := Some "g"; s_type := Some "Auto"; s_region := None; s_active := None; s_after := None; s_first := Some 1 |}.

Lemma three_ok : Forall cursor_ok (policy_rows some_policies).
Proof. repeat constructor; cbn; lia. Qed.

Lemma policies_read_once_witness :
  ∃ l, follow (list_request (Some "acme") all_policies some_policies) (S (length l)) None = Some l ∧
    l ≡ₚ [policy "GA" 1 1000 "acme"; policy "GA" 2 1000 "acme"].
Proof.
  destruct (policies_read_once (Some "acme") some_policies all_policies auto_policies three_ok) as [(l & Hl & _ & Hf) _].
  exists l. split; [exact Hf|]. rewrite Hl. vm_compute. reflexivity.
Defined.

Lemma policy_reads_scoped_witness :
  ∃ c, listPolicies (Some "acme") all_policies some_policies some_policies = Ok c ∧ Forall (λ p, tenantId p = Some "acme") (items c).
Proof.
  eexists. split; [vm_compute; reflexivity|]. apply Forall_forall. intros p Hp.
  exact (proj1 (proj1 (policy_reads_scoped (Some "acme") some_policies some_policies) all_policies _ p eq_refl Hp) "acme" eq_refl).
Defined.
End PolicyReadWitnesses.
