(* ===== verification/PolicyJobs.v ===== *)
(** * Scheduled jobs over policies

    backend/src/jobs/policy-expiry-keeper.service.ts (expires policies on the
    contract, marks them and announces each to the webhook subscribers, behind a
    circuit breaker) and policy-isactive-reconciliation.service.ts (corrects the
    active flags from the contract, through the batch limit of
    rpc/soroban.service.ts).  Every statement and every delivery can fail; the
    answers of the contract are parameters. *)

From stdpp Require Import base list strings sorting.
From Stdlib Require Import ZArith Lia Sorted.
From S2P Require Import Prelude Keyset JsText JsNumber Codec Redis.

Open Scope string_scope.
Open Scope Z_scope.

(** ** The table *)

Record PolicyRow := {
  p_id : string; p_policyId : Z; holder : string; p_isActive : bool; p_deleted : bool; endLedger : Z }.

#[export] Instance PolicyRow_eq : EqDecision PolicyRow.
Proof. solve_decision. Defined.

(** The table, the events handed to the webhook service with their idempotency
    keys, the breaker of the keeper, and the calls made to the RPC. *)
Record pstate := PState {
  policies : list PolicyRow; announced : list string; consecutiveFailures : Z; breakerOpenUntil : Z; rpc_calls : Z }.

Definition set_policies (l : list PolicyRow) (s : pstate) : pstate :=
  PState l (announced s) (consecutiveFailures s) (breakerOpenUntil s) (rpc_calls s).
Definition set_announced (l : list string) (s : pstate) : pstate :=
  PState (policies s) l (consecutiveFailures s) (breakerOpenUntil s) (rpc_calls s).
Definition set_breaker (n until : Z) (s : pstate) : pstate :=
  PState (policies s) (announced s) n until (rpc_calls s).
Definition count_call (s : pstate) : pstate :=
  PState (policies s) (announced s) (consecutiveFailures s) (breakerOpenUntil s) (rpc_calls s + 1).

Abbreviation MP A := (M (rworld pstate) string A).

Definition read {A} (f : pstate → A) : MP A := query f.
Definition local_ {E} (f : pstate → pstate) : M (rworld pstate) E () := λ w, (Ok tt, RWorld (f (rstate w)) (faults w)).

Definition with_active (b : bool) (p : PolicyRow) : PolicyRow :=
  {| p_id := p_id p; p_policyId := p_policyId p; holder := holder p; p_isActive := b; p_deleted := p_deleted p;
     endLedger := endLedger p |}.

(** [update({ where: { id }, data: { isActive } })] *)
Definition set_active (i : string) (b : bool) (l : list PolicyRow) : list PolicyRow :=
  (λ p, if bool_decide (p_id p = i) then with_active b p else p) <$> l.

(** ** policy-expiry-keeper.service.ts *)

(** Models [BATCH_SIZE] (backend/src/jobs/policy-expiry-keeper.service.ts:7-7). *)
Definition KEEPER_BATCH_SIZE : nat := 10.
(** Models [BREAKER_THRESHOLD] (backend/src/jobs/policy-expiry-keeper.service.ts:8-8). *)
Definition BREAKER_THRESHOLD : Z := 3.
(** Models [BREAKER_COOLDOWN_MS] (backend/src/jobs/policy-expiry-keeper.service.ts:9-9). *)
Definition BREAKER_COOLDOWN_MS : Z := 5 * 60000.

Definition expired (currentLedger : Z) (p : PolicyRow) : bool := p_isActive p && negb (p_deleted p) && (endLedger p <? currentLedger).

Definition by_end (p q : PolicyRow) : bool := endLedger q <? endLedger p.

Definition event_key (p : PolicyRow) : string := "policy.expired:" +:+ p_id p.

(** One turn of the loop: the row first, then the delivery. *)
Definition expire_one (p : PolicyRow) : MP () :=
  do* update (λ s, set_policies (set_active (p_id p) false (policies s)) s) in
  update (λ s, set_announced (announced s ++ [event_key p])%list s).

Section keeper.
(** The RPC of this cycle: the latest ledger and the transaction. *)
Variables (getLatestLedger : result string Z) (processExpiredPolicies : result string string).

Definition rpc {A} (r : result string A) : MP A :=
  do* local_ count_call in
  match r with Ok a => ret a | Throw e => throw e end.

Definition keeper_body : MP Z :=
  let* currentLedger := rpc getLatestLedger in
  let* rows := read (λ s, take KEEPER_BATCH_SIZE (stable_sort by_end (List.filter (expired currentLedger) (policies s)))) in
  match rows with
  | [] => ret 0
  | _ =>
      let* txHash := rpc processExpiredPolicies in
      do* local_ (λ s, set_breaker 0 (breakerOpenUntil s) s) in
      do* for_each rows expire_one in
      ret (Z.of_nat (length rows))
  end.

(** [failedAt]: the clock when the failure is handled.
    Models [run] (backend/src/jobs/policy-expiry-keeper.service.ts:30-76). *)
Definition run (now failedAt : Z) : MP Z := λ w,
  if now <? breakerOpenUntil (rstate w) then (Ok 0, w)
  else
    try_catch keeper_body
      (λ err,
         do* local_ (λ s,
           let n := consecutiveFailures s + 1 in
           if BREAKER_THRESHOLD <=? n then set_breaker 0 (failedAt + BREAKER_COOLDOWN_MS) s
           else set_breaker n (breakerOpenUntil s) s) in
         ret 0) w.
End keeper.

(** ** Lemmas on the keeper *)

Lemma expire_one_healthy p s :
  expire_one p (healthy s) =
    (Ok tt, healthy (PState (set_active (p_id p) false (policies s)) (announced s ++ [event_key p])%list (consecutiveFailures s)
                       (breakerOpenUntil s) (rpc_calls s))).
Proof. done. Qed.

Lemma expire_all_healthy l s :
  for_each l expire_one (healthy s) =
    (Ok tt, healthy (PState (foldl (λ ps p, set_active (p_id p) false ps) (policies s) l) (announced s ++ (event_key <$> l))%list
                       (consecutiveFailures s) (breakerOpenUntil s) (rpc_calls s))).
Proof.
  revert s. induction l as [|p l IH]; intros s.
  - cbn. rewrite app_nil_r. by destruct s.
  - cbn [for_each]. unfold bind. rewrite expire_one_healthy, IH. cbn. by rewrite <- app_assoc.
Qed.

Lemma map_same {A} (f : A → A) (l : list A) : (∀ x, x ∈ l → f x = x) → f <$> l = l.
Proof.
  induction l as [|x l IH]; intros Hf; [done|]. rewrite fmap_cons, Hf by left. f_equal. apply IH. intros y Hy. apply Hf. by right.
Qed.

Lemma set_active_all (l ps : list PolicyRow) :
  foldl (λ ps p, set_active (p_id p) false ps) ps l =
  (λ p, if bool_decide (p_id p ∈ p_id <$> l) then with_active false p else p) <$> ps.
Proof.
  revert ps. induction l as [|q l IH]; intros ps.
  - symmetry. apply map_same. intros p _. by rewrite bool_decide_false by apply not_elem_of_nil.
  - cbn [foldl]. rewrite IH. unfold set_active. rewrite <- list_fmap_compose. apply list_fmap_ext. intros i p _.
    unfold compose. rewrite fmap_cons. destruct (decide (p_id p = p_id q)) as [Hp|Hp];
      [rewrite (bool_decide_true (p_id p = p_id q)) by done|rewrite (bool_decide_false (p_id p = p_id q)) by done]; cbn [p_id with_active].
    + rewrite (bool_decide_true (p_id p ∈ p_id q :: _)) by (rewrite Hp; left). by case_bool_decide.
    + destruct (decide (p_id p ∈ p_id <$> l)) as [Hin|Hnot].
      * rewrite !bool_decide_true; [done|by right|done].
      * rewrite !bool_decide_false; [done| |done]. by intros [|]%elem_of_cons.
Qed.

(** The rows a cycle takes. *)
Definition due (ledger : Z) (ps : list PolicyRow) : list PolicyRow :=
  take KEEPER_BATCH_SIZE (stable_sort by_end (List.filter (expired ledger) ps)).

Lemma due_sorted ledger ps : StronglySorted (λ p q, endLedger p ≤ endLedger q) (due ledger ps).
Proof.
  assert (StronglySorted (λ p q, endLedger p ≤ endLedger q) (stable_sort by_end (List.filter (expired ledger) ps))) as Hall.
  { apply stable_sort_sorted; [intros a b c; lia| |]; intros a b; unfold by_end; [rewrite Z.ltb_ge|rewrite Z.ltb_lt]; lia. }
  rewrite <- (take_drop KEEPER_BATCH_SIZE (stable_sort _ _)) in Hall. by apply StronglySorted_app in Hall as (_ & ? & _).
Qed.

Lemma due_expired ledger ps : Forall (λ p, p ∈ ps ∧ expired ledger p = true) (due ledger ps).
Proof.
  apply Forall_forall. intros p Hp. unfold due in Hp. apply elem_of_take in Hp as (i & Hi & _).
  apply list_elem_of_lookup_2 in Hi. rewrite stable_sort_perm in Hi. by apply elem_of_bfilter in Hi.
Qed.

Lemma keeper_idle ledger tx s : due ledger (policies s) = [] → keeper_body (Ok ledger) tx (healthy s) = (Ok 0, healthy (count_call s)).
Proof.
  intros Hd. unfold keeper_body, rpc, bind, local_, ret, read, query, cmd. cbn [healthy rstate faults tail count_call policies].
  fold (due ledger (policies s)). by rewrite Hd.
Qed.

Lemma keeper_busy ledger tx s :
  due ledger (policies s) ≠ [] →
  keeper_body (Ok ledger) (Ok tx) (healthy s) =
    (Ok (Z.of_nat (length (due ledger (policies s)))),
     healthy (PState (foldl (λ ps p, set_active (p_id p) false ps) (policies s) (due ledger (policies s)))
                (announced s ++ (event_key <$> due ledger (policies s)))%list 0 (breakerOpenUntil s) (rpc_calls s + 1 + 1))).
Proof.
  intros Hd. unfold keeper_body, rpc, bind, local_, ret, read, query, cmd. cbn [healthy rstate faults tail count_call policies].
  fold (due ledger (policies s)). destruct (due ledger (policies s)) as [|p l] eqn:E; [done|]. rewrite <- E.
  match goal with |- context [for_each ?rs expire_one ?w0] =>
    change w0 with (healthy (set_breaker 0 (breakerOpenUntil s) (count_call (count_call s)))) end.
  by rewrite expire_all_healthy.
Qed.

(** What one cycle does.  With a closed breaker and answers from the RPC and the
    database, the cycle takes the ten expired active policies that ended first,
    makes exactly them inactive, announces each of them once, in that order, and
    returns their number; without expired policies it only asks for the ledger. *)
Theorem expiry_cycle now failedAt ledger tx s :
  breakerOpenUntil s ≤ now →
  let rows := due ledger (policies s) in
  let '(r, w) := run (Ok ledger) (Ok tx) now failedAt (healthy s) in
  r = Ok (Z.of_nat (length rows)) ∧ faults w = [] ∧
  announced (rstate w) = (announced s ++ (event_key <$> rows))%list ∧
  policies (rstate w) = (λ p, if bool_decide (p_id p ∈ p_id <$> rows) then with_active false p else p) <$> policies s ∧
  StronglySorted (λ p q, endLedger p ≤ endLedger q) rows ∧ Forall (λ p, p ∈ policies s ∧ expired ledger p = true) rows ∧
  (rows = [] → rstate w = count_call s).
Proof.
  intros Hopen rows. pose proof (due_sorted ledger (policies s)) as Hs. pose proof (due_expired ledger (policies s)) as Hf.
  unfold run. cbn [healthy rstate]. destruct (Z.ltb_spec now (breakerOpenUntil s)); [lia|]. unfold try_catch.
  change (RWorld s []) with (healthy s). fold rows in Hs, Hf. destruct (decide (rows = [])) as [Hr|Hr].
  - rewrite keeper_idle by done. rewrite Hr. cbn. rewrite app_nil_r. split_and!; try (done || constructor).
    symmetry. apply map_same. intros p _. by rewrite bool_decide_false by apply not_elem_of_nil.
  - rewrite keeper_busy by done. fold rows. cbn [rstate healthy faults announced policies].
    rewrite set_active_all. split_and!; done.
Qed.

(** ** The breaker *)

(** A cycle that fails on the RPC. *)
Lemma failed_cycle e tx now failedAt s :
  breakerOpenUntil s ≤ now →
  run (Throw e) tx now failedAt (healthy s) =
    (Ok 0, healthy (if BREAKER_THRESHOLD <=? consecutiveFailures s + 1
                    then set_breaker 0 (failedAt + BREAKER_COOLDOWN_MS) (count_call s)
                    else set_breaker (consecutiveFailures s + 1) (breakerOpenUntil s) (count_call s))).
Proof.
  intros Hopen. unfold run. cbn [healthy rstate]. destruct (Z.ltb_spec now (breakerOpenUntil s)); [lia|]. done.
Qed.

(** An open breaker skips the cycle. *)
Lemma run_open ledger tx now failedAt w : now < breakerOpenUntil (rstate w) → run ledger tx now failedAt w = (Ok 0, w).
Proof. intros H. unfold run. destruct (Z.ltb_spec now (breakerOpenUntil (rstate w))); [done|lia]. Qed.

(** One cycle of a history: its clock and what the RPC answers. *)
Record cycle := { c_now : Z; c_ledger : result string Z; c_tx : result string string }.
Definition run_cycles (l : list cycle) (w : rworld pstate) : rworld pstate :=
  foldl (λ w c, snd (run (c_ledger c) (c_tx c) (c_now c) (c_now c) w)) w l.

(** The circuit breaker.  After three failing cycles the keeper makes no call for
    five minutes, whatever cycles are due, and changes nothing; but failures need
    not be consecutive: a cycle in which the RPC answers and nothing has expired
    leaves the count as it is, so three failures with any number of such cycles
    between them open the breaker too. *)
Theorem breaker_opens s e1 e2 e3 t1 t2 t3 (idle1 idle2 later : list cycle) :
  consecutiveFailures s = 0 → breakerOpenUntil s ≤ t1 → breakerOpenUntil s ≤ t2 → breakerOpenUntil s ≤ t3 →
  let idle c := breakerOpenUntil s ≤ c_now c ∧ ∃ ledger, c_ledger c = Ok ledger ∧ due ledger (policies s) = [] in
  Forall idle idle1 → Forall idle idle2 → Forall (λ c, c_now c < t3 + BREAKER_COOLDOWN_MS) later →
  let fails t e := {| c_now := t; c_ledger := Throw e; c_tx := Throw e |} in
  let w := run_cycles ([fails t1 e1] ++ idle1 ++ [fails t2 e2] ++ idle2 ++ [fails t3 e3])%list (healthy s) in
  breakerOpenUntil (rstate w) = t3 + BREAKER_COOLDOWN_MS ∧ policies (rstate w) = policies s ∧ run_cycles later w = w.
Proof.
  intros Hc H1 H2 H3 idle Hi1 Hi2 Hl fails w.
  assert (∀ l x, Forall idle l → policies x = policies s → breakerOpenUntil x = breakerOpenUntil s →
            ∃ n, run_cycles l (healthy x) = healthy (PState (policies x) (announced x) (consecutiveFailures x) (breakerOpenUntil x) n)) as Hidle.
  { induction l as [|c l IH]; intros x Hf Hp Hb; [exists (rpc_calls x); by destruct x|].
    apply Forall_cons in Hf as [(Hnow & ledger & Hled & Hdue) Hf].
    assert (run (c_ledger c) (c_tx c) (c_now c) (c_now c) (healthy x) = (Ok 0, healthy (count_call x))) as Hstep.
    { unfold run. cbn [healthy rstate]. rewrite Hb. destruct (Z.ltb_spec (c_now c) (breakerOpenUntil s)); [lia|].
      unfold try_catch. change (RWorld x []) with (healthy x). rewrite Hled, keeper_idle; [done|by rewrite Hp]. }
    unfold run_cycles. cbn [foldl]. rewrite Hstep. cbn [snd]. fold (run_cycles l (healthy (count_call x))).
    destruct (IH (count_call x) Hf Hp Hb) as [n ->]. by exists n. }
  assert (∃ n, w = healthy (PState (policies s) (announced s) 0 (t3 + BREAKER_COOLDOWN_MS) n)) as [n ->].
  { unfold w, run_cycles. rewrite !foldl_app. cbn [foldl fails c_now c_ledger c_tx].
    rewrite failed_cycle by done. rewrite Hc. cbn [snd Z.leb].
    change (BREAKER_THRESHOLD <=? 0 + 1) with false. cbv iota.
    destruct (Hidle idle1 (set_breaker (0 + 1) (breakerOpenUntil s) (count_call s)) Hi1 eq_refl eq_refl) as [n1 E1].
    unfold run_cycles in E1. rewrite E1. rewrite failed_cycle by done. cbn [snd consecutiveFailures set_breaker].
    change (BREAKER_THRESHOLD <=? 0 + 1 + 1) with false. cbv iota.
    match goal with |- context [foldl _ (healthy ?x) idle2] => destruct (Hidle idle2 x Hi2 eq_refl eq_refl) as [n2 E2] end.
    unfold run_cycles in E2. rewrite E2. rewrite failed_cycle by done. by eexists. }
  cbn [rstate healthy breakerOpenUntil policies]. split_and!; [done..|].
  clear -Hl. induction Hl as [|c l Hc _ IH]; [done|]. unfold run_cycles in *. cbn [foldl].
  by rewrite run_open.
Qed.

(** ** Events that are never announced *)

Definition lost (i : string) (w : rworld pstate) : Prop :=
  Forall (λ p, p_id p = i → p_isActive p = false) (policies (rstate w)) ∧ ("policy.expired:" +:+ i) ∉ announced (rstate w).

Lemma update_cases {R} (f : R → R) w : rstate (world_of (update f) w) = rstate w ∨ rstate (world_of (update f) w) = f (rstate w).
Proof. unfold world_of, update, cmd. destruct w as [r [|[] fs]]; cbn; auto. Qed.

Lemma set_active_lost i p l :
  Forall (λ q, p_id q = i → p_isActive q = false) l → Forall (λ q, p_id q = i → p_isActive q = false) (set_active p false l).
Proof.
  intros Hl. apply Forall_fmap. eapply Forall_impl; [exact Hl|]. intros q Hq. unfold compose. by case_bool_decide.
Qed.

Lemma expire_one_lost i p w : p_id p ≠ i → lost i w → lost i (world_of (expire_one p) w).
Proof.
  intros Hne Hw. unfold expire_one, world_of, bind.
  pose proof (update_cases (λ s, set_policies (set_active (p_id p) false (policies s)) s) w) as Hu. unfold world_of in Hu.
  destruct (update _ w) as [o w1]. cbn [snd] in Hu.
  assert (lost i w1) as Hw1.
  { destruct Hw as [Ha Hn]. unfold lost. destruct Hu as [->| ->]; [done|]. split; [by apply set_active_lost|done]. }
  destruct o as [[]|e]; [|exact Hw1].
  destruct (update_cases (λ s, set_announced (announced s ++ [event_key p])%list s) w1) as [E|E]; unfold world_of in E;
    unfold lost; rewrite E; [exact Hw1|].
  destruct Hw1 as [Ha Hn]. split; [done|]. cbn [set_announced announced]. rewrite elem_of_app. intros [H|H]; [done|].
  apply list_elem_of_singleton in H. unfold event_key in H. apply Hne. symmetry. by apply (inj (String.append "policy.expired:")) in H.
Qed.

Lemma local_lost {E} i (f : pstate → pstate) w :
  (∀ s, policies (f s) = policies s ∧ announced (f s) = announced s) → lost i w → lost i (world_of (local_ (E:=E) f) w).
Proof. intros Hf [Ha Hn]. unfold lost, world_of, local_. cbn. destruct (Hf (rstate w)) as [-> ->]. by split. Qed.

(** A cycle does not bring a lost announcement back, whatever fails. *)
Lemma run_lost i ledger tx now failedAt w : lost i w → lost i (snd (run ledger tx now failedAt w)).
Proof.
  intros Hw. unfold run. destruct (now <? breakerOpenUntil (rstate w)); [done|].
  assert (lost i (snd (keeper_body ledger tx w))) as Hbody.
  { unfold keeper_body, rpc, bind. unfold local_ at 1. destruct ledger as [l|e]; [|exact Hw]. unfold ret at 1.
    unfold read, query, cmd. cbn [rstate faults].
    assert (∀ fs, lost i (RWorld (count_call (rstate w)) fs)) as Hc by (intros fs; exact Hw).
    assert (Forall (λ p, p_id p ≠ i) (due l (policies (count_call (rstate w))))) as Hne.
    { eapply Forall_impl; [apply due_expired|]. intros p [Hp He] Hid. destruct Hw as [Ha _]. rewrite Forall_forall in Ha.
      specialize (Ha p Hp Hid). unfold expired in He. rewrite Ha in He. done. }
    assert (∀ fs tx, lost i (snd ((match due l (policies (count_call (rstate w))) with
      | [] => ret 0
      | _ :: _ =>
          bind (bind (local_ count_call) (λ _ : (), match tx with Ok a => ret a | Throw e => throw e end))
            (λ _ : string, bind (local_ (λ s, set_breaker 0 (breakerOpenUntil s) s))
               (λ _ : (), bind (for_each (due l (policies (count_call (rstate w)))) expire_one)
                  (λ _ : (), ret (Z.of_nat (length (due l (policies (count_call (rstate w)))))))))
      end : MP Z) (RWorld (count_call (rstate w)) fs)))) as Hmain.
    { intros fs tx'. destruct (due l (policies (count_call (rstate w)))) as [|p rows] eqn:E; [exact Hw|].
      unfold bind at 1 2. unfold local_ at 1. destruct tx' as [t|e]; [|exact Hw]. unfold ret at 1. unfold bind at 1, local_.
      unfold bind. match goal with |- context [for_each ?rs expire_one ?w0] =>
        assert (lost i (world_of (for_each rs expire_one) w0)) as Hall end.
      { apply (for_each_invariant (lost i)); [|exact Hw]. intros q w1 Hq. apply expire_one_lost.
        rewrite Forall_forall in Hne. by apply Hne. }
      unfold world_of in Hall. destruct (for_each _ _ _) as [[]  w2]; exact Hall. }
    unfold due in Hmain. destruct (faults w) as [|[] fs]; [apply (Hmain [] tx)|exact Hw|apply (Hmain fs tx)]. }
  unfold try_catch. destruct (keeper_body ledger tx w) as [[n|e] w1]; [exact Hbody|]. cbn [snd] in Hbody.
  unfold bind, local_, ret. cbn [snd]. destruct Hbody as [Ha Hn]. unfold lost. cbn [rstate]. by case_match.
Qed.

(** A healthy prefix of the loop. *)
Lemma expire_prefix l s fs :
  for_each l expire_one (RWorld s (replicate (2 * length l) false ++ fs)) =
    (Ok tt, RWorld (PState (foldl (λ ps p, set_active (p_id p) false ps) (policies s) l) (announced s ++ (event_key <$> l))%list
                      (consecutiveFailures s) (breakerOpenUntil s) (rpc_calls s)) fs).
Proof.
  revert s. induction l as [|p l IH]; intros s.
  - cbn. rewrite app_nil_r. by destruct s.
  - replace (2 * length (p :: l))%nat with (S (S (2 * length l))) by (cbn; lia). cbn [for_each]. unfold bind at 1.
    unfold expire_one, bind, update, cmd. cbn [faults replicate app rstate tail]. rewrite IH. cbn. by rewrite <- app_assoc.
Qed.

Lemma for_each_app {W E A} (l1 l2 : list A) (body : A → M W E ()) w :
  for_each (l1 ++ l2)%list body w = bind (for_each l1 body) (λ _, for_each l2 body) w.
Proof.
  revert w. induction l1 as [|x l1 IH]; intros w; [done|]. cbn [for_each app]. unfold bind in *.
  destruct (body x w) as [[[]|e] w1]; [apply IH|done].
Qed.

(** A failed delivery loses the announcement for good.  The keeper makes a policy
    inactive before it hands the event over.  When the hand-over of the k-th
    policy of a cycle fails, that policy is inactive, the cycle counts a failure,
    and in no later history of cycles, whatever the RPC answers and whatever
    fails, is the expiry of that policy announced. *)
Theorem failed_delivery_loses_event now failedAt ledger tx s l1 p l2 later :
  breakerOpenUntil s ≤ now → due ledger (policies s) = (l1 ++ p :: l2)%list → (p_id p ∉ p_id <$> l1) →
  (event_key p ∉ announced s) →
  let w := snd (run (Ok ledger) (Ok tx) now failedAt (RWorld s (false :: replicate (2 * length l1) false ++ [false; true])%list)) in
  Forall (λ q, p_id q = p_id p → p_isActive q = false) (policies (rstate w)) ∧ consecutiveFailures (rstate w) = 1 ∧
  ∀ fs, event_key p ∉ announced (rstate (run_cycles later (RWorld (rstate w) fs))).
Proof.
  intros Hopen Hdue Hnew Hkey w.
  assert (rstate w = set_breaker 1 (breakerOpenUntil s)
    (PState (set_active (p_id p) false (foldl (λ ps p, set_active (p_id p) false ps) (policies s) l1)) (announced s ++ (event_key <$> l1))%list
       0 (breakerOpenUntil s) (rpc_calls s + 1 + 1))) as Hw.
  { unfold w, run. cbn [rstate]. destruct (Z.ltb_spec now (breakerOpenUntil s)); [lia|]. unfold try_catch.
    unfold keeper_body, rpc, bind, local_, ret, read, query, cmd. cbn [rstate faults tail count_call policies].
    fold (due ledger (policies s)). rewrite Hdue. destruct (l1 ++ p :: l2)%list as [|q r] eqn:E; [by destruct l1|]. rewrite <- E.
    rewrite for_each_app. unfold bind at 1.
    match goal with |- context [for_each l1 expire_one ?w0] =>
      change w0 with (RWorld (set_breaker 0 (breakerOpenUntil s) (count_call (count_call s))) (replicate (2 * length l1) false ++ [false; true])%list) end.
    rewrite expire_prefix. cbn [for_each]. unfold bind at 1. unfold expire_one at 1. unfold bind, update, cmd. cbn [faults rstate tail]. done. }
  rewrite Hw. cbn [policies set_breaker consecutiveFailures].
  assert (∀ fs, lost (p_id p) (RWorld (rstate w) fs)) as Hlost.
  { intros fs. unfold lost. cbn [rstate]. rewrite Hw. cbn [policies announced set_breaker]. split.
    - unfold set_active. apply Forall_fmap, Forall_forall. intros q _. unfold compose. case_bool_decide as Hq; [done|by intros].
    - rewrite elem_of_app. intros [Hin|Hin]; [by apply Hkey|]. apply list_elem_of_fmap in Hin as (q & Hq & Hin).
      unfold event_key in Hq. apply (inj (String.append "policy.expired:")) in Hq. apply Hnew. rewrite Hq.
      by apply list_elem_of_fmap_2. }
  split_and!; [by destruct (Hlost []) as [H _]; cbn [rstate] in H; rewrite Hw in H|done|]. intros fs. rewrite <- Hw.
  specialize (Hlost fs). revert Hlost. generalize (RWorld (rstate w) fs). clear. intros x Hx.
  assert (lost (p_id p) (run_cycles later x)) as [_ Hn]; [|exact Hn].
  revert x Hx. induction later as [|c l IH]; intros x Hx; [done|]. unfold run_cycles. cbn [foldl]. apply IH. by apply run_lost.
Qed.

(** ** policy-isactive-reconciliation.service.ts *)

(** Models [BATCH_SIZE] (backend/src/jobs/policy-isactive-reconciliation.service.ts:6-6). *)
Definition RECONCILE_BATCH_SIZE : nat := 50.
(** Models [POLICY_BATCH_GET_MAX] (backend/src/chain/chain.constants.ts:5-5). *)
Definition POLICY_BATCH_GET_MAX : nat := 20.

(** An entry of the contract's answer: a decoded policy, or null. *)
Abbreviation chain_policy := (option (list (string * json))).

(** Models [PolicyReconciliationResult] (backend/src/jobs/policy-isactive-reconciliation.service.ts:8-14). *)
Record PolicyReconciliationResult := {
  checkedAt : Z; totalChecked : Z; corrected : Z; correctedPolicyIds : list string; ok : bool }.

Section reconciliation.
(** The contract's answer to [get_policies_batch] for keys of holders and numbers. *)
Variable get_policies_batch : list (string * Z) → result string (list chain_policy).
Variable contract_configured : bool.

(** Models [_simulateGetPoliciesBatch] (backend/src/rpc/soroban.service.ts:806-881). *)
Definition simulateGetPoliciesBatch (keys : list (string * Z)) : result string (list chain_policy) :=
  if negb contract_configured then Throw "CONTRACT_NOT_INITIALIZED"
  else if (POLICY_BATCH_GET_MAX <? length keys)%nat then Throw "POLICY_BATCH_TOO_LARGE"
  else match keys with [] => Ok [] | _ => get_policies_batch keys end.

(** [onChain !== null && Boolean(onChain['is_active'] ?? onChain['active'])]; an
    entry that is missing is undefined, and reading it throws. *)
Definition onChainActive (onChain : option chain_policy) : result string bool :=
  match onChain with
  | None => Throw "TypeError"
  | Some None => Ok false
  | Some (Some fields) =>
      Ok (match nullish (get_field "is_active" fields) (get_field "active" fields) with Some v => to_Boolean v | None => false end)
  end.

(** The inner loop, from the ids corrected so far. *)
Fixpoint correct_batch (batch : list PolicyRow) (answers : list chain_policy) (ids : list string) : MP (list string) :=
  match batch with
  | [] => ret ids
  | policy :: rest =>
      match onChainActive (head answers) with
      | Throw e => throw e
      | Ok active =>
          if Bool.eqb (p_isActive policy) active then correct_batch rest (tail answers) ids
          else
            do* update (λ s, set_policies (set_active (p_id policy) active (policies s)) s) in
            correct_batch rest (tail answers) (ids ++ [p_id policy])%list
      end
  end.

(** The outer loop; one unit of fuel per batch. *)
Fixpoint correct_all (fuel : nat) (l : list PolicyRow) (ids : list string) : MP (list string) :=
  match fuel, l with
  | S fuel', _ :: _ =>
      let batch := take RECONCILE_BATCH_SIZE l in
      match simulateGetPoliciesBatch ((λ p, (holder p, p_policyId p)) <$> batch) with
      | Throw _ => correct_all fuel' (drop RECONCILE_BATCH_SIZE l) ids
      | Ok answers =>
          let* ids' := correct_batch batch answers ids in
          correct_all fuel' (drop RECONCILE_BATCH_SIZE l) ids'
      end
  | _, _ => ret ids
  end.

(** Models [runReconciliation] (backend/src/jobs/policy-isactive-reconciliation.service.ts:33-118). *)
Definition runReconciliation (soroban : bool) (now : Z) : MP PolicyReconciliationResult :=
  if negb soroban then
    ret {| checkedAt := now; totalChecked := 0; corrected := 0; correctedPolicyIds := []; ok := true |}
  else
    let* rows := read (λ s, List.filter (λ p, negb (p_deleted p)) (policies s)) in
    let* ids := correct_all (length rows) rows [] in
    ret {| checkedAt := now; totalChecked := Z.of_nat (length rows); corrected := Z.of_nat (length ids);
           correctedPolicyIds := ids; ok := bool_decide (ids = []) |}.

(** *** What is corrected *)

(** The contract knows which policies are active and answers in order. *)
Variable active_on_chain : string → Z → bool.
Definition chain_entry (k : string * Z) : chain_policy :=
  if active_on_chain k.1 k.2 then Some [("is_active", JBool true)] else None.
Hypothesis answers_in_order : ∀ keys, get_policies_batch keys = Ok (chain_entry <$> keys).

Definition drifted (p : PolicyRow) : bool := negb (Bool.eqb (p_isActive p) (active_on_chain (holder p) (p_policyId p))).

Definition fix_all (l ps : list PolicyRow) : list PolicyRow :=
  foldl (λ ps p, if drifted p then set_active (p_id p) (active_on_chain (holder p) (p_policyId p)) ps else ps) ps l.

Lemma correct_batch_healthy batch ids s :
  correct_batch batch ((λ p, chain_entry (holder p, p_policyId p)) <$> batch) ids (healthy s) =
    (Ok (ids ++ (p_id <$> List.filter drifted batch))%list, healthy (set_policies (fix_all batch (policies s)) s)).
Proof.
  revert ids s. induction batch as [|p batch IH]; intros ids s.
  - cbn. rewrite app_nil_r. by destruct s.
  - cbn [correct_batch fmap list_fmap head tail].
    assert (onChainActive (Some (chain_entry (holder p, p_policyId p))) = Ok (active_on_chain (holder p) (p_policyId p))) as ->.
    { unfold chain_entry, onChainActive. cbn [fst snd]. by destruct (active_on_chain _ _). }
    change (list_fmap PolicyRow chain_policy ?f batch) with (f <$> batch).
    assert (Bool.eqb (p_isActive p) (active_on_chain (holder p) (p_policyId p)) = negb (drifted p)) as ->
      by (unfold drifted; by rewrite negb_involutive).
    unfold fix_all. cbn [foldl List.filter]. destruct (drifted p); cbn [negb]; [|by rewrite IH].
    unfold bind, update, cmd. cbn [healthy faults rstate tail]. change (RWorld ?x []) with (healthy x). rewrite IH.
    cbn [policies set_policies]. rewrite fmap_cons, <- app_assoc. done.
Qed.

(** The policies that are left when the full batches are taken away. *)
Definition last_batch (l : list PolicyRow) : list PolicyRow := drop (RECONCILE_BATCH_SIZE * (length l / RECONCILE_BATCH_SIZE)) l.

(** The ones that are compared. *)
Definition compared (l : list PolicyRow) : list PolicyRow :=
  if (POLICY_BATCH_GET_MAX <? length (last_batch l))%nat then [] else last_batch l.

Lemma last_batch_step l : (RECONCILE_BATCH_SIZE ≤ length l)%nat → last_batch (drop RECONCILE_BATCH_SIZE l) = last_batch l.
Proof.
  unfold last_batch, RECONCILE_BATCH_SIZE. intros Hl. rewrite length_drop, drop_drop. f_equal.
  replace (length l / 50)%nat with (S ((length l - 50) / 50))%nat; [lia|].
  replace (length l) with ((length l - 50) + 1 * 50)%nat at 2 by lia. rewrite Nat.div_add by lia. lia.
Qed.

Lemma last_batch_small l : (length l < RECONCILE_BATCH_SIZE)%nat → last_batch l = l.
Proof. unfold last_batch. intros Hl. by rewrite Nat.div_small, Nat.mul_0_r. Qed.

Lemma correct_all_healthy fuel l ids s :
  contract_configured = true → (length l ≤ fuel)%nat →
  correct_all fuel l ids (healthy s) =
    (Ok (ids ++ (p_id <$> List.filter drifted (compared l)))%list, healthy (set_policies (fix_all (compared l) (policies s)) s)).
Proof.
  intros Hc. revert l ids s. induction fuel as [|fuel IH]; intros l ids s Hl.
  - destruct l; [|cbn in Hl; lia]. cbn. rewrite app_nil_r. by destruct s.
  - destruct (decide (l = [])) as [->|Hne]; [cbn; rewrite app_nil_r; by destruct s|].
    assert (0 < length l)%nat by (destruct l; [done|cbn; lia]).
    assert (correct_all (S fuel) l ids (healthy s) =
      match simulateGetPoliciesBatch ((λ p, (holder p, p_policyId p)) <$> take RECONCILE_BATCH_SIZE l) with
      | Throw _ => correct_all fuel (drop RECONCILE_BATCH_SIZE l) ids
      | Ok answers =>
          let* ids' := correct_batch (take RECONCILE_BATCH_SIZE l) answers ids in
          correct_all fuel (drop RECONCILE_BATCH_SIZE l) ids'
      end (healthy s)) as -> by (by destruct l).
    unfold simulateGetPoliciesBatch. rewrite Hc, length_fmap, length_take. cbn [negb].
    destruct (Nat.le_gt_cases RECONCILE_BATCH_SIZE (length l)) as [Hbig|Hsmall].
    + rewrite Nat.min_l by done. change (POLICY_BATCH_GET_MAX <? RECONCILE_BATCH_SIZE)%nat with true. cbv iota.
      rewrite IH by (rewrite length_drop; unfold RECONCILE_BATCH_SIZE; lia). unfold compared. by rewrite last_batch_step.
    + rewrite Nat.min_r by lia. rewrite take_ge, drop_ge by lia. unfold compared. rewrite last_batch_small by done.
      assert (∀ ids s, correct_all fuel [] ids (healthy s) = (Ok ids, healthy s)) as Hnil by (by destruct fuel).
      destruct (POLICY_BATCH_GET_MAX <? length l)%nat.
      * rewrite Hnil. cbn. rewrite app_nil_r. by destruct s.
      * destruct ((λ p, (holder p, p_policyId p)) <$> l) as [|k ks] eqn:E; [by destruct l|]. rewrite <- E, answers_in_order.
        rewrite <- list_fmap_compose. unfold bind. unfold compose. by rewrite correct_batch_healthy, Hnil.
Qed.

(** The job compares almost no policy.  It asks for fifty policies at a time and
    the RPC service refuses more than twenty, so every full batch is skipped;
    only the last, incomplete batch is compared, and only when it has at most
    twenty policies.  Whatever the contract says of the others, they are left as
    they are, while the result counts all as checked. *)
Theorem reconciliation_compares_last_batch now s :
  contract_configured = true →
  let rows := List.filter (λ p, negb (p_deleted p)) (policies s) in
  runReconciliation true now (healthy s) =
    (Ok {| checkedAt := now; totalChecked := Z.of_nat (length rows);
           corrected := Z.of_nat (length (List.filter drifted (compared rows)));
           correctedPolicyIds := p_id <$> List.filter drifted (compared rows);
           ok := bool_decide ((p_id <$> List.filter drifted (compared rows)) = []) |},
     healthy (set_policies (fix_all (compared rows) (policies s)) s)) ∧
  ((length rows mod RECONCILE_BATCH_SIZE = 0)%nat ∨ (POLICY_BATCH_GET_MAX < length rows mod RECONCILE_BATCH_SIZE)%nat →
   compared rows = []).
Proof.
  intros Hc rows. split.
  - unfold runReconciliation, read, query, cmd, bind. cbn [negb healthy faults rstate tail]. fold rows.
    change (RWorld s []) with (healthy s). rewrite correct_all_healthy by done. cbn [app]. unfold ret. by rewrite length_fmap.
  - intros Hm. unfold compared, last_batch.
    assert (length (drop (RECONCILE_BATCH_SIZE * (length rows / RECONCILE_BATCH_SIZE)) rows) = length rows mod RECONCILE_BATCH_SIZE)%nat as Hl.
    { rewrite length_drop. pose proof (Nat.div_mod_eq (length rows) RECONCILE_BATCH_SIZE). lia. }
    destruct Hm as [Hm|Hm]; rewrite Hl.
    + rewrite Hm in *. cbn. by apply nil_length_inv.
    + by destruct (Nat.ltb_spec POLICY_BATCH_GET_MAX (length rows mod RECONCILE_BATCH_SIZE)); [|lia].
Qed.

Lemma fix_all_done l : ∀ ps,
  (∀ p q, p ∈ l → q ∈ ps → p_id p = p_id q → p_isActive q = p_isActive p ∨ p_isActive q = active_on_chain (holder p) (p_policyId p)) →
  (∀ p q, p ∈ l → q ∈ l → p_id p = p_id q → p = q) →
  fix_all l ps = (λ q, match List.find (λ p, bool_decide (p_id p = p_id q)) l with
                       | Some p => with_active (active_on_chain (holder p) (p_policyId p)) q
                       | None => q
                       end) <$> ps.
Proof.
  induction l as [|p l IH]; intros ps Hps Hl.
  - symmetry. by apply map_same.
  - unfold fix_all. cbn [foldl].
    set (a := active_on_chain (holder p) (p_policyId p)).
    assert ((if drifted p then set_active (p_id p) a ps else ps) =
            (λ q, if bool_decide (p_id p = p_id q) then with_active a q else q) <$> ps) as ->.
    { unfold drifted. destruct (Bool.eqb (p_isActive p) (active_on_chain (holder p) (p_policyId p))) eqn:E; cbn [negb].
      - apply eqb_prop in E. symmetry. apply map_same. intros q Hq. case_bool_decide as Hid; [|done].
        destruct (Hps p q) as [Hact|Hact]; [left|done|done| |]; destruct q; cbn in *; unfold with_active; cbn; f_equal; subst a; congruence.
      - unfold set_active. apply list_fmap_ext. intros i q _. by rewrite (bool_decide_ext (p_id q = p_id p) (p_id p = p_id q)). }
    match goal with |- foldl ?f ?x l = _ => change (foldl f x l) with (fix_all l x) end. rewrite IH.
    + rewrite <- list_fmap_compose. apply list_fmap_ext. intros i q Hq. apply list_elem_of_lookup_2 in Hq. unfold compose.
      cbn [List.find]. case_bool_decide as Hid; cbn [p_id with_active]; [|done].
      destruct (List.find _ l) as [p'|] eqn:Hf; [|done]. apply List.find_some in Hf as [Hin Hid'].
      apply bool_decide_eq_true in Hid'. assert (p' = p) as ->; [|done].
      apply Hl; [right; by apply list_elem_of_In|left|congruence].
    + intros p' q Hp' Hq Hid. apply list_elem_of_fmap in Hq as (q' & -> & Hq').
      case_bool_decide as Hid'; cbn [p_id with_active p_isActive] in *; [|apply Hps; [by right|done|done]].
      assert (p' = p) as ->; [apply Hl; [by right|left|congruence]|]. by right.
    + intros p' q Hp' Hq. apply Hl; by right.
Qed.

(** What it compares it corrects.  After a run every compared policy has the
    contract's flag and every other row is as it was. *)
Theorem compared_policies_corrected now s :
  contract_configured = true → NoDup (p_id <$> policies s) →
  let rows := List.filter (λ p, negb (p_deleted p)) (policies s) in
  policies (rstate (snd (runReconciliation true now (healthy s)))) =
    (λ q, if bool_decide (q ∈ compared rows) then with_active (active_on_chain (holder q) (p_policyId q)) q else q) <$> policies s.
Proof.
  intros Hc Hn rows.
  assert (∀ p, p ∈ compared rows → p ∈ policies s) as Hsub.
  { intros p Hp. unfold compared in Hp. destruct (_ <? _)%nat; [by apply elem_of_nil in Hp|]. unfold last_batch in Hp.
    apply list_elem_of_lookup in Hp as [i Hi]. rewrite lookup_drop in Hi. apply list_elem_of_lookup_2 in Hi.
    by apply elem_of_bfilter in Hi as [Hi _]. }
  assert (∀ p q, p ∈ policies s → q ∈ policies s → p_id p = p_id q → p = q) as Huniq.
  { intros p q Hp Hq Hid. apply list_elem_of_lookup in Hp as [i Hi]. apply list_elem_of_lookup in Hq as [j Hj].
    assert (i = j) as ->; [|congruence]. eapply NoDup_lookup; [exact Hn|by rewrite list_lookup_fmap, Hi|].
    by rewrite list_lookup_fmap, Hj, Hid. }
  unfold runReconciliation, read, query, cmd, bind. cbn [negb healthy faults rstate tail]. fold rows.
  change (RWorld s []) with (healthy s). rewrite correct_all_healthy by done. cbn [app]. unfold ret. cbn [snd rstate healthy policies set_policies].
  rewrite fix_all_done.
  - apply list_fmap_ext. intros i q Hq. apply list_elem_of_lookup_2 in Hq.
    destruct (List.find _ (compared rows)) as [p|] eqn:Hf.
    + apply List.find_some in Hf as [Hin Hid]. apply list_elem_of_In in Hin. apply bool_decide_eq_true in Hid.
      assert (p = q) as -> by (apply Huniq; auto). by rewrite bool_decide_true.
    + rewrite bool_decide_false; [done|]. intros Hin. apply list_elem_of_In in Hin.
      eapply List.find_none in Hf; [|exact Hin]. by rewrite bool_decide_true in Hf.
  - intros p q Hp Hq Hid. left. f_equal. symmetry. apply Huniq; auto.
  - intros p q Hp Hq. apply Huniq; auto.
Qed.
End reconciliation.

(** ** Concrete runs *)

Module PolicyJobWitnesses.
Definition row (i : string) (n end_ : Z) (a : bool) : PolicyRow :=
  {| p_id := i; p_policyId := n; holder := "GA"; p_isActive := a; p_deleted := false; endLedger := end_ |}.
Definition two_expired : pstate := PState [row "GA:1" 1 90 true; row "GA:2" 2 80 true; row "GA:3" 3 500 true] [] 0 0 0.

Lemma expiry_cycle_witness :
  announced (rstate (snd (run (Ok 100) (Ok "tx") 5 5 (healthy two_expired)))) = ["policy.expired:GA:2"; "policy.expired:GA:1"].
Proof.
  pose proof (expiry_cycle 5 5 100 "tx" two_expired) as H. destruct (run (Ok 100) (Ok "tx") 5 5 (healthy two_expired)) as [r w].
  destruct H as (_ & _ & H & _); [cbn; lia|]. cbn [snd]. rewrite H. vm_compute. reflexivity.
Defined.

Lemma breaker_opens_witness :
  breakerOpenUntil (rstate (run_cycles
    [{| c_now := 1; c_ledger := Throw "a"; c_tx := Throw "a" |}; {| c_now := 2; c_ledger := Ok 10; c_tx := Ok "t" |};
     {| c_now := 3; c_ledger := Throw "b"; c_tx := Throw "b" |}; {| c_now := 4; c_ledger := Throw "c"; c_tx := Throw "c" |}]
    (healthy two_expired))) = 300004.
Proof.
  apply (breaker_opens two_expired "a" "b" "c" 1 3 4 [{| c_now := 2; c_ledger := Ok 10; c_tx := Ok "t" |}] [] []);
    try (reflexivity || (cbn; lia) || constructor); [|constructor].
  split; [cbn; lia|]. exists 10. split; vm_compute; reflexivity.
Defined.

Lemma failed_delivery_loses_event_witness :
  ∃ w : rworld pstate, ∀ fs, "policy.expired:GA:1" ∉ announced (rstate (run_cycles [{| c_now := 9; c_ledger := Ok 100; c_tx := Ok "tx" |}] (RWorld (rstate w) fs))).
Proof.
  eexists. apply (failed_delivery_loses_event 5 5 100 "tx" two_expired [row "GA:2" 2 80 true] (row "GA:1" 1 90 true) []
    [{| c_now := 9; c_ledger := Ok 100; c_tx := Ok "tx" |}]).
  - cbn. lia.
  - vm_compute. reflexivity.
  - intros H. apply list_elem_of_singleton in H. discriminate H.
  - apply not_elem_of_nil.
Defined.

Definition chain (h : string) (n : Z) : bool := n =? 3.

Lemma reconciliation_compares_last_batch_witness :
  runReconciliation (λ keys, Ok (chain_entry chain <$> keys)) true true 7 (healthy two_expired) =
    (Ok {| checkedAt := 7; totalChecked := 3; corrected := 2; correctedPolicyIds := ["GA:1"; "GA:2"]; ok := false |},
     healthy (set_policies [row "GA:1" 1 90 false; row "GA:2" 2 80 false; row "GA:3" 3 500 true] two_expired)).
Proof.
  rewrite (proj1 (reconciliation_compares_last_batch (λ keys, Ok (chain_entry chain <$> keys)) true chain (λ keys, eq_refl) 7 two_expired eq_refl)).
  vm_compute. reflexivity.
Defined.

Lemma compared_policies_corrected_witness :
  policies (rstate (snd (runReconciliation (λ keys, Ok (chain_entry chain <$> keys)) true true 7 (healthy two_expired)))) =
    [row "GA:1" 1 90 false; row "GA:2" 2 80 false; row "GA:3" 3 500 true].
Proof.
  rewrite (compared_policies_corrected (λ keys, Ok (chain_entry chain <$> keys)) true chain (λ keys, eq_refl) 7 two_expired eq_refl).
  - vm_compute. reflexivity.
  - apply (bool_decide_unpack (NoDup (p_id <$> policies two_expired))). vm_compute. exact I.
Defined.
End PolicyJobWitnesses.
