(* ===== verification/SorobanRpc.v ===== *)
(** * Calls to the Soroban node

    The part of backend/src/rpc/soroban.service.ts that goes through the circuit
    breaker: submission with its in-memory retry list, premium simulation with
    its in-memory cache, and the error mapping both share.  The SDK (parser of
    envelopes, node) and the breaker (opossum) are parameters. *)

From stdpp Require Import base list strings.
From Stdlib Require Import ZArith Lia Ascii.
From S2P Require Import Prelude JsText Codec Premium.

Open Scope string_scope.
Open Scope Z_scope.

(** A parsed envelope: a fee bump, or a transaction with its signatures and the
    types of its operations. *)
Record Transaction := { signatures : nat; operations : list string }.
Inductive Envelope := FeeBump | Plain (tx : Transaction).

(** The answer of sendTransaction. *)
Record SendResponse := { s_hash : string; s_status : string; s_errorResultXdr : option string }.

Inductive RpcError := BadRequest (code : string) | Unavailable (code : string) | PlainError | BreakerError.

(** ** The breaker *)

(** A breaker either refuses a call or lets it run; when the call takes too long
    the caller gets a timeout error, though the call is made; the breaker is told
    how the call went. *)
Class Breaker (B : Type) := {
  opened : B → bool;
  admits : B → bool;
  late : B → bool;
  settle : bool → B → B;
}.
Class BreakerLaws (B : Type) `{Breaker B} : Prop := {
  opened_refuses : ∀ b, opened b = true → admits b = false;
}.

(** Models [SimulatePremiumResult] (backend/src/rpc/soroban.service.ts:47-52). *)
Record SimulatePremiumResult := {
  premiumStroops : string; premiumXlm : string; minResourceFee : string; source : string }.

Record SimulateArgs := {
  policyType : PolicyTypeEnum; region : RegionTierEnum; age : Z; riskScore : Z; sourceAccount : string }.

(** Models [PendingSubmission] (backend/src/rpc/soroban.service.ts:99-102). *)
Record PendingSubmission := { transactionXdr : string; timestamp : Z }.

(** The service: its breaker, retry list and quote cache; the envelopes sent and
    the number of simulations asked so far. *)
Record rpcworld (B : Type) := RpcWorld {
  circuitBreaker : B;
  pendingSubmissions : list PendingSubmission;
  quoteCache : list (string * (SimulatePremiumResult * Z));
  sends : list string;
  asked : nat;
}.
Arguments RpcWorld {B} _ _ _ _ _.
Arguments circuitBreaker {B} _.
Arguments pendingSubmissions {B} _.
Arguments quoteCache {B} _.
Arguments sends {B} _.
Arguments asked {B} _.

(** Models [loadAccount] (backend/src/rpc/soroban.service.ts:232-269). *)
Definition accountError (msg : string) : RpcError :=
  if includes msg "404" || includes (toLowerCase msg) "not found" || includes (toLowerCase msg) "does not exist"
  then BadRequest "ACCOUNT_NOT_FOUND"
  else if includes (toLowerCase msg) "network" || includes (toLowerCase msg) "passphrase"
  then BadRequest "WRONG_NETWORK"
  else Unavailable "RPC_UNAVAILABLE".

(** The value a simulation returns, converted by the SDK. *)
Inductive SimAnswer := SimError | SimOk (retval : option Z) (fee : option string).

Definition show_type (t : PolicyTypeEnum) : string := match t with Auto => "Auto" | Health => "Health" | Property => "Property" end.
Definition show_region (r : RegionTierEnum) : string := match r with Low => "Low" | Medium => "Medium" | High => "High" end.

Section soroban.
Context {B : Type} `{Breaker B}.
Abbreviation MR A := (M (rpcworld B) RpcError A).

(** [TransactionBuilder.fromXDR] for the configured network; what the node
    answers to the n-th envelope; whether the account of the n-th simulation is
    found, and what the simulation returns. *)
Variable fromXDR : string → option Envelope.
Variable send_answer : nat → result string SendResponse.
Variable account_answer : nat → string → result string ().
Variable sim_answer : nat → SimulateArgs → result string SimAnswer.

Definition with_breaker (b : B) (w : rpcworld B) : rpcworld B :=
  RpcWorld b (pendingSubmissions w) (quoteCache w) (sends w) (asked w).
Definition with_pending (l : list PendingSubmission) (w : rpcworld B) : rpcworld B :=
  RpcWorld (circuitBreaker w) l (quoteCache w) (sends w) (asked w).

(** [this.circuitBreaker.fire(fn)] *)
Definition fire {A} (fn : MR A) : MR A := λ w,
  if admits (circuitBreaker w) then
    let '(r, w1) := fn w in
    if late (circuitBreaker w) then (Throw BreakerError, with_breaker (settle false (circuitBreaker w1)) w1)
    else (r, with_breaker (settle (is_ok r) (circuitBreaker w1)) w1)
  else (Throw BreakerError, w).

(** ** Submission *)

(** The inner call; its own rejection is caught with the node's failures.
    Models [submitTransaction] (backend/src/rpc/soroban.service.ts:652-673). *)
Definition submitFn (xdr : string) : MR SendResponse := λ w,
  match fromXDR xdr with
  | None => (Throw PlainError, w)
  | Some _ =>
      let w1 := RpcWorld (circuitBreaker w) (pendingSubmissions w) (quoteCache w) (sends w ++ [xdr])%list (asked w) in
      match send_answer (length (sends w)) with
      | Ok response =>
          if bool_decide (s_status response = "ERROR") then (Throw (Unavailable "SUBMISSION_FAILED"), w1) else (Ok response, w1)
      | Throw _ => (Throw (Unavailable "SUBMISSION_FAILED"), w1)
      end
  end.

Definition queued_response : SendResponse := {| s_hash := ""; s_status := "PENDING"; s_errorResultXdr := None |}.

(** Models [submitTransaction] (backend/src/rpc/soroban.service.ts:651-694). *)
Definition submitTransaction (now : Z) (xdr : string) : MR SendResponse := λ w,
  match fire (submitFn xdr) w with
  | (Ok r, w1) => (Ok r, w1)
  | (Throw e, w1) =>
      if opened (circuitBreaker w1)
      then (Ok queued_response, with_pending (pendingSubmissions w1 ++ [{| transactionXdr := xdr; timestamp := now |}])%list w1)
      else (Throw e, w1)
  end.

(** The retries of a pass, each with its time. *)
Fixpoint retry_all (now : Z) (l : list PendingSubmission) (w : rpcworld B) : rpcworld B :=
  match l with
  | [] => w
  | s :: l' =>
      match submitTransaction now (transactionXdr s) w with
      | (Ok _, w1) => retry_all now l' w1
      | (Throw _, w1) => retry_all now l' (with_pending (pendingSubmissions w1 ++ [s])%list w1)
      end
  end.

(** Models [processPendingSubmissions] (backend/src/rpc/soroban.service.ts:696-713). *)
Definition processPendingSubmissions (now : Z) (w : rpcworld B) : rpcworld B :=
  if (length (pendingSubmissions w) =? 0)%nat || opened (circuitBreaker w) then w
  else retry_all now (pendingSubmissions w) (with_pending [] w).

(** ** Premium simulation *)

(** JSON.stringify of the arguments, as every caller writes them. *)
Definition stringify (args : SimulateArgs) : string :=
  "{" +:+ quoted "policyType" +:+ ":" +:+ quoted (show_type (policyType args)) +:+ "," +:+
  quoted "region" +:+ ":" +:+ quoted (show_region (region args)) +:+ "," +:+
  quoted "age" +:+ ":" +:+ show_Z (age args) +:+ "," +:+ quoted "riskScore" +:+ ":" +:+ show_Z (riskScore args) +:+ "," +:+
  quoted "sourceAccount" +:+ ":" +:+ quoted (sourceAccount args) +:+ "}".

Definition local_quote (args : SimulateArgs) : SimulatePremiumResult :=
  let local := computePremiumLocal (policyType args) (region args) (age args) (riskScore args) in
  {| premiumStroops := show_Z local; premiumXlm := stroopsToXlm local; minResourceFee := "0"; source := "local_fallback" |}.
Definition simulated_quote (retval : option Z) (fee : option string) : SimulatePremiumResult :=
  let p := default 0 retval in
  {| premiumStroops := show_Z p; premiumXlm := stroopsToXlm p; minResourceFee := default "0" fee; source := "simulation" |}.

(** Models [_simulateGeneratePremium] (backend/src/rpc/soroban.service.ts:365-418). *)
Definition simulate (args : SimulateArgs) : MR SimulatePremiumResult := λ w,
  let n := asked w in
  let w1 := RpcWorld (circuitBreaker w) (pendingSubmissions w) (quoteCache w) (sends w) (S n) in
  match account_answer n (sourceAccount args) with
  | Throw msg => (Throw (accountError msg), w1)
  | Ok _ =>
      match sim_answer n args with
      | Throw _ => (Throw PlainError, w1)
      | Ok SimError => (Ok (local_quote args), w1)
      | Ok (SimOk retval fee) => (Ok (simulated_quote retval fee), w1)
      end
  end.

Definition quoteCacheTtlMs : Z := 60000.

(** [simulateFn]: the result is kept with the time it arrives. *)
Definition simulateFn (later : Z) (args : SimulateArgs) : MR SimulatePremiumResult :=
  let* result := simulate args in
  λ w, (Ok result, RpcWorld (circuitBreaker w) (pendingSubmissions w)
                     (alist_put (stringify args) (result, later) (quoteCache w)) (sends w) (asked w)).

(** [now] at the cache check, [later] when the simulation arrives.
    Models [simulateGeneratePremium] (backend/src/rpc/soroban.service.ts:332-363). *)
Definition simulateGeneratePremium (now later : Z) (args : SimulateArgs) : MR SimulatePremiumResult := λ w,
  let cached := alist_get (stringify args) (quoteCache w) in
  let ask :=
    match fire (simulateFn later args) w with
    | (Ok r, w1) => (Ok r, w1)
    | (Throw e, w1) =>
        match cached with
        | Some (r, _) => if opened (circuitBreaker w1) then (Ok r, w1) else (Throw e, w1)
        | None => (Throw e, w1)
        end
    end in
  match cached with
  | Some (r, t) => if now - t <? quoteCacheTtlMs then (Ok r, w) else ask
  | None => ask
  end.

(** ** Facts *)

Definition xdrs (w : rpcworld B) : list string := transactionXdr <$> pendingSubmissions w.

(** The node took the envelope [x] after the first [k]. *)
Definition taken (k : nat) (w : rpcworld B) (x : string) : Prop :=
  ∃ n r, (k ≤ n)%nat ∧ sends w !! n = Some x ∧ send_answer n = Ok r ∧ s_status r ≠ "ERROR".

Lemma taken_mono k k' w w' x : taken k w x → (k' ≤ k)%nat → sends w `prefix_of` sends w' → taken k' w' x.
Proof.
  intros (n & r & Hn & Hx & Ha) Hk [t Ht]. exists n, r. split; [lia|]. split; [|exact Ha]. rewrite Ht. by apply lookup_app_l_Some.
Qed.

Lemma submitFn_cases x w :
  let '(r, w1) := submitFn x w in
  pendingSubmissions w1 = pendingSubmissions w ∧ sends w `prefix_of` sends w1 ∧ circuitBreaker w1 = circuitBreaker w ∧
  (is_ok r = true → taken (length (sends w)) w1 x).
Proof.
  unfold submitFn. destruct (fromXDR x) as [env|]; [|by repeat split]. destruct (send_answer (length (sends w))) as [r|e] eqn:Ha.
  - case_bool_decide as Hs; cbn; (split_and!; [done|by exists [x]|done|]); [done|]. intros _. exists (length (sends w)), r.
    split_and!; [lia| |done..]. cbn [sends]. rewrite lookup_app_r by done. by rewrite Nat.sub_diag.
  - cbn. split_and!; [done|by exists [x]|done..].
Qed.

Lemma submit_cases now x w :
  let '(r, w1) := submitTransaction now x w in
  sends w `prefix_of` sends w1 ∧
  (if is_ok r then xdrs w1 = (xdrs w ++ [x])%list ∨ (xdrs w1 = xdrs w ∧ taken (length (sends w)) w1 x) else xdrs w1 = xdrs w).
Proof.
  unfold submitTransaction, fire. destruct (admits (circuitBreaker w)).
  - pose proof (submitFn_cases x w) as Hc. destruct (submitFn x w) as [r w1]. destruct Hc as (Hp & Hs & _ & Hok).
    destruct (late (circuitBreaker w)); [|destruct r as [r|e]]; cbn [is_ok].
    + cbn [circuitBreaker with_breaker]. destruct (opened _); cbn [is_ok]; (split; [done|]);
        [left; unfold xdrs; cbn; by rewrite fmap_app, Hp|unfold xdrs; cbn; by rewrite Hp].
    + split; [done|]. right. split; [unfold xdrs; cbn; by rewrite Hp|by apply Hok].
    + cbn [circuitBreaker with_breaker]. destruct (opened _); cbn [is_ok]; (split; [done|]);
        [left; unfold xdrs; cbn; by rewrite fmap_app, Hp|unfold xdrs; cbn; by rewrite Hp].
  - destruct (opened _); cbn [is_ok]; (split; [done|]); [left; unfold xdrs; cbn; by rewrite fmap_app|done].
Qed.

Lemma retry_all_cases now l w :
  let w' := retry_all now l w in
  sends w `prefix_of` sends w' ∧
  ∃ kept, xdrs w' = (xdrs w ++ kept)%list ∧ kept `sublist_of` (transactionXdr <$> l) ∧
    ∀ x, x ∈ transactionXdr <$> l → x ∈ kept ∨ taken (length (sends w)) w' x.
Proof.
  revert w. induction l as [|s l IH]; intros w; cbn [retry_all].
  { split; [done|]. exists []. split_and!; [by rewrite app_nil_r|done|]. intros x Hx. by apply elem_of_nil in Hx. }
  pose proof (submit_cases now (transactionXdr s) w) as Hc.
  assert (∀ w1, sends w `prefix_of` sends w1 →
            xdrs w1 = (xdrs w ++ [transactionXdr s])%list ∨ (xdrs w1 = xdrs w ∧ taken (length (sends w)) w1 (transactionXdr s)) →
            sends w `prefix_of` sends (retry_all now l w1) ∧
            ∃ kept, xdrs (retry_all now l w1) = (xdrs w ++ kept)%list ∧ kept `sublist_of` (transactionXdr <$> s :: l) ∧
              ∀ x, x ∈ transactionXdr <$> s :: l → x ∈ kept ∨ taken (length (sends w)) (retry_all now l w1) x) as Hgo.
  { intros w1 Hpre Hx1. destruct (IH w1) as (Hp & kept & Hk & Hsub & Hall). split; [by etrans|].
    assert (length (sends w) ≤ length (sends w1))%nat as Hle by by apply prefix_length.
    assert (∀ x, taken (length (sends w1)) (retry_all now l w1) x → taken (length (sends w)) (retry_all now l w1) x) as Hmono
      by (intros x (n & r & Hn & Hr); exists n, r; split; [lia|done]).
    destruct Hx1 as [Hx1|[Hx1 Ht]].
    - exists (transactionXdr s :: kept). rewrite Hk, Hx1, <- app_assoc. split_and!; [done|by apply sublist_skip|].
      intros x [->|Hx]%elem_of_cons; [left; by left|]. destruct (Hall x Hx) as [|Hx']; [left; by right|right; by apply Hmono].
    - exists kept. rewrite Hk, Hx1. split_and!; [done|by apply sublist_cons|].
      intros x [->|Hx]%elem_of_cons; [right; by eapply taken_mono|]. destruct (Hall x Hx) as [|Hx']; [by left|right; by apply Hmono]. }
  destruct (submitTransaction now (transactionXdr s) w) as [[r|e] w1]; cbn [is_ok] in Hc; destruct Hc as [Hpre Hx1].
  - by apply Hgo.
  - apply Hgo; [done|]. left. unfold xdrs in *. cbn [with_pending pendingSubmissions]. by rewrite fmap_app, Hx1.
Qed.

(** A retry pass loses nothing.  Whatever the node and the breaker do during the
    pass, the envelopes kept are some of those that were pending, in their order,
    and an envelope that is no longer kept was sent during the pass and taken. *)
Theorem retry_keeps_untaken now w :
  let w' := processPendingSubmissions now w in
  xdrs w' `sublist_of` xdrs w ∧ ∀ x, x ∈ xdrs w → x ∈ xdrs w' ∨ taken (length (sends w)) w' x.
Proof.
  unfold processPendingSubmissions. destruct (_ || _); [by split; [|left]|].
  destruct (retry_all_cases now (pendingSubmissions w) (with_pending [] w)) as (_ & kept & Hk & Hs & Ha).
  cbv zeta. rewrite Hk. cbn [with_pending xdrs pendingSubmissions]. split; [exact Hs|exact Ha].
Qed.

(** A rejection is reported as pending.  When the node rejects an envelope and
    this failure opens the breaker, the caller is told PENDING, with an empty
    hash, and the rejected envelope joins the retry list. *)
Theorem rejection_reported_pending now x w env resp :
  fromXDR x = Some env → admits (circuitBreaker w) = true → send_answer (length (sends w)) = Ok resp →
  s_status resp = "ERROR" → opened (settle false (circuitBreaker w)) = true →
  let '(r, w1) := submitTransaction now x w in
  r = Ok queued_response ∧ sends w1 = (sends w ++ [x])%list ∧ xdrs w1 = (xdrs w ++ [x])%list.
Proof.
  intros Hx Ha Hr Hs Ho. unfold submitTransaction, fire, submitFn. rewrite Ha, Hx, Hr, bool_decide_true by done.
  destruct (late _); cbn; rewrite Ho; (split_and!; [done..|]); unfold xdrs; cbn; by rewrite fmap_app.
Qed.

(** Submissions one after the other. *)
Fixpoint submit_list (l : list (Z * string)) (w : rpcworld B) : rpcworld B :=
  match l with [] => w | (now, x) :: l' => submit_list l' (snd (submitTransaction now x w)) end.

Lemma submit_malformed now x w :
  fromXDR x = None → admits (circuitBreaker w) = true →
  let w1 := snd (submitTransaction now x w) in
  circuitBreaker w1 = settle false (circuitBreaker w) ∧ sends w1 = sends w.
Proof.
  intros Hx Ha. unfold submitTransaction, fire, submitFn. rewrite Ha, Hx.
  destruct (late _); cbn; (destruct (opened _); done).
Qed.

(** Malformed envelopes stop the service.  An envelope that does not parse counts
    as a failure of the node.  When the breaker opens after a number of failures,
    that many requests with malformed envelopes open it without any call to the
    node; the next envelope of any caller is then not sent, and reported PENDING. *)
Theorem malformed_envelopes_open_breaker `{!BreakerLaws B} l now x w :
  Forall (λ p, fromXDR p.2 = None) l →
  (∀ j, (j < length l)%nat → admits (Nat.iter j (settle false) (circuitBreaker w)) = true) →
  opened (Nat.iter (length l) (settle false) (circuitBreaker w)) = true →
  let w1 := submit_list l w in
  sends w1 = sends w ∧ opened (circuitBreaker w1) = true ∧
  fst (submitTransaction now x w1) = Ok queued_response ∧ sends (snd (submitTransaction now x w1)) = sends w.
Proof.
  intros Hl Ha Ho. cbv zeta.
  assert (sends (submit_list l w) = sends w ∧ circuitBreaker (submit_list l w) = Nat.iter (length l) (settle false) (circuitBreaker w)) as [Hs Hb].
  { clear Ho. revert w Ha. induction Hl as [|[t y] l Hy _ IH]; intros w Ha; [done|]. cbn [submit_list snd] in *.
    destruct (submit_malformed t y w Hy) as [Hb Hs]; [apply (Ha 0%nat); cbn; lia|].
    destruct (IH (snd (submitTransaction t y w))) as [I1 I2].
    - intros j Hj. rewrite Hb, <- Nat.iter_succ_r. apply Ha. cbn. lia.
    - rewrite I1, I2, Hb, Hs. split; [done|]. by rewrite <- Nat.iter_succ_r. }
  rewrite Hs, Hb. split_and!; [done..| |].
  all: unfold submitTransaction, fire; rewrite Hb, (opened_refuses _ Ho), Hb, Ho; done.
Qed.
End soroban.

(** ** At concrete inputs *)

Module RpcWitnesses.

(** A breaker that opens at the second failure in a row. *)
#[local] Instance two_failures : Breaker nat := {
  opened b := (2 <=? b)%nat; admits b := negb (2 <=? b)%nat; late _ := false; settle ok b := if (ok : bool) then 0%nat else S b }.
#[local] Instance two_failures_laws : BreakerLaws nat.
Proof. split. intros b. cbn. by intros ->. Qed.

Definition envelopes (x : string) : option Envelope :=
  if bool_decide (x = "garbage") then None else Some (Plain {| signatures := 1; operations := ["invokeHostFunction"] |}).
Definition rejecting (n : nat) : result string SendResponse := Ok {| s_hash := "h"; s_status := "ERROR"; s_errorResultXdr := None |}.
Definition start (b : nat) : rpcworld nat := RpcWorld b [] [] [] 0.

(** The second failure is a rejection: the caller reads PENDING. *)
Lemma rejection_reported_pending_witness :
  let '(r, w1) := submitTransaction envelopes rejecting 5 "signed" (start 1) in
  r = Ok queued_response ∧ sends w1 = ["signed"] ∧ xdrs w1 = ["signed"].
Proof.
  apply (rejection_reported_pending envelopes rejecting 5 "signed" (start 1)
           (Plain {| signatures := 1; operations := ["invokeHostFunction"] |}) {| s_hash := "h"; s_status := "ERROR"; s_errorResultXdr := None |});
    reflexivity.
Defined.

(** Two malformed envelopes, then a good one. *)
Lemma malformed_envelopes_open_breaker_witness :
  let w1 := submit_list envelopes rejecting [(1, "garbage"); (2, "garbage")] (start 0) in
  sends w1 = [] ∧ opened (circuitBreaker w1) = true ∧
  fst (submitTransaction envelopes rejecting 3 "signed" w1) = Ok queued_response ∧
  sends (snd (submitTransaction envelopes rejecting 3 "signed" w1)) = [].
Proof.
  apply (malformed_envelopes_open_breaker envelopes rejecting [(1, "garbage"); (2, "garbage")] 3 "signed" (start 0)).
  - repeat constructor.
  - intros [|[|j]] Hj; [reflexivity|reflexivity|cbn in Hj; lia].
  - reflexivity.
Defined.
End RpcWitnesses.
