(* ===== verification/Quote.v ===== *)
(** * Premium quotes

    backend/src/quote: the service that answers a quote from Redis, from the
    node through SorobanService (SorobanRpc) or from the local formula, the
    canonical cache key and the controller's reading of Cache-Control. *)

From stdpp Require Import base list strings.
From Stdlib Require Import ZArith Lia Ascii.
From S2P Require Import Prelude JsText Codec Redis Premium SorobanRpc.

Open Scope string_scope.
Open Scope Z_scope.

(** Models [CoverageTierEnum] (backend/src/quote/dto/generate-premium.dto.ts:30-34). *)
Inductive CoverageTierEnum := Basic | Standard | Premium.
Definition show_tier (t : CoverageTierEnum) : string := match t with Basic => "Basic" | Standard => "Standard" | Premium => "Premium" end.

(** Models [GeneratePremiumDto] (backend/src/quote/dto/generate-premium.dto.ts:36-77). *)
Record GeneratePremiumDto := {
  policy_type : PolicyTypeEnum; d_region : RegionTierEnum; coverage_tier : CoverageTierEnum;
  d_age : Z; risk_score : Z; source_account : option string }.

(** What validation lets through. *)
Definition valid_dto (d : GeneratePremiumDto) : Prop :=
  1 ≤ d_age d ≤ 120 ∧ 1 ≤ risk_score d ≤ 10 ∧ str_forall plain (default "" (source_account d)) = true.

(** Models [buildNormalizedQuoteCanonicalJson] (backend/src/quote/quote-simulation-cache-key.util.ts:8-23). *)
Definition buildNormalizedQuoteCanonicalJson (d : GeneratePremiumDto) : string :=
  "{" +:+ quoted "age" +:+ ":" +:+ show_Z (d_age d) +:+ "," +:+
  quoted "coverage_tier" +:+ ":" +:+ quoted (show_tier (coverage_tier d)) +:+ "," +:+
  quoted "policy_type" +:+ ":" +:+ quoted (show_type (policy_type d)) +:+ "," +:+
  quoted "region" +:+ ":" +:+ quoted (show_region (d_region d)) +:+ "," +:+
  quoted "risk_score" +:+ ":" +:+ show_Z (risk_score d) +:+ "," +:+
  quoted "source_account" +:+ ":" +:+ quoted (default "" (source_account d)) +:+ "}".

(** Models [cacheControlRequestsNoCache] (backend/src/quote/quote.controller.ts:7-13). *)
Definition cacheControlRequestsNoCache (cacheControl : option string) : bool :=
  match truthy cacheControl with
  | None => false
  | Some h => existsb (λ d, bool_decide (trim d = "no-cache")) (split "," (toLowerCase h))
  end.

(** ** Keys determine requests *)

Lemma quoted_inj a b r r' :
  str_forall plain a = true → str_forall plain b = true → quoted a +:+ r = quoted b +:+ r' → a = b ∧ r = r'.
Proof.
  unfold quoted. intros Ha Hb E.
  change (String dquote ((a +:+ String dquote "") +:+ r) = String dquote ((b +:+ String dquote "") +:+ r')) in E.
  injection E as E. rewrite !str_app_assoc in E.
  apply (f_equal json_string) in E. change (String dquote "" +:+ r) with (String dquote r) in E.
  change (String dquote "" +:+ r') with (String dquote r') in E. rewrite !json_string_plain in E by done. by simplify_eq.
Qed.

Lemma show_Z_comma_inj a b r r' :
  0 ≤ a → 0 ≤ b → show_Z a +:+ String "," r = show_Z b +:+ String "," r' → a = b ∧ r = r'.
Proof.
  intros Ha Hb E.
  destruct (digit_prefix_stop (show_Z a) "," r (show_Z_digits a Ha) eq_refl) as [A1 A2].
  destruct (digit_prefix_stop (show_Z b) "," r' (show_Z_digits b Hb) eq_refl) as [B1 B2].
  rewrite E in A1. rewrite B1 in A1. rewrite E, <- A1, B2 in A2. split; [|by simplify_eq].
  apply (f_equal parseInt10) in A1. rewrite !parseInt10_show in A1. by simplify_eq.
Qed.

Lemma show_type_plain t : str_forall plain (show_type t) = true.
Proof. by destruct t. Qed.
Lemma show_region_plain r : str_forall plain (show_region r) = true.
Proof. by destruct r. Qed.
Lemma show_tier_plain t : str_forall plain (show_tier t) = true.
Proof. by destruct t. Qed.
Lemma show_type_inj a b : show_type a = show_type b → a = b.
Proof. by destruct a, b. Qed.
Lemma show_region_inj a b : show_region a = show_region b → a = b.
Proof. by destruct a, b. Qed.
#[local] Hint Resolve show_type_plain show_region_plain show_tier_plain : core.

(** Compares two JSON texts token by token. *)
Ltac tokens E :=
  repeat first
    [ apply str_app_inj_l in E
    | let E' := fresh "Htok" in apply quoted_inj in E as [E' E]; [|solve [auto]..]
    | let E' := fresh "Htok" in apply show_Z_comma_inj in E as [E' E]; [|lia..] ].

Lemma canonical_inj d d' :
  valid_dto d → valid_dto d' → buildNormalizedQuoteCanonicalJson d = buildNormalizedQuoteCanonicalJson d' →
  policy_type d = policy_type d' ∧ d_region d = d_region d' ∧ d_age d = d_age d' ∧ risk_score d = risk_score d' ∧
  default "" (source_account d) = default "" (source_account d').
Proof.
  intros (Ha & Hr & Hp) (Ha' & Hr' & Hp') E. unfold buildNormalizedQuoteCanonicalJson in E.
  tokens E. split_and!; eauto using show_type_inj, show_region_inj.
Qed.

(** The arguments the service builds from a request. *)
Definition args_of (d : GeneratePremiumDto) : SimulateArgs :=
  {| policyType := policy_type d; region := d_region d; age := d_age d; riskScore := risk_score d;
     sourceAccount := default "" (source_account d) |}.

Lemma stringify_inj d d' :
  valid_dto d → valid_dto d' → stringify (args_of d) = stringify (args_of d') → args_of d = args_of d'.
Proof.
  intros (Ha & Hr & Hp) (Ha' & Hr' & Hp') E. unfold stringify, args_of in E. cbn [policyType region age riskScore sourceAccount] in E.
  tokens E. unfold args_of. f_equal; eauto using show_type_inj, show_region_inj.
Qed.

(** ** The service *)

Section quote.
Context {B : Type} `{Breaker B}.
Context {R : Type} `{RS : RedisString SimulatePremiumResult R}.
Variable account_answer : nat → string → result string ().
Variable sim_answer : nat → SimulateArgs → result string SimAnswer.
(** The hexadecimal SHA-256, and the configuration. *)
Variable sha256 : string → string.
Variable contractId networkPassphrase : string.
Variable QUOTE_SIMULATION_CACHE_ENABLED : string.
Variable ttlSeconds : Z.

Definition nul : string := String "000" "".

(** Models [buildQuoteSimulationCacheKeyHash] (backend/src/quote/quote-simulation-cache-key.util.ts:26-39). *)
Definition buildQuoteSimulationCacheKeyHash (d : GeneratePremiumDto) : string :=
  sha256 (contractId +:+ nul +:+ networkPassphrase +:+ nul +:+ buildNormalizedQuoteCanonicalJson d).

(** Models [buildRedisKey] (backend/src/quote/quote-simulation-cache.service.ts:52-59). *)
Definition buildRedisKey (d : GeneratePremiumDto) : string := "quote:sim:v1:" +:+ buildQuoteSimulationCacheKeyHash d.

(** Models [enabled] (backend/src/quote/quote-simulation-cache.service.ts:32-35). *)
Definition enabled : bool :=
  negb (bool_decide (QUOTE_SIMULATION_CACHE_ENABLED = "false")) && negb (bool_decide (QUOTE_SIMULATION_CACHE_ENABLED = "0")).

(** The node's side and Redis. *)
Record qworld := QWorld { rpc : rpcworld B; cache : rworld R }.
Abbreviation MQ A := (M qworld RpcError A).

Definition on_cache {A} (m : M (rworld R) RpcError A) : MQ A := λ w,
  let '(r, c) := m (cache w) in (r, QWorld (rpc w) c).

(** Models [QuoteSimulationCacheService.get] (backend/src/quote/quote-simulation-cache.service.ts:61-64). *)
Definition cache_get (now : Z) (d : GeneratePremiumDto) : MQ (option SimulatePremiumResult) :=
  if enabled then on_cache (redis_get now (buildRedisKey d)) else ret None.

(** Models [QuoteSimulationCacheService.set] (backend/src/quote/quote-simulation-cache.service.ts:66-69). *)
Definition cache_set (now : Z) (d : GeneratePremiumDto) (v : SimulatePremiumResult) : MQ () :=
  if enabled then on_cache (redis_set now (buildRedisKey d) v ttlSeconds) else ret tt.

Definition rethrown (e : RpcError) : bool :=
  match e with
  | BadRequest code => bool_decide (code = "ACCOUNT_NOT_FOUND") || bool_decide (code = "WRONG_NETWORK")
  | _ => false
  end.

(** [now] at the cache reads, [later] when the simulation arrives, [stored] when
    its result is written to Redis.  The answer's inputs are the request's own.
    Models [getQuote] (backend/src/quote/quote.service.ts:29-98). *)
Definition getQuote (now later stored : Z) (d : GeneratePremiumDto) (bypass : bool) : MQ SimulatePremiumResult :=
  match truthy (source_account d) with
  | None => ret (local_quote (args_of d))
  | Some _ =>
      let* cached := if bypass then ret None else cache_get now d in
      match cached with
      | Some c => ret c
      | None => λ w,
          match simulateGeneratePremium account_answer sim_answer now later (args_of d) (rpc w) with
          | (Ok sim, s) =>
              (if bool_decide (source sim = "simulation") && negb bypass
               then do* cache_set stored d sim in ret sim else ret sim) (QWorld s (cache w))
          | (Throw e, s) => if rethrown e then (Throw e, QWorld s (cache w)) else (Ok (local_quote (args_of d)), QWorld s (cache w))
          end
      end
  end.

(** Models [generatePremium] (backend/src/quote/quote.controller.ts:39-46). *)
Definition generatePremium (now later stored : Z) (d : GeneratePremiumDto) (cacheControl : option string) : MQ SimulatePremiumResult :=
  getQuote now later stored d (cacheControlRequestsNoCache cacheControl).

(** ** Answers are honest *)

(** The local formula, labelled as such, or a value the node computed for these
    very arguments. *)
Definition honest (a : SimulateArgs) (q : SimulatePremiumResult) : Prop :=
  q = local_quote a ∨ ∃ n retval fee, sim_answer n a = Ok (SimOk retval fee) ∧ q = simulated_quote retval fee.

(** Both caches hold honest answers from the time [t] on. *)
Definition honest_memory (s : rpcworld B) : Prop :=
  ∀ d q t, valid_dto d → alist_get (stringify (args_of d)) (quoteCache s) = Some (q, t) → honest (args_of d) q.
Definition honest_cache (t : Z) (r : R) : Prop :=
  ∀ d q t', valid_dto d → t ≤ t' → is_Some (truthy (source_account d)) → r_get t' (buildRedisKey d) r = Some q → honest (args_of d) q.
Definition honest_world (t : Z) (w : qworld) : Prop := honest_memory (rpc w) ∧ honest_cache t (rstate (cache w)).

Lemma fire_inv (P : rpcworld B → Prop) {A} (fn : M (rpcworld B) RpcError A) s :
  (∀ b s, P s → P (with_breaker b s)) → P s → P (snd (fn s)) → P (snd (fire fn s)).
Proof.
  intros Hb Hs Hf. unfold fire. destruct (admits _); [|done]. destruct (fn s) as [r s1]. cbn [snd] in *.
  destruct (late _); by apply Hb.
Qed.

Lemma simulate_honest later d s :
  valid_dto d → honest_memory s →
  honest_memory (snd (simulateFn account_answer sim_answer later (args_of d) s)) ∧
  ∀ q, fst (simulateFn account_answer sim_answer later (args_of d) s) = Ok q → honest (args_of d) q.
Proof.
  intros Hd Hs. unfold simulateFn, bind, simulate.
  assert (∀ q, honest (args_of d) q → honest_memory (RpcWorld (circuitBreaker s) (pendingSubmissions s)
            (alist_put (stringify (args_of d)) (q, later) (quoteCache s)) (sends s) (S (asked s)))) as Hput.
  { intros q Hq d' q' t Hd' Hg. cbn [quoteCache] in Hg. rewrite alist_get_put in Hg. case_decide as Hk.
    - apply stringify_inj in Hk; [|done..]. injection Hg as -> _. by rewrite <- Hk.
    - by eapply Hs. }
  destruct (account_answer _ _); [|split; [exact Hs|done]]. destruct (sim_answer _ _) as [[|v f]|] eqn:Ha; [| |split; [exact Hs|done]].
  - cbn. split; [apply Hput; by left|]. intros q [= <-]. by left.
  - assert (honest (args_of d) (simulated_quote v f)) by (right; by exists (asked s), v, f).
    cbn. split; [by apply Hput|]. by intros q [= <-].
Qed.

Lemma fire_result {A} (fn : M (rpcworld B) RpcError A) s a : fst (fire fn s) = Ok a → fst (fn s) = Ok a.
Proof.
  unfold fire. destruct (admits _); [|done]. destruct (fn s) as [r s1]. by destruct (late _).
Qed.

Lemma premium_honest now later d s :
  valid_dto d → honest_memory s →
  let '(r, s1) := simulateGeneratePremium account_answer sim_answer now later (args_of d) s in
  honest_memory s1 ∧ (∀ q, r = Ok q → honest (args_of d) q).
Proof.
  intros Hd Hs. unfold simulateGeneratePremium.
  destruct (simulate_honest later d s Hd Hs) as [Hm Hq].
  pose proof (fire_inv honest_memory (simulateFn account_answer sim_answer later (args_of d)) s (λ b s H, H) Hs Hm) as Hf.
  pose proof (fire_result (simulateFn account_answer sim_answer later (args_of d)) s) as Hr.
  destruct (fire _ s) as [[q|e] s1]; cbn [fst snd] in *.
  - destruct (alist_get _ _) as [[q' t]|] eqn:Hc; [destruct (now - t <? quoteCacheTtlMs)|].
    + split; [done|]. intros ? [= <-]. by eapply Hs.
    + split; [done|]. intros ? [= <-]. by apply Hq, Hr.
    + split; [done|]. intros ? [= <-]. by apply Hq, Hr.
  - destruct (alist_get _ _) as [[q' t]|] eqn:Hc; [destruct (now - t <? quoteCacheTtlMs); [|destruct (opened _)]|].
    + split; [done|]. intros ? [= <-]. by eapply Hs.
    + split; [done|]. intros ? [= <-]. by eapply Hs.
    + by split.
    + by split.
Qed.

Section laws.
Context {RL : RedisStringLaws SimulatePremiumResult R}.
(** No two requests that pass validation collide under SHA-256. *)
Hypothesis no_collision : ∀ d d', valid_dto d → valid_dto d' →
  buildRedisKey d = buildRedisKey d' → buildNormalizedQuoteCanonicalJson d = buildNormalizedQuoteCanonicalJson d'.

Lemma honest_cache_set t d q (r : R) :
  valid_dto d → honest (args_of d) q → honest_cache t r → honest_cache t (r_setex t (buildRedisKey d) q ttlSeconds r).
Proof.
  intros Hd Hq Hr d' q' t' Hd' Ht Hacc Hg. destruct (decide (buildRedisKey d = buildRedisKey d')) as [Hk|Hk].
  - rewrite <- Hk, get_setex in Hg by done. case_decide; [|done]. injection Hg as <-.
    apply no_collision, canonical_inj in Hk as (E1 & E2 & E3 & E4 & E5); [|done..].
    assert (args_of d' = args_of d) as -> by (unfold args_of; congruence). done.
  - rewrite get_setex_ne in Hg by done. by eapply Hr.
Qed.

(** C16: Every answer is honest.  Whatever the node, the breaker and Redis do, and
    whatever was asked before, a quote is the local formula's value labelled
    local_fallback, or a value the node computed for exactly these arguments;
    the only errors are the two account errors; and both caches keep that
    property for the quotes to come. *)
Theorem quote_honest now later stored d bypass w :
  valid_dto d → now ≤ stored → honest_world now w →
  let '(r, w1) := getQuote now later stored d bypass w in
  honest_world stored w1 ∧ match r with Ok q => honest (args_of d) q | Throw e => rethrown e = true end.
Proof.
  intros Hd Hn [Hm Hc]. assert (honest_cache stored (rstate (cache w))) as Hc'.
  { intros d' q t' Hd' Ht. apply Hc; [done|lia]. }
  unfold getQuote, honest_world. destruct (truthy (source_account d)) as [acct|] eqn:Hacc; [|split; [done|by left]].
  assert (∃ c w0, (if bypass then ret None else cache_get now d) w = (Ok c, w0) ∧ rpc w0 = rpc w ∧ rstate (cache w0) = rstate (cache w) ∧
            ∀ q, c = Some q → honest (args_of d) q) as (c & w0 & Hget & Hrpc & Hst & Hq).
  { destruct bypass; [by eexists None, w|]. unfold cache_get, on_cache. destruct enabled; [|by eexists None, w].
    destruct (redis_get_cases (E:=RpcError) now (buildRedisKey d) (cache w)) as (v & c1 & -> & Hs & Hv). eexists v, _.
    split_and!; [done..|]. intros q ->. destruct Hv as [|Hv]; [done|]. symmetry in Hv. eapply (Hc d q now); [done|lia|by rewrite Hacc|exact Hv]. }
  rewrite (bind_ok _ _ _ _ _ Hget). destruct c as [q|].
  { cbn. rewrite Hrpc, Hst. split; [by split|by apply Hq]. }
  pose proof (premium_honest now later d (rpc w0) Hd ltac:(by rewrite Hrpc)) as Hp.
  destruct (simulateGeneratePremium _ _ now later (args_of d) (rpc w0)) as [[sim|e] s]; destruct Hp as [Hms Hsim].
  - specialize (Hsim sim eq_refl). destruct (bool_decide _ && negb bypass); [|cbn; rewrite Hst; by repeat split].
    unfold cache_set, on_cache. destruct enabled; [|cbn; rewrite Hst; by repeat split]. unfold bind. cbn [cache].
    destruct (redis_set_cases (E:=RpcError) stored (buildRedisKey d) sim ttlSeconds (cache w0)) as (c1 & -> & [Hs|Hs]); cbn.
    + rewrite Hs, Hst. by repeat split.
    + rewrite Hs, Hst. repeat split; [done|by apply honest_cache_set|done].
  - destruct (rethrown e) eqn:He; cbn; rewrite Hst; repeat split; try done. by left.
Qed.

(** A table update does not reach the memory of the service.  tbl_upd empties
    Redis; within a minute of the last simulation the same request is still
    answered with the old premium, without asking the node, and the old premium
    goes back to Redis, where it answers for the whole time to live. *)
Theorem update_does_not_reach_memory now later stored d s (r : R) q t a :
  truthy (source_account d) = Some a → enabled = true →
  alist_get (stringify (args_of d)) (quoteCache s) = Some (q, t) → source q = "simulation" → now - t < 60000 →
  r_get now (buildRedisKey d) r = None →
  let '(o, w1) := getQuote now later stored d false (QWorld s (healthy r)) in
  o = Ok q ∧ rpc w1 = s ∧
  ∀ now' later' stored', stored ≤ now' < stored + ttlSeconds * 1000 → fst (getQuote now' later' stored' d false w1) = Ok q.
Proof.
  intros Ha He Hg Hs Ht Hr. unfold getQuote. rewrite Ha. unfold cache_get. rewrite He.
  unfold on_cache, redis_get, try_catch, bind, query, cmd. cbn [cache healthy faults rstate rpc]. rewrite Hr.
  unfold simulateGeneratePremium. cbn [rpc]. rewrite Hg. destruct (Z.ltb_spec (now - t) quoteCacheTtlMs); [|unfold quoteCacheTtlMs in *; lia].
  rewrite bool_decide_true by done. cbn [andb negb]. unfold cache_set, on_cache, redis_set, try_catch, update, cmd. rewrite He.
  cbn. split_and!; [done..|]. intros now' later' stored' Hn. rewrite get_setex by lia. by rewrite decide_True by lia.
Qed.

(** No-cache is answered from memory.  A request that asks to bypass the cache
    skips Redis only: within a minute of the last simulation it gets the stored
    premium and the node is not asked. *)
Theorem no_cache_served_from_memory now later stored d w q t a h :
  truthy (source_account d) = Some a → cacheControlRequestsNoCache h = true →
  alist_get (stringify (args_of d)) (quoteCache (rpc w)) = Some (q, t) → now - t < 60000 →
  generatePremium now later stored d h w = (Ok q, w).
Proof.
  intros Ha Hh Hg Ht. unfold generatePremium, getQuote. rewrite Ha, Hh. cbn.
  unfold simulateGeneratePremium. rewrite Hg. destruct (Z.ltb_spec (now - t) quoteCacheTtlMs); [|unfold quoteCacheTtlMs in *; lia].
  rewrite andb_false_r. by destruct w.
Qed.
End laws.
End quote.

(** ** At concrete inputs *)

Module QuoteWitnesses.
Import Redis.Sample.

#[local] Instance closed_breaker : Breaker () := { opened _ := false; admits _ := true; late _ := false; settle _ b := b }.

Definition accounts (n : nat) (a : string) : result string () := Ok tt.
Definition node (n : nat) (a : SimulateArgs) : result string SimAnswer := Ok (SimOk (Some 43000000) (Some "100")).
Definition request : GeneratePremiumDto :=
  {| policy_type := Auto; d_region := Medium; coverage_tier := Basic; d_age := 40; risk_score := 3; source_account := Some "GA" |}.
Definition empty_world : qworld (B:=()) (R:=strings SimulatePremiumResult) := QWorld (RpcWorld tt [] [] [] 0) (healthy []).

Lemma no_collision_id c n d d' : buildRedisKey (λ s, s) c n d = buildRedisKey (λ s, s) c n d' →
  buildNormalizedQuoteCanonicalJson d = buildNormalizedQuoteCanonicalJson d'.
Proof.
  unfold buildRedisKey, buildQuoteSimulationCacheKeyHash. intros E. do 5 apply str_app_inj_l in E. exact E.
Qed.

Lemma request_valid : valid_dto request.
Proof. by repeat split. Qed.

Lemma empty_honest ans c n t : honest_world ans (λ s, s) c n t empty_world.
Proof. split; [by intros ? ? ? _|by intros ? ? ? _]. Qed.

(** A first quote, from the node. *)
Lemma quote_honest_witness :
  let '(r, w1) := getQuote accounts node (λ s, s) "C1" "net" "true" 30 0 5 6 request false empty_world in
  honest_world node (λ s, s) "C1" "net" 6 w1 ∧ match r with Ok q => honest node (args_of request) q | Throw e => rethrown e = true end.
Proof.
  apply (quote_honest accounts node (λ s, s) "C1" "net" "true" 30 (λ d d' _ _, no_collision_id "C1" "net" d d')
           0 5 6 request false empty_world).
  - exact request_valid.
  - lia.
  - apply empty_honest.
Defined.

Definition old : SimulatePremiumResult := simulated_quote (Some 43000000) (Some "100").
Definition remembered : rpcworld () := RpcWorld tt [] [(stringify (args_of request), (old, 0))] [] 1.

(** The node now says something else; Redis was emptied. *)
Lemma update_does_not_reach_memory_witness :
  let '(o, w1) := getQuote accounts (λ _ _, Ok (SimOk (Some 1) None)) (λ s, s) "C1" "net" "true" 30 59999 60000 60001 request false
                    (QWorld remembered (healthy ([] : strings SimulatePremiumResult))) in
  o = Ok old ∧ rpc w1 = remembered ∧
  ∀ now' later' stored', 60001 ≤ now' < 60001 + 30 * 1000 →
    fst (getQuote accounts (λ _ _, Ok (SimOk (Some 1) None)) (λ s, s) "C1" "net" "true" 30 now' later' stored' request false w1) = Ok old.
Proof.
  apply (update_does_not_reach_memory accounts (λ _ _, Ok (SimOk (Some 1) None)) (λ s, s) "C1" "net" "true" 30
           59999 60000 60001 request remembered ([] : strings SimulatePremiumResult) old 0 "GA"); reflexivity || lia.
Defined.

Lemma no_cache_served_from_memory_witness :
  generatePremium accounts node (λ s, s) "C1" "net" "true" 30 30000 30000 30000 request (Some "max-age=0, No-Cache")
    (QWorld remembered (healthy ([] : strings SimulatePremiumResult))) =
  (Ok old, QWorld remembered (healthy [])).
Proof.
  apply (no_cache_served_from_memory accounts node (λ s, s) "C1" "net" "true" 30 30000 30000 30000 request
           (QWorld remembered (healthy ([] : strings SimulatePremiumResult))) old 0 "GA" (Some "max-age=0, No-Cache")); reflexivity || lia.
Defined.
End QuoteWitnesses.
