(* ===== verification/Tx.v ===== *)
(** * Transactions

    backend/src/tx: submission of signed transactions with an idempotency key
    (tx.service.ts), the queue of asynchronous submissions and its worker
    (tx-submit.queue.ts, tx-submit.worker.ts).  The parser of envelopes, the node
    and BullMQ are parameters. *)

From stdpp Require Import base gmap list strings.
From Stdlib Require Import ZArith Lia Ascii.
From S2P Require Import Prelude JsText Redis SorobanRpc.

Open Scope string_scope.
Open Scope Z_scope.

(** ** Results *)

Inductive TxError := TxBadRequest (code : string) | TxUnavailable (code : string).

(** Models [SubmitResult] (backend/src/tx/tx.service.ts:92-100). *)
Record SubmitResult := {
  hash : string; status : string; errorCode : option string; errorMessage : option string; cached : bool }.

Definition with_cached (r : SubmitResult) : SubmitResult :=
  {| hash := hash r; status := status r; errorCode := errorCode r; errorMessage := errorMessage r; cached := true |}.

(** Models [SubmitTxDto] (backend/src/tx/dto/submit-tx.dto.ts:14-35). *)
Record SubmitTxDto := { signed_xdr : string; idempotency_key : option string }.

Fixpoint lookup_code (m : list (string * string)) (k : string) : option string :=
  match m with [] => None | (k', v) :: m' => if bool_decide (k = k') then Some v else lookup_code m' k end.

Definition codeMap : list (string * string) :=
  [("txBAD_SEQ", "TX_BAD_SEQ"); ("txBAD_AUTH", "TX_BAD_AUTH"); ("txINSUFFICIENT_FEE", "TX_INSUFFICIENT_FEE");
   ("txINSUFFICIENT_BALANCE", "TX_INSUFFICIENT_BALANCE"); ("txNO_ACCOUNT", "TX_NO_ACCOUNT"); ("txFAILED", "TX_FAILED");
   ("txTOO_EARLY", "TX_TOO_EARLY"); ("txTOO_LATE", "TX_TOO_LATE"); ("txMISSING_OPERATION", "TX_MISSING_OPERATION");
   ("txINTERNAL_ERROR", "TX_INTERNAL_ERROR")].

Definition messages : list (string * string) :=
  [("TX_BAD_SEQ", "Sequence number mismatch. Rebuild the transaction to fetch the latest sequence.");
   ("TX_BAD_AUTH", "One or more signatures are invalid or missing.");
   ("TX_INSUFFICIENT_FEE", "Fee is too low. Rebuild with a higher fee.");
   ("TX_INSUFFICIENT_BALANCE", "Source account has insufficient XLM balance.");
   ("TX_NO_ACCOUNT", "Source account does not exist on this network.");
   ("TX_FAILED", "Transaction failed. Check operation results for details.");
   ("TX_TOO_EARLY", "Transaction submitted before its minTime bound.");
   ("TX_TOO_LATE", "Transaction expired. Rebuild with a fresh timeout.");
   ("TX_MISSING_OPERATION", "Transaction has no operations.");
   ("TX_INTERNAL_ERROR", "Stellar network internal error. Try again.");
   ("TX_SUBMISSION_FAILED", "Transaction submission failed.")].

(** Models [errorCodeToMessage] (backend/src/tx/tx.service.ts:443-459). *)
Definition errorCodeToMessage (code : string) : string :=
  default "An unknown submission error occurred." (lookup_code messages code).

Section tx.
(** [TransactionBuilder.fromXDR] for the configured network, the code of a
    result XDR, and what the node answers to its n-th call. *)
Variable fromXDR : string → option Envelope.
Variable result_code : string → option string.
Variable node : nat → result string SendResponse.

(** Models [mapErrorCode] (backend/src/tx/tx.service.ts:413-441). *)
Definition mapErrorCode (response : SendResponse) : string :=
  match truthy (s_errorResultXdr response) with
  | None => "TX_SUBMISSION_FAILED"
  | Some x =>
      match result_code x with
      | Some code => match lookup_code codeMap code with Some c => c | None => "TX_ERROR_" +:+ code end
      | None => "TX_SUBMISSION_FAILED"
      end
  end.

(** Models [mapSubmissionResponse] (backend/src/tx/tx.service.ts:392-411). *)
Definition mapSubmissionResponse (response : SendResponse) : SubmitResult :=
  if bool_decide (s_status response = "ERROR") then
    {| hash := s_hash response; status := s_status response; errorCode := Some (mapErrorCode response);
       errorMessage := Some (errorCodeToMessage (mapErrorCode response)); cached := false |}
  else {| hash := s_hash response; status := s_status response; errorCode := None; errorMessage := None; cached := false |}.

(** Models [parseAndValidateXdr] (backend/src/tx/tx.service.ts:330-386). *)
Definition parseAndValidateXdr (signedXdr : string) : result TxError Transaction :=
  match fromXDR signedXdr with
  | None => Throw (TxBadRequest "INVALID_XDR")
  | Some FeeBump => Throw (TxBadRequest "FEE_BUMP_NOT_SUPPORTED")
  | Some (Plain tx) =>
      if (signatures tx =? 0)%nat then Throw (TxBadRequest "MISSING_SIGNATURES")
      else if (length (operations tx) =? 0)%nat then Throw (TxBadRequest "EMPTY_OPERATIONS")
      else if negb (existsb (λ t, bool_decide (t = "invokeHostFunction")) (operations tx))
           then Throw (TxBadRequest "INVALID_OPERATION_TYPE")
      else Ok tx
  end.

(** ** Submission *)

Section submit.
Context {R : Type} `{RS : RedisString SubmitResult R}.

(** The cache and the envelopes sent to the node. *)
Record txworld := TxWorld { store : rworld R; sends : list string }.
Abbreviation MT A := (M txworld TxError A).

Definition on_store {A} (m : M (rworld R) TxError A) : MT A := λ w,
  let '(r, s) := m (store w) in (r, TxWorld s (sends w)).

(** The call is recorded before its answer. *)
Definition send (x : string) : MT SendResponse := λ w,
  let w' := TxWorld (store w) (sends w ++ [x])%list in
  match node (length (sends w)) with
  | Ok r => (Ok r, w')
  | Throw _ => (Throw (TxUnavailable "RPC_UNAVAILABLE"), w')
  end.

Definition idem_key (k : string) : string := "tx:idem:" +:+ k.

(** What may be replayed is stored for ten minutes. *)
Definition remember (later : Z) (key : option string) (result : SubmitResult) : MT unit :=
  match truthy key with
  | Some k => if bool_decide (status result = "ERROR") then ret tt
              else on_store (redis_set later (idem_key k) result 600)
  | None => ret tt
  end.

(** [now] when the cache is read, [later] when it is written.
    Models [submit] (backend/src/tx/tx.service.ts:220-265). *)
Definition submit (now later : Z) (dto : SubmitTxDto) : MT SubmitResult :=
  let* seen :=
    match truthy (idempotency_key dto) with
    | Some k => on_store (redis_get now (idem_key k))
    | None => ret None
    end in
  match seen with
  | Some r => ret (with_cached r)
  | None =>
      let* _tx := (λ w, (parseAndValidateXdr (signed_xdr dto), w)) in
      let* response := send (signed_xdr dto) in
      let result := mapSubmissionResponse response in
      do* remember later (idempotency_key dto) result in
      ret result
  end.

(** What validation asks for. *)
Definition submittable (x : string) : Prop :=
  ∃ tx, fromXDR x = Some (Plain tx) ∧ (0 < signatures tx)%nat ∧ "invokeHostFunction" ∈ operations tx.

Lemma validate_spec x tx :
  parseAndValidateXdr x = Ok tx ↔ fromXDR x = Some (Plain tx) ∧ (0 < signatures tx)%nat ∧ "invokeHostFunction" ∈ operations tx.
Proof.
  unfold parseAndValidateXdr. destruct (fromXDR x) as [[|t]|]; [naive_solver| |naive_solver].
  destruct (Nat.eqb_spec (signatures t) 0) as [Hz|Hz]; [split; [done|intros ([= ->] & ? & _); lia]|].
  destruct (Nat.eqb_spec (length (operations t)) 0) as [Hl|Hl].
  { split; [done|]. intros ([= ->] & _ & Hin). apply nil_length_inv in Hl. rewrite Hl in Hin. by apply elem_of_nil in Hin. }
  destruct (existsb _ (operations t)) eqn:He; cbn [negb].
  - apply existsb_exists in He as (o & Ho & E). apply bool_decide_eq_true in E as ->. apply list_elem_of_In in Ho.
    split; [intros [= ->]; split_and!; [done|lia|done]|by intros ([= ->] & _)].
  - split; [done|]. intros ([= ->] & _ & Hin). exfalso. apply Bool.not_true_iff_false in He. apply He, existsb_exists.
    exists "invokeHostFunction". split; [by apply list_elem_of_In|done].
Qed.

Lemma on_store_sends {A} (m : M (rworld R) TxError A) w : sends (snd (on_store m w)) = sends w.
Proof. unfold on_store. by destruct (m (store w)). Qed.

Lemma remember_sends later key result w : sends (snd (remember later key result w)) = sends w.
Proof. unfold remember. destruct (truthy key); [|done]. case_bool_decide; [done|apply on_store_sends]. Qed.

(** Only a signed contract invocation reaches the node.  Whatever the cache holds
    or fails to do and whatever the node answers, a submission sends nothing, or
    exactly the envelope it was given, which then parses on the configured
    network, is not a fee bump, has a signature and a contract invocation; the
    rejected codes are those of the first test that fails. *)
Theorem submit_sends now later dto w :
  let '(r, w') := submit now later dto w in
  sends w' = sends w ∨ (sends w' = (sends w ++ [signed_xdr dto])%list ∧ submittable (signed_xdr dto)).
Proof.
  unfold submit, bind. set (get := match truthy (idempotency_key dto) with Some k => _ | None => _ end).
  assert (sends (snd (get w)) = sends w) as Hget by (unfold get; destruct (truthy _); [apply on_store_sends|done]).
  destruct (get w) as [[seen|e] w1]; cbn [snd] in Hget; [|by left]. destruct seen as [r|]; [by left|].
  destruct (parseAndValidateXdr (signed_xdr dto)) as [tx|e] eqn:Hv; [|by left]. apply validate_spec in Hv.
  unfold send. rewrite <- Hget. destruct (node (length (sends w1))) as [resp|e]; [|right; split; [done|by exists tx]].
  match goal with |- context [remember ?l ?k ?r ?w2] => pose proof (remember_sends l k r w2) as Hput end.
  cbn [sends] in Hput. destruct (remember _ _ _ _) as [[[]|e] w3]; cbn [snd] in Hput; right; (split; [exact Hput|by exists tx]).
Qed.

Section laws.
Context `{RL : !RedisStringLaws SubmitResult R}.

(** The first submission under a key on a healthy cache. *)
Lemma submit_first now later k x rs n resp (r : R) tx :
  k ≠ "" → parseAndValidateXdr x = Ok tx → r_get now (idem_key k) r = None → length rs = n → node n = Ok resp →
  s_status resp ≠ "ERROR" →
  submit now later {| signed_xdr := x; idempotency_key := Some k |} (TxWorld (healthy r) rs) =
    (Ok (mapSubmissionResponse resp), TxWorld (healthy (r_setex later (idem_key k) (mapSubmissionResponse resp) 600 r)) (rs ++ [x])%list).
Proof.
  intros Hk Hv Hget <- Hn Hs. unfold submit, bind. cbn [idempotency_key signed_xdr].
  assert (truthy (Some k) = Some k) as -> by by destruct k.
  unfold on_store at 1. unfold redis_get, try_catch, query, cmd. cbn [store healthy faults rstate tail]. rewrite Hget, Hv.
  unfold send. cbn [sends store]. rewrite Hn.
  assert (status (mapSubmissionResponse resp) = s_status resp) as Hst by (unfold mapSubmissionResponse; by case_bool_decide).
  unfold remember. assert (truthy (Some k) = Some k) as -> by by destruct k.
  rewrite bool_decide_false by by rewrite Hst. done.
Qed.

Lemma submit_repeat now later k x rs (r : R) v :
  k ≠ "" → r_get now (idem_key k) r = Some v →
  submit now later {| signed_xdr := x; idempotency_key := Some k |} (TxWorld (healthy r) rs) =
    (Ok (with_cached v), TxWorld (healthy r) rs).
Proof.
  intros Hk Hget. unfold submit, bind. cbn [idempotency_key].
  assert (truthy (Some k) = Some k) as -> by by destruct k.
  unfold on_store, redis_get, try_catch, query, cmd. cbn [store healthy faults rstate tail]. by rewrite Hget.
Qed.

(** Repeats under the same key. *)
Fixpoint repeats (k : string) (l : list (Z * Z * string)) (w : txworld) : list (result TxError SubmitResult) * txworld :=
  match l with
  | [] => ([], w)
  | (now, later, x) :: l' =>
      let '(r, w1) := submit now later {| signed_xdr := x; idempotency_key := Some k |} w in
      let '(rs, w2) := repeats k l' w1 in (r :: rs, w2)
  end.

Lemma repeats_cached k l rs (r : R) v :
  k ≠ "" → Forall (λ a, r_get a.1.1 (idem_key k) r = Some v) l →
  repeats k l (TxWorld (healthy r) rs) = (replicate (length l) (Ok (with_cached v)), TxWorld (healthy r) rs).
Proof.
  intros Hk. induction 1 as [|[[now later] x] l Hg _ IH]; [done|]. cbn [repeats]. rewrite (submit_repeat now later k x rs r v) by done.
  by rewrite IH.
Qed.

(** C22: One key, one submission, on a healthy cache and for submissions one after the other.  After an
    envelope was sent under a key that held nothing and the node did not answer ERROR, every later submission
    under the key in the ten minutes after the result was stored is answered with the stored result and sends
    nothing, whatever envelope it carries.  The guarantee ends where the cache fails: a store that fails is
    swallowed, and the same key is sent again; so are submissions that overlap, which all read the cache
    before the first result is stored. *)
Theorem submit_once now later k x rs resp (r : R) tx l :
  k ≠ "" → parseAndValidateXdr x = Ok tx → r_get now (idem_key k) r = None → node (length rs) = Ok resp →
  s_status resp ≠ "ERROR" → Forall (λ a, later ≤ a.1.1 < later + 600000) l →
  let '(first, w) := submit now later {| signed_xdr := x; idempotency_key := Some k |} (TxWorld (healthy r) rs) in
  first = Ok (mapSubmissionResponse resp) ∧ sends w = (rs ++ [x])%list ∧
  fst (repeats k l w) = replicate (length l) (Ok (with_cached (mapSubmissionResponse resp))) ∧ sends (snd (repeats k l w)) = (rs ++ [x])%list.
Proof.
  intros Hk Hv Hg Hn Hs Hl. rewrite (submit_first now later k x rs (length rs) resp r tx) by done.
  rewrite (repeats_cached k l _ _ (mapSubmissionResponse resp)); [done|done|].
  eapply Forall_impl; [exact Hl|]. intros a [Ha1 Ha2]. rewrite get_setex by lia. by rewrite decide_True by lia.
Qed.

(** A node that is busy is not asked again.  TRY_AGAIN_LATER says that the
    transaction was not taken; the answer is stored like a success, so for ten
    minutes every retry under the key is told TRY_AGAIN_LATER without reaching
    the node, whatever the node would answer. *)
Theorem try_again_later_sticks now later k x rs resp (r : R) tx l :
  k ≠ "" → parseAndValidateXdr x = Ok tx → r_get now (idem_key k) r = None → node (length rs) = Ok resp →
  s_status resp = "TRY_AGAIN_LATER" → Forall (λ a, later ≤ a.1.1 < later + 600000) l →
  let w := snd (submit now later {| signed_xdr := x; idempotency_key := Some k |} (TxWorld (healthy r) rs)) in
  Forall (λ o, ∃ v, o = Ok v ∧ status v = "TRY_AGAIN_LATER") (fst (repeats k l w)) ∧ sends (snd (repeats k l w)) = (rs ++ [x])%list.
Proof.
  intros Hk Hv Hg Hn Hs Hl. rewrite (submit_first now later k x rs (length rs) resp r tx); try done; [|by rewrite Hs]. cbn [snd].
  rewrite (repeats_cached k l _ _ (mapSubmissionResponse resp)); [|done|].
  - split; [|done]. cbn [fst]. apply Forall_replicate. eexists. split; [done|]. unfold mapSubmissionResponse, with_cached. by case_bool_decide.
  - eapply Forall_impl; [exact Hl|]. intros a [Ha1 Ha2]. rewrite get_setex by lia. by rewrite decide_True by lia.
Qed.
End laws.
End submit.

End tx.

(** ** The asynchronous queue *)

Module Queue.

Inductive jstate := Waiting | Active | Delayed | Completed (h : string) | Failed (reason : string).
Record job := { j_id : string; j_data : SubmitTxDto; j_state : jstate }.

Definition pending (j : job) : bool := match j_state j with Waiting | Active | Delayed => true | _ => false end.
Definition depth (jobs : list job) : nat := length (List.filter pending jobs).
Definition getJob (i : string) (jobs : list job) : option job := List.find (λ j, bool_decide (j_id j = i)) jobs.

(** The queue of BullMQ: its jobs, and [add] with an id or without one, which may
    reject.  An id that is taken adds nothing; otherwise a waiting job with the
    data joins the queue, under the id asked for or a new one. *)
Class TxQueue (Q : Type) := {
  q_jobs : Q → list job;
  q_add : option string → SubmitTxDto → Q → option (string * Q);
}.
Class TxQueueLaws (Q : Type) `{TxQueue Q} : Prop := {
  add_ok : ∀ oi data q i q', q_add oi data q = Some (i, q') →
    (∀ k, oi = Some k → i = k) ∧
    ((i ∈ j_id <$> q_jobs q) ∧ q_jobs q' = q_jobs q ∨
     (i ∉ j_id <$> q_jobs q) ∧ q_jobs q' = (q_jobs q ++ [{| j_id := i; j_data := data; j_state := Waiting |}])%list);
}.

Inductive enqueue_error := Backpressure (currentDepth maxDepth : nat) | QueueRejected.

Section enqueue.
Context {Q : Type} `{TxQueue Q}.

Definition add (oi : option string) (data : SubmitTxDto) (q : Q) : result enqueue_error string * Q :=
  match q_add oi data q with Some (i, q') => (Ok i, q') | None => (Throw QueueRejected, q) end.

(** Models [enqueue] (backend/src/tx/tx-submit.queue.ts:50-78). *)
Definition enqueue (maxDepth : nat) (data : SubmitTxDto) (q : Q) : result enqueue_error string * Q :=
  if (maxDepth <=? depth (q_jobs q))%nat then (Throw (Backpressure (depth (q_jobs q)) maxDepth), q)
  else
    match truthy (idempotency_key data) with
    | Some k =>
        let jobId := "idem:" +:+ k in
        match getJob jobId (q_jobs q) with
        | Some _ => (Ok jobId, q)
        | None => add (Some jobId) data q
        end
    | None => add None data q
    end.
End enqueue.

(** Models [mapState] (backend/src/tx/tx-submit.queue.ts:95-104). *)
Definition mapState (s : jstate) : string :=
  match s with Waiting => "queued" | Active => "active" | Completed _ => "completed" | Failed _ => "failed" | Delayed => "delayed" end.

(** Models [getStatus] (backend/src/tx/tx-submit.queue.ts:80-93). *)
Definition getStatus (jobId : string) (jobs : list job) : string :=
  match getJob jobId jobs with Some j => mapState (j_state j) | None => "unknown" end.

Lemma getJob_none i jobs : getJob i jobs = None → (i ∉ j_id <$> jobs).
Proof.
  intros Hn Hin. apply list_elem_of_fmap in Hin as (j & -> & Hj). apply list_elem_of_In in Hj.
  eapply List.find_none in Hn; [|exact Hj]. by rewrite bool_decide_true in Hn.
Qed.

Section queue_facts.
Context {Q : Type} `{TQ : TxQueue Q, TL : !TxQueueLaws Q}.

(** What happens to the queue: a request, or work — jobs change state, are retried
    or removed; none appears and no more of them are pending. *)
Inductive qstep (maxDepth : nat) (q q' : Q) : Prop :=
  | requested data : snd (enqueue maxDepth data q) = q' → qstep maxDepth q q'
  | worked : j_id <$> q_jobs q' `sublist_of` j_id <$> q_jobs q → (depth (q_jobs q') ≤ depth (q_jobs q))%nat → qstep maxDepth q q'.

Lemma add_spec oi data q :
  let q' := snd (add oi data q) in
  (NoDup (j_id <$> q_jobs q) → NoDup (j_id <$> q_jobs q')) ∧ (depth (q_jobs q') ≤ S (depth (q_jobs q)))%nat.
Proof.
  unfold add. destruct (q_add oi data q) as [[i q']|] eqn:E; cbn [snd]; [|split; [done|lia]].
  destruct (add_ok _ _ _ _ _ E) as [_ [[_ ->]|[Hi ->]]]; [split; [done|lia]|]. split.
  - intros Hn. rewrite fmap_app. apply NoDup_app. split_and!; [done| |apply NoDup_singleton].
    intros x Hx Hx'. apply list_elem_of_singleton in Hx'. by subst.
  - unfold depth. rewrite List.filter_app, length_app. cbn. lia.
Qed.

Lemma enqueue_inv maxDepth data q :
  let q' := snd (enqueue maxDepth data q) in
  (NoDup (j_id <$> q_jobs q) → NoDup (j_id <$> q_jobs q')) ∧
  ((depth (q_jobs q) ≤ maxDepth)%nat → (depth (q_jobs q') ≤ maxDepth)%nat).
Proof.
  unfold enqueue. destruct (Nat.leb_spec maxDepth (depth (q_jobs q))) as [Hd|Hd]; [by split|].
  destruct (truthy (idempotency_key data)) as [k|]; [destruct (getJob _ _); [by split|]|].
  all: match goal with |- context [add ?oi ?d ?q0] => destruct (add_spec oi d q0) as [A1 A2] end; (split; [done|]); cbv zeta; lia.
Qed.

(** The queue stays bounded and holds one job per key.  After any sequence of
    requests and of work done by the workers, at most the configured number of
    jobs waits, runs or is delayed and no two jobs have one id; while the job of
    a key is held, failed or not, a request with the key returns that job and
    changes nothing. *)
Theorem queue_bounded maxDepth q q' :
  rtc (qstep maxDepth) q q' → (depth (q_jobs q) ≤ maxDepth)%nat → NoDup (j_id <$> q_jobs q) →
  (depth (q_jobs q') ≤ maxDepth)%nat ∧ NoDup (j_id <$> q_jobs q') ∧
  ∀ k x j, k ≠ "" → getJob ("idem:" +:+ k) (q_jobs q') = Some j → (depth (q_jobs q') < maxDepth)%nat →
    enqueue maxDepth {| signed_xdr := x; idempotency_key := Some k |} q' = (Ok ("idem:" +:+ k), q').
Proof.
  intros Hr Hd Hn. assert ((depth (q_jobs q') ≤ maxDepth)%nat ∧ NoDup (j_id <$> q_jobs q')) as [H1 H2].
  { induction Hr as [|q q1 q2 Hs _ IH]; [done|]. apply IH.
    - destruct Hs as [data <-|_ Hle]; [by apply enqueue_inv|lia].
    - destruct Hs as [data <-|Hsub _]; [by apply enqueue_inv|by eapply sublist_NoDup]. }
  split_and!; [done..|]. intros k x j Hk Hj Hlt. unfold enqueue.
  destruct (Nat.leb_spec maxDepth (depth (q_jobs q'))); [lia|]. cbn [idempotency_key].
  assert (truthy (Some k) = Some k) as -> by by destruct k. by rewrite Hj.
Qed.
End queue_facts.

Section worker.
Variable fromXDR : string → option Envelope.
Variable node : nat → result string SendResponse.

(** What a job does; a thrown error makes the queue try again.
    Models [process] (backend/src/tx/tx-submit.worker.ts:64-95). *)
Definition process (data : SubmitTxDto) (n : nat) : result string (string * string) * list string :=
  match fromXDR (signed_xdr data) with
  | None => (Throw "INVALID_XDR: Could not parse signed_xdr", [])
  | Some _ =>
      match node n with
      | Throw e => (Throw e, [signed_xdr data])
      | Ok response =>
          if bool_decide (s_status response = "ERROR") then (Throw "TX_SUBMISSION_FAILED: Transaction submission failed", [signed_xdr data])
          else (Ok (s_hash response, s_status response), [signed_xdr data])
      end
  end.

(** The queue does not validate.  A fee bump, an unsigned transaction or one that
    invokes no contract is refused by submit and reaches the node through the
    queue. *)
Theorem queue_skips_validation data n e env :
  fromXDR (signed_xdr data) = Some env → parseAndValidateXdr fromXDR (signed_xdr data) = Throw e →
  snd (process data n) = [signed_xdr data].
Proof.
  intros Hp _. unfold process. rewrite Hp. destruct (node n) as [resp|]; [|done]. by case_bool_decide.
Qed.
End worker.
End Queue.

(** ** At concrete inputs *)

Module TxWitnesses.
Import Redis.Sample.

Definition invocation (x : string) : option Envelope := Some (Plain {| signatures := 1; operations := ["invokeHostFunction"] |}).
Definition answers (st : string) (n : nat) : result string SendResponse := Ok {| s_hash := "h"; s_status := st; s_errorResultXdr := None |}.
Definition fresh : txworld (R:=strings SubmitResult) := TxWorld (healthy []) [].
Definition result_of (st : string) : SubmitResult :=
  {| hash := "h"; status := st; errorCode := None; errorMessage := None; cached := false |}.

(** Two repeats, the second with another envelope. *)
Lemma submit_once_witness :
  let '(first, w) := submit invocation (λ _, None) (answers "PENDING") 0 10 {| signed_xdr := "A"; idempotency_key := Some "k" |} fresh in
  first = Ok (result_of "PENDING") ∧ sends w = ["A"] ∧
  fst (repeats invocation (λ _, None) (answers "PENDING") "k" [(20, 20, "A"); (600009, 600010, "B")] w) =
    [Ok (with_cached (result_of "PENDING")); Ok (with_cached (result_of "PENDING"))] ∧
  sends (snd (repeats invocation (λ _, None) (answers "PENDING") "k" [(20, 20, "A"); (600009, 600010, "B")] w)) = ["A"].
Proof.
  apply (submit_once invocation (λ _, None) (answers "PENDING") 0 10 "k" "A" []
           {| s_hash := "h"; s_status := "PENDING"; s_errorResultXdr := None |} ([] : strings SubmitResult)
           {| signatures := 1; operations := ["invokeHostFunction"] |} [(20, 20, "A"); (600009, 600010, "B")]);
    try reflexivity; try discriminate. repeat (constructor; [cbn; lia|]). constructor.
Defined.

(** The second command of the cache, the store of the result, fails: the key is sent again. *)
Example failed_store_sends_again :
  sends (snd (repeats invocation (λ _, None) (answers "PENDING") "k" [(0, 10, "A"); (20, 30, "A")]
                (TxWorld (R:=strings SubmitResult) (RWorld [] [false; true]) []))) = ["A"; "A"].
Proof. vm_compute. reflexivity. Qed.

Lemma try_again_later_sticks_witness :
  let w := snd (submit invocation (λ _, None) (answers "TRY_AGAIN_LATER") 0 10 {| signed_xdr := "A"; idempotency_key := Some "k" |} fresh) in
  Forall (λ o, ∃ v, o = Ok v ∧ status v = "TRY_AGAIN_LATER")
    (fst (repeats invocation (λ _, None) (answers "TRY_AGAIN_LATER") "k" [(5000, 5001, "A")] w)) ∧
  sends (snd (repeats invocation (λ _, None) (answers "TRY_AGAIN_LATER") "k" [(5000, 5001, "A")] w)) = ["A"].
Proof.
  apply (try_again_later_sticks invocation (λ _, None) (answers "TRY_AGAIN_LATER") 0 10 "k" "A" []
           {| s_hash := "h"; s_status := "TRY_AGAIN_LATER"; s_errorResultXdr := None |} ([] : strings SubmitResult)
           {| signatures := 1; operations := ["invokeHostFunction"] |} [(5000, 5001, "A")]);
    try reflexivity; try discriminate. repeat (constructor; [cbn; lia|]). constructor.
Defined.

(** A queue that numbers its jobs. *)
#[local] Instance numbered : Queue.TxQueue (list Queue.job) := {
  q_jobs q := q;
  q_add oi data q :=
    let i := default (String.concat "" ("j" :: (Queue.j_id <$> q))) oi in
    if bool_decide (i ∈ Queue.j_id <$> q) then Some (i, q)
    else Some (i, (q ++ [{| Queue.j_id := i; Queue.j_data := data; Queue.j_state := Queue.Waiting |}])%list) }.
#[local] Instance numbered_laws : Queue.TxQueueLaws (list Queue.job).
Proof.
  split. intros oi data q i q'. cbn. case_bool_decide; intros [= <- <-]; split; auto; by intros k ->.
Qed.

Definition keyed (x : string) : SubmitTxDto := {| signed_xdr := x; idempotency_key := Some "k" |}.

(** Two requests with one key: one job. *)
Lemma queue_bounded_witness :
  let q' := snd (Queue.enqueue 2 (keyed "B") (snd (Queue.enqueue 2 (keyed "A") []))) in
  (Queue.depth q' ≤ 2)%nat ∧ NoDup (Queue.j_id <$> q') ∧
  ∀ k x j, k ≠ "" → Queue.getJob ("idem:" +:+ k) q' = Some j → (Queue.depth q' < 2)%nat →
    Queue.enqueue 2 {| signed_xdr := x; idempotency_key := Some k |} q' = (Ok ("idem:" +:+ k), q').
Proof.
  refine (Queue.queue_bounded (Q:=list Queue.job) 2 [] (snd (Queue.enqueue 2 (keyed "B") (snd (Queue.enqueue 2 (keyed "A") [])))) _ _ _).
  - eapply rtc_l; [exact (Queue.requested 2 _ _ (keyed "A") eq_refl)|]. eapply rtc_l; [exact (Queue.requested 2 _ _ (keyed "B") eq_refl)|].
    apply rtc_refl.
  - cbn. lia.
  - constructor.
Defined.
End TxWitnesses.
