(* ===== verification/Sanitize.v ===== *)
(** * Sanitization of user content

    backend/src/claims/sanitization.service.ts: identifiers, free text and
    evidence URLs.  Each global regular expression is a matcher that consumes a
    match at the head of a text; the URL parser is a parameter.  Lengths are
    counted in bytes, which are the string's units on ASCII texts. *)

From stdpp Require Import base list strings.
From Stdlib Require Import ZArith Lia Ascii.
From S2P Require Import Prelude JsText.

Open Scope string_scope.
Open Scope Z_scope.

(** ** Global replacement *)

(** What follows a match at the head of a text. *)
Definition matcher := string → option string.

(** [s.replace(/m/g, '')]: one unit of fuel per character. *)
Fixpoint remove_all (fuel : nat) (m : matcher) (s : string) : string :=
  match fuel with
  | O => s
  | S fuel' =>
      match m s with
      | Some rest => remove_all fuel' m rest
      | None => match s with "" => "" | String c s' => String c (remove_all fuel' m s') end
      end
  end.
Definition replaceAll (m : matcher) (s : string) : string := remove_all (S (String.length s)) m s.

Definition is_word (c : ascii) : bool := is_digit c || is_lower c || is_upper c || bool_decide (c = "_"%char).

(** A literal, ignoring case. *)
Fixpoint lit (p s : string) : option string :=
  match p, s with
  | "", _ => Some s
  | String a p', String b s' => if bool_decide (lower_char a = lower_char b) then lit p' s' else None
  | String _ _, "" => None
  end.

(** Runs of word characters and of white space, maximal: what the patterns ask
    for next cannot begin inside them. *)
Fixpoint skip_word (s : string) : string :=
  match s with String c s' => if is_word c then skip_word s' else s | "" => "" end.
Fixpoint skip_space (s : string) : string :=
  match s with String c s' => if is_ws c then skip_space s' else s | "" => "" end.

(** What follows the first closing tag. *)
Fixpoint after_close (s : string) : option string :=
  match lit "</script>" s with
  | Some rest => Some rest
  | None => match s with String _ s' => after_close s' | "" => None end
  end.

Definition starts_word (s : string) : bool := match s with String c _ => is_word c | "" => false end.

(** An opening script tag at a word boundary, up to the first closing tag: the
    loop of the pattern cannot step over a closing tag. *)
Definition script_tag : matcher := λ s,
  match lit "<script" s with
  | Some r => if starts_word r then None else after_close r
  | None => None
  end.

(** An event handler attribute: on, a word, white space, an equals sign. *)
Definition handler : matcher := λ s,
  match lit "on" s with
  | Some r => if starts_word r then match skip_space (skip_word r) with String "=" rest => Some rest | _ => None end else None
  | None => None
  end.

(** <svg, white space, onload. *)
Definition svg_onload : matcher := λ s,
  match lit "<svg" s with
  | Some (String c r) => if is_ws c then lit "onload" (skip_space r) else None
  | _ => None
  end.

(** Models [xssPatterns] (backend/src/claims/sanitization.service.ts:53-64). *)
Definition xssPatterns : list matcher :=
  [script_tag; lit "javascript:"; handler; lit "<iframe"; lit "<object"; lit "<embed"; lit "<link"; lit "<meta"; svg_onload; lit "data:"].

Definition strip (s : string) : string := foldl (λ s m, replaceAll m s) s xssPatterns.

(** ** Texts *)

Definition dq : ascii := "034".

Definition entity (c : ascii) : option string :=
  if bool_decide (c = "&"%char) then Some "&amp;" else
  if bool_decide (c = "<"%char) then Some "&lt;" else
  if bool_decide (c = ">"%char) then Some "&gt;" else
  if bool_decide (c = dq) then Some "&quot;" else
  if bool_decide (c = "'"%char) then Some "&#39;" else
  if bool_decide (c = "/"%char) then Some "&#x2F;" else
  if bool_decide (c = "`"%char) then Some "&#x60;" else
  if bool_decide (c = "="%char) then Some "&#x3D;" else None.

(** Models [encodeHtmlEntities] (backend/src/claims/sanitization.service.ts:130-143). *)
Fixpoint encodeHtmlEntities (text : string) : string :=
  match text with
  | "" => ""
  | String c t => match entity c with Some e => e +:+ encodeHtmlEntities t | None => String c (encodeHtmlEntities t) end
  end.

Definition MAX_DESCRIPTION : nat := Z.to_nat 5000.

(** Models [sanitizeDescription] (backend/src/claims/sanitization.service.ts:106-125). *)
Definition sanitizeDescription (description : string) : string :=
  str_take MAX_DESCRIPTION (trim (encodeHtmlEntities (strip description))).

(** Models [sanitizeString] (backend/src/claims/sanitization.service.ts:198-210). *)
Definition sanitizeString (input : string) : string := trim (encodeHtmlEntities (strip input)).

(** ** Identifiers *)

Definition is_letter (c : ascii) : bool := is_lower c || is_upper c.
(** The class of version 0 identifiers, ignoring case. *)
Definition base58_ci (c : ascii) : bool := in_range "1" "9" c || is_letter c.
Definition is_alnum (c : ascii) : bool := is_digit c || is_letter c.
Definition ci (a : ascii) : ascii → bool := λ c, bool_decide (lower_char c = lower_char a).

(** [/^Qm[1-9A-HJ-NP-Za-km-z]{44}$|^[a-z0-9]{59}$/i] *)
Definition ipfsHashPattern (s : string) : bool :=
  matches_classes (ci "Q" :: ci "m" :: replicate 44 base58_ci) s || matches_classes (replicate 59 is_alnum) s.

(** Models [sanitizeIpfsHash] (backend/src/claims/sanitization.service.ts:69-83). *)
Definition sanitizeIpfsHash (hash : string) : string :=
  let trimmed := trim hash in if ipfsHashPattern trimmed then trimmed else "".

(** Models [sanitizeWalletAddress] (backend/src/claims/sanitization.service.ts:88-101). *)
Definition sanitizeWalletAddress (address : string) : string :=
  let trimmed := toUpperCase (trim address) in
  if matches_classes (ci "G" :: replicate 55 is_alnum) trimmed then trimmed else "".

(** ** Evidence URLs *)

Definition DEFAULT_ALLOWED_GATEWAYS : list string :=
  ["ipfs.io"; "cloudflare-ipfs.com"; "gateway.pinata.cloud"; "dweb.link"; "nftstorage.link"].

(** Models [SanitizationService.constructor] (backend/src/claims/sanitization.service.ts:35-44). *)
Definition allowedDomains (ALLOWED_IPFS_GATEWAYS : option string) : list string :=
  let configured := List.filter (λ s, negb (bool_decide (s = ""))) ((λ s, toLowerCase (trim s)) <$> split "," (default "" ALLOWED_IPFS_GATEWAYS)) in
  if bool_decide (configured = []) then DEFAULT_ALLOWED_GATEWAYS else configured.

Definition octet_in (lo hi : Z) (s : string) : bool :=
  match cut "." s with
  | Some (p, _) => existsb (λ n, bool_decide (p = show_Z n)) (seqZ lo (hi - lo + 1))
  | None => false
  end.
Definition after (p s : string) : option string := if startsWith s p then Some (str_drop (String.length p) s) else None.

(** Models [PRIVATE_IP_PATTERNS] (backend/src/claims/sanitization.service.ts:8-20). *)
Definition isPrivateHost (h : string) : bool :=
  startsWith h "127." || startsWith h "10." ||
  match after "172." h with Some r => octet_in 16 31 r | None => false end ||
  startsWith h "192.168." || startsWith h "169.254." || bool_decide (h = "::1") ||
  startsWith (toLowerCase h) "fc00:" || startsWith (toLowerCase h) "fe80:" || startsWith h "0." ||
  match after "100." h with Some r => octet_in 64 127 r | None => false end ||
  bool_decide (toLowerCase h = "localhost").

Record Url := { protocol : string; hostname : string; href : string }.

(** Models [sanitizeEvidenceUrl] (backend/src/claims/sanitization.service.ts:159-193). *)
Definition sanitizeEvidenceUrl (parse : string → option Url) (gateways : list string) (url : string) : string :=
  if bool_decide (url = "") then "" else
  match parse url with
  | None => ""
  | Some parsed =>
      if negb (bool_decide (protocol parsed = "https:")) then "" else
      let h := toLowerCase (hostname parsed) in
      if isPrivateHost h then "" else
      if bool_decide (h ∈ gateways) || endsWith h ".ipfs.dweb.link" || endsWith h ".ipfs.hashlock.dev" then href parsed else ""
  end.

(** The tests of the repository. *)
Example strips_script : sanitizeString "a<SCRIPT>x<b></script>b" = "ab".
Proof. vm_compute. reflexivity. Qed.
Example strips_handler : sanitizeString "x onclick = y" = "x  y".
Proof. vm_compute. reflexivity. Qed.
Example script_needs_boundary : sanitizeString "<scripts></script>" = "&lt;scripts&gt;&lt;&#x2F;script&gt;".
Proof. vm_compute. reflexivity. Qed.
Example private_range : isPrivateHost "172.31.9.9" = true ∧ isPrivateHost "172.32.0.1" = false ∧ isPrivateHost "100.127.0.1" = true.
Proof. vm_compute. done. Qed.

(** ** The matchers *)

Definition consumes (m : matcher) : Prop := ∀ s r, m s = Some r → (String.length r < String.length s)%nat.
(** A match of [m] holds a character that satisfies [p]. *)
Definition needs (p : ascii → bool) (m : matcher) : Prop := ∀ s r, m s = Some r → str_forall (λ c, negb (p c)) s = false.

Lemma lit_length p s r : lit p s = Some r → String.length s = (String.length p + String.length r)%nat.
Proof.
  revert s. induction p as [|a p IH]; intros s; [by intros [= ->]|]. destruct s as [|b s]; [done|]. cbn.
  case_bool_decide; [|done]. intros Hr. by rewrite (IH _ Hr).
Qed.

Lemma lit_needs (q : ascii → bool) p s r :
  lit p s = Some r → str_forall (λ c, negb (q c)) (toLowerCase p) = false →
  (∀ c, q (lower_char c) = q c) → str_forall (λ c, negb (q c)) s = false.
Proof.
  intros Hl Hp Hq. revert s Hl Hp. induction p as [|a p IH]; intros s; [done|]. destruct s as [|b s]; [done|]. cbn.
  case_bool_decide as E; [|done]. intros Hl Hp. rewrite E, Hq in Hp. destruct (q b); cbn in *; [done|]. by eapply IH.
Qed.

Lemma skip_word_length s : (String.length (skip_word s) ≤ String.length s)%nat.
Proof. induction s as [|c s IH]; cbn; [done|]. destruct (is_word c); cbn; lia. Qed.
Lemma skip_space_length s : (String.length (skip_space s) ≤ String.length s)%nat.
Proof. induction s as [|c s IH]; cbn; [done|]. destruct (is_ws c); cbn; lia. Qed.

Lemma after_close_length s r : after_close s = Some r → (String.length r < String.length s)%nat.
Proof.
  induction s as [|c s IH]; [done|]. cbn [after_close]. destruct (lit "</script>" (String c s)) as [r'|] eqn:E.
  - intros [= ->]. apply lit_length in E. rewrite E. change (String.length "</script>") with 9%nat. lia.
  - intros H. apply IH in H. cbn. lia.
Qed.

Lemma lit_consumes p : p ≠ "" → consumes (lit p).
Proof. intros Hp s r Hl. apply lit_length in Hl. rewrite Hl. destruct p; [done|]. cbn. lia. Qed.

Lemma script_consumes : consumes script_tag.
Proof.
  intros s r. unfold script_tag. destruct (lit "<script" s) as [r'|] eqn:E; [|done]. destruct (starts_word r'); [done|].
  intros H%after_close_length. apply lit_length in E. rewrite E. lia.
Qed.

Lemma handler_inv s r : handler s = Some r →
  ∃ r', lit "on" s = Some r' ∧ skip_space (skip_word r') = String "=" r.
Proof.
  unfold handler. destruct (lit "on" s) as [r'|]; [|done]. destruct (starts_word r'); [|done].
  destruct (skip_space (skip_word r')) as [|c t] eqn:E; [done|]. intros H. exists r'. split; [done|]. rewrite E.
  destruct (decide (c = "="%char)) as [->|Hc]; [by injection H as ->|].
  destruct c as [[] [] [] [] [] [] [] []]; (discriminate H || by destruct Hc).
Qed.

Lemma handler_consumes : consumes handler.
Proof.
  intros s r (r' & Hl & E)%handler_inv. apply lit_length in Hl. rewrite Hl.
  pose proof (skip_word_length r'). pose proof (skip_space_length (skip_word r')) as H2. rewrite E in H2. cbn in *. lia.
Qed.

Lemma svg_consumes : consumes svg_onload.
Proof.
  intros s r. unfold svg_onload. destruct (lit "<svg" s) as [[|c t]|] eqn:E; [done| |done]. destruct (is_ws c); [|done].
  intros H. apply lit_length in H, E. rewrite E. pose proof (skip_space_length t). cbn in *. lia.
Qed.

Lemma xss_consume : Forall consumes xssPatterns.
Proof. repeat constructor; auto using script_consumes, handler_consumes, svg_consumes; by apply lit_consumes. Qed.

(** Enough fuel gives the result, and the result is that of the loop. *)
Lemma remove_all_fuel m s f g :
  consumes m → (String.length s < f)%nat → (String.length s < g)%nat → remove_all f m s = remove_all g m s.
Proof.
  intros Hm. revert s g. induction f as [|f IH]; intros s g Hf Hg; [lia|]. destruct g as [|g]; [lia|]. cbn [remove_all].
  destruct (m s) as [r|] eqn:E; [apply Hm in E; apply IH; lia|]. destruct s as [|c s]; [done|]. f_equal. cbn in *. apply IH; lia.
Qed.

Lemma replaceAll_eq m s : consumes m →
  replaceAll m s =
  match m s with
  | Some rest => replaceAll m rest
  | None => match s with "" => "" | String c s' => String c (replaceAll m s') end
  end.
Proof.
  intros Hm. unfold replaceAll at 1. cbn [remove_all]. destruct (m s) as [r|] eqn:E; [apply Hm in E; apply remove_all_fuel; [done|lia..]|].
  by destruct s.
Qed.

(** A text without the character a match needs is left alone. *)
Lemma replaceAll_id p m s : needs p m → str_forall (λ c, negb (p c)) s = true → replaceAll m s = s.
Proof.
  intros Hn. unfold replaceAll. generalize (S (String.length s)). intros f. revert s.
  induction f as [|f IH]; intros s Hs; [done|]. cbn [remove_all]. destruct (m s) as [r|] eqn:E; [apply Hn in E; congruence|].
  destruct s as [|c s]; [done|]. cbn in Hs. apply andb_true_iff in Hs as [_ Hs]. by rewrite IH.
Qed.

Definition angle (c : ascii) : bool := bool_decide (c = "<"%char).
Definition colon (c : ascii) : bool := bool_decide (c = ":"%char).
Definition equals (c : ascii) : bool := bool_decide (c = "="%char).

Lemma lower_fixes (q : ascii → bool) : q = angle ∨ q = colon ∨ q = equals → ∀ c, q (lower_char c) = q c.
Proof. intros [->|[->| ->]] c; by destruct c as [[] [] [] [] [] [] [] []]. Qed.

Lemma str_forall_skip_word q s : str_forall q s = true → str_forall q (skip_word s) = true.
Proof. induction s as [|c s IH]; cbn; [done|]. intros [Hc Hs]%andb_true_iff. destruct (is_word c); cbn; [auto|by rewrite Hc, Hs]. Qed.
Lemma str_forall_skip_space q s : str_forall q s = true → str_forall q (skip_space s) = true.
Proof. induction s as [|c s IH]; cbn; [done|]. intros [Hc Hs]%andb_true_iff. destruct (is_ws c); cbn; [auto|by rewrite Hc, Hs]. Qed.
Lemma str_forall_lit q p s r : lit p s = Some r → str_forall q s = true → str_forall q r = true.
Proof.
  revert s. induction p as [|a p IH]; intros s; [by intros [= ->]|]. destruct s as [|b s]; [done|]. cbn.
  case_bool_decide; [|done]. intros Hl [_ Hs]%andb_true_iff. eauto.
Qed.

Lemma lit_needs_of (q : ascii → bool) p :
  q = angle ∨ q = colon ∨ q = equals → str_forall (λ c, negb (q c)) (toLowerCase p) = false → needs q (lit p).
Proof. intros Hq Hp s r Hl. eapply lit_needs; [exact Hl|exact Hp|by apply lower_fixes]. Qed.

Lemma script_needs : needs angle script_tag.
Proof.
  intros s r. unfold script_tag. destruct (lit "<script" s) eqn:E; [|done]. intros _.
  eapply lit_needs; [exact E|reflexivity|apply lower_fixes; auto].
Qed.
Lemma svg_needs : needs angle svg_onload.
Proof.
  intros s r. unfold svg_onload. destruct (lit "<svg" s) eqn:E; [|done]. intros _.
  eapply lit_needs; [exact E|reflexivity|apply lower_fixes; auto].
Qed.
Lemma handler_needs : needs equals handler.
Proof.
  intros s r (r' & Hl & E)%handler_inv. apply not_true_is_false. intros Hs.
  apply (str_forall_lit _ _ _ _ Hl) in Hs. apply str_forall_skip_word, str_forall_skip_space in Hs. rewrite E in Hs. done.
Qed.

(** ** What comes out *)

(** The characters that can open or close markup, quote an attribute or end one. *)
Definition markup (c : ascii) : bool :=
  angle c || bool_decide (c = ">"%char) || bool_decide (c = dq) || bool_decide (c = "'"%char) || bool_decide (c = "/"%char) ||
  bool_decide (c = "`"%char) || equals c.
Definition safe (s : string) : bool := str_forall (λ c, negb (markup c)) s.

Lemma entity_safe c e : entity c = Some e → safe e = true.
Proof. unfold entity. repeat case_bool_decide; by intros [= <-]. Qed.
Lemma no_entity_safe c : entity c = None → markup c = false.
Proof. unfold entity, markup, angle, equals. by repeat case_bool_decide. Qed.

Lemma encode_safe s : safe (encodeHtmlEntities s) = true.
Proof.
  induction s as [|c s IH]; [done|]. cbn [encodeHtmlEntities]. destruct (entity c) as [e|] eqn:E.
  - unfold safe in *. rewrite str_forall_app, IH, andb_true_r. exact (entity_safe c e E).
  - cbn. by rewrite (no_entity_safe c E).
Qed.

Lemma str_forall_trim q s : str_forall q s = true → str_forall q (trim s) = true.
Proof.
  intros Hs. unfold trim. assert (str_forall q (trimStart s) = true) as H.
  { induction s as [|c s IH]; [done|]. cbn in *. apply andb_true_iff in Hs as [Hc Hs]. destruct (is_ws c); [auto|]. cbn. by rewrite Hc. }
  revert H. generalize (trimStart s). intros t. induction t as [|c t IH]; [done|]. cbn. intros [Hc Ht]%andb_true_iff.
  specialize (IH Ht). destruct (trimEnd t); [destruct (is_ws c); cbn; by rewrite ?Hc|]. cbn in *. by rewrite Hc.
Qed.

Lemma str_forall_take q n s : str_forall q s = true → str_forall q (str_take n s) = true.
Proof.
  revert n. induction s as [|c s IH]; intros [|n]; try done. cbn. intros [Hc Hs]%andb_true_iff. by rewrite Hc, IH.
Qed.

Lemma description_length s : str_len (str_take MAX_DESCRIPTION s) ≤ 5000.
Proof.
  assert (Z.of_nat MAX_DESCRIPTION = 5000) as Hn by (unfold MAX_DESCRIPTION; by rewrite Z2Nat.id).
  unfold str_len. rewrite length_str_take. revert Hn. generalize MAX_DESCRIPTION. lia.
Qed.

(** The limit is never computed: conversion unfolds the functions around it first. *)
Strategy expand [sanitizeDescription sanitizeString].
Strategy opaque [MAX_DESCRIPTION].

Lemma safe_trim s : safe s = true → safe (trim s) = true.
Proof. apply str_forall_trim. Qed.
Lemma safe_take n s : safe s = true → safe (str_take n s) = true.
Proof. apply str_forall_take. Qed.
Lemma sanitizeDescription_eq s : sanitizeDescription s = str_take MAX_DESCRIPTION (sanitizeString s).
Proof. reflexivity. Qed.

(** Sanitized text opens no markup.  Whatever the input, no angle bracket, quote,
    back quote, slash or equals sign is left, and a description has at most 5000
    characters. *)
Theorem sanitized_text_safe input :
  safe (sanitizeString input) = true ∧ safe (sanitizeDescription input) = true ∧
  str_len (sanitizeDescription input) ≤ 5000.
Proof.
  rewrite sanitizeDescription_eq. split_and!.
  - apply safe_trim, encode_safe.
  - apply safe_take, safe_trim, encode_safe.
  - apply description_length.
Qed.

Lemma entity_nonempty c : entity c ≠ Some "".
Proof. unfold entity. by repeat case_bool_decide. Qed.

(** The text a browser shows for an encoded one. *)
Definition entities : list (string * ascii) :=
  [("&amp;", "&"%char); ("&lt;", "<"%char); ("&gt;", ">"%char); ("&quot;", dq); ("&#39;", "'"%char); ("&#x2F;", "/"%char);
   ("&#x60;", "`"%char); ("&#x3D;", "="%char)].
Fixpoint decode_html (fuel : nat) (s : string) : string :=
  match fuel, s with
  | S fuel', String c s' =>
      match List.find (λ e, startsWith s e.1) entities with
      | Some (e, c') => String c' (decode_html fuel' (str_drop (String.length e) s))
      | None => String c (decode_html fuel' s')
      end
  | _, _ => ""
  end.

Lemma decode_entity c e f t : entity c = Some e → decode_html (S f) (e +:+ t) = String c (decode_html f t).
Proof.
  unfold entity. repeat case_bool_decide; intros [= <-]; subst.
  all: rewrite !str_app_cons, str_app_nil_l; cbn [decode_html]; unfold entities, startsWith; cbn [List.find fst];
    repeat first [rewrite prefix_cons | rewrite prefix_nil | rewrite prefix_ne by discriminate]; reflexivity.
Qed.

Lemma decode_plain c f t : entity c = None → decode_html (S f) (String c t) = String c (decode_html f t).
Proof.
  intros Hc. assert (c ≠ "&"%char) as Hne by (intros ->; done). cbn [decode_html]. unfold entities, startsWith.
  cbn [List.find fst]. by repeat (rewrite prefix_ne by done).
Qed.

(** What is shown is what was left.  A browser that decodes the encoded text shows
    exactly the text that was encoded. *)
Theorem encode_roundtrip s f : (String.length (encodeHtmlEntities s) ≤ f)%nat → decode_html f (encodeHtmlEntities s) = s.
Proof.
  revert f. induction s as [|c s IH]; intros f Hf; [by destruct f|]. cbn [encodeHtmlEntities] in *.
  destruct (entity c) as [e|] eqn:E.
  - rewrite length_string_app in Hf. assert (String.length e ≠ 0)%nat by (intros H0; destruct e; [by destruct (entity_nonempty c)|done]).
    destruct f as [|f]; [lia|]. rewrite (decode_entity c) by done. rewrite IH by lia. done.
  - destruct f as [|f]; [cbn in Hf; lia|]. rewrite decode_plain by done. rewrite IH; [done|cbn in Hf; lia].
Qed.

(** ** Texts without markup *)

Definition plain_text (s : string) : bool := str_forall (λ c, negb (markup c || bool_decide (c = "&"%char) || colon c)) s.

Lemma plain_avoids q s : q = angle ∨ q = colon ∨ q = equals → plain_text s = true → str_forall (λ c, negb (q c)) s = true.
Proof.
  intros Hq. apply str_forall_impl. intros c. unfold markup. destruct Hq as [->|[->| ->]]; unfold angle, colon, equals;
    repeat case_bool_decide; cbn; done.
Qed.

Lemma xss_need : Forall (λ m, needs angle m ∨ needs colon m ∨ needs equals m) xssPatterns.
Proof.
  unfold xssPatterns. repeat (apply Forall_cons; split).
  all: first [exact I | left; exact script_needs | left; exact svg_needs | right; right; exact handler_needs
             | left; apply lit_needs_of; [by auto|reflexivity] | right; left; apply lit_needs_of; [by auto|reflexivity]].
Qed.

Lemma strip_plain s : plain_text s = true → strip s = s.
Proof.
  intros Hs. unfold strip. pose proof xss_need as Hx. induction xssPatterns as [|m l IH]; [done|].
  apply Forall_cons in Hx as [Hm Hl]. cbn [foldl].
  assert (replaceAll m s = s) as ->; [|by apply IH].
  destruct Hm as [Hm|[Hm|Hm]]; (eapply replaceAll_id; [exact Hm|apply plain_avoids; auto]).
Qed.

Lemma encode_plain s : plain_text s = true → encodeHtmlEntities s = s.
Proof.
  unfold plain_text. induction s as [|c s IH]; [done|]. cbn [str_forall encodeHtmlEntities]. intros [Hc Hs]%andb_true_iff.
  rewrite IH by done. assert (entity c = None) as ->; [|done]. revert Hc. unfold entity, markup, angle, equals.
  by repeat case_bool_decide.
Qed.

(** Text without markup is kept: without angle brackets, quotes, back quotes,
    slashes, equals signs, ampersands and colons a text only loses the white
    space at its ends, and what is past 5000 characters. *)
Theorem plain_text_kept s :
  plain_text s = true → sanitizeString s = trim s ∧ sanitizeDescription s = str_take MAX_DESCRIPTION (trim s).
Proof. intros Hs. unfold sanitizeString, sanitizeDescription. by rewrite strip_plain, encode_plain. Qed.

Lemma replaceAll_cons m c s : consumes m → m (String c s) = None → replaceAll m (String c s) = String c (replaceAll m s).
Proof. intros Hm E. rewrite replaceAll_eq by done. by rewrite E. Qed.
Lemma replaceAll_match m s r : consumes m → m s = Some r → replaceAll m s = replaceAll m r.
Proof. intros Hm E. rewrite replaceAll_eq by done. by rewrite E. Qed.

Lemma plain_replace m s : m ∈ xssPatterns → plain_text s = true → replaceAll m s = s.
Proof.
  intros Hm Hs. pose proof xss_need as Hx. rewrite Forall_forall in Hx.
  destruct (Hx m Hm) as [Hn|[Hn|Hn]]; (eapply replaceAll_id; [exact Hn|apply plain_avoids; auto]).
Qed.

(** A scheme name and a colon before a plain text. *)
Lemma scheme_avoids (q : ascii → bool) a t :
  q = angle ∨ q = equals → str_forall (λ c, negb (q c)) a = true → plain_text t = true → str_forall (λ c, negb (q c)) (a +:+ t) = true.
Proof. intros Hq Ha Ht. rewrite str_forall_app, Ha. apply plain_avoids; [naive_solver|done]. Qed.

(** The removal can produce what it removes: the parts of the scheme around a
    removed one join, and the result is not looked at again. *)
Theorem removal_reassembles t :
  plain_text t = true → sanitizeString ("javajavascript:script:" +:+ t) = trim ("javascript:" +:+ t).
Proof.
  intros Ht. unfold sanitizeString. assert (strip ("javajavascript:script:" +:+ t) = "javascript:" +:+ t) as ->.
  - assert (∀ m a, needs angle m ∨ needs equals m → str_forall (λ c, negb (angle c || equals c)) a = true →
              replaceAll m (a +:+ t) = a +:+ t) as Hid.
    { intros m a Hm Ha. destruct Hm as [Hm|Hm]; (eapply replaceAll_id; [exact Hm|]); (apply scheme_avoids; [by auto| |done]);
        (eapply str_forall_impl; [|exact Ha]); intros c; cbv beta; by destruct (angle c), (equals c). }
    unfold strip, xssPatterns. cbn [foldl].
    rewrite (Hid script_tag) by (auto using script_needs).
    assert (replaceAll (lit "javascript:") ("javajavascript:script:" +:+ t) = "javascript:" +:+ t) as ->.
    { rewrite !str_app_cons, !str_app_nil_l. do 4 rewrite replaceAll_cons by (by apply lit_consumes) || reflexivity.
      erewrite replaceAll_match by (by apply lit_consumes) || reflexivity.
      do 7 rewrite replaceAll_cons by (by apply lit_consumes) || reflexivity.
      rewrite plain_replace; [done|unfold xssPatterns; right; left|done]. }
    rewrite (Hid handler) by (auto using handler_needs).
    repeat (match goal with |- context [replaceAll (lit ?p) _] => rewrite (Hid (lit p)) by
      first [left; apply lit_needs_of; [by auto|reflexivity] | reflexivity] end).
    rewrite (Hid svg_onload) by (auto using svg_needs).
    rewrite !str_app_cons, !str_app_nil_l. do 11 rewrite replaceAll_cons by (by apply lit_consumes) || reflexivity.
    rewrite plain_replace; [done|unfold xssPatterns; do 9 right; left|done].
  - f_equal. rewrite !str_app_cons, !str_app_nil_l. cbn [encodeHtmlEntities]. by rewrite encode_plain.
Qed.

(** ** Identifiers and URLs *)

Lemma trim_clean s : str_forall (λ c, negb (is_ws c)) s = true → trim s = s.
Proof. intros H. unfold trim. rewrite trimStart_clean by done. by apply trimEnd_clean. Qed.

Lemma alnum_not_ws c : is_alnum c = true → negb (is_ws c) = true.
Proof. by destruct c as [[] [] [] [] [] [] [] []]. Qed.

Lemma toUpperCase_idem s : toUpperCase (toUpperCase s) = toUpperCase s.
Proof.
  unfold toUpperCase. induction s as [|c s IH]; [done|]. cbn [str_map]. rewrite IH. f_equal.
  by destruct c as [[] [] [] [] [] [] [] []].
Qed.

Lemma upper_alnum s : str_forall is_alnum (toUpperCase s) = true → str_forall (λ c, is_digit c || is_upper c) (toUpperCase s) = true.
Proof.
  unfold toUpperCase. induction s as [|c s IH]; [done|]. cbn [str_map str_forall]. intros [Hc Hs]%andb_true_iff.
  rewrite IH by done. revert Hc. by destruct c as [[] [] [] [] [] [] [] []].
Qed.

Lemma wallet_pattern s : matches_classes (ci "G" :: replicate 55 is_alnum) s = true →
  String.length s = 56%nat ∧ str_forall is_alnum s = true.
Proof.
  destruct s as [|c s]; [done|]. cbn [matches_classes]. rewrite matches_classes_replicate. intros [Hc [Hl Hs]%andb_true_iff]%andb_true_iff.
  bool_prop. cbn. split; [by rewrite Hl|]. rewrite Hs, andb_true_r. revert Hc. unfold ci. rewrite bool_decide_eq_true.
  by destruct c as [[] [] [] [] [] [] [] []].
Qed.

Lemma wallet_forms a :
  sanitizeWalletAddress a = "" ∨ (sanitizeWalletAddress a = toUpperCase (trim a) ∧
    matches_classes (ci "G" :: replicate 55 is_alnum) (toUpperCase (trim a)) = true).
Proof. unfold sanitizeWalletAddress. destruct (matches_classes _ _); auto. Qed.

Lemma wallet_idem a : sanitizeWalletAddress (sanitizeWalletAddress a) = sanitizeWalletAddress a.
Proof.
  destruct (wallet_forms a) as [->|[-> E]]; [done|]. destruct (wallet_pattern _ E) as [_ Ha]. unfold sanitizeWalletAddress.
  rewrite trim_clean by (eapply str_forall_impl; [exact alnum_not_ws|exact Ha]). by rewrite toUpperCase_idem, E.
Qed.

(** Addresses have one form.  A sanitized address is empty or 56 capitals and
    digits, and sanitizing again changes nothing. *)
Theorem wallet_canonical a :
  let s := sanitizeWalletAddress a in
  (s = "" ∨ String.length s = 56%nat ∧ str_forall (λ c, is_digit c || is_upper c) s = true) ∧ sanitizeWalletAddress s = s.
Proof.
  intros s. split; [|apply wallet_idem]. unfold s. destruct (wallet_forms a) as [->|[-> E]]; [by left|].
  destruct (wallet_pattern _ E) as [Hl Ha]. right. split; [done|by apply upper_alnum].
Qed.

(** An evidence URL that passes points to an allowed gateway over https. *)
Theorem evidence_url_allowed parse gateways url r :
  sanitizeEvidenceUrl parse gateways url = r → r ≠ "" →
  ∃ u, parse url = Some u ∧ r = href u ∧ protocol u = "https:" ∧ isPrivateHost (toLowerCase (hostname u)) = false ∧
    ((toLowerCase (hostname u) ∈ gateways) ∨ (∃ sub, toLowerCase (hostname u) = sub +:+ ".ipfs.dweb.link") ∨
     ∃ sub, toLowerCase (hostname u) = sub +:+ ".ipfs.hashlock.dev").
Proof.
  unfold sanitizeEvidenceUrl. case_bool_decide; [by intros <-|]. destruct (parse url) as [u|]; [|by intros <-].
  case_bool_decide as Hp; cbn [negb]; [|by intros <-]. destruct (isPrivateHost _) eqn:Hpr; [by intros <-|].
  destruct (_ || _) eqn:Ha; [|by intros <-]. intros <- _. exists u. split_and!; [done..|].
  apply orb_true_iff in Ha as [[Ha|Ha]%orb_true_iff|Ha].
  - left. by apply bool_decide_eq_true in Ha.
  - right; left. by apply endsWith_iff.
  - right; right. by apply endsWith_iff.
Qed.

Lemma ci_folds a c : ci a (lower_char c) = ci a c.
Proof. unfold ci. apply bool_decide_ext. by destruct c as [[] [] [] [] [] [] [] []]. Qed.
Lemma base58_folds c : base58_ci (lower_char c) = base58_ci c.
Proof. by destruct c as [[] [] [] [] [] [] [] []]. Qed.
Lemma alnum_folds c : is_alnum (lower_char c) = is_alnum c.
Proof. by destruct c as [[] [] [] [] [] [] [] []]. Qed.

(** The identifier pattern ignores case, though version 0 identifiers do not: the
    same letters in another case, an identifier of something else or of nothing,
    pass as well. *)
Theorem hash_pattern_ignores_case s t : toLowerCase s = toLowerCase t → ipfsHashPattern s = ipfsHashPattern t.
Proof.
  assert (∀ cs, Forall (λ p, ∀ c, p (lower_char c) = p c) cs → ∀ s, matches_classes cs (toLowerCase s) = matches_classes cs s) as Hm.
  { induction 1 as [|p cs Hp _ IH]; intros [|c s']; try done. cbn. by rewrite Hp, IH. }
  assert (Forall (λ p, ∀ c, p (lower_char c) = p c) (ci "Q" :: ci "m" :: replicate 44 base58_ci)) as F1
    by (apply Forall_cons_2, Forall_cons_2, Forall_replicate; auto using ci_folds, base58_folds).
  assert (Forall (λ p, ∀ c, p (lower_char c) = p c) (replicate 59 is_alnum)) as F2
    by (apply Forall_replicate; auto using alnum_folds).
  intros E. unfold ipfsHashPattern. by rewrite <- (Hm _ F1 s), <- (Hm _ F2 s), E, (Hm _ F1 t), (Hm _ F2 t).
Qed.

Module SanitizeWitnesses.

Lemma plain_text_kept_witness : plain_text "  water damage in room 2 " = true ∧ sanitizeString "  water damage in room 2 " = "water damage in room 2".
Proof. split; [reflexivity|]. exact (proj1 (plain_text_kept "  water damage in room 2 " eq_refl)). Defined.

Lemma removal_reassembles_witness : sanitizeString "javajavascript:script:alert" = "javascript:alert".
Proof. exact (removal_reassembles "alert" eq_refl). Defined.

Definition parse (s : string) : option Url := Some {| protocol := "https:"; hostname := "x.ipfs.dweb.link"; href := s |}.
Lemma evidence_url_allowed_witness :
  ∃ u, parse "https://x.ipfs.dweb.link/" = Some u ∧ "https://x.ipfs.dweb.link/" = href u ∧ protocol u = "https:" ∧
    isPrivateHost (toLowerCase (hostname u)) = false ∧
    ((toLowerCase (hostname u) ∈ DEFAULT_ALLOWED_GATEWAYS) ∨ (∃ sub, toLowerCase (hostname u) = sub +:+ ".ipfs.dweb.link") ∨
     ∃ sub, toLowerCase (hostname u) = sub +:+ ".ipfs.hashlock.dev").
Proof.
  apply (evidence_url_allowed parse DEFAULT_ALLOWED_GATEWAYS "https://x.ipfs.dweb.link/" "https://x.ipfs.dweb.link/"); [reflexivity|discriminate].
Defined.

Lemma hash_pattern_ignores_case_witness :
  ipfsHashPattern "QmXoypizjW3WknFiJnKLwHCnL72vedxjQkDDP1mXWo6uco" = ipfsHashPattern "qmxoypizjw3wknfijnklwhcnl72vedxjqkddp1mxwo6uco".
Proof. apply (hash_pattern_ignores_case "QmXoypizjW3WknFiJnKLwHCnL72vedxjQkDDP1mXWo6uco"). reflexivity. Defined.
End SanitizeWitnesses.
