(* ===== verification/ClaimView.v ===== *)
(** * The view of a claim

    backend/src/claims/claim-view.mapper.ts: the detail response computed from a
    stored claim, its votes and the last indexed ledger. *)

From stdpp Require Import base list strings.
From Stdlib Require Import ZArith Lia Ascii.
From S2P Require Import Prelude JsText Sanitize.

Open Scope string_scope.
Open Scope Z_scope.

Definition VOTE_WINDOW_LEDGERS : Z := 120960.
Definition DISPUTE_WINDOW_LEDGERS : Z := 10080.
Definition SECONDS_PER_LEDGER : Z := 5.
Definition maxAcceptableLag : Z := 5.

Record EvidenceMetadata := { m_cid : string; m_fileSizeBytes : Z; m_mimeType : string }.

(** Models [ClaimWithVotes] (backend/src/claims/claim-view.mapper.ts:20-25). *)
Record ClaimWithVotes := {
  id : Z; policyId : string; creatorAddress : string; status : string; amount : string; description : option string;
  imageUrls : list string; createdAtLedger : Z; updatedAtLedger : Z; createdAt : Z; updatedAt : Z; isFinalized : bool;
  votes : list string; evidenceMetadata : option EvidenceMetadata }.

Record Aggregation := { a_quorum_progress_pct : Z; a_votes_needed : Z; a_deadline_estimate_utc : string }.

(** The parts of the response (dto/claim.dto.ts). *)
Record Metadata := {
  v_id : Z; v_policyId : string; v_creatorAddress : string; v_status : string; v_amount : string;
  v_description : option string; v_evidenceHash : string; v_createdAtLedger : Z; v_createdAt : Z; v_updatedAt : Z }.
Record Tallies := { yesVotes : Z; noVotes : Z; totalVotes : Z }.
Record Quorum := {
  required : Z; current : Z; percentage : Z; reached : bool; quorum_progress_pct : Z; votes_needed : Z }.
Record Deadline := {
  votingDeadlineLedger : Z; votingDeadlineTime : Z; isOpen : bool; remainingSeconds : option Z; deadline_estimate_utc : string }.
Record Dispute := {
  disputeDeadlineLedger : option Z; disputeDeadlineTime : option Z; disputeWindowOpen : bool; remainingDisputeSeconds : option Z }.
Record Evidence := {
  gatewayUrl : string; hash : string; cid : option string; fileSizeBytes : option Z; mimeType : option string }.
Record Consistency := { c_isFinalized : bool; indexerLag : Z; lastIndexedLedger : Z; isStale : bool; tallyReconciled : bool }.
Record StatusEntry := { e_status : string; e_ledger : Z; e_timestamp : string }.
Record ClaimDetail := {
  metadata : Metadata; tallies : Tallies; quorum : Quorum; deadline : Deadline; dispute : Dispute; evidence : Evidence;
  consistency : Consistency; status_history : list StatusEntry; voter_eligible : bool }.

(** ** Evidence *)

Definition is_slash_end (c : ascii) : bool :=
  bool_decide (c = "/"%char) || bool_decide (c = "?"%char) || bool_decide (c = "#"%char).
Fixpoint segment (s : string) : string :=
  match s with String c s' => if is_slash_end c then "" else String c (segment s') | "" => "" end.

(** The group of the first match of /ipfs/ and a segment, ignoring case. *)
Fixpoint ipfs_segment (s : string) : option string :=
  let here := match lit "/ipfs/" s with Some r => truthy (Some (segment r)) | None => None end in
  match here, s with
  | Some g, _ => Some g
  | None, String _ s' => ipfs_segment s'
  | None, "" => None
  end.

(** Models [extractEvidenceHash] (backend/src/claims/claim-view.mapper.ts:168-182). *)
Fixpoint extractEvidenceHash (imageUrls : list string) : string :=
  match imageUrls with
  | [] => ""
  | url :: rest =>
      match truthy (Some (sanitizeIpfsHash url)) with
      | Some directHash => directHash
      | None => match ipfs_segment url with Some g => g | None => extractEvidenceHash rest end
      end
  end.

(** Models [getVotingDeadlineLedger] (backend/src/claims/claim-view.mapper.ts:164-166). *)
Definition getVotingDeadlineLedger (createdAtLedger : Z) : Z := createdAtLedger + VOTE_WINDOW_LEDGERS.

(** ** The view *)

Section view.
Variable ipfsGateway : string.

Definition tally (v : string) (claim : ClaimWithVotes) : Z :=
  Z.of_nat (length (List.filter (λ x, bool_decide (x = v)) (votes claim))).

(** The percentage is a ratio of at least one, capped, or zero: the rounding of
    the double is exact.
    Models [transformClaim] (backend/src/claims/claim-view.mapper.ts:39-162). *)
Definition transformClaim (claim : ClaimWithVotes) (lastLedger : Z) (aggregation : option Aggregation) : ClaimDetail :=
  let yes := tally "APPROVE" claim in
  let no := tally "REJECT" claim in
  let total := yes + no in
  let deadlineLedger := getVotingDeadlineLedger (createdAtLedger claim) in
  let deadlineTime := createdAt claim + VOTE_WINDOW_LEDGERS * SECONDS_PER_LEDGER * 1000 in
  let is_open := lastLedger <? deadlineLedger in
  let requiredVotes := Z.max 1 (total / 2 + 1) in
  let sanitizedHash := sanitizeIpfsHash (extractEvidenceHash (imageUrls claim)) in
  let lag := Z.max 0 (lastLedger - updatedAtLedger claim) in
  let pct := Z.min 100 (round_div (total * 100) requiredVotes) in
  let progress := match aggregation with Some a => a_quorum_progress_pct a | None => pct end in
  let needed := match aggregation with Some a => a_votes_needed a | None => Z.max 0 (requiredVotes - total) end in
  let estimate := match aggregation with Some a => a_deadline_estimate_utc a | None => toISOString deadlineTime end in
  let currentStatus := toLowerCase (status claim) in
  let filed := {| e_status := "pending"; e_ledger := createdAtLedger claim; e_timestamp := toISOString (createdAt claim) |} in
  let history :=
    if bool_decide (currentStatus = "pending") then [filed]
    else [filed; {| e_status := currentStatus;
                    e_ledger := if updatedAtLedger claim =? 0 then createdAtLedger claim else updatedAtLedger claim;
                    e_timestamp := toISOString (updatedAt claim) |}] in
  let isApproved := bool_decide (currentStatus = "approved") in
  let disputeLedger := updatedAtLedger claim + DISPUTE_WINDOW_LEDGERS in
  let windowOpen := isApproved && (lastLedger <? disputeLedger) in
  {| metadata := {|
       v_id := id claim; v_policyId := policyId claim; v_creatorAddress := sanitizeWalletAddress (creatorAddress claim);
       v_status := currentStatus; v_amount := amount claim; v_description := sanitizeDescription <$> truthy (description claim);
       v_evidenceHash := sanitizedHash; v_createdAtLedger := createdAtLedger claim;
       v_createdAt := createdAt claim; v_updatedAt := updatedAt claim |};
     tallies := {| yesVotes := yes; noVotes := no; totalVotes := total |};
     quorum := {| required := requiredVotes; current := total; percentage := pct;
                  reached := isFinalized claim || (requiredVotes <=? Z.max yes no);
                  quorum_progress_pct := progress; votes_needed := needed |};
     deadline := {| votingDeadlineLedger := deadlineLedger; votingDeadlineTime := deadlineTime; isOpen := is_open;
                    remainingSeconds := if is_open then Some ((deadlineLedger - lastLedger) * SECONDS_PER_LEDGER) else None;
                    deadline_estimate_utc := estimate |};
     dispute := {| disputeDeadlineLedger := if isApproved then Some disputeLedger else None;
                   disputeDeadlineTime := if isApproved then Some (updatedAt claim + DISPUTE_WINDOW_LEDGERS * SECONDS_PER_LEDGER * 1000) else None;
                   disputeWindowOpen := windowOpen;
                   remainingDisputeSeconds :=
                     if windowOpen && negb (disputeLedger =? 0) then Some ((disputeLedger - lastLedger) * SECONDS_PER_LEDGER) else None |};
     evidence := {| gatewayUrl := if bool_decide (sanitizedHash = "") then "" else ipfsGateway +:+ "/ipfs/" +:+ sanitizedHash;
                    hash := sanitizedHash; cid := m_cid <$> evidenceMetadata claim;
                    fileSizeBytes := m_fileSizeBytes <$> evidenceMetadata claim; mimeType := m_mimeType <$> evidenceMetadata claim |};
     consistency := {| c_isFinalized := isFinalized claim; indexerLag := lag; lastIndexedLedger := lastLedger;
                       isStale := maxAcceptableLag <? lag; tallyReconciled := true |};
     status_history := history; voter_eligible := false |}.

(** ** What the view says *)

Lemma tally_nonneg v claim : 0 ≤ tally v claim.
Proof. unfold tally. lia. Qed.

Lemma round_full a b : 0 < b → b ≤ a → 100 ≤ round_div (a * 100) b.
Proof. intros Hb Ha. unfold round_div. apply Z.div_le_lower_bound; nia. Qed.

(** The quorum of a view depends on the votes cast alone.  Without a snapshot, a
    claim nobody voted on needs one vote; from the first vote on, of however many
    eligible voters, progress is 100 percent and no vote is missing; the quorum
    is reached exactly when the claim is final or the votes are not tied. *)
Theorem quorum_view claim lastLedger :
  let v := transformClaim claim lastLedger None in
  let q := quorum v in let t := tallies v in
  totalVotes t = yesVotes t + noVotes t ∧ current q = totalVotes t ∧
  (totalVotes t = 0 → required q = 1 ∧ percentage q = 0 ∧ quorum_progress_pct q = 0 ∧ votes_needed q = 1 ∧ reached q = isFinalized claim) ∧
  (0 < totalVotes t → percentage q = 100 ∧ quorum_progress_pct q = 100 ∧ votes_needed q = 0 ∧
    reached q = isFinalized claim || negb (yesVotes t =? noVotes t)).
Proof.
  cbn. pose proof (tally_nonneg "APPROVE" claim) as Hy. pose proof (tally_nonneg "REJECT" claim) as Hn.
  set (y := tally "APPROVE" claim) in *. set (n := tally "REJECT" claim) in *. split_and!; [done..| |].
  - intros E. rewrite E. assert (y = 0 ∧ n = 0) as [-> ->] by lia. cbn. by rewrite orb_false_r.
  - intros Hp. assert (Z.max 1 ((y + n) / 2 + 1) = (y + n) / 2 + 1) as ->.
    { pose proof (Z.div_pos (y + n) 2). lia. }
    assert ((y + n) / 2 + 1 ≤ y + n) as Hle.
    { assert ((y + n) / 2 < y + n); [apply Z.div_lt; lia|lia]. }
    pose proof (Z.div_pos (y + n) 2) as H0. pose proof (round_full (y + n) ((y + n) / 2 + 1)) as Hr.
    split_and!; [lia..|]. f_equal.
    pose proof (Z.div_mod (y + n) 2) as Hdm. pose proof (Z.mod_pos_bound (y + n) 2) as Hm.
    destruct (Z.leb_spec ((y + n) / 2 + 1) (Z.max y n)); destruct (Z.eqb_spec y n); cbn; lia.
Qed.

(** The windows of a view are consistent: voting and disputes are open exactly
    before their deadlines, the time left is positive and of five seconds per
    ledger, and only an approved claim has a dispute window. *)
Theorem windows_view claim lastLedger agg :
  let v := transformClaim claim lastLedger agg in
  (isOpen (deadline v) = true ↔ lastLedger < createdAtLedger claim + 120960) ∧
  (remainingSeconds (deadline v) = None ↔ isOpen (deadline v) = false) ∧
  (∀ s, remainingSeconds (deadline v) = Some s → 0 < s ∧ s = 5 * (votingDeadlineLedger (deadline v) - lastLedger)) ∧
  (disputeWindowOpen (dispute v) = true ↔ v_status (metadata v) = "approved" ∧ lastLedger < updatedAtLedger claim + 10080) ∧
  (∀ s, remainingDisputeSeconds (dispute v) = Some s → disputeWindowOpen (dispute v) = true ∧ 0 < s).
Proof.
  cbn. unfold getVotingDeadlineLedger, VOTE_WINDOW_LEDGERS, DISPUTE_WINDOW_LEDGERS, SECONDS_PER_LEDGER. split_and!.
  - by rewrite Z.ltb_lt.
  - by destruct (_ <? _).
  - intros s. destruct (Z.ltb_spec lastLedger (createdAtLedger claim + 120960)); [|done]. intros [= <-]. lia.
  - by rewrite andb_true_iff, bool_decide_eq_true, Z.ltb_lt.
  - intros s. destruct (bool_decide _ && _) eqn:E; cbn [andb]; [|done]. apply andb_true_iff in E as [_ E]. bool_prop.
    destruct (negb _); [|done]. intros [= <-]. split; [done|lia].
Qed.

(** A claim that rests looks stale.  The lag is measured from the claim's own last
    change: six ledgers after it every view says the index is behind, whatever
    the indexer has processed since. *)
Theorem resting_claim_stale claim lastLedger agg :
  isStale (consistency (transformClaim claim lastLedger agg)) = true ↔ updatedAtLedger claim + 5 < lastLedger.
Proof. cbn. unfold maxAcceptableLag. rewrite Z.ltb_lt. lia. Qed.

(** What a view shows of user content is sanitized: the description opens no
    markup, the address has its one form, and the evidence link is empty or ends
    in an identifier that matches the pattern. *)
Theorem view_sanitized claim lastLedger agg :
  let v := transformClaim claim lastLedger agg in
  (∀ d, v_description (metadata v) = Some d → safe d = true) ∧
  sanitizeWalletAddress (v_creatorAddress (metadata v)) = v_creatorAddress (metadata v) ∧
  hash (evidence v) = v_evidenceHash (metadata v) ∧
  ((hash (evidence v) = "" ∧ gatewayUrl (evidence v) = "") ∨
   (ipfsHashPattern (hash (evidence v)) = true ∧ gatewayUrl (evidence v) = ipfsGateway +:+ "/ipfs/" +:+ hash (evidence v))).
Proof.
  cbn. split_and!; [| |done|].
  - intros d. destruct (truthy (description claim)) as [x|]; [|done]. intros [= <-].
    rewrite sanitizeDescription_eq. apply safe_take, safe_trim, encode_safe.
  - apply wallet_idem.
  - unfold sanitizeIpfsHash. destruct (ipfsHashPattern (trim (extractEvidenceHash (imageUrls claim)))) eqn:E; [|by left].
    right. split; [done|]. rewrite bool_decide_false; [done|]. intros E0. by rewrite E0 in E.
Qed.

(** A first link with a bad identifier hides the evidence.  The segment after
    /ipfs/ of the first link is taken as it is and refused later: the view has no
    evidence, although a later link holds a valid identifier. *)
Theorem bad_first_link_hides_evidence claim lastLedger agg url g rest :
  imageUrls claim = url :: rest → sanitizeIpfsHash url = "" → ipfs_segment url = Some g → sanitizeIpfsHash g = "" →
  hash (evidence (transformClaim claim lastLedger agg)) = "".
Proof. intros Hi Hu Hg Hs. cbn. rewrite Hi. cbn. by rewrite Hu, Hg, Hs. Qed.
End view.

Module ViewWitnesses.

Definition filed : ClaimWithVotes := {|
  id := 7; policyId := "p"; creatorAddress := "G"; status := "PENDING"; amount := "5"; description := None;
  imageUrls := ["https://gw/ipfs/x"; "QmXoypizjW3WknFiJnKLwHCnL72vedxjQkDDP1mXWo6uco"]; createdAtLedger := 10; updatedAtLedger := 10;
  createdAt := 0; updatedAt := 0; isFinalized := false; votes := ["APPROVE"]; evidenceMetadata := None |}.

Lemma bad_first_link_hides_evidence_witness : hash (evidence (transformClaim "https://ipfs.io" filed 11 None)) = "".
Proof.
  apply (bad_first_link_hides_evidence "https://ipfs.io" filed 11 None "https://gw/ipfs/x" "x"
           ["QmXoypizjW3WknFiJnKLwHCnL72vedxjQkDDP1mXWo6uco"]); reflexivity.
Defined.
End ViewWitnesses.
