(* ===== verification/Comments.v ===== *)
(** * Comments on claims

    backend/src/claims/comments: the public list with its cursor, posting with the
    hourly limit and the notification of replies, moderation and deletion.  The
    comments table is an interface with laws; the limiter is RateLimit's. *)

From stdpp Require Import base countable list strings sorting.
From Stdlib Require Import ZArith Lia Ascii Sorted.
From S2P Require Import Prelude Keyset JsText Redis RateLimit Pagination Sanitize.

Open Scope string_scope.
Open Scope Z_scope.

Record ClaimComment := {
  id : string; claimId : Z; authorAddress : string; body : string; createdAt : Z; deletedAt : option Z;
  deletedBy : option string; hiddenAt : option Z; editedAt : option Z; parentId : option string }.

Definition active (c : Z) (x : ClaimComment) : bool :=
  bool_decide (claimId x = c) && bool_decide (deletedAt x = None) && bool_decide (hiddenAt x = None).

(** The table: the page of active comments of a claim after a comment, oldest
    first, a row by its id, and the write of a row. *)
Class CommentTable (D : Type) := {
  cid_ltb : string → string → bool;
  comment_rows : D → list ClaimComment;
  findActive_rows : Z → option string → nat → D → list ClaimComment;
  comment_find : string → D → option ClaimComment;
  comment_put : ClaimComment → D → D;
  claim_alive : Z → D → bool;
}.

Definition older {D} `{CommentTable D} (a b : ClaimComment) : Prop :=
  createdAt a < createdAt b ∨ (createdAt a = createdAt b ∧ cid_ltb (id a) (id b) = true).

Class CommentTableLaws (D : Type) `{CommentTable D} : Prop := {
  cid_irrefl : ∀ a, cid_ltb a a = false;
  cid_trans : ∀ a b c, cid_ltb a b = true → cid_ltb b c = true → cid_ltb a c = true;
  (** a page starts at the beginning, or after the row of the cursor *)
  active_sorted : ∀ c d, ∃ l, l ≡ₚ List.filter (active c) (comment_rows d) ∧ StronglySorted older l ∧
    (∀ n, findActive_rows c None n d = take n l) ∧
    (∀ l1 x l2 n, l = (l1 ++ x :: l2)%list → findActive_rows c (Some (id x)) n d = take n l2);
  find_row : ∀ i d x, comment_find i d = Some x ↔ x ∈ comment_rows d ∧ id x = i;
  put_rows : ∀ x d, comment_rows (comment_put x d) ≡ₚ x :: List.filter (λ y, negb (bool_decide (id y = id x))) (comment_rows d);
  put_claims : ∀ x c d, claim_alive c (comment_put x d) = claim_alive c d;
}.

Record CommentDto := { r_id : string; r_claimId : Z; r_authorAddress : string; r_body : string; r_createdAt : Z; r_parentId : option string }.

Inductive CommentError :=
  ClaimNotFound (c : Z) | ParentNotFound | CommentNotFound | NotAuthorized | RateLimited (retryAfter : Z) | LimiterFailed.

(** Models [toDto] (backend/src/claims/comments/comment.service.ts:119-136). *)
Definition toDto (c : ClaimComment) : CommentDto :=
  {| r_id := id c; r_claimId := claimId c; r_authorAddress := authorAddress c; r_body := body c; r_createdAt := createdAt c;
     r_parentId := parentId c |}.

Definition COMMENT_RATE_LIMIT : Z := 5.
Definition COMMENT_RATE_WINDOW_SECONDS : Z := 3600.
Definition DEFAULT_LIMIT : Z := 20.

Section service.
Context {D R : Type} `{CommentTable D} `{RedisZSet R}.

(** The replies handed to the notification queue: to whom, claim, comment, parent. *)
Record cworld := CWorld { db : D; limiter : rworld R; replies : list (string * Z * string * string) }.
Abbreviation MC A := (M cworld CommentError A).

Definition put (x : ClaimComment) : MC ClaimComment := λ w, (Ok x, CWorld (comment_put x (db w)) (limiter w) (replies w)).

(** Models [assertClaimExists] (backend/src/claims/comments/comment.service.ts:109-117). *)
Definition assertClaimExists (c : Z) : MC () := λ w, if claim_alive c (db w) then (Ok tt, w) else (Throw (ClaimNotFound c), w).

(** The rows asked for and one more; [Some ""] is no cursor.
    Models [findActive] (backend/src/claims/comments/comment.repository.ts:8-15). *)
Definition findActive (c : Z) (after : option string) (n : nat) (d : D) : list ClaimComment :=
  findActive_rows c (truthy after) (S n) d.

(** Models [list] (backend/src/claims/comments/comment.service.ts:27-36). *)
Definition list_comments (c : Z) (limit : option Z) (after : option string) (d : D) : result CommentError (list CommentDto * option string) :=
  if claim_alive c d then
    let n := Z.to_nat (clampLimit (Some (default DEFAULT_LIMIT limit))) in
    let rows := findActive c after n d in
    let page := take n rows in
    Ok (toDto <$> page, if (n <? length rows)%nat then id <$> last page else None)
  else Throw (ClaimNotFound c).

(** Models [moderate] (backend/src/claims/comments/comment.service.ts:38-49). *)
Definition moderate (now : Z) (c : Z) (commentId : string) (newBody : option string) (hidden : option bool) : MC CommentDto := λ w,
  match comment_find commentId (db w) with
  | Some x =>
      if bool_decide (claimId x = c) && bool_decide (deletedAt x = None) then
        let y := {| id := id x; claimId := claimId x; authorAddress := authorAddress x;
                    body := match newBody with Some b => sanitizeDescription b | None => body x end;
                    createdAt := createdAt x; deletedAt := deletedAt x; deletedBy := deletedBy x;
                    hiddenAt := match hidden with Some true => Some now | Some false => None | None => hiddenAt x end;
                    editedAt := match newBody with Some _ => Some now | None => editedAt x end; parentId := parentId x |} in
        (let* y := put y in ret (toDto y)) w
      else (Throw CommentNotFound, w)
  | None => (Throw CommentNotFound, w)
  end.

Definition limit_key (c : Z) (author : string) : string := "comment:" +:+ show_Z c +:+ ":" +:+ author.

Definition new_comment (fresh : string) (now c : Z) (author b : string) (parent : option string) : ClaimComment :=
  {| id := fresh; claimId := c; authorAddress := author; body := b; createdAt := now; deletedAt := None; deletedBy := None;
     hiddenAt := None; editedAt := None; parentId := parent |}.

(** [fresh]: the id the database generates; [rnd]: the limiter's random suffix.
    Models [create] (backend/src/claims/comments/comment.service.ts:51-91). *)
Definition create (now : Z) (rnd fresh : string) (c : Z) (author b : string) (parentId : option string) : MC CommentDto :=
  do* assertClaimExists c in
  let* parent := match truthy parentId with
    | None => ret None
    | Some p => λ w,
        match comment_find p (db w) with
        | Some x => if bool_decide (claimId x = c) && bool_decide (deletedAt x = None) then (Ok (Some x), w) else (Throw ParentNotFound, w)
        | None => (Throw ParentNotFound, w)
        end
    end in
  let* check := λ w, let '(r, l) := checkWalletEvidenceLimit (limit_key c author) COMMENT_RATE_LIMIT COMMENT_RATE_WINDOW_SECONDS now rnd (limiter w) in
    (match r with Ok d => Ok d | Throw _ => Throw LimiterFailed end, CWorld (db w) l (replies w)) in
  if allowed check then
    let* comment := put (new_comment fresh now c author (sanitizeDescription b) parentId) in
    do* (match parent with
         | Some p => if bool_decide (authorAddress p = author) then ret tt
                     else λ w, (Ok tt, CWorld (db w) (limiter w) (replies w ++ [(authorAddress p, c, id comment, id p)])%list)
         | None => ret tt
         end) in
    ret (toDto comment)
  else throw (RateLimited (retryAfterSeconds check)).

(** Models [softDelete] (backend/src/claims/comments/comment.service.ts:93-107). *)
Definition softDelete (now : Z) (commentId walletAddress : string) (isAdmin : bool) (by_ : option string) : MC () := λ w,
  match comment_find commentId (db w) with
  | Some x =>
      if bool_decide (deletedAt x = None) then
        if negb isAdmin && negb (bool_decide (authorAddress x = walletAddress)) then (Throw NotAuthorized, w)
        else (do* put {| id := id x; claimId := claimId x; authorAddress := authorAddress x; body := body x; createdAt := createdAt x;
                         deletedAt := Some now; deletedBy := by_; hiddenAt := hiddenAt x; editedAt := editedAt x;
                         parentId := parentId x |} in ret tt) w
      else (Throw CommentNotFound, w)
  | None => (Throw CommentNotFound, w)
  end.

(** ** Reading *)

Section laws.
Context `{CL : !CommentTableLaws D}.

(** Every visible comment is read once.  Over an unchanged table a client that
    follows next_cursor until it is null ends and gets the comments of the claim
    that are neither deleted nor hidden, oldest first and each of them once,
    whatever the page size asked for. *)
Theorem comments_read_once (d : D) c limit :
  claim_alive c d = true → Forall (λ x, id x ≠ "") (comment_rows d) →
  ∃ l, l ≡ₚ List.filter (active c) (comment_rows d) ∧ StronglySorted older l ∧
    follow (λ after, list_comments c limit after d) (S (length l)) None = Some (toDto <$> l).
Proof.
  intros Hc Hids. destruct (active_sorted c d) as (l & Hl & Hs & Hnone & Hsome). exists l. split_and!; [done..|].
  set (n := Z.to_nat (clampLimit (Some (default DEFAULT_LIMIT limit)))).
  assert (0 < n)%nat as Hn by (pose proof (clampLimit_range (Some (default DEFAULT_LIMIT limit))); unfold n; lia).
  apply (follow_all _ id toDto n l). intros l1 l2 Hl12. unfold list_comments. rewrite Hc. fold n.
  assert (findActive c (id <$> last l1) n d = take (S n) l2) as ->.
  { unfold findActive. destruct (last l1) as [x|] eqn:Hx; cbn [fmap option_fmap option_map].
    - apply last_Some in Hx as [l1' ->]. rewrite <- app_assoc in Hl12. assert (truthy (Some (id x)) = Some (id x)) as ->.
      { assert (id x ≠ "") as Hne; [|by destruct (id x)]. rewrite Forall_forall in Hids. apply Hids.
        assert (x ∈ l) as Hin by (rewrite Hl12; apply elem_of_app; right; left). rewrite Hl in Hin. by apply elem_of_bfilter in Hin as [? _]. }
      by eapply Hsome.
    - apply last_None in Hx as ->. change (truthy None) with (@None string). by rewrite Hnone, Hl12. }
  rewrite take_take, Nat.min_l by lia. eexists. split; [done|].
  rewrite length_take. destruct (Nat.ltb_spec n (S n `min` length l2)%nat) as [Hlt|Hge]; [|lia].
  destruct (last (take n l2)) as [y|] eqn:Hy; cbn [fmap option_fmap option_map].
  - split; [by intros E; rewrite E in Hy|]. rewrite last_app, Hy. done.
  - apply last_None in Hy. apply (f_equal length) in Hy. rewrite length_take in Hy. cbn in Hy. lia.
Qed.

(** ** What operations change *)

Inductive op :=
  | Create (now : Z) (rnd fresh : string) (c : Z) (author b : string) (parent : option string)
  | Moderate (now c : Z) (commentId : string) (newBody : option string) (hidden : option bool)
  | SoftDelete (now : Z) (commentId walletAddress : string) (isAdmin : bool) (by_ : option string).

Definition perform (o : op) (w : cworld) : cworld :=
  match o with
  | Create now rnd fresh c a b p => snd (create now rnd fresh c a b p w)
  | Moderate now c i nb h => snd (moderate now c i nb h w)
  | SoftDelete now i wa adm by_ => snd (softDelete now i wa adm by_ w)
  end.

(** The database generates ids it does not hold. *)
Definition fresh_op (o : op) (w : cworld) : Prop :=
  match o with Create _ _ fresh _ _ _ _ => fresh ∉ id <$> comment_rows (db w) | _ => True end.
Fixpoint fresh_ops (l : list op) (w : cworld) : Prop :=
  match l with [] => True | o :: l' => fresh_op o w ∧ fresh_ops l' (perform o w) end.

Lemma put_other x y d : y ∈ comment_rows d → id y ≠ id x → y ∈ comment_rows (comment_put x d).
Proof. intros Hy Hne. rewrite put_rows. right. apply elem_of_bfilter. split; [done|]. by rewrite bool_decide_false. Qed.

Lemma create_db now rnd fresh c a b p w :
  db (snd (create now rnd fresh c a b p w)) = db w ∨
  ∃ x, db (snd (create now rnd fresh c a b p w)) = comment_put x (db w) ∧ id x = fresh ∧ x = new_comment fresh now c a (sanitizeDescription b) p.
Proof.
  unfold create, bind, assertClaimExists. destruct (claim_alive c (db w)); [|by left].
  destruct (truthy p) as [q|].
  - destruct (comment_find q (db w)) as [y|]; [|by left]. destruct (_ && _); [|by left].
    destruct (checkWalletEvidenceLimit _ _ _ _ _ _) as [[ck|e] l]; [|by left]. destruct (allowed ck); [|by left].
    right. exists (new_comment fresh now c a (sanitizeDescription b) p). split; [|by split]. cbn. by destruct (bool_decide _).
  - unfold ret. destruct (checkWalletEvidenceLimit _ _ _ _ _ _) as [[ck|e] l]; [|by left]. destruct (allowed ck); [|by left].
    right. exists (new_comment fresh now c a (sanitizeDescription b) p). by split.
Qed.

Lemma perform_keeps_deleted o w y :
  fresh_op o w → y ∈ comment_rows (db w) → deletedAt y ≠ None → (∀ z, z ∈ comment_rows (db w) → id z = id y → z = y) →
  y ∈ comment_rows (db (perform o w)) ∧ (∀ z, z ∈ comment_rows (db (perform o w)) → id z = id y → z = y).
Proof.
  intros Hf Hy Hd Huniq.
  assert (∀ x, id x ≠ id y → y ∈ comment_rows (comment_put x (db w)) ∧
            (∀ z, z ∈ comment_rows (comment_put x (db w)) → id z = id y → z = y)) as Hput.
  { intros x Hne. split; [by apply put_other|]. intros z. rewrite put_rows. intros [->|[Hz _]%elem_of_bfilter]%elem_of_cons Hid; [done|by apply Huniq]. }
  destruct o as [now rnd fresh c a b p|now c i nb h|now i wa adm by_]; cbn [perform] in *.
  - destruct (create_db now rnd fresh c a b p w) as [->|(x & -> & Hid & _)]; [done|]. apply Hput. rewrite Hid.
    intros ->. apply Hf. by apply list_elem_of_fmap_2.
  - unfold moderate. destruct (comment_find i (db w)) as [x|] eqn:Hx; [|done]. apply find_row in Hx as [Hx _].
    case_bool_decide; [|done]. case_bool_decide as Hdx; [|done]. cbn. apply Hput. cbn. intros E. by rewrite (Huniq x Hx E) in Hdx.
  - unfold softDelete. destruct (comment_find i (db w)) as [x|] eqn:Hx; [|done]. apply find_row in Hx as [Hx _].
    case_bool_decide as Hdx; [|done]. destruct (negb adm && _); [done|]. cbn. apply Hput. cbn. intros E. by rewrite (Huniq x Hx E) in Hdx.
Qed.

(** A deleted comment stays deleted.  Whatever is posted, moderated and deleted
    afterwards, by whomever and with whatever failures of the limiter, the row of
    a deleted comment does not change any more and no list shows it. *)
Theorem deleted_stays_deleted l w y :
  fresh_ops l w → y ∈ comment_rows (db w) → deletedAt y ≠ None → (∀ z, z ∈ comment_rows (db w) → id z = id y → z = y) →
  let w' := fold_left (λ w o, perform o w) l w in
  comment_find (id y) (db w') = Some y ∧
  ∀ c limit page next, list_comments c limit None (db w') = Ok (page, next) → id y ∉ r_id <$> page.
Proof.
  intros Hf Hy Hd Hu. cbv zeta.
  assert (y ∈ comment_rows (db (fold_left (λ w o, perform o w) l w)) ∧
          (∀ z, z ∈ comment_rows (db (fold_left (λ w o, perform o w) l w)) → id z = id y → z = y)) as [Hin Hun].
  { revert w Hf Hy Hu. induction l as [|o l IH]; intros w Hf Hy Hu; [done|]. cbn [fold_left]. destruct Hf as [Ho Hf].
    destruct (perform_keeps_deleted o w y Ho Hy Hd Hu) as [H1 H2]. by apply IH. }
  split; [by apply find_row|]. intros c limit page next Hl. unfold list_comments, findActive in Hl.
  destruct (claim_alive c _); [|done]. destruct (active_sorted c (db (fold_left (λ w o, perform o w) l w))) as (rs & Hrs & _ & Hnone & _).
  rewrite Hnone in Hl. injection Hl as <- _. rewrite <- list_fmap_compose. intros (z & Hid & Hz)%list_elem_of_fmap.
  apply elem_of_take in Hz as (i & Hz & _). apply list_elem_of_lookup_2 in Hz. apply elem_of_take in Hz as (j & Hz & _).
  apply list_elem_of_lookup_2 in Hz. rewrite Hrs in Hz. apply elem_of_bfilter in Hz as [Hz Ha].
  rewrite (Hun z Hz (eq_sym Hid)) in Ha. unfold active in Ha. bool_prop. done.
Qed.
End laws.

(** ** The hourly limit *)

Section limit.
Context `{CL : !CommentTableLaws D, RL : !RedisZSetLaws R}.

(** The comments one author posts on one claim: when, the limiter's suffix, the
    id and the body. *)
Fixpoint post_all (c : Z) (author : string) (reqs : list (Z * string * (string * string))) (w : cworld)
    : list (result CommentError CommentDto) :=
  match reqs with
  | [] => []
  | (t, rnd, (fresh, b)) :: reqs' =>
      let '(r, w') := create t rnd fresh c author b None w in r :: post_all c author reqs' w'
  end.

Lemma create_decision now rnd fresh c author b d l rs l' ck :
  claim_alive c d = true →
  checkWalletEvidenceLimit (limit_key c author) COMMENT_RATE_LIMIT COMMENT_RATE_WINDOW_SECONDS now rnd l = (Ok ck, l') →
  ∃ d', claim_alive c d' = true ∧ is_ok (fst (create now rnd fresh c author b None (CWorld d l rs))) = allowed ck ∧
    snd (create now rnd fresh c author b None (CWorld d l rs)) = CWorld d' l' rs.
Proof.
  intros Hc Hck. unfold create, bind, assertClaimExists, ret. change (truthy None) with (@None string). cbn [db limiter replies]. rewrite Hc. cbn [db limiter replies]. rewrite Hck. destruct (allowed ck) eqn:E.
  - eexists. cbn. split_and!; [|done..]. by rewrite put_claims.
  - exists d. by split_and!.
Qed.

Lemma post_all_decisions c author reqs d l rs ds l' :
  claim_alive c d = true →
  calls (checkWalletEvidenceLimit (limit_key c author) COMMENT_RATE_LIMIT COMMENT_RATE_WINDOW_SECONDS) (fst <$> reqs) l = (Ok ds, l') →
  is_ok <$> post_all c author reqs (CWorld d l rs) = allowed <$> ds.
Proof.
  revert d l ds. induction reqs as [|[[t rnd] [fresh b]] reqs IH]; intros d l ds Hc Hrun.
  { unfold calls, ret in Hrun. cbn in Hrun. by injection Hrun as <-. }
  cbn [fmap list_fmap fst calls] in Hrun. apply bind_ok_inv in Hrun as (ck & l1 & Hck & Hrun).
  apply bind_ok_inv in Hrun as (ds0 & l2 & Hds & Hret). unfold ret in Hret. injection Hret as <- <-.
  destruct (create_decision t rnd fresh c author b d l rs l1 ck Hc Hck) as (d' & Hc' & Hok & Hw).
  cbn [post_all]. destruct (create t rnd fresh c author b None (CWorld d l rs)) as [r w']. cbn [fst snd] in *. subst w'.
  cbn [fmap list_fmap]. rewrite Hok. f_equal. by eapply IH.
Qed.

(** Five comments an hour.  Whatever one wallet posts on one claim, in any hour at
    most five of its comments are accepted. *)
Theorem comments_bounded c author reqs d (r : R) rs :
  claim_alive c d = true → no_entries ("rate_limit:evidence:" +:+ toLowerCase (limit_key c author)) r → orderly (fst <$> reqs) →
  ∀ t, Z.of_nat (length (filter (λ s, t - 3600000 < s ≤ t)
         (admitted_times (fst <$> (fst <$> reqs)) (is_ok <$> post_all c author reqs (CWorld d (healthy r) rs)) []))) ≤ 5.
Proof.
  intros Hc He Ho t.
  destruct (guarded_sliding_refines ("rate_limit:evidence:" +:+ toLowerCase (limit_key c author)) COMMENT_RATE_LIMIT
              (COMMENT_RATE_WINDOW_SECONDS * 1000) r (fst <$> reqs) He Ho) as (ds & r' & Hrun & Hds).
  rewrite (post_all_decisions c author reqs d (healthy r) rs ds (healthy r') Hc Hrun), Hds, <- run_admitted.
  destruct Ho as [Hs _].
  destruct (Reference.run_bounded COMMENT_RATE_LIMIT (COMMENT_RATE_WINDOW_SECONDS * 1000) 0 (fst <$> (fst <$> reqs)) [] ltac:(done) Hs) as (t1 & _ & Hb).
  - split; [done|]. intros u. cbn. unfold COMMENT_RATE_LIMIT. lia.
  - specialize (Hb t). unfold COMMENT_RATE_LIMIT in *. exact Hb.
Qed.
End limit.
End service.

(** ** At concrete inputs *)

Module CommentWitnesses.
Import Redis.Sample.

(** Rows with distinct ids, which are compared by their codes; claim 7 exists. *)
Definition table : Type := { rows : list ClaimComment | NoDup (id <$> rows) }.
Definition id_before (a b : string) : bool := (encode a <? encode b)%positive.

Definition comment_le (a b : ClaimComment) : Prop :=
  createdAt a < createdAt b ∨ (createdAt a = createdAt b ∧ (encode (id a) ≤ encode (id b))%positive).
#[export] Instance comment_le_dec a b : Decision (comment_le a b).
Proof. unfold comment_le. apply _. Defined.
#[export] Instance comment_le_trans : Transitive comment_le.
Proof. intros a b c. unfold comment_le. lia. Qed.
#[export] Instance comment_le_total : Total comment_le.
Proof. intros a b. unfold comment_le. lia. Qed.

Fixpoint from (i : string) (l : list ClaimComment) : list ClaimComment :=
  match l with [] => [] | x :: l' => if bool_decide (id x = i) then l' else from i l' end.
Definition sorted_rows (c : Z) (d : table) : list ClaimComment := merge_sort comment_le (List.filter (active c) (proj1_sig d)).

Lemma put_unique x (l : list ClaimComment) : NoDup (id <$> l) → NoDup (id <$> x :: List.filter (λ y, negb (bool_decide (id y = id x))) l).
Proof.
  intros Hn. constructor; [|by apply filter_keys_unique]. intros (y & E & [_ Hy]%elem_of_bfilter)%list_elem_of_fmap.
  bool_prop. congruence.
Qed.

#[export] Instance sample_comments : CommentTable table := {
  cid_ltb := id_before;
  comment_rows d := proj1_sig d;
  findActive_rows c after n d := take n (match after with Some i => from i (sorted_rows c d) | None => sorted_rows c d end);
  comment_find i d := List.find (λ x, bool_decide (id x = i)) (proj1_sig d);
  comment_put x d := exist _ (x :: List.filter (λ y, negb (bool_decide (id y = id x))) (proj1_sig d)) (put_unique x _ (proj2_sig d));
  claim_alive c _ := c =? 7;
}.

Lemma from_spec (l1 : list ClaimComment) x l2 : NoDup (id <$> (l1 ++ x :: l2)%list) → from (id x) (l1 ++ x :: l2)%list = l2.
Proof.
  induction l1 as [|y l1 IH]; intros Hn; cbn [from app]; [by rewrite bool_decide_true|].
  apply NoDup_cons in Hn as [Hy Hn]. rewrite bool_decide_false; [by apply IH|]. intros E. apply Hy. rewrite E.
  apply list_elem_of_fmap_2. apply elem_of_app. right. left.
Qed.

Lemma unique_comment i (l : list ClaimComment) x :
  NoDup (id <$> l) → List.find (λ x, bool_decide (id x = i)) l = Some x ↔ x ∈ l ∧ id x = i.
Proof.
  intros Hn. split.
  - intros Hf. apply List.find_some in Hf as [Hin Hid]. apply bool_decide_eq_true in Hid. split; [by apply list_elem_of_In|done].
  - intros [Hin <-]. induction l as [|y l IH]; [by apply elem_of_nil in Hin|]. cbn [List.find]. apply NoDup_cons in Hn as [Hy Hn].
    apply elem_of_cons in Hin as [->|Hin]; [by rewrite bool_decide_true|]. rewrite bool_decide_false; [by apply IH|].
    intros E. apply Hy. rewrite E. by apply list_elem_of_fmap_2.
Qed.

#[export] Instance sample_comments_laws : CommentTableLaws table.
Proof.
  constructor.
  - intros a. apply Pos.ltb_irrefl.
  - intros a b c. cbn [cid_ltb sample_comments]. unfold id_before. rewrite !Pos.ltb_lt. lia.
  - intros c d. exists (sorted_rows c d). assert (NoDup (id <$> sorted_rows c d)) as Hn.
    { unfold sorted_rows. rewrite merge_sort_Permutation. apply filter_keys_unique. exact (proj2_sig d). }
    split_and!; [apply merge_sort_Permutation| |done|].
    + assert (StronglySorted comment_le (sorted_rows c d)) as Hs by (apply StronglySorted_merge_sort; apply _).
      revert Hn. induction Hs as [|x l Hs IH Hx]; intros Hn; [constructor|]. apply NoDup_cons in Hn as [Hnx Hn].
      constructor; [by apply IH|]. rewrite Forall_forall in *. intros y Hy. specialize (Hx y Hy).
      assert (encode (id x) ≠ encode (id y)) as Hne.
      { intros E%(inj encode). apply Hnx. rewrite E. by apply list_elem_of_fmap_2. }
      destruct Hx as [Hx|[Hx Hid]]; [by left|]. right. split; [done|]. apply Pos.ltb_lt. lia.
    + intros l1 x l2 n Hl. cbn [findActive_rows sample_comments]. rewrite Hl in Hn |- *. by rewrite from_spec.
  - intros i d x. apply unique_comment. exact (proj2_sig d).
  - done.
  - done.
Qed.

Definition comment (i : string) (at_ : Z) (deleted : option Z) : ClaimComment :=
  {| id := i; claimId := 7; authorAddress := "GA"; body := "hello"; createdAt := at_; deletedAt := deleted; deletedBy := None;
     hiddenAt := None; editedAt := None; parentId := None |}.
Definition three : list ClaimComment := [comment "b" 5 None; comment "a" 5 None; comment "c" 1 (Some 9)].
Definition some_comments : table := exist _ three (bool_decide_unpack (NoDup (id <$> three)) I).

Lemma comments_read_once_witness :
  ∃ l, follow (λ after, list_comments 7 (Some 1) after some_comments) (S (length l)) None = Some (toDto <$> l) ∧
    l ≡ₚ [comment "b" 5 None; comment "a" 5 None].
Proof.
  assert (Forall (λ x, id x ≠ "") (comment_rows some_comments)) as Hids by (repeat constructor; discriminate).
  pose proof (comments_read_once (D:=table) some_comments 7 (Some 1)) as Hall.
  destruct (Hall eq_refl Hids) as (l & Hl & _ & Hf).
  exists l. split; [exact Hf|exact Hl].
Defined.

Definition start : cworld (D:=table) (R:=zsets) := CWorld some_comments (healthy []) [].

(** The deletion of another comment and a new one. *)
Lemma deleted_stays_deleted_witness :
  comment_find "c" (db (fold_left (λ w o, perform o w) [SoftDelete 20 "a" "GA" false None; Create 21 "r" "d" 7 "GB" "hi" (Some "b")] start)) =
    Some (comment "c" 1 (Some 9)).
Proof.
  refine (proj1 (deleted_stays_deleted [SoftDelete 20 "a" "GA" false None; Create 21 "r" "d" 7 "GB" "hi" (Some "b")]
           start (comment "c" 1 (Some 9)) _ _ _ _)).
  - split; [exact I|]. split; [|exact I]. apply (bool_decide_unpack _). vm_compute. exact I.
  - do 2 right. left.
  - discriminate.
  - intros z Hz. repeat (apply elem_of_cons in Hz as [->|Hz]; [done|]). by apply elem_of_nil in Hz.
Defined.

Definition posts : list (Z * string * (string * string)) :=
  [(1, "a", ("1", "x")); (2, "b", ("2", "x")); (3, "c", ("3", "x")); (4, "d", ("4", "x")); (5, "e", ("5", "x")); (6, "f", ("6", "x"))].

Lemma comments_bounded_witness :
  is_ok <$> post_all 7 "GB" posts start = [true; true; true; true; true; false] ∧
  ∀ t, Z.of_nat (length (filter (λ s, t - 3600000 < s ≤ t) (admitted_times [1; 2; 3; 4; 5; 6] (is_ok <$> post_all 7 "GB" posts start) []))) ≤ 5.
Proof.
  split; [vm_compute; reflexivity|]. apply (comments_bounded 7 "GB" posts some_comments ([] : zsets) []).
  - reflexivity.
  - intros t. reflexivity.
  - split_and!; [|repeat constructor|].
    + apply (bool_decide_unpack _). vm_compute. exact I.
    + apply (bool_decide_unpack _). vm_compute. exact I.
Defined.
End CommentWitnesses.
