(* ===== verification/AppealReminder.v ===== *)
(** * Appeal window reminders

    backend/src/claims/appeal-window-reminder.service.ts: the scheduled scan that
    tells claimants of rejected claims that their appeal window is about to
    close.  The database answers statements or rejects them; rows are listed in
    the order of their ids. *)

From stdpp Require Import base list strings sorting.
From Stdlib Require Import ZArith Lia Sorted.
From S2P Require Import Prelude Keyset JsText Redis ClaimJobs.

Open Scope string_scope.
Open Scope Z_scope.

(** Models [APPEAL_WINDOW_SCAN_PAGE_SIZE] (backend/src/claims/appeal-window-reminder.constants.ts:19-19). *)
Definition APPEAL_WINDOW_SCAN_PAGE_SIZE : nat := 200.

(** The columns of a claim the scan reads. *)
Record ClaimRow := {
  id : Z; creatorAddress : string; status : string; appealsCount : Z; deleted : bool; appealOpenDeadlineLedger : option Z; updatedAtLedger : Z }.

(** A reminder: for whom, of which claim, the deadline it names, and whether it was
    acknowledged. *)
Record Reminder := { userId : string; claimId : Z; deadlineLedger : Z; ledgersRemaining : Z; acknowledged : bool }.

Record store := Store { claims : list ClaimRow; reminders : list Reminder; lastProcessedLedger : option Z }.
Abbreviation MA A := (M (rworld store) string A).

(** [appealOpenDeadlineLedger ?? updatedAtLedger + APPEAL_OPEN_WINDOW_LEDGERS] *)
Definition deadline (c : ClaimRow) : Z :=
  match appealOpenDeadlineLedger c with Some l => l | None => updatedAtLedger c + APPEAL_OPEN_WINDOW_LEDGERS end.

(** The condition of the query. *)
Definition due (currentLedger leadLedgers : Z) (c : ClaimRow) : bool :=
  let lowerBound := currentLedger + 1 in
  let upperBound := currentLedger + leadLedgers in
  bool_decide (status c = "REJECTED") && (appealsCount c =? 0) && negb (deleted c) &&
  match appealOpenDeadlineLedger c with
  | Some l => (lowerBound <=? l) && (l <=? upperBound)
  | None => (lowerBound - APPEAL_OPEN_WINDOW_LEDGERS <=? updatedAtLedger c) && (updatedAtLedger c <=? upperBound - APPEAL_OPEN_WINDOW_LEDGERS)
  end.

Section scan.
Variables currentLedger leadLedgers : Z.

Definition after (cursor : option Z) (c : ClaimRow) : bool := match cursor with Some i => i <? id c | None => true end.
Definition due_after (cursor : option Z) (s : store) : list ClaimRow :=
  List.filter (λ c, due currentLedger leadLedgers c && after cursor c) (claims s).

(** Models [hasPendingReminder] (backend/src/claims/appeal-window-reminder.service.ts:166-183). *)
Definition hasPendingReminder (user : string) (claim : Z) (s : store) : bool :=
  existsb (λ r, bool_decide (userId r = user) && negb (acknowledged r) && (claimId r =? claim)) (reminders s).

Definition reminder_of (c : ClaimRow) : Reminder :=
  {| userId := creatorAddress c; claimId := id c; deadlineLedger := deadline c; ledgersRemaining := deadline c - currentLedger;
     acknowledged := false |}.

(** The body of the loop. *)
Definition remind (c : ClaimRow) : MA () :=
  let* alreadySent := query (hasPendingReminder (creatorAddress c) (id c)) in
  if (alreadySent : bool) then ret tt
  else update (λ s, Store (claims s) (reminders s ++ [reminder_of c])%list (lastProcessedLedger s)).

(** Page after page; one unit of fuel per page. *)
Fixpoint scan_loop (fuel : nat) (cursor : option Z) : MA () :=
  match fuel with
  | O => ret tt
  | S fuel' =>
      let* page := query (λ s, take APPEAL_WINDOW_SCAN_PAGE_SIZE (due_after cursor s)) in
      match last page with
      | None => ret tt
      | Some c =>
          do* for_each page remind in
          if (length page <? APPEAL_WINDOW_SCAN_PAGE_SIZE)%nat then ret tt else scan_loop fuel' (Some (id c))
      end
  end.
End scan.

(** The scan stops at the first failure, which is logged.  As many pages as rows
    are enough.  [disabled]: DISABLE_APPEAL_WINDOW_REMINDER; [isRunning]: a scan of
    this process is under way.
    Models [runScan] (backend/src/claims/appeal-window-reminder.service.ts:54-164). *)
Definition runScan (disabled isRunning : bool) (leadLedgers : Z) : M (rworld store) Empty_set () := λ w,
  if disabled || isRunning then (Ok tt, w)
  else
    try_catch
      (let* cur := query lastProcessedLedger in
       match cur with
       | None => ret tt
       | Some currentLedger =>
           if currentLedger =? 0 then ret tt
           else λ w, scan_loop currentLedger leadLedgers (S (length (claims (rstate w)))) None w
       end) (λ _, ret tt) w.

(** ** The rows visited *)

Section facts.
Variables currentLedger leadLedgers : Z.
Abbreviation due := (due currentLedger leadLedgers).
Abbreviation due_after := (due_after currentLedger leadLedgers).
Abbreviation remind := (remind currentLedger).

(** Rows by ascending, distinct ids. *)
Definition by_id (l : list ClaimRow) : Prop := StronglySorted (λ a b, id a < id b) l.

Definition visit (s : store) (c : ClaimRow) : store :=
  if hasPendingReminder (creatorAddress c) (id c) s then s
  else Store (claims s) (reminders s ++ [reminder_of currentLedger c])%list (lastProcessedLedger s).

Lemma remind_healthy c s : remind c (healthy s) = (Ok tt, healthy (visit s c)).
Proof. unfold remind, bind, visit. rewrite query_healthy. destruct (hasPendingReminder _ _ s); [done|]. by rewrite update_healthy. Qed.

Lemma visit_all_claims l s : claims (foldl visit s l) = claims s.
Proof. revert s. induction l as [|c l IH]; intros s; [done|]. cbn [foldl]. rewrite IH. unfold visit. by destruct (hasPendingReminder _ _ s). Qed.

Lemma by_id_filter f l : by_id l → by_id (List.filter f l).
Proof.
  induction 1 as [|x l Hs IH Hx]; [constructor|]. cbn [List.filter]. destruct (f x); [|done]. constructor; [done|].
  rewrite Forall_forall in *. intros y [Hy _]%elem_of_bfilter. by apply Hx.
Qed.

#[local] Instance id_lt_strict : StrictOrder (λ a b, id a < id b).
Proof. split; [intros a; unfold complement; lia|intros a b c; lia]. Qed.

(** After the last row of a prefix come the rows that follow it. *)
Lemma after_prefix l1 x l2 : by_id (l1 ++ x :: l2)%list → List.filter (λ c, id x <? id c) (l1 ++ x :: l2)%list = l2.
Proof.
  intros Hs. destruct (sorted_split _ _ _ Hs) as (_ & Hx & Hlt). apply StronglySorted_inv in Hx as [_ Hx].
  rewrite Forall_forall in Hx. rewrite List.filter_app, (bfilter_none _ l1).
  - cbn [List.filter app]. rewrite Z.ltb_irrefl. apply bfilter_all. intros y Hy. apply Z.ltb_lt. by apply Hx.
  - intros y Hy. apply Z.ltb_ge. assert (id y < id x); [|lia]. apply Hlt; [done|left].
Qed.

Lemma due_after_split l1 x l2 s :
  by_id (claims s) → due_after None s = (l1 ++ x :: l2)%list → due_after (Some (id x)) s = l2.
Proof.
  intros Hs E. rewrite <- (after_prefix l1 x l2), <- E.
  - unfold AppealReminder.due_after. rewrite filter_filter. apply List.filter_ext. intros c. cbn. by rewrite andb_true_r.
  - rewrite <- E. by apply by_id_filter.
Qed.

(** A scan of a healthy database visits the due claims in order, page by page. *)
Lemma scan_healthy fuel l1 l2 cursor s :
  by_id (claims s) → due_after None s = (l1 ++ l2)%list → cursor = id <$> last l1 → (length l2 < fuel)%nat →
  scan_loop currentLedger leadLedgers fuel cursor (healthy s) = (Ok tt, healthy (foldl visit s l2)).
Proof.
  revert l1 l2 cursor s. induction fuel as [|fuel IH]; intros l1 l2 cursor s Hs E -> Hf; [lia|].
  assert (due_after (id <$> last l1) s = l2) as Hrest.
  { destruct (last l1) as [x|] eqn:Hx.
    - apply last_Some in Hx as [l1' ->]. rewrite <- app_assoc in E. by apply (due_after_split l1' x l2).
    - apply last_None in Hx as ->. exact E. }
  cbn [scan_loop]. unfold bind at 1. rewrite query_healthy, Hrest.
  destruct (last (take APPEAL_WINDOW_SCAN_PAGE_SIZE l2)) as [c|] eqn:Hc.
  - unfold bind. rewrite (for_each_healthy remind visit) by (intros; apply remind_healthy).
    rewrite length_take. destruct (Nat.ltb_spec (APPEAL_WINDOW_SCAN_PAGE_SIZE `min` length l2) APPEAL_WINDOW_SCAN_PAGE_SIZE) as [Hl|Hl].
    + rewrite take_ge by lia. done.
    + rewrite (IH (l1 ++ take APPEAL_WINDOW_SCAN_PAGE_SIZE l2)%list (drop APPEAL_WINDOW_SCAN_PAGE_SIZE l2)).
      * by rewrite <- foldl_app, take_drop.
      * by rewrite visit_all_claims.
      * rewrite <- app_assoc, take_drop, <- E. unfold AppealReminder.due_after. by rewrite visit_all_claims.
      * rewrite last_app, Hc. done.
      * rewrite length_drop. unfold APPEAL_WINDOW_SCAN_PAGE_SIZE in *. lia.
  - apply last_None in Hc. assert (l2 = []) as -> by by destruct l2. done.
Qed.

(** Different claims do not interfere. *)
Lemma visit_all l s :
  NoDup (id <$> l) →
  reminders (foldl visit s l) =
    (reminders s ++ (reminder_of currentLedger <$> List.filter (λ c, negb (hasPendingReminder (creatorAddress c) (id c) s)) l))%list.
Proof.
  revert s. induction l as [|c l IH]; intros s Hn; [by rewrite app_nil_r|]. apply NoDup_cons in Hn as [Hc Hn].
  cbn [foldl List.filter]. rewrite IH by done. unfold visit. destruct (hasPendingReminder (creatorAddress c) (id c) s) eqn:Hp; [done|].
  cbn [negb reminders fmap list_fmap]. rewrite <- app_assoc. f_equal. cbn [app]. f_equal. f_equal. apply List.filter_ext_in.
  intros y Hy. f_equal. unfold hasPendingReminder. cbn [reminders]. rewrite existsb_app. cbn [existsb reminder_of userId acknowledged claimId].
  assert (id c ≠ id y) as Hne by (intros E; apply Hc; rewrite E; apply list_elem_of_fmap_2; by apply list_elem_of_In).
  destruct (Z.eqb_spec (id c) (id y)); [done|]. rewrite andb_false_r. cbn [orb]. by rewrite orb_false_r.
Qed.
End facts.

Lemma visit_all_ledger l cs s : lastProcessedLedger (foldl (visit l) s cs) = lastProcessedLedger s.
Proof. revert s. induction cs as [|c cs IH]; intros s; [done|]. cbn [foldl]. rewrite IH. unfold visit. by destruct (hasPendingReminder _ _ s). Qed.
Lemma store_eta s : s = Store (claims s) (reminders s) (lastProcessedLedger s).
Proof. by destruct s. Qed.
Lemma by_id_unique l : by_id l → NoDup (id <$> l).
Proof.
  induction 1 as [|x l _ IH Hx]; [constructor|]. constructor; [|done]. intros (y & E & Hy)%list_elem_of_fmap.
  rewrite Forall_forall in Hx. specialize (Hx y Hy). cbn in Hx. lia.
Qed.

Lemma scan_run leadLedgers currentLedger s :
  by_id (claims s) → lastProcessedLedger s = Some currentLedger → currentLedger ≠ 0 →
  runScan false false leadLedgers (healthy s) =
    (Ok tt, healthy (Store (claims s)
       (reminders s ++ (reminder_of currentLedger <$>
          List.filter (λ c, due currentLedger leadLedgers c && negb (hasPendingReminder (creatorAddress c) (id c) s)) (claims s)))%list
       (lastProcessedLedger s))).
Proof.
  intros Hs Hl H0. unfold runScan. cbn [orb]. apply try_ok. unfold bind. rewrite query_healthy, Hl.
  destruct (Z.eqb_spec currentLedger 0); [done|]. cbn [rstate healthy].
  assert (due_after currentLedger leadLedgers None s = List.filter (due currentLedger leadLedgers) (claims s)) as Hd.
  { unfold due_after. apply List.filter_ext. intros c. cbn. by rewrite andb_true_r. }
  rewrite (scan_healthy currentLedger leadLedgers _ [] (List.filter (due currentLedger leadLedgers) (claims s)) None s Hs Hd eq_refl).
  - do 2 f_equal. rewrite (store_eta (foldl _ _ _)), visit_all_claims, visit_all_ledger. f_equal.
    rewrite visit_all by (apply filter_keys_unique; by apply by_id_unique). { by rewrite filter_filter. } exact Hl.
  - apply Nat.lt_succ_r. apply List.filter_length_le.
Qed.

(** What a scan does.  On a healthy database, with the index at a ledger, the scan
    leaves one more reminder for each rejected, unappealed claim whose window
    closes within the lead and whose claimant has no pending one, in the order of
    the ids, and changes nothing else. *)
Theorem scan_exact leadLedgers currentLedger s :
  by_id (claims s) → lastProcessedLedger s = Some currentLedger → currentLedger ≠ 0 →
  runScan false false leadLedgers (healthy s) =
    (Ok tt, healthy (Store (claims s)
       (reminders s ++ (reminder_of currentLedger <$>
          List.filter (λ c, due currentLedger leadLedgers c && negb (hasPendingReminder (creatorAddress c) (id c) s)) (claims s)))%list
       (lastProcessedLedger s))).
Proof. exact (scan_run leadLedgers currentLedger s). Qed.

(** At most one pending reminder per claim and claimant.  Whichever statements of a
    scan fail, no claimant is left with two unacknowledged reminders of one claim. *)
Definition one_pending (w : rworld store) : Prop :=
  NoDup ((λ r, (userId r, claimId r)) <$> List.filter (λ r, negb (acknowledged r)) (reminders (rstate w))).

Lemma remind_pending l c w : one_pending w → one_pending (world_of (remind l c) w).
Proof.
  unfold world_of, remind, bind, query, update, cmd, one_pending. intros Hw. destruct (faults w) as [|[] fs]; [| done |].
  all: destruct (hasPendingReminder _ _ _) eqn:Hp; cbn [snd rstate faults tail]; [done|].
  all: destruct fs as [|[] fs] || idtac; cbn [snd rstate reminders]; try done.
  all: rewrite List.filter_app, fmap_app; cbn; apply NoDup_app; split_and!; [done| |apply NoDup_singleton].
  all: intros x (r & -> & [Hr Ha]%elem_of_bfilter)%list_elem_of_fmap Hx; apply list_elem_of_singleton in Hx; injection Hx as Hu Hi.
  all: apply Bool.not_true_iff_false in Hp; apply Hp; apply existsb_exists; exists r; (split; [by apply list_elem_of_In|]).
  all: by rewrite Ha, bool_decide_true, Hi, Z.eqb_refl.
Qed.

Lemma scan_pending l lead fuel cursor w : one_pending w → one_pending (world_of (scan_loop l lead fuel cursor) w).
Proof.
  revert cursor w. induction fuel as [|fuel IH]; intros cursor w Hw; [done|]. cbn [scan_loop]. unfold world_of, bind at 1, query, cmd.
  destruct (faults w) as [|[] fs]; [|done|].
  all: destruct (last _); [|done]; unfold bind.
  all: match goal with |- context [for_each ?p ?b ?w1] => assert (one_pending (world_of (for_each p b) w1)) as Hp
    by (apply for_each_invariant; [intros x w2 _; apply remind_pending|done]); unfold world_of in Hp; destruct (for_each p b w1) as [[[]|e] w3] end.
  all: cbn [snd] in Hp; try done; (destruct (_ <? _)%nat; [done|by apply IH]).
Qed.

Theorem one_pending_reminder disabled running lead w :
  one_pending w → one_pending (snd (runScan disabled running lead w)).
Proof.
  intros Hw. unfold runScan. destruct (disabled || running); [done|]. unfold try_catch, bind, query, cmd.
  destruct (faults w) as [|[] fs]; [|done|].
  all: destruct (lastProcessedLedger _) as [l|]; [|done]; destruct (l =? 0); [done|].
  all: match goal with |- context [scan_loop ?a ?b ?f ?c ?w1] => pose proof (scan_pending a b f c w1 Hw) as Hp end.
  all: unfold world_of in Hp; destruct (scan_loop _ _ _ _ _) as [[[]|e] w2]; exact Hp.
Qed.

(** An acknowledged reminder comes back.  Only unacknowledged reminders count as
    sent: when the claimant has acknowledged every reminder of a claim that is
    still due, the next scan leaves another one. *)
Theorem acknowledged_reminder_repeated leadLedgers currentLedger s c :
  by_id (claims s) → lastProcessedLedger s = Some currentLedger → currentLedger ≠ 0 → c ∈ claims s →
  due currentLedger leadLedgers c = true → Forall (λ r, claimId r = id c → acknowledged r = true) (reminders s) →
  ∃ rs, reminders (rstate (snd (runScan false false leadLedgers (healthy s)))) = (reminders s ++ rs)%list ∧
    reminder_of currentLedger c ∈ rs.
Proof.
  intros Hs Hl H0 Hc Hd Ha. rewrite (scan_run leadLedgers currentLedger s Hs Hl H0). eexists. split; [done|].
  apply list_elem_of_fmap_2. apply elem_of_bfilter. split; [done|]. rewrite Hd. cbn [andb]. apply negb_true_iff, Bool.not_true_iff_false.
  intros (r & Hr & Hp)%existsb_exists. bool_prop. rewrite Forall_forall in Ha. apply list_elem_of_In in Hr.
  specialize (Ha r Hr). naive_solver congruence.
Qed.

(** ** At concrete inputs *)

Module ReminderWitnesses.

Definition rejected (i deadline : Z) : ClaimRow :=
  {| id := i; creatorAddress := "GA"; status := "REJECTED"; appealsCount := 0; deleted := false;
     appealOpenDeadlineLedger := Some deadline; updatedAtLedger := 0 |}.
Definition acked : Reminder := {| userId := "GA"; claimId := 1; deadlineLedger := 110; ledgersRemaining := 12; acknowledged := true |}.
Definition sample : store := Store [rejected 1 110; rejected 2 100; rejected 3 120] [acked] (Some 100).

Lemma sample_sorted : by_id (claims sample).
Proof. repeat constructor. Qed.

(** The second claim's window has just closed. *)
Lemma scan_exact_witness :
  runScan false false 20 (healthy sample) =
    (Ok tt, healthy (Store (claims sample) [acked; reminder_of 100 (rejected 1 110); reminder_of 100 (rejected 3 120)] (Some 100))).
Proof. exact (scan_exact 20 100 sample sample_sorted eq_refl ltac:(discriminate)). Defined.

Lemma one_pending_reminder_witness : one_pending (snd (runScan false false 20 (RWorld sample [false; false; false; false; false; true]))).
Proof. apply one_pending_reminder. constructor. Defined.

Lemma acknowledged_reminder_repeated_witness :
  ∃ rs, reminders (rstate (snd (runScan false false 20 (healthy sample)))) = (acked :: rs)%list ∧ reminder_of 100 (rejected 1 110) ∈ rs.
Proof.
  apply (acknowledged_reminder_repeated 20 100 sample (rejected 1 110) sample_sorted eq_refl).
  - discriminate.
  - left.
  - reflexivity.
  - repeat constructor.
Defined.
End ReminderWitnesses.
