(* ===== verification/Support.v ===== *)
(** * Support tickets

    backend/src/support/support.service.ts and captcha.service.ts with
    backend/src/maintenance/support-ticket-autoclose.service.ts: tickets, replies,
    assignment, status changes, automatic closing and reopening, the questions and
    answers of the support page.  The database, the mail server and the webhook
    answer a command or reject it; the rows of a table stand in the order in which
    they were created.  The administrative routes are those of
    backend/src/admin/admin.controller.ts. *)

From stdpp Require Import base list strings sorting.
From Stdlib Require Import ZArith Lia Sorted.
From S2P Require Import Prelude Keyset JsText Redis.

Open Scope string_scope.
Open Scope Z_scope.

Inductive TicketStatus := OPEN | IN_PROGRESS | RESOLVED | CLOSED.
#[export] Instance ticket_status_eq_dec : EqDecision TicketStatus.
Proof. solve_decision. Defined.

Record SupportTicket := {
  id : string; email : string; subject : string; message : string; ipHash : option string; walletAddress : option string;
  status : TicketStatus; assignedTo : option string; firstRespondedAt : option Z; createdAt : Z; updatedAt : Z }.

Record SupportTicketReply := { r_ticketId : string; r_message : string; r_author : string; r_createdAt : Z }.

(** The payloads of the audit rows. *)
Inductive TicketAction :=
  | StatusUpdated (ticketId : string) (from to : TicketStatus) (notes : option string)
  | Assigned (ticketId : string) (from to : option string)
  | Autoclosed (ticketId : string) (daysInactive closedAt inactivityThreshold : Z)
  | Reopened (ticketId : string).
Record AuditRow := { actor : string; action : TicketAction; ipAddress : option string; at_ : Z }.

Record FaqItem := { f_id : string; question : string; answer : string; category : string; displayOrder : Z }.

(** The tables, with the mails and webhook calls that were accepted. *)
Record store := Store {
  tickets : list SupportTicket; ticket_replies : list SupportTicketReply; audits : list AuditRow; faqs : list FaqItem;
  faqStats : list (string * Z); emails : list (string * string * TicketStatus); posted : list string }.

Inductive SupportError := BadRequest (msg : string) | NotFound (msg : string) | Internal (msg : string).
Abbreviation MS A := (M (rworld store) SupportError A).

(** A rejected command is an internal error of the request. *)
Definition db {A} (m : M (rworld store) string A) : MS A := try_catch m (λ e, throw (Internal e)).

Definition set_tickets (f : list SupportTicket → list SupportTicket) (s : store) : store :=
  Store (f (tickets s)) (ticket_replies s) (audits s) (faqs s) (faqStats s) (emails s) (posted s).
Definition set_faqs (f : list FaqItem → list FaqItem) (s : store) : store :=
  Store (tickets s) (ticket_replies s) (audits s) (f (faqs s)) (faqStats s) (emails s) (posted s).
Definition audit (r : AuditRow) (s : store) : store :=
  Store (tickets s) (ticket_replies s) (audits s ++ [r])%list (faqs s) (faqStats s) (emails s) (posted s).

Definition find_ticket (i : string) (s : store) : option SupportTicket := List.find (λ t, String.eqb (id t) i) (tickets s).
Definition change (sel : SupportTicket → bool) (f : SupportTicket → SupportTicket) : store → store :=
  set_tickets (fmap (λ t, if sel t then f t else t)).

(** [update] with a unique key rejects when there is no such row. *)
Definition update_ticket (i : string) (f : SupportTicket → SupportTicket) : MS SupportTicket :=
  let* r := db (cmd (λ s, (f <$> find_ticket i s, change (λ t, String.eqb (id t) i) f s))) in
  match r with Some t => ret t | None => throw (Internal "Record to update not found") end.

Definition create_audit (r : AuditRow) : MS () := db (update (audit r)).

(** ** The CAPTCHA *)

(** [answer]: the provider's verdict, or a failed request.
    Models [verify] (backend/src/support/captcha.service.ts:11-45). *)
Definition captcha_verify (secret : option string) (answer : result string bool) : bool :=
  match truthy secret with
  | None => true
  | Some s => if String.eqb s "dev-skip" then true else match answer with Ok success => success | Throw _ => false end
  end.

(** ** Tickets *)

Record TicketResponse := {
  p_id : string; p_email : string; p_subject : string; p_message : string; p_status : TicketStatus; p_assignedTo : option string;
  p_ipHash : string; p_firstRespondedAt : option Z; p_createdAt : Z; p_updatedAt : Z }.

(** Models [mapToResponse] (backend/src/support/support.service.ts:334-347). *)
Definition mapToResponse (t : SupportTicket) : TicketResponse :=
  {| p_id := id t; p_email := email t; p_subject := subject t; p_message := message t; p_status := status t;
     p_assignedTo := assignedTo t; p_ipHash := default "" (ipHash t); p_firstRespondedAt := firstRespondedAt t;
     p_createdAt := createdAt t; p_updatedAt := updatedAt t |}.

Record CreateTicketDto := { d_email : string; d_subject : string; d_message : string }.

Section service.
(** The SHA-256 digest in hexadecimal, and the two settings. *)
Variable sha256 : string → string.
Variables ip_salt webhook_url : option string.

(** Models [hashIp] (backend/src/support/support.service.ts:293-297). *)
Definition hashIp (ip : string) : string := sha256 (ip +:+ default "niff-salt" ip_salt).

(** A failed call is logged.
    Models [notifyWebhook] (backend/src/support/support.service.ts:262-291). *)
Definition notifyWebhook (t : SupportTicket) : MS () :=
  match truthy webhook_url with
  | None => ret tt
  | Some _ =>
      try_catch (update (λ s, Store (tickets s) (ticket_replies s) (audits s) (faqs s) (faqStats s) (emails s) (posted s ++ [id t])%list))
        (λ _, ret tt)
  end.

(** [fresh]: the id the database generates.
    Models [submitTicket] (backend/src/support/support.service.ts:25-45). *)
Definition submitTicket (now : Z) (fresh : string) (captcha : bool) (dto : CreateTicketDto) (remoteIp wallet : option string) :
    MS TicketResponse :=
  if captcha then
    let ticket := {| id := fresh; email := toLowerCase (d_email dto); subject := d_subject dto; message := d_message dto;
                     ipHash := hashIp <$> truthy remoteIp; walletAddress := wallet; status := OPEN; assignedTo := None;
                     firstRespondedAt := None; createdAt := now; updatedAt := now |} in
    do* db (update (set_tickets (λ l, l ++ [ticket])%list)) in
    do* notifyWebhook ticket in
    ret (mapToResponse ticket)
  else throw (BadRequest "CAPTCHA verification failed").
End service.

Definition read_ticket (i : string) : MS SupportTicket :=
  let* r := db (query (find_ticket i)) in
  match r with Some t => ret t | None => throw (BadRequest ("Ticket " +:+ i +:+ " not found")) end.

Definition with_status (st : TicketStatus) (first : option Z) (now : Z) (t : SupportTicket) : SupportTicket :=
  {| id := id t; email := email t; subject := subject t; message := message t; ipHash := ipHash t; walletAddress := walletAddress t;
     status := st; assignedTo := assignedTo t; firstRespondedAt := first; createdAt := createdAt t; updatedAt := now |}.

(** Models [reopenIfReply] (backend/src/maintenance/support-ticket-autoclose.service.ts:68-95). *)
Definition reopenIfReply (now : Z) (i : string) : MS () :=
  let* r := db (query (find_ticket i)) in
  match r with
  | None => ret tt
  | Some t =>
      if bool_decide (status t = CLOSED) && bool_decide (is_Some (firstRespondedAt t)) then
        do* update_ticket i (λ t, with_status IN_PROGRESS (firstRespondedAt t) now t) in
        create_audit {| actor := "system"; action := Reopened i; ipAddress := None; at_ := now |}
      else ret tt
  end.

(** [autoclose]: the closing service was supplied.
    Models [addCustomerReply] (backend/src/support/support.service.ts:47-68). *)
Definition addCustomerReply (autoclose : bool) (now : Z) (i msg : string) : MS SupportTicketReply :=
  do* read_ticket i in
  let reply := {| r_ticketId := i; r_message := msg; r_author := "customer"; r_createdAt := now |} in
  do* db (update (λ s, Store (tickets s) (ticket_replies s ++ [reply])%list (audits s) (faqs s) (faqStats s) (emails s) (posted s))) in
  do* (if autoclose then reopenIfReply now i else ret tt) in
  ret reply.

(** Models [sendStatusEmail] (backend/src/support/support.service.ts:167-182). *)
Definition sendStatusEmail (to subj : string) (st : TicketStatus) : MS () :=
  try_catch (update (λ s, Store (tickets s) (ticket_replies s) (audits s) (faqs s) (faqStats s) (emails s ++ [(to, subj, st)])%list (posted s)))
    (λ _, ret tt).

(** Models [updateTicketStatus] (backend/src/support/support.service.ts:70-106). *)
Definition updateTicketStatus (now : Z) (i : string) (st : TicketStatus) (notes : option string) (by_ : string) (ip : option string) :
    MS TicketResponse :=
  let* ticket := read_ticket i in
  let* updated := update_ticket i (λ t,
    with_status st (match firstRespondedAt ticket with None => Some now | Some _ => firstRespondedAt t end) now t) in
  do* create_audit {| actor := by_; action := StatusUpdated i (status ticket) st notes; ipAddress := ip; at_ := now |} in
  do* sendStatusEmail (email updated) (subject updated) st in
  ret (mapToResponse updated).

Definition with_assignee (a : option string) (now : Z) (t : SupportTicket) : SupportTicket :=
  {| id := id t; email := email t; subject := subject t; message := message t; ipHash := ipHash t; walletAddress := walletAddress t;
     status := status t; assignedTo := a; firstRespondedAt := firstRespondedAt t; createdAt := createdAt t; updatedAt := now |}.

(** Models [assignTicket] (backend/src/support/support.service.ts:108-136). *)
Definition assignTicket (now : Z) (i : string) (assignee : option string) (by_ : string) (ip : option string) : MS TicketResponse :=
  let* ticket := read_ticket i in
  let* updated := update_ticket i (with_assignee assignee now) in
  do* create_audit {| actor := by_; action := Assigned i (assignedTo ticket) assignee; ipAddress := ip; at_ := now |} in
  ret (mapToResponse updated).

(** Models [getTicket] (backend/src/support/support.service.ts:138-144). *)
Definition getTicket (i : string) : MS TicketResponse := let* t := read_ticket i in ret (mapToResponse t).

(** [orderBy createdAt desc]; tickets created at the same instant stand in the
    order of the table. *)
Definition newest_first (l : list SupportTicket) : list SupportTicket := stable_sort (λ a b, createdAt a <? createdAt b) l.

Definition page_of (sel : SupportTicket → bool) (limit offset : Z) (s : store) : list TicketResponse * Z :=
  let l := List.filter sel (tickets s) in
  (mapToResponse <$> take (Z.to_nat limit) (drop (Z.to_nat offset) (newest_first l)), Z.of_nat (length l)).

(** Models [listTicketsForWallet] (backend/src/support/support.service.ts:146-165). *)
Definition listTicketsForWallet (wallet : string) (limit offset : Z) : MS (list TicketResponse * Z) :=
  if (limit <? 1) || (100 <? limit) then throw (BadRequest "Ticket limit must be between 1 and 100")
  else if offset <? 0 then throw (BadRequest "Ticket offset must be a non-negative integer")
  else db (query (page_of (λ t, bool_decide (walletAddress t = Some wallet)) limit offset)).

(** [assigned]: undefined is [None], null is [Some None].  Both null and the empty
    string become undefined again, which is no condition.
    Models [listTickets] (backend/src/support/support.service.ts:184-208). *)
Definition listTickets (limit offset : nat) (assigned : option (option string)) (st : option TicketStatus) : MS (list TicketResponse * Z) :=
  let by_assignee t := match truthy (mjoin assigned) with Some a => bool_decide (assignedTo t = Some a) | None => true end in
  let by_status t := match st with Some x => bool_decide (status t = x) | None => true end in
  db (query (page_of (λ t, by_assignee t && by_status t) (Z.of_nat limit) (Z.of_nat offset))).

(** ** Automatic closing *)

Definition DEFAULT_AUTOCLOSE_DAYS_INACTIVE : Z := 7.
Definition DAY_MS : Z := 24 * 60 * 60 * 1000.

(** The condition of both statements: open or in progress, answered once, and not
    updated since the threshold. *)
Definition inactive (threshold : Z) (t : SupportTicket) : bool :=
  (bool_decide (status t = OPEN) || bool_decide (status t = IN_PROGRESS)) && bool_decide (is_Some (firstRespondedAt t)) &&
  (updatedAt t <? threshold).

(** [days]: SUPPORT_TICKET_AUTOCLOSE_DAYS_INACTIVE; [start] and [now] are the two
    readings of the clock.
    Models [autoCloseInactiveTickets] (backend/src/maintenance/support-ticket-autoclose.service.ts:16-66). *)
Definition autoCloseInactiveTickets (days : option Z) (start now : Z) : MS nat :=
  let daysInactive := match days with Some d => if d =? 0 then DEFAULT_AUTOCLOSE_DAYS_INACTIVE else d | None => DEFAULT_AUTOCLOSE_DAYS_INACTIVE end in
  let threshold := start - daysInactive * DAY_MS in
  let* ticketsToClose := db (query (λ s, List.filter (inactive threshold) (tickets s))) in
  if (length ticketsToClose =? 0)%nat then ret 0%nat
  else
    let* closed := db (cmd (λ s, (length (List.filter (inactive threshold) (tickets s)),
                                  change (inactive threshold) (λ t, with_status CLOSED (firstRespondedAt t) now t) s))) in
    do* for_each ticketsToClose (λ t,
      create_audit {| actor := "system"; action := Autoclosed (id t) daysInactive now threshold; ipAddress := None; at_ := now |}) in
    ret closed.

(** ** First responses *)

Record ResponseStats := { totalResponded : nat; responseTimes : list Z; slaBreachedCount : nat }.

(** The average is that of [responseTimes], or null when there are none; the
    division of doubles is left out.
    Models [getFirstResponseStats] (backend/src/support/support.service.ts:299-332). *)
Definition getFirstResponseStats (now slaHours : Z) : MS ResponseStats :=
  let slaDeadline := now - slaHours * 60 * 60 * 1000 in
  let* allResponded := db (query (λ s, List.filter (λ t, bool_decide (is_Some (firstRespondedAt t))) (tickets s))) in
  let* slaBreached := db (query (λ s, length (List.filter (λ t, bool_decide (firstRespondedAt t = None) && bool_decide (status t = OPEN) &&
                                                      (createdAt t <? slaDeadline)) (tickets s)))) in
  ret {| totalResponded := length allResponded;
         responseTimes := (λ t, default 0 (firstRespondedAt t) - createdAt t) <$> allResponded;
         slaBreachedCount := slaBreached |}.

(** ** Questions and answers *)

Definition sorted_faqs (s : store) : list FaqItem := stable_sort (λ a b, displayOrder b <? displayOrder a) (faqs s).
Definition find_faq (i : string) (s : store) : option FaqItem := List.find (λ f, String.eqb (f_id f) i) (faqs s).

(** Models [listFaqItems] (backend/src/support/support.service.ts:219-223). *)
Definition listFaqItems : MS (list FaqItem) := db (query sorted_faqs).

Fixpoint count_expansion (i : string) (l : list (string * Z)) : list (string * Z) :=
  match l with
  | [] => [(i, 1)]
  | (j, n) :: l' => if String.eqb j i then (j, n + 1) :: l' else (j, n) :: count_expansion i l'
  end.

(** Models [trackFaqExpansion] (backend/src/support/support.service.ts:210-217). *)
Definition trackFaqExpansion (i : string) : MS () :=
  db (update (λ s, Store (tickets s) (ticket_replies s) (audits s) (faqs s) (count_expansion i (faqStats s)) (emails s) (posted s))).

Record FaqDto := { u_question : option string; u_answer : option string; u_category : option string; u_displayOrder : option Z }.

Definition max_order (s : store) : option Z :=
  match faqs s with [] => None | f :: l => Some (foldr Z.max (displayOrder f) (displayOrder <$> l)) end.

(** Models [createFaqItem] (backend/src/support/support.service.ts:225-236). *)
Definition createFaqItem (fresh q a : string) (cat : option string) (order : option Z) : MS FaqItem :=
  let* maxOrder := db (query max_order) in
  let nextOrder := default (-1) maxOrder + 1 in
  let item := {| f_id := fresh; question := q; answer := a; category := default "General" cat; displayOrder := default nextOrder order |} in
  do* db (update (set_faqs (λ l, l ++ [item])%list)) in
  ret item.

Definition apply_faq (dto : FaqDto) (f : FaqItem) : FaqItem :=
  {| f_id := f_id f; question := default (question f) (u_question dto); answer := default (answer f) (u_answer dto);
     category := default (category f) (u_category dto); displayOrder := default (displayOrder f) (u_displayOrder dto) |}.
Definition change_faq (i : string) (f : FaqItem → FaqItem) (l : list FaqItem) : list FaqItem :=
  (λ x, if String.eqb (f_id x) i then f x else x) <$> l.

Definition read_faq (i : string) : MS FaqItem :=
  let* r := db (query (find_faq i)) in
  match r with Some f => ret f | None => throw (NotFound ("FAQ item " +:+ i +:+ " not found")) end.

(** Models [updateFaqItem] (backend/src/support/support.service.ts:238-242). *)
Definition updateFaqItem (i : string) (dto : FaqDto) : MS FaqItem :=
  do* read_faq i in
  let* r := db (cmd (λ s, (apply_faq dto <$> find_faq i s, set_faqs (change_faq i (apply_faq dto)) s))) in
  match r with Some f => ret f | None => throw (Internal "Record to update not found") end.

(** Models [deleteFaqItem] (backend/src/support/support.service.ts:244-248). *)
Definition deleteFaqItem (i : string) : MS () :=
  do* read_faq i in
  db (update (set_faqs (List.filter (λ f, negb (String.eqb (f_id f) i))))).

Definition with_order (n : Z) (f : FaqItem) : FaqItem :=
  {| f_id := f_id f; question := question f; answer := answer f; category := category f; displayOrder := n |}.

(** The updates of one transaction, all or none. *)
Fixpoint reorder (items : list (string * Z)) (s : store) : option store :=
  match items with
  | [] => Some s
  | (i, n) :: rest =>
      match find_faq i s with
      | Some _ => reorder rest (set_faqs (change_faq i (with_order n)) s)
      | None => None
      end
  end.

(** Models [reorderFaqItems] (backend/src/support/support.service.ts:250-260). *)
Definition reorderFaqItems (items : list (string * Z)) : MS (list FaqItem) :=
  let* done := db (cmd (λ s, match reorder items s with Some s' => (true, s') | None => (false, s) end)) in
  if done then listFaqItems else throw (Internal "Record to update not found").

(** ** Tickets evolve *)

(** A ticket out of the state OPEN has been answered. *)
Definition responded (t : SupportTicket) : Prop := status t ≠ OPEN → is_Some (firstRespondedAt t).

Definition ticket_le (t t' : SupportTicket) : Prop :=
  id t' = id t ∧ (∀ x, firstRespondedAt t = Some x → firstRespondedAt t' = Some x) ∧ (responded t → responded t').

#[local] Instance ticket_le_preorder : PreOrder ticket_le.
Proof.
  split; [intros t; by split_and!|]. intros a b c (H1 & H2 & H3) (H4 & H5 & H6). split_and!; [congruence|auto|auto].
Qed.

Definition ids_unique (s : store) : Prop := NoDup (id <$> tickets s).

(** Rows stay in place and new ones follow, as long as ids are unique. *)
Definition evolves (s s' : store) : Prop :=
  ids_unique s →
  ids_unique s' ∧ ∃ l new, tickets s' = (l ++ new)%list ∧ Forall2 ticket_le (tickets s) l ∧ Forall responded new.

#[local] Instance evolves_preorder : PreOrder evolves.
Proof.
  split.
  - intros s Hu. split; [done|]. exists (tickets s), []. split_and!; [by rewrite app_nil_r|reflexivity|constructor].
  - intros a b c Hab Hbc Hu. destruct (Hab Hu) as (Hb & l & new & E & Hl & Hn). destruct (Hbc Hb) as (Hc & l' & new' & E' & Hl' & Hn').
    split; [done|]. rewrite E in Hl'. apply Forall2_app_inv_l in Hl' as (l1 & l2 & H1 & H2 & ->).
    exists l1, (l2 ++ new')%list. split_and!; [by rewrite E', app_assoc|by etrans|]. apply Forall_app. split; [|done].
    clear -H2 Hn. induction H2 as [|x y xs ys Hxy _ IH]; [constructor|]. apply Forall_cons in Hn as [Hx Hn].
    constructor; [by apply Hxy|by apply IH].
Qed.

Definition evolvesW (w w' : rworld store) : Prop := evolves (rstate w) (rstate w').
#[local] Instance evolvesW_preorder : PreOrder evolvesW.
Proof. split; [intros w; unfold evolvesW; done|intros a b c; unfold evolvesW; apply transitivity]. Qed.

Lemma same_tickets s s' : tickets s' = tickets s → evolves s s'.
Proof. unfold evolves, ids_unique. intros -> Hu. split; [done|]. exists (tickets s), []. split_and!; [by rewrite app_nil_r|reflexivity|constructor]. Qed.

(** Rewriting rows in place. *)
Lemma change_evolves sel f s :
  (∀ t, ids_unique s → t ∈ tickets s → sel t = true → ticket_le t (f t)) → evolves s (change sel f s).
Proof.
  intros Hf Hu. assert (Forall (λ t, ticket_le t (if sel t then f t else t)) (tickets s)) as Hall.
  { apply Forall_forall. intros t Ht. destruct (sel t) eqn:E; [by apply Hf|done]. }
  split.
  - unfold ids_unique, change, set_tickets. cbn [tickets]. rewrite <- list_fmap_compose.
    erewrite list_fmap_ext; [exact Hu|]. intros k t Ht. cbn. rewrite Forall_forall in Hall.
    by destruct (Hall t (list_elem_of_lookup_2 _ _ _ Ht)) as [-> _].
  - eexists _, []. split_and!; [by rewrite app_nil_r| |constructor]. cbn [tickets change set_tickets].
    clear -Hall. induction Hall as [|t l Ht _ IH]; [constructor|]. by constructor.
Qed.

Lemma db_cmd_evolves {A} (f : store → A * store) : (∀ s, evolves s (f s).2) → keeps evolvesW (db (cmd f)).
Proof.
  intros Hf w. unfold world_of, db, try_catch, cmd, evolvesW. specialize (Hf (rstate w)).
  destruct (faults w) as [|[] fs]; cbn [rstate fst snd]; [|apply (reflexivity (R:=evolves))|]; destruct (f (rstate w)) as [a s]; exact Hf.
Qed.

Lemma quiet_evolves f : (∀ s, tickets (f s) = tickets s) → keeps evolvesW (db (update f)).
Proof. intros Hf. apply db_cmd_evolves. intros s. apply same_tickets, Hf. Qed.

Lemma quiet_caught f : (∀ s, tickets (f s) = tickets s) → keeps evolvesW (try_catch (E':=SupportError) (update f) (λ _, ret tt)).
Proof.
  intros Hf w. unfold world_of, try_catch, update, cmd, evolvesW.
  destruct (faults w) as [|[] fs]; cbn [rstate fst snd]; [|apply (reflexivity (R:=evolves))|]; apply same_tickets, Hf.
Qed.

(** The row with a given id is the one that was read. *)
Lemma found_is s i t t' : ids_unique s → find_ticket i s = Some t → t' ∈ tickets s → id t' = i → t' = t.
Proof.
  unfold ids_unique, find_ticket. intros Hu Hf Ht Hi. apply List.find_some in Hf as [Hin Heq]. apply String.eqb_eq in Heq.
  apply list_elem_of_In in Hin. apply list_elem_of_lookup in Hin as [k Hk], Ht as [k' Hk'].
  assert (k' = k) as ->; [|congruence]. eapply NoDup_lookup; [exact Hu| |]; rewrite list_lookup_fmap.
  - by rewrite Hk'.
  - rewrite Hk. cbn. congruence.
Qed.

Lemma update_ticket_evolves i f w t :
  find_ticket i (rstate w) = Some t → ticket_le t (f t) → evolvesW w (world_of (update_ticket i f) w).
Proof.
  intros Hf Ht. assert (evolves (rstate w) (change (λ t, String.eqb (id t) i) f (rstate w))) as Hc.
  { apply change_evolves. intros t' Hu Hin He%String.eqb_eq. by rewrite (found_is _ i t t' Hu Hf Hin He). }
  unfold update_ticket, world_of, bind, db, try_catch, cmd, evolvesW.
  destruct (faults w) as [|[] fs]; cbn [rstate fst snd]; [|apply (reflexivity (R:=evolves))|]; rewrite Hf; exact Hc.
Qed.

Lemma bind_assoc {W Er A B C} (m : M W Er A) (f : A → M W Er B) (g : B → M W Er C) w :
  bind (bind m f) g w = bind m (λ a, bind (f a) g) w.
Proof. unfold bind. by destruct (m w) as [[a|e] w1]. Qed.

(** A command that reads, and what follows it in the same state. *)
Lemma query_then {A B} (q : store → A) (k : A → MS B) w :
  (∀ w', rstate w' = rstate w → evolvesW w' (world_of (k (q (rstate w))) w')) → evolvesW w (world_of (bind (db (query q)) k) w).
Proof.
  intros Hk. unfold world_of, bind, db, try_catch, query, cmd in *. destruct (faults w) as [|[] fs]; cbn [rstate fst snd]; [|apply (reflexivity (R:=evolves))|]; cbn [rstate fst snd];
    apply (Hk (RWorld (rstate w) _) eq_refl).
Qed.

Lemma read_then {B} i (k : SupportTicket → MS B) w :
  (∀ t w', rstate w' = rstate w → find_ticket i (rstate w) = Some t → evolvesW w' (world_of (k t) w')) →
  evolvesW w (world_of (bind (read_ticket i) k) w).
Proof.
  intros Hk. unfold read_ticket, world_of. rewrite bind_assoc. apply query_then. intros w' E.
  destruct (find_ticket i (rstate w)) as [t|]; [|apply reflexivity]. by apply (Hk t w').
Qed.

Lemma then_evolves {A B} (m : MS A) (k : A → MS B) w :
  evolvesW w (world_of m w) → (∀ a, keeps evolvesW (k a)) → evolvesW w (world_of (bind m k) w).
Proof.
  intros Hm Hk. unfold world_of, bind in *. destruct (m w) as [[a|e] w1]; [|done]. etrans; [exact Hm|]. apply Hk.
Qed.

Lemma ticket_le_with_status st first now t :
  (∀ x, firstRespondedAt t = Some x → first = Some x) → is_Some first → ticket_le t (with_status st first now t).
Proof. intros H1 H2. split_and!; [done|exact H1|]. intros _ _. exact H2. Qed.

Lemma reopen_evolves now i : keeps evolvesW (reopenIfReply now i).
Proof.
  intros w. apply query_then. intros w' E. rewrite <- E. destruct (find_ticket i (rstate w')) as [t|] eqn:Ht; [|apply reflexivity].
  destruct (bool_decide (status t = CLOSED) && bool_decide (is_Some (firstRespondedAt t))) eqn:Hc; [|apply reflexivity]. bool_prop.
  apply then_evolves; [|intros _; by apply quiet_evolves].
  eapply update_ticket_evolves; [exact Ht|]. by apply ticket_le_with_status.
Qed.

Lemma assign_evolves now i a by_ ip : keeps evolvesW (assignTicket now i a by_ ip).
Proof.
  intros w. apply read_then. intros t w' E Ht. rewrite <- E in Ht. apply then_evolves.
  - eapply update_ticket_evolves; [exact Ht|]. by split_and!.
  - intros t'. apply keeps_bind; [apply _|by apply quiet_evolves|intros _; apply keeps_ret, _].
Qed.

Lemma status_evolves now i st notes by_ ip : keeps evolvesW (updateTicketStatus now i st notes by_ ip).
Proof.
  intros w. apply read_then. intros t w' E Ht. rewrite <- E in Ht. apply then_evolves.
  - eapply update_ticket_evolves; [exact Ht|]. apply ticket_le_with_status; destruct (firstRespondedAt t); eauto. discriminate.
  - intros t'. apply keeps_bind; [apply _|by apply quiet_evolves|intros _].
    apply keeps_bind; [apply _|by apply quiet_caught|intros _; apply keeps_ret, _].
Qed.

Lemma reply_evolves b now i msg : keeps evolvesW (addCustomerReply b now i msg).
Proof.
  intros w. apply then_evolves.
  - unfold read_ticket. apply query_then. intros w' _. destruct (find_ticket i (rstate w)); apply reflexivity.
  - intros t. apply keeps_bind; [apply _|by apply quiet_evolves|intros _].
    apply keeps_bind; [apply _| |intros _; apply keeps_ret, _]. destruct b; [apply reopen_evolves|apply keeps_ret, _].
Qed.

Lemma autoclose_evolves days start now : keeps evolvesW (autoCloseInactiveTickets days start now).
Proof.
  unfold autoCloseInactiveTickets. apply keeps_bind; [apply _|by apply db_cmd_evolves|intros l].
  destruct (length l =? 0)%nat; [apply keeps_ret, _|]. apply keeps_bind; [apply _| |intros n].
  - apply db_cmd_evolves. intros s. apply change_evolves. intros t _ _ Ht. unfold inactive in Ht. bool_prop. by apply ticket_le_with_status.
  - apply keeps_bind; [apply _| |intros _; apply keeps_ret, _]. apply keeps_for_each; [apply _|]. intros t. by apply quiet_evolves.
Qed.

Section history.
Variable sha256 : string → string.
Variables ip_salt webhook_url : option string.

(** The requests that change tickets. *)
Inductive request :=
  | Submit (now : Z) (fresh : string) (captcha : bool) (dto : CreateTicketDto) (ip wallet : option string)
  | Reply (autoclose : bool) (now : Z) (i msg : string)
  | UpdateStatus (now : Z) (i : string) (st : TicketStatus) (notes : option string) (by_ : string) (ip : option string)
  | Assign (now : Z) (i : string) (a : option string) (by_ : string) (ip : option string)
  | Autoclose (days : option Z) (start now : Z).

Definition handle (r : request) : MS () :=
  match r with
  | Submit now fresh captcha dto ip wallet => do* submitTicket sha256 ip_salt webhook_url now fresh captcha dto ip wallet in ret tt
  | Reply b now i msg => do* addCustomerReply b now i msg in ret tt
  | UpdateStatus now i st notes by_ ip => do* updateTicketStatus now i st notes by_ ip in ret tt
  | Assign now i a by_ ip => do* assignTicket now i a by_ ip in ret tt
  | Autoclose days start now => do* autoCloseInactiveTickets days start now in ret tt
  end.

(** A generated id is not in use. *)
Definition request_ok (r : request) (w : rworld store) : Prop :=
  match r with Submit _ fresh _ _ _ _ => fresh ∉ id <$> tickets (rstate w) | _ => True end.

Lemma handle_evolves r w : request_ok r w → evolvesW w (world_of (handle r) w).
Proof.
  destruct r as [now fresh captcha dto ip wallet|b now i msg|now i st notes by_ ip|now i a by_ ip|days start now]; cbn; intros Hok.
  - apply then_evolves; [|intros; apply keeps_ret, _]. unfold submitTicket. destruct captcha; [|apply reflexivity].
    apply then_evolves.
    + unfold world_of, db, try_catch, update, cmd, evolvesW. destruct (faults w) as [|[] fs]; cbn [rstate fst snd]; [|apply (reflexivity (R:=evolves))|];
        (intros Hu; split; [|eexists _, _; split_and!; [reflexivity|reflexivity|repeat constructor; by unfold responded]];
         unfold ids_unique in *; cbn; rewrite fmap_app; apply NoDup_app; split_and!; [done| |apply NoDup_singleton];
         intros x Hx Hf%list_elem_of_singleton; cbn in Hf; by subst).
    + intros _. apply keeps_bind; [apply _| |intros _; apply keeps_ret, _]. unfold notifyWebhook.
      destruct (truthy webhook_url); [by apply quiet_caught|apply keeps_ret, _].
  - apply then_evolves; [apply reply_evolves|intros; apply keeps_ret, _].
  - apply then_evolves; [apply status_evolves|intros; apply keeps_ret, _].
  - apply then_evolves; [apply assign_evolves|intros; apply keeps_ret, _].
  - apply then_evolves; [apply autoclose_evolves|intros; apply keeps_ret, _].
Qed.

(** A history of requests, whatever they answered and whichever commands failed. *)
Inductive served : rworld store → rworld store → Prop :=
  | served_none w : served w w
  | served_more w1 w2 r : served w1 w2 → request_ok r w2 → served w1 (world_of (handle r) w2).

(** Tickets are kept well.  Whichever requests are served, and whichever database
    commands fail on the way, no two tickets share an id, every ticket out of the
    state OPEN has a first response, no ticket disappears, and a first response
    once recorded never changes. *)
Theorem tickets_kept w w' :
  ids_unique (rstate w) → Forall responded (tickets (rstate w)) → served w w' →
  ids_unique (rstate w') ∧ Forall responded (tickets (rstate w')) ∧
  ∀ t, t ∈ tickets (rstate w) →
    ∃ t', t' ∈ tickets (rstate w') ∧ id t' = id t ∧ ∀ x, firstRespondedAt t = Some x → firstRespondedAt t' = Some x.
Proof.
  intros Hu Hr Hs. assert (evolvesW w w') as He.
  { clear Hu Hr. induction Hs as [w|w1 w2 r _ IH Hok]; [done|]. etrans; [exact IH|]. by apply handle_evolves. }
  destruct (He Hu) as (Hu' & l & new & -> & Hl & Hn). split_and!; [done| |].
  - apply Forall_app. split; [|done]. clear -Hl Hr. induction Hl as [|x y xs ys Hxy _ IH]; [done|].
    apply Forall_cons in Hr as [Hx Hr]. constructor; [by apply Hxy|by apply IH].
  - intros t Ht. apply list_elem_of_lookup in Ht as [k Hk]. destruct (Forall2_lookup_l _ _ _ _ _ Hl Hk) as (t' & Hk' & Hi & Hf & _).
    exists t'. split_and!; [|done|done]. apply elem_of_app. left. by eapply list_elem_of_lookup_2.
Qed.
End history.

(** ** What the operations do on a healthy database *)

Lemma db_healthy {A} (m : M (rworld store) string A) s a s' : m (healthy s) = (Ok a, healthy s') → db m (healthy s) = (Ok a, healthy s').
Proof. intros E. unfold db. by apply try_ok. Qed.
Lemma db_query {A} (q : store → A) s : db (query q) (healthy s) = (Ok (q s), healthy s).
Proof. by apply db_healthy. Qed.
Lemma db_update f s : db (update f) (healthy s) = (Ok tt, healthy (f s)).
Proof. by apply db_healthy. Qed.
Lemma db_cmd {A} (f : store → A * store) s : db (cmd f) (healthy s) = (Ok (f s).1, healthy (f s).2).
Proof. apply db_healthy. unfold cmd. cbn. by destruct (f s). Qed.

Lemma find_changed sel f i s :
  (∀ t, id (f t) = id t) → find_ticket i (change sel f s) = (λ t, if sel t then f t else t) <$> find_ticket i s.
Proof.
  intros Hf. unfold find_ticket, change, set_tickets. cbn [tickets]. induction (tickets s) as [|t l IH]; [done|].
  cbn [fmap list_fmap List.find]. replace (id (if sel t then f t else t)) with (id t) by (destruct (sel t); [by rewrite Hf|done]).
  by destruct (String.eqb (id t) i).
Qed.

Lemma update_ticket_healthy i f t s :
  find_ticket i s = Some t → update_ticket i f (healthy s) = (Ok (f t), healthy (change (λ t, String.eqb (id t) i) f s)).
Proof. intros Ht. unfold update_ticket. erewrite bind_ok by apply db_cmd. cbn [fst snd]. by rewrite Ht. Qed.

Lemma audits_all (mk : SupportTicket → AuditRow) l s :
  for_each l (λ t, create_audit (mk t)) (healthy s) =
    (Ok tt, healthy (Store (tickets s) (ticket_replies s) (audits s ++ (mk <$> l))%list (faqs s) (faqStats s) (emails s) (posted s))).
Proof.
  rewrite (for_each_healthy _ (λ s t, audit (mk t) s)) by (intros; apply db_update). do 2 f_equal.
  revert s. induction l as [|t l IH]; intros s; cbn [foldl fmap list_fmap]; [by destruct s; rewrite app_nil_r|].
  rewrite IH. unfold audit. cbn. by rewrite <- app_assoc.
Qed.

Lemma autoclose_run days start now s :
  let d := match days with Some d => if d =? 0 then DEFAULT_AUTOCLOSE_DAYS_INACTIVE else d | None => DEFAULT_AUTOCLOSE_DAYS_INACTIVE end in
  let old := List.filter (inactive (start - d * DAY_MS)) (tickets s) in
  autoCloseInactiveTickets days start now (healthy s) =
    (Ok (length old),
     healthy (Store ((λ t, if inactive (start - d * DAY_MS) t then with_status CLOSED (firstRespondedAt t) now t else t) <$> tickets s)
       (ticket_replies s)
       (audits s ++ ((λ t, {| actor := "system"; action := Autoclosed (id t) d now (start - d * DAY_MS); ipAddress := None; at_ := now |}) <$> old))%list
       (faqs s) (faqStats s) (emails s) (posted s))).
Proof.
  intros d old. unfold autoCloseInactiveTickets. fold d. cbv zeta. erewrite bind_ok by apply db_query. fold old.
  destruct (length old =? 0)%nat eqn:E.
  - apply Nat.eqb_eq, length_zero_iff_nil in E. rewrite E, fmap_nil, app_nil_r. cbn [length]. unfold ret. do 2 f_equal.
    assert (∀ t, t ∈ tickets s → inactive (start - d * DAY_MS) t = false) as Hn.
    { intros t Ht. apply Bool.not_true_iff_false. intros Hi. assert (t ∈ old) as Hin by by apply elem_of_bfilter. rewrite E in Hin. by apply elem_of_nil in Hin. }
    destruct s as [l r a f st e p]. cbn in *. f_equal. clear -Hn. induction l as [|t l IH]; [done|]. cbn. rewrite Hn by left.
    f_equal. apply IH. intros t' Ht'. apply Hn. by right.
  - erewrite bind_ok by apply db_cmd. cbn [fst snd]. fold old. erewrite bind_ok by apply audits_all. done.
Qed.

(** What the automatic closing does: it closes exactly the tickets that are open or
    in progress, were answered, and were not updated for the configured number of
    days (seven by default, also for zero), records each of them in the audit log,
    and reports their number. *)
Theorem autoclose_exact days start now s :
  let d := match days with Some d => if d =? 0 then DEFAULT_AUTOCLOSE_DAYS_INACTIVE else d | None => DEFAULT_AUTOCLOSE_DAYS_INACTIVE end in
  let old := List.filter (inactive (start - d * DAY_MS)) (tickets s) in
  autoCloseInactiveTickets days start now (healthy s) =
    (Ok (length old),
     healthy (Store ((λ t, if inactive (start - d * DAY_MS) t then with_status CLOSED (firstRespondedAt t) now t else t) <$> tickets s)
       (ticket_replies s)
       (audits s ++ ((λ t, {| actor := "system"; action := Autoclosed (id t) d now (start - d * DAY_MS); ipAddress := None; at_ := now |}) <$> old))%list
       (faqs s) (faqStats s) (emails s) (posted s))).
Proof. exact (autoclose_run days start now s). Qed.

Definition reply_row (i : string) (now : Z) (msg : string) : SupportTicketReply :=
  {| r_ticketId := i; r_message := msg; r_author := "customer"; r_createdAt := now |}.

Lemma reply_run now i msg s t :
  find_ticket i s = Some t → responded t →
  let s' := rstate (world_of (addCustomerReply true now i msg) (healthy s)) in
  ticket_replies s' = (ticket_replies s ++ [reply_row i now msg])%list ∧
  find_ticket i s' = Some (if bool_decide (status t = CLOSED) then with_status IN_PROGRESS (firstRespondedAt t) now t else t) ∧
  addCustomerReply true now i msg (healthy s) = (Ok (reply_row i now msg), healthy s').
Proof.
  intros Ht Hr. cbv zeta. unfold world_of, addCustomerReply, read_ticket.
  assert (read_ticket i (healthy s) = (Ok t, healthy s)) as Hread.
  { unfold read_ticket. erewrite bind_ok by apply db_query. by rewrite Ht. }
  erewrite bind_ok by exact Hread. erewrite bind_ok by apply db_update. fold (reply_row i now msg).
  set (s1 := Store (tickets s) (ticket_replies s ++ [reply_row i now msg])%list (audits s) (faqs s) (faqStats s) (emails s) (posted s)).
  assert (find_ticket i s1 = Some t) as Ht1 by done.
  destruct (bool_decide_reflect (status t = CLOSED)) as [Hc|Hc].
  - assert (is_Some (firstRespondedAt t)) as Hf by (apply Hr; by rewrite Hc).
    assert (reopenIfReply now i (healthy s1) = (Ok tt, healthy (audit {| actor := "system"; action := Reopened i; ipAddress := None; at_ := now |}
      (change (λ t, String.eqb (id t) i) (λ t, with_status IN_PROGRESS (firstRespondedAt t) now t) s1)))) as Hre.
    { unfold reopenIfReply. erewrite bind_ok by apply db_query. rewrite Ht1, (bool_decide_true (status t = CLOSED)), (bool_decide_true (is_Some _)) by done.
      cbn [andb]. erewrite bind_ok by (by apply update_ticket_healthy). apply db_update. }
    erewrite bind_ok by exact Hre. cbn [fst snd rstate healthy ret]. split_and!; [done| |done].
    change (find_ticket i (audit ?r ?x)) with (find_ticket i x). rewrite find_changed by done. rewrite Ht1. cbn [fmap option_fmap option_map].
    unfold find_ticket in Ht. apply List.find_some in Ht as [_ ->]. done.
  - assert (reopenIfReply now i (healthy s1) = (Ok tt, healthy s1)) as Hre.
    { unfold reopenIfReply. erewrite bind_ok by apply db_query. rewrite Ht1, (bool_decide_false (status t = CLOSED)) by done. done. }
    erewrite bind_ok by exact Hre. done.
Qed.

(** What a customer's reply does: it is stored, and a ticket that is closed goes back
    to IN_PROGRESS, whether it was closed for inactivity or by the staff; a ticket
    in another state is left as it is, RESOLVED included. *)
Theorem reply_exact now i msg s t :
  find_ticket i s = Some t → responded t →
  let s' := rstate (world_of (addCustomerReply true now i msg) (healthy s)) in
  ticket_replies s' = (ticket_replies s ++ [reply_row i now msg])%list ∧
  find_ticket i s' = Some (if bool_decide (status t = CLOSED) then with_status IN_PROGRESS (firstRespondedAt t) now t else t) ∧
  addCustomerReply true now i msg (healthy s) = (Ok (reply_row i now msg), healthy s').
Proof. exact (reply_run now i msg s t). Qed.

(** A reply does not count as activity.  Inactivity is measured on the ticket's row,
    which a reply does not touch: a ticket that is about to be closed is closed
    although the customer has just replied, with "no customer reply" in the audit
    log. *)
Theorem reply_does_not_defer_closing i msg replied start now s t :
  find_ticket i s = Some t → responded t → inactive (start - DEFAULT_AUTOCLOSE_DAYS_INACTIVE * DAY_MS) t = true →
  let s1 := rstate (world_of (addCustomerReply true replied i msg) (healthy s)) in
  let s2 := rstate (world_of (autoCloseInactiveTickets None start now) (healthy s1)) in
  reply_row i replied msg ∈ ticket_replies s2 ∧ status <$> find_ticket i s2 = Some CLOSED.
Proof.
  intros Ht Hr Hin s1 s2. destruct (reply_run replied i msg s t Ht Hr) as (H1 & H2 & _). fold s1 in H1, H2.
  assert (status t ≠ CLOSED) as Hc by (unfold inactive in Hin; bool_prop; destruct (status t); done).
  rewrite bool_decide_false in H2 by done. subst s2. unfold world_of. rewrite autoclose_run. cbn [snd rstate healthy ticket_replies].
  split; [rewrite H1; apply elem_of_app; right; by apply list_elem_of_singleton|].
  match goal with |- _ <$> find_ticket i ?x = _ => assert (find_ticket i x = find_ticket i (change (inactive (start - DEFAULT_AUTOCLOSE_DAYS_INACTIVE * DAY_MS))
    (λ t, with_status CLOSED (firstRespondedAt t) now t) s1)) as -> by done end.
  rewrite find_changed by done. rewrite H2. cbn [fmap option_fmap option_map]. by rewrite Hin.
Qed.

(** The count of overdue tickets misses none: where every ticket out of the state
    OPEN was answered, it is the number of tickets created before the deadline that
    have had no response. *)
Theorem sla_counts_unanswered now slaHours s :
  Forall responded (tickets s) →
  slaBreachedCount <$> (match value_of (getFirstResponseStats now slaHours) (healthy s) with Ok r => Some r | Throw _ => None end) =
  Some (length (List.filter (λ t, bool_decide (firstRespondedAt t = None) && (createdAt t <? now - slaHours * 60 * 60 * 1000)) (tickets s))).
Proof.
  intros Hr. unfold value_of, getFirstResponseStats. cbv zeta. erewrite bind_ok by apply db_query. erewrite bind_ok by apply db_query. cbn.
  do 2 f_equal. apply List.filter_ext_in. intros t Ht%list_elem_of_In. rewrite Forall_forall in Hr. specialize (Hr t Ht).
  destruct (bool_decide_reflect (firstRespondedAt t = None)) as [E|]; [|done].
  rewrite bool_decide_true; [done|]. destruct (decide (status t = OPEN)) as [|Hn]; [done|]. destruct (Hr Hn) as [x Hx]. congruence.
Qed.

(** A wallet's pages.  With a limit the service accepts, the pages at the offsets
    0, limit, 2 * limit, ... of an unchanged table list every ticket of the wallet
    once, newest first, and no other ticket. *)
Theorem wallet_tickets_paged wallet limit n s :
  1 ≤ limit ≤ 100 → Z.of_nat (length (tickets s)) ≤ limit * Z.of_nat n →
  let page k := match value_of (listTicketsForWallet wallet limit (limit * Z.of_nat k)) (healthy s) with Ok (l, _) => l | Throw _ => [] end in
  mjoin (page <$> seq 0 n) =
    mapToResponse <$> newest_first (List.filter (λ t, bool_decide (walletAddress t = Some wallet)) (tickets s)).
Proof.
  intros Hl Hn page. set (sel := λ t, bool_decide (walletAddress t = Some wallet)). set (l := newest_first (List.filter sel (tickets s))).
  assert (∀ k, page k = mapToResponse <$> take (Z.to_nat limit) (drop (Z.to_nat limit * k) l)) as Hp.
  { intros k. unfold page, value_of, listTicketsForWallet.
    destruct (Z.ltb_spec limit 1); [lia|]. destruct (Z.ltb_spec 100 limit); [lia|]. destruct (Z.ltb_spec (limit * Z.of_nat k) 0); [lia|]. cbn [orb].
    rewrite db_query. cbn. fold sel l. by replace (Z.to_nat (limit * Z.of_nat k)) with (Z.to_nat limit * k)%nat by lia. }
  assert (length l ≤ Z.to_nat limit * n)%nat as Hlen.
  { unfold l, newest_first. rewrite stable_sort_perm. pose proof (List.filter_length_le sel (tickets s)). lia. }
  clearbody l. assert (∀ m k, mjoin (page <$> seq k m) = mapToResponse <$> take (Z.to_nat limit * m) (drop (Z.to_nat limit * k) l)) as Hall.
  { induction m as [|m IH]; intros k; [by rewrite Nat.mul_0_r|]. cbn [seq fmap list_fmap]. cbn [mjoin list_join]. rewrite IH, Hp, <- fmap_app. f_equal.
    replace (Z.to_nat limit * S m)%nat with (Z.to_nat limit + Z.to_nat limit * m)%nat by lia.
    replace (Z.to_nat limit * S k)%nat with (Z.to_nat limit * k + Z.to_nat limit)%nat by lia.
    rewrite <- drop_drop. rewrite <- (take_drop (Z.to_nat limit) (take (Z.to_nat limit + _) _)). f_equal.
    - by rewrite take_take, Nat.min_l by lia.
    - by rewrite skipn_firstn_comm, Nat.add_sub_swap, Nat.sub_diag by lia. }
  rewrite Hall, Nat.mul_0_r, drop_0. by rewrite take_ge.
Qed.

(** ** Questions and answers *)

Lemma stable_sort_last {A} (gt : A → A → bool) l x : 
  (∀ y, y ∈ l → gt y x = false) → stable_sort gt (l ++ [x])%list = (stable_sort gt l ++ [x])%list.
Proof.
  induction l as [|y l IH]; intros Hx; [done|]. cbn [app stable_sort]. rewrite IH by (intros z Hz; apply Hx; by right).
  assert (gt y x = false) as Hy by (apply Hx; left). clear IH Hx. induction (stable_sort gt l) as [|z L IHL]; cbn [app insert_by].
  - by rewrite Hy.
  - destruct (gt y z); [|done]. by rewrite IHL.
Qed.

Lemma max_order_bound s f : f ∈ faqs s → ∃ m, max_order s = Some m ∧ displayOrder f ≤ m.
Proof.
  unfold max_order. destruct (faqs s) as [|g l]; [by intros ?%elem_of_nil|]. intros Hf. eexists. split; [done|].
  apply elem_of_cons in Hf as [->|Hf].
  - induction l as [|h l IH]; cbn [fmap list_fmap foldr]; lia.
  - induction l as [|h l IH]; [by apply elem_of_nil in Hf|]. cbn [fmap list_fmap foldr]. apply elem_of_cons in Hf as [->|Hf]; [lia|].
    specialize (IH Hf). lia.
Qed.

(** A new question goes last.  Without an order of its own, it follows every
    question of the page, and the others keep their order. *)
Theorem faq_created_last fresh q a cat s :
  ∃ item, createFaqItem fresh q a cat None (healthy s) = (Ok item, healthy (set_faqs (λ l, l ++ [item])%list s)) ∧
    value_of listFaqItems (healthy (set_faqs (λ l, l ++ [item])%list s)) = Ok (sorted_faqs s ++ [item])%list.
Proof.
  eexists. split.
  - unfold createFaqItem. erewrite bind_ok by apply db_query. cbv zeta. erewrite bind_ok by apply db_update. done.
  - unfold value_of, listFaqItems. rewrite db_query. cbn [fst]. f_equal. unfold sorted_faqs, set_faqs. cbn [faqs].
    apply stable_sort_last. intros f Hf. destruct (max_order_bound s f Hf) as (m & -> & Hm). cbn. apply Z.ltb_ge. lia.
Qed.

(** The order a list of changes leaves a question with: the last one that names it. *)
Definition ordered_by (items : list (string * Z)) (f : FaqItem) : FaqItem :=
  with_order (foldl (λ n p, if String.eqb (f_id f) p.1 then p.2 else n) (displayOrder f) items) f.

Lemma find_faq_known i s : is_Some (find_faq i s) ↔ i ∈ f_id <$> faqs s.
Proof.
  unfold find_faq. split.
  - intros [f Hf]. apply List.find_some in Hf as [Hin Hi%String.eqb_eq]. subst i. apply list_elem_of_fmap_2. by apply list_elem_of_In.
  - intros (f & -> & Hf)%list_elem_of_fmap. destruct (List.find _ _) as [g|] eqn:E; [done|].
    apply list_elem_of_In in Hf. pose proof (List.find_none _ _ E f Hf) as Hn. cbn in Hn. by rewrite String.eqb_refl in Hn.
Qed.

Lemma ids_reordered i n s : f_id <$> change_faq i (with_order n) (faqs s) = f_id <$> faqs s.
Proof. unfold change_faq. rewrite <- list_fmap_compose. apply list_fmap_ext. intros k f _. cbn. by destruct (String.eqb (f_id f) i). Qed.

Lemma reorder_spec items s :
  match reorder items s with
  | Some s' => Forall (λ p, p.1 ∈ f_id <$> faqs s) items ∧ s' = set_faqs (fmap (ordered_by items)) s
  | None => ∃ p, p ∈ items ∧ p.1 ∉ f_id <$> faqs s
  end.
Proof.
  revert s. induction items as [|[i n] items IH]; intros s; cbn [reorder].
  - split; [constructor|]. destruct s as [l r a f st e p]. unfold set_faqs. cbn. f_equal. induction f as [|x f IHf]; [done|].
    cbn. rewrite <- IHf. by destruct x.
  - destruct (find_faq i s) as [g|] eqn:Hg.
    + assert (i ∈ f_id <$> faqs s) as Hi by (apply find_faq_known; eauto).
      specialize (IH (set_faqs (change_faq i (with_order n)) s)). cbn [set_faqs faqs] in IH. rewrite ids_reordered in IH.
      destruct (reorder items _) as [s'|].
      * destruct IH as [Hall ->]. split; [by constructor|]. unfold set_faqs. cbn. f_equal. unfold change_faq. rewrite <- list_fmap_compose.
        apply list_fmap_ext. intros k f _. cbn. unfold ordered_by. cbn [foldl fst snd]. by destruct (String.eqb (f_id f) i).
      * destruct IH as (p & Hp & Hn). exists p. split; [by right|done].
    + exists (i, n). split; [left|]. cbn. intros Hi%find_faq_known. rewrite Hg in Hi. by destruct Hi.
Qed.

(** Reordering is all or nothing.  When every item of the request is known, each
    question gets the last order the request names for it and the page is returned
    in ascending order; otherwise the request fails and nothing has changed. *)
Theorem reorder_all_or_nothing items s :
  match reorderFaqItems items (healthy s) with
  | (Ok l, w) => Forall (λ p, p.1 ∈ f_id <$> faqs s) items ∧ w = healthy (set_faqs (fmap (ordered_by items)) s) ∧
                 l ≡ₚ ordered_by items <$> faqs s ∧ StronglySorted (λ f g, displayOrder f ≤ displayOrder g) l
  | (Throw _, w) => (∃ p, p ∈ items ∧ p.1 ∉ f_id <$> faqs s) ∧ w = healthy s
  end.
Proof.
  pose proof (reorder_spec items s) as Hr. unfold reorderFaqItems. erewrite bind_ok by apply db_cmd. cbn beta.
  destruct (reorder items s) as [s'|]; cbn [fst snd]; [|exact (conj Hr eq_refl)]. destruct Hr as [Hall ->].
  unfold listFaqItems. rewrite db_query. split_and!; [done|done| |].
  - unfold sorted_faqs. by rewrite stable_sort_perm.
  - unfold sorted_faqs. apply stable_sort_sorted; [intros a b c; lia| |]; intros a b Hab; bool_prop; lia.
Qed.

Lemma count_expansion_spec i j l :
  alist_get j (count_expansion i l) = if String.eqb i j then Some (default 0 (alist_get i l) + 1) else alist_get j l.
Proof.
  induction l as [|[k n] l IH]; cbn [count_expansion alist_get default].
  - destruct (String.eqb_spec i j) as [->|Hne]; case_decide; done.
  - destruct (String.eqb_spec k i) as [->|Hk]; cbn [alist_get]; [|rewrite IH];
      destruct (String.eqb_spec i j) as [->|Hne]; repeat case_decide; done.
Qed.

(** ** At concrete inputs *)

Module SupportWitnesses.

Definition dto : CreateTicketDto := {| d_email := "Ann@Example.com"; d_subject := "Help me"; d_message := "I cannot find my policy" |}.
Definition empty : store := Store [] [] [] [] [] [] [].
Definition open_ticket (i : string) : SupportTicket :=
  {| id := i; email := "ann@example.com"; subject := "Help me"; message := "I cannot find my policy"; ipHash := None;
     walletAddress := Some "GA"; status := OPEN; assignedTo := None; firstRespondedAt := None; createdAt := 0; updatedAt := 0 |}.
Definition sample : store :=
  Store [open_ticket "t1"; with_status IN_PROGRESS (Some 5) 5 (open_ticket "t2"); with_status CLOSED (Some 7) 7 (open_ticket "t3")]
    [] [] [{| f_id := "f1"; question := "What?"; answer := "This"; category := "General"; displayOrder := 4 |}] [] [] [].

Lemma sample_responded : Forall responded (tickets sample).
Proof. repeat constructor; unfold responded; cbn; eauto; done. Qed.
Lemma sample_unique : ids_unique sample.
Proof. apply (bool_decide_unpack _). by vm_compute. Qed.

Definition after : rworld store :=
  world_of (handle (λ s, s) None None (UpdateStatus 9 "t4" CLOSED None "staff" None))
    (world_of (handle (λ s, s) None None (Submit 8 "t4" true dto (Some "1.2.3.4") None)) (RWorld sample [false; false; false; true])).

(** The audit row of the status change is lost, the change is not. *)
Lemma tickets_kept_witness :
  ids_unique (rstate after) ∧ Forall responded (tickets (rstate after)) ∧
  ∀ t, t ∈ tickets sample →
    ∃ t', t' ∈ tickets (rstate after) ∧ id t' = id t ∧ ∀ x, firstRespondedAt t = Some x → firstRespondedAt t' = Some x.
Proof.
  apply (tickets_kept (λ s, s) None None (RWorld sample [false; false; false; true]) after sample_unique sample_responded).
  apply served_more; [apply served_more; [apply served_none|]|exact I]. apply (bool_decide_unpack _). by vm_compute.
Defined.

Lemma reply_exact_witness :
  status <$> find_ticket "t3" (rstate (world_of (addCustomerReply true 20 "t3" "Still broken") (healthy sample))) = Some IN_PROGRESS.
Proof.
  assert (responded (with_status CLOSED (Some 7) 7 (open_ticket "t3"))) as Hr by (intros _; eauto).
  destruct (reply_exact 20 "t3" "Still broken" sample _ eq_refl Hr) as (_ & -> & _). reflexivity.
Defined.

Lemma reply_does_not_defer_closing_witness :
  let s1 := rstate (world_of (addCustomerReply true (7 * DAY_MS + 5) "t2" "Still broken") (healthy sample)) in
  status <$> find_ticket "t2" (rstate (world_of (autoCloseInactiveTickets None (7 * DAY_MS + 6) (7 * DAY_MS + 6)) (healthy s1))) = Some CLOSED.
Proof.
  assert (responded (with_status IN_PROGRESS (Some 5) 5 (open_ticket "t2"))) as Hr by (intros _; eauto).
  apply (reply_does_not_defer_closing "t2" "Still broken" (7 * DAY_MS + 5) (7 * DAY_MS + 6) (7 * DAY_MS + 6) sample _ eq_refl Hr eq_refl).
Defined.

Lemma sla_counts_unanswered_witness :
  slaBreachedCount <$> (match value_of (getFirstResponseStats (2 * DAY_MS) 24) (healthy sample) with Ok r => Some r | Throw _ => None end) = Some 1%nat.
Proof. exact (sla_counts_unanswered (2 * DAY_MS) 24 sample sample_responded). Defined.

Lemma wallet_tickets_paged_witness :
  let page k := match value_of (listTicketsForWallet "GA" 2 (2 * Z.of_nat k)) (healthy sample) with Ok (l, _) => l | Throw _ => [] end in
  p_id <$> mjoin (page <$> seq 0 2) = ["t1"; "t2"; "t3"].
Proof.
  cbv zeta. rewrite (wallet_tickets_paged "GA" 2 2 sample); [reflexivity|lia|cbn; lia].
Defined.
End SupportWitnesses.
