(* ===== verification/Typing.v ===== *)
(** * Typing indicators

    backend/src/support/typing.service.ts with its routes in
    backend/src/support/support.controller.ts: which member of staff is composing
    an answer to a ticket, the timers that clear the signal, and the viewers of a
    ticket's event stream.  Timers are kept as the event loop keeps them: a pending
    timer may fire at any moment from its due time on. *)

From stdpp Require Import base gmap list strings.
From Stdlib Require Import ZArith Lia.
From S2P Require Import Prelude Redis Support.

Open Scope string_scope.
Open Scope Z_scope.

Definition TYPING_IDLE_TIMEOUT_MS : Z := 3000.

Record TicketTypingState := { ticketId : string; isTyping : bool; staffId : option string; updatedAt : Z; expiresAt : Z }.
Record InternalState := { s_staffId : string; s_expiresAt : Z; s_timer : nat }.

(** The signals, the pending timers (ticket and due time), the number of the next
    timer, and for each subject what its viewers display. *)
Record typing := Typing {
  states : gmap string InternalState; timers : gmap nat (string * Z); next_timer : nat; subjects : gmap string (list bool) }.

(** Models [toPayload] (backend/src/support/typing.service.ts:121-134). *)
Definition toPayload (now : Z) (i : string) (b : bool) (staff : option string) (e : Z) : TicketTypingState :=
  {| ticketId := i; isTyping := b; staffId := staff; updatedAt := now; expiresAt := e |}.

(** Each viewer of the ticket displays the message.
    Models [publish] (backend/src/support/typing.service.ts:107-112). *)
Definition publish (i : string) (p : TicketTypingState) (t : typing) : typing :=
  Typing (states t) (timers t) (next_timer t) (alter (fmap (λ _, isTyping p)) i (subjects t)).

(** Models [clearTimer] (backend/src/support/typing.service.ts:114-119). *)
Definition clearTimer (i : string) (t : typing) : typing :=
  match states t !! i with
  | Some s => Typing (states t) (delete (s_timer s) (timers t)) (next_timer t) (subjects t)
  | None => t
  end.

(** Models [setTyping] (backend/src/support/typing.service.ts:46-58). *)
Definition setTyping (now : Z) (i staff : string) (t : typing) : TicketTypingState * typing :=
  let t := clearTimer i t in
  let e := now + TYPING_IDLE_TIMEOUT_MS in
  let k := next_timer t in
  let t := Typing (<[i := {| s_staffId := staff; s_expiresAt := e; s_timer := k |}]> (states t)) (<[k := (i, e)]> (timers t)) (S k) (subjects t) in
  let payload := toPayload now i true (Some staff) e in
  (payload, publish i payload t).

(** The reason is only logged.
    Models [clearTyping] (backend/src/support/typing.service.ts:64-75). *)
Definition clearTyping (now : Z) (i : string) (t : typing) : TicketTypingState * typing :=
  let prev := states t !! i in
  let t := clearTimer i t in
  let t := Typing (delete i (states t)) (timers t) (next_timer t) (subjects t) in
  let payload := toPayload now i false (s_staffId <$> prev) now in
  (payload, match prev with Some _ => publish i payload t | None => t end).

(** Models [getTyping] (backend/src/support/typing.service.ts:77-86). *)
Definition getTyping (now : Z) (i : string) (t : typing) : TicketTypingState * typing :=
  match states t !! i with
  | None => (toPayload now i false None now, t)
  | Some s => if s_expiresAt s <=? now then clearTyping now i t else (toPayload now i true (Some (s_staffId s)) (s_expiresAt s), t)
  end.

(** Models [subscribe] (backend/src/support/typing.service.ts:89-96). *)
Definition subscribe (i : string) (t : typing) : typing :=
  match subjects t !! i with
  | Some _ => t
  | None => Typing (states t) (timers t) (next_timer t) (<[i := []]> (subjects t))
  end.

(** [registered]: the subject is the one in the table.
    Models [unsubscribe] (backend/src/support/typing.service.ts:98-105). *)
Definition unsubscribe (i : string) (registered : bool) (t : typing) : typing :=
  match subjects t !! i with
  | Some [] => if registered then Typing (states t) (timers t) (next_timer t) (delete i (subjects t)) else t
  | _ => t
  end.

(** Models [onModuleDestroy] (backend/src/support/typing.service.ts:34-43). *)
Definition onModuleDestroy (t : typing) : typing :=
  Typing ∅ (foldr (λ s m, delete (s_timer s.2) m) (timers t) (map_to_list (states t))) (next_timer t) ∅.

(** The callback of [setTimeout]: the timer is no longer pending when it runs. *)
Definition fire (now : Z) (k : nat) (t : typing) : typing :=
  match timers t !! k with
  | Some (i, _) => (clearTyping now i (Typing (states t) (delete k (timers t)) (next_timer t) (subjects t))).2
  | None => t
  end.

(** ** Routes *)

(** A stream starts with the present state; its viewer then follows the subject.
    Models [ticketEvents] (backend/src/support/support.controller.ts:108-115). *)
Definition ticketEvents (now : Z) (i : string) (t : typing) : TicketTypingState * typing :=
  let '(initial, t) := getTyping now i (subscribe i t) in
  (initial, Typing (states t) (timers t) (next_timer t) (alter (λ v, v ++ [isTyping initial])%list i (subjects t))).

(** The ticket must exist.
    Models [setTyping] (backend/src/support/support.controller.ts:127-134). *)
Definition post_typing (now : Z) (i : string) (typing_ : bool) (staff : option string) (w : rworld store) (t : typing) :
    result SupportError TicketTypingState * typing :=
  match value_of (getTicket i) w with
  | Throw e => (Throw e, t)
  | Ok _ => let '(p, t) := if typing_ then setTyping now i (default "staff" staff) t else clearTyping now i t in (Ok p, t)
  end.

(** ** Steps *)

(** What may happen at a moment: a route is called, a viewer leaves, or the event
    loop runs a timer that is due. *)
Inductive step (now : Z) : typing → typing → Prop :=
  | step_post i b staff w t : step now t (post_typing now i b staff w t).2
  | step_clear i t : step now t (clearTyping now i t).2
  | step_get i t : step now t (getTyping now i t).2
  | step_view i t : step now t (ticketEvents now i t).2
  | step_leave i n t : step now t (Typing (states t) (timers t) (next_timer t) (alter (λ v, take n v ++ drop (S n) v)%list i (subjects t)))
  | step_fire k i e t : timers t !! k = Some (i, e) → e ≤ now → step now t (fire now k t).

Inductive steps : Z → typing → Z → typing → Prop :=
  | steps_none now t : steps now t now t
  | steps_more now t now1 t1 now2 t2 : steps now t now1 t1 → now1 ≤ now2 → step now2 t1 t2 → steps now t now2 t2.

Definition started : typing := Typing ∅ ∅ 0 ∅.

(** A timer is pending exactly for the signal that set it, and is due when the
    signal expires, within the timeout; what a viewer of a ticket displays is
    whether the ticket has a signal. *)
Record typing_ok (now : Z) (t : typing) : Prop := {
  ok_timers : ∀ k i e, timers t !! k = Some (i, e) ↔ ∃ s, states t !! i = Some s ∧ s_timer s = k ∧ s_expiresAt s = e;
  ok_next : ∀ k, is_Some (timers t !! k) → (k < next_timer t)%nat;
  ok_expiry : ∀ i s, states t !! i = Some s → s_expiresAt s ≤ now + TYPING_IDLE_TIMEOUT_MS;
  ok_viewers : ∀ i v b, subjects t !! i = Some v → b ∈ v → b = bool_decide (is_Some (states t !! i));
}.

(** ** The invariant *)

Lemma started_ok now : typing_ok now started.
Proof.
  split; cbn.
  - intros k i e. rewrite lookup_empty. split; [done|]. intros (s & Hs & _). by rewrite lookup_empty in Hs.
  - intros k [x Hx]. by rewrite lookup_empty in Hx.
  - intros i s Hs. by rewrite lookup_empty in Hs.
  - intros i v b Hv. by rewrite lookup_empty in Hv.
Qed.

Lemma ok_later now now' t : now ≤ now' → typing_ok now t → typing_ok now' t.
Proof. intros Hn [H1 H2 H3 H4]. split; [done|done| |done]. intros i s Hs. specialize (H3 i s Hs). lia. Qed.

(** The pending timers of a ticket, and without them. *)
Lemma cleared_timers now i t k j e :
  typing_ok now t → timers (clearTimer i t) !! k = Some (j, e) ↔ timers t !! k = Some (j, e) ∧ j ≠ i.
Proof.
  intros Hok. unfold clearTimer. destruct (states t !! i) as [s|] eqn:Hs; cbn [timers].
  - rewrite lookup_delete_Some. split.
    + intros [Hk Hj]. split; [done|]. intros ->. apply (ok_timers now t Hok) in Hj as (s' & Hs' & Hk' & _). congruence.
    + intros [Hj Hne]. split; [|done]. intros <-.
      assert (timers t !! s_timer s = Some (i, s_expiresAt s)) as Ht by (apply (ok_timers now t Hok); eauto). congruence.
  - split; [|by intros [? _]]. intros Hj. split; [done|]. intros ->. apply (ok_timers now t Hok) in Hj as (s' & Hs' & _). congruence.
Qed.

Lemma clearTimer_states i t : states (clearTimer i t) = states t ∧ next_timer (clearTimer i t) = next_timer t ∧ subjects (clearTimer i t) = subjects t.
Proof. unfold clearTimer. by destruct (states t !! i). Qed.

Lemma setTyping_ok now i staff t : typing_ok now t → typing_ok now (setTyping now i staff t).2.
Proof.
  intros Hok. destruct (clearTimer_states i t) as (E1 & E2 & E3).
  assert (timers (clearTimer i t) !! next_timer t = None) as Hfresh.
  { destruct (timers (clearTimer i t) !! next_timer t) as [[j e]|] eqn:E; [|done]. apply (cleared_timers now) in E as [E _]; [|done].
    pose proof (ok_next now t Hok (next_timer t) ltac:(eauto)). lia. }
  unfold setTyping, publish. cbv zeta. cbn [snd states timers next_timer subjects]. rewrite E1, E2, E3.
  split; cbn [states timers next_timer subjects isTyping toPayload].
  - intros k j e. destruct (decide (k = next_timer t)) as [->|Hk].
    + rewrite lookup_insert_eq. split.
      * intros [= <- <-]. eexists. rewrite lookup_insert_eq. by split_and!.
      * intros (s & Hs & Hk & He). destruct (decide (j = i)) as [->|Hj].
        { rewrite lookup_insert_eq in Hs. injection Hs as <-. cbn in *. by subst. }
        rewrite lookup_insert_ne in Hs by done.
        assert (timers t !! next_timer t = Some (j, e)) as Hin by (apply (ok_timers now t Hok); eauto).
        pose proof (ok_next now t Hok (next_timer t) ltac:(eauto)). lia.
    + rewrite lookup_insert_ne by done. rewrite (cleared_timers now) by done. rewrite (ok_timers now t Hok). split.
      * intros [(s & Hs & Hs1 & Hs2) Hj]. exists s. by rewrite lookup_insert_ne.
      * intros (s & Hs & Hs1 & Hs2). destruct (decide (j = i)) as [->|Hj].
        { rewrite lookup_insert_eq in Hs. injection Hs as <-. by cbn in Hs1. }
        rewrite lookup_insert_ne in Hs by done. split; [eauto|done].
  - intros k [[j e] Hk]. apply lookup_insert_Some in Hk as [[<- _]|[_ Hk]]; [lia|].
    apply (cleared_timers now) in Hk as [Hk _]; [|done]. pose proof (ok_next now t Hok k ltac:(eauto)). lia.
  - intros j s [[_ <-]|[_ Hs]]%lookup_insert_Some; cbn; [lia|]. by apply (ok_expiry now t Hok j).
  - intros j v b Hv Hb. destruct (decide (j = i)) as [->|Hj].
    + rewrite lookup_insert_eq, bool_decide_true by done. rewrite lookup_alter_eq in Hv.
      apply fmap_Some in Hv as (v0 & _ & ->). apply list_elem_of_fmap in Hb as (x & -> & _). done.
    + rewrite lookup_insert_ne by done. rewrite lookup_alter_ne in Hv by done. by apply (ok_viewers now t Hok j v).
Qed.

(** What is needed of a state in which a signal is being cleared: its own timer may
    have been taken out already. *)
Lemma cleared_ok now i t tm :
  typing_ok now t → (∀ k j e, tm !! k = Some (j, e) ↔ timers t !! k = Some (j, e) ∧ j ≠ i) →
  typing_ok now (Typing (delete i (states t)) tm (next_timer t)
    (match states t !! i with Some _ => alter (fmap (λ _, false)) i (subjects t) | None => subjects t end)).
Proof.
  intros Hok Htm. split; cbn [states timers next_timer subjects].
  - intros k j e. rewrite Htm, (ok_timers now t Hok). split.
    + intros [(s & Hs & Hs1 & Hs2) Hj]. exists s. by rewrite lookup_delete_ne.
    + intros (s & [Hj Hs]%lookup_delete_Some & Hs1 & Hs2). split; [eauto|done].
  - intros k [[j e] Hk]. apply Htm in Hk as [Hk _]. apply (ok_next now t Hok). eauto.
  - intros j s [_ Hs]%lookup_delete_Some. by apply (ok_expiry now t Hok j).
  - intros j v b Hv Hb. destruct (decide (j = i)) as [->|Hj].
    + rewrite lookup_delete_eq. rewrite bool_decide_false by (intros [x Hx]; done). destruct (states t !! i) eqn:Hs.
      * rewrite lookup_alter_eq in Hv. apply fmap_Some in Hv as (v0 & _ & ->). by apply list_elem_of_fmap in Hb as (x & -> & _).
      * rewrite (ok_viewers now t Hok i v b Hv Hb), Hs. apply bool_decide_false. by intros [x Hx].
    + rewrite lookup_delete_ne by done. destruct (states t !! i); [rewrite lookup_alter_ne in Hv by done|]; by apply (ok_viewers now t Hok j v).
Qed.

Lemma clearTyping_shape now i t :
  (clearTyping now i t).2 = Typing (delete i (states t)) (timers (clearTimer i t)) (next_timer t)
    (match states t !! i with Some _ => alter (fmap (λ _, false)) i (subjects t) | None => subjects t end).
Proof.
  destruct (clearTimer_states i t) as (E1 & E2 & E3). unfold clearTyping. cbv zeta. cbn [snd].
  destruct (states t !! i); unfold publish; cbn [states timers next_timer subjects]; by rewrite E1, E2, E3.
Qed.

Lemma clearTyping_ok now i t : typing_ok now t → typing_ok now (clearTyping now i t).2.
Proof. intros Hok. rewrite clearTyping_shape. apply cleared_ok; [done|]. intros k j e. by apply (cleared_timers now). Qed.

Lemma getTyping_ok now i t : typing_ok now t → typing_ok now (getTyping now i t).2.
Proof. intros Hok. unfold getTyping. destruct (states t !! i); [|done]. destruct (_ <=? now); [by apply clearTyping_ok|done]. Qed.

(** The answer is true exactly for a live signal, and what is left says the same. *)
Lemma getTyping_answer now i t :
  isTyping (getTyping now i t).1 = bool_decide (is_Some (states (getTyping now i t).2 !! i)).
Proof.
  unfold getTyping. destruct (states t !! i) as [s|] eqn:Hs; cbn [fst snd].
  - destruct (_ <=? now).
    + rewrite clearTyping_shape. cbn [states]. rewrite lookup_delete_eq. done.
    + cbn. by rewrite Hs.
  - cbn. by rewrite Hs.
Qed.

Lemma viewers_ok now t f i :
  typing_ok now t →
  (∀ v b, subjects t !! i = Some v → b ∈ f v → b ∈ v ∨ b = bool_decide (is_Some (states t !! i))) →
  typing_ok now (Typing (states t) (timers t) (next_timer t) (alter f i (subjects t))).
Proof.
  intros [H1 H2 H3 H4] Hf. split; [done|done|done|]. cbn. intros j v b Hv Hb. destruct (decide (j = i)) as [->|Hj].
  - rewrite lookup_alter_eq in Hv. apply fmap_Some in Hv as (v0 & Hv0 & ->). destruct (Hf v0 b Hv0 Hb) as [Hin|]; [|done]. by apply (H4 i v0).
  - rewrite lookup_alter_ne in Hv by done. by apply (H4 j v).
Qed.

Lemma subscribe_ok now i t : typing_ok now t → typing_ok now (subscribe i t).
Proof.
  intros [H1 H2 H3 H4]. unfold subscribe. destruct (subjects t !! i) eqn:E; [by split|]. split; [done|done|done|]. cbn.
  intros j v b [[_ <-]|[_ Hv]]%lookup_insert_Some Hb; [by apply elem_of_nil in Hb|]. by apply (H4 j v).
Qed.

Lemma fire_ok now k t : typing_ok now t → typing_ok now (fire now k t).
Proof.
  intros Hok. unfold fire. destruct (timers t !! k) as [[i e]|] eqn:Hk; [|done].
  pose proof Hk as (s & Hs & Hsk & He)%(ok_timers now t Hok).
  rewrite clearTyping_shape. unfold clearTimer. cbn [states timers next_timer subjects]. rewrite Hs. cbn [timers].
  pose proof (cleared_ok now i t (delete (s_timer s) (delete k (timers t))) Hok) as Hc. rewrite Hs in Hc. apply Hc.
  intros k' j e'. rewrite Hsk, !lookup_delete_Some. split.
  - intros (Hk1 & _ & Hj). split; [done|]. intros ->. apply (ok_timers now t Hok) in Hj as (s' & Hs' & Hk' & _). congruence.
  - intros [Hj Hne]. split_and!; [| |done]; intros <-; congruence.
Qed.

Lemma step_ok now t t' : step now t t' → typing_ok now t → typing_ok now t'.
Proof.
  intros Hs Hok. destruct Hs as [i b staff w t|i t|i t|i t|i n t|k i e t _ _].
  - unfold post_typing. destruct (value_of (getTicket i) w); [|done]. destruct b.
    + pose proof (setTyping_ok now i (default "staff" staff) t Hok) as H. by destruct (setTyping _ _ _ _).
    + pose proof (clearTyping_ok now i t Hok) as H. by destruct (clearTyping _ _ _).
  - by apply clearTyping_ok.
  - by apply getTyping_ok.
  - unfold ticketEvents. pose proof (getTyping_ok now i _ (subscribe_ok now i t Hok)) as H. pose proof (getTyping_answer now i (subscribe i t)) as Ha.
    destruct (getTyping now i (subscribe i t)) as [p t1]. cbn [fst snd] in *. apply viewers_ok; [done|].
    intros v b _ [Hb|Hb%list_elem_of_singleton]%elem_of_app; [by left|]. right. by rewrite Hb.
  - apply viewers_ok; [done|]. intros v b _ [(k & Hk & _)%elem_of_take|[k Hk]%list_elem_of_lookup]%elem_of_app; left;
      [|rewrite lookup_drop in Hk]; by eapply list_elem_of_lookup_2.
  - by apply fire_ok.
Qed.

Lemma steps_later now t now' t' : steps now t now' t' → now ≤ now'.
Proof. induction 1; lia. Qed.

Lemma steps_ok now t now' t' : steps now t now' t' → typing_ok now t → typing_ok now' t'.
Proof.
  induction 1 as [|now t now1 t1 now2 t2 _ IH Hle Hs]; intros Hok; [done|]. eapply step_ok; [exact Hs|]. eapply ok_later; [exact Hle|]. auto.
Qed.

(** No signal outlives its heartbeat.  In a run from the start of the service, the
    answer to a query is true only while a heartbeat is less than the timeout old,
    also when timers are late; once the event loop has run every timer that is due,
    the signals left are exactly such; and every viewer of a ticket displays
    whether the ticket has a signal. *)
Theorem signals_expire now0 now t :
  steps now0 started now t →
  (∀ i, isTyping (getTyping now i t).1 = true →
     now < expiresAt (getTyping now i t).1 ≤ now + TYPING_IDLE_TIMEOUT_MS) ∧
  ((∀ k i e, timers t !! k = Some (i, e) → now < e) → ∀ i s, states t !! i = Some s → now < s_expiresAt s) ∧
  (∀ i v b, subjects t !! i = Some v → b ∈ v → b = bool_decide (is_Some (states t !! i))).
Proof.
  intros Hs. pose proof (steps_ok _ _ _ _ Hs (started_ok now0)) as Hok. split_and!.
  - intros i. unfold getTyping. destruct (states t !! i) as [s|] eqn:E; [|done]. destruct (Z.leb_spec (s_expiresAt s) now); [done|].
    intros _. cbn. pose proof (ok_expiry now t Hok i s E). lia.
  - intros Hdue i s E. apply (Hdue (s_timer s) i). apply (ok_timers now t Hok). eauto.
  - apply (ok_viewers now t Hok).
Qed.

(** ** A heartbeat holds *)

Section others.
Variable i : string.

(** Steps that neither renew nor clear the signal of the ticket. *)
Inductive bystander (now : Z) : typing → typing → Prop :=
  | by_post j b staff w t : j ≠ i → bystander now t (post_typing now j b staff w t).2
  | by_clear j t : j ≠ i → bystander now t (clearTyping now j t).2
  | by_get j t : bystander now t (getTyping now j t).2
  | by_view j t : bystander now t (ticketEvents now j t).2
  | by_fire k j e t : timers t !! k = Some (j, e) → e ≤ now → bystander now t (fire now k t).

Inductive bystanders : Z → typing → Z → typing → Prop :=
  | by_none now t : bystanders now t now t
  | by_more now t now1 t1 now2 t2 : bystanders now t now1 t1 → now1 ≤ now2 → bystander now2 t1 t2 → bystanders now t now2 t2.

Lemma bystander_step now t t' : bystander now t t' → step now t t'.
Proof. destruct 1; [apply step_post|apply step_clear|apply step_get|apply step_view|eapply step_fire; eassumption]. Qed.

Lemma bystanders_steps now t now' t' : bystanders now t now' t' → steps now t now' t'.
Proof. induction 1; [constructor|]. econstructor; [eassumption|done|]. by apply bystander_step. Qed.

Lemma cleared_other now j t : j ≠ i → states (clearTyping now j t).2 !! i = states t !! i.
Proof. intros Hj. rewrite clearTyping_shape. cbn [states]. by rewrite lookup_delete_ne. Qed.

Lemma got_live now j t s : states t !! i = Some s → now < s_expiresAt s → states (getTyping now j t).2 !! i = Some s.
Proof.
  intros Hs He. unfold getTyping. destruct (states t !! j) as [s'|] eqn:Hj; [|done].
  destruct (Z.leb_spec (s_expiresAt s') now); [|done]. rewrite cleared_other; [done|]. intros ->.
  rewrite Hs in Hj. injection Hj as <-. lia.
Qed.

Lemma bystander_keeps now t t' s :
  bystander now t t' → typing_ok now t → states t !! i = Some s → now < s_expiresAt s → states t' !! i = Some s.
Proof.
  intros Hb Hok Hs He. destruct Hb as [j b staff w t Hj|j t Hj|j t|j t|k j e t Hk Hle].
  - unfold post_typing. destruct (value_of (getTicket j) w); [|done]. destruct b.
    + unfold setTyping, publish. cbv zeta. cbn [snd states]. rewrite lookup_insert_ne by done. destruct (clearTimer_states j t) as [-> _]. done.
    + pose proof (cleared_other now j t Hj) as H. destruct (clearTyping now j t). cbn [snd] in *. by rewrite H.
  - by rewrite cleared_other.
  - by apply got_live.
  - unfold ticketEvents. assert (states (subscribe j t) !! i = Some s) as Hs' by (unfold subscribe; by destruct (subjects t !! j)).
    pose proof (got_live now j _ s Hs' He) as H. destruct (getTyping now j (subscribe j t)) as [p t1]. exact H.
  - unfold fire. rewrite Hk. rewrite cleared_other; [done|]. intros ->.
    apply (ok_timers now t Hok) in Hk as (s' & Hs' & _ & He'). rewrite Hs in Hs'. injection Hs' as <-. lia.
Qed.
End others.

(** A heartbeat holds for its whole timeout.  After staff began to type, whatever
    else happens at other tickets, whichever queries are answered, viewers come and
    old timers run, the ticket is reported as being typed in by that person until
    the timeout has passed. *)
Theorem heartbeat_holds now0 now1 t staff i now2 t2 :
  steps now0 started now1 t → bystanders i now1 (setTyping now1 i staff t).2 now2 t2 →
  now2 < now1 + TYPING_IDLE_TIMEOUT_MS →
  let p := (getTyping now2 i t2).1 in isTyping p = true ∧ staffId p = Some staff.
Proof.
  intros Hs Hb Hlt. assert (typing_ok now1 (setTyping now1 i staff t).2) as Hok.
  { apply setTyping_ok. by eapply steps_ok; [|apply started_ok]. }
  assert (∃ s, states t2 !! i = Some s ∧ s_staffId s = staff ∧ s_expiresAt s = now1 + TYPING_IDLE_TIMEOUT_MS) as (s & E & Hst & He).
  { remember (setTyping now1 i staff t).2 as t1 eqn:Et. revert Hlt Hok Et. clear Hs.
    induction Hb as [now t1|now t1 nowa ta nowb tb Hb IH Hle Hstep]; intros Hlt Hok Et.
    - subst t1. eexists. unfold setTyping, publish. cbv zeta. cbn [snd states]. by rewrite lookup_insert_eq.
    - destruct IH as (s & E & Hst & He); [lia|done|done|]. exists s. split_and!; [|done|done].
      eapply bystander_keeps; [exact Hstep| |done|lia].
      eapply ok_later; [exact Hle|]. eapply steps_ok; [by eapply bystanders_steps|done]. }
  unfold getTyping. rewrite E. destruct (Z.leb_spec (s_expiresAt s) now2); [lia|]. cbn. by rewrite Hst.
Qed.

(** ** At concrete inputs *)

Module TypingWitnesses.
Import SupportWitnesses.

(** A heartbeat at 0, a viewer, a second heartbeat at 2000, and the state at 4000:
    the first timer was cleared, so the signal still stands. *)
Definition s0 := (post_typing 0 "t1" true (Some "ann") (healthy sample) started).2.
Definition s1 := (ticketEvents 2000 "t1" s0).2.

Lemma run_s1 : steps 0 started 2000 s1.
Proof.
  apply (steps_more 0 started 0 s0 2000 s1); [|lia|apply step_view].
  apply (steps_more 0 started 0 started 0 s0); [apply steps_none|lia|apply step_post].
Qed.

Lemma signals_expire_witness : subjects s1 !! "t1" = Some [true] ∧ true = bool_decide (is_Some (states s1 !! "t1")).
Proof.
  split; [by vm_compute|]. apply (proj2 (proj2 (signals_expire 0 2000 s1 run_s1)) "t1" [true] true); [by vm_compute|left].
Defined.

Lemma heartbeat_holds_witness :
  let p := (getTyping 4000 "t1" (getTyping 4000 "t2" (setTyping 2000 "t1" "bob" s1).2).2).1 in
  isTyping p = true ∧ staffId p = Some "bob".
Proof.
  apply (heartbeat_holds 0 2000 s1 "bob" "t1" 4000).
  - exact run_s1.
  - eapply by_more; [apply by_none|lia|]. apply by_get.
  - unfold TYPING_IDLE_TIMEOUT_MS. lia.
Defined.
End TypingWitnesses.
