(* ===== verification/Evidence.v ===== *)
(** * Downloading evidence

    backend/src/claims/services/evidence-proxy.service.ts: who may download a file
    of a claim, from where it is fetched, how it is compared with the hash recorded
    on chain, and what is written to the audit log.  The gateway and SHA-256 are
    parameters; the database answers a command or rejects it. *)

From stdpp Require Import base list strings.
From Stdlib Require Import ZArith Lia Ascii.
From S2P Require Import Prelude Keyset JsText Redis.

Open Scope string_scope.
Open Scope Z_scope.

Record Vote := { voterAddress : string; v_deleted : bool }.
Record ClaimRow := {
  id : Z; creatorAddress : string; imageUrls : list string; txHash : option string; eventIndex : option Z; votes : list Vote }.

(** The list [evidence_hashes] of an event, if it has one; [None] is an element that
    is not a string. *)
Record RawEvent := { e_txHash : string; e_eventIndex : Z; evidence_hashes : option (list (option string)) }.

Inductive Action := HashMismatch (index : Z) (url stored fetched : string) | DownloadFailed (index : Z) (error : string) | Downloaded (index : Z).
Record AuditRow := { actor : string; claim : Z; action : Action }.
Record store := Store { claims : list ClaimRow; rawEvents : list RawEvent; audits : list AuditRow }.
Abbreviation ME A := (M (rworld store) string A).

(** The answer of the gateway: whether its status is a success, the status, the
    content type and the body. *)
Record Answer := { ok : bool; a_status : Z; content_type : option string; body : string }.

Record EvidenceFetchResponse := {
  content : string; contentType : string; filename : string; evidenceUrl : string; verified : bool; hashMismatch : bool; fetchedSha256Hex : string }.

(** What the caller receives. *)
Inductive reply := Served (content contentType disposition : string) | BadGateway.

Section proxy.
Variable http : string → result string Answer.
Variable sha256 : string → string.
Variables ipfsGateway adminToken : string.

(** A failed write is logged.
    Models [writeAudit] (backend/src/claims/services/evidence-proxy.service.ts:196-202). *)
Definition writeAudit (r : AuditRow) : ME () :=
  try_catch (update (λ s, Store (claims s) (rawEvents s) (audits s ++ [r])%list)) (λ _, ret tt).

(** Votes that were withdrawn are not read.
    Models [loadClaim] (backend/src/claims/services/evidence-proxy.service.ts:119-140). *)
Definition loadClaim (claimId : Z) : ME ClaimRow :=
  let* c := query (λ s, List.find (λ c, id c =? claimId) (claims s)) in
  match c with
  | Some c => ret {| id := id c; creatorAddress := creatorAddress c; imageUrls := imageUrls c; txHash := txHash c; eventIndex := eventIndex c;
                     votes := List.filter (λ v, negb (v_deleted v)) (votes c) |}
  | None => throw ("Claim " +:+ show_Z claimId +:+ " not found")
  end.

Definition same_wallet (a b : string) : bool := String.eqb (toLowerCase a) (toLowerCase b).

Definition authorized (c : ClaimRow) (wallet : string) : bool :=
  let isClaimant := same_wallet (creatorAddress c) wallet in
  let isVoter := existsb (λ v, same_wallet (voterAddress v) wallet) (votes c) in
  let isAdmin := match adminToken with "" => false | _ => String.eqb wallet adminToken end in
  isClaimant || isVoter || isAdmin.

(** Models [assertAuthorized] (backend/src/claims/services/evidence-proxy.service.ts:142-156). *)
Definition assertAuthorized (c : ClaimRow) (wallet : string) : ME () :=
  if authorized c wallet then ret tt else throw "Access denied: not the claimant, a voter, or an admin".

(** Models [getStoredEvidenceHash] (backend/src/claims/services/evidence-proxy.service.ts:158-187). *)
Definition getStoredEvidenceHash (c : ClaimRow) (index : nat) : ME (option string) :=
  match truthy (txHash c), eventIndex c with
  | Some tx, Some i =>
      let* rawEvent := query (λ s, List.find (λ e, String.eqb (e_txHash e) tx && (e_eventIndex e =? i)) (rawEvents s)) in
      ret (match rawEvent ≫= evidence_hashes with
           | Some hashes => match hashes !! index with Some h => toLowerCase <$> truthy h | None => None end
           | None => None
           end)
  | _, _ => ret None
  end.

(** Models [resolveGatewayUrl] (backend/src/claims/services/evidence-proxy.service.ts:189-194). *)
Definition resolveGatewayUrl (raw : string) : string :=
  if startsWith raw "http://" || startsWith raw "https://" then raw
  else ipfsGateway +:+ "/ipfs/" +:+ (if startsWith raw "ipfs://" then str_drop 7 raw else raw).

(** Models [fetch] (backend/src/claims/services/evidence-proxy.service.ts:31-83). *)
Definition fetch (claimId index : Z) (wallet : string) : ME EvidenceFetchResponse :=
  let* c := loadClaim claimId in
  do* assertAuthorized c wallet in
  match (if index <? 0 then None else imageUrls c !! Z.to_nat index) with
  | None => throw ("Evidence index " +:+ show_Z index +:+ " not found for claim " +:+ show_Z claimId)
  | Some rawUrl =>
      let gatewayUrl := resolveGatewayUrl rawUrl in
      match http gatewayUrl with
      | Throw e => throw e
      | Ok a =>
          if ok a then
            let fetched := sha256 (body a) in
            let* storedHash := getStoredEvidenceHash c (Z.to_nat index) in
            let mismatch := match storedHash with Some h => negb (String.eqb h fetched) | None => false end in
            do* match storedHash with
                | Some h => if mismatch then writeAudit {| actor := wallet; claim := claimId; action := HashMismatch index rawUrl h fetched |} else ret tt
                | None => ret tt
                end in
            ret {| content := body a; contentType := default "application/octet-stream" (content_type a);
                   filename := "claim-" +:+ show_Z claimId +:+ "-evidence-" +:+ show_Z index; evidenceUrl := gatewayUrl;
                   verified := match storedHash with Some _ => negb mismatch | None => false end; hashMismatch := mismatch;
                   fetchedSha256Hex := fetched |}
          else throw ("Gateway returned " +:+ show_Z (a_status a))
      end
  end.

(** The Content-Disposition header, the name in double quotes. *)
Definition attachment (name : string) : string :=
  let quote := String "034"%char "" in "attachment; filename=" +:+ quote +:+ name +:+ quote.

(** Models [stream] (backend/src/claims/services/evidence-proxy.service.ts:85-117). *)
Definition stream (claimId index : Z) (wallet : string) : M (rworld store) string reply :=
  let* r := try_catch (let* r := fetch claimId index wallet in ret (inl r)) (λ e, ret (inr e)) in
  match r with
  | inl r =>
      do* writeAudit {| actor := wallet; claim := claimId; action := Downloaded index |} in
      ret (Served (content r) (contentType r) (attachment (filename r)))
  | inr e =>
      do* writeAudit {| actor := wallet; claim := claimId; action := DownloadFailed index e |} in
      ret BadGateway
  end.

(** ** Who receives a file *)

Definition quiet (w w' : rworld store) : Prop := claims (rstate w') = claims (rstate w) ∧ rawEvents (rstate w') = rawEvents (rstate w).
#[local] Instance quiet_preorder : PreOrder quiet.
Proof. split; [by intros w|]. unfold quiet. intros a b c [] []. split; congruence. Qed.

Lemma writeAudit_cases r w : ∃ w', writeAudit r w = (Ok tt, w') ∧ quiet w w'.
Proof.
  unfold writeAudit, try_catch, update, cmd, quiet. destruct (faults w) as [|[] fs]; eexists; (split; [reflexivity|]); by split.
Qed.

Lemma query_cases {A} (q : store → A) w :
  (∃ w', query q w = (Ok (q (rstate w)), w') ∧ rstate w' = rstate w) ∨ (∃ e w', query q w = (Throw e, w') ∧ rstate w' = rstate w).
Proof. unfold query, cmd. destruct (faults w) as [|[] fs]; [left|right|left]; eauto 6. Qed.

(** The claimant, a wallet whose vote stands, or the holder of the token. *)
Definition party (wallet : string) (c : ClaimRow) : Prop :=
  toLowerCase (creatorAddress c) = toLowerCase wallet ∨
  (∃ v, v ∈ votes c ∧ v_deleted v = false ∧ toLowerCase (voterAddress v) = toLowerCase wallet) ∨
  (adminToken ≠ "" ∧ wallet = adminToken).

Lemma authorized_party c wallet :
  authorized {| id := id c; creatorAddress := creatorAddress c; imageUrls := imageUrls c; txHash := txHash c; eventIndex := eventIndex c;
                votes := List.filter (λ v, negb (v_deleted v)) (votes c) |} wallet = true → party wallet c.
Proof.
  unfold authorized, party, same_wallet. cbn [creatorAddress votes].
  intros [[H|H]%orb_prop|H]%orb_prop.
  - left. by apply String.eqb_eq.
  - right; left. apply existsb_exists in H as (v & [Hv Hd]%List.filter_In & He). exists v. split; [by apply list_elem_of_In|].
    split; [by apply negb_true_iff|by apply String.eqb_eq].
  - right; right. destruct adminToken; [done|]. split; [done|by apply String.eqb_eq].
Qed.

Lemma fetch_sound claimId index wallet w r w' :
  fetch claimId index wallet w = (Ok r, w') →
  quiet w w' ∧ ∃ c raw a, List.find (λ c, id c =? claimId) (claims (rstate w)) = Some c ∧ party wallet c ∧ 0 ≤ index ∧
    imageUrls c !! Z.to_nat index = Some raw ∧ evidenceUrl r = resolveGatewayUrl raw ∧ http (resolveGatewayUrl raw) = Ok a ∧ ok a = true ∧
    content r = body a ∧ contentType r = default "application/octet-stream" (content_type a) ∧ hashMismatch r = negb (verified r) && hashMismatch r.
Proof.
  unfold fetch. intros (c0 & w1 & Hc & H)%bind_ok_inv. unfold loadClaim in Hc. apply bind_ok_inv in Hc as (oc & w0 & Hq & Hc).
  assert (oc = List.find (λ c, id c =? claimId) (claims (rstate w)) ∧ rstate w0 = rstate w) as [-> Hw0].
  { destruct (query_cases (λ s, List.find (λ c, id c =? claimId) (claims s)) w) as [(w2 & E & Hs)|(e & w2 & E & Hs)]; rewrite E in Hq; [|done].
    by injection Hq as <- <-. }
  destruct (List.find _ _) as [c|] eqn:Hf; [|done]. injection Hc as <- <-.
  apply bind_ok_inv in H as ([] & w2 & Ha & H). unfold assertAuthorized in Ha.
  destruct (authorized _ wallet) eqn:Hauth; [|done]. injection Ha as <-. cbn [imageUrls] in H.
  destruct (Z.ltb_spec index 0) as [|Hi]; [done|]. destruct (imageUrls c !! Z.to_nat index) as [raw|] eqn:Hraw; [|done].
  destruct (http (resolveGatewayUrl raw)) as [a|e] eqn:Hh; [|done]. destruct (ok a) eqn:Hok; [|done].
  apply bind_ok_inv in H as (stored & w3 & Hst & H). apply bind_ok_inv in H as ([] & w4 & Hau & H). injection H as <- <-.
  assert (rstate w3 = rstate w0) as Hw3.
  { unfold getStoredEvidenceHash in Hst. cbn [txHash eventIndex] in Hst. destruct (truthy (txHash c)) as [tx|]; [|by injection Hst as <- <-].
    destruct (eventIndex c) as [i|]; [|by injection Hst as <- <-]. apply bind_ok_inv in Hst as (ev & w5 & Hq5 & H5). injection H5 as <- <-.
    match type of Hq5 with query ?q _ = _ => destruct (query_cases q w0) as [(w6 & E & Hs)|(e & w6 & E & Hs)] end; rewrite E in Hq5; [|done].
    injection Hq5 as <- <-. done. }
  assert (quiet w3 w4) as Hq4.
  { destruct stored as [h|]; [|by injection Hau as <-]. destruct (negb _); [|by injection Hau as <-].
    match type of Hau with writeAudit ?r _ = _ => destruct (writeAudit_cases r w3) as (w5 & E & Hq5) end. rewrite E in Hau. by injection Hau as <-. }
  split.
  - unfold quiet in *. by rewrite <- Hw0, <- Hw3.
  - exists c, raw, a. split_and!; try done.
    + by apply authorized_party.
    + cbn [verified hashMismatch]. destruct stored as [h|]; [|done]. by destruct (negb (String.eqb h _)).
Qed.

(** C24: Files go to the parties only.  Whatever the database commands answer, a file is
    served only for a claim that exists, to its claimant, to a wallet whose vote on
    it stands, or to the holder of the administration token; it is the file the
    claim names at that index, as the gateway answered it. *)
Theorem evidence_only_to_parties claimId index wallet w b t d w' :
  stream claimId index wallet w = (Ok (Served b t d), w') →
  ∃ c raw a, List.find (λ c, id c =? claimId) (claims (rstate w)) = Some c ∧ party wallet c ∧
    imageUrls c !! Z.to_nat index = Some raw ∧ http (resolveGatewayUrl raw) = Ok a ∧ ok a = true ∧ b = body a.
Proof.
  unfold stream. intros (r & w1 & Ht & H)%bind_ok_inv. unfold try_catch in Ht.
  destruct (bind (fetch claimId index wallet) _ w) as [[r'|e] w2] eqn:Hb; injection Ht as <- <-.
  - apply bind_ok_inv in Hb as (r0 & w3 & Hf & Hr). injection Hr as <- <-.
    apply bind_ok_inv in H as (u & w4 & _ & H). injection H as <- _ _ _.
    destruct (fetch_sound _ _ _ _ _ _ Hf) as (_ & c & raw & a & H1 & H2 & H3 & H4 & _ & H6 & H7 & H8 & _). eauto 10.
  - by apply bind_ok_inv in H as (u & w4 & _ & [= ?]).
Qed.

Lemma query_quiet {A} (q : store → A) : keeps quiet (query q).
Proof. intros w. unfold world_of. destruct (query_cases q w) as [(w' & -> & E)|(e & w' & -> & E)]; unfold quiet; by rewrite <- E. Qed.
Lemma writeAudit_quiet r : keeps quiet (writeAudit r).
Proof. intros w. unfold world_of. by destruct (writeAudit_cases r w) as (w' & -> & Hq). Qed.

Lemma fetch_quiet claimId index wallet : keeps quiet (fetch claimId index wallet).
Proof.
  unfold fetch, loadClaim, assertAuthorized, getStoredEvidenceHash. keeps_walk; auto using query_quiet, writeAudit_quiet.
Qed.

Lemma stream_run claimId index wallet w :
  ∃ r w', stream claimId index wallet w = (Ok r, w') ∧ quiet w w' ∧
    (r = BadGateway ∨ ∃ b t d, r = Served b t d).
Proof.
  pose proof (fetch_quiet claimId index wallet w) as Hq. unfold world_of in Hq.
  unfold stream, bind at 1, try_catch, bind at 1. destruct (fetch claimId index wallet w) as [[r|e] w1]; cbn [ret fst snd] in *.
  all: match goal with |- context [bind (writeAudit ?x) _ ?w1] => destruct (writeAudit_cases x w1) as (w2 & E & Hq2) end.
  - eexists _, w2. split; [unfold bind; rewrite E; reflexivity|]. split; [by etrans|]. right. eauto.
  - eexists _, w2. split; [unfold bind; rewrite E; reflexivity|]. split; [by etrans|]. by left.
Qed.

(** Every request is answered: with a file, or with status 502.  The claims and the
    recorded events are left alone, and 502 is also what a caller receives who asks
    for a claim that does not exist or may not see it. *)
Theorem every_download_answered claimId index wallet w :
  ∃ r w', stream claimId index wallet w = (Ok r, w') ∧ quiet w w' ∧
    ((∀ c, List.find (λ c, id c =? claimId) (claims (rstate w)) = Some c → ¬ party wallet c) → r = BadGateway).
Proof.
  destruct (stream_run claimId index wallet w) as (r & w' & E & Hq & Hr). exists r, w'. split_and!; [done|done|].
  intros Hn. destruct Hr as [->|(b & t & d & ->)]; [done|]. exfalso. revert E. unfold stream. intros (r & w1 & Ht & H)%bind_ok_inv. unfold try_catch in Ht.
  destruct (bind (fetch claimId index wallet) _ w) as [[r'|e] w2] eqn:Hb; injection Ht as <- <-.
  - apply bind_ok_inv in Hb as (r0 & w3 & Hf & _). destruct (fetch_sound _ _ _ _ _ _ Hf) as (_ & c & raw & a & H1 & H2 & _). by apply (Hn c).
  - by apply bind_ok_inv in H as (u & w4 & _ & [= ?]).
Qed.

(** ** Comparing hashes *)

Definition stored_hash (s : store) (c : ClaimRow) (index : nat) : option string :=
  match truthy (txHash c), eventIndex c with
  | Some tx, Some i =>
      match List.find (λ e, String.eqb (e_txHash e) tx && (e_eventIndex e =? i)) (rawEvents s) ≫= evidence_hashes with
      | Some hashes => match hashes !! index with Some h => toLowerCase <$> truthy h | None => None end
      | None => None
      end
  | _, _ => None
  end.

Lemma stored_hash_healthy s c index : getStoredEvidenceHash c index (healthy s) = (Ok (stored_hash s c index), healthy s).
Proof. unfold getStoredEvidenceHash, stored_hash. by destruct (truthy (txHash c)), (eventIndex c). Qed.

Lemma audit_healthy r s : writeAudit r (healthy s) = (Ok tt, healthy (Store (claims s) (rawEvents s) (audits s ++ [r])%list)).
Proof. done. Qed.

(** A file that does not match its recorded hash is served all the same.  The
    mismatch is an entry of the audit log; the reply is the one a matching file
    gets, with nothing in it that tells the two apart. *)
Theorem mismatched_file_served claimId index wallet s c raw a h :
  List.find (λ c, id c =? claimId) (claims s) = Some c → Forall (λ v, v_deleted v = false) (votes c) → authorized c wallet = true →
  0 ≤ index → imageUrls c !! Z.to_nat index = Some raw → http (resolveGatewayUrl raw) = Ok a → ok a = true →
  stored_hash s c (Z.to_nat index) = Some h → h ≠ sha256 (body a) →
  stream claimId index wallet (healthy s) =
    (Ok (Served (body a) (default "application/octet-stream" (content_type a))
           (attachment ("claim-" +:+ show_Z claimId +:+ "-evidence-" +:+ show_Z index))),
     healthy (Store (claims s) (rawEvents s) (audits s ++
       [{| actor := wallet; claim := claimId; action := HashMismatch index raw h (sha256 (body a)) |};
        {| actor := wallet; claim := claimId; action := Downloaded index |}])%list)).
Proof.
  intros Hf Hv Ha Hi Hraw Hh Hok Hst Hne. unfold stream.
  assert (fetch claimId index wallet (healthy s) =
    (Ok {| content := body a; contentType := default "application/octet-stream" (content_type a);
           filename := "claim-" +:+ show_Z claimId +:+ "-evidence-" +:+ show_Z index; evidenceUrl := resolveGatewayUrl raw;
           verified := false; hashMismatch := true; fetchedSha256Hex := sha256 (body a) |},
     healthy (Store (claims s) (rawEvents s) (audits s ++
       [{| actor := wallet; claim := claimId; action := HashMismatch index raw h (sha256 (body a)) |}])%list))) as Hrun.
  { assert (loadClaim claimId (healthy s) = (Ok c, healthy s)) as Hl.
    { unfold loadClaim. erewrite bind_ok by apply query_healthy. cbn beta. rewrite Hf. unfold ret. do 2 f_equal.
      rewrite bfilter_all; [by destruct c|]. rewrite Forall_forall in Hv. intros v Hin. by rewrite (Hv v Hin). }
    unfold fetch. erewrite bind_ok by exact Hl. erewrite bind_ok by (unfold assertAuthorized; by rewrite Ha).
    destruct (Z.ltb_spec index 0); [lia|]. rewrite Hraw. cbv zeta. rewrite Hh, Hok.
    erewrite bind_ok by apply stored_hash_healthy. rewrite Hst. destruct (String.eqb_spec h (sha256 (body a))); [done|]. cbn [negb].
    erewrite bind_ok by apply audit_healthy. done. }
  unfold bind at 1, try_catch, bind at 1. rewrite Hrun. cbn [ret]. erewrite bind_ok by apply audit_healthy.
  cbn [content contentType filename claims rawEvents audits]. unfold ret. do 2 f_equal. by rewrite <- app_assoc.
Qed.
End proxy.

(** ** At concrete inputs *)

Module EvidenceWitnesses.

Definition gateway (url : string) : result string Answer :=
  if String.eqb url "https://ipfs.io/ipfs/Qm1" then Ok {| ok := true; a_status := 200; content_type := Some "image/png"; body := "PNG" |}
  else Ok {| ok := false; a_status := 404; content_type := None; body := "" |}.
Definition c1 : ClaimRow :=
  {| id := 1; creatorAddress := "GA"; imageUrls := ["ipfs://Qm1"; "http://169.254.169.254/"]; txHash := Some "tx"; eventIndex := Some 0;
     votes := [{| voterAddress := "GB"; v_deleted := false |}] |}.
Definition sample : store := Store [c1] [{| e_txHash := "tx"; e_eventIndex := 0; evidence_hashes := Some [Some "ABCD"] |}] [].
Definition digest (s : string) : string := "hash of " +:+ s.

(** A voter, with the audit log failing. *)
Definition run1 := stream gateway digest "https://ipfs.io" "" 1 0 "gb" (RWorld sample [false; false; true; true]).

Lemma evidence_only_to_parties_witness :
  run1.1 = Ok (Served "PNG" "image/png" (attachment "claim-1-evidence-0")) ∧
  ∃ c raw a, List.find (λ c, id c =? 1) (claims sample) = Some c ∧ party "" "gb" c ∧
    imageUrls c !! 0%nat = Some raw ∧ gateway (resolveGatewayUrl "https://ipfs.io" raw) = Ok a ∧ ok a = true ∧ "PNG" = body a.
Proof.
  split; [by vm_compute|].
  apply (evidence_only_to_parties gateway digest "https://ipfs.io" "" 1 0 "gb" (RWorld sample [false; false; true; true]) "PNG" "image/png"
    (attachment "claim-1-evidence-0") run1.2). vm_compute. reflexivity.
Defined.

Lemma mismatched_file_served_witness :
  (stream gateway digest "https://ipfs.io" "" 1 0 "GA" (healthy sample)).1 =
    Ok (Served "PNG" "image/png" (attachment "claim-1-evidence-0")).
Proof.
  rewrite (mismatched_file_served gateway digest "https://ipfs.io" "" 1 0 "GA" sample c1 "ipfs://Qm1"
    {| ok := true; a_status := 200; content_type := Some "image/png"; body := "PNG" |} "abcd"); try reflexivity; try discriminate.
  repeat constructor.
Defined.
End EvidenceWitnesses.
