(* ===== verification/Allowlist.v ===== *)
(** * The allowlist of the administration

    backend/src/admin/middleware/allowlist.middleware.ts: the networks of
    ADMIN_ALLOWED_CIDRS and the test of a client's address.  The platform's isIPv4
    and isIPv6 are parameters. *)

From stdpp Require Import base list strings.
From Stdlib Require Import ZArith Lia Ascii.
From S2P Require Import Prelude JsText Ssrf.

Open Scope string_scope.
Open Scope Z_scope.

Inductive Family := V4 | V6.
Record CidrRule := { network : Z; mask : Z; family : Family }.

(** [ip.split('.')], each part by parseInt; a part that is not a number makes
    BigInt throw, which [isIPv4] has excluded.
    Models [ipv4ToBigInt] (backend/src/admin/middleware/allowlist.middleware.ts:129-135). *)
Definition ipv4ToBigInt (ip : string) : Z :=
  let o i := default 0 ((split "."%char ip !! i) ≫= parseInt10) in
  Z.lor (Z.lor (Z.lor (Z.shiftl (o 0%nat) 24) (Z.shiftl (o 1%nat) 16)) (Z.shiftl (o 2%nat) 8)) (o 3%nat).

(** Non-empty parts; with one "::", zeros up to eight.
    Models [expandV6] (backend/src/admin/middleware/allowlist.middleware.ts:149-161). *)
Definition expandV6 (ip : string) : list string :=
  let lower := toLowerCase ip in
  let nonempty p := List.filter (λ s, negb (bool_decide (s = ""))) (split ":"%char p) in
  match split_colons lower with
  | [l; r] =>
      let left := nonempty l in
      let right := nonempty r in
      (left ++ replicate (8 - length left - length right) "0" ++ right)%list
  | _ => nonempty lower
  end.

(** [parseInt(h, 16)]: the leading hexadecimal digits. *)
Fixpoint hex_prefix (acc : Z) (s : string) : Z :=
  match s with
  | String c s' => if is_hex c then hex_prefix (acc * 16 + hex_val c) s' else acc
  | "" => acc
  end.

(** Models [ipv6ToBigInt] (backend/src/admin/middleware/allowlist.middleware.ts:137-144). *)
Definition ipv6ToBigInt (ip : string) : Z := foldl (λ r h, Z.lor (Z.shiftl r 16) (hex_prefix 0 h)) 0 (expandV6 ip).

Section allowlist.
Variables isIPv4 isIPv6 : string → bool.

(** The mask of a prefix of a [width]-bit address. *)
Definition mask_of (width bits : Z) : Z := if bits =? 0 then 0 else Z.shiftl 1 width - Z.shiftl 1 (width - bits).

(** A prefix that is not a number passes the comparisons, and BigInt(NaN) throws.
    Models [parseCidr] (backend/src/admin/middleware/allowlist.middleware.ts:77-99). *)
Definition parseCidr (input : string) : result string (option CidrRule) :=
  let parts := split "/"%char input in
  let addr := default "" (parts !! 0%nat) in
  let rule width fam ip :=
    match truthy (parts !! 1%nat) with
    | None => Ok (Some {| network := Z.land ip (mask_of width width); mask := mask_of width width; family := fam |})
    | Some p =>
        match parseInt10 p with
        | None => Throw "RangeError"
        | Some bits =>
            if (bits <? 0) || (width <? bits) then Ok None
            else Ok (Some {| network := Z.land ip (mask_of width bits); mask := mask_of width bits; family := fam |})
        end
    end in
  if isIPv4 addr then rule 32 V4 (ipv4ToBigInt addr)
  else if isIPv6 addr then rule 128 V6 (ipv6ToBigInt addr)
  else Ok None.

(** Models [extractV4FromMappedV6] (backend/src/admin/middleware/allowlist.middleware.ts:167-173). *)
Definition extractV4FromMappedV6 (ip : string) : option string :=
  let lower := toLowerCase ip in
  if startsWith lower "::ffff:" then
    let candidate := str_drop 7 lower in
    if isIPv4 candidate then Some candidate else None
  else None.

(** Models [ipMatchesCidr] (backend/src/admin/middleware/allowlist.middleware.ts:105-127). *)
Definition ipMatchesCidr (ip : string) (rule : CidrRule) : bool :=
  if isIPv4 ip then
    match family rule with V6 => false | V4 => Z.land (ipv4ToBigInt ip) (mask rule) =? network rule end
  else if isIPv6 ip then
    match family rule with
    | V4 => match extractV4FromMappedV6 ip with Some m => Z.land (ipv4ToBigInt m) (mask rule) =? network rule | None => false end
    | V6 => Z.land (ipv6ToBigInt ip) (mask rule) =? network rule
    end
  else false.

(** Rules that do not parse are skipped with a warning; one that throws stops the
    construction.
    Models [AllowlistMiddleware.constructor] (backend/src/admin/middleware/allowlist.middleware.ts:18-41). *)
Definition read_rules (raw : option string) : result string (list CidrRule) :=
  let parts := List.filter (λ s, negb (bool_decide (s = ""))) (trim <$> split ","%char (default "" raw)) in
  let! rules := map_result parseCidr parts in
  Ok (omap (λ r, r) rules).

Record Request := { forwardedFor : option string; req_ip : option string; remoteAddress : option string }.

(** Models [getClientIp] (backend/src/admin/middleware/allowlist.middleware.ts:64-71). *)
Definition getClientIp (req : Request) : string :=
  let direct := match truthy (req_ip req) with Some ip => ip | None => default "unknown" (truthy (remoteAddress req)) end in
  match truthy (forwardedFor req) with
  | Some f => match trim (default "" (split ","%char f !! 0%nat)) with "" => direct | first => first end
  | None => direct
  end.

(** Whether the request goes on; otherwise it is forbidden.
    Models [use] (backend/src/admin/middleware/allowlist.middleware.ts:43-58). *)
Definition use (rules : list CidrRule) (req : Request) : bool :=
  match rules with [] => true | _ => existsb (ipMatchesCidr (getClientIp req)) rules end.

(** ** Networks of IPv4 addresses *)

Definition octet (a : Z) : Prop := 0 ≤ a < 256.

(** What the platform accepts as an IPv4 address: four decimal octets without
    leading zeros. *)
Hypothesis isIPv4_spec : ∀ ip, isIPv4 ip = true ↔ ∃ a b c d, octet a ∧ octet b ∧ octet c ∧ octet d ∧ ip = dotted a b c d.

Lemma split_dotted a b c d : 0 ≤ a → 0 ≤ b → 0 ≤ c → 0 ≤ d → split "."%char (dotted a b c d) = [show_Z a; show_Z b; show_Z c; show_Z d].
Proof.
  intros Ha Hb Hc Hd.
  assert (Hav : ∀ n, 0 ≤ n → str_forall (λ x, negb (bool_decide (x = "."%char))) (show_Z n) = true)
    by (intros n Hn; apply digits_avoid; [done|by apply show_Z_digits]).
  change (dotted a b c d) with (show_Z a +:+ String "." (show_Z b +:+ String "." (show_Z c +:+ String "." (show_Z d)))).
  by rewrite !split_app, split_single by (by apply Hav).
Qed.

(** Disjoint bits add up. *)
Lemma lor_shifted x y n : 0 ≤ n → 0 ≤ y < 2 ^ n → Z.lor (Z.shiftl x n) y = x * 2 ^ n + y.
Proof.
  intros Hn Hy. pose proof (Z.add_lor_land (Z.shiftl x n) y) as Hsum. enough (Z.land (Z.shiftl x n) y = 0) as Hz.
  { rewrite Hz in Hsum. rewrite <- (Z.shiftl_mul_pow2 x n) by done. lia. }
  apply Z.bits_inj'. intros k Hk. rewrite Z.land_spec, Z.bits_0. destruct (Z.ltb_spec k n).
  - by rewrite Z.shiftl_spec_low.
  - destruct (decide (y = 0)) as [->|Hy0]; [by rewrite Z.bits_0, andb_false_r|].
    rewrite (Z.bits_above_log2 y k), andb_false_r; [done|lia|]. apply Z.lt_le_trans with n; [|lia]. apply Z.log2_lt_pow2; lia.
Qed.

Lemma ipv4ToBigInt_dotted a b c d : octet a → octet b → octet c → octet d → ipv4ToBigInt (dotted a b c d) = ipv4 a b c d.
Proof.
  unfold octet. intros Ha Hb Hc Hd. unfold ipv4ToBigInt. rewrite split_dotted by lia. cbn [lookup list_lookup mbind option_bind].
  rewrite !parseInt10_show. unfold default, id.
  replace (Z.lor (Z.lor (Z.lor (Z.shiftl a 24) (Z.shiftl b 16)) (Z.shiftl c 8)) d)
    with (Z.lor (Z.shiftl (Z.lor (Z.shiftl (Z.lor (Z.shiftl a 8) b) 8) c) 8) d).
  - rewrite !lor_shifted by (change (2 ^ 8) with 256; lia). unfold ipv4. change (2 ^ 8) with 256. lia.
  - rewrite !Z.shiftl_lor, !Z.shiftl_shiftl by lia. done.
Qed.

(** Masking keeps the prefix. *)
Lemma land_mask x bits : 0 ≤ x < 2 ^ 32 → 0 ≤ bits ≤ 32 → Z.land x (mask_of 32 bits) = Z.shiftl (Z.shiftr x (32 - bits)) (32 - bits).
Proof.
  intros Hx Hb. unfold mask_of. destruct (Z.eqb_spec bits 0) as [->|H0].
  - rewrite Z.land_0_r. replace (Z.shiftr x (32 - 0)) with 0; [by rewrite Z.shiftl_0_l|]. rewrite Z.shiftr_div_pow2 by lia. rewrite Z.div_small; lia.
  - replace (Z.shiftl 1 32 - Z.shiftl 1 (32 - bits)) with (Z.shiftl (Z.ones bits) (32 - bits)).
    2: { rewrite Z.ones_equiv, !Z.shiftl_mul_pow2 by lia. replace 32 with (bits + (32 - bits)) at 2 by lia. rewrite Z.pow_add_r by lia. lia. }
    apply Z.bits_inj'. intros k Hk. rewrite Z.land_spec. destruct (Z.ltb_spec k (32 - bits)).
    + by rewrite !Z.shiftl_spec_low, andb_false_r by lia.
    + rewrite !Z.shiftl_spec, Z.shiftr_spec by lia. replace (k - (32 - bits) + (32 - bits)) with k by lia.
      rewrite Z.testbit_ones by lia. destruct (Z.ltb_spec (k - (32 - bits)) bits).
      * replace (0 <=? k - (32 - bits)) with true by (symmetry; apply Z.leb_le; lia). by rewrite andb_true_r.
      * rewrite andb_false_r, andb_false_r. destruct (decide (x = 0)) as [->|Hx0]; [by rewrite Z.bits_0|].
        rewrite (Z.bits_above_log2 x k); [done|lia|]. apply Z.lt_le_trans with 32; [|lia]. apply Z.log2_lt_pow2; lia.
Qed.

Lemma ipv4_range a b c d : octet a → octet b → octet c → octet d → 0 ≤ ipv4 a b c d < 2 ^ 32.
Proof. unfold octet, ipv4. change (2 ^ 32) with 4294967296. lia. Qed.

Lemma masked_equal x y bits :
  0 ≤ x < 2 ^ 32 → 0 ≤ y < 2 ^ 32 → 0 ≤ bits ≤ 32 →
  (Z.land x (mask_of 32 bits) =? Z.land y (mask_of 32 bits)) = in_cidr x (y, bits).
Proof.
  intros Hx Hy Hb. rewrite !land_mask by done. unfold in_cidr. cbn [fst snd]. apply eq_true_iff_eq. rewrite !Z.eqb_eq. split; [|by intros ->].
  intros E. apply (f_equal (λ z, Z.shiftr z (32 - bits))) in E. by rewrite !Z.shiftr_shiftl_l, !Z.sub_diag, !Z.shiftl_0_r in E by lia.
Qed.
(** A network as it is written in the setting. *)
Record Block := { b_addr : Z * Z * Z * Z; b_bits : Z }.
Definition block_ok (b : Block) : Prop := let '(p, q, r, s) := b_addr b in octet p ∧ octet q ∧ octet r ∧ octet s ∧ 0 ≤ b_bits b ≤ 32.
Definition show_block (b : Block) : string := let '(p, q, r, s) := b_addr b in dotted p q r s +:+ String "/" (show_Z (b_bits b)).
Definition block_range (b : Block) : Z * Z := let '(p, q, r, s) := b_addr b in (ipv4 p q r s, b_bits b).
Definition rule_of (b : Block) : CidrRule :=
  {| network := Z.land (fst (block_range b)) (mask_of 32 (b_bits b)); mask := mask_of 32 (b_bits b); family := V4 |}.

(** The characters of an address: none that separates or that trimming removes. *)
Definition plain_char (x : ascii) : bool := is_digit x || bool_decide (x = "."%char).
Lemma dotted_plain a b c d : 0 ≤ a → 0 ≤ b → 0 ≤ c → 0 ≤ d → str_forall plain_char (dotted a b c d) = true.
Proof.
  intros Ha Hb Hc Hd. assert (∀ n, 0 ≤ n → str_forall plain_char (show_Z n) = true) as Hn.
  { intros n Hn. eapply str_forall_impl; [|by apply show_Z_digits]. intros x Hx. unfold plain_char. by rewrite Hx. }
  unfold dotted. rewrite !str_forall_app, !Hn by done. done.
Qed.

Lemma block_chars b : block_ok b → str_forall (λ x, plain_char x || bool_decide (x = "/"%char)) (show_block b) = true.
Proof.
  destruct b as [[[[p q] r] s] bits]. unfold block_ok, octet, show_block. cbn [b_addr b_bits]. intros Hb. rewrite str_forall_app.
  apply andb_true_iff. split; [|cbn [str_forall]; apply andb_true_iff; split; [done|]].
  - eapply str_forall_impl; [|apply dotted_plain; lia]. intros x Hx. by rewrite Hx.
  - eapply str_forall_impl; [|apply show_Z_digits; lia]. intros x Hx. unfold plain_char. by rewrite Hx.
Qed.

Lemma char_cases (f : ascii → bool) (P : ascii → bool) s :
  (∀ x, P x = true → f x = true) → str_forall P s = true → str_forall f s = true.
Proof. apply str_forall_impl. Qed.

Lemma plain_or_slash x : plain_char x || bool_decide (x = "/"%char) = true → negb (bool_decide (x = ","%char)) = true ∧ negb (is_ws x) = true.
Proof.
  unfold plain_char. intros [[Hx|Hx]%orb_prop|Hx]%orb_prop.
  - split; [apply negb_true_iff, bool_decide_eq_false; intros ->; done|]. by rewrite is_digit_not_ws.
  - apply bool_decide_eq_true in Hx as ->. done.
  - apply bool_decide_eq_true in Hx as ->. done.
Qed.

Lemma parse_block b : block_ok b → parseCidr (show_block b) = Ok (Some (rule_of b)).
Proof.
  destruct b as [[[[p q] r] s] bits]. unfold block_ok, show_block, rule_of, block_range. cbn [b_addr b_bits fst].
  intros (Hp & Hq & Hr & Hs & Hb). unfold octet in *.
  assert (str_forall (λ x, negb (bool_decide (x = "/"%char))) (dotted p q r s) = true) as Hav.
  { eapply char_cases; [|apply dotted_plain; lia]. intros x. unfold plain_char. intros [Hx|Hx]%orb_prop;
      apply negb_true_iff, bool_decide_eq_false; intros ->; done. }
  unfold parseCidr. rewrite split_app by done. rewrite split_single by (apply digits_avoid; [done|apply show_Z_digits; lia]).
  cbn [lookup list_lookup default id]. unfold default, id. assert (isIPv4 (dotted p q r s) = true) as -> by (apply isIPv4_spec; exists p, q, r, s; done).
  unfold truthy. destruct (show_Z bits) as [|c t] eqn:E; [by destruct (show_Z_ne_empty bits)|]. rewrite <- E, parseInt10_show.
  destruct (Z.ltb_spec bits 0); [lia|]. destruct (Z.ltb_spec 32 bits); [lia|]. cbn [orb]. by rewrite ipv4ToBigInt_dotted.
Qed.

Lemma split_join c ps :
  Forall (λ p, str_forall (λ x, negb (bool_decide (x = c))) p = true) ps → ps ≠ [] → split c (join (String c "") ps) = ps.
Proof.
  induction 1 as [|p ps Hp Hps IH]; intros Hne; [done|]. destruct ps as [|q ps]; [by apply split_single|].
  change (join (String c "") (p :: q :: ps)) with (p +:+ String c (join (String c "") (q :: ps))).
  rewrite split_app by done. by rewrite IH.
Qed.

Lemma clean_parts ss :
  Forall (λ s, s ≠ "" ∧ str_forall (λ c, negb (is_ws c)) s = true) ss →
  List.filter (λ s, negb (bool_decide (s = ""))) (trim <$> ss) = ss.
Proof.
  induction 1 as [|s ss [Hne Hw] _ IH]; [done|]. cbn [fmap list_fmap List.filter].
  assert (trim s = s) as -> by (unfold trim; rewrite trimStart_clean by done; by apply trimEnd_clean).
  rewrite bool_decide_false by done. cbn [negb]. by rewrite IH.
Qed.

Lemma show_block_ne b : show_block b ≠ "".
Proof.
  destruct b as [[[[p q] r] s] bits]. unfold show_block, dotted. cbn [b_addr b_bits]. pose proof (show_Z_ne_empty p) as Hp.
  by destruct (show_Z p).
Qed.

Lemma read_blocks blocks : Forall block_ok blocks → read_rules (Some (join "," (show_block <$> blocks))) = Ok (rule_of <$> blocks).
Proof.
  intros Hb. unfold read_rules, default, id. destruct blocks as [|b bs]; [done|].
  assert (Forall (λ s, str_forall (λ x, plain_char x || bool_decide (x = "/"%char)) s = true) (show_block <$> b :: bs)) as Hc.
  { apply Forall_fmap. eapply Forall_impl; [exact Hb|]. intros x Hx. by apply block_chars. }
  rewrite split_join; [|eapply Forall_impl; [exact Hc|]; intros s Hs; eapply char_cases; [|exact Hs]; intros x Hx; by apply plain_or_slash|done].
  rewrite clean_parts.
  - clear Hc. induction Hb as [|x l Hx _ IH]; [done|]. cbn [fmap list_fmap map_result]. rewrite parse_block by done. cbn [rbind].
    destruct (map_result parseCidr _) as [rs|]; [|done]. cbn [rbind] in *. injection IH as IH. cbn [omap list_omap]. by rewrite IH.
  - apply Forall_forall. intros s Hs. rewrite Forall_forall in Hc. split.
    + apply list_elem_of_fmap in Hs as (x & -> & _). apply show_block_ne.
    + eapply char_cases; [|by apply Hc]. intros x Hx. by apply plain_or_slash.
Qed.

(** The allowlist is the union of its networks.  A setting that lists IPv4 networks
    is read without loss, and a client without a forwarding header is let through
    exactly if its IPv4 address lies in one of them, or if the list is empty. *)
Theorem allowlist_exact blocks a b c d remote :
  Forall block_ok blocks → octet a → octet b → octet c → octet d →
  ∃ rules, read_rules (Some (join "," (show_block <$> blocks))) = Ok rules ∧
    use rules {| forwardedFor := None; req_ip := Some (dotted a b c d); remoteAddress := remote |} =
      bool_decide (blocks = []) || existsb (λ blk, in_cidr (ipv4 a b c d) (block_range blk)) blocks.
Proof.
  intros Hb Ha Hbb Hc Hd. exists (rule_of <$> blocks). split; [by apply read_blocks|].
  assert (isIPv4 (dotted a b c d) = true) as Hip by (apply isIPv4_spec; exists a, b, c, d; done).
  assert (getClientIp {| forwardedFor := None; req_ip := Some (dotted a b c d); remoteAddress := remote |} = dotted a b c d) as Hg.
  { unfold getClientIp. cbn [truthy forwardedFor req_ip]. unfold dotted. pose proof (show_Z_ne_empty a). by destruct (show_Z a). }
  destruct blocks as [|blk blks]; [done|]. rewrite bool_decide_false by done. cbn [orb]. unfold use. cbn [fmap list_fmap].
  rewrite Hg. change (existsb (ipMatchesCidr (dotted a b c d)) (rule_of <$> (blk :: blks)) =
    existsb (λ blk, in_cidr (ipv4 a b c d) (block_range blk)) (blk :: blks)).
  induction Hb as [|x l Hx _ IH]; [done|]. cbn [fmap list_fmap existsb]. rewrite IH. f_equal.
  unfold ipMatchesCidr. rewrite Hip, ipv4ToBigInt_dotted by done. destruct x as [[[[p q] r] s] bits]. unfold rule_of, block_range.
  cbn [family mask network b_addr b_bits fst]. destruct Hx as (Hp & Hq & Hr & Hs & Hbits). cbn in Hbits.
  apply masked_equal; [by apply ipv4_range|by apply ipv4_range|done].
Qed.
End allowlist.

(** The first address of the forwarding header is believed.  Whoever sends a request
    can write the header: from any address, naming an admitted one is enough to be
    let through. *)
Theorem forwarded_header_believed v4 v6 rules ip direct remote remote' :
  ip ≠ "" → str_forall (λ c, negb (is_ws c)) ip = true → str_forall (λ c, negb (bool_decide (c = ","%char))) ip = true →
  use v4 v6 rules {| forwardedFor := Some ip; req_ip := direct; remoteAddress := remote |} =
  use v4 v6 rules {| forwardedFor := None; req_ip := Some ip; remoteAddress := remote' |}.
Proof.
  intros Hne Hw Hc. unfold use. destruct rules as [|r rs]; [done|]. f_equal.
  assert (truthy (Some ip) = Some ip) as Ht by by destruct ip.
  assert (trim ip = ip) as Htr by (unfold trim; rewrite trimStart_clean by done; by rewrite trimEnd_clean).
  unfold getClientIp. cbn [forwardedFor req_ip]. rewrite Ht, split_single by done. cbn [lookup list_lookup]. unfold default, id.
  rewrite Htr. by destruct ip.
Qed.

(** A prefix that is not a number stops the construction of the middleware, where
    other errors in the setting are skipped. *)
Theorem bad_prefix_throws v4 v6 addr p rest :
  v4 addr = true → str_forall (λ c, negb (bool_decide (c = "/"%char))) addr = true → str_forall (λ c, negb (bool_decide (c = "/"%char))) p = true →
  p ≠ "" → parseInt10 p = None → map_result (parseCidr v4 v6) ((addr +:+ String "/" p) :: rest) = Throw "RangeError".
Proof.
  intros H4 Ha Hp Hne Hnan. cbn [map_result]. unfold parseCidr at 1. rewrite split_app, split_single by done.
  cbn [lookup list_lookup]. unfold default, id. rewrite H4. unfold truthy. destruct p as [|c p]; [done|]. by rewrite Hnan.
Qed.

(** ** At concrete inputs *)

Module AllowlistWitnesses.

(** The reference of the platform's test: four octets that print back. *)
Definition is_v4 (s : string) : bool :=
  match parseIpv4 s with Some (a, b, c, d) => bool_decide (s = dotted a b c d) | None => false end.

Lemma parse_octet_range p v : parse_octet p = Some v → octet v.
Proof.
  unfold parse_octet. destruct (some_digits p && (str_len p <=? 3)) eqn:Hd; [|done]. apply andb_prop in Hd as [Hd _].
  apply andb_prop in Hd as [_ Hd]. destruct (Z.ltb_spec 255 (digits_val 0 p)); [done|].
  intros [= <-]. split; [|lia]. apply digits_val_nonneg; [done|lia].
Qed.

Lemma is_v4_spec ip : is_v4 ip = true ↔ ∃ a b c d, octet a ∧ octet b ∧ octet c ∧ octet d ∧ ip = dotted a b c d.
Proof.
  unfold is_v4. split.
  - destruct (parseIpv4 ip) as [[[[a b] c] d]|] eqn:E; [|done]. intros Hd%bool_decide_eq_true. exists a, b, c, d.
    unfold parseIpv4 in E. destruct (split "."%char ip) as [|p0 [|p1 [|p2 [|p3 []]]]]; try done.
    destruct (parse_octet p0) eqn:E0, (parse_octet p1) eqn:E1, (parse_octet p2) eqn:E2, (parse_octet p3) eqn:E3; try done.
    injection E as <- <- <- <-. split_and!; try done; by eapply parse_octet_range.
  - intros (a & b & c & d & Ha & Hb & Hc & Hd & ->). unfold octet in *. rewrite parseIpv4_dotted by done. by apply bool_decide_eq_true.
Qed.

Definition office : list Block := [{| b_addr := (10, 0, 0, 0); b_bits := 8 |}; {| b_addr := (203, 0, 113, 7); b_bits := 32 |}].

Lemma allowlist_exact_witness :
  ∃ rules, read_rules is_v4 (λ _, false) (Some "10.0.0.0/8,203.0.113.7/32") = Ok rules ∧
    use is_v4 (λ _, false) rules {| forwardedFor := None; req_ip := Some "10.200.3.4"; remoteAddress := None |} = true.
Proof.
  destruct (allowlist_exact is_v4 (λ _, false) is_v4_spec office 10 200 3 4 None) as (rules & Hr & Hu); try (unfold octet; lia).
  - repeat constructor; unfold octet; cbn; lia.
  - exists rules. split; [exact Hr|]. etransitivity; [exact Hu|reflexivity].
Defined.

Lemma forwarded_header_believed_witness :
  use is_v4 (λ _, false) (rule_of <$> office) {| forwardedFor := Some "10.1.1.1"; req_ip := Some "198.51.100.9"; remoteAddress := None |} = true.
Proof.
  rewrite (forwarded_header_believed is_v4 (λ _, false) (rule_of <$> office) "10.1.1.1" (Some "198.51.100.9") None None); [reflexivity|discriminate|done|done].
Defined.

Lemma bad_prefix_throws_witness : map_result (parseCidr is_v4 (λ _, false)) ["10.0.0.0/x"; "10.0.0.0/8"] = Throw "RangeError".
Proof. apply (bad_prefix_throws is_v4 (λ _, false) "10.0.0.0" "x" ["10.0.0.0/8"]); done. Defined.
End AllowlistWitnesses.
