(* ===== verification/Retention.v ===== *)
(** * Retention and cleanup

    backend/src/maintenance/data-retention.service.ts and
    backend/src/maintenance/scheduled-cleanup.service.ts: the daily purge of rows
    that were deleted long ago, the pruning of the indexer's rows, the weekly purge
    of comments and the archive of resolved claims.  Foreign keys are those of
    backend/prisma/schema.prisma: deleting a claim deletes its votes, and a policy
    cannot be deleted while a claim refers to it.  A transaction is one command. *)

From stdpp Require Import base list strings.
From Stdlib Require Import ZArith Lia.
From S2P Require Import Prelude Keyset JsText Redis.

Open Scope string_scope.
Open Scope Z_scope.

Inductive ClaimStatus := PENDING | APPROVED | PAID | REJECTED | UNDER_APPEAL | APPEAL_APPROVED | APPEAL_REJECTED.
#[export] Instance claim_status_eq_dec : EqDecision ClaimStatus.
Proof. solve_decision. Defined.

Record Policy := { p_id : string; p_deletedAt : option Z }.
Record Claim := {
  id : Z; policyId : string; status : ClaimStatus; amount : string; isFinalized : bool; updatedAt : Z; deletedAt : option Z }.
Record Vote := { v_id : Z; v_claim : Z; v_deletedAt : option Z }.
Record Comment := { m_id : string; m_claim : Z; m_deletedAt : option Z }.
(** The archive: the claim's row as it was read, and when it was resolved. *)
Record ClaimArchive := { a_id : Z; a_policyId : string; a_status : ClaimStatus; a_amount : string; snapshot : Claim; resolvedAt : Z }.

Record store := Store {
  policies : list Policy; claims : list Claim; votes : list Vote; comments : list Comment; archive : list ClaimArchive;
  rawEvents : list Z; ledgerCursors : list Z }.
Abbreviation MR A := (M (rworld store) string A).

Definition before (cutoff : Z) (t : option Z) : bool := match t with Some t => t <=? cutoff | None => false end.

(** ** The daily purge *)

(** Models [computeCutoff] (backend/src/maintenance/data-retention.service.ts:45-48). *)
Definition computeCutoff (now retentionDays : Z) : Z := now - retentionDays * 86400000.

Record PurgeSummary := { n_votes : nat; n_claims : nat; n_policies : nat }.

Definition removed {A} (l l' : list A) : nat := (length l - length l')%nat.

(** Deleting claims takes their votes and comments along. *)
Definition delete_claims (gone : Claim → bool) (s : store) : store :=
  let kept c := negb (existsb (λ x, (id x =? c) && gone x) (claims s)) in
  Store (policies s) (List.filter (λ c, negb (gone c)) (claims s)) (List.filter (λ v, kept (v_claim v)) (votes s))
    (List.filter (λ m, kept (m_claim m)) (comments s)) (archive s) (rawEvents s) (ledgerCursors s).

(** The transaction, or [None] when a claim still refers to one of the policies. *)
Definition purge_tx (cutoff : Z) (s : store) : option (PurgeSummary * store) :=
  let s1 := Store (policies s) (claims s) (List.filter (λ v, negb (before cutoff (v_deletedAt v))) (votes s)) (comments s) (archive s)
              (rawEvents s) (ledgerCursors s) in
  let s2 := delete_claims (λ c, before cutoff (deletedAt c)) s1 in
  let gone p := before cutoff (p_deletedAt p) in
  if existsb (λ c, existsb (λ p, String.eqb (p_id p) (policyId c) && gone p) (policies s2)) (claims s2) then None
  else
    let s3 := Store (List.filter (λ p, negb (gone p)) (policies s2)) (claims s2) (votes s2) (comments s2) (archive s2) (rawEvents s2) (ledgerCursors s2) in
    Some ({| n_votes := removed (votes s) (votes s1); n_claims := removed (claims s) (claims s2); n_policies := removed (policies s) (policies s3) |}, s3).

(** Models [purgeMaterializedRowsDeletedBefore] (backend/src/maintenance/data-retention.service.ts:54-71). *)
Definition purgeMaterializedRowsDeletedBefore (cutoff : Z) : MR PurgeSummary :=
  let* r := cmd (λ s, match purge_tx cutoff s with Some (n, s') => (Some n, s') | None => (None, s) end) in
  match r with Some n => ret n | None => throw "Foreign key constraint violated" end.

(** Models [pruneIndexerRowsBefore] (backend/src/maintenance/data-retention.service.ts:83-94). *)
Definition pruneIndexerRowsBefore (cutoff : Z) : MR (nat * nat) :=
  let keep := List.filter (λ t, negb (t <=? cutoff)) in
  let* re := cmd (λ s, (removed (rawEvents s) (keep (rawEvents s)),
                        Store (policies s) (claims s) (votes s) (comments s) (archive s) (keep (rawEvents s)) (ledgerCursors s))) in
  let* lc := cmd (λ s, (removed (ledgerCursors s) (keep (ledgerCursors s)),
                        Store (policies s) (claims s) (votes s) (comments s) (archive s) (rawEvents s) (keep (ledgerCursors s)))) in
  ret (re, lc).

(** Models [scheduledPurge] (backend/src/maintenance/data-retention.service.ts:25-43). *)
Definition scheduledPurge (now : Z) (days indexerDays : option Z) : MR () :=
  do* purgeMaterializedRowsDeletedBefore (computeCutoff now (default 730 days)) in
  do* pruneIndexerRowsBefore (computeCutoff now (default 90 indexerDays)) in
  ret tt.

(** ** The weekly cleanup *)

Definition DAY_MS : Z := 24 * 60 * 60 * 1000.
Definition COMMENT_PURGE_DAYS : Z := 90.
Definition CLAIM_ARCHIVE_DAYS : Z := 730.
Definition ARCHIVE_BATCH_SIZE : nat := 500.
#[global] Strategy opaque [ARCHIVE_BATCH_SIZE].

(** Models [RESOLVED_STATUSES] (backend/src/maintenance/scheduled-cleanup.service.ts:11-16). *)
Definition RESOLVED_STATUSES : list ClaimStatus := [PAID; REJECTED; APPEAL_APPROVED; APPEAL_REJECTED].

(** Models [purgeDeletedComments] (backend/src/maintenance/scheduled-cleanup.service.ts:41-47). *)
Definition purgeDeletedComments (now : Z) : MR nat :=
  let cutoff := now - COMMENT_PURGE_DAYS * DAY_MS in
  let keep := List.filter (λ m, match m_deletedAt m with Some t => negb (t <? cutoff) | None => true end) in
  cmd (λ s, (removed (comments s) (keep (comments s)),
             Store (policies s) (claims s) (votes s) (keep (comments s)) (archive s) (rawEvents s) (ledgerCursors s))).

Definition archivable (cutoff : Z) (c : Claim) : bool :=
  isFinalized c && bool_decide (status c ∈ RESOLVED_STATUSES) && (updatedAt c <? cutoff).

Definition archive_row (c : Claim) : ClaimArchive :=
  {| a_id := id c; a_policyId := policyId c; a_status := status c; a_amount := amount c; snapshot := c; resolvedAt := updatedAt c |}.

(** [createMany] with skipDuplicates. *)
Definition insert_archive (a : list ClaimArchive) (r : ClaimArchive) : list ClaimArchive :=
  if existsb (λ x, a_id x =? a_id r) a then a else (a ++ [r])%list.

Definition archive_tx (batch : list Claim) (s : store) : store :=
  delete_claims (λ c, existsb (λ b, id b =? id c) batch)
    (Store (policies s) (claims s) (votes s) (comments s) (foldl insert_archive (archive s) (archive_row <$> batch)) (rawEvents s) (ledgerCursors s)).

(** One unit of fuel per batch. *)
Fixpoint archive_loop (fuel : nat) (cutoff : Z) (total : nat) : MR nat :=
  match fuel with
  | O => ret total
  | S fuel' =>
      let* batch := query (λ s, take ARCHIVE_BATCH_SIZE (List.filter (archivable cutoff) (claims s))) in
      if (length batch =? 0)%nat then ret total
      else
        do* update (archive_tx batch) in
        let total := (total + length batch)%nat in
        if (length batch <? ARCHIVE_BATCH_SIZE)%nat then ret total else archive_loop fuel' cutoff total
  end.

(** As many batches as claims are enough.
    Models [archiveResolvedClaims] (backend/src/maintenance/scheduled-cleanup.service.ts:49-83). *)
Definition archiveResolvedClaims (now : Z) : MR nat := λ w,
  archive_loop (S (length (claims (rstate w)))) (now - CLAIM_ARCHIVE_DAYS * DAY_MS) 0 w.

(** The purge of expired flags is that of the feature flags.
    Models [runWeeklyCleanup] (backend/src/maintenance/scheduled-cleanup.service.ts:31-39). *)
Definition runWeeklyCleanup (purgeExpiredFeatureFlags : Z → MR nat) (now : Z) : MR () :=
  do* purgeDeletedComments now in
  do* archiveResolvedClaims now in
  do* purgeExpiredFeatureFlags now in
  ret tt.

(** ** The archive loses no claim *)

Definition ids_ok (s : store) : Prop :=
  NoDup (id <$> claims s) ∧ ∀ c a, c ∈ claims s → a ∈ archive s → a_id a ≠ id c.

(** Claims stay or are moved; archived rows stay; and only claims the cutoff allows
    were moved. *)
Definition moved (cutoff : Z) (s s' : store) : Prop :=
  ids_ok s →
  ids_ok s' ∧ (∀ c, c ∈ claims s → c ∈ claims s' ∨ (archivable cutoff c = true ∧ archive_row c ∈ archive s')) ∧
  (∀ c, c ∈ claims s' → c ∈ claims s) ∧
  (∀ a, a ∈ archive s → a ∈ archive s').

Lemma moved_refl cutoff s : moved cutoff s s.
Proof. intros Hi. split_and!; auto. Qed.
Lemma moved_trans cutoff a b c : moved cutoff a b → moved cutoff b c → moved cutoff a c.
Proof.
  intros Hab Hbc Hi. destruct (Hab Hi) as (Hb & H1 & H2 & H3). destruct (Hbc Hb) as (Hc & H4 & H5 & H6).
  split_and!; [done| |by auto|by auto]. intros x [Hx|[Hx Ha]]%H1; [by apply H4|right; auto].
Qed.

Lemma insert_archive_all rows a :
  NoDup (a_id <$> rows) → (∀ r x, r ∈ rows → x ∈ a → a_id x ≠ a_id r) → foldl insert_archive a rows = (a ++ rows)%list.
Proof.
  revert a. induction rows as [|r rows IH]; intros a Hn Hd; [by rewrite app_nil_r|]. apply NoDup_cons in Hn as [Hr Hn]. cbn [foldl].
  assert (insert_archive a r = (a ++ [r])%list) as ->.
  { unfold insert_archive. replace (existsb _ a) with false; [done|]. symmetry. apply Bool.not_true_iff_false.
    intros (x & Hx & He)%existsb_exists. apply Z.eqb_eq in He. by apply (Hd r x); [left|apply list_elem_of_In|]. }
  rewrite IH; [by rewrite <- app_assoc|done|]. intros q x Hq [Hx|Hx%list_elem_of_singleton]%elem_of_app; [by apply Hd; [right|]|].
  subst x. intros E. apply Hr. rewrite E. by apply list_elem_of_fmap_2.
Qed.

Lemma batch_of cutoff n s b : b ∈ take n (List.filter (archivable cutoff) (claims s)) → b ∈ claims s ∧ archivable cutoff b = true.
Proof. intros (k & Hk & _)%elem_of_take. apply list_elem_of_lookup_2 in Hk. by apply elem_of_bfilter in Hk. Qed.

Lemma same_id s b c : NoDup (id <$> claims s) → b ∈ claims s → c ∈ claims s → id b = id c → b = c.
Proof.
  intros Hn [i Hb]%list_elem_of_lookup [j Hc]%list_elem_of_lookup E. assert (i = j) as <-; [|congruence].
  eapply NoDup_lookup; [exact Hn| |]; rewrite list_lookup_fmap; [by rewrite Hb|rewrite Hc; cbn; by rewrite E].
Qed.

(** A batch adds exactly its own rows to the archive. *)
Lemma archive_tx_rows cutoff n s : ids_ok s →
  let batch := take n (List.filter (archivable cutoff) (claims s)) in
  foldl insert_archive (archive s) (archive_row <$> batch) = (archive s ++ (archive_row <$> batch))%list.
Proof.
  intros [Hn Hd] batch. apply insert_archive_all.
  - rewrite <- list_fmap_compose. change (a_id ∘ archive_row) with id. unfold batch. rewrite fmap_take.
    pose proof (filter_keys_unique id (archivable cutoff) _ Hn) as Hf.
    rewrite <- (take_drop n (id <$> _)) in Hf. by apply NoDup_app in Hf as [Hf _].
  - intros r x (b & -> & Hb)%list_elem_of_fmap Hx. cbn. by apply Hd; [apply (batch_of _ _ _ _ Hb)|].
Qed.

Lemma archive_tx_moved cutoff n s : moved cutoff s (archive_tx (take n (List.filter (archivable cutoff) (claims s))) s).
Proof.
  intros Hi. pose proof (archive_tx_rows cutoff n s Hi) as Ha. destruct Hi as [Hn Hd]. cbn zeta in Ha.
  set (batch := take n _) in *. assert (∀ b, b ∈ batch → b ∈ claims s ∧ archivable cutoff b = true) as Hb by apply batch_of.
  unfold archive_tx, delete_claims. rewrite Ha. split; [split|split_and!]; cbn [claims archive].
  - by apply filter_keys_unique.
  - intros c a [Hc Hk]%elem_of_bfilter [Hx|(b & -> & Hbb)%list_elem_of_fmap]%elem_of_app; [by apply Hd|]. cbn. intros E.
    apply negb_true_iff, Bool.not_true_iff_false in Hk. apply Hk, existsb_exists. exists b. split; [by apply list_elem_of_In|by apply Z.eqb_eq].
  - intros c Hc. destruct (existsb (λ b, id b =? id c) batch) eqn:E.
    + right. apply existsb_exists in E as (b & Hbb%list_elem_of_In & He%Z.eqb_eq).
      assert (b = c) as -> by (eapply same_id; [exact Hn|by apply Hb|done|done]). split; [by apply Hb|].
      apply elem_of_app. right. by apply list_elem_of_fmap_2.
    + left. apply elem_of_bfilter. by rewrite E.
  - by intros c [Hc _]%elem_of_bfilter.
  - intros a Hx. apply elem_of_app. by left.
Qed.

Lemma archive_loop_moved fuel cutoff total w : moved cutoff (rstate w) (rstate (world_of (archive_loop fuel cutoff total) w)).
Proof.
  revert total w. induction fuel as [|fuel IH]; intros total w; [apply moved_refl|]. cbn [archive_loop]. unfold world_of, bind at 1, query, update, cmd.
  destruct (faults w) as [|[] fs]; cbn [rstate fst snd tail]; [|apply moved_refl|].
  all: destruct (length _ =? 0)%nat; [apply moved_refl|]; unfold bind at 1; cbn [faults rstate].
  2: destruct fs as [|[] fs]; cbn [rstate fst snd tail]; [|apply moved_refl|].
  all: destruct (length _ <? ARCHIVE_BATCH_SIZE)%nat; cbn [ret fst snd rstate]; [apply archive_tx_moved|].
  all: eapply moved_trans; [apply archive_tx_moved|]; match goal with |- context [archive_loop _ _ ?t ?w1] => apply (IH t w1) end.
Qed.

(** The archive loses no claim.  Whichever statements of a run fail, every claim is
    still in its table or, if it was final, resolved and two years old, in the
    archive with the row it had; archived claims stay archived, and nothing else
    appears among the claims. *)
Theorem archive_loses_no_claim now w :
  ids_ok (rstate w) →
  let s := rstate w in
  let s' := rstate (world_of (archiveResolvedClaims now) w) in
  ids_ok s' ∧ (∀ c, c ∈ claims s → c ∈ claims s' ∨ (archivable (now - CLAIM_ARCHIVE_DAYS * DAY_MS) c = true ∧ archive_row c ∈ archive s')) ∧
  (∀ c, c ∈ claims s' → c ∈ claims s) ∧ (∀ a, a ∈ archive s → a ∈ archive s').
Proof. intros Hi. exact (archive_loop_moved _ _ 0 w Hi). Qed.

(** ** What the archive does on a healthy database *)

(** Splitting off the batch: what is left to archive are the other candidates. *)
Lemma batch_removed cutoff n s :
  NoDup (id <$> claims s) →
  let old := List.filter (archivable cutoff) (claims s) in
  List.filter (archivable cutoff) (claims (archive_tx (take n old) s)) = drop n old ∧
  List.filter (λ c, negb (archivable cutoff c)) (claims (archive_tx (take n old) s)) = List.filter (λ c, negb (archivable cutoff c)) (claims s).
Proof.
  intros Hn old. unfold archive_tx, delete_claims. cbn [claims].
  assert (∀ c, c ∈ claims s → existsb (λ b, id b =? id c) (take n old) = true → c ∈ take n old) as Hin.
  { intros c Hc (b & Hb%list_elem_of_In & He%Z.eqb_eq)%existsb_exists. pose proof (batch_of _ _ _ _ Hb) as [Hbc _].
    by rewrite <- (same_id s b c Hn Hbc Hc He). }
  split.
  - rewrite filter_filter. transitivity (List.filter (λ c, negb (existsb (λ b, id b =? id c) (take n old))) old).
    { unfold old. rewrite filter_filter. apply List.filter_ext. intros c. apply andb_comm. }
    assert (NoDup (id <$> (take n old ++ drop n old)%list)) as Hno by (rewrite take_drop; by apply filter_keys_unique).
    transitivity (List.filter (λ c, negb (existsb (λ b, id b =? id c) (take n old))) (take n old ++ drop n old)%list); [by rewrite take_drop|].
    rewrite List.filter_app, bfilter_none, bfilter_all; [done| |].
    + intros c Hc. apply negb_true_iff, Bool.not_true_iff_false. intros (b & Hb%list_elem_of_In & He%Z.eqb_eq)%existsb_exists.
      rewrite fmap_app in Hno. apply NoDup_app in Hno as (_ & Hd & _). apply (Hd (id c)); [|by apply list_elem_of_fmap_2].
      rewrite <- He. by apply list_elem_of_fmap_2.
    + intros c Hc. apply negb_false_iff, existsb_exists. exists c. split; [by apply list_elem_of_In|apply Z.eqb_refl].
  - rewrite filter_filter. apply List.filter_ext_in. intros c Hc%list_elem_of_In. destruct (existsb _ _) eqn:E; [|done].
    apply (Hin c Hc) in E. apply batch_of in E as [_ E]. by rewrite E.
Qed.

Lemma archive_loop_run fuel cutoff total s :
  ids_ok s → (length (List.filter (archivable cutoff) (claims s)) < fuel)%nat →
  ∃ s', archive_loop fuel cutoff total (healthy s) = (Ok (total + length (List.filter (archivable cutoff) (claims s)))%nat, healthy s') ∧
    claims s' = List.filter (λ c, negb (archivable cutoff c)) (claims s) ∧
    archive s' = (archive s ++ (archive_row <$> List.filter (archivable cutoff) (claims s)))%list ∧
    (∀ v, v ∈ votes s' ↔ v ∈ votes s ∧ ∀ c, c ∈ claims s → id c = v_claim v → archivable cutoff c = false).
Proof.
  set (f := archivable cutoff). revert total s. induction fuel as [|fuel IH]; intros total s Hi Hf; [lia|].
  cbn [archive_loop]. erewrite bind_ok by apply query_healthy. fold f. set (old := List.filter f (claims s)) in *.
  assert (old = [] → ∀ c, c ∈ claims s → f c = false) as Hnone.
  { intros E c Hc. apply Bool.not_true_iff_false. intros Hfc. assert (c ∈ old) as Hin by by apply elem_of_bfilter. rewrite E in Hin. by apply elem_of_nil in Hin. }
  destruct (length (take ARCHIVE_BATCH_SIZE old) =? 0)%nat eqn:E0.
  - apply Nat.eqb_eq in E0. assert (old = []) as Ho.
    { apply length_zero_iff_nil. rewrite length_take in E0. assert (0 < ARCHIVE_BATCH_SIZE)%nat by (apply Nat.ltb_lt; by vm_compute). lia. }
    exists s. rewrite Ho. split; [by rewrite Nat.add_0_r|]. split; [|split; [by rewrite app_nil_r|]].
    + symmetry. apply bfilter_all. intros c Hc. by rewrite Hnone.
    + intros v. split; [|by intros [? _]]. intros Hv. split; [done|]. intros c Hc _. by apply Hnone.
  - erewrite bind_ok by apply update_healthy. set (s1 := archive_tx (take ARCHIVE_BATCH_SIZE old) s).
    destruct (batch_removed cutoff ARCHIVE_BATCH_SIZE s (proj1 Hi)) as [H1 H2]. fold f old s1 in H1, H2.
    destruct (archive_tx_moved cutoff ARCHIVE_BATCH_SIZE s Hi) as (Hi1 & Hm & Hsub & _). fold f old s1 in Hi1, Hm, Hsub.
    pose proof (archive_tx_rows cutoff ARCHIVE_BATCH_SIZE s Hi : archive s1 = _) as Ha1. fold f old in Ha1.
    assert (∀ v, v ∈ votes s1 ↔ v ∈ votes s ∧ ∀ c, c ∈ claims s → id c = v_claim v → c ∈ claims s1) as Hv1.
    { intros v. unfold s1 at 1, archive_tx, delete_claims. cbn [votes claims]. rewrite elem_of_bfilter. apply and_iff_compat_l.
      rewrite negb_true_iff, <- Bool.not_true_iff_false, existsb_exists. split.
      - intros Hno c Hc He. unfold s1, archive_tx, delete_claims. cbn [claims]. apply elem_of_bfilter. split; [done|].
        apply negb_true_iff, Bool.not_true_iff_false. intros Hg. apply Hno. exists c. split; [by apply list_elem_of_In|].
        rewrite Hg, andb_true_r. by apply Z.eqb_eq.
      - intros Hall (c & Hc%list_elem_of_In & [He%Z.eqb_eq Hg]%andb_prop). pose proof (Hall c Hc He) as Hin.
        unfold s1, archive_tx, delete_claims in Hin. cbn [claims] in Hin. apply elem_of_bfilter in Hin as [_ Hin]. by rewrite Hg in Hin. }
    assert (∀ v, (∀ c, c ∈ claims s → id c = v_claim v → f c = false) ↔
              (∀ c, c ∈ claims s → id c = v_claim v → c ∈ claims s1) ∧ (∀ c, c ∈ claims s1 → id c = v_claim v → f c = false)) as Hfc.
    { intros v. split.
      - intros Hall. split; [|intros c Hc; by apply Hall, Hsub]. intros c Hc He. destruct (Hm c Hc) as [|[Ha _]]; [done|].
        change (f c = true) in Ha. by rewrite (Hall c Hc He) in Ha.
      - intros [Ha Hb] c Hc He. apply Hb; [by apply Ha|done]. }
    destruct (Nat.ltb_spec (length (take ARCHIVE_BATCH_SIZE old)) ARCHIVE_BATCH_SIZE) as [Hl|Hl]; rewrite length_take in Hl.
    + exists s1. rewrite drop_ge in H1 by lia. rewrite take_ge by lia. rewrite take_ge in Ha1 by lia. split; [done|].
      assert (∀ c, c ∈ claims s1 → f c = false) as Hz.
      { intros c Hc. apply Bool.not_true_iff_false. intros Hx. assert (c ∈ List.filter f (claims s1)) as Hin by by apply elem_of_bfilter.
        rewrite H1 in Hin. by apply elem_of_nil in Hin. }
      split; [rewrite <- H2; symmetry; apply bfilter_all; intros c Hc; by rewrite Hz|]. split; [exact Ha1|].
      intros v. rewrite Hv1, Hfc. naive_solver.
    + destruct (IH (total + length (take ARCHIVE_BATCH_SIZE old))%nat s1 Hi1) as (s2 & E & Hc2 & Ha2 & Hv2).
      { rewrite H1, length_drop. assert (0 < ARCHIVE_BATCH_SIZE)%nat by (apply Nat.ltb_lt; by vm_compute). lia. }
      exists s2. split_and!.
      * rewrite E, H1, length_drop, length_take. do 2 f_equal. lia.
      * by rewrite Hc2, H2.
      * by rewrite Ha2, Ha1, H1, <-app_assoc, <-fmap_app, take_drop.
      * intros v. rewrite Hv2, Hv1, Hfc. naive_solver.
Qed.

(** C39: A run of the archive finishes its work: on a healthy database, with claims of distinct ids none of
    which is archived yet, it ends, moves every claim that qualifies, over as many batches as it takes, and
    reports their number.  The claims left are exactly the others; the archive is the old one followed by one
    row per moved claim, in order, with the claim's row as it was.  The votes of the moved claims are gone:
    deleting a claim deletes them, and an archive row holds nothing but the claim's own row. *)
Theorem archive_complete now s :
  ids_ok s →
  let old := archivable (now - CLAIM_ARCHIVE_DAYS * DAY_MS) in
  ∃ s', archiveResolvedClaims now (healthy s) = (Ok (length (List.filter old (claims s))), healthy s') ∧
    claims s' = List.filter (λ c, negb (old c)) (claims s) ∧
    archive s' = (archive s ++ (archive_row <$> List.filter old (claims s)))%list ∧
    (∀ v, v ∈ votes s' ↔ v ∈ votes s ∧ ∀ c, c ∈ claims s → id c = v_claim v → old c = false).
Proof.
  intros Hi old. apply (archive_loop_run _ _ 0 s Hi). cbn [rstate healthy]. pose proof (List.filter_length_le (archivable (now - CLAIM_ARCHIVE_DAYS * DAY_MS)) (claims s)). lia.
Qed.

(** ** The daily purge is all or nothing *)

(** One claim can stop the purge.  When a claim that stays refers to a policy that
    was deleted long enough ago, the database refuses and nothing at all is purged,
    today and on every later day on which that is still so. *)
Theorem one_claim_stops_the_purge cutoff s c p :
  c ∈ claims s → before cutoff (deletedAt c) = false → p ∈ policies s → p_id p = policyId c → before cutoff (p_deletedAt p) = true →
  purgeMaterializedRowsDeletedBefore cutoff (healthy s) = (Throw "Foreign key constraint violated", healthy s).
Proof.
  intros Hc Hk Hp He Hg. unfold purgeMaterializedRowsDeletedBefore. assert (purge_tx cutoff s = None) as Hn.
  { unfold purge_tx, delete_claims. cbn [claims policies]. replace (existsb _ _) with true; [done|]. symmetry. apply existsb_exists. exists c.
    split; [apply List.filter_In; split; [by apply list_elem_of_In|by rewrite Hk]|]. apply existsb_exists. exists p.
    split; [by apply list_elem_of_In|]. rewrite Hg, andb_true_r. by apply String.eqb_eq. }
  unfold bind, cmd, healthy. cbn [faults rstate]. by rewrite Hn.
Qed.

(** Otherwise the purge removes exactly the rows deleted at or before the cutoff, and
    with a claim all its votes, those that were never withdrawn included. *)
Theorem purge_exact cutoff s :
  NoDup (id <$> claims s) →
  (∀ c p, c ∈ claims s → before cutoff (deletedAt c) = false → p ∈ policies s → p_id p = policyId c → before cutoff (p_deletedAt p) = false) →
  ∃ n s', purgeMaterializedRowsDeletedBefore cutoff (healthy s) = (Ok n, healthy s') ∧
    policies s' = List.filter (λ p, negb (before cutoff (p_deletedAt p))) (policies s) ∧
    claims s' = List.filter (λ c, negb (before cutoff (deletedAt c))) (claims s) ∧
    (∀ v, v ∈ votes s' ↔ v ∈ votes s ∧ before cutoff (v_deletedAt v) = false ∧
                         ∀ c, c ∈ claims s → id c = v_claim v → before cutoff (deletedAt c) = false).
Proof.
  intros Hn Hfk. unfold purgeMaterializedRowsDeletedBefore, bind, cmd, healthy. cbn [faults rstate]. unfold purge_tx, delete_claims. cbn [claims policies votes].
  replace (existsb _ (List.filter _ (claims s))) with false.
  2: { symmetry. apply Bool.not_true_iff_false. intros (c & Hc & (p & Hp%list_elem_of_In & [He%String.eqb_eq Hg]%andb_prop)%existsb_exists)%existsb_exists.
       apply List.filter_In in Hc as [Hc%list_elem_of_In Hk%negb_true_iff]. by rewrite (Hfk c p Hc Hk Hp He) in Hg. }
  eexists _, _. split; [reflexivity|]. cbn [policies claims votes]. split_and!; [done|done|].
  intros v. rewrite !elem_of_bfilter, !negb_true_iff. split.
  - intros [[Hv Hd] Hno]. split_and!; [done|done|]. intros c Hc He. apply Bool.not_true_iff_false. intros Hg. apply Bool.not_true_iff_false in Hno. apply Hno, existsb_exists.
    exists c. split; [by apply list_elem_of_In|]. rewrite Hg, andb_true_r. by apply Z.eqb_eq.
  - intros (Hv & Hd & Hall). split; [done|]. apply Bool.not_true_iff_false.
    intros (c & Hc%list_elem_of_In & [He%Z.eqb_eq Hg]%andb_prop)%existsb_exists. by rewrite (Hall c Hc He) in Hg.
Qed.

(** ** At concrete inputs *)

Module RetentionWitnesses.

Definition year : Z := 365 * DAY_MS.
Definition c1 : Claim := {| id := 1; policyId := "GA:1"; status := PAID; amount := "5"; isFinalized := true; updatedAt := 0; deletedAt := None |}.
Definition c2 : Claim := {| id := 2; policyId := "GA:1"; status := PENDING; amount := "7"; isFinalized := false; updatedAt := 0; deletedAt := None |}.
Definition c3 : Claim := {| id := 3; policyId := "GB:1"; status := PENDING; amount := "7"; isFinalized := false; updatedAt := 0; deletedAt := Some 5 |}.
Definition pol (i : string) (d : option Z) : Policy := {| p_id := i; p_deletedAt := d |}.
Definition sample : store :=
  Store [pol "GA:1" None; pol "GB:1" (Some 5)] [c1; c2; c3]
    [{| v_id := 1; v_claim := 1; v_deletedAt := None |}; {| v_id := 2; v_claim := 2; v_deletedAt := None |}] [] [] [] [].

Lemma sample_ids : ids_ok sample.
Proof. split; [apply (bool_decide_unpack _); by vm_compute|]. intros c a _ Ha. by apply elem_of_nil in Ha. Qed.

(** The first batch is read, and its transaction fails. *)
Lemma archive_loses_no_claim_witness :
  let s' := rstate (world_of (archiveResolvedClaims (3 * year)) (RWorld sample [false; true])) in
  c1 ∈ claims s' ∨ (archivable (3 * year - CLAIM_ARCHIVE_DAYS * DAY_MS) c1 = true ∧ archive_row c1 ∈ archive s').
Proof.
  destruct (archive_loses_no_claim (3 * year) (RWorld sample [false; true]) sample_ids) as (_ & H & _). apply (H c1). left.
Defined.

Lemma archive_complete_witness :
  ∃ s', archiveResolvedClaims (3 * year) (healthy sample) = (Ok 1%nat, healthy s') ∧ claims s' = [c2; c3].
Proof.
  destruct (archive_complete (3 * year) sample sample_ids) as (s' & H1 & H2 & _). exists s'. split; [exact H1|exact H2].
Defined.

Lemma one_claim_stops_the_purge_witness :
  let s := Store [pol "GA:1" (Some 5)] [c2; c3] [] [] [] [] [] in
  purgeMaterializedRowsDeletedBefore 10 (healthy s) = (Throw "Foreign key constraint violated", healthy s).
Proof.
  apply (one_claim_stops_the_purge 10 (Store [pol "GA:1" (Some 5)] [c2; c3] [] [] [] [] []) c2 (pol "GA:1" (Some 5))); try reflexivity; left.
Defined.

Lemma purge_exact_witness : ∃ n s', purgeMaterializedRowsDeletedBefore 10 (healthy sample) = (Ok n, healthy s') ∧ claims s' = [c1; c2].
Proof.
  destruct (purge_exact 10 sample (proj1 sample_ids)) as (n & s' & H1 & _ & H2 & _).
  - intros c p Hc Hk Hp. cbn in Hc, Hp. repeat (apply elem_of_cons in Hc as [->|Hc]; [|]); try by apply elem_of_nil in Hc.
    all: try done. all: repeat (apply elem_of_cons in Hp as [->|Hp]; [try done|]); by apply elem_of_nil in Hp.
  - exists n, s'. split; [exact H1|exact H2].
Defined.
End RetentionWitnesses.
