(* ===== verification/Privacy.v ===== *)
(** * Privacy requests

    backend/src/maintenance/privacy.service.ts: anonymizing and deleting what the
    database holds on a wallet, the record of each request and its repetition.
    Deleting a claim deletes its votes (backend/prisma/schema.prisma). *)

From stdpp Require Import base list strings.
From Stdlib Require Import ZArith Lia Ascii.
From S2P Require Import Prelude Keyset JsText Redis.

Open Scope string_scope.
Open Scope Z_scope.

Inductive PrivacyRequestType := ANONYMIZE | DELETE.
Inductive PrivacyStatus := IN_PROGRESS | COMPLETED | FAILED.
#[export] Instance privacy_status_eq_dec : EqDecision PrivacyStatus.
Proof. solve_decision. Defined.

Record PrivacyRequest := {
  id : string; subjectWalletAddress : string; requestType : PrivacyRequestType; requestedBy : string; notes : option string;
  status : PrivacyStatus; rowsAffected : nat; errorMessage : option string; completedAt : option Z }.

Record Ticket := { t_id : string; t_email : string; t_wallet : option string }.
Record Claim := { c_id : Z; creatorAddress : string; description : option string; imageUrls : list string; isFinalized : bool; c_deleted : bool }.
Record Vote := { v_id : Z; v_claim : Z }.
Record AuditRow := { a_actor : string; a_type : PrivacyRequestType; a_request : string; a_rows : nat; a_status : PrivacyStatus; a_error : option string; a_ip : option string }.

Record store := Store {
  requests : list PrivacyRequest; tickets : list Ticket; claims : list Claim; votes : list Vote; audits : list AuditRow;
  staff_mails : list (string * string * nat) }.
Abbreviation MP A := (M (rworld store) string A).

Definition set_requests (f : list PrivacyRequest → list PrivacyRequest) (s : store) : store :=
  Store (f (requests s)) (tickets s) (claims s) (votes s) (audits s) (staff_mails s).

Section privacy.
Variable sha256 : string → string.

(** A ticket the procedure takes for the subject's. *)
Definition names_wallet (wallet : string) (t : Ticket) : bool := String.eqb (t_email t) wallet || includes (t_email t) wallet.

Definition redact (wallet : string) (c : Claim) : bool :=
  String.eqb (creatorAddress c) wallet && negb (c_deleted c) && bool_decide (is_Some (description c)).
Definition redacted (c : Claim) : Claim :=
  {| c_id := c_id c; creatorAddress := creatorAddress c; description := Some "[redacted]"; imageUrls := []; isFinalized := isFinalized c; c_deleted := c_deleted c |}.

(** The tickets are read first; then one transaction, which an update of a missing
    ticket rolls back.
    Models [anonymize] (backend/src/maintenance/privacy.service.ts:129-156). *)
Definition anonymize (wallet : string) : MP nat :=
  let* found := query (λ s, List.filter (λ t, negb (startsWith (t_email t) "[redacted]")) (tickets s)) in
  let mine := List.filter (names_wallet wallet) found in
  let* r := cmd (λ s,
    if forallb (λ t, existsb (λ x, String.eqb (t_id x) (t_id t)) (tickets s)) mine then
      (Some (length (List.filter (redact wallet) (claims s)) + length mine)%nat,
       Store (requests s)
         ((λ x, match List.find (λ t, String.eqb (t_id t) (t_id x)) mine with
                | Some t => {| t_id := t_id x; t_email := sha256 (t_email t); t_wallet := t_wallet x |}
                | None => x
                end) <$> tickets s)
         ((λ c, if redact wallet c then redacted c else c) <$> claims s) (votes s) (audits s) (staff_mails s))
    else (None, s)) in
  match r with Some n => ret n | None => throw "Record to update not found" end.

Definition deletable (wallet : string) (c : Claim) : bool :=
  String.eqb (creatorAddress c) wallet && negb (isFinalized c) && negb (c_deleted c).

(** Models [delete] (backend/src/maintenance/privacy.service.ts:162-169). *)
Definition delete (wallet : string) : MP nat :=
  cmd (λ s, (length (List.filter (deletable wallet) (claims s)),
             Store (requests s) (tickets s) (List.filter (λ c, negb (deletable wallet c)) (claims s))
               (List.filter (λ v, negb (existsb (λ c, (c_id c =? v_claim v) && deletable wallet c) (claims s))) (votes s)) (audits s) (staff_mails s))).

Definition execute (ty : PrivacyRequestType) (wallet : string) : MP nat :=
  match ty with ANONYMIZE => anonymize wallet | DELETE => delete wallet end.

Definition settle (st : PrivacyStatus) (n : nat) (e : option string) (now : Z) (r : PrivacyRequest) : PrivacyRequest :=
  {| id := id r; subjectWalletAddress := subjectWalletAddress r; requestType := requestType r; requestedBy := requestedBy r; notes := notes r;
     status := st; rowsAffected := n; errorMessage := e; completedAt := Some now |}.

(** [update]: no row with the id is an error. *)
Definition update_request (i : string) (f : PrivacyRequest → PrivacyRequest) : MP () :=
  let* known := cmd (λ s, (existsb (λ r, String.eqb (id r) i) (requests s),
                           set_requests (fmap (λ r, if String.eqb (id r) i then f r else r)) s)) in
  if (known : bool) then ret tt else throw "Record to update not found".

(** [smtp]: a mail server is configured; a failed mail is logged.
    Models [notifyStaff] (backend/src/maintenance/privacy.service.ts:171-195). *)
Definition notifyStaff (smtp : bool) (staff i : string) (n : nat) : MP () :=
  if smtp then
    try_catch (update (λ s, Store (requests s) (tickets s) (claims s) (votes s) (audits s) (staff_mails s ++ [(staff, i, n)])%list)) (λ _, ret tt)
  else ret tt.

(** The procedure, with its failure as a value. *)
Definition attempt (ty : PrivacyRequestType) (wallet : string) : MP (PrivacyStatus * nat * option string) :=
  try_catch (let* n := execute ty wallet in ret (COMPLETED, n, None)) (λ e, ret (FAILED, 0%nat, Some e)).

Definition conclude (smtp : bool) (staff i : string) (o : PrivacyStatus * nat * option string) : MP (string * nat) :=
  match o with
  | (FAILED, _, e) => throw ("Privacy request failed: " +:+ default "undefined" e)
  | (_, n, _) => do* notifyStaff smtp staff i n in ret (i, n)
  end.

(** [fresh]: the id the database generates.
    Models [handleRequest] (backend/src/maintenance/privacy.service.ts:27-82). *)
Definition handleRequest (smtp : bool) (now : Z) (fresh wallet : string) (ty : PrivacyRequestType) (by_ : string) (ip note : option string) : MP (string * nat) :=
  do* update (set_requests (λ l, l ++ [{| id := fresh; subjectWalletAddress := wallet; requestType := ty; requestedBy := by_; notes := note;
                                          status := IN_PROGRESS; rowsAffected := 0; errorMessage := None; completedAt := None |}])%list) in
  let* o := attempt ty wallet in
  let '(st, n, e) := o in
  do* update_request fresh (settle st n e now) in
  do* update (λ s, Store (requests s) (tickets s) (claims s) (votes s) (audits s ++
        [{| a_actor := by_; a_type := ty; a_request := fresh; a_rows := n; a_status := st; a_error := e; a_ip := ip |}])%list (staff_mails s)) in
  conclude smtp by_ fresh o.

(** Models [processRequest] (backend/src/maintenance/privacy.service.ts:88-122). *)
Definition processRequest (smtp : bool) (now : Z) (i : string) : MP (string * nat) :=
  let* req := query (λ s, List.find (λ r, String.eqb (id r) i) (requests s)) in
  match req with
  | None => throw ("Privacy request " +:+ i +:+ " not found")
  | Some r =>
      if bool_decide (status r = COMPLETED) then ret (id r, rowsAffected r)
      else
        let* o := attempt (requestType r) (subjectWalletAddress r) in
        let '(st, n, e) := o in
        do* update_request i (settle st n e now) in
        conclude smtp (requestedBy r) i o
  end.

(** Models [getRequest] (backend/src/maintenance/privacy.service.ts:197-201). *)
Definition getRequest (i : string) : MP PrivacyRequest :=
  let* req := query (λ s, List.find (λ r, String.eqb (id r) i) (requests s)) in
  match req with Some r => ret r | None => throw ("Privacy request " +:+ i +:+ " not found") end.

(** ** A success is on record *)

(** What the later commands of a request leave alone. *)
Lemma notify_frame smtp staff i n w a w' : notifyStaff smtp staff i n w = (a, w') → requests (rstate w') = requests (rstate w) ∧ audits (rstate w') = audits (rstate w).
Proof.
  unfold notifyStaff. destruct smtp; [|by intros [= _ <-]]. unfold try_catch, update, cmd. destruct (faults w) as [|[] fs]; by intros [= _ <-].
Qed.

Lemma conclude_ok smtp staff i st n e w p w' :
  conclude smtp staff i (st, n, e) w = (Ok p, w') → st ≠ FAILED ∧ p = (i, n) ∧
  requests (rstate w') = requests (rstate w) ∧ audits (rstate w') = audits (rstate w).
Proof.
  unfold conclude, ret. destruct st; [| |done]; intros (u & w1 & Hn & [= <- <-])%bind_ok_inv; apply notify_frame in Hn as []; by split_and!.
Qed.

Lemma attempt_status ty wallet w o w' : attempt ty wallet w = (Ok o, w') → (∃ n, o = (COMPLETED, n, None)) ∨ ∃ e, o = (FAILED, 0%nat, Some e).
Proof.
  unfold attempt, try_catch, ret. destruct (bind (execute ty wallet) _ w) as [[a|e] w1] eqn:E; intros [= <- <-]; [|right; eauto].
  apply bind_ok_inv in E as (n & w2 & _ & [= <- <-]). left. eauto.
Qed.

Lemma update_request_ok i f w w' :
  update_request i f w = (Ok tt, w') → (∃ r, r ∈ requests (rstate w') ∧ ∃ r0, r = f r0 ∧ id r0 = i ∧ r0 ∈ requests (rstate w)) ∧ audits (rstate w') = audits (rstate w).
Proof.
  unfold update_request. intros (b & w1 & Hc & H)%bind_ok_inv. destruct b; [|done]. injection H as <-.
  unfold cmd in Hc. destruct (faults w) as [|[] fs]; [|done|].
  all: injection Hc as Hk <-; cbn [rstate requests set_requests audits]; split; [|done].
  all: apply existsb_exists in Hk as (r & Hr%list_elem_of_In & He); exists (f r); split.
  1,3: apply list_elem_of_fmap; exists r; by rewrite He.
  all: exists r; apply String.eqb_eq in He; by split_and!.
Qed.

Lemma update_ok {R} (f : R → R) (w w' : rworld R) : update f w = (Ok tt, w') → rstate w' = f (rstate w).
Proof. unfold update, cmd. destruct (faults w) as [|[] fs]; by intros [= <-]. Qed.

(** A success is on record.  Whatever fails on the way: if a request is answered with
    success, its row says COMPLETED with the number of rows that was returned, and
    the audit log has an entry saying so. *)
Theorem success_on_record smtp now fresh wallet ty by_ ip note w i n w' :
  handleRequest smtp now fresh wallet ty by_ ip note w = (Ok (i, n), w') →
  i = fresh ∧
  (∃ r, r ∈ requests (rstate w') ∧ id r = fresh ∧ status r = COMPLETED ∧ rowsAffected r = n ∧ completedAt r = Some now) ∧
  {| a_actor := by_; a_type := ty; a_request := fresh; a_rows := n; a_status := COMPLETED; a_error := None; a_ip := ip |} ∈ audits (rstate w').
Proof.
  unfold handleRequest. intros ([] & w1 & Hcr & H)%bind_ok_inv. apply bind_ok_inv in H as ([[st m] e] & w2 & Hat & H).
  apply bind_ok_inv in H as ([] & w3 & Hup & H). apply bind_ok_inv in H as ([] & w4 & Hau & H).
  apply conclude_ok in H as (Hst & [= -> ->] & Hr & Ha). apply update_ok in Hau.
  destruct (attempt_status _ _ _ _ _ Hat) as [(k & [= -> -> ->])|(x & [= -> _ _])]; [|done].
  apply update_request_ok in Hup as [(r & Hin & r0 & -> & Hid & _) _]. split_and!; [done| |].
  - exists (settle COMPLETED k None now r0). split_and!; [|exact Hid|done|done|done]. rewrite Hr, Hau. exact Hin.
  - rewrite Ha, Hau. cbn [audits]. apply elem_of_app. right. by apply list_elem_of_singleton.
Qed.

(** A completed request is not run again: the answer is the recorded one and nothing
    changes. *)
Theorem completed_not_repeated smtp now i r s :
  List.find (λ r, String.eqb (id r) i) (requests s) = Some r → status r = COMPLETED →
  processRequest smtp now i (healthy s) = (Ok (i, rowsAffected r), healthy s).
Proof.
  intros Hf Hs. unfold processRequest. erewrite bind_ok by apply query_healthy. cbn beta. rewrite Hf, bool_decide_true by done.
  apply List.find_some in Hf as [_ Hi%String.eqb_eq]. by rewrite Hi.
Qed.

(** ** What anonymizing reaches *)

(** A test that every character of a text passes is passed by its parts. *)
Lemma prefix_forall q p s : String.prefix p s = true → str_forall q s = true → str_forall q p = true.
Proof.
  revert s. induction p as [|c p IH]; intros [|d s]; [done|done|done|]. cbn [String.prefix]. destruct (ascii_dec c d) as [->|]; [|done].
  intros Hp [Hd Hs]%andb_prop. cbn [str_forall]. by rewrite Hd, (IH s).
Qed.

Lemma includes_forall q s p : includes s p = true → str_forall q s = true → str_forall q p = true.
Proof.
  induction s as [|c s IH]; cbn [includes]; intros [H|H]%orb_prop Hs; [by eapply prefix_forall|done|by eapply prefix_forall|].
  cbn [str_forall] in Hs. apply andb_prop in Hs as [_ Hs]. auto.
Qed.

Definition no_capitals (s : string) : bool := str_forall (λ c, negb (is_upper c)) s.

(** Anonymizing reaches claims but not tickets.  Addresses of mail are stored in
    lower case and a wallet's address has capitals, so no ticket is recognized as
    the subject's, not even one filed under the wallet: every ticket keeps its
    address.  Claims lose their description and pictures if they have a
    description; one without a description keeps its pictures. *)
Theorem anonymize_exact wallet s :
  no_capitals wallet = false → Forall (λ t, no_capitals (t_email t) = true) (tickets s) →
  anonymize wallet (healthy s) =
    (Ok (length (List.filter (redact wallet) (claims s))),
     healthy (Store (requests s) (tickets s) ((λ c, if redact wallet c then redacted c else c) <$> claims s) (votes s) (audits s) (staff_mails s))).
Proof.
  intros Hw Ht. unfold anonymize. erewrite bind_ok by apply query_healthy.
  rewrite (bfilter_none (names_wallet wallet)).
  - cbn beta. unfold bind, cmd, healthy. cbn [faults rstate forallb]. rewrite Nat.add_0_r. unfold ret. cbn [List.find length tail]. do 3 f_equal. exact (list_fmap_id (tickets s)).
  - intros t [Hin _]%elem_of_bfilter. rewrite Forall_forall in Ht. specialize (Ht t Hin). unfold names_wallet. apply orb_false_iff. split.
    + apply String.eqb_neq. intros E. rewrite E in Ht. congruence.
    + apply Bool.not_true_iff_false. intros Hi. unfold no_capitals in *. rewrite (includes_forall _ _ _ Hi Ht) in Hw. done.
Qed.

(** Deleting takes the subject's open claims and, with them, the votes cast on them. *)
Theorem delete_exact wallet s :
  ∃ s', delete wallet (healthy s) = (Ok (length (List.filter (deletable wallet) (claims s))), healthy s') ∧
    claims s' = List.filter (λ c, negb (deletable wallet c)) (claims s) ∧ tickets s' = tickets s ∧
    ∀ v, v ∈ votes s' ↔ v ∈ votes s ∧ ∀ c, c ∈ claims s → c_id c = v_claim v → deletable wallet c = false.
Proof.
  eexists. split; [reflexivity|]. cbn [claims tickets votes]. split_and!; [done|done|]. intros v.
  rewrite elem_of_bfilter. apply and_iff_compat_l. rewrite negb_true_iff. split.
  - intros Hno c Hc He. apply Bool.not_true_iff_false. intros Hg. apply Bool.not_true_iff_false in Hno. apply Hno, existsb_exists.
    exists c. split; [by apply list_elem_of_In|]. rewrite Hg, andb_true_r. by apply Z.eqb_eq.
  - intros Hall. apply Bool.not_true_iff_false. intros (c & Hc%list_elem_of_In & [He%Z.eqb_eq Hg]%andb_prop)%existsb_exists.
    by rewrite (Hall c Hc He) in Hg.
Qed.
End privacy.

(** ** At concrete inputs *)

Module PrivacyWitnesses.

Definition ticket : Ticket := {| t_id := "t1"; t_email := "ann@example.com"; t_wallet := Some "GANN" |}.
Definition claim : Claim := {| c_id := 1; creatorAddress := "GANN"; description := Some "My car"; imageUrls := ["ipfs://Qm1"]; isFinalized := false; c_deleted := false |}.
Definition bare : Claim := {| c_id := 2; creatorAddress := "GANN"; description := None; imageUrls := ["ipfs://Qm2"]; isFinalized := true; c_deleted := false |}.
Definition sample : store := Store [] [ticket] [claim; bare] [{| v_id := 1; v_claim := 1 |}] [] [].

(** The procedure succeeds, only the mail to the staff is lost. *)
Definition run1 := handleRequest (λ s, s) true 9 "r1" "GANN" ANONYMIZE "staff" None None (RWorld sample [false; false; false; false; false; true]).

Lemma success_on_record_witness :
  ∃ r, r ∈ requests (rstate run1.2) ∧ id r = "r1" ∧ status r = COMPLETED ∧ rowsAffected r = 1%nat ∧ completedAt r = Some 9.
Proof.
  apply (success_on_record (λ s, s) true 9 "r1" "GANN" ANONYMIZE "staff" None None (RWorld sample [false; false; false; false; false; true]) "r1" 1 run1.2).
  vm_compute. reflexivity.
Defined.

Lemma completed_not_repeated_witness :
  processRequest (λ s, s) true 10 "r1" (healthy (rstate run1.2)) = (Ok ("r1", 1%nat), healthy (rstate run1.2)).
Proof.
  apply (completed_not_repeated (λ s, s) true 10 "r1"
    {| id := "r1"; subjectWalletAddress := "GANN"; requestType := ANONYMIZE; requestedBy := "staff"; notes := None;
       status := COMPLETED; rowsAffected := 1; errorMessage := None; completedAt := Some 9 |} (rstate run1.2)); vm_compute; reflexivity.
Defined.

Lemma anonymize_exact_witness :
  anonymize (λ s, s) "GANN" (healthy sample) =
    (Ok 1%nat, healthy (Store [] [ticket] [redacted claim; bare] [{| v_id := 1; v_claim := 1 |}] [] [])).
Proof. apply (anonymize_exact (λ s, s) "GANN" sample); [reflexivity|]. repeat constructor. Defined.

End PrivacyWitnesses.
