(* ===== verification/Monitors.v ===== *)
(** * Monitors of the treasury, of stuck appeals and of certificates

    backend/src/maintenance/solvency-monitoring.service.ts: the comparison of the
    treasury's balance with the approved claims, the snapshot for the dashboard and
    the alerts; backend/src/maintenance/appeal-sla-monitor.service.ts: the search
    for appeals past their deadline, through the batch read of
    backend/src/rpc/soroban.service.ts.  The contract's answers are parameters;
    amounts are whole stroops; the database, Redis, the queue and the webhook answer
    a command or reject it. *)

From stdpp Require Import base list strings.
From Stdlib Require Import ZArith Lia.
From S2P Require Import Prelude Keyset JsText Native Redis ClaimJobs.

Open Scope string_scope.
Open Scope Z_scope.

(** ** The treasury *)

Module Solvency.

Inductive SnapshotStatus := ok | degraded | unknown.
#[export] Instance snapshot_status_eq_dec : EqDecision SnapshotStatus.
Proof. solve_decision. Defined.

Record SolvencySnapshot := {
  status : SnapshotStatus; checkedAt : Z; threshold : Z; contractBalance : option Z; outstandingApproved : option Z; buffer : option Z;
  alertEmitted : bool; rpcError : option string; skipReason : option string }.

(** The columns of a claim the sum reads. *)
Record Row := { amount : Z; r_status : string; r_tenant : option string; r_deleted : bool }.

(** The claims; the stored snapshot; the alerts that were queued and posted. *)
Record store := Store { claims : list Row; snapshot : option SolvencySnapshot; queued : list SolvencySnapshot; posted : list SolvencySnapshot }.
Abbreviation MM A := (M (rworld store) string A).

Record Settings := {
  enabled : string; threshold_setting : string; contract_id : string; source_account : string; tenant_id : string;
  outbound : bool; alert_url : string }.

Section solvency.
Variable cfg : Settings.
(** What the simulation of [get_treasury_balance] answers. *)
Variable treasury : result string Z.

(** A claim the sum counts: approved, and of the configured tenant if there is one.
    Claims that were removed are not excluded. *)
Definition counted (r : Row) : bool :=
  bool_decide (r_status r = "APPROVED") &&
  match trim (tenant_id cfg) with "" => true | t => bool_decide (r_tenant r = Some t) end.

(** Models [sumApprovedUnpaidClaims] (backend/src/maintenance/solvency-monitoring.service.ts:214-233). *)
Definition sumApprovedUnpaidClaims : MM Z := query (λ s, foldr (λ r n, amount r + n) 0 (List.filter counted (claims s))).

(** The Redis service swallows its errors.
    Models [persistSnapshot] (backend/src/maintenance/solvency-monitoring.service.ts:210-212). *)
Definition persistSnapshot (x : SolvencySnapshot) : MM () :=
  try_catch (update (λ s, Store (claims s) (Some x) (queued s) (posted s))) (λ _, ret tt).

(** Models [sendWebhookAlert] (backend/src/maintenance/solvency-monitoring.service.ts:235-271). *)
Definition sendWebhookAlert (x : SolvencySnapshot) : MM () :=
  do* (if outbound cfg then update (λ s, Store (claims s) (snapshot s) (queued s ++ [x])%list (posted s)) else ret tt) in
  match trim (alert_url cfg) with
  | "" => ret tt
  | _ => try_catch (update (λ s, Store (claims s) (snapshot s) (queued s) (posted s ++ [x])%list)) (λ _, ret tt)
  end.

Definition snap (st : SnapshotStatus) (now th : Z) (b o f : option Z) (alert : bool) (rpc skip : option string) : SolvencySnapshot :=
  {| status := st; checkedAt := now; threshold := th; contractBalance := b; outstandingApproved := o; buffer := f; alertEmitted := alert;
     rpcError := rpc; skipReason := skip |}.

Definition persist_and_return (x : SolvencySnapshot) : MM SolvencySnapshot := do* persistSnapshot x in ret x.

(** A step that fails as a value. *)
Definition attempt {A} (m : MM A) : MM (result string A) := try_catch (let* a := m in ret (Ok a)) (λ e, ret (Throw e)).

(** Models [runSolvencyCheck] (backend/src/maintenance/solvency-monitoring.service.ts:54-208). *)
Definition runSolvencyCheck (now : Z) : MM SolvencySnapshot :=
  match Number_str (threshold_setting cfg) with
  | None => throw "SyntaxError"
  | Some th =>
      if negb (bool_decide (enabled cfg = "true") || bool_decide (enabled cfg = "1")) then
        persist_and_return (snap unknown now th None None None false None (Some "SOLVENCY_MONITORING_ENABLED=false"))
      else if bool_decide (contract_id cfg = "") then
        persist_and_return (snap unknown now th None None None false None (Some "CONTRACT_ID not configured"))
      else if bool_decide (trim (source_account cfg) = "") then
        persist_and_return (snap unknown now th None None None false None (Some "SOLVENCY_SIMULATION_SOURCE_ACCOUNT not set"))
      else
        let* o := attempt sumApprovedUnpaidClaims in
        match o with
        | Throw e => persist_and_return (snap unknown now th None None None false (Some ("db_aggregate_failed: " +:+ e)) None)
        | Ok outstanding =>
            match treasury with
            | Throw e => persist_and_return (snap unknown now th None (Some outstanding) None false (Some e) None)
            | Ok balance =>
                let buffer := balance - outstanding in
                let below := buffer <? th in
                let x := snap (if below then degraded else ok) now th (Some balance) (Some outstanding) (Some buffer) below None None in
                do* persistSnapshot x in
                do* (if below then sendWebhookAlert x else ret tt) in
                ret x
            end
        end
  end.

(** *** A verdict is never guessed *)

Definition outstanding_of (s : store) : Z := foldr (λ r n, amount r + n) 0 (List.filter counted (claims s)).

Lemma attempt_sum w :
  (∃ w1, attempt sumApprovedUnpaidClaims w = (Ok (Ok (outstanding_of (rstate w))), w1)) ∨
  ∃ e w1, attempt sumApprovedUnpaidClaims w = (Ok (Throw e), w1).
Proof.
  unfold attempt, try_catch, bind, sumApprovedUnpaidClaims, query, cmd. destruct (faults w) as [|[] fs]; [left|right|left]; eauto.
Qed.

Lemma persist_returns (x y : SolvencySnapshot) w w' : persist_and_return x w = (Ok y, w') → y = x.
Proof. unfold persist_and_return. by intros (u & w1 & _ & [= <- _])%bind_ok_inv. Qed.

(** A verdict is never guessed.  Whichever commands fail: a check that says ok or
    degraded has read the treasury and the claims, the buffer it reports is the
    balance less the approved claims, and it says degraded, with an alert, exactly
    if the buffer is below the threshold; in every other case it says unknown. *)
Theorem verdict_sound now w x w' :
  runSolvencyCheck now w = (Ok x, w') → status x ≠ unknown →
  ∃ balance th, treasury = Ok balance ∧ Number_str (threshold_setting cfg) = Some th ∧ threshold x = th ∧
    contractBalance x = Some balance ∧ outstandingApproved x = Some (outstanding_of (rstate w)) ∧
    buffer x = Some (balance - outstanding_of (rstate w)) ∧
    (status x = degraded ↔ balance - outstanding_of (rstate w) < th) ∧ alertEmitted x = bool_decide (status x = degraded).
Proof.
  unfold runSolvencyCheck. intros H Hs. destruct (Number_str (threshold_setting cfg)) as [th|] eqn:Hth; [|done].
  repeat (case_match; [apply persist_returns in H as ->; done|]). apply bind_ok_inv in H as (o & w1 & Ho & H).
  destruct (attempt_sum w) as [[w2 E]|(e & w2 & E)]; rewrite E in Ho; injection Ho as <- <-; [|apply persist_returns in H as ->; done].
  destruct treasury as [balance|e] eqn:Htr; [|apply persist_returns in H as ->; done].
  apply bind_ok_inv in H as (u & w3 & _ & H). apply bind_ok_inv in H as (u2 & w4 & _ & H). injection H as <- _.
  exists balance, th. cbn. destruct (Z.ltb_spec (balance - outstanding_of (rstate w)) th); split_and!; try done; split; intros; try done; lia.
Qed.

(** What a check does when everything answers: the snapshot is stored for the
    dashboard, and a low buffer is queued for the subscribers and posted to the
    configured address. *)
Theorem check_recorded now s th balance :
  Number_str (threshold_setting cfg) = Some th → enabled cfg = "true" → contract_id cfg ≠ "" → trim (source_account cfg) ≠ "" →
  treasury = Ok balance →
  let below := balance - outstanding_of s <? th in
  let x := snap (if below then degraded else ok) now th (Some balance) (Some (outstanding_of s)) (Some (balance - outstanding_of s)) below None None in
  runSolvencyCheck now (healthy s) =
    (Ok x, healthy (Store (claims s) (Some x) (if below && outbound cfg then queued s ++ [x] else queued s)%list
                      (if below && negb (bool_decide (trim (alert_url cfg) = "")) then posted s ++ [x] else posted s)%list)).
Proof.
  intros Hth He Hc Hsrc Ht. cbv zeta. unfold runSolvencyCheck. rewrite Hth, He, (bool_decide_false (contract_id cfg = "")), (bool_decide_false (trim _ = "")) by done.
  rewrite (bool_decide_true ("true" = "true")) by done. cbn [negb orb]. assert (attempt sumApprovedUnpaidClaims (healthy s) = (Ok (Ok (outstanding_of s)), healthy s)) as Ha by done.
  erewrite bind_ok by exact Ha. rewrite Ht. destruct (balance - outstanding_of s <? th) eqn:Hb; cbn [andb].
  - erewrite bind_ok by reflexivity. unfold sendWebhookAlert. cbn [claims snapshot queued posted].
    destruct (outbound cfg), (trim (alert_url cfg)); reflexivity.
  - by erewrite bind_ok by reflexivity.
Qed.
End solvency.
End Solvency.

(** ** Stuck appeals *)

Module AppealSla.
Import ClaimJobs.OnChain(CLAIM_BATCH_GET_MAX, simulateGetClaimsBatch).

(** Models [CLAIM_BATCH_SIZE] (backend/src/maintenance/appeal-sla-monitor.service.ts:19-19). *)
Definition SLA_BATCH_SIZE : nat := 50.

(** A field of a decoded claim; [Nested] is an object with the key "_". *)
Inductive ledger_value := Num (n : Z) | Text (s : string) | Nested (v : ledger_value) | Other.
Definition chain_claim := list (string * ledger_value).

(** Models [extractLedger] (backend/src/maintenance/appeal-sla-monitor.service.ts:176-196). *)
Definition extractLedger (claimData : chain_claim) (fieldName : string) : option Z :=
  match alist_get fieldName claimData with
  | Some (Num n) => Some n
  | Some (Text s) => parseInt10 s
  | Some (Nested (Num n)) => Some n
  | Some (Nested (Text s)) => parseInt10 s
  | _ => None
  end.

Record StuckAppeal := { claimId : Z; appealDeadlineLedger : Z; s_currentLedger : Z; overdueByLedgers : Z }.
Record CheckResult := { checkedAt : Z; currentLedger : Z; graceLedgers : Z; underAppealChecked : nat; stuck : list StuckAppeal; alertEmitted : bool }.

Section sla.
Variable get_claims_batch : list Z → result string (list (option chain_claim)).
Variable contract_configured : bool.
Variables current grace : Z.

(** One claim: whether it was checked, and the entry if it is stuck. *)
Definition examine (i : Z) (on_chain : option (option chain_claim)) : nat * list StuckAppeal :=
  match on_chain with
  | Some (Some data) =>
      match extractLedger data "appeal_deadline_ledger" with
      | Some deadline =>
          (1%nat, if deadline + grace <? current
                  then [{| claimId := i; appealDeadlineLedger := deadline; s_currentLedger := current; overdueByLedgers := current - deadline |}]
                  else [])
      | None => (0%nat, [])
      end
  | _ => (0%nat, [])
  end.

Definition add2 (x y : nat * list StuckAppeal) : nat * list StuckAppeal := ((x.1 + y.1)%nat, (x.2 ++ y.2)%list).

Fixpoint examine_batch (ids : list Z) (answers : list (option chain_claim)) : nat * list StuckAppeal :=
  match ids with
  | [] => (0%nat, [])
  | i :: rest => add2 (examine i (head answers)) (examine_batch rest (tail answers))
  end.

(** A batch that cannot be fetched is logged and skipped.  One unit of fuel per
    batch. *)
Fixpoint examine_all (fuel : nat) (ids : list Z) : nat * list StuckAppeal :=
  match fuel, ids with
  | S fuel', _ :: _ =>
      let batch := take SLA_BATCH_SIZE ids in
      add2 (match simulateGetClaimsBatch get_claims_batch contract_configured batch with
            | Ok answers => examine_batch batch answers
            | Throw _ => (0%nat, [])
            end)
           (examine_all fuel' (drop SLA_BATCH_SIZE ids))
  | _, _ => (0%nat, [])
  end.

(** [ids]: the claims under appeal, in ascending order.  As many batches as claims
    are enough.
    Models [checkStuckAppeals] (backend/src/maintenance/appeal-sla-monitor.service.ts:71-174). *)
Definition checkStuckAppeals (now : Z) (ids : list Z) : CheckResult :=
  let x := examine_all (length ids) ids in
  {| checkedAt := now; currentLedger := current; graceLedgers := grace; underAppealChecked := x.1; stuck := x.2;
     alertEmitted := negb (bool_decide (length x.2 = 0%nat)) |}.

(** *** What is noticed *)

(** The contract knows every claim and answers in order. *)
Variable deadlines : Z → Z.
Hypothesis answers_in_order :
  ∀ ids, get_claims_batch ids = Ok ((λ i, Some [("appeal_deadline_ledger", Num (deadlines i))]) <$> ids).
Hypothesis configured : contract_configured = true.

Definition overdue (i : Z) : bool := deadlines i + grace <? current.
Definition entry (i : Z) : StuckAppeal :=
  {| claimId := i; appealDeadlineLedger := deadlines i; s_currentLedger := current; overdueByLedgers := current - deadlines i |}.

Lemma examine_batch_spec ids :
  examine_batch ids ((λ i, Some [("appeal_deadline_ledger", Num (deadlines i))]) <$> ids) = (length ids, entry <$> List.filter overdue ids).
Proof.
  induction ids as [|i ids IH]; [done|]. cbn [examine_batch fmap list_fmap head tail]. rewrite IH. unfold examine, add2. cbn [extractLedger].
  assert (extractLedger [("appeal_deadline_ledger", Num (deadlines i))] "appeal_deadline_ledger" = Some (deadlines i)) as -> by done.
  cbn [fst snd List.filter length]. fold (overdue i). by destruct (overdue i).
Qed.

Lemma batch_result ids :
  match simulateGetClaimsBatch get_claims_batch contract_configured ids with
  | Ok answers => examine_batch ids answers
  | Throw _ => (0%nat, [])
  end = if (CLAIM_BATCH_GET_MAX <? length ids)%nat then (0%nat, []) else (length ids, entry <$> List.filter overdue ids).
Proof.
  unfold simulateGetClaimsBatch. rewrite configured. cbn [negb]. destruct (_ <? _)%nat; [done|].
  destruct ids as [|i ids]; [done|]. rewrite answers_in_order. apply examine_batch_spec.
Qed.

Lemma examine_none n : examine_all n [] = (0%nat, []).
Proof. by destruct n. Qed.

(** Few appeals: with at most twenty claims under appeal, the monitor reports exactly
    those past their deadline and the grace, and alerts if there is one. *)
Theorem few_appeals_checked now ids :
  (length ids ≤ CLAIM_BATCH_GET_MAX)%nat →
  let r := checkStuckAppeals now ids in
  underAppealChecked r = length ids ∧ stuck r = entry <$> List.filter overdue ids ∧
  alertEmitted r = negb (bool_decide (List.filter overdue ids = [])).
Proof.
  intros Hl. assert (examine_all (length ids) ids = (length ids, entry <$> List.filter overdue ids)) as E.
  { destruct ids as [|i ids]; [done|]. cbn [length examine_all]. unfold CLAIM_BATCH_GET_MAX in Hl. cbn [length] in Hl.
    rewrite (take_ge (i :: ids)) by (unfold SLA_BATCH_SIZE; cbn [length]; lia). rewrite batch_result.
    rewrite (proj2 (Nat.ltb_ge _ _)) by (unfold CLAIM_BATCH_GET_MAX; cbn [length]; lia).
    rewrite (drop_ge (i :: ids)) by (unfold SLA_BATCH_SIZE; cbn [length]; lia). rewrite examine_none. unfold add2. cbn [fst snd]. by rewrite app_nil_r, Nat.add_0_r. }
  unfold checkStuckAppeals. cbv zeta. rewrite E. cbn [fst snd underAppealChecked stuck alertEmitted]. split_and!; [done|done|].
  rewrite length_fmap. f_equal. by destruct (List.filter overdue ids).
Qed.

(** More appeals than that are not seen.  The monitor asks for fifty claims at a
    time and the batch read refuses more than twenty: with twenty-one to fifty
    claims under appeal nothing is checked and no alert goes out, however many of
    them are stuck. *)
Theorem many_appeals_unnoticed now ids :
  (CLAIM_BATCH_GET_MAX < length ids ≤ SLA_BATCH_SIZE)%nat →
  let r := checkStuckAppeals now ids in underAppealChecked r = 0%nat ∧ stuck r = [] ∧ alertEmitted r = false.
Proof.
  intros [Hl Hu]. assert (examine_all (length ids) ids = (0%nat, [])) as E.
  { destruct ids as [|i ids]; [done|]. cbn [length] in *. cbn [examine_all]. rewrite (take_ge (i :: ids)) by (cbn [length]; lia). rewrite batch_result.
    rewrite (proj2 (Nat.ltb_lt _ _)) by (cbn [length]; lia). rewrite (drop_ge (i :: ids)) by (cbn [length]; lia). by rewrite examine_none. }
  unfold checkStuckAppeals. cbv zeta. by rewrite E.
Qed.
End sla.
End AppealSla.

(** ** At concrete inputs *)

Module MonitorWitnesses.
Import Solvency AppealSla.

Definition cfg : Settings :=
  {| enabled := "true"; threshold_setting := "100"; contract_id := "C1"; source_account := "GA"; tenant_id := ""; outbound := true; alert_url := "" |}.
Definition sample : store :=
  Store [{| amount := 700; r_status := "APPROVED"; r_tenant := None; r_deleted := false |};
         {| amount := 250; r_status := "APPROVED"; r_tenant := None; r_deleted := true |}] None [] [].

Lemma verdict_sound_witness :
  let r := runSolvencyCheck cfg (Ok 1000) 5 (RWorld sample [false; true]) in
  ∃ x, r.1 = Ok x ∧ (status x = degraded ↔ 1000 - outstanding_of cfg sample < 100).
Proof.
  cbv zeta. eexists. split; [vm_compute; reflexivity|].
  match goal with |- status ?x = _ ↔ _ =>
    destruct (verdict_sound cfg (Ok 1000) 5 (RWorld sample [false; true]) x (runSolvencyCheck cfg (Ok 1000) 5 (RWorld sample [false; true])).2)
      as (b & th & Hb & Hth & _ & _ & _ & _ & H & _) end.
  - vm_compute. reflexivity.
  - discriminate.
  - injection Hb as <-. vm_compute in Hth. injection Hth as <-. exact H.
Defined.

Lemma check_recorded_witness :
  status <$> snapshot (rstate (runSolvencyCheck cfg (Ok 2000) 5 (healthy sample)).2) = Some ok.
Proof. rewrite (check_recorded cfg (Ok 2000) 5 sample 100 2000); try reflexivity; discriminate. Defined.

Definition answers (ids : list Z) : result string (list (option chain_claim)) :=
  Ok ((λ i, Some [("appeal_deadline_ledger", Num (10 * i))]) <$> ids).

Lemma few_appeals_checked_witness :
  claimId <$> stuck (checkStuckAppeals answers true 100 20 0 [3; 7; 9]) = [3; 7].
Proof.
  assert (length [3; 7; 9] ≤ ClaimJobs.OnChain.CLAIM_BATCH_GET_MAX)%nat as Hl by (unfold ClaimJobs.OnChain.CLAIM_BATCH_GET_MAX; cbn; lia).
  destruct (few_appeals_checked answers true 100 20 (λ i, 10 * i) (λ ids, eq_refl) eq_refl 0 [3; 7; 9] Hl) as (_ & -> & _). reflexivity.
Defined.

Lemma many_appeals_unnoticed_witness :
  stuck (checkStuckAppeals answers true 1000000 20 0 (Z.of_nat <$> seq 1 30)) = [].
Proof.
  assert (ClaimJobs.OnChain.CLAIM_BATCH_GET_MAX < length (Z.of_nat <$> seq 1 30) ≤ SLA_BATCH_SIZE)%nat as Hl by (unfold ClaimJobs.OnChain.CLAIM_BATCH_GET_MAX, SLA_BATCH_SIZE; cbn; lia).
  destruct (many_appeals_unnoticed answers true 1000000 20 (λ i, 10 * i) (λ ids, eq_refl) eq_refl 0 _ Hl) as (_ & H & _). exact H.
Defined.
End MonitorWitnesses.

(** ** TLS certificates

    backend/src/common/tls/certificate-checker.service.ts, a pool of workers that reads
    the certificate of each host, and
    backend/src/maintenance/tls-certificate-monitor.service.ts, the daily job that warns
    of those about to expire.  The connection is a parameter; Redis is the wrapper of
    [Redis], whose commands may fail; the clock is read once in a run. *)

Module Tls.

(** ** Reading certificates *)

(** What a connection yields: an error, a certificate without [valid_to], or the date
    [new Date(cert.valid_to)], which may be invalid. *)
Inductive peer := Failed (message : string) | NoDate | ValidTo (t : option Z).

(** Models [CertificateCheckResult.status] (backend/src/common/tls/certificate-checker.service.ts:13-14). *)
Inductive status := ok | expiring_soon | unreachable.
#[export] Instance status_eq_dec : EqDecision status.
Proof. solve_decision. Defined.

(** Models [CertificateCheckResult] (backend/src/common/tls/certificate-checker.service.ts:9-27). *)
Record CertificateCheckResult := {
  hostname : string; c_status : status; expiryDate : option Z; daysRemaining : option Z; error : option string; c_checkedAt : Z }.

Definition DAY_MS : Z := 1000 * 60 * 60 * 24.

Definition unreached (now : Z) (host message : string) : CertificateCheckResult :=
  {| hostname := host; c_status := unreachable; expiryDate := None; daysRemaining := None; error := Some message; c_checkedAt := now |}.

(** Models [checkCertificateExpiry] (backend/src/common/tls/certificate-checker.service.ts:45-128). *)
Definition checkCertificateExpiry (connect : string → peer) (now : Z) (host : string) : CertificateCheckResult :=
  match connect host with
  | Failed message => unreached now host message
  | NoDate => unreached now host "Certificate missing valid_to field"
  | ValidTo None => unreached now host "Invalid time value"
  | ValidTo (Some t) =>
      let days := ceil_div (t - now) DAY_MS in
      {| hostname := host; c_status := if 0 <? days then ok else expiring_soon; expiryDate := Some t; daysRemaining := Some days;
         error := None; c_checkedAt := now |}
  end.

(** *** The pool

    [running]: the hosts the workers are at.  A worker that is free takes the next host
    at once, passing over empty names; [order] says which of the running checks answers
    next. *)
Section pool.
Context {A B : Type} (check : A → B) (named : A → bool) (concurrency : Z).

Definition workers (hosts : list A) : nat := Z.to_nat (Z.min concurrency (Z.of_nat (length hosts))).

Fixpoint take_hosts (free : nat) (queue : list A) : list A * list A :=
  match free, queue with
  | S free', h :: queue' =>
      if named h then let '(taken, rest) := take_hosts free' queue' in (h :: taken, rest)
      else take_hosts free queue'
  | _, _ => ([], queue)
  end.

(** One unit of fuel per answer. *)
Fixpoint pool (n : nat) (fuel : nat) (order : list nat) (queue running : list A) (results : list B) : list B :=
  let '(taken, queue') := take_hosts (n - length running) queue in
  let running' := (running ++ taken)%list in
  match fuel, running' with
  | S fuel', _ :: _ =>
      let i := (default 0 (head order) `mod` length running')%nat in
      match running' !! i with
      | Some h => pool n fuel' (tail order) queue' (delete i running') (results ++ [check h])%list
      | None => results
      end
  | _, _ => results
  end.

(** Models [checkCertificatesExpiry] (backend/src/common/tls/certificate-checker.service.ts:134-159). *)
Definition checkAll (order : list nat) (hosts : list A) : list B := pool (workers hosts) (length hosts) order hosts [] [].

Lemma take_hosts_split free queue :
  let '(taken, rest) := take_hosts free queue in
  List.filter named queue = (taken ++ List.filter named rest)%list ∧ (length taken ≤ free)%nat ∧
  (length taken + length rest ≤ length queue)%nat ∧ ((0 < free)%nat → taken = [] → rest = []).
Proof.
  revert free. induction queue as [|h queue IH]; intros free; destruct free as [|free]; cbn -[List.filter]; [by split_and!; (lia || done)..| |].
  { split_and!; (lia || done). }
  destruct (named h) eqn:Hh.
  - specialize (IH free). destruct (take_hosts free queue) as [taken rest]. destruct IH as (Hf & Hl & Hs & _).
    cbn. rewrite Hh, Hf. split_and!; (done || lia).
  - specialize (IH (S free)). destruct (take_hosts (S free) queue) as [taken rest]. destruct IH as (Hf & Hl & Hs & He).
    cbn [List.filter]. rewrite Hh. split_and!; [done|lia|lia|auto].
Qed.

Lemma pool_all n fuel order queue running results :
  (0 < n)%nat → (length running ≤ n)%nat → (length queue + length running ≤ fuel)%nat →
  pool n fuel order queue running results ≡ₚ (results ++ (check <$> running ++ List.filter named queue))%list.
Proof.
  intros Hn. revert order queue running results. induction fuel as [|fuel IH]; intros order queue running results Hr Hf.
  { destruct queue, running; cbn in Hf; try lia. cbn. case_match. by rewrite app_nil_r. }
  cbn [pool]. pose proof (take_hosts_split (n - length running) queue) as H.
  destruct (take_hosts _ queue) as [taken rest]. destruct H as (Hq & Hl & Hs & He).
  destruct (running ++ taken)%list as [|h0 r0] eqn:E.
  { apply app_eq_nil in E as [-> ->]. rewrite He in Hq by (cbn; lia || done). rewrite Hq. cbn. by rewrite app_nil_r. }
  rewrite <- E. set (all := (running ++ taken)%list) in *.
  assert (0 < length all)%nat as Hpos by (rewrite E; cbn; lia).
  set (i := (_ `mod` length all)%nat). assert (i < length all)%nat as Hi by (apply Nat.mod_upper_bound; lia).
  destruct (lookup_lt_is_Some_2 _ _ Hi) as [h Hh]. rewrite Hh.
  assert (length all = S (length (delete i all))) as Hdel by (rewrite length_delete by eauto; lia).
  assert (length all = length running + length taken)%nat as Hall by apply length_app.
  rewrite IH by lia. rewrite <- (assoc_L (++)%list). apply Permutation_app_head. cbn [app].
  rewrite Hq, (assoc_L (++)%list running). fold all. rewrite (delete_Permutation _ _ _ Hh) at 2. reflexivity.
Qed.

(** Whatever the order in which the checks answer, every named host is checked once;
    with no worker none is. *)
Theorem every_host_checked order hosts : 0 < concurrency → checkAll order hosts ≡ₚ (check <$> List.filter named hosts).
Proof.
  intros Hc. unfold checkAll, workers. destruct hosts as [|h hosts]; [cbn; case_match; reflexivity|].
  rewrite pool_all; [done|cbn [length]; lia|cbn; lia|cbn; lia].
Qed.

Lemma pool_none fuel order hosts : pool 0 fuel order hosts [] [] = [].
Proof. by destruct fuel, hosts. Qed.
End pool.

(** ** The daily job *)

(** Models [AlertTier] (backend/src/maintenance/tls-certificate-monitor.service.ts:20-20). *)
Inductive AlertTier := tier_1 | tier_2.
Definition tier_text (x : AlertTier) : string := match x with tier_1 => "tier_1" | tier_2 => "tier_2" end.
Definition tier_number (x : AlertTier) : Z := match x with tier_1 => 1 | tier_2 => 2 end.
Inductive severity := warning | critical.

(** Models [TlsCertificateAlertEvent] (backend/src/maintenance/tls-certificate-monitor.service.ts:34-44). *)
Record TlsCertificateAlertEvent := {
  a_severity : severity; a_tier : Z; a_hostname : string; a_port : Z; a_expiryDate : Z; a_daysRemaining : Z; alertedAt : Z; message : string }.

Record expiring := { e_hostname : string; e_tier : AlertTier; e_daysRemaining : Z; e_expiryDate : Z }.
(** Models [TlsCertificateMonitorSnapshot] (backend/src/maintenance/tls-certificate-monitor.service.ts:49-60). *)
Record TlsCertificateMonitorSnapshot := {
  checkedAt : Z; endpointsChecked : nat; expiringAlerts : list expiring; unreachableEndpoints : list string; summary : string }.

(** What is stored in Redis, and what a run does besides. *)
Inductive stored := Fired (tier : AlertTier) (firedAt days : Z) | Latest (s : TlsCertificateMonitorSnapshot).
Inductive effect := Posted (a : TlsCertificateAlertEvent) | Gauge (domain : string) (days : Z).

Record world (R : Type) := World { keys : R; done_so_far : list effect }.
Arguments World {R} _ _.
Arguments keys {R} _.
Arguments done_so_far {R} _.

#[export] Instance world_redis {V R} `{RedisString V R} : RedisString V (world R) := {
  r_get t k w := r_get t k (keys w);
  r_setex t k v ttl w := World (r_setex t k v ttl (keys w)) (done_so_far w);
  r_del k w := World (r_del (V:=V) k (keys w)) (done_so_far w);
  r_scan_pages t p w := r_scan_pages (V:=V) t p (keys w);
}.

(** The settings.  The endpoints are the host names of the JSON in
    [TLS_ENDPOINTS_JSON], if it is set and parses, and of the file; a port given with
    an endpoint is not read. *)
Record Settings := {
  enabled : string; tier1Threshold : Z; tier2Threshold : Z; concurrency : Z; webhookUrl : option string;
  endpoints_json : option (option (list string)); endpoints_file : result string (option (list string)) }.

Definition ALERT_KEY_PREFIX : string := "tls:alert".
Definition SNAPSHOT_KEY : string := "tls:monitor:snapshot".
Definition SNAPSHOT_TTL_SECONDS : Z := 86400.

(** Models [loadEndpointsConfig] (backend/src/maintenance/tls-certificate-monitor.service.ts:339-373). *)
Definition loadEndpointsConfig (cfg : Settings) : list string :=
  match endpoints_json cfg with
  | Some (Some l) => l
  | _ => match endpoints_file cfg with Ok (Some l) => l | _ => [] end
  end.

Definition alert_key (host : string) (tier : AlertTier) : string := ALERT_KEY_PREFIX +:+ ":" +:+ host +:+ ":" +:+ tier_text tier.

Section monitor.
Context {R : Type} `{RedisStringLaws stored R}.
Abbreviation MM A := (M (rworld (world R)) string A).
Variable cfg : Settings.
Variable connect : string → peer.

Definition log_effect (x : effect) (w : world R) : world R := World (keys w) (done_so_far w ++ [x])%list.

(** A gauge is set in memory. *)
Definition set_gauge (domain : string) (days : Z) : MM () :=
  λ w, (Ok tt, RWorld (log_effect (Gauge domain days) (rstate w)) (faults w)).

(** A delivery that fails is logged.
    Models [sendAlert] (backend/src/maintenance/tls-certificate-monitor.service.ts:303-333). *)
Definition sendAlert (a : TlsCertificateAlertEvent) : MM () :=
  match trim (default "" (webhookUrl cfg)) with
  | "" => ret tt
  | _ => try_catch (update (log_effect (Posted a))) (λ _, ret tt)
  end.

Definition alert_event (now : Z) (host : string) (tier : AlertTier) (days expiry : Z) : TlsCertificateAlertEvent :=
  {| a_severity := match tier with tier_1 => warning | tier_2 => critical end; a_tier := tier_number tier; a_hostname := host; a_port := 443;
     a_expiryDate := expiry; a_daysRemaining := days; alertedAt := now;
     message := "TLS certificate for " +:+ host +:+ " expires in " +:+ show_Z days +:+ " days (" +:+ toISOString expiry +:+ ")" |}.

Definition secondsUntilExpiry (now expiry : Z) : Z := Z.max 1 ((expiry - now) / 1000).

(** Models [checkAndFireAlert] (backend/src/maintenance/tls-certificate-monitor.service.ts:241-298). *)
Definition checkAndFireAlert (now : Z) (host : string) (tier : AlertTier) (days expiry : Z) : MM bool :=
  let* alreadyFired := redis_get now (alert_key host tier) in
  match alreadyFired with
  | Some _ => ret false
  | None =>
      do* sendAlert (alert_event now host tier days expiry) in
      do* redis_set now (alert_key host tier) (Fired tier now days) (secondsUntilExpiry now expiry) in
      ret true
  end.

Definition fire_at (now : Z) (host : string) (tier : AlertTier) (threshold days expiry : Z) : MM (list expiring) :=
  if days <=? threshold then
    let* fired := checkAndFireAlert now host tier days expiry in
    ret (if fired then [{| e_hostname := host; e_tier := tier; e_daysRemaining := days; e_expiryDate := expiry |}] else [])
  else ret [].

(** One result: the alerts it fires and the host if it cannot be reached. *)
Definition examine (now : Z) (x : CertificateCheckResult) : MM (list expiring * list string) :=
  match c_status x, daysRemaining x, expiryDate x with
  | unreachable, _, _ => ret ([], [hostname x])
  | ok, days, _ => do* set_gauge (hostname x) (default 0 days) in ret ([], [])
  | expiring_soon, Some days, Some expiry =>
      do* set_gauge (hostname x) days in
      let* a := fire_at now (hostname x) tier_1 (tier1Threshold cfg) days expiry in
      let* b := fire_at now (hostname x) tier_2 (tier2Threshold cfg) days expiry in
      ret ((a ++ b)%list, [])
  | expiring_soon, _, _ => ret ([], [])
  end.

Fixpoint examine_all (now : Z) (l : list CertificateCheckResult) : MM (list expiring * list string) :=
  match l with
  | [] => ret ([], [])
  | x :: l' =>
      let* p := examine now x in
      let* q := examine_all now l' in
      ret ((p.1 ++ q.1)%list, (p.2 ++ q.2)%list)
  end.

Definition idle_snapshot (now : Z) (text : string) : TlsCertificateMonitorSnapshot :=
  {| checkedAt := now; endpointsChecked := 0; expiringAlerts := []; unreachableEndpoints := []; summary := text |}.

Definition check_results (now : Z) (order : list nat) : list CertificateCheckResult :=
  checkAll (checkCertificateExpiry connect now) (λ h, negb (bool_decide (h = ""))) (concurrency cfg) order (loadEndpointsConfig cfg).

(** Models [runCertificateMonitor] (backend/src/maintenance/tls-certificate-monitor.service.ts:99-234). *)
Definition runCertificateMonitor (now : Z) (order : list nat) : MM TlsCertificateMonitorSnapshot :=
  if negb (bool_decide (enabled cfg = "true") || bool_decide (enabled cfg = "1")) then ret (idle_snapshot now "Monitor disabled")
  else if bool_decide (loadEndpointsConfig cfg = []) then ret (idle_snapshot now "No endpoints configured")
  else
    let* r := examine_all now (check_results now order) in
    let n := length (loadEndpointsConfig cfg) in
    let s := {| checkedAt := now; endpointsChecked := n; expiringAlerts := r.1; unreachableEndpoints := r.2;
                summary := "Checked " +:+ show_Z (Z.of_nat n) +:+ " endpoints: " +:+ show_Z (Z.of_nat (length r.1)) +:+ " expiring, " +:+
                           show_Z (Z.of_nat (length r.2)) +:+ " unreachable" |} in
    do* redis_set now SNAPSHOT_KEY (Latest s) SNAPSHOT_TTL_SECONDS in
    ret s.

(** Models [getLatestSnapshot] (backend/src/maintenance/tls-certificate-monitor.service.ts:378-380). *)
Definition getLatestSnapshot (now : Z) : MM (option TlsCertificateMonitorSnapshot) :=
  let* v := redis_get now SNAPSHOT_KEY in
  ret (match v with Some (Latest s) => Some s | _ => None end).

(** *** No warning before a certificate has expired *)

(** A check that says expiring means that the certificate has expired. *)
Definition expired (now : Z) (x : CertificateCheckResult) : Prop :=
  c_status x = expiring_soon → ∀ t, expiryDate x = Some t → t ≤ now.

Lemma check_expired now host : expired now (checkCertificateExpiry connect now host).
Proof.
  unfold expired, checkCertificateExpiry. repeat case_match; cbn; try done. intros Hs t' [= <-]. bool_prop.
  pose proof (ceil_div_spec (z - now) DAY_MS ltac:(done)) as [_ Hd]. unfold DAY_MS in *. nia.
Qed.

Lemma check_results_expired now order : Forall (expired now) (check_results now order).
Proof.
  unfold check_results. destruct (decide (0 < concurrency cfg)) as [Hc|Hc].
  - rewrite every_host_checked by done. apply Forall_forall. intros x (h & -> & _)%list_elem_of_fmap. apply check_expired.
  - unfold checkAll, workers. rewrite Z2Nat.nonpos by lia. rewrite pool_none. constructor.
Qed.

Definition expired_by (now : Z) (x : effect) : Prop := match x with Posted a => a_expiryDate a ≤ now | Gauge _ _ => True end.

(** What a run adds to the effects are warnings of expired certificates. *)
Definition warns_late (now : Z) : relation (rworld (world R)) :=
  λ w w', ∃ l, done_so_far (rstate w') = (done_so_far (rstate w) ++ l)%list ∧ Forall (expired_by now) l.

#[export] Instance warns_late_pre now : PreOrder (warns_late now).
Proof.
  split.
  - intros w. exists []. by rewrite app_nil_r.
  - intros a b c (l & E & F) (l' & E' & F'). exists (l ++ l')%list. rewrite E', E, <- (assoc_L (++)%list). split; [done|]. by apply Forall_app.
Qed.

Lemma late_same now (w w' : rworld (world R)) : done_so_far (rstate w') = done_so_far (rstate w) → warns_late now w w'.
Proof. intros E. exists []. by rewrite E, app_nil_r. Qed.

Lemma late_get now t k : keeps (warns_late now) (redis_get t k : MM (option stored)).
Proof.
  intros w. apply late_same. unfold world_of. destruct (redis_get_cases (E:=string) (V:=stored) t k w) as (v & w1 & -> & E & _). cbn. by rewrite E.
Qed.

Lemma late_set now t k (v : stored) ttl : keeps (warns_late now) (redis_set t k v ttl : MM ()).
Proof. intros w. apply late_same. unfold world_of. by destruct (redis_set_cases (E:=string) t k v ttl w) as (w1 & -> & [E|E]); cbn; rewrite E. Qed.

Lemma late_gauge now d n : keeps (warns_late now) (set_gauge d n : MM ()).
Proof. intros w. exists [Gauge d n]. split; [done|]. by repeat constructor. Qed.

Lemma late_send now a : a_expiryDate a ≤ now → keeps (warns_late now) (sendAlert a : MM ()).
Proof.
  intros Ha. unfold sendAlert. case_match; keeps_walk. intros w. unfold world_of, update, cmd. destruct (faults w) as [|[] fs].
  1, 3: exists [Posted a]; split; [done|]; by repeat constructor.
  by apply late_same.
Qed.

Lemma late_fire now host tier th days t : t ≤ now → keeps (warns_late now) (fire_at now host tier th days t : MM _).
Proof.
  intros Ht. unfold fire_at, checkAndFireAlert. keeps_walk; auto using late_get, late_set. by apply late_send.
Qed.

Lemma late_all now l : Forall (expired now) l → keeps (warns_late now) (examine_all now l : MM _).
Proof.
  intros Hl. induction Hl as [|x l Hx Hl IH]; cbn [examine_all]; keeps_walk; [|exact IH]. unfold examine.
  destruct (c_status x) eqn:Hs, (expiryDate x) as [t|] eqn:Ht; keeps_walk; try apply late_gauge; apply late_fire; by apply Hx.
Qed.

Definition entry_late (now : Z) (e : expiring) : Prop := e_expiryDate e ≤ now.

Lemma fire_at_late now host tier th days t l w w' :
  t ≤ now → fire_at now host tier th days t w = (Ok l, w') → Forall (entry_late now) l.
Proof.
  intros Ht. unfold fire_at. case_match; [|intros [= <- _]; done]. intros (b & w1 & _ & E)%bind_ok_inv. injection E as <- _.
  destruct b; by repeat constructor.
Qed.

Lemma examine_all_late now l p w w' : Forall (expired now) l → examine_all now l w = (Ok p, w') → Forall (entry_late now) p.1.
Proof.
  intros Hl. revert p w w'. induction Hl as [|x l Hx Hl IH]; intros p w w'; cbn [examine_all]; [intros [= <- _]; done|].
  intros (a & w1 & Ha & (b & w2 & Hb & E)%bind_ok_inv)%bind_ok_inv. injection E as <- _. cbn [fst]. apply Forall_app. split; [|by eapply IH].
  revert Ha. unfold examine. destruct (c_status x) eqn:Hs.
  - intros (u & w3 & _ & E)%bind_ok_inv. by injection E as <- _.
  - destruct (daysRemaining x) as [days|], (expiryDate x) as [t|] eqn:Ht; try (intros [= <- _]; done).
    intros (u & w3 & _ & (l1 & w4 & E1 & (l2 & w5 & E2 & E)%bind_ok_inv)%bind_ok_inv)%bind_ok_inv. injection E as <- _. cbn [fst].
    apply Forall_app. split; eapply fire_at_late; eauto.
  - by intros [= <- _].
Qed.

(** A check reports "ok" until the certificate has expired, and the job passes over
    what is ok: whatever the thresholds, and whichever commands fail, every warning a
    run reports or posts is of a certificate that has expired. *)
Theorem no_alert_before_expiry now order w s w' :
  runCertificateMonitor now order w = (Ok s, w') → Forall (entry_late now) (expiringAlerts s) ∧ warns_late now w w'.
Proof.
  intros Hrun. split.
  - revert Hrun. unfold runCertificateMonitor. repeat (case_match; [by intros [= <- _]|]).
    intros (p & w1 & Hp & (u & w2 & _ & E)%bind_ok_inv)%bind_ok_inv. injection E as <- _.
    eapply examine_all_late; [apply check_results_expired|done].
  - assert (keeps (warns_late now) (runCertificateMonitor now order)) as Hk.
    { unfold runCertificateMonitor. keeps_walk; [apply late_all, check_results_expired|apply late_set]. }
    specialize (Hk w). unfold world_of in Hk. by rewrite Hrun in Hk.
Qed.

(** *** How long a warning is suppressed *)

Lemma get_healthy t k (r : world R) : (redis_get t k : MM (option stored)) (healthy r) = (Ok (r_get t k r), healthy r).
Proof. done. Qed.

(** While Redis answers: a warning is repeated once the record of the first is gone,
    after the time to the expiry, in seconds, or one second for a certificate that has
    expired. *)
Theorem alert_repeated_after t t' host tier days days' expiry expiry' (r : world R) :
  t ≤ t' → r_get t (alert_key host tier) r = None →
  ∃ r1, checkAndFireAlert t host tier days expiry (healthy r) = (Ok true, healthy r1) ∧
    (checkAndFireAlert t' host tier days' expiry' (healthy r1)).1 = Ok (bool_decide (t + secondsUntilExpiry t expiry * 1000 ≤ t')).
Proof.
  intros Ht Hr. set (a := alert_event t host tier days expiry).
  assert (∃ r0, sendAlert a (healthy r) = (Ok tt, healthy r0) ∧ keys r0 = keys r) as (r0 & Hs & Hk).
  { unfold sendAlert. case_match; eexists; (split; [reflexivity|done]). }
  exists (r_setex t (alert_key host tier) (Fired tier t days) (secondsUntilExpiry t expiry) r0). split.
  - unfold checkAndFireAlert. erewrite bind_ok by (rewrite get_healthy, Hr; reflexivity). cbv iota. fold a. rewrite (bind_ok _ _ _ _ _ Hs). reflexivity.
  - unfold checkAndFireAlert. erewrite bind_ok by apply get_healthy. cbn [r_get r_setex world_redis keys]. rewrite get_setex by done.
    destruct (decide _) as [Hd|Hd]; [by rewrite bool_decide_false by lia|]. rewrite bool_decide_true by lia.
    unfold bind, sendAlert. by destruct (trim _).
Qed.

(** A run that stores its snapshot can be read for a day. *)
Lemma snapshot_read_back t t' (s : TlsCertificateMonitorSnapshot) (r : world R) :
  t ≤ t' < t + SNAPSHOT_TTL_SECONDS * 1000 →
  (getLatestSnapshot t' (healthy (r_setex t SNAPSHOT_KEY (Latest s) SNAPSHOT_TTL_SECONDS r))).1 = Ok (Some s).
Proof.
  intros Ht. unfold getLatestSnapshot. erewrite bind_ok by apply get_healthy. cbn [r_get r_setex world_redis keys].
  rewrite get_setex by lia. by rewrite decide_True by lia.
Qed.
End monitor.

(** ** Runs *)

Module TlsRuns.
Import Redis.Sample.

Definition now0 : Z := 1700000000000.
Definition cfg : Settings :=
  {| enabled := "true"; tier1Threshold := 30; tier2Threshold := 7; concurrency := 2; webhookUrl := Some "https://hooks.example";
     endpoints_json := None; endpoints_file := Ok (Some ["api.example"; "down.example"; "app.example"]) |}.
Definition hosts (expiry : Z) (host : string) : peer :=
  if bool_decide (host = "down.example") then Failed "ECONNREFUSED" else if bool_decide (host = "app.example") then ValidTo (Some expiry) else ValidTo (Some (now0 + 100 * DAY_MS)).
Definition start : rworld (world (Sample.strings stored)) := healthy (World [] []).
Definition alerts (x : result string TlsCertificateMonitorSnapshot * rworld (world (Sample.strings stored))) : option (list (AlertTier * Z) * list string) :=
  match x.1 with Ok s => Some ((λ e, (e_tier e, e_daysRemaining e)) <$> expiringAlerts s, unreachableEndpoints s) | Throw _ => None end.

(** Three days before the end nothing is said; two days after it both warnings are
    given, and given again the next day. *)
Example silent_then_daily :
  alerts (runCertificateMonitor cfg (hosts (now0 + 3 * DAY_MS)) now0 [1; 0; 0]%nat start) = Some ([], ["down.example"]) ∧
  let x := runCertificateMonitor cfg (hosts (now0 - 2 * DAY_MS)) now0 [1; 0; 0]%nat start in
  alerts x = Some ([(tier_1, -2); (tier_2, -2)], ["down.example"]) ∧
  alerts (runCertificateMonitor cfg (hosts (now0 - 2 * DAY_MS)) (now0 + DAY_MS) [] x.2) = Some ([(tier_1, -3); (tier_2, -3)], ["down.example"]).
Proof. by vm_compute. Qed.

Lemma every_host_checked_witness : checkAll String.length (λ h, negb (bool_decide (h = ""))) 2 [1; 0]%nat ["ab"; ""; "c"; "def"] ≡ₚ [2; 1; 3]%nat.
Proof. etrans; [apply every_host_checked; lia|]. by vm_compute. Defined.

Lemma no_alert_before_expiry_witness :
  ∃ s w', runCertificateMonitor cfg (hosts (now0 - 2 * DAY_MS)) now0 [] start = (Ok s, w') ∧
    Forall (entry_late now0) (expiringAlerts s) ∧ warns_late now0 start w'.
Proof.
  destruct (runCertificateMonitor cfg (hosts (now0 - 2 * DAY_MS)) now0 [] start) as [[s|e] w'] eqn:E; [|vm_compute in E; discriminate].
  exists s, w'. split; [done|]. by apply (no_alert_before_expiry cfg (hosts (now0 - 2 * DAY_MS)) now0 []).
Defined.

Lemma alert_repeated_after_witness :
  ∃ r1 : world (Sample.strings stored),
    checkAndFireAlert cfg now0 "a" tier_1 3 (now0 + 3 * DAY_MS) (healthy (World [] [])) = (Ok true, healthy r1) ∧
    (checkAndFireAlert cfg (now0 + DAY_MS) "a" tier_1 2 (now0 + 3 * DAY_MS) (healthy r1)).1 =
      Ok (bool_decide (now0 + secondsUntilExpiry now0 (now0 + 3 * DAY_MS) * 1000 ≤ now0 + DAY_MS)).
Proof. by apply (alert_repeated_after cfg now0 (now0 + DAY_MS) "a" tier_1 3 2). Defined.

End TlsRuns.

End Tls.
