(* ===== verification/Export.v ===== *)
(** * The audit log and the exports

    backend/src/admin/audit.service.ts: writing, paging and exporting the audit
    log; backend/src/admin/admin-claims-export.service.ts: the export of claims.
    Both exports read their table page by page and write a line for each row.  The
    database answers a command or rejects it; what was written before stays. *)

From stdpp Require Import base list strings sorting.
From Stdlib Require Import ZArith Lia Ascii Sorted.
From S2P Require Import Prelude Keyset JsText Redis.

Open Scope string_scope.
Open Scope Z_scope.

(** ** Reading a table page by page *)

Section pages.
Context {A K : Type} `{!EqDecision K} (key : A → K).

(** The rows after the one with the key of a cursor; none if there is no such row. *)
Fixpoint after_row (k : K) (l : list A) : list A :=
  match l with
  | [] => []
  | x :: l' => if decide (key x = k) then l' else after_row k l'
  end.
Definition after_cursor (c : option K) (l : list A) : list A := match c with Some k => after_row k l | None => l end.

Lemma after_row_split l1 x l2 : NoDup (key <$> (l1 ++ x :: l2)%list) → after_row (key x) (l1 ++ x :: l2)%list = l2.
Proof.
  induction l1 as [|y l1 IH]; intros Hn; cbn [app after_row]; [by rewrite decide_True|].
  apply NoDup_cons in Hn as [Hy Hn]. rewrite decide_False; [by apply IH|]. intros E. apply Hy. rewrite E. apply list_elem_of_fmap_2.
  apply elem_of_app. right. left.
Qed.

Lemma after_last l1 l2 : NoDup (key <$> (l1 ++ l2)%list) → after_cursor (key <$> last l1) (l1 ++ l2)%list = l2.
Proof.
  intros Hn. destruct (last l1) as [x|] eqn:E; cbn [fmap option_fmap option_map after_cursor].
  - apply last_Some in E as [l ->]. rewrite <- app_assoc in *. by apply after_row_split.
  - by apply last_None in E as ->.
Qed.
End pages.

(** ** Fields and rows of a CSV file *)

Definition comma : ascii := ",".
Definition dquote : ascii := ascii_of_nat 34.
Definition nl : ascii := ascii_of_nat 10.

Fixpoint double_quotes (s : string) : string :=
  match s with
  | "" => ""
  | String c s' => if ascii_dec c dquote then String c (String c (double_quotes s')) else String c (double_quotes s')
  end.

Definition special (c : ascii) : bool := bool_decide (c = comma) || bool_decide (c = dquote) || bool_decide (c = nl).

(** Models [escapeCSVField] (backend/src/admin/admin-claims-export.service.ts:164-169). *)
Definition escapeCSVField (value : string) : string :=
  if str_forall (λ c, negb (special c)) value then value
  else String dquote (double_quotes value +:+ String dquote "").

(** Models [arrayToCSVRow] (backend/src/admin/admin-claims-export.service.ts:160-162). *)
Definition arrayToCSVRow (values : list string) : string := join (String comma "") (escapeCSVField <$> values).

(** A reader of CSV files, by the rules of RFC 4180 with a line feed at the end of
    each row. *)
Inductive place := Start | Plain | Quoted | Closed.

Fixpoint csv_read (s : string) (p : place) (field : string) (row : list string) : list (list string) :=
  match s with
  | "" => []
  | String c s' =>
      let next := csv_read s' in
      match p with
      | Quoted => if ascii_dec c dquote then next Closed field row else next Quoted (field +:+ String c "") row
      | _ =>
          if ascii_dec c comma then next Start "" (row ++ [field])%list
          else if ascii_dec c nl then (row ++ [field])%list :: next Start "" []
          else if ascii_dec c dquote then
            match p with
            | Start => next Quoted "" row
            | Closed => next Quoted (field +:+ String c "") row
            | _ => next Plain (field +:+ String c "") row
            end
          else next Plain (field +:+ String c "") row
      end
  end.

Definition parse_csv (s : string) : list (list string) := csv_read s Start "" [].

Lemma read_plain v rest f row :
  str_forall (λ c, negb (special c)) v = true → csv_read (v +:+ rest) Plain f row = csv_read rest Plain (f +:+ v) row.
Proof.
  revert f. induction v as [|c v IH]; intros f Hv; [by rewrite str_app_nil_r|]. cbn [str_forall] in Hv. apply andb_prop in Hv as [Hc Hv].
  unfold special in Hc. apply negb_true_iff, orb_false_iff in Hc as [[H1 H2]%orb_false_iff H3]. bool_prop.
  change (String c v +:+ rest) with (String c (v +:+ rest)). cbn [csv_read].
  destruct (ascii_dec c comma); [done|]. destruct (ascii_dec c nl); [done|]. destruct (ascii_dec c dquote); [done|].
  rewrite IH by done. by rewrite str_app_assoc.
Qed.

Lemma read_quoted v rest f row : csv_read (double_quotes v +:+ String dquote rest) Quoted f row = csv_read rest Closed (f +:+ v) row.
Proof.
  revert f. induction v as [|c v IH]; intros f.
  - cbn [double_quotes]. change ("" +:+ String dquote rest) with (String dquote rest). cbn [csv_read].
    destruct (ascii_dec dquote dquote); [by rewrite str_app_nil_r|done].
  - cbn [double_quotes]. destruct (ascii_dec c dquote) as [->|Hc].
    + change (String dquote (String dquote (double_quotes v)) +:+ String dquote rest)
        with (String dquote (String dquote (double_quotes v +:+ String dquote rest))).
      cbn [csv_read]. destruct (ascii_dec dquote dquote); [|done].
      destruct (ascii_dec dquote comma); [done|]. destruct (ascii_dec dquote nl); [done|]. rewrite IH. by rewrite str_app_assoc.
    + change (String c (double_quotes v) +:+ String dquote rest) with (String c (double_quotes v +:+ String dquote rest)).
      cbn [csv_read]. destruct (ascii_dec c dquote); [done|]. rewrite IH. by rewrite str_app_assoc.
Qed.

(** One field and the separator that ends it. *)
Lemma read_field v t rest row :
  t = comma ∨ t = nl →
  csv_read (escapeCSVField v +:+ String t rest) Start "" row =
    if ascii_dec t comma then csv_read rest Start "" (row ++ [v])%list else (row ++ [v])%list :: csv_read rest Start "" [].
Proof.
  intros Ht. assert (∀ p, p ≠ Quoted → csv_read (String t rest) p v row =
    if ascii_dec t comma then csv_read rest Start "" (row ++ [v])%list else (row ++ [v])%list :: csv_read rest Start "" []) as Hend.
  { intros p Hp. cbn [csv_read]. destruct p; try done; destruct (ascii_dec t comma) as [|Hc]; try done; destruct Ht as [->| ->]; done. }
  unfold escapeCSVField. destruct (str_forall _ v) eqn:Hv.
  - destruct v as [|c v]; [by apply Hend|]. cbn [str_forall] in Hv. apply andb_prop in Hv as [Hc Hv].
    unfold special in Hc. apply negb_true_iff, orb_false_iff in Hc as [[H1 H2]%orb_false_iff H3]. bool_prop.
    change (String c v +:+ String t rest) with (String c (v +:+ String t rest)). cbn [csv_read].
    destruct (ascii_dec c comma); [done|]. destruct (ascii_dec c nl); [done|]. destruct (ascii_dec c dquote); [done|].
    rewrite read_plain by done. by apply Hend.
  - change (String dquote (double_quotes v +:+ String dquote "") +:+ String t rest)
      with (String dquote ((double_quotes v +:+ String dquote "") +:+ String t rest)).
    rewrite str_app_assoc. change (String dquote "" +:+ String t rest) with (String dquote (String t rest)).
    cbn [csv_read]. destruct (ascii_dec dquote comma); [done|]. destruct (ascii_dec dquote nl); [done|].
    destruct (ascii_dec dquote dquote); [|done]. rewrite read_quoted. by apply Hend.
Qed.

Lemma read_row vs rest row :
  vs ≠ [] → csv_read (arrayToCSVRow vs +:+ String nl rest) Start "" row = (row ++ vs)%list :: csv_read rest Start "" [].
Proof.
  revert row. induction vs as [|v vs IH]; intros row Hne; [done|]. unfold arrayToCSVRow in *. destruct vs as [|v' vs].
  - cbn [fmap list_fmap join]. rewrite read_field by auto. done.
  - cbn [fmap list_fmap] in *. change (join (String comma "") (escapeCSVField v :: escapeCSVField v' :: (escapeCSVField <$> vs)))
      with (escapeCSVField v +:+ String comma (join (String comma "") (escapeCSVField v' :: (escapeCSVField <$> vs)))).
    rewrite str_app_assoc. change (String comma ?x +:+ ?y) with (String comma (x +:+ y)).
    rewrite read_field by auto. destruct (ascii_dec comma comma); [|done]. rewrite IH by done. by rewrite <- app_assoc.
Qed.

(** The text of a file: every row ends with a line feed. *)
Definition csv_text (rows : list (list string)) : string := foldr (λ r s, arrayToCSVRow r +:+ String nl s) "" rows.

(** Exported rows read back.  Whatever the fields contain, commas, quotes and line
    feeds included, a reader of CSV files recovers the rows of an export. *)
Theorem csv_roundtrip rows : Forall (λ r, r ≠ []) rows → parse_csv (csv_text rows) = rows.
Proof.
  unfold parse_csv. induction 1 as [|r rows Hr _ IH]; [done|]. cbn [csv_text foldr]. rewrite read_row by done. by rewrite <- IH at 2.
Qed.

Lemma csv_text_app a b : csv_text (a ++ b)%list = csv_text a +:+ csv_text b.
Proof.
  induction a as [|r a IH]; [done|]. cbn [app csv_text foldr]. change (foldr _ "" (a ++ b)%list) with (csv_text (a ++ b)%list).
  rewrite IH. change (foldr _ "" a) with (csv_text a). rewrite str_app_assoc. done.
Qed.

(** ** Streaming a table

    The table, and what has been written to the response. *)

Record world (D : Type) := World { db : rworld D; out : string }.
Arguments World {D} _ _.
Arguments db {D} _.
Arguments out {D} _.

Section stream.
Context {D A K : Type} `{!EqDecision K} (key : A → K) (usable : K → bool) (batch : nat) (rows : D → list A) (render : A → string).
Abbreviation MX A := (M (world D) string A).

Definition push (s : string) : MX () := λ w, (Ok tt, World (db w) (out w +:+ s)).
Definition ask {B} (q : D → B) : MX B := λ w, let '(r, d) := query q (db w) in (r, World d (out w)).

(** A key that counts as false is no cursor. *)
Definition truthy_cursor (c : option K) : option K := match c with Some k => if usable k then Some k else None | None => None end.

(** Page after page until one is not full; one unit of fuel per page. *)
Fixpoint stream_loop (fuel : nat) (cursor : option K) : MX () :=
  match fuel with
  | O => ret tt
  | S fuel' =>
      let* page := ask (λ d, take batch (after_cursor key (truthy_cursor cursor) (rows d))) in
      match last page with
      | None => ret tt
      | Some x =>
          do* for_each page (λ x, push (render x)) in
          if (length page <? batch)%nat then ret tt else stream_loop fuel' (Some (key x))
      end
  end.

Definition text_of (l : list A) : string := foldr (λ x s, render x +:+ s) "" l.

Lemma text_of_app a b : text_of (a ++ b)%list = text_of a +:+ text_of b.
Proof. induction a as [|x a IH]; [done|]. cbn [app text_of foldr]. fold (text_of (a ++ b)%list). fold (text_of a). by rewrite IH, str_app_assoc. Qed.

Lemma push_all l w : for_each l (λ x, push (render x)) w = (Ok tt, World (db w) (out w +:+ text_of l)).
Proof.
  revert w. induction l as [|x l IH]; intros w; [destruct w; cbn; by rewrite str_app_nil_r|]. cbn [for_each]. erewrite bind_ok by done.
  rewrite IH. cbn [db out text_of foldr]. fold (text_of l). by rewrite str_app_assoc.
Qed.

(** Over an unchanged table every row is written once. *)
Lemma stream_loop_run fuel d l1 l2 o :
  (0 < batch)%nat → NoDup (key <$> rows d) → Forall (λ x, usable (key x) = true) (rows d) →
  rows d = (l1 ++ l2)%list → (length l2 < fuel)%nat →
  stream_loop fuel (key <$> last l1) (World (healthy d) o) = (Ok tt, World (healthy d) (o +:+ text_of l2)).
Proof.
  intros Hb Hn Hp. revert l1 l2 o. induction fuel as [|fuel IH]; intros l1 l2 o E Hf; [lia|].
  assert (truthy_cursor (key <$> last l1) = key <$> last l1) as Hcur.
  { destruct (last l1) as [x|] eqn:Hx; [|done]. cbn. apply last_Some in Hx as [l0 ->]. rewrite E in Hp.
    rewrite !Forall_app, Forall_singleton in Hp. destruct Hp as [[_ Hx] _]. by rewrite Hx. }
  assert (after_cursor key (key <$> last l1) (rows d) = l2) as Hpage by (rewrite E in Hn |- *; by apply after_last).
  cbn [stream_loop]. rewrite Hcur.
  assert (ask (λ d, take batch (after_cursor key (key <$> last l1) (rows d))) (World (healthy d) o) = (Ok (take batch l2), World (healthy d) o)) as Hask.
  { unfold ask. cbn [db out]. by rewrite query_healthy, Hpage. }
  erewrite bind_ok by exact Hask. destruct (last (take batch l2)) as [c|] eqn:Hc.
  - erewrite bind_ok by apply push_all. cbn [db out]. rewrite length_take.
    destruct (Nat.ltb_spec (batch `min` length l2) batch) as [Hl|Hl]; [by rewrite take_ge by lia|].
    assert (key <$> last (l1 ++ take batch l2)%list = Some (key c)) as Hl1 by by rewrite last_app, Hc.
    rewrite <- Hl1, (IH _ (drop batch l2)).
    + do 2 f_equal. by rewrite str_app_assoc, <- text_of_app, take_drop.
    + by rewrite <- app_assoc, take_drop.
    + rewrite length_drop. lia.
  - apply last_None in Hc. destruct l2; [cbn; by rewrite str_app_nil_r|]. by destruct batch; [lia|].
Qed.
End stream.

(** ** The export of claims *)

Module ClaimsExport.

Record Claim := {
  id : Z; policyId : string; creatorAddress : string; amount : string; asset : option string; description : option string; status : string;
  severity : option string; isFinalized : bool; approveVotes : Z; rejectVotes : Z; paidAt : option Z; createdAt : Z; updatedAt : Z;
  txHash : option string; tenantId : option string; deletedAt : option Z }.

(** Models [CSV_HEADERS] (backend/src/admin/admin-claims-export.service.ts:17-34). *)
Definition CSV_HEADERS : list string :=
  ["id"; "policyId"; "creatorAddress"; "amount"; "asset"; "description"; "status"; "severity"; "isFinalized"; "approveVotes";
   "rejectVotes"; "paidAt"; "createdAt"; "updatedAt"; "txHash"; "tenantId"].

Definition pageSize : nat := 500.
#[global] Strategy opaque [pageSize].

(** The dates of the request as they were parsed. *)
Record ClaimsExportParams := { q_status : option string; q_from : option Z; q_to : option Z }.

(** Removed claims are left out, as are those of other tenants.
    Models [buildWhereClause] (backend/src/admin/admin-claims-export.service.ts:138-158). *)
Definition matches_where (tenant : option string) (p : ClaimsExportParams) (c : Claim) : bool :=
  match truthy tenant with Some t => bool_decide (tenantId c = Some t) | None => true end &&
  bool_decide (deletedAt c = None) &&
  match truthy (q_status p) with Some s => String.eqb (status c) (toUpperCase s) | None => true end &&
  match q_from p with Some t => t <=? createdAt c | None => true end &&
  match q_to p with Some t => createdAt c <=? t | None => true end.

Definition bool_text (b : bool) : string := if b then "true" else "false".
Definition row_of (c : Claim) : list string :=
  [show_Z (id c); policyId c; creatorAddress c; amount c; default "" (asset c); default "" (description c); status c;
   default "" (severity c); bool_text (isFinalized c); show_Z (approveVotes c); show_Z (rejectVotes c);
   match paidAt c with Some t => toISOString t | None => "" end; toISOString (createdAt c); toISOString (updatedAt c);
   default "" (txHash c); default "" (tenantId c)].

Abbreviation MX A := (M (world (list Claim)) string A).

Section export.
Variable tenant : option string.
Variable params : ClaimsExportParams.

Definition rows_of (l : list Claim) : list Claim :=
  stable_sort (λ a b, id b <? id a) (List.filter (matches_where tenant params) l).

Definition line (r : list string) : string := arrayToCSVRow r +:+ String nl "".

(** The id 0 is no cursor; as many pages as claims, and one, are enough.
    Models [streamClaimsAsCSV] (backend/src/admin/admin-claims-export.service.ts:63-136). *)
Definition streamClaimsAsCSV : MX () :=
  do* push (line CSV_HEADERS) in
  λ w, stream_loop id (λ i, negb (i =? 0)) pageSize rows_of (λ c, line (row_of c)) (S (length (rstate (db w)))) None w.

(** *** The whole table *)

Lemma lines_text l : text_of (λ c, line (row_of c)) l = csv_text (row_of <$> l).
Proof.
  induction l as [|c l IH]; [done|]. cbn [text_of foldr fmap list_fmap csv_text]. fold (text_of (λ c, line (row_of c)) l).
  fold (csv_text (row_of <$> l)). rewrite IH. unfold line. by rewrite str_app_assoc.
Qed.

Definition ids_ok (l : list Claim) : Prop := NoDup (id <$> l) ∧ Forall (λ c, 0 < id c) l.

Lemma rows_ok l : ids_ok l → NoDup (id <$> rows_of l) ∧ Forall (λ c, 0 < id c) (rows_of l).
Proof.
  intros [Hn Hp]. unfold rows_of. rewrite stable_sort_perm. split; [by apply filter_keys_unique|].
  apply Forall_forall. intros c [Hc _]%elem_of_bfilter. rewrite Forall_forall in Hp. by apply Hp.
Qed.

(** An export is complete.  Over an unchanged table the stream is a CSV file with the
    header and then every claim the filter selects, once, in the order of the ids,
    over as many pages as it takes; read back, it gives the same fields. *)
Theorem export_complete l :
  ids_ok l →
  let sel := List.filter (matches_where tenant params) l in
  ∃ o rows, streamClaimsAsCSV (World (healthy l) "") = (Ok tt, World (healthy l) o) ∧
    parse_csv o = CSV_HEADERS :: (row_of <$> rows) ∧ rows ≡ₚ sel ∧ StronglySorted (λ a b, id a ≤ id b) rows.
Proof.
  intros Hi sel. exists (csv_text (CSV_HEADERS :: (row_of <$> rows_of l))), (rows_of l). split_and!.
  - unfold streamClaimsAsCSV. erewrite bind_ok by done. cbn [db out rstate healthy]. destruct (rows_ok l Hi) as [Hn Hp].
    rewrite (stream_loop_run id (λ i, negb (i =? 0)) pageSize rows_of _ _ l [] (rows_of l)); [| |done| |done|].
    + rewrite lines_text. reflexivity.
    + apply Nat.ltb_lt. by vm_compute.
    + eapply Forall_impl; [exact Hp|]. intros c Hc. cbn beta in Hc. destruct (Z.eqb_spec (id c) 0); [lia|done].
    + unfold rows_of. rewrite stable_sort_perm. pose proof (List.filter_length_le (matches_where tenant params) l). lia.
  - unfold parse_csv. cbn [csv_text foldr]. rewrite read_row by done. cbn [app]. f_equal. change (foldr _ "" (row_of <$> rows_of l)) with (csv_text (row_of <$> rows_of l)).
    induction (rows_of l) as [|c cs IH]; [done|]. cbn [fmap list_fmap csv_text foldr]. rewrite read_row by done. cbn [app]. f_equal. exact IH.
  - unfold rows_of. by rewrite stable_sort_perm.
  - unfold rows_of. apply stable_sort_sorted; [intros a b c; lia| |]; intros a b Hab; bool_prop; lia.
Qed.
End export.
End ClaimsExport.

(** ** The audit log *)

Module AuditLog.

Record Row := { id : string; actor : string; action : string; payload : string; ipAddress : option string; createdAt : Z }.
Abbreviation MA A := (M (rworld (list Row)) string A).

(** Models [write] (backend/src/admin/audit.service.ts:26-28). *)
Definition write (r : Row) : MA () := update (λ l, l ++ [r])%list.

(** The filters; the dates as they were parsed. *)
Record AuditFilters := { f_action : option string; f_actor : option string; f_from : option Z; f_to : option Z }.

Definition selected (f : AuditFilters) (r : Row) : bool :=
  match truthy (f_action f) with Some a => String.eqb (action r) a | None => true end &&
  match truthy (f_actor f) with Some a => String.eqb (actor r) a | None => true end &&
  match f_from f with Some t => t <=? createdAt r | None => true end &&
  match f_to f with Some t => createdAt r <=? t | None => true end.

Definition newest_first (f : AuditFilters) (l : list Row) : list Row := stable_sort (λ a b, createdAt a <? createdAt b) (List.filter (selected f) l).
Definition oldest_first (f : AuditFilters) (l : list Row) : list Row := stable_sort (λ a b, createdAt b <? createdAt a) (List.filter (selected f) l).

Record AuditPage := { items : list Row; nextCursor : option string; hasMore : bool }.

(** Models [findAll] (backend/src/admin/audit.service.ts:30-59). *)
Definition findAll (f : AuditFilters) (cursor : option string) (limit : option nat) : MA AuditPage :=
  let n := Nat.min (default 20%nat limit) 100 in
  let* found := query (λ l, take (S n) (after_cursor id (truthy cursor) (newest_first f l))) in
  let more := (n <? length found)%nat in
  let page := if more then take n found else found in
  ret {| items := page; nextCursor := if more then id <$> last page else None; hasMore := more |}.

Definition BATCH : nat := 500.
#[global] Strategy opaque [BATCH].

(** The fields are joined with commas as they are. *)
Definition csv_line (r : Row) : string :=
  id r +:+ "," +:+ actor r +:+ "," +:+ action r +:+ "," +:+ default "" (ipAddress r) +:+ "," +:+ toISOString (createdAt r) +:+ String nl "".

(** Models [streamCsv] (backend/src/admin/audit.service.ts:61-107). *)
Definition streamCsv (f : AuditFilters) : M (world (list Row)) string () :=
  do* push ("id,actor,action,ipAddress,createdAt" +:+ String nl "") in
  λ w, stream_loop id (λ i, negb (String.eqb i "")) BATCH (oldest_first f) csv_line (S (length (rstate (db w)))) None w.

(** A client that follows the cursors. *)
Fixpoint read_pages (f : AuditFilters) (limit : option nat) (fuel : nat) (cursor : option string) (w : rworld (list Row)) : list Row :=
  match fuel with
  | O => []
  | S fuel' =>
      match findAll f cursor limit w with
      | (Ok p, w') => (items p ++ (if hasMore p then read_pages f limit fuel' (nextCursor p) w' else []))%list
      | (Throw _, _) => []
      end
  end.

Definition ids_ok (l : list Row) : Prop := NoDup (id <$> l) ∧ Forall (λ r, id r ≠ "") l.

Lemma newest_ok f l : ids_ok l → NoDup (id <$> newest_first f l) ∧ Forall (λ r, id r ≠ "") (newest_first f l).
Proof.
  intros [Hn Hp]. unfold newest_first. rewrite stable_sort_perm. split; [by apply filter_keys_unique|].
  apply Forall_forall. intros c [Hc _]%elem_of_bfilter. rewrite Forall_forall in Hp. by apply Hp.
Qed.

Lemma read_pages_rest f limit fuel l l1 l2 :
  ids_ok l → (1 ≤ Nat.min (default 20 limit) 100)%nat → newest_first f l = (l1 ++ l2)%list → (length l2 < fuel)%nat →
  read_pages f limit fuel (id <$> last l1) (healthy l) = l2.
Proof.
  intros Hi Hlim. destruct (newest_ok f l Hi) as [Hn Hp]. revert l1 l2. induction fuel as [|fuel IH]; intros l1 l2 E Hf; [lia|].
  set (n := Nat.min (default 20%nat limit) 100) in *.
  assert (truthy (id <$> last l1) = id <$> last l1) as Hcur.
  { destruct (last l1) as [x|] eqn:Hx; [|done]. cbn. apply last_Some in Hx as [l0 ->]. rewrite E in Hp.
    rewrite !Forall_app, Forall_singleton in Hp. destruct Hp as [[_ Hx] _]. by destruct (id x). }
  assert (after_cursor id (id <$> last l1) (newest_first f l) = l2) as Hpage by (rewrite E in Hn |- *; by apply after_last).
  cbn [read_pages]. unfold findAll. fold n. erewrite bind_ok by apply query_healthy. cbn beta. rewrite Hcur, Hpage. cbn [ret items hasMore nextCursor].
  rewrite length_take. destruct (Nat.ltb_spec n (S n `min` length l2)) as [Hm|Hm].
  - rewrite take_take, Nat.min_l by lia.
    assert (is_Some (last (take n l2))) as [x Hx].
    { apply last_is_Some. intros E0. apply (f_equal length) in E0. rewrite length_take in E0. cbn in E0. lia. }
    assert (id <$> last (take n l2) = id <$> last (l1 ++ take n l2)%list) as -> by by rewrite last_app, Hx.
    rewrite (IH _ (drop n l2)); [by rewrite take_drop|by rewrite <- app_assoc, take_drop|rewrite length_drop; lia].
  - rewrite take_ge by lia. by rewrite app_nil_r.
Qed.

(** The pages of the log are complete.  Over an unchanged log, a client that follows
    the cursors reads every selected entry once, newest first, whatever page size it
    asks for. *)
Theorem audit_pages_complete f limit l :
  ids_ok l → (1 ≤ Nat.min (default 20 limit) 100)%nat →
  let read := read_pages f limit (S (length l)) None (healthy l) in
  read ≡ₚ List.filter (selected f) l ∧ StronglySorted (λ a b, createdAt b ≤ createdAt a) read.
Proof.
  intros Hi Hl. cbv zeta. rewrite (read_pages_rest f limit _ l [] (newest_first f l) Hi Hl eq_refl).
  - unfold newest_first. split; [by rewrite stable_sort_perm|].
    apply stable_sort_sorted; [intros a b c; lia| |]; intros a b Hab; bool_prop; lia.
  - unfold newest_first. rewrite stable_sort_perm. pose proof (List.filter_length_le (selected f) l). lia.
Qed.

(** The export of the log writes a line for every selected entry, oldest first. *)
Theorem audit_export_complete f l :
  ids_ok l →
  streamCsv f (World (healthy l) "") =
    (Ok tt, World (healthy l) ("id,actor,action,ipAddress,createdAt" +:+ String nl (text_of csv_line (oldest_first f l)))).
Proof.
  intros [Hn Hp]. unfold streamCsv. erewrite bind_ok by done. cbn [db out rstate healthy].
  rewrite (stream_loop_run id (λ i, negb (String.eqb i "")) BATCH (oldest_first f) csv_line _ l [] (oldest_first f l)); [reflexivity| | | |done|].
  - apply Nat.ltb_lt. by vm_compute.
  - unfold oldest_first. rewrite stable_sort_perm. by apply filter_keys_unique.
  - unfold oldest_first. apply Forall_forall. intros r. rewrite stable_sort_perm. intros [Hr _]%elem_of_bfilter. rewrite Forall_forall in Hp.
    apply negb_true_iff. apply String.eqb_neq. by apply Hp.
  - unfold oldest_first. rewrite stable_sort_perm. pose proof (List.filter_length_le (selected f) l). lia.
Qed.

(** Its fields are not escaped: an actor with a comma takes two columns, and the
    reader of the file finds the action where the address should be. *)
Definition odd : Row := {| id := "1"; actor := "Ann, office"; action := "pause"; payload := ""; ipAddress := None; createdAt := 0 |}.
Example comma_shifts_columns : parse_csv (csv_line odd) = [["1"; "Ann"; " office"; "pause"; ""; "1970-01-01T00:00:00.000Z"]].
Proof. vm_compute. reflexivity. Qed.
End AuditLog.

(** ** At concrete inputs *)

Module ExportWitnesses.

Definition claim (i : Z) (d : string) : ClaimsExport.Claim :=
  {| ClaimsExport.id := i; ClaimsExport.policyId := "GA:1"; ClaimsExport.creatorAddress := "GA"; ClaimsExport.amount := "5";
     ClaimsExport.asset := None; ClaimsExport.description := Some d; ClaimsExport.status := "PENDING"; ClaimsExport.severity := None;
     ClaimsExport.isFinalized := false; ClaimsExport.approveVotes := 0; ClaimsExport.rejectVotes := 0; ClaimsExport.paidAt := None;
     ClaimsExport.createdAt := 0; ClaimsExport.updatedAt := 0; ClaimsExport.txHash := None; ClaimsExport.tenantId := None;
     ClaimsExport.deletedAt := None |}.
Definition quote : string := String dquote "".
Definition claims : list ClaimsExport.Claim := [claim 2 ("a, " +:+ quote +:+ "b" +:+ quote); claim 1 ("line" +:+ String nl "break")].
Definition all : ClaimsExport.ClaimsExportParams := {| ClaimsExport.q_status := None; ClaimsExport.q_from := None; ClaimsExport.q_to := None |}.

Lemma csv_roundtrip_witness :
  parse_csv (csv_text [["a,b"; ""]; [quote; "x" +:+ String nl "y"]]) = [["a,b"; ""]; [quote; "x" +:+ String nl "y"]].
Proof. apply csv_roundtrip. repeat constructor; discriminate. Defined.

Lemma export_complete_witness :
  ∃ o rows, ClaimsExport.streamClaimsAsCSV None all (World (healthy claims) "") = (Ok tt, World (healthy claims) o) ∧
    parse_csv o = ClaimsExport.CSV_HEADERS :: (ClaimsExport.row_of <$> rows) ∧ rows ≡ₚ claims.
Proof.
  destruct (ClaimsExport.export_complete None all claims) as (o & rows & H1 & H2 & H3 & _).
  - split; [apply (bool_decide_unpack _); vm_compute; done|repeat constructor].
  - exists o, rows. split; [exact H1|]. split; [exact H2|]. exact H3.
Defined.

Definition entry (i : string) (t : Z) : AuditLog.Row :=
  {| AuditLog.id := i; AuditLog.actor := "ann"; AuditLog.action := "pause"; AuditLog.payload := ""; AuditLog.ipAddress := None; AuditLog.createdAt := t |}.
Definition log : list AuditLog.Row := [entry "a" 1; entry "b" 2; entry "c" 2].
Definition no_filter : AuditLog.AuditFilters :=
  {| AuditLog.f_action := None; AuditLog.f_actor := None; AuditLog.f_from := None; AuditLog.f_to := None |}.

Lemma log_ok : AuditLog.ids_ok log.
Proof. split; [apply (bool_decide_unpack _); vm_compute; done|]. repeat constructor; discriminate. Qed.

Lemma audit_pages_complete_witness : AuditLog.read_pages no_filter (Some 1%nat) 4 None (healthy log) ≡ₚ log.
Proof. destruct (AuditLog.audit_pages_complete no_filter (Some 1%nat) log log_ok) as [H _]; [cbn; lia|exact H]. Defined.

Lemma audit_export_complete_witness :
  ∃ o, AuditLog.streamCsv no_filter (World (healthy log) "") = (Ok tt, World (healthy log) o) ∧ length (parse_csv o) = 4%nat.
Proof. eexists. split; [exact (AuditLog.audit_export_complete no_filter log log_ok)|vm_compute; reflexivity]. Defined.
End ExportWitnesses.
