(* ===== verification/Optimistic.v ===== *)
(** * Optimistic updates in the web front end

    frontend/src/lib/optimistic/useOptimisticState.ts and useConfirmationPoller.ts
    with frontend/src/features/claims/hooks/useOptimisticClaims.ts: the entries a
    page shows before the indexer has caught up, the polling that settles them, and
    the claims as they are displayed.  React's state is passed explicitly; a
    callback memoized without dependencies keeps the entries of the first render. *)

From stdpp Require Import base gmap list strings.
From Stdlib Require Import ZArith Lia.
From S2P Require Import Prelude JsText.

Open Scope string_scope.
Open Scope Z_scope.

Inductive OptimisticStatus := Pending | Confirmed | Failed.
Inductive OptimisticOperationType := policy_initiation | claim_filing | vote_submission.

Record OptimisticEntry (T : Type) := {
  key : string; operation : OptimisticOperationType; optimisticData : T; previousData : T; status : OptimisticStatus; createdAt : Z;
  txHash : option string; error : option string }.
Arguments key {T} _.
Arguments operation {T} _.
Arguments optimisticData {T} _.
Arguments previousData {T} _.
Arguments status {T} _.
Arguments createdAt {T} _.
Arguments txHash {T} _.
Arguments error {T} _.

(** Models [CONFIRMATION_TIMEOUT_MS] (frontend/src/lib/optimistic/types.ts:39-39). *)
Definition CONFIRMATION_TIMEOUT_MS : Z := 60000.

(** ** The entries *)

Section state.
Context {T : Type}.
Abbreviation entries := (gmap string (OptimisticEntry T)).

Inductive Action := APPLY (e : OptimisticEntry T) | CONFIRM (k : string) | ROLLBACK (k err : string) | REMOVE (k : string).

Definition with_status (st : OptimisticStatus) (err : option string) (e : OptimisticEntry T) : OptimisticEntry T :=
  {| key := key e; operation := operation e; optimisticData := optimisticData e; previousData := previousData e; status := st;
     createdAt := createdAt e; txHash := txHash e; error := err |}.

(** Models [reducer] (frontend/src/lib/optimistic/useOptimisticState.ts:29-53). *)
Definition reducer (s : entries) (a : Action) : entries :=
  match a with
  | APPLY e => <[key e := e]> s
  | CONFIRM k => match s !! k with Some e => <[k := with_status Confirmed (error e) e]> s | None => s end
  | ROLLBACK k err => match s !! k with Some e => <[k := with_status Failed (Some err) e]> s | None => s end
  | REMOVE k => delete k s
  end.

(** Models [apply] (frontend/src/lib/optimistic/useOptimisticState.ts:89-110). *)
Definition apply (now : Z) (k : string) (op : OptimisticOperationType) (new old : T) (tx : option string) (s : entries) : OptimisticEntry T * entries :=
  let e := {| key := k; operation := op; optimisticData := new; previousData := old; status := Pending; createdAt := now; txHash := tx; error := None |} in
  (e, reducer s (APPLY e)).

(** An entry is stored under its own key. *)
Definition keyed (s : entries) : Prop := ∀ k e, s !! k = Some e → key e = k.

Lemma reducer_keyed s a : keyed s → keyed (reducer s a).
Proof.
  intros Hs k e. destruct a as [x|i|i err|i]; cbn [reducer].
  - intros [[<- <-]|[_ H]]%lookup_insert_Some; [done|by apply Hs].
  - destruct (s !! i) as [x|] eqn:E; [|by apply Hs]. intros [[<- <-]|[_ H]]%lookup_insert_Some; [|by apply Hs]. by apply Hs in E.
  - destruct (s !! i) as [x|] eqn:E; [|by apply Hs]. intros [[<- <-]|[_ H]]%lookup_insert_Some; [|by apply Hs]. by apply Hs in E.
  - intros [_ H]%lookup_delete_Some. by apply Hs.
Qed.
End state.
Arguments Action T : clear implicits.

(** ** Polling *)

Definition BASE_MS : Z := 1000.
Definition MAX_MS : Z := 30000.

(** Models [backoffMs] (frontend/src/lib/optimistic/useConfirmationPoller.ts:23-25). *)
Definition backoffMs (attempt : nat) : Z := Z.min (BASE_MS * 2 ^ Z.of_nat attempt) MAX_MS.

(** What a check answers; an aborted one says nothing. *)
Inductive check_result := Yes | NotYet | HardError (msg : string) | AbortedCheck.
Inductive settled := SettledConfirmed (at_ : Z) | SettledRollback (error : string) (at_ : Z) | SettledSilent.

Section poller.
Variable created : Z.
(** Of the n-th check: what it answers and how long it takes; and how much later than
    asked for the timer after it runs. *)
Variable check : nat → check_result.
Variables took late : nat → Z.

(** The ticks from one on; one unit of fuel per tick.
    Models [tick] (frontend/src/lib/optimistic/useConfirmationPoller.ts:77-118). *)
Fixpoint ticks (fuel : nat) (attempt : nat) (now : Z) : option settled :=
  match fuel with
  | O => None
  | S fuel' =>
      if CONFIRMATION_TIMEOUT_MS <=? now - created then
        Some (SettledRollback "Confirmation timed out. Please refresh to see the latest state." now)
      else
        let done_ := now + took attempt in
        match check attempt with
        | Yes => Some (SettledConfirmed done_)
        | HardError msg => Some (SettledRollback msg done_)
        | AbortedCheck => Some SettledSilent
        | NotYet => let attempt := S attempt in ticks fuel' attempt (done_ + backoffMs attempt + late attempt)
        end
  end.

Hypothesis took_nonneg : ∀ n, 0 ≤ took n.
Hypothesis late_nonneg : ∀ n, 0 ≤ late n.

(** The pauses add up: with the pauses of two, four, eight, sixteen and thirty
    seconds behind it, the sixth tick is past the timeout. *)
Lemma next_tick attempt now d :
  created + d ≤ now → created + (d + backoffMs (S attempt)) ≤ now + took attempt + backoffMs (S attempt) + late (S attempt).
Proof. pose proof (took_nonneg attempt). pose proof (late_nonneg (S attempt)). lia. Qed.

Lemma ticks_from n attempt d now :
  created + d ≤ now → CONFIRMATION_TIMEOUT_MS ≤ d + foldr Z.add 0 ((λ i, backoffMs (S i)) <$> seq attempt n) → is_Some (ticks (S n) attempt now).
Proof.
  revert attempt d now. induction n as [|n IH]; intros attempt d now Hd Hsum.
  - cbn [ticks]. cbn in Hsum. destruct (Z.leb_spec CONFIRMATION_TIMEOUT_MS (now - created)); [eauto|lia].
  - remember (S n) as m eqn:Em. cbn [ticks]. destruct (_ <=? _); [eauto|]. destruct (check attempt); eauto.
    subst m. apply (IH (S attempt) (d + backoffMs (S attempt))).
    + by apply next_tick.
    + assert (foldr Z.add 0 ((λ i, backoffMs (S i)) <$> seq attempt (S n)) =
              backoffMs (S attempt) + foldr Z.add 0 ((λ i, backoffMs (S i)) <$> seq (S attempt) n)) as E by done. lia.
Qed.

(** Polling ends.  Whatever the checks answer and however slow they and the timers
    are, an entry is settled by the sixth tick at the latest: at most five checks
    are made. *)
Theorem polling_ends start : created ≤ start → is_Some (ticks 6 0 start).
Proof.
  intros Hs. apply (ticks_from 5 0 0 start); [lia|]. vm_compute. discriminate.
Qed.

(** It ends early only with the indexer's answer: an entry is confirmed only by a
    check that said so, and rolled back only by a failed check or a minute after it
    was made. *)
Theorem polling_sound fuel attempt now r :
  ticks fuel attempt now = Some r →
  match r with
  | SettledConfirmed _ => ∃ n, check n = Yes
  | SettledRollback msg t => (∃ n, check n = HardError msg) ∨ CONFIRMATION_TIMEOUT_MS ≤ t - created
  | SettledSilent => ∃ n, check n = AbortedCheck
  end.
Proof.
  revert attempt now. induction fuel as [|fuel IH]; intros attempt now; [done|]. cbn [ticks].
  destruct (Z.leb_spec CONFIRMATION_TIMEOUT_MS (now - created)) as [Ht|Ht]; [intros [= <-]; by right|].
  destruct (check attempt) eqn:E; [intros [= <-]; eauto|apply IH|intros [= <-]; left; eauto|intros [= <-]; eauto].
Qed.
End poller.

(** ** Claims *)

Record ClaimBoard := { claim_id : string; c_status : string; approve_votes : Z; reject_votes : Z; details : string }.

Abbreviation claim_entries := (gmap string (OptimisticEntry ClaimBoard)).

Definition set_processing (c : ClaimBoard) : ClaimBoard :=
  {| claim_id := claim_id c; c_status := "Processing"; approve_votes := approve_votes c; reject_votes := reject_votes c; details := details c |}.

Inductive VoteOption := Approve | Reject.
Definition count_vote (v : VoteOption) (c : ClaimBoard) : ClaimBoard :=
  {| claim_id := claim_id c; c_status := c_status c;
     approve_votes := match v with Approve => approve_votes c + 1 | Reject => approve_votes c end;
     reject_votes := match v with Reject => reject_votes c + 1 | Approve => reject_votes c end; details := details c |}.

(** Models [applyOptimisticClaim] (frontend/src/features/claims/hooks/useOptimisticClaims.ts:87-94). *)
Definition applyOptimisticClaim (now : Z) (c : ClaimBoard) (tx : option string) (s : claim_entries) : claim_entries :=
  (apply now (claim_id c) claim_filing (set_processing c) c tx s).2.

(** Models [applyOptimisticVote] (frontend/src/features/claims/hooks/useOptimisticClaims.ts:96-107). *)
Definition applyOptimisticVote (now : Z) (c : ClaimBoard) (v : VoteOption) (tx : option string) (s : claim_entries) : claim_entries :=
  (apply now (claim_id c) vote_submission (count_vote v c) c tx s).2.

(** [captured]: the entries of the render in which the callback was made.
    Models [syncWithServer] (frontend/src/features/claims/hooks/useOptimisticClaims.ts:70-85). *)
Definition syncWithServer (captured : claim_entries) (server : list ClaimBoard) : list (Action ClaimBoard) :=
  omap (λ p, match status p.2, List.find (λ c, String.eqb (claim_id c) p.1) server with
             | Pending, Some c => if String.eqb (c_status c) (c_status (optimisticData p.2)) then Some (CONFIRM p.1) else None
             | _, _ => None
             end) (map_to_list captured).

(** The row a claim is shown with. *)
Definition shown (s : claim_entries) (c : ClaimBoard) : ClaimBoard :=
  match s !! claim_id c with
  | None => c
  | Some e => match status e with Confirmed => c | Failed => previousData e | Pending => optimisticData e end
  end.

(** [first]: the entries of the first render, which the memoized [syncWithServer]
    sees.
    Models [mergeWithOptimistic] (frontend/src/features/claims/hooks/useOptimisticClaims.ts:109-120). *)
Definition mergeWithOptimistic (first s : claim_entries) (server : list ClaimBoard) : list ClaimBoard * claim_entries :=
  (shown s <$> server, foldl reducer s (syncWithServer first server)).

(** Models [getOptimisticStatus] (frontend/src/features/claims/hooks/useOptimisticClaims.ts:122-130). *)
Definition getOptimisticStatus (s : claim_entries) (i : string) : option (OptimisticStatus * option string) :=
  (λ e, (status e, error e)) <$> s !! i.

(** What can happen to the entries: everything the hook gives out. *)
Inductive event :=
  | Filed (now : Z) (c : ClaimBoard) (tx : option string)
  | Voted (now : Z) (c : ClaimBoard) (v : VoteOption) (tx : option string)
  | Refreshed (server : list ClaimBoard)
  | RolledBack (k err : string).

(** The entries of the first render are empty. *)
Definition happen (s : claim_entries) (e : event) : claim_entries :=
  match e with
  | Filed now c tx => applyOptimisticClaim now c tx s
  | Voted now c v tx => applyOptimisticVote now c v tx s
  | Refreshed server => (mergeWithOptimistic ∅ s server).2
  | RolledBack k err => reducer s (ROLLBACK k err)
  end.

Definition about (k : string) (e : event) : Prop :=
  match e with Filed _ c _ => claim_id c = k | Voted _ c _ _ => claim_id c = k | RolledBack i _ => i = k | Refreshed _ => False end.

Lemma refreshed_same s server : happen s (Refreshed server) = s.
Proof. cbn. unfold syncWithServer. by rewrite map_to_list_empty. Qed.

Lemma happen_other s e k : ¬ about k e → happen s e !! k = s !! k.
Proof.
  destruct e as [now c tx|now c v tx|server|i err]; [| |by rewrite refreshed_same|]; cbn; intros Hk.
  - by rewrite lookup_insert_ne.
  - by rewrite lookup_insert_ne.
  - destruct (s !! i) eqn:E; [|done]. by rewrite lookup_insert_ne.
Qed.

(** No entry is ever confirmed.  Whatever events there are, from the start of the
    page no entry becomes confirmed: the callback that would do it sees the entries
    of the first render, of which there are none. *)
Theorem never_confirmed events k e : foldl happen ∅ events !! k = Some e → status e ≠ Confirmed.
Proof.
  induction events as [|ev events IH] using rev_ind; [cbn [foldl]; by rewrite lookup_empty|]. rewrite foldl_app. cbn [foldl].
  set (s := foldl happen ∅ events) in *. destruct ev as [now c tx|now c v tx|server|i err].
  - cbn. intros [[<- <-]|[_ H]]%lookup_insert_Some; [done|by apply IH].
  - cbn. intros [[<- <-]|[_ H]]%lookup_insert_Some; [done|by apply IH].
  - rewrite refreshed_same. apply IH.
  - cbn. destruct (s !! i) as [x|] eqn:E; [|by apply IH]. intros [[<- <-]|[_ H]]%lookup_insert_Some; [done|by apply IH].
Qed.

(** An entry hides the server.  After a vote, and as long as nothing else is done
    with the claim, the page goes on showing the row made at the time of the vote,
    whatever the server says later; after a rollback it goes on showing the row from
    before. *)
Theorem entry_hides_server events1 events2 now c v tx row :
  Forall (λ e, ¬ about (claim_id c) e) events2 → claim_id row = claim_id c →
  let s := foldl happen (applyOptimisticVote now c v tx (foldl happen ∅ events1)) events2 in
  shown s row = count_vote v c ∧ ∀ err, shown (happen s (RolledBack (claim_id c) err)) row = c.
Proof.
  intros Hall Hrow s.
  assert (s !! claim_id c = Some {| key := claim_id c; operation := vote_submission; optimisticData := count_vote v c; previousData := c;
                                    status := Pending; createdAt := now; txHash := tx; error := None |}) as Hs.
  { unfold s. generalize (foldl happen ∅ events1). intros s0. induction events2 as [|e events2 IH] using rev_ind.
    - cbn. by rewrite lookup_insert_eq.
    - apply Forall_app in Hall as [Hall He]. rewrite Forall_singleton in He. rewrite foldl_app. cbn [foldl]. by rewrite happen_other, IH. }
  split.
  - unfold shown. by rewrite Hrow, Hs.
  - intros err. unfold shown. cbn [happen reducer]. rewrite Hs, Hrow, lookup_insert_eq. done.
Qed.

(** ** At concrete inputs *)

Module OptimisticWitnesses.

Definition claim (n : Z) : ClaimBoard := {| claim_id := "7"; c_status := "Processing"; approve_votes := n; reject_votes := 0; details := "" |}.

(** Checks that never answer yes, and timers that run on time. *)
Lemma polling_ends_witness : is_Some (ticks 1000 (λ _, NotYet) (λ _, 0) (λ _, 0) 6 0 1000).
Proof. apply (polling_ends 1000 (λ _, NotYet) (λ _, 0) (λ _, 0)); intros; lia. Defined.

Lemma polling_sound_witness : ∃ n : nat, (if decide (n = 2%nat) then Yes else NotYet : check_result) = Yes.
Proof.
  refine (polling_sound 0 (λ n : nat, if decide (n = 2%nat) then Yes else NotYet) (λ _, 5) (λ _, 0) 6 0 0 (SettledConfirmed 6015) _).
  vm_compute. reflexivity.
Defined.

Lemma never_confirmed_witness :
  ∃ e, foldl happen ∅ [Voted 0 (claim 1) Approve None; Refreshed [claim 2]] !! "7" = Some e ∧ status e ≠ Confirmed.
Proof.
  eexists. split; [vm_compute; reflexivity|].
  refine (never_confirmed [Voted 0 (claim 1) Approve None; Refreshed [claim 2]] "7" _ _). vm_compute. reflexivity.
Defined.

(** Five votes later the page still says two. *)
Lemma entry_hides_server_witness :
  approve_votes (shown (foldl happen (applyOptimisticVote 0 (claim 1) Approve None ∅) [Refreshed [claim 5]; Refreshed [claim 6]]) (claim 6)) = 2.
Proof.
  destruct (entry_hides_server [] [Refreshed [claim 5]; Refreshed [claim 6]] 0 (claim 1) Approve None (claim 6)) as [H _]; [|done|].
  - repeat constructor; intros [].
  - cbn [foldl] in H. cbn [foldl]. rewrite H. reflexivity.
Defined.
End OptimisticWitnesses.
