(* ===== verification/CommitReveal.v ===== *)
(** * Commit-reveal voting, from the page to the contract

    frontend/src/components/CommitRevealVote.tsx: the panel that commits to a vote,
    keeps its salt and reveals it; frontend/src/lib/commitRevealStorage.ts: the
    library with its own encoding; and contracts/niffyinsure/src/commit_reveal.rs:
    what the contract compares with.  SHA-256 is a parameter without collisions, the
    XDR form of an address a parameter too; texts are ASCII. *)

From stdpp Require Import base gmap list strings.
From Stdlib Require Import ZArith Lia Ascii.
From S2P Require Import Prelude JsText Redis Ssrf.

Open Scope string_scope.
Open Scope Z_scope.

(** ** Bytes and hexadecimal texts *)

Definition is_byte (b : Z) : Prop := 0 ≤ b < 256.

(** [b.toString(16).padStart(2, '0')] *)
Definition hex2 (b : Z) : string := String (hex_digit (b / 16)) (String (hex_digit (b mod 16)) "").

(** Models [bytesToHex] (frontend/src/lib/commitRevealStorage.ts:38-44). *)
Definition bytesToHex (bs : list Z) : string := foldr (λ b s, hex2 b +:+ s) "" bs.

Fixpoint hex_prefix (acc : Z) (s : string) : Z :=
  match s with
  | String c s' => if is_hex c then hex_prefix (acc * 16 + hex_val c) s' else acc
  | "" => acc
  end.

(** [parseInt(s, 16)] *)
Definition parseInt16 (s : string) : option Z :=
  let t := trimStart s in
  let '(sign, t) := match t with String "-" r => (-1, r) | String "+" r => (1, r) | _ => (1, t) end in
  let t := if startsWith t "0x" || startsWith t "0X" then str_drop 2 t else t in
  match t with String c _ => if is_hex c then Some (sign * hex_prefix 0 t) else None | "" => None end.

(** Two characters a byte; a Uint8Array keeps a number modulo 256, and NaN as 0. *)
Fixpoint byte_pairs (s : string) : list Z :=
  match s with
  | String a (String b s') => (default 0 (parseInt16 (String a (String b ""))) mod 256) :: byte_pairs s'
  | _ => []
  end.

Definition strip_0x (s : string) : string := if startsWith s "0x" then str_drop 2 s else s.

(** Models [hexToBytes] (frontend/src/lib/commitRevealStorage.ts:46-56). *)
Definition hexToBytes (hex : string) : result string (list Z) :=
  let clean := strip_0x hex in
  if Nat.even (String.length clean) then Ok (byte_pairs clean) else Throw "Invalid hex string".

Definition hex2_ok (b : Z) : bool :=
  match hex2 b with
  | String c (String d "") => bool_decide (parseInt16 (String c (String d "")) = Some b) && negb (bool_decide (d = "x"%char))
  | _ => false
  end.
Lemma hex2_all : Forall (λ b, hex2_ok b = true) octets.
Proof. apply (bool_decide_unpack _). vm_compute. done. Qed.

Lemma hex2_spec b : is_byte b → parseInt16 (hex2 b) = Some b ∧ hex_digit (b mod 16) ≠ "x"%char.
Proof.
  intros Hb. pose proof hex2_all as Hall. rewrite Forall_forall in Hall. specialize (Hall b (octets_spec b Hb)).
  unfold hex2_ok, hex2 in *. apply andb_prop in Hall as [H1 H2]. apply bool_decide_eq_true in H1.
  apply negb_true_iff, bool_decide_eq_false in H2. done.
Qed.

Lemma byte_pairs_hex bs : Forall is_byte bs → byte_pairs (bytesToHex bs) = bs.
Proof.
  induction 1 as [|b bs Hb _ IH]; [done|]. cbn [bytesToHex foldr]. fold (bytesToHex bs). destruct (hex2_spec b Hb) as [Hp _].
  unfold hex2 in *. change (String ?x (String ?y "") +:+ ?s) with (String x (String y s)). cbn [byte_pairs]. rewrite Hp, IH. cbn [default].
  unfold default, id. rewrite Z.mod_small; [done|exact Hb].
Qed.

Lemma bytesToHex_even bs : Nat.even (String.length (bytesToHex bs)) = true.
Proof. induction bs as [|b bs IH]; [done|]. exact IH. Qed.

Lemma bytesToHex_plain bs : Forall is_byte bs → strip_0x (bytesToHex bs) = bytesToHex bs.
Proof.
  intros Hb. unfold strip_0x. destruct Hb as [|b bs Hb _]; [done|]. destruct (hex2_spec b Hb) as [_ Hx].
  cbn [bytesToHex foldr]. fold (bytesToHex bs). unfold hex2, startsWith.
  change (String ?x (String ?y "") +:+ ?s) with (String x (String y s)). cbn [String.prefix].
  destruct (ascii_dec "0" (hex_digit (b / 16))); [|done]. destruct (ascii_dec "x" (hex_digit (b mod 16))) as [E|]; [|done]. by destruct Hx.
Qed.

(** Bytes survive the hexadecimal text, with or without "0x". *)
Theorem hex_roundtrip bs : Forall is_byte bs → hexToBytes (bytesToHex bs) = Ok bs ∧ hexToBytes ("0x" +:+ bytesToHex bs) = Ok bs.
Proof.
  intros Hb. unfold hexToBytes. rewrite bytesToHex_plain by done.
  assert (strip_0x ("0x" +:+ bytesToHex bs) = bytesToHex bs) as -> by (unfold strip_0x; rewrite startsWith_app; apply (str_drop_app "0x")).
  by rewrite bytesToHex_even, byte_pairs_hex.
Qed.

Lemma bytesToHex_inj a b : Forall is_byte a → Forall is_byte b → bytesToHex a = bytesToHex b → a = b.
Proof. intros Ha Hb E. rewrite <- (byte_pairs_hex a Ha), <- (byte_pairs_hex b Hb). by rewrite E. Qed.

(** [new TextEncoder().encode(s)] *)
Definition utf8 (s : string) : list Z := code <$> String.list_ascii_of_string s.

(** ** The contract *)

Module Contract.

Inductive VoteOption := Approve | Reject.
Inductive Error :=
  CommitRevealNotSet | CommitPhaseEnded | DuplicateVote | RevealPhaseNotOpen | RevealPhaseEnded | CommitmentNotFound | CommitmentMismatch | ClaimNotFound.

Record CommitRevealPhases := { commit_phase_end_ledger : Z; reveal_phase_end_ledger : Z }.
Record storage := Storage {
  phases : gmap Z CommitRevealPhases; commitments : gmap (Z * string) (list Z); ballots : gmap (Z * string) VoteOption; tallies : gmap Z (Z * Z) }.

Definition MAX_U32 : Z := 4294967295.
(** [saturating_add(1)] *)
Definition bump (n : Z) : Z := Z.min (n + 1) MAX_U32.

Section contract.
Variable sha256 : list Z → list Z.
Variable to_xdr : string → list Z.

(** An error leaves the storage as it was; the voter has signed.
    Models [commit_vote] (contracts/niffyinsure/src/commit_reveal.rs:106-136). *)
Definition commit_vote (now : Z) (voter : string) (claim_id : Z) (commitment : list Z) (s : storage) : result Error () * storage :=
  match phases s !! claim_id with
  | None => (Throw CommitRevealNotSet, s)
  | Some p =>
      if commit_phase_end_ledger p <? now then (Throw CommitPhaseEnded, s)
      else match commitments s !! (claim_id, voter) with
           | Some _ => (Throw DuplicateVote, s)
           | None => (Ok tt, Storage (phases s) (<[(claim_id, voter) := commitment]> (commitments s)) (ballots s) (tallies s))
           end
  end.

Definition preimage (v : VoteOption) (salt : list Z) (voter : string) : list Z :=
  ((match v with Approve => 0 | Reject => 1 end) :: salt ++ to_xdr voter)%list.

(** Models [reveal_vote] (contracts/niffyinsure/src/commit_reveal.rs:157-229). *)
Definition reveal_vote (now : Z) (voter : string) (claim_id : Z) (vote : VoteOption) (salt : list Z) (s : storage) : result Error () * storage :=
  match phases s !! claim_id with
  | None => (Throw CommitRevealNotSet, s)
  | Some p =>
      if now <=? commit_phase_end_ledger p then (Throw RevealPhaseNotOpen, s)
      else if reveal_phase_end_ledger p <? now then (Throw RevealPhaseEnded, s)
      else match commitments s !! (claim_id, voter) with
           | None => (Throw CommitmentNotFound, s)
           | Some stored =>
               match ballots s !! (claim_id, voter) with
               | Some _ => (Throw DuplicateVote, s)
               | None =>
                   if bool_decide (sha256 (preimage vote salt voter) = stored) then
                     match tallies s !! claim_id with
                     | None => (Throw ClaimNotFound, s)
                     | Some (a, r) =>
                         (Ok tt, Storage (phases s) (commitments s) (<[(claim_id, voter) := vote]> (ballots s))
                            (<[claim_id := match vote with Approve => (bump a, r) | Reject => (a, bump r) end]> (tallies s)))
                     end
                   else (Throw CommitmentMismatch, s)
               end
           end
  end.

(** C17: A reveal counts once.  It is accepted only in its phase, from a voter without a ballot whose
    commitment is the digest of this vote, this salt and the voter; the vote revealed is the ballot stored and
    the one counted, every other ballot, tally, commitment and phase stays as it is, and a second reveal by the
    same voter is refused.  The documentation of the contract leaves the voter out of the digest: it gives the
    commitment as SHA-256(vote_byte || salt), and a commitment made that way is not accepted. *)
Theorem reveal_counts_once now voter c v salt s s' :
  reveal_vote now voter c v salt s = (Ok tt, s') →
  (∃ p, phases s !! c = Some p ∧ commit_phase_end_ledger p < now ≤ reveal_phase_end_ledger p) ∧
  commitments s !! (c, voter) = Some (sha256 (preimage v salt voter)) ∧
  ballots s !! (c, voter) = None ∧ ballots s' = <[(c, voter) := v]> (ballots s) ∧
  (∃ a r, tallies s !! c = Some (a, r) ∧
     tallies s' = <[c := match v with Approve => (bump a, r) | Reject => (a, bump r) end]> (tallies s)) ∧
  commitments s' = commitments s ∧ phases s' = phases s ∧
  ∀ v' salt', (reveal_vote now voter c v' salt' s').1 = Throw DuplicateVote.
Proof.
  unfold reveal_vote. destruct (phases s !! c) as [p|] eqn:Hp; [|done]. destruct (Z.leb_spec now (commit_phase_end_ledger p)); [done|].
  destruct (Z.ltb_spec (reveal_phase_end_ledger p) now); [done|]. destruct (commitments s !! (c, voter)) as [stored|] eqn:Hc; [|done].
  destruct (ballots s !! (c, voter)) as [b|] eqn:Hb; [done|]. destruct (bool_decide_reflect (sha256 (preimage v salt voter) = stored)) as [<-|]; [|done].
  destruct (tallies s !! c) as [[a r]|] eqn:Ht; [|done]. intros [= <-]. cbn [phases commitments ballots tallies]. split_and!.
  - exists p. split; [done|lia].
  - done.
  - done.
  - done.
  - by exists a, r.
  - done.
  - done.
  - intros v' salt'. rewrite Hp. destruct (Z.leb_spec now (commit_phase_end_ledger p)); [lia|].
    destruct (Z.ltb_spec (reveal_phase_end_ledger p) now); [lia|]. rewrite Hc, lookup_insert_eq. done.
Qed.
End contract.
End Contract.

(** ** The panel *)

Record StoredCommitment := {
  claimId : string; voter : string; vote : bool; salt : string; commitment : string; createdAt : Z; revealed : bool }.

(** The database of the browser, by claim, and what the panel holds. *)
Abbreviation idb := (rworld (gmap string StoredCommitment)).
Record panel := Panel { choice : option bool; stored : option StoredCommitment; error : option string; store : idb }.

Inductive Phase := commit | committed | reveal | revealed_ | expired.

Section panel.
Variable sha256 : list Z → list Z.
Variables claim_ voter_ : string.

Definition panel_preimage (v : bool) (salt : string) : string := (if v then "1" else "0") +:+ salt +:+ claim_ +:+ voter_.

(** Models [computeCommitment] (frontend/src/components/CommitRevealVote.tsx:118-128). *)
Definition computeCommitment (v : bool) (salt : string) : string := "0x" +:+ bytesToHex (sha256 (utf8 (panel_preimage v salt))).

(** Models [saveCommitment] (frontend/src/components/CommitRevealVote.tsx:81-90). *)
Definition saveCommitment (r : StoredCommitment) (w : idb) : result string () * idb := update (λ m, <[claimId r := r]> m) w.

Definition record_of (now : Z) (v : bool) (random : list Z) : StoredCommitment :=
  let s := bytesToHex random in
  {| claimId := claim_; voter := voter_; vote := v; salt := s; commitment := computeCommitment v s; createdAt := now; revealed := false |}.

(** [random]: the bytes drawn for the salt; [onCommit]: how the page submits.
    Models [handleCommit] (frontend/src/components/CommitRevealVote.tsx:253-279). *)
Definition handleCommit (now : Z) (random : list Z) (onCommit : string → result string ()) (p : panel) : panel :=
  match choice p with
  | None => p
  | Some v =>
      let record := record_of now v random in
      match saveCommitment record (store p) with
      | (Throw e, w) => Panel (choice p) (stored p) (Some e) w
      | (Ok _, w) => Panel (choice p) (Some record) (match onCommit (commitment record) with Throw e => Some e | Ok _ => None end) w
      end
  end.

Definition mark_revealed (r : StoredCommitment) : StoredCommitment :=
  {| claimId := claimId r; voter := voter r; vote := vote r; salt := salt r; commitment := commitment r; createdAt := createdAt r; revealed := true |}.

(** Models [handleReveal] (frontend/src/components/CommitRevealVote.tsx:283-299). *)
Definition handleReveal (inRevealWindow : bool) (onReveal : bool → string → result string ()) (p : panel) : panel :=
  match stored p with
  | Some r =>
      if inRevealWindow then
        match onReveal (vote r) (salt r) with
        | Throw e => Panel (choice p) (stored p) (Some e) (store p)
        | Ok _ =>
            match saveCommitment (mark_revealed r) (store p) with
            | (Throw e, w) => Panel (choice p) (stored p) (Some e) w
            | (Ok _, w) => Panel (choice p) (Some (mark_revealed r)) None w
            end
        end
      else p
  | None => p
  end.

(** The fields of a backup file; those that are missing, or of another type in the
    case of the vote, are [None]. *)
Record Backup := {
  k_claimId : option string; k_voter : option string; k_vote : option bool; k_salt : option string; k_commitment : option string; k_createdAt : option Z }.

(** Models [downloadBackup] (frontend/src/components/CommitRevealVote.tsx:132-152). *)
Definition downloadBackup (r : StoredCommitment) : Backup :=
  {| k_claimId := Some (claimId r); k_voter := Some (voter r); k_vote := Some (vote r); k_salt := Some (salt r);
     k_commitment := Some (commitment r); k_createdAt := Some (createdAt r) |}.

(** Models [handleImportBackup] (frontend/src/components/CommitRevealVote.tsx:303-336). *)
Definition handleImportBackup (now : Z) (file : result string Backup) (p : panel) : panel :=
  match file with
  | Throw e => Panel (choice p) (stored p) (Some e) (store p)
  | Ok b =>
      if negb (bool_decide (k_claimId b = Some claim_)) then
        Panel (choice p) (stored p) (Some "Backup file does not match this claim") (store p)
      else
        let record := {| claimId := claim_; voter := default voter_ (k_voter b); vote := default false (k_vote b); salt := default "" (k_salt b);
                         commitment := default "" (k_commitment b); createdAt := default now (k_createdAt b); revealed := false |} in
        if bool_decide (salt record = "") || bool_decide (commitment record = "") then
          Panel (choice p) (stored p) (Some "Backup file is missing salt or commitment fields") (store p)
        else
          match saveCommitment record (store p) with
          | (Throw e, w) => Panel (choice p) (stored p) (Some e) w
          | (Ok _, w) => Panel (choice p) (Some record) None w
          end
  end.

(** Whether the form for committing is shown. *)
Definition isCommitPhase (phase : Phase) (p : panel) : bool :=
  match phase, stored p with commit, None => true | _, _ => false end.

(** A commit that fails on the way to the chain cannot be repeated.  The record is
    stored before the transaction is sent, and a panel with a record no longer shows
    the form: the voter sees an error and a vote that counts as committed. *)
Theorem failed_commit_not_repeatable now random onCommit v p m err phase :
  choice p = Some v → store p = healthy m → onCommit (commitment (record_of now v random)) = Throw err →
  let p' := handleCommit now random onCommit p in
  error p' = Some err ∧ stored p' = Some (record_of now v random) ∧ isCommitPhase phase p' = false.
Proof.
  intros Hc Hm He. cbv zeta. unfold handleCommit, saveCommitment. rewrite Hc, Hm, update_healthy. cbn [stored error]. rewrite He.
  split_and!; [done|done|]. unfold isCommitPhase. cbn [stored]. by destruct phase.
Qed.

(** A backup restores the vote.  From the file a panel wrote for this claim, any
    panel of the claim gets back the record with its salt, marked as not revealed;
    revealing then hands over the same vote and salt. *)
Theorem backup_restores now r p m :
  claimId r = claim_ → salt r ≠ "" → commitment r ≠ "" → store p = healthy m →
  let p' := handleImportBackup now (Ok (downloadBackup r)) p in
  stored p' = Some {| claimId := claimId r; voter := voter r; vote := vote r; salt := salt r; commitment := commitment r;
                      createdAt := createdAt r; revealed := false |} ∧
  error p' = None ∧
  ∀ onReveal, onReveal (vote r) (salt r) = Ok tt → revealed <$> stored (handleReveal true onReveal p') = Some true.
Proof.
  intros Hc Hs Hk Hm. cbv zeta. unfold handleImportBackup. cbn [downloadBackup k_claimId k_voter k_vote k_salt k_commitment k_createdAt default].
  rewrite Hc, bool_decide_true by done. cbn [negb salt commitment]. unfold default, id. rewrite !bool_decide_false by done. cbn [orb].
  unfold saveCommitment. rewrite Hm, update_healthy. cbn [stored error store]. split_and!; [done|done|].
  intros onReveal Ho. unfold handleReveal. cbn [stored vote salt store]. rewrite Ho. unfold saveCommitment. by rewrite update_healthy.
Qed.
End panel.

(** ** The panel against the contract *)

Section mismatch.
Variable sha256 : list Z → list Z.
Variable to_xdr : string → list Z.
Hypothesis sha_bytes : ∀ m, Forall is_byte (sha256 m).
Hypothesis sha_collision_free : ∀ a b, sha256 a = sha256 b → a = b.

(** The panel hashes a text that begins with the character of the vote, the contract
    a list of bytes that begins with the number of the vote. *)
Lemma preimages_differ c voter v salt v' salt' :
  utf8 (panel_preimage c voter v salt) ≠ Contract.preimage to_xdr v' salt' voter.
Proof. unfold panel_preimage, utf8, Contract.preimage. destruct v, v'; cbn; discriminate. Qed.

(** No vote committed in the panel can be revealed.  Whatever the voter chose and
    whatever vote and salt are sent to reveal it, the contract refuses: the
    commitment of the panel is never the hash the contract computes. *)
Theorem panel_votes_never_revealed c voter v salt now ledger claim_id s s1 vote' salt' :
  hexToBytes (computeCommitment sha256 c voter v salt) = Ok (sha256 (utf8 (panel_preimage c voter v salt))) ∧
  (Contract.commit_vote now voter claim_id (sha256 (utf8 (panel_preimage c voter v salt))) s = (Ok tt, s1) →
   is_ok (Contract.reveal_vote sha256 to_xdr ledger voter claim_id vote' salt' s1).1 = false).
Proof.
  split; [unfold computeCommitment; apply hex_roundtrip, sha_bytes|]. unfold Contract.commit_vote.
  destruct (Contract.phases s !! claim_id) as [p|] eqn:Hp; [|done]. destruct (_ <? now); [done|].
  destruct (Contract.commitments s !! (claim_id, voter)) eqn:Hc; [done|]. intros [= <-]. unfold Contract.reveal_vote. cbn [Contract.phases Contract.commitments Contract.ballots].
  rewrite Hp. destruct (_ <=? _); [done|]. destruct (_ <? ledger); [done|]. rewrite lookup_insert_eq.
  destruct (Contract.ballots s !! (claim_id, voter)); [done|]. rewrite bool_decide_false; [done|].
  intros E%sha_collision_free. symmetry in E. by apply preimages_differ in E.
Qed.
End mismatch.

(** ** The library *)

Module Library.

Section library.
Variable sha256 : list Z → list Z.

(** The number is right-aligned in 32 bytes; a longer one loses its front.
    Models [claimIdToBytes] (frontend/src/lib/commitRevealStorage.ts:58-65). *)
Definition claimIdToBytes (claimId : string) : result string (list Z) :=
  let! raw := hexToBytes (strip_0x claimId) in
  let tail := drop (length raw - 32) raw in
  Ok (replicate (32 - length tail) 0 ++ tail)%list.

(** Models [computeCommitment] (frontend/src/lib/commitRevealStorage.ts:72-86). *)
Definition library_computeCommitment (claimId : string) (vote : bool) (salt : string) : result string string :=
  let! claimBytes := claimIdToBytes claimId in
  let! saltBytes := hexToBytes salt in
  Ok ("0x" +:+ bytesToHex (sha256 (claimBytes ++ (if vote then 1 else 0) :: saltBytes)%list)).

Hypothesis sha_bytes : ∀ m, Forall is_byte (sha256 m).
Hypothesis sha_collision_free : ∀ a b, sha256 a = sha256 b → a = b.

Lemma claim_word_length i bs : claimIdToBytes i = Ok bs → length bs = 32%nat.
Proof.
  unfold claimIdToBytes. intros (raw & _ & [= <-])%rbind_ok_inv. rewrite length_app, length_replicate, length_drop. lia.
Qed.

(** A commitment binds.  Two openings of one commitment have the same claim word, the
    same vote and the same salt. *)
Theorem commitment_binds c1 v1 s1 c2 v2 s2 k :
  library_computeCommitment c1 v1 s1 = Ok k → library_computeCommitment c2 v2 s2 = Ok k →
  claimIdToBytes c1 = claimIdToBytes c2 ∧ v1 = v2 ∧ hexToBytes s1 = hexToBytes s2.
Proof.
  unfold library_computeCommitment. intros (w1 & Hw1 & H1)%rbind_ok_inv (w2 & Hw2 & H2)%rbind_ok_inv.
  apply rbind_ok_inv in H1 as (b1 & Hb1 & [= <-]), H2 as (b2 & Hb2 & H2). injection H2 as H2.
  apply bytesToHex_inj in H2; [|done|done]. apply sha_collision_free in H2.
  apply app_inj_1 in H2 as [-> H2]; [|by rewrite (claim_word_length _ _ Hw1), (claim_word_length _ _ Hw2)].
  injection H2 as Hv ->. split_and!; [congruence|by destruct v1, v2|congruence].
Qed.

(** A claim number is read as hexadecimal.  With an odd number of digits it is
    refused, so no vote on such a claim can be committed; with an even number it
    stands for another claim. *)
Theorem odd_claim_refused c v s :
  startsWith c "0x" = false → Nat.even (String.length c) = false → library_computeCommitment c v s = Throw "Invalid hex string".
Proof.
  intros H0 Ho. unfold library_computeCommitment, claimIdToBytes, hexToBytes. assert (strip_0x c = c) as Hs by (unfold strip_0x; by rewrite H0).
  by rewrite !Hs, Ho.
Qed.
Example claim_10_is_claim_16 : claimIdToBytes "10" = Ok (replicate 31 0 ++ [16])%list.
Proof. vm_compute. reflexivity. Qed.
End library.
End Library.

(** ** At concrete inputs *)

Module CommitRevealWitnesses.
Import Contract.

(** A stand-in for the digest without collisions: the bytes themselves, modulo 256
    only in form. *)
Definition digest (m : list Z) : list Z := (λ b, b mod 256) <$> m.

Definition chain0 : storage := Storage {[5 := {| commit_phase_end_ledger := 10; reveal_phase_end_ledger := 20 |}]} ∅ ∅ {[5 := (3, 1)]}.
Definition xdr (s : string) : list Z := utf8 s.

Lemma hex_roundtrip_witness : hexToBytes (bytesToHex [0; 10; 255]) = Ok [0; 10; 255] ∧ hexToBytes ("0x" +:+ bytesToHex [0; 10; 255]) = Ok [0; 10; 255].
Proof. apply hex_roundtrip. repeat constructor; lia. Defined.

Definition chain1 : storage := (commit_vote 9 "GA" 5 (digest (preimage xdr Reject [7; 8] "GA")) chain0).2.

Lemma reveal_counts_once_witness :
  let r := reveal_vote digest xdr 15 "GA" 5 Reject [7; 8] chain1 in
  r.1 = Ok tt ∧ tallies r.2 !! 5 = Some (3, 2) ∧ (reveal_vote digest xdr 15 "GA" 5 Approve [7; 8] r.2).1 = Throw DuplicateVote.
Proof.
  cbv zeta. split; [vm_compute; reflexivity|]. split; [vm_compute; reflexivity|].
  destruct (reveal_counts_once digest xdr 15 "GA" 5 Reject [7; 8] chain1 (reveal_vote digest xdr 15 "GA" 5 Reject [7; 8] chain1).2)
    as (_ & _ & _ & _ & _ & _ & _ & Hagain); [vm_compute; reflexivity|]. apply Hagain.
Defined.

(** A commitment made as documented, without the voter, cannot be revealed. *)
Example documented_commitment_refused :
  (reveal_vote digest xdr 15 "GA" 5 Reject [7; 8] (commit_vote 9 "GA" 5 (digest [1; 7; 8]) chain0).2).1 = Throw CommitmentMismatch.
Proof. vm_compute. reflexivity. Qed.

Definition panel0 : panel := Panel (Some true) None None (healthy ∅).

Lemma failed_commit_not_repeatable_witness :
  let p := handleCommit digest "5" "GA" 0 [1; 2] (λ _, Throw "User declined") panel0 in
  error p = Some "User declined" ∧ isCommitPhase commit p = false.
Proof.
  destruct (failed_commit_not_repeatable digest "5" "GA" 0 [1; 2] (λ _, Throw "User declined") true panel0 ∅ "User declined" commit
    eq_refl eq_refl eq_refl) as (H1 & _ & H2). split; [exact H1|exact H2].
Defined.

Lemma backup_restores_witness :
  let r := record_of digest "5" "GA" 0 true [1; 2] in
  salt <$> stored (handleImportBackup "5" "GA" 9 (Ok (downloadBackup r)) (Panel None None None (healthy ∅))) = Some "0102".
Proof.
  cbv zeta. destruct (backup_restores "5" "GA" 9 (record_of digest "5" "GA" 0 true [1; 2]) (Panel None None None (healthy ∅)) ∅) as (H & _).
  - reflexivity.
  - vm_compute. discriminate.
  - vm_compute. discriminate.
  - reflexivity.
  - rewrite H. reflexivity.
Defined.

(** A digest without collisions: its length gives the argument away. *)
Definition long_digest (m : list Z) : list Z := replicate (Pos.to_nat (encode m)) 1.
Lemma long_digest_bytes m : Forall is_byte (long_digest m).
Proof. unfold long_digest. apply Forall_replicate. unfold is_byte. lia. Qed.
Lemma long_digest_inj a b : long_digest a = long_digest b → a = b.
Proof.
  intros E. apply (f_equal length) in E. unfold long_digest in E. rewrite !length_replicate in E. apply Pos2Nat.inj in E. by apply (inj encode).
Qed.

Definition committed_text : list Z := long_digest (utf8 (panel_preimage "5" "GA" true "0102")).
Definition chain2 : storage := (commit_vote 9 "GA" 5 committed_text chain0).2.

Lemma panel_votes_never_revealed_witness : is_ok (reveal_vote long_digest xdr 15 "GA" 5 Approve [1; 2] chain2).1 = false.
Proof.
  apply (panel_votes_never_revealed long_digest xdr long_digest_bytes long_digest_inj "5" "GA" true "0102" 9 15 5 chain0 chain2 Approve [1; 2]).
  reflexivity.
Defined.

Lemma commitment_binds_witness :
  ∃ k, Library.library_computeCommitment long_digest "10" true "0102" = Ok k ∧ Library.claimIdToBytes "10" = Library.claimIdToBytes "0x10".
Proof.
  eexists. split; [reflexivity|].
  apply (Library.commitment_binds long_digest long_digest_bytes long_digest_inj "10" true "0102" "0x10" true "0102" _ eq_refl eq_refl).
Defined.

Lemma odd_claim_refused_witness : Library.library_computeCommitment digest "7" true "0102" = Throw "Invalid hex string".
Proof. apply (Library.odd_claim_refused digest "7" true "0102"); reflexivity. Defined.
End CommitRevealWitnesses.
