(* ===== verification/Feeds.v ===== *)
(** * Public feeds

    backend/src/feeds/feeds.service.ts and feeds.controller.ts: the activity
    feed of an address with its keyset cursor, and the feed of finalized claims as
    Atom and as JSON.  The order in which the database returns rows that compare
    equal is its own: the two sorted queries are variables of the sections. *)

From stdpp Require Import base gmap list strings sorting.
From Stdlib Require Import ZArith Lia Ascii Sorted.
From S2P Require Import Prelude Keyset JsText JsNumber Codec Redis.

Open Scope string_scope.
Open Scope Z_scope.

(** ** Rows *)

Record RawEvent := {
  e_id : Z; txHash : string; eventIndex : Z; contractId : string; ledger : Z; ledgerClosedAt : Z;
  topic1 : option string; topic2 : option string; topic3 : option string; topic4 : option string; data : string }.

Inductive ClaimStatus := PENDING | APPROVED | PAID | REJECTED | UNDER_APPEAL | APPEAL_APPROVED | APPEAL_REJECTED.

Definition status_text (s : ClaimStatus) : string :=
  match s with
  | PENDING => "PENDING" | APPROVED => "APPROVED" | PAID => "PAID" | REJECTED => "REJECTED"
  | UNDER_APPEAL => "UNDER_APPEAL" | APPEAL_APPROVED => "APPEAL_APPROVED" | APPEAL_REJECTED => "APPEAL_REJECTED"
  end.

Record ClaimRow := {
  id : Z; policyId : string; creatorAddress : string; amount : string; asset : option string;
  description : option string; status : ClaimStatus; updatedAt : Z; isFinalized : bool; deletedAt : option Z }.

Record store := Store { events : list RawEvent; claims : list ClaimRow }.

(** The database, and the copy of the Atom feed the service keeps in memory. *)
Record world := World { db : rworld store; claimsAtomFeedCache : option string }.

Abbreviation MF A := (M world string A).
Definition ask {A} (q : store → A) : MF A := λ w, let '(r, d) := query q (db w) in (r, World d (claimsAtomFeedCache w)).

(** ** The activity feed *)

(** Models [encodeActivityCursor] (backend/src/feeds/feeds.service.ts:45-47). *)
Definition encodeActivityCursor (l i : Z) : string := toBase64Url (show_Z l +:+ ":" +:+ show_Z i).

Definition integer (s : string) : option Z :=
  match Number s with Some x => if d_isInteger x then Some (d_floor x) else None | None => None end.

(** Models [decodeActivityCursor] (backend/src/feeds/feeds.service.ts:49-55). *)
Definition decodeActivityCursor (cursor : string) : result string (Z * Z) :=
  match split ":" (fromBase64Url cursor) with
  | l :: i :: _ => match integer l, integer i with Some l, Some i => Ok (l, i) | _, _ => Throw "Invalid cursor" end
  | _ => Throw "Invalid cursor"
  end.

Record ActivityFeedItemDto := {
  i_id : Z; i_txHash : string; i_eventIndex : Z; i_contractId : string; i_ledger : Z; i_ledgerClosedAt : string;
  i_topics : list string; i_data : string }.

Definition topics (e : RawEvent) : list (option string) := [topic1 e; topic2 e; topic3 e; topic4 e].
Definition about (address : string) (e : RawEvent) : bool := existsb (λ t, bool_decide (t = Some address)) (topics e).
Definition after_cursor (k : option (Z * Z)) (e : RawEvent) : bool :=
  match k with Some k => (ledger e <? k.1) || ((ledger e =? k.1) && (eventIndex e <? k.2)) | None => true end.

Definition activity_item (e : RawEvent) : ActivityFeedItemDto :=
  {| i_id := e_id e; i_txHash := txHash e; i_eventIndex := eventIndex e; i_contractId := contractId e; i_ledger := ledger e;
     i_ledgerClosedAt := toISOString (ledgerClosedAt e); i_topics := omap (λ t, t) (topics e); i_data := data e |}.

(** Newest first, by ledger and then by index. *)
Definition newer_or_tied (a b : RawEvent) : Prop :=
  ledger b < ledger a ∨ (ledger b = ledger a ∧ eventIndex b ≤ eventIndex a).

Section activity.
Variable newest_first : list RawEvent → list RawEvent.
Hypothesis newest_first_perm : ∀ l, newest_first l ≡ₚ l.
Hypothesis newest_first_sorted : ∀ l, StronglySorted newer_or_tied (newest_first l).

(** Models [getActivityFeed] (backend/src/feeds/feeds.service.ts:93-131). *)
Definition getActivityFeed (address : string) (cursor : option string) (limit : Z) : MF (list ActivityFeedItemDto * option string) :=
  let n := Z.to_nat (Z.min (Z.max limit 1) 100) in
  match match truthy cursor with Some c => let! k := decodeActivityCursor c in Ok (Some k) | None => Ok None end with
  | Throw e => throw e
  | Ok after =>
      let* rows := ask (λ s, take (S n) (newest_first (List.filter (λ e, about address e && after_cursor after e) (events s)))) in
      let page := take n rows in
      ret (activity_item <$> page,
           if (n <? length rows)%nat
           then match last page with Some e => Some (encodeActivityCursor (ledger e) (eventIndex e)) | None => None end
           else None)
  end.

(** Models [activity] (backend/src/feeds/feeds.controller.ts:58-67). *)
Definition activity (address cursor limit : option string) : MF (list ActivityFeedItemDto * option string) :=
  match truthy address with
  | None => throw "address is required"
  | Some a =>
      match match truthy limit with Some l => parseInt10 l | None => Some 20 end with
      | None => throw "limit must be an integer"
      | Some n => getActivityFeed a cursor n
      end
  end.

(** *** Cursors *)

Definition in_range (e : RawEvent) : Prop := 0 ≤ ledger e < 2 ^ 53 ∧ 0 ≤ eventIndex e < 2 ^ 53.
Definition key_of (e : RawEvent) : Z * Z := (ledger e, eventIndex e).
Definition cursor_of (e : RawEvent) : string := encodeActivityCursor (ledger e) (eventIndex e).

Lemma integer_show n : 0 ≤ n < 2 ^ 53 → integer (show_Z n) = Some n.
Proof. intros Hn. unfold integer. destruct (Number_show n Hn) as (x & -> & Hx & ->). by rewrite Hx. Qed.

Lemma show_Z_avoids c n : is_digit c = false → 0 ≤ n → avoids c (show_Z n) = true.
Proof. intros Hc Hn. by apply digits_avoid, show_Z_digits. Qed.

Lemma decode_cursor_of e : in_range e → decodeActivityCursor (cursor_of e) = Ok (key_of e).
Proof.
  intros [Hl Hi]. unfold decodeActivityCursor, cursor_of, encodeActivityCursor. rewrite base64url_roundtrip.
  change (":" +:+ show_Z (eventIndex e)) with (String ":" (show_Z (eventIndex e))).
  rewrite split_app by (apply show_Z_avoids; [done|lia]). rewrite split_single by (apply show_Z_avoids; [done|lia]).
  by rewrite !integer_show.
Qed.


Lemma cursor_truthy e : truthy (Some (cursor_of e)) = Some (cursor_of e).
Proof.
  assert (cursor_of e ≠ "") as Hne.
  { apply toBase64Url_nonempty. pose proof (show_Z_ne_empty (ledger e)). by destruct (show_Z (ledger e)). }
  unfold truthy. by destruct (cursor_of e).
Qed.

(** *** Reading the feed *)

Definition newer (a b : RawEvent) : Prop :=
  ledger b < ledger a ∨ (ledger b = ledger a ∧ eventIndex b < eventIndex a).
#[local] Instance newer_order : StrictOrder newer.
Proof. split; [intros a Ha; unfold newer in Ha; lia|intros a b c; unfold newer; lia]. Qed.

Lemma untied_sorted l : NoDup (key_of <$> l) → StronglySorted newer_or_tied l → StronglySorted newer l.
Proof.
  intros Hn Hs. induction Hs as [|x l Hs IH Hx]; [constructor|]. apply NoDup_cons in Hn as [Hk Hn].
  constructor; [by apply IH|]. rewrite Forall_forall in *. intros y Hy. specialize (Hx y Hy).
  assert (key_of x ≠ key_of y) as Hne by (intros E; apply Hk; rewrite E; by apply list_elem_of_fmap_2).
  unfold newer, newer_or_tied, key_of in *. destruct (decide (eventIndex y = eventIndex x)); [|lia].
  destruct (decide (ledger y = ledger x)); [|lia]. congruence.
Qed.

Lemma activity_after_newer x e : after_cursor (Some (key_of x)) e = true ↔ newer x e.
Proof. unfold after_cursor, key_of, newer. cbn [fst snd]. rewrite orb_true_iff, andb_true_iff, Z.ltb_lt, Z.eqb_eq, Z.ltb_lt. done. Qed.

(** What is read from a healthy database with the cursor of an event. *)
Definition request (address : string) (limit : Z) (s : store) (c : option string) : result string (list ActivityFeedItemDto * option string) :=
  value_of (getActivityFeed address c limit) (World (healthy s) None).

Lemma request_after address limit s x :
  (∀ e, x = Some e → in_range e) →
  let n := Z.to_nat (Z.min (Z.max limit 1) 100) in
  let rows := newest_first (List.filter (λ e, about address e && after_cursor (key_of <$> x) e) (events s)) in
  request address limit s (cursor_of <$> x) =
    Ok (activity_item <$> take n rows, if (n <? length rows)%nat then cursor_of <$> last (take n rows) else None).
Proof.
  intros Hx n rows. unfold request, value_of, getActivityFeed. fold n.
  assert (match truthy (cursor_of <$> x) with Some c => let! k := decodeActivityCursor c in Ok (Some k) | None => Ok None end
          = Ok (key_of <$> x)) as ->.
  { destruct x as [e|]; [|done]. cbn [fmap option_fmap option_map]. rewrite cursor_truthy. rewrite decode_cursor_of; [done|]. by apply Hx. }
  erewrite bind_ok by reflexivity. cbn beta; cbn [db rstate healthy]; fold rows. unfold ret. cbn [fst]. rewrite take_take, Nat.min_l by lia. do 2 f_equal.
  rewrite length_take. destruct (Nat.ltb_spec n (length rows)), (Nat.ltb_spec n (S n `min` length rows)); try lia; [|done].
  by destruct (last (take n rows)).
Qed.

(** C25: Every event about an address is read once.  When no two events about it share
    ledger and index, a client that follows the cursors on an unchanged table gets
    each of them once, newest first, and comes to an end. *)
Theorem activity_read_once address limit s :
  let sel := List.filter (about address) (events s) in
  Forall in_range sel → NoDup (key_of <$> sel) →
  ∃ l, l ≡ₚ sel ∧ StronglySorted newer l ∧
    follow (request address limit s) (S (length l)) None = Some (activity_item <$> l).
Proof.
  intros sel Hr Hn. set (l := newest_first sel). assert (l ≡ₚ sel) as Hp by apply newest_first_perm.
  assert (StronglySorted newer l) as Hs by (apply untied_sorted; [by rewrite Hp|apply newest_first_sorted]).
  exists l. split_and!; [done|done|]. apply (follow_all _ cursor_of activity_item (Z.to_nat (Z.min (Z.max limit 1) 100))).
  intros l1 l2 E. set (n := Z.to_nat _). rewrite request_after.
  2:{ intros e He. rewrite Forall_forall in Hr. apply Hr. rewrite <- Hp, E. apply last_Some in He as [l0 ->].
      rewrite elem_of_app. left. apply elem_of_app. right. by left. }
  assert (newest_first (List.filter (λ e, about address e && after_cursor (key_of <$> last l1) e) (events s)) = l2) as ->.
  { assert (List.filter (after_cursor (key_of <$> last l1)) l = l2) as Hl2.
    { rewrite E in Hs |- *. destruct (last l1) as [x|] eqn:Ex.
      - apply last_Some in Ex as [l0 ->]. by apply (keyset_selects newer (λ x, after_cursor (Some (key_of x))) _ x); [apply activity_after_newer|].
      - apply last_None in Ex as ->. by apply bfilter_all. }
    rewrite <- (filter_filter _ (about address)). fold sel.
    apply (sorted_unique newer).
    - apply untied_sorted; [|apply newest_first_sorted]. rewrite newest_first_perm. by apply filter_keys_unique.
    - rewrite E in Hs. by apply sorted_split in Hs as (_ & ? & _); try apply _.
    - by rewrite newest_first_perm, <- Hl2, Hp. }
  eexists. split; [reflexivity|]. fold n. assert (1 ≤ n)%nat by lia. destruct (Nat.ltb_spec n (length l2)) as [Hlt|Hge]; [|done].
  destruct (last (take n l2)) as [x|] eqn:Ex.
  - cbn [fmap option_fmap option_map]. split; [by intros Ez; rewrite Ez in Ex|]. by rewrite last_app, Ex.
  - apply last_None, (f_equal length) in Ex. rewrite length_take in Ex. cbn in Ex. lia.
Qed.

(** Events that tie are skipped.  The cursor names ledger and index, which do not
    identify an event: when all the events about an address share them, a client
    that follows the cursors gets one page and the rest is never shown. *)
Theorem tied_events_skipped address limit s k :
  let sel := List.filter (about address) (events s) in
  let n := Z.to_nat (Z.min (Z.max limit 1) 100) in
  Forall in_range sel → Forall (λ e, key_of e = k) sel → (n < length sel)%nat →
  ∃ l, follow (request address limit s) 2 None = Some l ∧ length l = n ∧ (length l < length sel)%nat.
Proof.
  intros sel n Hr Hk Hlt. set (l := newest_first sel). assert (l ≡ₚ sel) as Hp by apply newest_first_perm.
  assert (length l = length sel) as Hlen by by rewrite Hp. assert (1 ≤ n)%nat by lia.
  assert (List.filter (λ e, about address e && true) (events s) = sel) as Hsel.
  { unfold sel. apply List.filter_ext. intros e. by rewrite andb_true_r. }
  cbn [follow]. change (@None string) with (cursor_of <$> @None RawEvent). rewrite request_after by done. cbn [fmap option_fmap option_map after_cursor].
  rewrite Hsel. fold l n. rewrite Hlen. destruct (Nat.ltb_spec n (length sel)) as [_|]; [|lia].
  destruct (last (take n l)) as [x|] eqn:Ex.
  2:{ apply last_None, (f_equal length) in Ex. rewrite length_take in Ex. cbn in Ex. lia. }
  assert (x ∈ sel) as Hx.
  { rewrite <- Hp, <- (take_drop n l). apply elem_of_app. left. apply last_Some in Ex as [l0 ->]. apply elem_of_app. right. by left. }
  cbn [fmap option_fmap option_map]. change (Some (cursor_of x)) with (cursor_of <$> Some x). rewrite request_after by (intros e [= <-]; rewrite Forall_forall in Hr; auto).
  cbn [fmap option_fmap option_map].
  assert (newest_first (List.filter (λ e, about address e && after_cursor (Some (key_of x)) e) (events s)) = []) as ->.
  { apply Permutation_nil_r. rewrite newest_first_perm, <- (filter_filter _ (about address)). fold sel. rewrite bfilter_none; [done|].
    intros e He. rewrite Forall_forall in Hk. apply not_true_iff_false. rewrite activity_after_newer. unfold newer.
    pose proof (Hk e He) as E1. pose proof (Hk x Hx) as E2. rewrite <- E2 in E1. injection E1 as E1 E1'. lia. }
  rewrite !take_nil. cbn [length last fmap option_fmap option_map]. fold n.
  assert ((if (n <? 0)%nat then None else None) = @None string) as -> by by destruct (n <? 0)%nat.
  rewrite app_nil_r. eexists. split_and!; [reflexivity| |]; rewrite length_fmap, length_take; lia.
Qed.
End activity.

(** ** The feed of finalized claims *)

Definition nl : string := String "010" "".
Fixpoint replace_char (c : ascii) (r s : string) : string :=
  match s with
  | "" => ""
  | String a s' => if bool_decide (a = c) then r +:+ replace_char c r s' else String a (replace_char c r s')
  end.

(** Models [escapeXml] (backend/src/feeds/feeds.service.ts:217-224). *)
Definition escapeXml (s : string) : string :=
  replace_char "'" "&apos;" (replace_char dquote "&quot;" (replace_char ">" "&gt;" (replace_char "<" "&lt;" (replace_char "&" "&amp;" s)))).

Definition attr (name value : string) : string := " " +:+ name +:+ "=" +:+ quoted value.
Definition outcome (c : ClaimRow) : string := toLowerCase (status_text (status c)).
Definition capitalized (s : string) : string := toUpperCase (str_take 1 s) +:+ str_drop 1 s.

Section claims.
Variable baseUrl : string.

(** Models [buildEntry] (backend/src/feeds/feeds.service.ts:172-194). *)
Definition buildEntry (c : ClaimRow) : string :=
  let claimUrl := baseUrl +:+ "/claims/" +:+ show_Z (id c) in
  let asset_ := default "XLM" (asset c) in
  let summary :=
    match truthy (description c) with
    | Some d => escapeXml (str_take 200 d)
    | None => "Claim #" +:+ show_Z (id c) +:+ " for policy " +:+ escapeXml (policyId c) +:+ " was " +:+ outcome c +:+ "."
    end in
  "  <entry>" +:+ nl +:+
  "    <id>" +:+ escapeXml claimUrl +:+ "</id>" +:+ nl +:+
  "    <title>Claim #" +:+ show_Z (id c) +:+ " — " +:+ toUpperCase (outcome c) +:+ " (" +:+ escapeXml (amount c) +:+ " " +:+
    escapeXml asset_ +:+ ")</title>" +:+ nl +:+
  "    <link" +:+ attr "href" (escapeXml claimUrl) +:+ attr "rel" "alternate" +:+ "/>" +:+ nl +:+
  "    <updated>" +:+ toISOString (updatedAt c) +:+ "</updated>" +:+ nl +:+
  "    <author><name>" +:+ escapeXml (creatorAddress c) +:+ "</name></author>" +:+ nl +:+
  "    <category" +:+ attr "term" (outcome c) +:+ attr "label" (capitalized (outcome c)) +:+ "/>" +:+ nl +:+
  "    <summary" +:+ attr "type" "text" +:+ ">" +:+ summary +:+ "</summary>" +:+ nl +:+
  "    <content" +:+ attr "type" "text" +:+ ">Policy: " +:+ escapeXml (policyId c) +:+ nl +:+
  "Claimant: " +:+ escapeXml (creatorAddress c) +:+ nl +:+
  "Amount: " +:+ escapeXml (amount c) +:+ " " +:+ escapeXml asset_ +:+ nl +:+
  "Outcome: " +:+ toUpperCase (outcome c) +:+ nl +:+
  "Finalized: " +:+ toISOString (updatedAt c) +:+ "</content>" +:+ nl +:+
  "  </entry>".

Definition atom_text (now : Z) (cs : list ClaimRow) : string :=
  "<?xml" +:+ attr "version" "1.0" +:+ attr "encoding" "UTF-8" +:+ "?>" +:+ nl +:+
  "<feed" +:+ attr "xmlns" "http://www.w3.org/2005/Atom" +:+ ">" +:+ nl +:+
  "  <title>NiffyInsure — Finalized Claims</title>" +:+ nl +:+
  "  <subtitle>The 50 most recently finalized insurance claims on NiffyInsure</subtitle>" +:+ nl +:+
  "  <link" +:+ attr "href" (escapeXml baseUrl +:+ "/feeds/claims.atom") +:+ attr "rel" "self" +:+ attr "type" "application/atom+xml" +:+ "/>" +:+ nl +:+
  "  <link" +:+ attr "href" (escapeXml baseUrl) +:+ attr "rel" "alternate" +:+ attr "type" "text/html" +:+ "/>" +:+ nl +:+
  "  <id>" +:+ escapeXml baseUrl +:+ "/feeds/claims.atom</id>" +:+ nl +:+
  "  <updated>" +:+ toISOString (match cs with c :: _ => updatedAt c | [] => now end) +:+ "</updated>" +:+ nl +:+
  "  <generator" +:+ attr "uri" "https://github.com/InsurNiffy/niff-Stellar-shurance" +:+ ">NiffyInsure API</generator>" +:+ nl +:+
  join nl (buildEntry <$> cs) +:+ nl +:+
  "</feed>".

Record ClaimFeedItemDto := {
  f_id : Z; f_url : string; f_title : string; f_policyId : string; f_creatorAddress : string; f_amount : string;
  f_asset : string; f_status : string; f_summary : string; f_updatedAt : string }.

(** Models [buildJsonItem] (backend/src/feeds/feeds.service.ts:196-215). *)
Definition buildJsonItem (c : ClaimRow) : ClaimFeedItemDto :=
  let asset_ := default "XLM" (asset c) in
  {| f_id := id c; f_url := baseUrl +:+ "/claims/" +:+ show_Z (id c);
     f_title := "Claim #" +:+ show_Z (id c) +:+ " — " +:+ toUpperCase (outcome c) +:+ " (" +:+ amount c +:+ " " +:+ asset_ +:+ ")";
     f_policyId := policyId c; f_creatorAddress := creatorAddress c; f_amount := amount c; f_asset := asset_; f_status := outcome c;
     f_summary := match truthy (description c) with
                  | Some d => str_take 200 d
                  | None => "Claim #" +:+ show_Z (id c) +:+ " for policy " +:+ policyId c +:+ " was " +:+ outcome c +:+ "."
                  end;
     f_updatedAt := toISOString (updatedAt c) |}.

Variable latest_first : list ClaimRow → list ClaimRow.

(** Models [getFinalizedClaims] (backend/src/feeds/feeds.service.ts:133-149). *)
Definition finalized (s : store) : list ClaimRow :=
  take 50 (latest_first (List.filter (λ c, isFinalized c && bool_decide (deletedAt c = None)) (claims s))).

(** Models [buildClaimsAtomFeed] (backend/src/feeds/feeds.service.ts:151-170). *)
Definition buildClaimsAtomFeed (now : Z) : MF string := let* cs := ask finalized in ret (atom_text now cs).

(** Models [buildClaimsJsonFeed] (backend/src/feeds/feeds.service.ts:84-87). *)
Definition buildClaimsJsonFeed : MF (list ClaimFeedItemDto) := let* cs := ask finalized in ret (buildJsonItem <$> cs).

(** Models [warmClaimsAtomFeedCache] (backend/src/feeds/feeds.service.ts:72-74). *)
Definition warmClaimsAtomFeedCache (now : Z) : MF () :=
  let* text := buildClaimsAtomFeed now in λ w, (Ok tt, World (db w) (Some text)).

(** Models [getCachedClaimsAtomFeed] (backend/src/feeds/feeds.service.ts:76-81). *)
Definition getCachedClaimsAtomFeed (now : Z) : MF string :=
  let* w := get_world in
  do* match claimsAtomFeedCache w with None => warmClaimsAtomFeedCache now | Some _ => ret tt end in
  let* w := get_world in ret (default "null" (claimsAtomFeedCache w)).

(** Models [prefersJson] (backend/src/feeds/feeds.controller.ts:7-13). *)
Definition prefersJson (acceptHeader : option string) : bool :=
  match truthy acceptHeader with
  | None => false
  | Some h => existsb (λ t, String.eqb (toLowerCase (trim (default "" (head (split ";" t))))) "application/json") (split "," h)
  end.

(** The body that is sent.
    Models [claimsAtom] (backend/src/feeds/feeds.controller.ts:37-50). *)
Definition claimsAtom (now : Z) (accept : option string) : MF (list ClaimFeedItemDto + string) :=
  if prefersJson accept then let* items := buildClaimsJsonFeed in ret (inl items)
  else let* xml := getCachedClaimsAtomFeed now in ret (inr xml).

(** *** Markup *)

(** The characters that make markup, in the order in which they occur. *)
Definition mark (c : ascii) : bool := bool_decide (c = "<"%char) || bool_decide (c = ">"%char) || bool_decide (c = dquote).
Definition markup (s : string) : string := str_filter mark s.

Lemma markup_app a b : markup (a +:+ b) = markup a +:+ markup b.
Proof. unfold markup. induction a as [|c a IH]; [done|]. change (String c a +:+ b) with (String c (a +:+ b)). cbn [str_filter]. rewrite IH. by destruct (mark c). Qed.

Lemma markup_none s : str_forall (λ c, negb (mark c)) s = true → markup s = "".
Proof.
  unfold markup. induction s as [|c s IH]; [done|]. cbn [str_forall str_filter]. intros [Hc Hs]%andb_true_iff.
  rewrite IH by done. by destruct (mark c).
Qed.

Lemma replace_char_app c r a b : replace_char c r (a +:+ b) = replace_char c r a +:+ replace_char c r b.
Proof.
  induction a as [|x a IH]; [done|]. change (String x a +:+ b) with (String x (a +:+ b)). cbn [replace_char]. rewrite IH. case_bool_decide; [by rewrite str_app_assoc|done].
Qed.

(** Escaping works character by character. *)
Lemma escapeXml_cons c s : escapeXml (String c s) = escapeXml (String c "") +:+ escapeXml s.
Proof. unfold escapeXml. rewrite <- !replace_char_app. done. Qed.

Definition xml_entity (c : ascii) : option string :=
  if bool_decide (c = "&"%char) then Some "&amp;" else if bool_decide (c = "<"%char) then Some "&lt;"
  else if bool_decide (c = ">"%char) then Some "&gt;" else if bool_decide (c = dquote) then Some "&quot;"
  else if bool_decide (c = "'"%char) then Some "&apos;" else None.

Lemma escapeXml_char c : escapeXml (String c "") = default (String c "") (xml_entity c).
Proof. by destruct c as [[] [] [] [] [] [] [] []]. Qed.

Lemma markup_escaped s : markup (escapeXml s) = "".
Proof.
  induction s as [|c s IH]; [done|]. rewrite escapeXml_cons, markup_app, IH, str_app_nil_r, escapeXml_char.
  by destruct c as [[] [] [] [] [] [] [] []].
Qed.

Lemma digits_unmarked s : all_digits s = true → str_forall (λ c, negb (mark c)) s = true.
Proof. apply str_forall_impl. intros c. by destruct c as [[] [] [] [] [] [] [] []]. Qed.

Lemma show_Z_unmarked n : str_forall (λ c, negb (mark c)) (show_Z n) = true.
Proof.
  destruct (decide (0 ≤ n)) as [Hn|Hn]; [by apply digits_unmarked, show_Z_digits|].
  destruct n as [|p|p]; [lia|lia|]. change (show_Z (Z.neg p)) with (String "-" (show_Z (Z.pos p))).
  cbn [str_forall]. by rewrite digits_unmarked by (by apply show_Z_digits).
Qed.

Lemma markup_show_Z n : markup (show_Z n) = "".
Proof. apply markup_none, show_Z_unmarked. Qed.

Lemma markup_toISOString ms : markup (toISOString ms) = "".
Proof.
  assert (∀ w n, str_forall (λ c, negb (mark c)) (pad w n) = true) as Hp.
  { intros w n. unfold pad. rewrite str_forall_app, show_Z_unmarked, andb_true_r.
    induction (w - _)%nat as [|k IH]; [done|]. cbn [zeros str_forall]. by rewrite IH. }
  apply markup_none. unfold toISOString. destruct (civil _) as [[y m] d]. by rewrite !str_forall_app, !Hp.
Qed.

Lemma markup_outcome c : markup (outcome c) = "" ∧ markup (toUpperCase (outcome c)) = "" ∧ markup (capitalized (outcome c)) = "".
Proof. unfold outcome. by destruct (status c). Qed.

Lemma markup_attr n v : markup (attr n v) = markup n +:+ String dquote (markup v +:+ String dquote "").
Proof.
  unfold attr, quoted. rewrite !markup_app. change (String dquote (v +:+ String dquote "")) with (String dquote "" +:+ (v +:+ String dquote "")).
  by rewrite !markup_app.
Qed.

Create Rewrite HintDb marks.
#[local] Hint Rewrite markup_app markup_attr markup_escaped markup_show_Z markup_toISOString : marks.

(** The markup of an entry is the template's.  No text of a claim, whatever it
    contains, adds a tag or an attribute or ends one: the angle brackets and the
    quotation marks of an entry are the same for every claim. *)
Lemma entry_markup c c' : markup (buildEntry c) = markup (buildEntry c').
Proof.
  unfold buildEntry. destruct (markup_outcome c) as (E1 & E2 & E3), (markup_outcome c') as (E1' & E2' & E3').
  autorewrite with marks. rewrite E1, E2, E3, E1', E2', E3'.
  assert (∀ c, markup (outcome c) = "" → markup match truthy (description c) with
    | Some d => escapeXml (str_take 200 d)
    | None => "Claim #" +:+ show_Z (id c) +:+ " for policy " +:+ escapeXml (policyId c) +:+ " was " +:+ outcome c +:+ "." end = "") as Hs.
  { intros d Hd. destruct (truthy (description d)); autorewrite with marks; [done|by rewrite Hd]. }
  by rewrite !Hs.
Qed.

Lemma entries_markup cs cs' :
  length cs = length cs' → markup (join nl (buildEntry <$> cs)) = markup (join nl (buildEntry <$> cs')).
Proof.
  revert cs'. induction cs as [|c cs IH]; intros [|c' cs'] Hl; try discriminate Hl; [reflexivity|]. injection Hl as Hl.
  specialize (IH cs' Hl).
  rewrite !fmap_cons. destruct cs as [|d cs], cs' as [|d' cs']; try discriminate Hl; [exact (entry_markup c c')|].
  rewrite !fmap_cons in *. cbn [join] in *. rewrite !markup_app in *. by rewrite (entry_markup c c'), IH.
Qed.

(** The feed carries no markup of its claims: whatever the claims contain, the
    angle brackets and quotation marks of the feed are those of the template, and
    depend on nothing but the number of claims. *)
Theorem feed_markup_fixed now now' cs cs' :
  length cs = length cs' → markup (atom_text now cs) = markup (atom_text now' cs').
Proof. intros Hl. unfold atom_text. autorewrite with marks. by rewrite (entries_markup cs cs'). Qed.

(** *** Reading escaped text back *)

Definition xml_entities : list (string * ascii) :=
  [("&amp;", "&"%char); ("&lt;", "<"%char); ("&gt;", ">"%char); ("&quot;", dquote); ("&apos;", "'"%char)].
Fixpoint xml_text (fuel : nat) (s : string) : string :=
  match fuel, s with
  | S f, String c s' =>
      match List.find (λ e, startsWith s e.1) xml_entities with
      | Some (e, c') => String c' (xml_text f (str_drop (String.length e) s))
      | None => String c (xml_text f s')
      end
  | _, _ => ""
  end.

Lemma xml_text_char c f t : xml_text (S f) (escapeXml (String c "") +:+ t) = String c (xml_text f t).
Proof.
  rewrite escapeXml_char. destruct (xml_entity c) as [e|] eqn:E; cbn [default from_option]; unfold Datatypes.id.
  - revert E. unfold xml_entity. repeat case_bool_decide; intros [= <-]; subst; rewrite !str_app_cons, str_app_nil_l; cbn [xml_text];
      unfold xml_entities, startsWith; cbn [List.find fst];
      repeat first [rewrite prefix_cons | rewrite prefix_nil | rewrite prefix_ne by discriminate]; reflexivity.
  - revert E. unfold xml_entity. repeat case_bool_decide; try done. intros _.
    change (String c "" +:+ t) with (String c t). cbn [xml_text]. unfold xml_entities, startsWith. cbn [List.find fst].
    by repeat (rewrite prefix_ne by done).
Qed.

(** What a reader shows is the text of the claim: parsing the escaped text gives
    back exactly what was escaped. *)
Theorem escaped_text_read_back s f : (String.length s ≤ f)%nat → xml_text f (escapeXml s) = s.
Proof.
  revert f. induction s as [|c s IH]; intros f Hf; [by destruct f|]. rewrite escapeXml_cons. cbn [String.length] in Hf.
  destruct f as [|f]; [lia|]. rewrite xml_text_char, IH by lia. done.
Qed.

(** *** What is served *)

Lemma warm_run now s c :
  warmClaimsAtomFeedCache now (World (healthy s) c) = (Ok tt, World (healthy s) (Some (atom_text now (finalized s)))).
Proof. done. Qed.

(** The JSON form is always read from the table; the Atom form is what the service
    built first.  Once it holds a copy, every later request is answered with it,
    whatever has become of the claims. *)
Theorem atom_feed_frozen now s accept :
  prefersJson accept = false →
  let first := atom_text now (finalized s) in
  claimsAtom now accept (World (healthy s) None) = (Ok (inr first), World (healthy s) (Some first)) ∧
  (∀ later s', claimsAtom later accept (World (healthy s') (Some first)) = (Ok (inr first), World (healthy s') (Some first))) ∧
  (∀ later json s' c, prefersJson json = true →
     claimsAtom later json (World (healthy s') c) = (Ok (inl (buildJsonItem <$> finalized s')), World (healthy s') c)).
Proof. intros Ha first. unfold claimsAtom. rewrite Ha. split_and!; [done|done|]. intros later json s' c Hj. by rewrite Hj. Qed.

(** A database that fails while the copy is built leaves none: the request is
    refused and a later one builds it. *)
Lemma failed_warm_retried now accept s fs :
  prefersJson accept = false → claimsAtom now accept (World (RWorld s (true :: fs)) None) = (Throw "redis unavailable", World (RWorld s fs) None).
Proof. intros Ha. unfold claimsAtom. by rewrite Ha. Qed.
End claims.

(** ** Witnesses *)

Module FeedWitnesses.

Definition tied_gt (a b : RawEvent) : bool := (ledger a <? ledger b) || ((ledger a =? ledger b) && (eventIndex a <? eventIndex b)).
Definition sorted_events (l : list RawEvent) : list RawEvent := stable_sort tied_gt l.

#[local] Instance newer_or_tied_trans : Transitive newer_or_tied.
Proof. intros a b c. unfold newer_or_tied. lia. Qed.

Lemma sorted_events_perm l : sorted_events l ≡ₚ l.
Proof. apply stable_sort_perm. Qed.
Lemma sorted_events_sorted l : StronglySorted newer_or_tied (sorted_events l).
Proof.
  refine (stable_sort_sorted newer_or_tied _ _ _ _); intros a b; unfold tied_gt, newer_or_tied.
  - intros [H1%Z.ltb_ge H2]%orb_false_iff. apply andb_false_iff in H2. destruct H2 as [H2%Z.eqb_neq|H2%Z.ltb_ge]; lia.
  - intros [H%Z.ltb_lt|[H1%Z.eqb_eq H2%Z.ltb_lt]%andb_true_iff]%orb_true_iff; lia.
Qed.

Definition event (i l ix : Z) : RawEvent :=
  {| e_id := i; txHash := "t" +:+ show_Z i; eventIndex := ix; contractId := "C"; ledger := l; ledgerClosedAt := 0;
     topic1 := Some "claim"; topic2 := Some "GA"; topic3 := None; topic4 := None; data := "" |}.
Definition few : store := Store [event 1 7 0; event 2 9 1; event 3 9 0] [].
Definition tied : store := Store [event 1 7 0; event 2 7 0; event 3 7 0] [].

Lemma small_range a l : Forall (λ e, 0 ≤ ledger e < 100 ∧ 0 ≤ eventIndex e < 100) l → Forall in_range (List.filter (about a) l).
Proof. rewrite !Forall_forall. intros H e [He _]%elem_of_bfilter. specialize (H e He). unfold in_range. lia. Qed.

Lemma activity_read_once_witness :
  ∃ l, follow (request sorted_events "GA" 2 few) 4 None = Some (activity_item <$> l) ∧ e_id <$> l = [2; 3; 1].
Proof.
  destruct (activity_read_once sorted_events sorted_events_perm sorted_events_sorted "GA" 2 few) as (l & Hp & _ & Hf).
  - apply small_range. repeat (constructor; [cbn; lia|]). constructor.
  - apply (bool_decide_unpack _). vm_compute. done.
  - assert (length l = 3%nat) as Hl by (by rewrite Hp). rewrite Hl in Hf. exists l. split; [exact Hf|].
    revert Hf. replace (follow (request sorted_events "GA" 2 few) 4 None) with (Some (activity_item <$> [event 2 9 1; event 3 9 0; event 1 7 0])) by (by vm_compute).
    intros [= Hf]. apply (f_equal (fmap i_id)) in Hf. rewrite <- !list_fmap_compose in Hf. symmetry. exact Hf.
Defined.

Lemma tied_events_skipped_witness : ∃ l, follow (request sorted_events "GA" 2 tied) 2 None = Some l ∧ length l = 2%nat.
Proof.
  destruct (tied_events_skipped sorted_events sorted_events_perm "GA" 2 tied (7, 0)) as (l & Hf & Hl & _).
  - apply small_range. repeat (constructor; [cbn; lia|]). constructor.
  - vm_compute. repeat constructor.
  - vm_compute. lia.
  - exists l. split; [exact Hf|exact Hl].
Defined.

Definition claim (i : Z) (d : string) : ClaimRow :=
  {| id := i; policyId := "p"; creatorAddress := "GA"; amount := "1"; asset := None; description := Some d; status := PAID;
     updatedAt := 0; isFinalized := true; deletedAt := None |}.

Lemma feed_markup_fixed_witness :
  markup (atom_text "https://a" 0 [claim 1 "</summary><script>"]) = markup (atom_text "https://a" 0 [claim 2 "broken"]).
Proof. apply feed_markup_fixed. reflexivity. Defined.

Lemma escaped_text_read_back_witness : xml_text 3 (escapeXml "<&'") = "<&'".
Proof. apply escaped_text_read_back. cbn. lia. Defined.

Lemma atom_feed_frozen_witness :
  let first := atom_text "https://a" 5 [claim 1 "x"] in
  claimsAtom "https://a" (λ l, l) 6 None (World (healthy (Store [] [])) (Some first)) = (Ok (inr first), World (healthy (Store [] [])) (Some first)).
Proof.
  intros first. destruct (atom_feed_frozen "https://a" (λ l, l) 5 (Store [] [claim 1 "x"]) None eq_refl) as (_ & H & _). exact (H 6 (Store [] [])).
Defined.
End FeedWitnesses.
