(* ===== verification/PersistedQuery.v ===== *)
(** * Persisted GraphQL queries

    backend/src/graphql/persisted-query.middleware.ts: which requests reach the
    GraphQL server and with which query.  Queries are kept in Redis under their
    SHA-256; the digest is a parameter, the allowlist file a text or absent. *)

From stdpp Require Import base list strings.
From Stdlib Require Import ZArith Lia Ascii.
From S2P Require Import Prelude JsText JsNumber Codec Redis.

Open Scope string_scope.
Open Scope Z_scope.

(** ** Configuration *)

(** The environment; [None] takes the default. *)
Record PqEnv := {
  NODE_ENV : option string; GRAPHQL_PERSISTED_QUERIES_ENABLED : option bool; GRAPHQL_PERSISTED_QUERIES_REQUIRED : option bool;
  GRAPHQL_PERSISTED_QUERY_REGISTRATION_ENABLED : option bool; GRAPHQL_PERSISTED_QUERIES_ONLY : option bool;
  GRAPHQL_PERSISTED_QUERY_TTL_SECONDS : option Z; GRAPHQL_PERSISTED_QUERY_ALLOWLIST : option string }.

(** The maps of the allowlist file, by their lookup. *)
Record allowlist := { bodies : string → option string; budgets : string → option double }.

(** Models [loadAllowlistFile] (backend/src/graphql/persisted-query.middleware.ts:167-206). *)
Definition loadAllowlistFile (raw : option string) : allowlist :=
  let entry hash :=
    match raw with
    | Some text => match JSON_parse text with Some (JObj fields) => get_field hash fields | _ => None end
    | None => None
    end in
  {| bodies hash :=
       match entry hash with
       | Some (JStr q) => Some q
       | Some (JObj o) => match get_field "query" o with Some (JStr q) => Some q | _ => None end
       | _ => None
       end;
     budgets hash :=
       match entry hash with
       | Some (JObj o) =>
           match get_field "query" o, get_field "maxComplexity" o with
           | Some (JStr _), Some (JNum (Some x)) => if 0 <? d_mant x then Some x else None
           | _, _ => None
           end
       | _ => None
       end |}.

Record config := {
  enabled : bool; required : bool; registrationEnabled : bool; persistedQueriesOnly : bool; ttlSeconds : Z;
  file : allowlist; envHashes : list string }.

(** Models [constructor] (backend/src/graphql/persisted-query.middleware.ts:38-65). *)
Definition configure (e : PqEnv) (raw : option string) : config :=
  let isProduction := bool_decide (NODE_ENV e = Some "production") in
  {| enabled := default false (GRAPHQL_PERSISTED_QUERIES_ENABLED e);
     required := default isProduction (GRAPHQL_PERSISTED_QUERIES_REQUIRED e);
     registrationEnabled := default (negb isProduction) (GRAPHQL_PERSISTED_QUERY_REGISTRATION_ENABLED e);
     persistedQueriesOnly := default isProduction (GRAPHQL_PERSISTED_QUERIES_ONLY e);
     ttlSeconds := default 86400 (GRAPHQL_PERSISTED_QUERY_TTL_SECONDS e);
     file := loadAllowlistFile raw;
     envHashes := filter (λ h, h ≠ "") (trim <$> split "," (default "" (GRAPHQL_PERSISTED_QUERY_ALLOWLIST e))) |}.

(** [allowlistHashes.has(hash)] *)
Definition allowlisted (c : config) (hash : string) : bool :=
  match bodies (file c) hash with Some _ => true | None => bool_decide (hash ∈ envHashes c) end.

(** ** The middleware *)

(** What happens to a request: it is answered 400 with a code, or goes on with a
    query and perhaps its own complexity budget. *)
Inductive outcome := Refused (code : string) | Next (query : option string) (budget : option double).

Section middleware.
Context {R : Type} `{RedisString string R}.
Variable sha256 : string → string.
Variable c : config.
Abbreviation MQ A := (M (rworld R) Empty_set A).

Definition apq_key (hash : string) : string := "graphql:apq:" +:+ hash.

(** Models [processApq] (backend/src/graphql/persisted-query.middleware.ts:111-152). *)
Definition processApq (now : Z) (hash : string) (query : option string) (budget : option double) (useStaticFallback : bool) : MQ outcome :=
  match truthy query with
  | Some q =>
      if negb (String.eqb (sha256 q) hash) then ret (Refused "PERSISTED_QUERY_HASH_MISMATCH")
      else if negb (registrationEnabled c) && negb (allowlisted c hash) then ret (Refused "PERSISTED_QUERY_NOT_ALLOWLISTED")
      else do* redis_set now (apq_key hash) q (ttlSeconds c) in ret (Next (Some q) budget)
  | None =>
      let* cached := redis_get now (apq_key hash) in
      match truthy (match cached with Some q => Some q | None => if useStaticFallback then bodies (file c) hash else None end) with
      | None => ret (Refused "PERSISTED_QUERY_NOT_FOUND")
      | Some q => ret (Next (Some q) budget)
      end
  end.

(** Models [use] (backend/src/graphql/persisted-query.middleware.ts:67-109). *)
Definition use (now : Z) (hash query : option string) : MQ outcome :=
  match truthy hash with
  | None =>
      if negb (persistedQueriesOnly c)
      then ret (if required c then Refused "PERSISTED_QUERY_REQUIRED" else Next query None)
      else ret (Refused "PERSISTED_QUERY_NOT_FOUND")
  | Some h =>
      if negb (persistedQueriesOnly c)
      then if enabled c then processApq now h query None false else ret (Refused "PERSISTED_QUERY_DISABLED")
      else if allowlisted c h then processApq now h query (budgets (file c) h) true else ret (Refused "PERSISTED_QUERY_NOT_FOUND")
  end.

(** ** What is stored *)

(** Every live entry holds a query whose digest is its key. *)
Definition digests_ok (t : Z) (r : R) : Prop := ∀ h q, r_get t (apq_key h) r = Some q → sha256 q = h.

Context `{!RedisStringLaws string R}.

Lemma apq_key_inj h1 h2 : apq_key h1 = apq_key h2 → h1 = h2.
Proof. apply str_app_inj_l. Qed.

Lemma digests_later t t' r : t ≤ t' → digests_ok t r → digests_ok t' r.
Proof. intros Ht Hd h q Hq. apply (Hd h q). by eapply get_stable. Qed.

Lemma digests_set t q ttl r : digests_ok t r → digests_ok t (r_setex t (apq_key (sha256 q)) q ttl r).
Proof.
  intros Hd h q'. destruct (decide (h = sha256 q)) as [->|Hne].
  - rewrite get_setex by lia. case_decide; [by intros [= <-]|done].
  - rewrite get_setex_ne by (intros E%apq_key_inj; congruence). apply Hd.
Qed.

(** One request, whatever Redis does: what goes on carries a hash whose query it
    is, and the entries stay right. *)
Lemma processApq_spec now h query b fallback w :
  digests_ok now (rstate w) →
  ∃ o w1, processApq now h query b fallback w = (Ok o, w1) ∧ digests_ok now (rstate w1) ∧
    match o with
    | Refused _ => True
    | Next q b' => b' = b ∧ ∃ q', q = Some q' ∧ (sha256 q' = h ∨ (fallback = true ∧ bodies (file c) h = Some q'))
    end.
Proof.
  intros Hd. unfold processApq. destruct (truthy query) as [q|].
  - destruct (String.eqb_spec (sha256 q) h) as [<-|]; cbn [negb]; [|by eexists _, _].
    destruct (_ && _); [by eexists _, _|]. destruct (redis_set_cases (E:=Empty_set) now (apq_key (sha256 q)) q (ttlSeconds c) w) as (w1 & E & Hw).
    erewrite bind_ok by exact E. eexists _, w1. split; [reflexivity|]. split.
    + destruct Hw as [->| ->]; [done|by apply digests_set].
    + split; [done|]. exists q. auto.
  - destruct (redis_get_cases (E:=Empty_set) now (apq_key h) w) as (v & w1 & E & Hr & Hv). erewrite bind_ok by exact E.
    assert (∀ q, v = Some q → sha256 q = h) as Hq.
    { intros q ->. destruct Hv as [|Hv]; [done|]. by apply Hd. }
    destruct v as [q|].
    + destruct (truthy (Some q)) as [q'|] eqn:Et; [|by eexists _, w1; rewrite Hr]. assert (q' = q) as -> by (destruct q; cbn in Et; congruence).
      eexists _, w1. split; [reflexivity|]. rewrite Hr. split; [done|]. split; [done|]. exists q. auto.
    + destruct fallback; [|by eexists _, w1; rewrite Hr].
      destruct (truthy (bodies (file c) h)) as [q'|] eqn:Et; [|by eexists _, w1; rewrite Hr].
      eexists _, w1. split; [reflexivity|]. rewrite Hr. split; [done|]. split; [done|]. exists q'. split; [done|]. right. split; [done|].
      destruct (bodies (file c) h) as [[|]|]; cbn in Et; congruence.
Qed.
End middleware.

(** ** Histories

    Instances with their own configurations share a Redis with other clients,
    which keep to their own keys; commands fail at any point. *)

Section histories.
Context {R : Type} `{RedisString string R, !RedisStringLaws string R}.
Variable sha256 : string → string.

Inductive reached : Z → rworld R → Prop :=
  | reached_start t w : digests_ok sha256 t (rstate w) → reached t w
  | reached_request t t' w c hash query : reached t w → t ≤ t' → reached t' (world_of (use sha256 c t' hash query) w)
  | reached_other t t' w w' :
      reached t w → t ≤ t' → (∀ h, r_get t' (apq_key h) (rstate w') = r_get t' (apq_key h) (rstate w)) → reached t' w'.

Lemma use_spec c now hash query w :
  digests_ok sha256 now (rstate w) →
  ∃ o w1, use sha256 c now hash query w = (Ok o, w1) ∧ digests_ok sha256 now (rstate w1) ∧
    match o with
    | Refused _ => True
    | Next q b =>
        (persistedQueriesOnly c = false ∧ truthy hash = None ∧ q = query ∧ b = None) ∨
        ∃ h q', truthy hash = Some h ∧ q = Some q' ∧
          (sha256 q' = h ∨ (persistedQueriesOnly c = true ∧ bodies (file c) h = Some q')) ∧
          (if persistedQueriesOnly c then allowlisted c h = true ∧ b = budgets (file c) h else b = None)
    end.
Proof.
  intros Hd. unfold use. destruct (truthy hash) as [h|], (persistedQueriesOnly c); cbn [negb].
  - destruct (allowlisted c h) eqn:Ea; [|by eexists _, w].
    destruct (processApq_spec sha256 c now h query (budgets (file c) h) true w Hd) as (o & w1 & E & Hd1 & Ho).
    exists o, w1. split; [exact E|]. split; [done|]. destruct o as [|q b]; [done|]. destruct Ho as (-> & q' & -> & Hq).
    right. exists h, q'. naive_solver.
  - destruct (enabled c); [|by eexists _, w].
    destruct (processApq_spec sha256 c now h query None false w Hd) as (o & w1 & E & Hd1 & Ho).
    exists o, w1. split; [exact E|]. split; [done|]. destruct o as [|q b]; [done|]. destruct Ho as (-> & q' & -> & Hq).
    right. exists h, q'. naive_solver.
  - by eexists _, w.
  - destruct (required c); eexists _, w; (split; [reflexivity|]; split; [done|]); [done|]. by left.
Qed.

Lemma reached_digests t w : reached t w → digests_ok sha256 t (rstate w).
Proof.
  induction 1 as [t w Hd|t t' w c hash query _ IH Ht|t t' w w' _ IH Ht Heq]; [done| |].
  - destruct (use_spec c t' hash query w) as (o & w1 & E & Hd & _); [by eapply digests_later|]. unfold world_of. by rewrite E.
  - intros h q. rewrite Heq. by apply (digests_later _ t).
Qed.

(** Only approved queries run.  Where persisted queries are enforced, whatever was
    sent before by whom and however Redis failed, a request goes on only with an
    allowlisted hash, with a query that has this digest or that the allowlist file
    gives for it, and with the budget the file gives. *)
Theorem only_allowlisted_queries c t w now hash query q b w' :
  persistedQueriesOnly c = true → reached t w → t ≤ now → use sha256 c now hash query w = (Ok (Next q b), w') →
  ∃ h q', hash = Some h ∧ q = Some q' ∧ allowlisted c h = true ∧ b = budgets (file c) h ∧
    (sha256 q' = h ∨ bodies (file c) h = Some q').
Proof.
  intros Hp Hr Ht E. destruct (use_spec c now hash query w) as (o & w1 & E' & _ & Ho).
  { apply (digests_later _ t); [done|]. by apply reached_digests. }
  rewrite E in E'. injection E' as <- <-. destruct Ho as [[Hf _]|(h & q' & Hh & -> & Hq & Hb)]; [congruence|].
  rewrite Hp in Hb. exists h, q'. split_and!; [|done|apply Hb|apply Hb|naive_solver].
  destruct hash as [[|]|]; cbn in Hh; congruence.
Qed.

(** A request always ends in one of the documented answers, and a query that is
    sent goes on unchanged or not at all. *)
Theorem sent_query_kept c now hash query q b w w' :
  digests_ok sha256 now (rstate w) → use sha256 c now hash query w = (Ok (Next q b), w') →
  ∀ q0, truthy query = Some q0 → q = query.
Proof.
  intros Hd E q0 Hq0. revert E. unfold use, processApq. rewrite Hq0.
  assert (query = Some q0) as -> by (destruct query as [[|]|]; cbn in Hq0; congruence).
  destruct (truthy hash) as [h|], (persistedQueriesOnly c); cbn [negb]; unfold ret; repeat case_match; try congruence.
  all: intros (u & w1 & _ & [= <- _ _])%bind_ok_inv; done.
Qed.

(** A registered query is found by its hash until its entry expires. *)
Theorem registered_query_found c r t t' q b :
  q ≠ "" → sha256 q ≠ "" → registrationEnabled c = true →
  (if persistedQueriesOnly c then allowlisted c (sha256 q) = true ∧ b = budgets (file c) (sha256 q) else enabled c = true ∧ b = None) →
  t ≤ t' < t + ttlSeconds c * 1000 →
  let stored := healthy (r_setex t (apq_key (sha256 q)) q (ttlSeconds c) r) in
  use sha256 c t (Some (sha256 q)) (Some q) (healthy r) = (Ok (Next (Some q) b), stored) ∧
  use sha256 c t' (Some (sha256 q)) None stored = (Ok (Next (Some q) b), stored).
Proof.
  intros Hq Hh Hreg Hc Ht stored. unfold use, processApq.
  assert (truthy (Some (sha256 q)) = Some (sha256 q)) as -> by by destruct (sha256 q).
  assert (truthy (Some q) = Some q) as Htq by by destruct q. rewrite Htq, String.eqb_refl, Hreg. cbn [negb andb truthy].
  assert (redis_get (E:=Empty_set) t' (apq_key (sha256 q)) stored = (Ok (Some q), stored)) as Hg.
  { unfold redis_get, try_catch, stored. rewrite query_healthy, get_setex by lia. by rewrite decide_True by lia. }
  destruct (persistedQueriesOnly c); cbn [negb]; destruct Hc as [-> ->]; (split; [done|]); erewrite bind_ok by exact Hg; by destruct q.
Qed.

(** With Redis down, the queries of the file are still served. *)
Theorem file_serves_without_redis c now h fs w' :
  persistedQueriesOnly c = true →
  use sha256 c now (Some h) None (RWorld w' (true :: fs)) =
    (Ok (match truthy (Some h), truthy (bodies (file c) h) with
         | Some _, Some q => Next (Some q) (budgets (file c) h)
         | _, _ => Refused "PERSISTED_QUERY_NOT_FOUND" end),
     RWorld w' (if match truthy (Some h) with Some _ => allowlisted c h | None => false end then fs else true :: fs)).
Proof.
  intros Hp. unfold use. rewrite Hp. cbn [negb]. destruct (truthy (Some h)) as [h'|] eqn:Eh; [|done].
  assert (h' = h) as -> by (destruct h; cbn in Eh; congruence).
  destruct (allowlisted c h) eqn:Ea.
  - unfold processApq. cbn [truthy]. erewrite bind_ok by reflexivity. cbn beta. by destruct (truthy (bodies (file c) h)).
  - unfold allowlisted in Ea. destruct (bodies (file c) h); [done|]. done.
Qed.
End histories.

(** ** Witnesses *)

Module PersistedQueryWitnesses.
Import Sample.

Definition digest (s : string) : string := "d" +:+ s.
Definition production : PqEnv :=
  {| NODE_ENV := Some "production"; GRAPHQL_PERSISTED_QUERIES_ENABLED := None; GRAPHQL_PERSISTED_QUERIES_REQUIRED := None;
     GRAPHQL_PERSISTED_QUERY_REGISTRATION_ENABLED := None; GRAPHQL_PERSISTED_QUERIES_ONLY := None;
     GRAPHQL_PERSISTED_QUERY_TTL_SECONDS := None; GRAPHQL_PERSISTED_QUERY_ALLOWLIST := Some "dq1, dq2" |}.
Definition open_registration : PqEnv :=
  {| NODE_ENV := None; GRAPHQL_PERSISTED_QUERIES_ENABLED := Some true; GRAPHQL_PERSISTED_QUERIES_REQUIRED := None;
     GRAPHQL_PERSISTED_QUERY_REGISTRATION_ENABLED := None; GRAPHQL_PERSISTED_QUERIES_ONLY := None;
     GRAPHQL_PERSISTED_QUERY_TTL_SECONDS := None; GRAPHQL_PERSISTED_QUERY_ALLOWLIST := None |}.
Definition text : string :=
  String "{" (quoted "h" +:+ ":{" +:+ quoted "query" +:+ ":" +:+ quoted "q0" +:+ "," +:+ quoted "maxComplexity" +:+ ":5}}").

Example file_read : bodies (loadAllowlistFile (Some text)) "h" = Some "q0" ∧ is_Some (budgets (loadAllowlistFile (Some text)) "h").
Proof. split; [vm_compute; reflexivity|]. vm_compute. eauto. Qed.

Definition start : rworld (strings string) := healthy [].
Definition after_one : rworld (strings string) := world_of (use digest (configure production None) 5 (Some "dq1") (Some "q1")) start.

Lemma only_allowlisted_queries_witness :
  ∃ w', use digest (configure production None) 9 (Some "dq1") None after_one = (Ok (Next (Some "q1") None), w') ∧
    allowlisted (configure production None) "dq1" = true.
Proof.
  eexists. split; [vm_compute; reflexivity|].
  destruct (only_allowlisted_queries digest (configure production None) 5 after_one 9 (Some "dq1") None (Some "q1") None after_one)
    as (h & q' & [= <-] & _ & Ha & _).
  - reflexivity.
  - apply (reached_request digest 0); [apply reached_start; intros h q; discriminate|lia].
  - lia.
  - vm_compute. reflexivity.
  - exact Ha.
Defined.

Lemma sent_query_kept_witness :
  ∃ q b w', use digest (configure production None) 5 (Some "dq1") (Some "q1") start = (Ok (Next q b), w') ∧ q = Some "q1".
Proof.
  assert (digests_ok digest 5 (rstate start)) as Hd by (intros h x; cbn; discriminate).
  destruct (use digest (configure production None) 5 (Some "dq1") (Some "q1") start) as [[o|[]] w'] eqn:E.
  destruct o as [code|q b]; [vm_compute in E; discriminate E|]. exists q, b, w'. split; [reflexivity|].
  exact (sent_query_kept digest _ 5 _ _ q b _ _ Hd E "q1" eq_refl).
Defined.

Lemma registered_query_found_witness :
  ∃ w', use digest (configure open_registration None) 9 (Some "dq7") None w' = (Ok (Next (Some "q7") None), w').
Proof.
  eexists. exact (proj2 (registered_query_found digest (configure open_registration None) ([] : strings string) 5 9 "q7" None
    ltac:(discriminate) ltac:(discriminate) eq_refl (conj eq_refl eq_refl) ltac:(vm_compute; split; [discriminate|reflexivity]))).
Defined.

Lemma file_serves_without_redis_witness :
  ∃ w' b, use digest (configure production (Some text)) 5 (Some "h") None (RWorld ([] : strings string) [true]) = (Ok (Next (Some "q0") b), w').
Proof. eexists _, _. exact (file_serves_without_redis digest (configure production (Some text)) 5 "h" [] [] eq_refl). Defined.
End PersistedQueryWitnesses.
