(* ===== verification/HorizonLimit.v ===== *)
(** * The rate limit of the Horizon proxy

    backend/src/horizon/horizon.service.ts (checkRateLimit) and its older copy
    horizon-rate-limit.service.ts.  One MULTI transaction prunes, counts and adds the
    request before it is decided, so refused requests count as well: the abstract
    limiter here remembers every request, where [Reference] of file RateLimit
    remembers the admitted ones. *)

From stdpp Require Import base list strings sorting.
From Stdlib Require Import ZArith Lia.
From S2P Require Import Prelude JsText Redis RateLimit.

Open Scope string_scope.
Open Scope Z_scope.

(** ** The abstract limiter *)
Module Counting.

(** A request at [t] is admitted iff fewer than [limit] requests, admitted or
    not, fall in the window before it. *)
Definition admits (limit w : Z) (hist : list Z) (t : Z) : bool :=
  negb (limit <=? Z.of_nat (length (Reference.in_window w t hist))).

Fixpoint run (limit w : Z) (hist ts : list Z) : list bool :=
  match ts with
  | [] => []
  | t :: ts' => admits limit w hist t :: run limit w (t :: hist) ts'
  end.

Lemma in_window_sublist w t h1 h2 :
  h1 `sublist_of` h2 → (length (Reference.in_window w t h1) ≤ length (Reference.in_window w t h2))%nat.
Proof.
  unfold Reference.in_window. induction 1 as [|x l1 l2 _ IH|x l1 l2 _ IH]; [done| |]; rewrite !filter_cons; repeat case_decide; cbn [length]; lia.
Qed.

(** No window holds more admitted requests than the limit. *)
Lemma counting_run_bounded limit w t0 ts hist adm :
  0 < w → StronglySorted Z.le (t0 :: ts) → adm `sublist_of` hist → Reference.bounded limit w t0 adm →
  ∃ t1, Reference.bounded limit w t1 (admitted_times ts (run limit w hist ts) adm).
Proof.
  revert t0 hist adm. induction ts as [|t ts IH]; intros t0 hist adm Hw Hs Hsub Hb; cbn [run admitted_times]; [by eauto|].
  apply StronglySorted_inv in Hs as [Hs Hall]. apply Forall_cons in Hall as [Ht _].
  pose proof (in_window_sublist w t _ _ Hsub) as Hle. unfold admits.
  destruct (Z.leb_spec limit (Z.of_nat (length (Reference.in_window w t hist)))) as [Hge|Hlt]; cbn [negb].
  - apply (IH t); [done|done|by apply sublist_cons|]. destruct Hb as [Hf Hb]. split; [|done].
    eapply Forall_impl; [exact Hf|]. cbn. lia.
  - apply (IH t); [done|done|by apply sublist_skip|].
    pose proof (Reference.step_bounded limit w t0 t adm Hw Ht Hb) as Hn. revert Hn. unfold Reference.step.
    destruct (Z.leb_spec limit (Z.of_nat (length (Reference.in_window w t adm)))); [lia|done].
Qed.

(** Requests that follow each other within [d]. *)
Fixpoint steady (d t : Z) (hist : list Z) : Prop :=
  match hist with [] => True | s :: h => t - d ≤ s ≤ t ∧ steady d s h end.

Lemma steady_window d w n t t1 hist :
  0 ≤ d → steady d t hist → (n ≤ length hist)%nat → t1 - w < t - Z.of_nat n * d → t ≤ t1 →
  (n ≤ length (Reference.in_window w t1 hist))%nat.
Proof.
  intros Hd. revert t hist. induction n as [|n IH]; intros t hist Hs Hn Hw Ht; [lia|]. destruct hist as [|s h]; [cbn in Hn; lia|].
  destruct Hs as [Hr Hs]. unfold Reference.in_window. rewrite filter_cons. rewrite decide_True by nia.
  cbn [length]. apply le_n_S. apply (IH s); [done|cbn in Hn; lia|nia|lia].
Qed.
(** The times go on from the history with gaps of at most [d]. *)
Fixpoint paced (d : Z) (hist ts : list Z) : Prop :=
  match ts with
  | [] => True
  | t :: ts' => match hist with s :: _ => s ≤ t ≤ s + d | [] => True end ∧ paced d (t :: hist) ts'
  end.

Lemma paced_refused d limit w hist ts i b :
  0 ≤ d → 0 ≤ limit → limit * d < w → paced d hist ts → match hist with s :: h => steady d s h | [] => True end →
  run limit w hist ts !! i = Some b → limit ≤ Z.of_nat (length hist + i) → b = false.
Proof.
  intros Hd Hl Hw. revert hist i. induction ts as [|t ts IH]; intros hist i Hp Hs Hb Hi; [done|]. destruct Hp as [Ht Hp].
  assert (steady d t hist) as Hst by (destruct hist; [done|]; split; [lia|done]).
  destruct i as [|i]; cbn [run] in Hb.
  - injection Hb as <-. unfold admits. apply negb_false_iff, Z.leb_le.
    pose proof (steady_window d w (Z.to_nat limit) t t hist Hd Hst ltac:(lia) ltac:(lia) ltac:(lia)). lia.
  - apply (IH (t :: hist) i); [done|done|exact Hb|cbn; lia].
Qed.
End Counting.

(** ** The limiter *)

Definition RL_WINDOW_MS : Z := 60000.
Definition RL_MAX_REQUESTS : Z := 30.
Definition rl_key (account : string) : string := "horizon:rl:" +:+ account.

Section limiter.
Context {R : Type} `{RedisZSet R}.
Abbreviation MR A := (M (rworld R) string A).

(** MULTI: prune, count, add, expire; EXEC answers with the count. *)
Definition count_and_add (key : string) (windowMs now : Z) (rnd : string) (r : R) : Z * R :=
  let r1 := r_zremrangebyscore_inf now key (now - windowMs) r in
  let r2 := r_zadd now key now (show_Z now +:+ "-" +:+ rnd) r1 in
  (Z.of_nat (length (r_zat now key r1)), r_pexpire now key (ceil_div windowMs 1000 * 1000) r2).

Definition decide_request (key : string) (maxRequests windowMs now : Z) (rnd : string) : MR Decision_ :=
  let* count := cmd (count_and_add key windowMs now rnd) in
  if maxRequests <=? count then
    let* oldest := query (λ r, head (r_zat now key r)) in
    let oldestTs := match oldest with Some e => e.1 | None => now end in
    ret {| allowed := false; retryAfterSeconds := Z.max 1 (ceil_div (oldestTs + windowMs - now) 1000) |}
  else ret admitted.

(** Models [checkRateLimit] (backend/src/horizon/horizon.service.ts:115-143). *)
Definition checkRateLimit (maxRequests windowMs : Z) (account : string) (now : Z) (rnd : string) : MR Decision_ :=
  try_catch (decide_request (rl_key account) maxRequests windowMs now rnd) (λ _, ret admitted).
End limiter.

(** ** What it decides *)

Section decisions.
Context {R : Type} `{RedisZSetLaws R}.
Context (key : string) (w : Z).

Lemma sim_pruned_inf (r : R) t0 t hist used :
  sim key w r t0 hist used → t0 ≤ t → sim key w (r_zremrangebyscore_inf t key (t - w) r) t hist used.
Proof.
  intros [Hf Hs] Ht. split; [eapply Forall_impl; [exact Hf|]; cbn; lia|]. intros t' Ht'. destruct (Hs t' ltac:(lia)) as [Hw Hu].
  rewrite zat_zremrangebyscore_inf by lia. split.
  - rewrite list_filter_filter_l; [done|]. intros e ?. lia.
  - by apply Forall_filter_of.
Qed.

Lemma pruned_inf_count (r : R) t0 t hist used :
  sim key w r t0 hist used → t0 ≤ t →
  length (r_zat t key (r_zremrangebyscore_inf t key (t - w) r)) = length (Reference.in_window w t hist).
Proof.
  intros [_ Hs] Ht. rewrite zat_zremrangebyscore_inf by lia. destruct (Hs t Ht) as [Hp _]. by rewrite <- Hp, length_fmap.
Qed.

Lemma window_kept : w ≤ Z.max 0 (ceil_div w 1000 * 1000).
Proof. pose proof (ceil_div_spec w 1000 ltac:(lia)). lia. Qed.

Lemma decide_step limit (r : R) t0 t rnd hist used :
  sim key w r t0 hist used → t0 ≤ t → 0 < t → member t rnd ∉ used →
  ∃ d r', decide_request key limit w t rnd (healthy r) = (Ok d, healthy r') ∧
    allowed d = Counting.admits limit w hist t ∧ sim key w r' t (t :: hist) (member t rnd :: used).
Proof.
  intros Hsim Ht Hpos Hfresh. pose proof (sim_pruned_inf _ _ _ _ _ Hsim Ht) as H1.
  pose proof (pruned_inf_count _ _ _ _ _ Hsim Ht) as Hc.
  assert (sim key w (count_and_add key w t rnd r).2 t (t :: hist) (member t rnd :: used)) as H2.
  { apply sim_recorded; [apply window_kept|done..|]. rewrite zat_zremrangebyscore_inf by lia.
    apply Forall_forall. intros e He. by apply list_elem_of_filter in He as [? _]. }
  unfold decide_request, Counting.admits. rewrite <- Hc.
  assert (cmd (count_and_add key w t rnd) (healthy r) = (Ok (count_and_add key w t rnd r).1, healthy (count_and_add key w t rnd r).2)) as Ec by done.
  erewrite bind_ok by exact Ec. cbn [count_and_add fst]. destruct (_ <=? _); cbn [negb].
  - erewrite bind_ok by apply query_healthy. eexists _, _. split; [reflexivity|]. done.
  - eexists _, _. split; [reflexivity|]. done.
Qed.

Lemma decide_calls limit (r : R) t0 reqs hist used :
  sim key w r t0 hist used → StronglySorted Z.le (t0 :: (fst <$> reqs)) → Forall (λ q, 0 < q.1) reqs →
  NoDup ((λ q, member q.1 q.2) <$> reqs) → Forall (λ q, member q.1 q.2 ∉ used) reqs →
  ∃ ds r', calls (λ t rnd, try_catch (decide_request key limit w t rnd) (λ _ : string, ret admitted)) reqs (healthy r) = (Ok ds, healthy r') ∧
    allowed <$> ds = Counting.run limit w hist (fst <$> reqs).
Proof.
  revert r t0 hist used. induction reqs as [|[t rnd] reqs IH]; intros r t0 hist used Hsim Hs Hpos Hnd Hfresh.
  { by eexists [], r. }
  rewrite !fmap_cons in *. cbn [Counting.run calls fst snd] in *.
  apply StronglySorted_inv in Hs as [Hs Hall]. apply Forall_cons in Hall as [Ht _]. apply Forall_cons in Hpos as [Hp Hpos].
  apply Forall_cons in Hfresh as [Hf Hfresh]. apply NoDup_cons in Hnd as [Hn Hnd].
  destruct (decide_step limit r t0 t rnd hist used Hsim Ht Hp Hf) as (d & r1 & Hrun & Hd & Hsim1).
  destruct (IH r1 t (t :: hist) (member t rnd :: used) Hsim1 Hs Hpos Hnd) as (ds & r2 & Hrun2 & Hds).
  { rewrite Forall_forall in Hfresh |- *. intros q Hq. rewrite not_elem_of_cons. split; [|by apply Hfresh].
    intros E. apply Hn. rewrite <- E. by apply (list_elem_of_fmap_2 (λ q, member q.1 q.2)). }
  exists (d :: ds), r2. split; [|by rewrite fmap_cons, Hd, Hds].
  erewrite bind_ok by (by apply try_ok). by erewrite bind_ok by exact Hrun2.
Qed.
End decisions.

Section contract.
Context {R : Type} `{RedisZSetLaws R}.
Variables (limit w : Z) (account : string).

Lemma limiter_run (r : R) reqs :
  no_entries (rl_key account) r → orderly reqs →
  ∃ ds r', calls (checkRateLimit limit w account) reqs (healthy r) = (Ok ds, healthy r') ∧
    allowed <$> ds = Counting.run limit w [] (fst <$> reqs).
Proof.
  intros He (Hs & Hpos & Hnd). apply (decide_calls (rl_key account) w limit r 0 reqs [] []); try done; [by apply sim_empty|].
  apply Forall_forall. intros q _. apply not_elem_of_nil.
Qed.

(** C30: On a healthy server and from an empty window, the limiter counts requests: every orderly sequence
    of requests of an account (in the order of the clock, one after the other) is decided as by the abstract
    limiter that remembers all of them, refused ones included, and in no window are more requests admitted
    than the limit.  A request above the limit is refused at once; the token bucket and the queue that the
    configuration guide describes do not exist.  When Redis fails, every request is admitted. *)
Theorem horizon_limiter_refines (r : R) reqs :
  0 < w → no_entries (rl_key account) r → orderly reqs →
  ∃ ds r', calls (checkRateLimit limit w account) reqs (healthy r) = (Ok ds, healthy r') ∧
    allowed <$> ds = Counting.run limit w [] (fst <$> reqs) ∧
    ∀ t, Z.of_nat (length (filter (λ s, t - w < s ≤ t) (admitted_times (fst <$> reqs) (allowed <$> ds) []))) ≤ Z.max 0 limit.
Proof.
  intros Hw He Ho. destruct (limiter_run r reqs He Ho) as (ds & r' & Hrun & Hds). exists ds, r'. split; [done|]. split; [done|].
  rewrite Hds. destruct Ho as (Hs & _).
  destruct (Counting.counting_run_bounded limit w 0 (fst <$> reqs) [] [] Hw Hs) as (t1 & _ & Hb); [done| |done].
  split; [done|]. intros t. cbn. lia.
Qed.

(** A client that never pauses is locked out.  When requests keep coming so fast that
    the window always holds as many as the limit, none but the first ones is ever
    admitted: each refused request counts against the next. *)
Theorem impatient_client_locked_out d (r : R) reqs :
  0 ≤ d → 0 ≤ limit → limit * d < w → no_entries (rl_key account) r → orderly reqs → Counting.paced d [] (fst <$> reqs) →
  ∃ ds r', calls (checkRateLimit limit w account) reqs (healthy r) = (Ok ds, healthy r') ∧
    ∀ i x, ds !! i = Some x → limit ≤ Z.of_nat i → allowed x = false.
Proof.
  intros Hd Hl Hw He Ho Hp. destruct (limiter_run r reqs He Ho) as (ds & r' & Hrun & Hds). exists ds, r'. split; [done|].
  intros i x Hx Hi. apply (Counting.paced_refused d limit w [] (fst <$> reqs) i); [done..| |cbn; lia].
  rewrite <- Hds, list_lookup_fmap, Hx. done.
Qed.
End contract.

(** Models [check] (backend/src/horizon/horizon-rate-limit.service.ts:44-84). *)
Definition check {R} `{RedisZSet R} (maxRequests windowMs : Z) (account : string) (now : Z) (rnd : string) : M (rworld R) string Decision_ :=
  try_catch (decide_request (rl_key account) maxRequests windowMs now rnd) (λ _, ret admitted).

(** ** Witnesses *)

Module HorizonLimitWitnesses.
Import Sample.

Definition five : list (Z * string) := [(10, "a"); (20, "b"); (30, "c"); (40, "d"); (50, "e")].
Lemma five_orderly : orderly five.
Proof.
  split_and!; [sorted_concrete|repeat (constructor; [cbn; lia|]); constructor|].
  apply (bool_decide_unpack _). vm_compute. done.
Qed.

Lemma horizon_limiter_refines_witness :
  ∃ ds r', calls (checkRateLimit 2 25 "GA") five (healthy ([] : zsets)) = (Ok ds, healthy r') ∧
    allowed <$> ds = [true; true; false; false; false].
Proof.
  destruct (horizon_limiter_refines 2 25 "GA" ([] : zsets) five) as (ds & r' & H1 & H2 & _); [lia|done|apply five_orderly|].
  exists ds, r'. split; [exact H1|]. rewrite H2. vm_compute. reflexivity.
Defined.

Lemma impatient_client_locked_out_witness :
  ∃ ds r', calls (checkRateLimit 2 25 "GA") five (healthy ([] : zsets)) = (Ok ds, healthy r') ∧
    ∀ i x, ds !! i = Some x → 2 ≤ Z.of_nat i → allowed x = false.
Proof.
  apply (impatient_client_locked_out 2 25 "GA" 10); [lia|lia|lia|done|apply five_orderly|]. cbn. lia.
Defined.
End HorizonLimitWitnesses.
