(* ===== verification/Horizon.v ===== *)
(** * The Horizon proxy

    backend/src/horizon/horizon.service.ts and filters/horizon-field.filter.ts: the
    history of an account through the circuit breaker, the selection of fields, the
    enrichment with indexed events and the cache of fifteen seconds.  The network,
    the URL parser and the text of a number are parameters. *)

From stdpp Require Import base gmap list strings.
From Stdlib Require Import ZArith Lia Ascii Sorted.
From S2P Require Import Prelude JsText JsNumber Redis RateLimit SorobanRpc HorizonLimit Codec.

Open Scope string_scope.
Open Scope Z_scope.

(** ** Records *)

Record DecodedEvent := {
  d_eventIndex : Z; d_contractId : string; d_ledger : Z; d_ledgerClosedAt : string; d_topics : list (option string); d_data : string }.

Record RawEvent := {
  txHash : string; eventIndex : Z; contractId : string; ledger : Z; ledgerClosedAt : Z; topics : list (option string); data : string }.

Record HorizonOperationRecord := {
  id : string; paging_token : string; op_type : string; type_int : option double; created_at : string; transaction_hash : string;
  transaction_successful : bool; source_account : string; asset_type : option string; asset_code : option string;
  asset_issuer : option string; op_amount : option string; from : option string; to : option string;
  contractEvents : option (list DecodedEvent) }.

Record HorizonTransactionResponse := {
  records : list HorizonOperationRecord; eventsEnriched : bool; next_cursor : option string }.

Inductive HorizonError := BadRequestException (m : string) | ServiceUnavailable (retryAfter : Z) | BadGateway | TypeErr | TooManyRequests (retryAfter : Z).

(** An answer of the network: a failure, or a status and a body when it is JSON. *)
Inductive HttpAnswer := NetworkError | Answer (status : Z) (body : option json).
Inductive FetchError := StatusError (status : Z) | OtherError.

Abbreviation headers := (list (string * string)).

(** ** Texts of URLs *)

Definition hex_upper (n : Z) : string := match String.get (Z.to_nat n) "0123456789ABCDEF" with Some c => String c "" | None => "" end.
Fixpoint percent (keep : ascii → bool) (s : string) : string :=
  match s with
  | "" => ""
  | String c s' => (if keep c then String c "" else "%" +:+ hex_upper (code c / 16) +:+ hex_upper (code c mod 16)) +:+ percent keep s'
  end.
Definition is_word (c : ascii) : bool := is_digit c || is_lower c || is_upper c.
Definition among (chars : string) (c : ascii) : bool := negb (str_forall (λ a, negb (bool_decide (a = c))) chars).
Definition encodeURIComponent (s : string) : string := percent (λ c, is_word c || among "-_.!~*'()" c) s.
(** A value in URLSearchParams. *)
Definition encodeParam (s : string) : string := str_map (λ c, if bool_decide (c = " "%char) then "+"%char else c) (percent (λ c, is_word c || among "*-._ " c) s).

(** ** Headers *)

(** Models [INTERNAL_AUTH_HEADERS] (backend/src/horizon/horizon.service.ts:30-37). *)
Definition INTERNAL_AUTH_HEADERS : list string :=
  ["authorization"; "x-api-key"; "x-internal-token"; "x-internal-auth"; "cookie"; "proxy-authorization"].

(** Models [stripInternalAuthHeaders] (backend/src/horizon/horizon.service.ts:220-228). *)
Definition stripInternalAuthHeaders (h : headers) : headers :=
  filter (λ kv, toLowerCase kv.1 ∉ INTERNAL_AUTH_HEADERS) h.

(** ** The fields of an operation *)

Definition ALLOWED_OPERATION_TYPES : list string :=
  ["payment"; "path_payment_strict_receive"; "path_payment_strict_send"; "create_account"].

Section filter.
Variable number_text : option double → string.

(** [String(v)] *)
Fixpoint js_String (v : json) : string :=
  match v with
  | JNull => "null"
  | JBool b => if b then "true" else "false"
  | JNum x => number_text x
  | JStr s => s
  | JArr l => join "," ((λ x, match x with JNull => "" | _ => js_String x end) <$> l)
  | JObj _ => "[object Object]"
  end.

(** [Number(v)] *)
Definition js_Number (v : json) : option double :=
  match v with
  | JNum x => x
  | JNull => Number "0"
  | JBool b => Number (if b then "1" else "0")
  | _ => Number (js_String v)
  end.

Definition field_text (r : json) (k : string) : string :=
  js_String (default (JStr "") (nullish (member r k) None)).
Definition optional_text (r : json) (k : string) : option string :=
  match member r k with Some v => if to_Boolean v then Some (js_String v) else None | None => None end.

Definition operation (r : json) (type : string) : HorizonOperationRecord :=
  {| id := field_text r "id"; paging_token := field_text r "paging_token"; op_type := type;
     type_int := match nullish (member r "type_int") None with Some v => js_Number v | None => Number "0" end;
     created_at := field_text r "created_at"; transaction_hash := field_text r "transaction_hash";
     transaction_successful := match nullish (member r "transaction_successful") None with Some v => to_Boolean v | None => true end;
     source_account := field_text r "source_account"; asset_type := optional_text r "asset_type"; asset_code := optional_text r "asset_code";
     asset_issuer := optional_text r "asset_issuer"; op_amount := optional_text r "amount"; from := optional_text r "from"; to := optional_text r "to";
     contractEvents := None |}.

(** Models [filterHorizonOperations] (backend/src/horizon/filters/horizon-field.filter.ts:28-62). *)
Fixpoint filterHorizonOperations (rawRecords : list json) : result HorizonError (list HorizonOperationRecord) :=
  match rawRecords with
  | [] => Ok []
  | JNull :: _ => Throw TypeErr
  | r :: rest =>
      let! results := filterHorizonOperations rest in
      match member r "type" with
      | Some (JStr t) => if bool_decide (t ∈ ALLOWED_OPERATION_TYPES) then Ok (operation r t :: results) else Ok results
      | _ => Ok results
      end
  end.
End filter.

(** Models [extractRecords] (backend/src/horizon/horizon.service.ts:359-363). *)
Definition extractRecords (raw : json) : list json :=
  match member raw "_embedded" with
  | Some e => match member e "records" with Some (JArr l) => l | _ => [] end
  | None => []
  end.

(** [cursor_of url]: the parameter of a valid URL.
    Models [extractNextCursor] (backend/src/horizon/horizon.service.ts:365-375). *)
Definition extractNextCursor (cursor_of : string → option string) (raw : json) : option string :=
  match member raw "_links" with
  | Some links =>
      match member links "next" with
      | Some next => match member next "href" with Some (JStr href) => cursor_of href | _ => None end
      | None => None
      end
  | None => None
  end.

(** ** The service *)

(** Redis, the table of events, the breaker, and the requests made so far. *)
Record hworld (R B : Type) := HWorld {
  redis : rworld R; events : rworld (list RawEvent); breaker : B; sent : list (string * headers) }.
Arguments HWorld {R B} _ _ _ _.
Arguments redis {R B} _.
Arguments events {R B} _.
Arguments breaker {R B} _.
Arguments sent {R B} _.

Record HorizonConfig := { horizonUrl : string; apiKey : option string; resetMs : Z; maxRequests : Z; windowMs : Z }.

Section service.
Context {R B : Type} `{RedisString HorizonTransactionResponse R} `{RedisZSet R} `{Breaker B}.
Variable cfg : HorizonConfig.
Variable number_text : option double → string.
Variable cursor_of : string → option string.
(** The answer to the n-th request. *)
Variable network : nat → string → HttpAnswer.
Abbreviation MH A := (M (hworld R B) HorizonError A).

Definition on_redis {A} (m : M (rworld R) HorizonError A) : MH A := λ w,
  let '(r, x) := m (redis w) in (r, HWorld x (events w) (breaker w) (sent w)).

(** Models [fetchFromHorizonInternal] (backend/src/horizon/horizon.service.ts:343-357). *)
Definition fetchFromHorizonInternal (url : string) (h : headers) : M (hworld R B) FetchError json := λ w,
  let w1 := HWorld (redis w) (events w) (breaker w) (sent w ++ [(url, stripInternalAuthHeaders h)])%list in
  match network (length (sent w)) url with
  | NetworkError => (Throw OtherError, w1)
  | Answer s body =>
      if (200 <=? s) && (s <=? 299) then match body with Some j => (Ok j, w1) | None => (Throw OtherError, w1) end
      else (Throw (StatusError s), w1)
  end.

Definition with_breaker (b : B) (w : hworld R B) : hworld R B := HWorld (redis w) (events w) b (sent w).

(** [this.circuitBreaker.fire(url, headers)] *)
Definition fire (url : string) (h : headers) : M (hworld R B) FetchError json := λ w,
  if admits (breaker w) then
    let '(r, w1) := fetchFromHorizonInternal url h w in
    if late (breaker w) then (Throw OtherError, with_breaker (settle false (breaker w1)) w1)
    else (r, with_breaker (settle (is_ok r) (breaker w1)) w1)
  else (Throw OtherError, w).

Definition request_headers : headers :=
  ("Accept", "application/json") :: match truthy (apiKey cfg) with Some k => [("Authorization", "Bearer " +:+ k)] | None => [] end.

(** Models [fetchFromHorizonWithCircuitBreaker] (backend/src/horizon/horizon.service.ts:315-341). *)
Definition fetchFromHorizonWithCircuitBreaker (url : string) : MH json := λ w,
  match fire url request_headers w with
  | (Ok j, w1) => (Ok j, w1)
  | (Throw e, w1) =>
      if opened (breaker w1) then (Throw (ServiceUnavailable (ceil_div (resetMs cfg) 1000)), w1)
      else
        match e with
        | StatusError s => if (400 <=? s) && (s <? 500) then (Throw (BadRequestException "Horizon rejected the request"), w1) else (Throw BadGateway, w1)
        | OtherError => (Throw BadGateway, w1)
        end
  end.

(** Models [buildHorizonUrl] (backend/src/horizon/horizon.service.ts:305-313). *)
Definition buildHorizonUrl (account : string) (cursor : option string) (limit : Z) : string :=
  horizonUrl cfg +:+ "/accounts/" +:+ encodeURIComponent account +:+ "/operations?limit=" +:+ show_Z limit +:+ "&order=desc" +:+
  match truthy cursor with Some c => "&cursor=" +:+ encodeParam c | None => "" end.

Definition STELLAR_ADDRESS (s : string) : bool :=
  matches_classes ((λ c, bool_decide (c = "G"%char)) :: replicate 55 (λ c, is_upper c || is_digit c)) s.

Definition decoded (e : RawEvent) : DecodedEvent :=
  {| d_eventIndex := eventIndex e; d_contractId := contractId e; d_ledger := ledger e; d_ledgerClosedAt := toISOString (ledgerClosedAt e);
     d_topics := topics e; d_data := data e |}.

Definition with_events (es : list DecodedEvent) (r : HorizonOperationRecord) : HorizonOperationRecord :=
  {| id := id r; paging_token := paging_token r; op_type := op_type r; type_int := type_int r; created_at := created_at r;
     transaction_hash := transaction_hash r; transaction_successful := transaction_successful r; source_account := source_account r;
     asset_type := asset_type r; asset_code := asset_code r; asset_issuer := asset_issuer r; op_amount := op_amount r; from := from r; to := to r;
     contractEvents := Some es |}.

(** [orderBy: [{ txHash }, { eventIndex }]], in the order of the database. *)
Variable in_order : list RawEvent → list RawEvent.

(** The events appended to the list of their transaction, one after the other. *)
Definition group (es : list RawEvent) : gmap string (list DecodedEvent) :=
  foldl (λ m e, <[txHash e := (default [] (m !! txHash e) ++ [decoded e])%list]> m) ∅ es.

Definition on_events {A} (q : list RawEvent → A) : MH A := λ w,
  match query q (events w) with
  | (Ok a, e) => (Ok a, HWorld (redis w) e (breaker w) (sent w))
  | (Throw _, e) => (Throw TypeErr, HWorld (redis w) e (breaker w) (sent w))
  end.

Definition enrich (filtered : list HorizonOperationRecord) : MH (list HorizonOperationRecord) :=
  let txHashes := filter (λ h, h ≠ "") (transaction_hash <$> filtered) in
  if (0 <? length txHashes)%nat then
    let* es := on_events (λ l, in_order (filter (λ e, txHash e ∈ txHashes) l)) in
    let byHash := group es in
    ret ((λ r, with_events (default [] (byHash !! transaction_hash r)) r) <$> filtered)
  else ret filtered.

Definition CACHE_TTL_SECONDS : Z := 15.
Definition cache_key (account : string) (cursor : option string) (limit : Z) : string :=
  "horizon:txcache:" +:+ account +:+ ":" +:+ default "start" cursor +:+ ":" +:+ show_Z limit.

(** Models [getTransactions] (backend/src/horizon/horizon.service.ts:230-303). *)
Definition getTransactions (now : Z) (account : string) (cursor : option string) (limit : Z) : MH HorizonTransactionResponse :=
  if negb (STELLAR_ADDRESS account) then throw (BadRequestException "Invalid Stellar account address")
  else
    let clampedLimit := Z.min (Z.max 1 limit) 200 in
    let cacheKey := cache_key account cursor clampedLimit in
    let* cached := on_redis (redis_get now cacheKey) in
    match cached with
    | Some r => ret r
    | None =>
        let* raw := fetchFromHorizonWithCircuitBreaker (buildHorizonUrl account cursor clampedLimit) in
        let* filtered := λ w, (filterHorizonOperations number_text (extractRecords raw), w) in
        let* enriched := try_catch (let* rs := enrich filtered in ret (rs, true)) (λ _ : HorizonError, ret (filtered, false)) in
        let response := {| records := enriched.1; eventsEnriched := enriched.2; next_cursor := truthy (extractNextCursor cursor_of raw) |} in
        do* on_redis (redis_set now cacheKey response CACHE_TTL_SECONDS) in
        ret response
    end.

(** The route over it; the limiter fails open.
    Models [getTransactions] (backend/src/horizon/horizon.controller.ts:43-74). *)
Definition transactions_route (now : Z) (rnd address : string) (cursor limitStr : option string) : MH HorizonTransactionResponse :=
  match match limitStr with Some l => parseInt10 l | None => Some 20 end with
  | None => throw (BadRequestException "limit must be a number")
  | Some limit =>
      let* rl := on_redis (try_catch (checkRateLimit (maxRequests cfg) (windowMs cfg) address now rnd) (λ _ : string, ret admitted)) in
      if negb (allowed rl) then throw (TooManyRequests (retryAfterSeconds rl))
      else getTransactions now address cursor limit
  end.
End service.

(** ** What leaves the service *)

Section facts.
Context {R B : Type} `{RedisStringLaws HorizonTransactionResponse R} `{RedisZSet R} `{BreakerLaws B}.
Variables (cfg : HorizonConfig) (number_text : option double → string) (cursor_of : string → option string).
Variable network : nat → string → HttpAnswer.
Variable in_order : list RawEvent → list RawEvent.
Hypothesis in_order_perm : ∀ l, in_order l ≡ₚ l.
Hypothesis in_order_sorted : ∀ l h, StronglySorted Z.le (eventIndex <$> filter (λ e, txHash e = h) (in_order l)).

Abbreviation W := (hworld R B).

Definition plain_headers : headers := [("Accept", "application/json")].

(** The requests of a run are appended, and carry the plain headers only. *)
Definition sends_plain (w w' : W) : Prop := ∃ new, sent w' = (sent w ++ new)%list ∧ Forall (λ q, q.2 = plain_headers) new.

#[local] Instance sends_plain_preorder : PreOrder sends_plain.
Proof.
  split; [intros w; exists []; by rewrite app_nil_r|]. intros w1 w2 w3 (n1 & E1 & F1) (n2 & E2 & F2).
  exists (n1 ++ n2)%list. rewrite E2, E1, app_assoc. split; [done|]. by apply Forall_app.
Qed.

Lemma sends_nothing w w' : sent w' = sent w → sends_plain w w'.
Proof. intros E. exists []. by rewrite app_nil_r. Qed.

Lemma stripped_request : stripInternalAuthHeaders (request_headers cfg) = plain_headers.
Proof. unfold request_headers. by destruct (truthy (apiKey cfg)). Qed.

Lemma fetch_plain url : keeps sends_plain (fetchFromHorizonWithCircuitBreaker cfg network url : M W HorizonError json).
Proof.
  intros w. unfold world_of, fetchFromHorizonWithCircuitBreaker, fire. destruct (admits (breaker w)).
  - unfold fetchFromHorizonInternal. rewrite stripped_request.
    assert (∀ w' : W, sent w' = (sent w ++ [(url, plain_headers)])%list → sends_plain w w') as Hs.
    { intros w' E. exists [(url, plain_headers)]. split; [done|]. by repeat constructor. }
    destruct (network (length (sent w)) url) as [|s [j|]]; repeat case_match; simplify_eq; cbn; by apply Hs.
  - repeat case_match; simplify_eq; by apply sends_nothing.
Qed.

Lemma on_redis_quiet {A} (m : M (rworld R) HorizonError A) : keeps sends_plain (on_redis m : M W HorizonError A).
Proof. intros w. unfold world_of, on_redis. destruct (m (redis w)). by apply sends_nothing. Qed.

Lemma on_events_quiet {A} (q : list RawEvent → A) : keeps sends_plain (on_events q : M W HorizonError A).
Proof. intros w. unfold world_of, on_events. destruct (query q (events w)) as [[]]; by apply sends_nothing. Qed.

(** No key is ever sent.  Whatever is asked and whatever fails on the way, every
    request to Horizon carries the Accept header and no other: internal credentials
    do not leak, and the configured API key is not sent either. *)
Theorem no_credentials_sent now rnd address cursor limitStr :
  keeps sends_plain (transactions_route cfg number_text cursor_of network in_order now rnd address cursor limitStr : M W HorizonError HorizonTransactionResponse).
Proof.
  unfold transactions_route, getTransactions, enrich. keeps_walk; try apply on_redis_quiet; try apply fetch_plain; try apply on_events_quiet.
  intros w. by apply sends_nothing.
Qed.

(** ** Which operations are shown *)

(** Only payments and account creations are shown. *)
Lemma only_allowed_types raw l :
  filterHorizonOperations number_text raw = Ok l → Forall (λ r, op_type r ∈ ALLOWED_OPERATION_TYPES) l.
Proof.
  revert l. induction raw as [|r raw IH]; intros l; [by intros [= <-]|]. cbn [filterHorizonOperations].
  assert ((let! results := filterHorizonOperations number_text raw in
    match member r "type" with
    | Some (JStr t) => if bool_decide (t ∈ ALLOWED_OPERATION_TYPES) then Ok (operation number_text r t :: results) else Ok results
    | _ => Ok results end) = Ok l → Forall (λ r, op_type r ∈ ALLOWED_OPERATION_TYPES) l) as Hr.
  { intros (rs & Hrs & E)%rbind_ok_inv. specialize (IH rs Hrs). destruct (member r "type") as [[]|]; simplify_eq; try done.
    case_bool_decide; simplify_eq; [by constructor|done]. }
  by destruct r.
Qed.

(** A null among the records refuses the whole page: reading its type throws. *)
Theorem null_record_refuses_page raw : JNull ∈ raw → filterHorizonOperations number_text raw = Throw TypeErr.
Proof.
  induction raw as [|r raw IH]; [by intros ?%elem_of_nil|]. intros [<-|Hin]%elem_of_cons; [done|]. cbn [filterHorizonOperations].
  rewrite IH by done. by destruct r.
Qed.

(** ** The events of a transaction *)

Lemma group_lookup es (m : gmap string (list DecodedEvent)) h :
  default [] (foldl (λ m e, <[txHash e := (default [] (m !! txHash e) ++ [decoded e])%list]> m) m es !! h) =
    (default [] (m !! h) ++ (decoded <$> filter (λ e, txHash e = h) es))%list.
Proof.
  revert m. induction es as [|e es IH]; intros m; [by rewrite app_nil_r|]. cbn [foldl]. rewrite IH, filter_cons. case_decide as Hh.
  - subst h. rewrite lookup_insert_eq. cbn [default from_option]. unfold Datatypes.id. by rewrite fmap_cons, <- app_assoc.
  - by rewrite lookup_insert_ne.
Qed.

(** Enrichment is exact: on a healthy database every operation that names a
    transaction comes with all the indexed events of this transaction, in the order
    of their index. *)
Theorem enrichment_exact (filtered : list HorizonOperationRecord) (w : W) l :
  events w = healthy l →
  ∃ rs, (enrich in_order filtered w).1 = Ok rs ∧ (enrich in_order filtered w).2 = w ∧ length rs = length filtered ∧
    ∀ i r, filtered !! i = Some r → transaction_hash r ≠ "" →
      ∃ es, rs !! i = Some (with_events (decoded <$> es) r) ∧ es ≡ₚ filter (λ e, txHash e = transaction_hash r) l ∧
        StronglySorted Z.le (eventIndex <$> es).
Proof.
  intros Hw. unfold enrich. set (hs := filter (λ h, h ≠ "") (transaction_hash <$> filtered)).
  destruct (Nat.ltb_spec 0 (length hs)) as [Hlt|Hge].
  - assert (on_events (λ l, in_order (filter (λ e, txHash e ∈ hs) l)) w = (Ok (in_order (filter (λ e, txHash e ∈ hs) l)), w) :> result HorizonError _ * W) as E.
    { unfold on_events. rewrite Hw, query_healthy. destruct w; cbn in *. by rewrite Hw. }
    erewrite bind_ok by exact E. eexists. split; [reflexivity|]. split; [done|]. split; [by rewrite length_fmap|].
    intros i r Hr Hh. set (es := filter (λ e, txHash e = transaction_hash r) (in_order (filter (λ e, txHash e ∈ hs) l))). exists es. split_and!.
    + rewrite list_lookup_fmap, Hr. cbn [fmap option_fmap option_map]. unfold group. by rewrite group_lookup.
    + unfold es. rewrite in_order_perm, list_filter_filter_l; [done|]. intros e ->. apply list_elem_of_filter. split; [done|].
      apply list_elem_of_fmap_2. by apply list_elem_of_lookup_2 with i.
    + apply in_order_sorted.
  - exists filtered. split_and!; try done. intros i r Hr Hh. exfalso.
    assert (transaction_hash r ∈ hs) as Hin.
    { apply list_elem_of_filter. split; [done|]. apply list_elem_of_fmap_2. by apply list_elem_of_lookup_2 with i. }
    destruct hs; [by apply elem_of_nil in Hin|cbn in Hge; lia].
Qed.

(** ** The cache *)

(** For fifteen seconds the same request is answered with the stored response, and
    Horizon is not asked. *)
Theorem answered_from_cache now now' account cursor limit r x e b s :
  STELLAR_ADDRESS account = true → now ≤ now' < now + CACHE_TTL_SECONDS * 1000 →
  let stored : R := r_setex now (cache_key account cursor (Z.min (Z.max 1 limit) 200)) x CACHE_TTL_SECONDS r in
  getTransactions cfg number_text cursor_of network in_order now' account cursor limit (HWorld (healthy stored) e b s) =
    (Ok x, HWorld (healthy stored) e b s).
Proof.
  intros Ha Ht stored. unfold getTransactions. rewrite Ha. cbn [negb].
  set (k := cache_key _ _ _) in *.
  assert (on_redis (redis_get now' k) (HWorld (healthy stored) e b s) = (Ok (Some x), HWorld (healthy stored) e b s) :> result HorizonError _ * W) as E.
  { unfold on_redis, redis_get, try_catch, stored. cbn [redis]. rewrite query_healthy, get_setex by lia. by rewrite decide_True by lia. }
  by erewrite bind_ok by exact E.
Qed.

(** While the breaker is open nothing is sent, and the client is told when to come back. *)
Theorem open_breaker_asks_nothing url (w : W) :
  opened (breaker w) = true →
  fetchFromHorizonWithCircuitBreaker cfg network url w = (Throw (ServiceUnavailable (ceil_div (resetMs cfg) 1000)), w).
Proof. intros Ho. unfold fetchFromHorizonWithCircuitBreaker, fire. rewrite (opened_refuses _ Ho). by rewrite Ho. Qed.
End facts.

(** ** Witnesses *)

Module HorizonWitnesses.
Import Sample.

Definition both : Type := zsets * strings HorizonTransactionResponse.
#[local] Instance both_zset : RedisZSet both := {
  r_zat t k r := r_zat t k r.1;
  r_zremrangebyscore t k lo hi r := (r_zremrangebyscore t k lo hi r.1, r.2);
  r_zremrangebyscore_inf t k hi r := (r_zremrangebyscore_inf t k hi r.1, r.2);
  r_zadd t k s m r := (r_zadd t k s m r.1, r.2);
  r_pexpire t k ms r := (r_pexpire t k ms r.1, r.2);
}.
#[local] Instance both_string : RedisString HorizonTransactionResponse both := {
  r_get t k r := r_get t k r.2;
  r_setex t k v ttl r := (r.1, r_setex t k v ttl r.2);
  r_del k r := (r.1, r_del k r.2);
  r_scan_pages t p r := r_scan_pages t p r.2;
}.
#[local] Instance both_string_laws : RedisStringLaws HorizonTransactionResponse both.
Proof.
  split; cbn [r_get r_setex r_del r_scan_pages both_string].
  - intros t t' k v ttl r Ht. exact (get_setex (R:=strings _) t t' k v ttl r.2 Ht).
  - intros t t' k k' v ttl r Hk. exact (get_setex_ne (R:=strings _) t t' k k' v ttl r.2 Hk).
  - intros t k r. exact (get_del (R:=strings _) t k r.2).
  - intros t k k' r Hk. exact (get_del_ne (R:=strings _) t k k' r.2 Hk).
  - intros t t' k r Ht. exact (get_expired (R:=strings _) t t' k r.2 Ht).
  - intros t t' k r v Ht. exact (get_stable (R:=strings _) t t' k r.2 v Ht).
  - intros t p k r. exact (scan_complete (R:=strings _) t p k r.2).
Qed.

(** A breaker that opens after five failures. *)
#[local] Instance counting : Breaker nat := {
  opened n := (4 <? n)%nat; admits n := negb (4 <? n)%nat; late _ := false; settle ok n := if ok then O else S n }.
#[local] Instance counting_laws : BreakerLaws nat.
Proof. split. intros b. cbn. by intros ->. Qed.

Definition config : HorizonConfig :=
  {| horizonUrl := "https://horizon"; apiKey := Some "secret"; resetMs := 60000; maxRequests := 30; windowMs := 60000 |}.
Definition some_text (_ : option double) : string := "0".
Definition account : string := "G" +:+ join "" (replicate 55 "A").
Definition payment : json := JObj [("type", JStr "payment"); ("transaction_hash", JStr "t1")].
Definition page : json := JObj [("_embedded", JObj [("records", JArr [payment])])].
Definition event (i : Z) (h : string) : RawEvent :=
  {| txHash := h; eventIndex := i; contractId := "C"; ledger := 1; ledgerClosedAt := 0; topics := []; data := "" |}.
Definition indexed : list RawEvent := [event 2 "t1"; event 0 "t2"; event 1 "t1"].
Definition by_index (l : list RawEvent) : list RawEvent := stable_sort (λ a b, eventIndex b <? eventIndex a) l.
Definition start : hworld both nat := HWorld (healthy ([], [])) (healthy indexed) O [].

#[local] Instance index_trans : Transitive (λ a b : RawEvent, eventIndex a ≤ eventIndex b).
Proof. intros a b c. lia. Qed.
Lemma by_index_perm l : by_index l ≡ₚ l.
Proof. apply stable_sort_perm. Qed.
Lemma by_index_sorted l h : StronglySorted Z.le (eventIndex <$> filter (λ e, txHash e = h) (by_index l)).
Proof.
  assert (StronglySorted (λ a b, eventIndex a ≤ eventIndex b) (by_index l)) as Hs.
  { refine (stable_sort_sorted (λ a b, eventIndex a ≤ eventIndex b) _ _ _ _); intros a b; cbn; [intros ?%Z.ltb_ge; lia|intros ?%Z.ltb_lt; lia]. }
  induction Hs as [|x m Hs IH Hx]; [constructor|]. rewrite filter_cons. case_decide; [|done]. rewrite fmap_cons. constructor; [done|].
  apply Forall_fmap. rewrite Forall_forall in *. intros y [_ Hy]%list_elem_of_filter. exact (Hx y Hy).
Qed.

Definition net (n : nat) (_ : string) : HttpAnswer := Answer 200 (Some page).

Lemma no_credentials_sent_witness :
  ∃ w r, transactions_route config some_text (λ _, None) net by_index 5 "x" account None None start = (Ok r, w) ∧
    ∃ new, sent w = new ∧ length new = 1%nat ∧ Forall (λ q, q.2 = plain_headers) new.
Proof.
  destruct (transactions_route config some_text (λ _, None) net by_index 5 "x" account None None start) as [[r|e] w] eqn:E; [|vm_compute in E; discriminate E].
  exists w, r. split; [reflexivity|]. destruct (no_credentials_sent (R:=both) (B:=nat) config some_text (λ _, None) net by_index 5 "x" account None None start) as (new & Hn & Hf).
  unfold world_of in Hn. rewrite E in Hn. exists new. split; [exact Hn|]. split; [|exact Hf].
  apply (f_equal length) in Hn. cbn [sent start snd] in Hn. rewrite length_app in Hn. cbn in Hn. rewrite <- Hn. vm_compute in E. injection E as _ <-. reflexivity.
Defined.

Lemma enrichment_exact_witness :
  ∃ rs es, (enrich by_index [operation some_text payment "payment"] start).1 = Ok rs ∧ contractEvents <$> head rs = Some (Some es) ∧ length es = 2%nat.
Proof.
  destruct (enrichment_exact (R:=both) (B:=nat) by_index by_index_perm by_index_sorted [operation some_text payment "payment"] start indexed eq_refl)
    as (rs & E & _ & _ & H).
  destruct (H 0%nat _ eq_refl) as (es & Hes & Hp & _); [discriminate|]. exists rs, (decoded <$> es). split; [exact E|].
  destruct rs as [|r rs]; [discriminate Hes|]. injection Hes as ->. split; [reflexivity|]. rewrite length_fmap, Hp. reflexivity.
Defined.

Lemma null_record_refuses_page_witness : filterHorizonOperations some_text [payment; JNull] = Throw TypeErr.
Proof. apply null_record_refuses_page. right. left. Defined.

Lemma answered_from_cache_witness :
  let r := {| records := []; eventsEnriched := true; next_cursor := None |} in
  ∃ w, getTransactions (R:=both) (B:=nat) config some_text (λ _, None) net by_index 14000 account None 20 w = (Ok r, w).
Proof.
  intros r. eexists. apply (answered_from_cache (R:=both) (B:=nat) config some_text (λ _, None) net by_index 5 14000 account None 20 ([], []) r
    (healthy indexed) O []); [vm_compute; reflexivity|vm_compute; split; [discriminate|reflexivity]].
Defined.

Lemma open_breaker_asks_nothing_witness :
  ∃ w : hworld both nat, fetchFromHorizonWithCircuitBreaker config net "u" w = (Throw (ServiceUnavailable 60), w).
Proof. exists (HWorld (healthy ([], [])) (healthy []) 9%nat []). apply (open_breaker_asks_nothing (R:=both) (B:=nat) config net "u"). reflexivity. Defined.
End HorizonWitnesses.
