(* ===== verification/ContractTx.v ===== *)
(** * The life of a contract transaction in the web front end

    frontend/src/hooks/useContractTx.ts: build, sign, submit, poll until confirmed,
    then tell the application.  The wallet, the node and the application's callbacks
    are parameters; a poll takes its time and is followed by a pause of two seconds. *)

From stdpp Require Import base list strings.
From Stdlib Require Import ZArith Lia Ascii.
From S2P Require Import Prelude JsText.

Open Scope string_scope.
Open Scope Z_scope.

(** Models [ContractTxState] (frontend/src/hooks/useContractTx.ts:12-19). *)
Inductive ContractTxState := idle | building | awaiting_signature | submitting | confirming | success | error_.
(** Models [ContractTxErrorKind] (frontend/src/hooks/useContractTx.ts:25-30). *)
Inductive ContractTxErrorKind := user_rejected | insufficient_balance | simulation_failed | timeout | unknown.

(** Models [ContractTxError] (frontend/src/hooks/useContractTx.ts:32-40). *)
Record ContractTxError := { kind : ContractTxErrorKind; e_message : string; e_code : option Z; retryable : bool; xdrError : option string }.

(** A thrown value: its message, and the properties that are read. *)
Record JsError := { message : string; code : option Z; resultXdr : option string; transactionCode : option string }.
Definition plain_error (m : string) : JsError := {| message := m; code := None; resultXdr := None; transactionCode := None |}.

(** Models [CONTRACT_ERROR_MESSAGES] (frontend/src/hooks/useContractTx.ts:72-78). *)
Definition CONTRACT_ERROR_MESSAGES (c : Z) : option string :=
  if c =? 1 then Some "The contract rejected this operation."
  else if c =? 2 then Some "Insufficient balance to complete this transaction."
  else if c =? 3 then Some "This action has already been completed."
  else if c =? 4 then Some "The operation is not allowed in the current state."
  else if c =? 5 then Some "The provided amount is invalid."
  else None.

(** Models [classifyError] (frontend/src/hooks/useContractTx.ts:84-118). *)
Definition classifyError (err : JsError) : ContractTxError :=
  let lower := toLowerCase (message err) in
  if includes lower "user declined" || includes lower "rejected" || includes lower "denied" then
    {| kind := user_rejected; e_message := "You rejected the signature request."; e_code := None; retryable := true; xdrError := None |}
  else if includes lower "insufficient" || includes lower "underfunded" || includes lower "op_underfunded" then
    {| kind := insufficient_balance; e_message := "Insufficient balance to complete this transaction."; e_code := None; retryable := false; xdrError := None |}
  else if includes lower "timeout" || includes lower "timed out" then
    {| kind := timeout; e_message := "The transaction timed out. It may still confirm — check the explorer."; e_code := None; retryable := true; xdrError := None |}
  else
    match truthy (transactionCode err) with
    | Some c =>
        {| kind := unknown; e_message := toLowerCase (str_map (λ a, if bool_decide (a = "_"%char) then " "%char else a) c); e_code := None; retryable := true;
           xdrError := resultXdr err |}
    | None =>
        if bool_decide (is_Some (code err)) || includes lower "simulation" then
          {| kind := simulation_failed;
             e_message := default "The contract simulation failed." (match code err with Some c => CONTRACT_ERROR_MESSAGES c | None => None end);
             e_code := code err; retryable := false; xdrError := resultXdr err |}
        else
          {| kind := unknown; e_message := default "Something went wrong." (truthy (Some (message err))); e_code := None; retryable := true; xdrError := resultXdr err |}
    end.

(** The answers of the node. *)
Record Submission := { s_status : string; s_hash : string; s_errorXdr : option string }.
Inductive PollAnswer := NOT_FOUND | SUCCESS | FAILED (xdr : option string).

Definition POLL_INTERVAL_MS : Z := 2000.

(** What the hook holds, and what it has done: the signed transactions sent. *)
Record hook := Hook {
  state : ContractTxState; error : option ContractTxError; tx_result : option string; sent : list string; trace : list ContractTxState }.

Section run.
(** One run against the outside: [polled n] is the answer to the n-th poll of the
    given hash, [poll_time n] the milliseconds until the next one is due, the pause
    included; [mounted s] whether the component is there when [s] is to be shown. *)
Variables (build : result JsError string) (signTransaction : string → result JsError string) (parses : string → bool).
Variable sendTransaction : string → result JsError Submission.
Variables (polled : string → nat → result JsError PollAnswer) (poll_time : nat → Z).
Variables (invalidated onSuccess : result JsError ()).
Variables (mounted : ContractTxState → bool) (confirmTimeoutMs : Z).
Abbreviation MC A := (M hook JsError A).

Definition shown (s : ContractTxState) (h : hook) : hook :=
  if mounted s then Hook s (error h) (tx_result h) (sent h) (trace h ++ [s]) else h.
(** Models [safeSetState] (frontend/src/hooks/useContractTx.ts:155-157). *)
Definition safeSetState (s : ContractTxState) : MC () := λ h, (Ok tt, shown s h).
Definition attempt {A} (r : result JsError A) : MC A := λ h, (r, h).

(** The loop from the n-th poll, [left] milliseconds before the deadline. *)
Fixpoint poll_loop (fuel : nat) (hash : string) (n : nat) (left : Z) : option (result JsError bool) :=
  if left <=? 0 then Some (Ok false)
  else
    match fuel with
    | O => None
    | S fuel' =>
        match polled hash n with
        | Throw e => Some (Throw e)
        | Ok SUCCESS => Some (Ok true)
        | Ok (FAILED x) => Some (Throw {| message := "Transaction failed on-chain"; code := None; resultXdr := x; transactionCode := None |})
        | Ok NOT_FOUND => poll_loop fuel' hash (S n) (left - poll_time n)
        end
    end.

Definition poll_fuel : nat := Z.to_nat (confirmTimeoutMs / POLL_INTERVAL_MS + 1).

Definition run_steps : MC string :=
  do* safeSetState building in
  let* xdr := attempt build in
  do* safeSetState awaiting_signature in
  let* signedXdr := attempt (signTransaction xdr) in
  do* safeSetState submitting in
  do* (if parses signedXdr then ret tt else throw (plain_error "XDR Read Error")) in
  do* (λ h, (Ok tt, Hook (state h) (error h) (tx_result h) (sent h ++ [signedXdr]) (trace h))) in
  let* submission := attempt (sendTransaction signedXdr) in
  do* (if bool_decide (s_status submission = "ERROR")
       then throw {| message := "Transaction submission failed"; code := None; resultXdr := s_errorXdr submission; transactionCode := None |}
       else ret tt) in
  do* safeSetState confirming in
  let* confirmed := attempt (default (Ok false) (poll_loop poll_fuel (s_hash submission) 0 confirmTimeoutMs)) in
  do* (if confirmed then ret tt else throw (plain_error "Transaction confirmation timed out")) in
  do* (λ h, (Ok tt, Hook (state h) (error h) (if mounted success then Some (s_hash submission) else tx_result h) (sent h) (trace h))) in
  do* safeSetState success in
  do* attempt invalidated in
  do* attempt onSuccess in
  ret (s_hash submission).

(** Models [run] (frontend/src/hooks/useContractTx.ts:159-223). *)
Definition run (h : hook) : option string * hook :=
  match run_steps (Hook (state h) None None (sent h) (trace h)) with
  | (Ok hash, h1) => (Some hash, h1)
  | (Throw e, h1) =>
      (None, let h2 := Hook (state h1) (if mounted error_ then Some (classifyError e) else error h1) (tx_result h1) (sent h1) (trace h1) in
             (safeSetState error_ h2).2)
  end.

(** Models [reset] (frontend/src/hooks/useContractTx.ts:225-229). *)
Definition reset (h : hook) : hook := Hook idle None None (sent h) (trace h).

(** ** Polling ends *)

Hypothesis pause : ∀ n, POLL_INTERVAL_MS ≤ poll_time n.

Lemma poll_loop_ends fuel hash n left : left ≤ Z.of_nat fuel * POLL_INTERVAL_MS → is_Some (poll_loop fuel hash n left).
Proof.
  unfold POLL_INTERVAL_MS. revert n left. induction fuel as [|fuel IH]; intros n left Hl; cbn [poll_loop];
    destruct (Z.leb_spec left 0); eauto; [lia|]. destruct (polled hash n) as [[]|]; eauto.
  apply IH. pose proof (pause n). unfold POLL_INTERVAL_MS in *. lia.
Qed.

Lemma poll_fuel_enough hash : is_Some (poll_loop poll_fuel hash 0 confirmTimeoutMs).
Proof.
  apply poll_loop_ends. unfold poll_fuel, POLL_INTERVAL_MS. destruct (decide (0 ≤ confirmTimeoutMs)); [|lia].
  pose proof (Z.mul_div_le confirmTimeoutMs 2000). pose proof (Z.mul_succ_div_gt confirmTimeoutMs 2000 ltac:(lia)). lia.
Qed.

Lemma poll_yes fuel hash n left : poll_loop fuel hash n left = Some (Ok true) → ∃ m, (m < n + fuel)%nat ∧ polled hash m = Ok SUCCESS.
Proof.
  revert n left. induction fuel as [|fuel IH]; intros n left; cbn [poll_loop]; destruct (_ <=? _); try done.
  destruct (polled hash n) as [[| |]|] eqn:E; try done; [|exists n; split; [lia|done]].
  intros (m & Hm & Hp)%IH. exists m. split; [lia|done].
Qed.

(** Waiting for the confirmation ends.  However long the polls take, the loop is over
    after at most one poll for every two seconds of the timeout and one more; it
    answers yes only when the node reported the transaction successful. *)
Theorem confirmation_ends hash :
  ∃ r, poll_loop poll_fuel hash 0 confirmTimeoutMs = Some r ∧ (r = Ok true → ∃ n, (n < poll_fuel)%nat ∧ polled hash n = Ok SUCCESS).
Proof.
  destruct (poll_fuel_enough hash) as [r Hr]. exists r. split; [done|]. intros ->.
  destruct (poll_yes _ _ _ _ Hr) as (m & Hm & Hp). exists m. split; [lia|done].
Qed.

(** ** What a run does *)

Lemma poll_cases hash :
  default (Ok false) (poll_loop poll_fuel hash 0 confirmTimeoutMs) = Ok true → ∃ n, polled hash n = Ok SUCCESS.
Proof.
  destruct (poll_fuel_enough hash) as [r Hr]. rewrite Hr. cbn [default from_option]. unfold id. intros ->.
  destruct (poll_yes _ _ _ _ Hr) as (n & _ & Hn). by exists n.
Qed.

Definition lifecycle : list ContractTxState := [building; awaiting_signature; submitting; confirming; success].

Lemma sent_shown s h : sent (shown s h) = sent h.
Proof. unfold shown. by destruct (mounted s). Qed.

Lemma trace_shown s h : mounted s = true → trace (shown s h) = (trace h ++ [s])%list.
Proof. unfold shown. by intros ->. Qed.
Lemma state_shown s h : mounted s = true → state (shown s h) = s.
Proof. unfold shown. by intros ->. Qed.
Lemma tx_result_shown s h : tx_result (shown s h) = tx_result h.
Proof. unfold shown. by destruct (mounted s). Qed.
Lemma error_shown s h : error (shown s h) = error h.
Proof. unfold shown. by destruct (mounted s). Qed.

(** The value a run computes, once the answers of the outside are known. *)
Ltac run_step := unfold run, run_steps, bind, attempt, safeSetState, ret, throw; cbn beta iota zeta.

Ltac ended l :=
  exists l; cbn [fst snd]; repeat first [rewrite sent_shown | progress cbn [sent]]; rewrite ?app_nil_r;
  split_and!; done || (cbn; lia).
Ltac showing k :=
  exists k; cbn [fst snd];
  repeat first [rewrite trace_shown by done | rewrite state_shown by done | progress cbn [trace state]];
  rewrite <- ?app_assoc; split_and!; [lia|reflexivity| |reflexivity]; done || lia.

(** C27: One run, at most one submission.  Whatever fails, a run sends the signed
    transaction once or not at all, and it reports success only for a transaction it
    sent and the node reported successful. *)
Theorem run_submits_once h :
  ∃ new, sent (run h).2 = (sent h ++ new)%list ∧ (length new ≤ 1)%nat ∧
    ∀ hash, (run h).1 = Some hash →
      ∃ signed sub n, new = [signed] ∧ sendTransaction signed = Ok sub ∧ s_hash sub = hash ∧ polled hash n = Ok SUCCESS.
Proof.
  run_step. destruct build as [xdr|e]; [|ended (@nil string)]. destruct (signTransaction xdr) as [signed|e] eqn:Es; [|ended (@nil string)].
  destruct (parses signed); cbn beta iota; [|ended (@nil string)].
  destruct (sendTransaction signed) as [sub|e] eqn:Esub; [|ended [signed]].
  destruct (bool_decide (s_status sub = "ERROR")); cbn beta iota; [ended [signed]|].
  pose proof (poll_cases (s_hash sub)) as Hp.
  destruct (default (Ok false) (poll_loop poll_fuel (s_hash sub) 0 confirmTimeoutMs)) as [[]|e]; cbn beta iota; [|ended [signed]..].
  destruct (Hp eq_refl) as [n Hn]. destruct invalidated; [|ended [signed]]. destruct onSuccess; [|ended [signed]].
  exists [signed]. cbn [fst snd]. repeat first [rewrite sent_shown | progress cbn [sent]]. split_and!; [done|cbn; lia|].
  intros hash [= <-]. by exists signed, sub, n.
Qed.

(** The states shown follow the life cycle: while the component is there, a run goes
    through a beginning of building, signing, submitting, confirming and success, and
    ends in error when it does not return the hash. *)
Theorem lifecycle_followed h :
  (∀ s, mounted s = true) →
  ∃ k, (k ≤ 5)%nat ∧ trace (run h).2 = (trace h ++ take k lifecycle ++ match (run h).1 with Some _ => [] | None => [error_] end)%list ∧
    ((run h).1 ≠ None → k = 5%nat) ∧ state (run h).2 = (match (run h).1 with Some _ => success | None => error_ end).
Proof.
  intros Hm. run_step. rewrite !Hm. destruct build as [xdr|e]; [|showing 1%nat]. destruct (signTransaction xdr) as [signed|e]; [|showing 2%nat].
  destruct (parses signed); cbn beta iota; [|showing 3%nat]. destruct (sendTransaction signed) as [sub|e]; [|showing 3%nat].
  destruct (bool_decide (s_status sub = "ERROR")); cbn beta iota; [showing 3%nat|].
  destruct (default (Ok false) (poll_loop poll_fuel (s_hash sub) 0 confirmTimeoutMs)) as [[]|e]; cbn beta iota; [|showing 4%nat..].
  destruct invalidated; [|showing 5%nat]. destruct onSuccess; showing 5%nat.
Qed.

(** A transaction that succeeded is shown as failed when the application's own
    callback fails afterwards: the state is error, and unless the callback's message
    happens to name a lack of funds or a simulation, a retry, which builds and sends
    another transaction, is offered. *)
Theorem callback_failure_hides_success xdr signed sub e h :
  (∀ s, mounted s = true) → build = Ok xdr → signTransaction xdr = Ok signed → parses signed = true →
  sendTransaction signed = Ok sub → s_status sub ≠ "ERROR" →
  0 < confirmTimeoutMs → polled (s_hash sub) 0%nat = Ok SUCCESS → invalidated = Ok tt → onSuccess = Throw e →
  (run h).1 = None ∧ state (run h).2 = error_ ∧ tx_result (run h).2 = Some (s_hash sub) ∧ error (run h).2 = Some (classifyError e).
Proof.
  intros Hm Hb Hsg Hp Hsd Hst Ht Hpl Hi Ho.
  assert (default (Ok false) (poll_loop poll_fuel (s_hash sub) 0 confirmTimeoutMs) = Ok true) as Hc.
  { unfold poll_fuel. replace (Z.to_nat (confirmTimeoutMs / POLL_INTERVAL_MS + 1)) with (S (Z.to_nat (confirmTimeoutMs / POLL_INTERVAL_MS))).
    - cbn [poll_loop]. destruct (Z.leb_spec confirmTimeoutMs 0); [lia|]. by rewrite Hpl.
    - unfold POLL_INTERVAL_MS. assert (0 ≤ confirmTimeoutMs / 2000) by (apply Z.div_pos; lia). lia. }
  run_step. rewrite !Hm, Hb, Hsg, Hp. cbn beta iota. rewrite Hsd. rewrite bool_decide_false by done. cbn beta iota. rewrite Hc. cbn beta iota.
  rewrite Hi, Ho. cbn [fst snd]. rewrite state_shown, tx_result_shown, error_shown by done. repeat first [rewrite tx_result_shown | rewrite error_shown | progress cbn [tx_result error]]. done.
Qed.
End run.

(** ** Witnesses *)

Module ContractTxWitnesses.
Definition fresh : hook := Hook idle None None [] [].
Definition wallet_signs (xdr : string) : result JsError string := Ok ("signed:" +:+ xdr).
Definition send (_ : string) : result JsError Submission := Ok {| s_status := "PENDING"; s_hash := "abcd"; s_errorXdr := None |}.
(** The node sees the transaction at the third poll. *)
Definition third (_ : string) (n : nat) : result JsError PollAnswer := Ok (if (2 <=? n)%nat then SUCCESS else NOT_FOUND).
Definition every (_ : nat) : Z := 2100.
Lemma every_pauses n : POLL_INTERVAL_MS ≤ every n.
Proof. done. Qed.

Lemma confirmation_ends_witness :
  ∃ r, poll_loop third every (poll_fuel 60000) "abcd" 0 60000 = Some r ∧ r = Ok true.
Proof.
  destruct (confirmation_ends third every 60000 every_pauses "abcd") as (r & H & _). exists r. split; [exact H|].
  vm_compute in H. by injection H as <-.
Defined.

Definition there (_ : ContractTxState) : bool := true.
Definition a_run (onSuccess : result JsError ()) (h : hook) :=
  run (Ok "xdr") wallet_signs (λ _, true) send third every (Ok tt) onSuccess there 60000 h.

Lemma run_submits_once_witness :
  ∃ new, sent (a_run (Ok tt) fresh).2 = new ∧ (length new ≤ 1)%nat ∧ (a_run (Ok tt) fresh).1 = Some "abcd".
Proof.
  destruct (run_submits_once (Ok "xdr") wallet_signs (λ _, true) send third every (Ok tt) (Ok tt) there 60000 every_pauses fresh) as (new & H & Hl & _).
  exists new. split_and!; [exact H|exact Hl|vm_compute; reflexivity].
Defined.

Lemma lifecycle_followed_witness :
  ∃ k, (k ≤ 5)%nat ∧ trace (a_run (Ok tt) fresh).2 = (take k lifecycle ++ [])%list ∧ k = 5%nat.
Proof.
  destruct (lifecycle_followed (Ok "xdr") wallet_signs (λ _, true) send third every (Ok tt) (Ok tt) there 60000 fresh ltac:(done))
    as (k & Hk & Ht & H5 & _).
  assert (k = 5%nat) as -> by (apply H5; by vm_compute). exists 5%nat. split_and!; [done|exact Ht|done].
Defined.

Definition toast_error : JsError := plain_error "toast is not defined".
Definition at_once (_ : string) (_ : nat) : result JsError PollAnswer := Ok SUCCESS.
Lemma callback_failure_hides_success_witness :
  let r := run (Ok "xdr") wallet_signs (λ _, true) send at_once every (Ok tt) (Throw toast_error) there 60000 fresh in
  r.1 = None ∧ state r.2 = error_ ∧ (∃ e, error r.2 = Some e ∧ retryable e = true).
Proof.
  destruct (callback_failure_hides_success (Ok "xdr") wallet_signs (λ _, true) send at_once every (Ok tt) (Throw toast_error) there 60000
              "xdr" "signed:xdr" {| s_status := "PENDING"; s_hash := "abcd"; s_errorXdr := None |} toast_error fresh)
    as (H1 & H2 & _ & H4); [done..|]. split_and!; [exact H1|exact H2|]. eexists. split; [exact H4|vm_compute; reflexivity].
Defined.
End ContractTxWitnesses.
