(* ===== verification/ClaimStream.v ===== *)
(** * Live claim updates

    backend/src/events/claim-events.service.ts, sse-connection.registry.ts and
    events.controller.ts.  The indexer publishes status changes on a Redis channel;
    every instance of the backend that is subscribed hands each message to those of
    its open streams that watch the claim.  A subject is the list of what it emitted;
    [output] keeps what all of them emitted, in order. *)

From stdpp Require Import base list strings.
From Stdlib Require Import ZArith Lia Ascii.
From S2P Require Import Prelude JsText JsNumber Codec.

Open Scope string_scope.
Open Scope Z_scope.

(** ** The registry *)

(** What a subject emits. *)
Inductive frame := Next (data : json) | Complete.

(** Models [SseConnection] (backend/src/events/sse-connection.registry.ts:34-40). *)
Record SseConnection := { claimIds : list string; createdAt : Z; walletAddress : option string }.

Record registry := { connections : list (string * SseConnection); output : list (string * frame) }.

Inductive refusal := ServiceUnavailable (message : string) | BadRequest (message : string) | TypeError.

(** [Map.set]: the place of a known key is kept. *)
Fixpoint map_set (k : string) (c : SseConnection) (m : list (string * SseConnection)) : list (string * SseConnection) :=
  match m with
  | [] => [(k, c)]
  | (k', c') :: m' => if bool_decide (k' = k) then (k, c) :: m' else (k', c') :: map_set k c m'
  end.
Definition without (k : string) (m : list (string * SseConnection)) : list (string * SseConnection) := filter (λ p, p.1 ≠ k) m.
Definition known (k : string) (r : registry) : bool := bool_decide (k ∈ (connections r).*1).

(** [connections] with what [f] emits on each of them. *)
Definition emit (r : registry) (l : list (string * frame)) : registry :=
  {| connections := connections r; output := (output r ++ l)%list |}.

(** Models [register] (backend/src/events/sse-connection.registry.ts:52-73). *)
Definition register (maxConnections : Z) (id : string) (ids : list string) (wallet : option string) (now : Z) (r : registry)
  : result refusal SseConnection * registry :=
  if maxConnections <=? Z.of_nat (length (connections r)) then
    (Throw (ServiceUnavailable ("SSE connection limit reached (" +:+ show_Z maxConnections +:+ "). Try again later.")), r)
  else
    let connection := {| claimIds := ids; createdAt := now; walletAddress := wallet |} in
    (Ok connection, {| connections := map_set id connection (connections r); output := output r |}).

(** Completing the subject runs the stream's [finalize], which unregisters the same
    connection once more: its subject is stopped by then and the entry goes.
    Models [unregister] (backend/src/events/sse-connection.registry.ts:75-82). *)
Definition unregister (id : string) (r : registry) : registry :=
  if known id r then {| connections := without id (connections r); output := (output r ++ [(id, Complete)])%list |} else r.

Definition watches (cid : string) (c : SseConnection) : bool := bool_decide (cid ∈ claimIds c).
Definition watchers (cid : string) (r : registry) : list string := (filter (λ p, watches cid p.2 = true) (connections r)).*1.

(** Models [broadcast] (backend/src/events/sse-connection.registry.ts:100-116). *)
Definition broadcast (cid : string) (payload : json) (r : registry) : registry :=
  emit r ((λ id, (id, Next payload)) <$> watchers cid r).

Definition server_shutdown : json := JObj [("event", JStr "close"); ("reason", JStr "server_shutdown")].

Fixpoint farewells (m : list (string * SseConnection)) : list (string * frame) :=
  match m with [] => [] | (k, _) :: m' => (k, Next server_shutdown) :: (k, Complete) :: farewells m' end.

(** Models [drainAll] (backend/src/events/sse-connection.registry.ts:122-136). *)
Definition drainAll (r : registry) : registry :=
  {| connections := []; output := (output r ++ farewells (connections r))%list |}.

(** ** The route *)

Definition MAX_CLAIM_IDS : nat := 50.

(** What the client receives for an emitted value: the [map] of the pipe. *)
Record sse_message := { retry : Z; type : string; data : json }.
Definition to_client (payload : json) : sse_message := {| retry := 5000; type := "claim_update"; data := payload |}.

(** [id] is the fresh identifier of the connection.
    Models [streamClaims] (backend/src/events/events.controller.ts:88-131). *)
Definition streamClaims (maxConnections : Z) (id : string) (claimIdParam : list string) (wallet : option string) (now : Z) (r : registry)
  : result refusal SseConnection * registry :=
  let ids := take MAX_CLAIM_IDS (filter (λ s, s ≠ "") claimIdParam) in
  match ids with
  | [] => (Throw (BadRequest "At least one claimId query parameter is required."), r)
  | _ => register maxConnections id ids wallet now r
  end.

(** ** The channel *)

(** Models [ClaimStatusChangedEvent] (backend/src/events/claim-events.service.ts:29-34). *)
Record ClaimStatusChangedEvent := { claimId : string; status : string; updatedAt : string; ledger : option Z }.

(** JSON.stringify of an event whose texts need no escapes. *)
Definition event_json (e : ClaimStatusChangedEvent) : string :=
  "{" +:+ quoted "claimId" +:+ ":" +:+ quoted (claimId e) +:+ "," +:+ quoted "status" +:+ ":" +:+ quoted (status e) +:+ "," +:+
  match ledger e with
  | Some n => quoted "updatedAt" +:+ ":" +:+ quoted (updatedAt e) +:+ "," +:+ quoted "ledger" +:+ ":" +:+ show_Z n +:+ "}"
  | None => quoted "updatedAt" +:+ ":" +:+ quoted (updatedAt e) +:+ "}"
  end.

Definition undefined_or (v : option json) : bool := match v with Some x => to_Boolean x | None => false end.

(** The listener of the subscribed connection.
    Models [handleMessage] (backend/src/events/claim-events.service.ts:127-143). *)
Definition handleMessage (message : string) (r : registry) : result refusal () * registry :=
  match JSON_parse message with
  | None => (Ok tt, r)
  | Some JNull => (Throw TypeError, r)
  | Some event =>
      if negb (undefined_or (member event "claimId")) || negb (undefined_or (member event "status")) then (Ok tt, r)
      else
        match member event "claimId" with
        | Some (JStr cid) => (Ok tt, broadcast cid event r)
        | _ => (Ok tt, r)
        end
  end.

(** An instance of the backend: whether its subscriber is connected. *)
Record instance := { subscribed : bool; streams : registry }.
Definition receive (message : string) (i : instance) : instance :=
  if subscribed i then {| subscribed := true; streams := (handleMessage message (streams i)).2 |} else i.

(** A publication reaches every subscribed instance, the publisher included; one that
    fails is only logged, [publisher] being there after the module has started.
    Models [publish] (backend/src/events/claim-events.service.ts:116-125). *)
Definition publish (publisher redis_up : bool) (e : ClaimStatusChangedEvent) (cluster : list instance) : list instance :=
  if publisher && redis_up then receive (event_json e) <$> cluster else cluster.

(** What happens to an instance. *)
Inductive input :=
  | Open (id : string) (claimIdParam : list string) (wallet : option string) (now : Z)
  | Disconnect (id : string)
  | Message (text : string).

Definition step (maxConnections : Z) (r : registry) (i : input) : registry :=
  match i with
  | Open id p w now => (streamClaims maxConnections id p w now r).2
  | Disconnect id => unregister id r
  | Message m => (handleMessage m r).2
  end.
Definition history (maxConnections : Z) : registry → list input → registry := foldl (step maxConnections).

(** What the connection [id] was sent. *)
Definition sent_to (id : string) (l : list (string * frame)) : list frame := (filter (λ p, p.1 = id) l).*2.

(** The accepted event of a message: its claim and its content. *)
Definition accepted (message : string) : option (string * json) :=
  match JSON_parse message with
  | None | Some JNull => None
  | Some event =>
      if negb (undefined_or (member event "claimId")) || negb (undefined_or (member event "status")) then None
      else match member event "claimId" with Some (JStr cid) => Some (cid, event) | _ => None end
  end.
(** What a stream that watches [ids] has to receive. *)
Definition due (ids : list string) (inputs : list input) : list frame :=
  omap (λ i, match i with
             | Message m => match accepted m with
                            | Some (cid, event) => if bool_decide (cid ∈ ids) then Some (Next event) else None
                            | None => None
                            end
             | _ => None
             end) inputs.
Definition names (id : string) (i : input) : bool :=
  match i with Open k _ _ _ | Disconnect k => bool_decide (k = id) | Message _ => false end.

(** ** Lemmas *)

Arguments sent_to : simpl never.
Arguments watchers : simpl never.
Arguments due : simpl never.

Definition conn_ids (r : registry) : list string := (connections r).*1.
Definition bounded (maxConnections : Z) (r : registry) : Prop :=
  NoDup (conn_ids r) ∧ Z.of_nat (length (connections r)) ≤ maxConnections.

Lemma handle_accepted m r :
  (handleMessage m r).2 = match accepted m with Some (cid, event) => broadcast cid event r | None => r end.
Proof. unfold handleMessage, accepted. repeat case_match; done. Qed.

Lemma map_set_ids k c m x : x ∈ (map_set k c m).*1 ↔ x = k ∨ x ∈ m.*1.
Proof.
  induction m as [|[k' c'] m IH]; cbn; [by rewrite elem_of_cons, elem_of_nil|].
  case_bool_decide; subst; cbn; rewrite !elem_of_cons; [tauto|]. rewrite IH. tauto.
Qed.

Lemma map_set_in k c m : (k, c) ∈ map_set k c m.
Proof. induction m as [|[k' c'] m IH]; cbn; [by left|]. case_bool_decide; [by left|by right]. Qed.

Lemma map_set_ok k c m n : NoDup m.*1 → (length m < n)%nat → NoDup (map_set k c m).*1 ∧ (length (map_set k c m) ≤ n)%nat.
Proof.
  revert n. induction m as [|[k' c'] m IH]; intros n Hn Hl; cbn; [split; [by repeat constructor; rewrite ?elem_of_nil; auto using not_elem_of_nil|cbn in *; lia]|].
  cbn in *. apply NoDup_cons in Hn as [Hk Hn]. destruct n as [|n]; [lia|]. case_bool_decide; subst; cbn.
  - split; [by apply NoDup_cons|lia].
  - destruct (IH n Hn ltac:(lia)) as [H1 H2]. split; [|lia]. apply NoDup_cons. split; [|done]. rewrite map_set_ids. naive_solver.
Qed.


Lemma stream_step_bounded max r i : bounded max r → bounded max (step max r i).
Proof.
  intros [Hn Hl]. destruct i as [id p w now|id|m]; cbn [step].
  - unfold streamClaims. destruct (take _ _); [done|]. unfold register. destruct (Z.leb_spec max (Z.of_nat (length (connections r)))); [done|].
    destruct (map_set_ok id {| claimIds := s :: l; createdAt := now; walletAddress := w |} (connections r) (Z.to_nat max) Hn) as [H1 H2]; [lia|].
    split; [done|]. cbn. lia.
  - unfold unregister. destruct (known id r); [|done]. split; cbn; unfold conn_ids, without in *; cbn.
    + eapply sublist_NoDup; [exact Hn|]. apply (fmap_sublist fst), sublist_filter.
    + pose proof (length_filter (λ p : string * SseConnection, p.1 ≠ id) (connections r)). lia.
  - rewrite handle_accepted. by destruct (accepted m) as [[]|].
Qed.

Lemma history_bounded max inputs r : bounded max r → bounded max (history max r inputs).
Proof. revert r. induction inputs as [|i inputs IH]; intros r Hr; [done|]. cbn. apply IH, stream_step_bounded, Hr. Qed.

Lemma sent_to_app id l1 l2 : sent_to id (l1 ++ l2)%list = (sent_to id l1 ++ sent_to id l2)%list.
Proof. unfold sent_to. by rewrite filter_app, fmap_app. Qed.

Lemma sent_to_none id ids f : id ∉ ids → sent_to id ((λ k, (k, f)) <$> ids) = [].
Proof.
  induction ids as [|k ids IH]; intros Hn; [done|]. apply not_elem_of_cons in Hn as [Hk Hn].
  unfold sent_to in *. cbn. rewrite decide_False by (cbn; congruence). by apply IH.
Qed.
Lemma sent_to_once id ids f : NoDup ids → id ∈ ids → sent_to id ((λ k, (k, f)) <$> ids) = [f].
Proof.
  induction ids as [|k ids IH]; intros Hn Hin; [by apply elem_of_nil in Hin|]. apply NoDup_cons in Hn as [Hk Hn].
  unfold sent_to in *. cbn. apply elem_of_cons in Hin as [<-|Hin].
  - rewrite decide_True by done. cbn. f_equal. by apply sent_to_none.
  - rewrite decide_False by (cbn; intros ->; done). by apply IH.
Qed.

Lemma watchers_sub cid r : NoDup (conn_ids r) → NoDup (watchers cid r).
Proof. intros Hn. eapply sublist_NoDup; [exact Hn|]. apply (fmap_sublist fst), sublist_filter. Qed.

Lemma keys_functional (m : list (string * SseConnection)) k a b : NoDup m.*1 → (k, a) ∈ m → (k, b) ∈ m → a = b.
Proof.
  induction m as [|[k' c'] m IH]; intros Hn Ha Hb; [by apply elem_of_nil in Ha|]. cbn in Hn. apply NoDup_cons in Hn as [Hk Hn].
  assert (∀ c, (k', c) ∈ m → False) as Hnone by (intros c Hc; apply Hk, list_elem_of_fmap; by exists (k', c)).
  apply elem_of_cons in Ha as [Ha|Ha]; apply elem_of_cons in Hb as [Hb|Hb]; simplify_eq; eauto; by edestruct Hnone.
Qed.

Lemma watchers_spec cid r id c : NoDup (conn_ids r) → (id, c) ∈ connections r → id ∈ watchers cid r ↔ cid ∈ claimIds c.
Proof.
  intros Hn Hc. unfold watchers. rewrite list_elem_of_fmap. split.
  - intros ([k d] & Hk & [Hw Hd]%list_elem_of_filter). cbn in *. subst k. rewrite (keys_functional _ _ _ _ Hn Hc Hd). unfold watches in Hw. by bool_prop.
  - intros Hin. exists (id, c). split; [done|]. apply list_elem_of_filter. split; [by apply bool_decide_eq_true|done].
Qed.

(** What one input sends to an open connection that it does not name. *)
Lemma step_sent max r i id c :
  bounded max r → (id, c) ∈ connections r → names id i = false →
  (id, c) ∈ connections (step max r i) ∧
  sent_to id (output (step max r i)) = (sent_to id (output r) ++ due (claimIds c) [i])%list.
Proof.
  intros [Hn Hl] Hc Hi. destruct i as [k p w now|k|m]; cbn [step names] in *; bool_prop.
  - unfold due. cbn. rewrite app_nil_r. unfold streamClaims. destruct (take _ _); [done|]. unfold register. destruct (max <=? _); [done|]. cbn. split; [|done].
    clear Hn Hl. generalize (connections r), Hc. intros l0 Hl0. induction l0 as [|[k' c'] m IH]; [by apply elem_of_nil in Hl0|]. cbn.
    apply elem_of_cons in Hl0 as [[= <- <-]|Hl0]; case_bool_decide; subst; try done; [by left|by right|right; by apply IH].
  - unfold due. cbn. rewrite app_nil_r. unfold unregister. destruct (known k r); [|done]. cbn. split.
    + unfold without. apply list_elem_of_filter. split; [cbn; congruence|done].
    + rewrite sent_to_app. unfold sent_to at 2. cbn. rewrite decide_False by (cbn; done). by rewrite app_nil_r.
  - unfold due. cbn [omap list_omap]. rewrite handle_accepted. destruct (accepted m) as [[cid event]|]; [|split; [done|by rewrite app_nil_r]].
    split; [done|]. unfold broadcast, emit. cbn [output connections]. rewrite sent_to_app. f_equal.
    pose proof (watchers_spec cid r id c Hn Hc) as Hw. case_bool_decide.
    + apply sent_to_once; [by apply watchers_sub|tauto].
    + apply sent_to_none. tauto.
Qed.

Lemma due_cons ids i l : due ids (i :: l) = (due ids [i] ++ due ids l)%list.
Proof. unfold due. cbn. by repeat case_match. Qed.

Lemma history_sent max inputs r id c :
  bounded max r → (id, c) ∈ connections r → Forall (λ i, names id i = false) inputs →
  (id, c) ∈ connections (history max r inputs) ∧
  sent_to id (output (history max r inputs)) = (sent_to id (output r) ++ due (claimIds c) inputs)%list.
Proof.
  revert r. induction inputs as [|i inputs IH]; intros r Hb Hc Hi; [split; [done|]; unfold due; cbn; by rewrite app_nil_r|].
  apply Forall_cons in Hi as [H1 Hi]. destruct (step_sent max r i id c Hb Hc H1) as [H2 H3].
  destruct (IH (step max r i) (stream_step_bounded max r i Hb) H2 Hi) as [H4 H5]. split; [done|]. cbn. unfold history in *. cbn.
  rewrite H5, H3, (due_cons _ i inputs), app_assoc. done.
Qed.



(** ** Properties *)


(** The registry stays within its limit.  Over every history of an instance its open
    streams have different identifiers and are no more than the limit; at the limit a
    request is answered 503 and changes nothing. *)
Theorem connections_bounded max inputs :
  0 ≤ max →
  let r := history max {| connections := []; output := [] |} inputs in
  NoDup (conn_ids r) ∧ Z.of_nat (length (connections r)) ≤ max ∧
  (Z.of_nat (length (connections r)) = max → ∀ id ids wallet now, ∃ m, register max id ids wallet now r = (Throw (ServiceUnavailable m), r)).
Proof.
  intros Hm r. destruct (history_bounded max inputs {| connections := []; output := [] |}) as [H1 H2]; [by split; [constructor|]|].
  split_and!; [done|done|]. intros Hfull id ids w now. unfold register. fold r. rewrite Hfull, Z.leb_refl. by eexists.
Qed.

(** *** Across instances *)

Definition plain_event (e : ClaimStatusChangedEvent) : Prop :=
  str_forall plain (claimId e) = true ∧ str_forall plain (status e) = true ∧ str_forall plain (updatedAt e) = true ∧
  (∀ n, ledger e = Some n → 0 ≤ n) ∧ claimId e ≠ "" ∧ status e ≠ "".
Definition event_fields (e : ClaimStatusChangedEvent) : list (string * json) :=
  ([("claimId", JStr (claimId e)); ("status", JStr (status e)); ("updatedAt", JStr (updatedAt e))] ++
   match ledger e with Some n => [("ledger", JNum (unsigned_decimal (show_Z n)))] | None => [] end)%list.

Lemma event_members f e : plain_event e →
  json_members (S (S (S (S (S f))))) (str_drop 1 (event_json e)) = Some (event_fields e, "").
Proof.
  intros (Hc & Hs & Hu & Hl & _). unfold event_json. change (str_drop 1 ("{" +:+ ?x)) with x.
  rewrite json_members_text by done. rewrite json_members_text by done. unfold event_fields. destruct (ledger e) as [n|].
  - rewrite json_members_text by done. by rewrite json_members_last_int by (done || by apply Hl).
  - by rewrite json_members_last_text by done.
Qed.

Lemma parse_event e : plain_event e → JSON_parse (event_json e) = Some (JObj (event_fields e)).
Proof.
  intros Hp. pose proof (λ f, event_members f e Hp) as Hm. unfold JSON_parse.
  assert (∃ r, event_json e = String "{" (String dquote r)) as [r Hr] by by eexists.
  rewrite Hr in *. change (str_drop 1 (String "{" (String dquote r))) with (String dquote r) in Hm.
  replace (2 * String.length (String "{" (String dquote r)) + 2)%nat with (S (S (S (S (S (S (2 * String.length r)))))))
    by (cbn [String.length]; lia).
  by rewrite json_value_brace, Hm.
Qed.

Lemma event_accepted e : plain_event e → accepted (event_json e) = Some (claimId e, JObj (event_fields e)).
Proof.
  intros Hp. unfold accepted. rewrite parse_event by done. destruct Hp as (_ & _ & _ & _ & Hc & Hs).
  assert (member (JObj (event_fields e)) "claimId" = Some (JStr (claimId e))) as -> by (unfold event_fields; by destruct (ledger e)).
  assert (member (JObj (event_fields e)) "status" = Some (JStr (status e))) as -> by (unfold event_fields; by destruct (ledger e)).
  unfold undefined_or, to_Boolean. by rewrite !bool_decide_false.
Qed.

(** A published change reaches whoever watches the claim, on every instance.  After a
    publication each subscribed instance has sent the event to exactly its streams that
    watch the claim, once, and nothing else; when Redis fails, or the instance is not
    subscribed, nothing is sent and nobody is told. *)
Theorem published_reaches_watchers e cluster i inst :
  plain_event e → cluster !! i = Some inst →
  (∃ inst', publish true true e cluster !! i = Some inst' ∧ connections (streams inst') = connections (streams inst) ∧
     output (streams inst') = (output (streams inst) ++
       if subscribed inst then ((λ id, (id, Next (JObj (event_fields e)))) <$> watchers (claimId e) (streams inst)) else [])%list) ∧
  (∀ publisher redis_up, publisher && redis_up = false → publish publisher redis_up e cluster = cluster).
Proof.
  intros Hp Hi. split; [|intros p u Hpu; unfold publish; by rewrite Hpu].
  unfold publish. cbn [andb]. rewrite list_lookup_fmap, Hi. eexists. split; [done|]. unfold receive.
  destruct (subscribed inst); [|by rewrite app_nil_r]. cbn [streams]. rewrite handle_accepted, event_accepted by done. done.
Qed.

Lemma sent_farewells_none id m : id ∉ m.*1 → sent_to id (farewells m) = [].
Proof.
  induction m as [|[k c] m IH]; cbn; [done|]. intros [Hk Hn]%not_elem_of_cons. unfold sent_to in *. cbn.
  rewrite !decide_False by (cbn; congruence). by apply IH.
Qed.
Lemma sent_farewells id m : NoDup m.*1 → id ∈ m.*1 → sent_to id (farewells m) = [Next server_shutdown; Complete].
Proof.
  induction m as [|[k c] m IH]; cbn; [by intros _ ?%elem_of_nil|]. intros [Hk Hn]%NoDup_cons [->|Hid]%elem_of_cons; unfold sent_to in *; cbn.
  - rewrite !decide_True by done. cbn. do 2 f_equal. by apply sent_farewells_none.
  - rewrite !decide_False by (cbn; intros ->; done). by apply IH.
Qed.

(** Shutting down ends every stream: each is told and completed, none is left, and no
    message that still arrives is sent to anybody. *)
Theorem drained_streams_end r id messages max :
  NoDup (conn_ids r) → id ∈ conn_ids r →
  let r1 := drainAll r in
  connections r1 = [] ∧ sent_to id (output r1) = (sent_to id (output r) ++ [Next server_shutdown; Complete])%list ∧
  output (history max r1 (Message <$> messages)) = output r1.
Proof.
  intros Hn Hid r1. split_and!; [done| |].
  - unfold r1, drainAll. cbn [output]. rewrite sent_to_app. f_equal. by apply sent_farewells.
  - unfold r1. assert (∀ r0, connections r0 = [] → output (history max r0 (Message <$> messages)) = output r0) as H; [|by apply H].
    clear. induction messages as [|m ms IH]; intros r0 H0; [done|]. cbn. unfold history in *. cbn [step].
    rewrite handle_accepted. destruct (accepted m) as [[cid ev]|]; [|by apply IH].
    rewrite IH by (by unfold broadcast). unfold broadcast, emit, watchers. cbn [output]. rewrite H0. cbn. by rewrite app_nil_r.
Qed.

(** More than fifty claims are not refused, as the route's documentation says: the
    stream is opened for the first fifty, and no event of the others is ever sent. *)
Theorem further_claims_dropped max r id claimIdParam wallet now cid event inputs m :
  bounded max r → Z.of_nat (length (connections r)) < max → id ∉ conn_ids r → sent_to id (output r) = [] →
  (50 < length (filter (λ s, s ≠ "") claimIdParam))%nat →
  cid ∉ take 50 (filter (λ s, s ≠ "") claimIdParam) → accepted m = Some (cid, event) →
  Forall (λ i, i = Message m) inputs →
  ∃ c r1, streamClaims max id claimIdParam wallet now r = (Ok c, r1) ∧ sent_to id (output (history max r1 inputs)) = [].
Proof.
  intros Hb Hmax Hid Hs H50 Hcid Hm Hin.
  assert (∃ c r1, streamClaims max id claimIdParam wallet now r = (Ok c, r1) ∧ claimIds c = take 50 (filter (λ s, s ≠ "") claimIdParam)
    ∧ (id, c) ∈ connections r1 ∧ output r1 = output r) as (c & r1 & Ho & Hc & Hi & Hout).
  { unfold streamClaims, MAX_CLAIM_IDS. destruct (filter _ claimIdParam) as [|x l]; [cbn in H50; lia|]. cbn [take]. unfold register.
    destruct (Z.leb_spec max (Z.of_nat (length (connections r)))); [lia|]. do 2 eexists. split_and!; [done|done|apply map_set_in|done]. }
  exists c, r1. split; [done|]. pose proof (stream_step_bounded max r (Open id claimIdParam wallet now) Hb) as Hb1. cbn [step] in Hb1. rewrite Ho in Hb1.
  destruct (history_sent max inputs r1 id c Hb1 Hi) as [_ ->].
  { eapply Forall_impl; [exact Hin|]. intros i ->. done. }
  rewrite Hout, Hs, Hc. cbn [app]. unfold due. induction Hin as [|i l -> Hin IH]; [done|]. cbn [omap list_omap]. rewrite Hm, bool_decide_false by exact Hcid. exact IH.
Qed.

(** ** Witnesses *)

Module ClaimStreamWitnesses.
Definition empty_registry : registry := {| connections := []; output := [] |}.
Definition paid (c : string) : ClaimStatusChangedEvent :=
  {| claimId := c; status := "PAID"; updatedAt := "2024-01-01T00:00:00.000Z"; ledger := Some 12 |}.

Lemma paid_plain c : str_forall plain c = true → c ≠ "" → plain_event (paid c).
Proof. intros H1 H2. split_and!; try done. by intros n [= <-]. Qed.


Lemma connections_bounded_witness :
  let r := history 1 empty_registry [Open "a" ["7"] None 0; Open "b" ["8"] None 1] in
  conn_ids r = ["a"] ∧ ∃ m, register 1 "c" ["9"] None 2 r = (Throw (ServiceUnavailable m), r).
Proof.
  destruct (connections_bounded 1 [Open "a" ["7"] None 0; Open "b" ["8"] None 1] ltac:(done)) as (_ & _ & H).
  split; [reflexivity|]. apply H. reflexivity.
Defined.

Definition with_stream (id c : string) : registry := (streamClaims 5 id [c] None 0 empty_registry).2.
Definition cluster2 : list instance :=
  [{| subscribed := true; streams := with_stream "a" "7" |}; {| subscribed := false; streams := with_stream "b" "7" |}].
Lemma published_reaches_watchers_witness :
  ∃ inst', publish true true (paid "7") cluster2 !! 0%nat = Some inst' ∧ output (streams inst') = [("a", Next (JObj (event_fields (paid "7"))))].
Proof.
  destruct (published_reaches_watchers (paid "7") cluster2 0 {| subscribed := true; streams := with_stream "a" "7" |}) as [(inst' & H1 & _ & H2) _];
    [by apply paid_plain|reflexivity|]. exists inst'. split; [exact H1|]. rewrite H2. reflexivity.
Defined.

Lemma drained_streams_end_witness :
  output (history 5 (drainAll (with_stream "a" "7")) (Message <$> [event_json (paid "7")])) = [("a", Next server_shutdown); ("a", Complete)].
Proof.
  destruct (drained_streams_end (with_stream "a" "7") "a" [event_json (paid "7")] 5) as (_ & _ & H);
    [apply (bool_decide_unpack _); vm_compute; done|by left|]. rewrite H. reflexivity.
Defined.

Definition many : list string := show_Z <$> seqZ 1 51.
Lemma further_claims_dropped_witness :
  ∃ c r1, streamClaims 2 "a" many None 0 empty_registry = (Ok c, r1) ∧
    sent_to "a" (output (history 2 r1 [Message (event_json (paid "51"))])) = [].
Proof.
  apply (further_claims_dropped 2 empty_registry "a" many None 0 "51" (JObj (event_fields (paid "51"))) _ (event_json (paid "51"))).
  - by split; [constructor|].
  - done.
  - apply not_elem_of_nil.
  - done.
  - vm_compute. lia.
  - apply (bool_decide_unpack _). vm_compute. done.
  - apply event_accepted, paid_plain; done.
  - by repeat constructor.
Defined.
End ClaimStreamWitnesses.
