(* ===== verification/Tallies.v ===== *)
(** * Live figures in the claims board

    frontend/src/lib/hooks/useRealtimeTallies.ts: the figures come over an event
    source, and by polling while there is none; and the status watcher of
    useClaimWatcher.ts.  The browser is a step relation: each constructor is one
    event, handled by the functions of the hook.  A request that was aborted rejects
    with an AbortError, which the hook ignores: aborting removes it from [live].
    Parsing the payloads with zod is a parameter. *)

From stdpp Require Import base relations gmap list strings.
From Stdlib Require Import ZArith Lia.
From S2P Require Import Prelude.

Open Scope Z_scope.

Definition BASE_INTERVAL_MS : Z := 5000.
Definition MAX_INTERVAL_MS : Z := 60000.

(** Models [calcBackoffMs] (frontend/src/lib/hooks/useRealtimeTallies.ts:40-46). *)
Definition calcBackoffMs (failureCount : nat) (baseMs maxMs : Z) : Z := Z.min (baseMs * 2 ^ Z.of_nat failureCount) maxMs.

Lemma calcBackoffMs_range n base max : 0 < base ≤ max → base ≤ calcBackoffMs n base max ≤ max.
Proof. intros Hb. unfold calcBackoffMs. assert (1 ≤ 2 ^ Z.of_nat n) by (pose proof (Z.pow_pos_nonneg 2 (Z.of_nat n)); lia). nia. Qed.

Section realtime.
Context {raw TallyUpdate : Type} (parseTallyUpdate : raw → option TallyUpdate).

(** The variables of the effect, the page's visibility and what was handed to
    [onUpdate].  [controller] is the request of [pollAbortController]. *)
Record ui := Ui {
  unmounted : bool; hidden : bool; sseConnected : bool; eventSource : bool; failureCount : nat; pollTimer : option Z;
  controller : option nat; live : list nat; fresh : nat; claimIds : list string; updates : list TallyUpdate }.

(** Models [clearPollTimer] (frontend/src/lib/hooks/useRealtimeTallies.ts:104-109). *)
Definition clearPollTimer (s : ui) : ui :=
  Ui (unmounted s) (hidden s) (sseConnected s) (eventSource s) (failureCount s) None (controller s) (live s) (fresh s) (claimIds s) (updates s).
(** Models [abortPollRequest] (frontend/src/lib/hooks/useRealtimeTallies.ts:111-114). *)
Definition abortPollRequest (s : ui) : ui :=
  Ui (unmounted s) (hidden s) (sseConnected s) (eventSource s) (failureCount s) (pollTimer s) None
     (filter (λ n, controller s ≠ Some n) (live s)) (fresh s) (claimIds s) (updates s).
(** Models [scheduleNextPoll] (frontend/src/lib/hooks/useRealtimeTallies.ts:161-168). *)
Definition scheduleNextPoll (isFailure : bool) (s : ui) : ui :=
  if unmounted s || sseConnected s then s
  else
    let delay := if isFailure then calcBackoffMs (failureCount s) BASE_INTERVAL_MS MAX_INTERVAL_MS else calcBackoffMs 0 BASE_INTERVAL_MS MAX_INTERVAL_MS in
    Ui (unmounted s) (hidden s) (sseConnected s) (eventSource s) (failureCount s) (Some delay) (controller s) (live s) (fresh s) (claimIds s) (updates s).

(** [poll] up to the request it sends.
    Models [poll] (frontend/src/lib/hooks/useRealtimeTallies.ts:116-137). *)
Definition poll (s : ui) : ui :=
  if unmounted s || sseConnected s then s
  else if hidden s then s
  else
    let s := abortPollRequest s in
    let n := fresh s in
    let sending ns := Ui (unmounted s) (hidden s) (sseConnected s) (eventSource s) (failureCount s) (pollTimer s) (Some n) ns (S n) (claimIds s) (updates s) in
    if bool_decide (claimIds s = []) then scheduleNextPoll false (sending (live s)) else sending (live s ++ [n])%list.

(** How a request that was not aborted ends; a body that is not a list fails. *)
Inductive outcome := Answered (body : list raw) | Failed.

(** The rest of [poll], when its request is settled.
    Models [poll] (frontend/src/lib/hooks/useRealtimeTallies.ts:139-159). *)
Definition settle (n : nat) (o : outcome) (s : ui) : ui :=
  let rest := filter (λ k, k ≠ n) (live s) in
  let after failures ups :=
    Ui (unmounted s) (hidden s) (sseConnected s) (eventSource s) failures (pollTimer s) (controller s) rest (fresh s) (claimIds s) ups in
  if unmounted s then after (failureCount s) (updates s)
  else
    match o with
    | Answered body => scheduleNextPoll false (after 0%nat (updates s ++ omap parseTallyUpdate body)%list)
    | Failed => scheduleNextPoll true (after (S (failureCount s)) (updates s))
    end.

Definition with_hidden (b : bool) (s : ui) : ui :=
  Ui (unmounted s) b (sseConnected s) (eventSource s) (failureCount s) (pollTimer s) (controller s) (live s) (fresh s) (claimIds s) (updates s).
(** The listener is gone once the component is.
    Models [handleVisibilityChange] (frontend/src/lib/hooks/useRealtimeTallies.ts:173-180). *)
Definition handleVisibilityChange (s : ui) : ui :=
  if unmounted s || sseConnected s then s
  else if hidden s then s
  else poll (clearPollTimer s).

Definition with_source (source connected : bool) (s : ui) : ui :=
  Ui (unmounted s) (hidden s) connected source (failureCount s) (pollTimer s) (controller s) (live s) (fresh s) (claimIds s) (updates s).
(** Models [onopen] (frontend/src/lib/hooks/useRealtimeTallies.ts:189-198). *)
Definition onopen (s : ui) : ui :=
  if unmounted s then with_source false (sseConnected s) s
  else abortPollRequest (clearPollTimer (with_source (eventSource s) true s)).
(** Models [onmessage] (frontend/src/lib/hooks/useRealtimeTallies.ts:200-209). *)
Definition onmessage (body : option raw) (s : ui) : ui :=
  if unmounted s then s
  else
    match body ≫= parseTallyUpdate with
    | Some u => Ui (unmounted s) (hidden s) (sseConnected s) (eventSource s) (failureCount s) (pollTimer s) (controller s) (live s) (fresh s) (claimIds s) (updates s ++ [u])%list
    | None => s
    end.
(** Models [onerror] (frontend/src/lib/hooks/useRealtimeTallies.ts:211-219). *)
Definition onerror (s : ui) : ui := if unmounted s then s else poll (with_source false false s).

(** The effect as it starts; [supported] is whether EventSource can be constructed.
    Models [startSSE] (frontend/src/lib/hooks/useRealtimeTallies.ts:185-226). *)
Definition startSSE (supported hid : bool) (ids : list string) : ui :=
  let s := Ui false hid false supported 0 None None [] 0 ids [] in
  if supported then s else poll s.

(** Models [cleanup] (frontend/src/lib/hooks/useRealtimeTallies.ts:237-244). *)
Definition cleanup (s : ui) : ui :=
  abortPollRequest (clearPollTimer
    (Ui true (hidden s) (sseConnected s) false (failureCount s) (pollTimer s) (controller s) (live s) (fresh s) (claimIds s) (updates s))).

Definition with_ids (ids : list string) (s : ui) : ui :=
  Ui (unmounted s) (hidden s) (sseConnected s) (eventSource s) (failureCount s) (pollTimer s) (controller s) (live s) (fresh s) ids (updates s).

(** The events of the browser. *)
Inductive step (s : ui) : ui → Prop :=
  | timer_fires d : pollTimer s = Some d →
      step s (if unmounted s || sseConnected s then clearPollTimer s else poll (clearPollTimer s))
  | request_settles n o : n ∈ live s → step s (settle n o s)
  | visibility_changes b : step s (handleVisibilityChange (with_hidden b s))
  | source_opens : eventSource s = true → step s (onopen s)
  | source_sends body : eventSource s = true → step s (onmessage body s)
  | source_fails : eventSource s = true → step s (onerror s)
  | claims_change ids : step s (with_ids ids s)
  | component_unmounts : step s (cleanup s).

(** ** Invariant *)

(** One request at most is not aborted, the controller's; delays are in range; with
    the event source connected, or after the component is gone, there is no polling;
    otherwise polling goes on unless it is paused or the source may still open. *)
Record sound (s : ui) : Prop := {
  one_request : ∀ n, n ∈ live s → controller s = Some n;
  requests_once : NoDup (live s);
  delay_range : ∀ d, pollTimer s = Some d → BASE_INTERVAL_MS ≤ d ≤ MAX_INTERVAL_MS;
  quiet : unmounted s = true ∨ sseConnected s = true → pollTimer s = None ∧ live s = [];
  source_closed : unmounted s = true → eventSource s = false;
  polling : unmounted s = false → sseConnected s = false → hidden s = false → eventSource s = false → pollTimer s ≠ None ∨ live s ≠ [] }.

Lemma aborted_live s : (∀ n, n ∈ live s → controller s = Some n) → filter (λ n, controller s ≠ Some n) (live s) = [].
Proof.
  intros H. destruct (filter _ _) as [|n l] eqn:F; [done|].
  assert (n ∈ filter (λ n, controller s ≠ Some n) (live s)) as [H1 H2]%list_elem_of_filter by (rewrite F; left). by destruct H1; apply H.
Qed.

Lemma delays : BASE_INTERVAL_MS ≤ calcBackoffMs 0 BASE_INTERVAL_MS MAX_INTERVAL_MS ≤ MAX_INTERVAL_MS.
Proof. by apply calcBackoffMs_range. Qed.

(** What polling leaves, from a state that satisfies all but the last point. *)
Lemma poll_sound s :
  (∀ n, n ∈ live s → controller s = Some n) → NoDup (live s) → (∀ d, pollTimer s = Some d → BASE_INTERVAL_MS ≤ d ≤ MAX_INTERVAL_MS) →
  (unmounted s = true ∨ sseConnected s = true → pollTimer s = None ∧ live s = []) → (unmounted s = true → eventSource s = false) →
  sound (poll s).
Proof.
  intros H1 H2 H3 H4 H5. unfold poll. destruct (unmounted s) eqn:Eu; cbn [orb]; [split; try done; rewrite ?Eu; auto|].
  destruct (sseConnected s) eqn:Ec; cbn [orb]; [split; try done; rewrite ?Eu, ?Ec; auto|].
  destruct (hidden s) eqn:Eh; [split; try done; rewrite ?Eu, ?Ec, ?Eh; auto; by intros []|].
  assert (filter (λ n, controller s ≠ Some n) (live s) = []) as E by by apply aborted_live.
  cbn [claimIds abortPollRequest]. pose proof delays. case_bool_decide.
  - unfold scheduleNextPoll. cbn. rewrite Eu, Ec. cbn. split; cbn; rewrite ?E, ?Eu, ?Ec; try done; [by intros n ?%elem_of_nil|apply NoDup_nil_2|by intros d [= <-]|by intros []|by left].
  - split; cbn; rewrite ?E, ?Eu, ?Ec; cbn; try done; [by intros n ->%list_elem_of_singleton|apply NoDup_singleton|by intros []|by right].
Qed.

Lemma schedule_sound b s :
  (∀ n, n ∈ live s → controller s = Some n) → NoDup (live s) →
  (unmounted s = true ∨ sseConnected s = true → pollTimer s = None ∧ live s = []) → (unmounted s = true → eventSource s = false) →
  sound (scheduleNextPoll b s).
Proof.
  intros H1 H2 H4 H5. unfold scheduleNextPoll. destruct (unmounted s) eqn:Eu; cbn [orb].
  { split; try done; rewrite ?Eu; auto. destruct H4 as [-> _]; [by left|done]. }
  destruct (sseConnected s) eqn:Ec.
  { split; try done; rewrite ?Eu, ?Ec; auto. destruct H4 as [-> _]; [by right|done]. }
  split; cbn; rewrite ?Eu, ?Ec; try done; [|by intros []|by left].
  intros d [= <-]. destruct b; by apply calcBackoffMs_range.
Qed.

Lemma step_sound s s' : sound s → step s s' → sound s'.
Proof.
  intros [H1 H2 H3 H4 H5 H6] Hs. destruct Hs as [d Hd|n o Hn|b|Ho|body Ho|Ho|ids|].
  - destruct (unmounted s || sseConnected s) eqn:E.
    + apply orb_true_iff in E. destruct (H4 E) as [H7 _]. congruence.
    + apply orb_false_iff in E as [E1 E2]. apply poll_sound; cbn; rewrite ?E1, ?E2; try done; by intros [].
  - unfold settle. assert (unmounted s = false ∧ sseConnected s = false) as [-> Ec].
    { destruct (unmounted s) eqn:E1; [destruct H4 as [_ H7]; [by left|rewrite H7 in Hn; by apply elem_of_nil in Hn]|].
      destruct (sseConnected s) eqn:E2; [destruct H4 as [_ H7]; [by right|rewrite H7 in Hn; by apply elem_of_nil in Hn]|done]. }
    assert (∀ k, k ∈ filter (λ k, k ≠ n) (live s) → controller s = Some k) as Hrest by (intros k [_ Hk]%list_elem_of_filter; by apply H1).
    pose proof (NoDup_filter (λ k, k ≠ n) _ H2) as Hdup.
    destruct o; apply schedule_sound; cbn; rewrite ?Ec; try done; by intros [].
  - assert (∀ d, None = Some d → BASE_INTERVAL_MS ≤ d ≤ MAX_INTERVAL_MS) as Hnone by done.
    unfold handleVisibilityChange, with_hidden. cbn. destruct (unmounted s) eqn:E1; cbn [orb]; [split; cbn; rewrite ?E1; auto; done|].
    destruct (sseConnected s) eqn:E2; cbn [orb]; [split; cbn; rewrite ?E1, ?E2; auto; done|].
    destruct b; [split; cbn; rewrite ?E1, ?E2; auto; by intros []|]. apply poll_sound; cbn; rewrite ?E1, ?E2; try done; by intros [].
  - unfold onopen. destruct (unmounted s) eqn:E1; [by rewrite H5 in Ho|].
    assert (filter (λ n, controller s ≠ Some n) (live s) = []) as E by by apply aborted_live.
    split; cbn; rewrite ?E1, ?E; try done; [by intros n ?%elem_of_nil|apply NoDup_nil_2].
  - unfold onmessage. destruct (unmounted s) eqn:E1; [by rewrite H5 in Ho|]. destruct (body ≫= parseTallyUpdate); split; cbn; rewrite ?E1; auto.
  - unfold onerror. destruct (unmounted s) eqn:E1; [by rewrite H5 in Ho|]. apply poll_sound; cbn; rewrite ?E1; try done; by intros [].
  - split; cbn; auto.
  - unfold cleanup. assert (filter (λ n, controller s ≠ Some n) (live s) = []) as E by by apply aborted_live.
    split; cbn; rewrite ?E; try done; [by intros n ?%elem_of_nil|apply NoDup_nil_2].
Qed.

Lemma start_sound supported hid ids : sound (startSSE supported hid ids).
Proof.
  unfold startSSE. destruct supported.
  - split; cbn; try done; [by intros n ?%elem_of_nil|apply NoDup_nil_2].
  - apply poll_sound; cbn; try done; [by intros n ?%elem_of_nil|apply NoDup_nil_2].
Qed.

Lemma reachable_sound supported hid ids s : rtc step (startSSE supported hid ids) s → sound s.
Proof.
  intros Hr. assert (∀ s0, sound s0 → rtc step s0 s → sound s) as H.
  { intros s0 H0 Hs. induction Hs as [|x y z Hxy _ IH]; [done|]. eapply IH, step_sound; eauto. }
  eapply H; [apply start_sound|exact Hr].
Qed.

(** ** Properties *)

(** C18: Polling stays alive.  In every reachable state of a page that is visible and whose
    event source has failed, either the next poll is scheduled, in five to sixty
    seconds, or a request is under way whose end schedules it. *)
Theorem polling_alive supported hid ids s :
  rtc step (startSSE supported hid ids) s →
  unmounted s = false → sseConnected s = false → hidden s = false → eventSource s = false →
  (∃ d, pollTimer s = Some d ∧ BASE_INTERVAL_MS ≤ d ≤ MAX_INTERVAL_MS) ∨
  (∃ n, n ∈ live s ∧ ∀ o, ∃ d, pollTimer (settle n o s) = Some d ∧ BASE_INTERVAL_MS ≤ d ≤ MAX_INTERVAL_MS).
Proof.
  intros [_ _ Hd _ _ Hp]%reachable_sound Hu Hc Hh He. destruct (pollTimer s) as [d|] eqn:E; [left; eauto|right].
  destruct (live s) as [|n l] eqn:El; [by destruct (Hp Hu Hc Hh He)|]. exists n. split; [by left|]. intros o. unfold settle, scheduleNextPoll. rewrite Hu.
  destruct o; cbn; rewrite ?Hu, Hc; cbn; eexists; (split; [done|]); by apply calcBackoffMs_range.
Qed.

(** Never two requests, and none beside the event source.  In every reachable state at
    most one request is not aborted; while the event source is connected nothing is
    polled and nothing is scheduled. *)
Theorem one_request_at_most supported hid ids s :
  rtc step (startSSE supported hid ids) s →
  (length (live s) ≤ 1)%nat ∧ (sseConnected s = true → live s = [] ∧ pollTimer s = None).
Proof.
  intros [H1 H2 _ H4 _ _]%reachable_sound. split; [|intros Hc; by destruct H4 as [? ?]; [by right|]].
  destruct (live s) as [|n [|m l]]; cbn; [lia..|]. exfalso.
  assert (Some n = Some m) as [= ->] by (rewrite <- (H1 n), <- (H1 m); [done|by right; left|by left]).
  apply NoDup_cons in H2 as [H2 _]. by destruct H2; left.
Qed.

(** A component that is gone stays silent: nothing scheduled, no request, no event
    source, and [onUpdate] is never called again. *)
Theorem silent_after_unmount supported hid ids s s' :
  rtc step (startSSE supported hid ids) s → unmounted s = true → rtc step s s' →
  unmounted s' = true ∧ pollTimer s' = None ∧ live s' = [] ∧ eventSource s' = false ∧ updates s' = updates s.
Proof.
  intros Hr Hu Hs. pose proof (reachable_sound _ _ _ _ Hr) as Hi. clear Hr.
  induction Hs as [s|s t s' Hst _ IH].
  - destruct Hi as [_ _ _ H4 H5 _]. destruct H4 as [H6 H7]; [by left|]. split_and!; auto.
  - pose proof (step_sound _ _ Hi Hst) as Ht. assert (unmounted t = true ∧ updates t = updates s) as [Hut Hup].
    { destruct Hi as [_ _ _ H4 H5 _]. destruct H4 as [H6 H7]; [by left|]. specialize (H5 Hu).
      destruct Hst; try congruence; unfold handleVisibilityChange, settle; cbn; rewrite ?Hu; cbn; done || (rewrite H7 in *; by edestruct elem_of_nil). }
    destruct (IH Hut Ht) as (H1 & H2 & H3 & H4 & H5). split_and!; congruence.
Qed.
End realtime.

(** ** The status watcher *)

Section watcher.
(** Models [ClaimStatusUpdate] (frontend/src/lib/hooks/useClaimWatcher.ts:15-21). *)
Record ClaimStatusUpdate := { claimId : string; status : string; updatedAt : string }.
Context {raw : Type} (safeParse : raw → option ClaimStatusUpdate).

(** One update against the statuses seen last: the statuses after it, and what
    [onStatusChange] is called with. *)
Definition observe (last : gmap string string) (u : ClaimStatusUpdate) : gmap string string * list ClaimStatusUpdate :=
  if bool_decide (last !! claimId u = Some (status u)) then (last, []) else (<[claimId u := status u]> last, [u]).

(** The body of an answered poll.
    Models [poll] (frontend/src/lib/hooks/useClaimWatcher.ts:72-99). *)
Fixpoint poll_body (last : gmap string string) (body : list raw) : gmap string string * list ClaimStatusUpdate :=
  match body with
  | [] => (last, [])
  | r :: body' =>
      match safeParse r with
      | None => poll_body last body'
      | Some u => let '(last1, a) := observe last u in let '(last2, b) := poll_body last1 body' in (last2, a ++ b)%list
      end
  end.
Fixpoint polls (last : gmap string string) (bodies : list (list raw)) : gmap string string * list ClaimStatusUpdate :=
  match bodies with
  | [] => (last, [])
  | body :: bodies' => let '(last1, a) := poll_body last body in let '(last2, b) := polls last1 bodies' in (last2, a ++ b)%list
  end.

(** The statuses reported for a claim, and those of a list without its repetitions
    of the status before. *)
Definition of_claim (c : string) (us : list ClaimStatusUpdate) : list string := status <$> filter (λ u, claimId u = c) us.
Fixpoint changes (before : option string) (l : list string) : list string :=
  match l with
  | [] => []
  | x :: l' => if bool_decide (before = Some x) then changes before l' else x :: changes (Some x) l'
  end.
Definition after (before : option string) (l : list string) : option string := match list.last l with Some x => Some x | None => before end.

Lemma changes_app before l1 l2 : changes before (l1 ++ l2) = (changes before l1 ++ changes (after before l1) l2)%list.
Proof.
  revert before. induction l1 as [|x l1 IH]; intros before; [done|]. cbn [app changes].
  assert (after before (x :: l1) = after (Some x) l1) as -> by (unfold after; rewrite last_cons; by destruct (list.last l1)).
  case_bool_decide; subst; rewrite IH; done.
Qed.

Lemma of_claim_app c us vs : of_claim c (us ++ vs) = (of_claim c us ++ of_claim c vs)%list.
Proof. unfold of_claim. by rewrite filter_app, fmap_app. Qed.

Lemma observe_changes c last u :
  of_claim c (observe last u).2 = changes (last !! c) (of_claim c [u]) ∧ (observe last u).1 !! c = after (last !! c) (of_claim c [u]).
Proof.
  unfold observe, of_claim, after. case_bool_decide as E; cbn; destruct (decide (claimId u = c)) as [<-|Hne]; cbn.
  - by rewrite bool_decide_true by done.
  - done.
  - rewrite bool_decide_false by done. by rewrite lookup_insert_eq.
  - by rewrite lookup_insert_ne by done.
Qed.

Lemma body_changes c last body :
  of_claim c (poll_body last body).2 = changes (last !! c) (of_claim c (omap safeParse body)) ∧
  (poll_body last body).1 !! c = after (last !! c) (of_claim c (omap safeParse body)).
Proof.
  revert last. induction body as [|r body IH]; intros last; [done|]. cbn [poll_body omap list_omap]. destruct (safeParse r) as [u|]; [|apply IH].
  destruct (observe_changes c last u) as [Ho1 Ho2]. destruct (observe last u) as [last1 a]. cbn [fst snd] in Ho1, Ho2. destruct (IH last1) as [H1 H2].
  destruct (poll_body last1 body) as [last2 b]. cbn [fst snd] in *. change (u :: omap safeParse body) with ([u] ++ omap safeParse body)%list.
  rewrite !of_claim_app, changes_app, Ho1, H1, H2, Ho2. split; [done|]. unfold after. rewrite last_app. by repeat case_match.
Qed.

Lemma polls_changes c bodies last :
  of_claim c (polls last bodies).2 = changes (last !! c) (of_claim c (omap safeParse (mjoin bodies))).
Proof.
  revert last. induction bodies as [|body bodies IH]; intros last; [done|]. cbn [polls mjoin list_join]. destruct (body_changes c last body) as [H1 H2].
  destruct (poll_body last body) as [last1 a]. specialize (IH last1). destruct (polls last1 bodies) as [last2 b]. cbn [fst snd] in *.
  by rewrite of_claim_app, omap_app, of_claim_app, changes_app, H1, IH, H2.
Qed.

(** Only changes are announced.  Over any sequence of answered polls the statuses
    announced for a claim are those reported for it, in order, without the repetitions
    of the status before. *)
Theorem changes_announced c bodies :
  of_claim c (polls ∅ bodies).2 = changes None (of_claim c (omap safeParse (mjoin bodies))).
Proof. by rewrite polls_changes, lookup_empty. Qed.

(** The first report of a claim is announced as a change: opening the page with the
    notifications on announces the status of every claim on it. *)
Theorem first_report_announced c u bodies :
  head (filter (λ v, claimId v = c) (omap safeParse (mjoin bodies))) = Some u →
  head (of_claim c (polls ∅ bodies).2) = Some (status u).
Proof.
  intros Hu. rewrite polls_changes, lookup_empty. unfold of_claim. destruct (filter _ _); [done|]. cbn in *. by injection Hu as ->.
Qed.
End watcher.

(** ** Witnesses *)

Module TallyWitnesses.
Definition parse_any (n : nat) : option nat := Some n.

(** The event source fails while the page is visible: a poll is under way, fails, and
    the next one is scheduled. *)
Definition polling_page : ui := onerror (startSSE true false ["7"%string] : @ui nat).
Definition failed_page : ui := settle parse_any 0 Failed polling_page.

Lemma failed_page_reachable : rtc (step parse_any) (startSSE true false ["7"%string]) failed_page.
Proof.
  eapply rtc_l; [by apply (source_fails parse_any)|]. eapply rtc_l; [|apply rtc_refl].
  apply (request_settles parse_any _ 0 Failed). by left.
Qed.

Lemma polling_alive_witness : ∃ d, pollTimer failed_page = Some d ∧ BASE_INTERVAL_MS ≤ d ≤ MAX_INTERVAL_MS.
Proof.
  destruct (polling_alive parse_any true false ["7"%string] failed_page failed_page_reachable eq_refl eq_refl eq_refl eq_refl) as [H|(n & Hn & _)].
  - exact H.
  - exfalso. vm_compute in Hn. by apply elem_of_nil in Hn.
Defined.

Lemma one_request_at_most_witness : (length (live failed_page) ≤ 1)%nat.
Proof. apply (one_request_at_most parse_any true false ["7"%string]), failed_page_reachable. Defined.

Lemma gone_reachable : rtc (step parse_any) (startSSE true false ["7"%string]) (cleanup failed_page).
Proof. eapply rtc_r; [apply failed_page_reachable|apply component_unmounts]. Qed.
Lemma silent_after_unmount_witness :
  let s := with_ids ["8"%string] (handleVisibilityChange (with_hidden false (cleanup failed_page))) in
  pollTimer s = None ∧ live s = [] ∧ updates s = [].
Proof.
  edestruct (silent_after_unmount parse_any true false ["7"%string] (cleanup failed_page)) as (_ & H1 & H2 & _ & H3);
    [apply gone_reachable|done| |split_and!; [exact H1|exact H2|exact H3]].
  eapply rtc_l; [apply (visibility_changes _ _ false)|]. eapply rtc_l; [apply claims_change|apply rtc_refl].
Defined.

Definition report (c s : string) : ClaimStatusUpdate := {| claimId := c; status := s; updatedAt := "t"%string |}.
Lemma first_report_announced_witness :
  head (of_claim "7" (polls Some ∅ [[report "8" "PAID"; report "7" "PENDING"]; [report "7" "PENDING"]]).2) = Some "PENDING"%string.
Proof. apply (first_report_announced Some "7" (report "7" "PENDING")). reflexivity. Defined.
End TallyWitnesses.
