(* ===== verification/Anonymize.v ===== *)
(** * Anonymized data for the staging environment

    backend/src/staging/anonymization.transform.ts and the sample of
    backend/src/maintenance/staging-data-sync.service.ts.  A row is the list of its
    properties in order; the three maps of the context remember what was replaced by
    what.  SHA-256 is a parameter. *)

From stdpp Require Import base gmap list strings.
From Stdlib Require Import ZArith Lia Ascii.
From S2P Require Import Prelude JsText JsNumber Codec.

Open Scope string_scope.
Open Scope Z_scope.

(** ** Rows *)

(** [VOther]: a date, a boolean or a JSON document, which is only copied. *)
Inductive value := VNull | VNum (n : Z) | VStr (s : string) | VOther (tag : string).
#[export] Instance value_eq_dec : EqDecision value.
Proof. solve_decision. Defined.
Definition row := list (string * value).
(** [None]: undefined. *)
Fixpoint get (k : string) (r : row) : option value :=
  match r with [] => None | (k', v) :: r' => if bool_decide (k' = k) then Some v else get k r' end.

(** [createHash.update] throws on what is no text. *)
Inductive error := TypeError.

Section anonymize.
Variable sha256 : string → string.

(** Models [AnonymizationContext] (backend/src/staging/anonymization.transform.ts:3-7). *)
Record AnonymizationContext := Ctx { walletMap : gmap string string; emailMap : gmap string string; idMap : gmap (bool * string) string }.
Abbreviation MA A := (M AnonymizationContext error A).

(** Models [createAnonymizationContext] (backend/src/staging/anonymization.transform.ts:9-15). *)
Definition createAnonymizationContext : AnonymizationContext := Ctx ∅ ∅ ∅.

(** Models [deterministicHash] (backend/src/staging/anonymization.transform.ts:17-21). *)
Definition deterministicHash (v prefix : string) (maxLen : nat) : string :=
  prefix +:+ str_take (maxLen - String.length prefix) (sha256 v).

Definition wallet_alias (w : string) : string := "G" +:+ deterministicHash w "" 55.
Definition email_alias (e : string) : string := "user_" +:+ deterministicHash e "" 12 +:+ "@staging.example.com".
Definition token (k : string) : string := "tok_" +:+ deterministicHash k "" 20.

(** Models [anonymizeWallet] (backend/src/staging/anonymization.transform.ts:23-29). *)
Definition anonymizeWallet (wallet : string) : MA string :=
  λ ctx, match walletMap ctx !! wallet with
         | Some anon => (Ok anon, ctx)
         | None => (Ok (wallet_alias wallet), Ctx (<[wallet := wallet_alias wallet]> (walletMap ctx)) (emailMap ctx) (idMap ctx))
         end.
(** Models [anonymizeEmail] (backend/src/staging/anonymization.transform.ts:31-38). *)
Definition anonymizeEmail (email : string) : MA string :=
  λ ctx, match emailMap ctx !! email with
         | Some anon => (Ok anon, ctx)
         | None => (Ok (email_alias email), Ctx (walletMap ctx) (<[email := email_alias email]> (emailMap ctx)) (idMap ctx))
         end.
(** Models [anonymizeName] (backend/src/staging/anonymization.transform.ts:40-43). *)
Definition anonymizeName (name : string) : string := "User_" +:+ deterministicHash name "" 8.
(** The key of a Map tells a number from a text; the token does not.
    Models [tokenizeId] (backend/src/staging/anonymization.transform.ts:45-52). *)
Definition tokenizeId (is_number : bool) (text : string) : MA string :=
  λ ctx, match idMap ctx !! (is_number, text) with
         | Some anon => (Ok anon, ctx)
         | None => (Ok (token text), Ctx (walletMap ctx) (emailMap ctx) (<[(is_number, text) := token text]> (idMap ctx)))
         end.

(** ** Columns *)

(** What becomes of a property: copied, or replaced; [a || 'default'] where a default is given. *)
Inductive treatment := Keep | Token | Wallet | Email (dflt : option string) | Name (dflt : string) | Synth.

Definition orElse (v : option value) (dflt : string) : option value :=
  match v with None | Some VNull => Some (VStr dflt) | Some (VStr s) => Some (VStr (default dflt (truthy (Some s)))) | _ => v end.

Definition treat (t : treatment) (v : option value) : MA (option value) :=
  match t, v with
  | Keep, _ => ret v
  | Token, Some (VStr s) => let* a := tokenizeId false s in ret (Some (VStr a))
  | Token, Some (VNum n) => let* a := tokenizeId true (show_Z n) in ret (Some (VStr a))
  | Wallet, Some (VStr w) => let* a := anonymizeWallet w in ret (Some (VStr a))
  | Email d, _ => match (match d with Some e => orElse v e | None => v end) with Some (VStr e) => let* a := anonymizeEmail e in ret (Some (VStr a)) | _ => throw TypeError end
  | Name d, _ => match orElse v d with Some (VStr n) => ret (Some (VStr (anonymizeName n))) | _ => throw TypeError end
  | Synth, Some (VStr p) => ret (Some (VStr (deterministicHash p "synth_" 20)))
  | _, _ => throw TypeError
  end.

(** An object literal; a property that is undefined stays away. *)
Fixpoint literal (cols : list (string * treatment)) (r : row) : MA row :=
  match cols with
  | [] => ret []
  | (k, t) :: cols' =>
      let* v := treat t (get k r) in
      let* rest := literal cols' r in
      ret (match v with Some x => (k, x) :: rest | None => rest end)
  end.
(** [{ ...r, k: treated }] for the properties that [t] names. *)
Fixpoint spread (t : string → treatment) (r : row) : MA row :=
  match r with
  | [] => ret []
  | (k, v) :: r' =>
      let* v' := treat (t k) (Some v) in
      let* rest := spread t r' in
      ret (match v' with Some x => (k, x) :: rest | None => rest end)
  end.
Fixpoint map_rows (f : row → MA row) (rows : list row) : MA (list row) :=
  match rows with [] => ret [] | r :: rows' => let* x := f r in let* xs := map_rows f rows' in ret (x :: xs) end.
Definition keep (ks : list string) : list (string * treatment) := (λ k, (k, Keep)) <$> ks.

(** Models [anonymizePolicies] (backend/src/staging/anonymization.transform.ts:54-60). *)
Definition anonymizePolicies : list row → MA (list row) :=
  map_rows (spread (λ k, if bool_decide (k = "id") then Token else if bool_decide (k = "holderAddress") then Wallet else Keep)).
Definition claimColumns : list (string * treatment) :=
  ("id", Keep) :: ("policyId", Token) :: ("creatorAddress", Wallet) ::
    keep ["amount"; "asset"; "status"; "severity"; "isFinalized"; "approveVotes"; "rejectVotes"; "paidAt"; "createdAtLedger"; "updatedAtLedger";
          "createdAt"; "updatedAt"; "tenantId"; "deletedAt"; "appealsCount"].
(** Models [anonymizeClaims] (backend/src/staging/anonymization.transform.ts:62-83). *)
Definition anonymizeClaims : list row → MA (list row) :=
  map_rows (literal claimColumns).
(** Models [anonymizeVotes] (backend/src/staging/anonymization.transform.ts:85-95). *)
Definition anonymizeVotes : list row → MA (list row) :=
  map_rows (literal (keep ["id"; "claimId"; "vote"; "votingPower"; "votedAtLedger"; "createdAt"; "deletedAt"])).
(** Models [anonymizeHolderProfiles] (backend/src/staging/anonymization.transform.ts:97-108). *)
Definition anonymizeHolderProfiles : list row → MA (list row) :=
  map_rows (literal (("walletAddress", Wallet) :: ("displayName", Name "Unknown") :: ("email", Email (Some "noemail@staging.example.com")) ::
    keep ["locale"; "notificationPreferences"; "createdAt"; "updatedAt"; "lastSeenAt"])).
(** Models [anonymizeSupportTickets] (backend/src/staging/anonymization.transform.ts:110-119). *)
Definition anonymizeSupportTickets : list row → MA (list row) :=
  map_rows (literal (("id", Keep) :: ("email", Email None) :: keep ["status"; "firstRespondedAt"; "createdAt"; "updatedAt"])).
(** Models [anonymizeSupportTicketReplies] (backend/src/staging/anonymization.transform.ts:121-128). *)
Definition anonymizeSupportTicketReplies : list row → MA (list row) :=
  map_rows (literal [("id", Keep); ("ticketId", Token); ("author", Keep); ("createdAt", Keep)]).
(** Models [anonymizeNotifications] (backend/src/staging/anonymization.transform.ts:130-140). *)
Definition anonymizeNotifications : list row → MA (list row) :=
  map_rows (literal (("id", Keep) :: ("userId", Wallet) :: keep ["type"; "payload"; "acknowledgedAt"; "expiresAt"; "createdAt"])).
(** Models [anonymizeNotificationPreferences] (backend/src/staging/anonymization.transform.ts:142-150). *)
Definition anonymizeNotificationPreferences : list row → MA (list row) :=
  map_rows (literal (("userId", Wallet) :: keep ["renewalRemindersEnabled"; "claimUpdatesEnabled"; "createdAt"; "updatedAt"])).
(** Models [anonymizeRampTransactions] (backend/src/staging/anonymization.transform.ts:152-166). *)
Definition anonymizeRampTransactions : list row → MA (list row) :=
  map_rows (literal (("id", Keep) :: ("purchaseId", Synth) :: ("status", Keep) :: ("receiverAddress", Wallet) ::
    keep ["cryptoAmount"; "cryptoCurrency"; "fiatValue"; "fiatCurrency"; "lastSyncedAt"; "createdAt"; "updatedAt"])).
(** Models [anonymizeClaimComments] (backend/src/staging/anonymization.transform.ts:168-176). *)
Definition anonymizeClaimComments : list row → MA (list row) :=
  map_rows (literal [("id", Keep); ("claimId", Token); ("authorAddress", Wallet); ("createdAt", Keep); ("deletedAt", Keep)]).
(** Models [anonymizeEvidenceMetadata] (backend/src/staging/anonymization.transform.ts:178-184). *)
Definition anonymizeEvidenceMetadata : list row → MA (list row) :=
  map_rows (literal [("id", Keep); ("claimId", Token); ("createdAt", Keep)]).
(** Models [anonymizeRegisteredVoters] (backend/src/staging/anonymization.transform.ts:186-193). *)
Definition anonymizeRegisteredVoters : list row → MA (list row) :=
  map_rows (literal [("walletAddress", Wallet); ("displayName", Name "Voter"); ("registeredBy", Wallet); ("registeredAt", Keep)]).
(** Models [anonymizePosts] (backend/src/staging/anonymization.transform.ts:195-205). *)
Definition anonymizePosts : list row → MA (list row) :=
  map_rows (literal (("id", Keep) :: ("status", Keep) :: ("authorAddress", Wallet) :: keep ["publishAt"; "createdAt"; "updatedAt"; "deletedAt"])).

(** ** The sample *)

(** The tables, each in the order of creation, the newest row first. *)
Record Db := { claims : list row; policies : list row; votes : list row; profiles : list row; tickets : list row; replies : list row;
  notifications : list row; preferences : list row; ramps : list row; comments : list row; evidence : list row; voters : list row; posts : list row }.

Definition policies_of (sample : list row) (d : Db) : list row :=
  filter (λ p, get "id" p ∈ get "policyId" <$> sample) (policies d).
Definition votes_of (sample : list row) (d : Db) : list row := filter (λ v, get "claimId" v ∈ get "id" <$> sample) (votes d).

(** The anonymized tables in a database of their own.
    Models [sync] (backend/src/maintenance/staging-data-sync.service.ts:141-296). *)
Definition sync_tables (d : Db) : MA Db :=
  let sample := take 1000 (claims d) in
  let* cs := anonymizeClaims sample in
  let* ps := anonymizePolicies (policies_of sample d) in
  let* vs := anonymizeVotes (votes_of sample d) in
  let* pr := anonymizeHolderProfiles (take 500 (profiles d)) in
  let* ts := anonymizeSupportTickets (take 500 (tickets d)) in
  let* rs := anonymizeSupportTicketReplies (take 1000 (replies d)) in
  let* ns := anonymizeNotifications (take 1000 (notifications d)) in
  let* fs := anonymizeNotificationPreferences (preferences d) in
  let* rt := anonymizeRampTransactions (take 1000 (ramps d)) in
  let* cm := anonymizeClaimComments (take 1000 (comments d)) in
  let* ev := anonymizeEvidenceMetadata (take 1000 (evidence d)) in
  let* rv := anonymizeRegisteredVoters (voters d) in
  let* po := anonymizePosts (take 1000 (posts d)) in
  ret {| claims := cs; policies := ps; votes := vs; profiles := pr; tickets := ts; replies := rs; notifications := ns; preferences := fs;
         ramps := rt; comments := cm; evidence := ev; voters := rv; posts := po |}.
Definition sync (d : Db) : result error Db := (sync_tables d createAnonymizationContext).1.

(** ** Contexts do not matter *)

(** The maps hold nothing but what would be computed again. *)
Definition sound (c : AnonymizationContext) : Prop :=
  (∀ w a, walletMap c !! w = Some a → a = wallet_alias w) ∧
  (∀ e a, emailMap c !! e = Some a → a = email_alias e) ∧
  (∀ k a, idMap c !! k = Some a → a = token k.2).
Definition alone {A} (m : MA A) : result error A := (m createAnonymizationContext).1.
Definition alike {A} (m : MA A) : Prop := ∀ c, sound c → sound (m c).2 ∧ (m c).1 = alone m.

Lemma sound_empty : sound createAnonymizationContext.
Proof. split_and!; intros ? ?; cbn; by rewrite lookup_empty. Qed.

Lemma alike_ret {A} (a : A) : alike (ret a).
Proof. done. Qed.
Lemma alike_throw {A} e : alike (throw e : MA A).
Proof. done. Qed.
Lemma alone_bind {A B} (m : MA A) (f : A → MA B) : alike m → (∀ a, alike (f a)) →
  alone (bind m f) = match alone m with Ok a => alone (f a) | Throw e => Throw e end.
Proof.
  intros Hm Hf. unfold alone, bind. destruct (Hm _ sound_empty) as [Hs _]. destruct (m createAnonymizationContext) as [[a|e] c]; [|done].
  cbn in *. by destruct (Hf a c Hs).
Qed.
Lemma alike_bind {A B} (m : MA A) (f : A → MA B) : alike m → (∀ a, alike (f a)) → alike (bind m f).
Proof.
  intros Hm Hf c Hc. rewrite alone_bind by done. destruct (Hm c Hc) as [Hs Hr]. unfold bind. destruct (m c) as [[a|e] c1]; cbn in *; rewrite <- Hr; [|done].
  by apply Hf.
Qed.

Lemma alike_wallet w : alike (anonymizeWallet w).
Proof.
  intros c (H1 & H2 & H3). unfold anonymizeWallet, alone. cbn. rewrite lookup_empty. destruct (walletMap c !! w) as [a|] eqn:E; cbn; [by rewrite (H1 _ _ E)|].
  split; [|done]. split_and!; cbn; try done. intros w' a. destruct (decide (w = w')) as [->|]; [by rewrite lookup_insert_eq; intros [= <-]|].
  rewrite lookup_insert_ne by done. apply H1.
Qed.
Lemma alike_email e : alike (anonymizeEmail e).
Proof.
  intros c (H1 & H2 & H3). unfold anonymizeEmail, alone. cbn. rewrite lookup_empty. destruct (emailMap c !! e) as [a|] eqn:E; cbn; [by rewrite (H2 _ _ E)|].
  split; [|done]. split_and!; cbn; try done. intros w' a. destruct (decide (e = w')) as [->|]; [by rewrite lookup_insert_eq; intros [= <-]|].
  rewrite lookup_insert_ne by done. apply H2.
Qed.
Lemma alike_token b k : alike (tokenizeId b k).
Proof.
  intros c (H1 & H2 & H3). unfold tokenizeId, alone. cbn. rewrite lookup_empty. destruct (idMap c !! (b, k)) as [a|] eqn:E; cbn; [by rewrite (H3 _ _ E)|].
  split; [|done]. split_and!; cbn; try done. intros w' a. destruct (decide ((b, k) = w')) as [<-|]; [by rewrite lookup_insert_eq; intros [= <-]|].
  rewrite lookup_insert_ne by done. apply H3.
Qed.

Ltac alike_walk :=
  repeat match goal with
  | |- alike (bind _ _) => apply alike_bind; [|intros ?]
  | |- alike (ret _) => apply alike_ret
  | |- alike (throw _) => apply alike_throw
  | |- alike (anonymizeWallet _) => apply alike_wallet
  | |- alike (anonymizeEmail _) => apply alike_email
  | |- alike (tokenizeId _ _) => apply alike_token
  | |- alike (match ?x with _ => _ end) => destruct x
  end.

Lemma alike_treat t v : alike (treat t v).
Proof. destruct t, v as [[]|]; cbn [treat]; alike_walk. Qed.
Lemma alike_literal cols r : alike (literal cols r).
Proof. induction cols as [|[k t] cols IH]; cbn [literal]; alike_walk; [apply alike_treat|exact IH]. Qed.
Lemma alike_spread t r : alike (spread t r).
Proof. induction r as [|[k v] r IH]; cbn [spread]; alike_walk; [apply alike_treat|exact IH]. Qed.
Lemma alike_map_rows f rows : (∀ r, alike (f r)) → alike (map_rows f rows).
Proof. intros Hf. induction rows as [|r rows IH]; cbn [map_rows]; alike_walk; [apply Hf|exact IH]. Qed.

#[local] Hint Resolve alike_literal alike_spread alike_map_rows alike_treat : core.

Ltac solve_alike := intros; cbn beta; alike_walk; auto.

Lemma alone_bind_ok {A B} (m : MA A) (f : A → MA B) b : alike m → (∀ a, alike (f a)) →
  alone (bind m f) = Ok b → ∃ a, alone m = Ok a ∧ alone (f a) = Ok b.
Proof. intros Hm Hf. rewrite alone_bind by done. destruct (alone m); [eauto|done]. Qed.

(** The rows of an anonymized table are those of the table, each on its own. *)
Lemma map_rows_each f rows out : (∀ r, alike (f r)) → alone (map_rows f rows) = Ok out → Forall2 (λ r x, alone (f r) = Ok x) rows out.
Proof.
  intros Hf. revert out. induction rows as [|r rows IH]; intros out; [intros [= <-]; constructor|]. cbn [map_rows].
  intros (x & Hx & (xs & Hxs & [= <-])%alone_bind_ok)%alone_bind_ok; [|solve_alike..]. constructor; auto.
Qed.

(** What a literal holds under one of its names. *)
Lemma literal_get cols r x k t :
  NoDup cols.*1 → (k, t) ∈ cols → alone (literal cols r) = Ok x → alone (treat t (get k r)) = Ok (get k x).
Proof.
  revert x. induction cols as [|[k' t'] cols IH]; intros x Hn Hin; [by apply elem_of_nil in Hin|]. cbn [literal fmap list_fmap fst] in *.
  apply NoDup_cons in Hn as [Hk Hn]. intros (v & Hv & (rest & Hrest & [= <-])%alone_bind_ok)%alone_bind_ok; [|solve_alike..].
  apply elem_of_cons in Hin as [[= -> ->]|Hin].
  - rewrite Hv. f_equal. destruct v as [y|]; cbn [get]; [by rewrite bool_decide_true|]. symmetry.
    assert (∀ rest, alone (literal cols r) = Ok rest → get k' rest = None) as Hnone; [|by apply Hnone].
    clear - Hk. induction cols as [|[k2 t2] cols IH]; intros rest; [by intros [= <-]|]. cbn [literal fmap list_fmap fst] in *. apply not_elem_of_cons in Hk as [H1 H2].
    intros (v & Hv & (r2 & Hr2 & [= <-])%alone_bind_ok)%alone_bind_ok; [|solve_alike..].
    destruct v; cbn [get]; rewrite ?bool_decide_false by congruence; auto.
  - assert (k ≠ k') as Hne by (intros ->; apply Hk, list_elem_of_fmap; by exists (k', t)).
    rewrite (IH rest) by done. destruct v; cbn [get]; rewrite ?bool_decide_false by congruence; done.
Qed.

Lemma spread_get t r x k : NoDup r.*1 → alone (spread t r) = Ok x → get k r ≠ None → alone (treat (t k) (get k r)) = Ok (get k x).
Proof.
  revert x. induction r as [|[k' v] r IH]; intros x Hn; [done|]. cbn [spread fmap list_fmap fst get] in *. apply NoDup_cons in Hn as [Hk Hn].
  intros (v' & Hv & (rest & Hrest & [= <-])%alone_bind_ok)%alone_bind_ok; [|solve_alike..].
  assert (v' ≠ None) as Hv'.
  { clear - Hv. intros ->. destruct (t k') as [| | |[]| |], v; cbn in Hv; try done.
    all: revert Hv; unfold alone; cbn; repeat case_match; try done. }
  destruct v' as [y|]; [|done]. cbn [get]. case_bool_decide as E; [by subst; rewrite Hv|]. by apply IH.
Qed.

(** ** The sample *)

Lemma token_of_text a : alone (treat Token (Some (VStr a))) = Ok (Some (VStr (token a))).
Proof. unfold alone. cbn. unfold bind, tokenizeId. cbn. by rewrite lookup_empty. Qed.
Lemma token_of_number n : alone (treat Token (Some (VNum n))) = Ok (Some (VStr (token (show_Z n)))).
Proof. unfold alone. cbn. unfold bind, tokenizeId. cbn. by rewrite lookup_empty. Qed.

Lemma sync_tables_ok d out : sync d = Ok out →
  alone (anonymizeClaims (take 1000 (claims d))) = Ok (claims out) ∧
  alone (anonymizePolicies (policies_of (take 1000 (claims d)) d)) = Ok (policies out) ∧
  alone (anonymizeVotes (votes_of (take 1000 (claims d)) d)) = Ok (votes out) ∧
  alone (anonymizeClaimComments (take 1000 (comments d))) = Ok (comments out) ∧
  alone (anonymizeSupportTickets (take 500 (tickets d))) = Ok (tickets out).
Proof.
  intros H. change (alone (sync_tables d) = Ok out) in H. unfold sync_tables in H. cbv zeta in H.
  unfold anonymizeClaims, anonymizePolicies, anonymizeVotes, anonymizeHolderProfiles, anonymizeSupportTickets, anonymizeSupportTicketReplies, anonymizeNotifications,
    anonymizeNotificationPreferences, anonymizeRampTransactions, anonymizeClaimComments, anonymizeEvidenceMetadata, anonymizeRegisteredVoters, anonymizePosts in *.
  repeat (apply alone_bind_ok in H as (? & ? & H); [|solve_alike..]). by injection H as <-.
Qed.

Lemma claim_columns c c' : alone (literal claimColumns c) = Ok c' →
  get "id" c' = get "id" c ∧ alone (treat Token (get "policyId" c)) = Ok (get "policyId" c').
Proof.
  intros Hc. assert (NoDup claimColumns.*1) as Hn by (apply (bool_decide_unpack _); vm_compute; done).
  split; [|eapply literal_get; [exact Hn| |exact Hc]; right; by left].
  assert (alone (treat Keep (get "id" c)) = Ok (get "id" c')) as [= ->]; [|done]. eapply literal_get; [exact Hn| |exact Hc]. by left.
Qed.

(** References are kept.  In the anonymized sample a claim refers to a policy exactly
    when it did before, whatever was anonymized in between, provided the tokens of the
    two identifiers do not collide; a vote refers to a claim exactly when it did. *)
Theorem references_kept d out i j c c' a p p' b :
  sync d = Ok out → take 1000 (claims d) !! i = Some c → claims out !! i = Some c' → get "policyId" c = Some (VStr a) →
  policies_of (take 1000 (claims d)) d !! j = Some p → policies out !! j = Some p' → get "id" p = Some (VStr b) → NoDup p.*1 →
  (token a = token b → a = b) →
  (get "policyId" c' = get "id" p' ↔ get "policyId" c = get "id" p) ∧
  (∀ k v v', votes_of (take 1000 (claims d)) d !! k = Some v → votes out !! k = Some v' →
     (get "claimId" v' = get "id" c' ↔ get "claimId" v = get "id" c)).
Proof.
  intros (Hcs & Hps & Hvs & _ & _)%sync_tables_ok Hc Hc' Ha Hp Hp' Hb Hn Hinj.
  apply map_rows_each in Hcs; [|auto]. apply map_rows_each in Hps; [|auto]. apply map_rows_each in Hvs; [|auto].
  destruct (claim_columns c c' (Forall2_lookup_lr _ _ _ _ _ _ Hcs Hc Hc')) as [Hid Hpol].
  pose proof (Forall2_lookup_lr _ _ _ _ _ _ Hps Hp Hp') as Hp1. cbn beta in Hp1.
  apply (spread_get _ _ _ "id") in Hp1; [|done|by rewrite Hb]. split.
  - rewrite Ha in *. rewrite Hb in *. rewrite bool_decide_true in Hp1 by done. rewrite token_of_text in Hpol, Hp1.
    injection Hpol as <-. injection Hp1 as <-. split; intros E; [rewrite Hinj; congruence|congruence].
  - intros k v v' Hv Hv'. pose proof (Forall2_lookup_lr _ _ _ _ _ _ Hvs Hv Hv') as Hv1. cbn beta in Hv1.
    assert (alone (treat Keep (get "claimId" v)) = Ok (get "claimId" v')) as [= <-].
    { eapply literal_get; [| |exact Hv1]; [apply (bool_decide_unpack _); vm_compute; done|right; by left]. }
    by rewrite Hid.
Qed.

(** The references of comments are lost: the claims keep their numbers and the
    comments name their claims by tokens, so no comment of the anonymized sample
    belongs to any of its claims. *)
Theorem comment_references_lost d out i j c' m' :
  sync d = Ok out → Forall (λ c, ∃ n, get "id" c = Some (VNum n)) (claims d) →
  Forall (λ m, ∃ n, get "claimId" m = Some (VNum n)) (comments d) →
  claims out !! i = Some c' → comments out !! j = Some m' → get "claimId" m' ≠ get "id" c'.
Proof.
  intros (Hcs & _ & _ & Hms & _)%sync_tables_ok Hnum Hmnum Hc' Hm'. apply map_rows_each in Hcs; [|auto]. apply map_rows_each in Hms; [|auto].
  destruct (Forall2_lookup_r _ _ _ _ _ Hcs Hc') as (c & Hc & Hc1). destruct (Forall2_lookup_r _ _ _ _ _ Hms Hm') as (m & Hm & Hm1).
  destruct (claim_columns c c' Hc1) as [-> _]. destruct (Forall_lookup_1 _ _ _ _ (Forall_take _ 1000 _ Hnum) Hc) as [n ->].
  destruct (Forall_lookup_1 _ _ _ _ (Forall_take _ 1000 _ Hmnum) Hm) as [k Hk].
  assert (alone (treat Token (get "claimId" m)) = Ok (get "claimId" m')) as Ht.
  { eapply literal_get; [| |exact Hm1]; [apply (bool_decide_unpack _); vm_compute; done|right; by left]. }
  rewrite Hk, token_of_number in Ht. by injection Ht as <-.
Qed.

(** The rest of a policy is copied: the hash of the transaction that created it, by
    which its holder is found on the public chain, is part of the anonymized sample. *)
Theorem policy_columns_copied d out j p p' k :
  sync d = Ok out → policies_of (take 1000 (claims d)) d !! j = Some p → policies out !! j = Some p' → NoDup p.*1 →
  k ≠ "id" → k ≠ "holderAddress" → get k p ≠ None → get k p' = get k p.
Proof.
  intros (_ & Hps & _)%sync_tables_ok Hp Hp' Hn H1 H2 Hk. apply map_rows_each in Hps; [|auto].
  pose proof (Forall2_lookup_lr _ _ _ _ _ _ Hps Hp Hp') as Hp1. cbn beta in Hp1. apply (spread_get _ _ _ k) in Hp1; [|done|done].
  cbn beta in Hp1. rewrite !bool_decide_false in Hp1 by done. by injection Hp1 as ->.
Qed.

(** The sample is closed: it holds the policy of each of its claims that exists, and
    each of its policies and votes belongs to one of its claims. *)
Theorem sample_closed d c p v :
  let sample := take 1000 (claims d) in
  (c ∈ sample → p ∈ policies d → get "id" p = get "policyId" c → p ∈ policies_of sample d) ∧
  (p ∈ policies_of sample d → ∃ c0, c0 ∈ sample ∧ get "id" p = get "policyId" c0) ∧
  (v ∈ votes_of sample d ↔ v ∈ votes d ∧ ∃ c0, c0 ∈ sample ∧ get "claimId" v = get "id" c0).
Proof.
  intros sample. unfold policies_of, votes_of. rewrite !list_elem_of_filter, !list_elem_of_fmap. split_and!.
  - intros Hc Hp E. split; [|done]. by exists c.
  - intros [(c0 & E & Hc0) _]. by exists c0.
  - split; [intros [(c0 & E & Hc0) Hv]; eauto|intros (Hv & c0 & Hc0 & E); eauto].
Qed.
End anonymize.

(** ** Witnesses *)

Module AnonymizeWitnesses.
(** A stand-in for the digest: the text itself, filled up. *)
Definition digest (s : string) : string := s +:+ "0000000000000000000000000000000000000000000000000000000000000000".
Definition holder : string := "GABC".
Definition a_claim : row := [("id", VNum 7); ("policyId", VStr "GABC:3"); ("creatorAddress", VStr holder); ("amount", VStr "100")].
Definition a_policy : row := [("id", VStr "GABC:3"); ("policyId", VNum 3); ("holderAddress", VStr holder); ("txHash", VStr "beef")].
Definition a_vote : row := [("id", VNum 1); ("claimId", VNum 7); ("vote", VStr "APPROVE")].
Definition a_comment : row := [("id", VStr "c1"); ("claimId", VNum 7); ("authorAddress", VStr holder)].
Definition db : Db :=
  {| claims := [a_claim]; policies := [a_policy]; votes := [a_vote]; profiles := []; tickets := []; replies := []; notifications := [];
     preferences := []; ramps := []; comments := [a_comment]; evidence := []; voters := []; posts := [] |}.
Definition out : Db := match sync digest db with Ok o => o | Throw _ => db end.
Definition first (l : list row) : row := default [] (l !! 0%nat).

Lemma references_kept_witness : get "policyId" (first (claims out)) = get "id" (first (policies out)).
Proof.
  destruct (references_kept digest db out 0 0 a_claim (first (claims out)) "GABC:3" a_policy (first (policies out)) "GABC:3") as [H _];
    [vm_compute; reflexivity|reflexivity|vm_compute; reflexivity|reflexivity|vm_compute; reflexivity|vm_compute; reflexivity|reflexivity|
     apply (bool_decide_unpack _); vm_compute; done|done|]. by apply H.
Defined.

Lemma comment_references_lost_witness : get "claimId" (first (comments out)) ≠ get "id" (first (claims out)).
Proof.
  apply (comment_references_lost digest db out 0 0 (first (claims out)) (first (comments out)));
    [vm_compute; reflexivity| | |vm_compute; reflexivity|vm_compute; reflexivity].
  - repeat constructor. by exists 7.
  - repeat constructor. by exists 7.
Defined.

Lemma policy_columns_copied_witness : get "txHash" (first (policies out)) = Some (VStr "beef").
Proof.
  etrans; [apply (policy_columns_copied digest db out 0 a_policy (first (policies out)) "txHash")|reflexivity];
    [vm_compute; reflexivity|vm_compute; reflexivity|vm_compute; reflexivity|apply (bool_decide_unpack _); vm_compute; done|done|done|done].
Defined.
End AnonymizeWitnesses.
