(* ===== verification/EvidenceUpload.v ===== *)
(** * Upload of claim evidence

    backend/src/claims/services/evidence-upload.service.ts: a file is checked, counted
    against the wallet's limit, stored and recorded in the audit log.  The client of
    three components: the limiter of RateLimit, a store of files, stated as an
    interface, and the audit log, whose failures are swallowed.  The IPFS service of
    Ipfs is the store the module is given. *)

From stdpp Require Import base gmap list strings.
From Stdlib Require Import ZArith Lia Ascii Sorted.
From S2P Require Import Prelude JsText Codec Redis RateLimit FileValidation Ipfs.

Open Scope string_scope.
Open Scope Z_scope.

(** An uploaded file, as multer gives it. *)
Record File := { buffer : list Z; originalname : string; mimetype : string; file_size : Z }.

(** Models [EVIDENCE_ALLOWED_MIME_TYPES] (backend/src/claims/dto/evidence-upload.dto.ts:2-6). *)
Definition EVIDENCE_ALLOWED_MIME_TYPES : list string := ["application/pdf"; "image/png"; "image/jpeg"].
Definition EVIDENCE_MAX_BYTES_DEFAULT : Z := 10 * 1024 * 1024.
Definition EVIDENCE_UPLOAD_RATE_LIMIT_DEFAULT : Z := 5.
Definition EVIDENCE_UPLOAD_RATE_LIMIT_WINDOW_SECONDS_DEFAULT : Z := 3600.

(** The configured values; [None] takes the default. *)
Record UploadEnv := { max_bytes : option Z; rate_limit : option Z; rate_window : option Z }.

(** [ipfs.upload(buffer, name, type, undefined, { stripExif: true })] of a store with
    state [S] and exceptions [SE]. *)
Class EvidenceStore (S SE : Type) := { store_upload : Z → list Z → string → string → M S SE IpfsUploadResponse }.

(** Models [EvidenceUploadResponseDto] (backend/src/claims/dto/evidence-upload.dto.ts:19-24). *)
Record EvidenceUploadResponseDto := { r_cid : string; r_gatewayUrl : option string; r_fileSizeBytes : Z; r_mimeType : string }.

(** What goes to the audit log. *)
Inductive audit_payload := UploadSuccess (cid mimeType : string) (size : Z) | UploadFailed | UploadRateLimited (retryAfterSeconds : Z).
Record audit_entry := { actor : string; what : audit_payload }.

Inductive refusal (SE : Type) := BadRequest (message : string) | RateLimitExceeded (retryAfter : Z) | LimiterFailed (e : string) | StoreFailed (e : SE).
Arguments BadRequest {SE} _.
Arguments RateLimitExceeded {SE} _.
Arguments LimiterFailed {SE} _.
Arguments StoreFailed {SE} _.

(** [audit_down]: which of the next writes to the log fail. *)
Record uworld (R S : Type) := UWorld { limiter : rworld R; files : S; audit_log : list audit_entry; audit_down : list bool }.
Arguments UWorld {R S} _ _ _ _.
Arguments limiter {R S} _.
Arguments files {R S} _.
Arguments audit_log {R S} _.
Arguments audit_down {R S} _.

Definition dangerousExtensions : list string := ["exe"; "bat"; "sh"; "js"; "php"; "py"; "rb"; "cmd"; "ps1"].
(** [name.split('.').pop()?.toLowerCase() ?? ''] *)
Definition extension (name : string) : string := toLowerCase (default "" (list.last (split "." name))).

Section service.
Context {R S SE : Type} `{!RedisZSet R, !EvidenceStore S SE}.
Variable env : UploadEnv.
Abbreviation MU A := (M (uworld R S) (refusal SE) A).

(** The checks of a file; the answer is the message of the 400.
    Models [validateFile] (backend/src/claims/services/evidence-upload.service.ts:72-96). *)
Definition validateFile (file : option File) : option string :=
  match file with
  | None => Some "No file provided"
  | Some f =>
      if negb (bool_decide (mimetype f ∈ EVIDENCE_ALLOWED_MIME_TYPES)) then
        Some ("Unsupported file type " +:+ quoted (mimetype f) +:+ ". Allowed: " +:+ join ", " EVIDENCE_ALLOWED_MIME_TYPES)
      else if default EVIDENCE_MAX_BYTES_DEFAULT (max_bytes env) <? file_size f then
        Some ("File exceeds maximum size of " +:+ show_Z (default EVIDENCE_MAX_BYTES_DEFAULT (max_bytes env)) +:+ " bytes")
      else if bool_decide (extension (originalname f) ∈ dangerousExtensions) then
        Some ("File extension " +:+ quoted ("." +:+ extension (originalname f)) +:+ " is not allowed")
      else None
  end.

(** Models [writeAudit] (backend/src/claims/services/evidence-upload.service.ts:122-137). *)
Definition writeAudit (wallet : string) (p : audit_payload) : MU () :=
  λ w, let log := if default false (head (audit_down w)) then audit_log w else (audit_log w ++ [{| actor := wallet; what := p |}])%list in
       (Ok tt, UWorld (limiter w) (files w) log (drop 1 (audit_down w))).

Definition on_limiter {A} (m : M (rworld R) string A) : MU A :=
  λ w, let '(a, r) := m (limiter w) in
       (match a with Ok x => Ok x | Throw e => Throw (LimiterFailed e) end, UWorld r (files w) (audit_log w) (audit_down w)).
Definition on_files {A} (m : M S SE A) : MU (result SE A) :=
  λ w, let '(a, s) := m (files w) in (Ok a, UWorld (limiter w) s (audit_log w) (audit_down w)).

(** Models [enforceRateLimit] (backend/src/claims/services/evidence-upload.service.ts:98-120). *)
Definition enforceRateLimit (wallet : string) (now : Z) (rnd : string) : MU () :=
  let* d := on_limiter (checkWalletEvidenceLimit wallet (default EVIDENCE_UPLOAD_RATE_LIMIT_DEFAULT (rate_limit env))
    (default EVIDENCE_UPLOAD_RATE_LIMIT_WINDOW_SECONDS_DEFAULT (rate_window env)) now rnd) in
  if allowed d then ret tt
  else do* writeAudit wallet (UploadRateLimited (retryAfterSeconds d)) in throw (RateLimitExceeded (retryAfterSeconds d)).

(** Models [upload] (backend/src/claims/services/evidence-upload.service.ts:29-70). *)
Definition upload_evidence (file : option File) (wallet : string) (now : Z) (rnd : string) : MU EvidenceUploadResponseDto :=
  match validateFile file, file with
  | Some m, _ => throw (BadRequest m)
  | None, None => throw (BadRequest "No file provided")
  | None, Some f =>
      do* enforceRateLimit wallet now rnd in
      let* r := on_files (store_upload now (buffer f) (originalname f) (mimetype f)) in
      match r with
      | Throw e => do* writeAudit wallet UploadFailed in throw (StoreFailed e)
      | Ok u =>
          do* writeAudit wallet (UploadSuccess (u_cid u) (mimetype f) (file_size f)) in
          ret {| r_cid := u_cid u; r_gatewayUrl := head (u_gatewayUrls u); r_fileSizeBytes := file_size f; r_mimeType := mimetype f |}
      end
  end.

(** The requests of one wallet: when, the limiter's suffix, the file. *)
Fixpoint upload_all (wallet : string) (reqs : list (Z * string * File)) (w : uworld R S) : list (result (refusal SE) EvidenceUploadResponseDto) * uworld R S :=
  match reqs with
  | [] => ([], w)
  | (t, rnd, f) :: reqs' =>
      let '(r, w1) := upload_evidence (Some f) wallet t rnd w in
      let '(rs, w2) := upload_all wallet reqs' w1 in (r :: rs, w2)
  end.

(** Whether a request reached the store. *)
Definition attempted {A} (r : result (refusal SE) A) : bool :=
  match r with Ok _ | Throw (StoreFailed _) => true | _ => false end.

(** ** Properties *)

Definition limit_of : Z := default EVIDENCE_UPLOAD_RATE_LIMIT_DEFAULT (rate_limit env).
Definition window_of : Z := default EVIDENCE_UPLOAD_RATE_LIMIT_WINDOW_SECONDS_DEFAULT (rate_window env).

(** The check of the limiter never throws. *)
Lemma limiter_answers wallet t rnd (l : rworld R) :
  ∃ d l', checkWalletEvidenceLimit wallet limit_of window_of t rnd l = (Ok d, l').
Proof.
  unfold checkWalletEvidenceLimit, try_catch. destruct (slidingWindow _ _ _ _ _ l) as [[d|e] l']; eauto.
Qed.

(** Every branch of an upload.  A refused file touches nothing; a wallet at its limit
    never reaches the store; otherwise the store decides, and its answer or its
    exception is the caller's.  One entry goes to the audit log, unless the log fails,
    and whether it fails changes neither the answer nor the other components. *)
Theorem upload_outcome file wallet t rnd (w : uworld R S) :
  ∃ entries,
  upload_evidence file wallet t rnd w =
    match validateFile file, file with
    | Some m, _ => (Throw (BadRequest m), w)
    | None, None => (Throw (BadRequest "No file provided"), w)
    | None, Some f =>
        match checkWalletEvidenceLimit wallet limit_of window_of t rnd (limiter w) with
        | (Throw e, l) => (Throw (LimiterFailed e), UWorld l (files w) (audit_log w) (audit_down w))
        | (Ok d, l) =>
            let log := (audit_log w ++ entries)%list in
            if allowed d then
              match store_upload t (buffer f) (originalname f) (mimetype f) (files w) with
              | (Ok u, s) => (Ok {| r_cid := u_cid u; r_gatewayUrl := head (u_gatewayUrls u); r_fileSizeBytes := file_size f; r_mimeType := mimetype f |},
                              UWorld l s log (drop 1 (audit_down w)))
              | (Throw e, s) => (Throw (StoreFailed e), UWorld l s log (drop 1 (audit_down w)))
              end
            else (Throw (RateLimitExceeded (retryAfterSeconds d)), UWorld l (files w) log (drop 1 (audit_down w)))
        end
    end ∧ (length entries ≤ 1)%nat ∧ (head (audit_down w) = Some true → entries = []).
Proof.
  unfold upload_evidence. destruct (validateFile file) as [m|]; [exists []; auto|]. destruct file as [f|]; [|exists []; auto].
  unfold bind at 1. unfold enforceRateLimit, bind at 1. unfold on_limiter. fold limit_of window_of.
  destruct (limiter_answers wallet t rnd (limiter w)) as (d & l & ->). destruct (allowed d).
  - unfold ret at 1, bind at 1, on_files. cbn [files limiter audit_log audit_down]. destruct (store_upload t _ _ _ (files w)) as [[u|e] s].
    + unfold bind, writeAudit, ret. cbn [files limiter audit_log audit_down].
      exists (if default false (head (audit_down w)) then [] else [{| actor := wallet; what := UploadSuccess (u_cid u) (mimetype f) (file_size f) |}]).
      split_and!; [|case_match; cbn; lia|by intros ->]. by destruct (default false (head (audit_down w))); rewrite ?app_nil_r.
    + unfold bind, writeAudit, throw. cbn [files limiter audit_log audit_down].
      exists (if default false (head (audit_down w)) then [] else [{| actor := wallet; what := UploadFailed |}]).
      split_and!; [|case_match; cbn; lia|by intros ->]. by destruct (default false (head (audit_down w))); rewrite ?app_nil_r.
  - unfold bind, writeAudit, throw. cbn [files limiter audit_log audit_down].
    exists (if default false (head (audit_down w)) then [] else [{| actor := wallet; what := UploadRateLimited (retryAfterSeconds d) |}]).
    split_and!; [|case_match; cbn; lia|by intros ->]. by destruct (default false (head (audit_down w))); rewrite ?app_nil_r.
Qed.
End service.

(** ** The limit *)

Section limit.
Context {R S SE : Type} `{RL : RedisZSetLaws R} `{!EvidenceStore S SE}.
Variable env : UploadEnv.

Lemma upload_decision f wallet t rnd (w : uworld R S) d l' :
  validateFile env (Some f) = None →
  checkWalletEvidenceLimit wallet (limit_of env) (window_of env) t rnd (limiter w) = (Ok d, l') →
  attempted (upload_evidence (SE:=SE) env (Some f) wallet t rnd w).1 = allowed d ∧ limiter (upload_evidence (SE:=SE) env (Some f) wallet t rnd w).2 = l'.
Proof.
  intros Hv Hd. unfold upload_evidence. rewrite Hv. unfold enforceRateLimit. fold (limit_of env) (window_of env).
  unfold bind, on_limiter, on_files, writeAudit, ret, throw. rewrite Hd. destruct (allowed d); [|done]. cbn [files limiter audit_log audit_down].
  by destruct (store_upload t (buffer f) (originalname f) (mimetype f) (files w)) as [[u|e] s].
Qed.

Lemma upload_all_decisions wallet reqs (w : uworld R S) ds l' :
  Forall (λ q, validateFile env (Some q.2) = None) reqs →
  calls (checkWalletEvidenceLimit wallet (limit_of env) (window_of env)) (fst <$> reqs) (limiter w) = (Ok ds, l') →
  attempted <$> (upload_all (SE:=SE) env wallet reqs w).1 = allowed <$> ds.
Proof.
  intros Hf. revert w ds. induction Hf as [|[[t rnd] f] reqs Hv Hf IH]; intros w ds Hrun.
  { unfold calls, ret in Hrun. cbn in Hrun. by injection Hrun as <-. }
  cbn [fmap list_fmap fst calls] in Hrun. apply bind_ok_inv in Hrun as (d & l1 & Hd & Hrun).
  apply bind_ok_inv in Hrun as (ds0 & l2 & Hds & Hret). unfold ret in Hret. injection Hret as <- <-.
  destruct (upload_decision f wallet t rnd w d l1 Hv Hd) as [Ha Hl]. cbn [upload_all].
  destruct (upload_evidence env (Some f) wallet t rnd w) as [r w1]. cbn [fst snd] in *. subst l1. specialize (IH w1 ds0 Hds).
  destruct (upload_all env wallet reqs w1) as [rs w2]. cbn [fst fmap list_fmap] in *. by rewrite Ha, IH.
Qed.

(** C31: On a healthy Redis, and from an empty window, a wallet's attempts are bounded.  However many
    acceptable files one wallet sends, one after the other, and whatever becomes of them in the store, in any
    window at most the configured number reach it: five in an hour unless configured otherwise.  When Redis
    fails the limiter admits every request, and the bound does not hold. *)
Theorem attempts_bounded wallet reqs (r : R) s log down :
  0 < window_of env → no_entries ("rate_limit:evidence:" +:+ toLowerCase wallet) r → orderly (fst <$> reqs) →
  Forall (λ q, validateFile env (Some q.2) = None) reqs →
  ∀ t, Z.of_nat (length (filter (λ x, t - window_of env * 1000 < x ≤ t)
         (admitted_times (fst <$> (fst <$> reqs)) (attempted <$> (upload_all (SE:=SE) env wallet reqs (UWorld (Redis.healthy r) s log down)).1) [])))
       ≤ Z.max 0 (limit_of env).
Proof.
  intros Hw He Ho Hf.
  destruct (guarded_sliding_refines ("rate_limit:evidence:" +:+ toLowerCase wallet) (limit_of env) (window_of env * 1000) r (fst <$> reqs) He Ho) as (ds & r' & Hrun & Hds).
  rewrite (upload_all_decisions wallet reqs (UWorld (Redis.healthy r) s log down) ds (Redis.healthy r') Hf Hrun), Hds, <- run_admitted. destruct Ho as [Hs _].
  destruct (Reference.run_bounded (limit_of env) (window_of env * 1000) 0 (fst <$> (fst <$> reqs)) [] ltac:(lia) Hs) as (t1 & _ & Hb); [|done].
  split; [done|]. intros u. cbn. lia.
Qed.
End limit.

(** ** With the IPFS service *)

Section ipfs.
Context {R RI : Type} `{!RedisZSet R} `{!RedisString IdempotencyRecord RI}.
Context (sha256Hex : list Z → string) (max_arguments : nat).
Context (minFileSize maxFileSize : Z) (exifEnabled : bool) (gateways : list IpfsGatewayConfig).
Context (api : list Z → string → string → provider_api) (maxConsecutiveFailures : Z).

(** The store the module provides: no idempotency key, EXIF data removed. *)
#[local] Instance ipfs_store : EvidenceStore (iworld RI) upload_error := {
  store_upload now buf name mime :=
    upload_file sha256Hex max_arguments minFileSize maxFileSize exifEnabled gateways api maxConsecutiveFailures now buf name mime None
      {| stripExif := Some true; scanForViruses := None |} }.

(** No evidence is ever stored.  The IPFS service validates each file without a field
    name, which its validation requires: whatever the file, its size and the state of
    everything, the upload fails, nothing is sent to a provider, and an acceptable file
    of a wallet below its limit uses up one of its attempts. *)
Theorem evidence_never_stored env file wallet t rnd (w : uworld R (iworld RI)) :
  let r := upload_evidence env file wallet t rnd w in
  is_ok r.1 = false ∧ files r.2 = files w ∧
  (∀ f d l, file = Some f → validateFile env file = None →
     checkWalletEvidenceLimit wallet (limit_of env) (window_of env) t rnd (limiter w) = (Ok d, l) → allowed d = true →
     r.1 = Throw (StoreFailed (FileRefused FieldNameRequired)) ∧ limiter r.2 = l).
Proof.
  intros r. unfold r. assert (∀ buf name mime (s : iworld RI), store_upload t buf name mime s = (Throw (FileRefused FieldNameRequired), s)) as Hst
    by done.
  unfold upload_evidence. destruct (validateFile env file) as [m|]; [done|]. destruct file as [f|]; [|done].
  unfold enforceRateLimit. fold (limit_of env) (window_of env). unfold bind, on_limiter, on_files, writeAudit, ret, throw.
  destruct (checkWalletEvidenceLimit wallet (limit_of env) (window_of env) t rnd (limiter w)) as [[d|e] l].
  - destruct (allowed d) eqn:Ha; cbn [files limiter audit_log audit_down]; [rewrite Hst|]; (split_and!; [done|done|]).
    + intros f' d' l' [= <-] _ [= <- <-] _. done.
    + intros f' d' l' [= <-] _ [= <- <-]. congruence.
  - split_and!; [done|done|]. by intros f' d' l' _ _ [=].
Qed.
End ipfs.

(** ** Witnesses *)

Module EvidenceUploadWitnesses.
Import Redis.Sample.

(** A store that keeps the bytes it is given, under a name made of their number. *)
#[local] Instance list_store : EvidenceStore (list (list Z)) () := {
  store_upload now buf name mime s :=
    (Ok {| u_cid := show_Z (Z.of_nat (length s)); u_gatewayUrls := ["https://gw/x"]; u_contentSha256Hex := ""; u_filename := name;
           u_size := Z.of_nat (length buf); u_mimeType := mime; u_duplicated := false; u_uploadedAt := now |}, (s ++ [buf])%list) }.

Definition one_a_minute : UploadEnv := {| max_bytes := None; rate_limit := Some 1; rate_window := Some 60 |}.
Definition photo : File := {| buffer := [255; 216; 255]; originalname := "roof.jpg"; mimetype := "image/jpeg"; file_size := 3 |}.
Definition requests : list (Z * string * File) := [(1000, "a", photo); (2000, "b", photo); (70000, "c", photo)].

Lemma attempts_bounded_witness :
  let answers := (upload_all one_a_minute "GA" requests (UWorld (Redis.healthy ([] : zsets)) ([] : list (list Z)) [] [])).1 in
  attempted <$> answers = [true; false; true] ∧
  ∀ t, Z.of_nat (length (filter (λ x, t - 60 * 1000 < x ≤ t) (admitted_times [1000; 2000; 70000] (attempted <$> answers) []))) ≤ 1.
Proof.
  split; [vm_compute; reflexivity|].
  apply (attempts_bounded one_a_minute "GA" requests ([] : zsets) ([] : list (list Z)) [] []); [done|done| |].
  - split_and!; [sorted_concrete|repeat (constructor; [cbn; lia|]); constructor|apply (bool_decide_unpack _); vm_compute; done].
  - repeat constructor; vm_compute; reflexivity.
Defined.

End EvidenceUploadWitnesses.
