(* ===== verification/ErrorFilter.v ===== *)
(** * Error answers

    backend/src/common/errors/error-catalog.ts and app.exception.ts, and the global
    filter of backend/src/common/filters/http-exception.filter.ts that turns whatever a
    handler throws into the answer of the API. *)

From stdpp Require Import base list strings.
From Stdlib Require Import ZArith Lia Ascii.
From S2P Require Import Prelude JsText.

Open Scope string_scope.
Open Scope Z_scope.

(** ** The catalog *)

(** Models [CatalogEntry] (backend/src/common/errors/error-catalog.ts:20-33). *)
Record CatalogEntry := { code : string; httpStatus : Z; i18nKey : string; description : string }.
Definition entry (c : string) (st : Z) (k d : string) : CatalogEntry := {| code := c; httpStatus := st; i18nKey := k; description := d |}.

#[export] Instance catalog_entry_eq : EqDecision CatalogEntry.
Proof. solve_decision. Defined.

(** Models [ERROR_CATALOG] (backend/src/common/errors/error-catalog.ts:35-276). *)
Definition ERROR_CATALOG : list CatalogEntry :=
  [entry "SIGNATURE_INVALID" 401 "errors.auth.signatureInvalid"
     "Wallet signature verification failed.";
   entry "NONCE_EXPIRED" 401 "errors.auth.nonceExpired"
     "The sign-in nonce has expired; request a new one.";
   entry "TOKEN_EXPIRED" 401 "errors.auth.tokenExpired"
     "JWT access token has expired.";
   entry "UNAUTHORIZED" 401 "errors.auth.unauthorized"
     "Request is not authenticated.";
   entry "FORBIDDEN" 403 "errors.auth.forbidden"
     "Authenticated user lacks permission for this action.";
   entry "INVALID_WALLET_ADDRESS" 400 "errors.wallet.invalidAddress"
     "The supplied Stellar address is not valid or does not exist on-chain.";
   entry "ACCOUNT_NOT_FOUND" 400 "errors.wallet.accountNotFound"
     "Stellar account not found; fund it with at least 1 XLM.";
   entry "WRONG_NETWORK" 400 "errors.wallet.wrongNetwork"
     "RPC network passphrase mismatch.";
   entry "INSUFFICIENT_BALANCE" 400 "errors.wallet.insufficientBalance"
     "Account does not have enough XLM to cover fees.";
   entry "TRANSACTION_FAILED" 400 "errors.tx.failed"
     "Stellar transaction was rejected by the network.";
   entry "TRANSACTION_REJECTED" 400 "errors.tx.rejected"
     "Transaction was rejected at submission time.";
   entry "INSUFFICIENT_FEE" 400 "errors.tx.insufficientFee"
     "Transaction fee is below the network minimum.";
   entry "SIMULATION_TIMEOUT" 504 "errors.tx.simulationTimeout"
     "Soroban simulate_transaction timed out.";
   entry "SIMULATION_FAILED" 400 "errors.tx.simulationFailed"
     "Soroban simulation returned an error.";
   entry "SIMULATION_DECODE_FAILED" 500 "errors.tx.simulationDecodeFailed"
     "Could not decode the simulation return value.";
   entry "CONTRACT_NOT_DEPLOYED" 503 "errors.tx.contractNotDeployed"
     "Smart contract is not deployed on this network.";
   entry "CONTRACT_NOT_CONFIGURED" 400 "errors.tx.contractNotConfigured"
     "CONTRACT_ID environment variable is not set.";
   entry "CONTRACT_NOT_INITIALIZED" 400 "errors.tx.contractNotInitialized"
     "Contract is not initialized for this operation.";
   entry "SUBMISSION_FAILED" 503 "errors.tx.submissionFailed"
     "Failed to submit transaction to the Soroban RPC.";
   entry "LEDGER_CLOSED" 400 "errors.tx.ledgerClosed"
     "Target ledger has already closed.";
   entry "TIMEOUT_ERROR" 504 "errors.tx.timeout"
     "RPC call timed out.";
   entry "RPC_UNAVAILABLE" 503 "errors.rpc.unavailable"
     "Soroban RPC endpoint is unreachable.";
   entry "POLICY_NOT_FOUND" 404 "errors.policy.notFound"
     "Policy does not exist.";
   entry "POLICY_BATCH_TOO_LARGE" 400 "errors.policy.batchTooLarge"
     "Batch request exceeds the maximum allowed policy count.";
   entry "REGION_BLOCKED" 451 "errors.policy.regionBlocked"
     "Policy initiation is not available in the requester's region.";
   entry "CLAIM_NOT_FOUND" 404 "errors.claim.notFound"
     "Claim does not exist.";
   entry "CLAIM_ALREADY_FINALIZED" 409 "errors.claim.alreadyFinalized"
     "Claim has already been finalized and cannot be modified.";
   entry "CLAIMS_PAUSED" 503 "errors.claim.claimsPaused"
     "Claim operations (including appeals) are paused by the contract admin.";
   entry "NOT_CLAIMANT" 403 "errors.appeal.notClaimant"
     "Only the original claimant may appeal a claim; the calling wallet is a different address.";
   entry "CLAIM_NOT_REJECTED" 409 "errors.appeal.claimNotRejected"
     "Appeals are only permitted on rejected claims; this claim is in a different status.";
   entry "APPEAL_ALREADY_SUBMITTED" 409 "errors.appeal.alreadySubmitted"
     "An appeal has already been recorded for this claim (contract allows one appeal per claim).";
   entry "APPEAL_WINDOW_CLOSED" 409 "errors.appeal.windowClosed"
     "The appeal window closed; the current ledger is past the claim appeal_open_deadline_ledger.";
   entry "RATE_LIMIT_EXCEEDED" 429 "errors.rateLimit.exceeded"
     "Too many requests; retry after the window resets.";
   entry "VALIDATION_ERROR" 422 "errors.validation.failed"
     "Request body failed schema validation.";
   entry "NOT_FOUND" 404 "errors.generic.notFound"
     "Requested resource was not found.";
   entry "INTERNAL_ERROR" 500 "errors.generic.internalError"
     "Unexpected server error."].

(** The key of each entry is its code.
    Models [getCatalogEntry] (backend/src/common/errors/error-catalog.ts:281-283). *)
Definition getCatalogEntry (c : string) : option CatalogEntry := List.find (λ e, bool_decide (code e = c)) ERROR_CATALOG.

(** ** What a handler throws *)

Section filter.
(** The details of an answer, and the names Node gives to statuses. *)
Context {D : Type} (STATUS_CODES : Z → option string).

(** [message] of a body: a text, or the texts of a failed validation. *)
Inductive message := MText (s : string) | MList (l : list string).
(** The body an HttpException was made with; an [error] that is no text is [None]. *)
Inductive body := BText (s : string) | BObject (error : option string) (msg : option message) (details : option D).

(** [App] is an AppException, [Http] another HttpException, [Err] another Error. *)
Inductive exception := App (c : CatalogEntry) (text : option string) (details : option D) | Http (status : Z) (b : body) | Err (text : string) | Other.

(** Models [AppException] (backend/src/common/errors/app.exception.ts:14-31). *)
Definition app_body (c : CatalogEntry) (text : option string) (details : option D) : body :=
  BObject (Some (code c)) (Some (MText (default (description c) text))) details.

(** Models [STELLAR_ERROR_MAP] (backend/src/common/filters/http-exception.filter.ts:17-26). *)
Definition STELLAR_ERROR_MAP : list (string * string) :=
  [("tx_failed", "TRANSACTION_FAILED"); ("tx_bad_auth", "SIGNATURE_INVALID"); ("tx_insufficient_fee", "INSUFFICIENT_FEE");
   ("tx_no_account", "INVALID_WALLET_ADDRESS"); ("op_no_trust", "TRANSACTION_FAILED"); ("op_underfunded", "INSUFFICIENT_BALANCE");
   ("ledgerClosed", "LEDGER_CLOSED"); ("timeout", "TIMEOUT_ERROR")].

(** Models [STATUS_FALLBACK_CODE] (backend/src/common/filters/http-exception.filter.ts:29-36). *)
Definition STATUS_FALLBACK_CODE (status : Z) : option string :=
  if status =? 400 then Some "VALIDATION_ERROR" else if status =? 401 then Some "UNAUTHORIZED" else if status =? 403 then Some "FORBIDDEN"
  else if status =? 404 then Some "NOT_FOUND" else if status =? 429 then Some "RATE_LIMIT_EXCEEDED" else if status =? 500 then Some "INTERNAL_ERROR" else None.

(** Models [problemType] (backend/src/common/filters/http-exception.filter.ts:38-42). *)
Definition problemType (errorCode : option string) (status : Z) : string :=
  let known := match truthy errorCode with Some c => if bool_decide (is_Some (getCatalogEntry c)) then Some c else None | None => None end in
  match (match known with Some c => Some c | None => STATUS_FALLBACK_CODE status end) with
  | Some c => "/api/v1/errors#" +:+ c
  | None => "about:blank"
  end.

(** Models [normalizeStellarError] (backend/src/common/filters/http-exception.filter.ts:44-50). *)
Definition normalizeStellarError (raw : string) : option string :=
  snd <$> List.find (λ e, includes (toLowerCase raw) (toLowerCase e.1)) STELLAR_ERROR_MAP.

(** The answer: the problem document, and the envelope kept for older clients. *)
Record answer := {
  a_status : Z; a_type : string; a_title : string; a_detail : string; a_instance : string;
  a_code : string; a_i18nKey : option string; a_requestId : option string; a_details : option D;
  a_timestamp : string; a_error : string * string * option string }.

Definition status_of (e : exception) : Z := match e with App c _ _ => httpStatus c | Http st _ => st | _ => 500 end.
Definition body_of (e : exception) : body :=
  match e with App c t d => app_body c t d | Http _ b => b | _ => BText "Internal server error" end.

(** The code and the message key of an exception. *)
Definition code_of (e : exception) : option string * option string :=
  match e with
  | App c _ _ => (Some (code c), i18nKey <$> getCatalogEntry (code c))
  | Http _ (BObject (Some c) _ _) =>
      match getCatalogEntry c with Some ent => (Some (code ent), Some (i18nKey ent)) | None => (Some c, None) end
  | Http _ _ | Other => (None, None)
  | Err t => match normalizeStellarError t with
             | Some c => (Some c, i18nKey <$> getCatalogEntry c)
             | None => (None, None)
             end
  end.

(** [String(message)] *)
Definition detail_of (b : body) : string :=
  match b with
  | BText s => s
  | BObject _ (Some (MText s)) _ => s
  | BObject _ (Some (MList l)) _ => join "," l
  | BObject _ None _ => "[object Object]"
  end.

(** Models [catch] (backend/src/common/filters/http-exception.filter.ts:56-159). *)
Definition catch_ (e : exception) (url now : string) (requestId : option string) : answer :=
  let status := status_of e in
  let '(errorCode, key) := code_of e in
  let b := body_of e in
  let shown := default "INTERNAL_SERVER_ERROR" (truthy errorCode) in
  {| a_status := status; a_type := problemType errorCode status; a_title := default "Error" (STATUS_CODES status); a_detail := detail_of b;
     a_instance := url; a_code := shown; a_i18nKey := truthy key; a_requestId := truthy requestId;
     a_details := match b with BObject _ _ d => d | BText _ => None end; a_timestamp := now;
     a_error := (shown, detail_of b, truthy key) |}.

(** ** Properties *)

Lemma catalog_facts :
  Forall (λ e, 400 ≤ httpStatus e < 600 ∧ code e ≠ "" ∧ i18nKey e ≠ "" ∧ getCatalogEntry (code e) = Some e) ERROR_CATALOG.
Proof.
  apply Forall_forall. intros e He. assert (forallb (λ e, (400 <=? httpStatus e) && (httpStatus e <? 600) && negb (bool_decide (code e = "")) &&
    negb (bool_decide (i18nKey e = "")) && bool_decide (getCatalogEntry (code e) = Some e)) ERROR_CATALOG = true) as H by (vm_compute; done).
  rewrite List.forallb_forall in H. specialize (H e ltac:(by apply list_elem_of_In)). cbv beta in H. bool_prop.
  split_and!; [lia|lia|done|done|done].
Qed.

(** The catalog is well formed: no code and no message key occurs twice, every status
    is one of an error, and each code the filter falls back on or maps a blockchain
    error to is a code of the catalog. *)
Theorem catalog_well_formed :
  NoDup (code <$> ERROR_CATALOG) ∧ NoDup (i18nKey <$> ERROR_CATALOG) ∧
  Forall (λ e, 400 ≤ httpStatus e < 600 ∧ code e ≠ "" ∧ i18nKey e ≠ "" ∧ getCatalogEntry (code e) = Some e) ERROR_CATALOG ∧
  Forall (λ p, is_Some (getCatalogEntry p.2)) STELLAR_ERROR_MAP ∧
  (∀ st c, STATUS_FALLBACK_CODE st = Some c → is_Some (getCatalogEntry c)).
Proof.
  split_and!; [apply (bool_decide_unpack _); vm_compute; done..| | |].
  - apply catalog_facts.
  - repeat constructor; vm_compute; eauto.
  - intros st c. unfold STATUS_FALLBACK_CODE. repeat case_match; intros [=]; subst; vm_compute; eauto.
Qed.

(** An exception of the catalog is answered with its entry: its status, its code at
    every place of the answer, its message key, and its page of the catalog. *)
Theorem app_exception_answer c text details url now requestId :
  c ∈ ERROR_CATALOG →
  let a := catch_ (App c text details) url now requestId in
  a_status a = httpStatus c ∧ a_code a = code c ∧ a_i18nKey a = Some (i18nKey c) ∧ a_type a = "/api/v1/errors#" +:+ code c ∧
  a_detail a = default (description c) text ∧ a_details a = details ∧ a_error a = (code c, default (description c) text, Some (i18nKey c)).
Proof.
  intros Hc a. pose proof catalog_facts as Hf. rewrite Forall_forall in Hf. destruct (Hf c Hc) as (_ & Hne & Hk & Hg).
  unfold a, catch_, code_of. rewrite Hg. cbn [fmap option_fmap option_map a_status a_code a_i18nKey a_type a_detail a_details a_error body_of app_body detail_of status_of].
  assert (truthy (Some (code c)) = Some (code c)) as -> by by destruct (code c).
  assert (truthy (Some (i18nKey c)) = Some (i18nKey c)) as -> by by destruct (i18nKey c).
  split_and!; try done. unfold problemType. assert (truthy (Some (code c)) = Some (code c)) as -> by by destruct (code c). rewrite Hg. done.
Qed.

(** What went wrong inside is not told.  Two errors that are no HTTP exceptions and are
    mapped to the same code get the same answer, whose status is 500 and whose text is
    fixed: of an internal message a client learns at most which of the eight known
    blockchain errors it names. *)
Theorem internal_message_hidden t1 t2 url now requestId :
  normalizeStellarError t1 = normalizeStellarError t2 →
  catch_ (Err t1) url now requestId = catch_ (Err t2) url now requestId ∧
  a_status (catch_ (Err t1) url now requestId) = 500 ∧ a_detail (catch_ (Err t1) url now requestId) = "Internal server error" ∧
  (normalizeStellarError t1 = None → catch_ (Err t1) url now requestId = catch_ Other url now requestId).
Proof. intros H. unfold catch_, code_of. rewrite H. split_and!; [done|by destruct (normalizeStellarError t2)..|]. by intros ->. Qed.

(** The fallback code of an answer is not in the catalog, and neither is the name that
    the framework writes into the body of its own exceptions. *)
Theorem uncatalogued_codes url now requestId st msg details :
  a_code (catch_ Other url now requestId) = "INTERNAL_SERVER_ERROR" ∧ getCatalogEntry "INTERNAL_SERVER_ERROR" = None ∧
  a_code (catch_ (Http st (BObject (Some "Bad Request") msg details)) url now requestId) = "Bad Request" ∧ getCatalogEntry "Bad Request" = None.
Proof. split_and!; reflexivity. Qed.

(** A mapped blockchain error keeps the status 500, whatever status the catalog gives
    to its code. *)
Theorem stellar_status_ignored t c url now requestId :
  normalizeStellarError t = Some c → a_status (catch_ (Err t) url now requestId) = 500 ∧ a_code (catch_ (Err t) url now requestId) = c ∧
  (httpStatus <$> getCatalogEntry c) ≠ Some 500.
Proof.
  intros H. unfold catch_, code_of. rewrite H. cbn [a_status a_code status_of]. assert (c ∈ STELLAR_ERROR_MAP.*2) as Hc.
  { unfold normalizeStellarError in H. destruct (List.find _ STELLAR_ERROR_MAP) as [p|] eqn:E; [|done]. injection H as <-. apply List.find_some in E as [E _].
    apply list_elem_of_fmap. exists p. split; [done|by apply list_elem_of_In]. }
  split; [done|]. clear H. repeat (apply elem_of_cons in Hc as [->|Hc]; [split; [done|vm_compute; done]|]). by apply elem_of_nil in Hc.
Qed.
End filter.

(** ** Witnesses *)

Module ErrorFilterWitnesses.
Definition names (st : Z) : option string := if st =? 429 then Some "Too Many Requests" else None.
Definition limited : CatalogEntry := entry "RATE_LIMIT_EXCEEDED" 429 "errors.rateLimit.exceeded" "Too many requests; retry after the window resets.".

Lemma app_exception_answer_witness :
  let a := catch_ names (App limited None (Some 30)) "/api/claims" "t" None in a_status a = 429 ∧ a_code a = "RATE_LIMIT_EXCEEDED".
Proof.
  destruct (app_exception_answer names limited None (Some 30) "/api/claims" "t" None) as (H1 & H2 & _);
    [apply (bool_decide_unpack _); vm_compute; done|]. by split.
Defined.

Lemma internal_message_hidden_witness :
  catch_ (D:=Z) names (Err "password authentication failed for user niffy") "/x" "t" None = catch_ names (Err "out of memory") "/x" "t" None.
Proof. apply internal_message_hidden. vm_compute. reflexivity. Defined.

Lemma stellar_status_ignored_witness : a_status (catch_ (D:=Z) names (Err "RPC timeout after 5s") "/x" "t" None) = 500.
Proof. apply (stellar_status_ignored names _ "TIMEOUT_ERROR"). vm_compute. reflexivity. Defined.
End ErrorFilterWitnesses.
