(* ===== verification/SessionExpiry.v ===== *)
(** * The expiry of an access token in the web front end

    The part of frontend/src/features/auth that reads a token: [msUntilExpiry]
    (session/sessionStore.ts) decodes the payload of a JWT with [atob] and [JSON.parse],
    and the hook (hooks/useSession.ts) refreshes the token half a minute before it
    expires. *)

From stdpp Require Import base list strings.
From Stdlib Require Import ZArith Lia Ascii.
From S2P Require Import Prelude JsText JsNumber Codec.

Open Scope string_scope.
Open Scope Z_scope.

(** ** The expiry of a token *)

Definition is_b64_ws (c : ascii) : bool :=
  bool_decide (c = " "%char) || (code c =? 9) || (code c =? 10) || (code c =? 12) || (code c =? 13).
Definition is_b64 (c : ascii) : bool :=
  is_upper c || is_lower c || is_digit c || bool_decide (c = "+"%char) || bool_decide (c = "/"%char).

(** Up to two padding characters, at the end of a text whose length is a multiple of 4. *)
Definition strip_padding (s : string) : string :=
  if (str_len s mod 4 =? 0) then
    if endsWith s "==" then str_take (String.length s - 2) s
    else if endsWith s "=" then str_take (String.length s - 1) s else s
  else s.

(** [atob]; [None] is its exception. *)
Definition atob (s : string) : option string :=
  let s := strip_padding (str_filter (λ c, negb (is_b64_ws c)) s) in
  if (str_len s mod 4 =? 1) || negb (str_forall is_b64 s) then None else Some (bytes64 (vals64 s)).

(** [base64url] to [base64]. *)
Definition std_char (c : ascii) : ascii :=
  if bool_decide (c = "-"%char) then "+"%char else if bool_decide (c = "_"%char) then "/"%char else c.

(** The number a claim is in an arithmetic expression; [None] is not finite. *)
Definition claim_number (v : json) : option double :=
  match v with
  | JNum x => x
  | JStr s => Number s
  | JBool b => Some {| d_mant := if b then 1 else 0; d_exp := 0 |}
  | _ => None
  end.

(** Milliseconds until a token expires, truncated; [None] is not finite.
    Models [msUntilExpiry] (frontend/src/features/auth/session/sessionStore.ts:61-72). *)
Definition msUntilExpiry (now : Z) (token : string) : num :=
  match split "."%char token with
  | [_; part; _] =>
      match atob (str_map std_char part) with
      | None => Some 0
      | Some text =>
          match JSON_parse text with
          | None => Some 0
          | Some payload =>
              match member payload "exp" with
              | None => Some 0
              | Some exp =>
                  if negb (to_Boolean exp) then Some 0
                  else match claim_number exp with
                       | None => None
                       | Some x => if d_mant x <? 0 then Some 0 else match d_times x 1000 with
                                   | None => None
                                   | Some ms => Some (Z.max 0 (d_floor ms - now))
                                   end
                       end
              end
          end
      end
  | _ => Some 0
  end.

Definition REFRESH_LEAD_MS : Z := 30000.

(** [setTimeout] runs at once what is not a delay of 31 bits. *)
Definition timeout_ms (delay : num) : Z :=
  match delay with Some d => if d <=? 2 ^ 31 - 1 then d else 1 | None => 0 end.

(** The delay of the refresh of a token.
    Models [delay] (frontend/src/features/auth/hooks/useSession.ts:124-124). *)
Definition refresh_delay (now : Z) (token : string) : Z :=
  timeout_ms (match msUntilExpiry now token with Some ms => Some (Z.max 0 (ms - REFRESH_LEAD_MS)) | None => None end).

(** ** Reading back what was signed *)

(** [m] times a power of two, over that power, is [m]. *)
Lemma log2_ratio_scaled m j : 0 < m → 0 ≤ j → log2_ratio (m * 2 ^ j) (2 ^ j) = Z.log2 m.
Proof.
  intros Hm Hj. unfold log2_ratio. rewrite Z.log2_mul_pow2, Z.log2_pow2 by lia.
  replace (j + Z.log2 m - j) with (Z.log2 m) by lia. pose proof (Z.log2_nonneg m). pose proof (Z.log2_spec m Hm).
  assert (0 < 2 ^ j) by (apply Z.pow_pos_nonneg; lia).
  destruct (Z.leb_spec 0 (Z.log2 m)); [|lia]. destruct (Z.leb_spec (2 ^ j * 2 ^ Z.log2 m) (m * 2 ^ j)); [done|nia].
Qed.

Lemma round_half_even_exact n d : 0 < d → round_half_even (n * d) d = n.
Proof.
  intros Hd. unfold round_half_even. rewrite Z.mod_mul, Z.div_mul by lia.
  destruct (Z.ltb_spec (2 * 0) d); [done|lia].
Qed.

Lemma round_double_scaled m j : 0 < m < 2 ^ 53 → 0 ≤ j → ∃ y, round_double (m * 2 ^ j) (2 ^ j) = Some y ∧ d_floor y = m.
Proof.
  intros Hm Hj. assert (0 < 2 ^ j) by (apply Z.pow_pos_nonneg; lia). unfold round_double.
  destruct (Z.eqb_spec (m * 2 ^ j) 0); [nia|]. rewrite log2_ratio_scaled by lia.
  pose proof (Z.log2_nonneg m). assert (Z.log2 m < 53) by (apply Z.log2_lt_pow2; lia).
  replace (Z.max (-1074) (Z.log2 m - 52)) with (Z.log2 m - 52) by lia. set (e := Z.log2 m - 52).
  assert (e ≤ 0) by lia. destruct (Z.ltb_spec 971 e); [lia|]. destruct (Z.eqb_spec e 971); [lia|].
  cbn [orb andb]. eexists. split; [done|]. unfold d_floor; cbn [d_mant d_exp]. destruct (Z.leb_spec 0 e).
  - replace e with 0 by lia. rewrite Z.pow_0_r, !Z.mul_1_r. by apply round_half_even_exact.
  - replace (m * 2 ^ j * 2 ^ (- e)) with (m * 2 ^ (- e) * 2 ^ j) by lia. rewrite round_half_even_exact by done.
    rewrite Z.div_mul; [done|]. assert (0 < 2 ^ (- e)) by (apply Z.pow_pos_nonneg; lia). lia.
Qed.

(** A whole number of seconds, in milliseconds. *)
Lemma seconds_to_ms n : 0 < n → n * 1000 < 2 ^ 53 →
  ∃ x y, round_double n 1 = Some x ∧ 0 < d_mant x ∧ d_times x 1000 = Some y ∧ d_floor y = n * 1000.
Proof.
  intros Hn Hb. destruct (round_double_int n ltac:(lia)) as (x & Hx & Hf & Hi). exists x.
  unfold d_floor, d_isInteger in Hf, Hi. unfold d_times. destruct (Z.leb_spec 0 (d_exp x)) as [He|He].
  - assert (0 < 2 ^ d_exp x) by (apply Z.pow_pos_nonneg; lia).
    destruct (round_double_int (n * 1000) ltac:(lia)) as (y & Hy & Hfy & _). exists y. split_and!; [done|nia| |done].
    replace (d_mant x * 1000 * 2 ^ d_exp x) with (n * 1000) by lia. done.
  - assert (0 < 2 ^ (- d_exp x)) by (apply Z.pow_pos_nonneg; lia). apply Z.eqb_eq in Hi.
    assert (d_mant x = n * 2 ^ (- d_exp x)) as E by (pose proof (Z.div_mod (d_mant x) (2 ^ (- d_exp x)) ltac:(lia)); lia).
    destruct (round_double_scaled (n * 1000) (- d_exp x) ltac:(lia) ltac:(lia)) as (y & Hy & Hfy). exists y.
    split_and!; [done|nia| |done]. rewrite E. rewrite <-Hy. f_equal. lia.
Qed.

Lemma str_filter_all p s : str_forall p s = true → str_filter p s = s.
Proof. induction s as [|c s IH]; cbn; [done|]. intros [-> Hs]%andb_true_iff. by rewrite IH. Qed.

Lemma str_forall_map p f s : str_forall p (str_map f s) = str_forall (λ c, p (f c)) s.
Proof. induction s as [|c s IH]; cbn; [done|]. by rewrite IH. Qed.

Lemma length_str_map f s : String.length (str_map f s) = String.length s.
Proof. induction s; cbn; congruence. Qed.

Lemma vals64_std s : vals64 (str_map std_char s) = vals64 s.
Proof.
  induction s as [|c s IH]; cbn; [done|]. rewrite IH. unfold std_char.
  case_bool_decide; [by subst|]. case_bool_decide; by subst.
Qed.

(** A character of the base64url alphabet, translated. *)
Lemma std_char_b64 c : is_url64 c = true → is_b64 (std_char c) = true ∧ is_b64_ws (std_char c) = false ∧ std_char c ≠ "="%char.
Proof. by destruct c as [[] [] [] [] [] [] [] []]. Qed.

Lemma toBase64Url_length s : str_len (toBase64Url s) mod 4 ≠ 1.
Proof.
  unfold str_len. induction s as [|a|a b|a b c s IH] using string_ind3; [done..|]. cbn [toBase64Url String.length].
  rewrite !Nat2Z.inj_succ. set (n := Z.of_nat _) in *. Z.to_euclidean_division_equations; lia.
Qed.

Lemma endsWith_eq s p : str_forall (λ c, negb (bool_decide (c = "="%char))) s = true → endsWith s (p +:+ "=") = false.
Proof.
  intros Hs. destruct (endsWith s (p +:+ "=")) eqn:E; [|done]. apply endsWith_iff in E as (a & ->).
  rewrite !str_forall_app in Hs. apply andb_true_iff in Hs as [_ Hs]. apply andb_true_iff in Hs as [_ Hs]. done.
Qed.

(** [atob] reads back what was encoded in base64url. *)
Lemma atob_roundtrip s : atob (str_map std_char (toBase64Url s)) = Some s.
Proof.
  pose proof (toBase64Url_chars s) as Hc. set (u := toBase64Url s) in *.
  assert (∀ p : ascii → bool, (∀ c, is_url64 c = true → p (std_char c) = true) → str_forall p (str_map std_char u) = true) as Hall.
  { intros p Hp. rewrite str_forall_map. by apply (str_forall_impl is_url64). }
  unfold atob. rewrite str_filter_all by (apply Hall; intros c Hu; by rewrite (proj1 (proj2 (std_char_b64 c Hu)))).
  assert (strip_padding (str_map std_char u) = str_map std_char u) as ->.
  { assert (str_forall (λ c, negb (bool_decide (c = "="%char))) (str_map std_char u) = true) as He
      by (apply Hall; intros c Hu; apply negb_true_iff, bool_decide_eq_false, (std_char_b64 c Hu)).
    unfold strip_padding. change "==" with ("=" +:+ "="). rewrite (endsWith_eq _ "=" He).
    change (endsWith (str_map std_char u) "=") with (endsWith (str_map std_char u) ("" +:+ "=")). rewrite (endsWith_eq _ "" He). by case_match. }
  unfold str_len. rewrite length_str_map. fold (str_len u). destruct (Z.eqb_spec (str_len u mod 4) 1) as [E|_].
  { by apply toBase64Url_length in E. }
  rewrite Hall by (intros c Hu; apply (std_char_b64 c Hu)). cbn. f_equal. rewrite vals64_std. apply base64url_roundtrip.
Qed.

(** A JWT: a header, an encoded payload and a signature. *)
Definition jwt (h payload g : string) : string := h +:+ "." +:+ toBase64Url payload +:+ "." +:+ g.

Lemma url64_dotless s : avoids "."%char (toBase64Url s) = true.
Proof.
  apply (str_forall_impl is_url64); [|apply toBase64Url_chars]. intros c Hc. apply negb_true_iff, bool_decide_eq_false. by intros ->.
Qed.

Lemma split_jwt h payload g : avoids "."%char h = true → avoids "."%char g = true →
  split "."%char (jwt h payload g) = [h; toBase64Url payload; g].
Proof.
  intros Hh Hg. unfold jwt. change ("." +:+ ?x) with (String "." x). rewrite split_app by done.
  change ("." +:+ g) with (String "." g). rewrite split_app by apply url64_dotless. by rewrite split_single.
Qed.

(** The expiry of a token is read back.  Of a JWT whose payload is an object with the expiry [n] (in
    seconds) the page finds the milliseconds until [n], none when that is past; and it refreshes the token
    thirty seconds before that, at once when less is left. *)
Theorem expiry_read_back now h payload g v n :
  avoids "."%char h = true → avoids "."%char g = true →
  JSON_parse payload = Some v → member v "exp" = Some (JNum (unsigned_decimal (show_Z n))) →
  0 < n → n * 1000 < 2 ^ 53 → n * 1000 - now < 2 ^ 31 →
  msUntilExpiry now (jwt h payload g) = Some (Z.max 0 (n * 1000 - now)) ∧
  now + refresh_delay now (jwt h payload g) = Z.max now (n * 1000 - REFRESH_LEAD_MS).
Proof.
  intros Hh Hg Hp Hm Hn Hb Hd. destruct (seconds_to_ms n Hn Hb) as (x & y & Hx & Hpos & Hy & Hf).
  rewrite unsigned_decimal_digits, show_Z_val, Hx in Hm by (apply show_Z_digits || apply show_Z_ne_empty || lia; lia).
  assert (msUntilExpiry now (jwt h payload g) = Some (Z.max 0 (n * 1000 - now))) as E.
  { unfold msUntilExpiry. rewrite split_jwt, atob_roundtrip, Hp, Hm by done. cbn [to_Boolean claim_number].
    destruct (Z.eqb_spec (d_mant x) 0); [lia|]. cbn [negb]. destruct (Z.ltb_spec (d_mant x) 0); [lia|]. by rewrite Hy, Hf. }
  split; [done|]. unfold refresh_delay, timeout_ms, REFRESH_LEAD_MS. rewrite E.
  destruct (Z.leb_spec (Z.max 0 (Z.max 0 (n * 1000 - now) - 30000)) (2 ^ 31 - 1)); lia.
Qed.

(** ** Witness *)

(** The JSON text of an object with a number. *)
Definition exp_text (n : Z) : string := "{" +:+ quoted "exp" +:+ ":" +:+ show_Z n +:+ "}".

Lemma expiry_read_back_witness :
  msUntilExpiry 1000 (jwt "h" (exp_text 901) "g") = Some 900000 ∧ 1000 + refresh_delay 1000 (jwt "h" (exp_text 901) "g") = 871000.
Proof.
  apply (expiry_read_back 1000 "h" (exp_text 901) "g" (JObj [("exp", JNum (unsigned_decimal (show_Z 901)))]) 901);
    [reflexivity|reflexivity|vm_compute; reflexivity|vm_compute; reflexivity|lia|lia|lia].
Defined.
