(* ===== verification/Session.v ===== *)
(** * The wallet session of the web front end

    frontend/src/features/auth: the session kept in memory
    (session/sessionStore.ts), the calls to the backend (session/authApi.ts), the
    wallet's signature (session/walletSigner.ts) and the hook that signs in, refreshes
    and signs out (hooks/useSession.ts).  Every component that mounts the hook has its
    own state, timer and effects; all share the store.  The browser is a machine of
    events: the synchronous code of an event runs to its end, then the effects of the
    mounted hooks run.  What the code awaits is a task of [tasks].  The backend is the
    interface [AuthServer]. *)

From stdpp Require Import base gmap list strings.
From Stdlib Require Import ZArith Lia Ascii.
From S2P Require Import Prelude JsText JsNumber Codec SessionExpiry.

Open Scope string_scope.
Open Scope Z_scope.

(** ** The store *)

(** Models [SessionSnapshot] (frontend/src/features/auth/session/sessionStore.ts:11-18). *)
Record SessionSnapshot := Snapshot { accessToken : option string; refreshToken : option string; address : option string }.

(** Models [EMPTY] (frontend/src/features/auth/session/sessionStore.ts:20-24). *)
Definition EMPTY : SessionSnapshot := Snapshot None None None.

(** All three fields are given.
    Models [setSession] (frontend/src/features/auth/session/sessionStore.ts:44-47). *)
Definition setSession (next _snapshot : SessionSnapshot) : SessionSnapshot := next.
(** Models [setAccessToken] (frontend/src/features/auth/session/sessionStore.ts:49-52). *)
Definition setAccessToken (t : option string) (s : SessionSnapshot) : SessionSnapshot :=
  Snapshot t (refreshToken s) (address s).

(** ** The calls *)

(** An exception: an Error with its message, or another value as a text. *)
Inductive thrown := ThrownError (message : string) | ThrownValue (text : string).

(** Models [isUserRejection] (frontend/src/features/auth/session/walletSigner.ts:18-28). *)
Definition isUserRejection (err : thrown) : bool :=
  let message := match err with ThrownError m | ThrownValue m => m end in
  let lower := toLowerCase message in
  includes lower "reject" || includes lower "cancel" || includes lower "declin" || includes lower "denied" ||
  includes lower "closed".

(** What the wallet answers, [None] for something that is not a text.
    Models [signWithWallet] (frontend/src/features/auth/session/walletSigner.ts:8-15). *)
Definition signWithWallet (answer : result thrown (option string)) : result thrown string :=
  match answer with
  | Throw e => Throw e
  | Ok signedMessage =>
      match truthy signedMessage with
      | Some s => Ok s
      | None => Throw (ThrownError "The wallet returned an empty signature")
      end
  end.

Inductive request :=
  | ReqNonce (address : string)
  | ReqVerify (address nonce signature : string)
  | ReqRefresh (refreshToken : option string)
  | ReqLogout (refreshToken : string).

(** The members of a JSON answer that are read are texts; [Throw] is a body that does
    not parse. *)
Record response := Response { status : Z; body : result string (list (string * string)) }.
Definition res_ok (res : response) : bool := (200 <=? status res) && (status res <=? 299).

(** Models [toJson] (frontend/src/features/auth/session/authApi.ts:13-18). *)
Definition toJson (res : response) : result thrown (list (string * string)) :=
  if negb (res_ok res) then Throw (ThrownError ("Request failed with status " +:+ show_Z (status res)))
  else match body res with Ok data => Ok data | Throw m => Throw (ThrownError m) end.

(** [fetch] and [toJson]. *)
Definition fetched (r : result string response) : result thrown (list (string * string)) :=
  match r with Ok res => toJson res | Throw m => Throw (ThrownError m) end.

Definition either (a b : option string) : option string := match a with Some x => Some x | None => b end.

(** The nonce and the message to sign.
    Models [requestChallenge] (frontend/src/features/auth/session/authApi.ts:27-38). *)
Definition requestChallenge (r : result string response) : result thrown (string * string) :=
  match fetched r with
  | Throw e => Throw e
  | Ok data =>
      Ok (default "" (alist_get "nonce" data), default "" (either (alist_get "message" data) (alist_get "nonce" data)))
  end.

(** The token and the refresh token.
    Models [verifyChallenge] (frontend/src/features/auth/session/authApi.ts:47-64). *)
Definition verifyChallenge (r : result string response) : result thrown (string * option string) :=
  match fetched r with
  | Throw e => Throw e
  | Ok data =>
      Ok (default "" (either (alist_get "token" data) (alist_get "accessToken" data)), truthy (alist_get "refreshToken" data))
  end.

(** Models [refreshAccessToken] (frontend/src/features/auth/session/authApi.ts:72-90). *)
Definition refreshAccessToken (r : result string response) : option string :=
  match r with
  | Throw _ => None
  | Ok res =>
      if negb (res_ok res) then None
      else match body res with
           | Throw _ => None
           | Ok data => either (alist_get "token" data) (alist_get "accessToken" data)
           end
  end.

(** ** The hook and the browser *)

(** The state of one mounted component; [timer] is the instant it is due, [seenAccount]
    and [seenSession] the dependencies with which its two effects last ran.
    Models [useSession] (frontend/src/features/auth/hooks/useSession.ts:55-57). *)
Record Hook := MkHook {
  mounted : bool; signingIn : bool; error : option string; refreshInFlight : bool; timer : option Z;
  seenAccount : option (option string * option string); seenSession : option (option string * option string) }.

(** What is awaited, and what runs then: [TLogout (Some i)] is a sign-out awaited by the
    refresh of hook [i]. *)
Inductive cont :=
  | TNonce (i : nat) (walletAddress : string)
  | TSign (i : nat) (walletAddress nonce : string)
  | TVerify (i : nat) (walletAddress : string)
  | TRefresh (i : nat)
  | TLogout (i : option nat).
Inductive flight := Sent (q : request) | Back (r : result string response) | AtWallet (message : string).

(** [cleared] counts the flushes of the query cache. *)
Record App := MkApp {
  store : SessionSnapshot; wallet : option string; hooks : list Hook;
  tasks : gmap nat (cont * flight); next : nat; cleared : nat }.

Definition with_store (f : SessionSnapshot → SessionSnapshot) (s : App) : App :=
  MkApp (f (store s)) (wallet s) (hooks s) (tasks s) (next s) (cleared s).
Definition with_wallet (a : option string) (s : App) : App :=
  MkApp (store s) a (hooks s) (tasks s) (next s) (cleared s).
Definition with_hook (f : Hook → Hook) (i : nat) (s : App) : App :=
  MkApp (store s) (wallet s) (alter f i (hooks s)) (tasks s) (next s) (cleared s).
Definition spawn (c : cont) (fl : flight) (s : App) : App :=
  MkApp (store s) (wallet s) (hooks s) (<[next s := (c, fl)]> (tasks s)) (S (next s)) (cleared s).
Definition with_task (n : nat) (t : option (cont * flight)) (s : App) : App :=
  MkApp (store s) (wallet s) (hooks s) (partial_alter (λ _, t) n (tasks s)) (next s) (cleared s).
Definition flush (s : App) : App :=
  MkApp (store s) (wallet s) (hooks s) (tasks s) (next s) (S (cleared s)).

Definition set_error (e : option string) (h : Hook) : Hook :=
  MkHook (mounted h) (signingIn h) e (refreshInFlight h) (timer h) (seenAccount h) (seenSession h).
Definition set_signing (b : bool) (h : Hook) : Hook :=
  MkHook (mounted h) b (error h) (refreshInFlight h) (timer h) (seenAccount h) (seenSession h).
Definition set_inflight (b : bool) (h : Hook) : Hook :=
  MkHook (mounted h) (signingIn h) (error h) b (timer h) (seenAccount h) (seenSession h).
Definition set_timer (t : option Z) (h : Hook) : Hook :=
  MkHook (mounted h) (signingIn h) (error h) (refreshInFlight h) t (seenAccount h) (seenSession h).
Definition see_account (d : option string * option string) (h : Hook) : Hook :=
  MkHook (mounted h) (signingIn h) (error h) (refreshInFlight h) (timer h) (Some d) (seenSession h).
Definition see_session (d : option string * option string) (t : option Z) (h : Hook) : Hook :=
  MkHook (mounted h) (signingIn h) (error h) (refreshInFlight h) t (seenAccount h) (Some d).
Definition unmount (h : Hook) : Hook :=
  MkHook false (signingIn h) (error h) (refreshInFlight h) None (seenAccount h) (seenSession h).

Inductive SessionStatus := authenticated | unauthenticated | loading.

(** Models [status] (frontend/src/features/auth/hooks/useSession.ts:59-63). *)
Definition session_status (h : Hook) (session : SessionSnapshot) : SessionStatus :=
  if signingIn h then loading
  else match truthy (accessToken session), truthy (address session) with
       | Some _, Some _ => authenticated
       | _, _ => unauthenticated
       end.

(** The request of a logout.
    Models [revokeSession] (frontend/src/features/auth/session/authApi.ts:93-104). *)
Definition revokeSession (token : option string) : request := ReqLogout (default "" token).

(** [signOut] by hook [i], up to the request it awaits.
    Models [signOut] (frontend/src/features/auth/hooks/useSession.ts:65-71). *)
Definition signOut (i : nat) (then_refresh : option nat) (s : App) : App :=
  let token := refreshToken (store s) in
  spawn (TLogout then_refresh) (Sent (revokeSession token))
    (flush (with_hook (set_error None) i (with_store (λ _, EMPTY) s))).

(** [signIn] by hook [i], up to the request it awaits.
    Models [signIn] (frontend/src/features/auth/hooks/useSession.ts:73-81). *)
Definition signIn (i : nat) (s : App) : App :=
  match truthy (wallet s) with
  | None => with_hook (set_error (Some "Connect a wallet before signing in.")) i s
  | Some a => spawn (TNonce i a) (Sent (ReqNonce a)) (with_hook (λ h, set_error None (set_signing true h)) i s)
  end.

(** The catch and finally clauses of [signIn].
    Models [signIn] (frontend/src/features/auth/hooks/useSession.ts:95-107). *)
Definition signIn_failed (i : nat) (err : thrown) (s : App) : App :=
  let message :=
    if isUserRejection err then "You rejected the signature request."
    else match err with ThrownError m => m | ThrownValue _ => "Sign-in failed. Please try again." end in
  with_hook (λ h, set_signing false (set_error (Some message) h)) i (with_store (λ _, EMPTY) s).

(** [signIn] once the challenge has come.
    Models [signIn] (frontend/src/features/auth/hooks/useSession.ts:81-82). *)
Definition signIn_challenged (i : nat) (a : string) (r : result string response) (s : App) : App :=
  match requestChallenge r with
  | Throw e => signIn_failed i e s
  | Ok (nonce, message) => spawn (TSign i a nonce) (AtWallet message) s
  end.

(** [signIn] once the wallet has answered.
    Models [signIn] (frontend/src/features/auth/hooks/useSession.ts:82-87). *)
Definition signIn_signed (i : nat) (a nonce : string) (answer : result thrown (option string)) (s : App) : App :=
  match signWithWallet answer with
  | Throw e => signIn_failed i e s
  | Ok signature => spawn (TVerify i a) (Sent (ReqVerify a nonce signature)) s
  end.

(** [signIn] once the backend has answered.
    Models [signIn] (frontend/src/features/auth/hooks/useSession.ts:83-95). *)
Definition signIn_verified (i : nat) (a : string) (r : result string response) (s : App) : App :=
  match verifyChallenge r with
  | Throw e => signIn_failed i e s
  | Ok (token, refresh) =>
      if bool_decide (token = "") then signIn_failed i (ThrownError "Authentication failed") s
      else with_hook (set_signing false) i (with_store (setSession (Snapshot (Some token) refresh (Some a))) s)
  end.

(** The timer of hook [i], up to the request it awaits.
    Models [timer] (frontend/src/features/auth/hooks/useSession.ts:125-131). *)
Definition refresh_start (i : nat) (s : App) : App :=
  match hooks s !! i with
  | None => s
  | Some h =>
      let s := with_hook (set_timer None) i s in
      if refreshInFlight h then s
      else spawn (TRefresh i) (Sent (ReqRefresh (truthy (refreshToken (store s))))) (with_hook (set_inflight true) i s)
  end.

(** The timer of hook [i], once the backend has answered.
    Models [timer] (frontend/src/features/auth/hooks/useSession.ts:131-139). *)
Definition refresh_answered (i : nat) (r : result string response) (s : App) : App :=
  match truthy (refreshAccessToken r), truthy (accessToken (store s)) with
  | Some fresh, Some _ => with_hook (set_inflight false) i (with_store (setAccessToken (Some fresh)) s)
  | _, _ => signOut i (Some i) s
  end.

(** What runs when the task comes back; a revocation that fails is ignored. *)
Definition continue (c : cont) (r : result string response) (s : App) : App :=
  match c with
  | TNonce i a => signIn_challenged i a r s
  | TSign _ _ _ => s
  | TVerify i a => signIn_verified i a r s
  | TRefresh i => refresh_answered i r s
  | TLogout (Some i) => with_hook (set_inflight false) i s
  | TLogout None => s
  end.

(** ** Effects *)

(** The effect on account changes; [session] is the snapshot that was rendered.
    Models [useEffect] (frontend/src/features/auth/hooks/useSession.ts:111-117). *)
Definition account_effect (session : SessionSnapshot) (i : nat) (h : Hook) (s : App) : App :=
  let deps := (wallet s, address session) in
  if bool_decide (seenAccount h = Some deps) then s
  else
    let s := with_hook (see_account deps) i s in
    match truthy (address (store s)) with
    | None => s
    | Some sessionAddress => if bool_decide (wallet s = Some sessionAddress) then s else signOut i None s
    end.

(** The effect that schedules the refresh.
    Models [useEffect] (frontend/src/features/auth/hooks/useSession.ts:120-144). *)
Definition refresh_effect (now : Z) (session : SessionSnapshot) (i : nat) (h : Hook) (s : App) : App :=
  let deps := (accessToken session, address session) in
  if bool_decide (seenSession h = Some deps) then s
  else
    let due := match truthy (accessToken session), truthy (address session) with
               | Some token, Some _ => Some (now + refresh_delay now token)
               | _, _ => None
               end in
    with_hook (see_session deps due) i s.

(** The effects of hook [i] after a render. *)
Definition effects (now : Z) (session : SessionSnapshot) (i : nat) (s : App) : App :=
  match hooks s !! i with
  | Some h => if mounted h then refresh_effect now session i h (account_effect session i h s) else s
  | None => s
  end.

Definition pass (now : Z) (s : App) : App :=
  foldl (λ s' i, effects now (store s) i s') s (seq 0 (length (hooks s))).

(** The effects after an event: they may sign out, and then run again after the render
    that follows. *)
Definition settle (now : Z) (s : App) : App := pass now (pass now s).

Definition new_hook : Hook := MkHook true false None false None None None.
Definition mount (s : App) : App :=
  MkApp (store s) (wallet s) (hooks s ++ [new_hook])%list (tasks s) (next s) (cleared s).

(** ** Events *)

Class AuthServer (Srv : Type) := serve : Z → string → request → Srv → response * Srv.

(** [EvServe n rnd]: the backend handles the request of task [n], drawing [rnd].
    [EvLost] is a request, or its answer, that is lost; [EvRefused] an answer given in
    front of the handlers. *)
Inductive event :=
  | EvMount | EvUnmount (i : nat)
  | EvWallet (a : option string)
  | EvSignIn (i : nat) | EvSignOut (i : nat) | EvTimer (i : nat)
  | EvServe (n : nat) (rnd : string) | EvLost (n : nat) (m : string) | EvRefused (n : nat) (st : Z)
  | EvReturn (n : nat)
  | EvWalletAnswers (n : nat) (answer : result thrown (option string)).

Section machine.
Context {Srv : Type} `{AuthServer Srv}.

Definition is_mounted (i : nat) (s : App) : bool :=
  match hooks s !! i with Some h => mounted h | None => false end.
Definition timer_due (now : Z) (i : nat) (s : App) : bool :=
  match hooks s !! i with Some h => match timer h with Some d => d <=? now | None => false end | None => false end.

Definition returned (n : nat) (s : App) : App :=
  match tasks s !! n with Some (c, Back r) => continue c r (with_task n None s) | _ => s end.
Definition wallet_answers (n : nat) (answer : result thrown (option string)) (s : App) : App :=
  match tasks s !! n with
  | Some (TSign i a nonce, AtWallet _) => signIn_signed i a nonce answer (with_task n None s)
  | _ => s
  end.
Definition lost (n : nat) (m : string) (s : App) : App :=
  match tasks s !! n with Some (c, Sent _) | Some (c, Back _) => with_task n (Some (c, Back (Throw m))) s | _ => s end.
Definition refused (n : nat) (st : Z) (s : App) : App :=
  match tasks s !! n with
  | Some (c, Sent _) => if (200 <=? st) && (st <=? 299) then s else with_task n (Some (c, Back (Ok (Response st (Ok []))))) s
  | _ => s
  end.

(** The part of an event that runs in the page. *)
Definition page (now : Z) (e : event) (s : App) : App :=
  match e with
  | EvMount => mount s
  | EvUnmount i => with_hook unmount i s
  | EvWallet a => with_wallet a s
  | EvSignIn i => if is_mounted i s then signIn i s else s
  | EvSignOut i => if is_mounted i s then signOut i None s else s
  | EvTimer i => if timer_due now i s then refresh_start i s else s
  | EvReturn n => returned n s
  | EvWalletAnswers n answer => wallet_answers n answer s
  | EvLost n m => lost n m s
  | EvRefused n st => refused n st s
  | EvServe _ _ => s
  end.

Definition handle (w : App * Srv) (o : Z * event) : App * Srv :=
  let '(s, σ) := w in
  match o.2 with
  | EvServe n rnd =>
      match tasks s !! n with
      | Some (c, Sent q) => let '(res, σ') := serve o.1 rnd q σ in (with_task n (Some (c, Back (Ok res))) s, σ')
      | _ => (s, σ)
      end
  | e => (settle o.1 (page o.1 e s), σ)
  end.

Definition run (w : App * Srv) (evs : list (Z * event)) : App * Srv := foldl handle w evs.
End machine.

Definition start : App := MkApp EMPTY None [] ∅ 0 0.

(** ** The session follows the wallet *)

(** A session is empty, or has a token and an address. *)
Definition whole (st : SessionSnapshot) : Prop :=
  st = EMPTY ∨ ∃ t a, accessToken st = Some t ∧ t ≠ "" ∧ address st = Some a ∧ a ≠ "".

(** No address, or the wallet's. *)
Definition agrees (d : option string * option string) : Prop := d.2 = None ∨ d.2 = d.1.
#[global] Instance agrees_dec d : Decision (agrees d).
Proof. apply _. Defined.

Definition seen (s : App) : option string * option string := (wallet s, address (store s)).

(** What holds after the effects have run. *)
Definition settled (s : App) : Prop :=
  ∀ i h, hooks s !! i = Some h → mounted h = true → seenAccount h = Some (seen s) ∧ agrees (seen s).

(** What they need. *)
Definition renderable (s : App) : Prop :=
  ∀ i h, hooks s !! i = Some h → mounted h = true → seenAccount h = Some (seen s) → agrees (seen s).

(** Sign-ins are under way for wallets. *)
Definition task_addressed (t : cont * flight) : Prop :=
  match t.1 with TNonce _ a | TSign _ a _ | TVerify _ a => a ≠ "" | _ => True end.
Definition addressed (s : App) : Prop := map_Forall (λ _ t, task_addressed t) (tasks s).

Lemma whole_truthy st a : whole st → truthy (address st) = Some a ↔ address st = Some a.
Proof.
  intros [->|(t & b & _ & _ & -> & Hb)]; [done|]. unfold truthy. destruct b; [done|]. done.
Qed.

Lemma truthy_Some o a : truthy o = Some a → o = Some a ∧ a ≠ "".
Proof. destruct o as [[|c b]|]; simpl; intros E; simplify_eq; done. Qed.

(** The tasks of [s'] are those of [s], and revocations. *)
Definition adds_logouts (s s' : App) : Prop :=
  ∀ P : cont * flight → Prop, (∀ o q, P (TLogout o, Sent q)) →
    map_Forall (λ _ t, P t) (tasks s) → map_Forall (λ _ t, P t) (tasks s').
#[global] Instance adds_logouts_preorder : PreOrder adds_logouts.
Proof. split; [by intros s P HP|]. intros a b c Hab Hbc P HP Ha. by apply Hbc, Hab. Qed.

(** What a pass has done after the hooks before [k]. *)
Record passed (s : App) (k : nat) (s' : App) : Prop := {
  p_wallet : wallet s' = wallet s;
  p_hooks : length (hooks s') = length (hooks s);
  p_store : store s' = store s ∨ store s' = EMPTY;
  p_kept : agrees (seen s) → store s' = store s;
  p_done : ∀ i h, (i < k)%nat → hooks s' !! i = Some h → mounted h = true →
             seenAccount h = Some (seen s) ∧ (agrees (seen s) ∨ store s' = EMPTY);
  p_mounted : ∀ i h, hooks s' !! i = Some h → ∃ h0, hooks s !! i = Some h0 ∧ mounted h = mounted h0;
  p_rest : ∀ i, (k ≤ i)%nat → hooks s' !! i = hooks s !! i;
  p_tasks : adds_logouts s s' }.

(** The same components are mounted. *)
Definition same_hooks (s s' : App) : Prop := mounted <$> hooks s' = mounted <$> hooks s.
#[global] Instance same_hooks_preorder : PreOrder same_hooks.
Proof. split; [by intros s|]. intros a b c Hab Hbc. unfold same_hooks in *. congruence. Qed.

Lemma passed_same s k s' : passed s k s' → same_hooks s s'.
Proof.
  intros Hp. apply list_eq. intros i. rewrite !list_lookup_fmap. destruct (hooks s' !! i) as [h|] eqn:Hi.
  - destruct (p_mounted _ _ _ Hp i h Hi) as (h0 & -> & E). cbn. by rewrite E.
  - apply lookup_ge_None in Hi. rewrite (p_hooks _ _ _ Hp) in Hi. apply lookup_ge_None in Hi. by rewrite Hi.
Qed.

Lemma passed_refl s : passed s 0 s.
Proof. split; eauto; [lia|reflexivity]. Qed.

Lemma addressed_logouts s s' : adds_logouts s s' → addressed s → addressed s'.
Proof. intros Ht. by apply Ht. Qed.

(** A hook's own fields that no effect on accounts reads may change. *)
Lemma passed_alter s k s' f i : (i < k)%nat → (∀ h, mounted (f h) = mounted h ∧ seenAccount (f h) = seenAccount h) →
  passed s k s' → passed s k (with_hook f i s').
Proof.
  intros Hi Hf [Hw Hl Hs Hk Hd Hm Hr Ha]. split; cbn; auto.
  - by rewrite length_alter.
  - intros j h Hj Hh Hmt. destruct (decide (i = j)) as [<-|Hne].
    + rewrite list_lookup_alter_eq in Hh. apply fmap_Some in Hh as (h0 & Hh0 & ->).
      destruct (Hf h0) as [Em Es]. rewrite Em in Hmt. rewrite Es. by apply (Hd i).
    + rewrite list_lookup_alter_ne in Hh by done. by apply (Hd j).
  - intros j h Hh. destruct (decide (i = j)) as [<-|Hne].
    + rewrite list_lookup_alter_eq in Hh. apply fmap_Some in Hh as (h0 & Hh0 & ->).
      destruct (Hm i h0 Hh0) as (h1 & H1 & E). exists h1. split; [done|]. by rewrite (proj1 (Hf h0)).
    + rewrite list_lookup_alter_ne in Hh by done. by apply Hm.
  - intros j Hj. rewrite list_lookup_alter_ne by lia. apply Hr. lia.
Qed.

Lemma passed_next s k s' :
  (∀ h, hooks s' !! k = Some h → mounted h = true → seenAccount h = Some (seen s) ∧ (agrees (seen s) ∨ store s' = EMPTY)) →
  passed s k s' → passed s (S k) s'.
Proof.
  intros Hh [Hw Hl Hs Hk Hd Hm Hr Ha]. split; auto.
  - intros j h Hj. destruct (decide (j = k)) as [->|Hne]; [apply Hh|apply Hd; lia].
  - intros j Hj. apply Hr. lia.
Qed.

Lemma passed_see s k s' :
  agrees (seen s) ∨ store s' = EMPTY → passed s k s' → passed s (S k) (with_hook (see_account (seen s)) k s').
Proof.
  intros Hag [Hw Hl Hs Hk Hd Hm Hr Ha]. split; cbn; auto.
  - by rewrite length_alter.
  - intros j h Hj Hh Hmt. destruct (decide (k = j)) as [<-|Hne].
    + rewrite list_lookup_alter_eq in Hh. by apply fmap_Some in Hh as (h0 & Hh0 & ->).
    + rewrite list_lookup_alter_ne in Hh by done. apply (Hd j); [lia|done|done].
  - intros j h Hh. destruct (decide (k = j)) as [<-|Hne].
    + rewrite list_lookup_alter_eq in Hh. apply fmap_Some in Hh as (h0 & Hh0 & ->). destruct (Hm k h0 Hh0) as (h1 & ? & ?). by exists h1.
    + rewrite list_lookup_alter_ne in Hh by done. by apply Hm.
  - intros j Hj. rewrite list_lookup_alter_ne by lia. apply Hr. lia.
Qed.

Lemma passed_out s k s' : ¬ agrees (seen s) → passed s k s' → passed s k (with_store (λ _, EMPTY) s').
Proof. intros Hn [Hw Hl Hs Hk Hd Hm Hr Ha]. split; cbn; naive_solver. Qed.

Lemma passed_signOut s k s' :
  ¬ agrees (seen s) → passed s k s' → passed s (S k) (signOut k None (with_hook (see_account (seen s)) k s')).
Proof.
  intros Hn Hp. pose proof (passed_see s k (with_store (λ _, EMPTY) s') (or_intror eq_refl) (passed_out s k s' Hn Hp)) as H1.
  pose proof (passed_alter s (S k) _ (set_error None) k ltac:(lia) (λ h, conj eq_refl eq_refl) H1) as [Hw Hl Hs Hk Hd Hm Hr Ha].
  split; cbn in *; auto. intros P HP HPs. apply map_Forall_insert_2; [apply HP|]. by apply Ha.
Qed.

Lemma passed_refresh now session s k s' i h : (i < k)%nat → passed s k s' → passed s k (refresh_effect now session i h s').
Proof. intros Hi Hp. unfold refresh_effect. case_bool_decide; [done|]. by apply passed_alter. Qed.

Lemma passed_account s k s' h : whole (store s) → renderable s → passed s k s' → hooks s' !! k = Some h → mounted h = true →
  passed s (S k) (account_effect (store s) k h s').
Proof.
  intros Hwh Hren Hp Hk Hm. unfold account_effect. rewrite (p_wallet _ _ _ Hp). fold (seen s).
  case_bool_decide as Hseen.
  { apply passed_next; [|done]. intros h1 H1 _. rewrite H1 in Hk. simplify_eq. split; [done|left].
    rewrite (p_rest _ _ _ Hp k ltac:(lia)) in H1. by apply (Hren k h). }
  change (store (with_hook ?f ?i s')) with (store s'). change (wallet (with_hook ?f ?i s')) with (wallet s').
  destruct (p_store _ _ _ Hp) as [Es|Es]; rewrite Es; [|by apply passed_see; [right|]].
  destruct (truthy (address (store s))) as [a|] eqn:Ha.
  - apply whole_truthy in Ha; [|done]. rewrite (p_wallet _ _ _ Hp). case_bool_decide as Hwa.
    + apply passed_see; [left|done]. right. cbn. congruence.
    + apply passed_signOut; [|done]. intros [E|E]; cbn in E; congruence.
  - apply passed_see; [left|done]. left. cbn. destruct Hwh as [->|(t & a & _ & _ & E & Hne)]; [done|].
    rewrite E in Ha. by destruct a.
Qed.

Lemma passed_step now s k s' : whole (store s) → renderable s → passed s k s' → passed s (S k) (effects now (store s) k s').
Proof.
  intros Hwh Hren Hp. unfold effects. destruct (hooks s' !! k) as [h|] eqn:Hk.
  - destruct (mounted h) eqn:Hm.
    + apply passed_refresh; [lia|]. by apply passed_account.
    + apply passed_next; [|done]. intros h1 H1. simplify_eq. congruence.
  - apply passed_next; [|done]. intros h1 H1. by rewrite H1 in Hk.
Qed.

Lemma pass_passed now s : whole (store s) → renderable s → passed s (length (hooks s)) (pass now s).
Proof.
  intros Hwh Hren. unfold pass. set (f := λ (s' : App) (i : nat), effects now (store s) i s').
  assert (∀ n, (n ≤ length (hooks s))%nat → passed s n (foldl f s (seq 0 n))) as Hn; [|by apply Hn].
  intros n. induction n as [|n IH]; intros Hle; [apply passed_refl|].
  rewrite seq_S, foldl_app. apply passed_step; [done|done|]. apply IH. lia.
Qed.

Lemma whole_kept st st' : whole st → st' = st ∨ st' = EMPTY → whole st'.
Proof. intros Hw [->| ->]; [done|by left]. Qed.

(** The effects of an event leave the page settled. *)
Lemma settle_settled now s : whole (store s) → renderable s → addressed s →
  let s' := settle now s in settled s' ∧ whole (store s') ∧ addressed s' ∧ (store s' = store s ∨ store s' = EMPTY) ∧ wallet s' = wallet s ∧ adds_logouts s s' ∧ same_hooks s s'.
Proof.
  intros Hwh Hren Had. unfold settle. pose proof (pass_passed now s Hwh Hren) as H1. set (s1 := pass now s) in *.
  assert (∀ i h, hooks s1 !! i = Some h → mounted h = true →
    seenAccount h = Some (seen s) ∧ (agrees (seen s) ∨ store s1 = EMPTY)) as Hd1.
  { intros i h Hi. apply (p_done _ _ _ H1 i h); [|done]. apply lookup_lt_Some in Hi. by rewrite (p_hooks _ _ _ H1) in Hi. }
  assert (∀ i h, hooks s1 !! i = Some h → mounted h = true → agrees (seen s1)) as Hag.
  { intros i h Hi Hm. destruct (Hd1 i h Hi Hm) as [_ [Ha|Ha]].
    - unfold seen. rewrite (p_kept _ _ _ H1 Ha), (p_wallet _ _ _ H1). exact Ha.
    - left. cbn. by rewrite Ha. }
  assert (whole (store s1)) as Hw1 by (apply (whole_kept (store s)); [done|apply (p_store _ _ _ H1)]).
  pose proof (pass_passed now s1 Hw1 (λ i h Hi Hm _, Hag i h Hi Hm)) as H2. set (s2 := pass now s1) in *.
  split; [|split_and!].
  - intros i h Hi Hm. destruct (p_mounted _ _ _ H2 i h Hi) as (h1 & Hi1 & Em). rewrite Em in Hm.
    pose proof (Hag i h1 Hi1 Hm) as Ha. rewrite <-Em in Hm.
    assert (seen s2 = seen s1) as -> by (unfold seen; by rewrite (p_kept _ _ _ H2 Ha), (p_wallet _ _ _ H2)).
    split; [|done]. apply (p_done _ _ _ H2 i h); [|done|done]. apply lookup_lt_Some in Hi. by rewrite (p_hooks _ _ _ H2) in Hi.
  - apply (whole_kept (store s1)); [done|apply (p_store _ _ _ H2)].
  - apply (addressed_logouts s); [|done]. transitivity s1; [apply (p_tasks _ _ _ H1)|apply (p_tasks _ _ _ H2)].
  - destruct (p_store _ _ _ H2) as [->| ->]; [apply (p_store _ _ _ H1)|by right].
  - by rewrite (p_wallet _ _ _ H2), (p_wallet _ _ _ H1).
  - transitivity s1; [apply (p_tasks _ _ _ H1)|apply (p_tasks _ _ _ H2)].
  - transitivity s1; [apply (passed_same _ _ _ H1)|apply (passed_same _ _ _ H2)].
Qed.

(** Between an event and the effects. *)
Definition consistent (s : App) : Prop :=
  ∀ i h d, hooks s !! i = Some h → mounted h = true → seenAccount h = Some d → agrees d.

Record sound (s : App) : Prop := { sound_hooks : consistent s; sound_whole : whole (store s); sound_tasks : addressed s }.

Lemma sound_renderable s : sound s → renderable s.
Proof. intros [Hc _ _] i h Hi Hm Hs. by apply (Hc i h). Qed.

Lemma settled_sound s : settled s → whole (store s) → addressed s → sound s.
Proof. intros Hs Hw Ha. split; [|done|done]. intros i h d Hi Hm Hd. destruct (Hs i h Hi Hm) as [E Hag]. congruence. Qed.

Lemma sound_hook f i s : (∀ h, (mounted (f h) = true → mounted h = true) ∧ seenAccount (f h) = seenAccount h) →
  sound s → sound (with_hook f i s).
Proof.
  intros Hf [Hc Hw Ha]. split; [|done|done]. intros j h d. cbn. destruct (decide (i = j)) as [<-|Hne].
  - rewrite list_lookup_alter_eq. intros (h0 & Hh0 & ->)%fmap_Some Hm Hs. destruct (Hf h0) as [Hfm Hfs].
    apply (Hc i h0); [done|by apply Hfm|congruence].
  - rewrite list_lookup_alter_ne by done. apply Hc.
Qed.

Lemma sound_store f s : whole (f (store s)) → sound s → sound (with_store f s).
Proof. by intros Hw [Hc _ Ha]. Qed.

Lemma sound_spawn c fl s : task_addressed (c, fl) → sound s → sound (spawn c fl s).
Proof. intros Ht [Hc Hw Ha]. split; [done|done|]. by apply map_Forall_insert_2. Qed.

Lemma sound_flush s : sound s → sound (flush s).
Proof. by intros []. Qed.

Lemma sound_drop n s : sound s → sound (with_task n None s).
Proof. intros [Hc Hw Ha]. split; [done|done|]. by apply map_Forall_delete. Qed.

Lemma sound_task n c fl fl' s : tasks s !! n = Some (c, fl) → sound s → sound (with_task n (Some (c, fl')) s).
Proof. intros Hn [Hc Hw Ha]. split; [done|done|]. apply map_Forall_insert_2; [|done]. exact (Ha n (c, fl) Hn). Qed.

Lemma whole_empty : whole EMPTY.
Proof. by left. Qed.


(** One step of a soundness proof. *)
Ltac sound_step :=
  first
    [ assumption
    | apply sound_hook; [by intros []|]
    | apply sound_flush
    | apply sound_drop
    | apply sound_store; [first [exact whole_empty|assumption]|]
    | apply sound_spawn; [by auto|] ].

Lemma sound_signOut i o s : sound s → sound (signOut i o s).
Proof. intros Hs. unfold signOut. repeat sound_step. Qed.

Lemma sound_failed i e s : sound s → sound (signIn_failed i e s).
Proof. intros Hs. unfold signIn_failed. repeat sound_step. Qed.

Lemma sound_signIn i s : sound s → sound (signIn i s).
Proof.
  intros Hs. unfold signIn. destruct (truthy (wallet s)) as [a|] eqn:Ha; [|by sound_step].
  apply truthy_Some in Ha as [_ Hne]. repeat sound_step.
Qed.

Lemma sound_continue c r s : task_addressed (c, Back r) → sound s → sound (continue c r s).
Proof.
  intros Ht Hs. destruct c as [i a|i a n|i a|i|[i|]]; cbn in Ht |- *; [| |..].
  - unfold signIn_challenged. destruct (requestChallenge r) as [[n m]|e]; [by sound_step|by apply sound_failed].
  - done.
  - unfold signIn_verified. destruct (verifyChallenge r) as [[t q]|e]; [|by apply sound_failed].
    case_bool_decide; [by apply sound_failed|]. sound_step. apply sound_store; [|done]. right. by exists t, a.
  - unfold refresh_answered. destruct (truthy (refreshAccessToken r)) as [f|] eqn:Hf; [|by apply sound_signOut].
    destruct (truthy (accessToken (store s))) as [t|] eqn:Hat; [|by apply sound_signOut].
    apply truthy_Some in Hf as [_ Hf]. apply truthy_Some in Hat as [Hat _].
    sound_step. apply sound_store; [|done].
    destruct (sound_whole _ Hs) as [E|(t0 & a & _ & _ & Ea & Hne)]; [by rewrite E in Hat|]. right. by exists f, a.
  - by sound_step.
  - done.
Qed.

Lemma sound_page now e s : sound s → sound (page now e s).
Proof.
  intros Hs. destruct e as [|i|a|i|i|i|n rnd|n m|n st|n|n answer]; cbn.
  - destruct Hs as [Hc Hw Ha]. split; [|done|done]. intros j h d Hj Hm Hd. cbn in Hj.
    apply lookup_app_Some in Hj as [Hj|[_ Hj]]; [by apply (Hc j h)|].
    apply list_lookup_singleton_Some in Hj as [_ <-]. done.
  - by sound_step.
  - by destruct Hs.
  - case_match; [by apply sound_signIn|done].
  - case_match; [by apply sound_signOut|done].
  - case_match; [|done]. unfold refresh_start. destruct (hooks s !! i) as [h|]; [|done].
    case_match; repeat sound_step.
  - done.
  - unfold lost. destruct (tasks s !! n) as [[c []]|] eqn:Hn; first [done|by eapply sound_task].
  - unfold refused. destruct (tasks s !! n) as [[c []]|] eqn:Hn; [|done..].
    case_match; [done|by eapply sound_task].
  - unfold returned. destruct (tasks s !! n) as [[c []]|] eqn:Hn; [done| |done|done].
    apply sound_continue; [exact (sound_tasks _ Hs n _ Hn)|by sound_step].
  - unfold wallet_answers. destruct (tasks s !! n) as [[[i a|i a nn|i a|i|[i|]] []]|] eqn:Hn; try done.
    pose proof (sound_tasks _ Hs n _ Hn) as Ha. cbn in Ha. unfold signIn_signed.
    destruct (signWithWallet answer); [|apply sound_failed]; repeat sound_step.
Qed.

Section follows.
Context {Srv : Type} `{AuthServer Srv}.
Implicit Types (σ : Srv).

Definition good (s : App) : Prop := settled s ∧ sound s.

Lemma good_handle s σ o : good s → good (handle (s, σ) o).1.
Proof.
  intros [Hset Hs]. unfold handle.
  assert (good (settle o.1 (page o.1 o.2 s))) as Hpage.
  { pose proof (sound_page o.1 o.2 s Hs) as Hp.
    destruct (settle_settled o.1 _ (sound_whole _ Hp) (sound_renderable _ Hp) (sound_tasks _ Hp)) as (H1 & H2 & H3 & _).
    split; [done|]. by apply settled_sound. }
  destruct o.2 eqn:Eo; try exact Hpage. destruct (tasks s !! n) as [[c []]|] eqn:Hn; try done.
  destruct (serve o.1 rnd q σ) as [res σ']. split; [done|]. by eapply sound_task.
Qed.

Lemma good_run s σ evs : good s → good (run (s, σ) evs).1.
Proof.
  revert s σ. unfold run. induction evs as [|o evs IH]; intros s σ Hg; [done|]. cbn [foldl].
  destruct (handle (s, σ) o) as [s' σ'] eqn:E. apply IH. replace s' with (handle (s, σ) o).1 by (by rewrite E). by apply good_handle.
Qed.

Lemma good_start : good start.
Proof. split; [by intros i h Hi|]. split; [by intros i h d Hi|by left|]. apply map_Forall_empty. Qed.

(** C20: The session follows the wallet.  After any sequence of events (mounts, account changes, sign-ins and
    sign-outs at any moment, answers of the backend and the wallet in any order, lost requests) a component that is mounted sees either no
    address or the address of the connected wallet, and a session that has one of token and address has
    both: an authenticated page is authenticated for the wallet that is connected. *)
Theorem session_follows_wallet σ evs i h :
  let s := (run (start, σ) evs).1 in
  hooks s !! i = Some h → mounted h = true →
  (store s = EMPTY ∨ ∃ t, accessToken (store s) = Some t ∧ t ≠ "" ∧ address (store s) = wallet s ∧ is_Some (wallet s)) ∧
  (session_status h (store s) = authenticated → address (store s) = wallet s ∧ is_Some (wallet s)).
Proof.
  intros s Hi Hm. destruct (good_run start σ evs good_start) as [Hset [_ Hw _]]. fold s in Hset, Hw.
  destruct (Hset i h Hi Hm) as [_ [Ha|Ha]]; cbn in Ha.
  - destruct Hw as [E|(t & a & _ & _ & Ea & _)]; [|congruence]. split; [by left|].
    unfold session_status. rewrite E. by destruct (signingIn h).
  - destruct Hw as [E|(t & a & Ht & Hne & Ea & _)].
    + split; [by left|]. unfold session_status. rewrite E. by destruct (signingIn h).
    + assert (is_Some (wallet s)) by (rewrite <-Ha, Ea; by eexists). split; [right; by exists t|done].
Qed.
End follows.

(** ** Signing out flushes the cache *)

(** The session of [s] is still there, or was signed out: the cache was flushed, and its refresh token is
    being revoked. *)
Definition out (s s' : App) : Prop :=
  (store s' = store s ∧ (cleared s ≤ cleared s')%nat) ∨
  (store s' = EMPTY ∧ (cleared s < cleared s')%nat ∧ ∃ n, (n < next s')%nat ∧
    tasks s' !! n = Some (TLogout None, Sent (ReqLogout (default "" (refreshToken (store s)))))).

Lemma out_effects s now r i s' : out s s' → out s (effects now r i s').
Proof.
  intros Ho. unfold effects. destruct (hooks s' !! i) as [h|]; [|done]. case_match; [|done].
  assert (out s (account_effect r i h s')) as Ha.
  { unfold account_effect. case_bool_decide; [done|]. change (store (with_hook ?f ?j s')) with (store s').
    destruct (truthy (address (store s'))) as [a|] eqn:Ha; [|done].
    case_bool_decide; [done|]. destruct Ho as [[E Hc]|(E & _)]; [|by rewrite E in Ha].
    right. split_and!; [done|cbn; lia|]. exists (next s'). split; [cbn; lia|]. cbn. by rewrite lookup_insert_eq, E. }
  unfold refresh_effect. by case_bool_decide.
Qed.

Lemma out_pass s now s' : out s s' → out s (pass now s').
Proof.
  intros Ho. unfold pass. generalize (seq 0 (length (hooks s'))). generalize (store s'). intros r ks. revert s' Ho.
  induction ks as [|i ks IH]; intros s' Ho; [done|]. cbn [foldl]. by apply IH, out_effects.
Qed.

Lemma out_settle s now : out s (settle now s).
Proof. apply out_pass, out_pass. by left. Qed.

Section switch.
Context {Srv : Type} `{AuthServer Srv}.
Implicit Types (σ : Srv).

(** Changing the account signs out.  When the wallet's account changes, or the wallet disconnects, while a component that
    uses the session is mounted, the session of the other account is dropped at once, the query cache is
    flushed, and the revocation of its refresh token is sent to the backend. *)
Theorem account_change_signs_out t s σ i h a b :
  good s → hooks s !! i = Some h → mounted h = true → address (store s) = Some a → b ≠ Some a →
  let s' := (handle (s, σ) (t, EvWallet b)).1 in
  store s' = EMPTY ∧ (cleared s < cleared s')%nat ∧
  ∃ n, tasks s' !! n = Some (TLogout None, Sent (ReqLogout (default "" (refreshToken (store s))))).
Proof.
  intros Hg Hi Hm Ha Hb s'. destruct (out_settle (with_wallet b s) t) as [[E _]|(H1 & H2 & n & _ & H3)]; [|by split_and!; [..|exists n]].
  exfalso. change (store s' = store s) in E. pose proof (sound_page t (EvWallet b) s (proj2 Hg)) as Hp.
  destruct (settle_settled t _ (sound_whole _ Hp) (sound_renderable _ Hp) (sound_tasks _ Hp)) as (Hset & _ & _ & _ & Hw & _ & Hsame).
  change (settled s') in Hset. change (wallet s' = b) in Hw. change (same_hooks s s') in Hsame. clearbody s'.
  assert (∃ h', hooks s' !! i = Some h' ∧ mounted h' = true) as (h' & Hi' & Hm').
  { assert ((mounted <$> hooks s') !! i = Some true) as Hl by (rewrite Hsame, list_lookup_fmap, Hi; cbn; by rewrite Hm).
    rewrite list_lookup_fmap in Hl. apply fmap_Some in Hl as (h' & ? & ?). by exists h'. }
  destruct (Hset i h' Hi' Hm') as [_ [E'|E']]; cbn in E'; rewrite E, Ha in E'; [done|congruence].
Qed.
End switch.

(** ** The token belongs to the address *)

(** What the page relies on: [account] is the account of an address, [subject] the one an
    access token was issued for and [owner] the one a refresh token was drawn for;
    [tidy t] holds of the backend's states at time [t].  A session opened for an address
    is that account's, and a refreshed one the owner's of the refresh token; without a
    refresh token there is none. *)
Class AuthServerLaws (Srv : Type) `{AuthServer Srv} (account subject owner : string → string) (tidy : Z → Srv → Prop) : Prop := {
  tidy_later t t' σ : t ≤ t' → tidy t σ → tidy t' σ;
  serve_tidy now rnd q σ : tidy now σ →
    match q with ReqVerify a _ _ => owner rnd = account a | ReqRefresh (Some x) => owner rnd = owner x | _ => True end →
    tidy now (serve now rnd q σ).2;
  serve_verify now rnd a nonce signature σ t x : tidy now σ → owner rnd = account a →
    verifyChallenge (Ok (serve now rnd (ReqVerify a nonce signature) σ).1) = Ok (t, x) →
    subject t = account a ∧ (∀ y, x = Some y → owner y = account a);
  serve_refresh now rnd x σ t : tidy now σ → owner rnd = owner x →
    refreshAccessToken (Ok (serve now rnd (ReqRefresh (Some x)) σ).1) = Some t → subject t = owner x;
  serve_no_token now rnd σ : refreshAccessToken (Ok (serve now rnd (ReqRefresh None) σ).1) = None }.

Section belongs.
Context {Srv : Type} `{AuthServerLaws Srv account subject owner tidy}.
Implicit Types (σ : Srv).

Definition owned (st : SessionSnapshot) : Prop :=
  ∀ a, address st = Some a →
    (∀ t, accessToken st = Some t → subject t = account a) ∧ (∀ x, refreshToken st = Some x → owner x = account a).

(** The session, if there is one, is the account's. *)
Definition holds (k : string) (st : SessionSnapshot) : Prop := ∀ a, address st = Some a → account a = k.

Definition task_owned (st : SessionSnapshot) (t : cont * flight) : Prop :=
  match t with
  | (TVerify _ a, Sent q) => ∃ nonce signature, q = ReqVerify a nonce signature
  | (TVerify _ a, Back r) => ∀ t x, verifyChallenge r = Ok (t, x) → subject t = account a ∧ (∀ y, x = Some y → owner y = account a)
  | (TRefresh _, Sent q) => ∃ o, q = ReqRefresh o ∧ (∀ x, o = Some x → holds (owner x) st)
  | (TRefresh _, Back r) => ∀ t, refreshAccessToken r = Some t → holds (subject t) st
  | (_, _) => True
  end.

Record kept (s : App) : Prop := {
  kept_store : owned (store s);
  kept_tasks : map_Forall (λ _ t, task_owned (store s) t) (tasks s) }.

Lemma holds_empty a st' st : st' = st ∨ st' = EMPTY → holds a st → holds a st'.
Proof. by intros [->| ->]. Qed.

Lemma task_owned_mono st st' t : st' = st ∨ st' = EMPTY → task_owned st t → task_owned st' t.
Proof.
  intros Hst. destruct t as [[i a|i a n|i a|i|o] [q|r|m]]; try done; cbn.
  - intros (o & Ho & Hx). exists o. split; [done|]. intros x E. by apply (holds_empty _ _ st), Hx.
  - intros Hr t Ht. by apply (holds_empty _ _ st), Hr.
Qed.

Lemma owned_mono st st' : st' = st ∨ st' = EMPTY → owned st → owned st'.
Proof. by intros [->| ->]. Qed.

Lemma kept_mono s s' : store s' = store s ∨ store s' = EMPTY → adds_logouts s s' → kept s → kept s'.
Proof.
  intros Hst Ht [Ho Hts]. split; [by apply (owned_mono (store s))|].
  apply Ht; [done|]. intros n t Hn. apply (task_owned_mono (store s)); [done|]. by apply (Hts n).
Qed.

Lemma kept_spawn c fl s : task_owned (store s) (c, fl) → kept s → kept (spawn c fl s).
Proof. intros Ht [Ho Hts]. split; [done|]. by apply map_Forall_insert_2. Qed.

Lemma kept_task n c fl s : task_owned (store s) (c, fl) → kept s → kept (with_task n (Some (c, fl)) s).
Proof. intros Ht [Ho Hts]. split; [done|]. by apply map_Forall_insert_2. Qed.

Lemma kept_drop n s : kept s → kept (with_task n None s).
Proof. intros [Ho Hts]. split; [done|]. by apply map_Forall_delete. Qed.

Lemma kept_hook f i s : kept s → kept (with_hook f i s).
Proof. by intros []. Qed.

Lemma kept_flush s : kept s → kept (flush s).
Proof. by intros []. Qed.

Lemma kept_empty s : kept s → kept (with_store (λ _, EMPTY) s).
Proof. apply kept_mono; [by right|]. by intros P HP. Qed.

Ltac kept_step := first [assumption | apply kept_hook | apply kept_flush | apply kept_drop | apply kept_empty | apply kept_spawn; [done|]].

Lemma kept_signOut i o s : kept s → kept (signOut i o s).
Proof. intros Hs. unfold signOut. repeat kept_step. Qed.

Lemma kept_failed i e s : kept s → kept (signIn_failed i e s).
Proof. intros Hs. unfold signIn_failed. repeat kept_step. Qed.

(** No refresh is under way. *)
Definition no_refresh (s : App) : Prop := map_Forall (λ _ (t : cont * flight), ∀ i, t.1 ≠ TRefresh i) (tasks s).

#[global] Instance no_refresh_dec s : Decision (no_refresh s).
Proof.
  apply map_Forall_dec. intros n [c fl]. cbn. destruct c; try (left; congruence). right. intros Hn. by apply (Hn i).
Defined.

(** Events are in the order of time. *)
Fixpoint timed (t : Z) (evs : list (Z * event)) : Prop :=
  match evs with [] => True | o :: evs' => t ≤ o.1 ∧ timed o.1 evs' end.

(** A sign-in ends while no refresh is under way, and each wallet draws its own refresh
    tokens. *)
Definition calm (o : Z * event) (w : App * Srv) : Prop :=
  match o.2 with
  | EvReturn n => match tasks w.1 !! n with Some (TVerify _ _, _) => no_refresh w.1 | _ => True end
  | EvServe n rnd =>
      match tasks w.1 !! n with
      | Some (_, Sent (ReqVerify a _ _)) => owner rnd = account a
      | Some (_, Sent (ReqRefresh (Some x))) => owner rnd = owner x
      | _ => True
      end
  | _ => True
  end.

#[global] Instance calm_dec o w : Decision (calm o w).
Proof. unfold calm. repeat case_match; apply _. Defined.

Fixpoint along (P : Z * event → App * Srv → Prop) (evs : list (Z * event)) (w : App * Srv) : Prop :=
  match evs with [] => True | o :: evs' => P o w ∧ along P evs' (handle w o) end.

#[global] Instance along_dec P `{!∀ o w, Decision (P o w)} evs w : Decision (along P evs w).
Proof. revert w. induction evs as [|o evs IH]; intros w; cbn; apply _. Defined.

Lemma kept_verified i a r s : task_owned (store s) (TVerify i a, Back r) → no_refresh s → kept s → kept (signIn_verified i a r s).
Proof.
  intros Ht Hn Hs. unfold signIn_verified. destruct (verifyChallenge r) as [[t x]|e] eqn:Hr; [|by apply kept_failed].
  case_bool_decide; [by apply kept_failed|]. apply kept_hook. destruct (Ht t x Hr) as [Hsub How].
  split; cbn; [intros b [= <-]; split; [by intros t' [= <-]|done]|].
  intros n [c fl] Hnt. pose proof (kept_tasks _ Hs n _ Hnt) as Hto. pose proof (Hn n _ Hnt) as Hnr.
  destruct c; try done. by destruct (Hnr i0).
Qed.

Lemma kept_refreshed i r s : task_owned (store s) (TRefresh i, Back r) → whole (store s) → kept s → kept (refresh_answered i r s).
Proof.
  intros Ht Hw Hs. unfold refresh_answered.
  destruct (truthy (refreshAccessToken r)) as [f|] eqn:Hf; [|by apply kept_signOut].
  destruct (truthy (accessToken (store s))) as [t|] eqn:Hat; [|by apply kept_signOut].
  apply truthy_Some in Hf as [Hf _]. apply truthy_Some in Hat as [Hat _]. apply kept_hook.
  destruct Hw as [E|(t0 & a & _ & _ & Ea & _)]; [by rewrite E in Hat|].
  pose proof (Ht f Hf a Ea) as E.
  split; cbn.
  - intros b Hb. change (address (store s) = Some b) in Hb. rewrite Ea in Hb. apply (inj Some) in Hb as <-. split; [by intros t' [= <-]|].
    by apply (kept_store _ Hs).
  - exact (kept_tasks _ Hs).
Qed.

Lemma kept_page now e s σ : calm (now, e) (s, σ) → whole (store s) → kept s → kept (page now e s).
Proof.
  intros Hc Hw Hs. destruct e as [|i|a|i|i|i|n rnd|n m|n st|n|n answer]; cbn.
  - by destruct Hs.
  - by apply kept_hook.
  - by destruct Hs.
  - case_match; [|done]. unfold signIn. case_match; repeat kept_step.
  - case_match; [by apply kept_signOut|done].
  - case_match; [|done]. unfold refresh_start. destruct (hooks s !! i); [|done]. case_match; [by kept_step|].
    apply kept_spawn; [|by do 2 kept_step]. eexists. split; [done|]. intros x Hx. apply truthy_Some in Hx as [Hx _].
    intros a Ha. change (address (store s) = Some a) in Ha. symmetry. by apply (kept_store _ Hs a Ha).
  - done.
  - unfold lost. destruct (tasks s !! n) as [[c []]|] eqn:Hn; try done; (apply kept_task; [|done]); destruct c; done.
  - unfold refused. destruct (tasks s !! n) as [[c []]|] eqn:Hn; try done. case_match eqn:Hst; [done|].
    apply kept_task; [|done]. destruct c; cbn; try done.
    + intros t x. unfold verifyChallenge, fetched, toJson, res_ok. cbn. by rewrite Hst.
    + intros t. unfold res_ok. cbn. by rewrite Hst.
  - unfold returned. destruct (tasks s !! n) as [[c []]|] eqn:Hn; try done.
    pose proof (kept_tasks _ Hs n _ Hn) as Ht. pose proof (kept_drop n s Hs) as Hd. unfold calm in Hc. cbn in Hc. rewrite Hn in Hc.
    destruct c as [i a|i a nn|i a|i|[i|]]; cbn [continue].
    + unfold signIn_challenged. destruct (requestChallenge r) as [[n' m]|e]; [by kept_step|by apply kept_failed].
    + done.
    + apply kept_verified; [done| |done]. by apply map_Forall_delete.
    + by apply kept_refreshed.
    + by apply kept_hook.
    + done.
  - unfold wallet_answers. destruct (tasks s !! n) as [[[i a|i a nn|i a|i|[i|]] []]|] eqn:Hn; try done.
    unfold signIn_signed. destruct (signWithWallet answer); [|apply kept_failed; by kept_step].
    apply kept_spawn; [|by kept_step]. by eexists _, _.
Qed.

Lemma kept_serve now n rnd s σ : calm (now, EvServe n rnd) (s, σ) → tidy now σ → kept s →
  kept (handle (s, σ) (now, EvServe n rnd)).1 ∧ tidy now (handle (s, σ) (now, EvServe n rnd)).2.
Proof.
  intros Hc Ht Hs. unfold calm in Hc. cbn in Hc |- *. destruct (tasks s !! n) as [[c [q|r|m]]|] eqn:Hn; try done.
  pose proof (kept_tasks _ Hs n _ Hn) as Hto. destruct (serve now rnd q σ) as [res σ'] eqn:Hsv.
  assert (tidy now σ') as Ht'.
  { replace σ' with (serve now rnd q σ).2 by (by rewrite Hsv). apply serve_tidy; [done|]. destruct q as [a|a nn g|[x|]|x]; done. }
  split; [|done]. apply kept_task; [|done]. destruct c as [i a|i a nn|i a|i|o]; try done.
  - destruct Hto as (nn & g & ->). intros t x Hv. apply (serve_verify now rnd a nn g σ t x Ht Hc). by rewrite Hsv.
  - destruct Hto as (o & -> & Hx). intros t Hf. destruct o as [x|].
    + assert (subject t = owner x) as ->; [|by apply Hx]. apply (serve_refresh now rnd x σ t Ht Hc). by rewrite Hsv.
    + pose proof (serve_no_token now rnd σ) as Hnt. rewrite Hsv in Hnt. cbn [fst] in Hnt. congruence.
Qed.

Lemma kept_run t0 s σ evs : good s → kept s → tidy t0 σ → timed t0 evs → along calm evs (s, σ) → kept (run (s, σ) evs).1.
Proof.
  revert t0 s σ. unfold run. induction evs as [|o evs IH]; intros t0 s σ Hg Hk Ht0 Htm Hal; [done|].
  destruct Htm as [Hle Htm], Hal as [Hc Hal].
  pose proof (tidy_later _ _ _ Hle Ht0) as Ht. clear Ht0. cbn [foldl]. pose proof (good_handle s σ o Hg) as Hg'.
  assert (kept (handle (s, σ) o).1 ∧ tidy o.1 (handle (s, σ) o).2) as [Hk' Ht'].
  { destruct o as [now e]. destruct Hg as [_ Hs].
    assert (kept (settle now (page now e s))) as Hp.
    { pose proof (sound_page now e s Hs) as Hp.
      destruct (settle_settled now _ (sound_whole _ Hp) (sound_renderable _ Hp) (sound_tasks _ Hp)) as (_ & _ & _ & Hst & _ & Hl & _).
      apply (kept_mono (page now e s)); [done|done|]. apply (kept_page now e s σ); [done|apply (sound_whole _ Hs)|done]. }
    destruct e; try (split; [exact Hp|exact Ht]). by apply kept_serve. }
  destruct (handle (s, σ) o) as [s' σ']. by apply (IH o.1).
Qed.

(** C19: The token belongs to the address.  On a run in which no sign-in ends while a refresh is under way, the
    access token the page holds was issued for the account of the address the page shows, and so was the refresh token. *)
Theorem token_belongs_to_address t0 σ evs a :
  tidy t0 σ → timed t0 evs → along calm evs (start, σ) →
  let st := store (run (start, σ) evs).1 in
  address st = Some a →
  (∃ t, accessToken st = Some t ∧ subject t = account a) ∧ (∀ x, refreshToken st = Some x → owner x = account a).
Proof.
  intros Ht Htm Hal st Ha. destruct (good_run start σ evs good_start) as [_ [_ Hw _]].
  assert (kept start) as Hk0 by (split; [done|apply map_Forall_empty]).
  destruct (kept_store _ (kept_run t0 start σ evs good_start Hk0 Ht Htm Hal) a Ha) as [Hs Ho].
  split; [|done]. destruct Hw as [E|(t & b & Et & _)]; [unfold st in Ha; by rewrite E in Ha|].
  exists t. split; [done|]. by apply Hs.
Qed.
End belongs.

(** ** A session is refreshed once *)

(** A backend that rotates refresh tokens: while it is [up], a refresh leaves the token
    [spent], and a spent token is refused from then on.  [fresh_for rnd x]: what is drawn
    is not mistaken for [x]. *)
Class AuthServerRotates (Srv : Type) `{AuthServer Srv} (up : Srv → Prop) (fresh_for : string → string → Prop)
    (spent : Z → string → Srv → Prop) : Prop := {
  spent_later t t' x σ : t ≤ t' → spent t x σ → spent t' x σ;
  serve_up now rnd q σ : up σ → up (serve now rnd q σ).2;
  spent_after now rnd x σ : up σ → fresh_for rnd x → spent now x (serve now rnd (ReqRefresh (Some x)) σ).2;
  spent_kept now rnd q x σ : up σ → fresh_for rnd x → spent now x σ → spent now x (serve now rnd q σ).2;
  spent_refused now rnd x σ : up σ → spent now x σ →
    refreshAccessToken (Ok (serve now rnd (ReqRefresh (Some x)) σ).1) = None;
  refused_without now rnd σ : refreshAccessToken (Ok (serve now rnd (ReqRefresh None) σ).1) = None }.

Section refreshed.
Context {Srv : Type} `{AuthServerRotates Srv up fresh_for spent}.
Implicit Types (σ : Srv).

(** Nobody signs in. *)
Definition no_sign_in (x : string) (o : Z * event) : Prop :=
  match o.2 with EvSignIn _ => False | EvServe _ rnd => fresh_for rnd x | _ => True end.

(** What a task of a page that refreshes with [x] holds, when [l] is the token a refresh
    has been answered with. *)
Definition task_of (x : string) (l : option string) (t : cont * flight) : Prop :=
  match t with
  | (TRefresh _, Sent q) => q = ReqRefresh (Some x) ∨ q = ReqRefresh None
  | (TRefresh _, Back r) => ∀ t, refreshAccessToken r = Some t → l = Some t
  | (TRefresh _, AtWallet _) | (TLogout _, _) => True
  | _ => False
  end.

Record refreshes (x t0 : string) (l : option string) (s : App) : Prop := {
  ref_store : store s = EMPTY ∨
    (refreshToken (store s) = Some x ∧ (accessToken (store s) = Some t0 ∨ ∃ t, l = Some t ∧ accessToken (store s) = Some t));
  ref_tasks : map_Forall (λ _ t, task_of x l t) (tasks s) }.

Lemma refreshes_known x t0 t s : refreshes x t0 None s → refreshes x t0 (Some t) s.
Proof.
  intros [Hs Ht]. split; [destruct Hs as [Hs|[Hr [Ha|(t' & E & _)]]]; auto; done|].
  intros n [c fl] Hn. specialize (Ht n _ Hn). destruct c; try done. destruct fl; try done. intros t' Hr. by specialize (Ht t' Hr).
Qed.

Lemma refreshes_mono x t0 l s s' : store s' = store s ∨ store s' = EMPTY → adds_logouts s s' → refreshes x t0 l s → refreshes x t0 l s'.
Proof.
  intros Hst Hl [Hs Ht]. split; [destruct Hst as [->| ->]; [done|by left]|]. by apply Hl.
Qed.

Lemma refreshes_spawn x t0 l c fl s : task_of x l (c, fl) → refreshes x t0 l s → refreshes x t0 l (spawn c fl s).
Proof. intros Hc [Hs Ht]. split; [done|]. by apply map_Forall_insert_2. Qed.
Lemma refreshes_task x t0 l n c fl s : task_of x l (c, fl) → refreshes x t0 l s → refreshes x t0 l (with_task n (Some (c, fl)) s).
Proof. intros Hc [Hs Ht]. split; [done|]. by apply map_Forall_insert_2. Qed.
Lemma refreshes_drop x t0 l n s : refreshes x t0 l s → refreshes x t0 l (with_task n None s).
Proof. intros [Hs Ht]. split; [done|]. by apply map_Forall_delete. Qed.
Lemma refreshes_hook x t0 l f i s : refreshes x t0 l s → refreshes x t0 l (with_hook f i s).
Proof. by intros []. Qed.
Lemma refreshes_signOut x t0 l i o s : refreshes x t0 l s → refreshes x t0 l (signOut i o s).
Proof. intros [Hs Ht]. split; [by left|]. by apply map_Forall_insert_2. Qed.

Lemma refreshes_page x t0 l now e s : no_sign_in x (now, e) → refreshes x t0 l s → refreshes x t0 l (page now e s).
Proof.
  intros Hq Hs. destruct e as [|i|a|i|i|i|n rnd|n m|n st|n|n answer]; cbn; try done.
  - by destruct Hs.
  - by apply refreshes_hook.
  - by destruct Hs.
  - case_match; [by apply refreshes_signOut|done].
  - case_match; [|done]. unfold refresh_start. destruct (hooks s !! i); [|done].
    case_match; [by apply refreshes_hook|]. apply refreshes_spawn; [|by do 2 apply refreshes_hook].
    change (store (with_hook ?f ?j s)) with (store s). cbn.
    destruct (ref_store _ _ _ _ Hs) as [->|[-> _]]; [by right|]. destruct x; [by right|by left].
  - unfold lost. destruct (tasks s !! n) as [[c []]|] eqn:Hn; try done;
      (apply refreshes_task; [|done]); pose proof (ref_tasks _ _ _ _ Hs n _ Hn); by destruct c.
  - unfold refused. destruct (tasks s !! n) as [[c []]|] eqn:Hn; try done. case_match eqn:Hst; [done|].
    apply refreshes_task; [|done]. pose proof (ref_tasks _ _ _ _ Hs n _ Hn). destruct c; try done.
    intros t. unfold refreshAccessToken, res_ok. cbn. by rewrite Hst.
  - unfold returned. destruct (tasks s !! n) as [[c []]|] eqn:Hn; try done.
    pose proof (ref_tasks _ _ _ _ Hs n _ Hn) as Ht. pose proof (refreshes_drop x t0 l n s Hs) as Hd.
    destruct c as [| | |i|[i|]]; try done; cbn [continue]; [|by apply refreshes_hook].
    unfold refresh_answered. destruct (truthy (refreshAccessToken r)) as [f|] eqn:Hf; [|by apply refreshes_signOut].
    destruct (truthy (accessToken (store (with_task n None s)))) as [t|] eqn:Hat; [|by apply refreshes_signOut].
    apply truthy_Some in Hf as [Hf _]. apply refreshes_hook. split; [|exact (ref_tasks _ _ _ _ Hd)].
    destruct (ref_store _ _ _ _ Hd) as [E|[E _]]; [by rewrite E in Hat|]. right. split; [done|].
    right. exists f. split; [by apply Ht|done].
  - unfold wallet_answers. destruct (tasks s !! n) as [[c fl]|] eqn:Hn; [|done].
    pose proof (ref_tasks _ _ _ _ Hs n _ Hn). by destruct c.
Qed.

Lemma refreshes_serve x t0 l now n rnd s σ :
  no_sign_in x (now, EvServe n rnd) → up σ → (is_Some l → spent now x σ) → refreshes x t0 l s →
  let w := handle (s, σ) (now, EvServe n rnd) in
  ∃ l', (l = None ∨ l' = l) ∧ refreshes x t0 l' w.1 ∧ up w.2 ∧ (is_Some l' → spent now x w.2).
Proof.
  intros Hq Hup Hsp Hs. cbn in Hq |- *. destruct (tasks s !! n) as [[c [q|r|m]]|] eqn:Hn; cbn; [|by exists l; auto..].
  pose proof (ref_tasks _ _ _ _ Hs n _ Hn) as Ht.
  pose proof (serve_up now rnd q σ Hup) as Hup'. pose proof (λ Hl, spent_kept now rnd q x σ Hup Hq (Hsp Hl)) as Hsp'.
  destruct (serve now rnd q σ) as [res σ'] eqn:Hsv. cbn in Hup', Hsp' |- *.
  assert (∀ l', (∀ t, refreshAccessToken (Ok res) = Some t → l' = Some t) → task_of x l' (c, Back (Ok res))) as Hback.
  { intros l' Hl'. by destruct c. }
  destruct (refreshAccessToken (Ok res)) as [t|] eqn:Hr.
  2:{ exists l. split; [by right|]. split; [apply refreshes_task; [by apply Hback|done]|done]. }
  destruct c as [| | |i|o]; try done.
  2:{ exists l. split; [by right|]. split; [by apply refreshes_task|done]. }
  destruct Ht as [->| ->].
  - destruct l as [t'|].
    + pose proof (spent_refused now rnd x σ Hup (Hsp (ex_intro _ _ eq_refl))) as Hno. rewrite Hsv in Hno. cbn [fst] in Hno. congruence.
    + exists (Some t). split; [by left|]. split; [|split; [done|]].
      * apply refreshes_task; [apply Hback; congruence|]. by apply refreshes_known.
      * intros _. pose proof (spent_after now rnd x σ Hup Hq) as Hsa. by rewrite Hsv in Hsa.
  - pose proof (refused_without now rnd σ) as Hno. rewrite Hsv in Hno. cbn [fst] in Hno. congruence.
Qed.

Lemma refreshes_handle x t0 l t o s σ :
  no_sign_in x o → good s → up σ → t ≤ o.1 → (is_Some l → spent t x σ) → refreshes x t0 l s →
  let w := handle (s, σ) o in
  ∃ l', (l = None ∨ l' = l) ∧ refreshes x t0 l' w.1 ∧ up w.2 ∧ (is_Some l' → spent o.1 x w.2).
Proof.
  intros Hq [_ Hg] Hup Hle Hsp Hs. destruct o as [now e]. cbn [fst] in Hle.
  assert (is_Some l → spent now x σ) as Hsp' by (intros Hl; by apply (spent_later t); [|apply Hsp]).
  assert (refreshes x t0 l (settle now (page now e s))) as Hp.
  { pose proof (sound_page now e s Hg) as Hp.
    destruct (settle_settled now _ (sound_whole _ Hp) (sound_renderable _ Hp) (sound_tasks _ Hp)) as (_ & _ & _ & Hst & _ & Hl & _).
    apply (refreshes_mono x t0 l (page now e s)); [done|done|]. by apply refreshes_page. }
  destruct e; try (by exists l; auto). by apply refreshes_serve.
Qed.

(** A session is refreshed once.  While nobody signs in anew, and the backend is up and rotates refresh tokens, the page
    shows at most two access tokens, the one the session was opened with and the answer of one refresh, at every
    moment of any run: the refresh keeps the refresh token it has used. *)
Theorem session_has_two_tokens x t0 t s σ evs :
  good s → refreshes x t0 None s → up σ → timed t evs → Forall (no_sign_in x) evs →
  ∃ t1, ∀ k, let a := accessToken (store (run (s, σ) (take k evs)).1) in a = None ∨ a = Some t0 ∨ a = Some t1.
Proof.
  intros Hg Hs Hup Htm Hq.
  assert (∀ l, (is_Some l → spent t x σ) → refreshes x t0 l s →
    ∃ l', (l = None ∨ l' = l) ∧ ∀ k, let a := accessToken (store (run (s, σ) (take k evs)).1) in
      a = None ∨ a = Some t0 ∨ a = l') as Hgen.
  2:{ destruct (Hgen None) as (l' & _ & Hk); [by intros []|done|]. exists (default t0 l'). intros k. cbn in Hk |- *.
      destruct l'; cbn; destruct (Hk k) as [?|[?|?]]; auto. }
  clear Hs. revert t s σ Hg Hup Htm. induction evs as [|o evs IH]; intros t s σ Hg Hup Htm l Hsp Hs.
  { exists l. split; [by right|]. intros k a. unfold a. rewrite take_nil. cbn.
    destruct (ref_store _ _ _ _ Hs) as [->|[_ [->|(t1 & -> & ->)]]]; auto. }
  destruct Htm as [Hle Htm]. apply Forall_cons in Hq as [Hqo Hq].
  destruct (refreshes_handle x t0 l t o s σ Hqo Hg Hup Hle Hsp Hs) as (l1 & Hl1 & Hs1 & Hup1 & Hsp1).
  pose proof (good_handle s σ o Hg) as Hg1. destruct (handle (s, σ) o) as [s1 σ1] eqn:Eh.
  destruct (IH Hq o.1 s1 σ1 Hg1 Hup1 Htm l1 Hsp1 Hs1) as (l2 & Hl2 & Hk).
  exists l2. split; [destruct Hl1 as [|E1], Hl2 as [E2|E2]; auto; [|right; congruence]; left; congruence|].
  intros [|k].
  - cbn. destruct (ref_store _ _ _ _ Hs) as [->|[_ [->|(t1 & E & ->)]]]; auto.
    right. right. destruct Hl1 as [|E1], Hl2 as [E2|E2]; congruence.
  - cbn [take]. unfold run. cbn [foldl]. rewrite Eh. apply Hk.
Qed.
End refreshed.
