(* ===== verification/SessionLogin.v ===== *)
(** * The web front end's session on the backend

    backend/src/auth/auth.controller.ts with the validation of its bodies
    (dto/challenge.dto.ts), as the backend the page of [Session] talks to.  The methods
    behind it are those of [Auth], on a Redis that may fail at any command. *)

From stdpp Require Import base gmap list strings.
From Stdlib Require Import ZArith Lia Ascii.
From S2P Require Import Prelude JsText JsNumber Codec Redis Auth AuthFacts SessionExpiry Session.

Open Scope string_scope.
Open Scope Z_scope.

Definition is_key_char (c : ascii) : bool := is_upper c || in_range "2" "7" c.
(** Models [STELLAR_KEY_REGEX] (backend/src/auth/dto/challenge.dto.ts:4-4). *)
Definition STELLAR_KEY_REGEX (s : string) : bool :=
  matches_classes ((λ c, bool_decide (c = "G"%char)) :: replicate 55 is_key_char) s.

(** The status of an exception's answer. *)
Definition error_status (e : AuthError) : Z :=
  match e with BadRequest _ => 400 | Unauthorized _ => 401 | Forbidden _ => 403 | Failure _ => 500 end.

Definition answer {A} (st : Z) (fields : A → result string (list (string * string))) (r : result AuthError A) : response :=
  match r with Ok a => Response st (fields a) | Throw e => Response (error_status e) (Ok []) end.

Definition session_fields (s : Auth.Session) : result string (list (string * string)) :=
  Ok [("token", token s); ("expiresAt", Auth.expiresAt s); ("refreshToken", Auth.refreshToken s)].

Section controller.
Context {R : Type} `{RedisStringLaws stored R}.
Context (isValidEd25519PublicKey isValidContract : string → bool).
Context (muxedBase : string → result string string).
Context (keypair_verify : string → string → string → result string bool).
Context (hash : string → string) (sign : Claims → JwtKey → string).
Context (cfg : AuthConfig).

Abbreviation canonical := (canonical_key isValidEd25519PublicKey isValidContract muxedBase).

Definition answered {A} (st : Z) (fields : A → result string (list (string * string)))
    (m : M (rworld R) AuthError A) (w : rworld R) : response * rworld R :=
  let '(r, w') := m w in (answer st fields r, w').

(** Models [nonce] (backend/src/auth/auth.controller.ts:36-47). *)
Definition nonce (now : Z) (rnd a : string) (w : rworld R) : response * rworld R :=
  if STELLAR_KEY_REGEX a then
    answered 200 (λ c : string * string * string, let '(n, message, e) := c in Ok [("nonce", n); ("message", message); ("expiresAt", e)])
      (generateChallenge isValidEd25519PublicKey isValidContract muxedBase cfg now rnd a) w
  else (Response 400 (Ok []), w).

(** The body has a union type, which is not validated.
    Models [verify] (backend/src/auth/auth.controller.ts:71-83). *)
Definition verify (now : Z) (rnd a n signature : string) : rworld R → response * rworld R :=
  answered 200 session_fields
    (Auth.verifyChallenge isValidEd25519PublicKey isValidContract muxedBase keypair_verify hash sign cfg now rnd a n signature).

(** The body must hold a text; no cookie is read.
    Models [AuthController.refresh] (backend/src/auth/auth.controller.ts:90-98). *)
Definition refresh_route (now : Z) (rnd : string) (x : option string) (w : rworld R) : response * rworld R :=
  match x with
  | None => (Response 400 (Ok []), w)
  | Some x => answered 200 session_fields (refresh hash sign cfg now rnd x) w
  end.

(** Models [AuthController.logout] (backend/src/auth/auth.controller.ts:104-111). *)
Definition logout_route (x : string) : rworld R → response * rworld R :=
  answered 204 (λ _, Throw "Unexpected end of JSON input") (logout hash x).

Definition backend : AuthServer (rworld R) := λ now rnd q,
  match q with
  | ReqNonce a => nonce now rnd a
  | ReqVerify a n signature => verify now rnd a n signature
  | ReqRefresh x => refresh_route now rnd x
  | ReqLogout x => logout_route x
  end.

Lemma answered_world {A} st fields (m : M (rworld R) AuthError A) w : (answered st fields m w).2 = world_of m w.
Proof. unfold answered, world_of. by destruct (m w). Qed.

Lemma answered_ok {A} st fields (m : M (rworld R) AuthError A) w r w' : m w = (r, w') → (answered st fields m w).1 = answer st fields r.
Proof. unfold answered. by intros ->. Qed.

(** ** What the requests keep *)
Section frame.
Context (now : Z) (rnd : string) (Q : R → Prop) (I : string → Prop).
Hypothesis Q_del : ∀ k r, Q r → Q (r_del k r).
Hypothesis Q_nonce : ∀ n v ttl r, Q r → Q (r_setex now (nonce_key n) v ttl r).
Hypothesis Q_rotate : ∀ x k r, Q r → r_get now (refresh_key hash x) r = Some (SRefresh k false) →
  Q (r_setex now (refresh_key hash x) (SRefresh k true) 60 r).
Hypothesis Q_issue : ∀ k ttl r, I k → Q r → Q (r_setex now (refresh_key hash rnd) (SRefresh k false) ttl r).

Definition framed (w w' : rworld R) : Prop := Q (rstate w) → Q (rstate w').
#[local] Instance framed_preorder : PreOrder framed.
Proof. split; [by intros w Hq|]. intros a b c Hab Hbc Ha. by apply Hbc, Hab. Qed.

Lemma framed_get t k : keeps framed (redis_get t k : M (rworld R) AuthError (option stored)).
Proof. by intros [r [|[] fs]] Hq. Qed.
Lemma framed_del k : keeps framed (redis_del (V:=stored) k : M (rworld R) AuthError ()).
Proof.
  intros [r [|[] fs]] Hq; unfold world_of, redis_del, try_catch, update, cmd; simpl in *; try done; by apply Q_del.
Qed.
Lemma framed_query {A} (f : R → A) : keeps framed (raw_cmd (query f)).
Proof. by intros [r [|[] fs]] Hq. Qed.
Lemma framed_set k v ttl : (∀ r, Q r → Q (r_setex now k v ttl r)) → keeps framed (redis_set now k v ttl : M (rworld R) AuthError ()).
Proof.
  intros Hs [r [|[] fs]] Hq; unfold world_of, redis_set, try_catch, update, cmd; simpl in *; try done; by apply Hs.
Qed.
Lemma framed_lift {A} (x : result AuthError A) : keeps framed (lift_result (R:=R) x).
Proof. by intros w Hq. Qed.

Ltac frame_walk :=
  repeat first [progress keeps_walk | apply framed_get | apply framed_del | apply framed_query | apply framed_lift].

Lemma framed_challenge n a : keeps framed (generateChallenge isValidEd25519PublicKey isValidContract muxedBase cfg now n a).
Proof. unfold generateChallenge, store_nonce. frame_walk. apply framed_set. intros r. apply Q_nonce. Qed.

Lemma framed_session k : I k → keeps framed (open_session hash sign cfg now rnd k).
Proof. intros Hi. unfold open_session, issue. frame_walk. apply framed_set. intros r. by apply Q_issue. Qed.

Lemma framed_verify a n signature : (∀ k, canonical a = Ok k → I k) →
  keeps framed (Auth.verifyChallenge isValidEd25519PublicKey isValidContract muxedBase keypair_verify hash sign cfg now rnd a n signature).
Proof.
  intros Hi w. unfold Auth.verifyChallenge. destruct (canonical a) as [k|e] eqn:Hk; [|by intros Hq].
  specialize (Hi k eq_refl). revert w. change (keeps framed (
    let* stored := consume_nonce now n in
    match stored with
    | None => throw (Unauthorized "NONCE_EXPIRED_OR_USED")
    | Some (SChallenge key message) =>
        if bool_decide (key = k) then
          match verifyEd25519 keypair_verify k message signature with
          | Throw _ => throw (Unauthorized "INVALID_SIGNATURE")
          | Ok _ => open_session hash sign cfg now rnd k
          end
        else throw (Unauthorized "KEY_MISMATCH")
    | Some _ => throw (Unauthorized "KEY_MISMATCH")
    end)).
  unfold consume_nonce. frame_walk. by apply framed_session.
Qed.

Lemma framed_revokeAll k : keeps framed (revokeAllForWallet now k).
Proof. unfold revokeAllForWallet, revoke_key. frame_walk. Qed.

Lemma framed_refresh x : (∀ r k, Q r → r_get now (refresh_key hash x) r = Some (SRefresh k false) → I k) →
  keeps framed (refresh hash sign cfg now rnd x).
Proof.
  intros Hi w Hq. unfold world_of, refresh, consume_refresh, bind.
  destruct (redis_get_cases (V:=stored) (E:=AuthError) now (refresh_key hash x) w) as (v & w1 & -> & Ew & Hv).
  destruct v as [[| k [] |]|]; try (cbn; by rewrite Ew).
  - pose proof (framed_revokeAll k w1) as Hr. unfold world_of in Hr. rewrite <-Ew in Hq.
    destruct (revokeAllForWallet now k w1) as [[]w2]; by apply Hr.
  - destruct Hv as [|Hv]; [done|]. symmetry in Hv.
    assert (keeps framed (open_session hash sign cfg now rnd k)) as Ho by (apply framed_session; by apply (Hi (rstate w))).
    destruct (redis_set_cases (E:=AuthError) now (refresh_key hash x) (SRefresh k true) 60 w1) as (w2 & -> & Ew2).
    apply (Ho w2). rewrite Ew in Ew2. destruct Ew2 as [->| ->]; [done|]. by apply Q_rotate.
Qed.

(** A property of the store is kept by a request. *)
Lemma backend_frame q w :
  match q with
  | ReqVerify a _ _ => ∀ k, canonical a = Ok k → I k
  | ReqRefresh (Some x) => ∀ r k, Q r → r_get now (refresh_key hash x) r = Some (SRefresh k false) → I k
  | _ => True
  end → Q (rstate w) → Q (rstate (backend now rnd q w).2).
Proof.
  intros Hi Hq. destruct q as [a|a n signature|[x|]|x]; cbn [backend].
  - unfold nonce. destruct (STELLAR_KEY_REGEX a); [|done]. rewrite answered_world. by apply framed_challenge.
  - unfold verify. rewrite answered_world. by apply framed_verify.
  - unfold refresh_route. rewrite answered_world. by apply framed_refresh.
  - done.
  - unfold logout_route. rewrite answered_world. revert Hq. change (framed w (world_of (logout hash x) w)). revert w.
    change (keeps framed (logout hash x)). unfold logout, revoke. frame_walk.
Qed.
End frame.
End controller.

(** ** The promises to the page *)
Section promises.
Context {R : Type} `{RedisStringLaws stored R}.
Context (isValidEd25519PublicKey isValidContract : string → bool).
Context (muxedBase : string → result string string).
Context (keypair_verify : string → string → string → result string bool).
Context (hash : string → string) (sign : Claims → JwtKey → string).
Context (cfg : AuthConfig).
(** An access token tells its subject. *)
Context (subject : string → string) (subject_sign : ∀ c k, subject (sign c k) = sub c).
(** The account for which the refresh token of a digest was drawn. *)
Context (digest_owner : string → string).

Abbreviation canonical := (canonical_key isValidEd25519PublicKey isValidContract muxedBase).
Abbreviation server := (backend isValidEd25519PublicKey isValidContract muxedBase keypair_verify hash sign cfg).
#[local] Existing Instance backend.

(** The account of an address. *)
Definition account (a : string) : string := match canonical a with Ok k => k | Throw _ => a end.
Definition owner (x : string) : string := digest_owner (hash x).

(** Every refresh token is stored for the account it was drawn for. *)
Definition tidy_store (t : Z) (r : R) : Prop :=
  ∀ t' d k rot, t ≤ t' → r_get t' (PREFIX +:+ d) r = Some (SRefresh k rot) → digest_owner d = k.
Definition tidy (t : Z) (w : rworld R) : Prop := tidy_store t (rstate w).

Lemma refresh_ne_nonce d n : PREFIX +:+ d ≠ nonce_key n.
Proof. unfold nonce_key, PREFIX. by apply prefixes_differ. Qed.

Lemma tidy_set t x v ttl r :
  tidy_store t r → (∀ k rot, v = SRefresh k rot → owner x = k) → tidy_store t (r_setex t (refresh_key hash x) v ttl r).
Proof.
  intros Ht Hv t' d k rot Hle Hg. destruct (decide (d = hash x)) as [->|Hne].
  - unfold refresh_key in Hg. rewrite get_setex in Hg by done. case_decide; [|done]. simplify_eq. by apply (Hv k rot).
  - rewrite get_setex_ne in Hg; [by apply (Ht t' d k rot)|]. unfold refresh_key. intros E. apply str_app_inj_l in E. congruence.
Qed.

Lemma tidy_frame now rnd q w : tidy now w →
  match q with ReqVerify a _ _ => owner rnd = account a | ReqRefresh (Some x) => owner rnd = owner x | _ => True end →
  tidy now (server now rnd q w).2.
Proof.
  intros Ht Hd. apply (backend_frame _ _ _ _ hash sign cfg now rnd (tidy_store now) (λ k, owner rnd = k)); [| | | | |done].
  - intros k r Hr t' d w' rot Hle Hg. destruct (decide (k = PREFIX +:+ d)) as [->|Hne]; [by rewrite get_del in Hg|].
    rewrite get_del_ne in Hg by done. by apply (Hr t' d w' rot).
  - intros n v ttl r Hr t' d w' rot Hle Hg. rewrite get_setex_ne in Hg by (intros E; by apply (refresh_ne_nonce d n)).
    by apply (Hr t' d w' rot).
  - intros x k r Hr Hg. apply tidy_set; [done|]. intros k' rot [= <- _]. exact (Hr now (hash x) k false (Z.le_refl _) Hg).
  - intros k ttl r Hk Hr. apply tidy_set; [done|]. by intros k' rot [= <- _].
  - destruct q as [a|a n g|[x|]|x]; try done.
    + intros k Hk. rewrite Hd. unfold account. by rewrite Hk.
    + intros r k Hr Hg. rewrite Hd. exact (Hr now (hash x) k false (Z.le_refl _) Hg).
Qed.

(** A session's tokens. *)
Lemma open_session_tokens now rnd k w :
  ∃ e w', open_session hash sign cfg now rnd k w =
    (Ok {| token := sign (user_claims k (now / 1000)) (currentKey (keys cfg)); Auth.expiresAt := e; Auth.refreshToken := rnd |}, w').
Proof.
  unfold open_session, issue, bind.
  destruct (redis_set_cases (E:=AuthError) now (refresh_key hash rnd) (SRefresh k false) (refresh_ttl cfg) w) as (w1 & -> & _).
  by eexists _, _.
Qed.

Lemma verify_tokens now rnd a n g w s w' :
  Auth.verifyChallenge isValidEd25519PublicKey isValidContract muxedBase keypair_verify hash sign cfg now rnd a n g w = (Ok s, w') →
  ∃ k, canonical a = Ok k ∧ subject (token s) = k ∧ Auth.refreshToken s = rnd.
Proof.
  intros Hrun. apply bind_ok_inv in Hrun as (k & w1 & Hk & Hrun). unfold lift_result in Hk. apply pair_eq in Hk as [Hk ->].
  apply bind_ok_inv in Hrun as (st & w2 & _ & Hrun). exists k. split; [done|].
  destruct st as [[key msg| |]|]; try (unfold throw in Hrun; simplify_eq).
  case_bool_decide; [|unfold throw in Hrun; simplify_eq].
  destruct (verifyEd25519 keypair_verify k msg g); [|unfold throw in Hrun; simplify_eq].
  destruct (open_session_tokens now rnd k w2) as (e & w3 & Ho). rewrite Ho in Hrun. simplify_eq. cbn [token Auth.refreshToken]. by rewrite subject_sign.
Qed.

Lemma refresh_tokens_of now rnd x w s w' : tidy now w → refresh hash sign cfg now rnd x w = (Ok s, w') → subject (token s) = owner x.
Proof.
  intros Ht Hrun. apply bind_ok_inv in Hrun as (k & w1 & Hc & Hrun).
  destruct (open_session_tokens now rnd k w1) as (e & w3 & Ho). rewrite Ho in Hrun. simplify_eq. cbn. rewrite subject_sign. cbn.
  apply bind_ok_inv in Hc as (v & w2 & Hget & Hc).
  destruct (redis_get_cases (V:=stored) (E:=AuthError) now (refresh_key hash x) w) as (v' & w2' & Hget' & _ & Hv).
  rewrite Hget' in Hget. simplify_eq. destruct v as [[|k' [] |]|]; try (unfold throw in Hc; simplify_eq).
  - apply bind_ok_inv in Hc as (? & ? & _ & Hc). unfold throw in Hc. simplify_eq.
  - apply bind_ok_inv in Hc as (? & ? & _ & Hc). unfold ret in Hc. simplify_eq.
    destruct Hv as [|Hv]; [done|]. symmetry in Hv. symmetry. exact (Ht now (hash x) k false (Z.le_refl _) Hv).
Qed.

Lemma session_data st s t x :
  Session.verifyChallenge (Ok (Response st (session_fields s))) = Ok (t, x) → t = token s ∧ (∀ y, x = Some y → y = Auth.refreshToken s).
Proof.
  unfold Session.verifyChallenge, fetched, toJson. destruct (negb _); [done|]. cbn. intros E. simplify_eq. split; [done|].
  intros y Hy. by destruct (Auth.refreshToken s); simplify_eq.
Qed.

Lemma refused_data e : refreshAccessToken (Ok (Response (error_status e) (Ok []))) = None.
Proof. by destruct e. Qed.

Lemma refused_verify e t x : Session.verifyChallenge (Ok (Response (error_status e) (Ok []))) ≠ Ok (t, x).
Proof. by destruct e. Qed.

(** The backend keeps the promises of [AuthServerLaws], whatever Redis commands fail. *)
Lemma backend_laws : @AuthServerLaws (rworld R) server account subject owner tidy.
Proof.
  split.
  - intros t t' w Hle Ht t2 d k rot Hle2. apply Ht. lia.
  - intros now rnd q w Ht Hd. by apply tidy_frame.
  - intros now rnd a n g w t x Ht Hd. change (serve now rnd (ReqVerify a n g) w) with (server now rnd (ReqVerify a n g) w). cbn [backend].
    unfold verify, answered.
    destruct (Auth.verifyChallenge _ _ _ _ _ _ _ _ _ _ _ _ w) as [[s|e] w'] eqn:Hrun; cbn [fst answer].
    + intros Hs. apply session_data in Hs as [-> Hx]. apply verify_tokens in Hrun as (k & Hk & Hsub & Hr).
      unfold account in *. rewrite Hk in Hd |- *. split; [done|]. intros y Hy. rewrite (Hx y Hy), Hr. exact Hd.
    + intros Hs. by apply refused_verify in Hs.
  - intros now rnd x w t Ht Hd. change (serve now rnd (ReqRefresh (Some x)) w) with (server now rnd (ReqRefresh (Some x)) w). cbn [backend].
    unfold refresh_route, answered. destruct (refresh _ _ _ _ _ _ w) as [[s|e] w'] eqn:Hrun; cbn [fst answer].
    + change (refreshAccessToken _) with (Some (token s)). intros [= <-]. by apply (refresh_tokens_of now rnd x w s w').
    + by rewrite refused_data.
  - done.
Qed.

(** ** Rotation *)

Definition up (w : rworld R) : Prop := faults w = [].
(** The token is not valid any more. *)
Definition spent_store (t : Z) (x : string) (r : R) : Prop :=
  ∀ t' k, t ≤ t' → r_get t' (refresh_key hash x) r ≠ Some (SRefresh k false).
Definition spent (t : Z) (x : string) (w : rworld R) : Prop := spent_store t x (rstate w).
(** The digest of what is drawn is another one. *)
Definition drawn_apart (rnd x : string) : Prop := hash rnd ≠ hash x.

Lemma spent_del t x k r : spent_store t x r → spent_store t x (r_del k r).
Proof.
  intros Hs t' w Hle. destruct (decide (k = refresh_key hash x)) as [->|Hne]; [by rewrite get_del|]. rewrite get_del_ne by done. by apply Hs.
Qed.
Lemma spent_rotate t x y k r : spent_store t x r → spent_store t x (r_setex t (refresh_key hash y) (SRefresh k true) 60 r).
Proof.
  intros Hs t' w Hle. destruct (decide (refresh_key hash y = refresh_key hash x)) as [->|Hne].
  - rewrite get_setex by done. by case_decide.
  - rewrite get_setex_ne by done. by apply Hs.
Qed.
Lemma spent_other t x k v ttl r : k ≠ refresh_key hash x → spent_store t x r → spent_store t x (r_setex t k v ttl r).
Proof. intros Hne Hs t' w Hle. rewrite get_setex_ne by done. by apply Hs. Qed.
Lemma spent_issue t x rnd k ttl r : drawn_apart rnd x → spent_store t x r →
  spent_store t x (r_setex t (refresh_key hash rnd) (SRefresh k false) ttl r).
Proof. intros Hd. apply spent_other. unfold refresh_key. intros E. by apply str_app_inj_l in E. Qed.

Lemma spent_frame now rnd q x w : drawn_apart rnd x → spent now x w → spent now x (server now rnd q w).2.
Proof.
  intros Hd Hs. apply (backend_frame _ _ _ _ hash sign cfg now rnd (spent_store now x) (λ _, True)); [| | | | |done].
  - intros k r. apply spent_del.
  - intros n v ttl r. apply spent_other. intros E. symmetry in E. by apply nonce_ne_refresh in E.
  - intros y k r Hr _. by apply spent_rotate.
  - intros k ttl r _. by apply spent_issue.
  - by destruct q as [| |[]|].
Qed.

(** A command on a server that is up leaves it up. *)
Definition stays_up (w w' : rworld R) : Prop := up w → up w'.
#[local] Instance stays_up_preorder : PreOrder stays_up.
Proof. split; [by intros w Hq|]. intros a b c Hab Hbc Ha. by apply Hbc, Hab. Qed.

Lemma up_cmd {A} (f : R → A * R) : keeps stays_up (cmd f : M (rworld R) string A).
Proof. intros [r fs] Hu. unfold up in Hu. cbn in Hu. subst fs. unfold world_of, cmd. cbn. by destruct (f r). Qed.
Lemma up_lift {A} (x : result AuthError A) : keeps stays_up (lift_result (R:=R) x).
Proof. by intros w Hq. Qed.

Ltac up_walk :=
  repeat first [progress keeps_walk | apply up_lift | apply up_cmd ].

Lemma backend_up now rnd q w : up w → up (server now rnd q w).2.
Proof.
  destruct q as [a|a n g|[x|]|x]; cbn [backend].
  - unfold nonce. destruct (STELLAR_KEY_REGEX a); [|done]. rewrite answered_world. revert w.
    change (keeps stays_up (generateChallenge isValidEd25519PublicKey isValidContract muxedBase cfg now rnd a)).
    unfold generateChallenge, store_nonce, redis_set, update. up_walk.
  - unfold verify. rewrite answered_world. revert w.
    change (keeps stays_up (Auth.verifyChallenge isValidEd25519PublicKey isValidContract muxedBase keypair_verify hash sign cfg now rnd a n g)).
    unfold Auth.verifyChallenge, consume_nonce, open_session, issue, redis_get, redis_set, redis_del, update, query. up_walk.
  - unfold refresh_route. rewrite answered_world. revert w. change (keeps stays_up (refresh hash sign cfg now rnd x)).
    unfold refresh, consume_refresh, revokeAllForWallet, revoke_key, open_session, issue, raw_cmd, redis_get, redis_set, redis_del, update, query.
    up_walk.
  - done.
  - unfold logout_route. rewrite answered_world. revert w. change (keeps stays_up (logout hash x)).
    unfold logout, revoke, redis_del, update. up_walk.
Qed.

(** What a request to refresh reads. *)
Lemma refresh_runs now rnd x w : up w →
  match r_get now (refresh_key hash x) (rstate w) with
  | Some (SRefresh k false) => world_of (refresh hash sign cfg now rnd x) w =
      world_of (open_session hash sign cfg now rnd k) (healthy (r_setex now (refresh_key hash x) (SRefresh k true) 60 (rstate w)))
  | Some (SRefresh k true) => refresh hash sign cfg now rnd x w =
      (Throw (Unauthorized "Refresh token reuse detected — session revoked"), world_of (revokeAllForWallet now k) w)
  | _ => refresh hash sign cfg now rnd x w = (Throw (Unauthorized "Invalid or expired refresh token"), w)
  end.
Proof.
  intros Hu. destruct w as [r fs]. unfold up in Hu. cbn in Hu. subst fs. change (RWorld r []) with (healthy r). cbn [rstate healthy].
  assert (redis_get (E:=AuthError) now (refresh_key hash x) (healthy r) = (Ok (r_get now (refresh_key hash x) r), healthy r)) as Hget
    by (unfold redis_get, try_catch; by rewrite query_healthy).
  unfold world_of, refresh, consume_refresh, bind. rewrite Hget.
  destruct (r_get now (refresh_key hash x) r) as [[m p|k []|]|]; try done.
  destruct (revokeAll_healthy now k r) as (r' & -> & _). done.
Qed.

(** The backend rotates refresh tokens while Redis answers. *)
Lemma backend_rotates : @AuthServerRotates (rworld R) server up drawn_apart spent.
Proof.
  split.
  - intros t t' x w Hle Hs t2 k Hle2. apply Hs. lia.
  - intros now rnd q w. apply backend_up.
  - intros now rnd x w Hu Hd. change (spent now x (server now rnd (ReqRefresh (Some x)) w).2). cbn [backend]. unfold refresh_route.
    rewrite answered_world. pose proof (refresh_runs now rnd x w Hu) as Hrun.
    assert (spent now x w → spent now x (world_of (refresh hash sign cfg now rnd x) w)) as Hkeep.
    { intros Hs. pose proof (spent_frame now rnd (ReqRefresh (Some x)) x w Hd Hs) as Hf. cbn [backend] in Hf. unfold refresh_route in Hf.
      by rewrite answered_world in Hf. }
    assert (∀ v, r_get now (refresh_key hash x) (rstate w) = v → (∀ k, v ≠ Some (SRefresh k false)) → spent now x w) as Hold.
    { intros v Hv Hne t' k Hle Hg. pose proof (get_stable _ _ _ _ _ Hle Hg) as Hg'. apply (Hne k). congruence. }
    destruct (r_get now (refresh_key hash x) (rstate w)) as [[m p|k []|]|] eqn:Hg; try (apply Hkeep, (Hold _ eq_refl); by intros).
    rewrite Hrun. unfold spent. set (r2 := r_setex now (refresh_key hash x) (SRefresh k true) 60 (rstate w)).
    assert (spent_store now x r2) as H2.
    { intros t' k' Hle. unfold r2. rewrite get_setex by done. by case_decide. }
    refine (framed_session hash sign cfg now rnd (spent_store now x) (λ _, True) _ k I (healthy r2) H2).
    intros k' ttl r _. by apply spent_issue.
  - intros now rnd q x w _ Hd. by apply spent_frame.
  - intros now rnd x w Hu Hs. change (serve now rnd (ReqRefresh (Some x)) w) with (server now rnd (ReqRefresh (Some x)) w). cbn [backend].
    unfold refresh_route. pose proof (refresh_runs now rnd x w Hu) as Hrun. specialize (Hs now).
    destruct (r_get now (refresh_key hash x) (rstate w)) as [[m p|k []|]|] eqn:Hg.
    3: by destruct (Hs k (Z.le_refl _) eq_refl).
    all: rewrite (answered_ok _ _ _ _ _ _ Hrun); apply refused_data.
  - done.
Qed.
End promises.

(** ** Runs *)
Module SessionRuns.
Import Sample.
#[local] Open Scope list_scope.

Definition valid (s : string) : bool := startsWith s "G".
Definition contract (_ : string) : bool := false.
Definition muxed (_ : string) : result string string := Throw "not muxed".
(** A toy scheme: the signature is the message itself. *)
Definition check (_ m s : string) : result string bool := Ok (bool_decide (m = s)).
Definition digest (s : string) : string := s.
(** A JWT whose signature part is the subject. *)
Definition sign0 (c : Claims) (k : JwtKey) : string := jwt "h" (exp_text (exp_ c)) (sub c).
Definition subject0 (t : string) : string :=
  match cut "."%char t with
  | Some (_, r) => match cut "."%char r with Some (_, g) => g | None => "" end
  | None => ""
  end.
Definition cfg0 : AuthConfig := {| domain := "niffyinsure.local"; nonce_ttl := 300; refresh_ttl := 604800;
  keys := mk_keys (Some "s3cret") None None None |}.

Definition A : string := "GAAAAAAAAAAAAAAAAAAAAAAAAAAAAAAAAAAAAAAAAAAAAAAAAAAAAAAA".
Definition B : string := "GBBBBBBBBBBBBBBBBBBBBBBBBBBBBBBBBBBBBBBBBBBBBBBBBBBBBBBB".
(** The refresh tokens of [A] are r1, r2 and r3. *)
Definition drawn_for (d : string) : string := if bool_decide (d ∈ ["r1"; "r2"; "r3"]) then A else B.

#[local] Instance server0 : AuthServer (rworld (strings stored)) := backend valid contract muxed check digest sign0 cfg0.

Lemma subject_sign0 c k : subject0 (sign0 c k) = sub c.
Proof.
  unfold subject0, sign0, jwt. change ("." +:+ ?x) with (String "." x). rewrite cut_app by done.
  change ("." +:+ sub c) with (String "." (sub c)). by rewrite cut_app by apply url64_dotless.
Qed.

#[local] Instance laws0 : AuthServerLaws (rworld (strings stored)) (account valid contract muxed) subject0 (owner digest drawn_for) (tidy drawn_for).
Proof. apply backend_laws, subject_sign0. Qed.
#[local] Instance rotates0 : AuthServerRotates (rworld (strings stored)) up (drawn_apart digest) (spent digest).
Proof. apply backend_rotates. Qed.

(** Signing in by component 0 at time [t], from task [n] on. *)
Definition signs_in (t : Z) (n : nat) (a rnd raw : string) : list (Z * event) :=
  [(t, EvSignIn 0); (t, EvServe n rnd); (t, EvReturn n);
   (t, EvWalletAnswers (S n) (Ok (Some (buildMessage cfg0 a rnd (toISOString t) (toISOString (t + 300000))))));
   (t, EvServe (S (S n)) raw); (t, EvReturn (S (S n)))].
(** The timer of component [i] is due, and the backend answers task [n]. *)
Definition refreshes_at (t : Z) (i n : nat) (raw : string) : list (Z * event) := [(t, EvTimer i); (t, EvServe n raw); (t, EvReturn n)].

Definition opened : list (Z * event) := [(1000, EvMount); (1000, EvWallet (Some A))] ++ signs_in 1000 0 A "n1" "r1".
Definition w0 : App * rworld (strings stored) := (start, healthy []).
Definition store_after (evs : list (Z * event)) : SessionSnapshot := store (run w0 evs).1.
Definition user_token (a : string) (now : Z) : string := sign0 (user_claims a now) (currentKey (keys cfg0)).

(** The sign-in succeeds. *)
Example opens : store_after opened = Snapshot (Some (user_token A 1)) (Some "r1") (Some A).
Proof. vm_compute. reflexivity. Qed.

(** Thirty seconds before the token expires it is refreshed; the second refresh presents the refresh token that was
    rotated away, and signs out. *)
Example second_refresh_signs_out :
  store_after (opened ++ refreshes_at 871000 0 3 "r2") = Snapshot (Some (user_token A 871)) (Some "r1") (Some A) ∧
  store_after (opened ++ refreshes_at 871000 0 3 "r2" ++ refreshes_at 1741000 0 4 "r3") = EMPTY.
Proof. vm_compute. by split. Qed.

(** With two components mounted, both refresh: the first refresh signs out. *)
Example two_components_sign_out :
  let evs := [(1000, EvMount); (1000, EvMount); (1000, EvWallet (Some A))] ++ signs_in 1000 0 A "n1" "r1" in
  store_after evs = Snapshot (Some (user_token A 1)) (Some "r1") (Some A) ∧
  store_after (evs ++ [(871000, EvTimer 0); (871000, EvTimer 1); (871100, EvServe 3 "r2"); (871100, EvServe 4 "r3");
                       (871200, EvReturn 3); (871200, EvReturn 4)]) = EMPTY.
Proof. vm_compute. by split. Qed.

(** A refresh that is answered after the account has changed, and the other account has signed in, puts the token
    of the old account into the session of the new one. *)
Example stale_refresh_crosses_accounts :
  let st := store_after (opened ++ [(871000, EvTimer 0); (871100, EvServe 3 "r2"); (871200, EvWallet (Some B))] ++
                         signs_in 872000 5 B "n2" "b1" ++ [(873000, EvReturn 3)]) in
  address st = Some B ∧ accessToken st = Some (user_token A 871) ∧ subject0 (user_token A 871) = A.
Proof. vm_compute. by split_and!. Qed.

(** A failed sign-in drops the session without flushing the cache: after the account changes, the cache still
    holds what was loaded for the old account. *)
Example failed_sign_in_keeps_cache :
  let s := (run w0 (opened ++ [(2000, EvSignIn 0); (2000, EvLost 3 "Failed to fetch"); (2000, EvReturn 3); (3000, EvWallet (Some B))])).1 in
  store s = EMPTY ∧ cleared s = 0%nat ∧ error <$> hooks s !! 0%nat = Some (Some "Failed to fetch").
Proof. vm_compute. by split_and!. Qed.

Lemma session_follows_wallet_witness :
  address (store_after opened) = wallet (run w0 opened).1 ∧ is_Some (wallet (run w0 opened).1).
Proof.
  destruct (hooks (run w0 opened).1 !! 0%nat) as [h|] eqn:Hh; [|vm_compute in Hh; discriminate Hh].
  assert (mounted h = true) as Hm by (vm_compute in Hh; injection Hh as <-; reflexivity).
  assert (session_status h (store_after opened) = authenticated) as Ha by (vm_compute in Hh; injection Hh as <-; vm_compute; reflexivity).
  destruct (session_follows_wallet (healthy []) opened 0 h Hh Hm) as [_ Hs]. exact (Hs Ha).
Defined.

Lemma account_change_signs_out_witness :
  let s' := (handle (run w0 opened) (2000, EvWallet (Some B))).1 in
  store s' = EMPTY ∧ (0 < cleared s')%nat ∧ ∃ n, tasks s' !! n = Some (TLogout None, Sent (ReqLogout "r1")).
Proof.
  destruct (hooks (run w0 opened).1 !! 0%nat) as [h|] eqn:Hh; [|vm_compute in Hh; discriminate Hh].
  assert (mounted h = true) as Hm by (vm_compute in Hh; injection Hh as <-; reflexivity).
  pose proof (account_change_signs_out 2000 (run w0 opened).1 (run w0 opened).2 0 h A (Some B)
    (good_run start (healthy []) opened good_start) Hh Hm ltac:(vm_compute; reflexivity) ltac:(discriminate)) as H.
  replace (default "" (refreshToken (store (run w0 opened).1))) with "r1" in H by (vm_compute; reflexivity).
  replace (cleared (run w0 opened).1) with 0%nat in H by (vm_compute; reflexivity).
  rewrite <-surjective_pairing in H. exact H.
Defined.

Lemma token_belongs_to_address_witness :
  let st := store_after (opened ++ refreshes_at 871000 0 3 "r2") in
  (∃ t, accessToken st = Some t ∧ subject0 t = A) ∧ ∀ x, refreshToken st = Some x → drawn_for x = A.
Proof.
  assert (tidy drawn_for 0 (healthy (R:=strings stored) [])) as Ht by (intros t d k rot _ Hg; discriminate Hg).
  pose proof (token_belongs_to_address (account := account valid contract muxed) (subject := subject0) (owner := owner digest drawn_for)
    0 (healthy []) (opened ++ refreshes_at 871000 0 3 "r2") A Ht
    ltac:(vm_compute; repeat split; discriminate) ltac:(apply (bool_decide_unpack _); vm_compute; exact I) ltac:(vm_compute; reflexivity)) as H.
  replace (account valid contract muxed A) with A in H by (vm_compute; reflexivity). exact H.
Defined.

Lemma session_has_two_tokens_witness :
  ∃ t1, ∀ k, let a := accessToken (store (run (run w0 opened) (take k (refreshes_at 871000 0 3 "r2" ++ refreshes_at 1741000 0 4 "r3"))).1) in
    a = None ∨ a = Some (user_token A 1) ∨ a = Some t1.
Proof.
  pose proof (session_has_two_tokens (Srv := rworld (strings stored)) "r1" (user_token A 1) 1000 (run w0 opened).1 (run w0 opened).2
    (refreshes_at 871000 0 3 "r2" ++ refreshes_at 1741000 0 4 "r3")
    (good_run start (healthy []) opened good_start)) as H.
  rewrite <-surjective_pairing in H. apply H.
  - split; [right; vm_compute; split; [reflexivity|left; reflexivity]|].
    replace (tasks (run w0 opened).1) with (∅ : gmap nat (cont * flight)) by (vm_compute; reflexivity). apply map_Forall_empty.
  - vm_compute; reflexivity.
  - vm_compute; repeat split; discriminate.
  - repeat constructor; intros E; discriminate E.
Defined.
End SessionRuns.
