(* ===== verification/Redaction.v ===== *)
(** * What logs may say

    The redaction of backend/src/common/logger/app-logger.service.ts: texts, fields,
    headers and bodies; and the sanitizer of the browser's log shipper in
    frontend/src/lib/log-shipper.ts.  Each regular expression of the code is a scanner
    that does what the expression matches. *)

From stdpp Require Import base list strings.
From Stdlib Require Import ZArith Lia Ascii.
From S2P Require Import Prelude JsText.

Open Scope string_scope.
Open Scope Z_scope.

(** ** Scanners *)

Definition is_alnum (c : ascii) : bool := is_upper c || is_lower c || is_digit c.
(** [\w] *)
Definition is_word (c : ascii) : bool := is_alnum c || bool_decide (c = "_"%char).
(** [A-Z0-9] *)
Definition is_key_char (c : ascii) : bool := is_upper c || is_digit c.
(** [A-Z0-9_] *)
Definition is_name_char (c : ascii) : bool := is_key_char c || bool_decide (c = "_"%char).
(** [A-Za-z0-9\-._~+/] *)
Definition is_token_char (c : ascii) : bool :=
  is_alnum c || existsb (λ d, bool_decide (c = d)) ["-"%char; "."%char; "_"%char; "~"%char; "+"%char; "/"%char].
(** [^\s,;] *)
Definition is_value_char (c : ascii) : bool := negb (is_ws c || bool_decide (c = ","%char) || bool_decide (c = ";"%char)).
Definition is_eq (c : ascii) : bool := bool_decide (c = "="%char).

Fixpoint take_while (p : ascii → bool) (s : string) : string :=
  match s with "" => "" | String c s' => if p c then String c (take_while p s') else "" end.
Fixpoint drop_while (p : ascii → bool) (s : string) : string :=
  match s with "" => "" | String c s' => if p c then drop_while p s' else s end.

(** What follows a match of [Bearer\s+[A-Za-z0-9\-._~+/]+=*] (any case) at the start of a text. *)
Definition bearer_match (s : string) : option string :=
  if bool_decide (toLowerCase (str_take 6 s) = "bearer") then
    let r := str_drop 6 s in
    if bool_decide (take_while is_ws r = "") then None
    else
      let r := drop_while is_ws r in
      if bool_decide (take_while is_token_char r = "") then None
      else Some (drop_while is_eq (drop_while is_token_char r))
  else None.

Definition bearer_redacted : string := "Bearer [REDACTED]".

(** [boundary]: the expression begins with a word boundary; [prev] whether the
    character before is a word character.  After a match comes no token character,
    unless the match ends in an equals sign.  A match is not empty, so the length of
    the text is enough fuel. *)
Fixpoint redact_bearer (boundary : bool) (fuel : nat) (prev : bool) (s : string) : string :=
  match fuel with
  | O => s
  | S f =>
      match (if boundary && prev then None else bearer_match s) with
      | Some rest => bearer_redacted +:+ redact_bearer boundary f false rest
      | None => match s with "" => "" | String c s' => String c (redact_bearer boundary f (is_word c) s') end
      end
  end.

(** Models [BEARER_TOKEN_PATTERN] (backend/src/common/logger/app-logger.service.ts:51-51). *)
Definition BEARER_TOKEN_PATTERN (s : string) : string := redact_bearer true (String.length s) false s.

Definition SECRET_SUFFIXES : list string :=
  ["SECRET"; "TOKEN"; "PASSWORD"; "API_KEY"; "PRIVATE_KEY"; "WEBHOOK"; "WEBHOOK_URL"; "WEBHOOK_SECRET"].

(** The name and what follows the value, of an assignment at the start of a text: the name is the run
    up to the equals sign, an upper-case letter followed by what ends in a suffix. *)
Definition assignment_match (s : string) : option (string * string) :=
  let name := take_while is_name_char s in
  match name, drop_while is_name_char s with
  | String c tl, String e value =>
      if is_upper c && existsb (endsWith tl) SECRET_SUFFIXES && is_eq e && negb (bool_decide (take_while is_value_char value = "")) then
        Some (name, drop_while is_value_char value)
      else None
  | _, _ => None
  end.

Fixpoint redact_assignments (fuel : nat) (prev : bool) (s : string) : string :=
  match fuel with
  | O => s
  | S f =>
      match (if prev then None else assignment_match s) with
      | Some (name, rest) => name +:+ "=[REDACTED]" +:+ redact_assignments f false rest
      | None => match s with "" => "" | String c s' => String c (redact_assignments f (is_word c) s') end
      end
  end.

(** Models [SECRET_ASSIGNMENT_PATTERN] (backend/src/common/logger/app-logger.service.ts:49-50). *)
Definition SECRET_ASSIGNMENT_PATTERN (s : string) : string := redact_assignments (String.length s) false s.

(** Models [redactMessageText] (backend/src/common/logger/app-logger.service.ts:64-68). *)
Definition redactMessageText (message : string) : string := BEARER_TOKEN_PATTERN (SECRET_ASSIGNMENT_PATTERN message).

(** ** Fields *)

(** Models [REDACTED_FIELD_TOKENS] (backend/src/common/logger/app-logger.service.ts:33-47). *)
Definition REDACTED_FIELD_TOKENS : list string :=
  ["secret"; "token"; "password"; "api_key"; "apikey"; "private_key"; "privatekey"; "mnemonic"; "seed"; "cookie"; "authorization";
   "jwt"; "webhook"].

(** Models [normalizeRedactionKey] (backend/src/common/logger/app-logger.service.ts:53-55). *)
Definition normalizeRedactionKey (key : string) : string := toLowerCase (str_filter is_alnum key).

(** Models [shouldRedactField] (backend/src/common/logger/app-logger.service.ts:57-62). *)
Definition shouldRedactField (key : string) : bool :=
  let normalized := normalizeRedactionKey key in
  existsb (λ token, includes normalized (normalizeRedactionKey token)) REDACTED_FIELD_TOKENS.

(** What is logged.  An object has its own enumerable properties, and properties whose
    keys are symbols; [VOther] is a value of another type. *)
Inductive logval :=
  | VNull | VUndef
  | VStr (s : string)
  | VArr (l : list logval)
  | VErr (name message : string) (stack : option string)
  | VObj (symbols : list (string * string)) (fields : list (string * logval))
  | VOther (x : string).

Definition hidden : logval := VStr "[REDACTED]".

(** Models [redactValue] (backend/src/common/logger/app-logger.service.ts:70-101). *)
Fixpoint redactValue (v : logval) : logval :=
  match v with
  | VStr s => VStr (redactMessageText s)
  | VArr l => VArr ((fix go (l : list logval) : list logval := match l with [] => [] | x :: l' => redactValue x :: go l' end) l)
  | VErr name message stack =>
      VObj [] [("name", VStr name); ("message", VStr (redactMessageText message));
               ("stack", match truthy stack with Some s => VStr (redactMessageText s) | None => VUndef end)]
  | VObj _ fields =>
      VObj [] ((fix go (l : list (string * logval)) : list (string * logval) :=
        match l with
        | [] => []
        | (key, x) :: l' => (key, if shouldRedactField key then hidden else redactValue x) :: go l'
        end) fields)
  | _ => v
  end.

(** The entry of a log line, which the library marks with its level under a symbol.
    Models [redactLogInfo] (backend/src/common/logger/app-logger.service.ts:103-105). *)
Definition redactLogInfo (info : logval) : logval := redactValue info.

(** Models [REDACTED_HEADERS] (backend/src/common/logger/app-logger.service.ts:12-20). *)
Definition REDACTED_HEADERS : list string :=
  ["authorization"; "cookie"; "set-cookie"; "x-api-key"; "x-auth-token"; "proxy-authorization"; "x-forwarded-authorization"].

(** Models [redactHeaders] (backend/src/common/logger/app-logger.service.ts:107-115). *)
Definition redactHeaders (headers : list (string * logval)) : list (string * logval) :=
  (λ h, (h.1, if bool_decide (toLowerCase h.1 ∈ REDACTED_HEADERS) then hidden else h.2)) <$> headers.

(** Models [REDACTED_BODY_FIELDS] (backend/src/common/logger/app-logger.service.ts:23-31). *)
Definition REDACTED_BODY_FIELDS : list string := ["password"; "secret"; "apiKey"; "privateKey"; "mnemonic"; "seed"; "signature"].

(** Models [redactBody] (backend/src/common/logger/app-logger.service.ts:117-126). *)
Definition redactBody (body : option (list (string * logval))) : option (list (string * logval)) :=
  match body with
  | Some fields => Some ((λ f, (f.1, if bool_decide (f.1 ∈ REDACTED_BODY_FIELDS) then hidden else redactValue f.2)) <$> fields)
  | None => None
  end.

(** ** The browser's sanitizer *)

(** A match of [\bX[A-Z0-9]{54,56}\b] is a whole word.
    Models [STELLAR_ADDRESS_RE] (frontend/src/lib/log-shipper.ts:21-22). *)
Definition key_word (first : ascii) (w : string) : bool :=
  match w with
  | String c r => bool_decide (c = first) && (54 <=? str_len r) && (str_len r <=? 56) && str_forall is_key_char r
  | "" => false
  end.

(** [f] on the words of a text; [acc] is the word that is being read. *)
Fixpoint map_words (f : string → string) (acc : string) (s : string) : string :=
  match s with
  | "" => f acc
  | String c s' => if is_word c then map_words f (acc +:+ String c "") s' else f acc +:+ String c (map_words f "" s')
  end.

Definition replace_key (first : ascii) (mark : string) (w : string) : string := if key_word first w then mark else w.

(** Models [sanitize] (frontend/src/lib/log-shipper.ts:39-44). *)
Definition sanitize (text : string) : string :=
  let t := map_words (replace_key "G" "[REDACTED_ADDRESS]") "" text in
  let t := map_words (replace_key "S" "[REDACTED_SECRET]") "" t in
  redact_bearer false (String.length t) false t.

(** The ellipsis, in UTF-8. *)
Definition ellipsis : string := String "226" (String "128" (String "166" "")).

(** Models [truncate] (frontend/src/lib/log-shipper.ts:46-48). *)
Definition truncate (text : string) (maxLen : nat) : string :=
  if (String.length text <=? maxLen)%nat then text else str_take maxLen text +:+ ellipsis.

(** ** Fields do not leak *)

#[local] Arguments shouldRedactField : simpl never.
#[local] Arguments redactMessageText : simpl never.

Lemma logval_ind' (P : logval → Prop) :
  P VNull → P VUndef → (∀ s, P (VStr s)) → (∀ l, Forall P l → P (VArr l)) → (∀ n m s, P (VErr n m s)) →
  (∀ ss fs, Forall (λ f, P f.2) fs → P (VObj ss fs)) → (∀ x, P (VOther x)) → ∀ v, P v.
Proof.
  intros H1 H2 H3 H4 H5 H6 H7. refine (fix IH v := _). destruct v as [| |s|l|n m s|ss fs|x]; [exact H1|exact H2|apply H3| |apply H5| |apply H7].
  - apply H4. induction l as [|x l IHl]; constructor; [apply IH|exact IHl].
  - apply H6. induction fs as [|[k x] fs IHl]; constructor; [apply IH|exact IHl].
Qed.

Lemma redactValue_arr l : redactValue (VArr l) = VArr (redactValue <$> l).
Proof. done. Qed.

Definition redact_field (f : string * logval) : string * logval := (f.1, if shouldRedactField f.1 then hidden else redactValue f.2).

Lemma redactValue_obj ss fs : redactValue (VObj ss fs) = VObj [] (redact_field <$> fs).
Proof. cbn. f_equal. by induction fs as [|[k x] fs ->]. Qed.

(** Two values that agree but for what stands, at any depth, under a sensitive name or a
    symbol. *)
Inductive same_public : logval → logval → Prop :=
  | public_refl v : same_public v v
  | public_arr l l' : Forall2 same_public l l' → same_public (VArr l) (VArr l')
  | public_obj ss ss' fs fs' : Forall2 public_field fs fs' → same_public (VObj ss fs) (VObj ss' fs')
with public_field : string * logval → string * logval → Prop :=
  | public_field_hidden k x y : shouldRedactField k = true → public_field (k, x) (k, y)
  | public_field_shown k x y : same_public x y → public_field (k, x) (k, y).

(** A value under a sensitive name is the mark. *)
Inductive clean : logval → Prop :=
  | clean_null : clean VNull
  | clean_undef : clean VUndef
  | clean_str s : clean (VStr s)
  | clean_arr l : Forall clean l → clean (VArr l)
  | clean_obj ss fs : Forall (λ f, (shouldRedactField f.1 = true ∧ f.2 = hidden) ∨ clean f.2) fs → clean (VObj ss fs)
  | clean_other x : clean (VOther x).

(** What stands under a sensitive name is not logged.  At any depth of what is logged, a value under a name that contains one of the
    tokens, however it is written, is replaced by a mark, and two values that differ only there are logged
    alike. *)
Theorem sensitive_fields_hidden v w :
  clean (redactValue v) ∧ (same_public v w → redactValue v = redactValue w).
Proof.
  split; revert w.
  - intros _. induction v as [| |s|l IH|n m s|ss fs IH|x] using logval_ind'; [constructor|constructor|constructor| | | |constructor].
    + rewrite redactValue_arr. constructor. by apply Forall_fmap.
    + constructor. repeat (apply Forall_cons; split; [right; cbn; try (destruct (truthy s)); constructor|]). constructor.
    + rewrite redactValue_obj. constructor. apply Forall_fmap. eapply Forall_impl; [exact IH|]. intros [k x] Hx. unfold compose, redact_field. cbn [fst snd] in *.
      case_eq (shouldRedactField k); intros Hk; [by left|by right].
  - induction v as [| |s|l IH|n m s|ss fs IH|x] using logval_ind'; intros w Hw; inversion Hw; subst; try done.
    + rewrite !redactValue_arr. f_equal. match goal with H : Forall2 _ _ _ |- _ => rename H into Hl end. clear Hw.
      induction Hl as [|x y l l' Hxy _ IHl]; [done|]. apply Forall_cons in IH as [Hx IH]. cbn. by rewrite (Hx y Hxy), IHl.
    + rewrite !redactValue_obj. f_equal. match goal with H : Forall2 _ _ _ |- _ => rename H into Hl end. clear Hw.
      induction Hl as [|x y l l' Hxy _ IHl]; [done|]. apply Forall_cons in IH as [Hx IH]. cbn. rewrite IHl by done. f_equal.
      unfold redact_field. destruct Hxy as [k x y Hk|k x y Hxy]; cbn [fst snd] in *; [by rewrite Hk|]. by rewrite (Hx y Hxy).
Qed.

(** The level is lost: no property under a symbol is left on an entry, whatever was there. *)
Theorem symbols_lost ss fs : ∃ fs', redactLogInfo (VObj ss fs) = VObj [] fs'.
Proof. unfold redactLogInfo. rewrite redactValue_obj. by eexists. Qed.

(** Headers are compared without regard to case. *)
Theorem headers_hidden headers k v : (k, v) ∈ headers → toLowerCase k ∈ REDACTED_HEADERS → (k, hidden) ∈ redactHeaders headers.
Proof.
  intros Hin Hk. unfold redactHeaders. apply list_elem_of_fmap. exists (k, v). split; [|done]. cbn. by rewrite bool_decide_true.
Qed.

(** The names of body fields are compared as they are written, and only at the top: a signature below it is logged. *)
Example body_signature_case :
  redactBody (Some [("Signature", VStr "s1"); ("auth", VObj [] [("signature", VStr "s2")])]) =
    Some [("Signature", VStr "s1"); ("auth", VObj [] [("signature", VStr "s2")])].
Proof. vm_compute. reflexivity. Qed.

(** ** Texts *)

(** The expression for assignments asks for a letter in front of the suffix: a variable named just so is logged,
    and so is what follows the first word of a value. *)
Example bare_names_logged :
  redactMessageText "DB_PASSWORD=hunter2" = "DB_PASSWORD=[REDACTED]" ∧ redactMessageText "PASSWORD=hunter2" = "PASSWORD=hunter2" ∧
  redactMessageText "API_KEY=abc" = "API_KEY=abc" ∧ redactMessageText "AUTH_TOKEN=Bearer abc" = "AUTH_TOKEN=[REDACTED] abc".
Proof. vm_compute. by split_and!. Qed.

(** ** Keys do not leave the browser *)

(** The words of a text, empty ones included; [acc] is the word that is being read. *)
Fixpoint words (acc s : string) : list string :=
  match s with
  | "" => [acc]
  | String c s' => if is_word c then words (acc +:+ String c "") s' else acc :: words "" s'
  end.

Definition starts_apart (s : string) : bool := match s with "" => true | String c _ => negb (is_word c) end.
Fixpoint ends_apart (a : string) : bool :=
  match a with "" => false | String c "" => negb (is_word c) | String _ a' => ends_apart a' end.

Lemma words_word w a s : str_forall is_word w = true → words a (w +:+ s) = words (a +:+ w) s.
Proof.
  revert a. induction w as [|c w IH]; intros a Hw; [by rewrite str_app_nil_l, str_app_nil_r|].
  cbn [str_forall] in Hw. apply andb_true_iff in Hw as [Hc Hw]. rewrite str_app_cons. cbn [words]. rewrite Hc, IH by done.
  f_equal. by rewrite str_app_assoc.
Qed.

Lemma words_suffix Q acc a s : Q "" → Forall Q (words acc (a +:+ s)) → starts_apart s = true ∨ ends_apart a = true → Forall Q (words "" s).
Proof.
  intros HQ. revert acc. induction a as [|c a IH]; intros acc Hf Hap.
  - rewrite str_app_nil_l in Hf. destruct Hap as [Hap|]; [|done]. destruct s as [|c s]; [by repeat constructor|].
    cbn in Hap, Hf |- *. destruct (is_word c); [done|]. apply Forall_cons in Hf as [_ Hf]. by constructor.
  - rewrite str_app_cons in Hf. cbn [words] in Hf. destruct (is_word c) eqn:Hc.
    + apply (IH _ Hf). destruct Hap as [|Hap]; [by left|]. destruct a; [cbn in Hap; by rewrite Hc in Hap|by right].
    + apply Forall_cons in Hf as [_ Hf]. destruct a as [|d a]; [by rewrite str_app_nil_l in Hf|].
      apply (IH _ Hf). by destruct Hap; [left|right].
Qed.

Lemma words_apart w s : ends_apart w = true → ∀ acc, ∃ ws, words acc (w +:+ s) = (ws ++ words "" s)%list ∧ words acc w = (ws ++ [""])%list.
Proof.
  induction w as [|c w IH]; intros Hw acc; [done|]. rewrite str_app_cons. cbn [words].
  destruct w as [|d w].
  - cbn in Hw. destruct (is_word c); [done|]. exists [acc]. by rewrite str_app_nil_l.
  - destruct (is_word c); [by apply IH|]. destruct (IH Hw "") as (ws & -> & ->). by exists (acc :: ws).
Qed.

(** What holds of the words of every image holds of the words of the text. *)
Lemma map_words_forall Q f acc s :
  (∀ w, f w = w ∨ ends_apart (f w) = true) → str_forall is_word acc = true →
  Forall (λ w, Forall Q (words "" (f w))) (words acc s) → Forall Q (words "" (map_words f acc s)).
Proof.
  intros Hf. revert acc. induction s as [|c s IH]; intros acc Hacc Hall; cbn in Hall |- *.
  { by apply Forall_cons in Hall as [Hall _]. }
  destruct (is_word c) eqn:Hc.
  { apply IH; [|done]. rewrite str_forall_app, Hacc. cbn. by rewrite Hc. }
  apply Forall_cons in Hall as [Hw Hall]. specialize (IH "" eq_refl Hall). destruct (Hf acc) as [E|E].
  - rewrite E in Hw |- *. rewrite words_word by done. rewrite <-(str_app_nil_r acc), words_word in Hw by done. cbn in Hw |- *. rewrite Hc.
    apply Forall_cons in Hw as [Hw _]. by constructor.
  - destruct (words_apart (f acc) (String c (map_words f "" s)) E "") as (ws & -> & Ew). rewrite Ew in Hw.
    apply Forall_app in Hw as [Hws He]. apply Forall_cons in He as [He _]. apply Forall_app. split; [done|]. cbn. rewrite Hc. by constructor.
Qed.

(** The word is no key. *)
Definition unkeyed (first : ascii) (w : string) : Prop := key_word first w = false.
#[global] Instance unkeyed_dec first w : Decision (unkeyed first w) := bool_eq_dec (key_word first w) false.

Lemma replace_key_shape first mark w : ends_apart mark = true → replace_key first mark w = w ∨ ends_apart (replace_key first mark w) = true.
Proof. unfold replace_key. case_match; auto. Qed.

Lemma Forall_words_word Q w : str_forall is_word w = true → Q w → Forall Q (words "" w).
Proof. intros Hw HQ. rewrite <-(str_app_nil_r w), words_word by done. cbn. rewrite str_app_nil_l. by constructor. Qed.

Lemma words_are_words acc s : str_forall is_word acc = true → Forall (λ w, str_forall is_word w = true) (words acc s).
Proof.
  revert acc. induction s as [|c s IH]; intros acc Hacc; cbn; [by constructor|]. destruct (is_word c) eqn:Hc.
  - apply IH. rewrite str_forall_app, Hacc. cbn. by rewrite Hc.
  - constructor; [done|by apply IH].
Qed.

Lemma replaced_unkeyed first mark s : ends_apart mark = true → Forall (unkeyed first) (words "" mark) →
  Forall (unkeyed first) (words "" (map_words (replace_key first mark) "" s)).
Proof.
  intros He Hm. apply map_words_forall; [intros w; by apply replace_key_shape|done|].
  eapply Forall_impl; [by apply words_are_words|]. intros w Hw. unfold replace_key. destruct (key_word first w) eqn:Hk; [done|].
  by apply Forall_words_word.
Qed.

Lemma replaced_keeps first second mark s : ends_apart mark = true → Forall (unkeyed first) (words "" mark) →
  Forall (unkeyed first) (words "" s) → Forall (unkeyed first) (words "" (map_words (replace_key second mark) "" s)).
Proof.
  intros He Hm Hs. apply map_words_forall; [intros w; by apply replace_key_shape|done|].
  pose proof (words_are_words "" s eq_refl) as Hw. apply Forall_forall. intros w Hin. rewrite Forall_forall in Hs, Hw.
  unfold replace_key. destruct (key_word second w); [done|]. by apply Forall_words_word; [apply Hw|apply Hs].
Qed.

Lemma take_drop_while p s : take_while p s +:+ drop_while p s = s.
Proof. induction s as [|c s IH]; cbn; [done|]. destruct (p c); [|done]. by rewrite str_app_cons, IH. Qed.

Lemma ends_apart_app a b : b ≠ "" → ends_apart (a +:+ b) = ends_apart b.
Proof.
  intros Hb. induction a as [|c a IH]; [by rewrite str_app_nil_l|]. rewrite str_app_cons. cbn [ends_apart]. rewrite <-IH.
  destruct (a +:+ b) as [|d r] eqn:E; [|done]. destruct a; [by rewrite str_app_nil_l in E|done].
Qed.

Lemma ends_apart_eqs s : take_while is_eq s ≠ "" → ends_apart (take_while is_eq s) = true.
Proof.
  induction s as [|c s IH]; cbn; [done|]. destruct (is_eq c) eqn:Hc; [|done]. intros _. cbn.
  destruct (take_while is_eq s) as [|d r] eqn:E; [|by apply IH]. apply bool_decide_eq_true in Hc as ->. done.
Qed.

Lemma starts_apart_tokens s : starts_apart (drop_while is_token_char s) = true.
Proof.
  induction s as [|c s IH]; cbn; [done|]. destruct (is_token_char c) eqn:Hc; [done|]. cbn. apply negb_true_iff.
  unfold is_token_char in Hc. apply orb_false_iff in Hc as [Ha Hd]. unfold is_word. rewrite Ha. cbn in Hd |- *.
  destruct (bool_decide (c = "_"%char)) eqn:E; [|done]. rewrite !orb_true_r in Hd. done.
Qed.

Lemma bearer_match_suffix s rest : bearer_match s = Some rest → ∃ a, s = a +:+ rest ∧ (starts_apart rest = true ∨ ends_apart a = true).
Proof.
  unfold bearer_match. case_bool_decide; [|done]. set (r := str_drop 6 s). case_bool_decide; [done|].
  set (r1 := drop_while is_ws r). case_bool_decide; [done|]. intros [= <-]. set (r2 := drop_while is_token_char r1).
  exists (str_take 6 s +:+ take_while is_ws r +:+ take_while is_token_char r1 +:+ take_while is_eq r2). split.
  - rewrite !str_app_assoc. rewrite take_drop_while. unfold r2. rewrite take_drop_while. unfold r1. rewrite take_drop_while.
    unfold r. by rewrite str_take_drop.
  - destruct (decide (take_while is_eq r2 = "")) as [E|E].
    + left. pose proof (take_drop_while is_eq r2) as Hr. rewrite E, str_app_nil_l in Hr. rewrite Hr. apply starts_apart_tokens.
    + right. rewrite !ends_apart_app; [by apply ends_apart_eqs|done|..]; intros Hc; apply E;
        repeat match type of Hc with (?a +:+ ?b = "") => let H := fresh in assert (b = "") as H by (by destruct a); clear Hc; rename H into Hc end; done.
Qed.

Lemma key_word_bearer first acc : key_word first (acc +:+ "Bearer") = false.
Proof.
  destruct acc as [|c acc]; [rewrite str_app_nil_l|rewrite str_app_cons]; cbn [key_word].
  - change (str_forall is_key_char "earer") with false. by rewrite andb_false_r.
  - rewrite str_forall_app. change (str_forall is_key_char "Bearer") with false. by rewrite !andb_false_r.
Qed.

Lemma bearer_keeps first b fuel prev acc s : Forall (unkeyed first) (words acc s) → Forall (unkeyed first) (words acc (redact_bearer b fuel prev s)).
Proof.
  revert prev acc s. induction fuel as [|f IH]; intros prev acc s Hs; [done|]. cbn [redact_bearer].
  destruct (if b && prev then None else bearer_match s) as [rest|] eqn:Hm.
  - assert (bearer_match s = Some rest) as Hm' by (by destruct (b && prev)).
    apply bearer_match_suffix in Hm' as (a & -> & Hap). apply words_suffix in Hs; [|done|done].
    unfold bearer_redacted. change ("Bearer [REDACTED]" +:+ ?x) with ("Bearer" +:+ (" [" +:+ ("REDACTED" +:+ String "]" x))).
    rewrite words_word by done. change (" [" +:+ ?x) with (String " " (String "[" x)). cbn [words].
    change (is_word " ") with false. change (is_word "[") with false. cbv iota. rewrite words_word by done. cbn [words].
    change (is_word "]") with false. cbv iota. repeat (apply Forall_cons; split); [apply key_word_bearer|done|..|by apply IH].
    unfold unkeyed. change ("" +:+ "REDACTED") with "REDACTED". cbn [key_word]. change (54 <=? str_len "EDACTED") with false. by rewrite andb_false_r.
  - destruct s as [|c s]; [done|]. cbn [words] in Hs |- *. destruct (is_word c); [by apply IH|].
    apply Forall_cons in Hs as [Ha Hs]. constructor; [done|by apply IH].
Qed.

(** No key leaves the browser.  In a text that was sanitized no word is a Stellar address or a secret seed: no word has the form of
    one, the letter G or S with 54 to 56 capital letters and digits. *)
Theorem sanitized_without_keys text w : w ∈ words "" (sanitize text) → key_word "G" w = false ∧ key_word "S" w = false.
Proof.
  unfold sanitize. set (t1 := map_words (replace_key "G" _) "" text). set (t2 := map_words (replace_key "S" _) "" t1).
  assert (Forall (unkeyed "G") (words "" t1)) as HG by (apply replaced_unkeyed; [done|apply (bool_decide_unpack _); vm_compute; done]).
  assert (Forall (unkeyed "G") (words "" t2)) as HG2 by (apply replaced_keeps; [done|apply (bool_decide_unpack _); vm_compute; done|done]).
  assert (Forall (unkeyed "S") (words "" t2)) as HS by (apply replaced_unkeyed; [done|apply (bool_decide_unpack _); vm_compute; done]).
  apply (bearer_keeps _ false (String.length t2) false) in HG2, HS. rewrite Forall_forall in HG2, HS.
  intros Hw. split; [by apply HG2|by apply HS].
Qed.

(** ** Witness *)
Module RedactionWitnesses.
Definition entry (secret : string) : logval :=
  VObj [] [("message", VStr "login"); ("headers", VObj [] [("X-Api-Key", VStr secret); ("accept", VStr "json")]); ("refreshToken", VStr secret)].

Lemma sensitive_fields_hidden_witness : redactValue (entry "a") = redactValue (entry "b").
Proof.
  apply (sensitive_fields_hidden (entry "a") (entry "b")). unfold entry. constructor. apply Forall2_cons. split; [right; constructor|].
  apply Forall2_cons. split; [right; constructor; apply Forall2_cons; split; [left; reflexivity|]; apply Forall2_cons; split; [right; constructor|constructor]|].
  apply Forall2_cons. split; [left; reflexivity|constructor].
Defined.

End RedactionWitnesses.
