(* ===== verification/LogShipper.v ===== *)
(** * Shipping logs

    The browser's log shipper (frontend/src/lib/log-shipper.ts), which waits for the
    consent of frontend/src/lib/cookie-consent.ts, and the backend's transport to Loki
    (backend/src/common/logger/loki.transport.ts).  Both buffer entries and send them in
    batches, on a timer or when the buffer is full. *)

From stdpp Require Import base list strings.
From Stdlib Require Import ZArith Lia Ascii.
From S2P Require Import Prelude JsText JsNumber Codec SessionExpiry Redaction.

Open Scope string_scope.
Open Scope Z_scope.

(** ** Consent *)

Inductive CookieConsentValue := accepted | declined.
Definition consent_text (v : CookieConsentValue) : string := match v with accepted => "accepted" | declined => "declined" end.

Definition COOKIE_CONSENT_VERSION : Z := 1.
Definition CONSENT_TTL_MS : Z := 365 * (24 * 60 * 60 * 1000).

(** [a > b] for an integer and what a stored member is in a comparison; a number that is not finite is later
    than every date. *)
Definition exceeds (a : Z) (b : json) : bool := match claim_number b with Some x => d_floor x <? a | None => false end.
Definition below (b : json) (a : Z) : bool := match claim_number b with Some x => d_floor x <? a | None => false end.

(** The consent, and what is stored afterwards; [None] is an item that is missing.
    Models [getCookieConsent] (frontend/src/lib/cookie-consent.ts:27-60). *)
Definition getCookieConsent (now : Z) (item : option string) : option CookieConsentValue * option string :=
  match truthy item with
  | None => (None, item)
  | Some raw =>
      match JSON_parse raw with
      | None => (None, item)
      | Some parsed =>
          match member parsed "value", member parsed "expiresAt" with
          | Some v, Some e =>
              if to_Boolean v && to_Boolean e then
                match (match v with JStr t => if bool_decide (t = "accepted") then Some accepted else if bool_decide (t = "declined") then Some declined else None
                       | _ => None end) with
                | None => (None, None)
                | Some value =>
                    if exceeds now e then (None, None)
                    else if below (default (JNum (round_double 0 1)) (nullish (member parsed "version") None)) COOKIE_CONSENT_VERSION then (None, None)
                    else (Some value, item)
                end
              else (None, None)
          | _, _ => (None, None)
          end
      end
  end.

(** The text that is stored; [stored] is whether the storage takes it.
    Models [setCookieConsent] (frontend/src/lib/cookie-consent.ts:62-77). *)
Definition setCookieConsent (now : Z) (value : CookieConsentValue) (can_store : bool) (item : option string) : option string :=
  let payload := "{" +:+ quoted "value" +:+ ":" +:+ quoted (consent_text value) +:+ "," +:+
                 quoted "expiresAt" +:+ ":" +:+ show_Z (now + CONSENT_TTL_MS) +:+ "," +:+
                 quoted "version" +:+ ":" +:+ show_Z COOKIE_CONSENT_VERSION +:+ "}" in
  if can_store then Some payload else item.

(** Models [getConsent] (frontend/src/lib/cookie-consent.ts:79-81). *)
Definition getConsent (now : Z) (item : option string) : option CookieConsentValue * option string := getCookieConsent now item.

(** Consent is remembered for a year.  What was stored is read back, and left in place, for 365 days; afterwards there is no
    consent and the item is removed. *)
Theorem consent_remembered t v item now : 0 ≤ t → t + CONSENT_TTL_MS < 2 ^ 53 →
  getConsent now (setCookieConsent t v true item) =
    if now <=? t + CONSENT_TTL_MS then (Some v, setCookieConsent t v true item) else (None, None).
Proof.
  intros Ht Hb. unfold getConsent, setCookieConsent. set (e := t + CONSENT_TTL_MS) in *. assert (0 < e) by (unfold e, CONSENT_TTL_MS; lia).
  set (payload := "{" +:+ _). assert (JSON_parse payload = Some (JObj [("value", JStr (consent_text v));
    ("expiresAt", JNum (unsigned_decimal (show_Z e))); ("version", JNum (unsigned_decimal (show_Z COOKIE_CONSENT_VERSION)))])) as Hparse.
  { unfold JSON_parse. assert (∃ f, (2 * String.length payload + 2)%nat = S (S (S (S (S f))))) as (f & ->).
    { exists (2 * String.length payload + 2 - 5)%nat. assert (2 ≤ String.length payload)%nat; [|lia].
      unfold payload, quoted. rewrite !length_string_app. cbn. lia. }
    assert (∀ f r, json_value (S f) (String "{" (quoted "value" +:+ r)) =
      match json_members f (quoted "value" +:+ r) with Some (l, r2) => Some (JObj l, r2) | None => None end) as Hobj by reflexivity.
    unfold payload. change ("{" +:+ ?x) with (String "{" x). rewrite Hobj.
    rewrite json_members_text by (by destruct v). rewrite json_members_int by (done || lia).
    rewrite json_members_last_int by done. done. }
  destruct (round_double_int e ltac:(lia)) as (x & Hx & Hf & _).
  assert (unsigned_decimal (show_Z e) = Some x) as He.
  { by rewrite unsigned_decimal_digits, show_Z_val by (apply show_Z_digits || apply show_Z_ne_empty || lia; lia). }
  assert (d_mant x ≠ 0) as Hm by (intros E; unfold d_floor in Hf; rewrite E in Hf; destruct (0 <=? d_exp x); rewrite ?Z.mul_0_l, ?Zdiv_0_l in Hf; lia).
  unfold getCookieConsent. change (truthy (Some payload)) with (Some payload). cbv iota. rewrite Hparse, He. 
  set (o := JObj _). change (member o "value") with (Some (JStr (consent_text v))). change (member o "expiresAt") with (Some (JNum (Some x))).
  change (member o "version") with (Some (JNum (unsigned_decimal (show_Z COOKIE_CONSENT_VERSION)))). cbv iota.
  assert (to_Boolean (JNum (Some x)) = true) as -> by (cbn; by destruct (Z.eqb_spec (d_mant x) 0)).
  assert (exceeds now (JNum (Some x)) = (e <? now)) as -> by (unfold exceeds; cbn; by rewrite Hf).
  rewrite (Z.leb_antisym e now). destruct v; cbn [consent_text]; destruct (e <? now); reflexivity.
Qed.

(** ** Batches *)
Section batches.
Context {A : Type} (size : nat).

(** A buffer, and the batches that were sent. *)
Record batcher := Batcher { buffer : list A; sent : list (list A) }.
Definition flush_all (b : batcher) : batcher :=
  if bool_decide (buffer b = []) then b else Batcher [] (sent b ++ [buffer b])%list.
Definition push (x : A) (b : batcher) : batcher :=
  let b := Batcher (buffer b ++ [x])%list (sent b) in
  if (size <=? length (buffer b))%nat then flush_all b else b.

Record batched (b : batcher) : Prop := {
  bd_short : (length (buffer b) < size)%nat;
  bd_batches : Forall (λ l, (1 ≤ length l ≤ size)%nat) (sent b) }.

Lemma flush_all_batched b : (0 < size)%nat → (length (buffer b) ≤ size)%nat → Forall (λ l, (1 ≤ length l ≤ size)%nat) (sent b) → batched (flush_all b).
Proof.
  intros H0 Hl Hs. unfold flush_all. case_bool_decide as E; [split; [by rewrite E|done]|].
  split; [done|]. cbn. apply Forall_app. split; [done|]. repeat constructor; [|done]. destruct (buffer b); [done|cbn; lia].
Qed.

Lemma push_batched x b : (0 < size)%nat → batched b → batched (push x b).
Proof.
  intros H0 [Hl Hs]. unfold push. cbn [buffer]. rewrite length_app. cbn [length].
  destruct (Nat.leb_spec size (length (buffer b) + 1)%nat).
  - apply flush_all_batched; cbn [buffer sent]; [done| |done]. rewrite length_app. cbn. lia.
  - split; cbn [buffer sent]; [|done]. rewrite length_app. cbn. lia.
Qed.

(** Everything that went in, in order. *)
Definition content (b : batcher) : list A := (concat (sent b) ++ buffer b)%list.
Lemma flush_all_content b : content (flush_all b) = content b.
Proof.
  unfold flush_all, content. case_bool_decide; [done|]. cbn. rewrite concat_app. cbn. by rewrite !app_nil_r.
Qed.
Lemma push_content x b : content (push x b) = (content b ++ [x])%list.
Proof. unfold push. case_match; [rewrite flush_all_content|]; unfold content; cbn; by rewrite app_assoc. Qed.
End batches.
Arguments batcher : clear implicits.

(** ** The browser *)
Module Browser.

(** Models [BrowserLogEntry] (frontend/src/lib/log-shipper.ts:28-37). *)
Record BrowserLogEntry := Entry {
  level : string; message : string; stack : option string; url : string; line : option Z; col : option Z; userAgent : string; timestamp : string }.

Definition MAX_STACK_LENGTH : nat := 2000.

(** The page, with what is stored about consent. *)
Record shipper := Shipper { batch : batcher BrowserLogEntry; timer : bool; item : option string; path : string; agent : string }.

Definition with_batch (b : batcher BrowserLogEntry) (s : shipper) : shipper := Shipper b (timer s) (item s) (path s) (agent s).
Definition with_item (i : option string) (s : shipper) : shipper := Shipper (batch s) (timer s) i (path s) (agent s).

(** Models [flush] (frontend/src/lib/log-shipper.ts:83-105). *)
Definition flush (now : Z) (s : shipper) : shipper :=
  if bool_decide (buffer (batch s) = []) then s
  else
    let '(consent, i) := getConsent now (item s) in
    let s := with_item i s in
    match consent with
    | Some accepted => with_batch (flush_all (batch s)) s
    | _ => with_batch (Batcher [] (sent (batch s))) s
    end.

(** What is kept of a captured error.
    Models [capture] (frontend/src/lib/log-shipper.ts:66-77). *)
Definition safe_entry (now : Z) (s : shipper) (level message : string) (stack : option string) (line col : option Z) : BrowserLogEntry :=
  Entry level (sanitize (truncate message 500))
    (match truthy stack with Some st => Some (sanitize (truncate st MAX_STACK_LENGTH)) | None => None end)
    (sanitize (path s)) line col (agent s) (toISOString now).

(** Models [capture] (frontend/src/lib/log-shipper.ts:62-81). *)
Definition capture (batchSize : nat) (now : Z) (level message : string) (stack : option string) (line col : option Z) (s : shipper) : shipper :=
  let '(consent, i) := getConsent now (item s) in
  let s := with_item i s in
  match consent with
  | Some accepted =>
      let s := with_batch (Batcher (buffer (batch s) ++ [safe_entry now s level message stack line col])%list (sent (batch s))) s in
      if (batchSize <=? length (buffer (batch s)))%nat then flush now s else s
  | _ => s
  end.

(** Models [destroy] (frontend/src/lib/log-shipper.ts:107-113). *)
Definition destroy (now : Z) (s : shipper) : shipper := flush now (Shipper (batch s) false (item s) (path s) (agent s)).

(** What happens to the page: an error, a rejected promise or a warning is captured; the timer runs, while
    there is one; the page is left; the user decides about consent; the storage changes; another page is shown. *)
Inductive event :=
  | Captured (level message : string) (stack : option string) (line col : option Z)
  | Tick | Unload | Destroy
  | Decided (v : CookieConsentValue) (can_store : bool)
  | Stored (i : option string)
  | Visited (p : string).

(** The listener for errors; [stack] is that of an Error.
    Models [error] (frontend/src/lib/log-shipper.ts:139-147). *)
Definition on_error (message stack : option string) (lineno colno : option Z) : event :=
  Captured "error" (default "Unknown error" message) stack lineno colno.

(** What a promise is rejected with. *)
Inductive reason := RError (message : string) (stack : option string) | RText (t : string) | ROther.

(** The listener for rejections.
    Models [unhandledrejection] (frontend/src/lib/log-shipper.ts:149-159). *)
Definition on_rejection (r : reason) : event :=
  match r with
  | RError m st => Captured "error" m st None None
  | RText t => Captured "error" t None None None
  | ROther => Captured "error" "Unhandled promise rejection" None None None
  end.

(** Models [captureLogEntry] (frontend/src/lib/log-shipper.ts:169-175). *)
Definition captureLogEntry (level message : string) (error_stack : option string) : event := Captured level message error_stack None None.

Definition handle (batchSize : nat) (s : shipper) (o : Z * event) : shipper :=
  match o.2 with
  | Captured l m st ln c => capture batchSize o.1 l m st ln c s
  | Tick => if timer s then flush o.1 s else s
  | Unload => flush o.1 s
  | Destroy => destroy o.1 s
  | Decided v b => with_item (setCookieConsent o.1 v b (item s)) s
  | Stored i => with_item i s
  | Visited p => Shipper (batch s) (timer s) (item s) p (agent s)
  end.

(** An entry that may be shipped. *)
Definition keyless (text : string) : Prop := ∀ w, w ∈ words "" text → key_word "G" w = false ∧ key_word "S" w = false.
Definition safe (e : BrowserLogEntry) : Prop :=
  keyless (message e) ∧ (∀ st, stack e = Some st → keyless st) ∧ keyless (url e).

Lemma safe_entry_safe now s l m st ln c : safe (safe_entry now s l m st ln c).
Proof.
  split_and!; cbn.
  - intros w. apply sanitized_without_keys.
  - destruct (truthy st); intros t [= <-] w. apply sanitized_without_keys.
  - intros w. apply sanitized_without_keys.
Qed.

Record sound (batchSize : nat) (s : shipper) : Prop := {
  s_batched : batched batchSize (batch s);
  s_safe : Forall safe (content (batch s)) }.

(** What one event may send. *)
Definition sends (now : Z) (s s' : shipper) : Prop :=
  sent (batch s') = sent (batch s) ∨
  ((getConsent now (item s)).1 = Some accepted ∧ ∃ l, sent (batch s') = (sent (batch s) ++ [l])%list).

Lemma flush_cases now s : 
  (buffer (batch s) = [] ∧ flush now s = s) ∨
  (buffer (batch s) ≠ [] ∧ (getConsent now (item s)).1 = Some accepted ∧ batch (flush now s) = flush_all (batch s)) ∨
  (buffer (batch s) ≠ [] ∧ batch (flush now s) = Batcher [] (sent (batch s))).
Proof.
  unfold flush. case_bool_decide; [by left|]. right. destruct (getConsent now (item s)) as [[[]|] i] eqn:E; cbn; auto.
Qed.

Lemma flush_sound batchSize now s : (0 < batchSize)%nat → (length (buffer (batch s)) ≤ batchSize)%nat →
  Forall (λ l, (1 ≤ length l ≤ batchSize)%nat) (sent (batch s)) → Forall safe (content (batch s)) → sound batchSize (flush now s).
Proof.
  intros H0 Hl Hs Hc. destruct (flush_cases now s) as [[E ->]|[(_ & _ & E)|[_ E]]].
  - split; [|done]. split; [by rewrite E|done].
  - split; rewrite E; [by apply flush_all_batched|by rewrite flush_all_content].
  - split; rewrite E; [by split|]. unfold content in *. cbn. rewrite app_nil_r. by apply Forall_app in Hc as [Hc _].
Qed.

Lemma flush_sends now s : sends now s (flush now s).
Proof.
  unfold sends. destruct (flush_cases now s) as [[_ ->]|[(Hne & Hc & E)|[_ E]]]; [by left| |rewrite E; by left].
  right. split; [done|]. rewrite E. unfold flush_all. rewrite bool_decide_false by done. by eexists.
Qed.

Lemma consent_kept now i : (getConsent now i).1 = Some accepted → (getConsent now i).2 = i.
Proof. unfold getConsent, getCookieConsent. repeat case_match; cbn; congruence. Qed.

Lemma capture_sound batchSize now l m st ln c s : (0 < batchSize)%nat → sound batchSize s → sound batchSize (capture batchSize now l m st ln c s).
Proof.
  intros H0 [[Hb Hs] Hc]. unfold capture. destruct (getConsent now (item s)) as [[[]|] i]; [|by split..].
  cbn [with_item with_batch batch buffer sent]. set (e := safe_entry _ _ _ _ _ _ _).
  assert (Forall safe (content (Batcher (buffer (batch s) ++ [e])%list (sent (batch s))))) as Hc'.
  { unfold content in *. cbn. rewrite app_assoc. apply Forall_app. split; [done|]. apply Forall_cons. split; [apply safe_entry_safe|constructor]. }
  destruct (Nat.leb_spec batchSize (length (buffer (batch s) ++ [e])%list)) as [Hle|Hle].
  - apply flush_sound; cbn; [done| |done|done]. rewrite length_app. cbn. lia.
  - split; [by split|done].
Qed.

Lemma capture_sends batchSize now l m st ln c s : sends now s (capture batchSize now l m st ln c s).
Proof.
  unfold capture. destruct (getConsent now (item s)) as [[[]|] i] eqn:E; [|by left..].
  pose proof (consent_kept now (item s)) as Hk. rewrite E in Hk. cbn in Hk. rewrite (Hk eq_refl). case_match; [|by left].
  match goal with |- sends _ _ (flush _ ?x) => destruct (flush_sends now x) as [Hf|[Hf Hl]] end; [by left|]. right. by split.
Qed.

(** Logs leave the browser as promised.  Whatever happens on the page, the buffer is shorter than a batch, every batch has between one
    entry and the size of a batch, and no entry that was shipped, or waits, has a key in its message, its
    stack or its address; and a batch leaves only at a moment at which the user has accepted. *)
Theorem shipped_with_consent batchSize p a i evs o :
  (0 < batchSize)%nat →
  let s := foldl (handle batchSize) (Shipper (Batcher [] []) true i p a) evs in
  sound batchSize s ∧ sends o.1 s (handle batchSize s o).
Proof.
  intros H0 s. split.
  - unfold s. assert (sound batchSize (Shipper (Batcher [] []) true i p a)) as Hs by (split; [by split|by constructor]).
    revert Hs. generalize (Shipper (Batcher [] []) true i p a). induction evs as [|[now e] evs IH]; intros s0 Hs; [done|].
    cbn [foldl]. apply IH. pose proof Hs as [[Hb Hbs] Hc]. assert (∀ s1, batch s1 = batch s0 → sound batchSize (flush now s1)) as Hfl.
    { intros s1 E. apply flush_sound; rewrite ?E; [done|lia|done|done]. }
    destruct e; unfold handle; cbn [fst snd]; [by apply capture_sound|case_match; [by apply Hfl|done]|by apply Hfl|by apply Hfl|..]; by split.
  - generalize s. intros s1. destruct o as [now e]. destruct e; unfold handle; cbn [fst snd]; try (by left).
    + apply capture_sends.
    + case_match; [apply flush_sends|by left].
    + apply flush_sends.
    + destruct (flush_sends now (Shipper (batch s1) false (item s1) (path s1) (agent s1))) as [Hf|[Hf Hl]]; [by left|by right].
Qed.

(** Withdrawing consent drops what waits: nothing captured before is shipped later. *)
Theorem withdrawal_drops now s : (getConsent now (item s)).1 ≠ Some accepted → buffer (batch (flush now s)) = [] ∧ sent (batch (flush now s)) = sent (batch s).
Proof. intros Hc. destruct (flush_cases now s) as [[E ->]|[(_ & Hc' & _)|[_ E]]]; [done|done|by rewrite E]. Qed.

(** A text is cut before it is sanitized: of a secret seed that stands at the cut, the part before it is shipped. *)
Definition seed : string := "SABCDEFGHIJKLMNOPQRSTUVWXYZ234567ABCDEFGHIJKLMNOPQRSTUVW".
Fixpoint dots (n : nat) : string := match n with O => "" | S n' => String "." (dots n') end.
Example cut_seed_shipped :
  sanitize (seed +:+ " is a seed") = "[REDACTED_SECRET] is a seed" ∧
  sanitize (truncate (dots 460 +:+ seed) 500) = dots 460 +:+ str_take 40 seed +:+ ellipsis.
Proof. vm_compute. by split. Qed.
End Browser.

(** ** Loki *)
Module Loki.

(** What is handed to the transport: its fields, and the message if it is a text. *)
Record info := Info { message : option string; json_text : string }.

Definition log_line (now : Z) (i : info) : string * string :=
  (show_Z now +:+ "000000", match message i with Some m => m | None => json_text i end).

(** Models [log] (backend/src/common/logger/loki.transport.ts:71-80). *)
Definition log (batchSize : nat) (now : Z) (i : info) (b : batcher (string * string)) : batcher (string * string) := push batchSize (log_line now i) b.

(** A batch that cannot be delivered is given up.
    Models [flush] (backend/src/common/logger/loki.transport.ts:82-91). *)
Definition flush_lines (b : batcher (string * string)) : batcher (string * string) := flush_all b.

(** Models [close] (backend/src/common/logger/loki.transport.ts:125-131). *)
Definition close (b : batcher (string * string)) : batcher (string * string) := flush_lines b.

Inductive event := Logged (i : info) | Tick | Close.
Definition handle (batchSize : nat) (b : batcher (string * string)) (o : Z * event) : batcher (string * string) :=
  match o.2 with Logged i => log batchSize o.1 i b | Tick => flush_lines b | Close => close b end.
Definition lines (evs : list (Z * event)) : list (string * string) :=
  omap (λ o, match o.2 with Logged i => Some (log_line o.1 i) | _ => None end) evs.

(** Every line is sent once.  Over any sequence of lines and flushes, the batches followed by the buffer are the lines in their
    order, no batch is empty or longer than the batch size, and after the transport is closed every line has been
    sent. *)
Theorem lines_sent_once batchSize evs : (0 < batchSize)%nat →
  let b := foldl (handle batchSize) (Batcher [] []) evs in
  content b = lines evs ∧ batched batchSize b ∧ concat (sent (close b)) = lines evs.
Proof.
  intros H0 b. assert (content b = lines evs ∧ batched batchSize b) as [Hc Hb].
  - unfold b. induction evs as [|[now e] evs IH] using rev_ind; [by split; [|split]|].
    rewrite foldl_app. unfold lines. rewrite omap_app. fold (lines evs). destruct IH as [Hc Hb]. cbn [foldl omap list_omap].
    set (b0 := foldl _ _ _) in *. destruct e as [i| |]; cbn [handle fst snd].
    + unfold log. rewrite push_content, Hc. split; [done|by apply push_batched].
    + unfold flush_lines. rewrite flush_all_content, Hc, app_nil_r. split; [done|]. destruct Hb. apply flush_all_batched; [done|lia|done].
    + unfold close, flush_lines. rewrite flush_all_content, Hc, app_nil_r. split; [done|]. destruct Hb. apply flush_all_batched; [done|lia|done].
  - split; [done|]. split; [done|]. rewrite <-Hc. unfold close, flush_lines. rewrite <-(flush_all_content b). unfold content.
    assert (buffer (flush_all b) = []) as -> by (unfold flush_all; by case_bool_decide). by rewrite app_nil_r.
Qed.

(** Of an entry with a message only the message is sent: the fields, the correlation id among them, are lost. *)
Theorem fields_not_shipped now m t1 t2 : log_line now (Info (Some m) t1) = log_line now (Info (Some m) t2).
Proof. done. Qed.
End Loki.

(** ** Witnesses *)
Module ShipperWitnesses.
Import Browser.

Lemma consent_remembered_witness :
  getConsent 2000 (setCookieConsent 1000 declined true None) = (Some declined, setCookieConsent 1000 declined true None) ∧
  getConsent 40000000000 (setCookieConsent 1000 accepted true None) = (None, None).
Proof.
  split; [rewrite (consent_remembered 1000 declined None 2000)|rewrite (consent_remembered 1000 accepted None 40000000000)];
    first [lia|reflexivity|unfold CONSENT_TTL_MS; lia].
Defined.

Lemma shipped_with_consent_witness :
  let s := foldl (handle 2) (Shipper (Batcher [] []) true None "/claims" "agent")
    [(1000, Captured "error" "before" None None None); (2000, Decided accepted true);
     (3000, Captured "error" ("key " +:+ seed) None None None); (4000, Captured "warn" "again" (Some "at f") None None);
     (5000, Captured "warn" "last" None None None)] in
  sound 2 s ∧ sends 6000 s (handle 2 s (6000, Tick)).
Proof. apply (shipped_with_consent 2 "/claims" "agent" None _ (6000, Tick)). lia. Defined.

Lemma withdrawal_drops_witness :
  let e := safe_entry 1000 (Shipper (Batcher [] []) true None "/" "agent") "error" "m" None None None in
  buffer (batch (flush 1000 (Shipper (Batcher [e] []) true None "/" "agent"))) = [].
Proof. apply withdrawal_drops. discriminate. Defined.

Lemma lines_sent_once_witness :
  let evs := [(1, Loki.Logged (Loki.Info (Some "a") "{}")); (2, Loki.Logged (Loki.Info None "{}")); (3, Loki.Logged (Loki.Info (Some "b") "{}"))] in
  concat (sent (Loki.close (foldl (Loki.handle 2) (Batcher [] []) evs))) = [("1000000", "a"); ("2000000", "{}"); ("3000000", "b")].
Proof.
  destruct (Loki.lines_sent_once 2 [(1, Loki.Logged (Loki.Info (Some "a") "{}")); (2, Loki.Logged (Loki.Info None "{}"));
    (3, Loki.Logged (Loki.Info (Some "b") "{}"))]) as (_ & _ & H); [lia|]. exact (eq_trans H eq_refl).
Defined.
End ShipperWitnesses.

(** ** Analytics *)
Module Analytics.

(** The value of a property: a text, or a number or truth value. *)
Inductive prop_value := PText (s : string) | PNumber (n : Z) | PBool (b : bool).
Definition props := list (string * prop_value).

(** Models [STELLAR_ADDRESS_RE] (frontend/src/lib/analytics.ts:26-26). *)
Definition STELLAR_ADDRESS_RE (s : string) : bool :=
  matches_classes ((λ c, bool_decide (c = "G"%char)) :: replicate 55 is_key_char) s.

(** Models [PII_PROP_KEYS] (frontend/src/lib/analytics.ts:27-39). *)
Definition PII_PROP_KEYS : list string :=
  ["wallet"; "wallet_address"; "walletAddress"; "address"; "source_account"; "sourceAccount"; "email"; "holder"; "voter"; "public_key"; "publicKey"].

Definition kept_prop (p : string * prop_value) : bool :=
  if bool_decide (p.1 ∈ PII_PROP_KEYS) then false
  else match p.2 with PText s => negb (STELLAR_ADDRESS_RE s) && negb (includes s "@" && includes s ".") | _ => true end.

(** Models [sanitizeAnalyticsProps] (frontend/src/lib/analytics.ts:41-60). *)
Definition sanitizeAnalyticsProps (ps : option props) : option props :=
  match ps with
  | None => None
  | Some ps => let sanitized := filter (λ p, kept_prop p = true) ps in if bool_decide (sanitized = []) then None else Some sanitized
  end.

#[global] Instance prop_value_eq : EqDecision prop_value.
Proof. solve_decision. Defined.

(** Reading the consent may remove it from the storage.
    Models [hasAnalyticsConsent] (frontend/src/lib/analytics.ts:62-65). *)
Definition hasAnalyticsConsent (now : Z) (item : option string) : bool * option string :=
  let '(consent, item) := getConsent now item in (match consent with Some accepted => true | _ => false end, item).

(** What is handed to Plausible, if it is loaded, and what is stored about consent afterwards.
    Models [track] (frontend/src/lib/analytics.ts:71-83). *)
Definition track (now : Z) (item : option string) (loaded : bool) (event : string) (ps : option props) : option (string * option props) * option string :=
  let '(allowed, item) := hasAnalyticsConsent now item in
  (if allowed && loaded then Some (event, sanitizeAnalyticsProps ps) else None, item).

Definition cut_text (n : nat) (s : string) : prop_value := PText (str_take n s).

(** Models [trackPageView] (frontend/src/lib/analytics.ts:86-88). *)
Definition trackPageView (path : option string) : string * option props :=
  ("page_view", match truthy path with Some p => Some [("path", cut_text 128 p)] | None => None end).
(** Models [trackQuoteSubmitted] (frontend/src/lib/analytics.ts:91-101). *)
Definition trackQuoteSubmitted (policyType region coverageTier : string) : string * option props :=
  ("quote_submitted", Some [("policy_type", PText policyType); ("region", PText region); ("coverage_tier", PText coverageTier)]).
(** Models [trackVoteCast] (frontend/src/lib/analytics.ts:114-116). *)
Definition trackVoteCast (direction : string) : string * option props := ("vote_cast", Some [("vote_direction", PText direction)]).
(** Models [trackRouteSegmentError] (frontend/src/lib/analytics.ts:122-133). *)
Definition trackRouteSegmentError (segment errorName : string) (digest : option string) : string * option props :=
  ("route_segment_error", Some ([("segment", cut_text 64 segment); ("error_name", cut_text 128 errorName)] ++
     match truthy digest with Some d => [("digest", cut_text 128 d)] | None => [] end)%list).
(** Models [trackAppealSimulated] (frontend/src/lib/analytics.ts:155-159). *)
Definition trackAppealSimulated (outcome : string) (errorCode : option string) : string * option props :=
  ("appeal_simulated", Some (("outcome", PText outcome) :: match truthy errorCode with Some c => [("error_code", cut_text 64 c)] | None => [] end)).
(** Models [trackAppealFailure] (frontend/src/lib/analytics.ts:177-186). *)
Definition trackAppealFailure (stage : string) (errorCode : option string) : string * option props :=
  ("appeal_failure", Some (("stage", PText stage) :: match truthy errorCode with Some c => [("error_code", cut_text 64 c)] | None => [] end)).

(** What analytics are told.  An event is sent only while the user's consent is stored; none of its properties has the name of personal
    data, is an address, or looks like an e-mail address; and all others are sent as they are. *)
Theorem analytics_need_consent now item loaded event ps e ps' :
  (track now item loaded event ps).1 = Some (e, ps') →
  (getConsent now item).1 = Some accepted ∧ e = event ∧
  default [] ps' = filter (λ p, kept_prop p = true) (default [] ps) ∧
  Forall (λ p, (p.1 ∉ PII_PROP_KEYS) ∧ ∀ s, p.2 = PText s → STELLAR_ADDRESS_RE s = false ∧ (includes s "@" = false ∨ includes s "." = false)) (default [] ps').
Proof.
  unfold track, hasAnalyticsConsent. destruct (getConsent now item) as [[[]|] i]; [|done..]. destruct loaded; [|done]. cbn [fst]. intros [= <- <-]. split; [done|]. split; [done|].
  assert (default [] (sanitizeAnalyticsProps ps) = filter (λ p, kept_prop p = true) (default [] ps)) as ->.
  { destruct ps as [ps|]; [|done]. unfold sanitizeAnalyticsProps. cbv zeta. case_bool_decide as E; [|done]. exact (eq_sym E). }
  split; [done|]. apply Forall_forall. intros p [Hk _]%list_elem_of_filter. unfold kept_prop in Hk. case_bool_decide; [done|]. split; [done|].
  intros s Es. rewrite Es in Hk. apply andb_true_iff in Hk as [H1 H2]. apply negb_true_iff in H1, H2. split; [done|]. by apply andb_false_iff in H2.
Qed.

(** An address inside a text is sent: a page whose path names a wallet tells it. *)
Example path_with_address_sent :
  let wallet := "GAAAAAAAAAAAAAAAAAAAAAAAAAAAAAAAAAAAAAAAAAAAAAAAAAAAAAAA" in
  STELLAR_ADDRESS_RE wallet = true ∧
  let '(event, ps) := trackPageView (Some ("/profile/" +:+ wallet)) in sanitizeAnalyticsProps ps = Some [("path", PText ("/profile/" +:+ wallet))].
Proof. vm_compute. by split. Qed.

Lemma analytics_need_consent_witness :
  let item := setCookieConsent 1000 accepted true None in
  (getConsent 2000 item).1 = Some accepted.
Proof.
  refine (proj1 (analytics_need_consent 2000 (setCookieConsent 1000 accepted true None) true "vote_cast" (Some [("voter", PText "x"); ("vote_direction", PText "approve")])
    "vote_cast" (Some [("vote_direction", PText "approve")]) _)). vm_compute. reflexivity.
Defined.
End Analytics.
