(* ===== verification/AppErrors.v ===== *)
(** * Errors in the web front end

    frontend/src/lib/errors.ts: the messages users are shown and the table of error
    codes of the support page; frontend/src/lib/api/fetch.ts: what a call to the backend
    throws; frontend/src/lib/retry.ts: which calls are repeated.  The answers of the
    backend are those of [ErrorFilter]. *)

From stdpp Require Import base list strings.
From Stdlib Require Import ZArith QArith Lqa Lia Ascii.
From S2P Require Import Prelude JsText Codec ErrorFilter.

Open Scope string_scope.
Open Scope Z_scope.

(** Models [AppError] (frontend/src/lib/errors.ts:9-19). *)
Record AppError := MkAppError { e_code : string; e_message : string; e_requestId : option string }.

(** What is thrown: an AppError, another Error, or another value. *)
Inductive thrown := TApp (e : AppError) | TError (message : string) | TValue.

(** Models [ERROR_MESSAGES] (frontend/src/lib/errors.ts:22-82). *)
Definition ERROR_MESSAGES : list (string * string) := [
  ("UNKNOWN_ERROR", "An unexpected error occurred. Please try again.");
  ("NETWORK_ERROR", "Network connection failed. Please check your connection.");
  ("SERVER_ERROR", "Server error. Please try again later.");
  ("TIMEOUT_ERROR", "The request timed out. Please try again.");
  ("RATE_LIMIT_EXCEEDED", "Too many requests. Please wait a moment and try again.");
  ("VALIDATION_ERROR", "Please check your inputs and try again.");
  ("UNAUTHORIZED", "Your session has expired. Please reconnect your wallet.");
  ("FORBIDDEN", "You do not have permission to perform this action.");
  ("WALLET_NOT_CONNECTED", "Please connect your wallet to continue.");
  ("SIGNATURE_INVALID", "Wallet signature was invalid. Please try again.");
  ("NONCE_EXPIRED", "Authentication challenge expired. Please reconnect.");
  ("INVALID_QUOTE", "The provided quote is invalid or has expired.");
  ("QUOTE_EXPIRED", "This quote has expired. Please request a new one.");
  ("INVALID_WALLET_ADDRESS", "The provided wallet address is not valid.");
  ("INSUFFICIENT_BALANCE", "Insufficient balance to cover the premium and fees.");
  ("POLICY_ALREADY_EXISTS", "A policy already exists for this quote.");
  ("TERMS_NOT_ACCEPTED", "You must accept the terms and conditions.");
  ("CLAIM_NOT_FOUND", "Claim not found.");
  ("CLAIM_ALREADY_EXISTS", "A claim has already been filed for this policy.");
  ("POLICY_NOT_FOUND", "Policy not found.");
  ("POLICY_INACTIVE", "This policy is no longer active.");
  ("CLAIM_AMOUNT_EXCEEDS_COVERAGE", "Claim amount exceeds your coverage limit.");
  ("OPEN_CLAIM_EXISTS", "An open claim already exists for this policy.");
  ("ALREADY_VOTED", "You have already voted on this claim.");
  ("NOT_A_VOTER", "You are not eligible to vote on this claim.");
  ("VOTING_CLOSED", "Voting for this claim has closed.");
  ("NOT_CLAIMANT", "Only the claimant can appeal this claim.");
  ("CLAIM_NOT_REJECTED", "Only rejected claims can be appealed.");
  ("APPEAL_ALREADY_SUBMITTED", "An appeal has already been submitted for this claim.");
  ("APPEAL_WINDOW_CLOSED", "The appeal window for this claim has closed.");
  ("CLAIMS_PAUSED", "Claim operations are currently paused by the contract admin.");
  ("TRANSACTION_FAILED", "Transaction failed. Please try again.");
  ("TRANSACTION_REJECTED", "Transaction was rejected by the network.");
  ("INSUFFICIENT_FEE", "Transaction fee is too low. Please increase the fee.");
  ("CONTRACT_ERROR", "Smart contract returned an error. Please try again.");
  ("SOROBAN_RPC_ERROR", "Blockchain RPC error. Please try again shortly.");
  ("LEDGER_CLOSED", "The ledger closed before your transaction was included. Please resubmit.");
  ("INVALID_CONTRACT_ADDRESS", "The provided contract address is not valid.");
  ("INSUFFICIENT_COVERAGE", "Coverage amount is below the minimum requirement.");
  ("EXCESSIVE_COVERAGE", "Coverage amount exceeds the maximum limit.");
  ("HIGH_RISK_PROFILE", "Your risk profile is too high for coverage at this time.");
  ("CONTRACT_NOT_SUPPORTED", "This contract type is not currently supported.");
  ("INVALID_RISK_CATEGORY", "Invalid risk category selected.");
  ("INVALID_DURATION", "Policy duration is outside the allowed range.")].

Definition message_of (c : string) : option string := alist_get c ERROR_MESSAGES.
Definition unknown_message : string := default "" (message_of "UNKNOWN_ERROR").

(** Models [resolveErrorMessage] (frontend/src/lib/errors.ts:88-99). *)
Definition resolveErrorMessage (error : thrown) : string :=
  match error with
  | TApp e => default unknown_message (message_of (e_code e))
  | TError message =>
      if includes (toLowerCase message) "failed to fetch" then default "" (message_of "NETWORK_ERROR") else unknown_message
  | TValue => unknown_message
  end.

(** Models [getCorrelationId] (frontend/src/lib/errors.ts:102-105). *)
Definition getCorrelationId (error : thrown) : option string := match error with TApp e => e_requestId e | _ => None end.

(** Models [ErrorCatalogEntry] (frontend/src/lib/errors.ts:109-114). *)
Record ErrorCatalogEntry := MkEntry { c_code : string; c_message : string; c_causes : list string; c_resolution : string }.
Definition catalogued (c message : string) (causes : list string) (resolution : string) : ErrorCatalogEntry :=
  MkEntry c (default "" (message_of message)) causes resolution.
Definition dq : string := String dquote "".

(** Models [ERROR_CATALOG] (frontend/src/lib/errors.ts:116-351). *)
Definition ERROR_CATALOG : list ErrorCatalogEntry := [
  catalogued "UNKNOWN_ERROR" "UNKNOWN_ERROR" ["An unhandled exception occurred server-side or in the browser."]
    ("Refresh the page and try again. If the issue persists, contact support with the correlation ID.");
  catalogued "NETWORK_ERROR" "NETWORK_ERROR" ["Your device is offline."; "The server is temporarily unreachable."]
    ("Check your internet connection, then retry. If on a VPN, try disabling it.");
  catalogued "SERVER_ERROR" "SERVER_ERROR" ["An internal server error occurred (5xx)."; "Ongoing maintenance or deployment."]
    ("Wait a few minutes and try again. Check the status page for outage information.");
  catalogued "TIMEOUT_ERROR" "TIMEOUT_ERROR" ["Slow network connection."; "Server under heavy load."]
    ("Retry the action. On a slow connection, allow extra time for large transactions.");
  catalogued "RATE_LIMIT_EXCEEDED" "RATE_LIMIT_EXCEEDED" ["Too many API requests in a short period."]
    ("Wait 60 seconds before retrying. Avoid rapidly submitting the same form.");
  catalogued "VALIDATION_ERROR" "VALIDATION_ERROR" ["A required field is missing or contains an invalid value."]
    ("Review all highlighted fields and correct the values before resubmitting.");
  catalogued "UNAUTHORIZED" "UNAUTHORIZED" ["Your session token has expired."; "Wallet disconnected during the session."]
    ("Reconnect your wallet and sign a new authentication challenge.");
  catalogued "FORBIDDEN" "FORBIDDEN" ["Your wallet address does not have the required role."; "Accessing an admin-only endpoint."]
    ("Ensure you are using the correct wallet. Contact an admin if access should be granted.");
  catalogued "WALLET_NOT_CONNECTED" "WALLET_NOT_CONNECTED" ["No wallet extension is connected."; "Wallet was disconnected or locked."]
    ("Click " +:+ dq +:+ "Connect Wallet" +:+ dq +:+ " and approve the connection in your wallet extension.");
  catalogued "SIGNATURE_INVALID" "SIGNATURE_INVALID" ["The signed payload did not match the expected nonce."; "Wallet returned a malformed signature."]
    ("Disconnect and reconnect your wallet, then retry the action.");
  catalogued "NONCE_EXPIRED" "NONCE_EXPIRED" ["The authentication nonce was not signed within the allowed window (≈5 minutes)."]
    ("Start the connection flow again promptly and sign the challenge within 5 minutes.");
  catalogued "INVALID_QUOTE" "INVALID_QUOTE" ["The quote ID does not exist."; "The quote parameters were tampered with."]
    ("Request a fresh quote from the quote page and proceed immediately.");
  catalogued "QUOTE_EXPIRED" "QUOTE_EXPIRED" ["Quotes are valid for 15 minutes. The expiry time has passed."]
    ("Return to the quote page and submit a new quote request.");
  catalogued "INVALID_WALLET_ADDRESS" "INVALID_WALLET_ADDRESS" ["The wallet address is not a valid 56-character Stellar public key (G…)."]
    ("Copy your wallet address from your Stellar wallet and paste it again.");
  catalogued "INSUFFICIENT_BALANCE" "INSUFFICIENT_BALANCE" ["Your XLM balance is too low to pay the premium plus network fees."]
    ("Top up your wallet with XLM and retry. Consider using the on-ramp feature.");
  catalogued "POLICY_ALREADY_EXISTS" "POLICY_ALREADY_EXISTS" ["A policy was already purchased for this quote ID."]
    ("View your existing policy on the Policies page. Request a new quote if you need additional coverage.");
  catalogued "TERMS_NOT_ACCEPTED" "TERMS_NOT_ACCEPTED" ["The terms and conditions checkbox was not checked before submitting."]
    ("Read and accept the terms and conditions, then submit again.");
  catalogued "CLAIM_NOT_FOUND" "CLAIM_NOT_FOUND" ["The claim ID does not exist in the indexer or on-chain."; "The ID in the URL is incorrect."]
    ("Check the URL and claim ID. Navigate from the Claims page to find the correct claim.");
  catalogued "CLAIM_ALREADY_EXISTS" "CLAIM_ALREADY_EXISTS" ["A claim was already filed under this policy."]
    ("Find your existing claim on the Claims page. Only one active claim per policy is allowed.");
  catalogued "POLICY_NOT_FOUND" "POLICY_NOT_FOUND" ["The referenced policy does not exist or belongs to a different wallet."]
    ("Ensure you are connected with the wallet that owns the policy.");
  catalogued "POLICY_INACTIVE" "POLICY_INACTIVE" ["The policy has expired or been terminated."]
    ("You can only file claims against active policies. Renew or purchase a new policy.");
  catalogued "CLAIM_AMOUNT_EXCEEDS_COVERAGE" "CLAIM_AMOUNT_EXCEEDS_COVERAGE" ["The requested claim amount is greater than the policy coverage limit."]
    ("Reduce the claim amount to be within your coverage limit.");
  catalogued "OPEN_CLAIM_EXISTS" "OPEN_CLAIM_EXISTS" ["There is already an open (Processing or Pending) claim for this policy."]
    ("Wait for the existing claim to be resolved before filing a new one.");
  catalogued "ALREADY_VOTED" "ALREADY_VOTED" ["Your wallet has already cast a vote on this claim."]
    ("Each eligible voter may only vote once per claim. No action needed.");
  catalogued "NOT_A_VOTER" "NOT_A_VOTER" ["Your wallet is not registered as an eligible voter."; "Voting eligibility is determined at claim filing time."]
    ("Only registered voters may vote on claims. Contact governance if you believe this is an error.");
  catalogued "VOTING_CLOSED" "VOTING_CLOSED" ["The voting deadline ledger has passed."]
    ("The voting window for this claim has closed. No further votes can be cast.");
  catalogued "TRANSACTION_FAILED" "TRANSACTION_FAILED" ["The Stellar transaction was rejected by validators."; "An on-chain precondition was not met."]
    ("Retry the transaction. If it fails again, check for conflicting on-chain state.");
  catalogued "TRANSACTION_REJECTED" "TRANSACTION_REJECTED" ["You rejected the transaction in your wallet."; "The wallet extension timed out."]
    ("Re-initiate the action and approve the transaction in your wallet when prompted.");
  catalogued "INSUFFICIENT_FEE" "INSUFFICIENT_FEE" ["The submitted transaction fee (base + resource fee) was below the network minimum."]
    ("The app automatically calculates fees. Retry; if the error persists, your XLM balance may be too low.");
  catalogued "CONTRACT_ERROR" "CONTRACT_ERROR" ["The Soroban smart contract returned a non-zero error code."; "Business logic precondition failed on-chain."]
    ("Note any displayed error code and contact support. Do not retry without investigating.");
  catalogued "SOROBAN_RPC_ERROR" "SOROBAN_RPC_ERROR" ["The Soroban RPC node returned an error or is temporarily unavailable."]
    ("Wait a minute and retry. The app will automatically switch to a fallback RPC if available.");
  catalogued "LEDGER_CLOSED" "LEDGER_CLOSED" ["The ledger closed before your transaction was included in a block."]
    ("Resubmit the transaction. This can happen during high network congestion.");
  catalogued "INVALID_CONTRACT_ADDRESS" "INVALID_CONTRACT_ADDRESS" ["The Soroban contract address in the app configuration is malformed."]
    ("This is a configuration issue. Contact the team; do not manually edit contract addresses.");
  catalogued "INSUFFICIENT_COVERAGE" "INSUFFICIENT_COVERAGE" ["The requested coverage amount is below the protocol minimum."]
    ("Increase the coverage amount to meet the minimum requirement shown on the quote page.");
  catalogued "EXCESSIVE_COVERAGE" "EXCESSIVE_COVERAGE" ["The requested coverage amount exceeds the protocol maximum."]
    ("Reduce the coverage amount or split coverage across multiple policies.");
  catalogued "HIGH_RISK_PROFILE" "HIGH_RISK_PROFILE" ["Your on-chain risk profile score exceeds the threshold for new coverage."]
    ("Wait for existing claims to resolve. You may reapply after your risk score decreases.");
  catalogued "CONTRACT_NOT_SUPPORTED" "CONTRACT_NOT_SUPPORTED" ["The selected contract type is disabled or not yet deployed to this network."]
    ("Choose a supported contract type. Check the documentation for available options.");
  catalogued "INVALID_RISK_CATEGORY" "INVALID_RISK_CATEGORY" ["An unrecognised risk category string was submitted."]
    ("Select a valid risk category from the dropdown. Do not manually edit the URL parameters.");
  catalogued "INVALID_DURATION" "INVALID_DURATION" ["The policy duration is outside the allowed range (typically 30–365 days)."]
    ("Adjust the duration to fall within the allowed range shown on the quote form.")].

(** The rows of the support page for a search text.
    Models [ErrorCodesTable] (frontend/src/components/support/error-codes-table.tsx:7-19). *)
Definition ErrorCodesTable (query : string) : list ErrorCatalogEntry :=
  let q := trim (toLowerCase query) in
  if bool_decide (q = "") then ERROR_CATALOG
  else filter (λ e, includes (toLowerCase (c_code e)) q || includes (toLowerCase (c_message e)) q ||
                    existsb (λ c, includes (toLowerCase c) q) (c_causes e) || includes (toLowerCase (c_resolution e)) q = true) ERROR_CATALOG.

(** ** Calls *)

(** The members of an error answer that are read, texts if they are there. *)
Record ApiErrorBody := MkBody { b_error : option string; b_message : option string }.

(** An answer; [r_body] is [None] when an error's body does not parse. *)
Record http_response (T : Type) := MkResponse {
  r_status : Z; r_x_request_id : option string; r_x_correlation_id : option string; r_error : option ApiErrorBody; r_data : result string T }.
Arguments MkResponse {T}.
Arguments r_status {T}. Arguments r_x_request_id {T}. Arguments r_x_correlation_id {T}. Arguments r_error {T}. Arguments r_data {T}.

(** Models [httpStatusToCode] (frontend/src/lib/api/fetch.ts:44-51). *)
Definition httpStatusToCode (status : Z) : string :=
  if status =? 401 then "UNAUTHORIZED" else if status =? 403 then "FORBIDDEN" else if status =? 404 then "NOT_FOUND"
  else if status =? 429 then "RATE_LIMIT_EXCEEDED" else if 500 <=? status then "SERVER_ERROR" else "UNKNOWN_ERROR".

Definition space_to_underscore (c : ascii) : ascii := if bool_decide (c = " "%char) then "_"%char else c.

(** [answer] is [None] when the request fails.
    Models [apiFetch] (frontend/src/lib/api/fetch.ts:18-42). *)
Definition apiFetch {T} (answer : option (http_response T)) : result thrown T :=
  match answer with
  | None => Throw (TApp (MkAppError "NETWORK_ERROR" "Network request failed" None))
  | Some res =>
      let requestId := match r_x_request_id res with Some i => Some i | None => r_x_correlation_id res end in
      if (200 <=? r_status res) && (r_status res <=? 299) then
        match r_data res with Ok d => Ok d | Throw m => Throw (TError m) end
      else
        let body := default (MkBody None None) (r_error res) in
        let c := match b_error body with
                 | Some e => str_map space_to_underscore (toUpperCase e)
                 | None => httpStatusToCode (r_status res)
                 end in
        Throw (TApp (MkAppError c (default "Request failed" (b_message body)) requestId))
  end.

(** ** What the backend's errors look like *)
Section backend_errors.
Context {D : Type} (STATUS_CODES : Z → option string).

(** The members of an answer of the backend that are texts; the others are [status], [extensions], [data],
    [meta] and [errors]. *)
Definition answer_texts (a : ErrorFilter.answer (D:=D)) : list (string * string) :=
  [("type", a_type a); ("title", a_title a); ("detail", a_detail a); ("instance", a_instance a)].

Definition answer_response {T} (a : ErrorFilter.answer (D:=D)) (request_id correlation_id : string) : http_response T :=
  MkResponse (a_status a) (Some request_id) (Some correlation_id)
    (Some (MkBody (alist_get "error" (answer_texts a)) (alist_get "message" (answer_texts a)))) (Throw "").

(** The messages that follow from a status; there is none for NOT_FOUND. *)
Definition status_messages : list string :=
  omap message_of ["UNAUTHORIZED"; "FORBIDDEN"; "RATE_LIMIT_EXCEEDED"; "SERVER_ERROR"; "UNKNOWN_ERROR"].

(** The codes of the backend are not shown.  Whatever error the backend answers, the front end reads neither its code nor its text:
    the code follows from the status alone, the text is fixed, and the user is shown one of five messages.
    Only the request's id is kept. *)
Theorem backend_code_not_shown {T} (e : exception) u now requestId request_id correlation_id :
  let a := catch_ (D:=D) STATUS_CODES e u now requestId in
  400 ≤ a_status a →
  ∃ err, apiFetch (T:=T) (Some (answer_response a request_id correlation_id)) = Throw (TApp err) ∧
    e_code err = httpStatusToCode (a_status a) ∧ e_message err = "Request failed" ∧
    getCorrelationId (TApp err) = Some request_id ∧ resolveErrorMessage (TApp err) ∈ status_messages.
Proof.
  intros a Hst. eexists. unfold apiFetch, answer_response. cbn [r_status r_x_request_id r_error].
  destruct (Z.leb_spec (a_status a) 299); [lia|]. rewrite andb_false_r. cbn [default].
  change (b_error _) with (@None string). change (b_message _) with (@None string). cbv iota. cbn [default].
  split_and!; [reflexivity|done|done|done|]. cbn [resolveErrorMessage e_code]. unfold httpStatusToCode.
  repeat case_match; apply (bool_decide_unpack _); vm_compute; exact I.
Qed.
End backend_errors.

(** An appeal after its window has closed is refused with a code for which there is a message; the user is told that an
    unexpected error has occurred. *)
Example appeal_refusal_shown :
  let c := entry "APPEAL_WINDOW_CLOSED" 409 "errors.appeal.windowClosed"
     "The appeal window closed; the current ledger is past the claim appeal_open_deadline_ledger." in
  let a := catch_ (D:=Z) (λ _, None) (App c None None) "/api/claims/1/appeal" "t" None in
  c ∈ ErrorFilter.ERROR_CATALOG ∧ a_code a = "APPEAL_WINDOW_CLOSED" ∧
  message_of "APPEAL_WINDOW_CLOSED" = Some "The appeal window for this claim has closed." ∧
  ∃ err, apiFetch (T:=Z) (Some (answer_response a "r" "r")) = Throw err ∧
    resolveErrorMessage err = "An unexpected error occurred. Please try again.".
Proof.
  split_and!; [apply (bool_decide_unpack _); vm_compute; exact I|reflexivity|reflexivity|]. eexists. split; [reflexivity|reflexivity].
Qed.

(** The support page.  Every row stands for a code with a message, no code occurs twice, and the table lacks exactly the codes of the
    appeals. *)
Theorem catalog_rows :
  Forall (λ e, message_of (c_code e) = Some (c_message e)) ERROR_CATALOG ∧ NoDup (c_code <$> ERROR_CATALOG) ∧ NoDup (fst <$> ERROR_MESSAGES) ∧
  filter (λ c, c ∉ (c_code <$> ERROR_CATALOG)) (fst <$> ERROR_MESSAGES) =
    ["NOT_CLAIMANT"; "CLAIM_NOT_REJECTED"; "APPEAL_ALREADY_SUBMITTED"; "APPEAL_WINDOW_CLOSED"; "CLAIMS_PAUSED"].
Proof. split_and!; [apply (bool_decide_unpack _); vm_compute; exact I..|vm_compute; reflexivity]. Qed.

(** ** Retries *)

(** Models [RETRYABLE_CODES] (frontend/src/lib/retry.ts:11-17). *)
Definition RETRYABLE_CODES : list string := ["NETWORK_ERROR"; "SERVER_ERROR"; "SOROBAN_RPC_ERROR"; "TIMEOUT_ERROR"; "RATE_LIMIT_EXCEEDED"].

(** Models [isRetryable] (frontend/src/lib/retry.ts:19-23). *)
Definition isRetryable (error : thrown) : bool :=
  match error with
  | TApp e => bool_decide (e_code e ∈ RETRYABLE_CODES)
  | TError m => includes (toLowerCase m) "failed to fetch"
  | TValue => false
  end.

(** [r] is the random number, at least 0 and less than 1.
    Models [backoffMs] (frontend/src/lib/retry.ts:25-29). *)
Definition backoffMs (attempt : nat) (baseMs maxMs : Z) (r : Q) : Q :=
  inject_Z (Z.min (baseMs * 2 ^ Z.of_nat attempt) maxMs) * ((8 # 10) + r * (4 # 10)).

(** The calls from number [attempt] on; [left] of them may still be made, and [fn] is the call, which changes
    the world.  Also how often it was called.  Without a call what is thrown is undefined.
    Models [withRetry] (frontend/src/lib/retry.ts:38-56). *)
Fixpoint withRetry {W T} (fn : nat → W → result thrown T * W) (left attempt : nat) (w : W) : result thrown T * nat * W :=
  match left with
  | O => (Throw TValue, attempt, w)
  | S left' =>
      let '(r, w) := fn attempt w in
      match r with
      | Ok v => (Ok v, S attempt, w)
      | Throw err => if negb (isRetryable err) || (left' =? 0)%nat then (Throw err, S attempt, w) else withRetry fn left' (S attempt) w
      end
  end.

(** The outcome of the calls, the [n]-th being given. *)
Section retries.
Context {T : Type} (outcome : nat → result thrown T).

(** The call ends the retries. *)
Definition final (n : nat) : bool := match outcome n with Ok _ => true | Throw e => negb (isRetryable e) end.

Lemma withRetry_from left attempt : (0 < left)%nat →
  ∃ k, (attempt ≤ k < attempt + left)%nat ∧ withRetry (λ n (w : ()), (outcome n, w)) left attempt tt = (outcome k, S k, tt) ∧
    (∀ j, (attempt ≤ j < k)%nat → final j = false) ∧ (final k = true ∨ k = (attempt + left - 1)%nat).
Proof.
  revert attempt. induction left as [|left IH]; intros attempt Hl; [lia|]. cbn [withRetry].
  assert (final attempt = false → ∃ e, outcome attempt = Throw e ∧ isRetryable e = true) as Hf.
  { unfold final. destruct (outcome attempt); [done|]. intros Hr. eexists. split; [done|]. by apply negb_false_iff in Hr. }
  destruct (final attempt) eqn:Hfin.
  - exists attempt. split; [lia|]. split; [|split; [lia|by left]]. unfold final in Hfin. destruct (outcome attempt) as [v|e] eqn:Ho; [done|]. by rewrite Hfin.
  - destruct (Hf eq_refl) as (e & Ho & Hr). rewrite Ho, Hr. cbn [negb orb]. destruct (Nat.eqb_spec left 0) as [->|Hne].
    + exists attempt. rewrite Ho. split; [lia|]. split; [done|]. split; [lia|right; lia].
    + destruct (IH (S attempt)) as (k & Hk & Hrun & Hbef & Hend); [lia|]. exists k. split; [lia|]. split; [done|]. split; [|destruct Hend; [by left|right; lia]].
      intros j Hj. destruct (decide (j = attempt)) as [->|]; [done|]. apply Hbef. lia.
Qed.

(** Retries end.  The call is made at least once and at most as often as allowed; its outcome is that of the first call that succeeds
    or fails for good, or of the last one, and every call before was one that failed for a time. *)
Theorem retries_end maxAttempts : (0 < maxAttempts)%nat →
  ∃ k, (k < maxAttempts)%nat ∧ withRetry (λ n (w : ()), (outcome n, w)) maxAttempts 0 tt = (outcome k, S k, tt) ∧
    (∀ j, (j < k)%nat → ∃ e, outcome j = Throw e ∧ isRetryable e = true) ∧
    (k = (maxAttempts - 1)%nat ∨ (∃ v, outcome k = Ok v) ∨ ∃ e, outcome k = Throw e ∧ isRetryable e = false).
Proof.
  intros H0. destruct (withRetry_from maxAttempts 0 H0) as (k & Hk & Hrun & Hbef & Hend). exists k. split; [lia|]. split; [done|]. split.
  - intros j Hj. specialize (Hbef j ltac:(lia)). unfold final in Hbef. destruct (outcome j); [done|]. eexists. split; [done|]. by apply negb_false_iff in Hbef.
  - destruct Hend as [Hend|]; [right|left; lia]. unfold final in Hend. destruct (outcome k); [by left; eexists|]. right. eexists. split; [done|]. by apply negb_true_iff in Hend.
Qed.
End retries.

(** A delay is the capped power, more or less a fifth. *)
Theorem backoffMs_range attempt baseMs maxMs r : 0 ≤ baseMs → 0 ≤ maxMs → (0 <= r)%Q → (r < 1)%Q →
  let e := inject_Z (Z.min (baseMs * 2 ^ Z.of_nat attempt) maxMs) in
  ((8 # 10) * e <= backoffMs attempt baseMs maxMs r)%Q ∧ (backoffMs attempt baseMs maxMs r <= (12 # 10) * e)%Q ∧ (backoffMs attempt baseMs maxMs r <= (12 # 10) * inject_Z maxMs)%Q.
Proof.
  intros Hb Hm H0 H1 e. assert (0 <= e)%Q as He.
  { unfold e. change 0%Q with (inject_Z 0). rewrite <-Zle_Qle. assert (0 < 2 ^ Z.of_nat attempt) by (apply Z.pow_pos_nonneg; lia). nia. }
  assert (e <= inject_Z maxMs)%Q as Hem by (unfold e; rewrite <-Zle_Qle; lia). unfold backoffMs. fold e. split_and!; nra.
Qed.

(** ** Witnesses *)
Module AppErrorWitnesses.
Lemma backend_code_not_shown_witness :
  let a := catch_ (D:=Z) (λ _, None) (Err "out of memory") "/x" "t" None in
  ∃ err, apiFetch (T:=Z) (Some (answer_response a "r1" "c1")) = Throw (TApp err) ∧ e_code err = "SERVER_ERROR".
Proof.
  destruct (backend_code_not_shown (D:=Z) (λ _, None) (T:=Z) (Err "out of memory") "/x" "t" None "r1" "c1") as (err & H1 & H2 & _); [vm_compute; discriminate|].
  exists err. split; [exact H1|]. exact H2.
Defined.

Lemma retries_end_witness :
  let outcome n := if (n <? 2)%nat then Throw (TApp (MkAppError "SERVER_ERROR" "Request failed" None)) else Ok 7 in
  ∃ k, withRetry (λ n (w : ()), (outcome n, w)) 3 0 tt = (outcome k, S k, tt).
Proof.
  intros outcome. destruct (retries_end outcome 3) as (k & _ & Hk & _); [lia|]. exists k. exact Hk.
Defined.

Lemma backoffMs_range_witness : (backoffMs 10 500 10000 (1 # 2) <= (12 # 10) * inject_Z 10000)%Q.
Proof. apply (backoffMs_range 10 500 10000 (1 # 2)); [lia|lia|lra|lra]. Defined.
End AppErrorWitnesses.
