(* ===== verification/Toasts.v ===== *)
(** * Toasts

    frontend/src/components/ui/use-toast.ts: the list of short messages that all
    components of the page share, with the timers that close and remove them.  A timer
    is an entry of [timers]; it fires when it is due. *)

From stdpp Require Import base list strings.
From Stdlib Require Import ZArith Lia.
From S2P Require Import Prelude JsText.

Open Scope string_scope.
Open Scope Z_scope.

(** Models [TOAST_LIMIT] (frontend/src/components/ui/use-toast.ts:7-7). *)
Definition TOAST_LIMIT : nat := 5.
(** Models [TOAST_REMOVE_DELAY] (frontend/src/components/ui/use-toast.ts:8-8). *)
Definition TOAST_REMOVE_DELAY : Z := 1000000.
(** Models [DEFAULT_DURATION_MS] (frontend/src/components/ui/use-toast.ts:10-10). *)
Definition DEFAULT_DURATION_MS : Z := 5000.
Definition MAX_SAFE_INTEGER : Z := 2 ^ 53 - 1.

(** What is shown of a toast besides its state is its [content].
    Models [ToasterToast] (frontend/src/components/ui/use-toast.ts:12-19). *)
Record ToasterToast := { id : string; content : string; open : bool }.

(** The fields an update gives; its handler is not replaced. *)
Record patch := { p_content : option string; p_open : option bool }.

(** Models [Action] (frontend/src/components/ui/use-toast.ts:35-51). *)
Inductive Action :=
  | ADD_TOAST (t : ToasterToast)
  | UPDATE_TOAST (i : string) (p : patch)
  | DISMISS_TOAST (toastId : option string)
  | REMOVE_TOAST (toastId : option string).

(** What a timer does. *)
Inductive timer := TDismiss (i : string) | TRemove (i : string).

(** The module's variables: [count], [memoryState], the keys of [toastTimeouts], and
    the timers that are set. *)
Record world := World { count : Z; toasts : list ToasterToast; queued : list string; timers : list (Z * timer) }.

Definition with_toasts (f : list ToasterToast → list ToasterToast) (w : world) : world := World (count w) (f (toasts w)) (queued w) (timers w).
Definition add_timer (due : Z) (x : timer) (w : world) : world := World (count w) (toasts w) (queued w) (timers w ++ [(due, x)])%list.

(** Models [addToRemoveQueue] (frontend/src/components/ui/use-toast.ts:59-73). *)
Definition addToRemoveQueue (now : Z) (w : world) (toastId : string) : world :=
  if bool_decide (toastId ∈ queued w) then w
  else add_timer (now + TOAST_REMOVE_DELAY) (TRemove toastId) (World (count w) (toasts w) (toastId :: queued w) (timers w)).

Definition apply_patch (p : patch) (t : ToasterToast) : ToasterToast :=
  {| id := id t; content := default (content t) (p_content p); open := default (open t) (p_open p) |}.
Definition closed (t : ToasterToast) : ToasterToast := {| id := id t; content := content t; open := false |}.

(** An empty id is taken for none by the queue, but closes no toast.
    Models [reducer] (frontend/src/components/ui/use-toast.ts:75-126). *)
Definition reducer (now : Z) (w : world) (a : Action) : world :=
  match a with
  | ADD_TOAST t => with_toasts (λ l, take TOAST_LIMIT (t :: l)) w
  | UPDATE_TOAST i p => with_toasts (fmap (λ t, if bool_decide (id t = i) then apply_patch p t else t)) w
  | DISMISS_TOAST toastId =>
      let w1 := match truthy toastId with
                | Some i => addToRemoveQueue now w i
                | None => foldl (addToRemoveQueue now) w (id <$> toasts w)
                end in
      with_toasts (fmap (λ t, if bool_decide (Some (id t) = toastId) || bool_decide (toastId = None) then closed t else t)) w1
  | REMOVE_TOAST None => with_toasts (λ _, []) w
  | REMOVE_TOAST (Some i) => with_toasts (List.filter (λ t, negb (bool_decide (id t = i)))) w
  end.

(** Models [genId] (frontend/src/components/ui/use-toast.ts:30-33). *)
Definition genId (w : world) : world := World ((count w + 1) `mod` MAX_SAFE_INTEGER) (toasts w) (queued w) (timers w).

(** Models [toast] (frontend/src/components/ui/use-toast.ts:141-174). *)
Definition toast (now : Z) (text : string) (duration : option Z) (w : world) : world :=
  let w1 := genId w in
  let i := show_Z (count w1) in
  let w2 := reducer now w1 (ADD_TOAST {| id := i; content := text; open := true |}) in
  let d := default DEFAULT_DURATION_MS duration in
  if 0 <? d then add_timer (now + d) (TDismiss i) w2 else w2.

(** What happens on the page: a toast is shown; the handle of a toast is used; a toast
    is closed by the user ([onOpenChange]) or by [dismiss] of the hook; a timer fires. *)
Inductive event :=
  | EvToast (text : string) (duration : option Z)
  | EvUpdate (i : string) (p : patch)
  | EvOpenChange (i : string) (o : bool)
  | EvDismiss (toastId : option string)
  | EvTimer (n : nat).

(** The callbacks of the two kinds of timers. *)
Definition fire (now : Z) (n : nat) (w : world) : world :=
  match timers w !! n with
  | Some (_, TDismiss i) => reducer now (World (count w) (toasts w) (queued w) (delete n (timers w))) (DISMISS_TOAST (Some i))
  | Some (_, TRemove i) =>
      reducer now (World (count w) (toasts w) (List.filter (λ j, negb (bool_decide (j = i))) (queued w)) (delete n (timers w))) (REMOVE_TOAST (Some i))
  | None => w
  end.

Definition step (now : Z) (w : world) (e : event) : world :=
  match e with
  | EvToast text d => toast now text d w
  | EvUpdate i p => reducer now w (UPDATE_TOAST i p)
  | EvOpenChange i o => if o then w else reducer now w (DISMISS_TOAST (Some i))
  | EvDismiss i => reducer now w (DISMISS_TOAST i)
  | EvTimer n => fire now n w
  end.

Fixpoint run (w : world) (evs : list (Z * event)) : world :=
  match evs with
  | [] => w
  | (t, e) :: evs' => run (step t w e) evs'
  end.

Definition start : world := World 0 [] [] [].

(** Time passes from [t] to the events, no timer is passed over, and only timers that
    are due fire. *)
Fixpoint timely (t : Z) (w : world) (evs : list (Z * event)) : Prop :=
  match evs with
  | [] => True
  | (t', e) :: evs' =>
      t ≤ t' ∧ Forall (λ x, t' ≤ x.1) (timers w) ∧
      (match e with EvTimer n => ∀ x, timers w !! n = Some x → x.1 ≤ t' | _ => True end) ∧
      timely t' (step t' w e) evs'
  end.

(** ** The list is well formed *)

Definition ids (w : world) : list string := id <$> toasts w.

(** What the queue does to the other parts of the state. *)
Lemma queue_keeps now w i : count (addToRemoveQueue now w i) = count w ∧ toasts (addToRemoveQueue now w i) = toasts w.
Proof. unfold addToRemoveQueue. by case_match. Qed.

Lemma queue_all_keeps now l w : count (foldl (addToRemoveQueue now) w l) = count w ∧ toasts (foldl (addToRemoveQueue now) w l) = toasts w.
Proof.
  revert w. induction l as [|i l IH]; intros w; cbn; [done|]. destruct (IH (addToRemoveQueue now w i)) as [-> ->]. apply queue_keeps.
Qed.

Lemma fmap_ids (f : ToasterToast → ToasterToast) (l : list ToasterToast) : (∀ t, id (f t) = id t) → id <$> (f <$> l) = id <$> l.
Proof. intros Hf. induction l as [|t l IH]; cbn; [done|]. by rewrite Hf, <- IH. Qed.

(** Dismissing and updating change no id. *)
Lemma dismiss_ids now w x : ids (reducer now w (DISMISS_TOAST x)) = ids w ∧ count (reducer now w (DISMISS_TOAST x)) = count w.
Proof.
  unfold ids. cbn [reducer with_toasts toasts count]. rewrite fmap_ids by (intros t; by case_match).
  destruct (truthy x) as [i|]; [destruct (queue_keeps now w i)|destruct (queue_all_keeps now (id <$> toasts w) w)]; split; congruence.
Qed.

Lemma update_ids now w i p : ids (reducer now w (UPDATE_TOAST i p)) = ids w.
Proof. unfold ids. cbn [reducer with_toasts toasts]. apply fmap_ids. intros t. by case_match. Qed.

Lemma remove_ids now w i : ids (reducer now w (REMOVE_TOAST (Some i))) = List.filter (λ j, negb (bool_decide (j = i))) (ids w).
Proof.
  unfold ids. cbn [reducer with_toasts toasts]. induction (toasts w) as [|t l IH]; [done|]. cbn. destruct (bool_decide _); cbn; congruence.
Qed.

(** At most five toasts, with different ids that the counter has given. *)
Definition wf (w : world) : Prop :=
  0 ≤ count w < MAX_SAFE_INTEGER ∧ (length (toasts w) ≤ TOAST_LIMIT)%nat ∧ NoDup (ids w) ∧ Forall (λ i, ∃ k, 0 < k ≤ count w ∧ i = show_Z k) (ids w).

Lemma show_Z_inj a b : show_Z a = show_Z b → a = b.
Proof. intros E. pose proof (parseInt10_show a) as Ha. rewrite E, parseInt10_show in Ha. congruence. Qed.

Lemma wf_ids w w' : count w' = count w → (∃ p, ids w' = List.filter p (ids w)) → wf w → wf w'.
Proof.
  intros Hc [p Hi] (Hn & Hl & Hd & Hf). unfold wf. rewrite Hc, Hi. split; [exact Hn|]. split_and!.
  - assert (length (ids w') = length (toasts w')) as <- by apply length_fmap. rewrite Hi.
    assert (length (ids w) = length (toasts w)) as E by apply length_fmap. pose proof (filter_length_le p (ids w)). lia.
  - by apply NoDup_ListNoDup, List.NoDup_filter, NoDup_ListNoDup.
  - apply Forall_forall. intros i Hin. apply list_elem_of_In, filter_In in Hin as [Hin _]. apply list_elem_of_In in Hin. by eapply Forall_forall in Hf.
Qed.

Lemma filter_true (l : list string) : List.filter (λ _, true) l = l.
Proof. induction l; cbn; congruence. Qed.

Lemma wf_same w w' : count w' = count w → ids w' = ids w → wf w → wf w'.
Proof. intros Hc Hi. apply wf_ids; [done|]. exists (λ _, true). by rewrite filter_true. Qed.

Lemma wf_toast now text d w : count w + 1 < MAX_SAFE_INTEGER → wf w → wf (toast now text d w).
Proof.
  intros Hc (Hn & Hl & Hd & Hf).
  assert (wf (reducer now (genId w) (ADD_TOAST {| id := show_Z (count (genId w)); content := text; open := true |}))) as Hw.
  { assert (count (genId w) = count w + 1) as Hg by (cbn; apply Z.mod_small; lia). unfold wf, ids. cbn [reducer with_toasts toasts count].
    rewrite Hg. split_and!; try lia.
    - rewrite length_take. lia.
    - rewrite fmap_take. assert (NoDup (show_Z (count w + 1) :: ids w)) as Hall.
      { constructor; [|exact Hd]. intros Hin. eapply Forall_forall in Hf as (k & Hk & E); [|exact Hin]. apply show_Z_inj in E. lia. }
      rewrite <- (take_drop TOAST_LIMIT (_ :: _)) in Hall. by apply NoDup_app in Hall as [? _].
    - rewrite fmap_take. apply Forall_take. cbn. constructor; [exists (count w + 1); split; [lia|done]|].
      eapply Forall_impl; [exact Hf|]. intros i (k & Hk & ->). exists k. split; [lia|done]. }
  unfold toast. case_match; [|done]. by apply (wf_same (reducer now (genId w) (ADD_TOAST {| id := show_Z (count (genId w)); content := text; open := true |}))).
Qed.

Lemma wf_step now w e : count w + 1 < MAX_SAFE_INTEGER → wf w → wf (step now w e) ∧ count w ≤ count (step now w e) ≤ count w + 1.
Proof.
  intros Hc Hw. destruct e as [text d|i p|i o|x|n]; cbn [step].
  - split; [by apply wf_toast|]. unfold toast. assert (count (genId w) = count w + 1) as Hg by (cbn; apply Z.mod_small; destruct Hw; lia).
    case_match; cbn [add_timer reducer with_toasts count]; cbn in Hg |- *; lia.
  - split; [|cbn; lia]. apply (wf_same w); [done|apply update_ids|done].
  - destruct o; [split; [done|lia]|]. destruct (dismiss_ids now w (Some i)) as [Hi Hn]. split; [by apply (wf_same w)|lia].
  - destruct (dismiss_ids now w x) as [Hi Hn]. split; [by apply (wf_same w)|lia].
  - unfold fire. destruct (timers w !! n) as [[due [i|i]]|]; [| |split; [done|lia]].
    + edestruct (dismiss_ids now) as [Hi Hn]. split; [by apply (wf_same w); [exact Hn|exact Hi|]|]. rewrite Hn. cbn. lia.
    + split; [|cbn; lia]. apply (wf_ids w); [done| |done]. eexists. exact (remove_ids now _ i).
Qed.

Lemma wf_run evs w : wf w → count w + Z.of_nat (length evs) + 1 < MAX_SAFE_INTEGER → wf (run w evs) ∧ count w ≤ count (run w evs) ≤ count w + Z.of_nat (length evs).
Proof.
  revert w. induction evs as [|[t e] evs IH]; intros w Hw Hn; [cbn; split; [done|lia]|]. cbn [length run] in *.
  destruct (wf_step t w e ltac:(lia) Hw) as [Hw' Hc]. destruct (IH _ Hw') as [? ?]; [lia|]. split; [done|lia].
Qed.

Lemma wf_start : wf start.
Proof. unfold wf. cbn. split_and!; (done || lia || constructor). Qed.

(** Over every history of fewer than 2^53 - 2 events there are at most five toasts and no
    two share an id, so that closing or updating one touches no other. *)
Theorem toasts_well_formed evs : Z.of_nat (length evs) + 1 < MAX_SAFE_INTEGER → wf (run start evs).
Proof. intros Hl. apply wf_run; [exact wf_start|cbn; lia]. Qed.

(** ** Every toast with a duration leaves *)

(** The invariant of the queue: a queued id has its timer, which is due after the delay
    at the latest. *)
Definition queue_ok (now : Z) (w : world) : Prop :=
  Forall (λ i, ∃ due, due ≤ now + TOAST_REMOVE_DELAY ∧ (due, TRemove i) ∈ timers w) (queued w).

(** The toast [i], if it is shown, will be dismissed by [T] or removed by the delay
    after it. *)
Definition leaving (T : Z) (i : string) (w : world) : Prop :=
  i ∈ ids w → (∃ due, due ≤ T ∧ (due, TDismiss i) ∈ timers w) ∨ (∃ due, due ≤ T + TOAST_REMOVE_DELAY ∧ (due, TRemove i) ∈ timers w).

Definition grows (w w' : world) : Prop := (∀ x, x ∈ timers w → x ∈ timers w').

Lemma queue_ok_later now now' w : now ≤ now' → queue_ok now w → queue_ok now' w.
Proof. intros Hn Hq. eapply Forall_impl; [exact Hq|]. intros i (due & Hd & Hin). exists due. split; [lia|done]. Qed.

Lemma queue_one now w i : queue_ok now w → queue_ok now (addToRemoveQueue now w i) ∧ i ∈ queued (addToRemoveQueue now w i) ∧ grows w (addToRemoveQueue now w i) ∧
  (∀ j, j ∈ queued w → j ∈ queued (addToRemoveQueue now w i)).
Proof.
  intros Hq. unfold addToRemoveQueue, grows. case_match eqn:Hb; bool_prop; [by split_and!|]. cbn [queued timers add_timer].
  split_and!; [|by left|intros x Hx; apply elem_of_app; by left|intros j Hj; by right]. constructor.
  - exists (now + TOAST_REMOVE_DELAY). split; [lia|]. apply elem_of_app. right. by left.
  - eapply Forall_impl; [exact Hq|]. intros j (due & Hd & Hin). exists due. split; [done|]. apply elem_of_app. by left.
Qed.

Lemma queue_many now l w : queue_ok now w → let w' := foldl (addToRemoveQueue now) w l in
  queue_ok now w' ∧ (∀ i, i ∈ l → i ∈ queued w') ∧ grows w w' ∧ (∀ j, j ∈ queued w → j ∈ queued w').
Proof.
  revert w. induction l as [|i l IH]; intros w Hq; cbn.
  { split; [done|]. split; [by intros i ?%elem_of_nil|]. split; [by intros x|done]. }
  destruct (queue_one now w i Hq) as (Hq' & Hi & Hg & Hk). destruct (IH _ Hq') as (Hq2 & Hl & Hg2 & Hk2).
  split_and!; [done| |by intros x Hx; apply Hg2, Hg|auto]. intros j [-> | Hj]%elem_of_cons; auto.
Qed.

(** After a dismissal the queue is in order, and what was dismissed is queued. *)
Lemma dismiss_queues now w x : queue_ok now w → let w' := reducer now w (DISMISS_TOAST x) in
  queue_ok now w' ∧ grows w w' ∧ (∀ i, x = Some i → i ≠ "" → i ∈ queued w').
Proof.
  intros Hq. cbn [reducer]. destruct (truthy x) as [i|] eqn:Hx.
  - destruct (queue_one now w i Hq) as (Hq' & Hi & Hg & _). split_and!; [done..|]. intros j -> Hj. cbn in Hx. destruct j; [done|]. by injection Hx as <-.
  - destruct (queue_many now (id <$> toasts w) w Hq) as (Hq' & _ & Hg & _). split_and!; [done..|]. intros j -> Hj. cbn in Hx. by destruct j.
Qed.

Lemma timer_gone n (l : list (Z * timer)) x y : l !! n = Some x → y ∈ l → y = x ∨ y ∈ delete n l.
Proof.
  intros Hn Hy. apply list_elem_of_lookup in Hy as [k Hk]. destruct (decide (k = n)) as [->|Hne]; [left; congruence|right].
  rewrite (delete_take_drop l n). apply elem_of_app. destruct (decide (k < n)%nat).
  - left. apply list_elem_of_lookup. exists k. by rewrite lookup_take_lt.
  - right. apply list_elem_of_lookup. exists (k - S n)%nat. rewrite lookup_drop. rewrite <- Hk. f_equal. lia.
Qed.

(** What is left of the queue when a timer has fired. *)
Lemma queue_ok_fired now n due x w :
  timers w !! n = Some (due, x) → queue_ok now w →
  let q := match x with TRemove i => List.filter (λ j, negb (bool_decide (j = i))) (queued w) | TDismiss _ => queued w end in
  queue_ok now (World (count w) (toasts w) q (delete n (timers w))).
Proof.
  intros Hn Hq q. apply Forall_forall. cbn [queued timers]. intros j Hj.
  assert (j ∈ queued w ∧ x ≠ TRemove j) as [Hjq Hne].
  { subst q. destruct x as [i|i]; [done|]. apply list_elem_of_In, filter_In in Hj as [Hj Hne]. apply list_elem_of_In in Hj. bool_prop. split; [done|congruence]. }
  eapply Forall_forall in Hq as (d & Hd & Hin); [|exact Hjq]. exists d. split; [done|].
  destruct (timer_gone _ _ _ _ Hn Hin) as [E|Hin']; [congruence|done].
Qed.

Lemma grows_leaving T i w w' : grows w w' → (i ∈ ids w' → i ∈ ids w) → leaving T i w → leaving T i w'.
Proof. intros Hg Hi Hl Hin. destruct (Hl (Hi Hin)) as [(d & Hd & Hx)|(d & Hd & Hx)]; [left|right]; exists d; auto. Qed.

Lemma toast_grows now text d w : grows w (toast now text d w) ∧ queued (toast now text d w) = queued w.
Proof.
  unfold toast. case_match; [|split; [by intros x Hx|done]]. split; [|done]. intros x Hx. cbn. apply elem_of_app. by left.
Qed.

(** Every event leaves the queue in order. *)
Lemma queue_ok_step now w e : queue_ok now w → queue_ok now (step now w e).
Proof.
  intros Hq. destruct e as [text d|j p|j o|x|n]; cbn [step].
  - destruct (toast_grows now text d w) as [Hg E]. unfold queue_ok. rewrite E. eapply Forall_impl; [exact Hq|].
    intros j (due & Hd & Hin). exists due. auto.
  - exact Hq.
  - destruct o; [done|]. by apply dismiss_queues.
  - by apply dismiss_queues.
  - unfold fire. destruct (timers w !! n) as [[due [j|j]]|] eqn:Hn; [|exact (queue_ok_fired now n due _ w Hn Hq)|done].
    apply dismiss_queues. exact (queue_ok_fired now n due _ w Hn Hq).
Qed.

(** A new toast does not affect an older one. *)
Lemma toast_leaving T i now text d w :
  count w + 1 < MAX_SAFE_INTEGER → 0 ≤ count w → i ≠ show_Z (count w + 1) → leaving T i w → leaving T i (toast now text d w).
Proof.
  intros Hc H0 Hi Hl. assert (count (genId w) = count w + 1) as Hg by (cbn; apply Z.mod_small; lia).
  apply (grows_leaving T i w); [apply toast_grows| |done].
  assert (ids (toast now text d w) = take TOAST_LIMIT (show_Z (count w + 1) :: ids w)) as ->.
  { unfold toast. rewrite Hg. unfold ids. case_match; cbn [add_timer reducer with_toasts toasts]; by rewrite fmap_take. }
  intros (k & Hk & _)%elem_of_take. apply list_elem_of_lookup_2 in Hk. by apply elem_of_cons in Hk as [?|?].
Qed.

Lemma fired_leaving T i now n w :
  i ≠ "" → Forall (λ x, now ≤ x.1) (timers w) → queue_ok now w → leaving T i w →
  leaving T i (fire now n w).
Proof.
  intros Hi Ht Hq Hl. unfold fire. destruct (timers w !! n) as [[due x]|] eqn:Hn; [|done].
  pose proof (queue_ok_fired now n due x w Hn Hq) as Hq0. destruct x as [j|j]; cbn in Hq0.
  - destruct (dismiss_queues now _ (Some j) Hq0) as (Hq1 & Hg & Hj). destruct (decide (j = i)) as [->|Hne].
    + intros Hin. right. rewrite (proj1 (dismiss_ids now _ _)) in Hin. specialize (Hj i eq_refl Hi).
      destruct (Hl Hin) as [(d & Hd & Hx)|(d & Hd & Hx)].
      * eapply Forall_forall in Hq1 as (d' & Hd' & Hx'); [|exact Hj]. exists d'. split; [|done].
        eapply Forall_forall in Ht; [|exact Hx]. cbn in Ht. lia.
      * exists d. split; [done|]. apply Hg. cbn [timers]. by destruct (timer_gone _ _ _ _ Hn Hx).
    + eapply grows_leaving; [exact Hg|by rewrite (proj1 (dismiss_ids now _ _))|].
      intros Hin. destruct (Hl Hin) as [(d & Hd & Hx)|(d & Hd & Hx)]; [left|right]; exists d; (split; [done|]);
        destruct (timer_gone _ _ _ _ Hn Hx) as [E|]; [congruence|done|congruence|done].
  - intros Hin. rewrite remove_ids in Hin. apply list_elem_of_In, filter_In in Hin as [Hin Hne]. apply list_elem_of_In in Hin. bool_prop.
    destruct (Hl Hin) as [(d & Hd & Hx)|(d & Hd & Hx)]; [left|right]; exists d; (split; [done|]); cbn [timers reducer with_toasts];
      destruct (timer_gone _ _ _ _ Hn Hx) as [E|]; [congruence|done|congruence|done].
Qed.

Lemma leaving_step T i k now w e :
  wf w → count w + 1 < MAX_SAFE_INTEGER → i = show_Z k → 0 < k ≤ count w → Forall (λ x, now ≤ x.1) (timers w) →
  queue_ok now w → leaving T i w → leaving T i (step now w e).
Proof.
  intros Hw Hc -> Hk Ht Hq Hl. destruct e as [text d|j p|j o|x|n]; cbn [step].
  - apply toast_leaving; [done|lia| |done]. intros E%show_Z_inj. lia.
  - apply (grows_leaving T _ w); [by intros x| |done]. by rewrite update_ids.
  - destruct o; [done|]. apply (grows_leaving T _ w); [by apply dismiss_queues| |done]. by rewrite (proj1 (dismiss_ids now _ _)).
  - apply (grows_leaving T _ w); [by apply dismiss_queues| |done]. by rewrite (proj1 (dismiss_ids now _ _)).
  - apply fired_leaving; [apply show_Z_ne_empty|done..].
Qed.

Lemma leaving_run T i k evs : ∀ t w,
  wf w → count w + Z.of_nat (length evs) + 1 < MAX_SAFE_INTEGER → i = show_Z k → 0 < k ≤ count w → timely t w evs →
  queue_ok t w → leaving T i w → leaving T i (run w evs).
Proof.
  induction evs as [|[t' e] evs IH]; intros t w Hw Hc Hi Hk Ht Hq Hl; [done|]. destruct Ht as (Htt & Hdue & _ & Ht). cbn [length run] in *.
  destruct (wf_step t' w e ltac:(lia) Hw) as [Hw' Hcc].
  assert (queue_ok t' w) as Hq' by by eapply queue_ok_later.
  apply (IH t'); [done|lia|done|lia|done|by apply queue_ok_step|]. apply (leaving_step T i k); (done || lia).
Qed.

(** The toast that was just shown will be dismissed after its duration. *)
Lemma toast_starts_leaving now text d w :
  wf w → count w + 1 < MAX_SAFE_INTEGER → 0 < default DEFAULT_DURATION_MS d →
  leaving (now + default DEFAULT_DURATION_MS d) (show_Z (count w + 1)) (toast now text d w).
Proof.
  intros [Hn _] Hc Hd _. left. exists (now + default DEFAULT_DURATION_MS d). split; [lia|]. unfold toast.
  assert (count (genId w) = count w + 1) as -> by (cbn; apply Z.mod_small; lia).
  rewrite (proj2 (Z.ltb_lt _ _)) by done. cbn [add_timer timers]. apply elem_of_app. right. by left.
Qed.

Lemma run_app w evs evs' : run w (evs ++ evs') = run (run w evs) evs'.
Proof. revert w. induction evs as [|[t e] evs IH]; intros w; cbn; auto. Qed.

Lemma timely_app t w evs evs' : queue_ok t w → timely t w (evs ++ evs') → ∃ t', queue_ok t' (run w evs) ∧ timely t' (run w evs) evs'.
Proof.
  revert t w. induction evs as [|[t0 e] evs IH]; intros t w Hq; [eauto|]. cbn. intros (Ht & _ & _ & H).
  apply (IH t0); [|done]. apply queue_ok_step. by eapply queue_ok_later.
Qed.

(** Whatever is shown, updated and dismissed besides: a toast with a duration is gone
    once its duration and the delay have passed, by a time [t'] at which no timer is
    overdue. *)
Theorem toast_leaves now text d evs1 evs2 t' :
  let w := run start evs1 in let w' := run w ((now, EvToast text d) :: evs2) in
  Z.of_nat (length evs1 + length evs2) + 2 < MAX_SAFE_INTEGER →
  timely 0 start (evs1 ++ (now, EvToast text d) :: evs2) → Forall (λ x, t' ≤ x.1) (timers w') →
  0 < default DEFAULT_DURATION_MS d → now + default DEFAULT_DURATION_MS d + TOAST_REMOVE_DELAY < t' →
  show_Z (count w + 1) ∉ ids w'.
Proof.
  cbv zeta. intros Hn Ht Hlate Hd Hlt. apply timely_app in Ht as (t1 & Hq & Ht1 & _ & _ & Ht); [|constructor]. cbn [step] in Ht.
  destruct (wf_run evs1 start wf_start) as [Hw Hc]; [cbn; lia|]. change (count start) with 0 in Hc.
  destruct (wf_step now (run start evs1) (EvToast text d) ltac:(lia) Hw) as [Hw' _]. cbn [step] in Hw'. cbn [run step] in *.
  assert (count (toast now text d (run start evs1)) = count (run start evs1) + 1) as Hcount.
  { unfold toast. assert (count (genId (run start evs1)) = count (run start evs1) + 1) as E by (cbn; apply Z.mod_small; lia).
    case_match; cbn [add_timer reducer with_toasts count]; exact E. }
  pose proof (leaving_run _ _ (count (run start evs1) + 1) evs2 now _ Hw' ltac:(lia) eq_refl ltac:(lia) Ht
                (queue_ok_step now _ (EvToast text d) ltac:(by eapply queue_ok_later)) (toast_starts_leaving now text d _ Hw ltac:(lia) Hd)) as Hl.
  intros Hin. destruct (Hl Hin) as [(due & Hdue & Hx)|(due & Hdue & Hx)]; eapply Forall_forall in Hlate; [|exact Hx| |exact Hx]; cbn in Hlate; unfold TOAST_REMOVE_DELAY in *; lia.
Qed.

(** ** Runs *)

Module ToastRuns.

(** The first of six toasts gives way; a toast without duration stays; an empty id sent to
    [dismiss] closes nothing but sets the timers that remove everything. *)
Example limit_and_empty_id :
  let w := run start ((λ n, (0, EvToast "t" (Some 0))) <$> [1; 2; 3; 4; 5; 6]) in
  ids w = ["6"; "5"; "4"; "3"; "2"] ∧ timers w = [] ∧
  let w' := step 10 w (EvDismiss (Some "")) in
  (open <$> toasts w') = [true; true; true; true; true] ∧
  ids (run w' [(1000010, EvTimer 0); (1000010, EvTimer 0)]) = ["4"; "3"; "2"].
Proof. by vm_compute. Qed.

Lemma toasts_well_formed_witness : wf (run start [(0, EvToast "a" None); (0, EvToast "b" None); (1, EvDismiss None)]).
Proof. apply toasts_well_formed. by vm_compute. Defined.

Lemma toast_leaves_witness :
  let evs2 := [(5000, EvTimer 0); (1005000, EvTimer 0)] in
  "1" ∉ ids (run (run start []) ((0, EvToast "a" None) :: evs2)).
Proof.
  apply (toast_leaves 0 "a" None [] [(5000, EvTimer 0); (1005000, EvTimer 0)] 1005001).
  - by vm_compute.
  - cbn [timely app run step]. split; [lia|]. split; [constructor|]. split; [done|].
    split; [lia|]. split; [by repeat constructor|]. split; [by intros x [= <-]|].
    split; [lia|]. split; [by repeat constructor|]. split; [by intros x [= <-]|]. done.
  - vm_compute. constructor.
  - by vm_compute.
  - by vm_compute.
Defined.

End ToastRuns.
