(* ===== verification/Delegation.v ===== *)
(** * Delegated votes

    The delegation of claim votes, from the contract to the page.  [Contract]: the
    records of contracts/niffyinsure/src/storage.rs and [delegate_vote] of lib.rs, with
    the check a ballot passes (claim.rs).  [Client]: the calls of
    backend/src/soroban/soroban.service.ts to the node, behind retries and a circuit
    breaker.  [Service]: backend/src/governance/governance.service.ts, with what the page
    frontend/src/app/governance/delegation/page.tsx reads of its answers.  The node, the
    SDK's encoding and the breaker are parameters. *)

From stdpp Require Import base gmap sets list strings.
From Stdlib Require Import ZArith Lia.
From S2P Require Import Prelude JsText SorobanRpc.

Open Scope string_scope.
Open Scope Z_scope.

(** ** The contract *)

Module Contract.

(** Models [VoteDelegation] (contracts/niffyinsure/src/types.rs:344-347). *)
Record VoteDelegation := { delegate : string; expiry_ledger : Z }.
Abbreviation delegations := (gmap string VoteDelegation).

Inductive Error := CircularDelegation | VoteDelegated.

(** The loop of the resolution, with the addresses [seen]; [None] when the fuel runs
    out.
    Models [resolve_vote_delegation_target] (contracts/niffyinsure/src/storage.rs:1585-1609). *)
Fixpoint resolve_from (d : delegations) (now : Z) (fuel : nat) (seen : list string) (current : string) : option (result Error string) :=
  match fuel with
  | O => None
  | S fuel' =>
      if bool_decide (current ∈ seen) then Some (Throw CircularDelegation)
      else match d !! current with
           | None => Some (Ok current)
           | Some x => if expiry_ledger x <? now then Some (Ok current) else resolve_from d now fuel' (current :: seen) (delegate x)
           end
  end.

(** One unit of fuel per record and two more ([resolve_ends]). *)
Definition resolve_vote_delegation_target (d : delegations) (now : Z) (start : string) : result Error string :=
  default (Throw CircularDelegation) (resolve_from d now (2 + size d) [] start).

(** Models [delegate_vote] (contracts/niffyinsure/src/lib.rs:744-772). *)
Definition delegate_vote (d : delegations) (now : Z) (delegator delegatee : string) (expiry : Z) : result Error delegations :=
  if bool_decide (delegator = delegatee) then Throw CircularDelegation
  else match resolve_vote_delegation_target d now delegatee with
       | Throw e => Throw e
       | Ok target =>
           if bool_decide (target = delegator) then Throw CircularDelegation
           else Ok (<[delegator := {| delegate := delegatee; expiry_ledger := expiry |}]> d)
       end.

(** The check of delegations a ballot passes (claim.rs, lines 608 to 611): only an address
    that resolves to itself may vote. *)
Definition ballot_check (d : delegations) (now : Z) (voter : string) : result Error () :=
  match resolve_vote_delegation_target d now voter with
  | Throw e => Throw e
  | Ok target => if bool_decide (target = voter) then Ok tt else Throw VoteDelegated
  end.

(** *** The resolution ends *)

Lemma resolve_from_ends d now fuel seen current :
  NoDup seen → (∀ a, a ∈ seen → is_Some (d !! a)) → (size d + 2 ≤ fuel + length seen)%nat → is_Some (resolve_from d now fuel seen current).
Proof.
  revert seen current. induction fuel as [|fuel IH]; intros seen current Hd Hs Hf.
  - assert (size (list_to_set seen : gset string) ≤ size (dom d))%nat as Hle.
    { apply subseteq_size. intros a Ha%elem_of_list_to_set. by apply elem_of_dom, Hs. }
    rewrite size_list_to_set in Hle by done. rewrite size_dom in Hle. lia.
  - cbn. case_match eqn:Hc; [eauto|]. bool_prop. destruct (d !! current) as [x|] eqn:Hx; [|eauto].
    case_match; [eauto|]. apply IH; [by constructor| |cbn; lia].
    intros a [->|Ha]%elem_of_cons; [by rewrite Hx|auto].
Qed.

(** The loop over the delegations ends for every state of the records: the fuel is
    enough, and what the function returns is what the loop returns. *)
Theorem resolve_ends d now start :
  resolve_from d now (2 + size d) [] start = Some (resolve_vote_delegation_target d now start).
Proof.
  assert (is_Some (resolve_from d now (2 + size d) [] start)) as H.
  { apply resolve_from_ends; [constructor|by intros a ?%elem_of_nil|cbn; lia]. }
  unfold resolve_vote_delegation_target. by destruct (resolve_from d now (2 + size d) [] start), H.
Qed.

(** *** Following the active delegations *)

Definition active (d : delegations) (now : Z) (a : string) : option string :=
  match d !! a with Some x => if expiry_ledger x <? now then None else Some (delegate x) | None => None end.

(** [leads d now a t]: the delegations that are active lead from [a] to [t], which has
    none. *)
Inductive leads (d : delegations) (now : Z) : string → string → Prop :=
  | leads_stop a : active d now a = None → leads d now a a
  | leads_next a b t : active d now a = Some b → leads d now b t → leads d now a t.

(** Every address is led to one that votes itself. *)
Definition sound (d : delegations) (now : Z) : Prop := ∀ a, ∃ t, leads d now a t.

Lemma leads_end d now a t : leads d now a t → active d now t = None.
Proof. by induction 1. Qed.

Lemma leads_det d now a t t' : leads d now a t → leads d now a t' → t = t'.
Proof. induction 1; inversion 1; congruence || (simplify_eq; auto). Qed.

(** The steps from one address to another. *)
Inductive path (d : delegations) (now : Z) : string → string → Prop :=
  | path_one a b : active d now a = Some b → path d now a b
  | path_more a b c : active d now a = Some b → path d now b c → path d now a c.

Lemma leads_no_cycle d now a t : leads d now a t → ¬ path d now a a.
Proof.
  intros H. induction H as [a Ha|a b t Ha Hb IH]; intros Hp.
  - inversion Hp; congruence.
  - apply IH. assert (∀ x y, path d now x y → y = a → path d now x b) as Hend.
    { induction 1 as [x y Hx|x y z Hx Hy IHp]; intros ->; [eapply path_more; [exact Hx|by apply path_one]|eapply path_more; [exact Hx|auto]]. }
    inversion Hp as [? ? E|? c ? E Hc]; simplify_eq; [by apply path_one|]. by eapply Hend.
Qed.

Lemma resolve_from_leads d now fuel seen a t r :
  leads d now a t → (∀ x, x ∈ seen → path d now x a) → resolve_from d now fuel seen a = Some r → r = Ok t.
Proof.
  intros H. revert fuel seen. induction H as [a Ha|a b t Ha Hb IH]; intros fuel seen Hs; destruct fuel as [|fuel]; cbn; [done| |done|].
  - assert (¬ path d now a a) as Hn by (eapply leads_no_cycle; by apply leads_stop).
    rewrite bool_decide_false by (intros Hin; by apply Hn, Hs). unfold active in Ha. destruct (d !! a); [|congruence].
    case_match; [congruence|done].
  - assert (¬ path d now a a) as Hn by (eapply leads_no_cycle; by eapply leads_next).
    rewrite bool_decide_false by (intros Hin; by apply Hn, Hs).
    assert (∀ x, x ∈ a :: seen → path d now x b) as Hs'.
    { intros x [->|Hx]%elem_of_cons; [by apply path_one|]. specialize (Hs x Hx). clear -Hs Ha.
      induction Hs as [x y Hx|x y z Hx Hy IHp]; [eapply path_more; [exact Hx|by apply path_one]|eapply path_more; [exact Hx|auto]]. }
    unfold active in Ha. destruct (d !! a) as [x|] eqn:Hx; [|done]. case_match; [done|]. simplify_eq. eauto.
Qed.

Lemma resolve_leads d now a t : leads d now a t → resolve_vote_delegation_target d now a = Ok t.
Proof.
  intros H. eapply (resolve_from_leads d now (2 + size d) [] a t); [done|by intros x ?%elem_of_nil|apply resolve_ends].
Qed.

(** A delegation whose expiry has come leaves the others as they were. *)
Lemma leads_later d now now' a t : now ≤ now' → leads d now a t → ∃ t', leads d now' a t'.
Proof.
  intros Hn H. induction H as [a Ha|a b t Ha Hb [t' IH]].
  - exists a. apply leads_stop. unfold active in *. destruct (d !! a); [|done]. case_match; [|done]. bool_prop.
    by rewrite (proj2 (Z.ltb_lt _ _)) by lia.
  - destruct (active d now' a) as [c|] eqn:Hc; [|exists a; by apply leads_stop]. exists t'. eapply leads_next; [|exact IH].
    unfold active in *. destruct (d !! a); [|done]. repeat case_match; congruence.
Qed.

(** An address without an active delegation may delegate. *)
Lemma delegate_sound d now a b e d' : sound d now → active d now a = None → delegate_vote d now a b e = Ok d' → sound d' now.
Proof.
  intros Hs Ha H. unfold delegate_vote in H. case_match; [done|]. bool_prop. destruct (Hs b) as [t Hb].
  rewrite (resolve_leads _ _ _ _ Hb) in H. case_match; [done|]. bool_prop. injection H as <-.
  assert (∀ x y, leads d now x y → y ≠ a → leads (<[a:={| delegate := b; expiry_ledger := e |}]> d) now x y) as Hkeep.
  { induction 1 as [x Hx|x y z Hx Hy IH]; intros Hne.
    - apply leads_stop. unfold active. by rewrite lookup_insert_ne by done.
    - destruct (decide (x = a)) as [->|Hxa]; [congruence|]. eapply leads_next; [|by apply IH]. unfold active. by rewrite lookup_insert_ne by done. }
  assert (∃ t', leads (<[a:={| delegate := b; expiry_ledger := e |}]> d) now a t') as [ta Hta].
  { destruct (Z.ltb_spec e now) as [He|He].
    - exists a. apply leads_stop. unfold active. rewrite lookup_insert_eq. cbn. by rewrite (proj2 (Z.ltb_lt _ _)) by lia.
    - exists t. eapply leads_next; [|by apply Hkeep]. unfold active. rewrite lookup_insert_eq. cbn. by rewrite (proj2 (Z.ltb_ge _ _)) by lia. }
  intros x. destruct (Hs x) as [y Hy]. destruct (decide (y = a)) as [->|Hne]; [|exists y; by apply Hkeep].
  exists ta. clear -Hy Hta Ha. remember a as y eqn:E in Hy at 1. induction Hy as [x Hx|x z y Hx Hz IH]; subst; [done|].
  eapply leads_next; [|by apply IH]. unfold active. destruct (decide (x = a)) as [->|Hxa]; [congruence|]. by rewrite lookup_insert_ne by done.
Qed.

(** Giving a delegation an expiry that has passed ends it. *)
Lemma end_sound d now a b e d' : sound d now → e < now → delegate_vote d now a b e = Ok d' → sound d' now ∧ active d' now a = None.
Proof.
  intros Hs He H. unfold delegate_vote in H. repeat case_match; try done. injection H as <-.
  assert (active (<[a:={| delegate := b; expiry_ledger := e |}]> d) now a = None) as Ha.
  { unfold active. rewrite lookup_insert_eq. cbn. by rewrite (proj2 (Z.ltb_lt _ _)) by lia. }
  split; [|done]. intros x. destruct (Hs x) as [y Hy]. induction Hy as [x Hx|x z y Hx Hz [t IH]].
  - exists x. apply leads_stop. unfold active. destruct (decide (x = a)) as [->|Hxa]; [exact Ha|]. by rewrite lookup_insert_ne by done.
  - destruct (decide (x = a)) as [->|Hxa]; [exists a; by apply leads_stop|]. exists t. eapply leads_next; [|exact IH]. unfold active. by rewrite lookup_insert_ne by done.
Qed.

(** The records the contract can reach when nobody delegates a vote that is delegated:
    a delegation by an address without an active one, an expiry that has passed, and
    time. *)
Inductive calm : delegations → Z → Prop :=
  | calm_start now : calm ∅ now
  | calm_time d now now' : calm d now → now ≤ now' → calm d now'
  | calm_delegate d now a b e d' : calm d now → active d now a = None → delegate_vote d now a b e = Ok d' → calm d' now
  | calm_end d now a b e d' : calm d now → e < now → delegate_vote d now a b e = Ok d' → calm d' now.

Lemma calm_sound d now : calm d now → sound d now.
Proof.
  induction 1 as [now|d now now' _ IH Hn|d now a b e d' _ IH Ha H|d now a b e d' _ IH He H].
  - intros a. exists a. by apply leads_stop.
  - intros a. destruct (IH a) as [t Ht]. by eapply leads_later.
  - by eapply delegate_sound.
  - by eapply end_sound.
Qed.

(** In every such state each address is led to one that may vote, and an address without
    an active delegation may vote itself. *)
Theorem calm_votes d now a : calm d now →
  (∃ t, resolve_vote_delegation_target d now a = Ok t ∧ ballot_check d now t = Ok tt) ∧
  (active d now a = None → ballot_check d now a = Ok tt).
Proof.
  intros H. assert (∀ t, active d now t = None → ballot_check d now t = Ok tt) as Hb.
  { intros t Ht. unfold ballot_check. rewrite (resolve_leads d now t t) by by apply leads_stop. by rewrite bool_decide_true. }
  split; [|apply Hb]. destruct (calm_sound _ _ H a) as [t Ht]. exists t. split; [by apply resolve_leads|]. by eapply Hb, leads_end.
Qed.

(** A delegation that is still active may be replaced by one that closes a circle: the
    contract asks where the new delegate leads now, through the record it replaces.
    Neither address may vote any more. *)
Example circle_locks_voters :
  match delegate_vote ∅ 10 "A" "C" 99 with
  | Ok d1 => match delegate_vote d1 10 "B" "A" 99 with
             | Ok d2 => match delegate_vote d2 10 "A" "B" 99 with
                        | Ok d3 => ballot_check d3 10 "A" = Throw CircularDelegation ∧ ballot_check d3 10 "B" = Throw CircularDelegation
                        | Throw _ => False
                        end
             | Throw _ => False
             end
  | Throw _ => False
  end.
Proof. by vm_compute. Qed.
End Contract.

(** ** The calls to the node *)

Module Client.

(** An error thrown by the SDK or the node, or an exception of the application. *)
Inductive exn := Err (message : string) | App (code : string).

(** The calls of the contract. *)
Inductive call := GetDelegation (delegator : string) | DelegateVote (delegator delegatee : string) (expiry : Z).

Inductive simulation := SimError (error : option string) | SimOk (retval : option Contract.VoteDelegation).
Inductive tx_status := NOT_FOUND | SUCCESS | FAILED.

(** What a node answers to a request; it may fail any of them, and changes by itself. *)
Class Node (N : Type) := {
  getAccount : string → N → result string () * N;
  simulateTransaction : call → N → result string simulation * N;
  sendTransaction : string → N → result string (bool * string) * N;
  getTransaction : string → N → result string tx_status * N;
}.

Record net (B N : Type) := Net { breaker : B; node : N; clock : Z }.
Arguments Net {B N} _ _ _.
Arguments breaker {B N} _.
Arguments node {B N} _.
Arguments clock {B N} _.

(** Models [TRANSIENT_MESSAGES] (backend/src/soroban/soroban.service.ts:22-31). *)
Definition TRANSIENT_MESSAGES : list string :=
  ["ECONNRESET"; "ECONNREFUSED"; "ETIMEDOUT"; "socket hang up"; "network timeout"; "503"; "502"; "504"].

(** Models [isTransient] (backend/src/soroban/soroban.service.ts:33-36). *)
Definition isTransient (e : exn) : bool :=
  match e with Err m => existsb (includes m) TRANSIENT_MESSAGES | App _ => false end.

(** Models [mapSimulationError] (backend/src/soroban/soroban.service.ts:184-193). *)
Definition mapSimulationError (error : option string) : exn :=
  let msg := default "simulation failed" error in
  if includes msg "WasmVm" || includes msg "non-existent" then App "CONTRACT_NOT_DEPLOYED"
  else if includes msg "balance" || includes msg "underfunded" then App "INSUFFICIENT_BALANCE"
  else App "SIMULATION_FAILED".

(** The account a simulation without a caller runs with. *)
Definition SIMULATION_ACCOUNT : string := "GAAZI4TCR3TY5OJHCTJC2A4QSY6CJWJH5IAJTGKIN2ER7LBNVKOCCWN".

Section client.
Context {B N : Type} `{Breaker B} `{Node N}.
(** The contract's id in the settings, and what the SDK can encode. *)
Variable CONTRACT_ID : option string.
Variable encodes : call → bool.

Abbreviation MN A := (M (net B N) exn A).

(** A request to the node. *)
Definition request {A} (f : N → result string A * N) : MN A := λ w,
  let '(r, n) := f (node w) in
  (match r with Ok a => Ok a | Throw m => Throw (Err m) end, Net (breaker w) n (clock w)).

Definition sleep (ms : Z) : MN () := λ w, (Ok tt, Net (breaker w) (node w) (clock w + ms)).

(** [left]: the attempts that are left.
    Models [withRetry] (backend/src/soroban/soroban.service.ts:42-57). *)
Fixpoint withRetry {A} (fn : MN A) (left : nat) (attempt : Z) : MN A :=
  try_catch fn (λ e,
    match left with
    | S (S _ as left') =>
        if isTransient e then do* sleep (200 * 2 ^ attempt) in withRetry fn left' (attempt + 1) else throw e
    | _ => throw e
    end).

(** The breaker's refusal is an exception of the application, its timeout an error.
    Models [rpc] (backend/src/soroban/soroban.service.ts:101-110). *)
Definition rpc {A} (fn : MN A) : MN A := λ w,
  if admits (breaker w) then
    let slow := late (breaker w) in
    let '(r, w1) := withRetry fn 3 0 w in
    let r := if slow then Throw (Err "Timed out") else r in
    (r, Net (settle (is_ok r) (breaker w1)) (node w1) (clock w1))
  else (Throw (App "RPC_UNAVAILABLE"), w).

(** Models [contractId] (backend/src/soroban/soroban.service.ts:88-92). *)
Definition contractId : MN string :=
  match truthy CONTRACT_ID with Some i => ret i | None => throw (App "CONTRACT_NOT_CONFIGURED") end.

(** The common part of a simulation and of building a transaction. *)
Definition simulated (source : string) (c : call) : MN (option Contract.VoteDelegation) :=
  do* rpc (request (getAccount source)) in
  do* contractId in
  let* r := rpc (request (simulateTransaction c)) in
  match r with SimError error => throw (mapSimulationError error) | SimOk v => ret v end.

(** Models [simulate] (backend/src/soroban/soroban.service.ts:113-135). *)
Definition simulate (c : call) : MN (option Contract.VoteDelegation) := simulated SIMULATION_ACCOUNT c.

(** The transaction is the call, with the resources of its simulation.
    Models [buildInvokeTx] (backend/src/soroban/soroban.service.ts:141-161). *)
Definition buildInvokeTx (source : string) (c : call) : MN call := do* simulated source c in ret c.

(** Not retried, and not behind the breaker.
    Models [submit] (backend/src/soroban/soroban.service.ts:164-171). *)
Definition submit (parses : string → bool) (signedXdr : string) : MN string :=
  if parses signedXdr then
    let* r := request (sendTransaction signedXdr) in
    if r.1 then throw (App "SUBMISSION_FAILED") else ret r.2
  else throw (Err "XDR Read Error").

Fixpoint wait_loop (fuel : nat) (deadline : Z) (hash : string) : MN (option tx_status) :=
  match fuel with
  | O => ret None
  | S fuel' => λ w,
      if clock w <? deadline then
        (let* s := rpc (request (getTransaction hash)) in
         match s with
         | NOT_FOUND => do* sleep 2000 in wait_loop fuel' deadline hash
         | _ => ret (Some s)
         end) w
      else (Throw (App "TIMEOUT_ERROR"), w)
  end.

(** One unit of fuel for every two seconds and two more, enough by [waiting_ends].
    Models [waitForResult] (backend/src/soroban/soroban.service.ts:174-182). *)
Definition waitForResult (hash : string) (timeoutMs : Z) : MN (option tx_status) := λ w,
  wait_loop (Z.to_nat (timeoutMs / 2000) + 2) (clock w + timeoutMs) hash w.

(** *** Waiting ends *)

Lemma request_clock {A} (f : N → result string A * N) w : clock (world_of (request f) w) = clock w.
Proof. unfold world_of, request. by destruct (f (node w)). Qed.

Definition no_earlier : relation (net B N) := λ w w', clock w ≤ clock w'.
#[export] Instance no_earlier_pre : PreOrder no_earlier.
Proof. split; unfold no_earlier; [intros ?; lia|intros ? ? ?; lia]. Qed.

Lemma retry_no_earlier {A} (fn : MN A) : keeps no_earlier fn → ∀ left attempt, 0 ≤ attempt → keeps no_earlier (withRetry fn left attempt).
Proof.
  intros Hf. induction left as [|left IH]; intros attempt Ha; cbn [withRetry]; apply keeps_try; try apply _; try done; intros e.
  - apply keeps_throw, _.
  - destruct left as [|left]; [apply keeps_throw, _|]. destruct (isTransient e); [|apply keeps_throw, _].
    apply keeps_bind; [apply _| |intros ?; apply IH; lia]. intros w. unfold no_earlier. cbn. pose proof (Z.pow_nonneg 2 attempt). lia.
Qed.

Lemma rpc_no_earlier {A} (f : N → result string A * N) : keeps no_earlier (rpc (request f)).
Proof.
  intros w. unfold world_of, rpc. destruct (admits _); [|cbn; unfold no_earlier; lia].
  assert (keeps no_earlier (withRetry (request f) 3 0)) as Hk.
  { apply retry_no_earlier; [|lia]. intros w0. unfold no_earlier. rewrite request_clock. lia. }
  specialize (Hk w). unfold world_of in Hk. destruct (withRetry (request f) 3 0 w) as [r w1]. exact Hk.
Qed.

(** Waiting for a transaction always ends with an answer or an error: the loop does not
    run out of fuel, and an answer is that of a transaction the node knows. *)
Theorem waiting_ends hash timeoutMs w : 0 ≤ timeoutMs →
  match (waitForResult hash timeoutMs w).1 with
  | Ok r => r = Some SUCCESS ∨ r = Some FAILED
  | Throw _ => True
  end.
Proof.
  intros Ht. unfold waitForResult. set (deadline := clock w + timeoutMs).
  assert (deadline - clock w < 2000 * Z.of_nat (Z.to_nat (timeoutMs / 2000) + 1)) as Hf.
  { subst deadline. rewrite Nat2Z.inj_add, Z2Nat.id by (by apply Z.div_pos). pose proof (Z.mod_pos_bound timeoutMs 2000). pose proof (Z.div_mod timeoutMs 2000). lia. }
  replace (Z.to_nat (timeoutMs / 2000) + 2)%nat with (S (Z.to_nat (timeoutMs / 2000) + 1)) by lia.
  generalize dependent (Z.to_nat (timeoutMs / 2000) + 1)%nat. clearbody deadline. clear Ht. intros fuel. revert w.
  induction fuel as [|fuel IH]; intros w Hf; cbn [wait_loop]; destruct (Z.ltb_spec (clock w) deadline) as [Hd|Hd]; try done; [lia|].
  unfold bind at 1. pose proof (rpc_no_earlier (getTransaction hash) w) as Hn. unfold world_of, no_earlier in Hn.
  destruct (rpc (request (getTransaction hash)) w) as [[s|e] w1]; [|done]. cbn in Hn.
  destruct s; [|cbn; auto|cbn; auto]. unfold bind, sleep. cbv beta iota. apply (IH (Net (breaker w1) (node w1) (clock w1 + 2000))). cbn [clock]. lia.
Qed.
End client.
End Client.

(** ** The service and the page *)

Module Service.
Import Client Contract.

(** A node that follows the contract: its delegations, its ledger, and the requests that
    will fail.  [funded]: the accounts that exist; [error_text]: how the host words a
    refusal of the contract. *)
Record chain := Chain { records : delegations; ledger : Z; outages : list (option string) }.

Section service.
Variable funded : string → bool.
Variable error_text : Contract.Error → string.

Definition answered {A} (f : chain → result string A) (n : chain) : result string A * chain :=
  (match head (outages n) with Some (Some m) => Throw m | _ => f n end, Chain (records n) (ledger n) (tail (outages n))).

(** A simulation runs the call and changes nothing. *)
Definition chain_simulation (c : call) (n : chain) : simulation :=
  match c with
  | GetDelegation a => SimOk (records n !! a)
  | DelegateVote a b e =>
      match delegate_vote (records n) (ledger n) a b e with Ok _ => SimOk None | Throw x => SimError (Some (error_text x)) end
  end.

#[local] Instance chain_node : Node chain := {
  getAccount a := answered (λ _, if funded a then Ok tt else Throw ("Account not found: " +:+ a));
  simulateTransaction c := answered (λ n, Ok (chain_simulation c n));
  sendTransaction x := answered (λ _, Ok (false, x));
  getTransaction _ := answered (λ _, Ok SUCCESS);
}.

Context {B : Type} `{Breaker B}.
Variable CONTRACT_ID : option string.
Variable encodes : call → bool.
Inductive failure := Failed (e : exn) | NotFound (text : string) | BadRequest (text : string).
Abbreviation MS A := (M (net B chain) failure A).

(** The SDK's refusal of an argument. *)
Definition encoded (c : call) : MS () := if encodes c then ret tt else throw (Failed (Err "invalid argument")).
Definition lifted {A} (m : M (net B chain) exn A) : MS A := try_catch m (λ e, throw (Failed e)).

(** Models [fetchDelegation] (backend/src/governance/governance.service.ts:23-27). *)
Definition fetchDelegation (delegator : string) : MS (option VoteDelegation) :=
  do* encoded (GetDelegation delegator) in lifted (simulate CONTRACT_ID (GetDelegation delegator)).

(** The answer of the route, by its fields.
    Models [getDelegation] (backend/src/governance/governance.service.ts:29-33). *)
Definition getDelegation (address : string) : MS (list (string * (string + Z))) :=
  let* d := fetchDelegation address in
  match d with
  | None => throw (NotFound ("No delegation found for " +:+ address))
  | Some d => ret [("delegator", inl address); ("delegate", inl (delegate d)); ("expiryLedger", inr (expiry_ledger d))]
  end.

(** Models [buildDelegate] (backend/src/governance/governance.service.ts:35-43). *)
Definition buildDelegate (delegator delegatee : string) (expiryLedger : Z) : MS call :=
  do* encoded (DelegateVote delegator delegatee expiryLedger) in
  lifted (buildInvokeTx CONTRACT_ID delegator (DelegateVote delegator delegatee expiryLedger)).

(** Models [buildUndelegate] (backend/src/governance/governance.service.ts:45-59). *)
Definition buildUndelegate (delegator : string) : MS call :=
  let* current := fetchDelegation delegator in
  match current with
  | None => throw (BadRequest ("No delegation to revoke for " +:+ delegator))
  | Some c =>
      do* encoded (DelegateVote delegator (delegate c) 0) in
      lifted (buildInvokeTx CONTRACT_ID delegator (DelegateVote delegator (delegate c) 0))
  end.

(** The signed transaction is executed. *)
Definition execute (c : call) (n : chain) : result Contract.Error chain :=
  match c with
  | GetDelegation _ => Ok n
  | DelegateVote a b e => match delegate_vote (records n) (ledger n) a b e with Ok d => Ok (Chain d (ledger n) (outages n)) | Throw x => Throw x end
  end.

(** *** What a built transaction is *)

Definition same_chain : relation (net B chain) := λ w w', records (node w') = records (node w) ∧ ledger (node w') = ledger (node w).
#[local] Instance same_chain_pre : PreOrder same_chain.
Proof. split; unfold same_chain; [by intros ?|intros ? ? ? [-> ->] [-> ->]; done]. Qed.

Lemma request_same {A} (f : chain → result string A) : keeps same_chain (request (B:=B) (answered f)).
Proof. intros w. done. Qed.

Lemma retry_same {A} (fn : M (net B chain) exn A) left attempt : keeps same_chain fn → keeps same_chain (withRetry fn left attempt).
Proof.
  intros Hf. revert attempt. induction left as [|left IH]; intros attempt; cbn [withRetry]; (apply keeps_try; [apply _|done|intros e]).
  - apply keeps_throw, _.
  - destruct left as [|left]; [apply keeps_throw, _|]. destruct (isTransient e); [|apply keeps_throw, _].
    apply keeps_bind; [apply _|by intros w|intros ?; apply IH].
Qed.

Lemma rpc_same {A} (f : chain → result string A) : keeps same_chain (rpc (request (B:=B) (answered f))).
Proof.
  intros w. unfold world_of, rpc. destruct (admits _); [|done].
  pose proof (retry_same (request (answered f)) 3 0 (request_same f) w) as Hk. unfold world_of in Hk.
  by destruct (withRetry (request (answered f)) 3 0 w) as [r w1].
Qed.

(** What succeeds is what the node answered. *)
Lemma retry_value {A} (f : chain → A) left attempt w a w' :
  (∀ n o, f (Chain (records n) (ledger n) o) = f n) →
  withRetry (request (B:=B) (answered (λ n, Ok (f n)))) left attempt w = (Ok a, w') → a = f (node w).
Proof.
  intros Hf. revert attempt w. induction left as [|left IH]; intros attempt w; cbn [withRetry].
  { unfold try_catch, request, answered. destruct (head (outages (node w))) as [[m|]|]; by try intros [= <- _]. }
  unfold try_catch. destruct (request _ w) as [[x|e] w1] eqn:E.
  { intros [= <- _]. revert E. unfold request, answered. destruct (head (outages (node w))) as [[m|]|]; by try intros [= <- _]. }
  destruct left as [|left]; [done|]. destruct (isTransient e); [|done]. intros (u & w2 & E2 & H1)%bind_ok_inv. injection E2 as _ <-.
  apply IH in H1 as ->. cbn [node]. rewrite <- (Hf (node w) (outages (node w1))). f_equal.
  pose proof (request_same (λ n, Ok (f n)) w) as [E1 E2]. unfold world_of in E1, E2. rewrite E in E1, E2. cbn in E1, E2. rewrite <- E1, <- E2.
  by destruct (node w1).
Qed.

Lemma rpc_value {A} (f : chain → A) w a w' :
  (∀ n o, f (Chain (records n) (ledger n) o) = f n) → rpc (request (B:=B) (answered (λ n, Ok (f n)))) w = (Ok a, w') → a = f (node w).
Proof.
  intros Hf. unfold rpc. destruct (admits _); [|done]. destruct (withRetry _ 3 0 w) as [r w1] eqn:E. destruct (late _); [done|]. intros [= -> _].
  by eapply retry_value.
Qed.

(** A simulation that succeeds is one of the contract, whatever failed and was retried. *)
Lemma simulated_value source c w v w' :
  simulated CONTRACT_ID source c w = (Ok v, w') → chain_simulation c (node w) = SimOk v ∧ same_chain w w'.
Proof.
  unfold simulated. intros (u & w1 & H1 & (i & w2 & H2 & (r & w3 & H3 & H4)%bind_ok_inv)%bind_ok_inv)%bind_ok_inv.
  pose proof (rpc_same (λ _, if funded source then Ok () else Throw ("Account not found: " +:+ source)) w) as S1. unfold world_of in S1.
  change (getAccount source) with (answered (λ _, if funded source then Ok () else Throw ("Account not found: " +:+ source))) in H1. rewrite H1 in S1.
  assert (w2 = w1) as -> by (revert H2; unfold contractId, ret, throw; destruct (truthy CONTRACT_ID); congruence).
  change (simulateTransaction c) with (answered (λ n, Ok (chain_simulation c n))) in H3.
  pose proof (rpc_same (λ n, Ok (chain_simulation c n)) w1) as S3. unfold world_of in S3. rewrite H3 in S3.
  assert (∀ n o, chain_simulation c (Chain (records n) (ledger n) o) = chain_simulation c n) as Hc by (intros n o; by destruct c).
  apply rpc_value in H3; [|exact Hc]. cbn in S1, S3.
  assert (chain_simulation c (node w1) = chain_simulation c (node w)) as E.
  { destruct S1 as [E1 E2]. rewrite <- (Hc (node w) (outages (node w1))), <- E1, <- E2. by destruct (node w1). }
  rewrite E in H3. subst r. destruct (chain_simulation c (node w)); [done|]. injection H4 as -> ->. split; [done|]. by etrans.
Qed.

Lemma lifted_ok {A} (m : M (net B chain) exn A) w a w' : lifted m w = (Ok a, w') → m w = (Ok a, w').
Proof. unfold lifted, try_catch. destruct (m w) as [[b|e] w1]; [by intros [= <- <-]|done]. Qed.

Lemma encoded_ok c w u w' : encoded c w = (Ok u, w') → w' = w.
Proof. unfold encoded, ret, throw. case_match; congruence. Qed.

Lemma fetch_value a w x w' : fetchDelegation a w = (Ok x, w') → x = records (node w) !! a ∧ same_chain w w'.
Proof.
  unfold fetchDelegation. intros (u & w1 & ->%encoded_ok & [[= <-] S]%lifted_ok%simulated_value)%bind_ok_inv. done.
Qed.

Lemma build_value a c w x w' : lifted (buildInvokeTx CONTRACT_ID a c) w = (Ok x, w') → x = c ∧ ∃ v, chain_simulation c (node w) = SimOk v.
Proof. intros (v & w1 & [H1 _]%simulated_value & E)%lifted_ok%bind_ok_inv. injection E as <- _. eauto. Qed.

Lemma executed a b e (n : chain) v : chain_simulation (DelegateVote a b e) n = SimOk v →
  ∃ d, delegate_vote (records n) (ledger n) a b e = Ok d ∧ execute (DelegateVote a b e) n = Ok (Chain d (ledger n) (outages n)).
Proof. cbn. case_match; [eauto|done]. Qed.

(** A delegation that was built, on whatever connection, is accepted by the contract the
    node follows, and read back by the service. *)
Theorem delegation_read_back a b e w c w' :
  buildDelegate a b e w = (Ok c, w') →
  ∃ n', execute c (node w) = Ok n' ∧ records n' !! a = Some {| delegate := b; expiry_ledger := e |} ∧
    ∀ w2 r w3, records (node w2) = records n' → getDelegation a w2 = (Ok r, w3) →
      r = [("delegator", inl a); ("delegate", inl b); ("expiryLedger", inr e)].
Proof.
  unfold buildDelegate. intros (u & w1 & ->%encoded_ok & [-> [v Hv]]%build_value)%bind_ok_inv.
  destruct (executed _ _ _ _ _ Hv) as (d & Hd & He). exists (Chain d (ledger (node w)) (outages (node w))). split; [done|].
  assert (d !! a = Some {| delegate := b; expiry_ledger := e |}) as Ha.
  { unfold delegate_vote in Hd. repeat case_match; try done. injection Hd as <-. apply lookup_insert_eq. }
  split; [done|]. intros w2 r w3 Hr. unfold getDelegation. intros (x & w4 & [-> _]%fetch_value & H1)%bind_ok_inv. cbn in Hr. rewrite Hr, Ha in H1.
  by injection H1 as <- _.
Qed.

(** C36: The revocation that the service builds gives the vote back, in every calm state of
    the contract. *)
Theorem undelegation_restores_vote a w c w' :
  calm (records (node w)) (ledger (node w)) → 0 < ledger (node w) → buildUndelegate a w = (Ok c, w') →
  ∃ n', execute c (node w) = Ok n' ∧ ballot_check (records n') (ledger n') a = Ok tt.
Proof.
  intros Hc Hl. unfold buildUndelegate. intros (x & w1 & [-> S]%fetch_value & H1)%bind_ok_inv.
  destruct (records (node w) !! a) as [r|]; [|done]. apply bind_ok_inv in H1 as (u & w2 & ->%encoded_ok & [-> [v Hv]]%build_value).
  assert (chain_simulation (DelegateVote a (delegate r) 0) (node w) = SimOk v) as Hv'.
  { destruct S as [E1 E2]. revert Hv. cbn. by rewrite E1, E2. }
  destruct (executed _ _ _ _ _ Hv') as (d & Hd & He). eexists. split; [exact He|]. cbn [records ledger].
  apply calm_votes; [by eapply calm_end|]. by eapply end_sound; [apply calm_sound| |].
Qed.

(** *** What the page reads

    The page asks the service for the field [delegatee].
    Models [loadStatus] (frontend/src/app/governance/delegation/page.tsx:41-48). *)
Definition page_delegatee (answer : list (string * (string + Z))) : option (string + Z) := alist_get "delegatee" answer.

(** The page never shows a delegation: no answer of the service has the field. *)
Theorem page_shows_no_delegation a w r w' : getDelegation a w = (Ok r, w') → page_delegatee r = None.
Proof.
  unfold getDelegation. intros (x & w1 & _ & H1)%bind_ok_inv. destruct x as [d|]; [|done]. by injection H1 as <- _.
Qed.
End service.
End Service.

(** ** Runs *)

Module DelegationRuns.
Import Client Contract Service.

(** A breaker that is always closed. *)
#[local] Instance closed : Breaker () := { opened _ := false; admits _ := true; late _ := false; settle _ b := b }.

Definition everyone (a : string) : bool := true.
Definition text (e : Contract.Error) : string := "HostError: Error(Contract)".
Definition encodes (c : call) : bool := true.
Definition world_at (d : delegations) (o : list (option string)) : net () chain := Net tt (Chain d 10 o) 0.
Definition d1 : delegations := {[ "A" := {| delegate := "B"; expiry_ledger := 99 |} ]}.

Lemma d1_calm : calm d1 10.
Proof. by apply (calm_delegate ∅ 10 "A" "B" 99); [constructor| |vm_compute]. Qed.

(** Two requests that time out are repeated; a third failure is the caller's. *)
Example retried :
  (fetchDelegation everyone text (Some "C1") encodes "A" (world_at d1 [Some "ETIMEDOUT"; Some "503"])).1 = Ok (Some {| delegate := "B"; expiry_ledger := 99 |}) ∧
  (fetchDelegation everyone text (Some "C1") encodes "A" (world_at d1 [Some "ETIMEDOUT"; Some "503"; Some "502"])).1 = Throw (Failed (Err "502")).
Proof. by vm_compute. Qed.

(** The service builds the delegation that closes a circle. *)
Example circle_built :
  let d2 : delegations := {[ "A" := {| delegate := "C"; expiry_ledger := 99 |}; "B" := {| delegate := "A"; expiry_ledger := 99 |} ]} in
  (buildDelegate everyone text (Some "C1") encodes "A" "B" 99 (world_at d2 [])).1 = Ok (DelegateVote "A" "B" 99).
Proof. by vm_compute. Qed.

Lemma calm_votes_witness : ∃ t, resolve_vote_delegation_target d1 10 "A" = Ok t ∧ ballot_check d1 10 t = Ok tt.
Proof. apply (proj1 (calm_votes d1 10 "A" d1_calm)). Defined.

Lemma waiting_ends_witness :
  match (@waitForResult () chain closed (chain_node everyone text) "h" 4000 (world_at d1 [])).1 with
  | Ok r => r = Some SUCCESS ∨ r = Some FAILED
  | Throw _ => True
  end.
Proof. by apply waiting_ends. Defined.

Lemma delegation_read_back_witness :
  ∃ n', execute (DelegateVote "A" "B" 99) (Chain ∅ 10 [Some "503"]) = Ok n' ∧ records n' !! "A" = Some {| delegate := "B"; expiry_ledger := 99 |}.
Proof.
  destruct (delegation_read_back everyone text (Some "C1") encodes "A" "B" 99 (world_at ∅ [Some "503"]) (DelegateVote "A" "B" 99)
              (buildDelegate everyone text (Some "C1") encodes "A" "B" 99 (world_at ∅ [Some "503"])).2) as (n' & H1 & H2 & _); [by vm_compute|].
  by exists n'.
Defined.

Lemma undelegation_restores_vote_witness :
  ∃ n', execute (DelegateVote "A" "B" 0) (Chain d1 10 []) = Ok n' ∧ ballot_check (records n') (ledger n') "A" = Ok tt.
Proof.
  apply (undelegation_restores_vote everyone text (Some "C1") encodes "A" (world_at d1 []) (DelegateVote "A" "B" 0)
           (buildUndelegate everyone text (Some "C1") encodes "A" (world_at d1 [])).2); [apply d1_calm|done|by vm_compute].
Defined.

Lemma page_shows_no_delegation_witness :
  page_delegatee [("delegator", inl "A"); ("delegate", inl "B"); ("expiryLedger", inr 99)] = None.
Proof.
  by apply (page_shows_no_delegation everyone text (Some "C1") encodes "A" (world_at d1 []) _
              (getDelegation everyone text (Some "C1") encodes "A" (world_at d1 [])).2); vm_compute.
Defined.
End DelegationRuns.
