(* ===== verification/PolicyList.v ===== *)
(** * The list of policies in the web front end

    frontend/src/features/policies/hooks/usePolicies.ts: the pages of a holder's
    policies, with the reducer, the two effects and the requests they abort, and
    useOptimisticPolicies.ts, which shows the entries of [Optimistic] over them.  The
    component is a machine: an event, then the renders it causes, each of which runs the
    effects whose dependencies changed. *)

From stdpp Require Import base gmap list strings.
From Stdlib Require Import ZArith Lia Sorted.
From S2P Require Import Prelude JsText Optimistic.

Open Scope string_scope.
Open Scope Z_scope.

(** The columns of a policy that the list reads; amounts are whole numbers. *)
Record PolicyDto := { policy_id : Z; is_active : bool; end_ledger : Z; coverage_amount : Z; premium_amount : Z }.

Inductive PolicySortField := expiry | coverage | premium | unsorted.
#[export] Instance sort_eq_dec : EqDecision PolicySortField.
Proof. solve_decision. Defined.

(** Models [sortPolicies] (frontend/src/features/policies/hooks/usePolicies.ts:187-203). *)
Definition sortPolicies (policies : list PolicyDto) (sort : PolicySortField) : list PolicyDto :=
  match sort with
  | expiry => stable_sort (λ a b, 0 <? end_ledger a - end_ledger b) policies
  | coverage => stable_sort (λ a b, 0 <? coverage_amount b - coverage_amount a) policies
  | premium => stable_sort (λ a b, 0 <? premium_amount b - premium_amount a) policies
  | unsorted => policies
  end.

(** The order of a sort field. *)
Definition in_order (sort : PolicySortField) (a b : PolicyDto) : Prop :=
  match sort with
  | expiry => end_ledger a ≤ end_ledger b
  | coverage => coverage_amount b ≤ coverage_amount a
  | premium => premium_amount b ≤ premium_amount a
  | unsorted => True
  end.

(** Sorting shows the same policies in the order that was asked for. *)
Theorem sortPolicies_sorted l sort : sortPolicies l sort ≡ₚ l ∧ (sort ≠ unsorted → StronglySorted (in_order sort) (sortPolicies l sort)).
Proof.
  split; [destruct sort; [apply stable_sort_perm..|done]|]. intros Hs.
  destruct sort; try done; cbn [sortPolicies];
    (apply stable_sort_sorted; [intros x y z; cbn; lia|intros x y; cbn; rewrite Z.ltb_ge; lia|intros x y; cbn; rewrite Z.ltb_lt; lia]).
Qed.

(** ** The component *)

Definition PAGE_SIZE : nat := 20.

(** Models [PolicyListParams] (frontend/src/features/policies/api/index.ts:84-90). *)
Record PolicyListParams := { p_holder : string; p_status : string; p_limit : nat; after : option string }.

(** What the hook is called with. *)
Record Filter := { holder : option string; network : string; filter_status : string; sort : PolicySortField }.
#[export] Instance filter_eq_dec : EqDecision Filter.
Proof. solve_decision. Defined.

(** The sparse arrays are maps.
    Models [State] (frontend/src/features/policies/hooks/usePolicies.ts:9-20). *)
Record State := MkState {
  pages : gmap nat (list PolicyDto); cursors : gmap nat (option string); total : Z; pageIndex : nat; loading : bool; error : option string;
  lastSyncedAt : option Z; refreshNonce : nat }.

(** Models [Action] (frontend/src/features/policies/hooks/usePolicies.ts:22-29). *)
Inductive Action :=
  | FETCH_START
  | FETCH_SUCCESS (i : nat) (data : list PolicyDto) (next_cursor : option string) (n syncedAt : Z)
  | FETCH_ERROR (e : string)
  | SET_PAGE (i : nat)
  | INVALIDATE_PAGE (i : nat)
  | REFRESH
  | RESET.

(** Models [init] (frontend/src/features/policies/hooks/usePolicies.ts:31-42). *)
Definition init : State := MkState ∅ {[ 0%nat := None ]} 0 0 true None None 0.

(** Models [reducer] (frontend/src/features/policies/hooks/usePolicies.ts:44-81). *)
Definition reducer (s : State) (a : Action) : State :=
  let '(MkState pages cursors total pageIndex loading error lastSyncedAt refreshNonce) := s in
  match a with
  | FETCH_START => MkState pages cursors total pageIndex true None lastSyncedAt refreshNonce
  | FETCH_SUCCESS i data next n at_ => MkState (<[i := data]> pages) (<[S i := next]> cursors) n pageIndex false error (Some at_) refreshNonce
  | FETCH_ERROR e => MkState pages cursors total pageIndex false (Some e) lastSyncedAt refreshNonce
  | SET_PAGE i => MkState pages cursors total i loading error lastSyncedAt refreshNonce
  | INVALIDATE_PAGE i => MkState (delete i pages) cursors total pageIndex loading error lastSyncedAt (S refreshNonce)
  | REFRESH => MkState (delete pageIndex pages) cursors total pageIndex loading error lastSyncedAt (S refreshNonce)
  | RESET => init
  end.

(** The component: the props, the state, the dependencies with which each effect ran
    last, and the request under way, with the page it is for. *)
Record view := View {
  props : Filter; st : State; deps1 : option Filter; deps2 : option (Filter * nat * nat); inflight : option (nat * PolicyListParams) }.

(** The second effect, in a render with state [s]: what it dispatches and the request it
    starts.
    Models [usePolicies.effect] (frontend/src/features/policies/hooks/usePolicies.ts:112-153). *)
Definition fetch_effect (f : Filter) (s : State) : list Action * option (nat * PolicyListParams) :=
  match truthy (holder f) with
  | None => ([FETCH_ERROR "wallet_not_connected"], None)
  | Some h =>
      match pages s !! pageIndex s with
      | Some _ => ([], None)
      | None =>
          ([FETCH_START],
           Some (pageIndex s, {| p_holder := h; p_status := filter_status f; p_limit := PAGE_SIZE; after := default None (cursors s !! pageIndex s) |}))
      end
  end.

(** A render and its effects; a second effect that runs again first aborts the request of
    its last run.  What both effects read is the state of the render.
    Models [usePolicies] (frontend/src/features/policies/hooks/usePolicies.ts:99-113). *)
Definition pass (v : view) : view :=
  let d1 := Some (props v) in
  let d2 := Some (props v, pageIndex (st v), refreshNonce (st v)) in
  let acts1 := if bool_decide (deps1 v = d1) then [] else [RESET] in
  if bool_decide (deps2 v = d2) then View (props v) (foldl reducer (st v) acts1) d1 d2 (inflight v)
  else let '(acts2, request) := fetch_effect (props v) (st v) in
       View (props v) (foldl reducer (st v) (acts1 ++ acts2)%list) d1 d2 request.

(** Two renders are enough ([settled]). *)
Definition settle (v : view) : view := pass (pass v).

(** What the server answers to a request. *)
Definition server := PolicyListParams → result string (list PolicyDto * option string * Z).

Inductive event :=
  | EvProps (f : Filter)
  | EvAnswer (now : Z) (srv : server)
  | EvPage (i : nat)
  | EvRetry
  | EvRefresh.

Definition dispatch (a : Action) (v : view) : view := View (props v) (reducer (st v) a) (deps1 v) (deps2 v) (inflight v).
Definition answered (v : view) : view := View (props v) (st v) (deps1 v) (deps2 v) None.

Definition react (v : view) (e : event) : view :=
  match e with
  | EvProps f => View f (st v) (deps1 v) (deps2 v) (inflight v)
  | EvAnswer now srv =>
      match inflight v with
      | None => v
      | Some (i, p) =>
          match srv p with
          | Ok (data, next, n) => answered (dispatch (FETCH_SUCCESS i data next n now) v)
          | Throw e => answered (dispatch (FETCH_ERROR e) v)
          end
      end
  | EvPage i => dispatch (SET_PAGE i) v
  | EvRetry => dispatch (INVALIDATE_PAGE (pageIndex (st v))) v
  | EvRefresh => dispatch REFRESH v
  end.

Definition step (v : view) (e : event) : view := settle (react v e).
Definition mount (f : Filter) : view := settle (View f init None None None).
Definition run (f : Filter) (evs : list event) : view := foldl step (mount f) evs.

(** What the component shows. *)
Definition policies (v : view) : list PolicyDto := sortPolicies (default [] (pages (st v) !! pageIndex (st v))) (sort (props v)).

(** Models [hasNextPage] (frontend/src/features/policies/hooks/usePolicies.ts:168-176). *)
Definition hasNextPage (v : view) : bool :=
  let totalPages := Z.max 1 (ceil_div (total (st v)) (Z.of_nat PAGE_SIZE)) in
  (Z.of_nat (pageIndex (st v)) <? totalPages - 1) && bool_decide (is_Some (cursors (st v) !! S (pageIndex (st v)))).

(** *** The renders come to rest *)

Definition current (v : view) : Prop := deps1 v = Some (props v) ∧ deps2 v = Some (props v, pageIndex (st v), refreshNonce (st v)).

Lemma pass_current v : current v → pass v = v.
Proof. intros [H1 H2]. unfold pass. rewrite H1, H2, !bool_decide_true by done. by destruct v; cbn in *; subst. Qed.

Lemma fetch_keeps f s acts request : fetch_effect f s = (acts, request) →
  pageIndex (foldl reducer s acts) = pageIndex s ∧ refreshNonce (foldl reducer s acts) = refreshNonce s ∧ pages (foldl reducer s acts) = pages s.
Proof. unfold fetch_effect. repeat case_match; intros [= <- _]; by destruct s. Qed.

Lemma pass_again v : deps1 v = Some (props v) → current (pass v).
Proof.
  intros H. unfold pass. rewrite (bool_decide_true (deps1 v = _)) by done. case_bool_decide as H2; [by split|].
  destruct (fetch_effect (props v) (st v)) as [acts request] eqn:E. destruct (fetch_keeps _ _ _ _ E) as (E1 & E2 & _).
  unfold current. cbn. by rewrite E1, E2.
Qed.

Lemma pass_deps v : deps1 (pass v) = Some (props (pass v)).
Proof. unfold pass. case_bool_decide; [done|]. by destruct (fetch_effect _ _). Qed.

(** After two renders no effect has anything to do. *)
Theorem settled v : current (settle v) ∧ pass (settle v) = settle v.
Proof. assert (current (settle v)) as H by apply pass_again, pass_deps. split; [done|by apply pass_current]. Qed.

(** *** What is shown was asked for *)

Section asked.
(** [Q f d]: a property of the page [d] that the server guarantees for a request of the
    holder and the status of [f]. *)
Variable Q : option string → string → list PolicyDto → Prop.

Definition keeps_word (srv : server) : Prop := ∀ p d next n, srv p = Ok (d, next, n) → Q (Some (p_holder p)) (p_status p) d.
Definition honest (e : event) : Prop := match e with EvAnswer _ srv => keeps_word srv | _ => True end.

Definition of_filter (f : Filter) (s : State) : Prop := ∀ i d, pages s !! i = Some d → Q (holder f) (filter_status f) d.
Definition asks (f : Filter) (r : option (nat * PolicyListParams)) : Prop :=
  match r with Some (_, p) => holder f = Some (p_holder p) ∧ filter_status f = p_status p | None => True end.

Lemma truthy_eq o h : truthy o = Some h → o = Some h.
Proof. destruct o as [s|]; [|done]. destruct s; [done|]. by intros [= <-]. Qed.

Lemma fetch_asks f s acts r : fetch_effect f s = (acts, r) → asks f r.
Proof. unfold fetch_effect. destruct (truthy (holder f)) eqn:E; [apply truthy_eq in E; case_match|]; intros [= _ <-]; by try done. Qed.

(** Either the pages are those of the props, or the first effect is about to drop them. *)
Definition fits (v : view) : Prop :=
  (deps1 v = Some (props v) → of_filter (props v) (st v)) ∧
  (deps2 v = Some (props v, pageIndex (st v), refreshNonce (st v)) → asks (props v) (inflight v)).

Lemma of_filter_init f : of_filter f init.
Proof. intros i d. cbn. by rewrite lookup_empty. Qed.

Lemma pass_fits v : fits v → fits (pass v) ∧ props (pass v) = props v.
Proof.
  intros [H1 H2]. unfold pass. destruct (fetch_effect (props v) (st v)) as [acts r] eqn:E.
  assert (of_filter (props v) (foldl reducer (st v) (if bool_decide (deps1 v = Some (props v)) then [] else [RESET]))) as Hp.
  { case_bool_decide as Hd; [by apply H1|]. cbn [foldl]. destruct (st v). apply of_filter_init. }
  destruct (decide (deps2 v = Some (props v, pageIndex (st v), refreshNonce (st v)))) as [Hd2|Hd2];
    [rewrite (bool_decide_true (deps2 v = _)) by done|rewrite (bool_decide_false (deps2 v = _)) by done].
  - split; [|reflexivity]. split; cbn [props st deps1 deps2 inflight]; intros _; [exact Hp|by apply H2].
  - split; [|reflexivity]. split; cbn [props st deps1 deps2 inflight]; intros _; [|by eapply fetch_asks].
    rewrite foldl_app. intros i d. set (s := foldl reducer (st v) _) in *.
    assert (pages (foldl reducer s acts) = pages s) as ->.
    { revert E. unfold fetch_effect. repeat case_match; intros [= <- _]; by destruct s. }
    apply Hp.
Qed.

Lemma react_fits v e : honest e → current v → fits v → fits (react v e).
Proof.
  intros He [C1 C2] [H1 H2]. specialize (H1 C1). specialize (H2 C2). destruct e as [f|now srv|i| |]; cbn [react].
  - split; cbn [props st deps1 deps2 inflight]; intros Hd; [rewrite C1 in Hd; by injection Hd as <-|]. rewrite C2 in Hd. by injection Hd as <-.
  - destruct (inflight v) as [[i p]|] eqn:Ei; [|split; intros _; [done|by rewrite Ei]]. destruct H2 as [Eh Es]. destruct (srv p) as [[[d next] n]|x] eqn:Ep.
    + split; cbn [answered dispatch props st deps1 deps2 inflight]; intros _; [|done]. intros j d'. destruct (st v); cbn [reducer pages].
      intros [[<- <-]|[_ Hj]]%lookup_insert_Some; [rewrite Eh, Es; by eapply He|by eapply H1].
    + split; cbn [answered dispatch props st deps1 deps2 inflight]; intros _; [|done]. intros j d'. specialize (H1 j d'). by destruct (st v).
  - split; cbn [dispatch props st deps1 deps2 inflight]; intros _; [|done]. intros j d'. specialize (H1 j d'). by destruct (st v).
  - split; cbn [dispatch props st deps1 deps2 inflight]; intros _; [|done]. intros j d'. specialize (H1 j d'). destruct (st v); cbn in *.
    intros [_ Hj]%lookup_delete_Some. by apply H1.
  - split; cbn [dispatch props st deps1 deps2 inflight]; intros _; [|done]. intros j d'. specialize (H1 j d'). destruct (st v); cbn in *.
    intros [_ Hj]%lookup_delete_Some. by apply H1.
Qed.

Lemma settle_fits v : fits v → fits (settle v).
Proof. intros H. by apply pass_fits, pass_fits. Qed.

(** C23: Over every history of filters, pages, answers and refreshes: each page the component
    holds was returned for the holder and the status it shows now, so that a late answer
    for another filter is never shown. *)
Theorem pages_of_filter f evs : Forall honest evs →
  let v := run f evs in of_filter (props v) (st v) ∧ asks (props v) (inflight v).
Proof.
  intros He. cbv zeta. assert (fits (run f evs) ∧ current (run f evs)) as [[H1 H2] [C1 C2]]; [|by split; [apply H1|apply H2]].
  unfold run. assert (fits (mount f) ∧ current (mount f)) as H0.
  { split; [|apply settled]. apply settle_fits. split; cbn; [done|done]. }
  revert H0. generalize (mount f). induction He as [|e evs He _ IH]; intros v [Hf Hc]; [done|]. cbn [foldl]. apply IH.
  split; [|apply settled]. by apply settle_fits, react_fits.
Qed.
End asked.

(** *** Nothing hangs while the filter stays *)

(** The page is loaded, being loaded, or has failed. *)
Definition live (v : view) : Prop :=
  current v ∧ (∀ i p, inflight v = Some (i, p) → i = pageIndex (st v)) ∧
  (is_Some (pages (st v) !! pageIndex (st v)) ∨ is_Some (inflight v) ∨ is_Some (error (st v))).

Lemma pass_live v : deps1 v = Some (props v) →
  (current v → live v) → live (pass v).
Proof.
  intros H1 Hl. destruct (decide (deps2 v = Some (props v, pageIndex (st v), refreshNonce (st v)))) as [H2|H2].
  { assert (current v) as Hc by done. rewrite pass_current by done. by apply Hl. }
  split; [by apply pass_again|]. unfold pass. rewrite (bool_decide_true (deps1 v = _)), (bool_decide_false (deps2 v = _)) by done.
  unfold fetch_effect. destruct (truthy (holder (props v))) as [h|]; [destruct (pages (st v) !! pageIndex (st v)) as [d|] eqn:Ed|];
    cbn [app foldl inflight st]; destruct (st v); cbn in *; split; try done; eauto. by intros i p [= <- _].
Qed.

Lemma live_step v e : live v → (∀ f, e = EvProps f → f = props v) → live (step v e).
Proof.
  intros ((C1 & C2) & Hi & Hl) He. unfold step. assert (deps1 (react v e) = Some (props (react v e))) as H1.
  { destruct e as [f|now srv|i| |]; cbn [react]; try done; [by rewrite (He f)|]. destruct (inflight v) as [[i p]|]; [|done]. by destruct (srv p) as [[[? ?] ?]|]. }
  assert (live (pass (react v e))) as Hp.
  { apply pass_live; [done|]. intros Hc. split; [done|]. destruct e as [f|now srv|i| |]; cbn [react] in *.
    - done.
    - destruct (inflight v) as [[i p]|] eqn:Ei; [|rewrite Ei; by split]. specialize (Hi i p eq_refl). subst i.
      destruct (srv p) as [[[d next] n]|x]; cbn [answered dispatch inflight st]; (split; [done|]); destruct (st v); cbn [reducer pages pageIndex error].
      + left. rewrite lookup_insert_eq. eauto.
      + right. right. eauto.
    - destruct Hc as [_ Hc]. cbn in Hc. rewrite C2 in Hc. cbn [dispatch st inflight] in *. destruct (st v); cbn in *. injection Hc as <-. exact (conj Hi Hl).
    - destruct Hc as [_ Hc]. cbn in Hc. rewrite C2 in Hc. destruct (st v); cbn in *. injection Hc as Hn. lia.
    - destruct Hc as [_ Hc]. cbn in Hc. rewrite C2 in Hc. destruct (st v); cbn in *. injection Hc as Hn. lia. }
  unfold settle. rewrite (pass_current (pass _)); [done|apply Hp].
Qed.

(** While the filter stays as it was when the component was mounted, the page that is
    shown is loaded, is being loaded, or an error is told. *)
Theorem page_settles f evs : Forall (λ e, match e with EvProps _ => False | _ => True end) evs → live (run f evs).
Proof.
  intros He. unfold run. assert (live (mount f)) as H0.
  { unfold mount, settle. assert (live (pass (pass (View f init None None None)))) as H; [|exact H]. apply pass_live; [apply pass_deps|].
    intros _. unfold pass. cbn [deps1 deps2 props st]. rewrite !bool_decide_false by done. unfold fetch_effect.
    destruct (truthy (holder f)); (split; [done|]); (split; [by intros i p [= <- _]|]); cbn; eauto. }
  revert H0. generalize (mount f). induction He as [|e evs He _ IH]; intros v Hv; [done|]. cbn [foldl]. apply IH, live_step; [done|].
  by intros g ->.
Qed.

(** *** A change of the filter hangs

    The first effect empties the list only after the second has found the page there; in
    the next render the dependencies of the second are the same, and it does not run. *)
Theorem filter_change_hangs v f h d :
  current v → pageIndex (st v) = 0%nat → refreshNonce (st v) = 0%nat → pages (st v) !! 0%nat = Some d → truthy (holder f) = Some h → f ≠ props v →
  let v' := step v (EvProps f) in
  policies v' = [] ∧ loading (st v') = true ∧ inflight v' = None ∧ ∀ now srv, step v' (EvAnswer now srv) = v'.
Proof.
  intros [C1 C2] Hi Hn Hp Hh Hf. cbv zeta.
  assert (step v (EvProps f) = View f init (Some f) (Some (f, 0%nat, 0%nat)) None) as ->.
  { unfold step, settle. cbn [react]. assert (pass (View f (st v) (deps1 v) (deps2 v) (inflight v)) = View f init (Some f) (Some (f, 0%nat, 0%nat)) None) as ->.
    { unfold pass. cbn [deps1 deps2 props st]. rewrite C1, C2. rewrite bool_decide_false by (intros [= E]; by apply Hf).
      rewrite bool_decide_false by (intros [= E]; by apply Hf). unfold fetch_effect. rewrite Hh, Hi, Hn, Hp. cbn [app foldl]. by destruct (st v). }
    by apply pass_current. }
  split_and!; [by destruct f as [? ? ? []]|done|done|]. intros now srv. unfold step, settle. cbn [react inflight].
  rewrite (pass_current (View _ _ _ _ _)) by (by split). by apply pass_current.
Qed.

(** ** The entries shown over the list *)

(** Models [mergedPolicies] (frontend/src/features/policies/hooks/useOptimisticPolicies.ts:96-100). *)
Definition mergedPolicies (l : list PolicyDto) (entries : gmap string (OptimisticEntry PolicyDto)) : list PolicyDto :=
  (λ p, match entries !! show_Z (policy_id p) with
        | Some e => match status e with Confirmed => p | Failed => previousData e | Pending => optimisticData e end
        | None => p
        end) <$> l.

(** Models [applyOptimisticPolicy] (frontend/src/features/policies/hooks/useOptimisticPolicies.ts:85-93). *)
Definition applyOptimisticPolicy (now : Z) (p : PolicyDto) (tx : option string) (s : gmap string (OptimisticEntry PolicyDto)) : gmap string (OptimisticEntry PolicyDto) :=
  (Optimistic.apply now (show_Z (policy_id p)) policy_initiation
     {| policy_id := policy_id p; is_active := true; end_ledger := end_ledger p; coverage_amount := coverage_amount p; premium_amount := premium_amount p |} p tx s).2.

(** A policy that was started and is not on the server's list is not shown: the entries
    only replace rows the list has. *)
Theorem initiated_policy_not_shown now p tx s l :
  policy_id p ∉ (policy_id <$> l) → mergedPolicies l (applyOptimisticPolicy now p tx s) = mergedPolicies l s.
Proof.
  intros Hp. unfold mergedPolicies, applyOptimisticPolicy. cbn. apply list_fmap_ext. intros i q Hq.
  rewrite lookup_insert_ne; [done|]. intros E. apply Hp. assert (policy_id p = policy_id q) as ->.
  { pose proof (parseInt10_show (policy_id p)) as H1. rewrite E, parseInt10_show in H1. congruence. }
  apply list_elem_of_fmap_2. by eapply list_elem_of_lookup_2.
Qed.

(** ** Runs *)

Module PolicyListRuns.

Definition pol (i : Z) (e : Z) : PolicyDto := {| policy_id := i; is_active := i =? 1; end_ledger := e; coverage_amount := 10; premium_amount := 1 |}.
Definition f0 : Filter := {| holder := Some "G1"; network := "testnet"; filter_status := "all"; sort := expiry |}.
Definition f1 : Filter := {| holder := Some "G1"; network := "testnet"; filter_status := "active"; sort := expiry |}.
Definition srv : server := λ p, Ok (if bool_decide (p_status p = "active") then [pol 1 20] else [pol 1 20; pol 2 10], Some "c", 40).

(** The first page is shown in its order; after the filter has changed nothing more is
    loaded; a refresh loads the page. *)
Example shown_then_stuck :
  let v := run f0 [EvAnswer 0 srv] in
  (policy_id <$> policies v) = [2; 1] ∧ hasNextPage v = true ∧
  let v' := step v (EvProps f1) in policies v' = [] ∧ loading (st v') = true ∧ inflight v' = None ∧
  (policy_id <$> policies (step (step v' EvRefresh) (EvAnswer 0 srv))) = [1].
Proof. by vm_compute. Qed.

(** Leaving a page that is being loaded for one that is there aborts the request and
    leaves the component loading. *)
Example abandoned_page_keeps_loading :
  let v := run f0 [EvAnswer 0 srv; EvPage 1; EvPage 0] in
  (policy_id <$> policies v) = [2; 1] ∧ loading (st v) = true ∧ inflight v = None.
Proof. by vm_compute. Qed.

(** What the server promises: under "active" it lists active policies only. *)
Definition active_only (h : option string) (s : string) (d : list PolicyDto) : Prop := s = "active" → Forall (λ p, is_active p = true) d.

Lemma pages_of_filter_witness :
  let v := run f0 [EvAnswer 0 srv; EvProps f1; EvRefresh; EvAnswer 1 srv] in of_filter active_only (props v) (st v).
Proof.
  refine (proj1 (pages_of_filter active_only f0 [EvAnswer 0 srv; EvProps f1; EvRefresh; EvAnswer 1 srv] _)).
  assert (keeps_word active_only srv) as Hs.
  { intros p d next n [= <- _ _] ->. rewrite bool_decide_true by done. by repeat constructor. }
  repeat constructor; exact Hs.
Defined.

Lemma page_settles_witness : live (run f0 [EvAnswer 0 srv; EvPage 1]).
Proof. apply page_settles. repeat constructor. Defined.

Lemma filter_change_hangs_witness : policies (step (run f0 [EvAnswer 0 srv]) (EvProps f1)) = [].
Proof. by apply (filter_change_hangs (run f0 [EvAnswer 0 srv]) f1 "G1" [pol 1 20; pol 2 10]); [apply settled|reflexivity..|done]. Defined.

Lemma initiated_policy_not_shown_witness :
  mergedPolicies [pol 1 20] (applyOptimisticPolicy 0 (pol 7 30) None ∅) = mergedPolicies [pol 1 20] ∅.
Proof. apply initiated_policy_not_shown. intros H. by apply list_elem_of_singleton in H. Defined.
End PolicyListRuns.
